(* ===== verification/_CoqProject ===== *)
-Q . S2P
Prelude.v
Printbuf.v
ArrayList.v
LinkHash.v
JsonUtil.v
JsonTokener.v
JsonValue.v
TokenerInv.v
JsonPrint.v
JsonRoundTrip.v
TokenerUnicode.v
JsonObject.v
JsonTree.v
Netlink.v
Syscalls.v
NetRequests.v
NlParse.v
NlHash.v
NlAttr.v
NlCache.v
NlCacheInv.v
NlMngt.v
NlSocket.v
NlRecv.v
NlAddr.v
NlRtnl.v
NlRule.v
NlNeigh.v
NlIfaddr.v
NlRequest.v
NlSync.v
NlIfaddrSync.v
NlMngr.v
NetInterface.v
NetIptable.v
