(* ===== verification/Prelude.v ===== *)
(** * Verification of the C programs of linux_program

    The repository is a collection of C programs around containers and
    networking.  This library models the parts that carry logic of their own:

    - json-c-0.11, the JSON library the programs link: text buffers, hash
      tables, the incremental parser, the printer, reference-counted objects;
    - network/code, network/getaddr, network/get_interface: netlink and ioctl
      requests that set up container interfaces, and readers of netlink dumps;
    - network/net_interface and network/code/iptable.c: the network of a
      container set up by commands, with a parent and a child process;
    - network/mylibnl/libnl-3.2.25: the attribute and message layer, the hash
      function, the objects, hash tables and caches, the sockets of libnl with
      their callbacks, sending and receiving, its addresses, and three
      object types: routing rules, neighbours and interface addresses.

    ** How the parts interact

    [json_tokener] builds objects through the constructors of [json_object],
    collects text in a [printbuf] and numbers through [json_util]; an object
    holds a [linkhash] table, an [arraylist] or a scalar; the printer writes
    into a [printbuf].  [network.c] builds messages with [nl.c] and exchanges
    them with the kernel; [getaddr.c] and [interface.c] parse what the kernel
    dumps.  In libnl a cache is a list of objects, optionally indexed by a hash
    table whose keys come from the hash function; messages and attributes are
    the format the objects travel in.  A libnl socket has a port from a bitmap
    of the process and a shared set of callbacks, which the receive loop calls
    on every message; a request is completed from the state of the socket, sent,
    and waited for in that loop.  A routing object has a mask of the attributes
    it has and counted references to addresses and links; it is made into a
    message and parsed from one with the attribute layer.  A cache is filled by a request
    for a dump, whose messages the receive loop hands to the parser of the
    object type, which hands the objects to the cache; a cache manager does the
    same with the notifications of the kernel, for a table of caches.

    ** Files

    - [Prelude]: machine integers with their wrap-around ([wrap], [swrap], [u32],
      [s32], ...), blocks of bytes, C strings, the allocator as a class.
    - [Printbuf], [ArrayList], [LinkHash], [JsonUtil]: printbuf.c, arraylist.c,
      linkhash.c, json_util.c.  Each has a record for the C struct, a definition
      per function and a refinement theorem: the buffer is a list of bytes, the
      array a list, the open-addressing table with its chain of entries an
      association list in insertion order.
    - [JsonTokener]: json_tokener.c, one definition per [case] of the switch of
      [json_tokener_parse_ex], the stack of levels, the macros PEEK_CHAR and
      ADVANCE_CHAR.  The objects it builds are behind the class [JsonOps];
      [JsonValue] is the instance with trees.  [TokenerInv]: the parser ends on
      any input, within the fuel [fuel_for], by a return or, when the copy of a
      field name could not be allocated, by the use of the null pointer.  [TokenerUnicode]: escapes and
      surrogate pairs, and inputs on which the parser errs.
    - [JsonPrint]: the printer of json_object.c; [JsonRoundTrip]: parsing what
      was printed gives the value back, in all styles.
    - [JsonObject]: json_object.c and json_object_iterator.c on a store of
      reference-counted objects; [JsonTree]: the operations refine operations on
      trees, no reference is lost, the last one frees exactly the tree.
    - [Netlink]: the message builder of network/code/nl.c; [Syscalls]: programs
      that call the kernel, the kernel being an arbitrary function of the
      history; [NetRequests]: nl.c's sockets and network.c.
    - [NlParse]: getaddr.c and get_interface/interface.c.
    - [NetInterface]: net_interface/interface.c, and main.c as two processes
      that take steps in any order; [NetIptable]: iptable.c and main.c of
      network/code.
    - [NlHash]: lib/hash.c; [NlAttr]: lib/attr.c and lib/msg.c; [NlCache]:
      lib/object.c, lib/hashtable.c, lib/cache.c and list.h; [NlCacheInv]: the
      theorems about them; [NlMngt]: lib/cache_mngt.c, the registry of cache
      types.
    - [NlSocket]: lib/error.c (the translation of error numbers), lib/handlers.c,
      lib/socket.c and [nl_connect] of lib/nl.c; [NlRecv]: the sending and
      receiving functions of lib/nl.c, the receive loop [recvmsgs] as a chain of
      definitions, one per block of its body.
    - [NlAddr]: lib/addr.c with the tables of names of lib/utils.c.
    - [NlRtnl]: what routing objects share: a heap of counted addresses with
      the invariant [heap_ok], the macros that put, read and compare attributes,
      lib/route/rtnl.c and the flag tables of lib/utils.c; [NlRule]:
      lib/route/rule.c; [NlNeigh]: lib/route/neigh.c; [NlIfaddr]:
      lib/route/addr.c; the last two with the instance of [ObjectLaws] that makes
      neighbours and interface addresses objects of a cache.
    - [NlRequest]: the requests of rule.c, neigh.c and rtnl.c that send these
      messages and wait for the answer; [NlSync]: the functions of lib/cache.c
      that fill and update a cache from the kernel, with the cache of
      neighbours; [NlIfaddrSync]: the requests and the cache of lib/route/addr.c;
      [NlMngr]: lib/cache_mngr.c, the cache manager.

    A definition has the name of the C function; a loop or a part of a function
    that is a definition of its own is next to it.  A result [None] stands for
    undefined behaviour (a read or write outside a block, a released pointer,
    an uninitialised variable, [abort]); error returns are values.

    ** What the theorems show

    Each theorem names its conditions; the cases they leave out are, where the
    code fails in them, the subject of a theorem of their own.

    - Round trips: a JSON value printed and parsed (nested less than 32 deep), an integer printed and
      scanned, attributes built and parsed (network/code and libnl), addresses,
      names of numbers and flags printed and parsed, a routing rule, a
      neighbour or an interface address sent and received.
    - Refinement: printbuf, arraylist, linkhash, JSON objects and arrays, and
      libnl caches (add, remove, move, search, free) act as bytes, lists,
      association lists, trees and lists of objects; the registry of cache types
      acts as a map with counted references; the setters of rules, neighbours and
      interface addresses act on records of optional attributes, the prefix
      length of an interface address being that of the address it shares with
      its user; neighbours and interface addresses on the heap keep the promises
      of an object type of a cache.
    - Memory and resources: releasing a JSON tree or a cache frees exactly what
      nobody else holds; every path of the netlink requests closes its socket
      and frees its messages; a libnl socket that is created, connected and freed
      gives back its ports, callbacks and descriptor; the receive loop frees
      what it allocates, for a kernel that reports truncated control data only
      when it has stored some; the attribute parsers stay inside the buffer on
      any bytes, for regions that are padded or have bytes behind them, the address parser inside its buffer on any text; validated
      attributes have their declared types; the parsers of rules, neighbours and
      interface addresses keep the counts of addresses and links on any such message.
    - Termination and liveness: the tokener ends on every input; the dump reader
      returns once the socket is empty, with a filter that always returns and
      datagrams that leave a word of the buffer free.
    - Equivalence: every read strategy of the hash (aligned or not, both byte
      orders) computes one function of the bytes; hashed search equals a scan;
      comparing address prefixes compares their leading bits; comparing two
      rules finds exactly the attributes that differ.
    - Protocols: a dump of the kernel reaches the user whole and in order (both
      in getaddr.c and in libnl); a libnl request is sent once and matched with
      the answer that has its sequence number; local ports are unique; a rule, a
      neighbour or an interface address added or deleted arrives in one message
      that parses back to it, and the kernel's verdict is what the caller gets; a
      cache that was refilled by one uninterrupted dump holds exactly what the
      kernel said last of each object (entries of a bridge not considered), with
      every message and every reference given back; a cache manager
      fills the caches that are added to it and then follows the notifications
      of the kernel in all of them, telling its user of exactly the changes.
    - Processes and commands: with the pipe between them the parent and the child
      of net_interface run the same commands in the same order in every
      interleaving and never wait for ever; a command that sets up an interface
      has exactly the words of its request.
    - Errors: what the functions return and keep when memory runs out, when an
      answer is cut, when an object exists already; and the inputs on which the
      code does not do what its comments say, each with a theorem or a lemma.

    ** Fuel

    The tokener has fuel [fuel_for] (linear in the length of the input), which
    [TokenerInv] shows to be enough; attribute and message walks have as much
    fuel as bytes; a release of JSON objects has as much as there are objects;
    the calls of libnl that release objects nest at most three deep, and
    [nl_connect] tries at most 1025 ports.  The loops without a bound in the
    code, [nl_parse_info] and libnl's [nl_recv] and [recvmsgs], have the number of
    rounds as an argument; theorems say how many are enough, given how long the
    kernel has something to read; a pickup reads again at most as often as its
    argument says, and a cache manager reads at most as many datagrams.

    ** Parameters

    The allocator ([Allocator]: which requests succeed), the kernel ([Kernel],
    and [RecvOutputs] for the addresses and control data it stores), the conversions of [double] ([DoubleOps], [DoubleConv]: the C library's
    printing and scanning), the text form of IPv6 addresses ([Inet6]) and the functions of an object type of libnl
    ([nl_object_ops], with the laws [ObjectLaws]) are arguments of the
    definitions, and for the cache manager also the calls of the registry; theorems that need more of them say so in a hypothesis, and
    their witnesses instantiate it.

    ** Not modelled

    - libnl: the object types other than rules, neighbours and interface
      addresses (lib/route, lib/netfilter,
      lib/genl, lib/idiag, lib/fib_lookup), most of whose code fills structures
      from attributes, with the flex and bison output they include; name resolution (addr.c), unit
      conversions (utils.c), [nl_pickup], dumping, the command line tools and the
      Python binding.
    - json-c: debug output, the seed of the hash, the tests.
    - The small programs (domain_sock, msq_domain, fd_lock, curl, local_tcp,
      epool, ...), which are sequences of system calls with printed results.

    The next parts in order of worth: the other objects of lib/route (links,
    routes), then network/get_link. *)

From Stdlib Require Import ZArith Lia List Ascii String Bool.
From stdpp Require Import base list numbers option gmap.

#[export] Set Default Goal Selector "!".
#[export] Set Warnings "-clear-no-such-hyp".

Open Scope Z_scope.

(** ** Machine integers *)

(** The residue of [z] modulo [2^w], as an unsigned [w]-bit integer. *)
Definition wrap (w z : Z) : Z := z mod 2 ^ w.

(** The two's-complement reading of the low [w] bits of [z]. *)
Definition swrap (w z : Z) : Z := (z + 2 ^ (w - 1)) mod 2 ^ w - 2 ^ (w - 1).

Definition u8 (z : Z) : Z := wrap 8 z.
Definition u16 (z : Z) : Z := wrap 16 z.
Definition u32 (z : Z) : Z := wrap 32 z.
Definition u64 (z : Z) : Z := wrap 64 z.
Definition s8 (z : Z) : Z := swrap 8 z.
Definition s32 (z : Z) : Z := swrap 32 z.
Definition s64 (z : Z) : Z := swrap 64 z.

Definition INT_MAX : Z := 2147483647.
Definition INT_MIN : Z := -2147483648.
Definition INT32_MAX : Z := 2147483647.
Definition INT32_MIN : Z := -2147483648.
Definition INT64_MAX : Z := 9223372036854775807.
Definition INT64_MIN : Z := -9223372036854775808.

Lemma swrap_id w z : 1 <= w -> - 2 ^ (w - 1) <= z < 2 ^ (w - 1) -> swrap w z = z.
Proof.
  intros Hw Hz. unfold swrap.
  assert (2 ^ w = 2 * 2 ^ (w - 1)) as E.
  { replace w with (1 + (w - 1)) at 1 by lia. rewrite Z.pow_add_r by lia. lia. }
  rewrite Z.mod_small by lia. lia.
Qed.

Lemma s32_id z : INT_MIN <= z <= INT_MAX -> s32 z = z.
Proof.
  intros H. apply swrap_id; [lia|]. unfold INT_MIN, INT_MAX in H.
  change (2 ^ (32 - 1)) with 2147483648. lia.
Qed.

Lemma s32_range z : INT_MIN <= s32 z <= INT_MAX.
Proof.
  unfold s32, swrap, INT_MIN, INT_MAX. change (2 ^ (32 - 1)) with 2147483648.
  pose proof (Z.mod_pos_bound (z + 2147483648) (2 ^ 32)).
  change (2 ^ 32) with 4294967296 in *. lia.
Qed.

Lemma wrap_id w z : 0 <= z < 2 ^ w -> wrap w z = z.
Proof. intros. unfold wrap. by apply Z.mod_small. Qed.

Lemma wrap_range w z : 0 <= w -> 0 <= wrap w z < 2 ^ w.
Proof. intros. unfold wrap. apply Z.mod_pos_bound. apply Z.pow_pos_nonneg; lia. Qed.

(** ** Bytes and C strings

    A byte is a [Z] between 0 and 255; a [char *] argument is the list of the
    bytes it points to.  [schar] is the value the (signed) type [char] gives
    to a byte. *)
Abbreviation bytes := (list Z).

Definition byte_ok (b : Z) : Prop := 0 <= b < 256.

Definition schar (b : Z) : Z := s8 b.

(** Length of a list as a C [int]/[size_t] quantity. *)
Definition zlen {A} (l : list A) : Z := Z.of_nat (length l).

(** The bytes of a string literal. *)
Definition str (s : string) : bytes :=
  List.map (fun a => Z.of_N (N_of_ascii a)) (list_ascii_of_string s).

(** The C string stored at the start of a byte array: the bytes before the
    first NUL (all of them when there is none). *)
Fixpoint cstr (l : bytes) : bytes :=
  match l with
  | [] => []
  | b :: l' => if b =? 0 then [] else b :: cstr l'
  end.

Definition strlen (l : bytes) : Z := zlen (cstr l).

(** [strcmp a b == 0]. *)
Definition strcmp_eq (a b : bytes) : bool := bool_decide (cstr a = cstr b).

Definition tolower (c : Z) : Z := if (65 <=? c) && (c <=? 90) then c + 32 else c.

(** [strncmp a b n == 0] and [strncasecmp a b n == 0]; the comparison stops
    after [n] bytes or at a NUL found in both strings. *)
Fixpoint strn_eq_by (f : Z -> Z) (n : nat) (a b : bytes) : bool :=
  match n with
  | O => true
  | S n' =>
      match a, b with
      | [], [] => true
      | x :: a', y :: b' => (f x =? f y) && strn_eq_by f n' a' b'
      | _, _ => false
      end
  end.

Definition strncmp_eq (a b : bytes) (n : Z) : bool :=
  strn_eq_by id (Z.to_nat n) (cstr a) (cstr b).

Definition strncasecmp_eq (a b : bytes) (n : Z) : bool :=
  strn_eq_by tolower (Z.to_nat n) (cstr a) (cstr b).

(** [isspace] and [isdigit] in the C locale. *)
Definition isspace (c : Z) : bool := (c =? 32) || ((9 <=? c) && (c <=? 13)).
Definition isdigit (c : Z) : bool := (48 <=? c) && (c <=? 57).

(** [strchr s c != NULL]: the terminating NUL of [s] is searched too. *)
Definition strchr (s : bytes) (c : Z) : bool :=
  (c =? 0) || existsb (Z.eqb c) (cstr s).

(** ** Memory blocks *)

(** [memcpy (buf + off) data (length data)] on the block [buf].  The copy of
    bytes past the end of the block makes the list longer than the block, so
    that "every write is in bounds" is "the length does not change". *)
Definition splice {A} (off : Z) (data buf : list A) : list A :=
  take (Z.to_nat off) buf ++ data ++ drop (Z.to_nat off + length data) buf.

(** The allocator of the C library: whether a request of [n] bytes succeeds,
    and the byte a fresh block holds (its contents are unspecified). *)
Class Allocator := {
  malloc_ok : Z -> bool;
  malloc_byte : Z;
  malloc_max : forall n, malloc_ok n = true -> n <= 2 ^ 63 - 1
}.

(** Requests of less than [2^31] bytes succeed. *)
Definition malloc_total (al : Allocator) : Prop :=
  forall n, 0 <= n < 2 ^ 31 -> @malloc_ok al n = true.

(** A concrete allocator: 1 TiB of memory, fresh blocks filled with 0xA5. *)
Definition sample_alloc : Allocator.
Proof.
  refine {| malloc_ok := fun n => n <=? 2 ^ 40; malloc_byte := 165 |}.
  intros n H. apply Z.leb_le in H. lia.
Defined.

Lemma sample_alloc_total : malloc_total sample_alloc.
Proof. intros n Hn. simpl. apply Z.leb_le. lia. Qed.

Section SpliceLemmas.
Context {A : Type}.
Implicit Types (data buf : list A) (off : Z).

Lemma zlen_nonneg (l : list A) : 0 <= zlen l.
Proof. unfold zlen. lia. Qed.

Lemma zlen_app (l1 l2 : list A) : zlen (l1 ++ l2) = zlen l1 + zlen l2.
Proof. unfold zlen. rewrite length_app. lia. Qed.

Lemma zlen_cons (x : A) l : zlen (x :: l) = 1 + zlen l.
Proof. unfold zlen. simpl. lia. Qed.

Lemma splice_length off data buf :
  0 <= off -> off + zlen data <= zlen buf -> length (splice off data buf) = length buf.
Proof.
  unfold zlen, splice. intros.
  rewrite !length_app, length_take, length_drop. lia.
Qed.

Lemma splice_length_ge off data buf :
  0 <= off <= zlen buf -> zlen buf <= off + zlen data ->
  zlen (splice off data buf) = off + zlen data.
Proof.
  unfold zlen, splice. intros.
  rewrite !length_app, length_take, length_drop. lia.
Qed.

Lemma splice_take off data buf :
  0 <= off <= zlen buf ->
  take (Z.to_nat (off + zlen data)) (splice off data buf) = take (Z.to_nat off) buf ++ data.
Proof.
  unfold zlen, splice. intros. rewrite app_assoc.
  rewrite take_app_le by (rewrite length_app, length_take; lia).
  apply take_ge. rewrite length_app, length_take. lia.
Qed.

Lemma splice_take_before off data buf n :
  0 <= n <= off -> off <= zlen buf ->
  take (Z.to_nat n) (splice off data buf) = take (Z.to_nat n) buf.
Proof.
  unfold zlen, splice. intros.
  rewrite take_app_le by (rewrite length_take; lia).
  rewrite take_take. f_equal. lia.
Qed.

(** Writing inside the first [n] elements, or just past them, commutes with
    looking only at those elements. *)
Lemma splice_take_outer off data buf n :
  0 <= off <= n -> n <= zlen buf -> off + zlen data <= zlen buf ->
  take (Z.to_nat (Z.max n (off + zlen data))) (splice off data buf) =
  splice off data (take (Z.to_nat n) buf).
Proof.
  unfold zlen, splice. intros. rewrite !take_app, !take_take, length_take.
  f_equal; [f_equal; lia|]. f_equal; [apply take_ge; lia|].
  rewrite skipn_firstn_comm. f_equal. lia.
Qed.

Lemma splice_lookup_at off (x : A) buf :
  0 <= off < zlen buf -> splice off [x] buf !! Z.to_nat off = Some x.
Proof.
  unfold zlen, splice. intros.
  rewrite lookup_app_r by (rewrite length_take; lia).
  rewrite length_take. replace (_ - _)%nat with 0%nat by lia. done.
Qed.
End SpliceLemmas.

(** ** Reflection of boolean tests *)

Create HintDb cverif.
Create Rewrite HintDb cverif_rw.
#[export] Hint Resolve zlen_nonneg : cverif.
#[export] Hint Rewrite @zlen_app @zlen_cons @length_app : cverif_rw.

(** Case analysis on the boolean test the goal is stuck on. *)
Ltac case_test :=
  match goal with
  | |- context [ (if ?b then _ else _) ] => destruct b eqn:?
  end.

(** Turn boolean comparisons in the context into propositions. *)
Ltac bool_to_prop :=
  repeat match goal with
  | H : (_ =? _)%Z = true |- _ => apply Z.eqb_eq in H
  | H : (_ =? _)%Z = false |- _ => apply Z.eqb_neq in H
  | H : (_ <=? _)%Z = true |- _ => apply Z.leb_le in H
  | H : (_ <=? _)%Z = false |- _ => apply Z.leb_gt in H
  | H : (_ <? _)%Z = true |- _ => apply Z.ltb_lt in H
  | H : (_ <? _)%Z = false |- _ => apply Z.ltb_ge in H
  | H : (_ && _)%bool = true |- _ => apply andb_prop in H as [? ?]
  | H : (_ || _)%bool = false |- _ => apply orb_false_elim in H as [? ?]
  | H : negb _ = true |- _ => apply negb_true_iff in H
  | H : negb _ = false |- _ => apply negb_false_iff in H
  | H : bool_decide _ = true |- _ => apply bool_decide_eq_true in H
  | H : bool_decide _ = false |- _ => apply bool_decide_eq_false in H
  end.
