(* ===== verification/Printbuf.v ===== *)
(** * json-c [printbuf.c]/[printbuf.h]: a growing output buffer

    [Printbuf.printbuf] is [struct printbuf]; the operations keep the C
    names.  An operation returns the new buffer and the C return value
    (0 or a size on success, -1 on failure).  [int] arithmetic that can
    overflow is written with [s32]; memory is a list of [size] bytes and
    [splice] is the [memcpy] into it. *)

From S2P Require Import Prelude.
From Stdlib Require Import ZArith Lia String.
From stdpp Require Import base list numbers option.

Open Scope Z_scope.

Module Printbuf.

Record printbuf := Printbuf {
  buf : bytes;
  bpos : Z;
  size : Z
}.

Section Ops.
Context {al : Allocator}.

Definition printbuf_new : option printbuf :=
  if malloc_ok 16 then
    if malloc_ok 32 then
      Some {| buf := replicate 32 malloc_byte; bpos := 0; size := 32 |}
    else None
  else None.

(** [realloc buf new_size] on a block of [length b] bytes. *)
Definition realloc_bytes (b : bytes) (new_size : Z) : option bytes :=
  if malloc_ok (u64 new_size) then
    Some (take (Z.to_nat new_size) b ++
          replicate (Z.to_nat new_size - length b) malloc_byte)
  else None.

Definition printbuf_extend (p : printbuf) (min_size : Z) : printbuf * Z :=
  if size p >=? min_size then (p, 0)
  else
    let new_size := Z.max (s32 (size p * 2)) (s32 (min_size + 8)) in
    match realloc_bytes (buf p) new_size with
    | None => (p, -1)
    | Some t => ({| buf := t; bpos := bpos p; size := new_size |}, 0)
    end.

(** [memcpy (p->buf + p->bpos) data size; p->bpos += size; p->buf[p->bpos] = 0] *)
Definition append_raw (p : printbuf) (data : bytes) : printbuf :=
  let b1 := splice (bpos p) data (buf p) in
  let pos := s32 (bpos p + zlen data) in
  {| buf := splice pos [0] b1; bpos := pos; size := size p |}.

Definition printbuf_memappend (p : printbuf) (data : bytes) : printbuf * Z :=
  let need := s32 (bpos p + zlen data + 1) in
  let '(p1, r) := if size p <=? need then printbuf_extend p need else (p, 0) in
  if r <? 0 then (p1, -1) else (append_raw p1 data, zlen data).

(** The macro [printbuf_memappend_fast]; its value is not used. *)
Definition printbuf_memappend_fast (p : printbuf) (data : bytes) : printbuf :=
  if s32 (size p - bpos p) >? zlen data then append_raw p data
  else fst (printbuf_memappend p data).

Definition printbuf_memset (pb : printbuf) (offset charvalue len : Z) : printbuf * Z :=
  let offset := if offset =? -1 then bpos pb else offset in
  let size_needed := s32 (offset + len) in
  let '(pb1, r) := if size pb <? size_needed then printbuf_extend pb size_needed
                   else (pb, 0) in
  if r <? 0 then (pb1, -1)
  else
    ({| buf := splice offset (replicate (Z.to_nat len) (u8 charvalue)) (buf pb1);
        bpos := if bpos pb1 <? size_needed then size_needed else bpos pb1;
        size := size pb1 |}, 0).

(** [sprintbuf p msg ...]: [text] is what the format produces.  Up to 127
    bytes go through the stack buffer, longer texts through [vasprintf]. *)
Definition sprintbuf (p : printbuf) (text : bytes) : printbuf * Z :=
  if zlen text >? 127 then
    if malloc_ok (zlen text + 1) then (fst (printbuf_memappend p text), zlen text)
    else (p, -1)
  else (fst (printbuf_memappend p text), zlen text).

Definition printbuf_reset (p : printbuf) : printbuf :=
  {| buf := splice 0 [0] (buf p); bpos := 0; size := size p |}.

End Ops.

(** The text a buffer holds, and the C string its users read. *)
Definition contents (p : printbuf) : bytes := take (Z.to_nat (bpos p)) (buf p).

(** The invariant every operation keeps: the block has [size] bytes and the
    write position lies inside it. *)
Record pb_wf (p : printbuf) : Prop := {
  wf_len : zlen (buf p) = size p;
  wf_pos : 0 <= bpos p <= size p;
  wf_size : 1 <= size p <= INT_MAX
}.

(** The text is followed by its terminating NUL (which [printbuf_memset]
    does not write). *)
Definition terminated (p : printbuf) : Prop :=
  bpos p < size p /\ buf p !! Z.to_nat (bpos p) = Some 0.

Create HintDb printbuf.
#[export] Hint Resolve wf_len wf_pos wf_size : printbuf.

Section Lemmas.
Context {al : Allocator}.
Implicit Types (p : printbuf) (d : bytes).

Lemma contents_length p : pb_wf p -> zlen (contents p) = bpos p.
Proof.
  intros [Hl Hp _]. unfold contents, zlen in *. rewrite length_take. lia.
Qed.

Lemma realloc_bytes_length b n t :
  0 <= n -> realloc_bytes b n = Some t -> zlen t = n.
Proof.
  unfold realloc_bytes. intros Hn. case_test; [|done]. intros [= <-].
  unfold zlen. rewrite length_app, length_take, length_replicate. lia.
Qed.

Lemma realloc_bytes_take b n t k :
  (k <= length b)%nat -> Z.of_nat k <= n -> realloc_bytes b n = Some t ->
  take k t = take k b.
Proof.
  unfold realloc_bytes. intros Hk Hn. case_test; [|done]. intros [= <-].
  rewrite take_app_le by (rewrite length_take; lia).
  rewrite take_take. f_equal. lia.
Qed.

(** A refused [realloc] never has a negative size: the allocator only grants
    requests that are at most [PTRDIFF_MAX]. *)
Lemma realloc_bytes_nonneg b n t :
  INT_MIN <= n <= INT_MAX -> realloc_bytes b n = Some t -> 0 <= n.
Proof.
  unfold realloc_bytes, INT_MIN, INT_MAX. intros Hn. case_test; [|done]. intros _.
  apply malloc_max in Heqb0. destruct (Z.le_gt_cases 0 n); [done|].
  unfold u64, wrap in Heqb0.
  rewrite <- (Z_mod_plus_full n 1 (2 ^ 64)) in Heqb0.
  change (2 ^ 64) with 18446744073709551616 in *.
  change (2 ^ 63) with 9223372036854775808 in *.
  rewrite Z.mod_small in Heqb0 by lia. lia.
Qed.

(** [printbuf_extend] either fails and changes nothing, or gives room for
    [min_size] bytes and keeps the text. *)
Lemma printbuf_extend_spec p min_size p' r :
  pb_wf p -> min_size <= INT_MAX - 8 -> printbuf_extend p min_size = (p', r) ->
  (r = -1 /\ p' = p) \/
  (r = 0 /\ pb_wf p' /\ min_size <= size p' /\ bpos p' = bpos p /\
   size p <= size p' /\ take (Z.to_nat (size p)) (buf p') = buf p).
Proof.
  intros Hwf Hmin. destruct Hwf as [Hl Hp Hs]. unfold printbuf_extend.
  destruct (Z.geb_spec (size p) min_size) as [Hge|Hlt].
  { intros [= <- <-]. right. repeat split; try lia.
    apply take_ge. unfold zlen in Hl. lia. }
  set (n := Z.max _ _). destruct (realloc_bytes _ n) as [t|] eqn:E; intros [= <- <-]; [|auto].
  right.
  assert (INT_MIN <= n <= INT_MAX) as Hn.
  { pose proof (s32_range (size p * 2)). pose proof (s32_range (min_size + 8)). lia. }
  assert (min_size + 8 <= n) as Hmn.
  { unfold n. rewrite (s32_id (min_size + 8)); unfold INT_MIN, INT_MAX in *; lia. }
  pose proof (realloc_bytes_length (buf p) n t ltac:(lia) E) as Ht.
  pose proof (realloc_bytes_take (buf p) n t (length (buf p)) ltac:(lia) ltac:(unfold zlen in *; lia) E) as Hk.
  rewrite (take_ge (buf p)) in Hk by lia.
  repeat split; simpl; try lia.
  etransitivity; [|exact Hk]. f_equal. unfold zlen in Hl. lia.
Qed.

Lemma append_raw_spec p d :
  pb_wf p -> bpos p + zlen d < size p ->
  pb_wf (append_raw p d) /\ terminated (append_raw p d) /\
  contents (append_raw p d) = contents p ++ d.
Proof.
  intros [Hl Hp Hs] Hroom. pose proof (zlen_nonneg d).
  unfold append_raw. rewrite s32_id by (unfold INT_MIN, INT_MAX in *; lia).
  assert (zlen (splice (bpos p) d (buf p)) = size p) as L1.
  { unfold zlen at 1. rewrite splice_length by lia. done. }
  repeat split; simpl; try lia.
  - unfold zlen at 1. rewrite splice_length; [done|lia|].
    change (zlen [0]) with 1. lia.
  - apply splice_lookup_at. lia.
  - unfold contents. simpl. rewrite splice_take_before by lia.
    rewrite splice_take by lia. done.
Qed.

(** Appending: a failed [realloc] changes nothing and is reported with -1;
    otherwise the text grows by exactly the bytes given, is NUL-terminated and
    every write was inside the block. *)
Lemma printbuf_memappend_spec p d p' r :
  pb_wf p -> bpos p + zlen d + 1 <= INT_MAX - 8 -> printbuf_memappend p d = (p', r) ->
  (r = -1 /\ p' = p) \/
  (r = zlen d /\ pb_wf p' /\ terminated p' /\ contents p' = contents p ++ d).
Proof.
  intros Hwf Hlen. pose proof (zlen_nonneg d). unfold printbuf_memappend.
  rewrite s32_id by (destruct Hwf; unfold INT_MIN, INT_MAX in *; lia).
  case_test; bool_to_prop.
  - destruct (printbuf_extend _ _) as [p1 r1] eqn:E.
    apply printbuf_extend_spec in E; [|done|lia].
    destruct E as [[-> ->]|(-> & Hwf1 & Hsz & Hpos & Hle & Hbuf)].
    { intros [= <- <-]. auto. }
    simpl. intros [= <- <-]. right.
    destruct (append_raw_spec p1 d) as (? & ? & Hc); [done|lia|].
    split_and!; try done.
    rewrite Hc. f_equal. unfold contents. rewrite Hpos, <- Hbuf, take_take.
    f_equal. destruct Hwf. lia.
  - simpl. intros [= <- <-]. right.
    destruct (append_raw_spec p d) as (? & ? & ?); auto with lia.
Qed.

(** With an allocator that grants requests below 2 GiB, appending succeeds. *)
Lemma printbuf_extend_ok p n :
  malloc_total al -> pb_wf p -> n <= INT_MAX - 8 -> snd (printbuf_extend p n) = 0.
Proof.
  intros Hal [Hl Hp Hs] Hn. unfold printbuf_extend.
  destruct (Z.geb_spec (size p) n); [done|].
  unfold realloc_bytes. unfold u64. pose proof (s32_range (size p * 2)).
  rewrite (s32_id (n + 8)) by (unfold INT_MIN, INT_MAX in *; lia).
  rewrite wrap_id, Hal; [done|..]; unfold INT_MIN, INT_MAX in *; lia.
Qed.

Lemma printbuf_memappend_ok p d :
  malloc_total al -> pb_wf p -> bpos p + zlen d + 1 <= INT_MAX - 8 ->
  snd (printbuf_memappend p d) = zlen d.
Proof.
  intros Hal Hwf Hd. pose proof (zlen_nonneg d). unfold printbuf_memappend.
  rewrite s32_id by (destruct Hwf; unfold INT_MIN, INT_MAX in *; lia).
  case_test; [|done].
  pose proof (printbuf_extend_ok p (bpos p + zlen d + 1) Hal Hwf Hd) as E.
  destruct (printbuf_extend _ _) as [p1 r1]. simpl in E. by subst.
Qed.

(** The optimised macro computes exactly what the function does. *)
Lemma memappend_fast_eq p d :
  pb_wf p -> bpos p + zlen d + 1 <= INT_MAX ->
  printbuf_memappend_fast p d = fst (printbuf_memappend p d).
Proof.
  intros [Hl Hp Hs] Hd. pose proof (zlen_nonneg d).
  unfold printbuf_memappend_fast. rewrite s32_id by (unfold INT_MIN, INT_MAX in *; lia).
  destruct (Z.gtb_spec (size p - bpos p) (zlen d)); [|done].
  unfold printbuf_memappend. rewrite s32_id by (unfold INT_MIN, INT_MAX in *; lia).
  case_test; bool_to_prop; [|done].
  unfold printbuf_extend. destruct (Z.geb_spec (size p) (bpos p + zlen d + 1)); [done|lia].
Qed.

Lemma memappend_fast_ok p d :
  malloc_total al -> pb_wf p -> bpos p + zlen d + 1 <= INT_MAX - 8 ->
  pb_wf (printbuf_memappend_fast p d) /\ terminated (printbuf_memappend_fast p d) /\
  contents (printbuf_memappend_fast p d) = contents p ++ d.
Proof.
  intros Hal Hwf Hd. rewrite memappend_fast_eq; [|exact Hwf|lia].
  pose proof (printbuf_memappend_ok p d Hal Hwf Hd) as Hr.
  destruct (printbuf_memappend p d) as [p' r] eqn:E. simpl in *.
  apply printbuf_memappend_spec in E; [|assumption..]. pose proof (zlen_nonneg d).
  destruct E as [[-> _]|(_ & ? & ? & ?)]; [lia|done].
Qed.

Lemma sprintbuf_ok p d :
  malloc_total al -> pb_wf p -> bpos p + zlen d + 1 <= INT_MAX - 8 ->
  snd (sprintbuf p d) = zlen d /\ pb_wf (fst (sprintbuf p d)) /\
  terminated (fst (sprintbuf p d)) /\ contents (fst (sprintbuf p d)) = contents p ++ d.
Proof.
  intros Hal Hwf Hd. pose proof (zlen_nonneg d).
  assert (sprintbuf p d = (fst (printbuf_memappend p d), zlen d)) as ->.
  { unfold sprintbuf. case_test; [|reflexivity]. rewrite Hal; [reflexivity|].
    destruct Hwf. unfold INT_MAX in *. lia. }
  pose proof (memappend_fast_ok p d Hal Hwf Hd) as Hok.
  rewrite memappend_fast_eq in Hok; [|exact Hwf|lia]. auto.
Qed.

Lemma printbuf_reset_spec p :
  pb_wf p -> pb_wf (printbuf_reset p) /\ terminated (printbuf_reset p) /\
  contents (printbuf_reset p) = [].
Proof.
  intros [Hl Hp Hs].
  assert (zlen (splice 0 [0] (buf p)) = size p) as L.
  { unfold zlen. rewrite splice_length; [done|lia|]. change (zlen [0]) with 1. lia. }
  split; [|split; [split|]]; [constructor| | |]; simpl; lia || done.
Qed.

Lemma printbuf_new_wf p : printbuf_new = Some p -> pb_wf p /\ contents p = [].
Proof.
  unfold printbuf_new. repeat case_test; intros [= <-].
  repeat split; simpl; try (unfold INT_MAX; lia).
Qed.

(** What a reader of [p->buf] as a C string sees. *)
Lemma cstr_app_nul a b : cstr (a ++ 0 :: b) = cstr a.
Proof. induction a as [|x a IH]; [done|]. simpl. by rewrite IH. Qed.

Lemma terminated_reads p : pb_wf p -> terminated p -> cstr (buf p) = cstr (contents p).
Proof.
  intros [Hl Hp Hs] [Hlt H0]. unfold contents.
  rewrite <- (take_drop_middle _ _ _ H0) at 1. apply cstr_app_nul.
Qed.

Lemma terminated_cstr p :
  pb_wf p -> terminated p -> Forall (fun b => b <> 0) (contents p) ->
  cstr (buf p) = contents p.
Proof.
  intros Hwf Ht Hnz. rewrite terminated_reads by done.
  induction Hnz as [|b l Hb _ IH]; [done|]. simpl. destruct (Z.eqb_spec b 0); [done|].
  by rewrite IH.
Qed.

(** The block is never more than about twice as long as its text. *)
Lemma s32_le z : 0 <= z -> s32 z <= z.
Proof.
  intros Hz. unfold s32, swrap. change (2 ^ (32 - 1)) with 2147483648.
  pose proof (Z.mod_le (z + 2147483648) (2 ^ 32)). lia.
Qed.

Lemma printbuf_extend_size p n :
  pb_wf p -> 0 <= n -> size (fst (printbuf_extend p n)) <= Z.max (size p) (2 * n + 8).
Proof.
  intros [_ _ Hs] Hn. unfold printbuf_extend.
  destruct (Z.geb_spec (size p) n); [simpl; lia|].
  pose proof (s32_le (size p * 2)). pose proof (s32_le (n + 8)).
  destruct (realloc_bytes _ _); simpl; lia.
Qed.

Lemma printbuf_memappend_size p d :
  pb_wf p -> bpos p + zlen d + 1 <= INT_MAX ->
  size (fst (printbuf_memappend p d)) <= Z.max (size p) (2 * (bpos p + zlen d) + 10).
Proof.
  intros Hwf Hd. pose proof (zlen_nonneg d). pose proof (wf_pos p Hwf). unfold printbuf_memappend.
  rewrite s32_id by (unfold INT_MIN, INT_MAX in *; lia).
  pose proof (printbuf_extend_size p (bpos p + zlen d + 1) Hwf ltac:(lia)) as He.
  destruct (size p <=? _); [|simpl; lia].
  destruct (printbuf_extend p _) as [p1 r]. simpl in He. destruct (r <? 0); simpl; lia.
Qed.

Lemma printbuf_memset_size p c len :
  pb_wf p -> 0 <= len -> bpos p + len <= INT_MAX ->
  size (fst (printbuf_memset p (-1) c len)) <= Z.max (size p) (2 * (bpos p + len) + 10).
Proof.
  intros Hwf Hl Hd. pose proof (wf_pos p Hwf). unfold printbuf_memset. cbn [Z.eqb Pos.eqb].
  rewrite s32_id by (unfold INT_MIN, INT_MAX in *; lia).
  pose proof (printbuf_extend_size p (bpos p + len) Hwf ltac:(lia)) as He.
  destruct (size p <? _); [|simpl; lia].
  destruct (printbuf_extend p _) as [p1 r]. simpl in He. destruct (r <? 0); simpl; lia.
Qed.

(** ** Refinement: a printbuf is a byte string *)

Inductive pb_op :=
  | OpMemappend (d : bytes)
  | OpMemappendFast (d : bytes)
  | OpSprintbuf (d : bytes)
  | OpMemset (offset charvalue len : Z)
  | OpReset.

(** What a call does to the buffer. *)
Definition pb_step (p : printbuf) (o : pb_op) : printbuf :=
  match o with
  | OpMemappend d => fst (printbuf_memappend p d)
  | OpMemappendFast d => printbuf_memappend_fast p d
  | OpSprintbuf d => fst (sprintbuf p d)
  | OpMemset offset c len => fst (printbuf_memset p offset c len)
  | OpReset => printbuf_reset p
  end.

(** What it does to the abstract state, the text. *)
Definition spec_step (t : bytes) (o : pb_op) : bytes :=
  match o with
  | OpMemappend d | OpMemappendFast d | OpSprintbuf d => t ++ d
  | OpMemset offset c len =>
      let offset := if offset =? -1 then zlen t else offset in
      splice offset (replicate (Z.to_nat len) (u8 c)) t
  | OpReset => []
  end.

(** The calls covered: the text stays below [INT_MAX - 8] bytes and
    [printbuf_memset] starts inside the text. *)
Definition op_pre (t : bytes) (o : pb_op) : Prop :=
  match o with
  | OpMemappend d | OpMemappendFast d | OpSprintbuf d => zlen t + zlen d + 1 <= INT_MAX - 8
  | OpMemset offset c len =>
      0 <= len /\ -1 <= offset <= zlen t /\ zlen t + len <= INT_MAX - 8
  | OpReset => True
  end.

Fixpoint ops_pre (t : bytes) (os : list pb_op) : Prop :=
  match os with
  | [] => True
  | o :: os' => op_pre t o /\ ops_pre (spec_step t o) os'
  end.

Lemma printbuf_memset_spec p offset c len :
  malloc_total al -> pb_wf p -> op_pre (contents p) (OpMemset offset c len) ->
  snd (printbuf_memset p offset c len) = 0 /\
  pb_wf (fst (printbuf_memset p offset c len)) /\
  contents (fst (printbuf_memset p offset c len)) =
    spec_step (contents p) (OpMemset offset c len).
Proof.
  intros Hal Hwf (Hlen0 & Hoff & Hlen). rewrite contents_length in Hoff, Hlen by done.
  simpl. rewrite contents_length by done.
  assert (exists off, 0 <= off <= bpos p /\ (if offset =? -1 then bpos p else offset) = off)
    as (off & Hoff' & Eoff).
  { eexists; split; [|reflexivity]. case_test; bool_to_prop; destruct Hwf; lia. }
  unfold printbuf_memset. rewrite Eoff.
  rewrite s32_id by (destruct Hwf; unfold INT_MIN, INT_MAX in *; lia).
  assert (exists p1, (if size p <? off + len then printbuf_extend p (off + len)
                      else (p, 0)) = (p1, 0) /\ pb_wf p1 /\ bpos p1 = bpos p /\
            off + len <= size p1 /\ contents p1 = contents p) as (p1 & -> & Hwf1 & Hpos & Hsz & Hc).
  { case_test; bool_to_prop; [|exists p; auto with lia].
    pose proof (printbuf_extend_ok p (off + len) Hal Hwf ltac:(lia)) as Hr.
    destruct (printbuf_extend _ _) as [p1 r1] eqn:E. simpl in Hr. subst r1.
    apply printbuf_extend_spec in E; [|exact Hwf|lia].
    destruct E as [[? _]|(_ & ? & ? & Hpos & ? & Hb)]; [done|].
    exists p1. split_and!; try done. unfold contents. rewrite Hpos, <- Hb, take_take.
    f_equal. destruct Hwf. lia. }
  simpl. rewrite Hpos. set (d := replicate _ _).
  assert (zlen d = len) as Hd by (unfold d, zlen; rewrite length_replicate; lia).
  destruct Hwf1 as [L P S]. rewrite Hpos in P.
  replace (if bpos p <? off + len then off + len else bpos p)
    with (Z.max (bpos p) (off + zlen d)) by (case_test; bool_to_prop; lia).
  split_and!; [done|constructor; simpl; try lia|].
  - unfold zlen. rewrite splice_length by lia. exact L.
  - unfold contents at 1. simpl. rewrite splice_take_outer by lia.
    rewrite <- Hc. unfold contents. by rewrite Hpos.
Qed.

Lemma pb_step_refines p o :
  malloc_total al -> pb_wf p -> op_pre (contents p) o ->
  pb_wf (pb_step p o) /\ contents (pb_step p o) = spec_step (contents p) o.
Proof.
  intros Hal Hwf. destruct o as [d|d|d|off c len|]; simpl;
    rewrite ?contents_length by done; intros Hpre.
  - pose proof (memappend_fast_ok p d Hal Hwf Hpre) as Hok.
    rewrite memappend_fast_eq in Hok; [|exact Hwf|lia]. naive_solver.
  - pose proof (memappend_fast_ok p d Hal Hwf Hpre). naive_solver.
  - pose proof (sprintbuf_ok p d Hal Hwf Hpre). naive_solver.
  - rewrite <- (contents_length p) in Hpre by done.
    pose proof (printbuf_memset_spec p off c len Hal Hwf Hpre) as H. simpl in H.
    rewrite contents_length in H by done. naive_solver.
  - pose proof (printbuf_reset_spec p Hwf). naive_solver.
Qed.

(** C35: a [printbuf] refines a byte string. Under an allocator that grants
    requests below 2 GiB, after any sequence of [printbuf_memappend],
    [printbuf_memappend_fast], [sprintbuf], [printbuf_memset] and
    [printbuf_reset] calls on a well-formed buffer that keep the text below
    [INT_MAX - 8] bytes and let [printbuf_memset] start inside it, the buffer
    is well formed (the block has [size] bytes, the position is inside it, so
    no call wrote out of bounds) and its text is what the calls do to a byte
    string. A longer text can be written out of bounds
    ([printbuf_memappend_overflow]). *)
Theorem printbuf_refines_bytes p os :
  malloc_total al -> pb_wf p -> ops_pre (contents p) os ->
  pb_wf (fold_left pb_step os p) /\
  contents (fold_left pb_step os p) = fold_left spec_step os (contents p).
Proof.
  intros Hal. revert p. induction os as [|o os IH]; intros p Hwf; [done|].
  simpl. intros [Ho Hos]. destruct (pb_step_refines p o Hal Hwf Ho) as [Hwf1 Hc1].
  rewrite <- Hc1 in *. auto.
Qed.

(** Whatever the allocator does, [printbuf_memappend] is all or nothing:
    it reports -1 and leaves the buffer as it was, or reports the number of
    bytes and the text has grown by exactly those bytes, is NUL-terminated
    and every write was inside the block. *)
Theorem printbuf_memappend_atomic p d :
  pb_wf p -> bpos p + zlen d + 1 <= INT_MAX - 8 ->
  printbuf_memappend p d = (p, -1) \/
  exists p', printbuf_memappend p d = (p', zlen d) /\ pb_wf p' /\ terminated p' /\
             contents p' = contents p ++ d.
Proof.
  intros Hwf Hd. destruct (printbuf_memappend p d) as [p' r] eqn:E.
  apply printbuf_memappend_spec in E; [|assumption..]. naive_solver.
Qed.

(** The block of a buffer is longer than [size] once a write has gone past
    its end. *)
Definition out_of_bounds (p : printbuf) : Prop := size p < zlen (buf p).

(** The size check of [printbuf_memappend] can wrap around.  Appending
    [INT_MAX] bytes to a buffer that holds at least one byte makes
    [bpos + size + 1] negative, no space is allocated, and the bytes are
    copied past the end of the block. *)
Theorem printbuf_memappend_overflow p d :
  pb_wf p -> 1 <= bpos p <= INT_MAX - 1 -> zlen d = INT_MAX ->
  out_of_bounds (fst (printbuf_memappend p d)).
Proof.
  intros [Hl Hp Hs] Hb Hd. unfold printbuf_memappend. rewrite Hd.
  assert (s32 (bpos p + INT_MAX + 1) = bpos p - 2147483648) as ->.
  { unfold s32, swrap, INT_MAX in *. change (2 ^ (32 - 1)) with 2147483648.
    rewrite <- (Z_mod_plus_full _ (-1) (2 ^ 32)). change (2 ^ 32) with 4294967296.
    rewrite Z.mod_small by lia. lia. }
  case_test; bool_to_prop; [unfold INT_MAX in *; lia|].
  simpl. unfold out_of_bounds, append_raw. simpl.
  assert (zlen (splice (bpos p) d (buf p)) = bpos p + INT_MAX) as L.
  { rewrite splice_length_ge; lia. }
  assert (s32 (bpos p + zlen d) < 0) as Hneg.
  { rewrite Hd. unfold s32, swrap, INT_MAX in *. change (2 ^ (32 - 1)) with 2147483648.
    rewrite <- (Z_mod_plus_full _ (-1) (2 ^ 32)). change (2 ^ 32) with 4294967296.
    rewrite Z.mod_small by lia. lia. }
  set (b1 := splice (bpos p) d (buf p)) in *.
  unfold splice. replace (Z.to_nat (s32 _)) with 0%nat by lia. simpl.
  rewrite zlen_cons. unfold zlen in *. rewrite length_drop. unfold INT_MAX in *. lia.
Qed.

End Lemmas.

(** Witnesses. *)

Definition sample_pb : printbuf :=
  {| buf := replicate 32 165; bpos := 0; size := 32 |}.

Lemma sample_pb_wf : pb_wf sample_pb.
Proof. constructor; simpl; unfold INT_MAX; vm_compute; intuition discriminate. Qed.

Definition sample_ops : list pb_op :=
  [OpReset; OpSprintbuf (str "{ "); OpMemappend (str "abcdefghijklmnopqrstuvwxyz0123456789");
   OpMemset (-1) 32 4; OpMemset 0 91 1; OpMemappendFast (str " ]")].

Lemma printbuf_refines_bytes_witness :
  contents (fold_left (@pb_step sample_alloc) sample_ops sample_pb) =
  str "[ abcdefghijklmnopqrstuvwxyz0123456789     ]".
Proof.
  rewrite (proj2 (@printbuf_refines_bytes sample_alloc sample_pb sample_ops
                    sample_alloc_total sample_pb_wf ltac:(vm_compute; intuition discriminate))).
  reflexivity.
Defined.

Lemma printbuf_memappend_atomic_witness :
  @printbuf_memappend sample_alloc sample_pb (str "null") = (sample_pb, -1) \/
  exists p', @printbuf_memappend sample_alloc sample_pb (str "null") = (p', 4) /\ pb_wf p' /\
             terminated p' /\ contents p' = str "null".
Proof.
  apply (@printbuf_memappend_atomic sample_alloc sample_pb (str "null") sample_pb_wf).
  vm_compute; discriminate.
Defined.

Definition sample_pb1 : printbuf :=
  {| buf := replicate 32 0; bpos := 1; size := 32 |}.

Lemma printbuf_memappend_overflow_witness :
  out_of_bounds (fst (@printbuf_memappend sample_alloc sample_pb1
                        (replicate (Z.to_nat INT_MAX) 65))).
Proof.
  apply (@printbuf_memappend_overflow sample_alloc).
  - constructor; simpl; unfold INT_MAX; vm_compute; intuition discriminate.
  - simpl. unfold INT_MAX. lia.
  - unfold zlen. rewrite length_replicate. unfold INT_MAX. lia.
Defined.

End Printbuf.
