(* ===== verification/ArrayList.v ===== *)
(** * json-c [arraylist.c]: growable arrays of pointers

    [array_list] is [struct array_list]; an element is a pointer, [None]
    being NULL.  [free_fn] may change the state [S] its owner keeps, so the
    operations that call it thread that state.  A result [None] of an
    operation stands for an access outside the array (undefined behaviour in
    C, which does no bounds check there). *)

From S2P Require Import Prelude.
From Stdlib Require Import ZArith Lia.
From stdpp Require Import base list numbers option.

Open Scope Z_scope.

Module ArrayList.

Definition ARRAY_LIST_DEFAULT_SIZE : Z := 32.

Section Ops.
Context {al : Allocator} {S P : Type}.

Record array_list := ArrayListMk {
  array : list (option P);
  length : Z;
  size : Z
}.

(** The callback [arr->free_fn], chosen when the array is created. *)
Variable free_fn : P -> S -> S.

Definition array_list_new : option array_list :=
  if malloc_ok 24 then
    if malloc_ok (8 * ARRAY_LIST_DEFAULT_SIZE) then
      Some {| array := replicate (Z.to_nat ARRAY_LIST_DEFAULT_SIZE) None;
              length := 0; size := ARRAY_LIST_DEFAULT_SIZE |}
    else None
  else None.

Definition free_opt (p : option P) (s : S) : S :=
  match p with Some q => free_fn q s | None => s end.

(** [for (i = 0; i < arr->length; i++) if (arr->array[i]) free_fn(...)] *)
Definition array_list_free (arr : array_list) (s : S) : S :=
  fold_left (fun s p => free_opt p s) (take (Z.to_nat (length arr)) (array arr)) s.

Definition array_list_get_idx (arr : array_list) (i : Z) : option (option P) :=
  if i >=? length arr then Some None
  else if i <? 0 then None
  else array arr !! Z.to_nat i.

Definition array_list_expand_internal (arr : array_list) (max : Z) : array_list * Z :=
  if max <? size arr then (arr, 0)
  else
    let new_size := Z.max (s32 (Z.shiftl (size arr) 1)) max in
    if malloc_ok (u64 (new_size * 8)) then
      ({| array := take (Z.to_nat new_size) (array arr) ++
                   replicate (Z.to_nat (new_size - size arr)) None;
          length := length arr; size := new_size |}, 0)
    else (arr, -1).

(** The result is the new array, the state after [free_fn], and the C
    return value. *)
Definition array_list_put_idx (arr : array_list) (idx : Z) (data : option P) (s : S)
  : option (array_list * S * Z) :=
  let '(arr1, r) := array_list_expand_internal arr (s32 (idx + 1)) in
  if negb (r =? 0) then Some (arr1, s, -1)
  else if idx <? 0 then None
  else
    match array arr1 !! Z.to_nat idx with
    | None => None
    | Some old =>
        let s1 := free_opt old s in
        Some ({| array := <[Z.to_nat idx := data]> (array arr1);
                 length := if length arr1 <=? idx then s32 (idx + 1) else length arr1;
                 size := size arr1 |}, s1, 0)
    end.

Definition array_list_add (arr : array_list) (data : option P) (s : S)
  : option (array_list * S * Z) :=
  array_list_put_idx arr (length arr) data s.

Definition array_list_length (arr : array_list) : Z := length arr.

End Ops.

Arguments array_list P : clear implicits.

(** The elements an array holds, and the invariant: the block has [size]
    slots, [length] of them used, and the rest NULL. *)
Definition elems {P} (arr : array_list P) : list (option P) :=
  take (Z.to_nat (length arr)) (array arr).

Record al_wf {P} (arr : array_list P) : Prop := {
  al_block : zlen (array arr) = size arr;
  al_used : 0 <= length arr <= size arr;
  al_size : 1 <= size arr <= INT_MAX;
  al_rest : forall i, length arr <= Z.of_nat i < size arr -> array arr !! i = Some None
}.

(** The list an [array_list_put_idx] leads to: NULLs fill the gap. *)
Definition put_spec {A} (l : list (option A)) (i : nat) (x : option A) : list (option A) :=
  <[i := x]> (l ++ replicate (S i - List.length l) None).

Section Lemmas.
Context {al : Allocator} {S P : Type}.
Variable free_fn : P -> S -> S.
Implicit Types (arr : array_list P) (s : S).

Lemma elems_length arr : al_wf arr -> zlen (elems arr) = length arr.
Proof.
  intros [Hb Hu _ _]. unfold elems, zlen in *. rewrite length_take. lia.
Qed.

(** Under the invariant the array is its elements followed by NULLs. *)
Lemma array_elems arr :
  al_wf arr ->
  array arr = elems arr ++ replicate (Z.to_nat (size arr - length arr)) None.
Proof.
  intros [Hb Hu Hs Hr]. unfold zlen in Hb. apply list_eq. intros i. unfold elems.
  destruct (decide (i < Z.to_nat (length arr))%nat) as [Hi|Hi].
  - rewrite lookup_app_l by (rewrite length_take; lia).
    by rewrite lookup_take_lt by lia.
  - rewrite lookup_app_r by (rewrite length_take; lia). rewrite length_take.
    destruct (decide (Z.of_nat i < size arr)) as [Hi'|Hi'].
    + rewrite Hr by lia. symmetry. apply lookup_replicate. split; [done|lia].
    + rewrite !lookup_ge_None_2; [done|rewrite length_replicate; lia|lia].
Qed.

Lemma expand_spec arr m arr' r :
  al_wf arr -> 0 <= m <= INT_MAX ->
  array_list_expand_internal arr m = (arr', r) ->
  (r = -1 /\ arr' = arr) \/
  (r = 0 /\ al_wf arr' /\ length arr' = length arr /\ m <= size arr' /\
   elems arr' = elems arr).
Proof.
  intros Hwf Hm. pose proof (array_elems arr Hwf) as He.
  pose proof (elems_length arr Hwf) as Hel.
  destruct Hwf as [Hb Hu Hs Hr]. unfold array_list_expand_internal.
  destruct (Z.ltb_spec m (size arr)).
  { intros [= <- <-]. right. split_and!; try done. lia. }
  set (n := Z.max _ _).
  assert (m <= n <= INT_MAX) as Hn.
  { pose proof (s32_range (Z.shiftl (size arr) 1)). lia. }
  case_test; intros [= <- <-]; [right|auto].
  rewrite (take_ge (array arr)) by (unfold zlen in Hb; lia).
  unfold zlen in *.
  split_and!; simpl; try lia; [constructor; simpl; try lia|].
  - unfold zlen. rewrite length_app, length_replicate. lia.
  - intros i Hi. destruct (decide (Z.of_nat i < size arr)).
    + rewrite lookup_app_l by lia. apply Hr. lia.
    + rewrite lookup_app_r by lia. apply lookup_replicate. split; [done|lia].
  - unfold elems. simpl. rewrite take_app_le by lia. done.
Qed.

Lemma put_spec_length {A} (l : list (option A)) i x :
  List.length (put_spec l i x) = Nat.max (List.length l) (Datatypes.S i).
Proof. unfold put_spec. rewrite length_insert, length_app, length_replicate. lia. Qed.

(** [array_list_put_idx] with a valid index: on allocation failure nothing
    changes and -1 is returned; otherwise the old element is passed to
    [free_fn] and the array holds the new element, NULLs filling a gap. *)
Lemma put_idx_spec arr idx data s :
  al_wf arr -> 0 <= idx < INT_MAX ->
  exists arr' s' r, array_list_put_idx free_fn arr idx data s = Some (arr', s', r) /\
  ((r = -1 /\ arr' = arr /\ s' = s) \/
   (r = 0 /\ al_wf arr' /\ elems arr' = put_spec (elems arr) (Z.to_nat idx) data /\
    s' = free_opt free_fn (mjoin (elems arr !! Z.to_nat idx)) s)).
Proof.
  intros Hwf Hi. unfold array_list_put_idx.
  rewrite s32_id by (unfold INT_MIN, INT_MAX in *; lia).
  destruct (array_list_expand_internal _ _) as [arr1 r] eqn:E.
  apply expand_spec in E; [|exact Hwf|unfold INT_MAX in *; lia].
  destruct E as [[-> ->]|(-> & Hwf1 & Hlen & Hsz & Hel)].
  { do 3 eexists. split; [reflexivity|]. auto. }
  simpl. rewrite (proj2 (Z.ltb_ge idx 0)) by lia.
  pose proof (array_elems arr1 Hwf1) as Ha. pose proof (elems_length arr1 Hwf1) as Hl1.
  destruct Hwf1 as [Hb Hu Hs Hr]. unfold zlen in *.
  destruct (lookup_lt_is_Some_2 (array arr1) (Z.to_nat idx)) as [old Hold]; [lia|].
  rewrite Hold. do 3 eexists. split; [reflexivity|]. right. split; [done|].
  assert (old = mjoin (elems arr !! Z.to_nat idx)) as ->.
  { rewrite <- Hel. rewrite Ha in Hold. destruct (decide (idx < length arr1)).
    - rewrite lookup_app_l in Hold by lia. by rewrite Hold.
    - rewrite lookup_app_r in Hold by lia. apply lookup_replicate in Hold as [-> _].
      by rewrite lookup_ge_None_2 by lia. }
  split_and!; [| |done].
  - constructor; simpl.
    + unfold zlen. by rewrite length_insert.
    + case_test; bool_to_prop; lia.
    + lia.
    + intros i. case_test; bool_to_prop; intros ?;
        rewrite list_lookup_insert_ne by lia; apply Hr; lia.
  - unfold elems at 1, put_spec. rewrite <- Hel. simpl.
    replace (if length arr1 <=? idx then idx + 1 else length arr1)
      with (Z.max (length arr1) (idx + 1)) by (case_test; bool_to_prop; lia).
    rewrite take_insert_lt by lia. f_equal. rewrite Ha at 1.
    rewrite take_app, take_replicate, (take_ge (elems arr1)) by lia.
    f_equal. f_equal. lia.
Qed.

Lemma put_spec_end {A} (l : list (option A)) x :
  put_spec l (List.length l) x = l ++ [x].
Proof.
  unfold put_spec.
  replace (Datatypes.S (List.length l) - List.length l)%nat with 1%nat by lia.
  rewrite <- (Nat.add_0_r (List.length l)). by rewrite insert_app_r.
Qed.

(** ** Refinement: an [array_list] is a list of pointers *)

Inductive al_op := OpAdd (x : option P) | OpPut (i : Z) (x : option P).

(** A sequence of calls, with the value each returns. *)
Fixpoint al_run (arr : array_list P) (s : S) (os : list al_op)
  : option (array_list P * S * list Z) :=
  match os with
  | [] => Some (arr, s, [])
  | o :: os' =>
      match (match o with
             | OpAdd x => array_list_add free_fn arr x s
             | OpPut i x => array_list_put_idx free_fn arr i x s
             end) with
      | None => None
      | Some (arr1, s1, r) =>
          match al_run arr1 s1 os' with
          | None => None
          | Some (arr', s', rs) => Some (arr', s', r :: rs)
          end
      end
  end.

Definition op_index (l : list (option P)) (o : al_op) : Z :=
  match o with OpAdd _ => zlen l | OpPut i _ => i end.

Definition op_data (o : al_op) : option P :=
  match o with OpAdd x => x | OpPut _ x => x end.

(** What a call that returned [r] does to the list and the state. *)
Definition al_spec_step (l : list (option P)) (s : S) (o : al_op) (r : Z)
  : list (option P) * S :=
  if r =? 0 then
    let i := Z.to_nat (op_index l o) in
    (put_spec l i (op_data o), free_opt free_fn (mjoin (l !! i)) s)
  else (l, s).

Fixpoint al_spec (l : list (option P)) (s : S) (os : list al_op) (rs : list Z)
  : list (option P) * S :=
  match os, rs with
  | o :: os', r :: rs' =>
      let '(l1, s1) := al_spec_step l s o r in al_spec l1 s1 os' rs'
  | _, _ => (l, s)
  end.

(** Every index used is below [n]. *)
Definition op_below (n : Z) (o : al_op) : Prop :=
  match o with OpAdd _ => True | OpPut i _ => 0 <= i < n end.

Lemma al_step_refines arr s o :
  al_wf arr -> 0 <= op_index (elems arr) o < INT_MAX ->
  exists arr' s' r,
    (match o with
     | OpAdd x => array_list_add free_fn arr x s
     | OpPut i x => array_list_put_idx free_fn arr i x s
     end) = Some (arr', s', r) /\ al_wf arr' /\ (r = 0 \/ r = -1) /\
    al_spec_step (elems arr) s o r = (elems arr', s').
Proof.
  intros Hwf Hi.
  assert (exists arr' s' r,
    array_list_put_idx free_fn arr (op_index (elems arr) o) (op_data o) s =
      Some (arr', s', r) /\ al_wf arr' /\ (r = 0 \/ r = -1) /\
    al_spec_step (elems arr) s o r = (elems arr', s')) as H.
  { destruct (put_idx_spec arr (op_index (elems arr) o) (op_data o) s Hwf Hi)
      as (arr' & s' & r & E & [(-> & -> & ->)|(-> & Hwf' & He & ->)]);
      do 3 eexists; (split; [exact E|]); split_and!; auto.
    unfold al_spec_step. simpl. by rewrite He. }
  destruct o; [|exact H]. simpl in H. rewrite elems_length in H by done. exact H.
Qed.

(** The indices of a call sequence stay below [INT_MAX] along the run. *)
Fixpoint al_pre (n : Z) (os : list al_op) : Prop :=
  match os with
  | [] => True
  | o :: os' => op_below INT_MAX o /\ n < INT_MAX /\
                al_pre (Z.max (n + 1) (match o with OpAdd _ => 0 | OpPut i _ => i + 1 end)) os'
  end.

Lemma al_pre_mono os n m : m <= n -> al_pre n os -> al_pre m os.
Proof.
  revert n m. induction os as [|o os IH]; intros n m Hmn; [done|].
  simpl. intros (Ho & Hn & Hos). split_and!; [done|lia|].
  eapply IH; [|exact Hos]. lia.
Qed.

(** C36: an [array_list] refines a list of pointers.  Whatever the allocator
    does, a sequence of [array_list_add] and [array_list_put_idx] calls with
    valid indices never accesses the array out of bounds; a call that returns
    0 stores its pointer (NULLs filling the gap up to the index) after giving
    the pointer it replaces to [free_fn], and a call that returns -1 changes
    neither the array nor the owner's state. *)
Theorem array_list_refines_list arr s os :
  al_wf arr -> al_pre (length arr) os ->
  exists arr' s' rs,
    al_run arr s os = Some (arr', s', rs) /\ al_wf arr' /\
    al_spec (elems arr) s os rs = (elems arr', s').
Proof.
  revert arr s. induction os as [|o os IH]; intros arr s Hwf Hpre.
  { by exists arr, s, []. }
  destruct Hpre as (Ho & Hn & Hos).
  assert (0 <= op_index (elems arr) o < INT_MAX) as Hi.
  { destruct o; simpl in *; [|done]. rewrite elems_length by done. destruct Hwf. lia. }
  destruct (al_step_refines arr s o Hwf Hi) as (arr1 & s1 & r & E & Hwf1 & Hr & Hsp).
  destruct (IH arr1 s1 Hwf1) as (arr' & s' & rs & E' & Hwf' & Hsp').
  { eapply al_pre_mono; [|exact Hos].
    rewrite <- (elems_length arr1), <- (elems_length arr) by done.
    unfold al_spec_step in Hsp. destruct Hr as [-> | ->]; simpl in Hsp;
      injection Hsp as <- _; [|lia].
    unfold zlen at 1. rewrite put_spec_length. destruct o; simpl; unfold zlen; simpl in Ho; lia. }
  exists arr', s', (r :: rs). simpl. rewrite E, E', Hsp. auto.
Qed.

(** Reading back: an index below the length gives the element, any larger
    index NULL. *)
Lemma get_idx_elems arr i :
  al_wf arr -> 0 <= i ->
  array_list_get_idx arr i = Some (mjoin (elems arr !! Z.to_nat i)).
Proof.
  intros Hwf Hi. unfold array_list_get_idx. pose proof (elems_length arr Hwf) as Hel.
  destruct (Z.geb_spec i (length arr)).
  { rewrite lookup_ge_None_2; [done|]. unfold zlen in Hel. lia. }
  rewrite (proj2 (Z.ltb_ge i 0)) by lia. unfold elems.
  rewrite lookup_take_lt by lia. destruct Hwf as [Hb Hu _ _]. unfold zlen in Hb.
  by destruct (lookup_lt_is_Some_2 (array arr) (Z.to_nat i)) as [x ->]; [lia|].
Qed.

Lemma elems_free arr s :
  array_list_free free_fn arr s = fold_left (fun s p => free_opt free_fn p s) (elems arr) s.
Proof. done. Qed.

End Lemmas.

(** Witness: the callback logs the pointers it is given. *)
Definition log_free (p : Z) (s : list Z) : list Z := s ++ [p].

Definition sample_arr : array_list Z :=
  {| array := replicate 32 None; length := 0; size := 32 |}.

Lemma sample_arr_wf : al_wf sample_arr.
Proof.
  constructor; try (vm_compute; intuition discriminate).
  intros i Hi. change (array sample_arr) with (replicate 32 (@None Z)).
  change (size sample_arr) with 32 in Hi. apply lookup_replicate. split; [done|lia].
Qed.

Lemma array_list_refines_list_witness :
  exists arr' s' rs,
    @al_run sample_alloc (list Z) Z log_free sample_arr []
      [OpAdd (Some 7); OpAdd None; OpPut 40 (Some 8); OpPut 0 (Some 9)] = Some (arr', s', rs) /\
    al_wf arr' /\
    al_spec log_free (elems sample_arr) []
      [OpAdd (Some 7); OpAdd None; OpPut 40 (Some 8); OpPut 0 (Some 9)] rs = (elems arr', s').
Proof.
  apply (@array_list_refines_list sample_alloc (list Z) Z log_free sample_arr []).
  - exact sample_arr_wf.
  - vm_compute. intuition discriminate.
Defined.

Example al_run_freed :
  match @al_run sample_alloc (list Z) Z log_free sample_arr []
          [OpAdd (Some 7); OpAdd None; OpPut 40 (Some 8); OpPut 0 (Some 9)] with
  | Some (arr', s', rs) => (length arr', size arr', s', rs) = (41, 64, [7], [0; 0; 0; 0])
  | None => False
  end.
Proof. vm_compute. reflexivity. Qed.

End ArrayList.
