(* ===== verification/LinkHash.v ===== *)
(** * json-c [linkhash.c]: the linked hash table behind JSON objects

    [lh_table] is an open-addressing hash table whose live entries are also
    chained in insertion order.  Pointers to entries are indices into the
    [table] array ([None] is NULL); a value is a pointer, [None] being NULL.
    The hash and equality callbacks are section variables; the [free_fn]
    callback threads the state of the table's owner.  A result [None] of a
    function is the end of the process in [lh_abort], a loop that does not end
    or the dereference of NULL; the theorems show which inputs exclude it. *)

From S2P Require Import Prelude.
From Stdlib Require Import ZArith Lia SpecFloat String.
From stdpp Require Import base list numbers option sets strings.

Open Scope Z_scope.

Module LinkHash.

Definition LH_PRIME : Z := 2654404609.

(** The key word of a slot: the sentinel pointers -1 and -2, or a key. *)
Inductive lh_key (K : Type) := LH_EMPTY | LH_FREED | LH_KEY (k : K).
Arguments LH_EMPTY {K}.
Arguments LH_FREED {K}.
Arguments LH_KEY {K} k.

Record lh_entry (K P : Type) := LhEntry {
  k : lh_key K;
  v : option P;
  next : option nat;
  prev : option nat
}.
Arguments LhEntry {K P}.
Arguments k {K P}.
Arguments v {K P}.
Arguments next {K P}.
Arguments prev {K P}.

Record lh_table (K P : Type) := LhTable {
  size : Z;
  count : Z;
  collisions : Z;
  resizes : Z;
  lookups : Z;
  inserts : Z;
  deletes : Z;
  head : option nat;
  tail : option nat;
  table : list (lh_entry K P)
}.
Arguments LhTable {K P}.
Arguments size {K P}.
Arguments count {K P}.
Arguments collisions {K P}.
Arguments resizes {K P}.
Arguments lookups {K P}.
Arguments inserts {K P}.
Arguments deletes {K P}.
Arguments head {K P}.
Arguments tail {K P}.
Arguments table {K P}.

(** [h = h*129 + (unsigned int)( *data++ ) + LH_PRIME], the sum being an
    [unsigned long] stored back into an [unsigned int]. *)
Definition lh_char_hash (data : bytes) : Z :=
  fold_left (fun h c => u32 (u32 (u32 (h * 129) + u32 (schar c)) + LH_PRIME)) (cstr data) 0.

Definition lh_char_equal (k1 k2 : bytes) : bool := strcmp_eq k1 k2.

(** [((ptrdiff_t)k * LH_PRIME >> 4) & ULONG_MAX] for a pointer value. *)
Definition lh_ptr_hash (p : Z) : Z := Z.shiftr (u64 (p * LH_PRIME)) 4.

Definition lh_ptr_equal (k1 k2 : Z) : bool := k1 =? k2.

(** [t->count >= t->size * LH_LOAD_FACTOR].  The factor 0.66 is a [double];
    for every [int] size the rounded product and 33/50 of the size compare
    alike with every count ([load_factor_double] checks it on samples). *)
Definition over_load (count size : Z) : bool := 50 * count >=? 33 * size.

(** The comparison as the [double] arithmetic of C does it. *)
Definition double_of_Z (z : Z) : spec_float := binary_normalize 53 1024 z 0 false.
Definition LH_LOAD_FACTOR : spec_float := S754_finite false 5944751508129055 (-53).
Definition over_load_double (count size : Z) : bool :=
  SFleb (SFmul 53 1024 (double_of_Z size) LH_LOAD_FACTOR) (double_of_Z count).

Definition load_sample (size : Z) : list (Z * Z) :=
  map (fun d => (size * 33 / 50 + d, size)) [-2; -1; 0; 1; 2].

Example load_factor_double :
  forallb (fun '(c, s) => (c <? 0) || Bool.eqb (over_load c s) (over_load_double c s))
    (concat (map load_sample
       (seqZ 1 400 ++ map (fun i => 2 ^ i) (seqZ 4 27) ++
        [2147483647; 2147483646; 2147483600; 1000000; 999950; 123456789]))) = true.
Proof. vm_compute. reflexivity. Qed.

(** What a table needs of its callbacks: equality is an equivalence and equal
    keys hash alike. *)
Class HashKey (K : Type) := {
  hash_fn : K -> Z;
  equal_fn : K -> K -> bool;
  hash_nonneg : forall x, 0 <= hash_fn x;
  equal_refl : forall x, equal_fn x x = true;
  equal_sym : forall x y, equal_fn x y = equal_fn y x;
  equal_trans : forall x y z, equal_fn x y = true -> equal_fn y z = equal_fn x z;
  equal_hash : forall x y, equal_fn x y = true -> hash_fn x = hash_fn y
}.

Lemma u32_nonneg z : 0 <= u32 z.
Proof. apply wrap_range. lia. Qed.

(** [lh_kchar_table_new] uses [lh_char_hash] and [lh_char_equal]. *)
#[export] Program Instance char_key : HashKey bytes := {
  hash_fn := lh_char_hash;
  equal_fn := lh_char_equal
}.
Next Obligation.
  intros x. unfold lh_char_hash.
  assert (forall l h, 0 <= h -> 0 <= fold_left (fun h c =>
    u32 (u32 (u32 (h * 129) + u32 (schar c)) + LH_PRIME)) l h) as H; [|apply H; lia].
  induction l as [|c l IH]; intros h Hh; [done|]. simpl. apply IH, u32_nonneg.
Qed.
Next Obligation. intros x. by apply bool_decide_eq_true. Qed.
Next Obligation. intros x y. apply bool_decide_ext. naive_solver. Qed.
Next Obligation.
  intros x y z. unfold lh_char_equal, strcmp_eq.
  rewrite bool_decide_eq_true. intros ->. done.
Qed.
Next Obligation.
  intros x y. unfold lh_char_equal, strcmp_eq, lh_char_hash.
  rewrite bool_decide_eq_true. by intros ->.
Qed.

(** [lh_kptr_table_new] uses [lh_ptr_hash] and [lh_ptr_equal]. *)
#[export] Program Instance ptr_key : HashKey Z := {
  hash_fn := lh_ptr_hash;
  equal_fn := lh_ptr_equal
}.
Next Obligation.
  intros x. unfold lh_ptr_hash. apply Z.shiftr_nonneg. apply wrap_range. lia.
Qed.
Next Obligation. intros x. apply Z.eqb_refl. Qed.
Next Obligation. intros x y. apply Z.eqb_sym. Qed.
Next Obligation. intros x y z. unfold lh_ptr_equal. by intros ->%Z.eqb_eq. Qed.
Next Obligation. intros x y. unfold lh_ptr_equal. by intros ->%Z.eqb_eq. Qed.

Section Ops.
Context {al : Allocator} {K P S : Type} `{!HashKey K}.

Definition empty_entry : lh_entry K P :=
  {| k := LH_EMPTY; v := None; next := None; prev := None |}.

Definition lh_table_new (size : Z) : option (lh_table K P) :=
  if malloc_ok 88 then
    if malloc_ok (u64 (size * 32)) then
      Some {| size := size; count := 0; collisions := 0; resizes := 0; lookups := 0;
              inserts := 0; deletes := 0; head := None; tail := None;
              table := replicate (Z.to_nat size) empty_entry |}
    else None
  else None.

Definition is_free_slot (e : lh_entry K P) : bool :=
  match k e with LH_KEY _ => false | _ => true end.

(** [if ((int)++n == t->size) n = 0] *)
Definition next_slot (size : Z) (n : nat) : nat :=
  if Z.of_nat (n + 1) =? size then 0%nat else (n + 1)%nat.

(** The slot search of [lh_table_insert]: the slot and the collisions met. *)
Fixpoint insert_probe (fuel : nat) (tbl : list (lh_entry K P)) (size : Z) (n : nat)
    (coll : Z) : option (nat * Z) :=
  match fuel with
  | O => None
  | Datatypes.S fuel' =>
      match tbl !! n with
      | None => None
      | Some e => if is_free_slot e then Some (n, coll)
                  else insert_probe fuel' tbl size (next_slot size n) (coll + 1)
      end
  end.

Definition set_kv (key : K) (val : option P) (e : lh_entry K P) : lh_entry K P :=
  {| k := LH_KEY key; v := val; next := next e; prev := prev e |}.
Definition set_next (n : option nat) (e : lh_entry K P) : lh_entry K P :=
  {| k := k e; v := v e; next := n; prev := prev e |}.
Definition set_prev (p : option nat) (e : lh_entry K P) : lh_entry K P :=
  {| k := k e; v := v e; next := next e; prev := p |}.
Definition set_links (n p : option nat) (e : lh_entry K P) : lh_entry K P :=
  {| k := k e; v := v e; next := n; prev := p |}.

Definition bump_inserts (t : lh_table K P) : lh_table K P :=
  {| size := size t; count := count t; collisions := collisions t; resizes := resizes t;
     lookups := lookups t; inserts := inserts t + 1; deletes := deletes t;
     head := head t; tail := tail t; table := table t |}.

(** The body of [lh_table_insert] after the load check. *)
Definition insert_slot (t : lh_table K P) (key : K) (val : option P) : option (lh_table K P) :=
  let n0 := Z.to_nat (hash_fn key mod size t) in
  match insert_probe (Z.to_nat (size t) + 1) (table t) (size t) n0 (collisions t) with
  | None => None
  | Some (n, coll) =>
      let tbl1 := alter (set_kv key val) n (table t) in
      let mk tbl hd tl :=
        {| size := size t; count := count t + 1; collisions := coll; resizes := resizes t;
           lookups := lookups t; inserts := inserts t; deletes := deletes t;
           head := hd; tail := tl; table := tbl |} in
      match head t with
      | None => Some (mk (alter (set_links None None) n tbl1) (Some n) (Some n))
      | Some _ =>
          match tail t with
          | None => None
          | Some tl =>
              Some (mk (alter (set_links None (Some tl)) n
                          (alter (set_next (Some n)) tl tbl1)) (head t) (Some n))
          end
      end
  end.

(** The loop of [lh_table_resize]: insert every entry of [t], from [ent] on
    along the [next] links, into [nt] with [insert]. *)
Fixpoint resize_walk (insert : lh_table K P -> K -> option P -> option (lh_table K P))
    (t : lh_table K P) (fuel : nat) (ent : option nat) (nt : lh_table K P)
    : option (lh_table K P) :=
  match ent with
  | None => Some nt
  | Some i =>
      match fuel, table t !! i with
      | Datatypes.S fuel', Some e =>
          match k e with
          | LH_KEY key =>
              match insert nt key (v e) with
              | Some nt' => resize_walk insert t fuel' (next e) nt'
              | None => None
              end
          | _ => None
          end
      | _, _ => None
      end
  end.

Definition lh_table_resize_with (insert : lh_table K P -> K -> option P -> option (lh_table K P))
    (t : lh_table K P) (new_size : Z) : option (lh_table K P) :=
  match lh_table_new new_size with
  | None => None
  | Some new_t =>
      match resize_walk insert t (Z.to_nat (size t)) (head t) new_t with
      | None => None
      | Some nt =>
          Some {| size := new_size; count := count t; collisions := collisions t;
                  resizes := resizes t + 1; lookups := lookups t; inserts := inserts t;
                  deletes := deletes t; head := head nt; tail := tail nt;
                  table := table nt |}
      end
  end.

(** [lh_table_insert] and [lh_table_resize] call each other; [depth] bounds
    the nesting of the calls. *)
Fixpoint lh_table_insert_d (depth : nat) (t0 : lh_table K P) (key : K) (val : option P)
    : option (lh_table K P) :=
  let t := bump_inserts t0 in
  if over_load (count t) (size t) then
    match depth with
    | O => None
    | Datatypes.S depth' =>
        match lh_table_resize_with (lh_table_insert_d depth') t (s32 (size t * 2)) with
        | None => None
        | Some t1 => insert_slot t1 key val
        end
    end
  else insert_slot t key val.

(** The insertions a resize does never resize again, so one level is enough
    ([insert_depth] below). *)
Definition lh_table_insert : lh_table K P -> K -> option P -> option (lh_table K P) :=
  lh_table_insert_d 1.

Definition lh_table_resize : lh_table K P -> Z -> option (lh_table K P) :=
  lh_table_resize_with (lh_table_insert_d 1).

Definition bump_lookups (t : lh_table K P) : lh_table K P :=
  {| size := size t; count := count t; collisions := collisions t; resizes := resizes t;
     lookups := lookups t + 1; inserts := inserts t; deletes := deletes t;
     head := head t; tail := tail t; table := table t |}.

(** The search loop of [lh_table_lookup_entry], for [fuel] more slots. *)
Fixpoint lookup_probe (fuel : nat) (tbl : list (lh_entry K P)) (size : Z) (n : nat)
    (key : K) : option nat :=
  match fuel with
  | O => None
  | Datatypes.S fuel' =>
      match tbl !! n with
      | None => None
      | Some e =>
          match k e with
          | LH_EMPTY => None
          | LH_FREED => lookup_probe fuel' tbl size (next_slot size n) key
          | LH_KEY key' => if equal_fn key' key then Some n
                           else lookup_probe fuel' tbl size (next_slot size n) key
          end
      end
  end.

Definition lh_table_lookup_entry (t : lh_table K P) (key : K) : lh_table K P * option nat :=
  (bump_lookups t,
   lookup_probe (Z.to_nat (size t)) (table t) (size t) (Z.to_nat (hash_fn key mod size t)) key).

(** Returns whether the key was found, and the value ([NULL] if not). *)
Definition lh_table_lookup_ex (t : lh_table K P) (key : K) : lh_table K P * bool * option P :=
  let '(t1, e) := lh_table_lookup_entry t key in
  match e with
  | Some n => (t1, true, mjoin (v <$> table t !! n))
  | None => (t1, false, None)
  end.

Definition lh_table_lookup (t : lh_table K P) (key : K) : lh_table K P * option P :=
  let '(t1, _, result) := lh_table_lookup_ex t key in (t1, result).

Variable free_fn : option (lh_entry K P -> S -> S).

Definition call_free (e : lh_entry K P) (s : S) : S :=
  match free_fn with Some f => f e s | None => s end.

Definition set_freed (e : lh_entry K P) : lh_entry K P :=
  {| k := LH_FREED; v := None; next := next e; prev := prev e |}.

(** [lh_table_delete_entry t (&t->table[n])]: -2 for an entry before the
    table, -1 for a slot that holds no entry, else 0 and the entry is
    unlinked. *)
Definition lh_table_delete_entry (t : lh_table K P) (n : Z) (s : S)
    : option (lh_table K P * S * Z) :=
  if n <? 0 then Some (t, s, -2)
  else
    let n := Z.to_nat n in
    match table t !! n with
    | None => None
    | Some e =>
        if is_free_slot e then Some (t, s, -1)
        else
          let s1 := call_free e s in
          let tbl1 := alter set_freed n (table t) in
          let unlinked :=
            if bool_decide (tail t = Some n) && bool_decide (head t = Some n) then
              Some (tbl1, None, None)
            else if bool_decide (head t = Some n) then
              match next e with
              | None => None
              | Some nx => Some (alter (set_prev None) nx tbl1, Some nx, tail t)
              end
            else if bool_decide (tail t = Some n) then
              match prev e with
              | None => None
              | Some pv => Some (alter (set_next None) pv tbl1, head t, Some pv)
              end
            else
              match prev e, next e with
              | Some pv, Some nx =>
                  Some (alter (set_prev (Some pv)) nx (alter (set_next (Some nx)) pv tbl1),
                        head t, tail t)
              | _, _ => None
              end in
          match unlinked with
          | None => None
          | Some (tbl2, hd, tl) =>
              Some ({| size := size t; count := count t - 1; collisions := collisions t;
                       resizes := resizes t; lookups := lookups t; inserts := inserts t;
                       deletes := deletes t; head := hd; tail := tl;
                       table := alter (set_links None None) n tbl2 |}, s1, 0)
          end
    end.

Definition lh_table_delete (t : lh_table K P) (key : K) (s : S)
    : option (lh_table K P * S * Z) :=
  let '(t1, e) := lh_table_lookup_entry t key in
  match e with
  | None => Some (t1, s, -1)
  | Some n => lh_table_delete_entry t1 (Z.of_nat n) s
  end.

(** [for (c = t->head; c != NULL; c = c->next) t->free_fn(c)]: the entries
    reached, in order. *)
Fixpoint chain (tbl : list (lh_entry K P)) (fuel : nat) (ent : option nat)
    : option (list (lh_entry K P)) :=
  match ent with
  | None => Some []
  | Some i =>
      match fuel, tbl !! i with
      | Datatypes.S fuel', Some e => cons e <$> chain tbl fuel' (next e)
      | _, _ => None
      end
  end.

(** The entries in the order [lh_foreach] visits them. *)
Definition lh_foreach (t : lh_table K P) : option (list (lh_entry K P)) :=
  chain (table t) (Z.to_nat (size t)) (head t).

Definition lh_table_free (t : lh_table K P) (s : S) : option S :=
  (fun es => fold_left (fun s e => call_free e s) es s) <$> lh_foreach t.

Definition lh_table_length (t : lh_table K P) : Z := count t.

End Ops.

(** ** The representation invariant *)

(** The slot [j] steps after [h] in a table of [M] slots. *)
Definition slot (M h j : nat) : nat := (h + j) `mod` M.

Lemma next_slot_mod M n :
  (0 < M)%nat -> (n < M)%nat -> next_slot (Z.of_nat M) n = slot M n 1.
Proof.
  intros HM Hn. unfold next_slot, slot. case_test; bool_to_prop.
  - replace (n + 1)%nat with M by lia. by rewrite Nat.Div0.mod_same.
  - rewrite Nat.mod_small; lia.
Qed.

Lemma slot_lt M h j : (0 < M)%nat -> (slot M h j < M)%nat.
Proof. intros. apply Nat.mod_upper_bound. lia. Qed.

Lemma slot_slot M h i j : slot M (slot M h i) j = slot M h (i + j).
Proof. unfold slot. rewrite Nat.Div0.add_mod_idemp_l. f_equal. lia. Qed.

Lemma slot_0 M h : (h < M)%nat -> slot M h 0 = h.
Proof. intros. unfold slot. rewrite Nat.add_0_r. by apply Nat.mod_small. Qed.

(** Every slot is met within [M] steps. *)
Lemma slot_surj M h n : (h < M)%nat -> (n < M)%nat -> exists j, (j < M)%nat /\ slot M h j = n.
Proof.
  intros Hh Hn. unfold slot. destruct (decide (h <= n)%nat).
  - exists (n - h)%nat. split; [lia|]. rewrite Nat.mod_small; lia.
  - exists (M + n - h)%nat. split; [lia|].
    replace (h + (M + n - h))%nat with (n + 1 * M)%nat by lia.
    rewrite Nat.Div0.mod_add. apply Nat.mod_small. lia.
Qed.

Section Invariant.
Context {K P : Type} `{!HashKey K}.
Implicit Types (tbl : list (lh_entry K P)) (t : lh_table K P) (l : list (K * option P))
  (ord : list nat).

Definition prev_of ord (i : nat) : option nat :=
  match i with O => None | S j => ord !! j end.

(** The entry at position [i] of the chain. *)
Definition mk_entry ord (i : nat) (kv : K * option P) : lh_entry K P :=
  {| k := LH_KEY kv.1; v := kv.2; next := ord !! S i; prev := prev_of ord i |}.

Definition home (M : nat) (key : K) : nat := Z.to_nat (hash_fn key mod Z.of_nat M).

(** A search for [key] reaches slot [n] without meeting an empty slot. *)
Definition on_path tbl (M : nat) (key : K) (n : nat) : Prop :=
  exists j, (j < M)%nat /\ slot M (home M key) j = n /\
    forall i, (i < j)%nat -> exists e, tbl !! slot M (home M key) i = Some e /\ k e <> LH_EMPTY.

(** [t] holds the key/value pairs [l], in this order, in the slots [ord]. *)
Record lh_repr t ord l : Prop := {
  r_size : 1 <= size t <= INT_MAX;
  r_tbl : zlen (table t) = size t;
  r_count : count t = zlen l;
  r_len : length ord = length l;
  r_nodup : NoDup ord;
  r_entry : forall i n kv, ord !! i = Some n -> l !! i = Some kv ->
              table t !! n = Some (mk_entry ord i kv);
  r_live : forall n e, table t !! n = Some e -> is_free_slot e = false -> n ∈ ord;
  r_head : head t = ord !! 0%nat;
  r_tail : tail t = ord !! Nat.pred (length ord);
  r_probe : forall n e key, table t !! n = Some e -> k e = LH_KEY key ->
              on_path (table t) (Z.to_nat (size t)) key n
}.

(** No two pairs have equal keys. *)
Definition keys_distinct l : Prop :=
  forall i j kv kv', l !! i = Some kv -> l !! j = Some kv' ->
    equal_fn kv.1 kv'.1 = true -> i = j.

Lemma home_lt M key : (0 < M)%nat -> (home M key < M)%nat.
Proof.
  intros. unfold home. pose proof (Z.mod_pos_bound (hash_fn key) (Z.of_nat M)). lia.
Qed.

Lemma home_equal M x y : equal_fn x y = true -> home M x = home M y.
Proof. intros H. unfold home. by rewrite (equal_hash x y H). Qed.

Lemma on_path_mono tbl tbl' M key n :
  (forall m e, tbl !! m = Some e -> k e <> LH_EMPTY ->
     exists e', tbl' !! m = Some e' /\ k e' <> LH_EMPTY) ->
  on_path tbl M key n -> on_path tbl' M key n.
Proof.
  intros Hm (j & Hj & Hn & Hp). exists j. split_and!; [done..|].
  intros i Hi. destruct (Hp i Hi) as (e & He & Hk). eauto.
Qed.

(** ** The probe loops *)

Lemma insert_probe_spec tbl M fuel h i coll :
  (0 < M)%nat -> length tbl = M -> (h < M)%nat -> (fuel > 0)%nat ->
  (exists j, (i <= j < i + fuel)%nat /\
     exists e, tbl !! slot M h j = Some e /\ is_free_slot e = true) ->
  exists j coll' e, insert_probe fuel tbl (Z.of_nat M) (slot M h i) coll = Some (slot M h j, coll') /\
    (i <= j < i + fuel)%nat /\ tbl !! slot M h j = Some e /\ is_free_slot e = true /\
    forall i', (i <= i' < j)%nat -> exists e', tbl !! slot M h i' = Some e' /\ is_free_slot e' = false.
Proof.
  intros HM Hlen Hh. revert i coll. induction fuel as [|fuel IH]; intros i coll Hf Hex; [lia|].
  simpl. destruct (lookup_lt_is_Some_2 tbl (slot M h i)) as [e He].
  { rewrite Hlen. by apply slot_lt. }
  rewrite He. destruct (is_free_slot e) eqn:Hfree.
  { exists i, coll, e. split_and!; try done; lia. }
  destruct Hex as (j & Hj & e' & He' & Hfree').
  assert (j <> i) by (intros ->; rewrite He in He'; simplify_eq; congruence).
  rewrite next_slot_mod, slot_slot by (done || by apply slot_lt).
  destruct (IH (i + 1)%nat (coll + 1)) as (j1 & coll1 & e1 & E1 & Hj1 & He1 & Hfree1 & Hbefore).
  { lia. }
  { exists j. split; [lia|eauto]. }
  exists j1, coll1, e1. split_and!; try done; try lia.
  intros i' Hi'. destruct (decide (i' = i)) as [->|]; [eauto|]. apply Hbefore. lia.
Qed.

Lemma lookup_probe_found tbl M fuel h i key j e key' :
  (0 < M)%nat -> (h < M)%nat -> (i <= j < i + fuel)%nat ->
  tbl !! slot M h j = Some e -> k e = LH_KEY key' -> equal_fn key' key = true ->
  (forall i', (i <= i' < j)%nat -> exists e', tbl !! slot M h i' = Some e' /\ k e' <> LH_EMPTY /\
     forall key'', k e' = LH_KEY key'' -> equal_fn key'' key = false) ->
  lookup_probe fuel tbl (Z.of_nat M) (slot M h i) key = Some (slot M h j).
Proof.
  intros HM Hh Hj He Hk Heq. revert i Hj. induction fuel as [|fuel IH]; intros i Hj Hbefore; [lia|].
  simpl. destruct (decide (i = j)) as [->|Hne].
  { by rewrite He, Hk, Heq. }
  destruct (Hbefore i) as (e' & He' & Hne' & Hdiff); [lia|]. rewrite He'.
  rewrite next_slot_mod, slot_slot by (done || by apply slot_lt).
  assert (lookup_probe fuel tbl (Z.of_nat M) (slot M h (i + 1)) key = Some (slot M h j)) as IH'.
  { apply IH; [lia|]. intros i' Hi'. apply Hbefore. lia. }
  destruct (k e') eqn:Hk'; [done|done|]. by rewrite (Hdiff _ eq_refl).
Qed.

Lemma lookup_probe_sound tbl fuel M h i key n :
  (0 < M)%nat -> (h < M)%nat ->
  lookup_probe fuel tbl (Z.of_nat M) (slot M h i) key = Some n ->
  exists e key', tbl !! n = Some e /\ k e = LH_KEY key' /\ equal_fn key' key = true.
Proof.
  intros HM Hh. revert i. induction fuel as [|fuel IH]; intros i; [done|].
  simpl. destruct (tbl !! slot M h i) as [e|] eqn:He; [|intros; discriminate].
  rewrite next_slot_mod, slot_slot by (done || by apply slot_lt).
  destruct (k e) as [| |key'] eqn:Hk; [done|apply IH|].
  case_test; [|apply IH]. intros [= <-]. eauto.
Qed.

(** ** Insertion *)

Lemma free_slot_exists t ord l :
  lh_repr t ord l -> zlen l < size t ->
  exists n e, table t !! n = Some e /\ is_free_slot e = true.
Proof.
  intros [Hs Ht Hc Hl Hnd He Hlive _ _ _] Hlt.
  destruct (decide (Exists (fun e => is_free_slot e = true) (table t))) as [Hex|Hno].
  { apply List.Exists_exists in Hex as (e & Hin & Hf). apply list_elem_of_In, list_elem_of_lookup in Hin as [n Hn]. eauto. }
  exfalso. apply not_Exists_Forall in Hno; [|apply _].
  assert (seq 0 (length (table t)) ⊆ ord) as Hsub.
  { intros n [_ Hn]%elem_of_seq. destruct (lookup_lt_is_Some_2 (table t) n Hn) as [e Hne].
    eapply Hlive; [done|]. rewrite Forall_lookup in Hno. specialize (Hno _ _ Hne).
    by apply not_true_is_false. }
  apply (NoDup_submseteq _ _ (NoDup_seq _ _)), submseteq_length in Hsub.
  rewrite length_seq in Hsub. unfold zlen in *. lia.
Qed.

Lemma alter_lookup_ne (f : lh_entry K P -> lh_entry K P) tbl i j :
  i <> j -> alter f i tbl !! j = tbl !! j.
Proof. apply list_lookup_alter_ne. Qed.

Lemma alter_lookup_eq (f : lh_entry K P -> lh_entry K P) tbl i e :
  tbl !! i = Some e -> alter f i tbl !! i = Some (f e).
Proof. intros H. by rewrite list_lookup_alter_eq, H. Qed.

(** The chain after appending slot [n]: its own entry and its predecessor's
    link change, nothing else. *)
Definition link_last (ord : list nat) (n : nat) tbl : list (lh_entry K P) :=
  match ord !! Nat.pred (length ord) with
  | None => alter (set_links None None) n tbl
  | Some tl => alter (set_links None (Some tl)) n (alter (set_next (Some n)) tl tbl)
  end.

Lemma link_last_lookup_new ord n tbl e :
  n ∉ ord -> tbl !! n = Some e ->
  link_last ord n tbl !! n = Some (set_links None (ord !! Nat.pred (length ord)) e).
Proof.
  intros Hn He. unfold link_last. destruct (ord !! _) as [tl|] eqn:Etl.
  - assert (tl <> n) by (intros ->; apply Hn; by eapply list_elem_of_lookup_2).
    apply alter_lookup_eq. by rewrite alter_lookup_ne.
  - by apply alter_lookup_eq.
Qed.

Lemma link_last_lookup_old ord n tbl m :
  m <> n ->
  link_last ord n tbl !! m =
    if decide (ord !! Nat.pred (length ord) = Some m) then set_next (Some n) <$> tbl !! m
    else tbl !! m.
Proof.
  intros Hm. unfold link_last. destruct (ord !! _) as [tl|] eqn:Etl.
  - rewrite alter_lookup_ne by done. case_decide as Hd.
    + simplify_eq. by rewrite list_lookup_alter_eq.
    + rewrite alter_lookup_ne by congruence. done.
  - rewrite alter_lookup_ne by done. by case_decide.
Qed.

Lemma link_last_length ord n tbl : length (link_last ord n tbl) = length tbl.
Proof. unfold link_last. case_match; by rewrite !length_alter. Qed.

Lemma insert_slot_repr t ord l key val :
  lh_repr t ord l -> zlen l < size t ->
  exists t' n, insert_slot t key val = Some t' /\ size t' = size t /\
    lh_repr t' (ord ++ [n]) (l ++ [(key, val)]).
Proof.
  intros HR Hlt. pose proof (free_slot_exists t ord l HR Hlt) as (nf & ef & Hnf & Hff).
  destruct HR as [Hs Ht Hc Hl Hnd He Hlive Hhd Htl Hpr]. unfold zlen in Ht.
  set (M := Z.to_nat (size t)) in *. assert (size t = Z.of_nat M) as HM by lia.
  pose proof (home_lt M key ltac:(lia)) as Hh.
  assert (length (table t) = M) as HlenM by lia.
  destruct (slot_surj M (home M key) nf) as (jf & Hjf & Hsf);
    [done|apply lookup_lt_Some in Hnf; lia|].
  destruct (insert_probe_spec (table t) M (M + 1) (home M key) 0 (collisions t))
    as (j & coll & e & Hprobe & Hj & Hje & Hfree & Hbefore); try done; try lia.
  { exists jf. split; [lia|]. rewrite Hsf. eauto. }
  rewrite slot_0 in Hprobe by done. set (n := slot M (home M key) j) in *.
  assert (n ∉ ord) as Hn.
  { intros [i Hi]%list_elem_of_lookup_1.
    destruct (lookup_lt_is_Some_2 l i) as [kv Hkv]; [apply lookup_lt_Some in Hi; lia|].
    rewrite (He _ _ _ Hi Hkv) in Hje. by simplify_eq. }
  set (tbl1 := alter (set_kv key val) n (table t)).
  assert (exists t', insert_slot t key val = Some t' /\
     table t' = link_last ord n tbl1 /\ head t' = (ord ++ [n]) !! 0%nat /\ tail t' = Some n /\
     size t' = size t /\ count t' = count t + 1) as (t' & -> & Htbl & Hhd' & Htl' & Hsz & Hcnt).
  { unfold insert_slot. fold M. unfold home in Hprobe. rewrite HM in *.
    rewrite Hprobe. rewrite Hhd, Htl. unfold link_last. fold n tbl1.
    destruct ord as [|o ord']; [simpl; by eexists|].
    simpl. destruct (lookup_lt_is_Some_2 (o :: ord') (length ord')) as [tl Etl]; [simpl; lia|].
    rewrite Etl. by eexists. }
  exists t', n. split_and!; [done..|].
  assert (forall m, m <> n -> exists f, table t' !! m = f <$> table t !! m /\
            (forall x, k (f x) = k x)) as Hother.
  { intros m Hm. rewrite Htbl, link_last_lookup_old by done. unfold tbl1.
    rewrite alter_lookup_ne by done. case_decide.
    - by exists (set_next (Some n)).
    - exists id. split; [|done]. by destruct (table t !! m). }
  assert (table t' !! n = Some (mk_entry (ord ++ [n]) (length ord) (key, val))) as Hnew.
  { rewrite Htbl. erewrite link_last_lookup_new; [|done|by apply alter_lookup_eq].
    unfold mk_entry, set_links, set_kv. simpl. f_equal. f_equal.
    - symmetry. apply lookup_ge_None. rewrite length_app. simpl. lia.
    - unfold prev_of. destruct ord as [|o ord']; [done|].
      symmetry. apply (lookup_app_l (o :: ord')). simpl. lia. }
  constructor; try lia.
  - rewrite Htbl, Hsz. unfold zlen. rewrite link_last_length. unfold tbl1. rewrite length_alter. lia.
  - rewrite Hcnt, zlen_app, Hc. done.
  - rewrite !length_app. simpl. lia.
  - apply list.NoDup_app. split_and!; [done| |apply NoDup_singleton]. set_solver.
  - intros i m kv Hi Hkv. destruct (decide (i = length ord)) as [->|Hne].
    + rewrite list_lookup_middle in Hi by done. rewrite Hl, list_lookup_middle in Hkv by done.
      simplify_eq. done.
    + assert (i < length ord)%nat as Hlti by (apply lookup_lt_Some in Hi; rewrite length_app in Hi; simpl in Hi; lia).
      rewrite lookup_app_l in Hi by lia. rewrite lookup_app_l in Hkv by lia.
      assert (m <> n) by (intros ->; apply Hn; by eapply list_elem_of_lookup_2).
      rewrite Htbl, link_last_lookup_old by done. unfold tbl1. rewrite alter_lookup_ne by done.
      rewrite (He _ _ _ Hi Hkv). unfold mk_entry. simpl.
      assert (prev_of (ord ++ [n]) i = prev_of ord i) as ->.
      { unfold prev_of. destruct i; [done|]. apply lookup_app_l. lia. }
      case_decide as Hd.
      * assert (i = Nat.pred (length ord)) as -> by (by eapply NoDup_lookup).
        replace (S (Nat.pred (length ord))) with (length ord) by lia.
        rewrite list_lookup_middle by done. done.
      * assert (S i < length ord)%nat.
        { destruct (decide (i = Nat.pred (length ord))) as [->|]; [done|lia]. }
        by rewrite lookup_app_l by lia.
  - intros m em Hm Hf. destruct (decide (m = n)) as [->|Hne]; [set_solver|].
    destruct (Hother m Hne) as (f & Hf1 & Hf2). rewrite Hf1 in Hm.
    apply fmap_Some in Hm as (x & Hx & ->). rewrite elem_of_app. left.
    eapply Hlive; [done|]. unfold is_free_slot in *. by rewrite Hf2 in Hf.
  - exact Hhd'.
  - rewrite Htl', length_app. simpl. rewrite Nat.add_1_r. simpl.
    by rewrite list_lookup_middle.
  - rewrite Hsz. fold M.
    assert (forall m x, table t !! m = Some x -> k x <> LH_EMPTY ->
       exists x', table t' !! m = Some x' /\ k x' <> LH_EMPTY) as Hmono.
    { intros m x Hx Hkx. destruct (decide (m = n)) as [->|Hne].
      - rewrite Hnew. eexists. split; [done|]. done.
      - destruct (Hother m Hne) as (f & -> & Hf). rewrite Hx. simpl.
        eexists. split; [done|]. by rewrite Hf. }
    intros m x kx Hm Hkx. destruct (decide (m = n)) as [->|Hne].
    + rewrite Hnew in Hm. injection Hm as <-. simpl in Hkx. injection Hkx as <-.
      exists j. split_and!; [|done|].
      { destruct (decide (j = M)) as [->|]; [|lia]. exfalso.
        destruct (Hbefore jf) as (x & Hx & Hxf); [lia|]. rewrite Hsf in Hx. congruence. }
      intros i Hi. destruct (Hbefore i) as (x & Hx & Hxf); [lia|].
      apply (Hmono _ x); [done|]. intros E. unfold is_free_slot in Hxf. by rewrite E in Hxf.
    + destruct (Hother m Hne) as (f & Hf1 & Hf2). rewrite Hf1 in Hm.
      apply fmap_Some in Hm as (x0 & Hx0 & ->). rewrite Hf2 in Hkx.
      eapply on_path_mono; [exact Hmono|]. by eapply Hpr.
Qed.

Lemma repr_length t ord l : lh_repr t ord l -> zlen l <= size t.
Proof.
  intros [Hs Ht Hc Hl Hnd He Hlive _ _ _]. unfold zlen in *.
  assert (ord ⊆ seq 0 (length (table t))) as Hsub.
  { intros n [i Hi]%list_elem_of_lookup_1.
    destruct (lookup_lt_is_Some_2 l i) as [kv Hkv]; [apply lookup_lt_Some in Hi; lia|].
    pose proof (lookup_lt_Some _ _ _ (He _ _ _ Hi Hkv)). apply elem_of_seq. lia. }
  apply (NoDup_submseteq _ _ Hnd), submseteq_length in Hsub.
  rewrite length_seq in Hsub. lia.
Qed.

(** The counters do not matter. *)
Lemma repr_counters t t' ord l :
  size t' = size t -> count t' = count t -> head t' = head t -> tail t' = tail t ->
  table t' = table t -> lh_repr t ord l -> lh_repr t' ord l.
Proof. intros E1 E2 E3 E4 E5 []. constructor; by rewrite ?E1, ?E2, ?E3, ?E4, ?E5. Qed.

Context {al : Allocator}.

Lemma new_repr n t : lh_table_new n = Some t -> 1 <= n <= INT_MAX ->
  lh_repr t [] [] /\ size t = n.
Proof.
  unfold lh_table_new. repeat case_test; intros [= <-] Hn. split; [|done].
  assert (forall m e, replicate (Z.to_nat n) (empty_entry (K:=K) (P:=P)) !! m = Some e ->
            e = empty_entry) as Hempty.
  { intros m e He. by apply lookup_replicate in He as [-> _]. }
  constructor; simpl; try done.
  - unfold zlen. rewrite length_replicate. lia.
  - apply NoDup_nil_2.
  - by intros m e ->%Hempty.
  - by intros m e key ->%Hempty.
Qed.

(** One insertion into a table that is not over its load. *)
Lemma insert_not_full d t ord l key val :
  lh_repr t ord l -> over_load (count t) (size t) = false ->
  exists t' n, lh_table_insert_d d t key val = Some t' /\ size t' = size t /\
    lh_repr t' (ord ++ [n]) (l ++ [(key, val)]).
Proof.
  intros HR Hload.
  assert (lh_table_insert_d d t key val = insert_slot (bump_inserts t) key val) as ->.
  { destruct d; simpl; by rewrite Hload. }
  assert (lh_repr (bump_inserts t) ord l) as HR' by (by apply (repr_counters t)).
  destruct (insert_slot_repr (bump_inserts t) ord l key val HR') as (t' & n & H); [|eauto].
  simpl. unfold over_load in Hload. pose proof (r_count _ _ _ HR) as Hc.
  pose proof (r_size _ _ _ HR). rewrite Z.geb_leb in Hload. bool_to_prop. lia.
Qed.

Lemma resize_walk_repr d t ord l fuel i nt o :
  lh_repr t ord l -> lh_repr nt o (take i l) -> size nt = 2 * size t ->
  (i <= length l)%nat -> (length l - i <= fuel)%nat ->
  exists nt' o', resize_walk (lh_table_insert_d d) t fuel (ord !! i) nt = Some nt' /\
    size nt' = 2 * size t /\ lh_repr nt' o' l.
Proof.
  intros HR. pose proof (repr_length t ord l HR) as Hle.
  revert i nt o. induction fuel as [|fuel IH]; intros i nt o Hnt Hsz Hi Hf.
  - assert (i = length l) as -> by lia. rewrite firstn_all in Hnt.
    rewrite lookup_ge_None_2 by (rewrite (r_len _ _ _ HR); lia). simpl. eauto.
  - destruct (decide (i = length l)) as [->|Hne].
    { rewrite firstn_all in Hnt.
      rewrite lookup_ge_None_2 by (rewrite (r_len _ _ _ HR); lia). simpl. eauto. }
    destruct (lookup_lt_is_Some_2 ord i) as [n Hn]; [rewrite (r_len _ _ _ HR); lia|].
    destruct (lookup_lt_is_Some_2 l i) as [[key val] Hkv]; [lia|].
    rewrite Hn. simpl. rewrite (r_entry _ _ _ HR _ _ _ Hn Hkv). simpl.
    destruct (insert_not_full d nt o (take i l) key val Hnt) as (nt' & n' & -> & Hsz' & Hnt').
    { unfold over_load. rewrite (r_count _ _ _ Hnt), Hsz, Z.geb_leb.
      apply Z.leb_gt. unfold zlen in *. rewrite length_take.
      pose proof (r_size _ _ _ HR). lia. }
    rewrite <- (take_S_r _ _ _ Hkv) in Hnt'.
    apply (IH (S i) nt' _ Hnt'); [lia|lia|lia].
Qed.

(** ** The operations refine an association list kept in insertion order *)

Lemma resize_repr d t ord l :
  lh_repr t ord l -> size t * 2 <= INT_MAX ->
  malloc_ok 88 = true -> malloc_ok (size t * 2 * 32) = true ->
  exists t' ord', lh_table_resize_with (lh_table_insert_d d) t (size t * 2) = Some t' /\
    size t' = 2 * size t /\ lh_repr t' ord' l.
Proof.
  intros HR Hmax Hm1 Hm2. pose proof (r_size _ _ _ HR) as Hs.
  unfold lh_table_resize_with.
  destruct (lh_table_new (size t * 2)) as [nt|] eqn:E.
  2: { unfold lh_table_new in E. rewrite Hm1 in E. unfold u64 in E.
       rewrite wrap_id, Hm2 in E; [done|]. unfold INT_MAX in *. lia. }
  apply new_repr in E as [Hnt Hsz]; [|lia].
  destruct (resize_walk_repr d t ord l (Z.to_nat (size t)) 0 nt [] HR Hnt)
    as (nt' & o' & Hw & Hsz' & HR'); try lia.
  { pose proof (repr_length t ord l HR). unfold zlen in *. lia. }
  rewrite (r_head _ _ _ HR), Hw. eexists _, o'. split; [reflexivity|]. split; [simpl; lia|].
  destruct HR'. constructor; simpl; try done; try lia.
  - by rewrite (r_count _ _ _ HR).
  - by replace (size t * 2) with (size nt') by lia.
Qed.

(** Enough memory for the insertion into [t]. *)
Definition insert_room t : Prop :=
  over_load (count t) (size t) = true ->
  size t * 2 <= INT_MAX /\ malloc_ok 88 = true /\ malloc_ok (size t * 2 * 32) = true.

Lemma insert_repr d t ord l key val :
  lh_repr t ord l -> insert_room t ->
  exists t' ord', lh_table_insert_d (S d) t key val = Some t' /\
    lh_repr t' ord' (l ++ [(key, val)]).
Proof.
  intros HR Hroom. destruct (over_load (count t) (size t)) eqn:Hload.
  2: { destruct (insert_not_full (S d) t ord l key val HR Hload) as (t' & n & ? & _ & ?). eauto. }
  destruct (Hroom Hload) as (Hmax & Hm1 & Hm2).
  assert (lh_repr (bump_inserts t) ord l) as HR' by (by apply (repr_counters t)).
  destruct (resize_repr d (bump_inserts t) ord l HR' Hmax Hm1 Hm2) as (t1 & o1 & E1 & Hsz1 & HR1).
  pose proof (r_size _ _ _ HR). pose proof (repr_length _ _ _ HR).
  destruct (insert_slot_repr t1 o1 l key val HR1) as (t2 & n & E2 & _ & HR2).
  { rewrite Hsz1. simpl. lia. }
  exists t2, (o1 ++ [n]). split; [|done].
  simpl. rewrite Hload. rewrite s32_id by (unfold INT_MIN, INT_MAX in *; lia).
  simpl in E1. by rewrite E1.
Qed.

(** The position of the first pair whose key equals [key]. *)
Fixpoint assoc_pos (key : K) (l : list (K * option P)) : option nat :=
  match l with
  | [] => None
  | (key', _) :: l' => if equal_fn key' key then Some 0%nat else S <$> assoc_pos key l'
  end.

Lemma assoc_pos_Some key l i :
  assoc_pos key l = Some i -> exists kv, l !! i = Some kv /\ equal_fn kv.1 key = true.
Proof.
  revert i. induction l as [|[key' val] l IH]; intros i; [done|]. simpl.
  case_test; [intros [= <-]; by eexists|]. intros (j & Hj & ->)%fmap_Some. by apply IH.
Qed.

Lemma assoc_pos_None key l i kv :
  assoc_pos key l = None -> l !! i = Some kv -> equal_fn kv.1 key = false.
Proof.
  revert i. induction l as [|[key' val] l IH]; intros i; [done|]. simpl.
  case_test; [done|]. intros H%fmap_None. destruct i as [|i]; simpl; [by intros [= <-]|].
  by apply IH.
Qed.

Lemma mod_wrap x M : (x < 2 * M)%nat ->
  (x `mod` M = if decide (x < M) then x else x - M)%nat.
Proof.
  intros Hx. case_decide; [by apply Nat.mod_small|].
  replace x with (x - M + 1 * M)%nat at 1 by lia.
  rewrite Nat.Div0.mod_add, Nat.mod_small; lia.
Qed.

Lemma slot_inj M h i j : (h < M)%nat -> (i < M)%nat -> (j < M)%nat ->
  slot M h i = slot M h j -> i = j.
Proof.
  intros Hh Hi Hj. unfold slot. rewrite !mod_wrap by lia. repeat case_decide; lia.
Qed.

Lemma lookup_entry_repr t ord l key :
  lh_repr t ord l -> keys_distinct l ->
  lh_table_lookup_entry t key = (bump_lookups t, assoc_pos key l ≫= (ord !!.)).
Proof.
  intros HR Hd. unfold lh_table_lookup_entry. f_equal.
  destruct HR as [Hs Ht Hc Hl Hnd He Hlive Hhd Htl Hpr]. unfold zlen in Ht.
  set (M := Z.to_nat (size t)) in *. assert (size t = Z.of_nat M) as HM by lia.
  rewrite HM. pose proof (home_lt M key ltac:(lia)) as Hh. fold (home M key).
  rewrite <- (slot_0 M (home M key)) by done.
  assert (forall n e key', table t !! n = Some e -> k e = LH_KEY key' ->
    exists i v', ord !! i = Some n /\ l !! i = Some (key', v')) as Hinv.
  { intros n e key' Hn Hk.
    assert (n ∈ ord) as [i Hi]%list_elem_of_lookup_1.
    { eapply Hlive; [done|]. unfold is_free_slot. by rewrite Hk. }
    destruct (lookup_lt_is_Some_2 l i) as [[k1 v1] Hkv]; [apply lookup_lt_Some in Hi; lia|].
    rewrite (He _ _ _ Hi Hkv) in Hn. injection Hn as <-. simpl in Hk. injection Hk as <-. eauto. }
  destruct (assoc_pos key l) as [i|] eqn:Hpos; simpl.
  - apply assoc_pos_Some in Hpos as ([key' val] & Hkv & Heq). simpl in Heq.
    destruct (lookup_lt_is_Some_2 ord i) as [n Hn]; [apply lookup_lt_Some in Hkv; lia|].
    rewrite Hn. pose proof (He _ _ _ Hn Hkv) as Hent.
    destruct (Hpr n _ key' Hent eq_refl) as (j & Hj & Hslot & Hpath).
    rewrite (home_equal M key' key Heq) in Hslot, Hpath. rewrite <- Hslot in *.
    eapply lookup_probe_found; [lia|done|split; [lia|exact (Hj : (j < 0 + M)%nat)]|done|done|done|].
    intros i' [_ Hi']. destruct (Hpath i' Hi') as (e' & He' & Hne'). exists e'. split_and!; [done..|].
    intros key'' Hk''. destruct (equal_fn key'' key) eqn:Heq''; [exfalso|done].
    destruct (Hinv _ _ _ He' Hk'') as (i2 & v2 & Hi2 & Hkv2).
    assert (i2 = i) as ->.
    { apply (Hd _ _ _ _ Hkv2 Hkv). simpl.
      rewrite <- (equal_trans key'' key key' Heq''). by rewrite equal_sym. }
    rewrite Hn in Hi2. injection Hi2 as Hi2.
    apply slot_inj in Hi2; lia.
  - destruct (lookup_probe _ _ _ _ _) as [n|] eqn:E; [exfalso|done].
    apply lookup_probe_sound in E as (e & key' & Hn & Hk & Heq); [|lia|done].
    destruct (Hinv _ _ _ Hn Hk) as (i & v' & _ & Hkv).
    pose proof (assoc_pos_None _ _ _ _ Hpos Hkv) as H. simpl in H. congruence.
Qed.

(** *** Deletion *)

Lemma prev_of_Some ord i m : prev_of ord i = Some m -> exists j, i = S j /\ ord !! j = Some m.
Proof. destruct i; [done|]. simpl. eauto. Qed.

(** The neighbours of the entry at position [i]. *)
Lemma neighbour_ne ord i n m :
  NoDup ord -> ord !! i = Some n -> (prev_of ord i = Some m \/ ord !! S i = Some m) -> m <> n.
Proof.
  intros Hnd Hi [(j & -> & Hj)%prev_of_Some|HS] ->.
  - pose proof (NoDup_lookup _ _ _ _ Hnd Hi Hj). lia.
  - pose proof (NoDup_lookup _ _ _ _ Hnd Hi HS). lia.
Qed.

Context {S' : Type}.
Variable free_fn : option (lh_entry K P -> S' -> S').

Definition unlink_tbl (pv nx : option nat) (n : nat) tbl : list (lh_entry K P) :=
  let tbl1 := alter set_freed n tbl in
  let tbl2 := match pv with Some p => alter (set_next nx) p tbl1 | None => tbl1 end in
  let tbl3 := match nx with Some q => alter (set_prev pv) q tbl2 | None => tbl2 end in
  alter (set_links None None) n tbl3.

(** The four ways [lh_table_delete_entry] relinks the chain are one. *)
Lemma delete_entry_eq t ord l i n kv s :
  lh_repr t ord l -> ord !! i = Some n -> l !! i = Some kv ->
  let pv := prev_of ord i in let nx := ord !! S i in
  exists t', lh_table_delete_entry free_fn t (Z.of_nat n) s =
      Some (t', call_free free_fn (mk_entry ord i kv) s, 0) /\
    size t' = size t /\ count t' = count t - 1 /\
    head t' = match pv with Some _ => head t | None => nx end /\
    tail t' = match nx with Some _ => tail t | None => pv end /\
    table t' = unlink_tbl pv nx n (table t).
Proof.
  intros HR Hi Hkv pv nx. pose proof (r_entry _ _ _ HR _ _ _ Hi Hkv) as He.
  pose proof (r_nodup _ _ _ HR) as Hnd. pose proof (lookup_lt_Some _ _ _ Hi) as Hlt.
  assert (head t = Some n <-> pv = None) as Hhead.
  { rewrite (r_head _ _ _ HR). unfold pv. destruct i as [|i]; simpl; [by rewrite Hi|].
    split; [|intros H0; apply lookup_ge_None in H0; lia].
    intros H0. by pose proof (NoDup_lookup _ _ _ _ Hnd Hi H0). }
  assert (tail t = Some n <-> nx = None) as Htail.
  { rewrite (r_tail _ _ _ HR). unfold nx. rewrite lookup_ge_None. split.
    - intros H0. pose proof (NoDup_lookup _ _ _ _ Hnd Hi H0). lia.
    - intros H0. replace (Nat.pred (length ord)) with i by lia. done. }
  unfold lh_table_delete_entry. rewrite (proj2 (Z.ltb_ge (Z.of_nat n) 0)) by lia.
  rewrite Nat2Z.id, He. unfold is_free_slot. cbn [mk_entry k next prev].
  change (prev_of ord i) with pv. change (ord !! S i) with nx.
  destruct nx as [q|]; destruct pv as [p|]; unfold unlink_tbl;
    repeat (case_bool_decide; [|]); try naive_solver; simpl; eexists; (split; [reflexivity|]);
    naive_solver.
Qed.

(** What unlinking position [i] of the chain does to the entry of another
    slot [m]. *)
Definition relink ord (i m : nat) (e : lh_entry K P) : lh_entry K P :=
  {| k := k e; v := v e;
     next := if decide (prev_of ord i = Some m) then ord !! S i else next e;
     prev := if decide (ord !! S i = Some m) then prev_of ord i else prev e |}.

Lemma alter_lookup (f : lh_entry K P -> lh_entry K P) tbl i j :
  alter f i tbl !! j = if decide (i = j) then f <$> tbl !! j else tbl !! j.
Proof.
  case_decide; [subst; apply list_lookup_alter_eq|by apply list_lookup_alter_ne].
Qed.

Lemma unlink_lookup ord i n tbl m :
  NoDup ord -> ord !! i = Some n ->
  unlink_tbl (prev_of ord i) (ord !! S i) n tbl !! m =
  if decide (n = m) then (fun _ => {| k := LH_FREED; v := None; next := None; prev := None |}) <$> tbl !! m
  else relink ord i m <$> tbl !! m.
Proof.
  intros Hnd Hi. unfold unlink_tbl, relink.
  assert (forall p, prev_of ord i = Some p -> p <> n) as Hp
    by (intros p ?; eapply neighbour_ne; eauto).
  assert (forall q, ord !! S i = Some q -> q <> n) as Hq
    by (intros q ?; eapply neighbour_ne; eauto).
  destruct (prev_of ord i) as [p|]; [specialize (Hp p eq_refl)|];
    (destruct (ord !! S i) as [q|]; [specialize (Hq q eq_refl)|]);
    rewrite !alter_lookup; repeat case_decide; try congruence;
    destruct (tbl !! m) as [[]|]; simpl; first [reflexivity|congruence].
Qed.

Lemma unlink_length pv nx n tbl : length (unlink_tbl pv nx n tbl) = length tbl.
Proof. unfold unlink_tbl. destruct pv, nx; by rewrite !length_alter. Qed.

Lemma prev_of_delete_lt ord i j : (j <= i)%nat -> prev_of (delete i ord) j = prev_of ord j.
Proof. intros. destruct j as [|j]; [done|]. apply list_lookup_delete_lt. lia. Qed.

Lemma prev_of_delete_ge ord i j : (i < j)%nat -> prev_of (delete i ord) j = ord !! j.
Proof. intros. destruct j as [|j]; [lia|]. apply list_lookup_delete_ge. lia. Qed.

(** The position in the chain before the deletion of position [i]. *)
Definition old_pos (i j : nat) : nat := if decide (j < i)%nat then j else S j.

Lemma lookup_delete_old {A} (l : list A) i j : delete i l !! j = l !! old_pos i j.
Proof.
  unfold old_pos. case_decide.
  - by apply list_lookup_delete_lt.
  - apply list_lookup_delete_ge. lia.
Qed.

(** Relinking turns the old chain entries into those of the new chain. *)
Lemma relink_mk_entry ord i j m kv :
  NoDup ord -> ord !! old_pos i j = Some m ->
  relink ord i m (mk_entry ord (old_pos i j) kv) = mk_entry (delete i ord) j kv.
Proof.
  intros Hnd Hm. unfold relink, mk_entry. simpl. f_equal.
  - rewrite lookup_delete_old. case_decide as Hd.
    + apply prev_of_Some in Hd as (i' & -> & Hi').
      pose proof (NoDup_lookup _ _ _ _ Hnd Hm Hi') as E. unfold old_pos in *.
      repeat case_decide; try lia; f_equal; lia.
    + unfold old_pos in *. repeat case_decide; try done; try lia.
      exfalso. apply Hd. replace i with (S j) by lia. done.
  - case_decide as Hd.
    + pose proof (NoDup_lookup _ _ _ _ Hnd Hm Hd) as E. unfold old_pos in *.
      case_decide; try lia. replace j with i by lia. by rewrite prev_of_delete_lt by lia.
    + unfold old_pos in *. case_decide; [by rewrite prev_of_delete_lt by lia|].
      simpl. destruct (decide (i = j)) as [->|]; [done|]. by rewrite prev_of_delete_ge by lia.
Qed.

Lemma length_delete_pred {A} (l : list A) i :
  (i < length l)%nat -> length (delete i l) = Nat.pred (length l).
Proof. intros Hi. destruct (lookup_lt_is_Some_2 _ _ Hi). rewrite length_delete by eauto. lia. Qed.

(** Deleting the pair at position [i] unlinks it, gives its entry to the
    [free_fn] callback and keeps the order of the others. *)
Lemma delete_entry_repr t ord l i n kv s :
  lh_repr t ord l -> ord !! i = Some n -> l !! i = Some kv ->
  exists t' e, lh_table_delete_entry free_fn t (Z.of_nat n) s = Some (t', call_free free_fn e s, 0) /\
    k e = LH_KEY kv.1 /\ v e = kv.2 /\ lh_repr t' (delete i ord) (delete i l).
Proof.
  intros HR Hi Hkv. pose proof (lookup_lt_Some _ _ _ Hi) as Hlt.
  destruct (delete_entry_eq t ord l i n kv s HR Hi Hkv) as (t' & E & Hsz & Hc & Hhd & Htl & Htbl).
  exists t', (mk_entry ord i kv). split_and!; [exact E|done|done|].
  destruct HR as [Rs Rt Rc Rl Rnd Re Rlive Rhd Rtl Rp].
  assert (forall m, table t' !! m =
    if decide (n = m) then (fun _ => {| k := LH_FREED; v := None; next := None; prev := None |}) <$> table t !! m
    else relink ord i m <$> table t !! m) as Hlook.
  { intros m. rewrite Htbl. by apply unlink_lookup. }
  constructor; try lia.
  - unfold zlen in *. rewrite Htbl, unlink_length. lia.
  - rewrite Hc, Rc. unfold zlen. rewrite length_delete_pred; lia.
  - rewrite !length_delete_pred; lia.
  - apply (sublist_NoDup _ ord); [done|]. apply sublist_delete.
  - intros j m kv' Hj Hkv'. rewrite lookup_delete_old in Hj. rewrite lookup_delete_old in Hkv'.
    rewrite Hlook, decide_False, (Re _ _ _ Hj Hkv'); simpl; [by rewrite relink_mk_entry|].
    intros <-. pose proof (NoDup_lookup _ _ _ _ Rnd Hi Hj). unfold old_pos in *. case_decide; lia.
  - intros m e Hm Hf. rewrite Hlook in Hm. case_decide.
    { apply fmap_Some in Hm as (? & _ & ->). done. }
    apply fmap_Some in Hm as (e0 & Hm & ->).
    destruct (list_elem_of_lookup_1 _ _ (Rlive m e0 Hm Hf)) as [j Hj].
    assert (j <> i) by (intros ->; congruence).
    apply list_elem_of_lookup. destruct (decide (j < i)%nat).
    + exists j. rewrite lookup_delete_old. unfold old_pos. by rewrite decide_True.
    + exists (Nat.pred j). rewrite lookup_delete_old. unfold old_pos.
      rewrite decide_False by lia. by replace (S (Nat.pred j)) with j by lia.
  - rewrite Hhd, Rhd, lookup_delete_old. unfold old_pos.
    destruct i as [|i]; simpl; [done|].
    destruct (lookup_lt_is_Some_2 ord i) as [? ->]; [lia|]. done.
  - rewrite Htl, Rtl, lookup_delete_old, length_delete_pred by done. unfold old_pos.
    destruct (ord !! S i) as [q|] eqn:Eq.
    + apply lookup_lt_Some in Eq. case_decide; [lia|]. f_equal. lia.
    + apply lookup_ge_None in Eq. destruct i as [|i]; simpl.
      * rewrite lookup_ge_None_2; [done|]. lia.
      * case_decide; [f_equal; lia|]. lia.
  - rewrite Hsz. intros m e key Hm Hk. rewrite Hlook in Hm. case_decide.
    { apply fmap_Some in Hm as (? & _ & ->). done. }
    apply fmap_Some in Hm as (e0 & Hm & ->).
    apply (on_path_mono (table t)); [|by eapply Rp].
    intros m' x Hx Hkx. rewrite Hlook, Hx. case_decide; simpl; eexists; by split.
Qed.

(** *** Iteration *)

Lemma chain_repr t ord l fuel i :
  lh_repr t ord l -> (i <= length l)%nat -> (length l - i <= fuel)%nat ->
  exists es, chain (table t) fuel (ord !! i) = Some es /\
    Forall2 (fun e kv => k e = LH_KEY kv.1 /\ v e = kv.2) es (drop i l).
Proof.
  intros HR. revert i. induction fuel as [|fuel IH]; intros i Hi Hf.
  - assert (i = length l) as -> by lia.
    rewrite lookup_ge_None_2 by (rewrite (r_len _ _ _ HR); lia). rewrite drop_all.
    exists []. by split.
  - destruct (decide (i = length l)) as [->|Hne].
    { rewrite lookup_ge_None_2 by (rewrite (r_len _ _ _ HR); lia). rewrite drop_all.
      exists []. by split. }
    destruct (lookup_lt_is_Some_2 ord i) as [n Hn]; [rewrite (r_len _ _ _ HR); lia|].
    destruct (lookup_lt_is_Some_2 l i) as [kv Hkv]; [lia|].
    rewrite Hn. simpl. rewrite (r_entry _ _ _ HR _ _ _ Hn Hkv). cbn [next mk_entry].
    destruct (IH (S i)) as (es & -> & Hes); [lia|lia|].
    exists (mk_entry ord i kv :: es). split; [done|].
    rewrite (drop_S _ _ _ Hkv). by constructor.
Qed.

Lemma foreach_repr t ord l :
  lh_repr t ord l ->
  exists es, lh_foreach t = Some es /\
    Forall2 (fun e kv => k e = LH_KEY kv.1 /\ v e = kv.2) es l.
Proof.
  intros HR. unfold lh_foreach. rewrite (r_head _ _ _ HR).
  apply (chain_repr t ord l _ 0 HR); [lia|].
  pose proof (repr_length _ _ _ HR). unfold zlen in *. lia.
Qed.

End Invariant.

(** ** Refinement of an ordered association list *)

Section Refinement.
Context {al : Allocator} {K P S : Type} `{!HashKey K}.
(** The callback sees the key and the value of the entry it releases. *)
Variable release : K -> option P -> S -> S.
Implicit Types (t : lh_table K P) (l : list (K * option P)) (s : S).

Definition entry_free (e : lh_entry K P) (s : S) : S :=
  match k e with LH_KEY key => release key (v e) s | _ => s end.

Inductive lh_op :=
  | OpInsert (key : K) (val : option P)
  | OpLookup (key : K)
  | OpDelete (key : K).

Inductive lh_out :=
  | OutInsert
  | OutLookup (found : bool) (val : option P)
  | OutDelete (rc : Z).

Definition lh_step t s (o : lh_op) : option (lh_table K P * S * lh_out) :=
  match o with
  | OpInsert key val =>
      match lh_table_insert t key val with
      | Some t' => Some (t', s, OutInsert)
      | None => None
      end
  | OpLookup key =>
      let '(t', found, val) := lh_table_lookup_ex t key in
      Some (t', s, OutLookup found val)
  | OpDelete key =>
      match lh_table_delete (Some entry_free) t key s with
      | Some (t', s', rc) => Some (t', s', OutDelete rc)
      | None => None
      end
  end.

Fixpoint lh_run t s (os : list lh_op) : option (lh_table K P * S * list lh_out) :=
  match os with
  | [] => Some (t, s, [])
  | o :: os' =>
      match lh_step t s o with
      | None => None
      | Some (t1, s1, r) =>
          match lh_run t1 s1 os' with
          | None => None
          | Some (t2, s2, rs) => Some (t2, s2, r :: rs)
          end
      end
  end.

(** The same calls on the association list. *)
Definition assoc_step l s (o : lh_op) : list (K * option P) * S * lh_out :=
  match o with
  | OpInsert key val => (l ++ [(key, val)], s, OutInsert)
  | OpLookup key =>
      match assoc_pos key l ≫= (l !!.) with
      | Some (_, val) => (l, s, OutLookup true val)
      | None => (l, s, OutLookup false None)
      end
  | OpDelete key =>
      match assoc_pos key l with
      | None => (l, s, OutDelete (-1))
      | Some i =>
          match l !! i with
          | Some (key', val) => (delete i l, release key' val s, OutDelete 0)
          | None => (l, s, OutDelete (-1))
          end
      end
  end.

Fixpoint assoc_run l s (os : list lh_op) : list (K * option P) * S * list lh_out :=
  match os with
  | [] => (l, s, [])
  | o :: os' =>
      let '(l1, s1, r) := assoc_step l s o in
      let '(l2, s2, rs) := assoc_run l1 s1 os' in
      (l2, s2, r :: rs)
  end.

(** Only keys that are not there are inserted (the callers look a key up
    first). *)
Fixpoint fresh_inserts l s (os : list lh_op) : Prop :=
  match os with
  | [] => True
  | o :: os' =>
      match o with OpInsert key _ => assoc_pos key l = None | _ => True end /\
      let '(l1, s1, _) := assoc_step l s o in fresh_inserts l1 s1 os'
  end.

Lemma keys_distinct_snoc l key val :
  keys_distinct l -> assoc_pos key l = None -> keys_distinct (l ++ [(key, val)]).
Proof.
  intros Hd Hn i j kv kv' Hi Hj Heq.
  pose proof (assoc_pos_None key l) as Habs.
  apply lookup_app_Some in Hi as [Hi|[Hil Hi]]; apply lookup_app_Some in Hj as [Hj|[Hjl Hj]].
  - by eapply Hd.
  - exfalso. apply list_lookup_singleton_Some in Hj as [_ <-]. simpl in Heq.
    by rewrite (Habs _ _ Hn Hi) in Heq.
  - exfalso. apply list_lookup_singleton_Some in Hi as [_ <-]. simpl in Heq.
    rewrite equal_sym in Heq. by rewrite (Habs _ _ Hn Hj) in Heq.
  - apply list_lookup_singleton_Some in Hi as [? _].
    apply list_lookup_singleton_Some in Hj as [? _]. lia.
Qed.

Lemma keys_distinct_delete l i : keys_distinct l -> keys_distinct (delete i l).
Proof.
  intros Hd a b kv kv' Ha Hb Heq. rewrite lookup_delete_old in Ha, Hb.
  pose proof (Hd _ _ _ _ Ha Hb Heq). unfold old_pos in *. repeat case_decide; lia.
Qed.

(** The table stays within four times the number of insertions. *)
Definition lh_inv (n : Z) t l : Prop :=
  exists ord, lh_repr t ord l /\ keys_distinct l /\ zlen l <= n /\ size t <= Z.max 16 (4 * n).

Lemma insert_size d t ord l key val t' :
  lh_repr t ord l -> lh_table_insert_d d t key val = Some t' ->
  size t' = size t \/ (over_load (count t) (size t) = true /\ size t' = s32 (size t * 2)).
Proof.
  intros HR. assert (forall t key val t', insert_slot t key val = Some t' -> size t' = size t) as Hs.
  { intros t1 key1 val1 t2. unfold insert_slot. repeat case_match; naive_solver. }
  destruct d as [|d]; simpl; destruct (over_load _ _) eqn:E; try done.
  - intros H%Hs. auto.
  - destruct (lh_table_resize_with _ _ _) as [t1|] eqn:Er; [|done].
    intros ->%Hs. right. split; [done|]. unfold lh_table_resize_with in Er.
    repeat case_match; naive_solver.
  - intros H%Hs. auto.
Qed.

Lemma lh_step_refines n t l s o :
  malloc_total al -> 0 <= n < 2 ^ 20 -> lh_inv n t l ->
  match o with OpInsert key _ => assoc_pos key l = None | _ => True end ->
  exists t' s' r, lh_step t s o = Some (t', s', r) /\
    let '(l', s1, r1) := assoc_step l s o in s1 = s' /\ r1 = r /\ lh_inv (n + 1) t' l'.
Proof.
  intros Hal Hn (ord & HR & Hd & Hlen & Hsz) Hpre. pose proof (r_size _ _ _ HR) as Hs.
  assert (lh_repr (bump_lookups t) ord l) as HRb by (by apply (repr_counters t)).
  destruct o as [key val|key|key]; simpl.
  - destruct (insert_repr 0 t ord l key val HR) as (t' & ord' & E & HR').
    { intros Hload. unfold INT_MAX. split_and!; [lia| |]; apply Hal; lia. }
    unfold lh_table_insert. rewrite E. do 3 eexists. split; [done|]. split_and!; [done..|].
    exists ord'. split_and!; [done|by apply keys_distinct_snoc| |].
    { rewrite zlen_app. change (zlen [(key, val)]) with 1. lia. }
    destruct (insert_size 1 t ord l key val t' HR E) as [->|[Hload ->]]; [lia|].
    unfold over_load in Hload. rewrite (r_count _ _ _ HR), Z.geb_leb in Hload. bool_to_prop.
    rewrite s32_id; unfold INT_MIN, INT_MAX; lia.
  - unfold lh_table_lookup_ex. rewrite (lookup_entry_repr t ord l key HR Hd).
    destruct (assoc_pos key l) as [i|] eqn:Hpos; simpl.
    + apply assoc_pos_Some in Hpos as ([key' val'] & Hkv & _). rewrite Hkv. simpl.
      destruct (lookup_lt_is_Some_2 ord i) as [m Hm].
      { rewrite (r_len _ _ _ HR). by eapply lookup_lt_Some. }
      rewrite Hm, (r_entry _ _ _ HR _ _ _ Hm Hkv). simpl.
      do 3 eexists. split; [done|]. split_and!; [done..|]. exists ord. split_and!; try done; simpl; lia.
    + do 3 eexists. split; [done|]. split_and!; [done..|]. exists ord. split_and!; try done; simpl; lia.
  - unfold lh_table_delete. rewrite (lookup_entry_repr t ord l key HR Hd).
    destruct (assoc_pos key l) as [i|] eqn:Hpos; simpl.
    + apply assoc_pos_Some in Hpos as ([key' val'] & Hkv & _). rewrite Hkv. simpl.
      destruct (lookup_lt_is_Some_2 ord i) as [m Hm].
      { rewrite (r_len _ _ _ HR). by eapply lookup_lt_Some. }
      rewrite Hm.
      destruct (delete_entry_repr (Some entry_free) (bump_lookups t) ord l i m (key', val') s HRb Hm Hkv)
        as (t' & e & E & Hke & Hve & HR'). rewrite E.
      do 3 eexists. split; [done|]. unfold call_free, entry_free. rewrite Hke, Hve.
      split_and!; [done..|]. exists (delete i ord). split_and!; [done|by apply keys_distinct_delete| |].
      { unfold zlen in *. rewrite length_delete_pred by (by eapply lookup_lt_Some). lia. }
      assert (size t' = size t) as ->; [|lia].
      unfold lh_table_delete_entry in E. simpl in E. repeat case_match; naive_solver.
    + do 3 eexists. split; [done|]. split_and!; [done..|]. exists ord. split_and!; try done; simpl; lia.
Qed.

(** C37: a linked hash table refines an association list kept in insertion
    order.  Starting from a new 16-slot table (as JSON objects do), any
    sequence of up to 2^20 insertions of absent keys, lookups and deletions
    runs to its end (no probe loop spins, no NULL link is followed, growing
    the table included), gives the results the association list gives, calls
    the release callback on exactly the deleted pairs, and leaves a table
    whose [lh_foreach] traversal is the association list. *)
Theorem lh_table_refines_assoc s os t0 :
  malloc_total al -> zlen os <= 2 ^ 20 -> lh_table_new 16 = Some t0 ->
  fresh_inserts [] s os ->
  exists t' s' rs l' es,
    lh_run t0 s os = Some (t', s', rs) /\ assoc_run [] s os = (l', s', rs) /\
    lh_foreach t' = Some es /\
    Forall2 (fun e kv => k e = LH_KEY kv.1 /\ v e = kv.2) es l' /\
    lh_table_length t' = zlen l'.
Proof.
  intros Hal Hos Ht0 Hfresh.
  assert (forall n t l s, lh_inv n t l -> 0 <= n -> n + zlen os <= 2 ^ 20 -> fresh_inserts l s os ->
    exists t' s' rs l', lh_run t s os = Some (t', s', rs) /\ assoc_run l s os = (l', s', rs) /\
      lh_inv (n + zlen os) t' l') as Hrun.
  { clear - Hal. induction os as [|o os IH]; intros n t l s Hinv Hn0 Hn Hf.
    { exists t, s, [], l. split_and!; try done. by rewrite Z.add_0_r. }
    rewrite zlen_cons in *. pose proof (zlen_nonneg os). destruct Hf as [Ho Hf].
    destruct (lh_step_refines n t l s o) as (t1 & s1 & r & E & Hs); [done|lia|done|done|].
    simpl. rewrite E. destruct (assoc_step l s o) as [[l1 s2] r2]. destruct Hs as (-> & -> & Hinv1).
    destruct (IH (n + 1) t1 l1 s1 Hinv1) as (t' & s' & rs & l' & -> & -> & Hinv'); [lia|lia|done|].
    do 4 eexists. split_and!; try done. by replace (n + (1 + zlen os)) with (n + 1 + zlen os) by lia. }
  destruct (new_repr 16 t0 Ht0) as [HR0 Hsz0]; [unfold INT_MAX; lia|].
  destruct (Hrun 0 t0 [] s) as (t' & s' & rs & l' & E & E' & (ord & HR & _)); try done.
  { exists []. split_and!; try done. lia. }
  destruct (foreach_repr t' ord l' HR) as (es & Hes & Hf).
  exists t', s', rs, l', es. split_and!; try done. apply (r_count _ _ _ HR).
Qed.

(** [lh_table_resize] keeps every pair and their order: the doubled table
    holds the same association list, and a lookup in it finds what a lookup
    in the old table found. *)
Theorem lh_table_resize_keeps t ord l key :
  lh_repr t ord l -> keys_distinct l -> size t * 2 <= INT_MAX ->
  malloc_ok 88 = true -> malloc_ok (size t * 2 * 32) = true ->
  exists t' ord', lh_table_resize t (size t * 2) = Some t' /\ lh_repr t' ord' l /\
    resizes t' = resizes t + 1 /\
    (lh_table_lookup_ex t' key).1.2 = (lh_table_lookup_ex t key).1.2 /\
    (lh_table_lookup_ex t' key).2 = (lh_table_lookup_ex t key).2.
Proof.
  clear release. intros HR Hd Hmax Hm1 Hm2.
  destruct (resize_repr 1 t ord l HR Hmax Hm1 Hm2) as (t' & ord' & E & Hsz & HR').
  exists t', ord'. split_and!; [done|done| | |].
  { unfold lh_table_resize_with in E. repeat case_match; naive_solver. }
  all: unfold lh_table_lookup_ex; rewrite (lookup_entry_repr t ord l key HR Hd);
    rewrite (lookup_entry_repr t' ord' l key HR' Hd);
    destruct (assoc_pos key l) as [i|] eqn:Hp; simpl; try done;
    apply assoc_pos_Some in Hp as (kv & Hkv & _); pose proof (lookup_lt_Some _ _ _ Hkv) as Hlt;
    (destruct (lookup_lt_is_Some_2 ord i) as [n Hn]; [rewrite (r_len _ _ _ HR); done|]);
    (destruct (lookup_lt_is_Some_2 ord' i) as [n' Hn']; [rewrite (r_len _ _ _ HR'); done|]);
    rewrite Hn, Hn'; simpl; try done;
    by rewrite (r_entry _ _ _ HR _ _ _ Hn Hkv), (r_entry _ _ _ HR' _ _ _ Hn' Hkv).
Qed.

End Refinement.

(** ** Witnesses *)

Definition sample_keys : list bytes :=
  map str ["a"; "b"; "c"; "d"; "e"; "f"; "g"; "h"; "i"; "j"; "k"; "l"; "m"; "n"]%string.

Definition sample_ops : list (lh_op (K:=bytes) (P:=Z)) :=
  map (fun x => OpInsert x (Some (zlen x))) sample_keys ++
  [OpDelete (str "b"); OpLookup (str "c"); OpLookup (str "b"); OpInsert (str "b") None;
   OpDelete (str "zz"); OpDelete (str "a"); OpDelete (str "b")]%string.

Definition sample_release (key : bytes) (val : option Z) (s : list bytes) : list bytes :=
  s ++ [key].

Definition sample_table : lh_table bytes Z :=
  {| size := 16; count := 0; collisions := 0; resizes := 0; lookups := 0; inserts := 0;
     deletes := 0; head := None; tail := None; table := replicate 16 empty_entry |}.

Lemma lh_table_refines_assoc_witness :
  exists t' s' rs l' es,
    @lh_run sample_alloc bytes Z (list bytes) char_key sample_release sample_table [] sample_ops
      = Some (t', s', rs) /\
    assoc_run sample_release [] [] sample_ops = (l', s', rs) /\
    lh_foreach t' = Some es /\
    Forall2 (fun e kv => k e = LH_KEY kv.1 /\ v e = kv.2) es l' /\
    lh_table_length t' = zlen l'.
Proof.
  apply (@lh_table_refines_assoc sample_alloc bytes Z (list bytes) char_key sample_release).
  - exact sample_alloc_total.
  - vm_compute. discriminate.
  - reflexivity.
  - vm_compute. intuition.
Defined.

Example sample_released :
  match @lh_run sample_alloc bytes Z (list bytes) char_key sample_release sample_table [] sample_ops with
  | Some (t', s', rs) => size t' = 32 /\ resizes t' = 1 /\ s' = map str ["b"; "a"; "b"]%string
  | None => False
  end.
Proof. vm_compute. auto. Qed.

Lemma sample_table_repr : lh_repr sample_table [] [].
Proof.
  destruct (@new_repr bytes Z char_key sample_alloc 16 sample_table eq_refl) as [H _];
    [unfold INT_MAX; lia|exact H].
Qed.

Lemma lh_table_resize_keeps_witness :
  exists t' ord', @lh_table_resize sample_alloc bytes Z char_key sample_table 32 = Some t' /\
    lh_repr t' ord' [] /\ resizes t' = 1 /\
    (lh_table_lookup_ex t' (str "a")).1.2 = false /\ (lh_table_lookup_ex t' (str "a")).2 = None.
Proof.
  apply (@lh_table_resize_keeps sample_alloc bytes Z char_key sample_table [] [] (str "a")
           sample_table_repr); try reflexivity.
  - by intros i j kv kv' Hi.
  - vm_compute. discriminate.
Defined.

End LinkHash.
