(* ===== verification/JsonUtil.v ===== *)
(** * json-c [json_util.c]: numbers as text and type names

    [json_parse_int64] is modelled over the [sscanf] of the platform, because
    the routine exists to survive the bad ones: [sscan] is the function
    "[sscanf(buf, "%" SCNd64, &num64)]" computes, and [glibc_scan] is the one
    the C standard and glibc specify.  The two static flags of the file are
    the record [scanf_state]; [errno] is a boolean "it is [ERANGE]".
    [print_int64] is the [PRId64] conversion of the [printf] family. *)

From S2P Require Import Prelude.
From Stdlib Require Import ZArith Lia String.
From stdpp Require Import base list numbers option.

Open Scope Z_scope.

Module JsonUtil.

(** ** Type names *)

Inductive json_type :=
| json_type_null | json_type_boolean | json_type_double | json_type_int
| json_type_object | json_type_array | json_type_string.

#[export] Instance json_type_eq_dec : EqDecision json_type.
Proof. solve_decision. Defined.

(** The value of the enumerator. *)
Definition json_type_int_of (t : json_type) : Z :=
  match t with
  | json_type_null => 0 | json_type_boolean => 1 | json_type_double => 2
  | json_type_int => 3 | json_type_object => 4 | json_type_array => 5
  | json_type_string => 6
  end.

Definition json_type_name : list string :=
  ["null"; "boolean"; "double"; "int"; "object"; "array"; "string"]%string.

(** The argument is the [int] the enumeration value is converted to. *)
Definition json_type_to_name (o_type_int : Z) : option string :=
  if (o_type_int <? 0) || (o_type_int >=? zlen json_type_name) then None
  else json_type_name !! Z.to_nat o_type_int.

(** ** Decimal text *)

Fixpoint dec_aux (fuel : nat) (n : Z) (acc : bytes) : bytes :=
  match fuel with
  | O => acc
  | S f =>
      let acc' := (48 + n mod 10) :: acc in
      if n <? 10 then acc' else dec_aux f (n / 10) acc'
  end.

(** Decimal digits of a non-negative number: a number below [2^k] has at most
    [k] digits, so the fuel is never exhausted. *)
Definition print_nat (n : Z) : bytes := dec_aux (S (Z.to_nat (Z.log2 n))) n [].

Definition print_int64 (n : Z) : bytes :=
  if n <? 0 then 45 :: print_nat (- n) else print_nat n.

(** The number a digit string denotes. *)
Definition dec_value (ds : bytes) : Z := fold_left (fun a c => a * 10 + (c - 48)) ds 0.

(** The longest prefix satisfying [f]. *)
Fixpoint take_while (f : Z -> bool) (l : bytes) : bytes :=
  match l with
  | [] => []
  | b :: l' => if f b then b :: take_while f l' else []
  end.

Fixpoint drop_while (f : Z -> bool) (l : bytes) : bytes :=
  match l with
  | [] => []
  | b :: l' => if f b then drop_while f l' else l
  end.

Definition clamp64 (v : Z) : Z := Z.max INT64_MIN (Z.min INT64_MAX v).

Definition in_int64 (v : Z) : bool := (INT64_MIN <=? v) && (v <=? INT64_MAX).

(** [sscanf(buf, "%" SCNd64, &num64)] of glibc: [None] when nothing is
    converted, otherwise the value stored and whether [errno] became
    [ERANGE]. *)
Definition glibc_scan (buf : bytes) : option (Z * bool) :=
  let s := drop_while isspace (cstr buf) in
  let '(neg, s) :=
    match s with
    | b :: s' => if b =? 45 then (true, s') else if b =? 43 then (false, s') else (false, s)
    | [] => (false, [])
    end in
  match take_while isdigit s with
  | [] => None
  | ds =>
      let v := if neg then - dec_value ds else dec_value ds in
      Some (clamp64 v, negb (in_int64 v))
  end.

(** ** [json_parse_int64] *)

(** The statics [sscanf_is_broken] and [sscanf_is_broken_testdone]. *)
Record scanf_state := ScanfState {
  sscanf_is_broken : bool;
  sscanf_is_broken_testdone : bool
}.

Definition scanf_init : scanf_state :=
  {| sscanf_is_broken := false; sscanf_is_broken_testdone := false |}.

Section Int64.
(** The platform's [sscanf] with the conversion [SCNd64]. *)
Context (sscan : bytes -> option (Z * bool)).

(** One call of it: [num64] and [errno] keep their values when it does not
    assign them. *)
Definition run_scan (buf : bytes) (num64 : Z) (erange : bool) : Z * bool :=
  match sscan buf with
  | Some (v, e) => (v, e || erange)
  | None => (num64, erange)
  end.

(** The two uninitialised inputs of the test are its arguments: the local
    [num64] and the [errno] of the thread. *)
Definition sscanf_is_broken_test (num64 : Z) (erange : bool) (st : scanf_state)
  : scanf_state :=
  let '(num64, ret_errno) := run_scan (str " -01234567890123456789012345") num64 erange in
  let is_int64_min := num64 =? INT64_MIN in
  let '(num64, ret_errno2) := run_scan (str " 01234567890123456789012345") num64 ret_errno in
  let is_int64_max := num64 =? INT64_MAX in
  if negb ret_errno || negb is_int64_min || negb ret_errno2 || negb is_int64_max
  then {| sscanf_is_broken := true;
          sscanf_is_broken_testdone := sscanf_is_broken_testdone st |}
  else st.

(** [while (p[0] == '0' && p[1] != 0) p++], on a C string. *)
Fixpoint skip_zeros (p : bytes) : bytes :=
  match p with
  | b :: ((_ :: _) as p') => if b =? 48 then skip_zeros p' else p
  | _ => p
  end.

(** The digits the platform's answer [num64] prints as are not the ones the
    text has: another sign, other digits, or a further digit. *)
Definition recheck_differs (buf_sig_digits : bytes) (orig_has_neg : bool) (num64 : Z) : bool :=
  let buf_cmp := take 99 (print_int64 num64) in
  let '(recheck_has_neg, buf_cmp_start) :=
    match buf_cmp with
    | b :: rest => if b =? 45 then (true, rest) else (false, buf_cmp)
    | [] => (false, [])
    end in
  let buf_cmp_len := zlen buf_cmp_start in
  negb (Bool.eqb orig_has_neg recheck_has_neg)
  || negb (strncmp_eq buf_sig_digits buf_cmp_start buf_cmp_len)
  || (negb (zlen buf_sig_digits =? buf_cmp_len)
      && isdigit (nth (Z.to_nat buf_cmp_len) buf_sig_digits 0)).

(** Result [None] is the C return value 1; [Some v] is 0 with [*retval = v].
    [num64_0] and [errno_0] are the unspecified inputs of the one-time test. *)
Definition json_parse_int64 (num64_0 : Z) (errno_0 : bool) (st : scanf_state) (buf : bytes)
  : scanf_state * option Z :=
  let st :=
    if sscanf_is_broken_testdone st then st
    else {| sscanf_is_broken := sscanf_is_broken (sscanf_is_broken_test num64_0 errno_0 st);
            sscanf_is_broken_testdone := true |} in
  let buf := drop_while isspace (cstr buf) in
  match sscan buf with
  | None => (st, None)
  | Some (num64, saved_errno) =>
      let '(buf_sig_digits, orig_has_neg) :=
        match buf with
        | b :: rest => if b =? 45 then (rest, true) else (buf, false)
        | [] => ([], false)
        end in
      let '(saved_errno, orig_has_neg) :=
        if sscanf_is_broken st && negb saved_errno then
          let buf_sig_digits := skip_zeros buf_sig_digits in
          let orig_has_neg := if num64 =? 0 then false else orig_has_neg in
          (recheck_differs buf_sig_digits orig_has_neg num64, orig_has_neg)
        else (saved_errno, orig_has_neg) in
      let num64 :=
        if saved_errno then (if orig_has_neg then INT64_MIN else INT64_MAX) else num64 in
      (st, Some num64)
  end.

End Int64.

(** The routine on a platform whose [sscanf] follows the standard. *)
Definition parse_int64 (buf : bytes) : option Z :=
  snd (json_parse_int64 glibc_scan 0 false scanf_init buf).

(** ** Lemmas on decimal text *)

Definition all_digits (ds : bytes) : Prop := Forall (fun b => isdigit b = true) ds.

(** No leading zero, except in "0" itself. *)
Definition canonical (ds : bytes) : Prop :=
  ds = [48] \/ exists d ds', ds = d :: ds' /\ d <> 48.

Lemma isdigit_range b : isdigit b = true <-> 48 <= b <= 57.
Proof. unfold isdigit. rewrite andb_true_iff, !Z.leb_le. done. Qed.

Lemma dec_value_snoc ds d : dec_value (ds ++ [d]) = dec_value ds * 10 + (d - 48).
Proof. unfold dec_value. rewrite fold_left_app. done. Qed.

Lemma dec_value_nonneg ds : all_digits ds -> 0 <= dec_value ds.
Proof.
  induction ds as [|d ds IH] using rev_ind; [done|].
  intros [Hds Hd]%Forall_app. rewrite Forall_singleton, isdigit_range in Hd.
  rewrite dec_value_snoc. specialize (IH Hds). lia.
Qed.

Lemma canonical_snoc ds d : ds <> [] -> canonical (ds ++ [d]) -> canonical ds /\ ds <> [48].
Proof.
  intros Hne [E|(x & ds' & E & Hx)].
  { destruct ds as [|? [|]]; simplify_eq. }
  destruct ds as [|y ds]; [done|]. injection E as -> E.
  split; [right; eauto|]. intros [= -> ->]. done.
Qed.

Lemma dec_value_pos ds :
  all_digits ds -> canonical ds -> ds <> [48] -> 1 <= dec_value ds.
Proof.
  induction ds as [|d ds IH] using rev_ind.
  { intros _ [?|(? & ? & ? & ?)]; done. }
  intros [Hds Hd]%Forall_app Hc Hn. rewrite Forall_singleton, isdigit_range in Hd.
  rewrite dec_value_snoc. destruct (decide (ds = [])) as [->|Hne].
  - destruct Hc as [?|(x & ds' & [= -> <-] & ?)]; [done|].
    change (dec_value []) with 0. lia.
  - apply canonical_snoc in Hc as [Hc Hn']; [|done]. specialize (IH Hds Hc Hn'). lia.
Qed.

(** Printing is the inverse of evaluating, on digit strings without leading
    zeros ... *)
Lemma dec_aux_value ds :
  all_digits ds -> canonical ds -> forall fuel acc,
  dec_value ds < 10 ^ Z.of_nat (S fuel) -> dec_aux (S fuel) (dec_value ds) acc = ds ++ acc.
Proof.
  induction ds as [|d ds IH] using rev_ind.
  { intros _ [?|(? & ? & ? & ?)]; done. }
  intros [Hds Hd]%Forall_app Hc fuel acc Hf.
  rewrite Forall_singleton, isdigit_range in Hd.
  rewrite dec_value_snoc in *. pose proof (dec_value_nonneg _ Hds) as Hnn.
  assert ((dec_value ds * 10 + (d - 48)) mod 10 = d - 48) as Hmod.
  { rewrite Z.add_comm, Z_mod_plus_full. apply Z.mod_small. lia. }
  assert ((dec_value ds * 10 + (d - 48)) / 10 = dec_value ds) as Hdiv.
  { rewrite Z.add_comm, Z_div_plus_full, Z.div_small; lia. }
  cbn [dec_aux]. rewrite Hmod, Hdiv. replace (48 + (d - 48)) with d by lia.
  rewrite <- app_assoc. simpl. destruct (decide (ds = [])) as [->|Hne].
  { change (dec_value []) with 0. destruct (Z.ltb_spec (0 * 10 + (d - 48)) 10); [done|lia]. }
  apply canonical_snoc in Hc as [Hc Hn]; [|done].
  pose proof (dec_value_pos _ Hds Hc Hn).
  destruct (Z.ltb_spec (dec_value ds * 10 + (d - 48)) 10); [lia|].
  rewrite Nat2Z.inj_succ, Z.pow_succ_r in Hf by lia.
  destruct fuel as [|fuel]; [simpl in Hf; lia|]. apply IH; [done..|lia].
Qed.

Lemma pow2_le_pow10 k : 0 <= k -> 2 ^ k <= 10 ^ k.
Proof. intros. apply Z.pow_le_mono_l. lia. Qed.

Lemma print_nat_value ds :
  all_digits ds -> canonical ds -> print_nat (dec_value ds) = ds.
Proof.
  intros Hds Hc. unfold print_nat. rewrite dec_aux_value, app_nil_r; [done..|].
  rewrite Nat2Z.inj_succ, Z2Nat.id by apply Z.log2_nonneg.
  pose proof (dec_value_nonneg _ Hds).
  eapply Z.lt_le_trans; [|apply pow2_le_pow10; pose proof (Z.log2_nonneg (dec_value ds)); lia].
  destruct (decide (dec_value ds = 0)) as [->|]; [done|].
  apply Z.log2_spec. lia.
Qed.

(** ... and evaluating is the inverse of printing. *)
Lemma dec_aux_digits fuel n acc :
  0 <= n < 10 ^ Z.of_nat (S fuel) ->
  exists ds, dec_aux (S fuel) n acc = ds ++ acc /\ all_digits ds /\ dec_value ds = n /\
  canonical ds.
Proof.
  revert n acc. induction fuel as [|fuel IH]; intros n acc Hn; cbn [dec_aux].
  - change (10 ^ Z.of_nat 1) with 10 in Hn. destruct (Z.ltb_spec n 10); [|lia].
    rewrite Z.mod_small by lia. exists [48 + n]. split_and!; [done|..].
    + apply Forall_singleton, isdigit_range. lia.
    + unfold dec_value. simpl. lia.
    + destruct (decide (n = 0)) as [->|]; [by left|]. right. exists (48 + n), []. split; [done|lia].
  - pose proof (Z.mod_pos_bound n 10). destruct (Z.ltb_spec n 10).
    + rewrite Z.mod_small by lia. exists [48 + n]. split_and!; [done|..].
      * apply Forall_singleton, isdigit_range. lia.
      * unfold dec_value. simpl. lia.
      * destruct (decide (n = 0)) as [->|]; [by left|]. right. exists (48 + n), [].
        split; [done|lia].
    + rewrite Nat2Z.inj_succ, Z.pow_succ_r in Hn by lia.
      destruct (IH (n / 10) ((48 + n mod 10) :: acc)) as (ds & E & Hd & Hv & Hc).
      { split; [apply Z.div_pos; lia|]. apply Z.div_lt_upper_bound; lia. }
      exists (ds ++ [48 + n mod 10]). change (dec_aux (S fuel) (n / 10) ((48 + n mod 10) :: acc)
        = (ds ++ [48 + n mod 10]) ++ acc /\ all_digits (ds ++ [48 + n mod 10]) /\
        dec_value (ds ++ [48 + n mod 10]) = n /\ canonical (ds ++ [48 + n mod 10])).
      rewrite E, <- app_assoc. split_and!; [done|..].
      * apply Forall_app. split; [done|]. apply Forall_singleton, isdigit_range. lia.
      * rewrite dec_value_snoc, Hv. pose proof (Z_div_mod_eq_full n 10). lia.
      * destruct Hc as [->|(x & ds' & -> & ?)]; [|right; eauto].
        change (dec_value [48]) with 0 in Hv. symmetry in Hv.
        apply Z.div_small_iff in Hv; lia.
Qed.

Lemma print_nat_spec n :
  0 <= n -> all_digits (print_nat n) /\ dec_value (print_nat n) = n /\ canonical (print_nat n).
Proof.
  intros Hn. unfold print_nat.
  destruct (dec_aux_digits (Z.to_nat (Z.log2 n)) n []) as (ds & -> & ? & ? & ?);
    [|by rewrite app_nil_r].
  split; [done|]. rewrite Nat2Z.inj_succ, Z2Nat.id by apply Z.log2_nonneg.
  pose proof (Z.log2_nonneg n).
  eapply Z.lt_le_trans; [|apply pow2_le_pow10; lia].
  destruct (decide (n = 0)) as [->|]; [done|]. apply Z.log2_spec. lia.
Qed.

(** ** Lemmas on scanning *)

Definition starts_with (f : Z -> bool) (l : bytes) : bool :=
  match l with b :: _ => f b | [] => false end.

Lemma cstr_app_nonzero a b : Forall (fun c => c <> 0) a -> cstr (a ++ b) = a ++ cstr b.
Proof.
  induction 1 as [|c a Hc _ IH]; [done|]. simpl.
  destruct (Z.eqb_spec c 0); [done|]. by rewrite IH.
Qed.

Lemma cstr_nonzero l : Forall (fun c => c <> 0) l -> cstr l = l.
Proof.
  intros Hl. pose proof (cstr_app_nonzero l [] Hl) as E. by rewrite !app_nil_r in E.
Qed.

Lemma drop_while_app f a b :
  Forall (fun c => f c = true) a -> starts_with f b = false -> drop_while f (a ++ b) = b.
Proof.
  induction 1 as [|c a Hc _ IH]; intros Hb; simpl.
  - destruct b as [|c b]; [done|]. simpl in *. by rewrite Hb.
  - rewrite Hc. auto.
Qed.

Lemma take_while_app f a b :
  Forall (fun c => f c = true) a -> starts_with f b = false -> take_while f (a ++ b) = a.
Proof.
  induction 1 as [|c a Hc _ IH]; intros Hb; simpl.
  - destruct b as [|c b]; [done|]. simpl in *. by rewrite Hb.
  - rewrite Hc, IH; done.
Qed.

Lemma starts_with_cstr f l : f 0 = false -> starts_with f l = false -> starts_with f (cstr l) = false.
Proof. destruct l as [|b l]; [done|]. simpl. destruct (Z.eqb_spec b 0); done. Qed.

Lemma isspace_nonzero c : isspace c = true -> c <> 0.
Proof. by intros H ->. Qed.

Lemma isdigit_nonzero c : isdigit c = true -> c <> 0.
Proof. by intros H ->. Qed.

Lemma isdigit_not_space c : isdigit c = true -> isspace c = false.
Proof.
  rewrite isdigit_range. intros. unfold isspace. apply orb_false_iff.
  rewrite Z.eqb_neq, andb_false_iff, !Z.leb_gt. lia.
Qed.

(** A sign as the scanner reads it. *)
Inductive sign := NoSign | Minus | Plus.

Definition sign_text (sg : sign) : bytes :=
  match sg with NoSign => [] | Minus => [45] | Plus => [43] end.

Definition sign_neg (sg : sign) : bool := match sg with Minus => true | _ => false end.

Definition signed_value (sg : sign) (ds : bytes) : Z :=
  if sign_neg sg then - dec_value ds else dec_value ds.

(** An integer as text: digits after an optional sign. *)
Definition int_text (sg : sign) (ds : bytes) : bytes := sign_text sg ++ ds.

Lemma int_text_nonzero sg ds : all_digits ds -> Forall (fun c => c <> 0) (int_text sg ds).
Proof.
  intros Hd. apply Forall_app. split; [by destruct sg; repeat constructor|].
  eapply Forall_impl; [exact isdigit_nonzero|exact Hd].
Qed.

Lemma int_text_not_space sg ds rest :
  all_digits ds -> ds <> [] -> starts_with isspace (int_text sg ds ++ rest) = false.
Proof.
  intros Hd Hne. destruct sg; [|done..].
  destruct ds as [|d ds]; [done|]. apply list.Forall_cons in Hd as [Hd _].
  apply (isdigit_not_space _ Hd).
Qed.

Lemma skip_space_int_text ws sg ds rest :
  Forall (fun c => isspace c = true) ws -> all_digits ds -> ds <> [] ->
  drop_while isspace (cstr (ws ++ int_text sg ds ++ rest)) = int_text sg ds ++ cstr rest.
Proof.
  intros Hws Hd Hne.
  rewrite cstr_app_nonzero by (eapply Forall_impl; [exact isspace_nonzero|exact Hws]).
  rewrite cstr_app_nonzero by (by apply int_text_nonzero).
  by apply drop_while_app; [|apply int_text_not_space].
Qed.

Lemma glibc_scan_text ws sg ds rest :
  Forall (fun c => isspace c = true) ws -> all_digits ds -> ds <> [] ->
  starts_with isdigit rest = false ->
  glibc_scan (ws ++ int_text sg ds ++ rest) =
  Some (clamp64 (signed_value sg ds), negb (in_int64 (signed_value sg ds))).
Proof.
  intros Hws Hd Hne Hrest. unfold glibc_scan.
  rewrite skip_space_int_text by done.
  assert (take_while isdigit (ds ++ cstr rest) = ds) as Htw
    by (apply take_while_app; [done|by apply starts_with_cstr]).
  assert (exists d ds', ds = d :: ds' /\ isdigit d = true) as (d & ds' & E & Hd0).
  { destruct ds; [done|]. apply list.Forall_cons in Hd as [? _]. eauto. }
  destruct sg; unfold int_text; cbn [sign_text app Z.eqb Pos.eqb]; try (rewrite Htw; by rewrite E).
  rewrite isdigit_range in Hd0. rewrite E in *. cbn [app] in *.
  destruct (Z.eqb_spec d 45); [lia|]. destruct (Z.eqb_spec d 43); [lia|].
  by rewrite Htw.
Qed.

(** The flags [json_parse_int64] can be entered with on a platform whose
    [sscanf] follows the standard: the test is still to be done, or it has
    found nothing. *)
Definition scanf_sound (st : scanf_state) : Prop := sscanf_is_broken st = false.

Lemma glibc_test_ok n e st : sscanf_is_broken_test glibc_scan n e st = st.
Proof. by destruct st as [[] []]; destruct e; vm_compute. Qed.

Lemma clamp64_id v : in_int64 v = true -> clamp64 v = v.
Proof. unfold in_int64, clamp64. intros. bool_to_prop. lia. Qed.

Lemma clamp64_out sg ds :
  all_digits ds -> in_int64 (signed_value sg ds) = false ->
  clamp64 (signed_value sg ds) = if sign_neg sg then INT64_MIN else INT64_MAX.
Proof.
  intros Hd Hout. pose proof (dec_value_nonneg _ Hd).
  unfold in_int64, clamp64 in *. apply andb_false_iff in Hout.
  rewrite !Z.leb_gt in Hout. unfold signed_value, INT64_MIN, INT64_MAX in *.
  destruct (sign_neg sg); lia.
Qed.

(** On such a platform the result is the number the text denotes, clamped to
    64 bits, for any unspecified input of the test. *)
Lemma json_parse_int64_glibc n e st ws sg ds rest :
  scanf_sound st ->
  Forall (fun c => isspace c = true) ws -> all_digits ds -> ds <> [] ->
  starts_with isdigit rest = false ->
  json_parse_int64 glibc_scan n e st (ws ++ int_text sg ds ++ rest) =
  ({| sscanf_is_broken := false; sscanf_is_broken_testdone := true |},
   Some (clamp64 (signed_value sg ds))).
Proof.
  intros Hst Hws Hd Hne Hrest. unfold json_parse_int64.
  rewrite glibc_test_ok, skip_space_int_text by done.
  pose proof (glibc_scan_text [] sg ds (cstr rest)) as Hscan. cbn [app] in Hscan.
  rewrite Hscan by (done || by apply starts_with_cstr).
  replace (if sscanf_is_broken_testdone st then st else _)
    with {| sscanf_is_broken := false; sscanf_is_broken_testdone := true |}
    by (destruct st as [[] []]; done).
  simpl. destruct (in_int64 (signed_value sg ds)) eqn:Hin; simpl.
  { by destruct (int_text sg ds ++ cstr rest) as [|b l]; [|destruct (b =? 45)]. }
  rewrite (clamp64_out sg ds Hd Hin). destruct sg; try done. simpl.
  destruct ds as [|d ds]; [done|]. simpl. apply list.Forall_cons in Hd as [Hd _].
  rewrite isdigit_range in Hd. destruct (Z.eqb_spec d 45); [lia|done].
Qed.

(** A printed integer is an integer text. *)
Lemma print_int64_text n :
  exists ds, print_int64 n = int_text (if n <? 0 then Minus else NoSign) ds /\
  all_digits ds /\ canonical ds /\ signed_value (if n <? 0 then Minus else NoSign) ds = n.
Proof.
  unfold print_int64. destruct (Z.ltb_spec n 0).
  - exists (print_nat (- n)). destruct (print_nat_spec (- n)) as (? & Hv & ?); [lia|].
    split_and!; [done..|]. unfold signed_value. simpl. lia.
  - exists (print_nat n). destruct (print_nat_spec n) as (? & Hv & ?); [lia|].
    split_and!; [done..|]. unfold signed_value. simpl. lia.
Qed.

Lemma canonical_nonempty ds : canonical ds -> ds <> [].
Proof. by intros [->|(? & ? & -> & _)]. Qed.

Lemma parse_print_int64 n rest :
  in_int64 n = true -> starts_with isdigit rest = false ->
  parse_int64 (print_int64 n ++ rest) = Some n.
Proof.
  intros Hn Hrest. destruct (print_int64_text n) as (ds & -> & Hd & Hc & Hv).
  unfold parse_int64. pose proof (json_parse_int64_glibc 0 false scanf_init [] (if n <? 0 then Minus else NoSign) ds rest) as E.
  cbn [app] in E. rewrite E by (done || by apply canonical_nonempty).
  simpl. by rewrite Hv, clamp64_id.
Qed.

(** ** The workaround for a [sscanf] that does not report overflow *)

Lemma dec_aux_length fuel n acc : (length (dec_aux fuel n acc) <= fuel + length acc)%nat.
Proof.
  revert n acc. induction fuel as [|fuel IH]; intros n acc; [done|]. cbn [dec_aux].
  case_test; simpl; [lia|]. etransitivity; [apply IH|]. simpl. lia.
Qed.

Lemma print_nat_length n : 0 <= n <= 2 ^ 63 -> (length (print_nat n) <= 64)%nat.
Proof.
  intros Hn. unfold print_nat. etransitivity; [apply dec_aux_length|].
  pose proof (Z.log2_le_mono n (2 ^ 63)). rewrite Z.log2_pow2 in * by lia. simpl length. lia.
Qed.

Lemma print_nat_not_minus n : 0 <= n -> starts_with (fun b => b =? 45) (print_nat n) = false.
Proof.
  intros Hn. destruct (print_nat_spec n Hn) as (Hd & _ & _).
  destruct (print_nat n) as [|d ds]; [done|]. apply list.Forall_cons in Hd as [Hd _].
  rewrite isdigit_range in Hd. apply Z.eqb_neq. lia.
Qed.

(** What [snprintf] leaves in [buf_cmp]. *)
Lemma buf_cmp_print v :
  in_int64 v = true ->
  take 99 (print_int64 v) = (if v <? 0 then [45] else []) ++ print_nat (Z.abs v).
Proof.
  intros Hv. unfold in_int64, INT64_MIN, INT64_MAX in Hv. bool_to_prop.
  pose proof (print_nat_length (Z.abs v)) as Hl.
  unfold print_int64. destruct (Z.ltb_spec v 0).
  - rewrite Z.abs_neq in * by lia. apply take_ge. simpl. lia.
  - rewrite Z.abs_eq in * by lia. apply take_ge. simpl. lia.
Qed.

Lemma strn_eq_by_prefix b : forall a,
  strn_eq_by id (length b) a b = true <-> exists r, a = b ++ r.
Proof.
  induction b as [|y b IH]; intros a; simpl; [naive_solver|].
  destruct a as [|x a]; [naive_solver|].
  rewrite andb_true_iff, Z.eqb_eq, IH. naive_solver.
Qed.

Lemma all_digits_cstr ds : all_digits ds -> cstr ds = ds.
Proof.
  intros Hd. apply cstr_nonzero. eapply Forall_impl; [exact isdigit_nonzero|exact Hd].
Qed.

Lemma strncmp_digits a b :
  all_digits a -> all_digits b ->
  strncmp_eq a b (zlen b) = true <-> exists r, a = b ++ r.
Proof.
  intros Ha Hb. unfold strncmp_eq, zlen. rewrite Nat2Z.id, !all_digits_cstr by done.
  apply strn_eq_by_prefix.
Qed.

Lemma recheck_differs_spec zs neg v :
  all_digits zs -> in_int64 v = true ->
  recheck_differs zs neg v = false <-> neg = (v <? 0) /\ zs = print_nat (Z.abs v).
Proof.
  intros Hz Hv. unfold recheck_differs. rewrite buf_cmp_print by done.
  destruct (print_nat_spec (Z.abs v)) as (Hd & _ & _); [lia|].
  pose proof (print_nat_not_minus (Z.abs v) ltac:(lia)) as Hm.
  set (ds := print_nat (Z.abs v)) in *.
  replace (match (if v <? 0 then [45] else []) ++ ds with _ => _ end)
    with ((v <? 0), ds).
  2: { destruct (v <? 0); [done|]. simpl. destruct ds as [|d ds']; [done|].
       simpl in Hm. by rewrite Hm. }
  cbv zeta beta iota. rewrite !orb_false_iff, !negb_false_iff, eqb_true_iff.
  rewrite strncmp_digits by done. split.
  - intros [[-> [r ->]] Hr]. split; [done|]. destruct r as [|d r]; [by rewrite app_nil_r|].
    apply Forall_app in Hz as [_ Hz]. apply list.Forall_cons in Hz as [Hd0 _].
    unfold zlen in Hr. rewrite Nat2Z.id, length_app, app_nth2, Nat.sub_diag in Hr by lia.
    simpl in Hr. rewrite Hd0, andb_true_r in Hr. apply negb_false_iff, Z.eqb_eq in Hr. lia.
  - intros [-> ->]. split; [split; [done|exists []; by rewrite app_nil_r]|].
    rewrite Z.eqb_refl. done.
Qed.

Lemma skip_zeros_spec ds :
  all_digits ds -> ds <> [] ->
  all_digits (skip_zeros ds) /\ canonical (skip_zeros ds) /\
  dec_value (skip_zeros ds) = dec_value ds.
Proof.
  induction ds as [|d ds IH]; [done|]. intros Hd _. pose proof Hd as Hd'.
  apply list.Forall_cons in Hd as [Hd0 Hd]. simpl. destruct ds as [|d1 ds].
  - split_and!; [done| |done]. destruct (decide (d = 48)) as [->|]; [by left|right; eauto].
  - destruct (Z.eqb_spec d 48) as [->|Hn].
    + destruct IH as (? & ? & E); [done..|]. split_and!; [done..|]. rewrite E. done.
    + split_and!; [done| |done]. right. eauto.
Qed.

(** What the workaround relies on: the platform's [sscanf] converts an integer
    that fits, and for one that does not it stores some 64-bit value, with or
    without [ERANGE] (but, for a negative number, not a silent zero). *)
Definition scan_weak (sscan : bytes -> option (Z * bool)) : Prop :=
  forall sg ds, sg <> Plus -> all_digits ds -> ds <> [] ->
  exists v e, sscan (int_text sg ds) = Some (v, e) /\ in_int64 v = true /\
  if in_int64 (signed_value sg ds) then v = signed_value sg ds /\ e = false
  else e = false -> v = 0 -> sg = NoSign.

(** A platform that converts modulo [2^64] and never sets [errno]. *)
Definition wrapping_scan (buf : bytes) : option (Z * bool) :=
  let s := drop_while isspace (cstr buf) in
  let '(neg, s) :=
    match s with
    | b :: s' => if b =? 45 then (true, s') else if b =? 43 then (false, s') else (false, s)
    | [] => (false, [])
    end in
  match take_while isdigit s with
  | [] => None
  | ds => Some (s64 (if neg then - dec_value ds else dec_value ds), false)
  end.

(** The case of [json_parse_int64] in which the platform did not report
    [ERANGE] and the workaround decides. *)
Lemma workaround_value sg ds v :
  sg <> Plus -> all_digits ds -> ds <> [] -> in_int64 v = true ->
  (if in_int64 (signed_value sg ds) then v = signed_value sg ds
   else v = 0 -> sg = NoSign) ->
  let neg := if v =? 0 then false else sign_neg sg in
  (if recheck_differs (skip_zeros ds) neg v then (if neg then INT64_MIN else INT64_MAX) else v)
  = clamp64 (signed_value sg ds).
Proof.
  intros Hsg Hd Hne Hv Hval neg.
  destruct (skip_zeros_spec ds Hd Hne) as (Hz & Hc & Hzv).
  pose proof (recheck_differs_spec (skip_zeros ds) neg v Hz Hv) as Hre.
  pose proof (dec_value_nonneg _ Hd).
  destruct (recheck_differs (skip_zeros ds) neg v) eqn:Er.
  - destruct (in_int64 (signed_value sg ds)) eqn:Hin.
    + exfalso. subst v. enough (true = false) by done. apply Hre. split.
      * unfold neg, signed_value. destruct sg; simpl.
        -- destruct (Z.ltb_spec (dec_value ds) 0); [lia|]. by destruct (_ =? _).
        -- destruct (Z.eqb_spec (- dec_value ds) 0); destruct (Z.ltb_spec (- dec_value ds) 0); lia || done.
        -- done.
      * rewrite <- (print_nat_value (skip_zeros ds)) at 1 by done. rewrite Hzv. f_equal.
        unfold signed_value. destruct (sign_neg sg); lia.
    + rewrite (clamp64_out sg ds Hd Hin). unfold neg.
      destruct (Z.eqb_spec v 0) as [->|]; [|done]. by rewrite Hval.
  - apply proj1 in Hre. destruct (Hre eq_refl) as [Hneg Hprint].
    assert (v = signed_value sg ds) as ->; [|symmetry; by apply clamp64_id].
    assert (dec_value ds = Z.abs v) as Habs.
    { rewrite <- Hzv, Hprint. apply print_nat_spec. lia. }
    unfold signed_value, neg in *. destruct (Z.eqb_spec v 0) as [->|].
    { destruct (sign_neg sg); lia. }
    rewrite Hneg. destruct (Z.ltb_spec v 0); lia.
Qed.

(** On a platform whose [sscanf] does not report (or does not clamp) an
    out-of-range number, [json_parse_int64] with the workaround enabled still
    returns, for any decimal text with optional leading spaces and minus sign,
    the number the text denotes clamped to 64 bits. *)
Theorem json_parse_int64_workaround sscan n e ws sg ds :
  scan_weak sscan ->
  Forall (fun c => isspace c = true) ws -> sg <> Plus -> all_digits ds -> ds <> [] ->
  snd (json_parse_int64 sscan n e
         {| sscanf_is_broken := true; sscanf_is_broken_testdone := true |}
         (ws ++ int_text sg ds)) =
  Some (clamp64 (signed_value sg ds)).
Proof.
  intros Hscan Hws Hsg Hd Hne.
  pose proof (skip_space_int_text ws sg ds [] Hws Hd Hne) as Hskip.
  rewrite !app_nil_r in Hskip.
  destruct (Hscan sg ds Hsg Hd Hne) as (v & er & Hs & Hv & Hval).
  unfold json_parse_int64. cbn [sscanf_is_broken_testdone sscanf_is_broken].
  rewrite Hskip, Hs.
  replace (match int_text sg ds with _ => _ end) with (ds, sign_neg sg).
  2: { destruct sg; [|done..]. destruct ds as [|d ds]; [done|]. simpl.
       apply list.Forall_cons in Hd as [Hd _]. rewrite isdigit_range in Hd.
       destruct (Z.eqb_spec d 45); [lia|done]. }
  destruct er; simpl.
  - destruct (in_int64 (signed_value sg ds)) eqn:Hin; [by destruct Hval|].
    by rewrite (clamp64_out sg ds Hd Hin).
  - rewrite <- (workaround_value sg ds v) by
      (done || destruct (in_int64 (signed_value sg ds)); naive_solver).
    done.
Qed.

Lemma glibc_scan_weak : scan_weak glibc_scan.
Proof.
  intros sg ds Hsg Hd Hne. pose proof (glibc_scan_text [] sg ds [] (List.Forall_nil _) Hd Hne eq_refl) as E.
  rewrite app_nil_r in E. cbn [app] in E. eexists _, _. split; [exact E|].
  split. { unfold in_int64, clamp64, INT64_MIN, INT64_MAX. apply andb_true_iff. rewrite !Z.leb_le. lia. }
  destruct (in_int64 (signed_value sg ds)) eqn:Hin; simpl; [|done].
  split; [by apply clamp64_id|done].
Qed.

Lemma json_parse_int64_workaround_witness :
  snd (json_parse_int64 glibc_scan 0 false
         {| sscanf_is_broken := true; sscanf_is_broken_testdone := true |}
         ([32] ++ int_text Minus (str "00099999999999999999999"))) = Some INT64_MIN.
Proof.
  rewrite (json_parse_int64_workaround glibc_scan 0 false [32] Minus (str "00099999999999999999999")
             glibc_scan_weak); [reflexivity|..].
  - repeat constructor.
  - discriminate.
  - repeat constructor.
  - discriminate.
Defined.

(** Three inputs on which the workaround goes wrong.  The test recognises
    the wrapping platform; there a zero followed by anything at all loses its
    only digit to the loop that promises to "keep at least one digit", a
    negative multiple of [2^64] loses its sign, and a plus sign counts as a
    differing digit: all three come back as [INT64_MAX]. *)
Theorem json_parse_int64_workaround_gaps :
  sscanf_is_broken (fst (json_parse_int64 wrapping_scan 0 false scanf_init (str "1"))) = true /\
  (let parse b := snd (json_parse_int64 wrapping_scan 0 false scanf_init b) in
   parse (str "0 ") = Some INT64_MAX /\
   parse (str "-18446744073709551616") = Some INT64_MAX /\
   parse (str "+5") = Some INT64_MAX /\
   parse (str "7 ") = Some 7).
Proof. vm_compute. auto. Qed.

(** [json_type_to_name] is total on the enumeration and refuses everything
    else. *)
Lemma json_type_to_name_spec (i : Z) :
  is_Some (json_type_to_name i) <-> exists t, i = json_type_int_of t.
Proof.
  unfold json_type_to_name. change (zlen json_type_name) with 7. split.
  - case_test; [by intros [? ?]|]. apply orb_false_iff in Heqb as [H1 H2].
    rewrite Z.ltb_ge in H1. rewrite Z.geb_leb, Z.leb_gt in H2. intros _.
    assert (i = 0 \/ i = 1 \/ i = 2 \/ i = 3 \/ i = 4 \/ i = 5 \/ i = 6) as Hi by lia.
    destruct_or! Hi; subst;
      [exists json_type_null|exists json_type_boolean|exists json_type_double|exists json_type_int
      |exists json_type_object|exists json_type_array|exists json_type_string]; done.
  - intros [t ->]. destruct t; vm_compute; eauto.
Qed.

End JsonUtil.
