(* ===== verification/JsonTokener.v ===== *)
(** * json-c [json_tokener.c]: the incremental JSON parser

    [json_tokener_parse_ex] is a character-driven state machine over a stack
    of levels.  Here every [case] of its [switch] is one definition
    [case_<state>] on the machine [mach]: the tokener, the C locals ([str],
    [c], [obj]) and the objects built so far.  A case ends in one of the
    three ways the C code does: [Redo] ([goto redo_char]), [Break] (the
    [switch] is left, the main loop advances) or [Out] ([goto out]), or the
    program dies ([Crash]): a field name that could not be copied is used
    without a check.  The main loop [run] carries fuel; [fuel_for] is shown to
    be enough.

    The objects are reached through the interface [JsonOps], the part of
    [json_object.h] the parser calls.  [str m] is the memory from the [str]
    pointer on; a read past its end yields the terminating NUL.  Only the
    [setlocale] bracket around the loop and the debug messages are left out. *)

From S2P Require Import Prelude Printbuf JsonUtil.
From Stdlib Require Import ZArith Lia String.
From stdpp Require Import base list numbers option.

Open Scope Z_scope.

(** ** The interface to the objects *)

(** [double] values and the two conversions of the C library the code uses:
    [sscanf "%lf"] and [printf "%f"], in the "C" locale. *)
Class DoubleOps := {
  double : Type;
  scan_double : bytes -> option double;
  print_double : double -> bytes
}.

(** What [json_tokener.c] needs of [json_object.h].  [jstate] is the memory the
    objects live in.  The two operations that change an object in place return
    the pointer to the changed object as well, so that an implementation by
    values fits the interface too. *)
Class JsonOps `{DoubleOps} := {
  jstate : Type;
  jptr : Type;
  jnull : jptr;
  jo_new_object : jstate -> jstate * jptr;
  jo_new_array : jstate -> jstate * jptr;
  jo_new_boolean : jstate -> Z -> jstate * jptr;
  jo_new_int64 : jstate -> Z -> jstate * jptr;
  jo_new_double : jstate -> double -> jstate * jptr;
  jo_new_string_len : jstate -> bytes -> jstate * jptr;
  jo_get : jstate -> jptr -> jstate;
  jo_put : jstate -> jptr -> jstate;
  jo_array_add : jstate -> jptr -> jptr -> jstate * jptr;
  jo_object_add : jstate -> jptr -> bytes -> jptr -> jstate * jptr
}.

Module JsonTokener.
Import Printbuf JsonUtil.

(** ** Data *)

Inductive json_tokener_error :=
| json_tokener_success
| json_tokener_continue
| json_tokener_error_depth
| json_tokener_error_parse_eof
| json_tokener_error_parse_unexpected
| json_tokener_error_parse_null
| json_tokener_error_parse_boolean
| json_tokener_error_parse_number
| json_tokener_error_parse_array
| json_tokener_error_parse_object_key_name
| json_tokener_error_parse_object_key_sep
| json_tokener_error_parse_object_value_sep
| json_tokener_error_parse_string
| json_tokener_error_parse_comment.

#[export] Instance json_tokener_error_eq_dec : EqDecision json_tokener_error.
Proof. solve_decision. Defined.

Definition json_tokener_errors : list string := [
  "success";
  "continue";
  "nesting too deep";
  "unexpected end of data";
  "unexpected character";
  "null expected";
  "boolean expected";
  "number expected";
  "array value separator ',' expected";
  "quoted object property name expected";
  "object property name separator ':' expected";
  "object value separator ',' expected";
  "invalid string sequence";
  "expected comment"
]%string.

Inductive json_tokener_state :=
| state_eatws
| state_start
| state_finish
| state_null
| state_comment_start
| state_comment
| state_comment_eol
| state_comment_end
| state_string
| state_string_escape
| state_escape_unicode
| state_boolean
| state_number
| state_array
| state_array_add
| state_array_sep
| state_object_field_start
| state_object_field
| state_object_field_end
| state_object_value
| state_object_value_add
| state_object_sep
| state_array_after_sep
| state_object_field_start_after_sep.

#[export] Instance json_tokener_state_eq_dec : EqDecision json_tokener_state.
Proof. solve_decision. Defined.

Definition JSON_TOKENER_DEFAULT_DEPTH : Z := 32.
Definition JSON_TOKENER_STRICT : Z := 1.

Definition json_null_str : bytes := str "null".
Definition json_true_str : bytes := str "true".
Definition json_false_str : bytes := str "false".
Definition json_number_chars : bytes := str "0123456789.+-eE".
Definition json_hex_chars : bytes := str "0123456789abcdefABCDEF".
Definition utf8_replacement_char : bytes := [239; 191; 189].

Definition hexdigit (x : Z) : Z := if x <=? 57 then x - 48 else Z.land x 7 + 9.

Definition IS_HIGH_SURROGATE (uc : Z) : bool := Z.land uc 64512 =? 55296.
Definition IS_LOW_SURROGATE (uc : Z) : bool := Z.land uc 64512 =? 56320.
Definition DECODE_SURROGATE_PAIR (hi lo : Z) : Z :=
  u32 (Z.shiftl (Z.land hi 1023) 10 + Z.land lo 1023 + 65536).

(** The result of [json_tokener_error_desc]: a message, or a read of the table
    at an index it does not have. *)
Inductive desc_result := Desc (s : string) | OutOfTable.

(** [sizeof(json_tokener_errors)] is in bytes: 8 per pointer. *)
Definition json_tokener_error_desc (jerr_int : Z) : desc_result :=
  if (jerr_int <? 0) || (jerr_int >? 8 * zlen json_tokener_errors) then
    Desc "Unknown error, invalid json_tokener_error value passed to json_tokener_error_desc()"
  else
    match json_tokener_errors !! Z.to_nat jerr_int with
    | Some s => Desc s
    | None => OutOfTable
    end.

Section Tokener.
Context {al : Allocator} `{JsonOps}.

Record json_tokener_srec := Srec {
  sr_state : json_tokener_state;
  sr_saved_state : json_tokener_state;
  sr_current : jptr;
  sr_obj_field_name : option bytes
}.

Record json_tokener := Tokener {
  pb : printbuf;
  max_depth : Z;
  depth : Z;
  is_double : bool;
  st_pos : Z;
  char_offset : Z;
  err : json_tokener_error;
  ucs_char : Z;
  quote_char : Z;
  stack : list json_tokener_srec;
  flags : Z
}.

(** The tokener with the locals of [json_tokener_parse_ex] and the memory of
    the objects. *)
Record mach := Mach {
  tok : json_tokener;
  heap : jstate;
  cur : bytes;
  c : Z;
  obj : jptr
}.

(** [calloc]ed level: state 0 is [json_tokener_state_eatws]. *)
Definition srec_zero : json_tokener_srec :=
  {| sr_state := state_eatws; sr_saved_state := state_eatws;
     sr_current := jnull; sr_obj_field_name := None |}.

(** ** Field access *)

Definition set_pb b t := Tokener b (max_depth t) (depth t) (is_double t) (st_pos t)
  (char_offset t) (err t) (ucs_char t) (quote_char t) (stack t) (flags t).
Definition set_depth d t := Tokener (pb t) (max_depth t) d (is_double t) (st_pos t)
  (char_offset t) (err t) (ucs_char t) (quote_char t) (stack t) (flags t).
Definition set_is_double b t := Tokener (pb t) (max_depth t) (depth t) b (st_pos t)
  (char_offset t) (err t) (ucs_char t) (quote_char t) (stack t) (flags t).
Definition set_st_pos p t := Tokener (pb t) (max_depth t) (depth t) (is_double t) p
  (char_offset t) (err t) (ucs_char t) (quote_char t) (stack t) (flags t).
Definition set_char_offset o t := Tokener (pb t) (max_depth t) (depth t) (is_double t) (st_pos t)
  o (err t) (ucs_char t) (quote_char t) (stack t) (flags t).
Definition set_err e t := Tokener (pb t) (max_depth t) (depth t) (is_double t) (st_pos t)
  (char_offset t) e (ucs_char t) (quote_char t) (stack t) (flags t).
Definition set_ucs_char u t := Tokener (pb t) (max_depth t) (depth t) (is_double t) (st_pos t)
  (char_offset t) (err t) u (quote_char t) (stack t) (flags t).
Definition set_quote_char q t := Tokener (pb t) (max_depth t) (depth t) (is_double t) (st_pos t)
  (char_offset t) (err t) (ucs_char t) q (stack t) (flags t).
Definition set_stack s t := Tokener (pb t) (max_depth t) (depth t) (is_double t) (st_pos t)
  (char_offset t) (err t) (ucs_char t) (quote_char t) s (flags t).
Definition set_tok_flags f t := Tokener (pb t) (max_depth t) (depth t) (is_double t) (st_pos t)
  (char_offset t) (err t) (ucs_char t) (quote_char t) (stack t) f.

(** [tok->stack[i]]. *)
Definition level (t : json_tokener) (i : Z) : json_tokener_srec :=
  default srec_zero (stack t !! Z.to_nat i).

Definition set_level (i : Z) (r : json_tokener_srec) (t : json_tokener) : json_tokener :=
  set_stack (<[Z.to_nat i := r]> (stack t)) t.

(** The macros [state], [saved_state], [current], [obj_field_name]. *)
Definition top (t : json_tokener) : json_tokener_srec := level t (depth t).
Definition state (m : mach) : json_tokener_state := sr_state (top (tok m)).
Definition saved_state (m : mach) : json_tokener_state := sr_saved_state (top (tok m)).
Definition current (m : mach) : jptr := sr_current (top (tok m)).
Definition obj_field_name (m : mach) : option bytes := sr_obj_field_name (top (tok m)).

Definition upd_tok (f : json_tokener -> json_tokener) (m : mach) : mach :=
  Mach (f (tok m)) (heap m) (cur m) (c m) (obj m).
Definition upd_top (f : json_tokener_srec -> json_tokener_srec) (m : mach) : mach :=
  upd_tok (fun t => set_level (depth t) (f (top t)) t) m.
Definition set_heap (h : jstate) (m : mach) : mach := Mach (tok m) h (cur m) (c m) (obj m).
Definition set_c (x : Z) (m : mach) : mach := Mach (tok m) (heap m) (cur m) x (obj m).
Definition set_cur (s : bytes) (m : mach) : mach := Mach (tok m) (heap m) s (c m) (obj m).
Definition set_obj (o : jptr) (m : mach) : mach := Mach (tok m) (heap m) (cur m) (c m) o.

Definition set_state (s : json_tokener_state) : mach -> mach :=
  upd_top (fun r => Srec s (sr_saved_state r) (sr_current r) (sr_obj_field_name r)).
Definition set_saved_state (s : json_tokener_state) : mach -> mach :=
  upd_top (fun r => Srec (sr_state r) s (sr_current r) (sr_obj_field_name r)).
Definition set_current (p : jptr) : mach -> mach :=
  upd_top (fun r => Srec (sr_state r) (sr_saved_state r) p (sr_obj_field_name r)).
Definition set_obj_field_name (n : option bytes) : mach -> mach :=
  upd_top (fun r => Srec (sr_state r) (sr_saved_state r) (sr_current r) n).
Definition set_error (e : json_tokener_error) : mach -> mach := upd_tok (set_err e).

(** [saved_state = s1; state = s2]. *)
Definition set_states (s1 s2 : json_tokener_state) (m : mach) : mach :=
  set_state s2 (set_saved_state s1 m).

(** [printbuf_reset(tok->pb)] and [printbuf_memappend_fast(tok->pb, ...)]. *)
Definition reset_pb (m : mach) : mach := upd_tok (fun t => set_pb (printbuf_reset (pb t)) t) m.
Definition append (d : bytes) (m : mach) : mach :=
  upd_tok (fun t => set_pb (printbuf_memappend_fast (pb t) d) t) m.

(** ** Creation and reset *)

Definition json_tokener_reset_level (d : Z) (h : jstate) (t : json_tokener)
  : jstate * json_tokener :=
  let h' := jo_put h (sr_current (level t d)) in
  (h', set_level d {| sr_state := state_eatws; sr_saved_state := state_start;
                      sr_current := jnull; sr_obj_field_name := None |} t).

(** [for (i = n; i >= 0; i--) json_tokener_reset_level(tok, i)]. *)
Fixpoint reset_levels (n : nat) (h : jstate) (t : json_tokener) : jstate * json_tokener :=
  let '(h', t') := json_tokener_reset_level (Z.of_nat n) h t in
  match n with
  | O => (h', t')
  | S n' => reset_levels n' h' t'
  end.

Definition json_tokener_reset (h : jstate) (t : json_tokener) : jstate * json_tokener :=
  let '(h', t') := reset_levels (Z.to_nat (depth t)) h t in
  (h', set_err json_tokener_success (set_depth 0 t')).

(** [json_tokener_new_ex] checks two of its three allocations: when
    [printbuf_new] fails the tokener is returned with a null [pb]. *)
Inductive new_result :=
| NewNull
| NewWithoutPb
| New (h : jstate) (t : json_tokener).

Definition json_tokener_new_ex (h : jstate) (d : Z) : new_result :=
  if negb (malloc_ok 64) then NewNull
  else if negb (malloc_ok (32 * u64 d)) then NewNull
  else
    match printbuf_new with
    | None => NewWithoutPb
    | Some b =>
        let '(h', t') := json_tokener_reset h
          {| pb := b; max_depth := d; depth := 0; is_double := false; st_pos := 0;
             char_offset := 0; err := json_tokener_success; ucs_char := 0; quote_char := 0;
             stack := replicate (Z.to_nat d) srec_zero; flags := 0 |} in
        New h' t'
    end.

Definition json_tokener_new (h : jstate) : new_result :=
  json_tokener_new_ex h JSON_TOKENER_DEFAULT_DEPTH.

(** What [json_tokener_free] does to the objects. *)
Definition json_tokener_free (h : jstate) (t : json_tokener) : jstate :=
  fst (json_tokener_reset h t).

Definition json_tokener_get_error (t : json_tokener) : json_tokener_error := err t.

Definition json_tokener_set_flags (f : Z) (t : json_tokener) : json_tokener := set_tok_flags f t.

(** ** The macros of the main loop *)

Section Parse.
(** The [len] argument: -1 for a NUL-terminated string. *)
Context (len : Z).

Definition PEEK_CHAR (m : mach) : mach * bool :=
  if char_offset (tok m) =? len then
    if (depth (tok m) =? 0) && bool_decide (state m = state_eatws)
       && bool_decide (saved_state m = state_finish)
    then (set_error json_tokener_success m, false)
    else (set_error json_tokener_continue m, false)
  else (set_c (hd 0 (cur m)) m, true).

(** The value of the macro is the [c] of the machine it returns. *)
Definition ADVANCE_CHAR (m : mach) : mach :=
  set_cur (tl (cur m)) (upd_tok (fun t => set_char_offset (s32 (char_offset t + 1)) t) m).

(** [if (!ADVANCE_CHAR(str, tok) || !PEEK_CHAR(c, tok)) ...]: true when the
    loop goes on. *)
Definition ADVANCE_PEEK (m : mach) : mach * bool :=
  let m1 := ADVANCE_CHAR m in
  if c m1 =? 0 then (m1, false) else PEEK_CHAR m1.

(** [while (test c) if (!ADVANCE_CHAR(str, tok) || !PEEK_CHAR(c, tok)) <fail>]:
    the flag is false when the body failed.  Every round consumes a byte of
    [cur], so its length bounds the rounds. *)
Fixpoint advance_while (fuel : nat) (test : Z -> bool) (m : mach) : mach * bool :=
  if test (c m) then
    match fuel with
    | O => (m, false)
    | S f =>
        let '(m1, go) := ADVANCE_PEEK m in
        if go then advance_while f test m1 else (m1, false)
    end
  else (m, true).

Definition scan_while (test : Z -> bool) (m : mach) : mach * bool :=
  advance_while (S (length (cur m))) test m.

(** The bytes from [case_start] (in [m0]) up to [str] (in [m1]). *)
Definition since (m0 m1 : mach) : bytes :=
  resize (Z.to_nat (u32 (char_offset (tok m1) - char_offset (tok m0)))) 0 (cur m0).

(** ** The cases of the switch *)

Inductive outcome := Redo | Break | Out | Crash.

Definition case_eatws (m : mach) : outcome * mach :=
  let '(m, ok) := scan_while isspace m in
  if negb ok then (Out, m)
  else if c m =? 47 then
    (Break, set_state state_comment_start (append [c m] (reset_pb m)))
  else (Redo, set_state (saved_state m) m).

Definition case_start (m : mach) : outcome * mach :=
  if c m =? 123 then
    let '(h, p) := jo_new_object (heap m) in
    (Break, set_current p (set_heap h
              (set_saved_state state_object_field_start (set_state state_eatws m))))
  else if c m =? 91 then
    let '(h, p) := jo_new_array (heap m) in
    (Break, set_current p (set_heap h
              (set_saved_state state_array (set_state state_eatws m))))
  else if (c m =? 78) || (c m =? 110) then
    (Redo, upd_tok (set_st_pos 0) (reset_pb (set_state state_null m)))
  else if (c m =? 34) || (c m =? 39) then
    (Break, upd_tok (set_quote_char (c m)) (reset_pb (set_state state_string m)))
  else if (c m =? 84) || (c m =? 116) || (c m =? 70) || (c m =? 102) then
    (Redo, upd_tok (set_st_pos 0) (reset_pb (set_state state_boolean m)))
  else if isdigit (c m) || (c m =? 45) then
    (Redo, upd_tok (set_is_double false) (reset_pb (set_state state_number m)))
  else (Out, set_error json_tokener_error_parse_unexpected m).

Definition case_finish (m : mach) : outcome * mach :=
  if depth (tok m) =? 0 then (Out, m)
  else
    let o := current m in
    let h := jo_get (heap m) o in
    let '(h, t) := json_tokener_reset_level (depth (tok m)) h (tok m) in
    (Redo, Mach (set_depth (depth t - 1) t) h (cur m) (c m) o).

Definition case_null (m : mach) : outcome * mach :=
  let m := append [c m] m in
  let pos := st_pos (tok m) in
  if strncasecmp_eq json_null_str (buf (pb (tok m))) (Z.min (pos + 1) (strlen json_null_str)) then
    if pos =? strlen json_null_str then
      (Redo, set_states state_finish state_eatws (set_current jnull m))
    else (Break, upd_tok (set_st_pos (pos + 1)) m)
  else (Out, set_error json_tokener_error_parse_null m).

Definition case_comment_start (m : mach) : outcome * mach :=
  if c m =? 42 then (Break, append [c m] (set_state state_comment m))
  else if c m =? 47 then (Break, append [c m] (set_state state_comment_eol m))
  else (Out, set_error json_tokener_error_parse_comment m).

Definition case_comment (m0 : mach) : outcome * mach :=
  let '(m, ok) := scan_while (fun x => negb (x =? 42)) m0 in
  if negb ok then (Out, append (since m0 m) m)
  else (Break, set_state state_comment_end (append (since m0 m ++ [c m]) m)).

Definition case_comment_eol (m0 : mach) : outcome * mach :=
  let '(m, ok) := scan_while (fun x => negb (x =? 10)) m0 in
  if negb ok then (Out, append (since m0 m) m)
  else (Break, set_state state_eatws (append (since m0 m) m)).

Definition case_comment_end (m : mach) : outcome * mach :=
  let m := append [c m] m in
  if c m =? 47 then (Break, set_state state_eatws m)
  else (Break, set_state state_comment m).

(** The loop of the two string states stops at the quote or a backslash. *)
Definition in_text (q x : Z) : bool := negb (x =? q) && negb (x =? 92).

Definition case_string (m0 : mach) : outcome * mach :=
  let q := quote_char (tok m0) in
  let '(m, ok) := scan_while (in_text q) m0 in
  let m := append (since m0 m) m in
  if negb ok then (Out, m)
  else if c m =? q then
    let b := pb (tok m) in
    let '(h, p) := jo_new_string_len (heap m) (take (Z.to_nat (bpos b)) (buf b)) in
    (Break, set_states state_finish state_eatws (set_current p (set_heap h m)))
  else (Break, set_states state_string state_string_escape m).

Definition case_string_escape (m : mach) : outcome * mach :=
  if (c m =? 34) || (c m =? 92) || (c m =? 47) then
    (Break, set_state (saved_state m) (append [c m] m))
  else if c m =? 98 then (Break, set_state (saved_state m) (append [8] m))
  else if c m =? 110 then (Break, set_state (saved_state m) (append [10] m))
  else if c m =? 114 then (Break, set_state (saved_state m) (append [13] m))
  else if c m =? 116 then (Break, set_state (saved_state m) (append [9] m))
  else if c m =? 102 then (Break, set_state (saved_state m) (append [12] m))
  else if c m =? 117 then
    (Break, set_state state_escape_unicode
              (upd_tok (set_st_pos 0) (upd_tok (set_ucs_char 0) m)))
  else (Out, set_error json_tokener_error_parse_string m).

(** [x << n] on a 32-bit [x]; a count outside 0..31 is undefined in C, the
    processor takes it modulo 32. *)
Definition shl32 (x n : Z) : Z := u32 (Z.shiftl x (n mod 32)).

(** The bytes the last [else if] chain of the case appends for a code point
    that is not a surrogate. *)
Definition unescaped_utf (uc : Z) : bytes :=
  if uc <? 128 then [u8 uc]
  else if uc <? 2048 then
    [u8 (Z.lor 192 (Z.shiftr uc 6)); u8 (Z.lor 128 (Z.land uc 63))]
  else if uc <? 65536 then
    [u8 (Z.lor 224 (Z.shiftr uc 12)); u8 (Z.lor 128 (Z.land (Z.shiftr uc 6) 63));
     u8 (Z.lor 128 (Z.land uc 63))]
  else if uc <? 1114112 then
    [u8 (Z.lor 240 (Z.land (Z.shiftr uc 18) 7));
     u8 (Z.lor 128 (Z.land (Z.shiftr uc 12) 63));
     u8 (Z.lor 128 (Z.land (Z.shiftr uc 6) 63)); u8 (Z.lor 128 (Z.land uc 63))]
  else utf8_replacement_char.

(** After the high surrogate just read: "[\u]" follows, so skip it and start
    another sequence ([inl], with the new [got_hi_surrogate]), or give up
    ([inr]). *)
Definition next_sequence (m : mach) : (Z * mach) + (outcome * mach) :=
  let off := char_offset (tok m) in
  if negb (s32 (off + 1) =? len) && negb (s32 (off + 2) =? len)
     && (nth 1 (cur m) 0 =? 92) && (nth 2 (cur m) 0 =? 117)
  then
    let m1 := ADVANCE_CHAR m in
    let m2 := if c m1 =? 0 then append utf8_replacement_char m1
              else let m2 := ADVANCE_CHAR m1 in
                   if c m2 =? 0 then append utf8_replacement_char m2 else m2 in
    let '(m3, go) := ADVANCE_PEEK m2 in
    if go then inl (ucs_char (tok m), upd_tok (set_st_pos 0) (upd_tok (set_ucs_char 0) m3))
    else inr (Out, append utf8_replacement_char m3)
  else inr (Break, set_state (saved_state m) (append utf8_replacement_char m)).

(** Four digits have been read; [hi] is [got_hi_surrogate].  [inl] is the
    [continue] with the high surrogate to remember, [inr] leaves the loop.  The
    tests for surrogates look at bits 10 to 15 only, of a decoded pair too. *)
Definition sequence_end (hi : Z) (m : mach) : (Z * mach) + (outcome * mach) :=
  let m :=
    if negb (hi =? 0) then
      if IS_LOW_SURROGATE (ucs_char (tok m)) then
        upd_tok (fun t => set_ucs_char (DECODE_SURROGATE_PAIR hi (ucs_char t)) t) m
      else append utf8_replacement_char m
    else m in
  let uc := ucs_char (tok m) in
  if (2048 <=? uc) && IS_HIGH_SURROGATE uc then next_sequence m
  else if (2048 <=? uc) && IS_LOW_SURROGATE uc then
    inr (Break, set_state (saved_state m) (append utf8_replacement_char m))
  else inr (Break, set_state (saved_state m) (append (unescaped_utf uc) m)).

(** One round of [while(1)]; [continue] and the next round are [loop]. *)
Definition unicode_body (loop : Z -> mach -> outcome * mach) (hi : Z) (m : mach) : outcome * mach :=
  if strchr json_hex_chars (c m) then
    let pos := st_pos (tok m) in
    let m := upd_tok (fun t => set_ucs_char
               (u32 (ucs_char t + shl32 (u32 (hexdigit (c m))) ((3 - pos) * 4))) t) m in
    let m := upd_tok (set_st_pos (pos + 1)) m in
    if pos + 1 =? 4 then
      match sequence_end hi m with
      | inl (hi', m') => loop hi' m'
      | inr r => r
      end
    else
      let '(m, go) := ADVANCE_PEEK m in
      if go then loop hi m
      else (Out, if negb (hi =? 0) then append utf8_replacement_char m else m)
  else (Out, set_error json_tokener_error_parse_string m).

Fixpoint unicode_loop (fuel : nat) (hi : Z) (m : mach) : outcome * mach :=
  match fuel with
  | O => (Out, m)
  | S f => unicode_body (unicode_loop f) hi m
  end.

Definition case_escape_unicode (m : mach) : outcome * mach :=
  unicode_loop (S (length (cur m))) 0 m.

Definition case_boolean (m : mach) : outcome * mach :=
  let m := append [c m] m in
  let pos := st_pos (tok m) in
  let b := buf (pb (tok m)) in
  if strncasecmp_eq json_true_str b (Z.min (pos + 1) (strlen json_true_str)) then
    if pos =? strlen json_true_str then
      let '(h, p) := jo_new_boolean (heap m) 1 in
      (Redo, set_states state_finish state_eatws (set_current p (set_heap h m)))
    else (Break, upd_tok (set_st_pos (pos + 1)) m)
  else if strncasecmp_eq json_false_str b (Z.min (pos + 1) (strlen json_false_str)) then
    if pos =? strlen json_false_str then
      let '(h, p) := jo_new_boolean (heap m) 0 in
      (Redo, set_states state_finish state_eatws (set_current p (set_heap h m)))
    else (Break, upd_tok (set_st_pos (pos + 1)) m)
  else (Out, set_error json_tokener_error_parse_boolean m).

Definition is_number_char (x : Z) : bool := negb (x =? 0) && strchr json_number_chars x.
Definition is_double_char (x : Z) : bool := (x =? 46) || (x =? 101) || (x =? 69).

(** [is_double] is set on the way by the loop; here it is computed from the
    bytes the loop has passed. *)
Definition case_number (m0 : mach) : outcome * mach :=
  let '(m, ok) := scan_while is_number_char m0 in
  let text := since m0 m in
  let m := upd_tok (fun t => set_is_double (is_double t || existsb is_double_char text) t) m in
  if negb ok then (Out, append text m)
  else
    let m := if zlen text >? 0 then append text m else m in
    let b := buf (pb (tok m)) in
    if is_double (tok m) then
      match scan_double (cstr b) with
      | Some d =>
          let '(h, p) := jo_new_double (heap m) d in
          (Redo, set_states state_finish state_eatws (set_current p (set_heap h m)))
      | None => (Out, set_error json_tokener_error_parse_number m)
      end
    else
      match parse_int64 b with
      | Some n =>
          let '(h, p) := jo_new_int64 (heap m) n in
          (Redo, set_states state_finish state_eatws (set_current p (set_heap h m)))
      | None => (Out, set_error json_tokener_error_parse_number m)
      end.

(** [tok->depth++; json_tokener_reset_level(tok, tok->depth)]. *)
Definition push_level (m : mach) : mach :=
  let d := depth (tok m) + 1 in
  let '(h, t) := json_tokener_reset_level d (heap m) (set_depth d (tok m)) in
  Mach t h (cur m) (c m) (obj m).

Definition is_strict (m : mach) : bool :=
  negb (Z.land (flags (tok m)) JSON_TOKENER_STRICT =? 0).

(** [case json_tokener_state_array_after_sep: case json_tokener_state_array:]. *)
Definition case_array (m : mach) : outcome * mach :=
  if c m =? 93 then
    if bool_decide (state m = state_array_after_sep) && is_strict m then
      (Out, set_error json_tokener_error_parse_unexpected m)
    else (Break, set_states state_finish state_eatws m)
  else if depth (tok m) >=? max_depth (tok m) - 1 then
    (Out, set_error json_tokener_error_depth m)
  else (Redo, push_level (set_state state_array_add m)).

Definition case_array_add (m : mach) : outcome * mach :=
  let '(h, p) := jo_array_add (heap m) (current m) (obj m) in
  (Redo, set_states state_array_sep state_eatws (set_current p (set_heap h m))).

Definition case_array_sep (m : mach) : outcome * mach :=
  if c m =? 93 then (Break, set_states state_finish state_eatws m)
  else if c m =? 44 then (Break, set_states state_array_after_sep state_eatws m)
  else (Out, set_error json_tokener_error_parse_array m).

(** Both [object_field_start] cases. *)
Definition case_object_field_start (m : mach) : outcome * mach :=
  if c m =? 125 then
    if bool_decide (state m = state_object_field_start_after_sep) && is_strict m then
      (Out, set_error json_tokener_error_parse_unexpected m)
    else (Break, set_states state_finish state_eatws m)
  else if (c m =? 34) || (c m =? 39) then
    (Break, set_state state_object_field (reset_pb (upd_tok (set_quote_char (c m)) m)))
  else (Out, set_error json_tokener_error_parse_object_key_name m).

(** [strdup]: the field name, or NULL. *)
Definition strdup (s : bytes) : option bytes := if malloc_ok (zlen (cstr s) + 1) then Some (cstr s) else None.

(** The result of [strdup] is not checked. *)
Definition case_object_field (m0 : mach) : outcome * mach :=
  let q := quote_char (tok m0) in
  let '(m, ok) := scan_while (in_text q) m0 in
  let m := append (since m0 m) m in
  if negb ok then (Out, m)
  else if c m =? q then
    (Break, set_states state_object_field_end state_eatws
              (set_obj_field_name (strdup (buf (pb (tok m)))) m))
  else (Break, set_states state_object_field state_string_escape m).

Definition case_object_field_end (m : mach) : outcome * mach :=
  if c m =? 58 then (Break, set_states state_object_value state_eatws m)
  else (Out, set_error json_tokener_error_parse_object_key_sep m).

Definition case_object_value (m : mach) : outcome * mach :=
  if depth (tok m) >=? max_depth (tok m) - 1 then
    (Out, set_error json_tokener_error_depth m)
  else (Redo, push_level (set_state state_object_value_add m)).

(** [json_object_object_add] reads the field name: with NULL the program
    dies. *)
Definition case_object_value_add (m : mach) : outcome * mach :=
  match obj_field_name m with
  | None => (Crash, m)
  | Some name =>
      let '(h, p) := jo_object_add (heap m) (current m) name (obj m) in
      (Redo, set_states state_object_sep state_eatws
               (set_obj_field_name None (set_current p (set_heap h m))))
  end.

Definition case_object_sep (m : mach) : outcome * mach :=
  if c m =? 125 then (Break, set_states state_finish state_eatws m)
  else if c m =? 44 then
    (Break, set_states state_object_field_start_after_sep state_eatws m)
  else (Out, set_error json_tokener_error_parse_object_value_sep m).

Definition switch (m : mach) : outcome * mach :=
  match state m with
  | state_eatws => case_eatws m
  | state_start => case_start m
  | state_finish => case_finish m
  | state_null => case_null m
  | state_comment_start => case_comment_start m
  | state_comment => case_comment m
  | state_comment_eol => case_comment_eol m
  | state_comment_end => case_comment_end m
  | state_string => case_string m
  | state_string_escape => case_string_escape m
  | state_escape_unicode => case_escape_unicode m
  | state_boolean => case_boolean m
  | state_number => case_number m
  | state_array_after_sep | state_array => case_array m
  | state_array_add => case_array_add m
  | state_array_sep => case_array_sep m
  | state_object_field_start | state_object_field_start_after_sep => case_object_field_start m
  | state_object_field => case_object_field m
  | state_object_field_end => case_object_field_end m
  | state_object_value => case_object_value m
  | state_object_value_add => case_object_value_add m
  | state_object_sep => case_object_sep m
  end.

(** From the label [redo_char] to [out]; [None] when the fuel runs out, or when
    the program dies. *)
Fixpoint run (fuel : nat) (m : mach) : option mach :=
  match fuel with
  | O => None
  | S f =>
      match switch m with
      | (Redo, m') => run f m'
      | (Out, m') => Some m'
      | (Crash, _) => None
      | (Break, m') =>
          let '(m2, go) := ADVANCE_PEEK m' in
          if go then run f m2 else Some m2
      end
  end.

(** Between two bytes of input the machine redoes at most 10 times. *)
Definition fuel_for (s : bytes) : nat := 11 * (length s + 2).

(** The code after the label [out]. *)
Definition parse_out (m : mach) : jstate * json_tokener * jptr :=
  let m :=
    if (c m =? 0) && negb (bool_decide (state m = state_finish))
       && negb (bool_decide (saved_state m = state_finish))
    then set_error json_tokener_error_parse_eof m else m in
  if bool_decide (err (tok m) = json_tokener_success) then
    let ret := current m in
    let h := jo_get (heap m) ret in
    let '(h, t) := reset_levels (Z.to_nat (depth (tok m))) h (tok m) in
    (h, t, ret)
  else (heap m, tok m, jnull).

Definition json_tokener_parse_ex (h : jstate) (t : json_tokener) (s : bytes)
  : option (jstate * json_tokener * jptr) :=
  let t := set_err json_tokener_success (set_char_offset 0 t) in
  let '(m, go) := PEEK_CHAR (Mach t h s 1 jnull) in
  match (if go then run (fuel_for s) m else Some m) with
  | Some m => Some (parse_out m)
  | None => None
  end.

End Parse.

(** [json_tokener_parse_verbose] and what it stores in [*error]: without a
    tokener it returns NULL and leaves [*error] alone; a tokener without a
    buffer is used all the same. *)
Inductive verbose_result :=
| VNoTokener
| VNullPb
| VParsed (h : jstate) (error : json_tokener_error) (o : jptr).

(** The outer [option] is that of the parser. *)
Definition json_tokener_parse_verbose (h : jstate) (s : bytes) : option verbose_result :=
  match json_tokener_new h with
  | NewNull => Some VNoTokener
  | NewWithoutPb => Some VNullPb
  | New h t =>
      match json_tokener_parse_ex (-1) h t s with
      | None => None
      | Some (h, t, o) =>
          let '(h, o) :=
            if bool_decide (err t = json_tokener_success) then (h, o)
            else (jo_put h o, jnull) in
          Some (VParsed (json_tokener_free h t) (err t) o)
      end
  end.

(** [json_tokener_parse]: the same, the error code dropped. *)
Definition json_tokener_parse (h : jstate) (s : bytes) : option (jstate * jptr) :=
  match json_tokener_parse_verbose h s with
  | Some (VParsed h _ o) => Some (h, o)
  | Some VNoTokener => Some (h, jnull)
  | _ => None
  end.

End Tokener.

(** [strndup], compiled where the C library lacks it. *)
Definition strndup {al : Allocator} (s : option bytes) (n : Z) : option bytes :=
  match s with
  | None => None
  | Some s =>
      let nn := Z.min (strlen s) n in
      if malloc_ok (nn + 1) then Some (take (Z.to_nat nn) s ++ [0]) else None
  end.


End JsonTokener.
