(* ===== verification/JsonValue.v ===== *)
(** * JSON values: the objects of json-c seen as trees

    [json] is the tree a [struct json_object] spans; [value_ops] implements
    the interface of the parser on trees.  Reference counts have no meaning
    here and [jo_get]/[jo_put] do nothing. *)

From S2P Require Import Prelude JsonUtil JsonTokener.
From Stdlib Require Import ZArith Lia String.
From stdpp Require Import base list numbers option.

Open Scope Z_scope.
Set Warnings "-register-all".

Module JsonValue.
Import JsonUtil.

(** [JNull] is the null pointer.  A boolean is the [int] stored. *)
Inductive json `{DoubleOps} :=
| JNull
| JBool (b : Z)
| JInt (n : Z)
| JDouble (d : double)
| JString (s : bytes)
| JArray (vs : list json)
| JObject (fields : list (bytes * json)).

Section Values.
Context `{DoubleOps}.

(** [json_object_get_type]. *)
Definition type_of (v : json) : json_type :=
  match v with
  | JNull => json_type_null
  | JBool _ => json_type_boolean
  | JInt _ => json_type_int
  | JDouble _ => json_type_double
  | JString _ => json_type_string
  | JArray _ => json_type_array
  | JObject _ => json_type_object
  end.

(** [json_object_object_add]: an existing field keeps its place. *)
Fixpoint set_field (fs : list (bytes * json)) (k : bytes) (v : json) : list (bytes * json) :=
  match fs with
  | [] => [(k, v)]
  | (k', v') :: fs' => if bool_decide (k' = k) then (k', v) :: fs' else (k', v') :: set_field fs' k v
  end.

#[export] Instance value_ops : JsonOps := {
  jstate := unit;
  jptr := json;
  jnull := JNull;
  jo_new_object s := (s, JObject []);
  jo_new_array s := (s, JArray []);
  jo_new_boolean s b := (s, JBool b);
  jo_new_int64 s n := (s, JInt n);
  jo_new_double s d := (s, JDouble d);
  jo_new_string_len s b := (s, JString b);
  jo_get s _ := s;
  jo_put s _ := s;
  jo_array_add s a v := (s, match a with JArray vs => JArray (vs ++ [v]) | _ => a end);
  jo_object_add s o k v := (s, match o with JObject fs => JObject (set_field fs k v) | _ => o end)
}.

(** Induction on a tree, with the hypothesis for every child. *)
Lemma json_tree_ind (P : json -> Prop) :
  P JNull -> (forall b, P (JBool b)) -> (forall n, P (JInt n)) -> (forall d, P (JDouble d)) ->
  (forall s, P (JString s)) ->
  (forall vs, Forall P vs -> P (JArray vs)) ->
  (forall fs, Forall (fun kv => P (snd kv)) fs -> P (JObject fs)) ->
  forall v, P v.
Proof.
  intros HN HB HI HD HS HA HO. fix IH 1. intros [ | | | | | vs | fs].
  - exact HN.
  - apply HB.
  - apply HI.
  - apply HD.
  - apply HS.
  - apply HA. induction vs as [|v vs IHvs]; constructor; [apply IH|exact IHvs].
  - apply HO. induction fs as [|[k v] fs IHfs]; constructor; [apply IH|exact IHfs].
Qed.

End Values.

(** A double as its decimal text, for examples. *)
Definition text_double : DoubleOps :=
  {| double := bytes; scan_double := fun b => Some b; print_double := fun d => d |}.

End JsonValue.
