(* ===== verification/TokenerInv.v ===== *)
(** * The control invariant of the JSON parser, and that it terminates

    [tokener_ok] is what holds of a tokener between calls and at every turn of
    the main loop: the depth is inside the stack, the levels below the top wait
    for a value, the levels above it hold no object, and the saved state of
    the top level is one the current state may return to.  Every [case] keeps
    it, and either consumes input or lowers [rank], so the loop terminates. *)

From S2P Require Import Prelude Printbuf JsonUtil JsonTokener JsonValue.
From Stdlib Require Import ZArith Lia String.
From stdpp Require Import base list numbers option relations.

Open Scope Z_scope.

Module TokenerInv.
Import Printbuf JsonUtil JsonTokener.
Import JsonValue(text_double).

(** ** Which states may be saved *)

(** States entered through white space. *)
Definition ws_target (s : json_tokener_state) : bool :=
  match s with
  | state_start | state_finish | state_array | state_array_after_sep | state_array_sep
  | state_object_field_start | state_object_field_start_after_sep
  | state_object_field_end | state_object_value | state_object_sep => true
  | _ => false
  end.

(** White space and comments: the state to go on with is the saved one. *)
Definition ws_like (s : json_tokener_state) : bool :=
  match s with
  | state_eatws | state_comment_start | state_comment | state_comment_eol
  | state_comment_end => true
  | _ => false
  end.

Definition in_escape (s : json_tokener_state) : bool :=
  match s with state_string_escape | state_escape_unicode => true | _ => false end.

(** The field name has been read and its value has not been added yet. *)
Definition needs_name (s : json_tokener_state) : bool :=
  match s with
  | state_object_field_end | state_object_value | state_object_value_add => true
  | _ => false
  end.

(** Upper bound on the number of [goto redo_char] from a state. *)
Definition rank1 (s : json_tokener_state) : Z :=
  match s with
  | state_array_add | state_object_value_add => 3
  | state_finish => 4
  | state_null | state_boolean | state_number => 6
  | state_start => 7
  | state_array | state_array_after_sep | state_object_value => 9
  | _ => 1
  end.

Lemma rank1_range s : 1 <= rank1 s <= 9.
Proof. destruct s; simpl; lia. Qed.

(** Whether the field names that are needed are there: they may be NULL when
    [strdup] had no memory. *)
Class Named := named : bool.

Section Inv.
Context {al : Allocator} `{JsonOps} {N : Named}.
Implicit Types (m : mach) (t : json_tokener) (r : json_tokener_srec).

(** A level below the top: it waits for the value being parsed. *)
Definition pending r : Prop :=
  sr_state r = state_array_add \/
  (sr_state r = state_object_value_add /\ (named = true -> is_Some (sr_obj_field_name r))).

Definition top_ok r : Prop :=
  (ws_like (sr_state r) = true -> ws_target (sr_saved_state r) = true) /\
  (in_escape (sr_state r) = true ->
   sr_saved_state r = state_string \/ sr_saved_state r = state_object_field) /\
  (needs_name (if ws_like (sr_state r) then sr_saved_state r else sr_state r) = true ->
   named = true -> is_Some (sr_obj_field_name r)).

Record frame_ok t : Prop := {
  fo_depth : 0 <= depth t < max_depth t;
  fo_len : zlen (stack t) = max_depth t;
  fo_below : forall i r, Z.of_nat i < depth t -> stack t !! i = Some r -> pending r;
  fo_above : forall i r, depth t < Z.of_nat i -> stack t !! i = Some r ->
             sr_current r = jnull
}.

Definition tokener_ok t : Prop := frame_ok t /\ top_ok (top t).

(** At the label [redo_char], [c] is the byte [str] points to. *)
Definition mach_ok m : Prop := tokener_ok (tok m) /\ c m = hd 0 (cur m).

Definition rank m : Z :=
  if bool_decide (state m = state_eatws) then 1 + rank1 (saved_state m) else rank1 (state m).

(** ** How the updates act on the frame and the top level *)

Lemma frame_same t t' :
  depth t' = depth t -> max_depth t' = max_depth t -> stack t' = stack t ->
  frame_ok t -> frame_ok t'.
Proof. intros E1 E2 E3 [? ? ? ?]. split; rewrite ?E1, ?E2, ?E3; done. Qed.

Lemma frame_upd_top f m : frame_ok (tok m) -> frame_ok (tok (upd_top f m)).
Proof.
  intros [Hd Hl Hb Ha]. split; simpl; try done.
  - unfold zlen. rewrite length_insert. done.
  - intros i r Hi. rewrite list_lookup_insert_ne by lia. eauto.
  - intros i r Hi. rewrite list_lookup_insert_ne by lia. eauto.
Qed.

Lemma top_upd_top f m : frame_ok (tok m) -> top (tok (upd_top f m)) = f (top (tok m)).
Proof.
  intros [Hd Hl _ _]. unfold top at 1, level. simpl.
  rewrite list_lookup_insert_eq; [done|]. unfold zlen in Hl. lia.
Qed.

Lemma top_same t t' : depth t' = depth t -> stack t' = stack t -> top t' = top t.
Proof. intros E1 E2. unfold top, level. by rewrite E1, E2. Qed.

(** A machine whose tokener differs from [t] in none of depth and stack. *)
Definition agree t m : Prop :=
  depth (tok m) = depth t /\ max_depth (tok m) = max_depth t /\ stack (tok m) = stack t.

Lemma agree_frame t m : agree t m -> frame_ok t -> frame_ok (tok m).
Proof. intros (? & ? & ?). by apply frame_same. Qed.

Lemma agree_top t m : agree t m -> top (tok m) = top t.
Proof. intros (? & ? & ?). by apply top_same. Qed.

(** ** Advancing *)

Lemma PEEK_CHAR_spec len m m' go :
  PEEK_CHAR len m = (m', go) ->
  agree (tok m) m' /\ cur m' = cur m /\ heap m' = heap m /\ obj m' = obj m /\
  (if go then c m' = hd 0 (cur m) else c m' = c m).
Proof.
  unfold PEEK_CHAR. destruct (_ =? len); [destruct (_ && _)|]; intros [= <- <-]; done.
Qed.

Lemma ADVANCE_PEEK_spec len m m' go :
  ADVANCE_PEEK len m = (m', go) ->
  agree (tok m) m' /\ cur m' = tl (cur m) /\ heap m' = heap m /\ obj m' = obj m /\
  (if go then c m' = hd 0 (cur m') /\ c m <> 0 else c m' = c m).
Proof.
  unfold ADVANCE_PEEK. simpl. case_test; bool_to_prop.
  - intros [= <- <-]. done.
  - intros E. apply PEEK_CHAR_spec in E as (Hag & Hcur & Hh & Ho & Hc). simpl in *.
    split_and!; try done. rewrite Hcur. by destruct go.
Qed.

Lemma advance_while_spec len fuel test m m' ok :
  c m = hd 0 (cur m) -> advance_while len fuel test m = (m', ok) ->
  agree (tok m) m' /\ heap m' = heap m /\ obj m' = obj m /\
  (length (cur m') <= length (cur m))%nat /\
  (ok = true -> c m' = hd 0 (cur m') /\ test (c m') = false).
Proof.
  revert m. induction fuel as [|fuel IH]; intros m Hc; simpl; case_test.
  - intros [= <- <-]. done.
  - intros [= <- <-]. done.
  - destruct (ADVANCE_PEEK len m) as [m1 go] eqn:E.
    apply ADVANCE_PEEK_spec in E as (Hag & Hcur & Hh & Ho & Hgo).
    assert (length (cur m1) <= length (cur m))%nat by (rewrite Hcur; destruct (cur m); simpl; lia).
    destruct go; [|intros [= <- <-]; done].
    intros E. destruct Hgo as [Hc1 _]. destruct (IH m1 Hc1 E) as ((? & ? & ?) & ? & ? & ? & ?).
    destruct Hag as (? & ? & ?). unfold agree. split_and!; try done; try congruence. lia.
  - intros [= <- <-]. done.
Qed.

(** The fuel of the inner loops is never used up: one more unit changes
    nothing. *)
Lemma advance_while_fuel len fuel test m :
  c m = hd 0 (cur m) -> (length (cur m) < fuel)%nat ->
  advance_while len (S fuel) test m = advance_while len fuel test m.
Proof.
  revert m. induction fuel as [|fuel IH]; intros m Hc Hf; [lia|].
  cbn [advance_while]. case_test; [|done].
  destruct (ADVANCE_PEEK len m) as [m1 go] eqn:E. destruct go; [|done].
  apply ADVANCE_PEEK_spec in E as (_ & Hcur & _ & _ & Hc1 & Hnz).
  apply (IH m1 Hc1). rewrite Hcur. destruct (cur m) as [|x l]; simpl in *; [done|lia].
Qed.

(** ** The updates of the cases *)

Lemma frame_quiet f m :
  depth (f (tok m)) = depth (tok m) -> max_depth (f (tok m)) = max_depth (tok m) ->
  stack (f (tok m)) = stack (tok m) -> frame_ok (tok m) -> frame_ok (tok (upd_tok f m)).
Proof. apply frame_same. Qed.

Lemma top_quiet f m :
  depth (f (tok m)) = depth (tok m) -> stack (f (tok m)) = stack (tok m) ->
  top (tok (upd_tok f m)) = top (tok m).
Proof. apply top_same. Qed.

Lemma frame_heap h m : frame_ok (tok m) -> frame_ok (tok (set_heap h m)).
Proof. done. Qed.

Lemma top_heap h m : top (tok (set_heap h m)) = top (tok m).
Proof. done. Qed.

(** What a case owes: the invariant, no input put back, and progress. *)
Definition good m (res : outcome * mach) : Prop :=
  tokener_ok (tok (snd res)) /\ (length (cur (snd res)) <= length (cur m))%nat /\
  match fst res with
  | Redo => c (snd res) = hd 0 (cur (snd res)) /\ rank (snd res) < rank m
  | Break => c (snd res) = hd 0 (cur (snd res))
  | Out => True
  | Crash => named = false
  end.

End Inv.

(** [frame] shows that a chain of updates keeps the frame, [tops] computes the
    top level it leaves. *)
Ltac frame :=
  repeat first
    [ eassumption
    | apply frame_heap
    | apply frame_upd_top
    | apply frame_quiet; [reflexivity..|] ].

Ltac unfold_updates :=
  unfold set_states, set_state, set_saved_state, set_current, set_obj_field_name,
    set_error, reset_pb, append in *.

Ltac tops :=
  repeat first
    [ rewrite top_heap
    | rewrite top_upd_top by frame
    | rewrite top_quiet by reflexivity
    | match goal with E : top (tok ?m1) = top (tok _) |- context [top (tok ?m1)] => rewrite E end ].

Ltac ranks :=
  unfold rank, state, saved_state in *; unfold_updates; tops; simpl;
  repeat match goal with H : sr_state (top (tok ?m)) = _ |- _ => rewrite H end; simpl; try lia.

(** A top level given by its fields. *)
Ltac top_fields :=
  unfold_updates; tops; first [assumption | unfold top_ok; simpl];
  unfold state, saved_state in *;
  repeat match goal with H : sr_state (top (tok ?m)) = _ |- _ => rewrite H end; simpl;
  split_and?; intros; first [discriminate | assumption | eauto].

(** Close the goal [good m (o, m')] of one branch of a case. *)
Ltac branch :=
  unfold good; cbn [fst snd]; split; [split; [unfold_updates; frame | top_fields]|];
  split; [simpl; lia|]; try exact I; try (simpl; assumption);
  try (split; [simpl; assumption|ranks]).

Section Cases.
Context {al : Allocator} `{JsonOps} {N : Named} (len : Z).
Implicit Types (m : mach).

Lemma case_start_good m : mach_ok m -> state m = state_start -> good m (case_start m).
Proof.
  intros [[Hf Ht] Hc] Hs. unfold case_start.
  destruct (jo_new_object (heap m)), (jo_new_array (heap m)).
  repeat case_test; branch.
Qed.

Lemma case_null_good m : mach_ok m -> state m = state_null -> good m (case_null m).
Proof. intros [[Hf Ht] Hc] Hs. unfold case_null. repeat case_test; branch. Qed.

Lemma case_boolean_good m : mach_ok m -> state m = state_boolean -> good m (case_boolean m).
Proof.
  intros [[Hf Ht] Hc] Hs. unfold case_boolean.
  destruct (jo_new_boolean _ 1), (jo_new_boolean _ 0). repeat case_test; branch.
Qed.

Lemma case_comment_start_good m :
  mach_ok m -> state m = state_comment_start -> good m (case_comment_start m).
Proof.
  intros [[Hf Ht] Hc] Hs. unfold case_comment_start. pose proof Ht as (H1 & H2 & H3).
  unfold state in Hs. rewrite Hs in *. repeat case_test; branch.
Qed.

Lemma case_comment_end_good m :
  mach_ok m -> state m = state_comment_end -> good m (case_comment_end m).
Proof.
  intros [[Hf Ht] Hc] Hs. unfold case_comment_end. pose proof Ht as (H1 & H2 & H3).
  unfold state in Hs. rewrite Hs in *. repeat case_test; branch.
Qed.

Lemma case_string_escape_good m :
  mach_ok m -> state m = state_string_escape -> good m (case_string_escape m).
Proof.
  intros [[Hf Ht] Hc] Hs. unfold case_string_escape. pose proof Ht as (H1 & H2 & H3).
  unfold state in Hs. rewrite Hs in *. unfold saved_state.
  destruct (H2 eq_refl) as [E|E]; rewrite E; repeat case_test; branch.
Qed.

Lemma case_array_sep_good m : mach_ok m -> state m = state_array_sep -> good m (case_array_sep m).
Proof. intros [[Hf Ht] Hc] Hs. unfold case_array_sep. repeat case_test; branch. Qed.

Lemma case_object_sep_good m :
  mach_ok m -> state m = state_object_sep -> good m (case_object_sep m).
Proof. intros [[Hf Ht] Hc] Hs. unfold case_object_sep. repeat case_test; branch. Qed.

Lemma case_object_field_start_good m :
  mach_ok m -> state m = state_object_field_start \/ state m = state_object_field_start_after_sep ->
  good m (case_object_field_start m).
Proof.
  intros [[Hf Ht] Hc] Hs. unfold case_object_field_start. repeat case_test; branch.
Qed.

Lemma case_object_field_end_good m :
  mach_ok m -> state m = state_object_field_end -> good m (case_object_field_end m).
Proof.
  intros [[Hf Ht] Hc] Hs. unfold case_object_field_end. pose proof Ht as (H1 & H2 & H3).
  unfold state in Hs. rewrite Hs in *. repeat case_test; branch.
Qed.

Lemma case_array_add_good m : mach_ok m -> state m = state_array_add -> good m (case_array_add m).
Proof. intros [[Hf Ht] Hc] Hs. unfold case_array_add. destruct (jo_array_add _ _ _). branch. Qed.

Lemma case_object_value_add_good m :
  mach_ok m -> state m = state_object_value_add -> good m (case_object_value_add m).
Proof.
  intros [[Hf Ht] Hc] Hs. unfold case_object_value_add. pose proof Ht as (_ & _ & Hname). destruct (obj_field_name m) as [name|] eqn:E.
  - destruct (jo_object_add _ _ _ _). branch.
  - split; [done|]. split; [done|]. cbn [fst]. unfold state in Hs. rewrite Hs in Hname. unfold obj_field_name in E. rewrite E in Hname.
    destruct named; [|done]. by destruct (Hname eq_refl eq_refl).
Qed.

(** *** The cases that scan *)

Lemma scan_frame test m m' ok :
  mach_ok m -> scan_while len test m = (m', ok) ->
  frame_ok (tok m') /\ top (tok m') = top (tok m) /\
  (length (cur m') <= length (cur m))%nat /\
  (ok = true -> c m' = hd 0 (cur m') /\ test (c m') = false).
Proof.
  intros [[Hf Ht] Hc] E. apply advance_while_spec in E as (Hag & _ & _ & Hl & Hok); [|done].
  split_and!; [by eapply agree_frame|by apply agree_top|done|done].
Qed.

(** Run the loop of a case from [m]. *)
Ltac run_scan m :=
  let m1 := fresh "m1" in let ok := fresh "ok" in let E := fresh "E" in
  destruct (scan_while _ _ m) as [m1 ok] eqn:E;
  apply scan_frame in E as (Hf & Htop & Hl & Hok); [|done].

Lemma case_eatws_good m : mach_ok m -> state m = state_eatws -> good m (case_eatws len m).
Proof.
  intros Hm Hs. unfold case_eatws. run_scan m.
  destruct Hm as [[Hf0 Ht] Hc]. pose proof Ht as (H1 & H2 & H3).
  unfold state in Hs. rewrite Hs in *. simpl in H1, H3.
  destruct ok; cbn [negb]; [destruct Hok as [Hc1 _]; [done|]|].
  2: { branch. }
  destruct (c m1 =? 47).
  { branch. }
  unfold saved_state. rewrite Htop.
  unfold good; cbn [fst snd]. split.
  { split; [unfold_updates; frame|]. unfold_updates; tops. unfold top_ok. simpl.
    specialize (H1 eq_refl).
    destruct (sr_saved_state (top (tok m))) eqn:Es; try discriminate H1; simpl in *;
      split_and!; intros; try discriminate; auto. }
  split; [simpl; lia|]. split; [done|].
  unfold rank, state, saved_state. unfold_updates. tops. simpl. rewrite Hs. simpl.
  specialize (H1 eq_refl).
  destruct (sr_saved_state (top (tok m))) eqn:Es; try discriminate H1; simpl; lia.
Qed.

Lemma case_comment_good m : mach_ok m -> state m = state_comment -> good m (case_comment len m).
Proof.
  intros Hm Hs. unfold case_comment. run_scan m.
  destruct Hm as [[Hf0 Ht] Hc]. pose proof Ht as (H1 & H2 & H3).
  unfold state in Hs. rewrite Hs in *.
  destruct ok; cbn [negb]; [destruct Hok as [Hc1 _]; [done|]|]; branch.
Qed.

Lemma case_comment_eol_good m :
  mach_ok m -> state m = state_comment_eol -> good m (case_comment_eol len m).
Proof.
  intros Hm Hs. unfold case_comment_eol. run_scan m.
  destruct Hm as [[Hf0 Ht] Hc]. pose proof Ht as (H1 & H2 & H3).
  unfold state in Hs. rewrite Hs in *.
  destruct ok; cbn [negb]; [destruct Hok as [Hc1 _]; [done|]|]; branch.
Qed.

Lemma case_string_good m : mach_ok m -> state m = state_string -> good m (case_string len m).
Proof.
  intros Hm Hs. unfold case_string. run_scan m.
  destruct Hm as [[Hf0 Ht] Hc]. destruct (jo_new_string_len _ _).
  destruct ok; cbn [negb]; [destruct Hok as [Hc1 _]; [done|]|]; [case_test|]; branch.
Qed.

(** The field name ends here and there is no memory for its copy. *)
Definition lost_at m : Prop := state m = state_object_field /\
  let '(m', ok) := scan_while len (in_text (quote_char (tok m))) m in
  ok = true /\ c m' = quote_char (tok m) /\ strdup (buf (pb (tok (append (since m m') m')))) = None.

#[export] Instance lost_at_dec m : Decision (lost_at m).
Proof.
  unfold lost_at. destruct (scan_while len _ m) as [m' ok]. apply and_dec; [solve_decision|]. apply and_dec; [solve_decision|]. apply and_dec; solve_decision.
Defined.

Lemma case_object_field_good m : mach_ok m -> state m = state_object_field -> (named = true -> ~ lost_at m) -> good m (case_object_field len m).
Proof.
  intros Hm Hs Hlost. unfold lost_at in Hlost. unfold case_object_field. run_scan m.
  destruct Hm as [[Hf0 Ht] Hc].
  destruct ok; cbn [negb]; [destruct Hok as [Hc1 _]; [done|]|]; [|branch]. case_test; [|branch]. bool_to_prop.
  assert (named = true -> is_Some (strdup (buf (pb (tok (append (since m m1) m1)))))) as Hname.
  { intros HN. destruct (strdup _) eqn:E; [done|]. destruct (Hlost HN). done. }
  branch.
Qed.

Lemma case_number_good m : mach_ok m -> state m = state_number -> good m (case_number len m).
Proof.
  intros Hm Hs. unfold case_number. run_scan m.
  destruct Hm as [[Hf0 Ht] Hc].
  destruct ok; cbn [negb]; [destruct Hok as [Hc1 _]; [done|]|]; [|branch].
  destruct (zlen _ >? 0).
  all: case_test.
  1,3: destruct (scan_double _) as [d|]; [destruct (jo_new_double _ d)|]; branch.
  all: destruct (parse_int64 _) as [n|]; [destruct (jo_new_int64 _ n)|]; branch.
Qed.

(** *** The cases that change the depth *)

Definition fresh_level : json_tokener_srec :=
  {| sr_state := state_eatws; sr_saved_state := state_start;
     sr_current := jnull; sr_obj_field_name := None |}.

Lemma top_ok_fresh : top_ok fresh_level.
Proof. unfold top_ok. simpl. split_and!; intros; done || discriminate. Qed.

Lemma push_level_frame m :
  frame_ok (tok m) -> depth (tok m) < max_depth (tok m) - 1 -> pending (top (tok m)) ->
  frame_ok (tok (push_level m)) /\ top (tok (push_level m)) = fresh_level.
Proof.
  intros [Hd Hl Hb Ha] Hlt Hp. split; [split|]; simpl.
  - lia.
  - unfold zlen. by rewrite length_insert.
  - intros i r Hi. rewrite list_lookup_insert_ne by lia. intros Hr.
    destruct (decide (Z.of_nat i = depth (tok m))) as [E|].
    + unfold top, level in Hp. rewrite <- E, Nat2Z.id, Hr in Hp. done.
    + eapply Hb; [|exact Hr]. lia.
  - intros i r Hi. rewrite list_lookup_insert_ne by lia. apply Ha. lia.
  - unfold top, level. simpl. rewrite list_lookup_insert_eq; [done|]. unfold zlen in Hl. lia.
Qed.

Lemma push_good m m' :
  frame_ok (tok m') -> depth (tok m') < max_depth (tok m') - 1 -> pending (top (tok m')) ->
  cur m' = cur m -> c m' = hd 0 (cur m') -> 8 < rank m -> good m (Redo, push_level m').
Proof.
  intros Hf Hd Hp Hcur Hc Hr. destruct (push_level_frame m' Hf Hd Hp) as [Hf' Ht'].
  split; cbn [fst snd]; [split; [done|rewrite Ht'; apply top_ok_fresh]|].
  split; [simpl; rewrite Hcur; lia|]. split; [done|].
  enough (rank (push_level m') = 8) by (cbn [snd]; lia).
  unfold rank, state, saved_state. by rewrite Ht'.
Qed.

Lemma case_array_good m :
  mach_ok m -> state m = state_array \/ state m = state_array_after_sep -> good m (case_array m).
Proof.
  intros [[Hf Ht] Hc] Hs. unfold case_array. case_test; [case_test; branch|].
  destruct (Z.geb_spec (depth (tok m)) (max_depth (tok m) - 1)); [branch|].
  apply push_good; [unfold_updates; frame|simpl; lia| |done|done|].
  - unfold_updates; tops. by left.
  - unfold rank. destruct Hs as [->| ->]; simpl; lia.
Qed.

Lemma case_object_value_good m :
  mach_ok m -> state m = state_object_value -> good m (case_object_value m).
Proof.
  intros [[Hf Ht] Hc] Hs. unfold case_object_value. pose proof Ht as (H1 & H2 & H3).
  destruct (Z.geb_spec (depth (tok m)) (max_depth (tok m) - 1)); [branch|].
  apply push_good; [unfold_updates; frame|simpl; lia| |done|done|].
  - unfold_updates; tops. right. split; [done|]. apply H3. unfold state in Hs. by rewrite Hs.
  - unfold rank. rewrite Hs. simpl. lia.
Qed.

Lemma pending_rank m : pending (top (tok m)) -> top_ok (top (tok m)) /\ rank m = 3.
Proof.
  unfold top_ok, rank, state. intros [E|[E Hn]]; rewrite E; simpl; split; try done;
    split_and!; intros; done || discriminate.
Qed.

Lemma case_finish_good m : mach_ok m -> state m = state_finish -> good m (case_finish m).
Proof.
  intros [[Hf Ht] Hc] Hs. unfold case_finish.
  destruct (Z.eqb_spec (depth (tok m)) 0); [branch|]. simpl.
  destruct Hf as [Hd Hl Hb Ha].
  set (m' := Mach _ _ _ _ _).
  assert (frame_ok (tok m')) as Hf'.
  { split; simpl.
    - lia.
    - unfold zlen. by rewrite length_insert.
    - intros i r Hi. rewrite list_lookup_insert_ne by lia. apply Hb. lia.
    - intros i r Hi. destruct (decide (i = Z.to_nat (depth (tok m)))) as [->|].
      + rewrite list_lookup_insert_eq by (unfold zlen in Hl; lia). by intros [= <-].
      + rewrite list_lookup_insert_ne by lia. apply Ha. lia. }
  assert (pending (top (tok m'))) as Hp.
  { unfold top, level. simpl. rewrite list_lookup_insert_ne by lia.
    destruct (lookup_lt_is_Some_2 (stack (tok m)) (Z.to_nat (depth (tok m) - 1))) as [r Hr].
    { unfold zlen in Hl. lia. }
    rewrite Hr. simpl. eapply Hb; [|exact Hr]. lia. }
  destruct (pending_rank m' Hp) as [Ht' Hr'].
  split; [split; done|]. split; [simpl; lia|]. split; [done|]. cbn [snd].
  rewrite Hr'. unfold rank. rewrite Hs. simpl. lia.
Qed.

(** *** Unicode escapes *)

(** The level a finished escape returns to. *)
Lemma escape_done_good m m' d :
  frame_ok (tok m') -> top (tok m') = top (tok m) ->
  sr_saved_state (top (tok m)) = state_string \/ sr_saved_state (top (tok m)) = state_object_field ->
  (length (cur m') <= length (cur m))%nat -> c m' = hd 0 (cur m') ->
  good m (Break, set_state (saved_state m') (append d m')).
Proof.
  intros Hf Htop Hs Hl Hc. unfold saved_state. rewrite Htop.
  destruct Hs as [E|E]; rewrite E; branch.
Qed.

Lemma escape_out_good m m' :
  frame_ok (tok m') -> top (tok m') = top (tok m) -> top_ok (top (tok m)) ->
  (length (cur m') <= length (cur m))%nat -> good m (Out, m').
Proof.
  intros Hf Htop Ht Hl. split; [split; [done|by rewrite <- Htop in Ht]|]. split; [done|exact I].
Qed.

Lemma sequence_end_good hi m0 m :
  frame_ok (tok m) -> top (tok m) = top (tok m0) -> top_ok (top (tok m0)) ->
  sr_saved_state (top (tok m0)) = state_string \/ sr_saved_state (top (tok m0)) = state_object_field ->
  (length (cur m) <= length (cur m0))%nat -> c m = hd 0 (cur m) ->
  match sequence_end len hi m with
  | inr res => good m0 res
  | inl (_, m') => frame_ok (tok m') /\ top (tok m') = top (tok m0) /\
      (length (cur m') < length (cur m))%nat /\ c m' = hd 0 (cur m')
  end.
Proof.
  intros Hf Htop Ht Hs Hl Hc. unfold sequence_end.
  set (m1 := if negb (hi =? 0) then _ else m).
  assert (frame_ok (tok m1) /\ top (tok m1) = top (tok m0) /\ cur m1 = cur m /\ c m1 = c m)
    as (Hf1 & Htop1 & Hcur1 & Hc1).
  { unfold m1. destruct (negb (hi =? 0)); [|done]. destruct (IS_LOW_SURROGATE _).
    - split_and!; [frame|by tops|done..].
    - unfold append. split_and!; [frame|by tops|done..]. }
  clearbody m1. rewrite <- Hcur1 in Hl, Hc |- *. rewrite <- Hc1 in Hc. clear m Hf Htop Hc1 Hcur1.
  destruct (_ && IS_HIGH_SURROGATE _).
  2: { destruct (_ && IS_LOW_SURROGATE _); by apply escape_done_good. }
  unfold next_sequence. destruct (_ && _) eqn:Enext; [|by apply escape_done_good].
  bool_to_prop.
  set (m2 := if c (ADVANCE_CHAR m1) =? 0 then _ else _).
  assert (frame_ok (tok m2) /\ top (tok m2) = top (tok m0) /\
          (length (cur m2) < length (cur m1))%nat /\
          (c m2 <> 0 -> True)) as (Hf2 & Htop2 & Hl2 & _).
  { assert (length (cur m1) <> 0)%nat by (destruct (cur m1); done).
    unfold m2, append. repeat case_test; split_and!; try done; simpl;
      try (destruct (cur m1) as [|? [|]]; simpl in *; lia).
    all: try (apply frame_quiet; [reflexivity..|]).
    all: try (apply (frame_same (tok m1)); done).
    all: rewrite ?top_quiet by reflexivity; done. }
  clearbody m2. destruct (ADVANCE_PEEK len m2) as [m3 go] eqn:E.
  apply ADVANCE_PEEK_spec in E as (Hag & Hcur & _ & _ & Hgo).
  pose proof (agree_frame _ _ Hag Hf2). pose proof (agree_top _ _ Hag) as Htop3.
  rewrite Htop2 in Htop3.
  assert (length (cur m3) <= length (cur m2))%nat by (rewrite Hcur; destruct (cur m2); simpl; lia).
  destruct go.
  - split_and!; [frame|by tops|simpl; lia|apply Hgo].
  - unfold append. apply escape_out_good; [frame|by tops|done|simpl; lia].
Qed.

Lemma unicode_loop_good fuel hi m0 m :
  frame_ok (tok m) -> top (tok m) = top (tok m0) -> top_ok (top (tok m0)) ->
  sr_saved_state (top (tok m0)) = state_string \/ sr_saved_state (top (tok m0)) = state_object_field ->
  (length (cur m) <= length (cur m0))%nat -> c m = hd 0 (cur m) ->
  good m0 (unicode_loop len fuel hi m).
Proof.
  revert hi m. induction fuel as [|fuel IH]; intros hi m Hf Htop Ht Hs Hl Hc; cbn [unicode_loop]; try unfold unicode_body.
  { by apply escape_out_good. }
  destruct (strchr json_hex_chars (c m)).
  2: { apply escape_out_good; [unfold set_error; frame|unfold set_error; by tops|done|done]. }
  set (m1 := upd_tok (set_st_pos _) _).
  assert (frame_ok (tok m1)) as Hf1 by (unfold m1; frame).
  assert (top (tok m1) = top (tok m0)) as Htop1 by (unfold m1; by tops).
  assert (cur m1 = cur m /\ c m1 = c m) as [Hcur1 Hc1] by done. clearbody m1.
  rewrite <- Hcur1 in *. rewrite <- Hc1 in Hc. destruct (_ =? 4).
  - pose proof (sequence_end_good hi m0 m1 Hf1 Htop1 Ht Hs Hl Hc) as Hend.
    destruct (sequence_end len hi m1) as [[hi' m']|res]; [|done].
    destruct Hend as (? & ? & ? & ?). apply IH; done || lia.
  - destruct (ADVANCE_PEEK len m1) as [m2 go] eqn:E.
    apply ADVANCE_PEEK_spec in E as (Hag & Hcur & _ & _ & Hgo).
    pose proof (agree_frame _ _ Hag Hf1). pose proof (agree_top _ _ Hag) as Htop2.
    rewrite Htop1 in Htop2.
    assert (length (cur m2) <= length (cur m0))%nat by (rewrite Hcur; destruct (cur m1); simpl in *; lia).
    destruct go; [apply IH; done || apply Hgo|].
    destruct (negb (hi =? 0)); unfold append;
      (apply escape_out_good; [frame|by tops|done|simpl; lia]).
Qed.

Lemma case_escape_unicode_good m :
  mach_ok m -> state m = state_escape_unicode -> good m (case_escape_unicode len m).
Proof.
  intros [[Hf Ht] Hc] Hs. apply unicode_loop_good; try done.
  apply Ht. unfold state in Hs. by rewrite Hs.
Qed.

(** The fuel of the escape loop is never used up either. *)
Lemma sequence_end_shorter hi m hi' m' :
  c m = hd 0 (cur m) -> sequence_end len hi m = inl (hi', m') ->
  c m' = hd 0 (cur m') /\ (length (cur m') < length (cur m))%nat.
Proof.
  intros Hc. unfold sequence_end.
  set (m1 := if negb (hi =? 0) then _ else m).
  assert (cur m1 = cur m) as Hcur1 by (unfold m1; repeat case_test; done).
  clearbody m1. destruct (_ && _); [|destruct (_ && _); discriminate].
  unfold next_sequence. destruct (_ && _) eqn:En; [|discriminate].
  bool_to_prop. set (m2 := if c (ADVANCE_CHAR m1) =? 0 then _ else _).
  assert (length (cur m2) < length (cur m1))%nat as Hl.
  { unfold m2. destruct (cur m1) as [|? l] eqn:E1; [done|].
    repeat case_test; simpl; rewrite E1; simpl; try lia; destruct l; simpl; lia. }
  clearbody m2. destruct (ADVANCE_PEEK len m2) as [m3 go] eqn:E. destruct go; [|discriminate].
  intros [= _ <-]. apply ADVANCE_PEEK_spec in E as (_ & Hcur & _ & _ & Hgo & _). simpl.
  split; [done|]. rewrite Hcur, <- Hcur1. destruct (cur m2); simpl in *; lia.
Qed.

Lemma unicode_loop_fuel fuel hi m :
  c m = hd 0 (cur m) -> (length (cur m) < fuel)%nat ->
  unicode_loop len (S fuel) hi m = unicode_loop len fuel hi m.
Proof.
  revert hi m. induction fuel as [|fuel IH]; intros hi m Hc Hf; [lia|].
  change (unicode_body len (unicode_loop len (S fuel)) hi m =
          unicode_body len (unicode_loop len fuel) hi m).
  unfold unicode_body. destruct (strchr json_hex_chars (c m)); [|done].
  set (m1 := upd_tok (set_st_pos _) _). destruct (_ =? 4).
  - destruct (sequence_end len hi m1) as [[hi' m']|] eqn:E; [|done].
    apply sequence_end_shorter in E as [? Hl]; [|done]. apply IH; [done|].
    change (cur m1) with (cur m) in Hl. lia.
  - destruct (ADVANCE_PEEK len m1) as [m2 go] eqn:E. destruct go; [|done].
    apply ADVANCE_PEEK_spec in E as (_ & Hcur & _ & _ & Hc1 & Hnz). apply IH; [done|].
    change (cur m1) with (cur m) in Hcur. change (c m1) with (c m) in Hnz.
    rewrite Hcur. destruct (cur m); simpl in *; [done|lia].
Qed.

(** ** The main loop *)

Lemma switch_good m : mach_ok m -> (named = true -> ~ lost_at m) -> good m (switch len m).
Proof.
  intros Hm Hlost. unfold switch. destruct (state m) eqn:Hs.
  - by apply case_eatws_good.
  - by apply case_start_good.
  - by apply case_finish_good.
  - by apply case_null_good.
  - by apply case_comment_start_good.
  - by apply case_comment_good.
  - by apply case_comment_eol_good.
  - by apply case_comment_end_good.
  - by apply case_string_good.
  - by apply case_string_escape_good.
  - by apply case_escape_unicode_good.
  - by apply case_boolean_good.
  - by apply case_number_good.
  - apply case_array_good; auto.
  - by apply case_array_add_good.
  - by apply case_array_sep_good.
  - apply case_object_field_start_good; auto.
  - by apply case_object_field_good.
  - by apply case_object_field_end_good.
  - by apply case_object_value_good.
  - by apply case_object_value_add_good.
  - by apply case_object_sep_good.
  - apply case_array_good; auto.
  - apply case_object_field_start_good; auto.
Qed.

Lemma rank_range m : 1 <= rank m <= 10.
Proof.
  unfold rank. pose proof (rank1_range (saved_state m)). pose proof (rank1_range (state m)).
  case_test; lia.
Qed.

(** Input left, and redos possible before the next byte is read. *)
Definition measure m : Z := 11 * zlen (cur m) + rank m.

(** One turn of the loop. *)
Definition next m m' : Prop :=
  match switch len m with
  | (Redo, m1) => m' = m1
  | (Break, m1) => ADVANCE_PEEK len m1 = (m', true)
  | _ => False
  end.

(** On the way from a state a name is lost; the program dies there. *)
Definition loses m : Prop := exists m', rtc next m m' /\ lost_at m'.
Definition dies m : Prop := exists m', rtc next m m' /\ fst (switch len m') = Crash.

(** With more fuel than the measure the loop ends and the invariant holds, or a
    name was lost; if names may be missing, the program may die. *)
Lemma run_all fuel m : mach_ok m -> measure m < Z.of_nat fuel ->
  (named = true /\ loses m) \/ (exists m', run len fuel m = Some m' /\ tokener_ok (tok m')) \/ (named = false /\ dies m).
Proof.
  revert m. induction fuel as [|fuel IH]; intros m Hm Hf.
  { pose proof (rank_range m). unfold measure, zlen in Hf. lia. }
  destruct (decide (named = true /\ lost_at m)) as [[HN Hl]|Hkept]; [left; split; [done|]; exists m; by split|].
  assert (forall m1, next m m1 -> (loses m1 -> loses m) /\ (dies m1 -> dies m)) as Hnext.
  { intros m1 Hn. split; intros (m2 & Hr & H2); exists m2; (split; [by eapply rtc_l|done]). }
  cbn [run]. pose proof (switch_good m Hm ltac:(tauto)) as Hg. unfold next in Hnext.
  destruct (switch len m) as [o m'] eqn:E. destruct Hg as (Hok & Hl & Ho). cbn [fst snd] in *.
  pose proof (rank_range m). pose proof (rank_range m'). unfold measure, zlen in *. destruct o.
  - destruct Ho as [Hc Hr]. destruct (Hnext m' eq_refl) as [Hn1 Hn2]. destruct (IH m') as [[? ?]|[?|[? ?]]]; [done|lia|..]; tauto.
  - destruct (ADVANCE_PEEK len m') as [m2 go] eqn:E2. pose proof E2 as (Hag & Hcur & _ & _ & Hgo)%ADVANCE_PEEK_spec.
    assert (tokener_ok (tok m2)) as Hok2.
    { split; [eapply agree_frame; [exact Hag|apply Hok]|]. rewrite (agree_top _ _ Hag). apply Hok. }
    destruct go; [|eauto]. destruct Hgo as [Hc2 Hnz]. destruct (Hnext m2 eq_refl) as [Hn1 Hn2].
    destruct (IH m2) as [[? ?]|[?|[? ?]]]; [done| |tauto..].
    pose proof (rank_range m2). unfold measure, zlen. rewrite Hcur.
    destruct (cur m') as [|x l]; simpl in *; [congruence|lia].
  - eauto.
  - right. right. split; [done|]. exists m. rewrite E. by split.
Qed.

Lemma reset_level_lookup n h t h' t' :
  json_tokener_reset_level (Z.of_nat n) h t = (h', t') ->
  depth t' = depth t /\ max_depth t' = max_depth t /\ length (stack t') = length (stack t) /\
  err t' = err t /\
  (forall i, i <> n -> stack t' !! i = stack t !! i) /\
  (forall r, stack t' !! n = Some r -> r = fresh_level).
Proof.
  unfold json_tokener_reset_level. intros [= <- <-]. simpl. rewrite Nat2Z.id, length_insert.
  split_and!; try done.
  - intros i Hi. by rewrite list_lookup_insert_ne.
  - intros r Hr. pose proof (lookup_lt_Some _ _ _ Hr) as Hlt. rewrite length_insert in Hlt.
    rewrite list_lookup_insert_eq in Hr by lia. by injection Hr.
Qed.

Lemma reset_levels_spec n h t h' t' :
  reset_levels n h t = (h', t') ->
  depth t' = depth t /\ max_depth t' = max_depth t /\ length (stack t') = length (stack t) /\
  err t' = err t /\
  (forall i, (n < i)%nat -> stack t' !! i = stack t !! i) /\
  (forall i r, (i <= n)%nat -> stack t' !! i = Some r -> r = fresh_level).
Proof.
  revert h t. induction n as [|n IH]; intros h t; cbn [reset_levels];
    destruct (json_tokener_reset_level _ h t) as [h1 t1] eqn:E1;
    apply reset_level_lookup in E1 as (D & M & L & Er & Hne & Heq).
  - intros [= <- <-]. split_and!; try done.
    + intros i Hi. apply Hne. lia.
    + intros i r Hi. assert (i = 0)%nat as -> by lia. apply Heq.
  - intros E. apply IH in E as (D' & M' & L' & Er' & Hne' & Heq').
    split_and!; try congruence.
    + intros i Hi. rewrite Hne' by lia. apply Hne. lia.
    + intros i r Hi Hr. destruct (decide (i = S n)) as [->|].
      * rewrite Hne' in Hr by lia. by apply Heq.
      * eapply Heq'; [|exact Hr]. lia.
Qed.

(** Resetting every level from the top down and the depth with it gives back a
    tokener in its initial state. *)
Definition tokener_idle t : Prop :=
  tokener_ok t /\ depth t = 0 /\ top t = fresh_level.

(** What [json_tokener_reset] needs: it does not look at the states. *)
Definition stack_ok t : Prop :=
  0 <= depth t < max_depth t /\ zlen (stack t) = max_depth t /\
  forall i r, depth t < Z.of_nat i -> stack t !! i = Some r -> sr_current r = jnull.

Lemma frame_stack_ok t : frame_ok t -> stack_ok t.
Proof. by intros [? ? ? ?]. Qed.

Lemma reset_levels_idle h t h' t' :
  stack_ok t -> reset_levels (Z.to_nat (depth t)) h t = (h', t') ->
  forall t0, depth t0 = 0 -> max_depth t0 = max_depth t' -> stack t0 = stack t' ->
  tokener_idle t0.
Proof.
  intros (Hd & Hl & Ha) E t0 HD HM HS.
  apply reset_levels_spec in E as (D & M & L & _ & Hne & Heq).
  assert (top t0 = fresh_level) as Htop.
  { unfold top, level. rewrite HD, HS. change (Z.to_nat 0) with 0%nat.
    destruct (stack t' !! 0%nat) as [r|] eqn:Er; [simpl; eapply Heq; [|exact Er]; lia|].
    apply lookup_ge_None in Er. unfold zlen in Hl. lia. }
  split; [|done]. split; [|rewrite Htop; apply top_ok_fresh].
  split; rewrite ?HD, ?HM, ?HS, ?M.
  - lia.
  - unfold zlen in *. by rewrite L.
  - lia.
  - intros i r Hi Hr. destruct (decide (i <= Z.to_nat (depth t))%nat) as [Hle|Hgt].
    + by rewrite (Heq i r Hle Hr).
    + rewrite Hne in Hr by lia. eapply Ha; [|exact Hr]. lia.
Qed.

Lemma json_tokener_reset_idle h t : stack_ok t -> tokener_idle (snd (json_tokener_reset h t)).
Proof.
  intros Ht. unfold json_tokener_reset.
  destruct (reset_levels _ h t) as [h' t'] eqn:E.
  by apply (reset_levels_idle h t h' t').
Qed.

Lemma reset_levels_stack_ok n h t h' t' :
  stack_ok t -> reset_levels n h t = (h', t') -> stack_ok t'.
Proof.
  intros (Hd & Hl & Ha) E. apply reset_levels_spec in E as (D & M & L & _ & Hne & Heq).
  unfold stack_ok, zlen in *. rewrite D, M, L. split_and!; [lia..|].
  intros i r Hi Hr. destruct (decide (i <= n)%nat) as [Hle|Hgt].
  - by rewrite (Heq i r Hle Hr).
  - rewrite Hne in Hr by lia. eauto.
Qed.

(** What the code after the label [out] leaves behind. *)
Lemma parse_out_ok m h t o :
  tokener_ok (tok m) -> parse_out m = (h, t, o) ->
  stack_ok t /\
  (err t <> json_tokener_success -> tokener_ok t /\ o = jnull) /\
  (err t = json_tokener_success -> depth t = 0 -> tokener_idle t).
Proof.
  intros Hm. unfold parse_out. set (m1 := if _ && _ then _ else m).
  assert (tokener_ok (tok m1)) as Hm1.
  { destruct Hm as [Hf Ht]. unfold m1. case_test; [|done]. unfold set_error.
    split; [frame|by tops]. }
  clearbody m1. pose proof (frame_stack_ok _ (proj1 Hm1)) as Hso.
  case_test; bool_to_prop.
  - destruct (reset_levels _ _ _) as [h' t'] eqn:E. intros [= <- <- <-].
    split; [by eapply reset_levels_stack_ok|].
    pose proof (reset_levels_idle _ _ _ _ Hso E) as Hidle.
    apply reset_levels_spec in E as (D & _ & _ & Er & _). split; [congruence|].
    intros _ Hd. by apply Hidle.
  - intros [= <- <- <-]. done.
Qed.

(** A new tokener is idle. *)
Lemma json_tokener_new_ex_idle h d :
  malloc_total al -> 1 <= d -> 32 * d < 2 ^ 31 ->
  exists h' t, json_tokener_new_ex h d = New h' t /\ tokener_idle t /\ max_depth t = d /\
  flags t = 0 /\ pb_wf (pb t) /\ err t = json_tokener_success.
Proof.
  intros Hal Hd Hmax. unfold json_tokener_new_ex, u64.
  assert (d < 2 ^ 64) by (change (2 ^ 31) with 2147483648 in Hmax; lia).
  rewrite wrap_id by lia. rewrite !Hal by lia. cbn [negb].
  destruct printbuf_new as [b|] eqn:Hb; [|unfold printbuf_new in Hb; rewrite (Hal 16), (Hal 32) in Hb by lia; discriminate].
  apply printbuf_new_wf in Hb as [Hwf _].
  set (t0 := Tokener _ _ _ _ _ _ _ _ _ _ _).
  assert (stack_ok t0) as Hso.
  { unfold stack_ok, zlen. simpl. rewrite length_replicate. split_and!; [lia..|].
    intros i r _ Hr. apply lookup_replicate in Hr as [-> _]. done. }
  pose proof (json_tokener_reset_idle h t0 Hso) as Hidle.
  destruct (json_tokener_reset h t0) as [h' t'] eqn:E. exists h', t'. split; [done|].
  unfold json_tokener_reset in E.
  cbn in E. injection E as <- <-. done.
Qed.

Lemma fuel_for_enough s m : cur m = s -> measure m < Z.of_nat (fuel_for s).
Proof.
  intros <-. pose proof (rank_range m). unfold measure, fuel_for, zlen. lia.
Qed.
End Cases.

(** All names are there. *)
#[export] Instance all_named : Named := true.

Section Theorems.
Context {al : Allocator} `{JsonOps}.

(** A tokener that may have lost names. *)
Lemma tokener_ok_unnamed t : tokener_ok t -> tokener_ok (N := false) t.
Proof.
  intros [[Hd Hl Hb Ha] (H1 & H2 & H3)]. split.
  - split; try done. intros i r Hi Hr. destruct (Hb i r Hi Hr) as [?|[? _]]; [by left|by right].
  - by split_and!.
Qed.

(** The loop ends or the program dies. *)
Lemma run_ends len fuel m : mach_ok (N := false) m -> measure m < Z.of_nat fuel -> is_Some (run len fuel m) \/ dies len m.
Proof. intros Hm Hf. destruct (run_all (N := false) len fuel m Hm Hf) as [[? _]|[(m' & -> & _)|[_ ?]]]; [done|by left|by right]. Qed.

(** The loop of a call. *)
Definition first_turn (len : Z) (h : jstate) (t : json_tokener) (s : bytes) : mach :=
  fst (PEEK_CHAR len (Mach (set_err json_tokener_success (set_char_offset 0 t)) h s 1 jnull)).

(** Running the loop to see that no name is lost. *)
Fixpoint kept (len : Z) (fuel : nat) (m : mach) : bool :=
  match fuel with
  | O => false
  | S f =>
      if decide (lost_at len m) then false else
      match switch len m with
      | (Redo, m') => kept len f m'
      | (Break, m') => let '(m2, go) := ADVANCE_PEEK len m' in if go then kept len f m2 else true
      | _ => true
      end
  end.

Lemma kept_ok len fuel m : kept len fuel m = true -> ~ loses len m.
Proof.
  revert m. induction fuel as [|f IH]; intros m; [done|]. cbn [kept]. destruct (decide (lost_at len m)) as [|Hl]; [done|]. intros Hk (m' & Hr & Hl').
  destruct Hr as [m|m m1 m' Hn Hr]; [done|]. unfold next in Hn. assert (loses len m1) as Hlo by (by exists m').
  destruct (switch len m) as [[| | |] m2]; [subst m2; by apply (IH m1)| |done..]. destruct (ADVANCE_PEEK len m2) as [m3 go]. injection Hn as -> ->. by apply (IH m1).
Qed.


End Theorems.

(** The tokener [json_tokener_new] makes, on the sample platform. *)
Definition sample_tokener : @json_tokener text_double (@JsonValue.value_ops text_double) :=
  match @json_tokener_new sample_alloc text_double (@JsonValue.value_ops text_double) tt with
  | New _ t => t
  | _ => Tokener (Printbuf [] 0 0) 0 0 false 0 0 json_tokener_success 0 0 [] 0
  end.

Lemma sample_tokener_ok : tokener_ok sample_tokener.
Proof.
  unfold sample_tokener, json_tokener_new.
  destruct (json_tokener_new_ex_idle (al := sample_alloc) (H0 := @JsonValue.value_ops text_double)
              tt JSON_TOKENER_DEFAULT_DEPTH sample_alloc_total) as (h & t & -> & [Hok _] & _);
    [unfold JSON_TOKENER_DEFAULT_DEPTH; lia..|exact Hok].
Qed.


(** ** A name that is lost *)

(** An allocator without blocks of four bytes. *)
Definition no_four_alloc : Allocator.
Proof.
  refine {| malloc_ok n := (n <=? 2 ^ 40) && negb (n =? 4); malloc_byte := 165 |}. intros n [Hn%Z.leb_le _]%andb_true_iff. lia.
Defined.

(** The copy of the name [abc] fails and is used all the same. *)
Theorem json_tokener_name_lost :
  @json_tokener_parse_ex no_four_alloc text_double (@JsonValue.value_ops text_double) (-1) tt sample_tokener (str "{'abc': 1}") = None /\
  dies (al := no_four_alloc) (-1) (first_turn (H0 := @JsonValue.value_ops text_double) (-1) tt sample_tokener (str "{'abc': 1}")).
Proof.
  assert (@json_tokener_parse_ex no_four_alloc text_double (@JsonValue.value_ops text_double) (-1) tt sample_tokener (str "{'abc': 1}") = None) as E by (vm_compute; reflexivity).
  split; [exact E|]. destruct (run_ends (al := no_four_alloc) (-1) (fuel_for (str "{'abc': 1}")) (first_turn (H0 := @JsonValue.value_ops text_double) (-1) tt sample_tokener (str "{'abc': 1}"))) as [[m Em]|]; [| | |done].
  - split; [|done]. apply tokener_ok_unnamed. exact sample_tokener_ok.
  - by apply fuel_for_enough.
  - exfalso. revert Em. vm_compute. discriminate.
Qed.

End TokenerInv.
