(* ===== verification/JsonPrint.v ===== *)
(** * json-c [json_object.c]: serialization

    The [*_to_json_string] functions, on the tree an object spans, writing into
    a [printbuf] with the same calls in the same order as the C code.  The
    virtual call [val->_to_json_string(...)] is the recursive call on the
    child: every object here has the serializer of its type.  [text] is the
    output as a function of the value alone; [to_json_string_text] proves that
    the buffer receives exactly it. *)

From S2P Require Import Prelude Printbuf JsonUtil JsonTokener JsonValue.
From Stdlib Require Import ZArith Lia String.
From stdpp Require Import base list numbers option.

Open Scope Z_scope.

Module JsonPrint.
Import Printbuf JsonUtil JsonTokener JsonValue.

Definition JSON_C_TO_STRING_PLAIN : Z := 0.
Definition JSON_C_TO_STRING_SPACED : Z := 1.
Definition JSON_C_TO_STRING_PRETTY : Z := 2.
Definition JSON_C_TO_STRING_NOZERO : Z := 4.

(** [flags & f]. *)
Definition has (flags f : Z) : bool := negb (Z.land flags f =? 0).

Section Serialize.
Context {al : Allocator} `{DoubleOps}.

(** [sprintbuf] and [printbuf_memappend] as statements. *)
Definition emit (t : bytes) (p : printbuf) : printbuf := fst (sprintbuf p t).
Definition put (t : bytes) (p : printbuf) : printbuf := fst (printbuf_memappend p t).

Definition hex_char (i : Z) : Z := nth (Z.to_nat i) json_hex_chars 0.

(** [if (pos - start_offset > 0) printbuf_memappend(pb, str + start_offset, pos - start_offset)]. *)
Definition flush (s : bytes) (start_offset pos : Z) (p : printbuf) : printbuf :=
  if pos - start_offset >? 0 then
    put (take (Z.to_nat (pos - start_offset)) (drop (Z.to_nat start_offset) s)) p
  else p.

(** The loop of [json_escape_str]; [l] is what is left of [s] at [pos]. *)
Fixpoint escape_loop (s l : bytes) (pos start_offset : Z) (p : printbuf) : printbuf :=
  match l with
  | [] => flush s start_offset pos p
  | ch :: l' =>
      let esc := if ch =? 8 then Some 98 else if ch =? 10 then Some 110
                 else if ch =? 13 then Some 114 else if ch =? 9 then Some 116
                 else if ch =? 12 then Some 102 else if ch =? 34 then Some 34
                 else if ch =? 92 then Some 92 else if ch =? 47 then Some 47 else None in
      match esc with
      | Some e =>
          escape_loop s l' (pos + 1) (pos + 1) (put [92; e] (flush s start_offset pos p))
      | None =>
          if ch <? 32 then
            escape_loop s l' (pos + 1) (pos + 1)
              (emit (str "\u00" ++ [hex_char (Z.shiftr ch 4); hex_char (Z.land ch 15)])
                    (flush s start_offset pos p))
          else escape_loop s l' (pos + 1) start_offset p
      end
  end.

Definition json_escape_str (p : printbuf) (s : bytes) : printbuf := escape_loop s s 0 0 p.

Definition indent (p : printbuf) (level flags : Z) : printbuf :=
  if has flags JSON_C_TO_STRING_PRETTY then fst (printbuf_memset p (-1) 32 (level * 2)) else p.

Definition json_object_boolean_to_json_string (b : Z) (p : printbuf) : printbuf * Z :=
  if negb (b =? 0) then sprintbuf p (str "true") else sprintbuf p (str "false").

Definition json_object_int_to_json_string (n : Z) (p : printbuf) : printbuf * Z :=
  sprintbuf p (print_int64 n).

(** Index of the first [x] in a C string. *)
Fixpoint index_of (x : Z) (l : bytes) : option nat :=
  match l with
  | [] => None
  | b :: l' => if b =? x then Some 0%nat else option_map S (index_of x l')
  end.

(** The loop over [q] that moves [p] to the last digit other than zero, on the
    C string [l] at [q]. *)
Fixpoint last_useful (l : bytes) (q p : nat) : nat :=
  match l with
  | [] => p
  | b :: l' => last_useful l' (S q) (if b =? 48 then p else q)
  end.

(** The C string in [buf] and the [size] passed to [printbuf_memappend]:
    [snprintf] returns the length of the whole number, and stores at most 127
    bytes of it. *)
Definition double_buf (flags : Z) (d : double) : bytes * Z :=
  let b := take 127 (print_double d) in
  let size := zlen (print_double d) in
  let '(b, p) :=
    match index_of 44 b with
    | Some i => (<[i := 46]> b, Some i)
    | None => (b, index_of 46 b)
    end in
  match p with
  | Some i =>
      if has flags JSON_C_TO_STRING_NOZERO then
        let e := S (last_useful (drop (S i) b) (S i) (S i)) in
        (take e b, Z.of_nat e)
      else (b, size)
  | None => (b, size)
  end.

(** [printbuf_memappend(pb, buf, size)] reads [size] bytes from the array:
    those of the string, its NUL, and whatever follows. *)
Definition json_object_double_to_json_string (d : double) (flags : Z) (p : printbuf)
  : printbuf * Z :=
  let '(b, size) := double_buf flags d in
  (put (resize (Z.to_nat size) malloc_byte (b ++ [0])) p, size).

Definition json_object_string_to_json_string (s : bytes) (p : printbuf) : printbuf * Z :=
  (emit [34] (json_escape_str (emit [34] p) s), 0).

(** The opening bracket and the line break after it. *)
Definition open_bracket (b : bytes) (flags : Z) (p : printbuf) : printbuf :=
  let p := emit b p in
  if has flags JSON_C_TO_STRING_PRETTY then emit [10] p else p.

(** What precedes a child: the comma unless it is the first, blanks. *)
Definition before_child (had_children : bool) (level flags : Z) (p : printbuf) : printbuf :=
  let p := if had_children then
             let p := emit [44] p in
             if has flags JSON_C_TO_STRING_PRETTY then emit [10] p else p
           else p in
  let p := if has flags JSON_C_TO_STRING_SPACED then emit [32] p else p in
  indent p (level + 1) flags.

(** The closing bracket, with the blanks before it. *)
Definition close_bracket (had_children : bool) (b : bytes) (level flags : Z) (p : printbuf)
  : printbuf * Z :=
  let p := if has flags JSON_C_TO_STRING_PRETTY then
             indent (if had_children then emit [10] p else p) level flags
           else p in
  if has flags JSON_C_TO_STRING_SPACED then sprintbuf p (32 :: b) else sprintbuf p b.

(** The loop over the children of an array or object: [f] writes one child.
    The result has [had_children]. *)
Definition children {A} (f : A -> printbuf -> printbuf) (level flags : Z)
  : list A -> bool -> printbuf -> bool * printbuf :=
  fix loop xs had_children p :=
    match xs with
    | [] => (had_children, p)
    | x :: xs' => loop xs' true (f x (before_child had_children level flags p))
    end.

(** The key of a field, up to the colon. *)
Definition field_key (k : bytes) (flags : Z) (p : printbuf) : printbuf :=
  let p := json_escape_str (emit [34] p) (cstr k) in
  if has flags JSON_C_TO_STRING_SPACED then emit [34; 58; 32] p else emit [34; 58] p.

(** [jso->_to_json_string(jso, pb, level, flags)] for the serializers
    [json_object_new_*] installs; the null pointer is written by its parent. *)
Fixpoint to_json_string (v : json) (p : printbuf) (level flags : Z) {struct v} : printbuf * Z :=
  match v with
  | JNull => (emit (str "null") p, 4)
  | JBool b => json_object_boolean_to_json_string b p
  | JInt n => json_object_int_to_json_string n p
  | JDouble d => json_object_double_to_json_string d flags p
  | JString s => json_object_string_to_json_string s p
  | JArray vs =>
      let '(had, p) :=
        children (fun w p => fst (to_json_string w p (level + 1) flags)) level flags
          vs false (open_bracket [91] flags p) in
      close_bracket had [93] level flags p
  | JObject fs =>
      let '(had, p) :=
        children (fun '(k, w) p =>
            fst (to_json_string w (field_key k flags p) (level + 1) flags)) level flags
          fs false (open_bracket [123] flags p) in
      close_bracket had [125] level flags p
  end.

(** The buffer of the object ([jso->_pb]) is an argument and a result; the
    result string is [None] for a null pointer. *)
Definition json_object_to_json_string_ext (v : json) (_pb : option printbuf) (flags : Z)
  : option printbuf * option bytes :=
  match v with
  | JNull => (_pb, Some (str "null"))
  | _ =>
      match (match _pb with Some p => Some p | None => printbuf_new end) with
      | None => (None, None)
      | Some p =>
          let '(p, r) := to_json_string v (printbuf_reset p) 0 flags in
          (Some p, if r <? 0 then None else Some (buf p))
      end
  end.

Definition json_object_to_json_string (v : json) (_pb : option printbuf)
  : option printbuf * option bytes :=
  json_object_to_json_string_ext v _pb JSON_C_TO_STRING_SPACED.

End Serialize.

(** ** The text as a function of the value *)

Section Text.
Context `{DoubleOps}.

Definition esc_char (b : Z) : bytes :=
  if b =? 8 then [92; 98] else if b =? 10 then [92; 110] else if b =? 13 then [92; 114]
  else if b =? 9 then [92; 116] else if b =? 12 then [92; 102] else if b =? 34 then [92; 34]
  else if b =? 92 then [92; 92] else if b =? 47 then [92; 47]
  else if b <? 32 then str "\u00" ++ [hex_char (Z.shiftr b 4); hex_char (Z.land b 15)]
  else [b].

Definition escape (s : bytes) : bytes := List.concat (List.map esc_char s).

Definition quoted (s : bytes) : bytes := [34] ++ escape s ++ [34].

Definition opt (b : bool) (t : bytes) : bytes := if b then t else [].

(** White space of the three layouts. *)
Definition ws_open (flags : Z) : bytes := opt (has flags JSON_C_TO_STRING_PRETTY) [10].
Definition ws_child (level flags : Z) : bytes :=
  opt (has flags JSON_C_TO_STRING_SPACED) [32] ++
  opt (has flags JSON_C_TO_STRING_PRETTY) (replicate (Z.to_nat ((level + 1) * 2)) 32).
Definition ws_close (had : bool) (level flags : Z) : bytes :=
  opt (has flags JSON_C_TO_STRING_PRETTY)
    (opt had [10] ++ replicate (Z.to_nat (level * 2)) 32) ++
  opt (has flags JSON_C_TO_STRING_SPACED) [32].
Definition colon (flags : Z) : bytes :=
  58 :: opt (has flags JSON_C_TO_STRING_SPACED) [32].

(** Children, each preceded by its blanks, separated by commas. *)
Fixpoint joined (level flags : Z) (had : bool) (ts : list bytes) : bytes :=
  match ts with
  | [] => []
  | t :: ts' =>
      opt had (44 :: ws_open flags) ++ ws_child level flags ++ t ++ joined level flags true ts'
  end.

Definition bracketed (l r : Z) (level flags : Z) (ts : list bytes) : bytes :=
  l :: ws_open flags ++ joined level flags false ts ++
  ws_close (negb (bool_decide (ts = []))) level flags ++ [r].

Fixpoint text (v : json) (level flags : Z) : bytes :=
  match v with
  | JNull => str "null"
  | JBool b => if negb (b =? 0) then str "true" else str "false"
  | JInt n => print_int64 n
  | JDouble d => fst (double_buf flags d)
  | JString s => quoted s
  | JArray vs =>
      bracketed 91 93 level flags (List.map (fun w => text w (level + 1) flags) vs)
  | JObject fs =>
      bracketed 123 125 level flags
        (List.map (fun kw => let '(k, w) := kw in
           quoted (cstr k) ++ colon flags ++ text w (level + 1) flags) fs)
  end.

End Text.

(** ** The serializer writes the text *)

Section Lemmas.
Context {al : Allocator} `{DoubleOps} (Hal : malloc_total al).
Implicit Types (p : printbuf) (t : bytes).

(** From [p] to [p'] the text [t] was appended, provided there is room. *)
Definition writes p p' t : Prop :=
  pb_wf p -> zlen (contents p) + zlen t + 1 <= INT_MAX - 8 ->
  pb_wf p' /\ contents p' = contents p ++ t /\
  size p' <= Z.max (size p) (2 * zlen (contents p') + 10).

Lemma writes_refl p : writes p p [].
Proof. intros Hwf _. rewrite app_nil_r. split; [exact Hwf|]. split; [reflexivity|lia]. Qed.

Lemma writes_trans p1 p2 p3 t1 t2 :
  writes p1 p2 t1 -> writes p2 p3 t2 -> writes p1 p3 (t1 ++ t2).
Proof.
  intros W1 W2 Hwf Hlen. rewrite zlen_app in Hlen.
  pose proof (zlen_nonneg t1). pose proof (zlen_nonneg t2).
  destruct W1 as (Hwf2 & E2 & Z2); [exact Hwf|lia|]. destruct W2 as (Hwf3 & E3 & Z3); [exact Hwf2| |].
  - rewrite E2, zlen_app. lia.
  - split; [exact Hwf3|]. split; [by rewrite E3, E2, app_assoc|].
    rewrite E3, E2, !zlen_app in *. lia.
Qed.

(** The same, and the text is followed by its NUL. *)
Definition writes_nul p p' t : Prop :=
  writes p p' t /\
  (pb_wf p -> zlen (contents p) + zlen t + 1 <= INT_MAX - 8 -> terminated p').

Lemma writes_nul_trans p1 p2 p3 t1 t2 :
  writes p1 p2 t1 -> writes_nul p2 p3 t2 -> writes_nul p1 p3 (t1 ++ t2).
Proof.
  intros W1 [W2 T2]. split; [by eapply writes_trans|]. intros Hwf Hlen.
  rewrite zlen_app in Hlen. pose proof (zlen_nonneg t2).
  destruct W1 as (Hwf2 & E2 & _); [exact Hwf|lia|]. apply T2; [exact Hwf2|].
  rewrite E2, zlen_app. lia.
Qed.

Lemma sprintbuf_memappend p t :
  pb_wf p -> bpos p + zlen t + 1 <= INT_MAX - 8 ->
  fst (sprintbuf p t) = fst (printbuf_memappend p t).
Proof.
  intros Hwf Hlen. pose proof (wf_pos p Hwf). pose proof (zlen_nonneg t).
  unfold sprintbuf. case_test; [|reflexivity]. rewrite Hal; [reflexivity|]. unfold INT_MAX in *. lia.
Qed.

Lemma put_writes p t : writes_nul p (put t p) t.
Proof.
  split; intros Hwf Hlen; rewrite contents_length in Hlen by exact Hwf;
    pose proof (memappend_fast_ok p t Hal Hwf Hlen) as Hok;
    rewrite memappend_fast_eq in Hok by (exact Hwf || lia);
    destruct Hok as (? & ? & Hc); [|assumption].
  split; [assumption|]. split; [exact Hc|].
  pose proof (printbuf_memappend_size p t Hwf ltac:(lia)). unfold put. rewrite Hc, zlen_app, contents_length; [assumption|exact Hwf].
Qed.

Lemma emit_writes p t : writes_nul p (emit t p) t.
Proof.
  pose proof (put_writes p t) as [W T]. unfold emit, put in *.
  split; intros Hwf Hlen; pose proof Hlen as Hlen'; rewrite contents_length in Hlen' by exact Hwf;
    rewrite sprintbuf_memappend by assumption; [by apply W|by apply T].
Qed.

Lemma writes_emit p t : writes p (emit t p) t.
Proof. apply emit_writes. Qed.

Lemma writes_put p t : writes p (put t p) t.
Proof. apply put_writes. Qed.

Lemma writes_opt b p f t : (b = true -> writes p (f p) t) -> writes p (if b then f p else p) (opt b t).
Proof. destruct b; simpl; [auto|intros _; apply writes_refl]. Qed.

Lemma writes_indent p level flags :
  0 <= level ->
  writes p (indent p level flags)
    (opt (has flags JSON_C_TO_STRING_PRETTY) (replicate (Z.to_nat (level * 2)) 32)).
Proof.
  intros Hl. unfold indent.
  apply (writes_opt _ p (fun p => fst (printbuf_memset p (-1) 32 (level * 2)))). intros _ Hwf Hlen.
  rewrite contents_length in Hlen by exact Hwf. unfold zlen in Hlen. rewrite length_replicate in Hlen.
  destruct (printbuf_memset_spec p (-1) 32 (level * 2) Hal Hwf) as (_ & ? & Hc).
  { simpl. rewrite contents_length by exact Hwf. destruct Hwf. lia. }
  split; [assumption|].
  pose proof (printbuf_memset_size p 32 (level * 2) Hwf ltac:(lia) ltac:(lia)) as Hsz.
  enough (contents (fst (printbuf_memset p (-1) 32 (level * 2))) =
          contents p ++ replicate (Z.to_nat (level * 2)) 32) as E.
  { split; [exact E|]. rewrite E, zlen_app, contents_length by exact Hwf. unfold zlen.
    rewrite length_replicate. lia. }
  rewrite Hc. simpl.
  change (u8 32) with 32. unfold splice. rewrite take_ge by (unfold zlen; lia).
  rewrite drop_ge by (unfold zlen; lia). by rewrite app_nil_r.
Qed.

Lemma writes_flush s start pos p :
  0 <= start -> 
  writes p (flush s start pos p) (take (Z.to_nat (pos - start)) (drop (Z.to_nat start) s)).
Proof.
  intros Hs. unfold flush. destruct (Z.gtb_spec (pos - start) 0).
  - apply writes_put.
  - replace (Z.to_nat (pos - start)) with 0%nat by lia. apply writes_refl.
Qed.

Lemma escape_cons b s : escape (b :: s) = esc_char b ++ escape s.
Proof. done. Qed.

(** Pending bytes, then the escaped rest. *)
Lemma writes_escape_loop s l pos start p :
  0 <= start <= pos -> l = drop (Z.to_nat pos) s ->
  writes p (escape_loop s l pos start p)
    (take (Z.to_nat (pos - start)) (drop (Z.to_nat start) s) ++ escape l).
Proof.
  revert pos start p. induction l as [|ch l IH]; intros pos start p Hpos Hl.
  { simpl. rewrite app_nil_r. apply writes_flush. lia. }
  assert (l = drop (Z.to_nat (pos + 1)) s) as Hl'.
  { replace (Z.to_nat (pos + 1)) with (Z.to_nat pos + 1)%nat by lia.
    rewrite <- drop_drop, <- Hl. done. }
  assert (forall p1 e, esc_char ch = e -> writes (flush s start pos p) p1 e ->
    writes p (escape_loop s l (pos + 1) (pos + 1) p1)
      (take (Z.to_nat (pos - start)) (drop (Z.to_nat start) s) ++ escape (ch :: l))) as Hesc.
  { intros p1 e He W. rewrite escape_cons, He, app_assoc.
    eapply writes_trans; [eapply writes_trans; [apply writes_flush; lia|exact W]|].
    pose proof (IH (pos + 1) (pos + 1) p1 ltac:(lia) Hl') as W2.
    replace (pos + 1 - (pos + 1)) with 0 in W2 by lia. exact W2. }
  pose proof (escape_cons ch l) as Eesc.
  cbn [escape_loop]. unfold esc_char in Hesc, Eesc.
  repeat (match goal with |- context [if ?b then _ else _] => destruct b end;
    [eapply Hesc; [reflexivity|apply writes_put || apply writes_emit]|]).
  pose proof (IH (pos + 1) start p ltac:(lia) Hl') as W.
  assert (take (Z.to_nat (pos + 1 - start)) (drop (Z.to_nat start) s) =
          take (Z.to_nat (pos - start)) (drop (Z.to_nat start) s) ++ [ch]) as Et.
  { assert (s !! Z.to_nat pos = Some ch) as Hch.
    { rewrite <- (Nat.add_0_r (Z.to_nat pos)), <- lookup_drop, <- Hl. done. }
    replace (Z.to_nat (pos + 1 - start)) with (S (Z.to_nat (pos - start))) by lia.
    apply take_S_r. rewrite lookup_drop. rewrite <- Hch. f_equal. lia. }
  rewrite Et, <- app_assoc in W. rewrite Eesc. exact W.
Qed.

Lemma writes_escape p s : writes p (json_escape_str p s) (escape s).
Proof. apply (writes_escape_loop s s 0 0 p); [lia|done]. Qed.

Lemma writes_open b flags p : writes p (open_bracket b flags p) (b ++ ws_open flags).
Proof.
  unfold open_bracket. eapply writes_trans; [by apply writes_emit|].
  apply writes_opt. intros _. by apply writes_emit.
Qed.

Lemma writes_before had level flags p :
  0 <= level ->
  writes p (before_child had level flags p)
    (opt had (44 :: ws_open flags) ++ ws_child level flags).
Proof.
  intros Hl. unfold before_child.
  eapply writes_trans.
  - apply (writes_opt had p (fun p => if has flags JSON_C_TO_STRING_PRETTY
      then emit [10] (emit [44] p) else emit [44] p)). intros _.
    apply (writes_trans p (emit [44] p) _ [44]); [by apply writes_emit|].
    apply writes_opt. intros _. by apply writes_emit.
  - eapply writes_trans; [|by apply writes_indent; lia].
    apply writes_opt. intros _. by apply writes_emit.
Qed.

Lemma writes_close had b level flags p :
  0 <= level ->
  writes_nul p (fst (close_bracket had b level flags p)) (ws_close had level flags ++ b).
Proof.
  intros Hl. unfold close_bracket, ws_close. rewrite <- app_assoc.
  eapply (writes_nul_trans _ (if has flags JSON_C_TO_STRING_PRETTY then _ else p)).
  - apply (writes_opt _ p (fun p => indent (if had then emit [10] p else p) level flags)).
    intros Hp. eapply writes_trans; [apply writes_opt; intros _; by apply writes_emit|].
    pose proof (writes_indent (if had then emit [10] p else p) level flags Hl) as W.
    rewrite Hp in W. exact W.
  - destruct (has flags JSON_C_TO_STRING_SPACED); by apply emit_writes.
Qed.

(** What every child writes, with the layout around it. *)
Lemma writes_children {A} (f : A -> printbuf -> printbuf) (tf : A -> bytes) level flags xs :
  0 <= level ->
  Forall (fun x => forall p, writes p (f x p) (tf x)) xs ->
  forall had p,
  fst (children f level flags xs had p) = had || negb (bool_decide (xs = [])) /\
  writes p (snd (children f level flags xs had p)) (joined level flags had (List.map tf xs)).
Proof.
  intros Hl. induction 1 as [|x xs Hx _ IH]; intros had p; simpl.
  { split; [by rewrite orb_false_r|apply writes_refl]. }
  destruct (IH true (f x (before_child had level flags p))) as [Efst W].
  split; [rewrite Efst; by rewrite orb_true_r|].
  rewrite !app_assoc. eapply writes_trans; [|exact W].
  eapply writes_trans; [by apply writes_before|apply Hx].
Qed.

(** The number was stored whole, so the [size] given to [printbuf_memappend] is
    the length of the string in the array. *)
Definition double_fits (flags : Z) (d : double) : Prop :=
  snd (double_buf flags d) = zlen (fst (double_buf flags d)).

Fixpoint doubles_fit (flags : Z) (v : json) : Prop :=
  match v with
  | JDouble d => double_fits flags d
  | JArray vs => foldr (fun w P => doubles_fit flags w /\ P) True vs
  | JObject fs => foldr (fun kw P => doubles_fit flags (snd kw) /\ P) True fs
  | _ => True
  end.

Lemma foldr_and_Forall {A} (P : A -> Prop) xs :
  foldr (fun x Q => P x /\ Q) True xs <-> Forall P xs.
Proof.
  induction xs as [|x xs IH]; simpl; [split; auto using List.Forall_nil|].
  rewrite IH, list.Forall_cons. done.
Qed.

Lemma bracketed_writes {A} (f : A -> printbuf -> printbuf) (tf : A -> bytes) l r level flags xs p :
  0 <= level -> Forall (fun x => forall p, writes p (f x p) (tf x)) xs ->
  writes_nul p (fst (let '(had, p) := children f level flags xs false (open_bracket [l] flags p) in
                 close_bracket had [r] level flags p))
    (bracketed l r level flags (List.map tf xs)).
Proof.
  intros Hl Hf. unfold bracketed.
  destruct (writes_children f tf level flags xs Hl Hf false (open_bracket [l] flags p)) as [E W].
  destruct (children _ _ _ _ _ _) as [had p1]. simpl in E, W. subst had.
  pose proof (writes_open [l] flags p) as W0.
  replace (bool_decide (List.map tf xs = [])) with (bool_decide (xs = [])) by (destruct xs; done).
  pose proof (writes_close (negb (bool_decide (xs = []))) [r] level flags p1 Hl) as W1.
  pose proof (writes_nul_trans _ _ _ _ _ W0 (writes_nul_trans _ _ _ _ _ W W1)) as W2.
  rewrite <- app_assoc in W2. exact W2.
Qed.

Lemma writes_double d flags p :
  double_fits flags d ->
  writes_nul p (fst (json_object_double_to_json_string d flags p)) (fst (double_buf flags d)).
Proof.
  unfold double_fits, json_object_double_to_json_string. destruct (double_buf flags d) as [b size].
  simpl. intros ->. unfold zlen. rewrite Nat2Z.id, resize_app_le by lia.
  rewrite resize_all. by apply put_writes.
Qed.

Lemma writes_field k flags p : writes p (field_key k flags p) (quoted (cstr k) ++ colon flags).
Proof.
  unfold field_key, quoted, colon.
  assert (forall w, ([34] ++ escape (cstr k) ++ [34]) ++ 58 :: w =
          ([34] ++ escape (cstr k)) ++ [34; 58] ++ w) as E.
  { intros w. by rewrite <- !app_assoc. }
  rewrite E. eapply writes_trans.
  - eapply writes_trans; [by apply writes_emit|by apply writes_escape].
  - destruct (has flags JSON_C_TO_STRING_SPACED); by apply writes_emit.
Qed.

(** The serializer appends exactly the text of the value. *)
Lemma to_json_string_writes flags v :
  doubles_fit flags v -> forall level p, 0 <= level ->
  writes_nul p (fst (to_json_string v p level flags)) (text v level flags).
Proof.
  induction v as [|b|n|d|s|vs IH|fs IH] using json_tree_ind; intros Hfit level p Hl.
  - by apply emit_writes.
  - cbn. unfold json_object_boolean_to_json_string. case_test; by apply emit_writes.
  - by apply emit_writes.
  - by apply writes_double.
  - cbn [to_json_string text fst json_object_string_to_json_string]. unfold quoted.
    eapply writes_nul_trans; [by apply writes_emit|].
    eapply writes_nul_trans; [by apply writes_escape|by apply emit_writes].
  - apply bracketed_writes; [done|]. apply (foldr_and_Forall (doubles_fit flags)) in Hfit.
    eapply Forall_impl; [|exact (Forall_and IH Hfit)].
    intros w [IHw Hw] q. apply IHw; [done|lia].
  - cbn [to_json_string text].
    apply (bracketed_writes (fun '(k, w) p =>
      fst (to_json_string w (field_key k flags p) (level + 1) flags))); [done|].
    apply (foldr_and_Forall (fun kw => doubles_fit flags (snd kw))) in Hfit.
    eapply Forall_impl; [|exact (Forall_and IH Hfit)].
    intros [k w] [IHw Hw] q. rewrite app_assoc.
    eapply writes_trans; [apply writes_field|]. apply IHw; [done|lia].
Qed.

(** The value the serializers return: non-negative, so
    [json_object_to_json_string_ext] does not report an error. *)
Lemma sprintbuf_return p t : pb_wf p -> bpos p + zlen t + 1 <= INT_MAX - 8 -> 0 <= snd (sprintbuf p t).
Proof.
  intros Hwf Hlen. destruct (sprintbuf_ok p t Hal Hwf Hlen) as [-> _]. apply zlen_nonneg.
Qed.
End Lemmas.
End JsonPrint.
