(* ===== verification/JsonRoundTrip.v ===== *)
(** * json-c: what is printed parses back

    The parser run on the text of a value gives the value.  [cfg] describes a
    machine at the label [redo_char] by what matters there: the levels below,
    the top level, and the input left.  One lemma per [case] moves it along;
    [parse_value] composes them by induction on the value. *)

From S2P Require Import Prelude Printbuf JsonUtil JsonTokener JsonValue TokenerInv JsonPrint.
From Stdlib Require Import ZArith Lia String.
From stdpp Require Import base list numbers option.

Open Scope Z_scope.

Module JsonRoundTrip.
Import Printbuf JsonUtil JsonTokener JsonValue TokenerInv JsonPrint.

Section RoundTrip.
(** [MD] is the [max_depth] of the tokener, [TOT] the length of the input. *)
Context {al : Allocator} `{DoubleOps} (MD TOT : Z).
Implicit Types (m : mach) (r : json_tokener_srec).

(** The input, with its NUL, stays far below [INT_MAX]. *)
Definition MAX_TEXT : Z := 2 ^ 30.

Record cfg m (d : Z) (bel : list json_tokener_srec) r (rest : bytes) : Prop := {
  cf_frame : frame_ok (tok m);
  cf_depth : depth (tok m) = d;
  cf_below : take (Z.to_nat d) (stack (tok m)) = bel;
  cf_top : top (tok m) = r;
  cf_cur : cur m = rest;
  cf_c : c m = hd 0 rest;
  cf_err : err (tok m) = json_tokener_success;
  cf_wf : pb_wf (pb (tok m));
  cf_off : 0 <= char_offset (tok m);
  cf_room : char_offset (tok m) + zlen rest <= MAX_TEXT;
  cf_max : max_depth (tok m) = MD;
  cf_total : char_offset (tok m) + zlen rest = TOT
}.

(** ** Runs *)

Definition steps m m' : Prop :=
  exists n, forall fuel, run (-1) (n + fuel) m = run (-1) fuel m'.

Lemma steps_refl m : steps m m.
Proof. by exists 0%nat. Qed.

Lemma steps_trans m1 m2 m3 : steps m1 m2 -> steps m2 m3 -> steps m1 m3.
Proof.
  intros [n1 H1] [n2 H2]. exists (n1 + n2)%nat. intros fuel.
  by rewrite <- Nat.add_assoc, H1, H2.
Qed.

Lemma steps_redo m m' : switch (-1) m = (Redo, m') -> steps m m'.
Proof. intros E. exists 1%nat. intros fuel. simpl. by rewrite E. Qed.

Lemma steps_break m m' m2 :
  switch (-1) m = (Break, m') -> ADVANCE_PEEK (-1) m' = (m2, true) -> steps m m2.
Proof. intros E1 E2. exists 1%nat. intros fuel. simpl. by rewrite E1, E2. Qed.

(** ** Moving the input *)

(** The machine [n] bytes further. *)
Definition skip (n : nat) m : mach :=
  Mach (set_char_offset (char_offset (tok m) + Z.of_nat n) (tok m)) (heap m)
    (drop n (cur m)) (hd 0 (drop n (cur m))) (obj m).

Lemma cfg_skip m d bel r w rest :
  cfg m d bel r (w ++ rest) -> cfg (skip (length w) m) d bel r rest.
Proof.
  intros [Hf Hd Hb Ht Hcur Hc He Hw Ho Hr Hmx Htot]. rewrite zlen_app in Hr.
  assert (drop (length w) (cur m) = rest) as E by (rewrite Hcur; apply drop_app_length).
  split; simpl; try done.
  - by eapply frame_same; [..|exact Hf].
  - by rewrite E.
  - unfold zlen in *. lia.
  - unfold zlen in *. lia.
  - rewrite zlen_app in Htot. unfold zlen in *. lia.
Qed.

Lemma advance_eq m d bel r x rest :
  cfg m d bel r (x :: rest) -> x <> 0 -> ADVANCE_PEEK (-1) m = (skip 1 m, true).
Proof.
  intros [_ _ _ _ Hcur Hc _ _ Ho Hr Hmx Htot] Hx. unfold ADVANCE_PEEK, ADVANCE_CHAR, PEEK_CHAR. simpl.
  rewrite Hc. simpl. destruct (Z.eqb_spec x 0); [done|].
  rewrite zlen_cons in Hr. pose proof (zlen_nonneg rest). unfold MAX_TEXT in Hr.
  rewrite s32_id by (unfold INT_MIN, INT_MAX; lia).
  destruct (Z.eqb_spec (char_offset (tok m) + 1) (-1)); [lia|].
  unfold skip, set_c, set_cur, upd_tok. simpl.
  rewrite Hcur, s32_id by (unfold INT_MIN, INT_MAX; lia). done.
Qed.

Lemma skip_0 m d bel r rest : cfg m d bel r rest -> skip 0 m = m.
Proof.
  intros [_ _ _ _ Hcur Hc _ _ _ _ _ _]. rewrite <- Hcur in Hc. unfold skip.
  rewrite drop_0, <- Hc. change (Z.of_nat 0) with 0. rewrite Z.add_0_r.
  destruct m as [[] ]. done.
Qed.

Lemma skip_skip a b m : skip a (skip b m) = skip (b + a) m.
Proof.
  unfold skip. simpl. rewrite drop_drop. unfold set_char_offset. simpl.
  replace (char_offset (tok m) + Z.of_nat b + Z.of_nat a)
    with (char_offset (tok m) + Z.of_nat (b + a)) by lia. done.
Qed.

(** An inner loop runs over the bytes that satisfy its test. *)
Lemma scan_eq test m d bel r w rest :
  cfg m d bel r (w ++ rest) ->
  Forall (fun x => x <> 0 /\ test x = true) w -> test (hd 0 rest) = false ->
  scan_while (-1) test m = (skip (length w) m, true).
Proof.
  intros Hcfg Hw Hrest. unfold scan_while. rewrite (cf_cur _ _ _ _ _ Hcfg).
  assert (length w <= S (length (w ++ rest)))%nat as Hfuel by (rewrite length_app; lia).
  revert Hfuel. generalize (S (length (w ++ rest))). intros fuel.
  revert fuel m Hcfg. induction w as [|x w IH]; intros fuel m Hcfg Hfuel.
  - pose proof (cf_c _ _ _ _ _ Hcfg) as Hc. simpl in *. rewrite (skip_0 _ _ _ _ _ Hcfg).
    destruct fuel; simpl; by rewrite Hc, Hrest.
  - apply list.Forall_cons in Hw as [[Hx Htx] Hw]. destruct fuel as [|fuel]; [simpl in Hfuel; lia|].
    cbn [advance_while]. rewrite (cf_c _ _ _ _ _ Hcfg). simpl hd. rewrite Htx.
    rewrite (advance_eq _ _ _ _ _ _ Hcfg Hx).
    pose proof (cfg_skip m d bel r [x] (w ++ rest) Hcfg) as Hcfg1. simpl in Hcfg1, Hfuel.
    rewrite (IH Hw fuel (skip 1 m) Hcfg1) by lia. by rewrite skip_skip.
Qed.

Lemma since_skip m d bel r w rest :
  cfg m d bel r (w ++ rest) -> since m (skip (length w) m) = w.
Proof.
  intros Hcfg. unfold since. simpl. rewrite (cf_cur _ _ _ _ _ Hcfg).
  pose proof (cf_room _ _ _ _ _ Hcfg) as Hr. rewrite zlen_app in Hr.
  pose proof (cf_off _ _ _ _ _ Hcfg). pose proof (zlen_nonneg rest). unfold MAX_TEXT, zlen in Hr.
  replace (_ - _) with (Z.of_nat (length w)) by lia.
  unfold u32. rewrite wrap_id by lia. rewrite Nat2Z.id, resize_app_le by lia. apply resize_all.
Qed.

(** ** Updates *)

Lemma cfg_upd_top f m d bel r rest : cfg m d bel r rest -> cfg (upd_top f m) d bel (f r) rest.
Proof.
  intros [Hf Hd Hb Ht Hcur Hc He Hw Ho Hr Hmx Htot].
  split; [by apply frame_upd_top|exact Hd| |by rewrite top_upd_top, Ht|done..].
  simpl. rewrite <- Hb. apply take_insert_ge. lia.
Qed.

(** Updates of the tokener the description does not mention. *)
Lemma cfg_quiet f m d bel r rest :
  depth (f (tok m)) = depth (tok m) -> max_depth (f (tok m)) = max_depth (tok m) ->
  stack (f (tok m)) = stack (tok m) -> err (f (tok m)) = err (tok m) ->
  char_offset (f (tok m)) = char_offset (tok m) -> pb_wf (pb (f (tok m))) ->
  cfg m d bel r rest -> cfg (upd_tok f m) d bel r rest.
Proof.
  intros E1 E2 E3 E4 E5 Hwf [Hf Hd Hb Ht Hcur Hc He Hw Ho Hr Hmx Htot].
  split; [by apply frame_quiet|simpl; congruence| |by rewrite top_quiet|..]; simpl;
    rewrite ?E2, ?E3, ?E4, ?E5; done.
Qed.

Lemma cfg_heap h m d bel r rest : cfg m d bel r rest -> cfg (set_heap h m) d bel r rest.
Proof. intros [? ? ? ? ? ? ? ? ? ? ? ?]. by split. Qed.

Lemma cfg_reset_pb m d bel r rest :
  cfg m d bel r rest -> cfg (reset_pb m) d bel r rest /\ contents (pb (tok (reset_pb m))) = [].
Proof.
  intros Hcfg. destruct (printbuf_reset_spec (pb (tok m))) as (Hwf & _ & Hc);
    [apply Hcfg|]. split; [by apply cfg_quiet|done].
Qed.

(** The bytes collected so far are not more than the bytes read. *)
Definition collected m (t : bytes) : Prop :=
  contents (pb (tok m)) = t /\ zlen t <= char_offset (tok m).

Lemma cfg_append (Hal : malloc_total al) m d bel r rest t w :
  cfg m d bel r rest -> contents (pb (tok m)) = t -> zlen t + zlen w <= MAX_TEXT + 100 ->
  cfg (append w m) d bel r rest /\ contents (pb (tok (append w m))) = t ++ w /\
  terminated (pb (tok (append w m))).
Proof.
  intros Hcfg Ht Hlen. pose proof (cf_wf _ _ _ _ _ Hcfg) as Hwf.
  destruct (memappend_fast_ok (pb (tok m)) w Hal Hwf) as (Hwf' & Hterm & Hc).
  { rewrite <- contents_length by exact Hwf. rewrite Ht. unfold MAX_TEXT, INT_MAX in *. lia. }
  split; [by apply cfg_quiet|]. split; [|done]. simpl. by rewrite Hc, Ht.
Qed.

Lemma cfg_fields m d bel st sv cu nm rest :
  cfg m d bel (Srec st sv cu nm) rest ->
  state m = st /\ saved_state m = sv /\ current m = cu /\ obj_field_name m = nm.
Proof.
  intros Hcfg. unfold state, saved_state, current, obj_field_name.
  by rewrite (cf_top _ _ _ _ _ Hcfg).
Qed.

Lemma cfg_set_state s m d bel st sv cu nm rest :
  cfg m d bel (Srec st sv cu nm) rest -> cfg (set_state s m) d bel (Srec s sv cu nm) rest.
Proof. apply cfg_upd_top. Qed.

Lemma cfg_set_saved_state s m d bel st sv cu nm rest :
  cfg m d bel (Srec st sv cu nm) rest -> cfg (set_saved_state s m) d bel (Srec st s cu nm) rest.
Proof. apply cfg_upd_top. Qed.

Lemma cfg_set_states s1 s2 m d bel st sv cu nm rest :
  cfg m d bel (Srec st sv cu nm) rest -> cfg (set_states s1 s2 m) d bel (Srec s2 s1 cu nm) rest.
Proof. intros. by eapply cfg_set_state, cfg_set_saved_state. Qed.

Lemma cfg_set_current p m d bel st sv cu nm rest :
  cfg m d bel (Srec st sv cu nm) rest -> cfg (set_current p m) d bel (Srec st sv p nm) rest.
Proof. apply cfg_upd_top. Qed.

Lemma cfg_set_name n m d bel st sv cu nm rest :
  cfg m d bel (Srec st sv cu nm) rest -> cfg (set_obj_field_name n m) d bel (Srec st sv cu n) rest.
Proof. apply cfg_upd_top. Qed.

(** Leaving the switch advances by the byte just handled. *)
Lemma break_cfg m m' d bel r x rest :
  switch (-1) m = (Break, m') -> cfg m' d bel r (x :: rest) -> x <> 0 ->
  steps m (skip 1 m') /\ cfg (skip 1 m') d bel r rest.
Proof.
  intros E Hcfg Hx. split; [|by apply (cfg_skip m' d bel r [x])].
  eapply steps_break; [exact E|]. by eapply advance_eq.
Qed.

(** ** White space *)

Definition spaces (w : bytes) : Prop := Forall (fun x => isspace x = true) w.

(** A byte the white-space state hands on. *)
Definition solid (x : Z) : bool := negb (isspace x) && negb (x =? 47).

Lemma step_eatws m d bel sv cu nm w rest :
  cfg m d bel (Srec state_eatws sv cu nm) (w ++ rest) ->
  spaces w -> solid (hd 0 rest) = true ->
  exists m', steps m m' /\ cfg m' d bel (Srec sv sv cu nm) rest.
Proof.
  intros Hcfg Hw Hs. unfold solid in Hs. apply andb_true_iff in Hs as [Hns Hsl]. bool_to_prop.
  assert (Forall (fun x => x <> 0 /\ isspace x = true) w) as Hw'.
  { eapply Forall_impl; [|exact Hw]. intros x Hx. split; [by apply isspace_nonzero|done]. }
  pose proof (cfg_skip _ _ _ _ _ _ Hcfg) as Hcfg1.
  exists (set_state sv (skip (length w) m)). split.
  - apply steps_redo. unfold switch. destruct (cfg_fields _ _ _ _ _ _ _ _ Hcfg) as (-> & _).
    unfold case_eatws. rewrite (scan_eq _ _ _ _ _ _ _ Hcfg Hw' Hns). cbn [negb].
    rewrite (cf_c _ _ _ _ _ Hcfg1). destruct (Z.eqb_spec (hd 0 rest) 47); [done|].
    destruct (cfg_fields _ _ _ _ _ _ _ _ Hcfg1) as (_ & -> & _). done.
  - by eapply cfg_set_state.
Qed.

(** ** Levels *)

Lemma step_push m m' d bel r rest :
  cfg m' d bel r rest -> pending r -> d < MD - 1 ->
  switch (-1) m = (Redo, push_level m') ->
  steps m (push_level m') /\ cfg (push_level m') (d + 1) (bel ++ [r]) fresh_level rest.
Proof.
  intros Hcfg Hp Hd E. split; [by apply steps_redo|].
  destruct Hcfg as [Hf Hdep Hb Ht Hcur Hc He Hw Ho Hr Hmx Htot].
  destruct (push_level_frame m' Hf) as [Hf' Ht']; [lia|by rewrite Ht|].
  split; try done; simpl.
  - lia.
  - rewrite take_insert_ge by lia. destruct Hf as [Hd0 Hl _ _].
    replace (Z.to_nat (d + 1)) with (S (Z.to_nat d)) by lia.
    rewrite <- Hb. apply take_S_r.
    unfold top, level in Ht. rewrite Hdep in Ht.
    destruct (lookup_lt_is_Some_2 (stack (tok m')) (Z.to_nat d)) as [r' Hr'];
      [unfold zlen in Hl; lia|]. rewrite Hr' in Ht |- *. simpl in Ht. by subst.
Qed.

Lemma step_pop m d bel q v sv rest :
  cfg m d (bel ++ [q]) (Srec state_finish sv v None) rest -> Z.of_nat (length bel) = d - 1 ->
  exists m', steps m m' /\ cfg m' (d - 1) bel q rest /\ obj m' = v.
Proof.
  intros Hcfg Hlen. destruct (cfg_fields _ _ _ _ _ _ _ _ Hcfg) as (Hst & _ & Hcu & _).
  pose proof (switch_good (-1) m) as Hg.
  assert (mach_ok m) as Hm.
  { split; [split; [apply Hcfg|]|].
    - rewrite (cf_top _ _ _ _ _ Hcfg). unfold top_ok. simpl. split_and!; done.
    - by rewrite (cf_c _ _ _ _ _ Hcfg), (cf_cur _ _ _ _ _ Hcfg). }
  specialize (Hg Hm ltac:(intros _ [Hof _]; congruence)). destruct (switch (-1) m) as [o m'] eqn:E.
  destruct Hcfg as [Hf Hdep Hb Ht Hcur Hc He Hw Ho Hr Hmx Htot].
  unfold switch in E. rewrite Hst in E. unfold case_finish in E.
  destruct (Z.eqb_spec (depth (tok m)) 0); [lia|]. simpl in E. injection E as <- <-.
  eexists. split; [|split].
  - apply steps_redo. unfold switch. rewrite Hst. unfold case_finish.
    destruct (Z.eqb_spec (depth (tok m)) 0); [lia|]. simpl. reflexivity.
  - destruct Hg as [[Hf' _] _]. cbn [snd] in Hf'.
    assert (take (Z.to_nat (d - 1)) (stack (tok m)) = bel) as Hbel.
    { replace (Z.to_nat (d - 1)) with (min (Z.to_nat (d - 1)) (Z.to_nat d)) by lia.
      rewrite <- take_take, Hb. replace (Z.to_nat (d - 1)) with (length bel) by lia.
      apply take_app_length. }
    assert (stack (tok m) !! Z.to_nat (d - 1) = Some q) as Hq.
    { rewrite <- (lookup_take_lt _ (Z.to_nat d)), Hb by lia.
      replace (Z.to_nat (d - 1)) with (length bel) by lia. by rewrite lookup_app_r, Nat.sub_diag. }
    split; try done; simpl.
    + lia.
    + rewrite take_insert_ge by lia. by rewrite Hdep in *.
    + unfold top, level. simpl. rewrite Hdep, list_lookup_insert_ne by lia. by rewrite Hq.
  - done.
Qed.

(** ** Scalars *)

Context (Hal : malloc_total al).

(** [append] of one byte, and what the comparisons of the literals see. *)
Lemma append_reads m d bel r rest t w :
  cfg m d bel r rest -> contents (pb (tok m)) = t -> zlen t + zlen w <= MAX_TEXT + 100 ->
  cfg (append w m) d bel r rest /\ contents (pb (tok (append w m))) = t ++ w /\
  cstr (buf (pb (tok (append w m)))) = cstr (t ++ w).
Proof.
  intros Hcfg Ht Hlen. destruct (cfg_append Hal _ _ _ _ _ _ _ Hcfg Ht Hlen) as (Hc & E & Hterm).
  split_and!; [done..|]. rewrite terminated_reads, E; [done|apply Hc|done].
Qed.

Lemma null_char m d bel sv cu nm x rest t :
  cfg m d bel (Srec state_null sv cu nm) (x :: rest) -> x <> 0 ->
  contents (pb (tok m)) = t -> st_pos (tok m) = zlen t -> zlen t < 4 ->
  strn_eq_by tolower (S (length t)) json_null_str (cstr (t ++ [x])) = true ->
  exists m', steps m m' /\ cfg m' d bel (Srec state_null sv cu nm) rest /\
  contents (pb (tok m')) = t ++ [x] /\ st_pos (tok m') = zlen (t ++ [x]).
Proof.
  intros Hcfg Hx Ht Hpos Hlt Hcmp.
  destruct (append_reads _ _ _ _ _ t [x] Hcfg Ht) as (Hcfg1 & Et & Eb);
    [change (zlen [x]) with 1; unfold MAX_TEXT; lia|].
  edestruct (break_cfg m (upd_tok (set_st_pos (zlen t + 1)) (append [x] m))) as [Hst Hcfg2].
  - unfold switch. destruct (cfg_fields _ _ _ _ _ _ _ _ Hcfg) as (-> & _).
    unfold case_null. rewrite (cf_c _ _ _ _ _ Hcfg). simpl hd.
    change (st_pos (tok (append [x] m))) with (st_pos (tok m)). rewrite Hpos.
    change (strlen json_null_str) with 4. unfold strncasecmp_eq. rewrite Eb, Z.min_l by lia.
    replace (Z.to_nat (zlen t + 1)) with (S (length t)) by (unfold zlen; lia).
    change (cstr json_null_str) with json_null_str. rewrite Hcmp.
    destruct (Z.eqb_spec (zlen t) 4); [lia|]. reflexivity.
  - apply cfg_quiet; [done..|apply Hcfg1|exact Hcfg1].
  - done.
  - eexists. split; [exact Hst|]. split; [exact Hcfg2|]. split; [exact Et|].
    simpl. by rewrite zlen_app.
Qed.

Lemma parse_null m d bel sv cu rest :
  cfg m d bel (Srec state_start sv cu None) (str "null" ++ rest) ->
  exists m', steps m m' /\ cfg m' d bel (Srec state_eatws state_finish JNull None) rest.
Proof.
  intros Hcfg. set (m1 := upd_tok (set_st_pos 0) (reset_pb (set_state state_null m))).
  assert (steps m m1) as S1.
  { apply steps_redo. unfold switch. destruct (cfg_fields _ _ _ _ _ _ _ _ Hcfg) as (-> & _).
    unfold case_start. by rewrite (cf_c _ _ _ _ _ Hcfg). }
  assert (cfg m1 d bel (Srec state_null sv cu None) (str "null" ++ rest) /\
          contents (pb (tok m1)) = []) as [Hcfg1 Ht1].
  { destruct (cfg_reset_pb (set_state state_null m) d bel (Srec state_null sv cu None) (str "null" ++ rest)) as [Hc0 E0].
    - by eapply cfg_set_state.
    - split; [apply cfg_quiet; [done..|apply Hc0|exact Hc0]|exact E0]. }
  destruct (null_char m1 _ _ _ _ _ _ _ _ Hcfg1 ltac:(done) Ht1) as (m2 & S2 & Hcfg2 & Ht2 & Hp2); [done..|].
  destruct (null_char m2 _ _ _ _ _ _ _ _ Hcfg2 ltac:(done) Ht2) as (m3 & S3 & Hcfg3 & Ht3 & Hp3); [done..|].
  destruct (null_char m3 _ _ _ _ _ _ _ _ Hcfg3 ltac:(done) Ht3) as (m4 & S4 & Hcfg4 & Ht4 & Hp4); [done..|].
  destruct (null_char m4 _ _ _ _ _ _ _ _ Hcfg4 ltac:(done) Ht4) as (m5 & S5 & Hcfg5 & Ht5 & Hp5); [done..|].
  exists (set_states state_finish state_eatws (set_current jnull (append [hd 0 rest] m5))).
  destruct (append_reads _ _ _ _ _ _ [hd 0 rest] Hcfg5 Ht5) as (Hcfg6 & _ & Eb); [done|].
  split.
  - do 5 (eapply steps_trans; [eassumption|]). apply steps_redo. unfold switch.
    destruct (cfg_fields _ _ _ _ _ _ _ _ Hcfg5) as (-> & _).
    unfold case_null. rewrite (cf_c _ _ _ _ _ Hcfg5).
    change (st_pos (tok (append [hd 0 rest] m5))) with (st_pos (tok m5)). rewrite Hp5.
    unfold strncasecmp_eq. rewrite Eb. by destruct (hd 0 rest).
  - eapply cfg_set_states, cfg_set_current. exact Hcfg6.
Qed.

(** The comparison of [case_boolean] once the bytes [t] have been collected. *)
Definition lit_cmp (lit t : bytes) : bool :=
  strn_eq_by tolower (Z.to_nat (Z.min (zlen t) (strlen lit))) lit (cstr t).

Lemma case_boolean_eq m d bel sv cu nm rest t :
  cfg m d bel (Srec state_boolean sv cu nm) rest ->
  contents (pb (tok m)) = t -> st_pos (tok m) = zlen t -> zlen t < 10 ->
  let t' := t ++ [hd 0 rest] in let m' := append [hd 0 rest] m in
  switch (-1) m =
    (if lit_cmp json_true_str t' then
       if zlen t =? 4 then (Redo, set_states state_finish state_eatws (set_current (JBool 1) (set_heap tt m')))
       else (Break, upd_tok (set_st_pos (zlen t')) m')
     else if lit_cmp json_false_str t' then
       if zlen t =? 5 then (Redo, set_states state_finish state_eatws (set_current (JBool 0) (set_heap tt m')))
       else (Break, upd_tok (set_st_pos (zlen t')) m')
     else (Out, set_error json_tokener_error_parse_boolean m')) /\
  cfg m' d bel (Srec state_boolean sv cu nm) rest /\ contents (pb (tok m')) = t'.
Proof.
  intros Hcfg Ht Hpos Hlt t' m'.
  destruct (append_reads _ _ _ _ _ t [hd 0 rest] Hcfg Ht) as (Hcfg1 & Et & Eb);
    [change (zlen [hd 0 rest]) with 1; unfold MAX_TEXT; lia|].
  split; [|done]. unfold switch. destruct (cfg_fields _ _ _ _ _ _ _ _ Hcfg) as (-> & _).
  unfold case_boolean. rewrite (cf_c _ _ _ _ _ Hcfg). fold m'.
  change (st_pos (tok m')) with (st_pos (tok m)). rewrite Hpos.
  unfold strncasecmp_eq, lit_cmp. fold m' in Eb. rewrite Eb. fold t'.
  assert (zlen t + 1 = zlen t') as -> by (unfold t'; by rewrite zlen_app).
  destruct (heap m'). done.
Qed.

(** Collecting [x] after [t] does not end the literal. *)
Definition lit_goes_on (t : bytes) (x : Z) : bool :=
  if lit_cmp json_true_str (t ++ [x]) then negb (zlen t =? 4)
  else lit_cmp json_false_str (t ++ [x]) && negb (zlen t =? 5).

Fixpoint lit_ok (t w : bytes) : bool :=
  match w with
  | [] => true
  | x :: w' => negb (x =? 0) && lit_goes_on t x && lit_ok (t ++ [x]) w'
  end.

Lemma bool_char m d bel sv cu nm x rest t :
  cfg m d bel (Srec state_boolean sv cu nm) (x :: rest) -> x <> 0 ->
  contents (pb (tok m)) = t -> st_pos (tok m) = zlen t -> zlen t < 10 ->
  lit_goes_on t x = true ->
  exists m', steps m m' /\ cfg m' d bel (Srec state_boolean sv cu nm) rest /\
  contents (pb (tok m')) = t ++ [x] /\ st_pos (tok m') = zlen (t ++ [x]).
Proof.
  intros Hcfg Hx Ht Hpos Hlt Hcmp.
  destruct (case_boolean_eq _ _ _ _ _ _ _ _ Hcfg Ht Hpos Hlt) as (E & Hcfg1 & Et). simpl hd in *.
  edestruct (break_cfg m (upd_tok (set_st_pos (zlen (t ++ [x]))) (append [x] m))) as [Hst Hcfg2].
  - unfold lit_goes_on in Hcmp. rewrite E. destruct (lit_cmp json_true_str _); [by destruct (zlen t =? 4)|].
    apply andb_true_iff in Hcmp as [-> Hcmp]. by destruct (zlen t =? 5).
  - apply cfg_quiet; [done..|apply Hcfg1|exact Hcfg1].
  - done.
  - by exists (skip 1 (upd_tok (set_st_pos (zlen (t ++ [x]))) (append [x] m))).
Qed.

(** The bytes of a literal, one after the other. *)
Lemma bool_chars w : forall m d bel sv cu nm rest t,
  cfg m d bel (Srec state_boolean sv cu nm) (w ++ rest) ->
  contents (pb (tok m)) = t -> st_pos (tok m) = zlen t -> zlen t + zlen w < 10 ->
  lit_ok t w = true ->
  exists m', steps m m' /\ cfg m' d bel (Srec state_boolean sv cu nm) rest /\
  contents (pb (tok m')) = t ++ w /\ st_pos (tok m') = zlen (t ++ w).
Proof.
  induction w as [|x w IH]; intros m d bel sv cu nm rest t Hcfg Ht Hpos Hlen Hw.
  { exists m. rewrite app_nil_r. split; [apply steps_refl|done]. }
  rewrite zlen_cons in Hlen. pose proof (zlen_nonneg w).
  simpl in Hw. apply andb_true_iff in Hw as [[Hx Hcmp]%andb_true_iff Hw]. bool_to_prop.
  destruct (bool_char _ _ _ _ _ _ _ _ _ Hcfg Hx Ht Hpos ltac:(lia) Hcmp) as (m1 & S1 & Hcfg1 & Ht1 & Hp1).
  destruct (IH m1 d bel sv cu nm rest (t ++ [x]) Hcfg1 Ht1 Hp1) as (m2 & S2 & Hcfg2 & Ht2 & Hp2).
  - rewrite zlen_app. change (zlen [x]) with 1. lia.
  - exact Hw.
  - exists m2. rewrite <- app_assoc in Ht2, Hp2. split; [by eapply steps_trans|done].
Qed.

Lemma parse_bool m d bel sv cu b rest :
  b = 0 \/ b = 1 ->
  cfg m d bel (Srec state_start sv cu None) (text (JBool b) 0 0 ++ rest) ->
  exists m', steps m m' /\ cfg m' d bel (Srec state_eatws state_finish (JBool b) None) rest.
Proof.
  intros Hb Hcfg. set (m1 := upd_tok (set_st_pos 0) (reset_pb (set_state state_boolean m))).
  assert (steps m m1) as S1.
  { apply steps_redo. unfold switch. destruct (cfg_fields _ _ _ _ _ _ _ _ Hcfg) as (-> & _).
    unfold case_start. rewrite (cf_c _ _ _ _ _ Hcfg). by destruct Hb; subst. }
  set (w := text (JBool b) 0 0) in *.
  assert (cfg m1 d bel (Srec state_boolean sv cu None) (w ++ rest) /\
          contents (pb (tok m1)) = []) as [Hcfg1 Ht1].
  { destruct (cfg_reset_pb (set_state state_boolean m) d bel (Srec state_boolean sv cu None) (w ++ rest)) as [Hc0 E0].
    - by eapply cfg_set_state.
    - split; [apply cfg_quiet; [done..|apply Hc0|exact Hc0]|exact E0]. }
  destruct (bool_chars w m1 _ _ _ _ _ _ _ Hcfg1 Ht1) as (m2 & S2 & Hcfg2 & Ht2 & Hp2);
    [done|by destruct Hb; subst..|].
  destruct (case_boolean_eq _ _ _ _ _ _ _ _ Hcfg2 Ht2 Hp2) as (E & Hcfg3 & _);
    [by destruct Hb; subst|].
  assert (forall x, lit_cmp json_true_str (str "true" ++ [x]) = true /\
    lit_cmp json_true_str (str "false" ++ [x]) = false /\
    lit_cmp json_false_str (str "false" ++ [x]) = true) as Hcmp by (intros []; done).
  destruct (Hcmp (hd 0 rest)) as (C1 & C2 & C3).
  destruct Hb; subst b; eexists; (split; [do 2 (eapply steps_trans; [eassumption|]);
    apply steps_redo; rewrite E; simpl in w; subst w; cbn [app]; rewrite ?C1, ?C2, ?C3; reflexivity|
    eapply cfg_set_states, cfg_set_current, cfg_heap; exact Hcfg3]).
Qed.

(** What the collected bytes of a number stand for. *)
Definition number_value (w : bytes) : option json :=
  if existsb is_double_char w then JDouble <$> scan_double w else JInt <$> parse_int64 w.

Lemma cstr_idem l : cstr (cstr l) = cstr l.
Proof.
  induction l as [|b l IH]; [done|]. simpl. destruct (b =? 0) eqn:E; [done|].
  simpl. by rewrite E, IH.
Qed.

Lemma parse_int64_cstr b : parse_int64 (cstr b) = parse_int64 b.
Proof. unfold parse_int64, json_parse_int64. by rewrite cstr_idem. Qed.

Definition number_head (x : Z) : bool := isdigit x || (x =? 45).

Lemma number_head_other x :
  number_head x = true ->
  x <> 123 /\ x <> 91 /\ x <> 78 /\ x <> 110 /\ x <> 34 /\ x <> 39 /\ x <> 84 /\ x <> 116 /\
  x <> 70 /\ x <> 102 /\ x <> 93 /\ x <> 47 /\ x <> 0 /\ isspace x = false.
Proof.
  unfold number_head. rewrite orb_true_iff, isdigit_range, Z.eqb_eq. intros Hx.
  unfold isspace. rewrite orb_false_iff, Z.eqb_neq, andb_false_iff, !Z.leb_gt. lia.
Qed.

Lemma start_number m d bel sv cu nm x rest :
  cfg m d bel (Srec state_start sv cu nm) (x :: rest) -> number_head x = true ->
  exists m1, steps m m1 /\ cfg m1 d bel (Srec state_number sv cu nm) (x :: rest) /\
  contents (pb (tok m1)) = [] /\ is_double (tok m1) = false.
Proof.
  intros Hcfg Hx. exists (upd_tok (set_is_double false) (reset_pb (set_state state_number m))).
  split.
  - apply steps_redo. unfold switch. destruct (cfg_fields _ _ _ _ _ _ _ _ Hcfg) as (-> & _).
    unfold case_start. rewrite (cf_c _ _ _ _ _ Hcfg). simpl hd.
    destruct (number_head_other x Hx) as (N1 & N2 & N3 & N4 & N5 & N6 & N7 & N8 & N9 & N10 & _).
    unfold number_head in Hx. rewrite Hx.
    rewrite (proj2 (Z.eqb_neq _ _) N1), (proj2 (Z.eqb_neq _ _) N2), (proj2 (Z.eqb_neq _ _) N3),
      (proj2 (Z.eqb_neq _ _) N4), (proj2 (Z.eqb_neq _ _) N5), (proj2 (Z.eqb_neq _ _) N6),
      (proj2 (Z.eqb_neq _ _) N7), (proj2 (Z.eqb_neq _ _) N8), (proj2 (Z.eqb_neq _ _) N9),
      (proj2 (Z.eqb_neq _ _) N10). done.
  - destruct (cfg_reset_pb (set_state state_number m) d bel (Srec state_number sv cu nm) (x :: rest)) as [Hc0 E0].
    + by eapply cfg_set_state.
    + split; [apply cfg_quiet; [done..|apply Hc0|exact Hc0]|]. split; [exact E0|done].
Qed.

Lemma parse_number m d bel sv cu w rest v :
  cfg m d bel (Srec state_start sv cu None) (w ++ rest) ->
  starts_with number_head w = true -> Forall (fun x => is_number_char x = true) w ->
  is_number_char (hd 0 rest) = false -> number_value w = Some v ->
  exists m', steps m m' /\ cfg m' d bel (Srec state_eatws state_finish v None) rest.
Proof.
  intros Hcfg Hhead Hw Hrest Hv. destruct w as [|x w]; [done|].
  destruct (start_number _ _ _ _ _ _ _ _ Hcfg Hhead) as (m1 & S1 & Hcfg1 & Ht1 & Hdbl).
  change (cfg m1 d bel (Srec state_number sv cu None) ((x :: w) ++ rest)) in Hcfg1. set (t := x :: w) in *.
  assert (Forall (fun y => y <> 0 /\ is_number_char y = true) t) as Ht.
  { eapply Forall_impl; [|exact Hw]. intros y Hy. split; [|done]. by intros ->. }
  pose proof (scan_eq _ _ _ _ _ _ _ Hcfg1 Ht Hrest) as Escan.
  pose proof (since_skip _ _ _ _ _ _ Hcfg1) as Esince.
  pose proof (cfg_skip _ _ _ _ _ _ Hcfg1) as Hcfg2.
  pose proof (cf_room _ _ _ _ _ Hcfg1) as Hroom. pose proof (cf_off _ _ _ _ _ Hcfg1).
  rewrite zlen_app in Hroom. pose proof (zlen_nonneg rest).
  set (m2 := upd_tok (fun tk => set_is_double (is_double tk || existsb is_double_char t) tk)
               (skip (length t) m1)).
  assert (cfg m2 d bel (Srec state_number sv cu None) rest) as Hcfg3.
  { apply cfg_quiet; [done..|apply Hcfg2|exact Hcfg2]. }
  destruct (append_reads m2 _ _ _ _ [] t Hcfg3) as (Hcfg4 & Et & Eb);
    [exact Ht1|change (zlen []) with 0; lia|].
  assert (cstr (buf (pb (tok (append t m2)))) = t) as Ecstr.
  { rewrite Eb. apply cstr_nonzero. eapply Forall_impl; [|exact Ht]. by intros ? [? _]. }
  assert (exists h p, switch (-1) m1 =
    (Redo, set_states state_finish state_eatws (set_current p (set_heap h (append t m2)))) /\ p = v)
    as (h & p & Esw & ->).
  { unfold switch. destruct (cfg_fields _ _ _ _ _ _ _ _ Hcfg1) as (-> & _).
    unfold case_number. rewrite Escan, Esince. cbn [negb]. fold m2.
    assert ((zlen t >? 0) = true) as ->
      by (unfold t; rewrite zlen_cons; pose proof (zlen_nonneg w); apply Z.gtb_lt; lia).
    change (is_double (tok (append t m2))) with (is_double (tok m1) || existsb is_double_char t).
    rewrite Hdbl. cbn [orb]. unfold number_value in Hv. destruct (existsb is_double_char t).
    - rewrite Ecstr. destruct (scan_double t) as [dv|]; [|done]. injection Hv as <-. eauto.
    - rewrite <- parse_int64_cstr, Ecstr. destruct (parse_int64 t) as [n|]; [|done].
      injection Hv as <-. eauto. }
  eexists. split; [eapply steps_trans; [exact S1|]; apply steps_redo; exact Esw|].
  eapply cfg_set_states, cfg_set_current, cfg_heap. exact Hcfg4.
Qed.

(** ** Strings *)

(** In one of the two string states, with [t] collected. *)
Definition str_cfg m d bel st sv cu nm rest (t : bytes) : Prop :=
  cfg m d bel (Srec st sv cu nm) rest /\ collected m t /\ quote_char (tok m) = 34.

Definition str_state (st : json_tokener_state) : Prop :=
  st = state_string \/ st = state_object_field.

(** A byte the string states copy. *)
Definition plain (b : Z) : Prop := b <> 0 /\ in_text 34 b = true.

Lemma str_append m d bel st sv cu nm w rest t :
  str_cfg m d bel st sv cu nm (w ++ rest) t ->
  let m' := append w (skip (length w) m) in
  cfg m' d bel (Srec st sv cu nm) rest /\ collected m' (t ++ w) /\ quote_char (tok m') = 34 /\
  cstr (buf (pb (tok m'))) = cstr (t ++ w).
Proof.
  intros (Hcfg & [Ht Hlen] & Hq) m'. pose proof (cfg_skip _ _ _ _ _ _ Hcfg) as Hcfg1.
  pose proof (cf_room _ _ _ _ _ Hcfg) as Hroom. rewrite zlen_app in Hroom.
  pose proof (zlen_nonneg rest).
  destruct (append_reads _ _ _ _ _ t w Hcfg1) as (Hcfg2 & Et & Eb); [exact Ht|lia|].
  split; [exact Hcfg2|]. split; [split; [exact Et|]|by split].
  simpl. rewrite zlen_app. unfold zlen in *. lia.
Qed.

Lemma str_scan m d bel st sv cu nm raw x rest t :
  str_cfg m d bel st sv cu nm (raw ++ x :: rest) t -> Forall plain raw -> in_text 34 x = false ->
  scan_while (-1) (in_text (quote_char (tok m))) m = (skip (length raw) m, true) /\
  since m (skip (length raw) m) = raw.
Proof.
  intros (Hcfg & _ & Hq) Hraw Hx. rewrite Hq. split; [|by eapply since_skip].
  by eapply scan_eq.
Qed.

(** A backslash: the bytes before it are collected. *)
Lemma str_backslash m d bel st sv cu nm raw rest t :
  str_state st -> str_cfg m d bel st sv cu nm (raw ++ 92 :: rest) t -> Forall plain raw ->
  exists m', steps m m' /\ str_cfg m' d bel state_string_escape st cu nm rest (t ++ raw).
Proof.
  intros Hst Hs Hraw. destruct (str_scan _ _ _ _ _ _ _ _ _ _ _ Hs Hraw eq_refl) as [Escan Esince].
  destruct (str_append _ _ _ _ _ _ _ _ _ _ Hs) as (Hcfg1 & [Et Hlen] & Hq1 & _).
  set (m1 := append raw (skip (length raw) m)) in *.
  assert (c m1 = 92) as Hc1 by apply (cf_c _ _ _ _ _ Hcfg1).
  assert (switch (-1) m = (Break, set_states st state_string_escape m1)) as E.
  { destruct Hs as (Hcfg & _ & Hq). unfold switch.
    destruct (cfg_fields _ _ _ _ _ _ _ _ Hcfg) as (-> & _).
    destruct Hst; subst st; unfold case_string, case_object_field;
      rewrite Escan, Esince; cbn [negb]; fold m1; rewrite Hc1, Hq; done. }
  destruct (break_cfg m _ d bel (Srec state_string_escape st cu nm) 92 rest E) as [S2 Hcfg2];
    [by eapply cfg_set_states|done|].
  eexists. split; [exact S2|]. split; [exact Hcfg2|]. split; [split; [exact Et|]|exact Hq1].
  simpl in *. lia.
Qed.

(** One byte written for an escape sequence. *)
Lemma str_escaped m d bel st cu nm e b rest t :
  str_cfg m d bel state_string_escape st cu nm (e :: rest) t -> e <> 0 ->
  case_string_escape m = (Break, set_state st (append [b] m)) ->
  exists m', steps m m' /\ str_cfg m' d bel st st cu nm rest (t ++ [b]).
Proof.
  intros (Hcfg & [Ht Hlen] & Hq) He E. pose proof (cf_room _ _ _ _ _ Hcfg) as Hroom.
  rewrite zlen_cons in Hroom. pose proof (zlen_nonneg rest).
  destruct (append_reads m _ _ _ _ t [b] Hcfg Ht) as (Hcfg1 & Et & _);
    [change (zlen [b]) with 1; lia|].
  destruct (break_cfg m (set_state st (append [b] m)) d bel (Srec st st cu nm) e rest) as [S2 Hcfg2].
  - unfold switch. by destruct (cfg_fields _ _ _ _ _ _ _ _ Hcfg) as (-> & _).
  - by eapply cfg_set_state.
  - done.
  - eexists. split; [exact S2|]. split; [exact Hcfg2|]. split; [split; [exact Et|]|exact Hq].
    simpl. rewrite zlen_app. change (zlen [b]) with 1. lia.
Qed.

Lemma str_simple_escape m d bel st cu nm e b rest t :
  str_cfg m d bel state_string_escape st cu nm (e :: rest) t ->
  (e, b) ∈ [(34, 34); (92, 92); (47, 47); (98, 8); (110, 10); (114, 13); (116, 9); (102, 12)] ->
  exists m', steps m m' /\ str_cfg m' d bel st st cu nm rest (t ++ [b]).
Proof.
  intros Hs He. pose proof Hs as (Hcfg & _ & _).
  assert (e <> 0 /\ case_string_escape m = (Break, set_state st (append [b] m))) as [Hne E].
  { unfold case_string_escape. rewrite (cf_c _ _ _ _ _ Hcfg).
    destruct (cfg_fields _ _ _ _ _ _ _ _ Hcfg) as (_ & -> & _).
    rewrite !elem_of_cons in He. destruct_or! He; simplify_eq/=; try done.
    by apply elem_of_nil in He. }
  by eapply str_escaped.
Qed.

(** *** Four hexadecimal digits *)

(** The machine after a digit has been added. *)
Definition digit m : mach :=
  upd_tok (set_st_pos (st_pos (tok m) + 1))
    (upd_tok (fun t => set_ucs_char
       (u32 (ucs_char t + shl32 (u32 (hexdigit (c m))) ((3 - st_pos (tok m)) * 4))) t) m).

Definition hex4 (a b e f : Z) : Z :=
  hexdigit a * 4096 + hexdigit b * 256 + hexdigit e * 16 + hexdigit f.

(** A byte of [json_hex_chars]. *)
Definition hex_ok (x : Z) : Prop := x <> 0 /\ strchr json_hex_chars x = true.

Lemma hex_ok_range x : hex_ok x -> 0 <= hexdigit x <= 15.
Proof.
  intros [Hx Hs]. unfold strchr in Hs. destruct (Z.eqb_spec x 0); [done|].
  apply existsb_exists in Hs as (y & Hy & ->%Z.eqb_eq).
  assert (forallb (fun y => (0 <=? hexdigit y) && (hexdigit y <=? 15)) (cstr json_hex_chars) = true)
    as Hall by reflexivity.
  rewrite forallb_forall in Hall. specialize (Hall y Hy). bool_to_prop. lia.
Qed.

Lemma digit_quiet m d bel r rest : cfg m d bel r rest -> cfg (digit m) d bel r rest.
Proof. intros Hcfg. apply cfg_quiet; [done..|apply Hcfg|]. apply cfg_quiet; [done..|apply Hcfg|done]. Qed.

Lemma unicode_digit loop hi m d bel r x y rest :
  cfg m d bel r (x :: y :: rest) -> hex_ok x -> st_pos (tok m) < 3 ->
  unicode_body (-1) loop hi m = loop hi (skip 1 (digit m)).
Proof.
  intros Hcfg [Hx Hs] Hp. unfold unicode_body. fold (digit m).
  rewrite (cf_c _ _ _ _ _ Hcfg). simpl hd. rewrite Hs.
  destruct (Z.eqb_spec (st_pos (tok m) + 1) 4); [lia|].
  pose proof (digit_quiet _ _ _ _ _ Hcfg) as Hcfg1.
  pose proof (advance_eq _ _ _ _ _ _ Hcfg1 Hx) as E. unfold digit in E |- *.
  rewrite (cf_c _ _ _ _ _ Hcfg) in E |- *. simpl hd in E |- *. by rewrite E.
Qed.

Lemma unicode_last_digit loop hi m d bel r x rest :
  cfg m d bel r (x :: rest) -> hex_ok x -> st_pos (tok m) = 3 ->
  unicode_body (-1) loop hi m =
  match sequence_end (-1) hi (digit m) with
  | inl (hi', m') => loop hi' m'
  | inr res => res
  end.
Proof.
  intros Hcfg [Hx Hs] Hp. unfold unicode_body, digit.
  rewrite (cf_c _ _ _ _ _ Hcfg). simpl hd. by rewrite Hs, Hp.
Qed.

(** The four digits of a sequence: the loop reaches [sequence_end] with their
    value, standing on the last one. *)
Lemma unicode_four fuel hi m d bel r a b e f rest :
  cfg m d bel r (a :: b :: e :: f :: rest) ->
  hex_ok a -> hex_ok b -> hex_ok e -> hex_ok f ->
  st_pos (tok m) = 0 -> ucs_char (tok m) = 0 ->
  exists m', cfg m' d bel r (f :: rest) /\ ucs_char (tok m') = hex4 a b e f /\
  pb (tok m') = pb (tok m) /\ quote_char (tok m') = quote_char (tok m) /\
  char_offset (tok m') = char_offset (tok m) + 3 /\
  unicode_loop (-1) (4 + fuel) hi m =
  match sequence_end (-1) hi m' with
  | inl (hi', m'') => unicode_loop (-1) fuel hi' m''
  | inr res => res
  end.
Proof.
  intros Hcfg Ha Hb He Hf Hp Hu. simpl plus. cbn [unicode_loop].
  pose proof (cfg_skip (digit m) d bel r [a] _ (digit_quiet _ _ _ _ _ Hcfg)) as Hcfg1.
  cbn [length] in Hcfg1. set (m1 := skip 1 (digit m)) in Hcfg1.
  pose proof (cfg_skip (digit m1) d bel r [b] _ (digit_quiet _ _ _ _ _ Hcfg1)) as Hcfg2.
  cbn [length] in Hcfg2. set (m2 := skip 1 (digit m1)) in Hcfg2.
  pose proof (cfg_skip (digit m2) d bel r [e] _ (digit_quiet _ _ _ _ _ Hcfg2)) as Hcfg3.
  cbn [length] in Hcfg3. set (m3 := skip 1 (digit m2)) in Hcfg3.
  exists (digit m3). split; [by apply digit_quiet|].
  pose proof (hex_ok_range _ Ha). pose proof (hex_ok_range _ Hb).
  pose proof (hex_ok_range _ He). pose proof (hex_ok_range _ Hf).
  pose proof (cf_c _ _ _ _ _ Hcfg) as C0. pose proof (cf_c _ _ _ _ _ Hcfg1) as C1.
  pose proof (cf_c _ _ _ _ _ Hcfg2) as C2. pose proof (cf_c _ _ _ _ _ Hcfg3) as C3.
  simpl hd in C0, C1, C2, C3.
  assert (st_pos (tok m1) = 1) as P1 by (simpl; lia).
  assert (st_pos (tok m2) = 2) as P2 by (simpl; lia).
  assert (st_pos (tok m3) = 3) as P3 by (simpl; lia).
  assert (forall x n k, 0 <= x <= 15 -> (3 - n) * 4 = k -> 0 <= k <= 12 ->
    shl32 (u32 x) ((3 - n) * 4) = x * 2 ^ k) as Hshl.
  { intros x n k Hx -> Hk. unfold shl32, u32. rewrite (wrap_id 32 x) by lia.
    rewrite Z.mod_small, Z.shiftl_mul_pow2 by lia. apply wrap_id.
    assert (0 < 2 ^ k) by (apply Z.pow_pos_nonneg; lia).
    assert (2 ^ k <= 2 ^ 12) by (apply Z.pow_le_mono_r; lia). change (2 ^ 12) with 4096 in *.
    change (2 ^ 32) with 4294967296. nia. }
  split; [|split; [done|split; [done|split]]].
  - assert (ucs_char (tok m1) = hexdigit a * 4096) as U1.
    { change (u32 (ucs_char (tok m) + shl32 (u32 (hexdigit (c m))) ((3 - st_pos (tok m)) * 4)) = hexdigit a * 4096).
      rewrite C0, Hu, (Hshl _ _ 12) by lia. apply wrap_id. lia. }
    assert (ucs_char (tok m2) = hexdigit a * 4096 + hexdigit b * 256) as U2.
    { change (u32 (ucs_char (tok m1) + shl32 (u32 (hexdigit (c m1))) ((3 - st_pos (tok m1)) * 4)) = hexdigit a * 4096 + hexdigit b * 256).
      rewrite C1, U1, (Hshl _ _ 8) by lia. apply wrap_id. lia. }
    assert (ucs_char (tok m3) = hexdigit a * 4096 + hexdigit b * 256 + hexdigit e * 16) as U3.
    { change (u32 (ucs_char (tok m2) + shl32 (u32 (hexdigit (c m2))) ((3 - st_pos (tok m2)) * 4)) = hexdigit a * 4096 + hexdigit b * 256 + hexdigit e * 16).
      rewrite C2, U2, (Hshl _ _ 4) by lia. apply wrap_id. lia. }
    change (u32 (ucs_char (tok m3) + shl32 (u32 (hexdigit (c m3))) ((3 - st_pos (tok m3)) * 4)) = hex4 a b e f).
    rewrite C3, U3, (Hshl _ _ 0) by lia. unfold hex4. rewrite Z.mul_1_r. apply wrap_id. lia.
  - simpl. lia.
  - rewrite (unicode_digit _ _ _ _ _ _ _ _ _ Hcfg Ha) by lia. fold m1.
    cbn [unicode_loop]. rewrite (unicode_digit _ _ _ _ _ _ _ _ _ Hcfg1 Hb) by lia. fold m2.
    cbn [unicode_loop]. rewrite (unicode_digit _ _ _ _ _ _ _ _ _ Hcfg2 He) by lia. fold m3.
    cbn [unicode_loop]. by rewrite (unicode_last_digit _ _ _ _ _ _ _ _ Hcfg3 Hf) by lia.
Qed.

(** A machine on the last digit of a sequence, its value in [ucs_char]; the
    text [t] collected before it. *)
Definition seq_cfg m d bel st cu nm f rest (t : bytes) (u : Z) : Prop :=
  cfg m d bel (Srec state_escape_unicode st cu nm) (f :: rest) /\ ucs_char (tok m) = u /\
  contents (pb (tok m)) = t /\ zlen t + 4 <= char_offset (tok m) /\ quote_char (tok m) = 34.

(** "\u" and four digits: the loop reaches [sequence_end]. *)
Lemma enter_unicode m d bel st cu nm a b e f rest t :
  str_cfg m d bel state_string_escape st cu nm (117 :: a :: b :: e :: f :: rest) t ->
  hex_ok a -> hex_ok b -> hex_ok e -> hex_ok f ->
  exists m2 m3, steps m m2 /\ seq_cfg m3 d bel st cu nm f rest t (hex4 a b e f) /\
  switch (-1) m2 =
  match sequence_end (-1) 0 m3 with
  | inl (hi', m'') => unicode_loop (-1) (S (length rest)) hi' m''
  | inr res => res
  end.
Proof.
  intros (Hcfg & [Ht Hlen] & Hq) Ha Hb He Hf.
  set (m1 := set_state state_escape_unicode (upd_tok (set_st_pos 0) (upd_tok (set_ucs_char 0) m))).
  assert (switch (-1) m = (Break, m1)) as E1.
  { unfold switch. destruct (cfg_fields _ _ _ _ _ _ _ _ Hcfg) as (-> & _).
    unfold case_string_escape. by rewrite (cf_c _ _ _ _ _ Hcfg). }
  assert (cfg m1 d bel (Srec state_escape_unicode st cu nm) (117 :: a :: b :: e :: f :: rest)) as Hcfg1.
  { eapply cfg_set_state. apply cfg_quiet; [done..|apply Hcfg|].
    apply cfg_quiet; [done..|apply Hcfg|exact Hcfg]. }
  destruct (break_cfg _ _ _ _ _ _ _ E1 Hcfg1) as [S1 Hcfg2]; [done|].
  set (m2 := skip 1 m1) in *.
  destruct (unicode_four (S (length rest)) 0 m2 _ _ _ _ _ _ _ _ Hcfg2 Ha Hb He Hf)
    as (m3 & Hcfg3 & U3 & B3 & Q3 & O3 & E3); [done..|].
  assert (char_offset (tok m2) = char_offset (tok m) + 1) as O2 by done.
  exists m2, m3. split; [exact S1|]. split.
  - split_and!; [exact Hcfg3|exact U3|by rewrite B3|lia|by rewrite Q3].
  - unfold switch. destruct (cfg_fields _ _ _ _ _ _ _ _ Hcfg2) as (-> & _).
    unfold case_escape_unicode. rewrite (cf_cur _ _ _ _ _ Hcfg2). exact E3.
Qed.

(** The end of a sequence that appends [w]. *)
Lemma unicode_done m m3 d bel st cu nm f rest t u w :
  seq_cfg m3 d bel st cu nm f rest t u -> f <> 0 -> zlen w <= 4 ->
  switch (-1) m = (Break, set_state st (append w m3)) ->
  exists m', steps m m' /\ str_cfg m' d bel st st cu nm rest (t ++ w).
Proof.
  intros (Hcfg & _ & Ht & Hlen & Hq) Hf Hw E.
  pose proof (cf_room _ _ _ _ _ Hcfg) as Hroom. rewrite zlen_cons in Hroom.
  pose proof (zlen_nonneg rest).
  destruct (append_reads m3 _ _ _ _ t w Hcfg Ht) as (Hcfg4 & Et & _); [lia|].
  destruct (break_cfg m _ d bel (Srec st st cu nm) f rest E) as [S2 Hcfg5];
    [by eapply cfg_set_state|done|].
  eexists. split; [exact S2|]. split; [exact Hcfg5|]. split; [split; [exact Et|]|exact Hq].
  simpl. rewrite zlen_app. lia.
Qed.

(** An escaped code point below 128 adds one byte. *)
Lemma str_unicode m d bel st cu nm a b e f rest t :
  str_cfg m d bel state_string_escape st cu nm (117 :: a :: b :: e :: f :: rest) t ->
  hex_ok a -> hex_ok b -> hex_ok e -> hex_ok f -> hex4 a b e f < 128 ->
  exists m', steps m m' /\ str_cfg m' d bel st st cu nm rest (t ++ [hex4 a b e f]).
Proof.
  intros Hs Ha Hb He Hf Hu.
  destruct (enter_unicode _ _ _ _ _ _ _ _ _ _ _ _ Hs Ha Hb He Hf) as (m2 & m3 & S1 & Hseq & E).
  pose proof (hex_ok_range _ Ha). pose proof (hex_ok_range _ Hb).
  pose proof (hex_ok_range _ He). pose proof (hex_ok_range _ Hf).
  assert (0 <= hex4 a b e f) by (unfold hex4; lia).
  destruct (unicode_done m2 m3 _ _ _ _ _ _ _ _ _ [hex4 a b e f] Hseq) as (m' & S2 & Hs').
  - apply Hf.
  - done.
  - rewrite E. pose proof Hseq as (Hcfg & U & _). unfold sequence_end. cbn [Z.eqb negb]. rewrite U.
    destruct (Z.leb_spec 2048 (hex4 a b e f)); [lia|]. cbn [andb].
    destruct (cfg_fields _ _ _ _ _ _ _ _ Hcfg) as (_ & -> & _).
    unfold unescaped_utf. destruct (Z.ltb_spec (hex4 a b e f) 128); [|lia].
    unfold u8. rewrite wrap_id by lia. done.
  - exists m'. split; [by eapply steps_trans|done].
Qed.

(** The escape sequence of one byte. *)
Lemma esc_char_cases b :
  byte_ok b ->
  (esc_char b = [b] /\ plain b) \/
  (exists e, esc_char b = [92; e] /\
    (e, b) ∈ [(34, 34); (92, 92); (47, 47); (98, 8); (110, 10); (114, 13); (116, 9); (102, 12)]) \/
  (exists e f, esc_char b = [92; 117; 48; 48; e; f] /\ hex_ok e /\ hex_ok f /\ hex4 48 48 e f = b).
Proof.
  intros Hb. unfold byte_ok in Hb.
  destruct (Z.le_gt_cases 32 b) as [Hge|Hlt].
  - unfold esc_char, plain, in_text.
    destruct (Z.eqb_spec b 8); [lia|]. destruct (Z.eqb_spec b 10); [lia|].
    destruct (Z.eqb_spec b 13); [lia|]. destruct (Z.eqb_spec b 9); [lia|].
    destruct (Z.eqb_spec b 12); [lia|].
    destruct (Z.eqb_spec b 34) as [->|]; [right; left; exists 34; split; [done|repeat constructor]|].
    destruct (Z.eqb_spec b 92) as [->|]; [right; left; exists 92; split; [done|repeat constructor]|].
    destruct (Z.eqb_spec b 47) as [->|]; [right; left; exists 47; split; [done|repeat constructor]|].
    destruct (Z.ltb_spec b 32); [lia|]. left. split; [done|]. split; [lia|done].
  - assert (b ∈ seqZ 0 32) as Hin by (apply elem_of_seqZ; lia). clear Hb Hlt.
    right. repeat (apply elem_of_cons in Hin as [->|Hin]; [|]).
    all: try (by apply elem_of_nil in Hin).
    all: first [ left; eexists; split; [reflexivity|repeat constructor]
               | right; eexists _, _; split; [reflexivity|split_and!; done] ].
Qed.

Lemma escape_split s :
  Forall byte_ok s ->
  (Forall plain s /\ escape s = s) \/
  exists raw b s', s = raw ++ b :: s' /\ Forall plain raw /\ esc_char b <> [b] /\
    escape s = raw ++ esc_char b ++ escape s'.
Proof.
  induction 1 as [|b s Hb _ IH]; [by left|].
  destruct (decide (esc_char b = [b])) as [E|E]; [|right; by exists [], b, s].
  assert (plain b) as Hp.
  { destruct (esc_char_cases b Hb) as [[_ ?]|[(e & E' & _)|(e & f & E' & _)]]; [done| |];
      rewrite E' in E; discriminate. }
  rewrite escape_cons, E. destruct IH as [[Hs Es]|(raw & b' & s' & -> & Hraw & Hb' & Es)].
  - left. rewrite Es. split; [by constructor|done].
  - right. exists (b :: raw), b', s'. rewrite Es. split_and!; [done|by constructor|done..].
Qed.

(** A string up to its closing quote: everything before the last run of plain
    bytes has been collected. *)
Lemma str_body n : forall s m d bel st sv cu nm rest t,
  (length s <= n)%nat -> str_state st -> Forall byte_ok s ->
  str_cfg m d bel st sv cu nm (escape s ++ 34 :: rest) t ->
  exists m' sv' raw t', steps m m' /\
  str_cfg m' d bel st sv' cu nm (raw ++ 34 :: rest) t' /\ t' ++ raw = t ++ s /\ Forall plain raw.
Proof.
  induction n as [|n IH]; intros s m d bel st sv cu nm rest t Hn Hst Hs Hcfg.
  { destruct s; [|simpl in Hn; lia]. exists m, sv, [], t. split; [apply steps_refl|done]. }
  destruct (escape_split s Hs) as [[Hp E]|(raw & b & s' & -> & Hraw & Hb & E)]; rewrite E in Hcfg.
  { exists m, sv, s, t. split; [apply steps_refl|done]. }
  apply Forall_app in Hs as [_ Hs]. apply list.Forall_cons in Hs as [Hbyte Hs].
  rewrite length_app in Hn. simpl in Hn. rewrite <- !app_assoc in Hcfg.
  assert (exists m1, steps m m1 /\ str_cfg m1 d bel st st cu nm (escape s' ++ 34 :: rest) ((t ++ raw) ++ [b]))
    as (m1 & S1 & Hcfg1).
  { destruct (esc_char_cases b Hbyte) as [[? _]|[(e & Ee & Hin)|(e & f & Ee & He & Hf & Hu)]];
      [done| |]; rewrite Ee in Hcfg; cbn [app] in Hcfg;
      destruct (str_backslash _ _ _ _ _ _ _ _ _ _ Hst Hcfg Hraw) as (m0 & S0 & Hcfg0).
    - destruct (str_simple_escape _ _ _ _ _ _ _ _ _ _ Hcfg0 Hin) as (m1 & S1 & Hcfg1).
      exists m1. split; [by eapply steps_trans|done].
    - destruct (str_unicode _ _ _ _ _ _ _ _ _ _ _ _ Hcfg0) as (m1 & S1 & Hcfg1); [done..| |].
      + assert (b < 32); [|lia]. unfold esc_char in Ee.
        repeat (match type of Ee with (if ?b then _ else _) = _ => destruct b eqn:? end; [discriminate Ee || (bool_to_prop; lia)|]).
        discriminate.
      + rewrite Hu in Hcfg1. exists m1. split; [by eapply steps_trans|done]. }
  destruct (IH s' m1 d bel st st cu nm rest _ ltac:(lia) Hst Hs Hcfg1) as (m2 & sv' & raw' & t' & S2 & Hcfg2 & Et & Hp).
  exists m2, sv', raw', t'. split; [by eapply steps_trans|]. split; [done|]. split; [|done].
  rewrite Et, <- !app_assoc. done.
Qed.

(** The closing quote of a string value and of a field name. *)
Lemma str_end m d bel sv cu nm raw rest t :
  str_cfg m d bel state_string sv cu nm (raw ++ 34 :: rest) t -> Forall plain raw ->
  exists m', steps m m' /\
  cfg m' d bel (Srec state_eatws state_finish (JString (t ++ raw)) nm) rest.
Proof.
  intros Hs Hraw. destruct (str_scan _ _ _ _ _ _ _ _ _ _ _ Hs Hraw eq_refl) as [Escan Esince].
  destruct (str_append _ _ _ _ _ _ _ _ _ _ Hs) as (Hcfg1 & [Et _] & _).
  set (m1 := append raw (skip (length raw) m)) in *.
  assert (c m1 = 34) as Hc1 by apply (cf_c _ _ _ _ _ Hcfg1).
  assert (switch (-1) m = (Break, set_states state_finish state_eatws
            (set_current (H0 := value_ops) (JString (t ++ raw)) (set_heap tt m1)))) as E.
  { destruct Hs as (Hcfg & _ & Hq). unfold switch.
    destruct (cfg_fields _ _ _ _ _ _ _ _ Hcfg) as (-> & _).
    unfold case_string. rewrite Escan, Esince. cbn [negb]. fold m1. rewrite Hc1, Hq.
    fold (contents (pb (tok m1))). rewrite Et. by destruct (heap m1). }
  destruct (break_cfg m _ d bel (Srec (H0 := value_ops) state_eatws state_finish (JString (t ++ raw)) nm) 34 rest E) as [S2 Hcfg2];
    [eapply cfg_set_states, cfg_set_current, cfg_heap; exact Hcfg1|done|].
  eexists. split; [exact S2|exact Hcfg2].
Qed.

Lemma cstr_length l : zlen (cstr l) <= zlen l.
Proof. induction l as [|b l IH]; [done|]. cbn [cstr]. rewrite zlen_cons. destruct (b =? 0); [pose proof (zlen_nonneg l); change (zlen []) with 0; lia|]. rewrite zlen_cons. lia. Qed.

Lemma field_end m d bel sv cu nm raw rest t :
  str_cfg m d bel state_object_field sv cu nm (raw ++ 34 :: rest) t -> Forall plain raw ->
  exists m', steps m m' /\
  cfg m' d bel (Srec state_eatws state_object_field_end cu (Some (cstr (t ++ raw)))) rest.
Proof.
  intros Hs Hraw. destruct (str_scan _ _ _ _ _ _ _ _ _ _ _ Hs Hraw eq_refl) as [Escan Esince].
  destruct (str_append _ _ _ _ _ _ _ _ _ _ Hs) as (Hcfg1 & [_ Hct] & _ & Eb).
  set (m1 := append raw (skip (length raw) m)) in *.
  assert (c m1 = 34) as Hc1 by apply (cf_c _ _ _ _ _ Hcfg1).
  assert (strdup (buf (pb (tok m1))) = Some (cstr (t ++ raw))) as Ed.
  { unfold strdup. rewrite Eb. pose proof (cstr_length (t ++ raw)). pose proof (cf_room _ _ _ _ _ Hcfg1). pose proof (zlen_nonneg rest). pose proof (zlen_nonneg (cstr (t ++ raw))).
    rewrite zlen_cons in *. unfold MAX_TEXT in *. by rewrite Hal by lia. }
  assert (switch (-1) m = (Break, set_states state_object_field_end state_eatws
            (set_obj_field_name (Some (cstr (t ++ raw))) m1))) as E.
  { destruct Hs as (Hcfg & _ & Hq). unfold switch.
    destruct (cfg_fields _ _ _ _ _ _ _ _ Hcfg) as (-> & _).
    unfold case_object_field. rewrite Escan, Esince. cbn [negb]. fold m1. rewrite Hc1, Hq.
    by rewrite Ed. }
  destruct (break_cfg m _ d bel (Srec state_eatws state_object_field_end cu (Some (cstr (t ++ raw)))) 34 rest E) as [S2 Hcfg2];
    [eapply cfg_set_states, cfg_set_name; exact Hcfg1|done|].
  eexists. split; [exact S2|exact Hcfg2].
Qed.

Lemma parse_string m d bel sv cu s rest :
  Forall byte_ok s ->
  cfg m d bel (Srec state_start sv cu None) (quoted s ++ rest) ->
  exists m', steps m m' /\ cfg m' d bel (Srec state_eatws state_finish (JString s) None) rest.
Proof.
  intros Hs Hcfg. unfold quoted in Hcfg. rewrite <- !app_assoc in Hcfg. cbn [app] in Hcfg.
  set (m1 := upd_tok (set_quote_char 34) (reset_pb (set_state state_string m))).
  assert (switch (-1) m = (Break, m1)) as E1.
  { unfold switch. destruct (cfg_fields _ _ _ _ _ _ _ _ Hcfg) as (-> & _).
    unfold case_start. by rewrite (cf_c _ _ _ _ _ Hcfg). }
  destruct (cfg_reset_pb (set_state state_string m) d bel (Srec state_string sv cu None)
              (34 :: escape s ++ 34 :: rest)) as [Hc0 E0]; [by eapply cfg_set_state|].
  destruct (break_cfg _ _ d bel (Srec state_string sv cu None) 34 (escape s ++ 34 :: rest) E1) as [S1 Hcfg1];
    [apply cfg_quiet; [done..|apply Hc0|exact Hc0]|done|].
  destruct (str_body (length s) s (skip 1 m1) d bel state_string sv cu None rest [])
    as (m2 & sv' & raw & t' & S2 & Hcfg2 & Et & Hp).
  - lia.
  - by left.
  - exact Hs.
  - split; [exact Hcfg1|]. split; [split; [exact E0|]|done].
    pose proof (cf_off _ _ _ _ _ Hcfg). change (zlen []) with 0. simpl. lia.
  - destruct (str_end _ _ _ _ _ _ _ _ _ Hcfg2 Hp) as (m3 & S3 & Hcfg3).
    exists m3. rewrite Et in Hcfg3. split; [|exact Hcfg3].
    eapply steps_trans; [exact S1|]. by eapply steps_trans.
Qed.

(** A field name, from the opening quote, with the colon and the blank after
    it, up to the value. *)
Lemma parse_key st m d bel cu k flags rest :
  st = state_object_field_start \/ st = state_object_field_start_after_sep ->
  Forall byte_ok k -> Forall (fun x => x <> 0) k -> solid (hd 0 rest) = true ->
  cfg m d bel (Srec st st cu None) (quoted k ++ colon flags ++ rest) ->
  exists m', steps m m' /\
  cfg m' d bel (Srec state_object_value state_object_value cu (Some k)) rest.
Proof.
  intros Hst Hk Hnz Hsolid Hcfg. unfold quoted in Hcfg. rewrite <- !app_assoc in Hcfg. cbn [app] in Hcfg.
  set (input := escape k ++ 34 :: colon flags ++ rest) in *.
  set (m1 := set_state state_object_field (reset_pb (upd_tok (set_quote_char 34) m))).
  assert (switch (-1) m = (Break, m1)) as E1.
  { unfold switch. destruct (cfg_fields _ _ _ _ _ _ _ _ Hcfg) as (-> & _).
    destruct Hst; subst st; unfold case_object_field_start; by rewrite (cf_c _ _ _ _ _ Hcfg). }
  destruct (cfg_reset_pb (upd_tok (set_quote_char 34) m) d bel (Srec st st cu None) (34 :: input))
    as [Hc0 E0]; [apply cfg_quiet; [done..|apply Hcfg|exact Hcfg]|].
  destruct (break_cfg _ _ d bel (Srec state_object_field st cu None) 34 input E1) as [S1 Hcfg1];
    [by eapply cfg_set_state|done|].
  destruct (str_body (length k) k (skip 1 m1) d bel state_object_field st cu None (colon flags ++ rest) [])
    as (m2 & sv' & raw & t' & S2 & Hcfg2 & Et & Hp).
  - lia.
  - by right.
  - exact Hk.
  - split; [exact Hcfg1|]. split; [split; [exact E0|]|done].
    pose proof (cf_off _ _ _ _ _ Hcfg). change (zlen []) with 0. simpl. lia.
  - destruct (field_end _ _ _ _ _ _ _ _ _ Hcfg2 Hp) as (m3 & S3 & Hcfg3).
    rewrite Et in Hcfg3. cbn [app] in Hcfg3. rewrite (cstr_nonzero k Hnz) in Hcfg3.
    destruct (step_eatws m3 d bel _ cu (Some k) [] (colon flags ++ rest) Hcfg3) as (m4 & S4 & Hcfg4); [constructor|done|].
    unfold colon in Hcfg4. cbn [app] in Hcfg4.
    assert (switch (-1) m4 = (Break, set_states state_object_value state_eatws m4)) as E4.
    { unfold switch. destruct (cfg_fields _ _ _ _ _ _ _ _ Hcfg4) as (-> & _).
      unfold case_object_field_end. by rewrite (cf_c _ _ _ _ _ Hcfg4). }
    destruct (break_cfg _ _ d bel (Srec state_eatws state_object_value cu (Some k)) 58
      (opt (has flags JSON_C_TO_STRING_SPACED) [32] ++ rest) E4) as [S5 Hcfg5];
      [eapply cfg_set_states; exact Hcfg4|done|].
    destruct (step_eatws _ d bel _ cu (Some k) _ rest Hcfg5) as (m6 & S6 & Hcfg6).
    { unfold opt. destruct (has _ _); repeat constructor. }
    { exact Hsolid. }
    exists m6. split; [|exact Hcfg6]. do 6 (eapply steps_trans; [eassumption|]). apply steps_refl.
Qed.

(** ** Values that survive the round trip *)

(** A double whose text is a number for the parser and scans back to it. *)
Definition double_ok (flags : Z) (dv : double) : Prop :=
  let t := fst (double_buf flags dv) in
  double_fits flags dv /\ starts_with number_head t = true /\
  Forall (fun x => is_number_char x = true) t /\ existsb is_double_char t = true /\
  scan_double t = Some dv.

(** Booleans are 0 or 1, integers fit 64 bits, strings are bytes, field names
    are C strings and distinct. *)
Fixpoint json_ok (flags : Z) (v : json) : Prop :=
  match v with
  | JNull => True
  | JBool b => b = 0 \/ b = 1
  | JInt n => in_int64 n = true
  | JDouble dv => double_ok flags dv
  | JString s => Forall byte_ok s
  | JArray vs => foldr (fun w P => json_ok flags w /\ P) True vs
  | JObject fs =>
      NoDup fs.*1 /\
      foldr (fun kw P => (Forall byte_ok (fst kw) /\ Forall (fun x => x <> 0) (fst kw) /\
                          json_ok flags (snd kw)) /\ P) True fs
  end.

(** Levels the parser opens for a value. *)
Fixpoint nest (v : json) : Z :=
  match v with
  | JArray vs => foldr (fun w n => Z.max (1 + nest w) n) 0 vs
  | JObject fs => foldr (fun kw n => Z.max (1 + nest (snd kw)) n) 0 fs
  | _ => 0
  end.

Lemma nest_nonneg v : 0 <= nest v.
Proof.
  destruct v as [| | | | |vs|fs]; simpl; try lia; [induction vs|induction fs]; simpl; lia.
Qed.

(** The first byte of a value is handed on by the white-space state and does
    not close an array or object. *)
Definition value_head (x : Z) : Prop := solid x = true /\ x <> 93 /\ x <> 125 /\ x <> 0.

Lemma number_value_head x : number_head x = true -> value_head x.
Proof.
  intros Hx. pose proof (number_head_other x Hx) as (_ & _ & _ & _ & _ & _ & _ & _ & _ & _ & ? & ? & ? & Hs).
  split; [unfold solid; rewrite Hs; simpl; apply negb_true_iff, Z.eqb_neq; lia|].
  unfold number_head in Hx. rewrite orb_true_iff, isdigit_range, Z.eqb_eq in Hx. lia.
Qed.

Lemma print_int64_chars n :
  starts_with number_head (print_int64 n) = true /\
  Forall (fun x => is_number_char x = true /\ is_double_char x = false) (print_int64 n).
Proof.
  destruct (print_int64_text n) as (ds & -> & Hd & Hc & _). unfold int_text.
  assert (Forall (fun x => is_number_char x = true /\ is_double_char x = false) ds) as Hds.
  { eapply Forall_impl; [|exact Hd]. intros x Hx. apply isdigit_range in Hx.
    assert (x ∈ seqZ 48 10) as Hin by (apply elem_of_seqZ; lia). clear Hx.
    repeat (apply elem_of_cons in Hin as [->|Hin]; [done|]). by apply elem_of_nil in Hin. }
  destruct (n <? 0); simpl.
  - split; [done|]. by constructor.
  - split; [|done]. pose proof (canonical_nonempty _ Hc). destruct ds as [|x ds]; [done|].
    apply list.Forall_cons in Hd as [Hx _]. simpl. unfold number_head. by rewrite Hx.
Qed.

Lemma number_value_int n : in_int64 n = true -> number_value (print_int64 n) = Some (JInt n).
Proof.
  intros Hn. destruct (print_int64_chars n) as [_ Hch]. unfold number_value.
  replace (existsb is_double_char (print_int64 n)) with false.
  - rewrite <- (app_nil_r (print_int64 n)), parse_print_int64 by done. done.
  - symmetry. apply not_true_iff_false. rewrite existsb_exists. intros (x & Hin & Hx).
    rewrite List.Forall_forall in Hch. destruct (Hch x Hin) as [_ ?]. congruence.
Qed.

Lemma text_head flags v level :
  json_ok flags v -> exists x t, text v level flags = x :: t /\ value_head x.
Proof.
  assert (forall x, number_head x = true \/ x ∈ str "ntf" ++ [34; 91; 123] -> value_head x) as Hx.
  { intros x [Hn|Hin]; [by apply number_value_head|]. simpl in Hin.
    repeat (apply elem_of_cons in Hin as [->|Hin]; [split_and!; done|]). by apply elem_of_nil in Hin. }
  destruct v as [|b|n|dv|s|vs|fs]; intros Hok; simpl in *.
  - eexists _, _. split; [reflexivity|]. apply Hx. right. repeat constructor.
  - destruct (negb (b =? 0)); (eexists _, _; split; [reflexivity|]; apply Hx; right; repeat constructor).
  - destruct (print_int64_chars n) as [Hs _]. destruct (print_int64 n) as [|x t]; [done|].
    exists x, t. split; [done|]. apply Hx. by left.
  - destruct Hok as (_ & Hs & _). destruct (fst (double_buf flags dv)) as [|x t]; [done|].
    exists x, t. split; [done|]. apply Hx. by left.
  - eexists _, _. split; [reflexivity|]. apply Hx. right. repeat constructor.
  - eexists _, _. split; [reflexivity|]. apply Hx. right. repeat constructor.
  - eexists _, _. split; [reflexivity|]. apply Hx. right. repeat constructor.
Qed.

(** ** Blanks of the layouts *)

Lemma spaces_replicate n : spaces (replicate n 32).
Proof. apply Forall_replicate. done. Qed.

Lemma spaces_opt b w : spaces w -> spaces (opt b w).
Proof. destruct b; [done|constructor]. Qed.

Lemma spaces_app a b : spaces a -> spaces b -> spaces (a ++ b).
Proof. intros. by apply Forall_app. Qed.

Lemma spaces_open flags : spaces (ws_open flags).
Proof. apply spaces_opt. by repeat constructor. Qed.

Lemma spaces_child level flags : spaces (ws_child level flags).
Proof. apply spaces_app; apply spaces_opt; [by repeat constructor|apply spaces_replicate]. Qed.

Lemma spaces_close had level flags : spaces (ws_close had level flags).
Proof.
  apply spaces_app; apply spaces_opt; [|by repeat constructor].
  apply spaces_app; [apply spaces_opt; by repeat constructor|apply spaces_replicate].
Qed.

Lemma cfg_bel_length m d bel r rest : cfg m d bel r rest -> Z.of_nat (length bel) = d.
Proof.
  intros [[Hd Hl _ _] <- <- _ _ _ _ _ _ _ _ _]. rewrite length_take. unfold zlen in Hl. lia.
Qed.

(** ** Arrays *)

(** A finished child at level [d + 1]: blanks are skipped and the machine is
    back in its parent [q], the child in [obj]. *)
Lemma child_done m d bel q v w y rest :
  cfg m (d + 1) (bel ++ [q]) (Srec state_eatws state_finish v None) (w ++ y :: rest) ->
  Z.of_nat (length bel) = d -> spaces w -> solid y = true ->
  exists m', steps m m' /\ cfg m' d bel q (y :: rest) /\ obj m' = v.
Proof.
  intros Hcfg Hlen Hw Hy.
  destruct (step_eatws _ _ _ _ _ _ w (y :: rest) Hcfg Hw Hy) as (m1 & S1 & Hcfg1).
  destruct (step_pop _ _ _ _ _ _ _ Hcfg1) as (m2 & S2 & Hcfg2 & Ho); [lia|].
  replace (d + 1 - 1) with d in Hcfg2 by lia.
  exists m2. split; [by eapply steps_trans|done].
Qed.

(** ... and an array has taken it in, waiting for a separator. *)
Lemma array_child_done m d bel sv vs (v : json) w y rest :
  cfg m (d + 1) (bel ++ [Srec state_array_add sv (JArray vs) None])
    (Srec state_eatws state_finish v None) (w ++ y :: rest) ->
  Z.of_nat (length bel) = d -> spaces w -> solid y = true ->
  exists m', steps m m' /\
  cfg m' d bel (Srec state_array_sep state_array_sep (JArray (vs ++ [v])) None) (y :: rest).
Proof.
  intros Hcfg Hlen Hw Hy.
  destruct (child_done _ _ _ _ _ _ _ _ Hcfg Hlen Hw Hy) as (m1 & S1 & Hcfg1 & Ho).
  assert (exists m2, steps m1 m2 /\
    cfg m2 d bel (Srec state_eatws state_array_sep (JArray (vs ++ [v])) None) (y :: rest))
    as (m2 & S2 & Hcfg2).
  { eexists. split.
    - apply steps_redo. unfold switch.
      destruct (cfg_fields _ _ _ _ _ _ _ _ Hcfg1) as (-> & _ & Hcu & _).
      unfold case_array_add. rewrite Hcu, Ho. reflexivity.
    - eapply cfg_set_states, cfg_set_current, cfg_heap. exact Hcfg1. }
  destruct (step_eatws _ _ _ _ _ _ [] (y :: rest) Hcfg2) as (m3 & S3 & Hcfg3); [constructor|done|].
  exists m3. split; [|done]. eapply steps_trans; [exact S1|]. by eapply steps_trans.
Qed.

(** Opening a level for the child of an array. *)
Lemma array_push m d bel st cu x rest :
  st = state_array \/ st = state_array_after_sep ->
  cfg m d bel (Srec st st cu None) (x :: rest) -> value_head x -> d < MD - 1 ->
  exists m', steps m m' /\
  cfg m' (d + 1) (bel ++ [Srec state_array_add st cu None])
    (Srec state_start state_start JNull None) (x :: rest).
Proof.
  intros Hst Hcfg (Hs & H93 & _) Hd.
  destruct (step_push m (set_state state_array_add m) d bel (Srec state_array_add st cu None) (x :: rest))
    as [S1 Hcfg1]; [by eapply cfg_set_state|by left|done| |].
  { unfold switch. destruct (cfg_fields _ _ _ _ _ _ _ _ Hcfg) as (-> & _).
    destruct Hst; subst st; unfold case_array; rewrite (cf_c _ _ _ _ _ Hcfg); simpl hd;
      (destruct (Z.eqb_spec x 93); [done|]);
      rewrite (cf_depth _ _ _ _ _ Hcfg), (cf_max _ _ _ _ _ Hcfg), Z.geb_leb;
      destruct (Z.leb_spec (MD - 1) d); done || lia. }
  destruct (step_eatws _ _ _ _ _ _ [] (x :: rest) Hcfg1) as (m2 & S2 & Hcfg2); [constructor|done|].
  exists m2. split; [by eapply steps_trans|done].
Qed.

(** The closing bracket. *)
Lemma array_close m d bel st cu rest :
  st = state_array \/ st = state_array_sep ->
  cfg m d bel (Srec st st cu None) (93 :: rest) ->
  exists m', steps m m' /\ cfg m' d bel (Srec state_eatws state_finish cu None) rest.
Proof.
  intros Hst Hcfg.
  destruct (break_cfg m (set_states state_finish state_eatws m) d bel
              (Srec state_eatws state_finish cu None) 93 rest) as [S1 Hcfg1].
  - destruct (cfg_fields _ _ _ _ _ _ _ _ Hcfg) as (E & _). unfold switch. rewrite E.
    destruct Hst; subst st; unfold case_array, case_array_sep; rewrite ?E, (cf_c _ _ _ _ _ Hcfg); done.
  - by eapply cfg_set_states.
  - done.
  - eauto.
Qed.

Lemma array_comma m d bel cu w x rest :
  cfg m d bel (Srec state_array_sep state_array_sep cu None) (44 :: w ++ x :: rest) ->
  spaces w -> value_head x ->
  exists m', steps m m' /\
  cfg m' d bel (Srec state_array_after_sep state_array_after_sep cu None) (x :: rest).
Proof.
  intros Hcfg Hw (Hs & _).
  destruct (break_cfg m (set_states state_array_after_sep state_eatws m) d bel
              (Srec state_eatws state_array_after_sep cu None) 44 (w ++ x :: rest)) as [S1 Hcfg1].
  - destruct (cfg_fields _ _ _ _ _ _ _ _ Hcfg) as (E & _). unfold switch. rewrite E.
    unfold case_array_sep. by rewrite (cf_c _ _ _ _ _ Hcfg).
  - by eapply cfg_set_states.
  - done.
  - destruct (step_eatws _ _ _ _ _ _ w (x :: rest) Hcfg1) as (m2 & S2 & Hcfg2); [done..|].
    exists m2. split; [by eapply steps_trans|done].
Qed.

(** What is proved of every value. *)
Definition parses (flags : Z) (v : json) : Prop :=
  forall level d bel m rest, d + nest v < MD -> is_number_char (hd 0 rest) = false ->
  cfg m d bel (Srec state_start state_start JNull None) (text v level flags ++ rest) ->
  exists m', steps m m' /\ cfg m' d bel (Srec state_eatws state_finish v None) rest.

(** The text after a child does not continue a number. *)
Lemma joined_delim level flags ts cl rest :
  is_number_char (hd 0 (cl :: rest)) = false ->
  is_number_char (hd 0 (joined level flags true ts ++ ws_close true level flags ++ cl :: rest)) = false.
Proof.
  intros Hcl. destruct ts; [|done]. simpl. unfold ws_close, opt.
  destruct (has flags JSON_C_TO_STRING_PRETTY); [done|].
  destruct (has flags JSON_C_TO_STRING_SPACED); done.
Qed.

Lemma joined_cons level flags t ts R :
  joined level flags true (t :: ts) ++ R =
  44 :: (ws_open flags ++ ws_child level flags) ++ t ++ (joined level flags true ts ++ R).
Proof. cbn [joined opt app]. by rewrite <- !app_assoc. Qed.

Lemma array_tail flags level vs :
  Forall (parses flags) vs -> Forall (json_ok flags) vs ->
  forall m d bel sv (done : list json) (v : json) rest,
  Forall (fun w => d + 1 + nest w < MD) vs ->
  cfg m (d + 1) (bel ++ [Srec state_array_add sv (JArray done) None])
    (Srec state_eatws state_finish v None)
    (joined level flags true (List.map (fun w => text w (level + 1) flags) vs) ++
     ws_close true level flags ++ 93 :: rest) ->
  Z.of_nat (length bel) = d ->
  exists m', steps m m' /\
  cfg m' d bel (Srec state_eatws state_finish (JArray (done ++ v :: vs)) None) rest.
Proof.
  induction 1 as [|w vs Hw _ IH]; intros Hok m d bel sv dn v rest Hnest Hcfg Hlen.
  - destruct (array_child_done _ _ _ _ _ _ (ws_close true level flags) 93 rest Hcfg Hlen)
      as (m1 & S1 & Hcfg1); [apply spaces_close|done|].
    destruct (array_close _ _ _ _ _ _ (or_intror eq_refl) Hcfg1) as (m2 & S2 & Hcfg2).
    exists m2. split; [by eapply steps_trans|done].
  - apply list.Forall_cons in Hok as [Hokw Hok]. apply list.Forall_cons in Hnest as [Hnw Hnest].
    destruct (text_head flags w (level + 1) Hokw) as (x & tw & Etw & Hx).
    set (R := joined level flags true (List.map (fun w => text w (level + 1) flags) vs) ++
              ws_close true level flags ++ 93 :: rest) in *.
    cbn [List.map] in Hcfg. rewrite joined_cons in Hcfg. fold R in Hcfg. rewrite Etw in Hcfg.
    destruct (array_child_done _ _ _ _ _ _ [] 44 _ Hcfg Hlen) as (m1 & S1 & Hcfg1); [constructor|done|].
    destruct (array_comma _ _ _ _ _ _ _ Hcfg1) as (m2 & S2 & Hcfg2);
      [apply spaces_app; [apply spaces_open|apply spaces_child]|done|].
    pose proof (cf_depth _ _ _ _ _ Hcfg2).
    pose proof (nest_nonneg w).
    destruct (array_push _ _ _ _ _ _ _ (or_intror eq_refl) Hcfg2 Hx) as (m3 & S3 & Hcfg3); [lia|].
    assert (cfg m3 (d + 1) (bel ++ [Srec (H0 := value_ops) state_array_add state_array_after_sep (JArray (dn ++ [v])) None])
      (Srec state_start state_start JNull None) (text w (level + 1) flags ++ R)) as Hcfg3'
      by (rewrite Etw; exact Hcfg3).
    apply Hw in Hcfg3' as (m4 & S4 & Hcfg4); [|lia|by apply joined_delim].
    destruct (IH Hok m4 d bel state_array_after_sep (dn ++ [v]) w rest Hnest Hcfg4 Hlen) as (m5 & S5 & Hcfg5).
    exists m5. rewrite <- app_assoc in Hcfg5. split; [|done].
    do 5 (eapply steps_trans; [eassumption|]). apply steps_refl.
Qed.

Lemma nest_fold {A} (f : A -> json) xs x0 d :
  d + foldr (fun x n => Z.max (1 + nest (f x)) n) x0 xs < MD ->
  Forall (fun x => d + 1 + nest (f x) < MD) xs.
Proof.
  induction xs as [|x xs IH]; simpl; intros Hn; constructor; [lia|]. apply IH. lia.
Qed.

Lemma bracketed_nil l (r : Z) level flags rest :
  bracketed l r level flags [] ++ rest =
  l :: (ws_open flags ++ ws_close false level flags) ++ r :: rest.
Proof. unfold bracketed. cbn [joined app]. simpl. by rewrite <- !app_assoc. Qed.

Lemma bracketed_cons l (r : Z) level flags t ts rest :
  bracketed l r level flags (t :: ts) ++ rest =
  l :: (ws_open flags ++ ws_child level flags) ++ t ++
    (joined level flags true ts ++ ws_close true level flags ++ r :: rest).
Proof. unfold bracketed. cbn [joined app opt]. simpl. by rewrite <- !app_assoc. Qed.

Lemma parse_array flags vs :
  Forall (parses flags) vs -> json_ok flags (JArray vs) -> parses flags (JArray vs).
Proof.
  intros Hvs Hok level d bel m rest Hnest Hrest Hcfg. cbn [text] in Hcfg.
  apply (foldr_and_Forall (json_ok flags)) in Hok.
  pose proof (nest_fold (fun w => w) vs 0 d Hnest) as Hn.
  assert (forall input, cfg m d bel (Srec state_start state_start JNull None) (91 :: input) ->
    exists m1, steps m m1 /\ cfg m1 d bel (Srec state_eatws state_array (JArray []) None) input) as Hopen.
  { intros input Hc.
    destruct (break_cfg m (set_current (H0 := value_ops) (JArray []) (set_heap (heap m)
       (set_saved_state state_array (set_state state_eatws m)))) d bel
       (Srec (H0 := value_ops) state_eatws state_array (JArray []) None) 91 input) as [S1 Hc1]; [..|eauto].
    - unfold switch. destruct (cfg_fields _ _ _ _ _ _ _ _ Hc) as (-> & _).
      unfold case_start. by rewrite (cf_c _ _ _ _ _ Hc).
    - eapply cfg_set_current, cfg_heap, cfg_set_saved_state, cfg_set_state. exact Hc.
    - done. }
  destruct vs as [|w vs].
  - cbn [List.map] in Hcfg. rewrite bracketed_nil in Hcfg.
    destruct (Hopen _ Hcfg) as (m1 & S1 & Hcfg1).
    destruct (step_eatws _ _ _ _ _ _ _ _ Hcfg1) as (m2 & S2 & Hcfg2);
      [apply spaces_app; [apply spaces_open|apply spaces_close]|done|].
    destruct (array_close _ _ _ _ _ _ (or_introl eq_refl) Hcfg2) as (m3 & S3 & Hcfg3).
    exists m3. split; [|done]. do 3 (eapply steps_trans; [eassumption|]). apply steps_refl.
  - cbn [List.map] in Hcfg. rewrite bracketed_cons in Hcfg.
    destruct (Hopen _ Hcfg) as (m1 & S1 & Hcfg1).
    set (R := joined level flags true (List.map (fun w => text w (level + 1) flags) vs) ++
              ws_close true level flags ++ 93 :: rest) in *.
    apply list.Forall_cons in Hvs as [Hw Hvs]. apply list.Forall_cons in Hok as [Hokw Hok].
    apply list.Forall_cons in Hn as [Hnw Hn]. pose proof (nest_nonneg w).
    destruct (text_head flags w (level + 1) Hokw) as (x & tw & Etw & Hx).
    rewrite Etw in Hcfg1.
    destruct (step_eatws _ _ _ _ _ _ _ _ Hcfg1) as (m2 & S2 & Hcfg2);
      [apply spaces_app; [apply spaces_open|apply spaces_child]|apply Hx|].
    destruct (array_push _ _ _ _ _ _ _ (or_introl eq_refl) Hcfg2 Hx) as (m3 & S3 & Hcfg3); [lia|].
    assert (cfg m3 (d + 1) (bel ++ [Srec (H0 := value_ops) state_array_add state_array (JArray []) None])
      (Srec state_start state_start JNull None) (text w (level + 1) flags ++ R)) as Hcfg3'
      by (rewrite Etw; exact Hcfg3).
    apply Hw in Hcfg3' as (m4 & S4 & Hcfg4); [|lia|by apply joined_delim].
    destruct (array_tail flags level vs Hvs Hok _ _ _ _ _ _ _ Hn Hcfg4) as (m5 & S5 & Hcfg5);
      [by eapply cfg_bel_length|].
    exists m5. split; [|done]. do 5 (eapply steps_trans; [eassumption|]). apply steps_refl.
Qed.

(** ** Objects *)

Lemma set_field_fresh fs k (v : json) : k ∉ fs.*1 -> set_field fs k v = fs ++ [(k, v)].
Proof.
  induction fs as [|[k' v'] fs IH]; simpl; [done|]. intros Hk. rewrite elem_of_cons in Hk.
  rewrite bool_decide_false by naive_solver. rewrite IH by naive_solver. done.
Qed.

Lemma object_child_done m d bel sv fs k (v : json) w y rest :
  k ∉ fs.*1 ->
  cfg m (d + 1) (bel ++ [Srec state_object_value_add sv (JObject fs) (Some k)])
    (Srec state_eatws state_finish v None) (w ++ y :: rest) ->
  Z.of_nat (length bel) = d -> spaces w -> solid y = true ->
  exists m', steps m m' /\
  cfg m' d bel (Srec state_object_sep state_object_sep (JObject (fs ++ [(k, v)])) None) (y :: rest).
Proof.
  intros Hk Hcfg Hlen Hw Hy.
  destruct (child_done _ _ _ _ _ _ _ _ Hcfg Hlen Hw Hy) as (m1 & S1 & Hcfg1 & Ho).
  assert (exists m2, steps m1 m2 /\
    cfg m2 d bel (Srec state_eatws state_object_sep (JObject (fs ++ [(k, v)])) None) (y :: rest))
    as (m2 & S2 & Hcfg2).
  { eexists. split.
    - apply steps_redo. unfold switch.
      destruct (cfg_fields _ _ _ _ _ _ _ _ Hcfg1) as (-> & _ & Hcu & Hnm).
      unfold case_object_value_add. rewrite Hcu, Ho, Hnm. cbn. rewrite set_field_fresh by done.
      reflexivity.
    - eapply cfg_set_states, cfg_set_name, cfg_set_current, cfg_heap. exact Hcfg1. }
  destruct (step_eatws _ _ _ _ _ _ [] (y :: rest) Hcfg2) as (m3 & S3 & Hcfg3); [constructor|done|].
  exists m3. split; [|done]. eapply steps_trans; [exact S1|]. by eapply steps_trans.
Qed.

Lemma object_push m d bel cu k x rest :
  cfg m d bel (Srec state_object_value state_object_value cu (Some k)) (x :: rest) ->
  value_head x -> d < MD - 1 ->
  exists m', steps m m' /\
  cfg m' (d + 1) (bel ++ [Srec state_object_value_add state_object_value cu (Some k)])
    (Srec state_start state_start JNull None) (x :: rest).
Proof.
  intros Hcfg (Hs & _) Hd.
  destruct (step_push m (set_state state_object_value_add m) d bel
    (Srec state_object_value_add state_object_value cu (Some k)) (x :: rest))
    as [S1 Hcfg1]; [by eapply cfg_set_state|by right|done| |].
  { unfold switch. destruct (cfg_fields _ _ _ _ _ _ _ _ Hcfg) as (-> & _).
    unfold case_object_value.
    rewrite (cf_depth _ _ _ _ _ Hcfg), (cf_max _ _ _ _ _ Hcfg), Z.geb_leb.
    destruct (Z.leb_spec (MD - 1) d); done || lia. }
  destruct (step_eatws _ _ _ _ _ _ [] (x :: rest) Hcfg1) as (m2 & S2 & Hcfg2); [constructor|done|].
  exists m2. split; [by eapply steps_trans|done].
Qed.

Lemma object_close m d bel st cu rest :
  st = state_object_field_start \/ st = state_object_sep ->
  cfg m d bel (Srec st st cu None) (125 :: rest) ->
  exists m', steps m m' /\ cfg m' d bel (Srec state_eatws state_finish cu None) rest.
Proof.
  intros Hst Hcfg.
  destruct (break_cfg m (set_states state_finish state_eatws m) d bel
              (Srec state_eatws state_finish cu None) 125 rest) as [S1 Hcfg1].
  - destruct (cfg_fields _ _ _ _ _ _ _ _ Hcfg) as (E & _). unfold switch. rewrite E.
    destruct Hst; subst st; unfold case_object_field_start, case_object_sep;
      rewrite ?E, (cf_c _ _ _ _ _ Hcfg); done.
  - by eapply cfg_set_states.
  - done.
  - eauto.
Qed.

Lemma object_comma m d bel cu w rest :
  cfg m d bel (Srec state_object_sep state_object_sep cu None) (44 :: w ++ 34 :: rest) ->
  spaces w ->
  exists m', steps m m' /\
  cfg m' d bel (Srec state_object_field_start_after_sep state_object_field_start_after_sep cu None)
    (34 :: rest).
Proof.
  intros Hcfg Hw.
  destruct (break_cfg m (set_states state_object_field_start_after_sep state_eatws m) d bel
              (Srec state_eatws state_object_field_start_after_sep cu None) 44 (w ++ 34 :: rest)) as [S1 Hcfg1].
  - destruct (cfg_fields _ _ _ _ _ _ _ _ Hcfg) as (E & _). unfold switch. rewrite E.
    unfold case_object_sep. by rewrite (cf_c _ _ _ _ _ Hcfg).
  - by eapply cfg_set_states.
  - done.
  - destruct (step_eatws _ _ _ _ _ _ w (34 :: rest) Hcfg1) as (m2 & S2 & Hcfg2); [done..|].
    exists m2. split; [by eapply steps_trans|done].
Qed.

(** What [json_ok] says of one field. *)
Definition field_ok (flags : Z) (kw : bytes * json) : Prop :=
  Forall byte_ok (fst kw) /\ Forall (fun x => x <> 0) (fst kw) /\ json_ok flags (snd kw).

Definition field_text (level flags : Z) (kw : bytes * json) : bytes :=
  let '(k, w) := kw in quoted (cstr k) ++ colon flags ++ text w (level + 1) flags.

(** A field name and its value. *)
Lemma object_field_value flags level st m d bel fs k w R :
  st = state_object_field_start \/ st = state_object_field_start_after_sep ->
  parses flags w -> field_ok flags (k, w) -> d + 1 + nest w < MD ->
  is_number_char (hd 0 R) = false ->
  cfg m d bel (Srec st st (JObject fs) None) (field_text level flags (k, w) ++ R) ->
  exists m', steps m m' /\
  cfg m' (d + 1) (bel ++ [Srec state_object_value_add state_object_value (JObject fs) (Some k)])
    (Srec state_eatws state_finish w None) R.
Proof.
  intros Hst Hw (Hk & Hnz & Hok) Hn HR Hcfg. simpl in Hk, Hnz, Hok. unfold field_text in Hcfg.
  rewrite (cstr_nonzero k Hnz), <- !app_assoc in Hcfg. pose proof (nest_nonneg w).
  destruct (text_head flags w (level + 1) Hok) as (x & tw & Etw & Hx).
  destruct (parse_key st m d bel (JObject fs) k flags (text w (level + 1) flags ++ R) Hst Hk Hnz)
    as (m1 & S1 & Hcfg1); [rewrite Etw; apply Hx|exact Hcfg|].
  rewrite Etw in Hcfg1.
  destruct (object_push _ _ _ _ _ _ _ Hcfg1 Hx) as (m2 & S2 & Hcfg2); [lia|].
  assert (cfg m2 (d + 1) (bel ++ [Srec (H0 := value_ops) state_object_value_add state_object_value (JObject fs) (Some k)])
    (Srec state_start state_start JNull None) (text w (level + 1) flags ++ R)) as Hcfg2'
    by (rewrite Etw; exact Hcfg2).
  apply Hw in Hcfg2' as (m3 & S3 & Hcfg3); [|lia|done].
  exists m3. split; [|done]. do 3 (eapply steps_trans; [eassumption|]). apply steps_refl.
Qed.

Lemma field_text_head level flags kw R :
  exists t, field_text level flags kw ++ R = 34 :: t.
Proof. destruct kw as [k w]. eexists. reflexivity. Qed.

Lemma object_tail flags level fs :
  Forall (fun kw => parses flags (snd kw)) fs -> Forall (field_ok flags) fs ->
  forall m d bel sv (done : list (bytes * json)) k (v : json) rest,
  NoDup (done ++ (k, v) :: fs).*1 ->
  Forall (fun kw => d + 1 + nest (snd kw) < MD) fs ->
  cfg m (d + 1) (bel ++ [Srec state_object_value_add sv (JObject done) (Some k)])
    (Srec state_eatws state_finish v None)
    (joined level flags true (List.map (field_text level flags) fs) ++
     ws_close true level flags ++ 125 :: rest) ->
  Z.of_nat (length bel) = d ->
  exists m', steps m m' /\
  cfg m' d bel (Srec state_eatws state_finish (JObject (done ++ (k, v) :: fs)) None) rest.
Proof.
  induction 1 as [|[k' w] fs Hw _ IH]; intros Hok m d bel sv dn k v rest Hnd Hnest Hcfg Hlen.
  - assert (k ∉ dn.*1) as Hk.
    { rewrite fmap_app in Hnd. apply list.NoDup_app in Hnd as (_ & Hnd & _). intros Hin.
      apply (Hnd k Hin). simpl. apply elem_of_cons. by left. }
    destruct (object_child_done _ _ _ _ _ _ _ (ws_close true level flags) 125 rest Hk Hcfg Hlen)
      as (m1 & S1 & Hcfg1); [apply spaces_close|done|].
    destruct (object_close _ _ _ _ _ _ (or_intror eq_refl) Hcfg1) as (m2 & S2 & Hcfg2).
    exists m2. split; [by eapply steps_trans|done].
  - apply list.Forall_cons in Hok as [Hokw Hok]. apply list.Forall_cons in Hnest as [Hnw Hnest].
    set (R := joined level flags true (List.map (field_text level flags) fs) ++
              ws_close true level flags ++ 125 :: rest) in *.
    assert (k ∉ dn.*1) as Hk.
    { rewrite fmap_app in Hnd. apply list.NoDup_app in Hnd as (_ & Hnd & _). intros Hin.
      apply (Hnd k Hin). simpl. apply elem_of_cons. by left. }
    cbn [List.map] in Hcfg. rewrite joined_cons in Hcfg. fold R in Hcfg.
    destruct (object_child_done _ _ _ _ _ _ _ [] 44 _ Hk Hcfg Hlen) as (m1 & S1 & Hcfg1); [constructor|done|].
    destruct (field_text_head level flags (k', w) R) as [ft Eft]. rewrite Eft in Hcfg1.
    destruct (object_comma _ _ _ _ _ _ Hcfg1) as (m2 & S2 & Hcfg2);
      [apply spaces_app; [apply spaces_open|apply spaces_child]|].
    rewrite <- Eft in Hcfg2.
    assert (is_number_char (hd 0 R) = false) as HR by by apply joined_delim.
    destruct (object_field_value _ _ _ _ _ _ _ _ _ _ (or_intror eq_refl) Hw Hokw Hnw HR Hcfg2) as (m3 & S3 & Hcfg3).
    destruct (IH Hok m3 d bel state_object_value (dn ++ [(k, v)]) k' w rest) as (m4 & S4 & Hcfg4);
      [by rewrite <- app_assoc|done..|].
    exists m4. rewrite <- app_assoc in Hcfg4. split; [|done].
    do 4 (eapply steps_trans; [eassumption|]). apply steps_refl.
Qed.

Lemma parse_object flags fs :
  Forall (fun kw => parses flags (snd kw)) fs -> json_ok flags (JObject fs) ->
  parses flags (JObject fs).
Proof.
  intros Hfs [Hnd Hok] level d bel m rest Hnest Hrest Hcfg.
  change (text (JObject fs) level flags)
    with (bracketed 123 125 level flags (List.map (field_text level flags) fs)) in Hcfg.
  apply (foldr_and_Forall (field_ok flags)) in Hok.
  pose proof (nest_fold snd fs 0 d Hnest) as Hn.
  assert (forall input, cfg m d bel (Srec state_start state_start JNull None) (123 :: input) ->
    exists m1, steps m m1 /\
    cfg m1 d bel (Srec state_eatws state_object_field_start (JObject []) None) input) as Hopen.
  { intros input Hc.
    destruct (break_cfg m (set_current (H0 := value_ops) (JObject []) (set_heap (heap m)
       (set_saved_state state_object_field_start (set_state state_eatws m)))) d bel
       (Srec (H0 := value_ops) state_eatws state_object_field_start (JObject []) None) 123 input)
       as [S1 Hc1]; [..|eauto].
    - unfold switch. destruct (cfg_fields _ _ _ _ _ _ _ _ Hc) as (-> & _).
      unfold case_start. by rewrite (cf_c _ _ _ _ _ Hc).
    - eapply cfg_set_current, cfg_heap, cfg_set_saved_state, cfg_set_state. exact Hc.
    - done. }
  destruct fs as [|[k w] fs].
  - cbn [List.map] in Hcfg. rewrite bracketed_nil in Hcfg.
    destruct (Hopen _ Hcfg) as (m1 & S1 & Hcfg1).
    destruct (step_eatws _ _ _ _ _ _ _ _ Hcfg1) as (m2 & S2 & Hcfg2);
      [apply spaces_app; [apply spaces_open|apply spaces_close]|done|].
    destruct (object_close _ _ _ _ _ _ (or_introl eq_refl) Hcfg2) as (m3 & S3 & Hcfg3).
    exists m3. split; [|done]. do 3 (eapply steps_trans; [eassumption|]). apply steps_refl.
  - cbn [List.map] in Hcfg. rewrite bracketed_cons in Hcfg.
    destruct (Hopen _ Hcfg) as (m1 & S1 & Hcfg1).
    set (R := joined level flags true (List.map (field_text level flags) fs) ++
              ws_close true level flags ++ 125 :: rest) in *.
    apply list.Forall_cons in Hfs as [Hw Hfs]. apply list.Forall_cons in Hok as [Hokw Hok].
    apply list.Forall_cons in Hn as [Hnw Hn].
    destruct (field_text_head level flags (k, w) R) as [ft Eft]. rewrite Eft in Hcfg1.
    destruct (step_eatws _ _ _ _ _ _ _ _ Hcfg1) as (m2 & S2 & Hcfg2);
      [apply spaces_app; [apply spaces_open|apply spaces_child]|done|].
    rewrite <- Eft in Hcfg2.
    assert (is_number_char (hd 0 R) = false) as HR by by apply joined_delim.
    destruct (object_field_value _ _ _ _ _ _ _ _ _ _ (or_introl eq_refl) Hw Hokw Hnw HR Hcfg2) as (m3 & S3 & Hcfg3).
    destruct (object_tail flags level fs Hfs Hok m3 d bel _ [] k w rest Hnd Hn Hcfg3) as (m4 & S4 & Hcfg4);
      [by eapply cfg_bel_length|].
    exists m4. split; [|done]. do 4 (eapply steps_trans; [eassumption|]). apply steps_refl.
Qed.

Lemma parse_value flags v : json_ok flags v -> parses flags v.
Proof.
  induction v as [|b|n|dv|s|vs IH|fs IH] using json_tree_ind; intros Hok.
  - intros level d bel m rest _ _ Hcfg. by eapply parse_null.
  - intros level d bel m rest _ _ Hcfg. by eapply parse_bool.
  - intros level d bel m rest _ Hrest Hcfg. destruct (print_int64_chars n) as [Hh Hch].
    eapply parse_number; [exact Hcfg|exact Hh| |exact Hrest|by apply number_value_int].
    eapply Forall_impl; [|exact Hch]. by intros ? [? _].
  - intros level d bel m rest _ Hrest Hcfg. destruct Hok as (_ & Hh & Hch & Hd & Hsc).
    eapply parse_number; [exact Hcfg|exact Hh|exact Hch|exact Hrest|].
    change (number_value (fst (double_buf flags dv)) = Some (JDouble dv)).
    unfold number_value. by rewrite Hd, Hsc.
  - intros level d bel m rest _ _ Hcfg. by eapply parse_string.
  - apply parse_array; [|done]. apply (foldr_and_Forall (json_ok flags)) in Hok.
    eapply Forall_impl; [|exact (Forall_and IH Hok)]. intros w [HI Hw]. auto.
  - apply parse_object; [|done]. destruct Hok as [_ Hok].
    apply (foldr_and_Forall (field_ok flags)) in Hok.
    eapply Forall_impl; [|exact (Forall_and IH Hok)]. intros kw [HI (_ & _ & Hw)]. auto.
Qed.

(** ** A whole text *)

Lemma run_more len fuel m m' : run len fuel m = Some m' -> forall k, run len (fuel + k) m = Some m'.
Proof.
  revert m. induction fuel as [|fuel IH]; intros m; [done|]. cbn [run Nat.add].
  destruct (switch len m) as [[] m1]; [eauto| |done..].
  destruct (ADVANCE_PEEK len m1) as [m2 []]; [eauto|done].
Qed.

Lemma run_fuel_irrelevant len f1 f2 m m1 m2 :
  run len f1 m = Some m1 -> run len f2 m = Some m2 -> m1 = m2.
Proof.
  intros H1 H2. pose proof (run_more _ _ _ _ H1 f2) as E1. pose proof (run_more _ _ _ _ H2 f1) as E2.
  rewrite Nat.add_comm in E2. congruence.
Qed.

(** A program that returns does not die. *)
Lemma run_survives len fuel m (e : mach) : run len fuel m = Some e -> ~ dies len m.
Proof.
  intros Hrun (m' & Hr & Hc). revert fuel Hrun. induction Hr as [m|m m1 m' Hn Hr IH]; intros [|f]; try done; cbn [run].
  - destruct (switch len m) as [o m1]. cbn in Hc. by subst o.
  - unfold next in Hn. destruct (switch len m) as [[] m2]; [subst m2; by apply IH| |done..]. destruct (ADVANCE_PEEK len m2) as [m3 go]. injection Hn as -> ->. by apply IH.
Qed.

Lemma run_enough len fuel m f1 (e : mach) : run len f1 m = Some e -> mach_ok (N := false) m -> measure m < Z.of_nat fuel -> exists m', run len fuel m = Some m'.
Proof. intros Hrun Hm Hf. destruct (run_ends len fuel m Hm Hf) as [[m' E]|Hd]; [by exists m'|]. by apply run_survives in Hrun. Qed.

End RoundTrip.

Section Whole.
Context {al : Allocator} `{DoubleOps} (Hal : malloc_total al).

(** From an idle tokener: an input [w ++ rest] of which the machine reads [w]
    as the value [v].  What follows only has to be no white space and no
    comment (a NUL, in particular). *)
Lemma parse_ex_value v h t w rest :
  tokener_idle t -> pb_wf (pb t) -> zlen (w ++ rest) <= MAX_TEXT ->
  solid (hd 0 (w ++ rest)) = true -> solid (hd 0 rest) = true ->
  (forall m, cfg (max_depth t) (zlen (w ++ rest)) m 0 [] (Srec state_start state_start JNull None) (w ++ rest) ->
   exists m', steps m m' /\
   cfg (max_depth t) (zlen (w ++ rest)) m' 0 [] (Srec state_eatws state_finish v None) rest) ->
  exists t', json_tokener_parse_ex (-1) h t (w ++ rest) = Some (tt, t', v) /\
  err t' = json_tokener_success /\ tokener_idle t' /\ char_offset t' = zlen w.
Proof.
  intros [[Hf Ht] [Hd Htop]] Hwf Hlen Hsx Hsol Hrun0.
  set (s := w ++ rest) in *. unfold json_tokener_parse_ex.
  set (t1 := set_err json_tokener_success (set_char_offset 0 t)).
  set (m := Mach t1 h s (hd 0 s) JNull).
  replace (PEEK_CHAR (-1) (Mach t1 h s 1 jnull)) with (m, true) by done.
  assert (cfg (max_depth t) (zlen s) m 0 [] fresh_level s) as Hcfg.
  { split; try done; simpl; try lia; by eapply frame_same; [..|exact Hf]. }
  destruct (step_eatws _ _ _ _ _ _ _ _ [] s Hcfg) as (m1 & S1 & Hcfg1); [constructor|done|].
  destruct (Hrun0 m1 Hcfg1) as (m2 & S2 & Hcfg2).
  destruct (step_eatws _ _ _ _ _ _ _ _ [] rest Hcfg2) as (m3 & S3 & Hcfg3); [constructor|done|].
  destruct (steps_trans _ _ _ S1 (steps_trans _ _ _ S2 S3)) as [n Hn].
  destruct (cfg_fields _ _ _ _ _ _ _ _ _ _ Hcfg3) as (Hst & _ & Hcu & _).
  assert (run (-1) (n + 1) m = Some m3) as Hrun.
  { rewrite Hn. cbn [run]. unfold switch. rewrite Hst. unfold case_finish.
    by rewrite (cf_depth _ _ _ _ _ _ _ Hcfg3). }
  destruct (run_enough (-1) (fuel_for s) m _ _ Hrun) as (m' & Hrun'); [|by apply fuel_for_enough|].
  { split; [|done]. apply tokener_ok_unnamed. split; [apply Hcfg|].
    rewrite (cf_top _ _ _ _ _ _ _ Hcfg). apply top_ok_fresh. }
  rewrite Hrun'. rewrite (run_fuel_irrelevant _ _ _ _ _ _ Hrun' Hrun). clear m' Hrun'.
  unfold parse_out. rewrite Hst, (bool_decide_true (state_finish = state_finish)) by done.
  cbn [negb]. rewrite andb_false_r. cbn [andb].
  rewrite (cf_err _ _ _ _ _ _ _ Hcfg3), bool_decide_true by done.
  rewrite Hcu, (cf_depth _ _ _ _ _ _ _ Hcfg3).
  destruct (reset_levels _ _ _) as [h' t'] eqn:Er. exists t'.
  assert (depth (tok m3) = 0) as Hd3 by apply Hcfg3.
  pose proof (frame_stack_ok _ (cf_frame _ _ _ _ _ _ _ Hcfg3)) as Hso.
  rewrite <- Hd3 in Er. pose proof (reset_levels_idle _ _ _ _ Hso Er) as Hidle.
  pose proof Er as (Hd' & _ & _ & He' & _)%reset_levels_spec.
  split; [by destruct h'|]. split; [rewrite He'; apply Hcfg3|].
  split; [apply Hidle; congruence|].
  pose proof (cf_total _ _ _ _ _ _ _ Hcfg3) as Htot. unfold s in Htot. rewrite zlen_app in Htot.
  rewrite Hd3 in Er. simpl in Er. injection Er as _ <-. simpl. lia.
Qed.

(** The text of a value parses to it; here what follows must not continue a
    number either. *)
Lemma parse_ex_text flags v h t rest :
  json_ok flags v -> nest v < max_depth t -> tokener_idle t -> pb_wf (pb t) ->
  zlen (text v 0 flags ++ rest) <= MAX_TEXT ->
  is_number_char (hd 0 rest) = false -> solid (hd 0 rest) = true ->
  exists t', json_tokener_parse_ex (-1) h t (text v 0 flags ++ rest) = Some (tt, t', v) /\
  err t' = json_tokener_success /\ tokener_idle t' /\ char_offset t' = zlen (text v 0 flags).
Proof.
  intros Hok Hnest Hidle Hwf Hlen Hrest Hsol. apply parse_ex_value; try done.
  - destruct (text_head flags v 0 Hok) as (x & tw & -> & Hx). apply Hx.
  - intros m Hcfg. apply (parse_value _ _ Hal flags v Hok) in Hcfg; [exact Hcfg|lia|done].
Qed.

(** The same for the convenience function, which brings its own tokener. *)
Lemma parse_verbose_value v w rest :
  zlen (w ++ rest) <= MAX_TEXT -> solid (hd 0 (w ++ rest)) = true -> solid (hd 0 rest) = true ->
  (forall m MD TOT, MD = JSON_TOKENER_DEFAULT_DEPTH ->
   cfg MD TOT m 0 [] (Srec state_start state_start JNull None) (w ++ rest) ->
   exists m', steps m m' /\ cfg MD TOT m' 0 [] (Srec state_eatws state_finish v None) rest) ->
  json_tokener_parse_verbose tt (w ++ rest) = Some (VParsed tt json_tokener_success v).
Proof.
  intros Hlen Hsx Hsol Hrun. unfold json_tokener_parse_verbose, json_tokener_new.
  destruct (json_tokener_new_ex_idle (H0 := value_ops) tt JSON_TOKENER_DEFAULT_DEPTH Hal)
    as (h & t & -> & Hidle & Hmax & _ & Hwf & _); [done..|].
  destruct (parse_ex_value v h t w rest Hidle Hwf Hlen Hsx Hsol) as (t' & Ep & He & _).
  { intros m Hm. by apply Hrun. }
  rewrite Ep, He, bool_decide_true by done.
  assert (forall x y : unit, x = y) as Hunit by (by intros [] []).
  do 2 f_equal. apply Hunit.
Qed.

(** ** The printed text has no NUL *)

Definition nonzero (w : bytes) : Prop := Forall (fun x => x <> 0) w.

Lemma spaces_nonzero w : spaces w -> nonzero w.
Proof. intros Hw. eapply Forall_impl; [|exact Hw]. exact isspace_nonzero. Qed.

Lemma escape_nonzero s : Forall byte_ok s -> nonzero (escape s).
Proof.
  induction 1 as [|b s Hb _ IH]; [constructor|]. rewrite escape_cons. apply Forall_app. split; [|done].
  destruct (esc_char_cases b Hb) as [[-> [? _]]|[(e & -> & He)|(e & f & -> & [He _] & [Hf _] & _)]].
  - by repeat constructor.
  - constructor; [done|]. constructor; [|constructor]. intros ->.
    rewrite !elem_of_cons in He. destruct_or! He; simplify_eq. by apply elem_of_nil in He.
  - by repeat constructor.
Qed.

Lemma quoted_nonzero s : Forall byte_ok s -> nonzero (quoted s).
Proof.
  intros Hs. apply Forall_app. split; [by repeat constructor|]. apply Forall_app.
  split; [by apply escape_nonzero|by repeat constructor].
Qed.

Lemma joined_nonzero level flags had ts : Forall nonzero ts -> nonzero (joined level flags had ts).
Proof.
  intros Hts. revert had. induction Hts as [|t ts Ht _ IH]; intros had; [constructor|]. simpl.
  apply Forall_app; split; [|apply Forall_app; split; [|apply Forall_app; split]].
  - destruct had; [|constructor]. constructor; [done|]. apply spaces_nonzero, spaces_open.
  - apply spaces_nonzero, spaces_child.
  - done.
  - apply IH.
Qed.

Lemma bracketed_nonzero l (r : Z) level flags ts :
  l <> 0 -> r <> 0 -> Forall nonzero ts -> nonzero (bracketed l r level flags ts).
Proof.
  intros Hl Hr Hts. constructor; [done|].
  apply Forall_app; split; [apply spaces_nonzero, spaces_open|].
  apply Forall_app; split; [by apply joined_nonzero|].
  apply Forall_app; split; [apply spaces_nonzero, spaces_close|by repeat constructor].
Qed.

Lemma text_nonzero flags v : json_ok flags v -> forall level, nonzero (text v level flags).
Proof.
  induction v as [|b|n|dv|s|vs IH|fs IH] using json_tree_ind; intros Hok level.
  - by repeat constructor.
  - cbn. destruct (negb (b =? 0)); by repeat constructor.
  - destruct (print_int64_chars n) as [_ Hch]. eapply Forall_impl; [|exact Hch].
    intros x [Hx _] ->. discriminate.
  - destruct Hok as (_ & _ & Hch & _). eapply Forall_impl; [|exact Hch]. intros x Hx ->. discriminate.
  - by apply quoted_nonzero.
  - apply bracketed_nonzero; [done..|]. apply Forall_map.
    apply (foldr_and_Forall (json_ok flags)) in Hok.
    eapply Forall_impl; [|exact (Forall_and IH Hok)]. intros w [HI Hw]. by apply HI.
  - apply bracketed_nonzero; [done..|]. apply Forall_map. destruct Hok as [_ Hok].
    apply (foldr_and_Forall (field_ok flags)) in Hok.
    eapply Forall_impl; [|exact (Forall_and IH Hok)]. intros [k w] [HI (Hk & Hnz & Hw)].
    change (nonzero (field_text level flags (k, w))). cbn [fst snd] in *. unfold field_text.
    rewrite (cstr_nonzero k Hnz). apply Forall_app. split; [by apply quoted_nonzero|].
    constructor; [done|]. apply Forall_app. split; [|by apply HI].
    apply spaces_nonzero, spaces_opt. by repeat constructor.
Qed.

Lemma json_ok_fits flags v : json_ok flags v -> doubles_fit flags v.
Proof.
  induction v as [|b|n|dv|s|vs IH|fs IH] using json_tree_ind; intros Hok; try exact I.
  - apply Hok.
  - apply (foldr_and_Forall (doubles_fit flags)).
    apply (foldr_and_Forall (json_ok flags)) in Hok.
    eapply Forall_impl; [|exact (Forall_and IH Hok)]. intros w [HI Hw]. auto.
  - apply (foldr_and_Forall (fun kw => doubles_fit flags (snd kw))). destruct Hok as [_ Hok].
    apply (foldr_and_Forall (field_ok flags)) in Hok.
    eapply Forall_impl; [|exact (Forall_and IH Hok)]. intros kw [HI (_ & _ & Hw)]. auto.
Qed.

(** The serializers of valid values do not report an error. *)
Lemma to_json_string_return flags v p level :
  json_ok flags v -> 0 <= snd (to_json_string v p level flags).
Proof.
  assert (forall q t, zlen t <= 127 -> 0 <= snd (sprintbuf q t)) as Hsp.
  { intros q t Ht. unfold sprintbuf. destruct (Z.gtb_spec (zlen t) 127); [lia|]. apply zlen_nonneg. }
  intros Hok. destruct v as [|b|n|dv|s|vs|fs]; cbn [to_json_string].
  - simpl. lia.
  - unfold json_object_boolean_to_json_string. case_test; by apply Hsp.
  - apply Hsp. simpl in Hok. pose proof (buf_cmp_print n Hok) as E.
    pose proof (print_nat_length (Z.abs n)) as Hl.
    unfold in_int64, INT64_MIN, INT64_MAX in Hok. bool_to_prop.
    unfold print_int64, zlen. destruct (Z.ltb_spec n 0); simpl.
    + rewrite Z.abs_neq in Hl by lia. lia.
    + rewrite Z.abs_eq in Hl by lia. lia.
  - destruct Hok as (Hfit & _). unfold double_fits in Hfit. unfold json_object_double_to_json_string.
    destruct (double_buf flags dv) as [b size]. simpl in *. subst. apply zlen_nonneg.
  - simpl. lia.
  - destruct (children _ _ _ _ _ _) as [had q]. unfold close_bracket. case_test; by apply Hsp.
  - destruct (children _ _ _ _ _ _) as [had q]. unfold close_bracket. case_test; by apply Hsp.
Qed.

(** The buffer an object may already have from an earlier serialization. *)
Definition pb_usable (b : option printbuf) : Prop :=
  match b with Some p => pb_wf p /\ size p <= MAX_TEXT | None => True end.

(** The memory [json_object_to_json_string_ext] returns a pointer to. *)
Lemma to_json_string_ext_memory flags v b :
  pb_usable b -> json_ok flags v -> 2 * zlen (text v 0 flags) + 10 <= MAX_TEXT ->
  exists b' s after, json_object_to_json_string_ext v b flags = (b', Some s) /\ pb_usable b' /\
  s = text v 0 flags ++ after /\ hd 0 after = 0 /\ zlen s <= MAX_TEXT.
Proof.
  intros Hb Hok Hlen. assert (v = JNull \/ v <> JNull) as [->|Hv] by (destruct v; (by left) || by right).
  { exists b, (str "null"), []. split; [done|]. split; [done|]. split; [done|]. split; [done|].
    vm_compute. discriminate. }
  assert (exists p, (match b with Some p => Some p | None => printbuf_new end) = Some p /\
          pb_wf p /\ size p <= MAX_TEXT) as (p & Ep & Hwf & Hsz).
  { destruct b as [p|]; [exists p; naive_solver|]. unfold printbuf_new. rewrite (Hal 16), (Hal 32) by lia.
    eexists. split; [reflexivity|]. split; [|unfold MAX_TEXT; simpl; lia].
    repeat split; simpl; try (unfold INT_MAX; lia). }
  assert (json_object_to_json_string_ext v b flags =
    let '(p, r) := to_json_string v (printbuf_reset p) 0 flags in
    (Some p, if r <? 0 then None else Some (buf p))) as E.
  { unfold json_object_to_json_string_ext. rewrite Ep. by destruct v. }
  destruct (printbuf_reset_spec p Hwf) as (Hwf0 & _ & Hc0).
  destruct (to_json_string_writes Hal flags v (json_ok_fits flags v Hok) 0 (printbuf_reset p)) as [W T]; [lia|].
  pose proof (to_json_string_return flags v (printbuf_reset p) 0 Hok) as Hr.
  destruct (to_json_string v (printbuf_reset p) 0 flags) as [q r]. cbn [fst snd] in *.
  assert (zlen (contents (printbuf_reset p)) + zlen (text v 0 flags) + 1 <= INT_MAX - 8) as Hroom.
  { rewrite Hc0. change (zlen []) with 0. pose proof (zlen_nonneg (text v 0 flags)).
    unfold MAX_TEXT, INT_MAX in *. lia. }
  destruct (W Hwf0 Hroom) as (Hwfq & Hcq & Hsq). specialize (T Hwf0 Hroom).
  rewrite Hc0 in Hcq. cbn [app] in Hcq. rewrite Hcq in Hsq.
  assert (size (printbuf_reset p) = size p) as Esz by done. rewrite Esz in Hsq.
  destruct (Z.ltb_spec r 0); [lia|].
  exists (Some q), (buf q), (drop (Z.to_nat (bpos q)) (buf q)).
  split; [exact E|]. split; [split; [exact Hwfq|lia]|].
  split; [by rewrite <- Hcq; unfold contents; rewrite take_drop|].
  split; [|rewrite (wf_len q Hwfq); lia].
  destruct T as [_ Hnul]. by rewrite (drop_S _ _ _ Hnul).
Qed.

(** C1: printing and parsing are inverse. For every value whose booleans are 0
    or 1, whose integers fit 64 bits, whose strings are bytes (NUL included),
    whose field names are distinct C strings and whose doubles survive the two
    C conversions, nested less than 32 deep (the limit of the tokener), with a
    text of at most about 2^29 bytes, and for any formatting flags, when the
    allocator grants requests below 2 GiB: handing the string
    [json_object_to_json_string_ext] returns to [json_tokener_parse_verbose]
    succeeds and gives the value back. *)
Theorem json_print_parse_roundtrip flags v b :
  pb_usable b -> json_ok flags v -> nest v < JSON_TOKENER_DEFAULT_DEPTH ->
  2 * zlen (text v 0 flags) + 10 <= MAX_TEXT ->
  exists b' s, json_object_to_json_string_ext v b flags = (b', Some s) /\
  json_tokener_parse_verbose tt s = Some (VParsed tt json_tokener_success v).
Proof.
  intros Hb Hok Hnest Hlen.
  destruct (to_json_string_ext_memory flags v b Hb Hok Hlen)
    as (b' & s & after & E & _ & Es & Hafter & Hs).
  exists b', s. split; [exact E|]. rewrite Es. rewrite Es in Hs.
  destruct (text_head flags v 0 Hok) as (x & tw & Etw & Hx).
  apply parse_verbose_value; [done|by rewrite Etw; apply Hx|by rewrite Hafter|].
  intros m MD TOT -> Hcfg.
  apply (parse_value _ _ Hal flags v Hok) in Hcfg; [exact Hcfg|done|by rewrite Hafter].
Qed.
End Whole.

Definition sample_value : @json text_double :=
  @JObject text_double
    [(str "id", @JInt text_double (-42));
     (str "on", @JArray text_double [@JBool text_double 1; @JNull text_double; @JDouble text_double (str "2.500000")]);
     (str "s", @JString text_double [0; 10; 34; 200])].

Lemma json_print_parse_roundtrip_witness :
  exists b' s,
  @json_object_to_json_string_ext sample_alloc text_double sample_value None 3 = (b', Some s) /\
  @json_tokener_parse_verbose sample_alloc text_double (@value_ops text_double) tt s =
    Some (VParsed (H0 := @value_ops text_double) tt json_tokener_success sample_value).
Proof.
  apply (@json_print_parse_roundtrip sample_alloc text_double sample_alloc_total 3 sample_value None).
  - exact I.
  - split; [by apply (bool_decide_unpack _); vm_compute|].
    repeat split; try (by repeat constructor); try (by left); try (by right).
    all: repeat constructor; discriminate.
  - vm_compute. reflexivity.
  - vm_compute. discriminate.
Defined.
End JsonRoundTrip.
