(* ===== verification/TokenerUnicode.v ===== *)
(** * json-c [json_tokener.c]: escapes, comments and chunks

    What the parser makes of "\u" escapes, for every Unicode scalar value, and
    three inputs on which it does not do what its comments promise. *)

From S2P Require Import Prelude Printbuf JsonUtil JsonTokener JsonValue TokenerInv JsonPrint JsonRoundTrip.
From Stdlib Require Import ZArith Lia String.
From stdpp Require Import base list numbers option.

Open Scope Z_scope.

Module TokenerUnicode.
Import Printbuf JsonUtil JsonTokener JsonValue TokenerInv JsonPrint JsonRoundTrip.

(** ** Reference definitions *)

(** Unicode scalar values: code points that are not surrogates. *)
Definition scalar (u : Z) : Prop := 0 <= u < 1114112 /\ ~ (55296 <= u < 57344).

(** UTF-8 (RFC 3629), by arithmetic. *)
Definition utf8 (u : Z) : bytes :=
  if u <? 128 then [u]
  else if u <? 2048 then [192 + u / 64; 128 + u mod 64]
  else if u <? 65536 then [224 + u / 4096; 128 + u / 64 mod 64; 128 + u mod 64]
  else [240 + u / 262144; 128 + u / 4096 mod 64; 128 + u / 64 mod 64; 128 + u mod 64].

(** "\u" and the four digits of a 16-bit number. *)
Definition uescape16 (n : Z) : bytes :=
  [92; 117; hex_char (n / 4096 mod 16); hex_char (n / 256 mod 16);
   hex_char (n / 16 mod 16); hex_char (n mod 16)].

(** The escape of a scalar value (RFC 8259): one sequence, or the two of a
    surrogate pair. *)
Definition uescape (u : Z) : bytes :=
  if u <? 65536 then uescape16 u
  else uescape16 (55296 + (u - 65536) / 1024) ++ uescape16 (56320 + (u - 65536) mod 1024).

(** A decoded pair whose low 16 bits are those of a surrogate. *)
Definition mistaken (u : Z) : bool := (65536 <=? u) && (54 <=? u / 1024 mod 64) && (u / 1024 mod 64 <=? 55).

Definition decoded (u : Z) : bytes := if mistaken u then utf8_replacement_char else utf8 u.

(** ** Bits *)

Lemma forall_range (P : Z -> bool) n :
  forallb P (seqZ 0 n) = true -> forall x, 0 <= x < n -> P x = true.
Proof.
  rewrite forallb_forall. intros HP x Hx. apply HP. apply list_elem_of_In.
  apply elem_of_seqZ. lia.
Qed.

Lemma lor_small k n :
  forallb (fun x => Z.lor k x =? k + x) (seqZ 0 n) = true ->
  forall x, 0 <= x < n -> Z.lor k x = k + x.
Proof. intros HP x Hx. apply Z.eqb_eq. by apply (forall_range (fun x => Z.lor k x =? k + x) n). Qed.

Lemma land_63 x : Z.land x 63 = x mod 64.
Proof. change 63 with (Z.ones 6). apply Z.land_ones. lia. Qed.

Lemma land_1023 x : Z.land x 1023 = x mod 1024.
Proof. change 1023 with (Z.ones 10). apply Z.land_ones. lia. Qed.

Lemma land_64512 x : Z.land x 64512 = (x / 1024 mod 64) * 1024.
Proof.
  change 64512 with (Z.shiftl 63 10). rewrite <- land_63. change 1024 with (2 ^ 10).
  rewrite <- (Z.shiftr_div_pow2 x 10), <- (Z.shiftl_mul_pow2 _ 10) by lia.
  apply Z.bits_inj'. intros i Hi. rewrite Z.land_spec. rewrite !Z.shiftl_spec by lia.
  destruct (Z.lt_ge_cases i 10).
  - rewrite !(Z.testbit_neg_r _ (i - 10)) by lia. by rewrite andb_false_r.
  - rewrite Z.land_spec, Z.shiftr_spec by lia. f_equal. f_equal. lia.
Qed.

Lemma shiftr_div x k : 0 <= k -> Z.shiftr x k = x / 2 ^ k.
Proof. apply Z.shiftr_div_pow2. Qed.

Lemma hex_char_ok i : 0 <= i < 16 -> hex_ok (hex_char i) /\ hexdigit (hex_char i) = i.
Proof.
  intros Hi. assert (i ∈ seqZ 0 16) as Hin by (apply elem_of_seqZ; lia). clear Hi.
  repeat (apply elem_of_cons in Hin as [->|Hin]; [done|]). by apply elem_of_nil in Hin.
Qed.

Lemma is_high x : IS_HIGH_SURROGATE x = (x / 1024 mod 64 =? 54).
Proof.
  unfold IS_HIGH_SURROGATE. rewrite land_64512.
  destruct (Z.eqb_spec (x / 1024 mod 64 * 1024) 55296), (Z.eqb_spec (x / 1024 mod 64) 54); lia.
Qed.

Lemma is_low x : IS_LOW_SURROGATE x = (x / 1024 mod 64 =? 55).
Proof.
  unfold IS_LOW_SURROGATE. rewrite land_64512.
  destruct (Z.eqb_spec (x / 1024 mod 64 * 1024) 56320), (Z.eqb_spec (x / 1024 mod 64) 55); lia.
Qed.

(** The bit operations of the parser compute UTF-8. *)
Lemma unescaped_utf_utf8 u : 0 <= u < 1114112 -> unescaped_utf u = utf8 u.
Proof.
  intros Hu. unfold unescaped_utf, utf8, u8.
  rewrite !land_63, !shiftr_div by lia. change (Z.land ?x 7) with (Z.land x (Z.ones 3)).
  rewrite Z.land_ones by lia. change (2 ^ 6) with 64. change (2 ^ 12) with 4096.
  change (2 ^ 18) with 262144. change (2 ^ 3) with 8.
  pose proof (lor_small 128 64 eq_refl) as L1. pose proof (lor_small 192 32 eq_refl) as L2.
  pose proof (lor_small 224 16 eq_refl) as L3. pose proof (lor_small 240 8 eq_refl) as L4.
  assert (forall x, 0 <= x mod 64 < 64) as M by (intros; apply Z.mod_pos_bound; lia).
  destruct (Z.ltb_spec u 128); [by rewrite wrap_id by lia|].
  destruct (Z.ltb_spec u 2048).
  { assert (0 <= u / 64 < 32) by (split; [apply Z.div_pos; lia|apply Z.div_lt_upper_bound; lia]).
    pose proof (M u). rewrite L1, L2, !wrap_id by lia. done. }
  destruct (Z.ltb_spec u 65536).
  { assert (0 <= u / 4096 < 16) by (split; [apply Z.div_pos; lia|apply Z.div_lt_upper_bound; lia]).
    pose proof (M u). pose proof (M (u / 64)). rewrite !L1, L3, !wrap_id by lia. done. }
  destruct (Z.ltb_spec u 1114112); [|lia].
  assert (0 <= u / 262144 < 8) by (split; [apply Z.div_pos; lia|apply Z.div_lt_upper_bound; lia]).
  pose proof (M u). pose proof (M (u / 64)). pose proof (M (u / 4096)).
  rewrite (Z.mod_small (u / 262144) 8) by lia. rewrite !L1, L4, !wrap_id by lia. done.
Qed.

Lemma hex4_digits n :
  0 <= n < 65536 ->
  hex4 (hex_char (n / 4096 mod 16)) (hex_char (n / 256 mod 16))
       (hex_char (n / 16 mod 16)) (hex_char (n mod 16)) = n.
Proof.
  intros Hn. unfold hex4.
  rewrite !(fun i Hi => proj2 (hex_char_ok i Hi)) by (apply Z.mod_pos_bound; lia).
  assert (n / 4096 < 16) by (apply Z.div_lt_upper_bound; lia).
  rewrite (Z.mod_small (n / 4096) 16) by (split; [apply Z.div_pos|]; lia).
  pose proof (Z.div_mod n 16 ltac:(lia)). pose proof (Z.div_mod (n / 16) 16 ltac:(lia)).
  pose proof (Z.div_mod (n / 256) 16 ltac:(lia)).
  rewrite !Z.div_div in * by lia. change (16 * 16) with 256 in *. change (256 * 16) with 4096 in *. lia.
Qed.

(** ** The escape in the machine *)

Section Machine.
Context {al : Allocator} `{DoubleOps} (MD TOT : Z) (Hal : malloc_total al).

(** A sequence that is not a high surrogate ends the escape. *)
Lemma sequence_end_plain hi m d bel st cu nm f rest t u :
  seq_cfg MD TOT m d bel st cu nm f rest t u -> 0 <= u < 1114112 -> hi = 0 ->
  (2048 <= u -> u / 1024 mod 64 <> 54 /\ u / 1024 mod 64 <> 55) ->
  sequence_end (-1) hi m = inr (Break, set_state st (append (utf8 u) m)).
Proof.
  intros (Hcfg & U & _) Hu -> Hns. unfold sequence_end. cbn [Z.eqb negb]. rewrite U, is_high, is_low.
  destruct (cfg_fields _ _ _ _ _ _ _ _ _ _ Hcfg) as (_ & -> & _).
  rewrite unescaped_utf_utf8 by done.
  destruct (Z.leb_spec 2048 u); cbn [andb]; [|done]. destruct Hns as [H1 H2]; [done|].
  by rewrite (proj2 (Z.eqb_neq _ _) H1), (proj2 (Z.eqb_neq _ _) H2).
Qed.

(** [ADVANCE_CHAR] [k] times: [c] keeps its value. *)
Definition adv (k : nat) (m : mach) : mach :=
  Mach (set_char_offset (char_offset (tok m) + Z.of_nat k) (tok m)) (heap m)
    (drop k (cur m)) (c m) (obj m).

Lemma adv_0 m : adv 0 m = m.
Proof. unfold adv. rewrite drop_0, Z.add_0_r. by destruct m as [[] ]. Qed.

Lemma advance_adv k m :
  0 <= char_offset (tok m) -> char_offset (tok m) + Z.of_nat k + 1 <= INT_MAX ->
  ADVANCE_CHAR (adv k m) = adv (S k) m.
Proof.
  intros H0 H1. unfold ADVANCE_CHAR, adv, set_cur, upd_tok. simpl.
  rewrite s32_id by (unfold INT_MIN, INT_MAX in *; lia).
  replace (char_offset (tok m) + Z.of_nat k + 1) with (char_offset (tok m) + Z.of_nat (S k)) by lia.
  f_equal. rewrite <- (Nat.add_1_r k), <- drop_drop. by destruct (drop k (cur m)).
Qed.

(** A high surrogate followed by another sequence: the loop goes on there. *)
Lemma sequence_end_high m d bel st cu nm f x rest t u :
  seq_cfg MD TOT m d bel st cu nm f (92 :: 117 :: x :: rest) t u -> f <> 0 -> 2048 <= u ->
  u / 1024 mod 64 = 54 ->
  exists m', sequence_end (-1) 0 m = inl (u, m') /\
  cfg MD TOT m' d bel (Srec state_escape_unicode st cu nm) (x :: rest) /\
  st_pos (tok m') = 0 /\ ucs_char (tok m') = 0 /\ contents (pb (tok m')) = t /\
  quote_char (tok m') = 34 /\ char_offset (tok m') = char_offset (tok m) + 3.
Proof.
  intros (Hcfg & U & Ht & Hlen & Hq) Hf Hu Hh.
  pose proof (cf_off _ _ _ _ _ _ _ Hcfg) as Hoff. pose proof (cf_room _ _ _ _ _ _ _ Hcfg) as Hroom.
  rewrite !zlen_cons in Hroom. pose proof (zlen_nonneg rest). unfold MAX_TEXT in Hroom.
  pose proof (cfg_skip _ _ m d bel _ [f; 92; 117] _ Hcfg) as Hcfg3. cbn [length] in Hcfg3.
  exists (upd_tok (set_st_pos 0) (upd_tok (set_ucs_char 0) (skip 3 m))). split.
  - unfold sequence_end. cbn [Z.eqb negb]. rewrite U, is_high, Hh.
    destruct (Z.leb_spec 2048 u); [|lia]. cbn [andb Z.eqb Pos.eqb]. unfold next_sequence.
    rewrite (cf_cur _ _ _ _ _ _ _ Hcfg). cbn [nth Z.eqb Pos.eqb andb].
    rewrite !s32_id by (unfold INT_MIN, INT_MAX; lia).
    destruct (Z.eqb_spec (char_offset (tok m) + 1) (-1)); [lia|].
    destruct (Z.eqb_spec (char_offset (tok m) + 2) (-1)); [lia|]. cbn [negb andb].
    pose proof (advance_adv 0 m) as A1. rewrite adv_0 in A1.
    rewrite A1 by (unfold INT_MAX; lia). cbn [c adv]. rewrite (cf_c _ _ _ _ _ _ _ Hcfg).
    cbn [hd]. rewrite (proj2 (Z.eqb_neq f 0) Hf).
    rewrite (advance_adv 1 m) by (unfold INT_MAX; lia). cbn [c adv].
    rewrite (cf_c _ _ _ _ _ _ _ Hcfg). cbn [hd]. rewrite (proj2 (Z.eqb_neq f 0) Hf).
    unfold ADVANCE_PEEK. rewrite (advance_adv 2 m) by (unfold INT_MAX; lia). cbn [c adv].
    rewrite (cf_c _ _ _ _ _ _ _ Hcfg). cbn [hd]. rewrite (proj2 (Z.eqb_neq f 0) Hf).
    unfold PEEK_CHAR. cbn [tok adv set_char_offset char_offset].
    destruct (Z.eqb_spec (char_offset (tok m) + Z.of_nat 3) (-1)); [lia|]. by rewrite <- U.
  - split.
    + apply cfg_quiet; [done..|apply Hcfg3|]. apply cfg_quiet; [done..|apply Hcfg3|exact Hcfg3].
    + split_and!; done.
Qed.

(** The two halves of a pair. *)
Lemma pair_halves u :
  65536 <= u < 1114112 ->
  let hi := 55296 + (u - 65536) / 1024 in let lo := 56320 + (u - 65536) mod 1024 in
  55296 <= hi < 56320 /\ 56320 <= lo < 57344 /\ hi / 1024 mod 64 = 54 /\ lo / 1024 mod 64 = 55 /\
  DECODE_SURROGATE_PAIR hi lo = u.
Proof.
  intros Hu hi lo.
  assert (0 <= (u - 65536) / 1024 < 1024) as Hh
    by (split; [apply Z.div_pos; lia|apply Z.div_lt_upper_bound; lia]).
  pose proof (Z.mod_pos_bound (u - 65536) 1024 ltac:(lia)) as Hl.
  assert (hi / 1024 = 54) as E1 by (unfold hi; symmetry; apply (Z.div_unique _ _ _ ((u - 65536) / 1024)); lia).
  assert (lo / 1024 = 55) as E2 by (unfold lo; symmetry; apply (Z.div_unique _ _ _ ((u - 65536) mod 1024)); lia).
  split_and!; try lia.
  - by rewrite E1.
  - by rewrite E2.
  - unfold DECODE_SURROGATE_PAIR. rewrite !land_1023, Z.shiftl_mul_pow2 by lia.
    assert (hi mod 1024 = (u - 65536) / 1024) as ->
      by (unfold hi; symmetry; apply (Z.mod_unique _ _ 54); lia).
    assert (lo mod 1024 = (u - 65536) mod 1024) as ->
      by (unfold lo; symmetry; apply (Z.mod_unique _ _ 55); lia).
    pose proof (Z.div_mod (u - 65536) 1024 ltac:(lia)). change (2 ^ 10) with 1024.
    unfold u32. rewrite wrap_id by lia. lia.
Qed.

(** A pair: the loop reaches its end with the code point decoded, on the last
    digit. *)
Lemma enter_pair m d bel st sv cu nm u rest t :
  str_state st -> 65536 <= u < 1114112 ->
  str_cfg MD TOT m d bel st sv cu nm (uescape u ++ rest) t ->
  exists m2 m3 f, steps m m2 /\ f <> 0 /\ seq_cfg MD TOT m3 d bel st cu nm f rest t u /\
  switch (-1) m2 =
  match sequence_end (-1) 0 m3 with
  | inl (hi', m'') => unicode_loop (-1) (3 + length rest) hi' m''
  | inr res => res
  end.
Proof.
  intros Hst Hu Hs. destruct (pair_halves u Hu) as (Hhi & Hlo & Ehi & Elo & Edec).
  unfold uescape in Hs. destruct (Z.ltb_spec u 65536); [lia|].
  set (hi := 55296 + (u - 65536) / 1024) in *. set (lo := 56320 + (u - 65536) mod 1024) in *.
  cbn [uescape16 app] in Hs.
  destruct (str_backslash _ _ Hal _ _ _ _ _ _ _ [] _ _ Hst Hs) as (m0 & S0 & Hs0); [constructor|].
  rewrite app_nil_r in Hs0.
  assert (forall n, hex_ok (hex_char (n mod 16))) as Hx
    by (intros n; apply hex_char_ok, Z.mod_pos_bound; lia).
  destruct (enter_unicode _ _ _ _ _ _ _ _ _ _ _ _ _ _ Hs0) as (m1 & m2 & S1 & Hseq & E1); [apply Hx..|].
  rewrite hex4_digits in Hseq by lia.
  destruct (sequence_end_high _ _ _ _ _ _ _ _ _ _ _ Hseq) as (m3 & E3 & Hcfg3 & P3 & U3 & B3 & Q3 & O3);
    [apply Hx|lia|done|]. rewrite E3 in E1.
  change (S (length (92 :: 117 :: ?l))) with (4 + (3 + length rest))%nat in E1.
  destruct (unicode_four _ _ (3 + length rest) hi m3 _ _ _ _ _ _ _ _ Hcfg3)
    as (m4 & Hcfg4 & U4 & B4 & Q4 & O4 & E4); [apply Hx..|done|done|].
  rewrite hex4_digits in U4 by lia. rewrite E4 in E1.
  exists m1, (upd_tok (fun tk => set_ucs_char (DECODE_SURROGATE_PAIR hi (ucs_char tk)) tk) m4),
    (hex_char (lo mod 16)).
  split; [by eapply steps_trans|]. split; [apply Hx|]. destruct Hseq as (_ & _ & _ & Hlen & _). split.
  - split; [apply cfg_quiet; [done..|apply Hcfg4|exact Hcfg4]|].
    simpl. rewrite U4, Edec, B4, Q4, B3, Q3, O4, O3. split_and!; done || lia.
  - rewrite E1. unfold sequence_end. rewrite U4, is_low, Elo.
    rewrite (proj2 (Z.eqb_neq hi 0)) by lia. done.
Qed.

(** Every escaped scalar value outside the mistaken ones adds its UTF-8. *)
Lemma str_uescape m d bel st sv cu nm u rest t :
  str_state st -> scalar u -> mistaken u = false ->
  str_cfg MD TOT m d bel st sv cu nm (uescape u ++ rest) t ->
  exists m', steps m m' /\ str_cfg MD TOT m' d bel st st cu nm rest (t ++ utf8 u).
Proof.
  intros Hst [Hu Hsur] Hmis Hs.
  assert (zlen (utf8 u) <= 4) as Hl by (unfold utf8; repeat case_test; done).
  destruct (Z.lt_ge_cases u 65536) as [Hlt|Hge].
  - unfold uescape in Hs. destruct (Z.ltb_spec u 65536); [|lia]. cbn [uescape16 app] in Hs.
    destruct (str_backslash _ _ Hal _ _ _ _ _ _ _ [] _ _ Hst Hs) as (m0 & S0 & Hs0); [constructor|].
    rewrite app_nil_r in Hs0.
    assert (forall n, hex_ok (hex_char (n mod 16))) as Hx
      by (intros n; apply hex_char_ok, Z.mod_pos_bound; lia).
    destruct (enter_unicode _ _ _ _ _ _ _ _ _ _ _ _ _ _ Hs0) as (m1 & m2 & S1 & Hseq & E1); [apply Hx..|].
    rewrite hex4_digits in Hseq by lia.
    destruct (unicode_done _ _ Hal m1 m2 _ _ _ _ _ _ _ _ _ (utf8 u) Hseq) as (m' & S2 & Hs'); [apply Hx|done| |].
    + rewrite E1, (sequence_end_plain 0 _ _ _ _ _ _ _ _ _ _ Hseq) by (done || intros;
        assert (0 <= u / 1024 < 64) by (split; [apply Z.div_pos; lia|apply Z.div_lt_upper_bound; lia]);
        rewrite Z.mod_small by lia; pose proof (Z.div_mod u 1024 ltac:(lia));
        pose proof (Z.mod_pos_bound u 1024 ltac:(lia)); lia).
      done.
    + exists m'. split; [|done]. eapply steps_trans; [exact S0|]. by eapply steps_trans.
  - destruct (enter_pair m d bel st sv cu nm u rest t Hst ltac:(lia) Hs) as (m1 & m2 & f & S1 & Hf & Hseq & E1).
    destruct (unicode_done _ _ Hal m1 m2 _ _ _ _ _ _ _ _ _ (utf8 u) Hseq) as (m' & S2 & Hs'); [done|done| |].
    + rewrite E1, (sequence_end_plain 0 _ _ _ _ _ _ _ _ _ _ Hseq); [done|lia|done|]. intros _.
      unfold mistaken in Hmis. destruct (Z.leb_spec 65536 u); [|lia]. cbn [andb] in Hmis.
      apply andb_false_iff in Hmis. rewrite !Z.leb_gt in Hmis. lia.
    + exists m'. split; [by eapply steps_trans|done].
Qed.

Lemma sequence_end_mistaken m d bel st cu nm f rest t u :
  seq_cfg MD TOT m d bel st cu nm f rest t u -> mistaken u = true -> hd 0 rest <> 92 ->
  sequence_end (-1) 0 m = inr (Break, set_state st (append utf8_replacement_char m)).
Proof.
  intros (Hcfg & U & _) Hm Hr. unfold mistaken in Hm. bool_to_prop.
  unfold sequence_end. cbn [Z.eqb negb]. rewrite U, is_high, is_low.
  destruct (Z.leb_spec 2048 u); [|lia]. cbn [andb].
  destruct (cfg_fields _ _ _ _ _ _ _ _ _ _ Hcfg) as (_ & Hsv & _).
  destruct (Z.eqb_spec (u / 1024 mod 64) 54) as [E|E].
  - unfold next_sequence. rewrite (cf_cur _ _ _ _ _ _ _ Hcfg), Hsv.
    replace (nth 1 (f :: rest) 0) with (hd 0 rest) by (by destruct rest).
    rewrite (proj2 (Z.eqb_neq (hd 0 rest) 92)) by done. by rewrite andb_false_r.
  - destruct (Z.eqb_spec (u / 1024 mod 64) 55); [by rewrite Hsv|lia].
Qed.

Lemma str_mistaken m d bel st sv cu nm u rest t :
  str_state st -> u < 1114112 -> mistaken u = true -> hd 0 rest <> 92 ->
  str_cfg MD TOT m d bel st sv cu nm (uescape u ++ rest) t ->
  exists m', steps m m' /\ str_cfg MD TOT m' d bel st st cu nm rest (t ++ utf8_replacement_char).
Proof.
  intros Hst Hu Hmis Hr Hs.
  assert (65536 <= u) by (unfold mistaken in Hmis; bool_to_prop; lia).
  destruct (enter_pair m d bel st sv cu nm u rest t Hst ltac:(lia) Hs) as (m1 & m2 & f & S1 & Hf & Hseq & E1).
  destruct (unicode_done _ _ Hal m1 m2 _ _ _ _ _ _ _ _ _ utf8_replacement_char Hseq) as (m' & S2 & Hs'); [done|done| |].
  - by rewrite E1, (sequence_end_mistaken _ _ _ _ _ _ _ _ _ _ Hseq).
  - exists m'. split; [by eapply steps_trans|done].
Qed.
End Machine.

(** ** Whole texts *)

Section Theorems.
Context {al : Allocator} `{DoubleOps} (Hal : malloc_total al).

(** A string value whose body the string state reads as [t]. *)
Lemma parse_quoted body t :
  zlen body + 2 <= MAX_TEXT ->
  (forall m MD TOT rest,
   str_cfg MD TOT m 0 [] state_string state_start JNull None (body ++ 34 :: rest) [] ->
   exists m' sv, steps m m' /\ str_cfg MD TOT m' 0 [] state_string sv JNull None (34 :: rest) t) ->
  json_tokener_parse_verbose tt (34 :: body ++ [34]) =
  Some (VParsed tt json_tokener_success (JString t)).
Proof.
  intros Hlen Hbody. rewrite <- (app_nil_r (34 :: body ++ [34])). apply parse_verbose_value; [done|..].
  - rewrite app_nil_r, zlen_cons, zlen_app. change (zlen [34]) with 1. lia.
  - done.
  - done.
  - intros m MD TOT _ Hcfg. cbn [app] in Hcfg. rewrite <- app_assoc in Hcfg. cbn [app] in Hcfg.
    set (m1 := upd_tok (set_quote_char 34) (reset_pb (set_state state_string m))).
    assert (switch (-1) m = (Break, m1)) as E1.
    { unfold switch. destruct (cfg_fields _ _ _ _ _ _ _ _ _ _ Hcfg) as (-> & _).
      unfold case_start. by rewrite (cf_c _ _ _ _ _ _ _ Hcfg). }
    destruct (cfg_reset_pb MD TOT (set_state state_string m) 0 [] (Srec (H0 := value_ops) state_string state_start JNull None)
                (34 :: body ++ [34])) as [Hc0 E0]; [by eapply cfg_set_state|].
    destruct (break_cfg MD TOT _ _ 0 [] (Srec (H0 := value_ops) state_string state_start JNull None) 34 (body ++ [34]) E1)
      as [S1 Hcfg1]; [apply cfg_quiet; [done..|apply Hc0|exact Hc0]|done|].
    destruct (Hbody (skip 1 m1) MD TOT []) as (m2 & sv & S2 & Hs2).
    { split; [exact Hcfg1|]. split; [split; [exact E0|]|done].
      pose proof (cf_off _ _ _ _ _ _ _ Hcfg). change (zlen []) with 0. simpl. lia. }
    destruct (str_end _ _ Hal _ _ _ _ _ _ [] _ _ Hs2) as (m3 & S3 & Hcfg3); [constructor|].
    rewrite app_nil_r in Hcfg3. exists m3. split; [|exact Hcfg3].
    eapply steps_trans; [exact S1|]. by eapply steps_trans.
Qed.

(** C39: the "\u" escapes of any sequence of Unicode scalar values (surrogate
    pairs above U+FFFF) in a string parse to the UTF-8 of the sequence, except
    for the code points above U+FFFF whose low 16 bits lie between D800 and
    DFFF, which are those of the next theorem; the string has at most about
    2^30 bytes and the allocator grants requests below 2 GiB. *)
Theorem json_tokener_unicode us :
  Forall (fun u => scalar u /\ mistaken u = false) us -> 12 * zlen us + 2 <= MAX_TEXT ->
  json_tokener_parse_verbose tt (34 :: List.concat (List.map uescape us) ++ [34]) =
  Some (VParsed tt json_tokener_success (JString (List.concat (List.map utf8 us)))).
Proof.
  intros Hus Hlen. apply parse_quoted.
  - enough (zlen (List.concat (List.map uescape us)) <= 12 * zlen us) by lia. clear.
    induction us as [|u us IH]; [done|]. simpl. rewrite zlen_app, zlen_cons.
    enough (zlen (uescape u) <= 12) by lia. unfold uescape. by case_test.
  - clear Hlen. intros m MD TOT rest Hs.
    enough (forall sv t, str_cfg MD TOT m 0 [] state_string sv JNull None
        (List.concat (List.map uescape us) ++ 34 :: rest) t ->
      exists m' sv, steps m m' /\
      str_cfg MD TOT m' 0 [] state_string sv JNull None (34 :: rest) (t ++ List.concat (List.map utf8 us))) as Hall.
    { exact (Hall _ _ Hs). }
    clear Hs. revert m. induction Hus as [|u us [Hu Hm] _ IH]; intros m sv t Hs.
    { exists m, sv. rewrite app_nil_r. split; [apply steps_refl|exact Hs]. }
    simpl in Hs. rewrite <- app_assoc in Hs.
    destruct (str_uescape MD TOT Hal m 0 [] state_string sv JNull None u _ t (or_introl eq_refl) Hu Hm Hs)
      as (m1 & S1 & Hs1).
    destruct (IH m1 _ _ Hs1) as (m2 & sv2 & S2 & Hs2). exists m2, sv2.
    split; [by eapply steps_trans|]. simpl. by rewrite app_assoc.
Qed.

(** The escaped pair of a code point above U+FFFF whose low 16 bits lie
    between D800 and DFFF, such as U+1D800, is taken for a surrogate after it
    has been decoded, and U+FFFD stands in its place. *)
Theorem json_tokener_unicode_mistaken u :
  scalar u -> mistaken u = true ->
  json_tokener_parse_verbose tt (34 :: uescape u ++ [34]) =
  Some (VParsed tt json_tokener_success (JString utf8_replacement_char)) /\
  utf8 u <> utf8_replacement_char.
Proof.
  intros [Hu _] Hm. split.
  - apply parse_quoted; [unfold uescape; by case_test|]. intros m MD TOT rest Hs.
    destruct (str_mistaken MD TOT Hal m 0 [] state_string _ JNull None u (34 :: rest) []
      (or_introl eq_refl) ltac:(lia) Hm ltac:(done) Hs) as (m1 & S1 & Hs1).
    exists m1, state_string. done.
  - unfold utf8, mistaken in *. bool_to_prop.
    destruct (Z.ltb_spec u 128); [lia|]. destruct (Z.ltb_spec u 2048); [lia|].
    destruct (Z.ltb_spec u 65536); [lia|]. discriminate.
Qed.
End Theorems.

Lemma json_tokener_unicode_witness :
  @json_tokener_parse_verbose sample_alloc text_double (@value_ops text_double) tt
    (34 :: List.concat (List.map uescape [65; 233; 8364; 128512]) ++ [34]) =
  Some (VParsed (H0 := @value_ops text_double) tt json_tokener_success
    (@JString text_double [65; 195; 169; 226; 130; 172; 240; 159; 152; 128])).
Proof.
  apply (@json_tokener_unicode sample_alloc text_double sample_alloc_total [65; 233; 8364; 128512]).
  - repeat constructor; try lia; vm_compute; discriminate.
  - vm_compute. discriminate.
Defined.

Lemma json_tokener_unicode_mistaken_witness :
  @json_tokener_parse_verbose sample_alloc text_double (@value_ops text_double) tt
    (34 :: uescape 120832 ++ [34]) =
  Some (VParsed (H0 := @value_ops text_double) tt json_tokener_success
    (@JString text_double utf8_replacement_char)) /\
  utf8 120832 <> utf8_replacement_char.
Proof.
  apply (@json_tokener_unicode_mistaken sample_alloc text_double sample_alloc_total 120832);
    [unfold scalar; lia|reflexivity].
Defined.

(** ** Inputs the parser gets wrong *)

Section Concrete.
#[local] Existing Instance sample_alloc.
#[local] Existing Instance text_double.

(** One call of [json_tokener_parse_ex] on a new tokener, then another with the
    tokener it left: error code, offset and object of each. *)
Definition call (len : Z) (t : json_tokener) (s : bytes)
  : option (json_tokener_error * Z * json * json_tokener) :=
  match json_tokener_parse_ex len tt t s with
  | Some (_, t', o) => Some (err t', char_offset t', o, t')
  | None => None
  end.

Definition new_call (len : Z) (s : bytes) : option (json_tokener_error * Z * json * json_tokener) :=
  match json_tokener_new (H0 := value_ops) tt with
  | New _ t => call len t s
  | _ => None
  end.

Definition outcome_of (r : option (json_tokener_error * Z * json * json_tokener))
  : option (json_tokener_error * Z * json) :=
  match r with Some (e, off, o, _) => Some (e, off, o) | None => None end.

(** A comment that is not closed is an error only where a value is
    missing.  After a complete element of an array it is not noticed: the text
    "[1 /" followed by "* comment" parses successfully, as the number 1. *)
Theorem json_tokener_open_comment :
  json_tokener_parse_verbose tt (str "[1 /* comment") =
    Some (VParsed tt json_tokener_success (JInt 1)) /\
  json_tokener_parse_verbose tt (str "[1") =
    Some (VParsed tt json_tokener_error_parse_eof JNull) /\
  json_tokener_parse_verbose tt (str "[/* comment") =
    Some (VParsed tt json_tokener_error_parse_eof JNull).
Proof. vm_compute. auto. Qed.

(** Input may be given in pieces, but not everywhere: when a piece ends
    between the "\u" and the digits of a low surrogate, the digits are not
    counted from zero in the next piece and a string that parses in one piece
    is refused in two. *)
Theorem json_tokener_split_surrogate :
  let first := [34] ++ str "\ud83d\u" in let second := str "de00" ++ [34] in
  outcome_of (new_call (-1) (first ++ second)) =
    Some (json_tokener_success, 14, JString [240; 159; 152; 128]) /\
  match new_call (zlen first) first with
  | Some (e, _, _, t) =>
      e = json_tokener_continue /\ st_pos t = 4 /\
      outcome_of (call (-1) t second) = Some (json_tokener_error_parse_string, 4, JNull)
  | None => False
  end.
Proof. vm_compute. auto. Qed.

(** The parser reads past the end of a NUL-terminated string.  The NUL
    after "\ud83" passes for the fourth digit (it is found in the string of
    digits), makes the value a high surrogate, and the next two bytes are
    compared with "\u": what they are changes the outcome. *)
Theorem json_tokener_reads_past_nul :
  let text := [34] ++ str "\ud83" ++ [0] in
  outcome_of (new_call (-1) (text ++ str "ab")) = Some (json_tokener_error_parse_eof, 7, JNull) /\
  outcome_of (new_call (-1) (text ++ str "\u")) = Some (json_tokener_error_parse_eof, 8, JNull).
Proof. vm_compute. auto. Qed.
End Concrete.

(** The range check of [json_tokener_error_desc] compares with the size of
    the table in bytes: the arguments 14 to 112 read outside it. *)
Theorem json_tokener_error_desc_range i :
  json_tokener_error_desc i = OutOfTable <-> 14 <= i <= 112.
Proof.
  unfold json_tokener_error_desc. change (8 * zlen json_tokener_errors) with 112.
  destruct (Z.ltb_spec i 0); [simpl; split; [done|lia]|].
  destruct (Z.gtb_spec i 112); [simpl; split; [done|lia]|]. cbn [orb].
  destruct (json_tokener_errors !! Z.to_nat i) eqn:E.
  - apply lookup_lt_Some in E. simpl in E. split; [done|lia].
  - apply lookup_ge_None in E. simpl in E. split; [lia|done].
Qed.
End TokenerUnicode.
