(* ===== verification/JsonObject.v ===== *)
(** * json-c [json_object.c]: reference-counted objects in memory

    A [store] maps locations to [struct json_object]s; a pointer is an
    [option] of a location, [None] being NULL.  The containers are the
    [array_list] and [lh_table] of the files [ArrayList] and [LinkHash], with
    [json_object_put] as their release callback, so [json_object_put] is
    recursive through them; its fuel bounds the depth of the recursion.  A
    result [None] stands for undefined behaviour (a null or released pointer
    is dereferenced, the union is read at another type) or for the end of the
    process in [lh_abort].

    The theorems about these definitions are in the file [JsonTree]. *)

From S2P Require Import Prelude Printbuf ArrayList LinkHash JsonUtil JsonTokener JsonValue.
From Stdlib Require Import ZArith Lia String.
From stdpp Require Import base list numbers option gmap sets.

Open Scope Z_scope.

(** The arithmetic of [double] the accessors use. *)
Class DoubleConv `{DoubleOps} := {
  double_zero : double;
  double_nonzero : double -> bool;
  double_of_int64 : Z -> double;
  double_to_int32 : double -> Z;
  double_to_int64 : double -> Z
}.

Module JsonObject.
Import JsonUtil.
#[local] Existing Instance LinkHash.char_key.

Abbreviation loc := positive (only parsing).
Abbreviation ptr := (option positive) (only parsing).

Definition JSON_OBJECT_DEF_HASH_ENTRIES : Z := 16.

Section Objects.
Context {al : Allocator} `{DoubleConv}.

(** The union [data]; the constructor is [o_type].  A string is the block
    [str] points to (NUL included; [None] for a null pointer) and [len]. *)
Inductive data :=
| c_boolean (b : Z)
| c_double (d : double)
| c_int64 (n : Z)
| c_object (t : LinkHash.lh_table bytes loc)
| c_array (a : option (ArrayList.array_list loc))
| c_string (str : option bytes) (len : Z).

(** [_delete] and the default [_to_json_string] are determined by the type;
    [_to_json_string] is [None] for it, [Some f] for a function of the user.
    Functions of the user are numbers. *)
Record json_object := Obj {
  o : data;
  _ref_count : Z;
  _to_json_string : option Z;
  _user_delete : option Z;
  _userdata : Z
}.

(** The objects, and the calls of [_user_delete] functions made so far:
    function, object, user data. *)
Record store := Store {
  mem : gmap loc json_object;
  calls : list (Z * loc * Z)
}.

Definition o_type (jso : json_object) : json_type :=
  match o jso with
  | c_boolean _ => json_type_boolean
  | c_double _ => json_type_double
  | c_int64 _ => json_type_int
  | c_object _ => json_type_object
  | c_array _ => json_type_array
  | c_string _ _ => json_type_string
  end.

Definition set_o (x : data) (jso : json_object) : json_object :=
  Obj x (_ref_count jso) (_to_json_string jso) (_user_delete jso) (_userdata jso).
Definition set_ref_count (n : Z) (jso : json_object) : json_object :=
  Obj (o jso) n (_to_json_string jso) (_user_delete jso) (_userdata jso).

Definition write (l : loc) (jso : json_object) (s : store) : store :=
  Store (<[l := jso]> (mem s)) (calls s).

(** ** Reference counting *)

(** [json_object_get]: the pointer returned is the argument. *)
Definition json_object_get (s : store) (p : ptr) : option store :=
  match p with
  | None => Some s
  | Some l =>
      match mem s !! l with
      | Some jso => Some (write l (set_ref_count (s32 (_ref_count jso + 1)) jso) s)
      | None => None
      end
  end.

(** [if (jso->_user_delete) jso->_user_delete(jso, jso->_userdata)]. *)
Definition call_user_delete (l : loc) (jso : json_object) (s : store) : store :=
  match _user_delete jso with
  | Some f => Store (mem s) (calls s ++ [(f, l, _userdata jso)])
  | None => s
  end.

Definition json_object_generic_delete (l : loc) (s : store) : store :=
  Store (delete l (mem s)) (calls s).

(** [json_object_lh_entry_free] and [json_object_array_entry_free], over
    [put]; the state they thread is the store, [None] once something failed. *)
Definition json_object_lh_entry_free (put : store -> ptr -> option store)
    (e : LinkHash.lh_entry bytes loc) (s : option store) : option store :=
  s ≫= fun s => put s (LinkHash.v e).

Definition json_object_array_entry_free (put : store -> ptr -> option store)
    (l : loc) (s : option store) : option store :=
  s ≫= fun s => put s (Some l).

(** [jso->_delete(jso)]: [json_object_object_delete],
    [json_object_array_delete], [json_object_string_delete] or
    [json_object_generic_delete]. *)
Definition json_object_delete (put : store -> ptr -> option store)
    (l : loc) (jso : json_object) (s : store) : option store :=
  match o jso with
  | c_object t =>
      s' ← mjoin (LinkHash.lh_table_free (Some (json_object_lh_entry_free put)) t (Some s));
      Some (json_object_generic_delete l s')
  | c_array (Some a) =>
      s' ← ArrayList.array_list_free (json_object_array_entry_free put) a (Some s);
      Some (json_object_generic_delete l s')
  | c_array None => None
  | _ => Some (json_object_generic_delete l s)
  end.

(** The result has the C return value: 1 when the object was released. *)
Fixpoint json_object_put (fuel : nat) (s : store) (p : ptr) : option (store * Z) :=
  match p with
  | None => Some (s, 0)
  | Some l =>
      match mem s !! l, fuel with
      | Some jso, S f =>
          let jso := set_ref_count (s32 (_ref_count jso - 1)) jso in
          let s := write l jso s in
          if _ref_count jso =? 0 then
            s' ← json_object_delete (fun s p => fst <$> json_object_put f s p) l jso
                   (call_user_delete l jso s);
            Some (s', 1)
          else Some (s, 0)
      | _, _ => None
      end
  end.

(** A release never nests deeper than there are objects. *)
Definition put_fuel (s : store) : nat := S (size (mem s)).

Definition put (s : store) (p : ptr) : option store := fst <$> json_object_put (put_fuel s) s p.

(** ** Construction *)

(** [json_object_new]; the location is one that is not in use. *)
Definition json_object_new (x : data) (s : store) : store * ptr :=
  if malloc_ok 72 then
    let l := fresh (dom (mem s)) in
    (write l (Obj x 1 None None 0) s, Some l)
  else (s, None).

Definition json_object_new_object (s : store) : option (store * ptr) :=
  if malloc_ok 72 then
    t ← LinkHash.lh_table_new JSON_OBJECT_DEF_HASH_ENTRIES;
    Some (json_object_new (c_object t) s)
  else Some (s, None).

Definition json_object_new_array (s : store) : store * ptr :=
  json_object_new (c_array ArrayList.array_list_new) s.

Definition json_object_new_boolean (s : store) (b : Z) : store * ptr :=
  json_object_new (c_boolean b) s.
Definition json_object_new_int (s : store) (i : Z) : store * ptr := json_object_new (c_int64 i) s.
Definition json_object_new_int64 (s : store) (i : Z) : store * ptr := json_object_new (c_int64 i) s.
Definition json_object_new_double (s : store) (d : double) : store * ptr :=
  json_object_new (c_double d) s.

Definition strdup (str : bytes) : option bytes :=
  if malloc_ok (strlen str + 1) then Some (cstr str ++ [0]) else None.

(** The result of [strdup] is not tested. *)
Definition json_object_new_string (s : store) (str : bytes) : store * ptr :=
  json_object_new (c_string (strdup str) (s32 (strlen str))) s.

(** [len] bytes are copied, whatever they are: they have to be there, and so
    has the block. *)
Definition json_object_new_string_len (s : store) (str : bytes) (len : Z) : option (store * ptr) :=
  if malloc_ok 72 then
    if malloc_ok (u64 (s32 (len + 1))) && (0 <=? len) && (len <=? zlen str) then
      Some (json_object_new (c_string (Some (take (Z.to_nat len) str ++ [0])) len) s)
    else None
  else Some (s, None).

(** ** Types *)

(** Outer [option]: the pointer could be read. *)
Definition json_object_get_type (s : store) (p : ptr) : option json_type :=
  match p with
  | None => Some json_type_null
  | Some l => o_type <$> mem s !! l
  end.

Definition json_object_is_type (s : store) (p : ptr) (t : json_type) : option bool :=
  match p with
  | None => Some (bool_decide (t = json_type_null))
  | Some l => (fun jso => bool_decide (o_type jso = t)) <$> mem s !! l
  end.

(** ** Objects *)

Definition as_object (s : store) (p : ptr) : option (loc * json_object * LinkHash.lh_table bytes loc) :=
  match p with
  | None => None
  | Some l =>
      jso ← mem s !! l;
      match o jso with c_object t => Some (l, jso, t) | _ => None end
  end.

(** The table, or NULL for another type. *)
Definition json_object_get_object (s : store) (p : ptr)
  : option (option (LinkHash.lh_table bytes loc)) :=
  match p with
  | None => Some None
  | Some l =>
      (fun jso => match o jso with c_object t => Some t | _ => None end) <$> mem s !! l
  end.

(** [existing_entry->v = val]. *)
Definition set_entry_value (n : nat) (val : ptr) (t : LinkHash.lh_table bytes loc)
  : LinkHash.lh_table bytes loc :=
  LinkHash.LhTable (LinkHash.size t) (LinkHash.count t) (LinkHash.collisions t)
    (LinkHash.resizes t) (LinkHash.lookups t) (LinkHash.inserts t) (LinkHash.deletes t)
    (LinkHash.head t) (LinkHash.tail t)
    (alter (fun e => LinkHash.LhEntry (LinkHash.k e) val (LinkHash.next e) (LinkHash.prev e))
       n (LinkHash.table t)).

Definition json_object_object_add (s : store) (p : ptr) (key : bytes) (val : ptr) : option store :=
  '(l, jso, t) ← as_object s p;
  let '(t1, existing_entry) := LinkHash.lh_table_lookup_entry t key in
  match existing_entry with
  | None =>
      key' ← strdup key;
      t2 ← LinkHash.lh_table_insert t1 (cstr key') val;
      Some (write l (set_o (c_object t2) jso) s)
  | Some n =>
      e ← LinkHash.table t1 !! n;
      let s := write l (set_o (c_object t1) jso) s in
      s' ← (match LinkHash.v e with
            | Some _ => put s (LinkHash.v e)
            | None => Some s
            end);
      '(l', jso', t') ← as_object s' p;
      Some (write l' (set_o (c_object (set_entry_value n val t')) jso') s')
  end.

Definition json_object_object_length (s : store) (p : ptr) : option Z :=
  '(_, _, t) ← as_object s p; Some (LinkHash.lh_table_length t).

(** Whether the key was found, and the value. *)
Definition json_object_object_get_ex (s : store) (p : ptr) (key : bytes)
  : option (store * bool * ptr) :=
  match p with
  | None => Some (s, false, None)
  | Some l =>
      jso ← mem s !! l;
      match o jso with
      | c_object t =>
          let '(t1, found, val) := LinkHash.lh_table_lookup_ex t key in
          Some (write l (set_o (c_object t1) jso) s, found, val)
      | _ => Some (s, false, None)
      end
  end.

Definition json_object_object_get (s : store) (p : ptr) (key : bytes) : option (store * ptr) :=
  '(s', _, result) ← json_object_object_get_ex s p key; Some (s', result).

Definition json_object_object_del (s : store) (p : ptr) (key : bytes) : option store :=
  '(l, jso, t) ← as_object s p;
  let free_fn := Some (json_object_lh_entry_free put) in
  '(t1, s', _) ← LinkHash.lh_table_delete free_fn t key (Some s);
  s' ← s';
  match mem s' !! l with
  | Some jso' => Some (write l (set_o (c_object t1) jso') s')
  | None => None
  end.

(** ** Arrays *)

Definition as_array (s : store) (p : ptr) : option (loc * json_object * ArrayList.array_list loc) :=
  match p with
  | None => None
  | Some l =>
      jso ← mem s !! l;
      match o jso with c_array (Some a) => Some (l, jso, a) | _ => None end
  end.

Definition json_object_get_array (s : store) (p : ptr)
  : option (option (ArrayList.array_list loc)) :=
  match p with
  | None => Some None
  | Some l => (fun jso => match o jso with c_array a => a | _ => None end) <$> mem s !! l
  end.

Definition json_object_array_length (s : store) (p : ptr) : option Z :=
  '(_, _, a) ← as_array s p; Some (ArrayList.array_list_length a).

Definition json_object_array_put_idx (s : store) (p : ptr) (idx : Z) (val : ptr)
  : option (store * Z) :=
  '(l, jso, a) ← as_array s p;
  '(a', s', r) ← ArrayList.array_list_put_idx (json_object_array_entry_free put) a idx val (Some s);
  s' ← s';
  match mem s' !! l with
  | Some jso' => Some (write l (set_o (c_array (Some a')) jso') s', r)
  | None => None
  end.

Definition json_object_array_add (s : store) (p : ptr) (val : ptr) : option (store * Z) :=
  '(_, _, a) ← as_array s p;
  json_object_array_put_idx s p (ArrayList.length a) val.

Definition json_object_array_get_idx (s : store) (p : ptr) (idx : Z) : option ptr :=
  '(_, _, a) ← as_array s p; ArrayList.array_list_get_idx a idx.

(** ** Scalars *)

(** The accessors convert between the types.  [None] is undefined behaviour:
    a dangling pointer or the text of a string whose [strdup] failed. *)
Definition deref (s : store) (p : ptr) : option (option data) :=
  match p with
  | None => Some None
  | Some l => (fun jso => Some (o jso)) <$> mem s !! l
  end.

Definition json_object_get_boolean (s : store) (p : ptr) : option Z :=
  x ← deref s p;
  Some match x with
       | Some (c_boolean b) => b
       | Some (c_int64 n) => Z.b2z (negb (n =? 0))
       | Some (c_double d) => Z.b2z (double_nonzero d)
       | Some (c_string _ len) => Z.b2z (negb (len =? 0))
       | _ => 0
       end.

(** The [json_type_int] case of [json_object_get_int]. *)
Definition clamp32 (cint64 : Z) : Z :=
  if cint64 <=? INT32_MIN then INT32_MIN
  else if cint64 >=? INT32_MAX then INT32_MAX
  else s32 cint64.

Definition json_object_get_int (s : store) (p : ptr) : option Z :=
  x ← deref s p;
  match x with
  | Some (c_string str _) =>
      str ← str;
      Some match parse_int64 str with Some cint64 => clamp32 cint64 | None => 0 end
  | Some (c_int64 cint64) => Some (clamp32 cint64)
  | Some (c_double d) => Some (double_to_int32 d)
  | Some (c_boolean b) => Some b
  | _ => Some 0
  end.

Definition json_object_get_int64 (s : store) (p : ptr) : option Z :=
  x ← deref s p;
  match x with
  | Some (c_int64 n) => Some n
  | Some (c_double d) => Some (double_to_int64 d)
  | Some (c_boolean b) => Some b
  | Some (c_string str _) =>
      str ← str; Some match parse_int64 str with Some cint => cint | None => 0 end
  | _ => Some 0
  end.

Definition json_object_get_double (s : store) (p : ptr) : option double :=
  x ← deref s p;
  match x with
  | Some (c_double d) => Some d
  | Some (c_int64 n) => Some (double_of_int64 n)
  | Some (c_boolean b) => Some (double_of_int64 b)
  | Some (c_string str _) =>
      str ← str; Some match scan_double (cstr str) with Some d => d | None => double_zero end
  | _ => Some double_zero
  end.

(** [ser] stands for [json_object_to_json_string] on an object that is not a
    string.  The inner [option] is the pointer returned. *)
Definition json_object_get_string (ser : store -> loc -> option bytes) (s : store) (p : ptr)
  : option (option bytes) :=
  match p with
  | None => Some None
  | Some l =>
      jso ← mem s !! l;
      match o jso with
      | c_string str _ => Some str
      | _ => Some (ser s l)
      end
  end.

Definition json_object_get_string_len (s : store) (p : ptr) : option Z :=
  x ← deref s p;
  Some match x with Some (c_string _ len) => len | _ => 0 end.

(** ** Custom serializers *)

Definition json_object_set_serializer (s : store) (p : ptr) (to_string_func : option Z)
    (userdata : Z) (user_delete : option Z) : option store :=
  match p with
  | None => None
  | Some l =>
      jso ← mem s !! l;
      let s := call_user_delete l jso s in
      Some (write l match to_string_func with
                    | None => Obj (o jso) (_ref_count jso) None None 0
                    | Some f => Obj (o jso) (_ref_count jso) (Some f) user_delete userdata
                    end s)
  end.

(** ** Iterators ([json_object_iterator.c])

    An iterator is a pointer to an entry of the table of one object; the
    functions that read through it take that table.  [JASSERT] compiles to
    nothing ([PARSER_BROKEN_FIXED] is not defined), so [None] is again a null
    dereference. *)
Record json_object_iterator := Iter { opaque_ : option nat }.

Definition kObjectEndIterValue : option nat := None.

Definition json_object_iter_begin (s : store) (p : ptr) : option json_object_iterator :=
  t ← json_object_get_object s p;
  t ← t;
  Some (Iter (LinkHash.head t)).

Definition json_object_iter_end (p : ptr) : json_object_iterator := Iter kObjectEndIterValue.

(** The entry an iterator points to. *)
Definition iter_entry (t : LinkHash.lh_table bytes loc) (it : json_object_iterator)
  : option (LinkHash.lh_entry bytes loc) :=
  n ← opaque_ it; LinkHash.table t !! n.

Definition json_object_iter_next (t : LinkHash.lh_table bytes loc) (it : json_object_iterator)
  : option json_object_iterator :=
  e ← iter_entry t it; Some (Iter (LinkHash.next e)).

Definition json_object_iter_peek_name (t : LinkHash.lh_table bytes loc) (it : json_object_iterator)
  : option bytes :=
  e ← iter_entry t it;
  match LinkHash.k e with LinkHash.LH_KEY key => Some key | _ => None end.

Definition json_object_iter_peek_value (t : LinkHash.lh_table bytes loc) (it : json_object_iterator)
  : option ptr :=
  e ← iter_entry t it; Some (LinkHash.v e).

Definition json_object_iter_equal (it1 it2 : json_object_iterator) : bool :=
  bool_decide (opaque_ it1 = opaque_ it2).

Definition json_object_iter_init_default : json_object_iterator := Iter None.

End Objects.
End JsonObject.
