(* ===== verification/JsonTree.v ===== *)
(** * json-c: the objects in memory as trees of values

    [tree m p T v cs]: in the memory [m] the pointer [p] is the root of a tree
    of objects, each with one reference, that occupies exactly the locations
    [T], spells the value [v], and whose [_user_delete] functions will be
    called as [cs] says.  The theorems show that [json_object_put] releases
    exactly the objects of a tree, that the constructors and mutators of
    [json_object.c] act on trees as the operations on values of the file
    [JsonValue] do, and what the iterators visit. *)

From S2P Require Import Prelude Printbuf ArrayList LinkHash JsonUtil JsonTokener JsonValue JsonObject.
From Stdlib Require Import ZArith Lia String.
From stdpp Require Import base list numbers option gmap sets.

Open Scope Z_scope.

Module JsonTree.
Import JsonUtil JsonValue JsonObject.
#[local] Existing Instance LinkHash.char_key.

Section Trees.
Context {al : Allocator} `{DoubleConv}.

Definition call := (Z * positive * Z)%type.

Definition own_call (l : positive) (jso : json_object) : list call :=
  match _user_delete jso with Some f => [(f, l, _userdata jso)] | None => [] end.

Definition nul_free (s : bytes) : Prop := Forall (fun c => c <> 0) s.

(** The value of an object without children. *)
Definition scalar (x : data) : option json :=
  match x with
  | c_boolean b => Some (JBool b)
  | c_double d => Some (JDouble d)
  | c_int64 n => Some (JInt n)
  | c_string (Some s) len =>
      if bool_decide (zlen s = len + 1) && bool_decide (last s = Some 0) && (0 <=? len)
      then Some (JString (take (Z.to_nat len) s)) else None
  | _ => None
  end.

Inductive tree (m : gmap positive json_object)
  : option positive -> gset positive -> json -> list call -> Prop :=
| tree_null : tree m None ∅ JNull []
| tree_scalar l jso v :
    m !! l = Some jso -> _ref_count jso = 1 -> scalar (o jso) = Some v ->
    tree m (Some l) {[l]} v (own_call l jso)
| tree_array l jso a T vs cs :
    m !! l = Some jso -> _ref_count jso = 1 -> o jso = c_array (Some a) ->
    ArrayList.al_wf a -> trees m (ArrayList.elems a) T vs cs -> l ∉ T ->
    tree m (Some l) ({[l]} ∪ T) (JArray vs) (own_call l jso ++ cs)
| tree_object l jso t ord kvs T vs cs :
    m !! l = Some jso -> _ref_count jso = 1 -> o jso = c_object t ->
    LinkHash.lh_repr t ord kvs -> LinkHash.keys_distinct kvs ->
    Forall (fun kv => nul_free kv.1) kvs -> trees m (kvs.*2) T vs cs -> l ∉ T ->
    tree m (Some l) ({[l]} ∪ T) (JObject (zip (kvs.*1) vs)) (own_call l jso ++ cs)
with trees (m : gmap positive json_object)
  : list (option positive) -> gset positive -> list json -> list call -> Prop :=
| trees_nil : trees m [] ∅ [] []
| trees_cons p T v cs ps Ts vs css :
    tree m p T v cs -> trees m ps Ts vs css -> T ## Ts ->
    trees m (p :: ps) (T ∪ Ts) (v :: vs) (cs ++ css).

Scheme tree_mut := Induction for tree Sort Prop
with trees_mut := Induction for trees Sort Prop.
Combined Scheme tree_trees_ind from tree_mut, trees_mut.

(** The memory without the locations [T]. *)
Definition free_all (T : gset positive) (m : gmap positive json_object)
  : gmap positive json_object := filter (fun kv => kv.1 ∉ T) m.

Lemma free_all_lookup T m l : free_all T m !! l = if decide (l ∈ T) then None else m !! l.
Proof.
  unfold free_all. rewrite map_lookup_filter. destruct (m !! l); simpl.
  - repeat case_guard; repeat case_decide; simpl; try done; tauto.
  - by case_decide.
Qed.

Lemma free_all_empty m : free_all ∅ m = m.
Proof. apply map_eq. intros i. rewrite free_all_lookup. rewrite decide_False; set_solver. Qed.

Lemma free_all_union T1 T2 m : free_all T2 (free_all T1 m) = free_all (T1 ∪ T2) m.
Proof.
  apply map_eq. intros i. rewrite !free_all_lookup. repeat case_decide; set_solver.
Qed.

Lemma delete_insert_free l jso m : delete l (<[l := jso]> m) = free_all {[l]} m.
Proof.
  apply map_eq. intros i. rewrite lookup_delete, free_all_lookup.
  destruct (decide (l = i)) as [->|]; [by rewrite decide_True by set_solver|].
  rewrite lookup_insert_ne by done. by rewrite decide_False by set_solver.
Qed.

(** ** Framing *)

Lemma tree_frame m m' :
  (forall p T v cs, tree m p T v cs -> (forall l, l ∈ T -> m' !! l = m !! l) -> tree m' p T v cs) /\
  (forall ps T vs cs, trees m ps T vs cs -> (forall l, l ∈ T -> m' !! l = m !! l) ->
     trees m' ps T vs cs).
Proof.
  apply (tree_trees_ind m
    (fun p T v cs _ => (forall l, l ∈ T -> m' !! l = m !! l) -> tree m' p T v cs)
    (fun ps T vs cs _ => (forall l, l ∈ T -> m' !! l = m !! l) -> trees m' ps T vs cs));
    intros; econstructor; eauto; try (etrans; [|eassumption]; set_solver); set_solver.
Qed.

Lemma tree_frame_1 m m' p T v cs :
  tree m p T v cs -> (forall l, l ∈ T -> m' !! l = m !! l) -> tree m' p T v cs.
Proof. apply tree_frame. Qed.

Lemma trees_frame_1 m m' ps T vs cs :
  trees m ps T vs cs -> (forall l, l ∈ T -> m' !! l = m !! l) -> trees m' ps T vs cs.
Proof. apply tree_frame. Qed.

(** A tree occupies allocated locations. *)
Lemma tree_dom m :
  (forall p T v cs, tree m p T v cs -> T ⊆ dom m) /\
  (forall ps T vs cs, trees m ps T vs cs -> T ⊆ dom m).
Proof.
  apply (tree_trees_ind m (fun _ T _ _ _ => T ⊆ dom m) (fun _ T _ _ _ => T ⊆ dom m));
    intros; repeat match goal with E : m !! _ = Some _ |- _ => apply elem_of_dom_2 in E end;
    set_solver.
Qed.

Lemma trees_length m ps T vs cs : trees m ps T vs cs -> length ps = length vs.
Proof. induction 1; simpl; auto. Qed.

(** ** Releasing a tree *)

(** The store after the tree [T] has been released. *)
Definition freed (T : gset positive) (cs : list call) (s : store) : store :=
  Store (free_all T (mem s)) (calls s ++ cs).

(** Releasing pointers one after the other. *)
Definition put_each (put : store -> option positive -> option store)
    (ps : list (option positive)) (s : option store) : option store :=
  fold_left (fun s p => s ≫= fun s => put s p) ps s.

Lemma array_list_free_each put a s :
  (forall s, put s None = Some s) ->
  ArrayList.array_list_free (json_object_array_entry_free put) a s =
  put_each put (ArrayList.elems a) s.
Proof.
  intros Hnone. rewrite ArrayList.elems_free. unfold put_each. generalize (ArrayList.elems a).
  intros ps. revert s. induction ps as [|p ps IH]; intros s; [done|]. simpl. rewrite IH. f_equal.
  destruct p; simpl; [done|]. destruct s; simpl; auto.
Qed.

Lemma lh_table_free_each put t ord kvs s :
  LinkHash.lh_repr t ord kvs ->
  LinkHash.lh_table_free (Some (json_object_lh_entry_free put)) t s =
  Some (put_each put (kvs.*2) s).
Proof.
  intros HR. unfold LinkHash.lh_table_free.
  destruct (LinkHash.foreach_repr t ord kvs HR) as (es & -> & Hes). simpl. f_equal.
  unfold put_each. clear HR. revert s. induction Hes as [|e kv es kvs' [_ Hv] Hes IH]; intros s; [done|].
  simpl. rewrite IH, <- Hv. done.
Qed.

(** The steps [json_object_put] does on an object whose count drops to zero. *)
Definition release_step (put : store -> option positive -> option store) (l : positive)
    (jso : json_object) (s : store) : option store :=
  let jso := set_ref_count 0 jso in
  json_object_delete put l jso (call_user_delete l jso (write l jso s)).

Lemma json_object_put_last f s l jso :
  mem s !! l = Some jso -> _ref_count jso = 1 ->
  json_object_put (S f) s (Some l) =
  (fun s' => (s', 1)) <$> release_step (fun s p => fst <$> json_object_put f s p) l jso s.
Proof.
  intros Hl Hr. simpl. rewrite Hl, Hr. change (s32 (1 - 1)) with 0. simpl.
  unfold release_step. by destruct (json_object_delete _ _ _ _).
Qed.

(** The children of an object, as [_delete] releases them. *)
Lemma release_children put l jso s ps T cs :
  (exists a, o jso = c_array (Some a) /\ ps = ArrayList.elems a) \/
  (exists t ord kvs, o jso = c_object t /\ LinkHash.lh_repr t ord kvs /\ ps = kvs.*2) ->
  (forall s, put s None = Some s) ->
  (forall s', mem s' = <[l := set_ref_count 0 jso]> (mem s) ->
     put_each put ps (Some s') = Some (freed T cs s')) ->
  release_step put l jso s = Some (freed ({[l]} ∪ T) (own_call l jso ++ cs) s).
Proof.
  intros Hps Hnone Hput. unfold release_step, json_object_delete. set (s1 := call_user_delete _ _ _).
  assert (mem s1 = <[l := set_ref_count 0 jso]> (mem s) /\ calls s1 = calls s ++ own_call l jso)
    as [Hm Hc].
  { unfold s1, call_user_delete, own_call. simpl.
    destruct (_user_delete jso); simpl; [done|]. by rewrite app_nil_r. }
  assert (json_object_generic_delete l (freed T cs s1) =
    freed ({[l]} ∪ T) (own_call l jso ++ cs) s) as E.
  { unfold json_object_generic_delete, freed. simpl. rewrite Hm, Hc, app_assoc. f_equal.
    apply map_eq. intros i. rewrite lookup_delete. rewrite !free_all_lookup.
    destruct (decide (l = i)) as [->|]; [by rewrite decide_True by set_solver|].
    rewrite lookup_insert_ne by done. repeat case_decide; set_solver. }
  destruct Hps as [(a & Ho & ->)|(t & ord & kvs & Ho & HR & ->)]; simpl; rewrite Ho.
  - rewrite array_list_free_each, Hput by done. simpl. by rewrite E.
  - rewrite (lh_table_free_each put t ord kvs _ HR), Hput by done. simpl. by rewrite E.
Qed.

(** What [json_object_put] returns for the last reference. *)
Definition put_result (p : option positive) : Z := match p with Some _ => 1 | None => 0 end.

Lemma put_tree_ind m :
  (forall p T v cs, tree m p T v cs -> forall fuel s,
     (forall l, l ∈ T -> mem s !! l = m !! l) -> (size T <= fuel)%nat ->
     json_object_put fuel s p = Some (freed T cs s, put_result p)) /\
  (forall ps T vs cs, trees m ps T vs cs -> forall fuel s,
     (forall l, l ∈ T -> mem s !! l = m !! l) -> (size T <= fuel)%nat ->
     put_each (fun s p => fst <$> json_object_put fuel s p) ps (Some s) = Some (freed T cs s)).
Proof.
  assert (forall fuel s, fst <$> json_object_put fuel s None = Some s) as Hnone by (by intros []).
  assert (forall l (T : gset positive) fuel, l ∉ T -> (size ({[l]} ∪ T) <= fuel)%nat ->
    exists f, fuel = S f /\ (size T <= f)%nat) as Hfuel.
  { intros l T fuel Hl Hs. rewrite size_union, size_singleton in Hs by set_solver.
    destruct fuel as [|f]; [lia|]. exists f. split; [done|lia]. }
  apply (tree_trees_ind m
    (fun p T v cs _ => forall fuel s, (forall l, l ∈ T -> mem s !! l = m !! l) ->
       (size T <= fuel)%nat -> json_object_put fuel s p = Some (freed T cs s, put_result p))
    (fun ps T vs cs _ => forall fuel s, (forall l, l ∈ T -> mem s !! l = m !! l) ->
       (size T <= fuel)%nat ->
       put_each (fun s p => fst <$> json_object_put fuel s p) ps (Some s) = Some (freed T cs s))).
  - intros fuel s _ _. unfold freed. rewrite free_all_empty, app_nil_r. by destruct s, fuel.
  - intros l jso v Hl Hr Hv fuel s Hag Hs.
    rewrite <- (union_empty_r_L {[l]}) in Hs. destruct (Hfuel l ∅ fuel) as (f & -> & _); [set_solver|done|].
    rewrite (json_object_put_last f s l jso) by (rewrite ?Hag by set_solver; done).
    assert (release_step (fun s p => fst <$> json_object_put f s p) l jso s =
            Some (freed {[l]} (own_call l jso) s)) as ->; [|done].
    unfold release_step, json_object_delete, call_user_delete, json_object_generic_delete, freed, own_call.
    simpl. destruct (o jso) as [| | | |[]|]; try done;
      destruct (_user_delete jso); simpl; by rewrite ?app_nil_r, delete_insert_free.
  - intros l jso a T vs cs Hl Hr Ho Hwf Hts IH Hni fuel s Hag Hs.
    destruct (Hfuel l T fuel) as (f & -> & Hf); [done..|].
    rewrite (json_object_put_last f s l jso) by (rewrite ?Hag by set_solver; done).
    rewrite (release_children _ l jso s (ArrayList.elems a) T cs); [done|eauto|apply Hnone|].
    intros s' Hm'. apply IH; [|done]. intros i Hi. rewrite Hm', lookup_insert_ne by set_solver.
    apply Hag. set_solver.
  - intros l jso t ord kvs T vs cs Hl Hr Ho HR Hd Hk Hts IH Hni fuel s Hag Hs.
    destruct (Hfuel l T fuel) as (f & -> & Hf); [done..|].
    rewrite (json_object_put_last f s l jso) by (rewrite ?Hag by set_solver; done).
    rewrite (release_children _ l jso s (kvs.*2) T cs); [done|eauto 8|apply Hnone|].
    intros s' Hm'. apply IH; [|done]. intros i Hi. rewrite Hm', lookup_insert_ne by set_solver.
    apply Hag. set_solver.
  - intros fuel s _ _. unfold freed. simpl. rewrite free_all_empty, app_nil_r. by destruct s.
  - intros p T v cs ps Ts vs css Ht IHt Hts IHts Hdisj fuel s Hag Hs.
    rewrite size_union in Hs by done. unfold put_each. simpl.
    rewrite IHt by (try lia; intros; apply Hag; set_solver). simpl.
    change (put_each (fun s p => fst <$> json_object_put fuel s p) ps (Some (freed T cs s)) =
      Some (freed (T ∪ Ts) (cs ++ css) s)).
    rewrite IHts; [|intros l Hl; simpl; rewrite free_all_lookup, decide_False by set_solver;
      apply Hag; set_solver|lia].
    unfold freed. simpl. by rewrite free_all_union, app_assoc.
Qed.

Lemma put_tree s p T v cs :
  tree (mem s) p T v cs -> put s p = Some (freed T cs s).
Proof.
  intros Ht. unfold put.
  rewrite (proj1 (put_tree_ind (mem s)) p T v cs Ht); [done|done|].
  pose proof (subseteq_size _ _ (proj1 (tree_dom (mem s)) _ _ _ _ Ht)) as Hs.
  rewrite size_dom in Hs. unfold put_fuel. lia.
Qed.

(** ** Lists of trees *)

Lemma trees_app m ps1 T1 vs1 cs1 ps2 T2 vs2 cs2 :
  trees m ps1 T1 vs1 cs1 -> trees m ps2 T2 vs2 cs2 -> T1 ## T2 ->
  trees m (ps1 ++ ps2) (T1 ∪ T2) (vs1 ++ vs2) (cs1 ++ cs2).
Proof.
  intros H1 H2. induction H1 as [|p T v cs ps Ts vs css Ht Hts IH Hdisj]; intros Hd; simpl.
  - by rewrite union_empty_l_L.
  - rewrite <- union_assoc_L, <- app_assoc. constructor; [done|apply IH; set_solver|set_solver].
Qed.

Lemma trees_one m p T v cs : tree m p T v cs -> trees m [p] T [v] cs.
Proof.
  intros Ht. rewrite <- (union_empty_r_L T), <- (app_nil_r cs).
  constructor; [done|constructor|set_solver].
Qed.

Lemma trees_nulls m n : trees m (replicate n None) ∅ (replicate n JNull) [].
Proof.
  induction n as [|n IH]; [constructor|]. simpl. rewrite <- (union_empty_l_L ∅).
  change (@nil call) with ((@nil call) ++ []). constructor; [constructor|done|set_solver].
Qed.

(** One element taken out of a list of trees, and what can be put back. *)
Lemma trees_at m ps T vs cs i p :
  trees m ps T vs cs -> ps !! i = Some p ->
  exists Told Tr v csold, T = Told ∪ Tr /\ Told ## Tr /\ vs !! i = Some v /\
    tree m p Told v csold /\
    (forall m' q Tq w csq, (forall l, l ∈ Tr -> m' !! l = m !! l) -> tree m' q Tq w csq ->
       Tq ## Tr -> exists cs', trees m' (<[i := q]> ps) (Tq ∪ Tr) (<[i := w]> vs) cs') /\
    (forall m', (forall l, l ∈ Tr -> m' !! l = m !! l) ->
       exists cs', trees m' (delete i ps) Tr (delete i vs) cs').
Proof.
  intros Hts. revert i. induction Hts as [|q T v cs ps Ts vs css Ht Hts IH Hdisj]; intros [|i] Hp;
    try discriminate; simpl in Hp.
  - injection Hp as ->. exists T, Ts, v, cs. split_and!; try done.
    + intros m' q Tq w csq Hag Hq Hd. eexists. simpl.
      constructor; [exact Hq|by apply (trees_frame_1 m)|done].
    + intros m' Hag. eexists. by apply (trees_frame_1 m).
  - destruct (IH i Hp) as (To & Tr & v' & co & -> & Hd' & Hv & Hto & Hput & Hdel).
    exists To, (T ∪ Tr), v', co. split_and!; [set_solver..|done|done| |].
    + intros m' q' Tq w csq Hag Hq Hd. destruct (Hput m' q' Tq w csq) as [cs' Hc]; [set_solver..|].
      exists (cs ++ cs'). simpl. replace (Tq ∪ (T ∪ Tr)) with (T ∪ (Tq ∪ Tr)) by set_solver.
      constructor; [apply (tree_frame_1 m); [done|set_solver]|done|set_solver].
    + intros m' Hag. destruct (Hdel m') as [cs' Hc]; [set_solver|].
      exists (cs ++ cs'). simpl. constructor; [apply (tree_frame_1 m); [done|set_solver]|done|set_solver].
Qed.

(** ** Arrays *)

Lemma tree_array_inv m l T vs cs :
  tree m (Some l) T (JArray vs) cs ->
  exists jso a T0 cs0, m !! l = Some jso /\ _ref_count jso = 1 /\ o jso = c_array (Some a) /\
    ArrayList.al_wf a /\ trees m (ArrayList.elems a) T0 vs cs0 /\ (l ∉ T0) /\
    T = {[l]} ∪ T0 /\ cs = own_call l jso ++ cs0.
Proof.
  intros Ht. inversion Ht as [|? jso ? ? ? Hv|l' jso a T0 vs' cs0 Hl Hr Ho Hwf Hts Hni|]; subst.
  - unfold scalar in Hv. repeat case_match; simplify_eq.
  - exists jso, a, T0, cs0. by split_and!.
Qed.

(** [json_object_array_put_idx] on the list of values: a gap holds nulls. *)
Definition put_value (vs : list json) (i : nat) (w : json) : list json :=
  <[i := w]> (vs ++ replicate (S i - length vs) JNull).

Lemma put_value_end vs w : put_value vs (length vs) w = vs ++ [w].
Proof.
  unfold put_value. replace (S (length vs) - length vs)%nat with 1%nat by lia.
  rewrite <- (Nat.add_0_r (length vs)). by rewrite insert_app_r.
Qed.

(** Writing a new representation of the children back into the parent. *)
Lemma array_written m m' l jso a T vs cs :
  _ref_count jso = 1 -> ArrayList.al_wf a -> trees m (ArrayList.elems a) T vs cs -> l ∉ T ->
  m' = <[l := set_o (c_array (Some a)) jso]> m ->
  tree m' (Some l) ({[l]} ∪ T) (JArray vs) (own_call l jso ++ cs).
Proof.
  intros Hr Hwf Hts Hni ->.
  change (own_call l jso) with (own_call l (set_o (c_array (Some a)) jso)).
  eapply tree_array; [apply lookup_insert_eq|done|done|done| |done].
  apply (trees_frame_1 m); [done|]. intros i Hi. apply lookup_insert_ne. set_solver.
Qed.

Lemma array_put_idx_tree s l T vs cs idx q Tq w csq :
  tree (mem s) (Some l) T (JArray vs) cs -> tree (mem s) q Tq w csq -> T ## Tq ->
  0 <= idx < INT_MAX ->
  exists s' r, json_object_array_put_idx s (Some l) idx q = Some (s', r) /\
    ((r = -1 /\ s' = s) \/
     (r = 0 /\ exists p Told csold T' cs',
        T = T' ∪ Told /\ T' ## Told /\
        tree (mem s) p Told (default JNull (vs !! Z.to_nat idx)) csold /\
        tree (mem s') (Some l) (T' ∪ Tq) (JArray (put_value vs (Z.to_nat idx) w)) cs' /\
        calls s' = calls s ++ csold /\
        (forall i, i <> l -> mem s' !! i = free_all Told (mem s) !! i))).
Proof.
  intros Ht Hq Hdisj Hidx. set (i := Z.to_nat idx).
  destruct (tree_array_inv _ _ _ _ _ Ht) as (jso & a & T0 & cs0 & Hl & Hr & Ho & Hwf & Hts & Hni & -> & ->).
  unfold json_object_array_put_idx, as_array. cbn [mbind option_bind]. rewrite Hl. cbn [mbind option_bind].
  rewrite Ho. cbn [mbind option_bind].
  destruct (ArrayList.put_idx_spec (json_object_array_entry_free put) a idx q (Some s) Hwf Hidx)
    as (a' & s1 & r & -> & [(-> & -> & ->)|(-> & Hwf' & Hel & ->)]); cbn [mbind option_bind].
  { rewrite Hl. do 2 eexists. split; [reflexivity|]. left. split; [done|]. unfold write.
    destruct s as [ms ccs]. cbn [mem calls] in *. f_equal. apply insert_id. rewrite Hl. f_equal.
    destruct jso; simpl in *. by subst. }
  fold i in Hel |- *.
  assert (trees (mem s) (ArrayList.elems a ++ replicate (S i - length vs) None) T0
            (vs ++ replicate (S i - length vs) JNull) cs0) as Hts'.
  { rewrite <- (union_empty_r_L T0), <- (app_nil_r cs0).
    apply trees_app; [done|apply trees_nulls|set_solver]. }
  pose proof (trees_length _ _ _ _ _ Hts) as Hlen.
  destruct (lookup_lt_is_Some_2 (ArrayList.elems a ++ replicate (S i - length vs) None) i) as [p Hp].
  { rewrite length_app, length_replicate. lia. }
  destruct (trees_at _ _ _ _ _ i p Hts' Hp)
    as (Told & Tr & v & csold & -> & Hdr & Hv & Hold & Hput & _).
  assert (mjoin (ArrayList.elems a !! i) = p) as ->.
  { apply lookup_app_Some in Hp as [->|[Hge Hp]]; [done|].
    apply lookup_replicate in Hp as [-> _]. by rewrite lookup_ge_None_2 by done. }
  assert (default JNull (vs !! i) = v) as ->.
  { apply lookup_app_Some in Hv as [->|[Hge Hv]]; [done|].
    apply lookup_replicate in Hv as [-> _]. by rewrite lookup_ge_None_2 by done. }
  assert (ArrayList.free_opt (json_object_array_entry_free put) p (Some s) = Some (freed Told csold s)) as ->.
  { rewrite <- (put_tree s p Told v csold) by done. by destruct p. }
  cbn [mbind option_bind freed mem].
  rewrite free_all_lookup, decide_False, Hl by set_solver. do 2 eexists. split; [reflexivity|]. right.
  split; [done|].
  destruct (Hput (free_all Told (mem s)) q Tq w csq) as [cs' Hnew].
  { intros k Hk. by rewrite free_all_lookup, decide_False by set_solver. }
  { apply (tree_frame_1 (mem s)); [done|]. intros k Hk.
    by rewrite free_all_lookup, decide_False by set_solver. }
  { set_solver. }
  exists p, Told, csold, ({[l]} ∪ Tr), (own_call l jso ++ cs'). split_and!; try done; [set_solver..| |].
  - replace ({[l]} ∪ Tr ∪ Tq) with ({[l]} ∪ (Tq ∪ Tr)) by set_solver.
    eapply array_written; [done|exact Hwf'| |set_solver|reflexivity].
    rewrite Hel. unfold ArrayList.put_spec, put_value. by rewrite Hlen.
  - intros k Hk. unfold write. cbn [mem freed]. by rewrite lookup_insert_ne.
Qed.

(** ** Objects *)

Lemma tree_object_inv m l T fs cs :
  tree m (Some l) T (JObject fs) cs ->
  exists jso t ord kvs T0 vs cs0, m !! l = Some jso /\ _ref_count jso = 1 /\ o jso = c_object t /\
    LinkHash.lh_repr t ord kvs /\ LinkHash.keys_distinct kvs /\
    Forall (fun kv => nul_free kv.1) kvs /\ trees m (kvs.*2) T0 vs cs0 /\ (l ∉ T0) /\
    fs = zip (kvs.*1) vs /\ T = {[l]} ∪ T0 /\ cs = own_call l jso ++ cs0.
Proof.
  intros Ht. inversion Ht as [|? jso ? ? ? Hv| |l' jso t ord kvs T0 vs cs0]; subst.
  - unfold scalar in Hv. repeat case_match; simplify_eq.
  - exists jso, t, ord, kvs, T0, vs, cs0. by split_and!.
Qed.

Lemma object_written m m' l jso t ord kvs T vs cs :
  _ref_count jso = 1 -> LinkHash.lh_repr t ord kvs -> LinkHash.keys_distinct kvs ->
  Forall (fun kv => nul_free kv.1) kvs -> trees m (kvs.*2) T vs cs -> l ∉ T ->
  m' = <[l := set_o (c_object t) jso]> m ->
  tree m' (Some l) ({[l]} ∪ T) (JObject (zip (kvs.*1) vs)) (own_call l jso ++ cs).
Proof.
  intros Hr HR Hd Hk Hts Hni ->.
  change (own_call l jso) with (own_call l (set_o (c_object t) jso)).
  eapply tree_object; [apply lookup_insert_eq|done|done|exact HR|done|done| |done].
  apply (trees_frame_1 m); [done|]. intros i Hi. apply lookup_insert_ne. set_solver.
Qed.

Lemma cstr_nul_free s : nul_free (cstr s).
Proof.
  induction s as [|c s IH]; simpl; [constructor|]. destruct (Z.eqb_spec c 0); [constructor|].
  by constructor.
Qed.

Lemma cstr_cstr_nul s : cstr (cstr s ++ [0]) = cstr s.
Proof. rewrite cstr_app_nonzero by apply cstr_nul_free. simpl. by rewrite app_nil_r. Qed.

Lemma equal_key k key : nul_free k -> LinkHash.equal_fn k key = bool_decide (k = cstr key).
Proof.
  intros Hk. unfold LinkHash.equal_fn. simpl. unfold LinkHash.lh_char_equal, strcmp_eq.
  by rewrite (cstr_nonzero k Hk).
Qed.

(** The fields of the value and the pairs of the table correspond. *)
Lemma set_field_pos kvs vs key w :
  Forall (fun kv : bytes * option positive => nul_free kv.1) kvs -> length kvs = length vs ->
  set_field (zip (kvs.*1) vs) (cstr key) w =
  match LinkHash.assoc_pos key kvs with
  | None => zip (kvs.*1 ++ [cstr key]) (vs ++ [w])
  | Some i => zip (kvs.*1) (<[i := w]> vs)
  end.
Proof.
  intros Hk. revert vs. induction Hk as [|[k p] kvs Hk Hks IH]; intros [|v vs] Hlen; try discriminate.
  { done. }
  cbn [fmap list_fmap fst zip zip_with set_field LinkHash.assoc_pos]. simpl in Hk, Hlen.
  rewrite equal_key by done. destruct (bool_decide_reflect (k = cstr key)); [done|].
  rewrite IH by lia. by destruct (LinkHash.assoc_pos key kvs).
Qed.

Fixpoint del_field (fs : list (bytes * json)) (k : bytes) : list (bytes * json) :=
  match fs with
  | [] => []
  | (k', v) :: fs' => if bool_decide (k' = k) then fs' else (k', v) :: del_field fs' k
  end.

Fixpoint get_field (fs : list (bytes * json)) (k : bytes) : option json :=
  match fs with
  | [] => None
  | (k', v) :: fs' => if bool_decide (k' = k) then Some v else get_field fs' k
  end.

Lemma del_get_field_pos kvs vs key :
  Forall (fun kv : bytes * option positive => nul_free kv.1) kvs -> length kvs = length vs ->
  (del_field (zip (kvs.*1) vs) (cstr key), get_field (zip (kvs.*1) vs) (cstr key)) =
  match LinkHash.assoc_pos key kvs with
  | None => (zip (kvs.*1) vs, None)
  | Some i => (zip ((delete i kvs).*1) (delete i vs), vs !! i)
  end.
Proof.
  intros Hk. revert vs. induction Hk as [|[k p] kvs Hk Hks IH]; intros [|v vs] Hlen; try discriminate.
  { done. }
  cbn [fmap list_fmap fst zip zip_with del_field get_field LinkHash.assoc_pos]. simpl in Hk, Hlen.
  rewrite equal_key by done. destruct (bool_decide_reflect (k = cstr key)); [done|].
  specialize (IH vs ltac:(lia)). destruct (LinkHash.assoc_pos key kvs); simpl; injection IH as -> ->; done.
Qed.

Lemma keys_distinct_fst (kvs kvs' : list (bytes * option positive)) :
  kvs'.*1 = kvs.*1 -> LinkHash.keys_distinct kvs -> LinkHash.keys_distinct kvs'.
Proof.
  intros E Hd i j kv kv' Hi Hj Heq.
  assert (forall i kv, kvs' !! i = Some kv -> exists kv0, kvs !! i = Some kv0 /\ kv0.1 = kv.1) as Hc.
  { intros n x Hx. assert (kvs.*1 !! n = Some x.1) as Hn by (by rewrite <- E, list_lookup_fmap, Hx).
    apply list_lookup_fmap_Some in Hn as (y & -> & Hy). eauto. }
  destruct (Hc _ _ Hi) as (x & Hx & Ex). destruct (Hc _ _ Hj) as (y & Hy & Ey).
  apply (Hd i j x y Hx Hy). by rewrite Ex, Ey.
Qed.

Lemma nul_free_fst (kvs kvs' : list (bytes * option positive)) :
  kvs'.*1 = kvs.*1 -> Forall (fun kv => nul_free kv.1) kvs -> Forall (fun kv => nul_free kv.1) kvs'.
Proof.
  intros E Hk. apply (Forall_fmap fst nul_free kvs'). rewrite E. by apply Forall_fmap.
Qed.

(** Replacing the value of an entry in place. *)
Lemma set_entry_value_repr t ord kvs i n k0 v0 val :
  LinkHash.lh_repr t ord kvs -> ord !! i = Some n -> kvs !! i = Some (k0, v0) ->
  LinkHash.lh_repr (set_entry_value n val t) ord (<[i := (k0, val)]> kvs).
Proof.
  intros HR Hn Hkv. pose proof (LinkHash.r_entry _ _ _ HR _ _ _ Hn Hkv) as He.
  pose proof (lookup_lt_Some _ _ _ Hkv) as Hlt.
  destruct HR as [Rs Rt Rc Rl Rnd Re Rlive Rhd Rtl Rp]. constructor; try done; simpl.
  - unfold zlen in *. by rewrite length_alter.
  - rewrite Rc. unfold zlen. by rewrite length_insert.
  - by rewrite length_insert.
  - intros j m kv Hj Hkv'. destruct (decide (i = j)) as [<-|Hij].
    + rewrite Hn in Hj. injection Hj as <-. rewrite list_lookup_insert_eq in Hkv' by done.
      injection Hkv' as <-. rewrite list_lookup_alter_eq, He. done.
    + rewrite list_lookup_insert_ne in Hkv' by done.
      rewrite list_lookup_alter_ne; [by apply Re|]. intros ->. apply Hij. by eapply NoDup_lookup.
  - intros m e Hm Hf. rewrite LinkHash.alter_lookup in Hm. case_decide; [|by eapply Rlive].
    apply fmap_Some in Hm as (e0 & Hm & ->). by eapply Rlive.
  - intros m e key Hm Hk. apply (LinkHash.on_path_mono (LinkHash.table t)).
    + intros m' x Hx Hkx. rewrite LinkHash.alter_lookup, Hx. case_decide; simpl; eexists; by split.
    + rewrite LinkHash.alter_lookup in Hm. case_decide; [|by eapply Rp].
      apply fmap_Some in Hm as (e0 & Hm & ->). by eapply Rp.
Qed.

(** Room for a new field: the key can be copied and the table can grow. *)
Definition object_room (s : store) (l : positive) (key : bytes) : Prop :=
  malloc_ok (strlen key + 1) = true /\
  forall jso t, mem s !! l = Some jso -> o jso = c_object t -> LinkHash.insert_room t.

Lemma zip_snoc {A B} (xs : list A) (ys : list B) x y :
  length xs = length ys -> zip xs ys ++ [(x, y)] = zip (xs ++ [x]) (ys ++ [y]).
Proof. intros E. by rewrite zip_with_app. Qed.

Lemma object_add_new s l jso t ord kvs T vs cs key q Tq w csq :
  mem s !! l = Some jso -> _ref_count jso = 1 -> o jso = c_object t ->
  LinkHash.lh_repr t ord kvs -> LinkHash.keys_distinct kvs ->
  Forall (fun kv => nul_free kv.1) kvs -> trees (mem s) (kvs.*2) T vs cs -> l ∉ T ->
  object_room s l key -> tree (mem s) q Tq w csq -> l ∉ Tq -> T ## Tq ->
  LinkHash.assoc_pos key kvs = None ->
  exists s' cs', json_object_object_add s (Some l) key q = Some s' /\ calls s' = calls s /\
    (forall i, i <> l -> mem s' !! i = mem s !! i) /\
    tree (mem s') (Some l) ({[l]} ∪ (T ∪ Tq)) (JObject (zip (kvs.*1 ++ [cstr key]) (vs ++ [w]))) cs'.
Proof.
  intros Hl Hr Ho HR Hd Hk Hts Hni [Hmk Hroom] Hq Hlq Hdq Hpos.
  unfold json_object_object_add, as_object. cbn [mbind option_bind]. rewrite Hl.
  cbn [mbind option_bind]. rewrite Ho. cbn [mbind option_bind].
  rewrite (LinkHash.lookup_entry_repr t ord kvs key HR Hd), Hpos. cbn [mbind option_bind].
  unfold strdup. rewrite Hmk. cbn [mbind option_bind]. rewrite cstr_cstr_nul.
  assert (LinkHash.lh_repr (LinkHash.bump_lookups t) ord kvs) as HR1
    by (by apply (LinkHash.repr_counters t)).
  destruct (LinkHash.insert_repr 0 (LinkHash.bump_lookups t) ord kvs (cstr key) q HR1)
    as (t2 & ord2 & E & HR2); [exact (Hroom jso t Hl Ho)|].
  unfold LinkHash.lh_table_insert. rewrite E. cbn [mbind option_bind].
  do 2 eexists. split; [reflexivity|]. split_and!; [done| |].
  { intros i Hi. unfold write. cbn [mem]. by rewrite lookup_insert_ne. }
  assert (kvs.*1 ++ [cstr key] = (kvs ++ [(cstr key, q)]).*1) as -> by (by rewrite fmap_app).
  eapply object_written; [done|exact HR2| | | |set_solver|reflexivity].
  - apply LinkHash.keys_distinct_snoc; [done|]. rewrite <- Hpos. clear -Hk.
    induction Hk as [|[k p] kvs Hk Hks IH]; [done|]. cbn [LinkHash.assoc_pos]. simpl in Hk.
    rewrite !equal_key by done. rewrite (cstr_nonzero (cstr key)) by apply cstr_nul_free.
    by rewrite IH.
  - apply Forall_app. split; [done|]. constructor; [apply cstr_nul_free|constructor].
  - rewrite fmap_app. apply trees_app; [done|by apply trees_one|done].
Qed.

Lemma object_add_old s l jso t ord kvs T vs cs key i q Tq w csq :
  mem s !! l = Some jso -> _ref_count jso = 1 -> o jso = c_object t ->
  LinkHash.lh_repr t ord kvs -> LinkHash.keys_distinct kvs ->
  Forall (fun kv => nul_free kv.1) kvs -> trees (mem s) (kvs.*2) T vs cs -> l ∉ T ->
  tree (mem s) q Tq w csq -> l ∉ Tq -> T ## Tq ->
  LinkHash.assoc_pos key kvs = Some i ->
  exists s' cs' p Told Tr v csold, json_object_object_add s (Some l) key q = Some s' /\
    T = Told ∪ Tr /\ Told ## Tr /\ vs !! i = Some v /\ tree (mem s) p Told v csold /\
    calls s' = calls s ++ csold /\
    (forall i, i <> l -> mem s' !! i = free_all Told (mem s) !! i) /\
    tree (mem s') (Some l) ({[l]} ∪ (Tq ∪ Tr)) (JObject (zip (kvs.*1) (<[i := w]> vs))) cs'.
Proof.
  intros Hl Hr Ho HR Hd Hk Hts Hni Hq Hlq Hdq Hpos.
  pose proof (LinkHash.assoc_pos_Some _ _ _ Hpos) as ([k0 p] & Hkv & _).
  pose proof (lookup_lt_Some _ _ _ Hkv) as Hlt.
  destruct (lookup_lt_is_Some_2 ord i) as [n Hn]; [by rewrite (LinkHash.r_len _ _ _ HR)|].
  assert (kvs.*2 !! i = Some p) as Hp by (by rewrite list_lookup_fmap, Hkv).
  destruct (trees_at _ _ _ _ _ i p Hts Hp) as (Told & Tr & v & csold & -> & Hdr & Hv & Hold & Hput & _).
  set (s1 := write l (set_o (c_object (LinkHash.bump_lookups t)) jso) s).
  assert (put s1 p = Some (freed Told csold s1)) as Eput.
  { apply (put_tree s1 p Told v). apply (tree_frame_1 (mem s)); [done|].
    intros k Hk'. simpl. apply lookup_insert_ne. set_solver. }
  assert (json_object_object_add s (Some l) key q =
    Some (write l (set_o (c_object (set_entry_value n q (LinkHash.bump_lookups t)))
            (set_o (c_object (LinkHash.bump_lookups t)) jso)) (freed Told csold s1))) as E.
  { unfold json_object_object_add, as_object. cbn [mbind option_bind]. rewrite Hl.
    cbn [mbind option_bind]. rewrite Ho. cbn [mbind option_bind].
    rewrite (LinkHash.lookup_entry_repr t ord kvs key HR Hd), Hpos. cbn [mbind option_bind].
    rewrite Hn. change (LinkHash.table (LinkHash.bump_lookups t)) with (LinkHash.table t).
    rewrite (LinkHash.r_entry _ _ _ HR _ _ _ Hn Hkv).
    cbn [mbind option_bind LinkHash.v LinkHash.mk_entry snd]. fold s1.
    assert (match p with Some _ => put s1 p | None => Some s1 end = Some (freed Told csold s1)) as ->.
    { rewrite <- Eput. by destruct p. }
    cbn [mbind option_bind freed mem]. rewrite free_all_lookup, decide_False by set_solver.
    assert (mem s1 !! l = Some (set_o (c_object (LinkHash.bump_lookups t)) jso)) as ->; [|done].
    apply lookup_insert_eq. }
  assert (set_o (c_object (set_entry_value n q (LinkHash.bump_lookups t)))
            (set_o (c_object (LinkHash.bump_lookups t)) jso) =
          set_o (c_object (set_entry_value n q (LinkHash.bump_lookups t))) jso) as Eo by done.
  rewrite Eo in E. clear Eo.
  destruct (Hput (mem (freed Told csold s1)) q Tq w csq) as [cs' Hnew].
  { intros k Hk'. simpl. rewrite free_all_lookup, decide_False by set_solver.
    apply lookup_insert_ne. set_solver. }
  { apply (tree_frame_1 (mem s)); [done|]. intros k Hk'. simpl.
    rewrite free_all_lookup, decide_False by set_solver. apply lookup_insert_ne. set_solver. }
  { set_solver. }
  exists (write l (set_o (c_object (set_entry_value n q (LinkHash.bump_lookups t))) jso)
            (freed Told csold s1)), (own_call l jso ++ cs'), p, Told, Tr, v, csold.
  split_and!; try done.
  - intros k Hk'. simpl. rewrite lookup_insert_ne, !free_all_lookup by done.
    case_decide; [done|]. by apply lookup_insert_ne.
  - assert ((<[i := (k0, q)]> kvs).*1 = kvs.*1) as Efst.
    { rewrite list_fmap_insert. simpl. apply list_insert_id. by rewrite list_lookup_fmap, Hkv. }
    rewrite <- Efst. eapply object_written; [done| | | | |set_solver|reflexivity].
    + apply (set_entry_value_repr _ ord kvs i n k0 p); [|done|done].
      by apply (LinkHash.repr_counters t).
    + by apply (keys_distinct_fst kvs).
    + by apply (nul_free_fst kvs).
    + rewrite list_fmap_insert. exact Hnew.
Qed.

Lemma object_del_old s l jso t ord kvs T vs cs key i :
  mem s !! l = Some jso -> _ref_count jso = 1 -> o jso = c_object t ->
  LinkHash.lh_repr t ord kvs -> LinkHash.keys_distinct kvs ->
  Forall (fun kv => nul_free kv.1) kvs -> trees (mem s) (kvs.*2) T vs cs -> l ∉ T ->
  LinkHash.assoc_pos key kvs = Some i ->
  exists s' cs' p Told Tr v csold, json_object_object_del s (Some l) key = Some s' /\
    T = Told ∪ Tr /\ Told ## Tr /\ vs !! i = Some v /\ tree (mem s) p Told v csold /\
    calls s' = calls s ++ csold /\
    (forall i, i <> l -> mem s' !! i = free_all Told (mem s) !! i) /\
    tree (mem s') (Some l) ({[l]} ∪ Tr) (JObject (zip ((delete i kvs).*1) (delete i vs))) cs'.
Proof.
  intros Hl Hr Ho HR Hd Hk Hts Hni Hpos.
  pose proof (LinkHash.assoc_pos_Some _ _ _ Hpos) as ([k0 p] & Hkv & _).
  destruct (lookup_lt_is_Some_2 ord i) as [n Hn].
  { rewrite (LinkHash.r_len _ _ _ HR). by eapply lookup_lt_Some. }
  assert (kvs.*2 !! i = Some p) as Hp by (by rewrite list_lookup_fmap, Hkv).
  destruct (trees_at _ _ _ _ _ i p Hts Hp) as (Told & Tr & v & csold & -> & Hdr & Hv & Hold & _ & Hdel).
  pose proof (put_tree s p Told v csold Hold) as Eput.
  assert (LinkHash.lh_repr (LinkHash.bump_lookups t) ord kvs) as HR1
    by (by apply (LinkHash.repr_counters t)).
  destruct (LinkHash.delete_entry_repr (Some (json_object_lh_entry_free put)) _ _ _ i n (k0, p)
              (Some s) HR1 Hn Hkv) as (t' & e & Ed & _ & Hve & HR').
  destruct (Hdel (mem (freed Told csold s))) as [cs' Hnew].
  { intros k Hk'. simpl. by rewrite free_all_lookup, decide_False by set_solver. }
  exists (write l (set_o (c_object t') jso) (freed Told csold s)), (own_call l jso ++ cs'),
    p, Told, Tr, v, csold. split_and!; try done.
  - unfold json_object_object_del, as_object. cbn [mbind option_bind]. rewrite Hl.
    cbn [mbind option_bind]. rewrite Ho. cbn [mbind option_bind]. unfold LinkHash.lh_table_delete.
    rewrite (LinkHash.lookup_entry_repr t ord kvs key HR Hd), Hpos. cbn [mbind option_bind].
    rewrite Hn, Ed. cbn [mbind option_bind LinkHash.call_free json_object_lh_entry_free].
    rewrite Hve. cbn [snd]. rewrite Eput. cbn [mbind option_bind freed mem].
    by rewrite free_all_lookup, decide_False, Hl by set_solver.
  - intros k Hk'. simpl. by rewrite lookup_insert_ne by done.
  - eapply object_written; [done|exact HR'| | | |set_solver|reflexivity].
    + by apply LinkHash.keys_distinct_delete.
    + by apply Forall_delete.
    + rewrite list_fmap_delete. exact Hnew.
Qed.

(** ** Construction *)

Lemma new_scalar_tree s x v s' l :
  scalar x = Some v -> json_object_new x s = (s', Some l) ->
  tree (mem s') (Some l) {[l]} v [] /\ mem s' = <[l := Obj x 1 None None 0]> (mem s) /\
  calls s' = calls s /\ mem s !! l = None.
Proof.
  intros Hv. unfold json_object_new. case_match; [|done]. intros [= <- <-]. split_and!.
  - eapply (tree_scalar _ _ (Obj x 1 None None 0)); [apply lookup_insert_eq|done..].
  - done.
  - done.
  - apply not_elem_of_dom. apply is_fresh.
Qed.

Lemma new_object_tree s s' l :
  json_object_new_object s = Some (s', Some l) ->
  tree (mem s') (Some l) {[l]} (JObject []) [] /\ calls s' = calls s /\ mem s !! l = None /\
  (forall i, i <> l -> mem s' !! i = mem s !! i).
Proof.
  unfold json_object_new_object, json_object_new. case_match; [|done].
  destruct (LinkHash.lh_table_new JSON_OBJECT_DEF_HASH_ENTRIES) as [t|] eqn:Et; [|done].
  cbn [mbind option_bind]. intros [= <- <-]. set (k := fresh _).
  apply LinkHash.new_repr in Et as [HR _]; [|unfold JSON_OBJECT_DEF_HASH_ENTRIES, INT_MAX; lia].
  split_and!; [|done|apply not_elem_of_dom, is_fresh|intros i Hi; by apply lookup_insert_ne].
  rewrite <- (union_empty_r_L {[k]}). change (@nil (bytes * json)) with (zip (@nil bytes) (@nil json)).
  eapply (tree_object _ k (Obj (c_object t) 1 None None 0) t [] []);
    [apply lookup_insert_eq|done|done|exact HR|by intros i j kv kv' Hi|constructor|constructor|set_solver].
Qed.

Lemma new_array_tree s s' l :
  malloc_total al -> json_object_new_array s = (s', Some l) ->
  tree (mem s') (Some l) {[l]} (JArray []) [] /\ calls s' = calls s /\ mem s !! l = None /\
  (forall i, i <> l -> mem s' !! i = mem s !! i).
Proof.
  intros Hal. unfold json_object_new_array, json_object_new, ArrayList.array_list_new.
  rewrite !Hal by (unfold ArrayList.ARRAY_LIST_DEFAULT_SIZE; lia).
  intros [= <- <-]. set (k := fresh _).
  split_and!; [|done|apply not_elem_of_dom, is_fresh|intros i Hi; by apply lookup_insert_ne].
  set (a := ArrayList.ArrayListMk _ _ _ : ArrayList.array_list positive).
  assert (ArrayList.al_wf a) as Hwf.
  { constructor; try (vm_compute; intuition discriminate).
    intros i Hi. change (ArrayList.array a) with (replicate 32 (@None positive)).
    change (ArrayList.size a) with 32 in Hi. apply lookup_replicate. split; [done|lia]. }
  rewrite <- (union_empty_r_L {[k]}).
  eapply (tree_array _ k (Obj (c_array (Some a)) 1 None None 0) a);
    [apply lookup_insert_eq|done|done|exact Hwf|constructor|set_solver].
Qed.

(** ** The properties *)

(** C2: [json_object_put] on the last reference to a tree of objects releases
    every object of the tree and nothing else: no location of the tree is
    left, every other location is untouched, each [_user_delete] function of
    the tree is called once, a parent before its children and the children in
    order, and the result is 1 (0 for a null pointer).  A recursion as deep as
    the tree has objects is enough. *)
Theorem json_object_put_releases_tree s p T v cs fuel :
  tree (mem s) p T v cs -> (size T <= fuel)%nat ->
  exists s', json_object_put fuel s p = Some (s', put_result p) /\
    (forall l, l ∈ T -> mem s' !! l = None) /\
    (forall l, l ∉ T -> mem s' !! l = mem s !! l) /\
    calls s' = calls s ++ cs.
Proof.
  intros Ht Hf. exists (freed T cs s). split_and!.
  - by apply (proj1 (put_tree_ind (mem s)) p T v cs Ht).
  - intros l Hl. simpl. by rewrite free_all_lookup, decide_True.
  - intros l Hl. simpl. by rewrite free_all_lookup, decide_False.
  - done.
Qed.

(** C14: a reference that is taken and given back changes nothing:
    [json_object_put] after [json_object_get] on a live object does not
    release it, returns 0 and restores the store. *)
Theorem json_object_get_put s l jso fuel :
  mem s !! l = Some jso -> 1 <= _ref_count jso < INT_MAX ->
  exists s', json_object_get s (Some l) = Some s' /\
    json_object_put (S fuel) s' (Some l) = Some (s, 0).
Proof.
  intros Hl Hr. cbn [json_object_get]. rewrite Hl. eexists. split; [reflexivity|].
  cbn [json_object_put write mem]. rewrite lookup_insert_eq. cbn [_ref_count set_ref_count].
  rewrite (s32_id (_ref_count jso + 1)) by (unfold INT_MIN, INT_MAX in *; lia).
  rewrite Z.add_simpl_r, s32_id by (unfold INT_MIN, INT_MAX in *; lia).
  rewrite (proj2 (Z.eqb_neq (_ref_count jso) 0)) by lia. unfold write. cbn [mem calls].
  do 2 f_equal. destruct s as [m c]. cbn [mem calls] in *. f_equal. rewrite insert_insert_eq.
  apply insert_id. rewrite Hl. by destruct jso.
Qed.

(** C4: [json_object_array_put_idx] (and with it [json_object_array_add])
    refines the update of a list of values: for an index below [INT_MAX] it
    either fails with -1 and changes nothing, or returns 0, the array then
    spells the list with the new value at the index (nulls filling a gap), it
    owns the objects of the new value, and the tree of the value that was
    there has been released, its [_user_delete] calls included. *)
Theorem json_object_array_put_refines s l T vs cs idx q Tq w csq :
  tree (mem s) (Some l) T (JArray vs) cs -> tree (mem s) q Tq w csq -> T ## Tq ->
  0 <= idx < INT_MAX ->
  exists s' r, json_object_array_put_idx s (Some l) idx q = Some (s', r) /\
    (idx = zlen vs -> json_object_array_add s (Some l) q = Some (s', r)) /\
    ((r = -1 /\ s' = s) \/
     (r = 0 /\ exists p Told csold T' cs',
        T = T' ∪ Told /\ T' ## Told /\
        tree (mem s) p Told (default JNull (vs !! Z.to_nat idx)) csold /\
        tree (mem s') (Some l) (T' ∪ Tq) (JArray (put_value vs (Z.to_nat idx) w)) cs' /\
        calls s' = calls s ++ csold /\
        (forall i, i <> l -> mem s' !! i = free_all Told (mem s) !! i))).
Proof.
  intros Ht Hq Hd Hi. destruct (array_put_idx_tree s l T vs cs idx q Tq w csq Ht Hq Hd Hi)
    as (s' & r & E & Hcase). exists s', r. split_and!; [done| |done].
  intros ->. unfold json_object_array_add, as_array. cbn [mbind option_bind].
  destruct (tree_array_inv _ _ _ _ _ Ht) as (jso & a & T0 & cs0 & Hl & _ & Ho & Hwf & Hts & _).
  rewrite Hl. cbn [mbind option_bind]. rewrite Ho. cbn [mbind option_bind].
  rewrite <- E. f_equal. rewrite <- (ArrayList.elems_length a Hwf). unfold zlen.
  by rewrite (trees_length _ _ _ _ _ Hts).
Qed.

(** C3: [json_object_object_add] refines [set_field]: the object then spells
    the value with the field set (a new field at the end, an existing one in
    its place), owns the objects of the new value, and the tree of a value
    that was replaced has been released, its [_user_delete] calls included;
    no other location changes.  The key may be any C string. *)
Theorem json_object_object_add_refines s l T fs cs key q Tq w csq :
  tree (mem s) (Some l) T (JObject fs) cs -> tree (mem s) q Tq w csq -> T ## Tq ->
  object_room s l key ->
  exists s' p Told csold T' cs',
    json_object_object_add s (Some l) key q = Some s' /\
    T = T' ∪ Told /\ T' ## Told /\
    tree (mem s) p Told (default JNull (get_field fs (cstr key))) csold /\
    tree (mem s') (Some l) (T' ∪ Tq) (JObject (set_field fs (cstr key) w)) cs' /\
    calls s' = calls s ++ csold /\
    (forall i, i <> l -> mem s' !! i = free_all Told (mem s) !! i).
Proof.
  intros Ht Hq Hdq Hroom. destruct (tree_object_inv _ _ _ _ _ Ht) as
    (jso & t & ord & kvs & T0 & vs & cs0 & Hl & Hr & Ho & HR & Hd & Hk & Hts & Hni & -> & -> & ->).
  assert (length kvs = length vs) as Hlen.
  { rewrite <- (trees_length _ _ _ _ _ Hts). by rewrite length_fmap. }
  pose proof (del_get_field_pos kvs vs key Hk Hlen) as Hg. rewrite set_field_pos by done.
  destruct (LinkHash.assoc_pos key kvs) as [i|] eqn:Hpos; injection Hg as _ ->.
  - destruct (object_add_old s l jso t ord kvs T0 vs cs0 key i q Tq w csq)
      as (s' & cs' & p & To & Tr & v & co & E & -> & Hdr & Hv & Hold & Hc & Hm & Hnew);
      [done..|set_solver|set_solver|done|].
    exists s', p, To, co, ({[l]} ∪ Tr), cs'. rewrite Hv. split_and!; try done; [set_solver..|].
    by replace ({[l]} ∪ Tr ∪ Tq) with ({[l]} ∪ (Tq ∪ Tr)) by set_solver.
  - destruct (object_add_new s l jso t ord kvs T0 vs cs0 key q Tq w csq)
      as (s' & cs' & E & Hc & Hm & Hnew); [done..|set_solver|set_solver|done|].
    exists s', None, ∅, [], ({[l]} ∪ T0), cs'. rewrite free_all_empty, app_nil_r.
    split_and!; try done; [set_solver..|constructor|].
    by replace ({[l]} ∪ T0 ∪ Tq) with ({[l]} ∪ (T0 ∪ Tq)) by set_solver.
Qed.

(** [json_object_object_del] refines [del_field]: the object spells the
    value without the field, the tree of the deleted value has been released,
    and nothing else changes; deleting an absent field changes no value. *)
Theorem json_object_object_del_refines s l T fs cs key :
  tree (mem s) (Some l) T (JObject fs) cs ->
  exists s' p Told csold T' cs',
    json_object_object_del s (Some l) key = Some s' /\
    T = T' ∪ Told /\ T' ## Told /\
    tree (mem s) p Told (default JNull (get_field fs (cstr key))) csold /\
    tree (mem s') (Some l) T' (JObject (del_field fs (cstr key))) cs' /\
    calls s' = calls s ++ csold /\
    (forall i, i <> l -> mem s' !! i = free_all Told (mem s) !! i).
Proof.
  intros Ht. destruct (tree_object_inv _ _ _ _ _ Ht) as
    (jso & t & ord & kvs & T0 & vs & cs0 & Hl & Hr & Ho & HR & Hd & Hk & Hts & Hni & -> & -> & ->).
  assert (length kvs = length vs) as Hlen.
  { rewrite <- (trees_length _ _ _ _ _ Hts). by rewrite length_fmap. }
  pose proof (del_get_field_pos kvs vs key Hk Hlen) as Hg.
  destruct (LinkHash.assoc_pos key kvs) as [i|] eqn:Hpos; injection Hg as -> ->.
  - destruct (object_del_old s l jso t ord kvs T0 vs cs0 key i)
      as (s' & cs' & p & To & Tr & v & co & E & -> & Hdr & Hv & Hold & Hc & Hm & Hnew); [done..|].
    exists s', p, To, co, ({[l]} ∪ Tr), cs'. rewrite Hv. split_and!; try done; set_solver.
  - exists (write l (set_o (c_object (LinkHash.bump_lookups t)) jso) s), None, ∅, [], ({[l]} ∪ T0),
      (own_call l jso ++ cs0).
    rewrite free_all_empty, app_nil_r. split_and!; [|set_solver|set_solver|constructor| |done|].
    + unfold json_object_object_del, as_object. cbn [mbind option_bind]. rewrite Hl.
      cbn [mbind option_bind]. rewrite Ho. cbn [mbind option_bind]. unfold LinkHash.lh_table_delete.
      rewrite (LinkHash.lookup_entry_repr t ord kvs key HR Hd), Hpos. cbn [mbind option_bind].
      by rewrite Hl.
    + eapply object_written; [done| |done|done|done|done|reflexivity].
      by apply (LinkHash.repr_counters t).
    + intros i Hi. simpl. by apply lookup_insert_ne.
Qed.

(** [json_object_object_get_ex] finds exactly the fields of the value:
    it reports a field that is there and returns the root of the tree of its
    value (a null pointer for a null value), reports the absence of any other
    key, and changes only the lookup counter of the table. *)
Theorem json_object_object_get_ex_refines s l T fs cs key :
  tree (mem s) (Some l) T (JObject fs) cs ->
  exists s' q, json_object_object_get_ex s (Some l) key =
      Some (s', bool_decide (is_Some (get_field fs (cstr key))), q) /\
    json_object_object_get s (Some l) key = Some (s', q) /\
    (exists Tq csq, Tq ⊆ T /\ tree (mem s') q Tq (default JNull (get_field fs (cstr key))) csq) /\
    tree (mem s') (Some l) T (JObject fs) cs /\ calls s' = calls s.
Proof.
  intros Ht. destruct (tree_object_inv _ _ _ _ _ Ht) as
    (jso & t & ord & kvs & T0 & vs & cs0 & Hl & Hr & Ho & HR & Hd & Hk & Hts & Hni & -> & -> & ->).
  assert (length kvs = length vs) as Hlen.
  { rewrite <- (trees_length _ _ _ _ _ Hts). by rewrite length_fmap. }
  pose proof (del_get_field_pos kvs vs key Hk Hlen) as Hg.
  set (s' := write l (set_o (c_object (LinkHash.bump_lookups t)) jso) s).
  assert (tree (mem s') (Some l) ({[l]} ∪ T0) (JObject (zip (kvs.*1) vs)) (own_call l jso ++ cs0)) as Ht'.
  { eapply object_written; [done| |done|done|done|done|reflexivity]. by apply (LinkHash.repr_counters t). }
  assert (exists q, json_object_object_get_ex s (Some l) key =
      Some (s', bool_decide (is_Some (get_field (zip kvs.*1 vs) (cstr key))), q) /\
    (exists Tq csq, Tq ⊆ {[l]} ∪ T0 /\
       tree (mem s') q Tq (default JNull (get_field (zip kvs.*1 vs) (cstr key))) csq)) as (q & E & Hq).
  2: { exists s', q. unfold json_object_object_get. rewrite E. by split_and!. }
  unfold json_object_object_get_ex. rewrite Hl. cbn [mbind option_bind]. rewrite Ho.
  unfold LinkHash.lh_table_lookup_ex. rewrite (LinkHash.lookup_entry_repr t ord kvs key HR Hd).
  destruct (LinkHash.assoc_pos key kvs) as [i|] eqn:Hpos; injection Hg as _ ->; cbn [mbind option_bind].
  - pose proof (LinkHash.assoc_pos_Some _ _ _ Hpos) as ([k0 p] & Hkv & _).
    destruct (lookup_lt_is_Some_2 ord i) as [n Hn].
    { rewrite (LinkHash.r_len _ _ _ HR). by eapply lookup_lt_Some. }
    assert (kvs.*2 !! i = Some p) as Hp by (by rewrite list_lookup_fmap, Hkv).
    destruct (trees_at _ _ _ _ _ i p Hts Hp) as (Tq & Tr & v & csq & -> & _ & Hv & Hold & _).
    rewrite Hn, (LinkHash.r_entry _ _ _ HR _ _ _ Hn Hkv), Hv.
    rewrite bool_decide_true by eauto. exists p. split; [done|]. exists Tq, csq.
    split; [set_solver|]. apply (tree_frame_1 (mem s)); [done|].
    intros k Hk'. apply lookup_insert_ne. set_solver.
  - rewrite bool_decide_false by (by intros []). exists None. split; [done|].
    exists ∅, []. split; [set_solver|constructor].
Qed.

(** *** Iteration *)

(** The loop of the iterator interface:
    [for (it = begin; !equal(it, end); next(it)) visit(name, value)]. *)
Fixpoint iter_walk (fuel : nat) (t : LinkHash.lh_table bytes positive) (p : option positive)
    (it : json_object_iterator) : option (list (bytes * option positive)) :=
  if json_object_iter_equal it (json_object_iter_end p) then Some []
  else
    match fuel with
    | O => None
    | S f =>
        name ← json_object_iter_peek_name t it;
        val ← json_object_iter_peek_value t it;
        it' ← json_object_iter_next t it;
        rest ← iter_walk f t p it';
        Some ((name, val) :: rest)
    end.

Lemma iter_walk_repr t ord kvs p fuel i :
  LinkHash.lh_repr t ord kvs -> (length kvs - i <= fuel)%nat ->
  iter_walk fuel t p (Iter (ord !! i)) = Some (drop i kvs).
Proof.
  intros HR. pose proof (LinkHash.r_len _ _ _ HR) as Hlen. revert i.
  induction fuel as [|f IH]; intros i Hi.
  { rewrite lookup_ge_None_2, drop_ge by lia. done. }
  destruct (ord !! i) as [n|] eqn:Hn.
  2: { apply lookup_ge_None in Hn. rewrite drop_ge by lia. done. }
  pose proof (lookup_lt_Some _ _ _ Hn). destruct (lookup_lt_is_Some_2 kvs i) as [[k v] Hkv]; [lia|].
  rewrite (drop_S _ _ _ Hkv). cbn [iter_walk].
  unfold json_object_iter_peek_name, json_object_iter_peek_value, json_object_iter_next, iter_entry.
  cbn [opaque_ mbind option_bind]. rewrite (LinkHash.r_entry _ _ _ HR _ _ _ Hn Hkv).
  cbn [mbind option_bind LinkHash.k LinkHash.v LinkHash.next LinkHash.mk_entry fst snd].
  rewrite IH by lia. done.
Qed.

(** The iterators visit the fields of an object in order, each once:
    the loop from [json_object_iter_begin] to [json_object_iter_end] ends
    after as many steps as there are fields, the names it sees are the field
    names, and the pointers it sees are the roots of the trees of the field
    values. *)
Theorem json_object_iter_visits s l T fs cs :
  tree (mem s) (Some l) T (JObject fs) cs ->
  exists t it kps T0 cs0, json_object_get_object s (Some l) = Some (Some t) /\
    json_object_iter_begin s (Some l) = Some it /\
    iter_walk (length fs) t (Some l) it = Some kps /\
    kps.*1 = fs.*1 /\ trees (mem s) (kps.*2) T0 (fs.*2) cs0.
Proof.
  intros Ht. destruct (tree_object_inv _ _ _ _ _ Ht) as
    (jso & t & ord & kvs & T0 & vs & cs0 & Hl & Hr & Ho & HR & Hd & Hk & Hts & Hni & -> & -> & ->).
  pose proof (trees_length _ _ _ _ _ Hts) as Hlen. rewrite length_fmap in Hlen.
  assert (json_object_get_object s (Some l) = Some (Some t)) as Eo.
  { simpl. rewrite Hl. simpl. by rewrite Ho. }
  exists t, (Iter (LinkHash.head t)), kvs, T0, cs0. split_and!; [done| | | |].
  - unfold json_object_iter_begin. by rewrite Eo.
  - rewrite (LinkHash.r_head _ _ _ HR).
    rewrite (iter_walk_repr t ord kvs); [done|done|]. rewrite length_zip_with, length_fmap. lia.
  - rewrite fst_zip; [done|]. rewrite length_fmap. lia.
  - by rewrite snd_zip by (rewrite length_fmap; lia).
Qed.

(** *** Conversions *)

(** Reading an integer back from a string object that holds its decimal
    text: [json_object_get_int64] gives the number, and
    [json_object_get_int] the nearest 32-bit number. *)
Theorem json_object_string_to_int n s s' l :
  INT64_MIN <= n <= INT64_MAX ->
  json_object_new_string_len s (print_int64 n) (zlen (print_int64 n)) = Some (s', Some l) ->
  json_object_get_int64 s' (Some l) = Some n /\
  json_object_get_int s' (Some l) = Some (Z.max INT32_MIN (Z.min INT32_MAX n)).
Proof.
  intros Hn. unfold json_object_new_string_len, json_object_new.
  repeat case_match; try done. intros [= <- <-].
  unfold json_object_get_int64, json_object_get_int, deref, write. cbn [mem].
  rewrite lookup_insert_eq. cbn [fmap option_fmap option_map mbind option_bind o].
  unfold zlen. rewrite Nat2Z.id, take_ge by lia.
  rewrite parse_print_int64 by (done || unfold in_int64; apply andb_true_intro; lia). split; [done|]. f_equal. unfold clamp32.
  destruct (Z.leb_spec n INT32_MIN); [unfold INT32_MIN, INT32_MAX in *; lia|].
  destruct (Z.geb_spec n INT32_MAX); [unfold INT32_MIN, INT32_MAX in *; lia|].
  rewrite s32_id; unfold INT32_MIN, INT32_MAX, INT_MIN, INT_MAX in *; lia.
Qed.

End Trees.

(** ** Witnesses: an empty object, an empty array and a number *)

Definition text_conv : @DoubleConv text_double :=
  @Build_DoubleConv text_double (str "0"%string) (fun d => bool_decide (d <> str "0"%string))
    print_int64 (fun d => default 0 (parse_int64 d)) (fun d => default 0 (parse_int64 d)).

#[local] Existing Instance sample_alloc.
#[local] Existing Instance text_double.
#[local] Existing Instance text_conv.

Definition st0 : store := Store ∅ [].
Definition st1 : store := default st0 (fst <$> json_object_new_object st0).
Definition st2 : store := (json_object_new_array st1).1.
Definition st3 : store := (json_object_new_int st2 5).1.
(** The number has a user function that is told when it goes. *)
Definition st4 : store := default st3 (json_object_set_serializer st3 (Some 3%positive) (Some 1) 42 (Some 2)).

Lemma sample_object : tree (mem st4) (Some 1%positive) {[1%positive]} (JObject []) [].
Proof.
  destruct (new_object_tree st0 st1 1) as (Ht & _); [vm_compute; reflexivity|].
  apply (tree_frame_1 (mem st1)); [exact Ht|].
  intros l ->%elem_of_singleton. vm_compute. reflexivity.
Qed.

Lemma sample_array : tree (mem st4) (Some 2%positive) {[2%positive]} (JArray []) [].
Proof.
  destruct (new_array_tree st1 st2 2) as (Ht & _);
    [exact sample_alloc_total|vm_compute; reflexivity|].
  apply (tree_frame_1 (mem st2)); [exact Ht|].
  intros l ->%elem_of_singleton. vm_compute. reflexivity.
Qed.

Lemma sample_number :
  tree (mem st4) (Some 3%positive) {[3%positive]} (JInt 5) [(2, 3%positive, 42)].
Proof.
  apply (tree_scalar _ 3 (Obj (c_int64 5) 1 (Some 1) (Some 2) 42)); vm_compute; reflexivity.
Qed.

Lemma json_object_put_releases_tree_witness :
  exists s', json_object_put 1 st4 (Some 3%positive) = Some (s', 1) /\
    (forall l, l ∈ ({[3%positive]} : gset positive) -> mem s' !! l = None) /\
    (forall l, l ∉ ({[3%positive]} : gset positive) -> mem s' !! l = mem st4 !! l) /\
    calls s' = [(2, 3%positive, 42)].
Proof.
  apply (json_object_put_releases_tree st4 (Some 3%positive) {[3%positive]} (JInt 5)
           [(2, 3%positive, 42)] 1).
  - exact sample_number.
  - vm_compute. lia.
Defined.

Lemma json_object_get_put_witness :
  exists s', json_object_get st4 (Some 3%positive) = Some s' /\
    json_object_put 1 s' (Some 3%positive) = Some (st4, 0).
Proof.
  apply (json_object_get_put st4 3 (Obj (c_int64 5) 1 (Some 1) (Some 2) 42) 0).
  - vm_compute. reflexivity.
  - vm_compute. intuition discriminate.
Defined.

Lemma json_object_array_put_refines_witness :
  exists s' r, json_object_array_put_idx st4 (Some 2%positive) 0 (Some 3%positive) = Some (s', r) /\
    (0 = zlen (@nil json) -> json_object_array_add st4 (Some 2%positive) (Some 3%positive) = Some (s', r)) /\
    ((r = -1 /\ s' = st4) \/
     (r = 0 /\ exists p Told csold T' cs',
        {[2%positive]} = T' ∪ Told /\ T' ## Told /\
        tree (mem st4) p Told JNull csold /\
        tree (mem s') (Some 2%positive) (T' ∪ {[3%positive]}) (JArray [JInt 5]) cs' /\
        calls s' = calls st4 ++ csold /\
        (forall i, i <> 2%positive -> mem s' !! i = free_all Told (mem st4) !! i))).
Proof.
  apply (json_object_array_put_refines st4 2 {[2%positive]} [] [] 0 (Some 3%positive)
           {[3%positive]} (JInt 5) [(2, 3%positive, 42)]).
  - exact sample_array.
  - exact sample_number.
  - set_solver.
  - vm_compute. intuition discriminate.
Defined.

Lemma json_object_object_add_refines_witness :
  exists s' p Told csold T' cs',
    json_object_object_add st4 (Some 1%positive) (str "a"%string) (Some 3%positive) = Some s' /\
    {[1%positive]} = T' ∪ Told /\ T' ## Told /\
    tree (mem st4) p Told JNull csold /\
    tree (mem s') (Some 1%positive) (T' ∪ {[3%positive]}) (JObject [(str "a"%string, JInt 5)]) cs' /\
    calls s' = calls st4 ++ csold /\
    (forall i, i <> 1%positive -> mem s' !! i = free_all Told (mem st4) !! i).
Proof.
  apply (json_object_object_add_refines st4 1 {[1%positive]} [] [] (str "a"%string) (Some 3%positive)
           {[3%positive]} (JInt 5) [(2, 3%positive, 42)]).
  - exact sample_object.
  - exact sample_number.
  - set_solver.
  - split; [reflexivity|]. intros jso t Hl Ho. vm_compute in Hl. injection Hl as <-.
    injection Ho as <-. intros Hload. vm_compute in Hload. discriminate.
Defined.

Lemma json_object_object_del_refines_witness :
  exists s' p Told csold T' cs',
    json_object_object_del st4 (Some 1%positive) (str "a"%string) = Some s' /\
    {[1%positive]} = T' ∪ Told /\ T' ## Told /\
    tree (mem st4) p Told JNull csold /\
    tree (mem s') (Some 1%positive) T' (JObject []) cs' /\
    calls s' = calls st4 ++ csold /\
    (forall i, i <> 1%positive -> mem s' !! i = free_all Told (mem st4) !! i).
Proof.
  apply (json_object_object_del_refines st4 1 {[1%positive]} [] [] (str "a"%string)).
  exact sample_object.
Defined.

Lemma json_object_object_get_ex_refines_witness :
  exists s' q, json_object_object_get_ex st4 (Some 1%positive) (str "a"%string) = Some (s', false, q) /\
    json_object_object_get st4 (Some 1%positive) (str "a"%string) = Some (s', q) /\
    (exists Tq csq, Tq ⊆ {[1%positive]} /\ tree (mem s') q Tq JNull csq) /\
    tree (mem s') (Some 1%positive) {[1%positive]} (JObject []) [] /\ calls s' = calls st4.
Proof.
  apply (json_object_object_get_ex_refines st4 1 {[1%positive]} [] [] (str "a"%string)).
  exact sample_object.
Defined.

Lemma json_object_iter_visits_witness :
  exists t it kps T0 cs0, json_object_get_object st4 (Some 1%positive) = Some (Some t) /\
    json_object_iter_begin st4 (Some 1%positive) = Some it /\
    iter_walk 0 t (Some 1%positive) it = Some kps /\
    kps.*1 = [] /\ trees (mem st4) (kps.*2) T0 [] cs0.
Proof. apply (json_object_iter_visits st4 1 {[1%positive]} [] []). exact sample_object. Defined.

Lemma json_object_string_to_int_witness :
  json_object_get_int64
    (default st0 (fst <$> json_object_new_string_len st0 (print_int64 (-5000000000)) 11)) (Some 1%positive)
    = Some (-5000000000) /\
  json_object_get_int
    (default st0 (fst <$> json_object_new_string_len st0 (print_int64 (-5000000000)) 11)) (Some 1%positive)
    = Some (-2147483648).
Proof.
  apply (json_object_string_to_int (-5000000000) st0).
  - vm_compute. intuition discriminate.
  - vm_compute. reflexivity.
Defined.

(** An object that is added twice under one key: the first value is released,
    and its user function called. *)
Example replaced_field_released :
  (s ← json_object_object_add st4 (Some 1%positive) (str "a"%string) (Some 3%positive);
   s ← json_object_object_add s (Some 1%positive) (str "a"%string) (Some 2%positive);
   Some (calls s, dom (mem s))) =
  Some ([(2, 3%positive, 42)], {[1%positive; 2%positive]}).
Proof. vm_compute. reflexivity. Qed.

End JsonTree.
