(* ===== verification/Netlink.v ===== *)
(** * The netlink message builder of [network/code/nl.c]

    A [struct nlmsg] is a block of [cap] bytes that starts with a
    [struct nlmsghdr]; fields are little-endian, pointers into the message are
    offsets from its start.  The functions append attributes behind the
    length kept in the header; attributes nest by patching the length of the
    outer one afterwards.  ([network/get_link/nl.c] has the same functions.)

    [holds m h body] is the abstract state: the header fields and the bytes
    appended so far.  The theorems show that the builder writes exactly the
    encoding of the attribute list or tree it is asked for, stays inside the
    block and refuses what does not fit. *)

From S2P Require Import Prelude.
From Stdlib Require Import ZArith Lia.
From stdpp Require Import base list numbers option.

Open Scope Z_scope.
Set Warnings "-register-all".

Module Netlink.

(** ** Little-endian fields *)

Fixpoint le_bytes (n : nat) (z : Z) : bytes :=
  match n with
  | O => []
  | S n' => z mod 256 :: le_bytes n' (z / 256)
  end.

Fixpoint le_value (l : bytes) : Z :=
  match l with
  | [] => 0
  | b :: l' => b + 256 * le_value l'
  end.

(** The field of [n] bytes at offset [off]. *)
Definition get_le (off : Z) (n : nat) (b : bytes) : Z :=
  le_value (take n (drop (Z.to_nat off) b)).

Definition put_le (off : Z) (n : nat) (z : Z) (b : bytes) : bytes :=
  splice off (le_bytes n z) b.

(** ** Constants and macros of the kernel headers *)

Definition ENOMEM : Z := 12.
Definition NLMSG_HDRLEN : Z := 16.

(** [((len) + 4U - 1) & ~(4U - 1)]: the mask is an [unsigned int], so the
    result has 32 bits whatever the type of [len]. *)
Definition NLMSG_ALIGN (len : Z) : Z := Z.land (len + 3) 4294967292.
Definition RTA_ALIGN (len : Z) : Z := NLMSG_ALIGN len.
Definition RTA_LENGTH (len : Z) : Z := u64 (4 + len).

(** ** The builder *)

Record nlmsg := Nlmsg { nlmsghdr : bytes; cap : Z }.

(** Fields of the header. *)
Definition hdr_len (m : nlmsg) : Z := get_le 0 4 (nlmsghdr m).
Definition hdr_type (m : nlmsg) : Z := get_le 4 2 (nlmsghdr m).
Definition hdr_flags (m : nlmsg) : Z := get_le 6 2 (nlmsghdr m).

Definition poke (off : Z) (n : nat) (z : Z) (m : nlmsg) : nlmsg :=
  Nlmsg (put_le off n z (nlmsghdr m)) (cap m).

Definition nlmsg_len (m : nlmsg) : Z := u64 (hdr_len m - NLMSG_HDRLEN).

Definition NLMSG_TAIL (m : nlmsg) : Z := NLMSG_ALIGN (hdr_len m).

(** [data] has the [len] bytes that are copied. *)
Definition nla_put (m : nlmsg) (attr : Z) (data : bytes) : nlmsg * Z :=
  let rtalen := RTA_LENGTH (zlen data) in
  let tlen := u64 (NLMSG_ALIGN (hdr_len m) + RTA_ALIGN rtalen) in
  if tlen >? cap m then (m, - ENOMEM)
  else
    let rta := NLMSG_TAIL m in
    let m := poke (rta + 2) 2 attr m in
    let m := poke rta 2 rtalen m in
    let m := Nlmsg (splice (rta + 4) data (nlmsghdr m)) (cap m) in
    (poke 0 4 tlen m, 0).

Definition nla_put_buffer (m : nlmsg) (attr : Z) (data : bytes) : nlmsg * Z := nla_put m attr data.

Definition nla_put_string (m : nlmsg) (attr : Z) (string : bytes) : nlmsg * Z :=
  nla_put m attr (cstr string ++ [0]).

Definition nla_put_u32 (m : nlmsg) (attr value : Z) : nlmsg * Z := nla_put m attr (le_bytes 4 value).
Definition nla_put_u16 (m : nlmsg) (attr value : Z) : nlmsg * Z := nla_put m attr (le_bytes 2 value).
Definition nla_put_attr (m : nlmsg) (attr : Z) : nlmsg * Z := nla_put m attr [].

Definition nla_begin_nested (m : nlmsg) (attr : Z) : nlmsg * option Z :=
  let rtattr := NLMSG_TAIL m in
  let '(m', r) := nla_put_attr m attr in
  if negb (r =? 0) then (m', None) else (m', Some rtattr).

Definition nla_end_nested (m : nlmsg) (attr : Z) : nlmsg :=
  poke attr 2 (NLMSG_TAIL m - attr) m.

Section Alloc.
Context {al : Allocator}.

Definition nlmsg_alloc (size : Z) : option nlmsg :=
  let len := u64 (NLMSG_HDRLEN + NLMSG_ALIGN size) in
  if malloc_ok 16 then
    if malloc_ok len then
      Some (poke 0 4 NLMSG_HDRLEN (Nlmsg (replicate (Z.to_nat len) 0) len))
    else None
  else None.

Definition nlmsg_alloc_reserve (size : Z) : option nlmsg :=
  (fun m => poke 0 4 (cap m) m) <$> nlmsg_alloc size.

End Alloc.

(** The offset of the room, or NULL; only the padding is cleared. *)
Definition nlmsg_reserve (m : nlmsg) (len : Z) : nlmsg * option Z :=
  let nlmsg_len := hdr_len m in
  let tlen := NLMSG_ALIGN len in
  if u64 (nlmsg_len + tlen) >? cap m then (m, None)
  else
    let buf := nlmsg_len in
    let m := poke 0 4 (nlmsg_len + tlen) m in
    let m := if tlen >? len then
               Nlmsg (splice (buf + len) (replicate (Z.to_nat (tlen - len)) 0) (nlmsghdr m)) (cap m)
             else m in
    (m, Some buf).

(** ** Lemmas on fields *)

Lemma le_bytes_length n z : length (le_bytes n z) = n.
Proof. revert z. induction n as [|n IH]; intros z; simpl; [done|]. by rewrite IH. Qed.

Lemma le_value_bytes n z : le_value (le_bytes n z) = z mod 256 ^ Z.of_nat n.
Proof.
  revert z. induction n as [|n IH]; intros z; [simpl; by rewrite Z.mod_1_r|].
  cbn [le_bytes le_value]. rewrite IH, Nat2Z.inj_succ, Z.pow_succ_r by lia.
  rewrite Z.rem_mul_r by lia. lia.
Qed.

Lemma zlen_le n z : zlen (le_bytes n z) = Z.of_nat n.
Proof. unfold zlen. by rewrite le_bytes_length. Qed.

Lemma zlen_replicate {A} n (x : A) : zlen (replicate n x) = Z.of_nat n.
Proof. unfold zlen. by rewrite length_replicate. Qed.

Lemma align_spec x : 0 <= x <= 4294967292 ->
  NLMSG_ALIGN x = (x + 3) / 4 * 4.
Proof.
  intros Hx. unfold NLMSG_ALIGN.
  change 4294967292 with (Z.ldiff (Z.ones 32) (Z.ones 2)).
  assert (forall a b c, Z.land a (Z.ldiff b c) = Z.ldiff (Z.land a b) c) as E.
  { intros. apply Z.bits_inj. intros n. rewrite !Z.land_spec, !Z.ldiff_spec, Z.land_spec.
    by rewrite andb_assoc. }
  rewrite E, Z.land_ones by lia. rewrite Z.mod_small by (change (2 ^ 32) with 4294967296; lia).
  rewrite Z.ldiff_ones_r, Z.shiftl_mul_pow2, Z.shiftr_div_pow2 by lia. done.
Qed.

Lemma align_bounds x : 0 <= x <= 4294967292 ->
  x <= NLMSG_ALIGN x < x + 4 /\ NLMSG_ALIGN x mod 4 = 0.
Proof.
  intros Hx. rewrite align_spec by done. rewrite Z.mod_mul by lia.
  pose proof (Z.div_mod (x + 3) 4). pose proof (Z.mod_pos_bound (x + 3) 4). lia.
Qed.

Lemma align_id x : 0 <= x <= 4294967292 -> x mod 4 = 0 -> NLMSG_ALIGN x = x.
Proof.
  intros Hx Hm. destruct (align_bounds x Hx) as [Hb Hm'].
  pose proof (Z.div_mod x 4). pose proof (Z.div_mod (NLMSG_ALIGN x) 4). lia.
Qed.

Lemma splice_at {A} off (P old Q data : list A) :
  off = zlen P -> length old = length data -> splice off data (P ++ old ++ Q) = P ++ data ++ Q.
Proof.
  intros -> Hlen. unfold splice, zlen. rewrite Nat2Z.id.
  rewrite take_app_length. f_equal. f_equal.
  rewrite drop_app_ge by lia. rewrite drop_app_ge by lia.
  replace (_ - _ - _)%nat with 0%nat by lia. done.
Qed.

Lemma get_le_at off n P z Q :
  off = zlen P -> 0 <= z < 256 ^ Z.of_nat n -> get_le off n (P ++ le_bytes n z ++ Q) = z.
Proof.
  intros -> Hz. unfold get_le, zlen. rewrite Nat2Z.id, drop_app_length.
  rewrite take_app_le by (rewrite le_bytes_length; lia).
  rewrite take_ge by (rewrite le_bytes_length; lia).
  rewrite le_value_bytes. by apply Z.mod_small.
Qed.

(** ** The abstract state of a message *)

(** [m] has [body] behind its header; [rest] is the header after the length
    field (type, flags, sequence number, port).  The unused part of the block
    is still zero. *)
Record holds (m : nlmsg) (rest body : bytes) : Prop := {
  h_rest : zlen rest = 12;
  h_align : zlen body mod 4 = 0;
  h_cap : 16 + zlen body <= cap m <= 4294967292;
  h_block : nlmsghdr m = le_bytes 4 (16 + zlen body) ++ rest ++ body ++
              replicate (Z.to_nat (cap m - 16 - zlen body)) 0
}.

(** The encoding of an attribute: length, type, payload, padding. *)
Definition pad (n : Z) : bytes := replicate (Z.to_nat (NLMSG_ALIGN n - n)) 0.

Definition enc_attr (t : Z) (d : bytes) : bytes :=
  le_bytes 2 (4 + zlen d) ++ le_bytes 2 t ++ d ++ pad (4 + zlen d).

Lemma enc_attr_length t d : zlen d < 2 ^ 31 -> zlen (enc_attr t d) = NLMSG_ALIGN (4 + zlen d).
Proof.
  intros Hd. pose proof (zlen_nonneg d).
  destruct (align_bounds (4 + zlen d)) as [Hb _]; [lia|].
  unfold enc_attr, pad. rewrite !zlen_app, !zlen_le. unfold zlen in *. rewrite length_replicate. lia.
Qed.

Section Spec.
Implicit Types (m : nlmsg) (rest body d : bytes).

Lemma holds_len m rest body : holds m rest body -> hdr_len m = 16 + zlen body.
Proof.
  intros [Hr Ha Hc Hb]. unfold hdr_len. rewrite Hb. pose proof (zlen_nonneg body).
  apply (get_le_at 0 4 []); [done|]. change (256 ^ Z.of_nat 4) with 4294967296. lia.
Qed.

Lemma mod4_add a b : a mod 4 = 0 -> b mod 4 = 0 -> (a + b) mod 4 = 0.
Proof. intros Ha Hb. by rewrite Z.add_mod, Ha, Hb by lia. Qed.

Lemma holds_tail m rest body : holds m rest body -> NLMSG_TAIL m = 16 + zlen body.
Proof.
  intros Hh. unfold NLMSG_TAIL. rewrite (holds_len m rest body Hh). destruct Hh.
  pose proof (zlen_nonneg body). apply align_id; [lia|]. by apply mod4_add.
Qed.

(** Zeros taken off the unused part. *)
Lemma zeros_split n a : 0 <= a <= n -> replicate (Z.to_nat n) 0 = replicate (Z.to_nat a) 0 ++ replicate (Z.to_nat (n - a)) 0.
Proof. intros Ha. rewrite <- replicate_add. f_equal. lia. Qed.

(** Replacing the length field. *)
Lemma poke_len m X L z : nlmsghdr m = le_bytes 4 L ++ X ->
  nlmsghdr (poke 0 4 z m) = le_bytes 4 z ++ X.
Proof.
  intros E. unfold poke, put_le. simpl nlmsghdr. rewrite E.
  apply (splice_at 0 []); [done|]. by rewrite !le_bytes_length.
Qed.

Lemma nla_put_fits m rest body t d :
  holds m rest body -> zlen d < 2 ^ 31 ->
  16 + zlen body + NLMSG_ALIGN (4 + zlen d) <= cap m ->
  exists m', nla_put m t d = (m', 0) /\ cap m' = cap m /\ holds m' rest (body ++ enc_attr t d).
Proof.
  intros Hh Hd Hfit. pose proof (zlen_nonneg d) as Hd0. pose proof (zlen_nonneg body) as Hb0.
  destruct (align_bounds (4 + zlen d)) as [Hal Hmod]; [lia|].
  unfold nla_put. rewrite (holds_tail m rest body Hh).
  assert (NLMSG_ALIGN (hdr_len m) = 16 + zlen body) as -> by exact (holds_tail m rest body Hh).
  destruct Hh as [Hr Ha Hc Hblk].
  assert (RTA_LENGTH (zlen d) = 4 + zlen d) as ->
    by (apply wrap_id; change (2 ^ 64) with 18446744073709551616; lia).
  unfold RTA_ALIGN. rewrite (wrap_id 64) by (change (2 ^ 64) with 18446744073709551616; lia).
  destruct (Z.gtb_spec (16 + zlen body + NLMSG_ALIGN (4 + zlen d)) (cap m)); [lia|].
  set (H0 := le_bytes 4 (16 + zlen body)) in *.
  set (n := cap m - 16 - zlen body) in *. set (k := NLMSG_ALIGN (4 + zlen d)) in *.
  assert (nlmsghdr m = (H0 ++ rest ++ body) ++ replicate 2 0 ++ replicate 2 0 ++
    replicate (length d) 0 ++ (pad (4 + zlen d) ++ replicate (Z.to_nat (n - k)) 0)) as E.
  { rewrite Hblk, <- !app_assoc. do 3 f_equal. unfold pad. fold k.
    rewrite <- !replicate_add. f_equal. unfold zlen in *. lia. }
  assert (zlen (H0 ++ rest ++ body) = 16 + zlen body) as HP.
  { unfold H0. rewrite !zlen_app, zlen_le. lia. }
  eexists. split; [reflexivity|]. split; [done|].
  set (P := H0 ++ rest ++ body) in *.
  assert (splice (16 + zlen body + 4) d (put_le (16 + zlen body) 2 (4 + zlen d)
     (put_le (16 + zlen body + 2) 2 t (nlmsghdr m))) =
     P ++ enc_attr t d ++ replicate (Z.to_nat (n - k)) 0) as E2.
  { rewrite E. unfold put_le.
    rewrite (app_assoc P (replicate 2 0)).
    rewrite splice_at by (rewrite ?zlen_app, ?HP, ?le_bytes_length; try done; unfold zlen; simpl; lia).
    rewrite <- app_assoc.
    rewrite splice_at by (rewrite ?le_bytes_length; try done; lia).
    rewrite (app_assoc (le_bytes 2 (4 + zlen d))), (app_assoc P).
    rewrite splice_at; [|rewrite !zlen_app, HP, !zlen_le; lia|by rewrite length_replicate].
    unfold enc_attr. by rewrite <- !app_assoc. }
  constructor.
  - done.
  - rewrite zlen_app, enc_attr_length by done. by apply mod4_add.
  - rewrite zlen_app, enc_attr_length by done. simpl cap. lia.
  - erewrite poke_len; [|simpl nlmsghdr; rewrite E2; unfold P, H0; rewrite <- !app_assoc; reflexivity].
    rewrite zlen_app, enc_attr_length by done. simpl cap.
    rewrite Z.add_assoc, <- (app_assoc body). unfold n, k.
    by replace (cap m - 16 - (zlen body + NLMSG_ALIGN (4 + zlen d)))
      with (cap m - 16 - zlen body - NLMSG_ALIGN (4 + zlen d)) by lia.
Qed.

Lemma nla_put_full m rest body t d :
  holds m rest body -> zlen d < 2 ^ 31 ->
  16 + zlen body + NLMSG_ALIGN (4 + zlen d) > cap m ->
  nla_put m t d = (m, - ENOMEM).
Proof.
  intros Hh Hd Hfit. pose proof (zlen_nonneg d) as Hd0. pose proof (zlen_nonneg body) as Hb0.
  destruct (align_bounds (4 + zlen d)) as [Hal Hmod]; [lia|].
  unfold nla_put. fold (NLMSG_TAIL m). rewrite (holds_tail m rest body Hh).
  assert (RTA_LENGTH (zlen d) = 4 + zlen d) as ->
    by (apply wrap_id; change (2 ^ 64) with 18446744073709551616; lia).
  unfold RTA_ALIGN. destruct Hh.
  rewrite (wrap_id 64) by (change (2 ^ 64) with 18446744073709551616; lia).
  destruct (Z.gtb_spec (16 + zlen body + NLMSG_ALIGN (4 + zlen d)) (cap m)); [done|lia].
Qed.

(** Overwriting a field inside the body, or in the header behind the length. *)
Lemma poke_body m rest pre old post n z off :
  holds m rest (pre ++ old ++ post) -> length old = n -> off = 16 + zlen pre ->
  holds (poke off n z m) rest (pre ++ le_bytes n z ++ post) /\ cap (poke off n z m) = cap m.
Proof.
  intros [Hr Ha Hc Hblk] Hlen ->. split; [|done].
  assert (zlen (pre ++ le_bytes n z ++ post) = zlen (pre ++ old ++ post)) as El.
  { rewrite !zlen_app, zlen_le. unfold zlen. lia. }
  constructor; rewrite ?El; try done. unfold poke, put_le. simpl nlmsghdr. simpl cap. rewrite Hblk.
  set (L := le_bytes 4 _). rewrite <- !app_assoc, (app_assoc rest), (app_assoc L).
  rewrite splice_at; [by rewrite <- !app_assoc| |by rewrite le_bytes_length].
  unfold L. rewrite !zlen_app, zlen_le. lia.
Qed.

Lemma poke_rest m pre old post body n z off :
  holds m (pre ++ old ++ post) body -> length old = n -> off = 4 + zlen pre ->
  holds (poke off n z m) (pre ++ le_bytes n z ++ post) body /\ cap (poke off n z m) = cap m.
Proof.
  intros [Hr Ha Hc Hblk] Hlen ->. split; [|done]. constructor; try done.
  - rewrite <- Hr, !zlen_app, zlen_le. unfold zlen. lia.
  - unfold poke, put_le. simpl nlmsghdr. simpl cap. rewrite Hblk.
    set (L := le_bytes 4 _). rewrite <- !app_assoc, (app_assoc L).
    rewrite splice_at; [by rewrite <- !app_assoc| |by rewrite le_bytes_length].
    unfold L. rewrite !zlen_app, zlen_le. lia.
Qed.

Lemma nlmsg_reserve_fits m rest body len :
  holds m rest body -> 0 <= len < 2 ^ 31 -> 16 + zlen body + NLMSG_ALIGN len <= cap m ->
  exists m', nlmsg_reserve m len = (m', Some (16 + zlen body)) /\ cap m' = cap m /\
    holds m' rest (body ++ replicate (Z.to_nat (NLMSG_ALIGN len)) 0).
Proof.
  intros Hh Hlen Hfit. pose proof (zlen_nonneg body) as Hb0.
  destruct (align_bounds len) as [Hal Hmod]; [lia|].
  unfold nlmsg_reserve. rewrite (holds_len m rest body Hh). destruct Hh as [Hr Ha Hc Hblk].
  rewrite (wrap_id 64) by (change (2 ^ 64) with 18446744073709551616; lia).
  destruct (Z.gtb_spec (16 + zlen body + NLMSG_ALIGN len) (cap m)); [lia|].
  set (k := NLMSG_ALIGN len) in *. set (n := cap m - 16 - zlen body) in *.
  set (H1 := le_bytes 4 (16 + zlen body + k)).
  assert (nlmsghdr (poke 0 4 (16 + zlen body + k) m) =
    (H1 ++ rest ++ body ++ replicate (Z.to_nat len) 0) ++ replicate (Z.to_nat (k - len)) 0 ++
    replicate (Z.to_nat (n - k)) 0) as E.
  { rewrite (poke_len m _ _ _ Hblk), <- !app_assoc. unfold H1. do 3 f_equal.
    rewrite <- !replicate_add. f_equal. lia. }
  assert (zlen (H1 ++ rest ++ body ++ replicate (Z.to_nat len) 0) = 16 + zlen body + len) as HP.
  { unfold H1. rewrite !zlen_app, zlen_le. rewrite zlen_replicate. lia. }
  eexists. split; [reflexivity|]. split; [by destruct (k >? len)|].
  assert (zlen (body ++ replicate (Z.to_nat k) 0) = zlen body + k) as Ez.
  { rewrite zlen_app. rewrite zlen_replicate. lia. }
  constructor; rewrite ?Ez; try done.
  - by apply mod4_add.
  - destruct (k >? len); simpl cap; lia.
  - transitivity (nlmsghdr (poke 0 4 (16 + zlen body + k) m)).
    + destruct (k >? len); [|done].
      change (splice (16 + zlen body + len) (replicate (Z.to_nat (k - len)) 0)
                (nlmsghdr (poke 0 4 (16 + zlen body + k) m)) = nlmsghdr (poke 0 4 (16 + zlen body + k) m)).
      rewrite E. by apply splice_at.
    + rewrite E. unfold H1. replace (cap (if k >? len then _ else _)) with (cap m) by (by destruct (k >? len)).
      rewrite Z.add_assoc, <- !app_assoc. do 3 f_equal. rewrite <- !replicate_add.
      f_equal. lia.
Qed.

Lemma nlmsg_reserve_full m rest body len :
  holds m rest body -> 0 <= len < 2 ^ 31 -> 16 + zlen body + NLMSG_ALIGN len > cap m ->
  nlmsg_reserve m len = (m, None).
Proof.
  intros Hh Hlen Hfit. pose proof (zlen_nonneg body). destruct (align_bounds len) as [Hal _]; [lia|].
  unfold nlmsg_reserve. rewrite (holds_len m rest body Hh). destruct Hh.
  rewrite (wrap_id 64) by (change (2 ^ 64) with 18446744073709551616; lia).
  destruct (Z.gtb_spec (16 + zlen body + NLMSG_ALIGN len) (cap m)); [done|lia].
Qed.

Lemma nla_begin_nested_fits m rest body t :
  holds m rest body -> 16 + zlen body + 4 <= cap m ->
  exists m', nla_begin_nested m t = (m', Some (16 + zlen body)) /\ cap m' = cap m /\
    holds m' rest (body ++ le_bytes 2 4 ++ le_bytes 2 t).
Proof.
  intros Hh Hfit. unfold nla_begin_nested. rewrite (holds_tail m rest body Hh).
  destruct (nla_put_fits m rest body t [] Hh) as (m' & E & Hc & Hh'); [done|done|].
  unfold nla_put_attr. rewrite E. eauto.
Qed.

Lemma nla_end_nested_spec m rest pre old t inner :
  holds m rest (pre ++ le_bytes 2 old ++ le_bytes 2 t ++ inner) ->
  holds (nla_end_nested m (16 + zlen pre)) rest
    (pre ++ le_bytes 2 (4 + zlen inner) ++ le_bytes 2 t ++ inner) /\
  cap (nla_end_nested m (16 + zlen pre)) = cap m.
Proof.
  intros Hh. unfold nla_end_nested. rewrite (holds_tail _ _ _ Hh).
  replace (_ - _) with (4 + zlen inner) by (rewrite !zlen_app, !zlen_le; lia).
  by apply poke_body with (old := le_bytes 2 old).
Qed.

Lemma nla_begin_nested_full m rest body t :
  holds m rest body -> 16 + zlen body + 4 > cap m -> nla_begin_nested m t = (m, None).
Proof.
  intros Hh Hfit. unfold nla_begin_nested, nla_put_attr.
  by rewrite (nla_put_full m rest body t [] Hh).
Qed.

(** ** Attribute trees *)

(** An attribute, a nest, or room reserved for a fixed structure (veth peers
    start with one). *)
Inductive attr :=
| Leaf (t : Z) (d : bytes)
| Room (len : Z)
| Nest (t : Z) (kids : list attr).

Section AttrInd.
Variable P : attr -> Prop.
Hypothesis HL : forall t d, P (Leaf t d).
Hypothesis HR : forall len, P (Room len).
Hypothesis HN : forall t kids, Forall P kids -> P (Nest t kids).

Fixpoint attr_tree_ind (a : attr) : P a :=
  match a with
  | Leaf t d => HL t d
  | Room len => HR len
  | Nest t kids =>
      HN t kids ((fix go l : Forall P l :=
        match l with
        | [] => @Forall_nil attr P
        | x :: l' => @Forall_cons attr P x l' (attr_tree_ind x) (go l')
        end) kids)
  end.
End AttrInd.

(** The calls a client makes for a list of attributes, given those for one:
    it stops at the first failure. *)
Definition build_list (build : attr -> nlmsg -> nlmsg * Z) : list attr -> nlmsg -> nlmsg * Z :=
  fix go (l : list attr) m :=
    match l with
    | [] => (m, 0)
    | a :: l' => let '(m', r) := build a m in if r =? 0 then go l' m' else (m', r)
    end.

(** [nla_begin_nested], the inner attributes, [nla_end_nested]. *)
Fixpoint build (a : attr) (m : nlmsg) : nlmsg * Z :=
  match a with
  | Leaf t d => nla_put m t d
  | Room len =>
      match nlmsg_reserve m len with
      | (m', Some _) => (m', 0)
      | (m', None) => (m', - ENOMEM)
      end
  | Nest t kids =>
      let '(m1, nest) := nla_begin_nested m t in
      match nest with
      | None => (m1, - ENOMEM)
      | Some off =>
          let '(m2, r) := build_list build kids m1 in
          if r =? 0 then (nla_end_nested m2 off, 0) else (m2, r)
      end
  end.

Fixpoint enc (a : attr) : bytes :=
  match a with
  | Leaf t d => enc_attr t d
  | Room len => replicate (Z.to_nat (NLMSG_ALIGN len)) 0
  | Nest t kids =>
      let inner := concat (map enc kids) in
      le_bytes 2 (4 + zlen inner) ++ le_bytes 2 t ++ inner
  end.

(** Payloads are shorter than 2 GiB. *)
Fixpoint attr_small (a : attr) : Prop :=
  match a with
  | Leaf _ d => zlen d < 2 ^ 31
  | Room len => 0 <= len < 2 ^ 31
  | Nest _ kids => fold_right (fun a P => attr_small a /\ P) True kids
  end.

Definition build_ok (a : attr) : Prop := forall m rest body,
  attr_small a -> holds m rest body ->
  (16 + zlen body + zlen (enc a) <= cap m ->
     exists m', build a m = (m', 0) /\ cap m' = cap m /\ holds m' rest (body ++ enc a)) /\
  (16 + zlen body + zlen (enc a) > cap m ->
     exists m', build a m = (m', - ENOMEM) /\ cap m' = cap m /\ exists body', holds m' rest body').

Lemma build_list_ok kids m rest body :
  Forall build_ok kids -> fold_right (fun a P => attr_small a /\ P) True kids -> holds m rest body ->
  (16 + zlen body + zlen (concat (map enc kids)) <= cap m ->
     exists m', build_list build kids m = (m', 0) /\ cap m' = cap m /\
       holds m' rest (body ++ concat (map enc kids))) /\
  (16 + zlen body + zlen (concat (map enc kids)) > cap m ->
     exists m', build_list build kids m = (m', - ENOMEM) /\ cap m' = cap m /\
       exists body', holds m' rest body').
Proof.
  intros Hk. revert m body. induction Hk as [|a kids Ha Hks IH]; intros m body Hs Hh.
  { simpl. split; intros ?.
    - exists m. rewrite app_nil_r. auto.
    - destruct Hh. unfold zlen in *. simpl in *. lia. }
  destruct Hs as [Hsa Hsk]. destruct (Ha m rest body Hsa Hh) as [Hfit Hfull].
  cbn [build_list map concat]. rewrite zlen_app. pose proof (zlen_nonneg (concat (map enc kids))).
  destruct (Z_le_gt_dec (16 + zlen body + zlen (enc a)) (cap m)) as [Hle|Hgt].
  - destruct (Hfit Hle) as (m1 & E & Hc & Hh1). rewrite E. cbn [Z.eqb].
    destruct (IH m1 (body ++ enc a) Hsk Hh1) as [IHfit IHfull].
    rewrite Hc, zlen_app in IHfit, IHfull. rewrite app_assoc. split; intros ?.
    + apply IHfit. lia.
    + apply IHfull. lia.
  - destruct (Hfull Hgt) as (m1 & E & Hc & Hh1). rewrite E. cbn [Z.eqb Z.opp ENOMEM].
    split; intros ?; [lia|]. eauto.
Qed.

Lemma build_spec a : build_ok a.
Proof.
  induction a as [t d|len|t kids IH] using attr_tree_ind; intros m rest body Hs Hh.
  - cbn [build enc]. rewrite enc_attr_length by done. split; intros Hfit.
    + by apply nla_put_fits.
    + exists m. rewrite (nla_put_full m rest body) by done. eauto.
  - cbn [build enc attr_small] in *. destruct (align_bounds len) as [Hal _]; [lia|].
    rewrite zlen_replicate, Z2Nat.id by lia. split; intros Hfit.
    + destruct (nlmsg_reserve_fits m rest body len) as (m' & -> & ? & ?); [done..|]. eauto.
    + rewrite (nlmsg_reserve_full m rest body) by done. eauto.
  - cbn [build enc]. set (inner := concat (map enc kids)).
    rewrite !zlen_app, !zlen_le. pose proof (zlen_nonneg inner) as Hi0.
    destruct (Z_le_gt_dec (16 + zlen body + 4) (cap m)) as [Hle|Hgt].
    2: { rewrite (nla_begin_nested_full m rest body t Hh Hgt). split; intros ?; [lia|]. eauto. }
    destruct (nla_begin_nested_fits m rest body t Hh Hle) as (m1 & E & Hc & Hh1). rewrite E.
    destruct (build_list_ok kids m1 rest _ IH Hs Hh1) as [Hfit Hfull]. fold inner in Hfit, Hfull.
    rewrite !zlen_app, !zlen_le, Hc in Hfit, Hfull. split; intros Hsz.
    + destruct Hfit as (m2 & E2 & Hc2 & Hh2); [lia|]. rewrite E2. cbn [Z.eqb].
      rewrite <- !app_assoc in Hh2. apply nla_end_nested_spec in Hh2 as [Hh3 Hc3].
      eexists. split; [reflexivity|]. split; [by rewrite Hc3|done].
    + destruct Hfull as (m2 & E2 & Hc2 & Hh2); [lia|]. rewrite E2. cbn [Z.eqb Z.opp ENOMEM]. eauto.
Qed.

(** A new message is empty. *)
Lemma nlmsg_alloc_holds {al : Allocator} size m :
  0 <= size < 2 ^ 31 -> nlmsg_alloc size = Some m ->
  holds m (replicate 12 0) [] /\ cap m = 16 + NLMSG_ALIGN size.
Proof.
  intros Hs. destruct (align_bounds size) as [Hal Hmod]; [lia|].
  unfold nlmsg_alloc, NLMSG_HDRLEN.
  rewrite (wrap_id 64) by (change (2 ^ 64) with 18446744073709551616; lia).
  repeat case_match; try done. intros [= <-]. split; [|done].
  constructor; [done|done|simpl cap; change (zlen (@nil Z)) with 0; lia|].
  unfold poke, put_le. simpl nlmsghdr. simpl cap. rewrite (zeros_split _ 16) by lia.
  change (replicate (Z.to_nat 16) 0) with (replicate 4 0 ++ replicate 12 0).
  rewrite <- app_assoc. etransitivity; [by apply (splice_at 0 [] (replicate 4 0))|].
  change (zlen (@nil Z)) with 0. rewrite app_nil_l, app_nil_l.
  by replace (16 + NLMSG_ALIGN size - 16 - 0) with (16 + NLMSG_ALIGN size - 16) by lia.
Qed.

(** C33: a message builder run on any list of attributes and reserved rooms,
    nested to any depth with [nla_begin_nested] and [nla_end_nested], appends exactly the
    encoding of the attributes when it fits the capacity (every length field
    is, in its 16 bits, the length of the attribute's contents, padding is zero, the header length is the
    end of the message), and otherwise reports -ENOMEM; in both cases nothing
    is written outside the block. *)
Theorem netlink_build_correct m rest body attrs :
  holds m rest body -> fold_right (fun a P => attr_small a /\ P) True attrs ->
  exists m' r, build_list build attrs m = (m', r) /\
    length (nlmsghdr m') = length (nlmsghdr m) /\
    r = (if 16 + zlen body + zlen (concat (map enc attrs)) <=? cap m then 0 else - ENOMEM) /\
    (r = 0 -> holds m' rest (body ++ concat (map enc attrs))).
Proof.
  intros Hh Hs.
  assert (forall m rest body, holds m rest body -> zlen (nlmsghdr m) = cap m) as Hlen.
  { clear. intros m rest body [Hr Ha Hc Hb]. rewrite Hb, !zlen_app, zlen_le.
    rewrite zlen_replicate. lia. }
  destruct (build_list_ok attrs m rest body) as [Hfit Hfull]; [|done|done|].
  { apply List.Forall_forall. intros. apply build_spec. }
  pose proof (Hlen _ _ _ Hh) as Hl.
  destruct (Z.leb_spec (16 + zlen body + zlen (concat (map enc attrs))) (cap m)) as [Hle|Hgt].
  - destruct (Hfit Hle) as (m' & E & Hc & Hh'). exists m', 0. split_and!; [done| |done|done].
    pose proof (Hlen _ _ _ Hh'). unfold zlen in *. lia.
  - destruct Hfull as (m' & E & Hc & body' & Hh'); [lia|]. exists m', (- ENOMEM).
    split_and!; [done| |done|done]. pose proof (Hlen _ _ _ Hh'). unfold zlen in *. lia.
Qed.

End Spec.

Definition sample_msg : nlmsg := poke 0 4 16 (Nlmsg (replicate 80 0) 80).

Lemma sample_msg_holds : holds sample_msg (replicate 12 0) [].
Proof.
  destruct (@nlmsg_alloc_holds sample_alloc 64 sample_msg) as [Hh _]; [lia|reflexivity|exact Hh].
Qed.

Definition sample_attrs : list attr :=
  [Nest 18 [Leaf 1 [118; 101; 116; 104; 0]; Nest 2 [Leaf 3 [1; 2; 3]]]; Leaf 3 [97; 0]].

Lemma netlink_build_correct_witness :
  exists m' r, build_list build sample_attrs sample_msg = (m', r) /\
    length (nlmsghdr m') = length (nlmsghdr sample_msg) /\
    r = (if 16 + 0 + zlen (concat (map enc sample_attrs)) <=? 80 then 0 else - ENOMEM) /\
    (r = 0 -> holds m' (replicate 12 0) ([] ++ concat (map enc sample_attrs))).
Proof.
  apply (netlink_build_correct sample_msg (replicate 12 0) [] sample_attrs).
  - exact sample_msg_holds.
  - vm_compute. intuition.
Defined.

Example sample_bytes :
  take 52 (nlmsghdr (fst (build_list build sample_attrs sample_msg))) =
  [52; 0; 0; 0; 0; 0; 0; 0; 0; 0; 0; 0; 0; 0; 0; 0;
   28; 0; 18; 0; 9; 0; 1; 0; 118; 101; 116; 104; 0; 0; 0; 0; 12; 0; 2; 0; 7; 0; 3; 0; 1; 2; 3; 0;
   6; 0; 3; 0; 97; 0; 0; 0].
Proof. vm_compute. reflexivity. Qed.

End Netlink.
