(* ===== verification/Syscalls.v ===== *)
(** * System calls of the network programs

    The kernel is a parameter: a function from the calls made so far to the
    reply to the next one.  [io] is the monad of the programs: it logs the
    calls with their replies, counts the blocks of the C heap the program
    holds, and keeps the global [br_socket_fd] of [network/code/network.c].
    [None] is undefined behaviour, or the end of the fuel of a loop. *)

From S2P Require Import Prelude.
From Stdlib Require Import ZArith Lia.
From stdpp Require Import base list numbers option.

Open Scope Z_scope.

Module Syscalls.

(** What the programs pass to [ioctl]. *)
Inductive ioctl_arg :=
| ArgName (name : bytes)
| ArgWords (words : list Z) (buf : bytes)
| ArgIfreq (ifr_name : bytes) (ifr_ifindex : Z)
| ArgIfreqData (ifr_name : bytes) (words : list Z)
| ArgRoute (dst gateway genmask : Z * Z * Z) (flags : Z).

Inductive call :=
| Socket (domain type protocol : Z)
| Setsockopt (fd level optname value : Z)
| Fcntl (fd cmd arg : Z)
| Bind (fd family groups : Z)
| BindAddr (fd family pid groups : Z)
| Getsockname (fd : Z)
| Sendmsg (fd : Z) (data : bytes)
| Sendto (fd : Z) (data : bytes)
| Recvmsg (fd len : Z)
| RecvmsgFlags (fd len controllen flags : Z)
| SendmsgAddr (fd family pid groups : Z) (data creds : bytes)
| SendtoAddr (fd family pid groups : Z) (data : bytes)
| Close (fd : Z)
| Ioctl (fd request : Z) (arg : ioctl_arg)
| If_nametoindex (name : bytes)
| If_indextoname (index : Z)
| System (cmd : bytes)
| Sethostname (name : bytes)
| Mount (source target fstype : bytes)
| Execv (path : bytes)
| Poll (fd events timeout : Z)
| Time.

(** The return value and [errno]; the bytes the kernel stores (a received
    message, a name), and a second result: the length of the socket address
    for [Getsockname], [msg_flags] for [Recvmsg]; [peer] is the [nl_pid] of
    the sender or the [nl_family] of the address, [peer_len] the length of
    the sender's address. *)
Record reply := Reply {
  rc : Z;
  errno : Z;
  payload : bytes;
  aux : Z;
  peer : Z;
  peer_len : Z
}.

Definition history := list (call * reply).

Class Kernel := answer : history -> call -> reply.

Record world := World {
  log : history;
  live : Z;
  br_socket_fd : Z
}.

Definition io (A : Type) : Type := world -> option (A * world).

#[export] Instance io_ret : MRet io := fun A a w => Some (a, w).
#[export] Instance io_bind : MBind io :=
  fun A B f m w => match m w with Some (a, w') => f a w' | None => None end.

(** Undefined behaviour. *)
Definition undefined {A} : io A := fun _ => None.

Definition syscall `{Kernel} (c : call) : io reply :=
  fun w => let r := answer (log w) c in
           Some (r, World (log w ++ [(c, r)]) (live w) (br_socket_fd w)).

(** [n] blocks allocated (or released, for a negative [n]). *)
Definition heap (n : Z) : io unit :=
  fun w => Some (tt, World (log w) (live w + n) (br_socket_fd w)).

Definition set_br_fd (fd : Z) : io unit := fun w => Some (tt, World (log w) (live w) fd).
Definition get_br_fd : io Z := fun w => Some (br_socket_fd w, w).

(** ** Open descriptors *)

Definition track (fds : list Z) (e : call * reply) : list Z :=
  match e with
  | (Socket _ _ _, r) => if 0 <=? rc r then rc r :: fds else fds
  | (Close fd, _) => filter (fun x => x <> fd) fds
  | _ => fds
  end.

Definition open_fds (h : history) : list Z := fold_left track h [].

Lemma open_fds_snoc h e : open_fds (h ++ [e]) = track (open_fds h) e.
Proof. unfold open_fds. by rewrite fold_left_app. Qed.

(** ** Reasoning about programs *)

(** [runs m w Q]: the program [m] started in [w] ends, in a result and a
    world that satisfy [Q]. *)
Definition runs {A} (m : io A) (w : world) (Q : A -> world -> Prop) : Prop :=
  exists a w', m w = Some (a, w') /\ Q a w'.

Lemma runs_ret {A} (a : A) w (Q : A -> world -> Prop) : Q a w -> runs (mret a) w Q.
Proof. intros HQ. exists a, w. by split. Qed.

Lemma runs_bind {A B} (m : io A) (f : A -> io B) w Q :
  runs m w (fun a w' => runs (f a) w' Q) -> runs (m ≫= f) w Q.
Proof.
  intros (a & w' & E & b & w'' & E' & HQ). exists b, w''. split; [|done].
  unfold mbind, io_bind. by rewrite E.
Qed.

Lemma runs_mono {A} (m : io A) w (Q Q' : A -> world -> Prop) :
  runs m w Q -> (forall a w', Q a w' -> Q' a w') -> runs m w Q'.
Proof. intros (a & w' & E & HQ) H. exists a, w'. auto. Qed.

Lemma runs_syscall `{Kernel} c w (Q : reply -> world -> Prop) :
  Q (answer (log w) c)
    (World (log w ++ [(c, answer (log w) c)]) (live w) (br_socket_fd w)) ->
  runs (syscall c) w Q.
Proof. intros HQ. do 2 eexists. split; [reflexivity|done]. Qed.

Lemma runs_heap n w (Q : unit -> world -> Prop) :
  Q tt (World (log w) (live w + n) (br_socket_fd w)) -> runs (heap n) w Q.
Proof. intros HQ. do 2 eexists. split; [reflexivity|done]. Qed.

End Syscalls.
