(* ===== verification/NetRequests.v ===== *)
(** * The interface and bridge requests of [network/code]

    The socket half of [nl.c] and the requests of [network.c]: bridges by
    [ioctl], links, addresses and veth pairs by netlink messages, each built
    with the functions of the file [Netlink].  A function is the C function
    with its [goto out] paths; the kernel's replies come from the parameter
    of the file [Syscalls].  [eintr] bounds the retries of [netlink_rcv]. *)

From S2P Require Import Prelude Netlink Syscalls.
From Stdlib Require Import ZArith Lia String.
From stdpp Require Import base list numbers option.

Open Scope Z_scope.

Module NetRequests.
Import Netlink Syscalls.

Definition EINTR : Z := 4.
Definition ENODEV : Z := 19.
Definition EINVAL : Z := 22.
Definition EMSGSIZE : Z := 90.
Definition EPROTONOSUPPORT : Z := 93.

Definition AF_UNSPEC : Z := 0.
Definition AF_LOCAL : Z := 1.
Definition AF_INET : Z := 2.
Definition AF_INET6 : Z := 10.
Definition AF_NETLINK : Z := 16.
Definition SOCK_STREAM : Z := 1.
Definition SOCK_DGRAM : Z := 2.
Definition SOCK_RAW : Z := 3.
Definition SOL_SOCKET : Z := 1.
Definition SO_SNDBUF : Z := 7.
Definition SO_RCVBUF : Z := 8.
Definition MSG_TRUNC : Z := 32.

Definition NETLINK_ROUTE : Z := 0.
Definition NLMSG_ERROR : Z := 2.
Definition NLM_F_REQUEST : Z := 1.
Definition NLM_F_ACK : Z := 4.
Definition NLM_F_EXCL : Z := 512.
Definition NLM_F_CREATE : Z := 1024.
Definition RTM_NEWLINK : Z := 16.
Definition RTM_DELLINK : Z := 17.
Definition RTM_NEWADDR : Z := 20.
Definition IFLA_IFNAME : Z := 3.
Definition IFLA_LINKINFO : Z := 18.
Definition IFLA_NET_NS_PID : Z := 19.
Definition IFLA_INFO_KIND : Z := 1.
Definition IFLA_INFO_DATA : Z := 2.
Definition VETH_INFO_PEER : Z := 1.
Definition IFA_ADDRESS : Z := 1.
Definition IFA_LOCAL : Z := 2.
Definition IFA_BROADCAST : Z := 4.
Definition IFF_UP : Z := 1.
Definition IFNAMSIZ : Z := 16.
Definition NLMSG_GOOD_SIZE : Z := 2 * 4096.

Definition SIOCADDRT : Z := 35083.
Definition SIOCSIFBR : Z := 35137.
Definition SIOCBRADDBR : Z := 35232.
Definition SIOCBRDELBR : Z := 35233.
Definition SIOCBRADDIF : Z := 35234.
Definition SIOCBRDELIF : Z := 35235.
Definition SIOCDEVPRIVATE : Z := 35312.
Definition BRCTL_ADD_BRIDGE : Z := 2.
Definition BRCTL_DEL_BRIDGE : Z := 3.
Definition BRCTL_ADD_IF : Z := 4.
Definition BRCTL_DEL_IF : Z := 5.
Definition RTF_GATEWAY : Z := 2.

(** [strncpy] into a buffer of [n] bytes. *)
Definition strncpy (s : bytes) (n : Z) : bytes :=
  take (Z.to_nat n) (cstr s ++ replicate (Z.to_nat n) 0).

Record nl_handler := NlHandler { fd : Z; seq : Z; local_family : Z }.

Section Programs.
Context {al : Allocator} {kernel : Kernel}.
Variable eintr : nat.

(** ** nl.c: sockets *)

Definition io_nlmsg_alloc (size : Z) : io (option nlmsg) :=
  match nlmsg_alloc size with
  | Some m => heap 2 ;; mret (Some m)
  | None => mret None
  end.

Definition io_nlmsg_alloc_reserve (size : Z) : io (option nlmsg) :=
  match nlmsg_alloc_reserve size with
  | Some m => heap 2 ;; mret (Some m)
  | None => mret None
  end.

Definition nlmsg_free (m : option nlmsg) : io unit :=
  match m with None => mret tt | Some _ => heap (-2) end.

(** The message is received over the old contents of [answer]. *)
Fixpoint netlink_rcv (fuel : nat) (handler : nl_handler) (answer : nlmsg) : io (nlmsg * Z) :=
  match fuel with
  | O => undefined
  | S fuel' =>
      r ← syscall (Recvmsg (fd handler) (hdr_len answer));
      if rc r <? 0 then
        if errno r =? EINTR then netlink_rcv fuel' handler answer
        else mret (answer, - errno r)
      else
        let received := take (Z.to_nat (hdr_len answer)) (payload r) in
        let answer := Nlmsg (splice 0 received (nlmsghdr answer)) (cap answer) in
        if rc r =? 0 then mret (answer, 0)
        else if negb (Z.land (aux r) MSG_TRUNC =? 0) && (rc r =? hdr_len answer) then
          mret (answer, - EMSGSIZE)
        else mret (answer, rc r)
  end.

Definition netlink_send (handler : nl_handler) (m : nlmsg) : io Z :=
  r ← syscall (Sendmsg (fd handler) (take (Z.to_nat (hdr_len m)) (nlmsghdr m)));
  if rc r <? 0 then mret (- errno r) else mret (rc r).

(** [err->error] is the [int] behind the header of the answer. *)
Definition netlink_transaction (handler : nl_handler) (request answer : nlmsg) : io Z :=
  ret ← netlink_send handler request;
  if ret <? 0 then mret ret
  else
    '(answer, ret) ← netlink_rcv (S eintr) handler answer;
    if ret <? 0 then mret ret
    else if hdr_type answer =? NLMSG_ERROR then mret (s32 (get_le 16 4 (nlmsghdr answer)))
    else mret 0.

Definition netlink_open (protocol : Z) : io (nl_handler * Z) :=
  r ← syscall (Socket AF_NETLINK SOCK_RAW protocol);
  let handler := NlHandler (rc r) 0 0 in
  if rc r <? 0 then mret (handler, - errno r) else
  r ← syscall (Setsockopt (fd handler) SOL_SOCKET SO_SNDBUF 32768);
  if rc r <? 0 then mret (handler, - errno r) else
  r ← syscall (Setsockopt (fd handler) SOL_SOCKET SO_RCVBUF 32768);
  if rc r <? 0 then mret (handler, - errno r) else
  r ← syscall (Bind (fd handler) AF_NETLINK 0);
  if rc r <? 0 then mret (handler, - errno r) else
  r ← syscall (Getsockname (fd handler));
  if rc r <? 0 then mret (handler, - errno r) else
  let handler := NlHandler (fd handler) 0 (peer r) in
  if negb (aux r =? 12) then mret (handler, - EINVAL) else
  if negb (local_family handler =? AF_NETLINK) then mret (handler, - EINVAL) else
  r ← syscall Time;
  mret (NlHandler (fd handler) (s32 (rc r)) (local_family handler), 0).

Definition netlink_close (handler : nl_handler) : io nl_handler :=
  syscall (Close (fd handler)) ;; mret (NlHandler (-1) (seq handler) (local_family handler)).

(** ** network.c: links *)

(** [out: netlink_close(&nlh); nlmsg_free(nlmsg); nlmsg_free(answer);
    return err;] *)
Definition out (nlh : nl_handler) (m answer : option nlmsg) (err : Z) : io Z :=
  netlink_close nlh ;; nlmsg_free m ;; nlmsg_free answer ;; mret err.

(** [nlmsghdr->nlmsg_flags] and [nlmsghdr->nlmsg_type]. *)
Definition set_request (flags type : Z) (m : nlmsg) : nlmsg :=
  poke 4 2 type (poke 6 2 flags m).

(** Fields of [struct ifinfomsg]. *)
Definition set_ifi_family (ifi v : Z) (m : nlmsg) : nlmsg := poke ifi 1 v m.
Definition set_ifi_index (ifi v : Z) (m : nlmsg) : nlmsg := poke (ifi + 4) 4 v m.
Definition or_ifi_flags (ifi v : Z) (m : nlmsg) : nlmsg :=
  poke (ifi + 8) 4 (Z.lor (get_le (ifi + 8) 4 (nlmsghdr m)) v) m.
Definition or_ifi_change (ifi v : Z) (m : nlmsg) : nlmsg :=
  poke (ifi + 12) 4 (Z.lor (get_le (ifi + 12) 4 (nlmsghdr m)) v) m.
Definition sizeof_ifinfomsg : Z := 16.
Definition sizeof_ifaddrmsg : Z := 8.

(** [len == 1 || len >= IFNAMSIZ]. *)
Definition bad_name (name : bytes) : bool := (strlen name =? 1) || (strlen name >=? IFNAMSIZ).

(** The message [netdev_set_flag] sends. *)
Definition set_flag_request (m : nlmsg) (index flag : Z) : option nlmsg :=
  let m := set_request (Z.lor NLM_F_REQUEST NLM_F_ACK) RTM_NEWLINK m in
  match nlmsg_reserve m sizeof_ifinfomsg with
  | (m, Some ifi) =>
      Some (or_ifi_flags ifi flag (or_ifi_change ifi IFF_UP
        (set_ifi_index ifi index (set_ifi_family ifi AF_UNSPEC m))))
  | (_, None) => None
  end.

Definition netdev_set_flag (name : bytes) (flag : Z) : io Z :=
  '(nlh, err) ← netlink_open NETLINK_ROUTE;
  if negb (err =? 0) then mret err else
  if bad_name name then out nlh None None (- EINVAL) else
  nlmsg ← io_nlmsg_alloc NLMSG_GOOD_SIZE;
  match nlmsg with
  | None => out nlh None None (- ENOMEM)
  | Some m =>
      answer ← io_nlmsg_alloc_reserve NLMSG_GOOD_SIZE;
      match answer with
      | None => out nlh nlmsg None (- ENOMEM)
      | Some a =>
          r ← syscall (If_nametoindex (cstr name));
          if rc r =? 0 then out nlh nlmsg answer (- EINVAL) else
          match set_flag_request m (rc r) flag with
          | None => undefined
          | Some m =>
              err ← netlink_transaction nlh m a;
              out nlh nlmsg answer err
          end
      end
  end.

Definition network_dev_up (name : bytes) : io Z := netdev_set_flag name IFF_UP.
Definition network_dev_down (name : bytes) : io Z := netdev_set_flag name 0.

Definition delete_request (m : nlmsg) (ifindex : Z) : option nlmsg :=
  let m := set_request (Z.lor NLM_F_ACK NLM_F_REQUEST) RTM_DELLINK m in
  match nlmsg_reserve m sizeof_ifinfomsg with
  | (m, Some ifi) => Some (set_ifi_index ifi ifindex (set_ifi_family ifi AF_UNSPEC m))
  | (_, None) => None
  end.

Definition netdev_delete_by_index (ifindex : Z) : io Z :=
  '(nlh, err) ← netlink_open NETLINK_ROUTE;
  if negb (err =? 0) then mret err else
  nlmsg ← io_nlmsg_alloc NLMSG_GOOD_SIZE;
  match nlmsg with
  | None => out nlh None None (- ENOMEM)
  | Some m =>
      answer ← io_nlmsg_alloc_reserve NLMSG_GOOD_SIZE;
      match answer with
      | None => out nlh nlmsg None (- ENOMEM)
      | Some a =>
          match delete_request m ifindex with
          | None => undefined
          | Some m =>
              err ← netlink_transaction nlh m a;
              out nlh nlmsg answer err
          end
      end
  end.

Definition netdev_delete_by_name (name : bytes) : io Z :=
  r ← syscall (If_nametoindex (cstr name));
  if rc r =? 0 then mret (- EINVAL) else netdev_delete_by_index (rc r).

(** [inl err]: an attribute did not fit and [goto out] returns [err]. *)
Definition move_request (m : nlmsg) (ifindex pid : Z) (ifname : bytes) : option (Z + nlmsg) :=
  let m := set_request (Z.lor NLM_F_REQUEST NLM_F_ACK) RTM_NEWLINK m in
  match nlmsg_reserve m sizeof_ifinfomsg with
  | (m, Some ifi) =>
      let m := set_ifi_index ifi ifindex (set_ifi_family ifi AF_UNSPEC m) in
      let '(m, r) := nla_put_u32 m IFLA_NET_NS_PID pid in
      if negb (r =? 0) then Some (inl (- ENOMEM)) else
      let '(m, r) := nla_put_string m IFLA_IFNAME ifname in
      if negb (r =? 0) then Some (inl (- ENOMEM)) else Some (inr m)
  | (_, None) => None
  end.

(** The request is also the buffer for the answer. *)
Definition netdev_move_to_namespace (ifname : option bytes) (pid : Z) : io Z :=
  match ifname with
  | None => mret (-1)
  | Some ifname =>
      r ← syscall (If_nametoindex (cstr ifname));
      if rc r =? 0 then mret (-1) else
      '(nlh, err) ← netlink_open NETLINK_ROUTE;
      if negb (err =? 0) then mret err else
      nlmsg ← io_nlmsg_alloc NLMSG_GOOD_SIZE;
      match nlmsg with
      | None => out nlh None None (- ENOMEM)
      | Some m =>
          match move_request m (rc r) pid ifname with
          | None => undefined
          | Some (inl err) => out nlh nlmsg None err
          | Some (inr m) =>
              err ← netlink_transaction nlh m m;
              out nlh nlmsg None err
          end
      end
  end.

Definition veth_request (m : nlmsg) (name1 name2 : bytes) : option (Z + nlmsg) :=
  let m := set_request (Z.lor (Z.lor (Z.lor NLM_F_REQUEST NLM_F_CREATE) NLM_F_EXCL) NLM_F_ACK)
             RTM_NEWLINK m in
  match nlmsg_reserve m sizeof_ifinfomsg with
  | (_, None) => None
  | (m, Some ifi) =>
      let m := set_ifi_family ifi AF_UNSPEC m in
      match nla_begin_nested m IFLA_LINKINFO with
      | (_, None) => Some (inl (- EINVAL))
      | (m, Some nest1) =>
          let '(m, r) := nla_put_string m IFLA_INFO_KIND (str "veth"%string) in
          if negb (r =? 0) then Some (inl (- EINVAL)) else
          match nla_begin_nested m IFLA_INFO_DATA with
          | (_, None) => Some (inl (- EINVAL))
          | (m, Some nest2) =>
              match nla_begin_nested m VETH_INFO_PEER with
              | (_, None) => Some (inl (- EINVAL))
              | (m, Some nest3) =>
                  match nlmsg_reserve m sizeof_ifinfomsg with
                  | (_, None) => Some (inl (- EINVAL))
                  | (m, Some _) =>
                      let '(m, r) := nla_put_string m IFLA_IFNAME name2 in
                      if negb (r =? 0) then Some (inl (- EINVAL)) else
                      let m := nla_end_nested m nest3 in
                      let m := nla_end_nested m nest2 in
                      let m := nla_end_nested m nest1 in
                      let '(m, r) := nla_put_string m IFLA_IFNAME name1 in
                      if negb (r =? 0) then Some (inl (- EINVAL)) else Some (inr m)
                  end
              end
          end
      end
  end.

Definition network_veth_create (name1 name2 : bytes) : io Z :=
  '(nlh, err) ← netlink_open NETLINK_ROUTE;
  if negb (err =? 0) then mret err else
  if bad_name name1 then out nlh None None (- EINVAL) else
  if bad_name name2 then out nlh None None (- EINVAL) else
  nlmsg ← io_nlmsg_alloc NLMSG_GOOD_SIZE;
  match nlmsg with
  | None => out nlh None None (- ENOMEM)
  | Some m =>
      answer ← io_nlmsg_alloc_reserve NLMSG_GOOD_SIZE;
      match answer with
      | None => out nlh nlmsg None (- ENOMEM)
      | Some a =>
          match veth_request m name1 name2 with
          | None => undefined
          | Some (inl err) => out nlh nlmsg answer err
          | Some (inr m) =>
              err ← netlink_transaction nlh m a;
              out nlh nlmsg answer err
          end
      end
  end.

(** ** network.c: addresses *)

Definition in6addr_any : bytes := replicate 16 0.

(** Fields of [struct ifaddrmsg], then the three addresses. *)
Definition addr_request (m : nlmsg) (family ifindex prefix : Z) (addr bcast : bytes)
  : option (Z + nlmsg) :=
  let m := set_request (Z.lor (Z.lor (Z.lor NLM_F_ACK NLM_F_REQUEST) NLM_F_CREATE) NLM_F_EXCL)
             RTM_NEWADDR m in
  match nlmsg_reserve m sizeof_ifaddrmsg with
  | (_, None) => None
  | (m, Some ifa) =>
      let m := poke (ifa + 1) 1 prefix m in
      let m := poke (ifa + 4) 4 ifindex m in
      let m := poke ifa 1 family m in
      let m := poke (ifa + 3) 1 0 m in
      let '(m, r) := nla_put_buffer m IFA_LOCAL addr in
      if negb (r =? 0) then Some (inl (- EINVAL)) else
      let '(m, r) := nla_put_buffer m IFA_ADDRESS addr in
      if negb (r =? 0) then Some (inl (- EINVAL)) else
      let '(m, r) := nla_put_buffer m IFA_BROADCAST bcast in
      if negb (r =? 0) then Some (inl (- EINVAL)) else Some (inr m)
  end.

(** [addr], [bcast] and [acast] are what the pointers point to; an address
    has 4 bytes for [AF_INET], else 16. *)
Definition ip_addr_add (family ifindex : Z) (addr bcast acast : bytes) (prefix : Z) : io Z :=
  let addrlen := if family =? AF_INET then 4%nat else 16%nat in
  '(nlh, err) ← netlink_open NETLINK_ROUTE;
  if negb (err =? 0) then mret err else
  nlmsg ← io_nlmsg_alloc NLMSG_GOOD_SIZE;
  match nlmsg with
  | None => out nlh None None (- ENOMEM)
  | Some m =>
      answer ← io_nlmsg_alloc_reserve NLMSG_GOOD_SIZE;
      match answer with
      | None => out nlh nlmsg None (- ENOMEM)
      | Some a =>
          match addr_request m family ifindex prefix (take addrlen addr) (take addrlen bcast) with
          | None => undefined
          | Some (inl err) => out nlh nlmsg answer err
          | Some (inr m) =>
              if (family =? AF_INET6) &&
                 (negb (bool_decide (take 16 bcast = in6addr_any)) ||
                  negb (bool_decide (take 16 acast = in6addr_any))) then
                out nlh nlmsg answer (- EPROTONOSUPPORT)
              else
                err ← netlink_transaction nlh m a;
                out nlh nlmsg answer err
          end
      end
  end.

Definition ipv4_addr_add (name addr bcast : bytes) (prefix : Z) : io Z :=
  r ← syscall (If_nametoindex (cstr name));
  if rc r =? 0 then mret (-1)
  else ip_addr_add AF_INET (rc r) addr bcast [] prefix.

(** ** network.c: bridges and routes *)

Definition br_init : io Z :=
  r ← syscall (Socket AF_LOCAL SOCK_STREAM 0);
  set_br_fd (rc r) ;;
  if rc r <? 0 then mret (errno r) else mret 0.

Definition br_shutdown : io unit :=
  fd ← get_br_fd; syscall (Close fd) ;; set_br_fd (-1).

(** [br_add_bridge] and [br_del_bridge]: the named request, then the old
    interface. *)
Definition br_bridge (request brctl : Z) (brname : bytes) : io Z :=
  fd ← get_br_fd;
  r ← syscall (Ioctl fd request (ArgName (cstr brname)));
  if rc r <? 0 then
    r ← syscall (Ioctl fd SIOCSIFBR (ArgWords [brctl] (strncpy brname IFNAMSIZ)));
    mret (if rc r <? 0 then errno r else 0)
  else mret 0.

Definition br_add_bridge : bytes -> io Z := br_bridge SIOCBRADDBR BRCTL_ADD_BRIDGE.
Definition br_del_bridge : bytes -> io Z := br_bridge SIOCBRDELBR BRCTL_DEL_BRIDGE.

Definition br_interface (request brctl : Z) (bridge dev : bytes) : io Z :=
  r ← syscall (If_nametoindex (cstr dev));
  let ifindex := rc r in
  if ifindex =? 0 then mret ENODEV else
  fd ← get_br_fd;
  r ← syscall (Ioctl fd request (ArgIfreq (strncpy bridge IFNAMSIZ) ifindex));
  if rc r <? 0 then
    r ← syscall (Ioctl fd SIOCDEVPRIVATE (ArgIfreqData (strncpy bridge IFNAMSIZ) [brctl; ifindex; 0; 0]));
    mret (if rc r <? 0 then errno r else 0)
  else mret 0.

Definition br_add_interface : bytes -> bytes -> io Z := br_interface SIOCBRADDIF BRCTL_ADD_IF.
Definition br_del_interface : bytes -> bytes -> io Z := br_interface SIOCBRDELIF BRCTL_DEL_IF.

(** The addresses are (family, port, address); no value is returned.  The
    mask is [htonl (~(0xffffffffUL >> 0))], 0. *)
Definition add_default_route (addr : Z) : io unit :=
  let prefix_len := 0 in
  let genmask := u32 (u64 (Z.lnot (Z.shiftr 4294967295 prefix_len))) in
  s ← syscall (Socket AF_INET SOCK_DGRAM 0);
  syscall (Ioctl (rc s) SIOCADDRT
    (ArgRoute (AF_INET, 0, 0) (AF_INET, 0, addr) (0, 0, genmask) RTF_GATEWAY)) ;;
  syscall (Close (rc s)) ;;
  mret tt.

(** ** Assumptions on the kernel *)

Definition interrupted (r : reply) : Prop := rc r < 0 /\ errno r = EINTR.

(** After [n] interruptions in a row the next [recvmsg] is not interrupted. *)
Definition bounded_eintr (n : nat) : Prop := forall h fd len rs,
  length rs = n -> Forall interrupted rs ->
  ~ interrupted (answer (h ++ map (fun r => (Recvmsg fd len, r)) rs) (Recvmsg fd len)).

(** A failing call sets [errno]. *)
Definition errno_set : Prop := forall h c, rc (answer h c) < 0 -> 0 < errno (answer h c).

(** A new descriptor is none of the open ones. *)
Definition fresh_fds : Prop := forall h d t p,
  0 <= rc (answer h (Socket d t p)) -> rc (answer h (Socket d t p)) ∉ open_fds h.

(** Calls that open or close no descriptor. *)
Definition neutral (e : call * reply) : Prop :=
  match e.1 with Socket _ _ _ | Close _ => False | _ => True end.

Lemma open_fds_neutral h e : neutral e -> open_fds (h ++ [e]) = open_fds h.
Proof. rewrite open_fds_snoc. destruct e as [[] r]; intros He; try done; by destruct He. Qed.

Lemma open_fds_neutrals h es : Forall neutral es -> open_fds (h ++ es) = open_fds h.
Proof.
  intros He. revert h. induction He as [|e es He Hes IH]; intros h; [by rewrite app_nil_r|].
  change (e :: es) with ([e] ++ es). rewrite app_assoc, IH. by apply open_fds_neutral.
Qed.

(** ** Transactions *)

(** What [netlink_rcv] makes of the last reply. *)
Definition rcv_result (a : nlmsg) (r : reply) : nlmsg * Z :=
  if rc r <? 0 then (a, - errno r)
  else
    let a' := Nlmsg (splice 0 (take (Z.to_nat (hdr_len a)) (payload r)) (nlmsghdr a)) (cap a) in
    (a', if negb (rc r =? 0) && negb (Z.land (aux r) MSG_TRUNC =? 0) && (rc r =? hdr_len a')
         then - EMSGSIZE else rc r).

Definition is_interrupted (r : reply) : bool := (rc r <? 0) && (errno r =? EINTR).

Lemma is_interrupted_spec r : is_interrupted r = true <-> interrupted r.
Proof. unfold is_interrupted, interrupted. rewrite andb_true_iff, Z.ltb_lt, Z.eqb_eq. done. Qed.

(** One round of the receive loop. *)
Lemma netlink_rcv_step k nlh a w (Q : nlmsg * Z -> world -> Prop) :
  let r := answer (log w) (Recvmsg (fd nlh) (hdr_len a)) in
  let w1 := World (log w ++ [(Recvmsg (fd nlh) (hdr_len a), r)]) (live w) (br_socket_fd w) in
  (if is_interrupted r then runs (netlink_rcv k nlh a) w1 Q else Q (rcv_result a r) w1) ->
  runs (netlink_rcv (S k) nlh a) w Q.
Proof.
  intros r w1. cbn [netlink_rcv]. intros HQ. apply runs_bind, runs_syscall. fold r w1.
  unfold is_interrupted, rcv_result in HQ. destruct (rc r <? 0); cbn [andb] in HQ.
  - destruct (errno r =? EINTR); [done|by apply runs_ret].
  - destruct (Z.eqb_spec (rc r) 0) as [E0|E0]; cbn [negb andb] in HQ.
    + rewrite E0 in HQ. by apply runs_ret.
    + destruct (_ && _); by apply runs_ret.
Qed.

Lemma netlink_rcv_runs k h0 nlh a w rs :
  bounded_eintr eintr -> (length rs + k = eintr)%nat -> Forall interrupted rs ->
  log w = h0 ++ map (fun r => (Recvmsg (fd nlh) (hdr_len a), r)) rs ->
  runs (netlink_rcv (S k) nlh a) w (fun res w' =>
    exists rs' r, log w' = h0 ++ map (fun r => (Recvmsg (fd nlh) (hdr_len a), r)) (rs' ++ [r]) /\
      res = rcv_result a r /\ live w' = live w /\ br_socket_fd w' = br_socket_fd w).
Proof.
  intros Hb. revert w rs. induction k as [|k IH]; intros w rs Hk Hrs Hlog;
    apply netlink_rcv_step; set (r := answer (log w) _);
    assert (log w ++ [(Recvmsg (fd nlh) (hdr_len a), r)] =
      h0 ++ map (fun r => (Recvmsg (fd nlh) (hdr_len a), r)) (rs ++ [r])) as El
      by (rewrite Hlog, map_app, app_assoc; done).
  - destruct (is_interrupted r) eqn:Ei; [exfalso|exists rs, r; by split_and!].
    apply is_interrupted_spec in Ei. apply (Hb h0 (fd nlh) (hdr_len a) rs); [lia|done|].
    rewrite <- Hlog. exact Ei.
  - destruct (is_interrupted r) eqn:Ei; [|exists rs, r; by split_and!].
    apply is_interrupted_spec in Ei.
    eapply runs_mono; [eapply (IH _ (rs ++ [r])); [|apply Forall_app|exact El]|].
    + rewrite length_app. simpl. lia.
    + split; [done|]. by constructor.
    + done.
Qed.

(** The value a transaction returns, given the reply to [sendmsg] and the
    last reply to [recvmsg]. *)
Definition verdict (a : nlmsg) (sent : reply) (received : reply) : Z :=
  if rc sent <? 0 then - errno sent
  else
    let '(a', ret) := rcv_result a received in
    if ret <? 0 then ret
    else if hdr_type a' =? NLMSG_ERROR then s32 (get_le 16 4 (nlmsghdr a')) else 0.

(** The log of a transaction: one [sendmsg], then [recvmsg]s unless it
    failed. *)
Definition transaction_log (nlh : nl_handler) (m a : nlmsg) (sent : reply) (rs : list reply) : history :=
  (Sendmsg (fd nlh) (take (Z.to_nat (hdr_len m)) (nlmsghdr m)), sent) ::
  map (fun r => (Recvmsg (fd nlh) (hdr_len a), r)) rs.

Lemma netlink_transaction_runs nlh m a w :
  bounded_eintr eintr -> errno_set ->
  runs (netlink_transaction nlh m a) w (fun err w' =>
    exists sent rs, log w' = log w ++ transaction_log nlh m a sent rs /\
      (0 <= rc sent -> rs <> []) /\
      err = verdict a sent (List.last rs sent) /\
      live w' = live w /\ br_socket_fd w' = br_socket_fd w).
Proof.
  intros Hb Herrno. unfold netlink_transaction, netlink_send.
  apply runs_bind, runs_bind, runs_syscall. set (sent := answer (log w) _).
  destruct (Z.ltb_spec (rc sent) 0) as [Hneg|Hpos]; apply runs_ret.
  - assert (0 < errno sent) as Hp by exact (Herrno _ _ Hneg). rewrite (proj2 (Z.ltb_lt (- errno sent) 0)) by lia.
    apply runs_ret. exists sent, []. unfold verdict. rewrite (proj2 (Z.ltb_lt (rc sent) 0)) by lia.
    split_and!; try done. lia.
  - rewrite (proj2 (Z.ltb_ge (rc sent) 0)) by lia. apply runs_bind.
    set (w1 := World _ _ _).
    eapply runs_mono; [apply (netlink_rcv_runs eintr (log w1) nlh a w1 []); try done; by rewrite app_nil_r|].
    intros [a' ret] w' (rs' & r & El & Eres & Hlive & Hbr). cbn beta iota.
    apply runs_mono with (Q := fun err w'' => err = verdict a sent r /\ w'' = w').
    + unfold verdict. rewrite (proj2 (Z.ltb_ge (rc sent) 0)) by lia. rewrite <- Eres.
      destruct (ret <? 0); [by apply runs_ret|]. destruct (_ =? _); by apply runs_ret.
    + intros err w'' [-> ->]. exists sent, (rs' ++ [r]). rewrite List.last_last. split_and!; try done.
      * rewrite El. unfold w1, transaction_log. simpl. by rewrite <- app_assoc.
      * intros _ E. by apply app_nil in E as [_ E].
Qed.

(** ** Sessions: every path closes the socket and frees the messages *)

Definition holding (m : option nlmsg) : Z := match m with Some _ => 2 | None => 0 end.

(** The end of a session: the socket is closed, [n] blocks are given back. *)
Definition closes (nlh : nl_handler) (n : Z) (m : io Z) : Prop := forall w,
  runs m w (fun _ w' => live w' = live w - n /\
    open_fds (log w') = filter (fun x => x <> fd nlh) (open_fds (log w)) /\
    br_socket_fd w' = br_socket_fd w).

Lemma out_closes nlh m a err : closes nlh (holding m + holding a) (out nlh m a err).
Proof.
  intros w. unfold out, netlink_close. apply runs_bind, runs_bind, runs_syscall, runs_ret.
  set (w1 := World _ _ _).
  assert (forall x w, runs (nlmsg_free x) w (fun _ w' =>
    w' = World (log w) (live w - holding x) (br_socket_fd w))) as Hfree.
  { intros [x|] w'; [apply runs_heap; simpl; f_equal; lia|apply runs_ret; simpl].
    destruct w'. simpl. f_equal. lia. }
  apply runs_bind. eapply runs_mono; [apply Hfree|]. intros _ w2 ->.
  apply runs_bind. eapply runs_mono; [apply Hfree|]. intros _ w3 ->.
  apply runs_ret. cbn [live log br_socket_fd w1]. split_and!; [lia| |done].
  by rewrite open_fds_snoc.
Qed.

Lemma transaction_closes nlh m a n (k : Z -> io Z) :
  bounded_eintr eintr -> errno_set -> (forall err, closes nlh n (k err)) ->
  closes nlh n (err ← netlink_transaction nlh m a; k err).
Proof.
  intros Hb He Hk w. apply runs_bind.
  eapply runs_mono; [by apply netlink_transaction_runs|].
  intros err w1 (sent & rs & El & _ & _ & Hl & Hbr).
  eapply runs_mono; [apply Hk|]. intros _ w' (Hl' & Hf & Hbr'). rewrite Hl, Hbr, El in *.
  split_and!; [done| |done]. rewrite Hf. f_equal.
  apply open_fds_neutrals. constructor; [done|]. apply Forall_map. by apply Forall_true.
Qed.

Lemma alloc_closes nlh n size (k : option nlmsg -> io Z) :
  closes nlh (n + holding (nlmsg_alloc size)) (k (nlmsg_alloc size)) ->
  closes nlh n (x ← io_nlmsg_alloc size; k x).
Proof.
  intros Hk w. apply runs_bind. unfold io_nlmsg_alloc.
  destruct (nlmsg_alloc size); [apply runs_bind, runs_heap, runs_ret|apply runs_ret];
    (eapply runs_mono; [apply Hk|]); intros _ w' (Hl & Hf & Hbr);
    cbn [log live br_socket_fd holding] in *; (split_and!; [lia|done|done]).
Qed.

Lemma alloc_reserve_closes nlh n size (k : option nlmsg -> io Z) :
  closes nlh (n + holding (nlmsg_alloc_reserve size)) (k (nlmsg_alloc_reserve size)) ->
  closes nlh n (x ← io_nlmsg_alloc_reserve size; k x).
Proof.
  intros Hk w. apply runs_bind. unfold io_nlmsg_alloc_reserve.
  destruct (nlmsg_alloc_reserve size); [apply runs_bind, runs_heap, runs_ret|apply runs_ret];
    (eapply runs_mono; [apply Hk|]); intros _ w' (Hl & Hf & Hbr);
    cbn [log live br_socket_fd holding] in *; (split_and!; [lia|done|done]).
Qed.

(** The set-up of a netlink socket failed after [socket]: the last call is
    the one that failed, and the descriptor stays open. *)
Definition setup_leak (w w' : world) : Prop := exists fd h c r,
  log w' = h ++ [(c, r)] /\ open_fds (log w') = fd :: open_fds (log w) /\
  match c with
  | Setsockopt fd' _ _ _ | Bind fd' _ _ | Getsockname fd' => fd' = fd
  | _ => False
  end.

(** What [netlink_open] started in [w] leaves. *)
Definition open_post (w : world) : nl_handler * Z -> world -> Prop := fun '(nlh, err) w' =>
  live w' = live w /\ br_socket_fd w' = br_socket_fd w /\
  (if err =? 0 then
     (fd nlh ∉ open_fds (log w)) /\ open_fds (log w') = fd nlh :: open_fds (log w)
   else open_fds (log w') = open_fds (log w) \/ setup_leak w w').

Lemma netlink_open_runs protocol w :
  errno_set -> fresh_fds ->
  runs (netlink_open protocol) w (open_post w).
Proof.
  intros He Hfresh. unfold netlink_open. apply runs_bind, runs_syscall.
  set (r := answer (log w) _).
  assert (open_fds (log w ++ [(Socket AF_NETLINK SOCK_RAW protocol, r)]) =
    if rc r <? 0 then open_fds (log w) else rc r :: open_fds (log w)) as Hsock.
  { rewrite open_fds_snoc. cbn [track]. rewrite Z.leb_antisym. by destruct (rc r <? 0). }
  destruct (Z.ltb_spec (rc r) 0) as [Hn|Hp].
  { apply runs_ret. unfold open_post. assert (0 < errno r) by exact (He _ _ Hn).
    rewrite (proj2 (Z.eqb_neq (- errno r) 0)) by lia. split_and!; [done|done|by left]. }
  pose proof (Hfresh (log w) AF_NETLINK SOCK_RAW protocol Hp) as Hnotin. fold r in Hnotin.
  assert (forall (w1 : world) c k, open_fds (log w1) = rc r :: open_fds (log w) ->
    live w1 = live w -> br_socket_fd w1 = br_socket_fd w ->
    match c with
    | Setsockopt fd' _ _ _ | Bind fd' _ _ | Getsockname fd' => fd' = rc r | _ => False end ->
    (forall w2 r2, open_fds (log w2) = rc r :: open_fds (log w) -> live w2 = live w ->
       br_socket_fd w2 = br_socket_fd w -> w2 = World (log w1 ++ [(c, r2)]) (live w1) (br_socket_fd w1) ->
       runs (k r2) w2 (open_post w)) ->
    runs (r2 ← syscall c; if rc r2 <? 0 then mret (NlHandler (rc r) 0 0, - errno r2) else k r2) w1
      (open_post w)) as Hstep.
  { intros w1 c k Ho Hl Hbr Hc Hk. apply runs_bind, runs_syscall. set (r2 := answer (log w1) c).
    assert (open_fds (log w1 ++ [(c, r2)]) = rc r :: open_fds (log w)) as Ho2.
    { rewrite open_fds_neutral; [done|]. by destruct c. }
    destruct (Z.ltb_spec (rc r2) 0) as [Hn2|Hp2]; [|by apply Hk].
    apply runs_ret. unfold open_post. assert (0 < errno r2) by exact (He _ _ Hn2).
    rewrite (proj2 (Z.eqb_neq (- errno r2) 0)) by lia. split_and!; [done|done|right].
    exists (rc r), (log w1), c, r2. by split_and!. }
  apply Hstep; [done|done|done|done|]. intros w2 r2 Ho2 Hl2 Hbr2 _.
  apply Hstep; [done|done|done|done|]. intros w3 r3 Ho3 Hl3 Hbr3 _.
  apply Hstep; [done|done|done|done|]. intros w4 r4 Ho4 Hl4 Hbr4 _.
  apply Hstep; [done|done|done|done|]. intros w5 r5 Ho5 Hl5 Hbr5 Ew5.
  assert (setup_leak w w5) as Hleak.
  { rewrite Ew5 in Ho5 |- *. exists (rc r), (log w4), (Getsockname (rc r)), r5. by split_and!. }
  destruct (negb (aux r5 =? 12)); [apply runs_ret; split_and!; [done|done|by right]|].
  cbn [local_family].
  destruct (negb (peer r5 =? AF_NETLINK)); [apply runs_ret; split_and!; [done|done|by right]|].
  apply runs_bind, runs_syscall, runs_ret. unfold open_post. cbn [Z.eqb fd live br_socket_fd log].
  split_and!; [done|done|done|]. by rewrite open_fds_neutral.
Qed.

(** A function leaves the heap as it was, and the open descriptors too
    unless setting the socket up failed. *)
Definition balanced (m : io Z) : Prop := forall w,
  runs m w (fun _ w' => live w' = live w /\ br_socket_fd w' = br_socket_fd w /\
    (open_fds (log w') = open_fds (log w) \/
     exists w0, open_fds (log w0) = open_fds (log w) /\ setup_leak w0 w')).

Lemma filter_fresh (x : Z) fds : x ∉ fds -> filter (fun y => y <> x) (x :: fds) = fds.
Proof.
  intros Hx. rewrite filter_cons_False by (intros H; by apply H).
  induction fds as [|y fds IH]; [done|]. apply not_elem_of_cons in Hx as [Hne Hx].
  rewrite filter_cons_True by (intros ->; done). by rewrite IH.
Qed.

Lemma session_balanced (body : nl_handler -> io Z) :
  errno_set -> fresh_fds -> (forall nlh, closes nlh 0 (body nlh)) ->
  balanced ('(nlh, err) ← netlink_open NETLINK_ROUTE;
            if negb (err =? 0) then mret err else body nlh).
Proof.
  intros He Hf Hbody w. apply runs_bind. eapply runs_mono; [by apply netlink_open_runs|].
  intros [nlh err] w1 (Hl & Hbr & Hcase). destruct (err =? 0); cbn [negb].
  - destruct Hcase as [Hni Ho]. eapply runs_mono; [apply Hbody|].
    intros _ w' (Hl' & Ho' & Hbr'). split_and!; [lia|by rewrite Hbr'|left].
    by rewrite Ho', Ho, filter_fresh.
  - apply runs_ret. split_and!; [done|done|]. destruct Hcase as [?|?]; [by left|right]. by exists w.
Qed.

(** ** The messages sent *)

(** Type, flags, sequence number and port of a request. *)
Definition hdr_rest (type flags : Z) : bytes := le_bytes 2 type ++ le_bytes 2 flags ++ replicate 8 0.

Lemma set_request_holds m body flags type :
  holds m (replicate 12 0) body -> holds (set_request flags type m) (hdr_rest type flags) body /\
  cap (set_request flags type m) = cap m.
Proof.
  intros Hh. unfold set_request.
  change (replicate 12 0) with (replicate 2 0 ++ replicate 2 0 ++ replicate 8 0) in Hh.
  destruct (poke_rest m (replicate 2 0) (replicate 2 0) (replicate 8 0) body 2 flags 6 Hh) as [H1 Hc1];
    [done..|].
  destruct (poke_rest _ [] (replicate 2 0) (le_bytes 2 flags ++ replicate 8 0) body 2 type 4 H1) as [H2 Hc2];
    [done..|]. by rewrite Hc2, Hc1.
Qed.

Lemma get_le_body m rest pre mid post n off :
  holds m rest (pre ++ mid ++ post) -> length mid = n -> off = 16 + zlen pre ->
  get_le off n (nlmsghdr m) = le_value mid.
Proof.
  intros [Hr Ha Hc Hb] Hn ->. unfold get_le. rewrite Hb. set (L := le_bytes 4 _).
  replace (L ++ rest ++ (pre ++ mid ++ post) ++ replicate (Z.to_nat (cap m - 16 - zlen (pre ++ mid ++ post))) 0)
    with ((L ++ rest ++ pre) ++ mid ++ (post ++ replicate (Z.to_nat (cap m - 16 - zlen (pre ++ mid ++ post))) 0))
    by (by rewrite <- !app_assoc).
  rewrite drop_app_length', take_app_length' by (try done; unfold L, zlen in *; rewrite !length_app, le_bytes_length; lia).
  done.
Qed.

(** [struct ifinfomsg] and [struct ifaddrmsg]. *)
Definition ifinfo (family index flags change : Z) : bytes :=
  le_bytes 1 family ++ replicate 3 0 ++ le_bytes 4 index ++ le_bytes 4 flags ++ le_bytes 4 change.

Definition ifaddr (family prefix scope index : Z) : bytes :=
  le_bytes 1 family ++ le_bytes 1 prefix ++ [0] ++ le_bytes 1 scope ++ le_bytes 4 index.

(** A fresh request with room for its fixed part. *)
Lemma request_reserve m flags type len :
  holds m (replicate 12 0) [] -> cap m = 8208 -> 0 <= len <= 16 -> len mod 4 = 0 ->
  exists m', nlmsg_reserve (set_request flags type m) len = (m', Some 16) /\ cap m' = 8208 /\
    holds m' (hdr_rest type flags) (replicate (Z.to_nat len) 0).
Proof.
  intros Hh Hc Hlen Hm. destruct (set_request_holds m [] flags type Hh) as [H1 Hc1].
  destruct (nlmsg_reserve_fits _ _ _ len H1) as (m' & E & Hc' & H2).
  - lia.
  - rewrite align_id by lia. change (zlen (@nil Z)) with 0. lia.
  - exists m'. rewrite align_id in H2 by lia. split_and!; [done|lia|done].
Qed.

(** The first fields of the link messages. *)
Lemma set_ifi_holds m rest index :
  holds m rest (replicate 16 0) ->
  holds (set_ifi_index 16 index (set_ifi_family 16 AF_UNSPEC m)) rest (ifinfo AF_UNSPEC index 0 0) /\
  cap (set_ifi_index 16 index (set_ifi_family 16 AF_UNSPEC m)) = cap m.
Proof.
  intros Hh. unfold set_ifi_index, set_ifi_family, ifinfo.
  destruct (poke_body m rest [] [0] (replicate 15 0) 1 AF_UNSPEC 16 Hh) as [H1 Hc1]; [done..|].
  destruct (poke_body (poke 16 1 AF_UNSPEC m) rest (le_bytes 1 AF_UNSPEC ++ replicate 3 0)
    (replicate 4 0) (replicate 8 0) 4 index (16 + 4) H1) as [H2 Hc2]; [done..|].
  rewrite Hc2, Hc1. split; [|done]. rewrite <- app_assoc in H2. exact H2.
Qed.

Lemma set_flag_request_spec m index flag :
  holds m (replicate 12 0) [] -> cap m = 8208 ->
  exists m', set_flag_request m index flag = Some m' /\
    holds m' (hdr_rest RTM_NEWLINK 5) (ifinfo AF_UNSPEC index flag IFF_UP).
Proof.
  intros Hh Hc. unfold set_flag_request.
  destruct (request_reserve m (Z.lor NLM_F_REQUEST NLM_F_ACK) RTM_NEWLINK sizeof_ifinfomsg Hh Hc)
    as (m1 & -> & Hc1 & H1); [done..|]. eexists. split; [reflexivity|].
  destruct (set_ifi_holds m1 _ index H1) as [H2 _].
  set (m2 := set_ifi_index _ _ _) in *. unfold ifinfo in H2.
  set (pre := le_bytes 1 AF_UNSPEC ++ replicate 3 0 ++ le_bytes 4 index).
  assert (holds m2 (hdr_rest RTM_NEWLINK 5) ((pre ++ le_bytes 4 0) ++ le_bytes 4 0 ++ [])) as H2'
    by (unfold pre; rewrite <- !app_assoc; exact H2).
  unfold or_ifi_change. rewrite (get_le_body m2 _ (pre ++ le_bytes 4 0) (le_bytes 4 0) [] 4 (16 + 12) H2');
    [|done|done].
  destruct (poke_body m2 _ (pre ++ le_bytes 4 0) (le_bytes 4 0) [] 4 (Z.lor (le_value (le_bytes 4 0)) IFF_UP) (16 + 12) H2') as [H3 _];
    [done..|]. set (m3 := poke (16 + 12) 4 _ m2) in *.
  change (Z.lor (le_value (le_bytes 4 0)) IFF_UP) with IFF_UP in H3. rewrite <- app_assoc in H3.
  unfold or_ifi_flags. rewrite (get_le_body m3 _ pre (le_bytes 4 0) (le_bytes 4 IFF_UP ++ []) 4 (16 + 8) H3);
    [|done|done].
  destruct (poke_body m3 _ pre (le_bytes 4 0) (le_bytes 4 IFF_UP ++ []) 4 (Z.lor (le_value (le_bytes 4 0)) flag) (16 + 8) H3) as [H4 _];
    [done..|]. change (Z.lor (le_value (le_bytes 4 0)) flag) with flag in *.
  unfold ifinfo. unfold pre in H4. rewrite <- !app_assoc in H4. exact H4.
Qed.

Lemma delete_request_spec m ifindex :
  holds m (replicate 12 0) [] -> cap m = 8208 ->
  exists m', delete_request m ifindex = Some m' /\
    holds m' (hdr_rest RTM_DELLINK 5) (ifinfo AF_UNSPEC ifindex 0 0).
Proof.
  intros Hh Hc. unfold delete_request.
  destruct (request_reserve m (Z.lor NLM_F_ACK NLM_F_REQUEST) RTM_DELLINK sizeof_ifinfomsg Hh Hc)
    as (m1 & -> & Hc1 & H1); [done..|]. eexists. split; [reflexivity|].
  apply (set_ifi_holds m1 _ ifindex H1).
Qed.

(** A string attribute of an interface name. *)
Definition name_attr (name : bytes) : attr := Leaf IFLA_IFNAME (cstr name ++ [0]).

Lemma name_attr_small name : strlen name < 4096 -> attr_small (name_attr name).
Proof.
  unfold strlen. intros Hn. cbn [attr_small name_attr]. rewrite zlen_app.
  change (zlen [0]) with 1. lia.
Qed.

(** Side conditions [attr_small] of a list of attributes. *)
Ltac small :=
  repeat match goal with
         | |- attr_small (name_attr _) => apply name_attr_small; lia
         | |- _ /\ _ => split
         | |- True => exact I
         | |- _ <= _ => vm_compute; discriminate
         | |- _ < _ => vm_compute; reflexivity
         | _ => progress cbn [attr_small fold_right]
         end.

Lemma enc_name_length name : strlen name < 4096 -> zlen (enc (name_attr name)) <= strlen name + 8.
Proof.
  intros Hn. pose proof (name_attr_small name Hn) as Hs. unfold strlen in *. cbn [enc name_attr].
  pose proof (zlen_nonneg (cstr name)).
  rewrite enc_attr_length by exact Hs. rewrite zlen_app. change (zlen [0]) with 1.
  destruct (align_bounds (4 + (zlen (cstr name) + 1))); lia.
Qed.

Lemma enc_nest_length t kids : zlen (enc (Nest t kids)) = 4 + zlen (concat (map enc kids)).
Proof. cbn [enc]. rewrite !zlen_app, !zlen_le. lia. Qed.

Lemma enc_list_cons a attrs :
  zlen (concat (map enc (a :: attrs))) = zlen (enc a) + zlen (concat (map enc attrs)).
Proof. cbn [map concat]. apply zlen_app. Qed.

(** The part of a request behind the fixed structure, as a run of [build]. *)
Definition attrs_request (err : Z) (attrs : list attr) (m : nlmsg) : option (Z + nlmsg) :=
  let '(m', r) := build_list build attrs m in
  Some (if r =? 0 then inr m' else inl err).

Lemma attrs_request_fits err attrs m rest body :
  holds m rest body -> fold_right (fun a P => attr_small a /\ P) True attrs ->
  16 + zlen body + zlen (concat (map enc attrs)) <= cap m ->
  exists m', attrs_request err attrs m = Some (inr m') /\
    holds m' rest (body ++ concat (map enc attrs)).
Proof.
  intros Hh Hs Hfit. unfold attrs_request.
  destruct (build_list_ok attrs m rest body) as [Hok _]; [|done|done|].
  { apply List.Forall_forall. intros. apply build_spec. }
  destruct (Hok Hfit) as (m' & -> & _ & Hh'). exists m'. by split.
Qed.

Definition move_attrs (pid : Z) (ifname : bytes) : list attr :=
  [Leaf IFLA_NET_NS_PID (le_bytes 4 pid); name_attr ifname].

Lemma move_request_build m ifindex pid ifname :
  move_request m ifindex pid ifname =
  match nlmsg_reserve (set_request 5 RTM_NEWLINK m) sizeof_ifinfomsg with
  | (m1, Some ifi) =>
      attrs_request (- ENOMEM) (move_attrs pid ifname)
        (set_ifi_index ifi ifindex (set_ifi_family ifi AF_UNSPEC m1))
  | (_, None) => None
  end.
Proof.
  unfold move_request, attrs_request. change (Z.lor NLM_F_REQUEST NLM_F_ACK) with 5.
  destruct (nlmsg_reserve _ _) as [m1 [ifi|]]; [|done].
  cbn [move_attrs build_list build name_attr].
  change nla_put_string with (fun m t s => nla_put m t (cstr s ++ [0])).
  change nla_put_u32 with (fun m t v => nla_put m t (le_bytes 4 v)). cbn beta.
  destruct (nla_put _ IFLA_NET_NS_PID _) as [m2 r]. destruct (r =? 0) eqn:Er; cbn [negb].
  - destruct (nla_put m2 _ _) as [m3 r3]. by destruct (r3 =? 0) eqn:E3; cbn [negb]; rewrite ?E3.
  - by rewrite Er.
Qed.

Lemma move_request_spec m ifindex pid ifname :
  holds m (replicate 12 0) [] -> cap m = 8208 -> strlen ifname < 4096 ->
  exists m', move_request m ifindex pid ifname = Some (inr m') /\
    holds m' (hdr_rest RTM_NEWLINK 5)
      (ifinfo AF_UNSPEC ifindex 0 0 ++ concat (map enc (move_attrs pid ifname))).
Proof.
  intros Hh Hc Hn. rewrite move_request_build.
  destruct (request_reserve m 5 RTM_NEWLINK sizeof_ifinfomsg Hh Hc) as (m1 & -> & Hc1 & H1); [done..|].
  destruct (set_ifi_holds m1 _ ifindex H1) as [H2 Hc2]. pose proof (enc_name_length ifname Hn).
  apply attrs_request_fits; [done| |].
  - unfold move_attrs. small.
  - rewrite Hc2, Hc1. unfold move_attrs. rewrite !enc_list_cons.
    change (zlen (enc (Leaf _ (le_bytes 4 _)))) with 8. change (zlen (concat (map enc []))) with 0.
    change (zlen (ifinfo AF_UNSPEC ifindex 0 0)) with 16. lia.
Qed.

(** The attributes of a veth pair: the peer starts with an empty
    [struct ifinfomsg]. *)
Definition veth_attrs (name1 name2 : bytes) : list attr :=
  [Nest IFLA_LINKINFO
     [Leaf IFLA_INFO_KIND (cstr (str "veth"%string) ++ [0]);
      Nest IFLA_INFO_DATA [Nest VETH_INFO_PEER [Room sizeof_ifinfomsg; name_attr name2]]];
   name_attr name1].

Lemma veth_request_build m name1 name2 :
  veth_request m name1 name2 =
  match nlmsg_reserve (set_request 1541 RTM_NEWLINK m) sizeof_ifinfomsg with
  | (m1, Some ifi) =>
      attrs_request (- EINVAL) (veth_attrs name1 name2) (set_ifi_family ifi AF_UNSPEC m1)
  | (_, None) => None
  end.
Proof.
  unfold veth_request, attrs_request. change (Z.lor (Z.lor _ _) _) with 1541.
  destruct (nlmsg_reserve _ _) as [m1 [ifi|]]; [|done].
  cbn [veth_attrs build_list build name_attr].
  change nla_put_string with (fun m t s => nla_put m t (cstr s ++ [0])). cbn beta.
  destruct (nla_begin_nested _ IFLA_LINKINFO) as [m2 [n1|]]; [|done].
  destruct (nla_put m2 _ _) as [m3 r3]. destruct (r3 =? 0) eqn:E3; cbn [negb]; rewrite ?E3; [|done].
  destruct (nla_begin_nested m3 _) as [m4 [n2|]]; [|done].
  destruct (nla_begin_nested m4 _) as [m5 [n3|]]; [|done].
  destruct (nlmsg_reserve m5 _) as [m6 [room|]]; [|done]. cbn [Z.eqb].
  destruct (nla_put m6 _ _) as [m7 r7]. destruct (r7 =? 0) eqn:E7; cbn [negb Z.eqb]; rewrite ?E7; [|done].
  destruct (nla_put _ _ (cstr name1 ++ [0])) as [m8 r8].
  by destruct (r8 =? 0) eqn:E8; cbn [negb]; rewrite ?E8.
Qed.

Lemma veth_request_spec m name1 name2 :
  holds m (replicate 12 0) [] -> cap m = 8208 -> strlen name1 < 1024 -> strlen name2 < 1024 ->
  exists m', veth_request m name1 name2 = Some (inr m') /\
    holds m' (hdr_rest RTM_NEWLINK 1541)
      (ifinfo AF_UNSPEC 0 0 0 ++ concat (map enc (veth_attrs name1 name2))).
Proof.
  intros Hh Hc Hn1 Hn2. rewrite veth_request_build.
  destruct (request_reserve m 1541 RTM_NEWLINK sizeof_ifinfomsg Hh Hc) as (m1 & -> & Hc1 & H1); [done..|].
  destruct (poke_body m1 _ [] [0] (replicate 15 0) 1 AF_UNSPEC 16 H1) as [H2 Hc2]; [done..|].
  pose proof (enc_name_length name1 ltac:(lia)). pose proof (enc_name_length name2 ltac:(lia)).
  apply attrs_request_fits; [exact H2| |].
  - unfold veth_attrs. small.
  - unfold set_ifi_family. rewrite Hc2, Hc1. unfold veth_attrs.
    rewrite !enc_list_cons, enc_nest_length, !enc_list_cons, enc_nest_length, enc_list_cons,
      enc_nest_length, !enc_list_cons.
    change (zlen (enc (Leaf IFLA_INFO_KIND _))) with 12. change (zlen (enc (Room _))) with 16.
    change (zlen (concat (map enc []))) with 0.
    change (zlen (ifinfo AF_UNSPEC 0 0 0)) with 16. lia.
Qed.

Definition addr_attrs (addr bcast : bytes) : list attr :=
  [Leaf IFA_LOCAL addr; Leaf IFA_ADDRESS addr; Leaf IFA_BROADCAST bcast].

Lemma addr_request_build m family ifindex prefix addr bcast :
  addr_request m family ifindex prefix addr bcast =
  match nlmsg_reserve (set_request 1541 RTM_NEWADDR m) sizeof_ifaddrmsg with
  | (m1, Some ifa) =>
      attrs_request (- EINVAL) (addr_attrs addr bcast)
        (poke (ifa + 3) 1 0 (poke ifa 1 family (poke (ifa + 4) 4 ifindex (poke (ifa + 1) 1 prefix m1))))
  | (_, None) => None
  end.
Proof.
  unfold addr_request, attrs_request. change (Z.lor (Z.lor _ _) _) with 1541.
  destruct (nlmsg_reserve _ _) as [m1 [ifa|]]; [|done].
  cbn [addr_attrs build_list build]. change nla_put_buffer with nla_put.
  destruct (nla_put _ IFA_LOCAL _) as [m2 r2]. destruct (r2 =? 0) eqn:E2; cbn [negb]; rewrite ?E2; [|done].
  destruct (nla_put _ IFA_ADDRESS _) as [m3 r3]. destruct (r3 =? 0) eqn:E3; cbn [negb]; rewrite ?E3; [|done].
  destruct (nla_put _ IFA_BROADCAST _) as [m4 r4]. by destruct (r4 =? 0) eqn:E4; cbn [negb]; rewrite ?E4.
Qed.

Lemma addr_request_spec m family ifindex prefix addr bcast :
  holds m (replicate 12 0) [] -> cap m = 8208 -> zlen addr <= 16 -> zlen bcast <= 16 ->
  exists m', addr_request m family ifindex prefix addr bcast = Some (inr m') /\
    holds m' (hdr_rest RTM_NEWADDR 1541)
      (ifaddr family prefix 0 ifindex ++ concat (map enc (addr_attrs addr bcast))).
Proof.
  intros Hh Hc Ha Hb. rewrite addr_request_build.
  destruct (request_reserve m 1541 RTM_NEWADDR sizeof_ifaddrmsg Hh Hc) as (m1 & -> & Hc1 & H1); [done..|].
  destruct (poke_body m1 _ [0] [0] (replicate 6 0) 1 prefix (16 + 1) H1) as [H2 Hc2]; [done..|].
  set (p := le_bytes 1 prefix) in *.
  destruct (poke_body _ _ ([0] ++ p ++ [0; 0]) (replicate 4 0) [] 4 ifindex (16 + 4) H2) as [H3 Hc3]; [done..|].
  set (ix := le_bytes 4 ifindex) in *.
  destruct (poke_body _ _ [] [0] (p ++ [0; 0] ++ ix ++ []) 1 family 16 H3) as [H4 Hc4]; [done..|].
  set (fa := le_bytes 1 family) in *.
  destruct (poke_body _ _ (fa ++ p ++ [0]) [0] (ix ++ []) 1 0 (16 + 3) H4) as [H5 Hc5]; [done..|].
  rewrite app_nil_r, <- !app_assoc in H5. change (fa ++ p ++ [0] ++ le_bytes 1 0 ++ ix)
    with (ifaddr family prefix 0 ifindex) in H5.
  assert (forall t d, zlen d <= 16 -> zlen (enc (Leaf t d)) <= 24) as Hlen.
  { intros t d Hd. cbn [enc]. pose proof (zlen_nonneg d). rewrite enc_attr_length by lia.
    destruct (align_bounds (4 + zlen d)); lia. }
  apply attrs_request_fits; [done| |].
  - unfold addr_attrs. cbn [fold_right attr_small]. lia.
  - rewrite Hc5, Hc4, Hc3, Hc2, Hc1. unfold addr_attrs. rewrite !enc_list_cons.
    change (zlen (concat (map enc []))) with 0. change (zlen (ifaddr family prefix 0 ifindex)) with 8.
    pose proof (Hlen IFA_LOCAL addr Ha). pose proof (Hlen IFA_ADDRESS addr Ha).
    pose proof (Hlen IFA_BROADCAST bcast Hb). lia.
Qed.

(** ** The properties *)

(** A message as it goes over the socket. *)
Definition wire (rest body : bytes) : bytes := le_bytes 4 (16 + zlen body) ++ rest ++ body.

Lemma holds_wire m rest body :
  holds m rest body -> take (Z.to_nat (hdr_len m)) (nlmsghdr m) = wire rest body.
Proof.
  intros Hh. rewrite (holds_len m rest body Hh). destruct Hh as [Hr Ha Hc Hb]. rewrite Hb.
  unfold wire. rewrite !app_assoc. apply take_app_length'. rewrite !length_app, le_bytes_length.
  unfold zlen in *. lia.
Qed.

Lemma good_message m : nlmsg_alloc NLMSG_GOOD_SIZE = Some m ->
  holds m (replicate 12 0) [] /\ cap m = 8208.
Proof. intros E. by apply nlmsg_alloc_holds in E. Qed.

Lemma neutral_balanced c (k : reply -> io Z) :
  (forall r, neutral (c, r)) -> (forall r, balanced (k r)) -> balanced (r ← syscall c; k r).
Proof.
  intros Hc Hk w. apply runs_bind, runs_syscall. eapply runs_mono; [apply Hk|].
  intros _ w' (Hl & Hbr & Ho). cbn [log live br_socket_fd] in *. rewrite open_fds_neutral in Ho by apply Hc.
  by split_and!.
Qed.

Lemma ret_balanced z : balanced (mret z).
Proof. intros w. apply runs_ret. split_and!; [done|done|by left]. Qed.

Lemma attrs_request_Some err attrs m : attrs_request err attrs m <> None.
Proof. unfold attrs_request. by destruct (build_list build attrs m). Qed.

(** The part of the sessions after the allocation of the two messages. *)
Lemma messages_close nlh size (k : option nlmsg -> nlmsg -> option nlmsg -> nlmsg -> io Z) :
  (forall m a, nlmsg_alloc size = Some m -> closes nlh 4 (k (Some m) m (Some a) a)) ->
  closes nlh 0 (
    nlmsg ← io_nlmsg_alloc size;
    match nlmsg with
    | None => out nlh None None (- ENOMEM)
    | Some m =>
        answer ← io_nlmsg_alloc_reserve size;
        match answer with
        | None => out nlh nlmsg None (- ENOMEM)
        | Some a => k nlmsg m answer a
        end
    end).
Proof.
  intros Hk. apply alloc_closes. destruct (nlmsg_alloc size) as [m|] eqn:Em; [|apply out_closes].
  apply alloc_reserve_closes. destruct (nlmsg_alloc_reserve size) as [a|]; [|apply (out_closes nlh (Some m) None)].
  by apply Hk.
Qed.

Lemma fresh_reserve m flags type len :
  nlmsg_alloc NLMSG_GOOD_SIZE = Some m -> 0 <= len <= 16 -> len mod 4 = 0 ->
  exists m', nlmsg_reserve (set_request flags type m) len = (m', Some 16).
Proof.
  intros Em Hl Hm. destruct (good_message m Em) as [Hh Hc].
  destruct (request_reserve m flags type len Hh Hc Hl Hm) as (m' & E & _). eauto.
Qed.

Lemma exchange_closes nlh m a x y :
  bounded_eintr eintr -> errno_set ->
  closes nlh (holding x + holding y) (err ← netlink_transaction nlh m a; out nlh x y err).
Proof. intros Hb He. apply transaction_closes; [done|done|]. intros err. apply out_closes. Qed.

Section Balanced.
Hypothesis Hb : bounded_eintr eintr.
Hypothesis He : errno_set.
Hypothesis Hf : fresh_fds.

Lemma netdev_set_flag_balanced name flag : balanced (netdev_set_flag name flag).
Proof.
  apply session_balanced; [done..|]. intros nlh. destruct (bad_name name); [apply out_closes|].
  apply messages_close.
  intros m a Em w. apply runs_bind, runs_syscall. set (r := answer _ _).
  set (w1 := World _ _ _).
  assert (forall k, closes nlh 4 k -> runs k w1 (fun _ w' => live w' = live w - 4 /\
    open_fds (log w') = filter (fun x => x <> fd nlh) (open_fds (log w)) /\
    br_socket_fd w' = br_socket_fd w)) as Hw1.
  { intros k Hk. eapply runs_mono; [apply Hk|]. intros _ w' (Hl & Ho & Hbr).
    unfold w1 in *. cbn [log live br_socket_fd] in *. rewrite open_fds_neutral in Ho by done.
    by split_and!. }
  destruct (rc r =? 0); apply Hw1; [apply (out_closes nlh (Some m) (Some a))|].
  destruct (good_message m Em) as [Hh Hc].
  destruct (set_flag_request_spec m (rc r) flag Hh Hc) as (m' & -> & _).
  by apply (exchange_closes nlh m' a (Some m) (Some a)).
Qed.

Lemma netdev_delete_by_name_balanced name : balanced (netdev_delete_by_name name).
Proof.
  apply neutral_balanced; [done|]. intros r. destruct (rc r =? 0); [apply ret_balanced|].
  apply session_balanced; [done..|]. intros nlh.
  apply messages_close. intros m a Em. destruct (good_message m Em) as [Hh Hc].
  destruct (delete_request_spec m (rc r) Hh Hc) as (m' & -> & _).
  by apply (exchange_closes nlh m' a (Some m) (Some a)).
Qed.

Lemma netdev_move_to_namespace_balanced ifname pid : balanced (netdev_move_to_namespace ifname pid).
Proof.
  destruct ifname as [ifname|]; [|apply ret_balanced].
  apply neutral_balanced; [done|]. intros r. destruct (rc r =? 0); [apply ret_balanced|].
  apply session_balanced; [done..|]. intros nlh. apply alloc_closes.
  destruct (nlmsg_alloc NLMSG_GOOD_SIZE) as [m|] eqn:Em; [|apply out_closes].
  rewrite move_request_build. destruct (fresh_reserve m 5 RTM_NEWLINK sizeof_ifinfomsg Em) as (m1 & ->); [done..|].
  destruct (attrs_request _ _ _) as [[err|m']|] eqn:E; [| |by apply attrs_request_Some in E].
  - apply (out_closes nlh (Some m) None).
  - by apply (exchange_closes nlh m' m' (Some m) None).
Qed.

Lemma network_veth_create_balanced name1 name2 : balanced (network_veth_create name1 name2).
Proof.
  apply session_balanced; [done..|]. intros nlh.
  destruct (bad_name name1); [apply out_closes|]. destruct (bad_name name2); [apply out_closes|].
  apply messages_close. intros m a Em. rewrite veth_request_build.
  destruct (fresh_reserve m 1541 RTM_NEWLINK sizeof_ifinfomsg Em) as (m1 & ->); [done..|].
  destruct (attrs_request _ _ _) as [[err|m']|] eqn:E; [| |by apply attrs_request_Some in E].
  - apply (out_closes nlh (Some m) (Some a)).
  - by apply (exchange_closes nlh m' a (Some m) (Some a)).
Qed.

Lemma ip_addr_add_balanced family ifindex addr bcast acast prefix :
  balanced (ip_addr_add family ifindex addr bcast acast prefix).
Proof.
  apply session_balanced; [done..|]. intros nlh. apply messages_close. intros m a Em.
  rewrite addr_request_build.
  destruct (fresh_reserve m 1541 RTM_NEWADDR sizeof_ifaddrmsg Em) as (m1 & ->); [done..|].
  destruct (attrs_request _ _ _) as [[err|m']|] eqn:E; [| |by apply attrs_request_Some in E].
  - apply (out_closes nlh (Some m) (Some a)).
  - destruct (_ && _); [apply (out_closes nlh (Some m) (Some a))|].
    by apply (exchange_closes nlh m' a (Some m) (Some a)).
Qed.

End Balanced.

(** C34: the requests give back what they take.  On every path of
    [netdev_set_flag], [netdev_delete_by_name], [netdev_move_to_namespace],
    [network_veth_create] and [ipv4_addr_add], whatever the kernel replies
    and whether allocations succeed, the function ends, has freed every
    message it allocated, and has closed its socket; the one exception is a
    set-up call on the new socket that fails (see
    [netlink_open_leaks_descriptor]). *)
Theorem netlink_requests_balanced name name2 flag pid addr bcast prefix :
  bounded_eintr eintr -> errno_set -> fresh_fds ->
  balanced (netdev_set_flag name flag) /\
  balanced (netdev_delete_by_name name) /\
  balanced (netdev_move_to_namespace (Some name) pid) /\
  balanced (network_veth_create name name2) /\
  balanced (ipv4_addr_add name addr bcast prefix).
Proof.
  intros Hb He Hf. split_and!.
  - by apply netdev_set_flag_balanced.
  - by apply netdev_delete_by_name_balanced.
  - by apply netdev_move_to_namespace_balanced.
  - by apply network_veth_create_balanced.
  - apply neutral_balanced; [done|]. intros r. destruct (rc r =? 0); [apply ret_balanced|].
    by apply ip_addr_add_balanced.
Qed.

(** The exchange at the end of a session. *)
Definition exchanged (nlh : nl_handler) (h : history) (rest body : bytes) (a : nlmsg) (err : Z) (h' : history) : Prop :=
  exists sent rs closed,
    h' = h ++ (Sendmsg (fd nlh) (wire rest body), sent) ::
         map (fun r => (Recvmsg (fd nlh) (hdr_len a), r)) rs ++ [(Close (fd nlh), closed)] /\
    (0 <= rc sent -> rs <> []) /\
    err = verdict a sent (List.last rs sent).

Lemma exchange_runs nlh m rest body a x y w :
  bounded_eintr eintr -> errno_set -> holds m rest body ->
  runs (err ← netlink_transaction nlh m a; out nlh x y err) w
    (fun err w' => exchanged nlh (log w) rest body a err (log w')).
Proof.
  intros Hb He Hh. apply runs_bind. eapply runs_mono; [by apply netlink_transaction_runs|].
  intros err w1 (sent & rs & El & Hrs & -> & _).
  unfold out, netlink_close. apply runs_bind, runs_bind, runs_syscall, runs_ret.
  set (closed := answer _ _). set (w2 := World _ _ _).
  assert (forall x w, runs (nlmsg_free x) w (fun _ w' => log w' = log w)) as Hfree.
  { intros [z|] w'; [by apply runs_heap|by apply runs_ret]. }
  apply runs_bind. eapply runs_mono; [apply Hfree|]. intros [] w3 E3.
  apply runs_bind. eapply runs_mono; [apply Hfree|]. intros [] w4 E4.
  apply runs_ret. exists sent, rs, closed. split_and!; [|done|done].
  rewrite E4, E3. unfold w2. cbn [log]. rewrite El. unfold transaction_log.
  rewrite (holds_wire m rest body Hh). by rewrite <- app_assoc.
Qed.

(** The buffer for answers. *)
Definition answer_buffer (a : nlmsg) : Prop := nlmsg_alloc_reserve NLMSG_GOOD_SIZE = Some a.

Lemma buffers : malloc_total al ->
  exists m a, nlmsg_alloc NLMSG_GOOD_SIZE = Some m /\ answer_buffer a /\ hdr_len a = 8208.
Proof.
  intros Hal. unfold answer_buffer, nlmsg_alloc_reserve, nlmsg_alloc.
  rewrite !Hal by (vm_compute; intuition discriminate). do 2 eexists. split; [reflexivity|].
  split; [reflexivity|]. vm_compute. reflexivity.
Qed.

Lemma session_runs {body : nl_handler -> io Z} {w nlh w1} Q :
  netlink_open NETLINK_ROUTE w = Some ((nlh, 0), w1) -> runs (body nlh) w1 Q ->
  runs ('(nlh, err) ← netlink_open NETLINK_ROUTE; if negb (err =? 0) then mret err else body nlh) w Q.
Proof.
  intros Eo Hbody. apply runs_bind. exists (nlh, 0), w1. split; [exact Eo|]. exact Hbody.
Qed.

Lemma messages_run nlh m a (k : option nlmsg -> nlmsg -> option nlmsg -> nlmsg -> io Z) w Q :
  nlmsg_alloc NLMSG_GOOD_SIZE = Some m -> answer_buffer a ->
  (forall w1, log w1 = log w -> runs (k (Some m) m (Some a) a) w1 Q) ->
  runs (nlmsg ← io_nlmsg_alloc NLMSG_GOOD_SIZE;
        match nlmsg with
        | None => out nlh None None (- ENOMEM)
        | Some m =>
            answer ← io_nlmsg_alloc_reserve NLMSG_GOOD_SIZE;
            match answer with
            | None => out nlh nlmsg None (- ENOMEM)
            | Some a => k nlmsg m answer a
            end
        end) w Q.
Proof.
  intros Em Ea Hk. apply runs_bind. unfold io_nlmsg_alloc. rewrite Em.
  apply runs_bind, runs_heap, runs_ret. apply runs_bind. unfold io_nlmsg_alloc_reserve.
  unfold answer_buffer in Ea. rewrite Ea. apply runs_bind, runs_heap, runs_ret. by apply Hk.
Qed.

(** [network_veth_create] with acceptable names sends exactly one request:
    RTM_NEWLINK with NLM_F_REQUEST, CREATE, EXCL and ACK, an empty
    [ifinfomsg], link info of kind veth whose peer carries the second name,
    then the first name, every nested length right; it then waits for the
    answer, closes the socket, and returns what the kernel answered. *)
Theorem network_veth_create_sends name1 name2 w nlh w1 :
  malloc_total al -> bounded_eintr eintr -> errno_set ->
  netlink_open NETLINK_ROUTE w = Some ((nlh, 0), w1) ->
  bad_name name1 = false -> bad_name name2 = false ->
  exists a, answer_buffer a /\ hdr_len a = 8208 /\
  runs (network_veth_create name1 name2) w (fun err w' =>
    exchanged nlh (log w1) (hdr_rest RTM_NEWLINK 1541)
      (ifinfo AF_UNSPEC 0 0 0 ++ concat (map enc (veth_attrs name1 name2))) a err (log w')).
Proof.
  intros Hal Hb He Eo Hn1 Hn2. destruct (buffers Hal) as (m & a & Em & Ea & Hla).
  exists a. split_and!; [done|done|]. apply (session_runs _ Eo). rewrite Hn1, Hn2.
  apply (messages_run nlh m a); [done|done|]. intros w2 El2.
  destruct (good_message m Em) as [Hh Hc].
  assert (forall n, bad_name n = false -> strlen n < 1024) as Hshort.
  { intros n Hn. unfold bad_name, IFNAMSIZ in Hn. rewrite Z.geb_leb in Hn.
    apply orb_false_iff in Hn as [_ Hn]. apply Z.leb_gt in Hn. lia. }
  destruct (veth_request_spec m name1 name2 Hh Hc) as (m' & -> & Hh'); [by apply Hshort..|].
  eapply runs_mono; [by apply exchange_runs|]. intros err w'. cbn beta. by rewrite El2.
Qed.

(** [ipv4_addr_add] for an interface the kernel knows sends exactly one
    request: RTM_NEWADDR with ACK, REQUEST, CREATE and EXCL, family, prefix
    length and interface index, then the address as IFA_LOCAL and IFA_ADDRESS
    and the broadcast address; it closes the socket and returns what the
    kernel answered. *)
Theorem ipv4_addr_add_sends name addr bcast prefix w r nlh w1 :
  malloc_total al -> bounded_eintr eintr -> errno_set ->
  zlen addr = 4 -> zlen bcast = 4 ->
  answer (log w) (If_nametoindex (cstr name)) = r -> rc r <> 0 ->
  netlink_open NETLINK_ROUTE
    (World (log w ++ [(If_nametoindex (cstr name), r)]) (live w) (br_socket_fd w)) = Some ((nlh, 0), w1) ->
  exists a, answer_buffer a /\ hdr_len a = 8208 /\
  runs (ipv4_addr_add name addr bcast prefix) w (fun err w' =>
    exchanged nlh (log w1) (hdr_rest RTM_NEWADDR 1541)
      (ifaddr AF_INET prefix 0 (rc r) ++ concat (map enc (addr_attrs addr bcast))) a err (log w')).
Proof.
  intros Hal Hb He Ha Hbc Er Hrc Eo. destruct (buffers Hal) as (m & a & Em & Ea & Hla).
  exists a. split_and!; [done|done|]. unfold ipv4_addr_add. apply runs_bind, runs_syscall. rewrite Er.
  rewrite (proj2 (Z.eqb_neq (rc r) 0)) by done. apply (session_runs _ Eo).
  apply (messages_run nlh m a); [done|done|]. intros w2 El2.
  destruct (good_message m Em) as [Hh Hc]. change (AF_INET =? AF_INET) with true. cbn iota.
  rewrite (take_ge addr), (take_ge bcast) by (unfold zlen in *; lia).
  destruct (addr_request_spec m AF_INET (rc r) prefix addr bcast Hh Hc) as (m' & -> & Hh'); [lia..|].
  change (AF_INET =? AF_INET6) with false. cbn [andb].
  eapply runs_mono; [by apply exchange_runs|]. intros err w'. cbn beta. by rewrite El2.
Qed.

(** A truncated answer goes unnoticed.  [netlink_rcv] compares the number
    of bytes received with the length field of the header it has just
    received, and a datagram that had to be cut is longer than what was
    received: -EMSGSIZE is not returned, whatever the flags say, and the
    truncated bytes are used. *)
Theorem netlink_rcv_misses_truncation k nlh a w r :
  answer (log w) (Recvmsg (fd nlh) (hdr_len a)) = r ->
  4 <= rc r <= hdr_len a -> zlen (payload r) = rc r -> rc r < get_le 0 4 (payload r) ->
  runs (netlink_rcv (S k) nlh a) w (fun res _ =>
    res = (Nlmsg (splice 0 (payload r) (nlmsghdr a)) (cap a), rc r)).
Proof.
  intros Er Hp Hlen Htr. apply netlink_rcv_step. rewrite Er.
  unfold is_interrupted. rewrite (proj2 (Z.ltb_ge (rc r) 0)) by lia. cbn [andb].
  unfold rcv_result. rewrite (proj2 (Z.ltb_ge (rc r) 0)) by lia.
  rewrite take_ge by (unfold zlen in Hlen; lia).
  set (a' := Nlmsg _ _). assert (hdr_len a' = get_le 0 4 (payload r)) as ->.
  { unfold hdr_len, get_le, a'. cbn [nlmsghdr].
    change (splice 0 (payload r) (nlmsghdr a)) with
      (payload r ++ drop (length (payload r)) (nlmsghdr a)).
    change (Z.to_nat 0) with 0%nat. rewrite !drop_0, take_app_le by (unfold zlen in Hlen; lia). done. }
  rewrite (proj2 (Z.eqb_neq (rc r) (get_le 0 4 (payload r)))) by lia. by rewrite andb_false_r.
Qed.

End Programs.

(** ** Witnesses: a kernel that acknowledges every request *)

Definition ack : bytes := wire (hdr_rest NLMSG_ERROR 0) (replicate 20 0).

Definition ok (z : Z) : reply := Reply z 0 [] 0 0 0.

Definition sample_kernel : Kernel := fun h c =>
  match c with
  | Socket _ _ _ => ok (3 + fold_right Z.max 0 (open_fds h))
  | Getsockname _ => Reply 0 0 [] 12 AF_NETLINK 0
  | Sendmsg _ data => ok (zlen data)
  | Recvmsg _ _ => Reply 36 0 ack 0 0 12
  | If_nametoindex _ => ok 7
  | Time => ok 1000
  | _ => ok 0
  end.

Lemma sample_errno : @errno_set sample_kernel.
Proof.
  intros h c. assert (0 <= fold_right Z.max 0 (open_fds h)) by (induction (open_fds h); simpl; lia).
  destruct c; cbn; try lia. unfold zlen. lia.
Qed.

Lemma sample_eintr : @bounded_eintr sample_kernel 0.
Proof. intros h fd len rs _ _ [Hrc _]. cbn in Hrc. lia. Qed.

Lemma sample_fresh : @fresh_fds sample_kernel.
Proof.
  intros h d t p _ Hin. cbn in Hin. revert Hin.
  assert (forall l x, x ∈ l -> x <= fold_right Z.max 0 l) as Hmax.
  { induction l as [|y l IH]; intros x Hx; [by apply elem_of_nil in Hx|].
    apply elem_of_cons in Hx as [->|Hx]; simpl; [lia|]. pose proof (IH x Hx). lia. }
  intros Hin%Hmax. lia.
Qed.

Definition w0 : world := World [] 0 (-1).

Definition eth : bytes := str "e_i"%string.
Definition veth : bytes := str "v_i"%string.

Lemma netlink_requests_balanced_witness :
  @balanced (@netdev_set_flag sample_alloc sample_kernel 0 eth 1) /\
  @balanced (@netdev_delete_by_name sample_alloc sample_kernel 0 eth) /\
  @balanced (@netdev_move_to_namespace sample_alloc sample_kernel 0 (Some eth) 77) /\
  @balanced (@network_veth_create sample_alloc sample_kernel 0 eth veth) /\
  @balanced (@ipv4_addr_add sample_alloc sample_kernel 0 eth [172; 16; 0; 1] [172; 16; 0; 255] 24).
Proof.
  apply (@netlink_requests_balanced sample_alloc sample_kernel 0 eth veth 1 77
           [172; 16; 0; 1] [172; 16; 0; 255] 24).
  - exact sample_eintr.
  - exact sample_errno.
  - exact sample_fresh.
Defined.

Definition opened : world := match @netlink_open sample_kernel NETLINK_ROUTE w0 with Some (_, w) => w | None => w0 end.

Lemma network_veth_create_sends_witness :
  exists a, @answer_buffer sample_alloc a /\ hdr_len a = 8208 /\
  runs (@network_veth_create sample_alloc sample_kernel 0 eth veth) w0 (fun err w' =>
    exchanged (NlHandler 3 1000 AF_NETLINK) (log opened) (hdr_rest RTM_NEWLINK 1541)
      (ifinfo AF_UNSPEC 0 0 0 ++ concat (map enc (veth_attrs eth veth))) a err (log w')).
Proof.
  apply (@network_veth_create_sends sample_alloc sample_kernel 0 eth veth w0 (NlHandler 3 1000 AF_NETLINK) opened).
  - exact sample_alloc_total.
  - exact sample_eintr.
  - exact sample_errno.
  - reflexivity.
  - reflexivity.
  - reflexivity.
Defined.

Definition opened2 : world :=
  match @netlink_open sample_kernel NETLINK_ROUTE (World [(If_nametoindex eth, ok 7)] 0 (-1)) with
  | Some (_, w) => w | None => w0 end.

Lemma ipv4_addr_add_sends_witness :
  exists a, @answer_buffer sample_alloc a /\ hdr_len a = 8208 /\
  runs (@ipv4_addr_add sample_alloc sample_kernel 0 eth [172; 16; 0; 2] [172; 16; 0; 255] 24) w0 (fun err w' =>
    exchanged (NlHandler 3 1000 AF_NETLINK) (log opened2) (hdr_rest RTM_NEWADDR 1541)
      (ifaddr AF_INET 24 0 7 ++ concat (map enc (addr_attrs [172; 16; 0; 2] [172; 16; 0; 255]))) a err (log w')).
Proof.
  apply (@ipv4_addr_add_sends sample_alloc sample_kernel 0 eth [172; 16; 0; 2] [172; 16; 0; 255] 24 w0 (ok 7)
           (NlHandler 3 1000 AF_NETLINK) opened2).
  - exact sample_alloc_total.
  - exact sample_eintr.
  - exact sample_errno.
  - reflexivity.
  - reflexivity.
  - reflexivity.
  - discriminate.
  - reflexivity.
Defined.

(** A 100-byte message received into a 36-byte buffer. *)
Definition cut_reply : reply := Reply 36 0 (le_bytes 4 100 ++ replicate 32 0) MSG_TRUNC 0 12.
Definition small_buffer : nlmsg := poke 0 4 36 (Nlmsg (replicate 64 0) 64).

Definition cut_kernel : Kernel := fun h c =>
  match c with Recvmsg _ _ => cut_reply | _ => sample_kernel h c end.

Lemma netlink_rcv_misses_truncation_witness :
  runs (@netlink_rcv cut_kernel 1 (NlHandler 3 0 0) small_buffer) w0 (fun res _ =>
    res = (Nlmsg (splice 0 (payload cut_reply) (nlmsghdr small_buffer)) 64, 36)).
Proof.
  apply (@netlink_rcv_misses_truncation cut_kernel 0 (NlHandler 3 0 0) small_buffer w0 cut_reply).
  - reflexivity.
  - vm_compute. intuition discriminate.
  - reflexivity.
  - vm_compute. reflexivity.
Defined.

(** A kernel that refuses [bind]. *)
Definition bind_fails : Kernel := fun h c =>
  match c with Bind _ _ _ => Reply (-1) 98 [] 0 0 0 | _ => sample_kernel h c end.

(** [netlink_open] leaks its descriptor when the set-up of the socket
    fails: with a kernel that refuses [bind], bringing a link up returns the
    error and the socket is still open. *)
Theorem netlink_open_leaks_descriptor :
  match @network_dev_up sample_alloc bind_fails 0 eth w0 with
  | Some (err, w) => err = -98 /\ open_fds (log w) = [3]
  | None => False
  end.
Proof. vm_compute. split; reflexivity. Qed.

Example veth_create_runs :
  match @network_veth_create sample_alloc sample_kernel 0 eth veth w0 with
  | Some (err, w) => err = 0 /\ open_fds (log w) = [] /\ live w = 0 /\ length (log w) = 9%nat
  | None => False
  end.
Proof. vm_compute. auto. Qed.

End NetRequests.
