(* ===== verification/NlParse.v ===== *)
(** * Reading netlink dumps: [network/getaddr], [network/get_interface] and
      [network/get_link]

    The programs ask the kernel for a table ([nl_request]) and walk the
    datagrams it sends ([nl_parse_info], [nl_parse_rtattr]), giving each
    message to a filter ([nl_get_oif], [nl_get_if_addr]).  A message is an
    offset into the receive buffer; a read outside the buffer and the use of
    an uninitialised variable are undefined behaviour, [None].  The contents
    of the buffer behind the received bytes are unspecified ([stack]). *)

From S2P Require Import Prelude Netlink Syscalls NetRequests.
From Stdlib Require Import ZArith Lia String.
From stdpp Require Import base list numbers option.

Open Scope Z_scope.

Module NlParse.
Import Netlink Syscalls NetRequests.

Definition EAGAIN : Z := 11.
Definition NLMSG_DONE : Z := 3.
Definition NLM_F_MULTI : Z := 2.
Definition NLM_F_ROOT : Z := 256.
Definition NLM_F_MATCH : Z := 512.
Definition F_SETFL : Z := 4.
Definition O_NONBLOCK : Z := 2048.
Definition RTM_NEWROUTE : Z := 24.
Definition RTM_GETADDR : Z := 22.
Definition RTN_UNICAST : Z := 1.
Definition RTPROT_REDIRECT : Z := 1.
Definition RTPROT_KERNEL : Z := 2.
Definition RTM_F_CLONED : Z := 512.
Definition RTA_DST : Z := 1.
Definition RTA_OIF : Z := 4.
Definition RTA_GATEWAY : Z := 5.
Definition RTA_MAX : Z := 30.
Definition IFA_LABEL : Z := 3.
Definition IFA_MAX : Z := 10.

(** A field that has to lie inside the buffer. *)
Definition rd (off : Z) (n : nat) (buf : bytes) : option Z :=
  if (0 <=? off) && (off + Z.of_nat n <=? zlen buf) then Some (get_le off n buf) else None.

(** ** Attributes *)

(** [RTA_OK (rta, len)]: the length field is only read when [len] allows it. *)
Definition RTA_OK (buf : bytes) (rta len : Z) : option bool :=
  if len >=? 4 then
    rta_len ← rd rta 2 buf;
    Some ((4 <=? rta_len) && (rta_len <=? len))
  else Some false.

(** The table [tb]: offsets, [None] for NULL. *)
Abbreviation table := (list (option Z)).

(** The loop of [nl_parse_rtattr]; every round shortens [len], so [len] + 1
    rounds are enough ([nl_parse_rtattr_safe]). *)
Fixpoint parse_rtattr (fuel : nat) (tb : table) (max : Z) (buf : bytes) (rta len : Z) : option table :=
  match fuel with
  | O => None
  | S fuel' =>
      ok ← RTA_OK buf rta len;
      if ok : bool then
        rta_type ← rd (rta + 2) 2 buf;
        rta_len ← rd rta 2 buf;
        let tb := if rta_type <=? max then <[Z.to_nat rta_type := Some rta]> tb else tb in
        parse_rtattr fuel' tb max buf (rta + RTA_ALIGN rta_len) (s32 (len - RTA_ALIGN rta_len))
      else Some tb
  end.

Definition nl_parse_rtattr (tb : table) (max : Z) (buf : bytes) (rta len : Z) : option table :=
  parse_rtattr (S (Z.to_nat len)) tb max buf rta len.

(** [memset (tb, 0, sizeof tb)]. *)
Definition no_attrs (max : Z) : table := replicate (Z.to_nat max + 1) None.

Definition attr_of (tb : table) (i : Z) : option Z := mjoin (tb !! Z.to_nat i).

Definition RTA_DATA (rta : Z) : Z := rta + 4.

(** ** Filters *)

(** [nl_get_oif]: the return value, and the new value of [*arg] when it is
    written.  [index] and [gate] are not initialised. *)
Definition nl_get_oif (buf : bytes) (h : Z) : option (Z * option Z) :=
  let rtm := h + 16 in
  nlmsg_type ← rd (h + 4) 2 buf;
  if negb (nlmsg_type =? RTM_NEWROUTE) then Some (0, None) else
  rtm_type ← rd (rtm + 7) 1 buf;
  if negb (rtm_type =? RTN_UNICAST) then Some (0, None) else
  nlmsg_len ← rd h 4 buf;
  let len := s32 (nlmsg_len - 28) in
  if len <? 0 then Some (-1, None) else
  tb ← nl_parse_rtattr (no_attrs RTA_MAX) RTA_MAX buf (rtm + 12) len;
  rtm_flags ← rd (rtm + 8) 4 buf;
  if negb (Z.land rtm_flags RTM_F_CLONED =? 0) then Some (0, None) else
  rtm_protocol ← rd (rtm + 5) 1 buf;
  if rtm_protocol =? RTPROT_REDIRECT then Some (0, None) else
  if rtm_protocol =? RTPROT_KERNEL then Some (0, None) else
  rtm_src_len ← rd (rtm + 2) 1 buf;
  if negb (rtm_src_len =? 0) then Some (0, None) else
  index ← (match attr_of tb RTA_OIF with
           | Some a => Some <$> (s32 <$> rd (RTA_DATA a) 4 buf)
           | None => Some None
           end);
  match attr_of tb RTA_DST with
  | Some _ => Some (0, None)
  | None =>
      match attr_of tb RTA_GATEWAY with
      | Some _ => index ← index; Some (0, Some index)
      | None => None
      end
  end.

(** [strncpy (dst, src, n)] from the buffer: it stops at a NUL. *)
Definition rd_str (off n : Z) (buf : bytes) : option bytes :=
  let src := drop (Z.to_nat off) buf in
  if (n <=? zlen src) || (strlen src <? zlen src) then Some (strncpy src n) else None.

(** [nl_get_if_addr] of [getaddr.c]: the return value and what is printed,
    address, local address and label.  The variables are not initialised, and
    [inet_ntop] reads both addresses even when their attribute is missing; a
    label of 16 characters is printed up to an indeterminate byte. *)
Definition nl_get_if_addr (buf : bytes) (h : Z) : option (Z * option (Z * Z * bytes)) :=
  let ifa := h + 16 in
  ifa_family ← rd ifa 1 buf;
  if negb (ifa_family =? AF_INET) then Some (0, None) else
  nlmsg_len ← rd h 4 buf;
  let len := s32 (nlmsg_len - 24) in
  if len <? 0 then Some (-1, None) else
  tb ← nl_parse_rtattr (no_attrs IFA_MAX) IFA_MAX buf (ifa + 8) len;
  let addr := match attr_of tb IFA_ADDRESS with Some a => Some a | None => attr_of tb IFA_LOCAL end in
  addr ← addr;
  ifa_addr ← rd (RTA_DATA addr) 4 buf;
  local ← attr_of tb IFA_LOCAL;
  ifa_local ← rd (RTA_DATA local) 4 buf;
  label ← attr_of tb IFA_LABEL;
  ifa_label ← rd_str (RTA_DATA label) IFNAMSIZ buf;
  if IFNAMSIZ <=? strlen ifa_label then None else
  Some (0, Some (ifa_addr, ifa_local, ifa_label)).

(** ** Messages of a datagram *)

Definition NLMSG_OK (buf : bytes) (h status : Z) : option bool :=
  if status >=? 16 then
    nlmsg_len ← rd h 4 buf;
    Some ((16 <=? nlmsg_len) && (nlmsg_len <=? u32 status))
  else Some false.

(** The result of the [for] loop: the function returns, or the loop ends with
    the remaining [status] and [ret]. *)
Inductive walked (S : Type) :=
| Return (r : Z) (arg : S)
| Ended (status ret : Z) (arg : S).
Arguments Return {S}.
Arguments Ended {S}.

Section Parse.
Context {S : Type}.
(** The filter, on the state behind [arg]. *)
Variable filter : bytes -> Z -> S -> option (Z * S).
(** Whether [nl] is [nl_cmd], and the port of [nl_cmd]. *)
Variable is_cmd : bool.
Variable cmd_pid : Z.

(** One message: [inl] returns, [inr] goes on to the next one. *)
Definition parse_message (buf : bytes) (h ret : Z) (arg : S) : option (Z * S + Z * S) :=
  nlmsg_type ← rd (h + 4) 2 buf;
  if nlmsg_type =? NLMSG_DONE then Some (inl (ret, arg)) else
  if nlmsg_type =? NLMSG_ERROR then
    error ← s32 <$> rd (h + 16) 4 buf;
    nlmsg_flags ← rd (h + 6) 2 buf;
    if error =? 0 then
      if Z.land nlmsg_flags NLM_F_MULTI =? 0 then Some (inl (0, arg)) else Some (inr (ret, arg))
    else Some (inl (-1, arg))
  else
    nlmsg_pid ← rd (h + 12) 4 buf;
    if negb is_cmd && (nlmsg_pid =? cmd_pid) then Some (inr (ret, arg)) else
    '(error, arg) ← filter buf h arg;
    Some (inr (if error <? 0 then error else ret, arg)).

Fixpoint parse_messages (fuel : nat) (buf : bytes) (h status ret : Z) (arg : S) : option (walked S) :=
  match fuel with
  | O => None
  | Datatypes.S fuel' =>
      ok ← NLMSG_OK buf h status;
      if ok : bool then
        step ← parse_message buf h ret arg;
        match step with
        | inl (r, arg) => Some (Return r arg)
        | inr (ret, arg) =>
            nlmsg_len ← rd h 4 buf;
            parse_messages fuel' buf (h + NLMSG_ALIGN nlmsg_len)
              (s32 (status - NLMSG_ALIGN nlmsg_len)) ret arg
        end
      else Some (Ended status ret arg)
  end.

Context {kernel : Kernel}.
Variable sock : Z.
Variable stack : bytes.

(** The buffer after a datagram was received into it. *)
Definition received (r : reply) : bytes := splice 0 (take 4096 (payload r)) stack.

(** One round of [while (1)]: [inl] returns, [inr] is [ret] and [arg] for the
    next round. *)
Definition parse_round (ret : Z) (arg : S) : io (Z * S + Z * S) :=
  r ← syscall (Recvmsg sock 4096);
  let status := rc r in
  if status <? 0 then
    if errno r =? EINTR then mret (inr (ret, arg)) else
    if errno r =? EAGAIN then mret (inl (ret, arg)) else mret (inr (ret, arg))
  else if negb (peer r =? 0) then mret (inr (ret, arg))
  else if status =? 0 then mret (inl (-1, arg))
  else if negb (peer_len r =? 12) then mret (inl (-1, arg))
  else
    match parse_messages (Z.to_nat status + 1) (received r) 0 status ret arg with
    | None => undefined
    | Some (Return res arg) => mret (inl (res, arg))
    | Some (Ended status ret arg) =>
        if negb (Z.land (aux r) MSG_TRUNC =? 0) then mret (inr (ret, arg))
        else if negb (status =? 0) then mret (inl (-1, arg))
        else mret (inr (ret, arg))
    end.

(** [fuel] rounds of [nl_parse_info]; [inr] when it has not returned yet. *)
Fixpoint parse_rounds (fuel : nat) (ret : Z) (arg : S) : io (Z * S + Z * S) :=
  match fuel with
  | O => mret (inr (ret, arg))
  | Datatypes.S fuel' =>
      step ← parse_round ret arg;
      match step with
      | inl res => mret (inl res)
      | inr (ret, arg) => parse_rounds fuel' ret arg
      end
  end.

Definition nl_parse_info (fuel : nat) (arg : S) : io (Z * S + Z * S) := parse_rounds fuel 0 arg.

End Parse.

(** ** Requests *)

Record nlsock := Nlsock { sock : Z; nl_seq : Z; nl_pid : Z }.

Section Requests.
Context {kernel : Kernel}.
(** The padding of [req] is not initialised. *)
Variable padding : bytes.

(** The messages on stderr are left out. *)
Definition nl_socket (nl : nlsock) (groups : Z) : io (nlsock * Z) :=
  s ← syscall (Socket AF_NETLINK SOCK_RAW NETLINK_ROUTE);
  if rc s <? 0 then mret (nl, -1) else
  let fail := syscall (Close (rc s)) ;; mret (nl, -1) in
  r ← syscall (Fcntl (rc s) F_SETFL O_NONBLOCK);
  if rc r <? 0 then fail else
  r ← syscall (Bind (rc s) AF_NETLINK groups);
  if rc r <? 0 then fail else
  r ← syscall (Getsockname (rc s));
  if (rc r <? 0) || negb (aux r =? 12) then fail else
  mret (Nlsock (rc s) (nl_seq nl) (peer r), rc r).

Definition dump_request (family type seq : Z) : bytes :=
  le_bytes 4 20 ++ le_bytes 2 type ++
  le_bytes 2 (Z.lor (Z.lor NLM_F_ROOT NLM_F_MATCH) NLM_F_REQUEST) ++
  le_bytes 4 seq ++ le_bytes 4 0 ++ le_bytes 1 family ++ padding.

Definition nl_request (family type : Z) (nl : nlsock) : io (nlsock * Z) :=
  if sock nl <? 0 then mret (nl, -1) else
  let nl := Nlsock (sock nl) (s32 (nl_seq nl + 1)) (nl_pid nl) in
  r ← syscall (Sendto (sock nl) (dump_request family type (nl_seq nl)));
  if rc r <? 0 then mret (nl, -1) else mret (nl, 0).

End Requests.

(** ** Attributes: safety *)

Lemma le_value_range l : Forall byte_ok l -> 0 <= le_value l < 256 ^ Z.of_nat (length l).
Proof.
  induction 1 as [|b l Hb Hl IH]; [simpl; lia|].
  cbn [le_value length]. rewrite Nat2Z.inj_succ, Z.pow_succ_r by lia. unfold byte_ok in Hb. lia.
Qed.

Lemma rd_Some off n buf :
  0 <= off -> off + Z.of_nat n <= zlen buf -> rd off n buf = Some (get_le off n buf).
Proof.
  intros H0 H1. unfold rd. rewrite (proj2 (Z.leb_le 0 off)), (proj2 (Z.leb_le _ _)) by done. done.
Qed.

Lemma get_le_range off n buf :
  Forall byte_ok buf -> 0 <= get_le off n buf < 256 ^ Z.of_nat n.
Proof.
  intros Hb. unfold get_le. set (l := take n _).
  assert (0 <= le_value l < 256 ^ Z.of_nat (length l)) as Hl.
  { apply le_value_range. by apply Forall_take, Forall_drop. }
  assert (length l <= n)%nat by (unfold l; rewrite length_take; lia).
  assert (256 ^ Z.of_nat (length l) <= 256 ^ Z.of_nat n) by (apply Z.pow_le_mono_r; lia). lia.
Qed.

Lemma no_attrs_empty max t : attr_of (no_attrs max) t = None.
Proof.
  unfold attr_of, no_attrs. destruct (replicate _ _ !! _) as [x|] eqn:E; [|done].
  by apply lookup_replicate in E as [-> _].
Qed.

(** An attribute inside the region from [lo] to [hi]. *)
Definition attr_in (buf : bytes) (lo hi i a : Z) : Prop :=
  lo <= a /\ 4 <= get_le a 2 buf /\ a + get_le a 2 buf <= hi /\ get_le (a + 2) 2 buf = i.

Lemma parse_rtattr_safe fuel tb max buf rta len :
  Forall byte_ok buf -> zlen buf < 2 ^ 31 -> 0 <= max -> zlen tb = max + 1 ->
  0 <= rta -> rta + len <= zlen buf -> Z.max 0 len < Z.of_nat fuel -> -4 <= len ->
  exists tb', parse_rtattr fuel tb max buf rta len = Some tb' /\ zlen tb' = max + 1 /\
    forall i a, 0 <= i -> attr_of tb' i = Some a ->
      attr_of tb i = Some a \/ attr_in buf rta (rta + len) i a.
Proof.
  intros Hb Hbuf Hmax. revert tb rta len. induction fuel as [|fuel IH]; intros tb rta len Htb Hr Hl Hf Hlen.
  { lia. }
  cbn [parse_rtattr]. unfold RTA_OK. destruct (Z.geb_spec len 4) as [H4|H4].
  2: { cbn. exists tb. by split_and!; [..|auto]. }
  rewrite rd_Some by lia. cbn [mbind option_bind].
  destruct ((4 <=? get_le rta 2 buf) && (get_le rta 2 buf <=? len)) eqn:Eok.
  2: { exists tb. by split_and!; [..|auto]. }
  apply andb_true_iff in Eok as [E1%Z.leb_le E2%Z.leb_le].
  rewrite rd_Some by lia. cbn [mbind option_bind].
  set (n := get_le rta 2 buf) in *. set (ty := get_le (rta + 2) 2 buf).
  destruct (align_bounds n) as [Hal _]; [lia|]. unfold RTA_ALIGN.
  rewrite s32_id by (unfold INT_MIN, INT_MAX; lia).
  assert (0 <= ty < 256 ^ Z.of_nat 2) as Hty by (by apply get_le_range).
  set (tb1 := if ty <=? max then _ else _).
  assert (zlen tb1 = max + 1) as Htb1.
  { unfold tb1. destruct (ty <=? max); [|done]. unfold zlen. by rewrite length_insert. }
  destruct (IH tb1 (rta + NLMSG_ALIGN n) (len - NLMSG_ALIGN n)) as (tb' & -> & Hz & Hin); [lia..|].
  exists tb'. split_and!; [done|done|]. intros i a Hi Ha.
  destruct (Hin i a Hi Ha) as [Hold|(H1 & H2 & H3 & H5)].
  - unfold tb1 in Hold. destruct (Z.leb_spec ty max) as [Hle|]; [|by left].
    destruct (decide (i = ty)) as [->|Hne].
    + right. unfold attr_of in Hold. rewrite list_lookup_insert_eq in Hold by (unfold zlen in *; lia).
      injection Hold as <-. unfold attr_in. fold n. fold ty. lia.
    + left. unfold attr_of in *. by rewrite list_lookup_insert_ne in Hold by lia.
  - right. unfold attr_in. lia.
Qed.

(** [nl_parse_rtattr] is safe on any bytes: given a region inside the
    buffer it ends, never reads outside the region, keeps the size of the
    table, and every pointer it stores is an attribute of that type that lies
    with its payload inside the region. *)
Theorem nl_parse_rtattr_safe max buf rta len :
  Forall byte_ok buf -> zlen buf < 2 ^ 31 -> 0 <= max -> 0 <= rta -> 0 <= len ->
  rta + len <= zlen buf ->
  exists tb, nl_parse_rtattr (no_attrs max) max buf rta len = Some tb /\ zlen tb = max + 1 /\
    forall i a, 0 <= i -> attr_of tb i = Some a -> attr_in buf rta (rta + len) i a.
Proof.
  intros Hb Hbuf Hmax Hr Hlen Hreg. unfold nl_parse_rtattr.
  destruct (parse_rtattr_safe (S (Z.to_nat len)) (no_attrs max) max buf rta len)
    as (tb & E & Hz & Hin); try done; try lia.
  { unfold zlen, no_attrs. rewrite length_replicate. lia. }
  exists tb. split_and!; [done|done|]. intros i a Hi Ha.
  destruct (Hin i a Hi Ha) as [Hold|?]; [|done]. by rewrite no_attrs_empty in Hold.
Qed.

(** ** Attributes: what the builder wrote is found *)

(** The payload of the attribute at [a]. *)
Definition payload_at (buf : bytes) (a : Z) : bytes :=
  take (Z.to_nat (get_le a 2 buf - 4)) (drop (Z.to_nat (RTA_DATA a)) buf).

Definition attr_ok (td : Z * bytes) : Prop := 0 <= td.1 < 65536 /\ zlen td.2 <= 65531.

Definition enc_all (attrs : list (Z * bytes)) : bytes :=
  concat (map (fun td => enc_attr td.1 td.2) attrs).

(** The payload of the last attribute of type [t]. *)
Definition last_of (t : Z) (acc : option bytes) (attrs : list (Z * bytes)) : option bytes :=
  fold_left (fun acc td => if td.1 =? t then Some td.2 else acc) attrs acc.

Lemma get_le_app_l off n P Q : 0 <= off -> off + Z.of_nat n <= zlen P ->
  get_le off n (P ++ Q) = get_le off n P.
Proof.
  intros H0 H1. unfold get_le, zlen in *. rewrite drop_app_le by lia.
  by rewrite take_app_le by (rewrite length_drop; lia).
Qed.

(** The fields of an attribute the builder wrote. *)
Lemma enc_attr_at P ty d R : 0 <= ty < 65536 -> zlen d <= 65531 ->
  get_le (zlen P) 2 (P ++ enc_attr ty d ++ R) = 4 + zlen d /\
  get_le (zlen P + 2) 2 (P ++ enc_attr ty d ++ R) = ty /\
  payload_at (P ++ enc_attr ty d ++ R) (zlen P) = d.
Proof.
  intros Hty Hd. pose proof (zlen_nonneg d). set (tailbytes := d ++ pad (4 + zlen d) ++ R).
  assert (P ++ enc_attr ty d ++ R = P ++ le_bytes 2 (4 + zlen d) ++ le_bytes 2 ty ++ tailbytes) as ->.
  { unfold enc_attr, tailbytes. by rewrite <- !app_assoc. }
  assert (get_le (zlen P) 2 (P ++ le_bytes 2 (4 + zlen d) ++ le_bytes 2 ty ++ tailbytes) = 4 + zlen d) as Hg1.
  { apply get_le_at; [done|]. change (256 ^ Z.of_nat 2) with 65536. lia. }
  split; [done|]. split.
  - rewrite (app_assoc P). apply get_le_at; [rewrite zlen_app, zlen_le; done|].
    change (256 ^ Z.of_nat 2) with 65536. lia.
  - unfold payload_at, RTA_DATA. rewrite Hg1. replace (4 + zlen d - 4) with (zlen d) by lia.
    rewrite (app_assoc (le_bytes 2 (4 + zlen d))), (app_assoc P).
    rewrite drop_app_length' by (rewrite !length_app, !le_bytes_length; unfold zlen; lia).
    unfold tailbytes. apply take_app_length'. unfold zlen. lia.
Qed.

(** What a table knows after an attribute was stored in it, or skipped. *)
Definition stored (buf : bytes) (max : Z) (tb : table) (acc : Z -> option bytes) : Prop :=
  zlen tb = max + 1 /\ (forall t, 0 <= t <= max -> payload_at buf <$> attr_of tb t = acc t) /\
  (forall t a, attr_of tb t = Some a -> 0 <= a /\ 4 <= get_le a 2 buf /\ a + get_le a 2 buf <= zlen buf).

Lemma stored_insert buf max tb acc ty a d :
  stored buf max tb acc -> 0 <= ty -> 0 <= a /\ 4 <= get_le a 2 buf /\ a + get_le a 2 buf <= zlen buf -> payload_at buf a = d ->
  stored buf max (if ty <=? max then <[Z.to_nat ty := Some a]> tb else tb)
    (fun t => if ty =? t then Some d else acc t).
Proof.
  intros (Htb & Hacc & Hpos) Hty Ha Hpay. unfold stored. split_and!.
  - destruct (ty <=? max); [|done]. unfold zlen in *. by rewrite length_insert.
  - intros t Ht. destruct (Z.eqb_spec ty t) as [->|Hne].
    + rewrite (proj2 (Z.leb_le t max)) by lia. unfold attr_of.
      rewrite list_lookup_insert_eq by (unfold zlen in Htb; lia). simpl. by rewrite Hpay.
    + rewrite <- (Hacc t Ht). f_equal. destruct (ty <=? max); [|done].
      unfold attr_of. by rewrite list_lookup_insert_ne by lia.
  - intros t b. destruct (ty <=? max); [|apply Hpos]. unfold attr_of.
    destruct (decide (Z.to_nat ty = Z.to_nat t)) as [<-|Hne].
    + destruct (decide (Z.to_nat ty < length tb)%nat).
      * rewrite list_lookup_insert_eq by done. by intros [= <-].
      * rewrite list_insert_ge by lia. apply (Hpos ty).
    + rewrite list_lookup_insert_ne by done. apply (Hpos t).
Qed.

Lemma stored_empty buf max : 0 <= max -> stored buf max (no_attrs max) (fun _ => None).
Proof.
  intros. unfold stored. split_and!.
  - unfold no_attrs. rewrite zlen_replicate. lia.
  - intros. by rewrite no_attrs_empty.
  - intros t a. by rewrite no_attrs_empty.
Qed.

Lemma parse_rtattr_built attrs fuel tb max P Q acc :
  0 <= max -> Forall attr_ok attrs ->
  zlen (P ++ enc_all attrs ++ Q) < 2 ^ 31 -> zlen (enc_all attrs) < Z.of_nat fuel ->
  stored (P ++ enc_all attrs ++ Q) max tb acc ->
  exists tb', parse_rtattr fuel tb max (P ++ enc_all attrs ++ Q) (zlen P) (zlen (enc_all attrs)) = Some tb' /\
    stored (P ++ enc_all attrs ++ Q) max tb' (fun t => last_of t (acc t) attrs).
Proof.
  intros Hmax. revert fuel tb P acc. induction attrs as [|[ty d] attrs IH];
    intros fuel tb P acc Hok Hbuf Hf Hst.
  { destruct fuel as [|fuel]; [unfold zlen in Hf; simpl in Hf; lia|]. by exists tb. }
  apply list.Forall_cons in Hok as [[Hty Hd] Hok]. simpl in Hty, Hd.
  pose proof (zlen_nonneg d). pose proof (zlen_nonneg P). pose proof (zlen_nonneg Q).
  pose proof (zlen_nonneg (enc_all attrs)). destruct (align_bounds (4 + zlen d)) as [Hal _]; [lia|].
  change (enc_all ((ty, d) :: attrs)) with (enc_attr ty d ++ enc_all attrs) in *.
  assert (zlen (enc_attr ty d) = NLMSG_ALIGN (4 + zlen d)) as Eenc by (apply enc_attr_length; lia).
  destruct (enc_attr_at P ty d (enc_all attrs ++ Q) Hty Hd) as (Hg1 & Hg2 & Hpay).
  rewrite <- (app_assoc (enc_attr ty d)) in *. set (buf := P ++ _) in *.
  assert (zlen buf = zlen P + (NLMSG_ALIGN (4 + zlen d) + zlen (enc_all attrs)) + zlen Q) as Hzb.
  { unfold buf. rewrite !zlen_app. lia. }
  rewrite zlen_app, Eenc in *. destruct fuel as [|fuel]; [lia|]. cbn [parse_rtattr]. unfold RTA_OK.
  destruct (Z.geb_spec (NLMSG_ALIGN (4 + zlen d) + zlen (enc_all attrs)) 4); [|lia].
  rewrite !rd_Some by lia. cbn [mbind option_bind]. rewrite Hg1, Hg2.
  rewrite (proj2 (Z.leb_le 4 (4 + zlen d))), (proj2 (Z.leb_le (4 + zlen d) _)) by lia. cbn [andb].
  unfold RTA_ALIGN. rewrite s32_id by (unfold INT_MIN, INT_MAX; lia).
  replace (NLMSG_ALIGN (4 + zlen d) + zlen (enc_all attrs) - NLMSG_ALIGN (4 + zlen d))
    with (zlen (enc_all attrs)) by lia.
  replace (zlen P + NLMSG_ALIGN (4 + zlen d)) with (zlen (P ++ enc_attr ty d)) by (rewrite zlen_app; lia).
  assert (buf = (P ++ enc_attr ty d) ++ enc_all attrs ++ Q) as Ebuf by (unfold buf; by rewrite <- app_assoc).
  rewrite Ebuf in *. apply (IH fuel _ _ (fun t => if ty =? t then Some d else acc t)); try done; try lia.
  apply stored_insert; try done; [lia|]. rewrite <- Ebuf, Hg1 in *. lia.
Qed.

(** Attributes written by the message builder are found by
    [nl_parse_rtattr]: in a buffer that holds the encodings of a list of
    attributes, the table has, for every type up to its size, a pointer to an
    attribute whose payload is that of the last attribute of the type, and
    NULL for a type that does not occur; larger types are skipped. *)
Theorem nl_parse_rtattr_build attrs max P Q :
  0 <= max -> Forall attr_ok attrs -> zlen (P ++ enc_all attrs ++ Q) < 2 ^ 31 ->
  exists tb, nl_parse_rtattr (no_attrs max) max (P ++ enc_all attrs ++ Q) (zlen P)
               (zlen (enc_all attrs)) = Some tb /\
    forall t, 0 <= t <= max ->
      payload_at (P ++ enc_all attrs ++ Q) <$> attr_of tb t = last_of t None attrs.
Proof.
  intros Hmax Hok Hbuf. unfold nl_parse_rtattr. pose proof (zlen_nonneg (enc_all attrs)).
  destruct (parse_rtattr_built attrs (S (Z.to_nat (zlen (enc_all attrs)))) (no_attrs max) max P Q
    (fun _ => None)) as (tb & E & _ & Hfind & _); try done; try lia; [|by exists tb].
  by apply stored_empty.
Qed.

(** ** Walking datagrams *)

(** A message: the header behind its length field, and the body. *)
Record message := Msg { m_rest : bytes; m_body : bytes }.

Definition enc_msg (x : message) : bytes := wire (m_rest x) (m_body x) ++ pad (16 + zlen (m_body x)).

Definition m_type (x : message) : Z := get_le 0 2 (m_rest x).

Definition msg_ok (x : message) : Prop := zlen (m_rest x) = 12 /\ zlen (m_body x) < 2 ^ 30.

Definition plain (x : message) : Prop := m_type x <> NLMSG_DONE /\ m_type x <> NLMSG_ERROR.

Lemma wire_length x : zlen (m_rest x) = 12 -> zlen (wire (m_rest x) (m_body x)) = 16 + zlen (m_body x).
Proof. intros Hr. unfold wire. rewrite !zlen_app, zlen_le. lia. Qed.

Lemma enc_msg_length x : msg_ok x -> zlen (enc_msg x) = NLMSG_ALIGN (16 + zlen (m_body x)).
Proof.
  intros [Hr Hb]. pose proof (zlen_nonneg (m_body x)). destruct (align_bounds (16 + zlen (m_body x))); [lia|].
  unfold enc_msg, pad. rewrite zlen_app, wire_length, zlen_replicate by done. lia.
Qed.

(** The header fields of a message in a buffer. *)
Lemma msg_fields x P Q :
  msg_ok x -> zlen (P ++ enc_msg x ++ Q) < 2 ^ 31 ->
  rd (zlen P) 4 (P ++ enc_msg x ++ Q) = Some (16 + zlen (m_body x)) /\
  rd (zlen P + 4) 2 (P ++ enc_msg x ++ Q) = Some (m_type x) /\
  exists pid, rd (zlen P + 12) 4 (P ++ enc_msg x ++ Q) = Some pid.
Proof.
  intros [Hr Hb] Hbuf. pose proof (zlen_nonneg (m_body x)). pose proof (zlen_nonneg P).
  pose proof (zlen_nonneg Q). pose proof (enc_msg_length x (conj Hr Hb)) as El.
  destruct (align_bounds (16 + zlen (m_body x))) as [Hal _]; [lia|].
  set (buf := P ++ enc_msg x ++ Q) in *.
  assert (zlen P + 16 <= zlen buf) as Hz by (unfold buf; rewrite !zlen_app; lia).
  rewrite !rd_Some by lia. split_and!; [| |eauto]; f_equal.
  - unfold buf, enc_msg, wire. rewrite <- !app_assoc. apply get_le_at; [done|].
    change (256 ^ Z.of_nat 4) with 4294967296. lia.
  - unfold buf, enc_msg, wire, m_type, get_le. rewrite <- !app_assoc, (app_assoc P).
    rewrite drop_app_length' by (rewrite length_app, le_bytes_length; unfold zlen; lia).
    rewrite take_app_le by (unfold zlen in Hr; lia). done.
Qed.

Section Walk.
Context {S : Type}.
Variable filter : bytes -> Z -> S -> option (Z * S).
Variable f : message -> S -> Z * S.
(** The filter looks at the message it is given and nothing else. *)
Hypothesis filter_f : forall x P Q arg, msg_ok x -> plain x -> zlen (P ++ enc_msg x ++ Q) < 2 ^ 31 ->
  filter (P ++ enc_msg x ++ Q) (zlen P) arg = Some (f x arg).

Definition filter_step (acc : Z * S) (x : message) : Z * S :=
  let '(ret, arg) := acc in
  let '(error, arg) := f x arg in (if error <? 0 then error else ret, arg).

(** One round of the loop over a message. *)
Lemma parse_messages_step k x P Q s ret arg :
  msg_ok x -> zlen (P ++ enc_msg x ++ Q) < 2 ^ 31 -> 0 <= s <= zlen Q ->
  parse_messages filter true 0 (Datatypes.S k) (P ++ enc_msg x ++ Q) (zlen P)
    (zlen (enc_msg x) + s) ret arg =
  (step ← parse_message filter true 0 (P ++ enc_msg x ++ Q) (zlen P) ret arg;
   match step with
   | inl (r, arg) => Some (Return r arg)
   | inr (ret, arg) => parse_messages filter true 0 k (P ++ enc_msg x ++ Q) (zlen (P ++ enc_msg x)) s ret arg
   end).
Proof.
  intros Hx Hbuf Hs. destruct (msg_fields x P Q Hx Hbuf) as (E1 & _). destruct Hx as [Hr Hb].
  pose proof (zlen_nonneg (m_body x)). pose proof (zlen_nonneg P). pose proof (zlen_nonneg Q).
  pose proof (enc_msg_length x (conj Hr Hb)) as El.
  destruct (align_bounds (16 + zlen (m_body x))) as [Hal _]; [lia|].
  assert (zlen (enc_msg x) + s <= zlen (P ++ enc_msg x ++ Q)) by (rewrite !zlen_app; lia).
  cbn [parse_messages]. unfold NLMSG_OK. destruct (Z.geb_spec (zlen (enc_msg x) + s) 16); [|lia].
  rewrite E1. cbn [mbind option_bind]. unfold u32.
  rewrite wrap_id by (change (2 ^ 32) with 4294967296; lia).
  rewrite (proj2 (Z.leb_le 16 _)), (proj2 (Z.leb_le (16 + _) _)) by lia. cbn [andb].
  destruct (parse_message _ _ _ _ _ _ _) as [[[r a]|[r a]]|]; cbn [mbind option_bind]; try done.
  rewrite <- El, zlen_app. rewrite s32_id by (unfold INT_MIN, INT_MAX; lia). f_equal. lia.
Qed.

Lemma parse_message_plain x P Q ret arg :
  msg_ok x -> plain x -> zlen (P ++ enc_msg x ++ Q) < 2 ^ 31 ->
  parse_message filter true 0 (P ++ enc_msg x ++ Q) (zlen P) ret arg =
  Some (inr (filter_step (ret, arg) x)).
Proof.
  intros Hx Hp Hbuf. destruct (msg_fields x P Q Hx Hbuf) as (_ & E2 & pid & E3).
  unfold parse_message. rewrite E2. cbn [mbind option_bind]. pose proof Hp as [Hd He].
  rewrite (proj2 (Z.eqb_neq _ _) Hd), (proj2 (Z.eqb_neq _ _) He), E3. cbn [mbind option_bind negb andb].
  rewrite filter_f by done. cbn [mbind option_bind]. unfold filter_step. by destruct (f x arg).
Qed.

Definition enc_msgs (ms : list message) : bytes := concat (map enc_msg ms).

Lemma parse_messages_walk ms k P Q s ret arg :
  Forall msg_ok ms -> Forall plain ms -> zlen (P ++ enc_msgs ms ++ Q) < 2 ^ 31 -> 0 <= s <= zlen Q ->
  parse_messages filter true 0 (length ms + k) (P ++ enc_msgs ms ++ Q) (zlen P)
    (zlen (enc_msgs ms) + s) ret arg =
  (let '(ret', arg') := fold_left filter_step ms (ret, arg) in
   parse_messages filter true 0 k (P ++ enc_msgs ms ++ Q) (zlen (P ++ enc_msgs ms)) s ret' arg').
Proof.
  revert P ret arg. induction ms as [|x ms IH]; intros P ret arg Hok Hpl Hbuf Hs.
  { cbn [fold_left length enc_msgs map concat Nat.add]. rewrite app_nil_r. done. }
  apply list.Forall_cons in Hok as [Hx Hok]. apply list.Forall_cons in Hpl as [Hp Hpl].
  change (enc_msgs (x :: ms)) with (enc_msg x ++ enc_msgs ms) in *.
  rewrite <- app_assoc in *. rewrite zlen_app, <- Z.add_assoc. cbn [length Nat.add].
  pose proof (zlen_nonneg (enc_msgs ms)).
  rewrite parse_messages_step, parse_message_plain by (try done; rewrite zlen_app; lia).
  cbn [mbind option_bind fold_left]. destruct (filter_step (ret, arg) x) as [ret1 arg1] eqn:Ef.
  rewrite (app_assoc P (enc_msg x) (enc_msgs ms ++ Q)) in *. rewrite IH by done.
  destruct (fold_left filter_step ms (ret1, arg1)). by rewrite <- !app_assoc.
Qed.

Lemma parse_messages_done fuel P x Q s ret arg :
  msg_ok x -> m_type x = NLMSG_DONE -> zlen (P ++ enc_msg x ++ Q) < 2 ^ 31 -> 0 <= s <= zlen Q ->
  parse_messages filter true 0 (Datatypes.S fuel) (P ++ enc_msg x ++ Q) (zlen P)
    (zlen (enc_msg x) + s) ret arg = Some (Return ret arg).
Proof.
  intros Hx Hd Hbuf Hs. rewrite parse_messages_step by done.
  destruct (msg_fields x P Q Hx Hbuf) as (_ & E2 & _). unfold parse_message. by rewrite E2, Hd.
Qed.

(** ** Dumps *)

Context {kernel : Kernel}.
Variable fd : Z.
Variable stack : bytes.

(** The reply that delivers the bytes [d] from the kernel. *)
Definition datagram (d : bytes) : reply := Reply (zlen d) 0 d 0 0 12.

(** From [h] on, the kernel delivers the datagrams [ds]. *)
Definition delivers (h : history) (ds : list bytes) : Prop := forall rs d,
  ds !! length rs = Some d ->
  answer (h ++ map (fun r => (Recvmsg fd 4096, r)) rs) (Recvmsg fd 4096) = datagram d.

Lemma delivers_cons h d ds :
  delivers h (d :: ds) -> answer h (Recvmsg fd 4096) = datagram d /\
  delivers (h ++ [(Recvmsg fd 4096, datagram d)]) ds.
Proof.
  intros Hd. split.
  - specialize (Hd [] d). rewrite app_nil_r in Hd. by apply Hd.
  - intros rs d' Hl. rewrite <- app_assoc. by apply (Hd (datagram d :: rs) d').
Qed.

(** A datagram fits the buffer. *)
Definition fits (d : bytes) : Prop := 0 < zlen d <= 4096.

Lemma received_datagram d : zlen stack = 4096 -> fits d ->
  received stack (datagram d) = d ++ drop (length d) stack.
Proof.
  intros Hst [H1 H2]. unfold received. cbn [payload datagram].
  rewrite take_ge by (unfold zlen in H2; lia). done.
Qed.

Lemma msg_count ms : Forall msg_ok ms -> (length ms <= Z.to_nat (zlen (enc_msgs ms)))%nat.
Proof.
  induction 1 as [|x ms Hx Hms IH]; [done|]. change (enc_msgs (x :: ms)) with (enc_msg x ++ enc_msgs ms).
  rewrite zlen_app. pose proof (zlen_nonneg (enc_msgs ms)). pose proof (enc_msg_length x Hx) as El.
  destruct Hx as [_ Hb]. pose proof (zlen_nonneg (m_body x)).
  destruct (align_bounds (16 + zlen (m_body x))) as [Hal _]; [lia|]. simpl length. lia.
Qed.

(** A round that reads a datagram of plain messages calls the filter on each
    and goes on. *)
Lemma parse_round_messages w ms ret arg (Q : _ -> world -> Prop) :
  zlen stack = 4096 -> Forall msg_ok ms -> Forall plain ms -> fits (enc_msgs ms) ->
  answer (log w) (Recvmsg fd 4096) = datagram (enc_msgs ms) ->
  Q (inr (fold_left filter_step ms (ret, arg)))
    (World (log w ++ [(Recvmsg fd 4096, datagram (enc_msgs ms))]) (live w) (br_socket_fd w)) ->
  runs (parse_round filter true 0 fd stack ret arg) w Q.
Proof.
  intros Hst Hok Hpl Hfit Ea HQ. unfold parse_round. apply runs_bind, runs_syscall. rewrite Ea.
  cbn [rc datagram peer peer_len Z.eqb negb]. pose proof Hfit as [Hf1 Hf2].
  rewrite (proj2 (Z.ltb_ge (zlen _) 0)), (proj2 (Z.eqb_neq (zlen _) 0)) by lia. cbn [Pos.eqb].
  rewrite received_datagram by done. set (tl := drop _ stack).
  assert (zlen ([] ++ enc_msgs ms ++ tl) < 2 ^ 31) as Hbuf.
  { unfold tl. rewrite !zlen_app. unfold zlen in *. rewrite length_drop. simpl. lia. }
  pose proof (msg_count ms Hok) as Hc.
  pose proof (parse_messages_walk ms (Z.to_nat (zlen (enc_msgs ms)) + 1 - length ms) [] tl 0 ret arg
    Hok Hpl Hbuf ltac:(pose proof (zlen_nonneg tl); lia)) as Hw.
  replace (length ms + _)%nat with (Z.to_nat (zlen (enc_msgs ms)) + 1)%nat in Hw by lia.
  rewrite Z.add_0_r, !app_nil_l in Hw. change (zlen (@nil Z)) with 0 in Hw. rewrite Hw.
  destruct (fold_left filter_step ms (ret, arg)) as [ret' arg'].
  assert (forall k buf h, parse_messages filter true 0 (Datatypes.S k) buf h 0 ret' arg' = Some (Ended 0 ret' arg')) as He by done.
  replace (Z.to_nat _ + 1 - length ms)%nat with (Datatypes.S (Z.to_nat (zlen (enc_msgs ms)) - length ms)) by lia.
  rewrite He. cbn [aux]. by apply runs_ret.
Qed.

(** The round that reads the end of the dump returns. *)
Lemma parse_round_done w ms x ret arg (Q : _ -> world -> Prop) :
  zlen stack = 4096 -> Forall msg_ok ms -> Forall plain ms -> msg_ok x -> m_type x = NLMSG_DONE ->
  fits (enc_msgs ms ++ enc_msg x) ->
  answer (log w) (Recvmsg fd 4096) = datagram (enc_msgs ms ++ enc_msg x) ->
  (forall w', Q (inl (fold_left filter_step ms (ret, arg))) w') ->
  runs (parse_round filter true 0 fd stack ret arg) w Q.
Proof.
  intros Hst Hok Hpl Hx Hd Hfit Ea HQ. unfold parse_round. apply runs_bind, runs_syscall. rewrite Ea.
  cbn [rc datagram peer peer_len Z.eqb negb]. pose proof Hfit as [Hf1 Hf2].
  rewrite (proj2 (Z.ltb_ge (zlen _) 0)), (proj2 (Z.eqb_neq (zlen _) 0)) by lia. cbn [Pos.eqb].
  rewrite received_datagram by done. set (tl := drop _ stack).
  rewrite <- app_assoc, zlen_app in *. pose proof (zlen_nonneg tl). pose proof (zlen_nonneg (enc_msg x)).
  pose proof (zlen_nonneg (enc_msgs ms)).
  assert (zlen (enc_msgs ms ++ enc_msg x ++ tl) < 2 ^ 31) as Hbuf.
  { unfold tl. rewrite !zlen_app. unfold zlen in *. rewrite length_drop. lia. }
  pose proof (msg_count ms Hok) as Hc.
  pose proof (parse_messages_walk ms (Z.to_nat (zlen (enc_msgs ms) + zlen (enc_msg x)) + 1 - length ms) []
    (enc_msg x ++ tl) (zlen (enc_msg x)) ret arg Hok Hpl Hbuf ltac:(rewrite zlen_app; lia)) as Hw.
  replace (length ms + _)%nat with (Z.to_nat (zlen (enc_msgs ms) + zlen (enc_msg x)) + 1)%nat in Hw by lia.
  rewrite !app_nil_l in Hw. change (zlen (@nil Z)) with 0 in Hw. rewrite Hw.
  destruct (fold_left filter_step ms (ret, arg)) as [ret' arg'].
  replace (_ + 1 - length ms)%nat with
    (Datatypes.S (Z.to_nat (zlen (enc_msgs ms) + zlen (enc_msg x)) - length ms)) by lia.
  pose proof (parse_messages_done (Z.to_nat (zlen (enc_msgs ms) + zlen (enc_msg x)) - length ms)
    (enc_msgs ms) x tl 0 ret' arg' Hx Hd Hbuf ltac:(lia)) as He.
  rewrite Z.add_0_r in He. rewrite He. apply runs_ret, HQ.
Qed.

Lemma parse_rounds_dump w dss ms x ret arg :
  zlen stack = 4096 ->
  Forall (fun d => Forall msg_ok d /\ Forall plain d /\ fits (enc_msgs d)) dss ->
  Forall msg_ok ms -> Forall plain ms -> msg_ok x -> m_type x = NLMSG_DONE ->
  fits (enc_msgs ms ++ enc_msg x) ->
  delivers (log w) (map enc_msgs dss ++ [enc_msgs ms ++ enc_msg x]) ->
  runs (parse_rounds filter true 0 fd stack (Datatypes.S (length dss)) ret arg) w (fun res _ =>
    res = inl (fold_left filter_step (concat dss ++ ms) (ret, arg))).
Proof.
  intros Hst Hdss Hok Hpl Hx Hd Hfit. revert w ret arg.
  induction Hdss as [|d dss (Hd1 & Hd2 & Hd3) Hdss IH]; intros w ret arg Hdel;
    cbn [length parse_rounds]; apply runs_bind.
  - apply (parse_round_done w ms x); try done; [by apply (delivers_cons _ _ []) in Hdel as [? _]|].
    intros w'. by apply runs_ret.
  - cbn [map app] in Hdel. apply delivers_cons in Hdel as [Ea Hdel].
    apply (parse_round_messages w d); try done.
    destruct (fold_left filter_step d (ret, arg)) as [ret1 arg1] eqn:Ef.
    cbn [concat]. rewrite <- app_assoc, fold_left_app, Ef. apply IH. exact Hdel.
Qed.

(** [nl_parse_info] reads a whole dump: when the kernel delivers
    datagrams of well-formed messages, the last one ending with NLMSG_DONE,
    the function returns after as many receives as there are datagrams, has
    given every message to the filter once and in order, across datagrams,
    and returns the last error of the filter (0 if there was none). *)
Theorem nl_parse_info_dump w dss ms x arg :
  zlen stack = 4096 ->
  Forall (fun d => Forall msg_ok d /\ Forall plain d /\ fits (enc_msgs d)) dss ->
  Forall msg_ok ms -> Forall plain ms -> msg_ok x -> m_type x = NLMSG_DONE ->
  fits (enc_msgs ms ++ enc_msg x) ->
  delivers (log w) (map enc_msgs dss ++ [enc_msgs ms ++ enc_msg x]) ->
  runs (nl_parse_info filter true 0 fd stack (Datatypes.S (length dss)) arg) w (fun res _ =>
    res = inl (fold_left filter_step (concat dss ++ ms) (0, arg))).
Proof.
  intros. by apply (parse_rounds_dump w dss ms x 0 arg).
Qed.

(** [nl_parse_info] does not give up on a receive error: when [recvmsg]
    keeps failing with anything but EAGAIN (a closed descriptor, for one) the
    loop goes on for ever, one more failing call per round. *)
Theorem nl_parse_info_spins n e w ret arg :
  e <> EAGAIN -> (forall h, rc (answer h (Recvmsg fd 4096)) < 0 /\ errno (answer h (Recvmsg fd 4096)) = e) ->
  runs (parse_rounds filter true 0 fd stack n ret arg) w (fun res w' =>
    res = inr (ret, arg) /\ length (log w') = (length (log w) + n)%nat).
Proof.
  intros He Hk. revert w. induction n as [|n IH]; intros w; cbn [parse_rounds].
  { apply runs_ret. split; [done|]. lia. }
  destruct (Hk (log w)) as [Hrc Her].
  apply runs_bind. unfold parse_round. apply runs_bind, runs_syscall.
  rewrite (proj2 (Z.ltb_lt _ 0) Hrc), Her.
  destruct (e =? EINTR); [|rewrite (proj2 (Z.eqb_neq e EAGAIN) He)]; apply runs_ret;
    (eapply runs_mono; [apply IH|]); cbn [log]; intros res w' [-> ->]; (split; [done|]);
    rewrite length_app; simpl length; lia.
Qed.

End Walk.

(** ** Any datagrams: the loop returns *)

Section Returns.
Context {S : Type} (filter : bytes -> Z -> S -> option (Z * S)).
Context (filter_total : forall buf h arg, is_Some (filter buf h arg)).
Context (is_cmd : bool) (cmd_pid : Z) {kernel : Kernel} (fd : Z) (stack : bytes).
Context (stack_bytes : Forall byte_ok stack) (stack_len : zlen stack = 4096).

Lemma parse_message_total buf h ret arg : zlen buf = 4096 -> 0 <= h -> h + 20 <= 4096 ->
  is_Some (parse_message filter is_cmd cmd_pid buf h ret arg).
Proof.
  intros Hb H0 H1. unfold parse_message. rewrite !rd_Some by (simpl; lia). cbn [mbind option_bind fmap option_fmap option_map].
  destruct (_ =? NLMSG_DONE); [eauto|]. destruct (_ =? NLMSG_ERROR).
  - repeat destruct (_ =? 0); eauto.
  - destruct (negb is_cmd && _); [eauto|]. destruct (filter_total buf h arg) as [[e arg'] ->]. simpl. eauto.
Qed.

(** Every step takes at least a header off [status]. *)
Lemma parse_messages_total fuel buf h status ret arg :
  Forall byte_ok buf -> zlen buf = 4096 -> 0 <= h -> h + status <= 4092 -> -4 < status -> Z.max 0 status < Z.of_nat fuel ->
  is_Some (parse_messages filter is_cmd cmd_pid fuel buf h status ret arg).
Proof.
  intros Hby Hb. revert h status ret arg. induction fuel as [|fuel IH]; intros h status ret arg H0 H1 Hl Hf; [lia|].
  cbn [parse_messages]. unfold NLMSG_OK. destruct (Z.geb_spec status 16) as [H16|H16]; [|cbn; eauto].
  rewrite rd_Some by (simpl; lia). cbn [mbind option_bind]. unfold u32. rewrite wrap_id by lia.
  destruct ((16 <=? get_le h 4 buf) && (get_le h 4 buf <=? status)) eqn:E; [|eauto].
  apply andb_true_iff in E as [E1%Z.leb_le E2%Z.leb_le].
  destruct (parse_message_total buf h ret arg Hb H0 ltac:(lia)) as [[[r a]|[r a]] ->]; cbn [mbind option_bind]; [eauto|].
  cbn [mbind option_bind]. destruct (align_bounds (get_le h 4 buf)) as [Hal _]; [lia|].
  rewrite s32_id by (unfold INT_MIN, INT_MAX; lia). apply IH; lia.
Qed.

(** The datagrams the buffer has room for, with a word to spare. *)
Definition sane (r : reply) : Prop := rc r <= 4092 /\ Forall byte_ok (payload r).

Lemma received_ok r : sane r -> Forall byte_ok (received stack r) /\ zlen (received stack r) = 4096.
Proof.
  intros [_ Hp]. unfold received. split.
  - unfold splice. rewrite !Forall_app. split_and!; [by apply Forall_take..|by apply Forall_drop].
  - unfold zlen in *. rewrite splice_length; [done|lia|]. unfold zlen. rewrite length_take. lia.
Qed.

Lemma parse_round_total w ret arg (Q : _ -> world -> Prop) :
  sane (answer (log w) (Recvmsg fd 4096)) ->
  (forall res, Q res (World (log w ++ [(Recvmsg fd 4096, answer (log w) (Recvmsg fd 4096))]) (live w) (br_socket_fd w))) ->
  runs (parse_round filter is_cmd cmd_pid fd stack ret arg) w Q.
Proof.
  intros Hs HQ. unfold parse_round. apply runs_bind, runs_syscall. set (r := answer _ _) in *.
  destruct (received_ok r Hs) as [Hby Hlen]. destruct Hs as [Hrc _].
  destruct (Z.ltb_spec (rc r) 0); [repeat destruct (_ =? _); by apply runs_ret|].
  destruct (negb (peer r =? 0)); [by apply runs_ret|]. destruct (rc r =? 0); [by apply runs_ret|].
  destruct (negb (peer_len r =? 12)); [by apply runs_ret|].
  destruct (parse_messages_total (Z.to_nat (rc r) + 1) (received stack r) 0 (rc r) ret arg Hby Hlen) as [x ->]; [lia..|].
  destruct x as [res a|st ret' a]; [by apply runs_ret|].
  destruct (negb _); [by apply runs_ret|]. destruct (negb _); by apply runs_ret.
Qed.

(** The receives of one call. *)
Definition receives (rs : list reply) : history := map (fun r => (Recvmsg fd 4096, r)) rs.

Definition exhausted (r : reply) : Prop := rc r < 0 /\ errno r = EAGAIN.

Lemma parse_rounds_return n : forall k w ret arg, (n < k)%nat ->
  (forall rs, sane (answer (log w ++ receives rs) (Recvmsg fd 4096))) ->
  (forall rs, length rs = n -> exhausted (answer (log w ++ receives rs) (Recvmsg fd 4096))) ->
  runs (parse_rounds filter is_cmd cmd_pid fd stack k ret arg) w (fun res _ => exists r, res = inl r).
Proof.
  induction n as [|n IH]; intros k w ret arg Hk Hs Hx; (destruct k as [|k]; [lia|]); cbn [parse_rounds]; apply runs_bind.
  - destruct (Hx [] eq_refl) as [H1 H2]. rewrite app_nil_r in H1, H2. unfold parse_round. apply runs_bind, runs_syscall.
    rewrite (proj2 (Z.ltb_lt _ 0) H1), H2. change (EAGAIN =? EINTR) with false. change (EAGAIN =? EAGAIN) with true. apply runs_ret, runs_ret. eauto.
  - apply parse_round_total; [specialize (Hs []); by rewrite app_nil_r in Hs|]. set (r := answer _ _).
    intros [res|[ret' arg']]; [apply runs_ret; eauto|]. apply IH; [lia| |]; cbn [log].
    + intros rs. rewrite <- app_assoc. apply (Hs (r :: rs)).
    + intros rs Hn. rewrite <- app_assoc. apply (Hx (r :: rs)). simpl. lia.
Qed.

(** C40: [nl_parse_info] comes to an end for any filter that returns on every
    message: if each datagram has at most 4092 bytes, which leaves a word of
    the buffer free, and the socket has nothing more to read after [n]
    receives, the function has returned by round [n + 1]; on the way it does
    not get stuck or read outside its buffer of 4096 bytes. Inside the buffer
    it may read bytes behind a message: those of an error message that is too
    short for its error number. *)
Theorem nl_parse_info_returns n k w arg : (n < k)%nat ->
  (forall rs, sane (answer (log w ++ receives rs) (Recvmsg fd 4096))) ->
  (forall rs, length rs = n -> exhausted (answer (log w ++ receives rs) (Recvmsg fd 4096))) ->
  runs (nl_parse_info filter is_cmd cmd_pid fd stack k arg) w (fun res _ => exists r, res = inl r).
Proof. apply parse_rounds_return. Qed.

End Returns.

(** ** The default route *)

(** [struct rtmsg]: family, lengths, tos, table, protocol, scope, type, flags. *)
Definition rtmsg (family dst_len src_len tos rtable protocol scope type flags : Z) : bytes :=
  le_bytes 1 family ++ le_bytes 1 dst_len ++ le_bytes 1 src_len ++ le_bytes 1 tos ++
  le_bytes 1 rtable ++ le_bytes 1 protocol ++ le_bytes 1 scope ++ le_bytes 1 type ++ le_bytes 4 flags.

(** The part of [nl_get_oif] behind the header tests. *)
Lemma nl_get_oif_route P Q rest family dst_len tos rtable protocol scope attrs :
  zlen rest = 12 -> get_le 0 2 rest = RTM_NEWROUTE ->
  Forall attr_ok attrs -> 0 <= protocol < 256 -> protocol <> RTPROT_REDIRECT -> protocol <> RTPROT_KERNEL ->
  zlen (P ++ wire rest (rtmsg family dst_len 0 tos rtable protocol scope RTN_UNICAST 0 ++ enc_all attrs) ++ Q) < 2 ^ 31 ->
  let buf := P ++ wire rest (rtmsg family dst_len 0 tos rtable protocol scope RTN_UNICAST 0 ++ enc_all attrs) ++ Q in
  exists tb, (forall t, 0 <= t <= RTA_MAX -> payload_at buf <$> attr_of tb t = last_of t None attrs) /\
    (forall t a, attr_of tb t = Some a -> 0 <= a) /\
    nl_get_oif buf (zlen P) =
    (index ← (match attr_of tb RTA_OIF with
              | Some a => Some <$> (s32 <$> rd (RTA_DATA a) 4 buf)
              | None => Some None
              end);
     match attr_of tb RTA_DST with
     | Some _ => Some (0, None)
     | None =>
         match attr_of tb RTA_GATEWAY with
         | Some _ => index ← index; Some (0, Some index)
         | None => None
         end
     end).
Proof.
  intros Hr Hty Hok Hpr Hp1 Hp2 Hbuf buf.
  assert (zlen buf < 2 ^ 31) as Hb31 by exact Hbuf.
  set (rt := rtmsg _ _ _ _ _ _ _ _ _) in *. assert (zlen rt = 12) as Hrt by reflexivity.
  pose proof (zlen_nonneg P). pose proof (zlen_nonneg Q). pose proof (zlen_nonneg (enc_all attrs)).
  set (n := 16 + zlen (rt ++ enc_all attrs)) in *.
  set (P1 := P ++ le_bytes 4 n ++ rest). assert (zlen P1 = zlen P + 16) as HP1
    by (unfold P1; rewrite !zlen_app, zlen_le; lia).
  assert (buf = (P1 ++ rt) ++ enc_all attrs ++ Q) as Eb.
  { unfold buf, P1, wire. fold n. by rewrite <- !app_assoc. }
  assert (zlen (P1 ++ rt) = zlen P + 28) as HP2 by (rewrite zlen_app; lia).
  assert (zlen buf = zlen P + 28 + zlen (enc_all attrs) + zlen Q) as Hz by (rewrite Eb, !zlen_app; lia).
  assert (n = 28 + zlen (enc_all attrs)) as En by (unfold n; rewrite zlen_app; lia).
  assert (forall k z j, (exists p q, rt = p ++ le_bytes j z ++ q /\ zlen p = k) -> 0 <= z < 256 ^ Z.of_nat j ->
    rd (zlen P + 16 + k) j buf = Some z) as Hfield.
  { intros k z j (p & q & Ert & Hk) Hzr.
    assert (k + Z.of_nat j <= 12) by (rewrite <- Hrt, Ert, !zlen_app, zlen_le; pose proof (zlen_nonneg q); lia).
    pose proof (zlen_nonneg p). rewrite rd_Some by lia. f_equal. rewrite Eb, Ert, <- !app_assoc, (app_assoc P1 p).
    apply get_le_at; [rewrite zlen_app; lia|done]. }
  assert (rd (zlen P) 4 buf = Some n) as Hlen.
  { rewrite rd_Some by lia. f_equal. unfold buf, wire. fold n. rewrite <- !app_assoc.
    apply get_le_at; [done|]. change (256 ^ Z.of_nat 4) with 4294967296. lia. }
  assert (rd (zlen P + 4) 2 buf = Some RTM_NEWROUTE) as Htype.
  { rewrite rd_Some by lia. f_equal. rewrite <- Hty. unfold buf, wire, get_le. fold n.
    rewrite <- !app_assoc, (app_assoc P).
    rewrite drop_app_length' by (rewrite length_app, le_bytes_length; unfold zlen; lia).
    rewrite take_app_le by (unfold zlen in Hr; lia). done. }
  destruct (parse_rtattr_built attrs (Datatypes.S (Z.to_nat (zlen (enc_all attrs)))) (no_attrs RTA_MAX) RTA_MAX
    (P1 ++ rt) Q (fun _ => None)) as (tb & Etb & _ & Hfind & Hpos); try done; try (rewrite <- Eb; lia); try lia.
  { by apply stored_empty. }
  rewrite <- Eb in Etb, Hfind. exists tb. split_and!; [exact Hfind|by intros t a Ha; apply (Hpos t)|].
  unfold nl_get_oif. rewrite Htype. cbn [mbind option_bind]. rewrite Z.eqb_refl. cbn [negb].
  rewrite (Hfield 7 RTN_UNICAST 1%nat); [|eexists (take 7 rt), _; by split|done].
  cbn [mbind option_bind]. rewrite Z.eqb_refl. cbn [negb]. rewrite Hlen. cbn [mbind option_bind].
  rewrite s32_id by (unfold INT_MIN, INT_MAX; lia).
  rewrite (proj2 (Z.ltb_ge (n - 28) 0)) by lia.
  unfold nl_parse_rtattr. replace (n - 28) with (zlen (enc_all attrs)) by lia.
  replace (zlen P + 16 + 12) with (zlen (P1 ++ rt)) by lia. rewrite Etb. cbn [mbind option_bind].
  rewrite (Hfield 8 0 4%nat); [|eexists (take 8 rt), []; by split|done]. cbn [mbind option_bind].
  change (Z.land 0 RTM_F_CLONED =? 0) with true. cbn [negb].
  rewrite (Hfield 5 protocol 1%nat); [|eexists (take 5 rt), _; by split|done]. cbn [mbind option_bind].
  rewrite (proj2 (Z.eqb_neq _ _) Hp1), (proj2 (Z.eqb_neq _ _) Hp2).
  rewrite (Hfield 2 0 1%nat); [|eexists (take 2 rt), _; by split|done]. cbn [mbind option_bind]. done.
Qed.

(** An attribute of four bytes read as an [int]. *)
Lemma rd_payload buf a d : 0 <= a -> payload_at buf a = d -> zlen d = 4 ->
  rd (RTA_DATA a) 4 buf = Some (le_value d).
Proof.
  intros Ha <- Hd. unfold payload_at, zlen in Hd. rewrite length_take, length_drop in Hd.
  unfold RTA_DATA in *. rewrite rd_Some by (unfold zlen; lia).
  f_equal. unfold get_le at 1. unfold payload_at, RTA_DATA. f_equal.
  set (l := drop _ buf) in *. set (k := Z.to_nat (_ - 4)) in *.
  assert (length l = (length buf - Z.to_nat (a + 4))%nat) as Hl by (unfold l; apply length_drop).
  rewrite <- (take_ge (take k l) 4) by (rewrite length_take; lia).
  rewrite take_take. f_equal. lia.
Qed.

(** [nl_get_oif] finds the default route: for a unicast route that is
    neither cloned nor made by the kernel or a redirect and has no
    destination but a gateway, it stores the outgoing interface of the
    message; the attributes may come in any order, with others between. *)
Theorem nl_get_oif_default_route P Q rest family dst_len tos rtable protocol scope attrs gw d :
  zlen rest = 12 -> get_le 0 2 rest = RTM_NEWROUTE ->
  Forall attr_ok attrs -> 0 <= protocol < 256 -> protocol <> RTPROT_REDIRECT -> protocol <> RTPROT_KERNEL ->
  zlen (P ++ wire rest (rtmsg family dst_len 0 tos rtable protocol scope RTN_UNICAST 0 ++ enc_all attrs) ++ Q) < 2 ^ 31 ->
  last_of RTA_DST None attrs = None -> last_of RTA_GATEWAY None attrs = Some gw ->
  last_of RTA_OIF None attrs = Some d -> zlen d = 4 ->
  nl_get_oif (P ++ wire rest (rtmsg family dst_len 0 tos rtable protocol scope RTN_UNICAST 0 ++ enc_all attrs) ++ Q)
    (zlen P) = Some (0, Some (s32 (le_value d))).
Proof.
  intros Hr Hty Hok Hpr Hp1 Hp2 Hbuf Hdst Hgw Hoif Hd.
  destruct (nl_get_oif_route P Q rest family dst_len tos rtable protocol scope attrs
    Hr Hty Hok Hpr Hp1 Hp2 Hbuf) as (tb & Hfind & Hpos & ->). set (buf := P ++ _) in *.
  pose proof (Hfind RTA_DST ltac:(vm_compute; intuition discriminate)) as F1.
  pose proof (Hfind RTA_GATEWAY ltac:(vm_compute; intuition discriminate)) as F2.
  pose proof (Hfind RTA_OIF ltac:(vm_compute; intuition discriminate)) as F3.
  rewrite Hdst in F1. rewrite Hgw in F2. rewrite Hoif in F3.
  apply fmap_None in F1. rewrite F1. apply fmap_Some in F2 as (a2 & E2 & _). rewrite E2.
  apply fmap_Some in F3 as (a3 & E3 & Hp3). rewrite E3.
  rewrite (rd_payload buf a3 d (Hpos _ _ E3) (eq_sym Hp3) Hd). done.
Qed.

(** [nl_get_oif] reads an uninitialised pointer on a default route
    without a gateway (a point-to-point link): [gate] is only set when the
    attribute is there, and the test for a default route then reads it. *)
Theorem nl_get_oif_uninitialised P Q rest family dst_len tos rtable protocol scope attrs :
  zlen rest = 12 -> get_le 0 2 rest = RTM_NEWROUTE ->
  Forall attr_ok attrs -> 0 <= protocol < 256 -> protocol <> RTPROT_REDIRECT -> protocol <> RTPROT_KERNEL ->
  zlen (P ++ wire rest (rtmsg family dst_len 0 tos rtable protocol scope RTN_UNICAST 0 ++ enc_all attrs) ++ Q) < 2 ^ 31 ->
  last_of RTA_DST None attrs = None -> last_of RTA_GATEWAY None attrs = None ->
  nl_get_oif (P ++ wire rest (rtmsg family dst_len 0 tos rtable protocol scope RTN_UNICAST 0 ++ enc_all attrs) ++ Q)
    (zlen P) = None.
Proof.
  intros Hr Hty Hok Hpr Hp1 Hp2 Hbuf Hdst Hgw.
  destruct (nl_get_oif_route P Q rest family dst_len tos rtable protocol scope attrs
    Hr Hty Hok Hpr Hp1 Hp2 Hbuf) as (tb & Hfind & _ & ->).
  pose proof (Hfind RTA_DST ltac:(vm_compute; intuition discriminate)) as F1.
  pose proof (Hfind RTA_GATEWAY ltac:(vm_compute; intuition discriminate)) as F2.
  rewrite Hdst in F1. rewrite Hgw in F2. apply fmap_None in F1, F2. rewrite F1, F2.
  by destruct (match attr_of tb RTA_OIF with Some _ => _ | None => _ end).
Qed.

(** ** Witnesses *)

Lemma nl_parse_rtattr_safe_witness :
  exists tb, nl_parse_rtattr (no_attrs 10) 10 [8; 0; 1; 0; 172; 16; 0; 2; 200; 0; 2; 0] 0 12 = Some tb /\
    zlen tb = 10 + 1 /\
    forall i a, 0 <= i -> attr_of tb i = Some a ->
      attr_in [8; 0; 1; 0; 172; 16; 0; 2; 200; 0; 2; 0] 0 (0 + 12) i a.
Proof.
  apply (nl_parse_rtattr_safe 10 [8; 0; 1; 0; 172; 16; 0; 2; 200; 0; 2; 0] 0 12).
  - unfold byte_ok. repeat constructor; vm_compute; intuition discriminate.
  - vm_compute. reflexivity.
  - lia.
  - lia.
  - lia.
  - vm_compute. discriminate.
Defined.

(** A route message: output interface 2, then a gateway, then the interface
    again, and a type that is too large. *)
Definition route_attrs : list (Z * bytes) :=
  [(RTA_OIF, [9; 0; 0; 0]); (RTA_GATEWAY, [172; 16; 0; 1]); (40, [7]); (RTA_OIF, [2; 0; 0; 0])].

Lemma route_attrs_ok : Forall attr_ok route_attrs.
Proof. repeat constructor; vm_compute; intuition discriminate. Qed.

Lemma nl_parse_rtattr_build_witness :
  exists tb, nl_parse_rtattr (no_attrs 30) 30 ([5; 5] ++ enc_all route_attrs ++ [6]) (zlen [5; 5])
               (zlen (enc_all route_attrs)) = Some tb /\
    forall t, 0 <= t <= 30 ->
      payload_at ([5; 5] ++ enc_all route_attrs ++ [6]) <$> attr_of tb t = last_of t None route_attrs.
Proof.
  apply (nl_parse_rtattr_build route_attrs 30 [5; 5] [6]).
  - lia.
  - exact route_attrs_ok.
  - vm_compute. reflexivity.
Defined.

Definition route_rest : bytes := hdr_rest RTM_NEWROUTE 0.

Lemma nl_get_oif_default_route_witness :
  nl_get_oif ([] ++ wire route_rest (rtmsg 2 0 0 0 254 3 0 RTN_UNICAST 0 ++ enc_all route_attrs) ++ [0])
    (zlen (@nil Z)) = Some (0, Some (s32 (le_value [2; 0; 0; 0]))).
Proof.
  apply (nl_get_oif_default_route [] [0] route_rest 2 0 0 254 3 0 route_attrs [172; 16; 0; 1] [2; 0; 0; 0]).
  - reflexivity.
  - reflexivity.
  - exact route_attrs_ok.
  - lia.
  - discriminate.
  - discriminate.
  - vm_compute. reflexivity.
  - reflexivity.
  - reflexivity.
  - reflexivity.
  - reflexivity.
Defined.

Lemma nl_get_oif_uninitialised_witness :
  nl_get_oif ([] ++ wire route_rest (rtmsg 2 0 0 0 254 3 0 RTN_UNICAST 0 ++ enc_all [(RTA_OIF, [2; 0; 0; 0])]) ++ [0])
    (zlen (@nil Z)) = None.
Proof.
  apply (nl_get_oif_uninitialised [] [0] route_rest 2 0 0 254 3 0 [(RTA_OIF, [2; 0; 0; 0])]).
  - reflexivity.
  - reflexivity.
  - repeat constructor; vm_compute; intuition discriminate.
  - lia.
  - discriminate.
  - discriminate.
  - vm_compute. reflexivity.
  - reflexivity.
  - reflexivity.
Defined.

(** A dump of two datagrams, and a filter that counts the messages. *)
Definition count_filter (buf : bytes) (h : Z) (n : Z) : option (Z * Z) := Some (0, n + 1).
Definition link_msg (body : bytes) : message := Msg (hdr_rest RTM_NEWLINK NLM_F_MULTI) body.
Definition done_msg : message := Msg (hdr_rest NLMSG_DONE NLM_F_MULTI) (replicate 4 0).

Definition dump1 : list message := [link_msg [1; 2; 3]; link_msg []].
Definition dump2 : list message := [link_msg [4]].

(** The datagrams, and EAGAIN when they are read. *)
Definition dump_kernel : Kernel := fun h c =>
  match c with
  | Recvmsg _ _ =>
      match length h with
      | O => datagram (enc_msgs dump1)
      | 1%nat => datagram (enc_msgs dump2 ++ enc_msg done_msg)
      | _ => Reply (-1) EAGAIN [] 0 0 0
      end
  | _ => ok 0
  end.

Lemma dump_delivers :
  delivers (kernel := dump_kernel) 3 (log w0) (map enc_msgs [dump1] ++ [enc_msgs dump2 ++ enc_msg done_msg]).
Proof.
  intros rs d Hd. cbn [answer dump_kernel log w0 app]. unfold answer, dump_kernel.
  rewrite length_map. destruct rs as [|r [|r2 rs]]; cbn in Hd |- *; by simplify_eq.
Qed.

Lemma dump_ok ms : ms = dump1 \/ ms = dump2 ->
  Forall msg_ok ms /\ Forall plain ms /\ fits (enc_msgs ms).
Proof.
  intros [-> | ->]; split_and!;
    repeat match goal with |- Forall _ _ => constructor end; vm_compute; intuition discriminate.
Qed.

Lemma nl_parse_info_dump_witness :
  runs (@nl_parse_info Z count_filter true 0 dump_kernel 3 (replicate 4096 0) 2 0) w0 (fun res _ =>
    res = inl (fold_left (filter_step (fun _ n => (0, n + 1))) (concat [dump1] ++ dump2) (0, 0))).
Proof.
  apply (@nl_parse_info_dump Z count_filter (fun _ n => (0, n + 1)) ltac:(done) dump_kernel 3
           (replicate 4096 0) w0 [dump1] dump2 done_msg 0).
  - reflexivity.
  - constructor; [apply dump_ok; by left|constructor].
  - apply dump_ok. by right.
  - apply dump_ok. by right.
  - vm_compute. intuition discriminate.
  - reflexivity.
  - vm_compute. intuition discriminate.
  - exact dump_delivers.
Defined.

Example dump_counted :
  @nl_parse_info Z count_filter true 0 dump_kernel 3 (replicate 4096 0) 2 0 w0 ≫= (fun x => Some x.1) =
  Some (inl (0, 3)).
Proof. vm_compute. reflexivity. Qed.

(** A descriptor that was closed. *)
Definition closed_kernel : Kernel := fun h c => Reply (-1) 9 [] 0 0 0.

Lemma nl_parse_info_spins_witness :
  runs (@parse_rounds Z count_filter true 0 closed_kernel 3 (replicate 4096 0) 1000 0 0) w0 (fun res w' =>
    res = inr (0, 0) /\ length (log w') = (length (log w0) + 1000)%nat).
Proof.
  apply (@nl_parse_info_spins Z count_filter closed_kernel 3 (replicate 4096 0) 1000 9 w0 0 0).
  - discriminate.
  - intros h. split; reflexivity.
Defined.

(** Three datagrams of noise, then nothing to read. *)
Definition noise_kernel : Kernel := fun h c =>
  if (length h <? 3)%nat then Reply 40 0 (replicate 40 20) 0 0 12 else Reply (-1) EAGAIN [] 0 0 0.

Lemma nl_parse_info_returns_witness :
  runs (@nl_parse_info Z count_filter true 0 noise_kernel 3 (replicate 4096 0) 4 0) w0 (fun res _ => exists r, res = inl r).
Proof.
  apply (@nl_parse_info_returns Z count_filter ltac:(intros; eexists; reflexivity) true 0 noise_kernel 3 (replicate 4096 0)
    ltac:(apply Forall_replicate; vm_compute; intuition discriminate) ltac:(reflexivity) 3 4 w0 0).
  - lia.
  - intros rs. unfold answer, noise_kernel. destruct (_ <? 3)%nat; (split; [vm_compute; discriminate|]);
      [apply Forall_replicate; vm_compute; intuition discriminate|constructor].
  - intros rs Hn. unfold answer, noise_kernel. cbn [log w0 app]. unfold receives. rewrite length_map, Hn.
    split; reflexivity.
Defined.

End NlParse.
