(* ===== verification/NlHash.v ===== *)
(** * The hash function of libnl ([lib/hash.c], [lib/hashtable.c:nl_hash])

    Bob Jenkins' lookup3: [hashlittle] reads the key in words, half words or
    bytes depending on the alignment of its address, [hashbig] in big-endian
    words or in bytes; [nl_hash_any] selects one of them from a configuration
    macro.  A key is the list of the bytes at the pointer; a load behind its
    end is undefined behaviour, [None].  The machine's byte order is a
    parameter of its own ([big_machine]), because the headers derive the
    configuration from a macro that is always defined.

    The theorems: all the read strategies compute one reference function
    when configuration and machine agree, the mixing step is reversible as
    its comment says, and on a big-endian machine the shipped configuration
    makes the hash depend on where the key is stored. *)

From S2P Require Import Prelude Netlink.
From Stdlib Require Import ZArith Lia String.
From stdpp Require Import base list numbers option.

Open Scope Z_scope.

Module NlHash.
Import Netlink.

(** ** Words *)

Definition rot (x k : Z) : Z := Z.lor (u32 (Z.shiftl x k)) (Z.shiftr x (32 - k)).

(** The state [a], [b], [c]. *)
Abbreviation abc := (Z * Z * Z)%type.

(** [x -= y] and [x += y] on [uint32_t]. *)
Definition add32 (x y : Z) : Z := u32 (x + y).
Definition sub32 (x y : Z) : Z := u32 (x - y).

Definition mix (s : abc) : abc :=
  let '(a, b, c) := s in
  let a := sub32 a c in let a := Z.lxor a (rot c 4) in let c := add32 c b in
  let b := sub32 b a in let b := Z.lxor b (rot a 6) in let a := add32 a c in
  let c := sub32 c b in let c := Z.lxor c (rot b 8) in let b := add32 b a in
  let a := sub32 a c in let a := Z.lxor a (rot c 16) in let c := add32 c b in
  let b := sub32 b a in let b := Z.lxor b (rot a 19) in let a := add32 a c in
  let c := sub32 c b in let c := Z.lxor c (rot b 4) in let b := add32 b a in
  (a, b, c).

Definition final (s : abc) : abc :=
  let '(a, b, c) := s in
  let c := Z.lxor c b in let c := sub32 c (rot b 14) in
  let a := Z.lxor a c in let a := sub32 a (rot c 11) in
  let b := Z.lxor b a in let b := sub32 b (rot a 25) in
  let c := Z.lxor c b in let c := sub32 c (rot b 16) in
  let a := Z.lxor a c in let a := sub32 a (rot c 4) in
  let b := Z.lxor b a in let b := sub32 b (rot a 14) in
  let c := Z.lxor c b in let c := sub32 c (rot b 24) in
  (a, b, c).

(** ** Loads *)

(** [k[i]] of a pointer to unsigned integers of [n] bytes. *)
Definition load (big_machine : bool) (n : nat) (k : bytes) (i : nat) : option Z :=
  let w := take n (drop (n * i) k) in
  if (length w =? n)%nat then Some (le_value (if big_machine then reverse w else w)) else None.

Section Machine.
(** The byte order of the machine and what the configuration says of it. *)
Variable big_machine : bool.

Abbreviation load8 := (load big_machine 1).
Abbreviation load16 := (load big_machine 2).
Abbreviation load32 := (load big_machine 4).

(** [((uint32_t)x) << n]. *)
Definition shl (x n : Z) : Z := u32 (Z.shiftl x n).

(** A block of twelve bytes, read in words, half words or bytes. *)
Definition words32 (k : bytes) (s : abc) : option abc :=
  let '(a, b, c) := s in
  k0 ← load32 k 0; let a := add32 a k0 in
  k1 ← load32 k 1; let b := add32 b k1 in
  k2 ← load32 k 2; let c := add32 c k2 in
  Some (a, b, c).

(** [k[i] + (((uint32_t)k[i + 1])<<16)]. *)
Definition pair16 (k : bytes) (i : nat) : option Z :=
  lo ← load16 k i; hi ← load16 k (i + 1); Some (add32 lo (shl hi 16)).

Definition words16 (k : bytes) (s : abc) : option abc :=
  let '(a, b, c) := s in
  w0 ← pair16 k 0; let a := add32 a w0 in
  w1 ← pair16 k 2; let b := add32 b w1 in
  w2 ← pair16 k 4; let c := add32 c w2 in
  Some (a, b, c).

(** [x += ((uint32_t)k[i])<<n]. *)
Definition acc8 (k : bytes) (i : nat) (n x : Z) : option Z :=
  v ← load8 k i; Some (add32 x (shl v n)).

Definition words8 (k : bytes) (s : abc) : option abc :=
  let '(a, b, c) := s in
  a ← acc8 k 0 0 a; a ← acc8 k 1 8 a; a ← acc8 k 2 16 a; a ← acc8 k 3 24 a;
  b ← acc8 k 4 0 b; b ← acc8 k 5 8 b; b ← acc8 k 6 16 b; b ← acc8 k 7 24 b;
  c ← acc8 k 8 0 c; c ← acc8 k 9 8 c; c ← acc8 k 10 16 c; c ← acc8 k 11 24 c;
  Some (a, b, c).

Definition words8_big (k : bytes) (s : abc) : option abc :=
  let '(a, b, c) := s in
  a ← acc8 k 0 24 a; a ← acc8 k 1 16 a; a ← acc8 k 2 8 a; a ← acc8 k 3 0 a;
  b ← acc8 k 4 24 b; b ← acc8 k 5 16 b; b ← acc8 k 6 8 b; b ← acc8 k 7 0 b;
  c ← acc8 k 8 24 c; c ← acc8 k 9 16 c; c ← acc8 k 10 8 c; c ← acc8 k 11 0 c;
  Some (a, b, c).

(** ** The loops over all but the last block *)

(** [while (length > 12)] with the block reader [words]; every round takes
    12 off [length], so [length] + 1 rounds are enough. *)
Fixpoint blocks (words : bytes -> abc -> option abc) (fuel : nat) (k : bytes) (length : Z) (s : abc) :
    option (bytes * Z * abc) :=
  match fuel with
  | O => None
  | S fuel' =>
      if length >? 12 then
        s ← words k s;
        blocks words fuel' (drop 12 k) (length - 12) (mix s)
      else Some (k, length, s)
  end.

(** ** The last block

    A [case] of the switch that falls through runs when [length] is at least
    its label. *)
Definition from (n length : Z) (f : Z -> option Z) (x : Z) : option Z :=
  if n <=? length then f x else Some x.

Definition tail32 (k : bytes) (length : Z) (s : abc) : option abc :=
  let '(a, b, c) := s in
  if length =? 12 then
    k2 ← load32 k 2; k1 ← load32 k 1; k0 ← load32 k 0;
    Some (add32 a k0, add32 b k1, add32 c k2)
  else if 8 <=? length then
    c ← from 11 length (acc8 k 10 16) c;
    c ← from 10 length (acc8 k 9 8) c;
    c ← from 9 length (acc8 k 8 0) c;
    k1 ← load32 k 1; k0 ← load32 k 0;
    Some (add32 a k0, add32 b k1, c)
  else if 4 <=? length then
    b ← from 7 length (acc8 k 6 16) b;
    b ← from 6 length (acc8 k 5 8) b;
    b ← from 5 length (acc8 k 4 0) b;
    k0 ← load32 k 0;
    Some (add32 a k0, b, c)
  else
    a ← from 3 length (acc8 k 2 16) a;
    a ← from 2 length (acc8 k 1 8) a;
    a ← acc8 k 0 0 a;
    Some (a, b, c).

Definition acc16 (k : bytes) (i : nat) (x : Z) : option Z :=
  v ← load16 k i; Some (add32 x v).

Definition acc_pair16 (k : bytes) (i : nat) (x : Z) : option Z :=
  v ← pair16 k i; Some (add32 x v).

Definition tail16 (k : bytes) (length : Z) (s : abc) : option abc :=
  let '(a, b, c) := s in
  if length =? 12 then
    c ← acc_pair16 k 4 c; b ← acc_pair16 k 2 b; a ← acc_pair16 k 0 a; Some (a, b, c)
  else if 10 <=? length then
    c ← from 11 length (acc8 k 10 16) c;
    c ← acc16 k 4 c; b ← acc_pair16 k 2 b; a ← acc_pair16 k 0 a; Some (a, b, c)
  else if 8 <=? length then
    c ← from 9 length (acc8 k 8 0) c;
    b ← acc_pair16 k 2 b; a ← acc_pair16 k 0 a; Some (a, b, c)
  else if 6 <=? length then
    b ← from 7 length (acc8 k 6 16) b;
    b ← acc16 k 2 b; a ← acc_pair16 k 0 a; Some (a, b, c)
  else if 4 <=? length then
    b ← from 5 length (acc8 k 4 0) b;
    a ← acc_pair16 k 0 a; Some (a, b, c)
  else if 2 <=? length then
    a ← from 3 length (acc8 k 2 16) a;
    a ← acc16 k 0 a; Some (a, b, c)
  else a ← acc8 k 0 0 a; Some (a, b, c).

Definition tail8 (k : bytes) (length : Z) (s : abc) : option abc :=
  let '(a, b, c) := s in
  c ← from 12 length (acc8 k 11 24) c;
  c ← from 11 length (acc8 k 10 16) c;
  c ← from 10 length (acc8 k 9 8) c;
  c ← from 9 length (acc8 k 8 0) c;
  b ← from 8 length (acc8 k 7 24) b;
  b ← from 7 length (acc8 k 6 16) b;
  b ← from 6 length (acc8 k 5 8) b;
  b ← from 5 length (acc8 k 4 0) b;
  a ← from 4 length (acc8 k 3 24) a;
  a ← from 3 length (acc8 k 2 16) a;
  a ← from 2 length (acc8 k 1 8) a;
  a ← acc8 k 0 0 a;
  Some (a, b, c).

Definition tail32_big (k : bytes) (length : Z) (s : abc) : option abc :=
  let '(a, b, c) := s in
  if length =? 12 then
    k2 ← load32 k 2; k1 ← load32 k 1; k0 ← load32 k 0;
    Some (add32 a k0, add32 b k1, add32 c k2)
  else if 8 <=? length then
    c ← from 11 length (acc8 k 10 8) c;
    c ← from 10 length (acc8 k 9 16) c;
    c ← from 9 length (acc8 k 8 24) c;
    k1 ← load32 k 1; k0 ← load32 k 0;
    Some (add32 a k0, add32 b k1, c)
  else if 4 <=? length then
    b ← from 7 length (acc8 k 6 8) b;
    b ← from 6 length (acc8 k 5 16) b;
    b ← from 5 length (acc8 k 4 24) b;
    k0 ← load32 k 0;
    Some (add32 a k0, b, c)
  else
    a ← from 3 length (acc8 k 2 8) a;
    a ← from 2 length (acc8 k 1 16) a;
    a ← acc8 k 0 24 a;
    Some (a, b, c).

Definition tail8_big (k : bytes) (length : Z) (s : abc) : option abc :=
  let '(a, b, c) := s in
  c ← from 12 length (acc8 k 11 0) c;
  c ← from 11 length (acc8 k 10 8) c;
  c ← from 10 length (acc8 k 9 16) c;
  c ← from 9 length (acc8 k 8 24) c;
  b ← from 8 length (acc8 k 7 0) b;
  b ← from 7 length (acc8 k 6 8) b;
  b ← from 6 length (acc8 k 5 16) b;
  b ← from 5 length (acc8 k 4 24) b;
  a ← from 4 length (acc8 k 3 0) a;
  a ← from 3 length (acc8 k 2 8) a;
  a ← from 2 length (acc8 k 1 16) a;
  a ← acc8 k 0 24 a;
  Some (a, b, c).

(** ** The functions *)

(** The loop, then [case 0] or the last block and [final]; the result and
    the new [*val2]. *)
Definition hash_with (words : bytes -> abc -> option abc) (tail : bytes -> Z -> abc -> option abc)
    (k : bytes) (length : Z) (s : abc) (val2 : Z) : option (Z * Z) :=
  '(k, length, s) ← blocks words (S (Z.to_nat length)) k length s;
  if length =? 0 then Some (s.2, val2)
  else
    s ← tail k length s;
    let '(a, b, c) := final s in Some (c, b).

(** [addr] is the value of the pointer. *)
Definition hashlittle (little_config : bool) (addr : Z) (key : bytes) (length val2 : Z) : option (Z * Z) :=
  let a := add32 (add32 3735928559 (u32 length)) val2 in
  let s := (a, a, a) in
  if little_config && (Z.land addr 3 =? 0) then hash_with words32 tail32 key length s val2
  else if little_config && (Z.land addr 1 =? 0) then hash_with words16 tail16 key length s val2
  else hash_with words8 tail8 key length s val2.

Definition hashbig (big_config : bool) (addr : Z) (key : bytes) (length val2 : Z) : option (Z * Z) :=
  let a := add32 (add32 3735928559 (u32 length)) val2 in
  let s := (a, a, a) in
  if big_config && (Z.land addr 3 =? 0) then hash_with words32 tail32_big key length s val2
  else hash_with words8_big tail8_big key length s val2.

(** [HASH_BIG_ENDIAN] is 1 exactly when [HASH_LITTLE_ENDIAN] is 0. *)
Definition nl_hash_any (little_config : bool) (addr : Z) (key : bytes) (length base : Z) : option Z :=
  fst <$> (if negb little_config then hashbig (negb little_config) addr key length base
           else hashlittle little_config addr key length base).

End Machine.

(** [endian.h] defines [__LITTLE_ENDIAN] as a number on every machine, so
    [hash.h] sets [HAVE_LITTLE_ENDIAN] always. *)
Definition HASH_LITTLE_ENDIAN : bool := true.

(** [sizeof ( *(p) )] of a [void] pointer is 1 (a GNU extension). *)
Definition nl_hash (big_machine : bool) (addr : Z) (k : bytes) (length initval : Z) : option Z :=
  nl_hash_any big_machine HASH_LITTLE_ENDIAN addr k length initval.

(** ** The reference function *)

(** The bytes of a word, fewer at the end of the key: missing bytes are 0. *)
Definition word (big : bool) (w : bytes) : Z :=
  le_value (if big then reverse (w ++ replicate (4 - length w) 0) else w).

Definition absorb (big : bool) (block : bytes) (s : abc) : abc :=
  let '(a, b, c) := s in
  (add32 a (word big (take 4 block)), add32 b (word big (take 4 (drop 4 block))),
   add32 c (word big (take 4 (drop 8 block)))).

(** Blocks of twelve bytes are absorbed and mixed, the last one absorbed and
    finished; the empty key is not mixed at all. *)
Fixpoint lookup3_loop (big : bool) (fuel : nat) (key : bytes) (s : abc) (val2 : Z) : Z * Z :=
  match fuel with
  | O => (s.2, val2)
  | S fuel' =>
      if zlen key >? 12 then lookup3_loop big fuel' (drop 12 key) (mix (absorb big (take 12 key) s)) val2
      else if zlen key =? 0 then (s.2, val2)
      else let '(a, b, c) := final (absorb big key s) in (c, b)
  end.

Definition lookup3 (big : bool) (key : bytes) (base : Z) : Z * Z :=
  let a := u32 (3735928559 + zlen key + base) in
  lookup3_loop big (S (length key)) key (a, a, a) base.

(** ** All strategies read the same words *)

Definition word_ok (x : Z) : Prop := 0 <= x < 2 ^ 32.
Definition abc_ok (s : abc) : Prop := let '(a, b, c) := s in word_ok a /\ word_ok b /\ word_ok c.

(** The blocks a strategy has to read. *)
Definition reads (big : bool) (words : bytes -> abc -> option abc) : Prop := forall k s,
  (12 <= length k)%nat -> words k s = Some (absorb big (take 12 k) s).

Definition reads_tail (big : bool) (tail : bytes -> Z -> abc -> option abc) : Prop := forall k n s,
  (1 <= n <= 12)%nat -> (n <= length k)%nat -> abc_ok s ->
  tail k (Z.of_nat n) s = Some (absorb big (take n k) s).

(** The first [n] elements of a list that has them. *)
Ltac destruct_list n k H :=
  lazymatch n with
  | O => idtac
  | S ?n' => destruct k as [|? k]; [exfalso; cbn [length] in H; lia|]; destruct_list n' k H
  end.

Lemma add32_assoc x y z : add32 (add32 x y) z = add32 x (y + z).
Proof. unfold add32, u32, wrap. rewrite Zplus_mod_idemp_l. f_equal. lia. Qed.

Lemma add32_shl x y n : 0 <= n -> add32 x (shl y n) = add32 x (y * 2 ^ n).
Proof. intros. unfold add32, shl, u32, wrap. rewrite Zplus_mod_idemp_r, Z.shiftl_mul_pow2 by done. done. Qed.

Lemma add32_add32 x y z : add32 x (add32 y z) = add32 x (y + z).
Proof. unfold add32, u32, wrap. by rewrite Zplus_mod_idemp_r. Qed.

Lemma add32_0 x : word_ok x -> add32 x 0 = x.
Proof. intros. unfold add32, u32. by rewrite Z.add_0_r, wrap_id. Qed.

Lemma add32_ok x y : word_ok (add32 x y).
Proof. by apply wrap_range. Qed.

Lemma sub32_ok x y : word_ok (sub32 x y).
Proof. by apply wrap_range. Qed.

Lemma Some_abc (a a' b b' c c' : Z) :
  a = a' -> b = b' -> c = c' -> Some (a, b, c) = Some (a', b', c').
Proof. congruence. Qed.

(** The loads of a list whose elements are known, then the sums modulo [2^32]. *)
Ltac solve_reads :=
  cbv -[add32 shl Z.mul Z.add Z.pow word_ok]; apply Some_abc;
  rewrite ?add32_shl, ?add32_add32, ?add32_assoc by lia; rewrite ?add32_0 by done;
  try reflexivity; unfold add32; f_equal; lia.

(** One case for every length of the last block. *)
Ltac solve_tail :=
  intros k n [[a b] c] Hn Hk (Ha & Hb & Hc);
  do 13 (destruct n as [|n];
    [first [ lia | match type of Hk with (?m <= _)%nat => destruct_list m k Hk end; solve_reads ]|]);
  lia.

Lemma words8_reads big : reads false (words8 big).
Proof. intros k [[a b] c] Hk. destruct_list 12%nat k Hk. destruct big; solve_reads. Qed.

Lemma words8_big_reads big : reads true (words8_big big).
Proof. intros k [[a b] c] Hk. destruct_list 12%nat k Hk. destruct big; solve_reads. Qed.

Lemma words32_reads big : reads big (words32 big).
Proof. intros k [[a b] c] Hk. destruct_list 12%nat k Hk. destruct big; solve_reads. Qed.

Lemma words16_reads : reads false (words16 false).
Proof. intros k [[a b] c] Hk. destruct_list 12%nat k Hk. solve_reads. Qed.

Lemma tail8_reads big : reads_tail false (tail8 big).
Proof. destruct big; solve_tail. Qed.

Lemma tail8_big_reads big : reads_tail true (tail8_big big).
Proof. destruct big; solve_tail. Qed.

Lemma tail16_reads : reads_tail false (tail16 false).
Proof. solve_tail. Qed.

Lemma tail32_reads : reads_tail false (tail32 false).
Proof. solve_tail. Qed.

Lemma tail32_big_reads : reads_tail true (tail32_big true).
Proof. solve_tail. Qed.

(** ** Words stay words *)

Lemma word_ok_bits x : word_ok x <-> 0 <= x /\ forall i, 32 <= i -> Z.testbit x i = false.
Proof.
  unfold word_ok. split.
  - intros Hx. split; [lia|]. intros i Hi. rewrite <- (Z.mod_small x (2 ^ 32)) by lia.
    apply Z.mod_pow2_bits_high. lia.
  - intros [Hx Hb]. split; [done|]. destruct (decide (x = 0)) as [->|]; [lia|].
    apply Z.log2_lt_pow2; [lia|]. destruct (Z.lt_ge_cases (Z.log2 x) 32) as [|Hl]; [done|].
    specialize (Hb _ Hl). rewrite Z.bit_log2 in Hb by lia. done.
Qed.

Lemma lxor_ok x y : word_ok x -> word_ok y -> word_ok (Z.lxor x y).
Proof.
  rewrite !word_ok_bits. intros [Hx Bx] [Hy By]. split; [apply Z.lxor_nonneg; lia|].
  intros i Hi. by rewrite Z.lxor_spec, Bx, By.
Qed.

Lemma rot_ok x k : 0 <= k <= 32 -> word_ok x -> word_ok (rot x k).
Proof.
  intros Hk Hx. unfold rot. assert (word_ok (u32 (Z.shiftl x k))) as H1 by (by apply wrap_range).
  revert H1 Hx. rewrite !word_ok_bits. intros [H1 B1] [Hx Bx]. split.
  - apply Z.lor_nonneg. split; [done|]. by apply Z.shiftr_nonneg.
  - intros i Hi. rewrite Z.lor_spec, B1, Z.shiftr_spec, Bx by lia. done.
Qed.

Create HintDb words.
#[local] Hint Resolve add32_ok sub32_ok lxor_ok rot_ok : words.

(** ** Mixing is reversible

    The macro is six rounds of one step on rotating names. *)
Definition turn (k : Z) (s : abc) : abc :=
  let '(x, y, z) := s in (y, add32 z y, Z.lxor (sub32 x z) (rot z k)).

Definition unturn (k : Z) (s : abc) : abc :=
  let '(y, z, x) := s in let z := sub32 z y in (add32 (Z.lxor x (rot z k)) z, y, z).

Lemma mix_turns s : mix s = turn 4 (turn 19 (turn 16 (turn 8 (turn 6 (turn 4 s))))).
Proof. by destruct s as [[a b] c]. Qed.

Definition unmix (s : abc) : abc := unturn 4 (unturn 6 (unturn 8 (unturn 16 (unturn 19 (unturn 4 s))))).

Lemma turn_ok k s : 0 <= k <= 32 -> abc_ok s -> abc_ok (turn k s).
Proof. destruct s as [[x y] z]. intros ? (? & ? & ?). split_and!; auto with words. Qed.

Lemma unturn_ok k s : 0 <= k <= 32 -> abc_ok s -> abc_ok (unturn k s).
Proof. destruct s as [[x y] z]. intros ? (? & ? & ?). split_and!; auto with words. Qed.

Lemma sub32_add32 x y : word_ok x -> sub32 (add32 x y) y = x.
Proof.
  intros Hx. unfold sub32, add32, u32, wrap. rewrite Zminus_mod_idemp_l.
  rewrite Z.add_simpl_r. by apply Z.mod_small.
Qed.

Lemma add32_sub32 x y : word_ok x -> add32 (sub32 x y) y = x.
Proof.
  intros Hx. unfold sub32, add32, u32, wrap. rewrite Zplus_mod_idemp_l.
  rewrite Z.sub_add. by apply Z.mod_small.
Qed.

Lemma lxor_cancel x y : Z.lxor (Z.lxor x y) y = x.
Proof. by rewrite Z.lxor_assoc, Z.lxor_nilpotent, Z.lxor_0_r. Qed.

Lemma unturn_turn k s : abc_ok s -> unturn k (turn k s) = s.
Proof.
  destruct s as [[x y] z]. intros (? & ? & ?). unfold turn, unturn.
  by rewrite sub32_add32, lxor_cancel, add32_sub32.
Qed.

Lemma turn_unturn k s : 0 <= k <= 32 -> abc_ok s -> turn k (unturn k s) = s.
Proof.
  destruct s as [[y z] x]. intros ? (? & ? & ?). unfold turn, unturn.
  rewrite add32_sub32, sub32_add32, lxor_cancel by auto with words. done.
Qed.

Lemma mix_ok s : abc_ok s -> abc_ok (mix s).
Proof. intros. rewrite mix_turns. repeat (apply turn_ok; [lia|]). done. Qed.

Ltac turns_ok := repeat (first [apply turn_ok | apply unturn_ok]; [lia|]); done.

(** [mix] is reversible, as its comment promises: on words it has an
    inverse on both sides, so no information of the state is lost between
    blocks. *)
Theorem mix_reversible s : abc_ok s -> abc_ok (mix s) /\ unmix (mix s) = s /\ mix (unmix s) = s.
Proof.
  intros Hs. split; [by apply mix_ok|]. rewrite !mix_turns. unfold unmix. split.
  - rewrite !unturn_turn by turns_ok. done.
  - rewrite !turn_unturn by first [lia | turns_ok]. done.
Qed.

(** ** The loops *)

Lemma zlen_take_le {A} n (l : list A) : (n <= length l)%nat -> zlen (take n l) = Z.of_nat n.
Proof. intros. unfold zlen. rewrite length_take. lia. Qed.

Lemma absorb_ok big block s : abc_ok (absorb big block s).
Proof. destruct s as [[a b] c]. split_and!; apply add32_ok. Qed.

(** A strategy that reads the right words computes the reference loop. *)
Lemma hash_with_ref big words tail fuel1 fuel2 k (n : nat) s val2 :
  reads big words -> reads_tail big tail -> abc_ok s -> (n <= length k)%nat ->
  (n < fuel1)%nat -> (n < fuel2)%nat ->
  ('(k, length, s) ← blocks words fuel1 k (Z.of_nat n) s;
   if length =? 0 then Some (s.2, val2)
   else s ← tail k length s; let '(a, b, c) := final s in Some (c, b)) =
  Some (lookup3_loop big fuel2 (take n k) s val2).
Proof.
  intros Hw Ht. revert fuel2 k n s. induction fuel1 as [|fuel1 IH]; intros fuel2 k n s Hs Hk Hf1 Hf2; [lia|].
  destruct fuel2 as [|fuel2]; [lia|]. cbn [blocks lookup3_loop]. rewrite zlen_take_le by done.
  destruct (Z.of_nat n >? 12) eqn:E.
  - assert (12 < n)%nat by lia. rewrite Hw by lia. cbn [mbind option_bind].
    replace (Z.of_nat n - 12) with (Z.of_nat (n - 12)) by lia.
    rewrite take_take, Nat.min_l by lia. rewrite IH with (fuel2 := fuel2);
      [|apply mix_ok, absorb_ok|rewrite length_drop; lia|lia|lia].
    do 2 f_equal. rewrite skipn_firstn_comm. done.
  - cbn [mbind option_bind]. destruct (Z.of_nat n =? 0) eqn:E0; [done|].
    rewrite Ht by (done || lia). cbn [mbind option_bind]. by destruct (final _) as [[? ?] ?].
Qed.

Lemma hash_with_lookup3 big words tail k n s val2 :
  reads big words -> reads_tail big tail -> abc_ok s -> 0 <= n <= zlen k ->
  hash_with words tail k n s val2 =
  Some (lookup3_loop big (S (length (take (Z.to_nat n) k))) (take (Z.to_nat n) k) s val2).
Proof.
  intros Hw Ht Hs Hn. unfold hash_with. unfold zlen in Hn.
  pose proof (hash_with_ref big words tail (S (Z.to_nat n)) (S (length (take (Z.to_nat n) k))) k
    (Z.to_nat n) s val2) as E. rewrite Z2Nat.id in E by lia. apply E; try done; try lia. rewrite length_take. lia.
Qed.

Lemma start_eq n (val2 : Z) : 
  add32 (add32 3735928559 (u32 n)) val2 = u32 (3735928559 + n + val2).
Proof. unfold add32, u32, wrap. rewrite Zplus_mod_idemp_r, Zplus_mod_idemp_l. done. Qed.

Lemma nl_hash_any_value big addr key length base :
  0 <= length <= zlen key ->
  nl_hash_any big (negb big) addr key length base =
  Some (fst (lookup3 big (take (Z.to_nat length) key) base)).
Proof.
  intros Hl. unfold nl_hash_any, lookup3.
  rewrite zlen_take_le by (unfold zlen in Hl; lia). rewrite Z2Nat.id by lia.
  set (a := u32 _). assert (abc_ok (a, a, a)) by (split_and!; by apply wrap_range).
  destruct big; cbn [negb].
  - unfold hashbig. rewrite start_eq. fold a. cbn [andb]. destruct (Z.land addr 3 =? 0).
    + rewrite (hash_with_lookup3 true) by auto using words32_reads, tail32_big_reads. done.
    + rewrite (hash_with_lookup3 true) by auto using words8_big_reads, tail8_big_reads. done.
  - unfold hashlittle. rewrite start_eq. fold a. cbn [andb]. destruct (Z.land addr 3 =? 0); [|destruct (Z.land addr 1 =? 0)].
    + rewrite (hash_with_lookup3 false) by auto using words32_reads, tail32_reads. done.
    + rewrite (hash_with_lookup3 false) by auto using words16_reads, tail16_reads. done.
    + rewrite (hash_with_lookup3 false) by auto using words8_reads, tail8_reads. done.
Qed.

(** C32: the hash is well defined and does not depend on how the key is read:
    on a machine whose byte order is the configured one, for a key of
    [length] bytes at any address, [nl_hash_any] reads only those bytes and
    returns the reference function of them, whether it reads them in words,
    half words or bytes, on little- and on big-endian machines. *)
Theorem nl_hash_any_lookup3 big addr key length base :
  0 <= length <= zlen key ->
  nl_hash_any big (negb big) addr key length base =
  Some (fst (lookup3 big (take (Z.to_nat length) key) base)).
Proof. apply nl_hash_any_value. Qed.

(** On a big-endian machine the shipped configuration still reads an aligned
    key in words, whose bytes come in the other order: equal keys at two
    addresses have different hashes. *)
Lemma nl_hash_depends_on_address :
  nl_hash true 0 [1; 2; 3; 4] 4 0 <> nl_hash true 1 [1; 2; 3; 4] 4 0.
Proof. by vm_compute. Qed.

(** ** Witnesses *)

Lemma mix_reversible_witness :
  abc_ok (1, 2, 3) /\ unmix (mix (1, 2, 3)) = (1, 2, 3).
Proof.
  assert (abc_ok (1, 2, 3)) as H by (split_and!; vm_compute; intuition discriminate).
  split; [exact H|]. exact (proj1 (proj2 (mix_reversible _ H))).
Defined.

Lemma nl_hash_any_lookup3_witness :
  nl_hash_any false true 2 (str "netlink route cache") 15 7 =
  Some (fst (lookup3 false (str "netlink route c") 7)).
Proof. apply (nl_hash_any_lookup3 false 2 (str "netlink route cache") 15 7). vm_compute. intuition discriminate. Defined.

End NlHash.
