(* ===== verification/NlAttr.v ===== *)
(** * Netlink attributes and messages of libnl ([lib/attr.c], [lib/msg.c])

    A pointer into a message is an offset into its bytes; a load outside the
    bytes, and a [BUG ()] (which aborts), is [None].  Integers have the width
    and the signedness the C code gives them: [nla_ok] compares an [int] with
    a [size_t], for instance, and [nla_reserve] computes the new length in an
    [int].

    The theorems: parsing with a policy ends, stays inside the buffer and
    yields attributes of the types the policy asks for, so that the unchecked
    getters are defined; what the builder writes is what the parser finds,
    nested attributes included; and the places where reads go past the end or
    a length is cut. *)

From S2P Require Import Prelude Netlink Syscalls NetRequests NlParse.
From Stdlib Require Import ZArith Lia String.
From stdpp Require Import base list numbers option.

Open Scope Z_scope.

Module NlAttr.
Import Netlink NlParse.

Definition NLE_NOMEM : Z := 5.
Definition NLE_INVAL : Z := 7.
Definition NLE_RANGE : Z := 8.
Definition NLE_MSG_TOOSHORT : Z := 21.

Definition NLA_UNSPEC : Z := 0.
Definition NLA_U8 : Z := 1.
Definition NLA_U16 : Z := 2.
Definition NLA_U32 : Z := 3.
Definition NLA_U64 : Z := 4.
Definition NLA_STRING : Z := 5.
Definition NLA_FLAG : Z := 6.
Definition NLA_MSECS : Z := 7.
Definition NLA_NESTED : Z := 8.
Definition NLA_TYPE_MAX : Z := 8.
Definition NLA_HDRLEN : Z := 4.

(** ** Sizes *)

(** [NLA_ALIGN] of an [int]. *)
Definition NLA_ALIGN (len : Z) : Z := Z.land (s32 (len + 3)) (-4).

Definition nla_attr_size (payload : Z) : Z := s32 (NLA_HDRLEN + payload).
Definition nla_total_size (payload : Z) : Z := NLA_ALIGN (nla_attr_size payload).
Definition nla_padlen (payload : Z) : Z := s32 (nla_total_size payload - nla_attr_size payload).

(** ** Attributes *)

(** [NLA_TYPE_MASK] clears the two flags at the top. *)
Definition nla_type (buf : bytes) (nla : Z) : option Z :=
  t ← rd (nla + 2) 2 buf; Some (Z.land t (Z.lnot (Z.lor 32768 16384))).

Definition nla_is_nested (buf : bytes) (nla : Z) : option bool :=
  t ← rd (nla + 2) 2 buf; Some (negb (Z.land t 32768 =? 0)).

Definition nla_data (nla : Z) : Z := nla + NLA_HDRLEN.

Definition nla_len (buf : bytes) (nla : Z) : option Z :=
  l ← rd nla 2 buf; Some (l - NLA_HDRLEN).

(** [remaining >= sizeof ( *nla)] is a comparison of [size_t]s. *)
Definition nla_ok (buf : bytes) (nla remaining : Z) : option bool :=
  if u64 remaining >=? 4 then
    l ← rd nla 2 buf; Some ((4 <=? l) && (l <=? remaining))
  else Some false.

Definition nla_next (buf : bytes) (nla remaining : Z) : option (Z * Z) :=
  l ← rd nla 2 buf;
  let totlen := NLA_ALIGN l in
  Some (nla + totlen, s32 (remaining - totlen)).

(** ** Validation *)

Record nla_policy := Policy { p_type : Z; minlen : Z; maxlen : Z }.

Definition nla_attr_minlen : list Z := [0; 1; 2; 4; 8; 1; 0; 0; 0].

Definition validate_nla (buf : bytes) (nla maxtype : Z) (policy : list nla_policy) : option Z :=
  type ← nla_type buf nla;
  if (type <? 0) || (type >? maxtype) then Some 0 else
  pt ← policy !! Z.to_nat type;
  if p_type pt >? NLA_TYPE_MAX then None else
  min ← (if negb (minlen pt =? 0) then Some (minlen pt)
         else if negb (p_type pt =? NLA_UNSPEC) then nla_attr_minlen !! Z.to_nat (p_type pt)
         else Some 0);
  len ← nla_len buf nla;
  if u32 len <? min then Some (- NLE_RANGE) else
  if negb (maxlen pt =? 0) && (len >? maxlen pt) then Some (- NLE_RANGE) else
  if p_type pt =? NLA_STRING then
    last ← rd (nla_data nla + len - 1) 1 buf;
    if negb (last =? 0) then Some (- NLE_INVAL) else Some 0
  else Some 0.

(** [nla_for_each_attr (nla, head, len, rem) body]: [body] returns [inl] to
    leave the function and [inr] to go on.  Every round takes at least four
    bytes off [rem], so [len] + 1 rounds are enough. *)
Fixpoint nla_for_each_attr {S R : Type} (fuel : nat) (body : Z -> S -> option (R + S))
    (buf : bytes) (nla rem : Z) (s : S) : option (R + S) :=
  match fuel with
  | O => None
  | Datatypes.S fuel' =>
      ok ← nla_ok buf nla rem;
      if ok : bool then
        step ← body nla s;
        match step with
        | inl r => Some (inl r)
        | inr s =>
            '(nla, rem) ← nla_next buf nla rem;
            nla_for_each_attr fuel' body buf nla rem s
        end
      else Some (inr s)
  end.

(** The body of [nla_parse]; [inl] is [goto errout]. *)
Definition parse_attr (maxtype : Z) (policy : option (list nla_policy)) (buf : bytes) (nla : Z)
    (tb : table) : option (table * Z + table) :=
  type ← nla_type buf nla;
  if type >? maxtype then Some (inr tb) else
  err ← (match policy with Some p => validate_nla buf nla maxtype p | None => Some 0 end);
  if err <? 0 then Some (inl (tb, err)) else
  Some (inr (<[Z.to_nat type := Some nla]> tb)).

(** The table and the error code. *)
Definition nla_parse (maxtype : Z) (buf : bytes) (head len : Z) (policy : option (list nla_policy)) :
    option (table * Z) :=
  r ← nla_for_each_attr (S (Z.to_nat len)) (parse_attr maxtype policy buf) buf head len (no_attrs maxtype);
  Some (match r with inl (tb, err) => (tb, err) | inr tb => (tb, 0) end).

Definition nla_validate (buf : bytes) (head len maxtype : Z) (policy : list nla_policy) : option Z :=
  r ← nla_for_each_attr (S (Z.to_nat len))
        (fun nla (_ : unit) =>
           err ← validate_nla buf nla maxtype policy;
           Some (if err <? 0 then inl err else inr tt)) buf head len tt;
  Some (match r with inl err => err | inr _ => 0 end).

(** A pointer, or NULL. *)
Definition nla_find (buf : bytes) (head len attrtype : Z) : option (option Z) :=
  r ← nla_for_each_attr (S (Z.to_nat len))
        (fun nla (_ : unit) =>
           type ← nla_type buf nla;
           Some (if type =? attrtype then inl nla else inr tt)) buf head len tt;
  Some (match r with inl nla => Some nla | inr _ => None end).

Definition nla_parse_nested (maxtype : Z) (buf : bytes) (nla : Z) (policy : option (list nla_policy)) :
    option (table * Z) :=
  len ← nla_len buf nla; nla_parse maxtype buf (nla_data nla) len policy.

(** ** Reading payloads *)

(** The [n] bytes at [off]. *)
Definition rd_bytes (off n : Z) (buf : bytes) : option bytes :=
  if (0 <=? off) && (0 <=? n) && (off + n <=? zlen buf)
  then Some (take (Z.to_nat n) (drop (Z.to_nat off) buf)) else None.

(** What is copied to [dest], and the result. *)
Definition nla_memcpy (buf : bytes) (src : option Z) (count : Z) : option (bytes * Z) :=
  match src with
  | None => Some ([], 0)
  | Some nla =>
      len ← nla_len buf nla;
      let n := Z.min count len in
      d ← rd_bytes (nla_data nla) n buf; Some (d, n)
  end.

(** The contents of [dst] (nothing is written when [dstsize] is 0) and the
    result. *)
Definition nla_strlcpy (buf : bytes) (nla dstsize : Z) : option (bytes * Z) :=
  srclen ← nla_len buf nla;
  let srclen := u64 srclen in
  srclen ← (if srclen >? 0 then
              c ← rd (nla_data nla + srclen - 1) 1 buf;
              Some (if c =? 0 then srclen - 1 else srclen)
            else Some srclen);
  if dstsize >? 0 then
    let len := if srclen >=? dstsize then dstsize - 1 else srclen in
    d ← rd_bytes (nla_data nla) len buf;
    Some (d ++ replicate (Z.to_nat (dstsize - len)) 0, srclen)
  else Some ([], srclen).

(** [memcmp] on lists of equal length: the difference of the first bytes that
    differ. *)
Fixpoint memcmp (a b : bytes) : Z :=
  match a, b with
  | x :: a', y :: b' => if x =? y then memcmp a' b' else x - y
  | _, _ => 0
  end.

(** [data] has [size] bytes. *)
Definition nla_memcmp (buf : bytes) (nla : Z) (data : bytes) : option Z :=
  len ← nla_len buf nla;
  let d := s32 (len - zlen data) in
  if d =? 0 then (fun p => memcmp p data) <$> rd_bytes (nla_data nla) (zlen data) buf else Some d.

Definition nla_strcmp (buf : bytes) (nla : Z) (str : bytes) : option Z :=
  len ← nla_len buf nla;
  let n := s32 (strlen str + 1) in
  let d := s32 (len - n) in
  if d =? 0 then (fun p => memcmp p (cstr str ++ [0])) <$> rd_bytes (nla_data nla) n buf else Some d.

Definition nla_get_u8 (buf : bytes) (nla : Z) : option Z := rd (nla_data nla) 1 buf.
Definition nla_get_u16 (buf : bytes) (nla : Z) : option Z := rd (nla_data nla) 2 buf.
Definition nla_get_u32 (buf : bytes) (nla : Z) : option Z := rd (nla_data nla) 4 buf.

Definition nla_get_u64 (buf : bytes) (nla : option Z) : option Z :=
  match nla with
  | None => Some 0
  | Some a =>
      len ← nla_len buf a;
      if u64 len >=? 8 then rd (nla_data a) 8 buf else Some 0
  end.

Definition nla_get_msecs (buf : bytes) (nla : option Z) : option Z := nla_get_u64 buf nla.
Definition nla_get_flag (nla : option Z) : bool := bool_decide (is_Some nla).

(** The string that [nla_get_string] points to; it has to end inside the
    message. *)
Definition nla_get_string (buf : bytes) (nla : Z) : option bytes :=
  let s := drop (Z.to_nat (nla_data nla)) buf in
  if strlen s <? zlen s then Some (cstr s) else None.

Section Strdup.
Context {al : Allocator}.

(** The copy, or NULL. *)
Definition nla_strdup (buf : bytes) (nla : Z) : option (option bytes) :=
  s ← nla_get_string buf nla;
  Some (if malloc_ok (zlen s + 1) then Some (s ++ [0]) else None).

End Strdup.

(** ** Messages *)

(** [nm_block] is [nm_nlh] with [nm_size]; the addresses and credentials are
    opaque bytes. *)
Record nl_msg := NlMsg {
  nm_protocol : Z;
  nm_flags : Z;
  nm_src : bytes;
  nm_dst : bytes;
  nm_creds : bytes;
  nm_block : nlmsg;
  nm_refcnt : Z
}.

Definition nm_nlh (m : nl_msg) : bytes := nlmsghdr (nm_block m).
Definition nm_size (m : nl_msg) : Z := cap (nm_block m).

Definition with_block (b : nlmsg) (m : nl_msg) : nl_msg :=
  NlMsg (nm_protocol m) (nm_flags m) (nm_src m) (nm_dst m) (nm_creds m) b (nm_refcnt m).

(** Header accessors on the bytes of a message at offset [nlh]. *)
Definition nlmsg_size (payload : Z) : Z := s32 (NLMSG_HDRLEN + payload).
Definition nlmsg_total_size (payload : Z) : Z := s32 (NLMSG_ALIGN (nlmsg_size payload)).
Definition nlmsg_padlen (payload : Z) : Z := s32 (nlmsg_total_size payload - nlmsg_size payload).

Definition nlmsg_data (nlh : Z) : Z := nlh + NLMSG_HDRLEN.
Definition nlmsg_datalen (buf : bytes) (nlh : Z) : option Z :=
  l ← rd nlh 4 buf; Some (s32 (l - NLMSG_HDRLEN)).
Definition nlmsg_attrdata (nlh hdrlen : Z) : Z := nlmsg_data nlh + NLMSG_ALIGN hdrlen.

(** The subtraction is unsigned, the maximum is of [int]s. *)
Definition nlmsg_attrlen (buf : bytes) (nlh hdrlen : Z) : option Z :=
  l ← nlmsg_datalen buf nlh; Some (Z.max (s32 (l - NLMSG_ALIGN hdrlen)) 0).

(** [nlmsg_len] is unsigned, the size of the header an [int]. *)
Definition nlmsg_valid_hdr (buf : bytes) (nlh hdrlen : Z) : option bool :=
  l ← rd nlh 4 buf; Some (negb (l <? u32 (nlmsg_size hdrlen))).

Definition nlmsg_ok (buf : bytes) (nlh remaining : Z) : option bool :=
  if remaining >=? 16 then
    l ← rd nlh 4 buf; Some ((16 <=? l) && (l <=? u32 remaining))
  else Some false.

Definition nlmsg_next (buf : bytes) (nlh remaining : Z) : option (Z * Z) :=
  l ← rd nlh 4 buf;
  let totlen := s32 (NLMSG_ALIGN l) in
  Some (nlh + totlen, s32 (remaining - totlen)).

Definition nlmsg_parse (buf : bytes) (nlh hdrlen maxtype : Z) (policy : option (list nla_policy)) :
    option (option table * Z) :=
  valid ← nlmsg_valid_hdr buf nlh hdrlen;
  if negb valid then Some (None, - NLE_MSG_TOOSHORT) else
  len ← nlmsg_attrlen buf nlh hdrlen;
  '(tb, err) ← nla_parse maxtype buf (nlmsg_attrdata nlh hdrlen) len policy;
  Some (Some tb, err).

Definition nlmsg_find_attr (buf : bytes) (nlh hdrlen attrtype : Z) : option (option Z) :=
  len ← nlmsg_attrlen buf nlh hdrlen; nla_find buf (nlmsg_attrdata nlh hdrlen) len attrtype.

Definition nlmsg_validate (buf : bytes) (nlh hdrlen maxtype : Z) (policy : list nla_policy) : option Z :=
  valid ← nlmsg_valid_hdr buf nlh hdrlen;
  if negb valid then Some (- NLE_MSG_TOOSHORT) else
  len ← nlmsg_attrlen buf nlh hdrlen;
  nla_validate buf (nlmsg_attrdata nlh hdrlen) len maxtype policy.

Section Alloc.
Context {al : Allocator}.

Definition zero_addr : bytes := replicate 12 0.
(** [sizeof (struct nl_msg)] on a 64-bit machine. *)
Definition nl_msg_size : Z := 72.

Definition __nlmsg_alloc (len : Z) : option nl_msg :=
  let len := if len <? 16 then 16 else len in
  if malloc_ok nl_msg_size && malloc_ok len then
    Some (NlMsg (-1) 0 zero_addr zero_addr zero_addr
            (poke 0 4 (nlmsg_total_size 0) (Nlmsg (replicate (Z.to_nat len) 0) len)) 1)
  else None.

Definition nlmsg_alloc (default_msg_size : Z) : option nl_msg := __nlmsg_alloc default_msg_size.
Definition nlmsg_alloc_size (max : Z) : option nl_msg := __nlmsg_alloc max.

(** [hdr]: type, flags, sequence number and port, or NULL. *)
Definition nlmsg_inherit (default_msg_size : Z) (hdr : option (Z * Z * Z * Z)) : option nl_msg :=
  nm ← nlmsg_alloc default_msg_size;
  Some (match hdr with
        | Some (type, flags, seq, pid) =>
            with_block (poke 12 4 pid (poke 8 4 seq (poke 6 2 flags (poke 4 2 type (nm_block nm))))) nm
        | None => nm
        end).

Definition nlmsg_alloc_simple (default_msg_size nlmsgtype flags : Z) : option nl_msg :=
  nlmsg_inherit default_msg_size (Some (nlmsgtype, flags, 0, 0)).

(** The new default size. *)
Definition nlmsg_set_default_size (max : Z) : Z :=
  if max <? nlmsg_total_size 0 then nlmsg_total_size 0 else max.

(** [hdr] points to the bytes of a message; the outer option is for reads
    behind them. *)
Definition nlmsg_convert (hdr : bytes) : option (option nl_msg) :=
  l ← rd 0 4 hdr;
  match __nlmsg_alloc (NLMSG_ALIGN l) with
  | None => Some None
  | Some nm =>
      d ← rd_bytes 0 l hdr;
      Some (Some (with_block (Nlmsg (splice 0 d (nm_nlh nm)) (nm_size nm)) nm))
  end.

(** [realloc] keeps the old contents; the new bytes are unspecified. *)
Definition nlmsg_expand (n : nl_msg) (newlen : Z) : nl_msg * Z :=
  if newlen <=? nm_size n then (n, - NLE_INVAL)
  else if malloc_ok newlen then
    (with_block (Nlmsg (nm_nlh n ++ replicate (Z.to_nat (newlen - nm_size n)) malloc_byte) newlen) n, 0)
  else (n, - NLE_NOMEM).

End Alloc.

(** ** Building *)

(** [(len + (pad - 1)) & ~(pad - 1)], in [size_t]. *)
Definition round_up (len pad : Z) : Z :=
  if pad =? 0 then len else Z.land (u64 (len + (pad - 1))) (u64 (Z.lnot (pad - 1))).

Definition nlmsg_reserve (n : nl_msg) (len pad : Z) : nl_msg * option Z :=
  let b := nm_block n in
  let nlmsg_len := hdr_len b in
  let tlen := round_up len pad in
  if u64 (tlen + nlmsg_len) >? nm_size n then (n, None)
  else
    let b := poke 0 4 (nlmsg_len + tlen) b in
    let b := if tlen >? len then
               Nlmsg (splice (nlmsg_len + len) (replicate (Z.to_nat (tlen - len)) 0) (nlmsghdr b)) (cap b)
             else b in
    (with_block b n, Some nlmsg_len).

(** [data] has the [len] bytes that are copied. *)
Definition nlmsg_append (n : nl_msg) (data : bytes) (pad : Z) : nl_msg * Z :=
  match nlmsg_reserve n (zlen data) pad with
  | (n, None) => (n, - NLE_NOMEM)
  | (n, Some tmp) => (with_block (Nlmsg (splice tmp data (nm_nlh n)) (nm_size n)) n, 0)
  end.

(** [None] is [BUG ()]; the offset of the header, or NULL. *)
Definition nlmsg_put (n : nl_msg) (pid seq type payload flags : Z) : option (nl_msg * option Z) :=
  if hdr_len (nm_block n) <? NLMSG_HDRLEN then None else
  let n := with_block (poke 8 4 seq (poke 12 4 pid (poke 6 2 flags (poke 4 2 type (nm_block n))))) n in
  if payload >? 0 then
    match nlmsg_reserve n payload 4 with
    | (n, None) => Some (n, None)
    | (n, Some _) => Some (n, Some 0)
    end
  else Some (n, Some 0).

Definition nlmsg_get (m : nl_msg) : nl_msg :=
  NlMsg (nm_protocol m) (nm_flags m) (nm_src m) (nm_dst m) (nm_creds m) (nm_block m) (s32 (nm_refcnt m + 1)).

(** [None] is [BUG ()]; [Some None] a freed message. *)
Definition nlmsg_free (m : option nl_msg) : option (option nl_msg) :=
  match m with
  | None => Some None
  | Some m =>
      let refcnt := s32 (nm_refcnt m - 1) in
      if refcnt <? 0 then None
      else if refcnt <=? 0 then Some None
      else Some (Some (NlMsg (nm_protocol m) (nm_flags m) (nm_src m) (nm_dst m) (nm_creds m) (nm_block m) refcnt))
  end.

(** The new length is an [int], compared as a [size_t]; the length field of
    the attribute has 16 bits. *)
Definition nla_reserve (m : nl_msg) (attrtype attrlen : Z) : nl_msg * option Z :=
  let b := nm_block m in
  let tlen := s32 (u32 (NLMSG_ALIGN (hdr_len b) + nla_total_size attrlen)) in
  if u64 tlen >? nm_size m then (m, None)
  else
    let nla := NLMSG_TAIL b in
    let b := poke (nla + 2) 2 attrtype b in
    let b := poke nla 2 (nla_attr_size attrlen) b in
    let b := if negb (attrlen =? 0) then
               Nlmsg (splice (nla + u16 (nla_attr_size attrlen))
                        (replicate (Z.to_nat (nla_padlen attrlen)) 0) (nlmsghdr b)) (cap b)
             else b in
    (with_block (poke 0 4 tlen b) m, Some nla).

(** [data] has the [datalen] bytes that are copied. *)
Definition nla_put (m : nl_msg) (attrtype : Z) (data : bytes) : nl_msg * Z :=
  match nla_reserve m attrtype (zlen data) with
  | (m, None) => (m, - NLE_NOMEM)
  | (m, Some nla) =>
      if zlen data >? 0 then
        (with_block (Nlmsg (splice (nla_data nla) data (nm_nlh m)) (nm_size m)) m, 0)
      else (m, 0)
  end.

Definition nla_put_u8 (m : nl_msg) (attrtype value : Z) : nl_msg * Z := nla_put m attrtype (le_bytes 1 value).
Definition nla_put_u16 (m : nl_msg) (attrtype value : Z) : nl_msg * Z := nla_put m attrtype (le_bytes 2 value).
Definition nla_put_u32 (m : nl_msg) (attrtype value : Z) : nl_msg * Z := nla_put m attrtype (le_bytes 4 value).
Definition nla_put_u64 (m : nl_msg) (attrtype value : Z) : nl_msg * Z := nla_put m attrtype (le_bytes 8 value).
Definition nla_put_msecs (m : nl_msg) (attrtype msecs : Z) : nl_msg * Z := nla_put_u64 m attrtype msecs.
Definition nla_put_string (m : nl_msg) (attrtype : Z) (s : bytes) : nl_msg * Z :=
  nla_put m attrtype (cstr s ++ [0]).
Definition nla_put_flag (m : nl_msg) (attrtype : Z) : nl_msg * Z := nla_put m attrtype [].

(** The payload is the data of the other message. *)
Definition nla_put_nested (m : nl_msg) (attrtype : Z) (nested : nl_msg) : option (nl_msg * Z) :=
  len ← nlmsg_datalen (nm_nlh nested) 0;
  d ← rd_bytes (nlmsg_data 0) len (nm_nlh nested);
  Some (nla_put m attrtype d).

Definition nla_nest_start (m : nl_msg) (attrtype : Z) : nl_msg * option Z :=
  let start := NLMSG_TAIL (nm_block m) in
  let '(m, r) := nla_put m attrtype [] in
  if r <? 0 then (m, None) else (m, Some start).

(** [None] is [BUG ()]. *)
Definition nla_nest_cancel (m : nl_msg) (attr : Z) : option nl_msg :=
  let len := NLMSG_TAIL (nm_block m) - attr in
  if len <? 0 then None
  else if len >? 0 then
    let b := poke 0 4 (hdr_len (nm_block m) - len) (nm_block m) in
    Some (with_block (Nlmsg (splice (NLMSG_TAIL b) (replicate (Z.to_nat len) 0) (nlmsghdr b)) (cap b)) m)
  else Some m.

(** [None] is [BUG ()]; the result is always 0. *)
Definition nla_nest_end (m : nl_msg) (start : Z) : option (nl_msg * Z) :=
  let len := u64 (NLMSG_TAIL (nm_block m) - start) in
  if len =? NLA_HDRLEN then
    m ← nla_nest_cancel m start; Some (m, 0)
  else
    let m := with_block (poke start 2 len (nm_block m)) m in
    let pad := u32 (NLMSG_ALIGN (hdr_len (nm_block m)) - hdr_len (nm_block m)) in
    if pad >? 0 then
      match nlmsg_reserve m pad 0 with
      | (m, Some _) => Some (m, 0)
      | (m, None) => None
      end
    else Some (m, 0).

(** ** Walking attributes safely *)

Lemma NLA_ALIGN_eq len : 0 <= len <= 2147483640 -> NLA_ALIGN len = NLMSG_ALIGN len.
Proof.
  intros Hl. rewrite align_spec by lia. unfold NLA_ALIGN. rewrite s32_id by (unfold INT_MIN, INT_MAX; lia).
  change (-4) with (Z.lnot (Z.ones 2)). rewrite <- Z.ldiff_land, Z.ldiff_ones_r by lia.
  by rewrite Z.shiftl_mul_pow2, Z.shiftr_div_pow2 by lia.
Qed.

(** The bytes a walk over [len] bytes at [head] may read: the region itself
    when its length is a multiple of four; otherwise the walk looks for one
    more length field behind it. *)
Definition region_ok (buf : bytes) (head len : Z) : Prop :=
  0 <= head /\ 0 <= len /\ zlen buf <= 2147483640 /\
  head + len <= zlen buf /\ (len mod 4 = 0 \/ head + NLMSG_ALIGN len + 2 <= zlen buf).

(** An attribute inside the region from [lo] to [hi]. *)
Definition nla_in (buf : bytes) (lo hi a : Z) : Prop :=
  lo <= a /\ 4 <= get_le a 2 buf /\ a + get_le a 2 buf <= hi.

(** [body] keeps the invariant [P] at every attribute of the region, and [Q]
    holds where it leaves. *)
Definition body_ok {S R} (buf : bytes) (lo hi : Z) (body : Z -> S -> option (R + S))
    (P : S -> Prop) (Q : R -> Prop) : Prop :=
  forall a s, nla_in buf lo hi a -> a + 4 <= zlen buf -> P s ->
    match body a s with
    | Some (inl r) => Q r
    | Some (inr s') => P s'
    | None => False
    end.

Section Walk.
Context {S R : Type} (buf : bytes) (head len : Z) (body : Z -> S -> option (R + S)).
Context (P : S -> Prop) (Q : R -> Prop).
Hypothesis Hb : Forall byte_ok buf.
Hypothesis Hreg : region_ok buf head len.
Hypothesis Hbody : body_ok buf head (head + len) body P Q.

(** The state of the walk: [off] bytes, a multiple of four, are done. *)
Lemma for_each_safe fuel off s :
  0 <= off -> off mod 4 = 0 -> off < len + 4 -> len - off < Z.of_nat fuel -> (0 < fuel)%nat -> P s ->
  exists r, nla_for_each_attr fuel body buf (head + off) (len - off) s = Some r /\
    match r with inl r => Q r | inr s => P s end.
Proof.
  destruct Hreg as (Hh & Hl & Hz & Hin & Hslack).
  destruct (align_bounds len) as [Hal Hmod]; [lia|].
  revert off s. induction fuel as [|fuel IH]; intros off s H0 Hm Hoff Hf Hpos Hs; [lia|].
  cbn [nla_for_each_attr]. unfold nla_ok. pose proof (get_le_range (head + off) 2 buf Hb) as Hlr.
  destruct (Z.le_gt_cases off len) as [Hle|Hgt].
  - rewrite (wrap_id 64) by (change (2 ^ 64) with 18446744073709551616; lia).
    destruct (Z.geb_spec (len - off) 4) as [H4|H4]; [|by exists (inr s)].
    rewrite rd_Some by lia. cbn [mbind option_bind]. set (l := get_le _ _ _) in *.
    destruct ((4 <=? l) && (l <=? len - off)) eqn:Eok; [|by exists (inr s)].
    apply andb_true_iff in Eok as [E1%Z.leb_le E2%Z.leb_le].
    assert (nla_in buf head (head + len) (head + off)) as Ha by (unfold nla_in; fold l; lia).
    pose proof (Hbody (head + off) s Ha ltac:(lia) Hs) as Hstep.
    destruct (body (head + off) s) as [[r|s']|]; [by exists (inl r)| |done].
    cbn [mbind option_bind]. unfold nla_next. rewrite rd_Some by lia. cbn [mbind option_bind]. fold l.
    rewrite NLA_ALIGN_eq by lia. destruct (align_bounds l) as [Hall Hml]; [lia|].
    rewrite s32_id by (unfold INT_MIN, INT_MAX; lia).
    replace (head + off + NLMSG_ALIGN l) with (head + (off + NLMSG_ALIGN l)) by lia.
    replace (len - off - NLMSG_ALIGN l) with (len - (off + NLMSG_ALIGN l)) by lia.
    apply IH; try done; try lia. by apply mod4_add.
  - destruct Hslack as [H4|Hslack].
    { exfalso. pose proof (Z.div_mod off 4). pose proof (Z.div_mod len 4). lia. }
    assert (off = NLMSG_ALIGN len) as ->.
    { pose proof (Z.div_mod off 4). pose proof (Z.div_mod (NLMSG_ALIGN len) 4). lia. }
    destruct (u64 _ >=? 4); [|by exists (inr s)]. rewrite rd_Some by lia. cbn [mbind option_bind].
    rewrite (proj2 (Z.leb_gt (get_le _ _ _) _)) by lia. rewrite andb_false_r. by exists (inr s).
Qed.

Lemma for_each_region s : P s ->
  exists r, nla_for_each_attr (Datatypes.S (Z.to_nat len)) body buf head len s = Some r /\
    match r with inl r => Q r | inr s => P s end.
Proof.
  intros Hs. pose proof Hreg as (Hh & Hl & _).
  pose proof (for_each_safe (Datatypes.S (Z.to_nat len)) 0 s) as H.
  rewrite Z.add_0_r, Z.sub_0_r in H. apply H; try done; lia.
Qed.

End Walk.

(** ** Policies *)

(** The shortest payload a policy entry accepts. *)
Definition p_min (pt : nla_policy) : Z :=
  if negb (minlen pt =? 0) then minlen pt
  else if negb (p_type pt =? NLA_UNSPEC) then default 0 (nla_attr_minlen !! Z.to_nat (p_type pt))
  else 0.

(** A policy for types up to [maxtype]: its entries have known types, and a
    minimum length of their own only if it is large enough for the type. *)
Definition pt_ok (pt : nla_policy) : Prop :=
  0 <= p_type pt <= NLA_TYPE_MAX /\ 0 <= maxlen pt < 65536 /\ 0 <= minlen pt < 65536 /\
  (minlen pt = 0 \/ default 0 (nla_attr_minlen !! Z.to_nat (p_type pt)) <= minlen pt).

Definition policy_ok (maxtype : Z) (policy : list nla_policy) : Prop :=
  maxtype < zlen policy /\ Forall pt_ok policy.

(** What an accepted attribute provides to a caller that does not check it:
    its payload is long enough for the integer types and at most [maxlen]
    bytes, and a string ends inside the payload. *)
Definition has_type (buf : bytes) (a : Z) (pt : nla_policy) : Prop :=
  exists n, nla_len buf a = Some n /\ p_min pt <= n /\ (maxlen pt <> 0 -> n <= maxlen pt) /\
    (p_type pt = NLA_U8 -> 1 <= n /\ exists v, nla_get_u8 buf a = Some v /\ 0 <= v < 2 ^ 8) /\
    (p_type pt = NLA_U16 -> 2 <= n /\ exists v, nla_get_u16 buf a = Some v /\ 0 <= v < 2 ^ 16) /\
    (p_type pt = NLA_U32 -> 4 <= n /\ exists v, nla_get_u32 buf a = Some v /\ 0 <= v < 2 ^ 32) /\
    (p_type pt = NLA_U64 -> 8 <= n /\ exists v, nla_get_u64 buf (Some a) = Some v /\ 0 <= v < 2 ^ 64) /\
    (p_type pt = NLA_STRING -> exists s, nla_get_string buf a = Some s /\ zlen s < n).

Lemma cstr_lookup_zero l k : l !! k = Some 0 -> strlen l <= Z.of_nat k.
Proof.
  unfold strlen, zlen. revert k. induction l as [|b l IH]; intros [|k] Hk; [done..| |].
  - injection Hk as ->. simpl. lia.
  - simpl in Hk. cbn [cstr]. destruct (b =? 0); [simpl; lia|]. specialize (IH k Hk). simpl length. lia.
Qed.

Lemma get_le_1 off buf : 0 <= off < zlen buf -> buf !! Z.to_nat off = Some (get_le off 1 buf).
Proof.
  intros Hoff. unfold get_le, zlen in *. destruct (lookup_lt_is_Some_2 buf (Z.to_nat off)) as [x Hx]; [lia|].
  rewrite Hx. rewrite (drop_S _ x) by done. cbn [take firstn le_value]. f_equal. simpl. lia.
Qed.

Lemma nla_len_in buf lo hi a : nla_in buf lo hi a -> 0 <= lo -> hi <= zlen buf ->
  nla_len buf a = Some (get_le a 2 buf - 4).
Proof. intros (H1 & H2 & H3) H0 H4. unfold nla_len. rewrite rd_Some by lia. done. Qed.

(** A value of [k] bytes at the start of a payload that has them. *)
Lemma rd_value buf a n (k : nat) : Forall byte_ok buf -> 0 <= a -> a + 4 + n <= zlen buf -> Z.of_nat k <= n ->
  exists v, rd (nla_data a) k buf = Some v /\ 0 <= v < 256 ^ Z.of_nat k.
Proof.
  intros Hb Ha Hn Hk. unfold nla_data, NLA_HDRLEN. rewrite rd_Some by lia. eauto using get_le_range.
Qed.

(** The minimum that [validate_nla] computes. *)
Lemma p_min_eq pt : 0 <= p_type pt <= NLA_TYPE_MAX ->
  (if negb (minlen pt =? 0) then Some (minlen pt)
   else if negb (p_type pt =? NLA_UNSPEC) then nla_attr_minlen !! Z.to_nat (p_type pt) else Some 0) = Some (p_min pt).
Proof.
  intros Ht. unfold p_min. destruct (negb (minlen pt =? 0)); [done|]. destruct (negb (p_type pt =? NLA_UNSPEC)); [|done].
  destruct (nla_attr_minlen !! Z.to_nat (p_type pt)) eqn:E; [done|].
  apply lookup_ge_None in E. unfold NLA_TYPE_MAX in Ht. simpl in E. lia.
Qed.

Lemma p_min_at pt k : pt_ok pt -> p_type pt <> NLA_UNSPEC ->
  default 0 (nla_attr_minlen !! Z.to_nat (p_type pt)) = k -> k <= p_min pt.
Proof.
  intros (Ht & _ & Hm & Hmin) Hu <-. unfold p_min. destruct (Z.eqb_spec (minlen pt) 0); cbn [negb].
  - rewrite (proj2 (Z.eqb_neq _ _) Hu). cbn [negb]. lia.
  - lia.
Qed.

Lemma string_inside buf a n : 0 <= a -> a + 4 + n <= zlen buf -> 1 <= n ->
  get_le (a + 4 + n - 1) 1 buf = 0 -> exists s, nla_get_string buf a = Some s /\ zlen s < n.
Proof.
  intros Ha Hn H1 Hz. unfold nla_get_string, nla_data, NLA_HDRLEN.
  assert (drop (Z.to_nat (a + 4)) buf !! Z.to_nat (n - 1) = Some 0) as Hl.
  { rewrite lookup_drop. replace (_ + _)%nat with (Z.to_nat (a + 4 + n - 1)) by lia.
    rewrite get_le_1 by lia. by rewrite Hz. }
  apply cstr_lookup_zero in Hl. assert (zlen (drop (Z.to_nat (a + 4)) buf) >= n).
  { unfold zlen in *. rewrite length_drop. lia. }
  rewrite (proj2 (Z.ltb_lt _ _)) by lia. eexists. split; [done|]. unfold strlen in Hl. lia.
Qed.

Lemma has_type_intro buf a pt n : Forall byte_ok buf -> 0 <= a -> pt_ok pt ->
  nla_len buf a = Some n -> a + 4 + n <= zlen buf -> 0 <= n < 65536 -> p_min pt <= n ->
  (maxlen pt <> 0 -> n <= maxlen pt) ->
  (p_type pt = NLA_STRING -> get_le (a + 4 + n - 1) 1 buf = 0) -> has_type buf a pt.
Proof.
  intros Hb Ha Hpt Hlen Hin Hn Hmin Hmax Hstr. exists n. split_and!; [done..| | | | |].
  all: intros Hty; assert (p_type pt <> NLA_UNSPEC) as Hu by (by rewrite Hty).
  - pose proof (p_min_at pt 1 Hpt Hu ltac:(by rewrite Hty)). split; [lia|].
    apply (rd_value buf a n 1); (done || lia).
  - pose proof (p_min_at pt 2 Hpt Hu ltac:(by rewrite Hty)). split; [lia|].
    apply (rd_value buf a n 2); (done || lia).
  - pose proof (p_min_at pt 4 Hpt Hu ltac:(by rewrite Hty)). split; [lia|].
    apply (rd_value buf a n 4); (done || lia).
  - pose proof (p_min_at pt 8 Hpt Hu ltac:(by rewrite Hty)). split; [lia|].
    unfold nla_get_u64. rewrite Hlen. cbn [mbind option_bind].
    rewrite (wrap_id 64) by (change (2 ^ 64) with 18446744073709551616; lia).
    destruct (Z.geb_spec n 8); [|lia]. apply (rd_value buf a n 8); (done || lia).
  - pose proof (p_min_at pt 1 Hpt Hu ltac:(by rewrite Hty)). apply string_inside; try done; [lia|]. by apply Hstr.
Qed.

Lemma validate_nla_typed buf lo hi a type maxtype policy pt :
  Forall byte_ok buf -> nla_in buf lo hi a -> 0 <= lo -> hi <= zlen buf -> a + 4 <= zlen buf ->
  nla_type buf a = Some type -> 0 <= type <= maxtype ->
  policy !! Z.to_nat type = Some pt -> pt_ok pt ->
  exists err, validate_nla buf a maxtype policy = Some err /\
    (err = - NLE_RANGE \/ err = - NLE_INVAL \/ err = 0 /\ has_type buf a pt).
Proof.
  intros Hb Ha Hlo Hhi Ha4 Hty Ht Hp Hpt. unfold validate_nla. rewrite Hty. cbn [mbind option_bind].
  rewrite (proj2 (Z.ltb_ge type 0)) by lia. destruct (Z.gtb_spec type maxtype); [lia|]. cbn [orb].
  rewrite Hp. cbn [mbind option_bind]. pose proof Hpt as (Hpty & Hmax & Hmin & _).
  destruct (Z.gtb_spec (p_type pt) NLA_TYPE_MAX); [lia|].
  rewrite p_min_eq by done.
  cbn [mbind option_bind]. rewrite (nla_len_in buf lo hi a Ha Hlo Hhi). cbn [mbind option_bind].
  pose proof (get_le_range a 2 buf Hb) as Hl. change (256 ^ Z.of_nat 2) with 65536 in Hl.
  pose proof Ha as (H1 & H2 & H3). set (n := get_le a 2 buf - 4).
  rewrite (wrap_id 32) by (unfold n; change (2 ^ 32) with 4294967296; lia).
  destruct (Z.ltb_spec n (p_min pt)) as [|Hnmin]; [eexists; split; [reflexivity|by left]|].
  destruct (negb (maxlen pt =? 0) && (n >? maxlen pt)) eqn:Emax; [eexists; split; [reflexivity|by left]|].
  assert (maxlen pt <> 0 -> n <= maxlen pt) as Hnmax.
  { intros Hne. apply Z.eqb_neq in Hne. rewrite Hne in Emax. simpl in Emax. lia. }
  assert (nla_len buf a = Some n) as Hlen by (by apply nla_len_in with lo hi).
  assert ((p_type pt = NLA_STRING -> get_le (a + 4 + n - 1) 1 buf = 0) -> has_type buf a pt) as Hty'.
  { intros Hs. apply has_type_intro with n; try done; unfold n; lia. }
  destruct (Z.eqb_spec (p_type pt) NLA_STRING) as [Es|Es]; [|eexists; split; [reflexivity|]; right; right; split; [done|]; by apply Hty'].
  assert (1 <= n) by (pose proof (p_min_at pt 1 Hpt ltac:(by rewrite Es) ltac:(by rewrite Es)); lia).
  unfold nla_data, NLA_HDRLEN. rewrite rd_Some by (unfold n; lia). cbn [mbind option_bind].
  destruct (Z.eqb_spec (get_le (a + 4 + n - 1) 1 buf) 0) as [Hz|Hz]; cbn [negb]; [|eexists; split; [reflexivity|]; by right; left].
  eexists. split; [reflexivity|]. right. right. split; [done|]. by apply Hty'.
Qed.

(** The mask keeps the low fourteen bits. *)
Lemma type_mask t : 0 <= t < 65536 -> Z.land t (Z.lnot (Z.lor 32768 16384)) = t mod 16384.
Proof.
  intros Ht. rewrite <- (Z.mod_small t (2 ^ 16)) at 1 by done.
  rewrite <- Z.land_ones, <- Z.land_assoc by lia.
  change (Z.land (Z.ones 16) (Z.lnot (Z.lor 32768 16384))) with (Z.ones 14).
  rewrite Z.land_ones by lia. done.
Qed.

Lemma nla_type_in buf lo hi a : Forall byte_ok buf -> nla_in buf lo hi a -> 0 <= lo -> a + 4 <= zlen buf ->
  exists t, nla_type buf a = Some t /\ 0 <= t < 65536.
Proof.
  intros Hb (H1 & _) H0 H4. unfold nla_type. rewrite rd_Some by lia. eexists. split; [reflexivity|].
  rewrite type_mask by (by apply (get_le_range (a + 2) 2 buf)).
  pose proof (Z.mod_pos_bound (get_le (a + 2) 2 buf) 16384). lia.
Qed.

(** A table whose entries are attributes of the region, of the type of their
    index, and as the policy wants them. *)
Definition typed_table (buf : bytes) (lo hi maxtype : Z) (policy : list nla_policy) (tb : table) : Prop :=
  zlen tb = maxtype + 1 /\ forall i a, 0 <= i -> attr_of tb i = Some a ->
    nla_in buf lo hi a /\ nla_type buf a = Some i /\
    forall pt, policy !! Z.to_nat i = Some pt -> has_type buf a pt.

Lemma typed_table_insert buf lo hi maxtype policy tb i a :
  typed_table buf lo hi maxtype policy tb -> 0 <= i <= maxtype ->
  nla_in buf lo hi a -> nla_type buf a = Some i ->
  (forall pt, policy !! Z.to_nat i = Some pt -> has_type buf a pt) ->
  typed_table buf lo hi maxtype policy (<[Z.to_nat i := Some a]> tb).
Proof.
  intros [Hz Htb] Hi Ha Hty Hpt. split; [unfold zlen in *; by rewrite length_insert|].
  intros j b Hj. unfold attr_of. destruct (decide (i = j)) as [<-|Hne].
  - rewrite list_lookup_insert_eq by (unfold zlen in Hz; lia). intros [= <-]. auto.
  - rewrite list_lookup_insert_ne by lia. by apply Htb.
Qed.

Lemma nla_parse_types buf head len maxtype policy :
  Forall byte_ok buf -> region_ok buf head len -> 0 <= maxtype -> policy_ok maxtype policy ->
  exists tb err, nla_parse maxtype buf head len (Some policy) = Some (tb, err) /\
    (err = 0 \/ err = - NLE_RANGE \/ err = - NLE_INVAL) /\
    typed_table buf head (head + len) maxtype policy tb.
Proof.
  intros Hb Hreg Hmax [Hpl Hpt]. pose proof Hreg as (Hh & Hl & Hz & Hin & _).
  destruct (for_each_region buf head len (parse_attr maxtype (Some policy) buf)
    (typed_table buf head (head + len) maxtype policy)
    (fun r => (r.2 = - NLE_RANGE \/ r.2 = - NLE_INVAL) /\
       typed_table buf head (head + len) maxtype policy r.1) Hb Hreg) with (s := no_attrs maxtype) as (r & E & Hr).
  - intros a tb Ha Ha4 Htb. unfold parse_attr.
    destruct (nla_type_in buf head (head + len) a) as (type & Hty & Htr); try done.
    rewrite Hty. cbn [mbind option_bind]. destruct (Z.gtb_spec type maxtype); [done|].
    destruct (lookup_lt_is_Some_2 policy (Z.to_nat type)) as [pt Hp]; [unfold zlen in Hpl; lia|].
    pose proof (Forall_lookup_1 _ _ _ _ Hpt Hp) as Hok.
    destruct (validate_nla_typed buf head (head + len) a type maxtype policy pt) as (err & -> & Herr); try done; [lia|].
    cbn [mbind option_bind]. destruct Herr as [->|[->|[-> Hht]]]; simpl; [split; [by left|done]|split; [by right|done]|].
    apply typed_table_insert; try done; [lia|]. intros pt' Hp'. congruence.
  - split; [unfold no_attrs; rewrite zlen_replicate; lia|]. intros i a _. by rewrite no_attrs_empty.
  - unfold nla_parse. rewrite E. cbn [mbind option_bind]. destruct r as [[tb err]|tb].
    + exists tb, err. destruct Hr as [He Htb]. simpl in *. split_and!; [done|tauto|done].
    + exists tb, 0. auto.
Qed.

(** C30: parsing with a policy is type-safe. On arbitrary bytes, for a region
    inside a buffer of less than 2 GiB whose length is a multiple of four, or
    that has two bytes of the buffer behind its padding, [nla_parse] ends
    without reading outside the buffer and fails only with -NLE_RANGE or
    -NLE_INVAL; every entry of the table, also of the partial table of a failed
    run, is an attribute that lies with its payload inside the region, has the
    type of its index, and satisfies the policy: the integer getters read
    inside its payload and a string ends inside it. A region of another length
    at the end of the buffer can be read past its end
    ([nla_parse_reads_past_end]). *)
Theorem nla_parse_typed buf head len maxtype policy :
  Forall byte_ok buf -> region_ok buf head len -> 0 <= maxtype -> policy_ok maxtype policy ->
  exists tb err, nla_parse maxtype buf head len (Some policy) = Some (tb, err) /\
    (err = 0 \/ err = - NLE_RANGE \/ err = - NLE_INVAL) /\
    typed_table buf head (head + len) maxtype policy tb.
Proof. apply nla_parse_types. Qed.

(** A region whose last attribute is not padded: the walk looks for another
    one behind the region, because a negative remainder is a large [size_t];
    here that is behind the buffer. *)
Lemma nla_parse_reads_past_end : nla_parse 3 [5; 0; 1; 0; 7] 0 5 None = None.
Proof. reflexivity. Qed.

(** ** What the builder writes *)

(** Sizes of attributes that fit their length field. *)
Lemma attr_sizes n : 0 <= n <= 65531 ->
  nla_attr_size n = 4 + n /\ nla_total_size n = NLMSG_ALIGN (4 + n) /\
  nla_padlen n = NLMSG_ALIGN (4 + n) - (4 + n).
Proof.
  intros Hn. unfold nla_padlen, nla_total_size, nla_attr_size, NLA_HDRLEN.
  destruct (align_bounds (4 + n)) as [Hal _]; [lia|].
  rewrite (s32_id (4 + n)) by (unfold INT_MIN, INT_MAX; lia). rewrite NLA_ALIGN_eq by lia.
  rewrite s32_id by (unfold INT_MIN, INT_MAX; lia). auto.
Qed.

Section Build.
Implicit Types (m : nl_msg) (rest body d : bytes).

(** The message is small enough for [int] lengths. *)
Definition msg_holds m rest body : Prop := holds (nm_block m) rest body /\ nm_size m <= 2147483647.

(** [nla_reserve] decides on the sum of the sizes. *)
Lemma reserve_tlen m rest body n : msg_holds m rest body -> 0 <= n <= 65531 ->
  s32 (u32 (NLMSG_ALIGN (hdr_len (nm_block m)) + nla_total_size n)) =
    s32 (16 + zlen body + NLMSG_ALIGN (4 + n)) /\
  (u64 (s32 (16 + zlen body + NLMSG_ALIGN (4 + n))) >? nm_size m) =
    (16 + zlen body + NLMSG_ALIGN (4 + n) >? nm_size m).
Proof.
  intros [Hh Hsz] Hn. destruct (attr_sizes n Hn) as (_ & -> & _).
  fold (NLMSG_TAIL (nm_block m)). rewrite (holds_tail _ _ _ Hh). destruct Hh as [_ _ Hc _].
  pose proof (zlen_nonneg body). destruct (align_bounds (4 + n)) as [Hal _]; [lia|].
  unfold nm_size in *. rewrite (wrap_id 32) by (change (2 ^ 32) with 4294967296; lia). split; [done|].
  destruct (Z.le_gt_cases (16 + zlen body + NLMSG_ALIGN (4 + n)) INT_MAX) as [Hle|Hgt].
  - rewrite s32_id by (unfold INT_MIN, INT_MAX in *; lia).
    rewrite (wrap_id 64) by (unfold INT_MAX in *; change (2 ^ 64) with 18446744073709551616; lia). done.
  - unfold INT_MAX in Hgt. set (z := 16 + zlen body + NLMSG_ALIGN (4 + n)) in *.
    assert (s32 z = z - 4294967296) as ->.
    { unfold s32, swrap. change (2 ^ (32 - 1)) with 2147483648. change (2 ^ 32) with 4294967296.
      rewrite <- (Z.mod_unique (z + 2147483648) 4294967296 1 (z + 2147483648 - 4294967296)); lia. }
    unfold u64, wrap. rewrite <- (Z.mod_unique (z - 4294967296) (2 ^ 64) (-1) (z - 4294967296 + 2 ^ 64)) by lia.
    destruct (Z.gtb_spec (z - 4294967296 + 2 ^ 64) (cap (nm_block m))); [|lia].
    destruct (Z.gtb_spec z (cap (nm_block m))); lia.
Qed.

Lemma libnl_put_full m rest body t d : msg_holds m rest body -> zlen d <= 65531 ->
  16 + zlen body + NLMSG_ALIGN (4 + zlen d) > nm_size m -> nla_put m t d = (m, - NLE_NOMEM).
Proof.
  intros Hm Hd Hfull. pose proof (zlen_nonneg d). unfold nla_put, nla_reserve.
  destruct (reserve_tlen m rest body (zlen d) Hm) as [-> ->]; [lia|].
  destruct (Z.gtb_spec (16 + zlen body + NLMSG_ALIGN (4 + zlen d)) (nm_size m)); [done|lia].
Qed.

Lemma splice_nil {A} off (l : list A) : splice off [] l = l.
Proof. unfold splice. simpl. rewrite Nat.add_0_r. apply take_drop. Qed.

(** The writes of an attribute behind [P], on zeros. *)
Lemma write_attr (P Q : bytes) t d T : T = zlen P -> zlen d <= 65531 ->
  splice (T + (4 + zlen d)) (pad (4 + zlen d)) (put_le T 2 (4 + zlen d) (put_le (T + 2) 2 t
    (P ++ replicate 4 0 ++ replicate (length d) 0 ++ pad (4 + zlen d) ++ Q))) =
  P ++ (le_bytes 2 (4 + zlen d) ++ le_bytes 2 t) ++ replicate (length d) 0 ++ pad (4 + zlen d) ++ Q.
Proof.
  intros -> Hd. unfold put_le. change (replicate 4 0) with (replicate 2 0 ++ replicate 2 0).
  rewrite <- !app_assoc, (app_assoc P (replicate 2 0)).
  rewrite splice_at by (rewrite ?zlen_app, ?le_bytes_length; done).
  rewrite <- app_assoc. rewrite splice_at by (rewrite ?le_bytes_length; done).
  rewrite !(app_assoc P), !(app_assoc (P ++ _)), (app_assoc ((P ++ _) ++ _)).
  rewrite splice_at; [done| |done].
  rewrite !zlen_app, !zlen_le, zlen_replicate. unfold zlen. lia.
Qed.

Lemma zlen_P L rest body : zlen rest = 12 -> zlen (le_bytes 4 L ++ rest ++ body) = 16 + zlen body.
Proof. intros. rewrite !zlen_app, zlen_le. lia. Qed.

(** [nla_reserve]: the header of the attribute, then room for the payload and
    the padding, both zero. *)
Lemma nla_reserve_fits m rest body t d : msg_holds m rest body -> zlen d <= 65531 ->
  16 + zlen body + NLMSG_ALIGN (4 + zlen d) <= nm_size m ->
  exists m', nla_reserve m t (zlen d) = (m', Some (16 + zlen body)) /\ nm_size m' = nm_size m /\
    nm_nlh m' = (le_bytes 4 (16 + zlen body + NLMSG_ALIGN (4 + zlen d)) ++ rest ++ body) ++
      (le_bytes 2 (4 + zlen d) ++ le_bytes 2 t) ++ replicate (length d) 0 ++ pad (4 + zlen d) ++
      replicate (Z.to_nat (nm_size m - 16 - zlen body - NLMSG_ALIGN (4 + zlen d))) 0.
Proof.
  intros Hm Hd Hfit. pose proof (zlen_nonneg d). unfold nla_reserve.
  destruct (reserve_tlen m rest body (zlen d) Hm) as [-> ->]; [lia|].
  destruct (Z.gtb_spec (16 + zlen body + NLMSG_ALIGN (4 + zlen d)) (nm_size m)); [lia|].
  destruct Hm as [Hh Hsz]. rewrite (holds_tail _ _ _ Hh). destruct Hh as [Hr Ha Hc Hblk].
  destruct (attr_sizes (zlen d)) as (-> & _ & ->); [lia|].
  destruct (align_bounds (4 + zlen d)) as [Hal Hmod]; [lia|]. pose proof (zlen_nonneg body).
  unfold nm_size in *. rewrite s32_id by (unfold INT_MIN, INT_MAX; lia).
  unfold u16. rewrite (wrap_id 16) by (change (2 ^ 16) with 65536; lia).
  fold (pad (4 + zlen d)). set (k := NLMSG_ALIGN (4 + zlen d)) in *. set (n := cap (nm_block m) - 16 - zlen body) in *.
  set (P := le_bytes 4 (16 + zlen body) ++ rest ++ body).
  assert (zlen P = 16 + zlen body) as HP by (by apply zlen_P).
  set (Q := replicate (Z.to_nat (n - k)) 0).
  assert (nlmsghdr (nm_block m) = P ++ replicate 4 0 ++ replicate (length d) 0 ++ pad (4 + zlen d) ++ Q) as E.
  { rewrite Hblk. unfold P, Q, pad. fold k. rewrite <- !app_assoc, <- !replicate_add. do 4 f_equal. unfold zlen in *. lia. }
  set (b2 := poke _ 2 _ (poke _ 2 _ _)). set (b3 := if negb (zlen d =? 0) then _ else _).
  assert (nlmsghdr b3 = splice (16 + zlen body + (4 + zlen d)) (pad (4 + zlen d)) (nlmsghdr b2) /\ cap b3 = cap b2)
    as [E3 Ec3].
  { unfold b3. destruct (Z.eqb_spec (zlen d) 0) as [Hz|]; [|done]. split; [|done]. simpl negb.
    rewrite Hz. by rewrite (splice_nil _ (nlmsghdr b2)). }
  eexists. split; [reflexivity|]. split; [exact Ec3|]. unfold nm_nlh. simpl nm_block.
  erewrite poke_len; [by rewrite <- !app_assoc|]. rewrite E3. unfold b2, poke. simpl nlmsghdr.
  rewrite E, write_attr by done. unfold P. by rewrite <- !app_assoc.
Qed.

Lemma libnl_put_fits m rest body t d : msg_holds m rest body -> zlen d <= 65531 ->
  16 + zlen body + NLMSG_ALIGN (4 + zlen d) <= nm_size m ->
  exists m', nla_put m t d = (m', 0) /\ nm_size m' = nm_size m /\
    msg_holds m' rest (body ++ enc_attr t d).
Proof.
  intros Hm Hd Hfit. pose proof (zlen_nonneg d). pose proof (zlen_nonneg body).
  destruct (align_bounds (4 + zlen d)) as [Hal Hmod]; [lia|]. unfold nla_put.
  destruct (nla_reserve_fits m rest body t d Hm Hd Hfit) as (m1 & -> & Hs1 & E1).
  destruct Hm as [[Hr Ha Hc Hblk] Hsz]. set (k := NLMSG_ALIGN (4 + zlen d)) in *.
  set (Q := replicate (Z.to_nat (nm_size m - 16 - zlen body - k)) 0) in E1. set (b := Nlmsg (splice (nla_data (16 + zlen body)) d (nm_nlh m1)) (nm_size m1)).
  assert (nlmsghdr b = le_bytes 4 (16 + zlen body + k) ++ rest ++ (body ++ enc_attr t d) ++ Q) as E.
  { unfold b. simpl nlmsghdr. rewrite E1, (app_assoc (le_bytes 4 _ ++ _)).
    rewrite splice_at; [unfold enc_attr; by rewrite <- !app_assoc| |by rewrite length_replicate].
    unfold nla_data, NLA_HDRLEN. rewrite zlen_app, zlen_P by done. rewrite zlen_app, !zlen_le. lia. }
  assert (nm_size m1 = cap (nm_block m)) as Ecap by exact Hs1.
  assert (zlen (body ++ enc_attr t d) = zlen body + k) as Ez by (rewrite zlen_app, enc_attr_length by lia; done).
  exists (with_block b m1). split; [|split; [exact Hs1|]].
  - destruct (Z.gtb_spec (zlen d) 0); [done|]. destruct d; [|unfold zlen in *; simpl in *; lia].
    unfold b. rewrite splice_nil. by destruct m1 as [? ? ? ? ? [? ?] ?].
  - split; [|unfold nm_size in *; simpl; lia]. unfold nm_size in Hfit.
    constructor; rewrite ?Ez; simpl nm_block; [done|by apply mod4_add|simpl cap; lia|].
    rewrite E. unfold Q. simpl cap. unfold nm_size in *. rewrite Ecap, Z.add_assoc. do 4 f_equal. lia.
Qed.

(** ** Nested attributes *)

Lemma pad_aligned n : 0 <= n <= 65531 -> n mod 4 = 0 -> pad (4 + n) = [].
Proof.
  intros Hn Hm. unfold pad. rewrite align_id; [|lia|by apply (mod4_add 4)].
  by replace (4 + n - (4 + n)) with 0 by lia.
Qed.

Lemma nla_nest_start_fits m rest body t : msg_holds m rest body -> 16 + zlen body + 4 <= nm_size m ->
  exists m', nla_nest_start m t = (m', Some (16 + zlen body)) /\ nm_size m' = nm_size m /\
    msg_holds m' rest (body ++ le_bytes 2 4 ++ le_bytes 2 t).
Proof.
  intros Hm Hfit. unfold nla_nest_start. pose proof Hm as [Hh _]. rewrite (holds_tail _ _ _ Hh).
  destruct (libnl_put_fits m rest body t [] Hm) as (m' & -> & Hs & Hm'); [done|exact Hfit|]. eauto.
Qed.

Lemma nla_nest_start_full m rest body t : msg_holds m rest body -> 16 + zlen body + 4 > nm_size m ->
  nla_nest_start m t = (m, None).
Proof.
  intros Hm Hfit. unfold nla_nest_start. by rewrite (libnl_put_full m rest body t [] Hm).
Qed.

(** Taking an attribute off the end of the message. *)
Lemma nla_nest_cancel_spec m rest pre post : msg_holds m rest (pre ++ post) -> zlen pre mod 4 = 0 ->
  zlen post > 0 ->
  exists m', nla_nest_cancel m (16 + zlen pre) = Some m' /\ nm_size m' = nm_size m /\ msg_holds m' rest pre.
Proof.
  intros [Hh Hsz] Hmod Hpost. unfold nla_nest_cancel. rewrite (holds_tail _ _ _ Hh), (holds_len _ _ _ Hh).
  destruct Hh as [Hr Ha Hc Hblk]. rewrite zlen_app in *. pose proof (zlen_nonneg pre).
  replace (16 + (zlen pre + zlen post) - (16 + zlen pre)) with (zlen post) by lia.
  replace (16 + (zlen pre + zlen post) - zlen post) with (16 + zlen pre) by lia.
  destruct (Z.ltb_spec (zlen post) 0); [lia|]. destruct (Z.gtb_spec (zlen post) 0); [|lia].
  set (b := poke 0 4 (16 + zlen pre) (nm_block m)). eexists. split; [reflexivity|]. split; [done|].
  set (Z0 := replicate (Z.to_nat (cap (nm_block m) - 16 - (zlen pre + zlen post))) 0) in *.
  assert (nlmsghdr b = (le_bytes 4 (16 + zlen pre) ++ rest ++ pre) ++ post ++ Z0) as E.
  { unfold b. rewrite (poke_len _ _ _ _ Hblk). by rewrite <- !app_assoc. }
  assert (NLMSG_TAIL b = 16 + zlen pre) as Et.
  { unfold NLMSG_TAIL, hdr_len. rewrite E, <- !app_assoc.
    assert (forall X, get_le 0 4 (le_bytes 4 (16 + zlen pre) ++ X) = 16 + zlen pre) as ->.
    { intros X. apply (get_le_at 0 4 []); [done|]. change (256 ^ Z.of_nat 4) with 4294967296. lia. }
    apply align_id; [lia|]. by apply mod4_add. }
  split; [|done]. constructor; simpl nm_block; simpl cap; [done|done|lia|].
  change (splice (NLMSG_TAIL b) (replicate (Z.to_nat (zlen post)) 0) (nlmsghdr b) =
    le_bytes 4 (16 + zlen pre) ++ rest ++ pre ++ replicate (Z.to_nat (cap (nm_block m) - 16 - zlen pre)) 0).
  rewrite Et, E. rewrite splice_at; [|by rewrite zlen_P|rewrite length_replicate; unfold zlen; lia].
  rewrite <- !app_assoc. do 3 f_equal. unfold Z0. rewrite <- replicate_add. f_equal. lia.
Qed.

Lemma nla_nest_end_empty m rest pre t : msg_holds m rest (pre ++ le_bytes 2 4 ++ le_bytes 2 t) ->
  zlen pre mod 4 = 0 ->
  exists m', nla_nest_end m (16 + zlen pre) = Some (m', 0) /\ nm_size m' = nm_size m /\ msg_holds m' rest pre.
Proof.
  intros Hm Hmod. unfold nla_nest_end. pose proof Hm as [Hh _]. rewrite (holds_tail _ _ _ Hh).
  rewrite !zlen_app, !zlen_le.
  replace (u64 (16 + (zlen pre + (Z.of_nat 2 + Z.of_nat 2)) - (16 + zlen pre))) with 4
    by (replace (_ - _) with 4 by lia; done).
  change (4 =? NLA_HDRLEN) with true. cbv iota.
  destruct (nla_nest_cancel_spec m rest pre (le_bytes 2 4 ++ le_bytes 2 t) Hm Hmod) as (m' & -> & ? & ?); [done|].
  cbn [mbind option_bind]. eauto.
Qed.

Lemma nla_nest_end_fits m rest pre t inner :
  msg_holds m rest (pre ++ le_bytes 2 4 ++ le_bytes 2 t ++ inner) -> zlen pre mod 4 = 0 ->
  0 < zlen inner <= 65531 ->
  exists m', nla_nest_end m (16 + zlen pre) = Some (m', 0) /\ nm_size m' = nm_size m /\
    msg_holds m' rest (pre ++ enc_attr t inner).
Proof.
  intros [Hh Hsz] Hmod Hin. unfold nla_nest_end. rewrite (holds_tail _ _ _ Hh). rewrite !zlen_app, !zlen_le.
  replace (u64 _) with (4 + zlen inner) by (symmetry; replace (_ - _) with (4 + zlen inner) by lia;
    apply (wrap_id 64); change (2 ^ 64) with 18446744073709551616; lia).
  destruct (Z.eqb_spec (4 + zlen inner) NLA_HDRLEN) as [E|_]; [unfold NLA_HDRLEN in E; lia|].
  assert (zlen inner mod 4 = 0) as Hmi.
  { destruct Hh as [_ Ha _ _]. rewrite !zlen_app, !zlen_le in Ha.
    pose proof (Z.div_mod (zlen pre) 4). pose proof (Z.div_mod (zlen inner) 4).
    pose proof (Z.mod_pos_bound (zlen inner) 4). pose proof (Z.div_mod (zlen pre + (Z.of_nat 2 + (Z.of_nat 2 + zlen inner))) 4). lia. }
  destruct (poke_body (nm_block m) rest pre (le_bytes 2 4) (le_bytes 2 t ++ inner) 2 (4 + zlen inner) (16 + zlen pre))
    as [Hh' Hc']; [done|done|done|]. simpl nm_block.
  rewrite (holds_len _ _ _ Hh'). fold (NLMSG_TAIL (poke (16 + zlen pre) 2 (4 + zlen inner) (nm_block m))).
  assert (NLMSG_ALIGN (16 + zlen (pre ++ le_bytes 2 (4 + zlen inner) ++ le_bytes 2 t ++ inner)) =
    16 + zlen (pre ++ le_bytes 2 (4 + zlen inner) ++ le_bytes 2 t ++ inner)) as ->.
  { destruct Hh' as [_ Ha' Hcc _]. pose proof (zlen_nonneg (pre ++ le_bytes 2 (4 + zlen inner) ++ le_bytes 2 t ++ inner)).
    apply align_id; [lia|]. by apply mod4_add. }
  rewrite Z.sub_diag. simpl. eexists. split; [reflexivity|]. split; [done|]. split; [|done].
  unfold enc_attr. rewrite pad_aligned, app_nil_r by (done || lia). exact Hh'.
Qed.

(** ** Attribute trees

    [Leaf] and [Nest] of [Netlink.attr]; there is no [Room]. *)

(** The calls of a client, given those for one attribute; it stops at the
    first failure. *)
Definition nl_build_list (build : attr -> nl_msg -> option (nl_msg * Z)) : list attr -> nl_msg -> option (nl_msg * Z) :=
  fix go (l : list attr) m :=
    match l with
    | [] => Some (m, 0)
    | a :: l' => '(m', r) ← build a m; if r =? 0 then go l' m' else Some (m', r)
    end.

Fixpoint nl_build (a : attr) (m : nl_msg) : option (nl_msg * Z) :=
  match a with
  | Leaf t d => Some (nla_put m t d)
  | Room _ => None
  | Nest t kids =>
      let '(m1, nest) := nla_nest_start m t in
      match nest with
      | None => Some (m1, - NLE_NOMEM)
      | Some start =>
          '(m2, r) ← nl_build_list nl_build kids m1;
          if r =? 0 then nla_nest_end m2 start else Some (m2, r)
      end
  end.

(** The attributes that end up in the message: a nest without contents is
    taken back. *)
Fixpoint flat (a : attr) : list (Z * bytes) :=
  match a with
  | Leaf t d => [(t, d)]
  | Room _ => []
  | Nest t kids =>
      let inner := enc_all (concat (map flat kids)) in
      if zlen inner =? 0 then [] else [(t, inner)]
  end.

Definition flat_list (l : list attr) : list (Z * bytes) := concat (map flat l).

(** The room needed while building. *)
Fixpoint room (a : attr) : Z :=
  match a with
  | Leaf t d => NLMSG_ALIGN (4 + zlen d)
  | Room _ => 0
  | Nest t kids => 4 + fold_right (fun a z => room a + z) 0 kids
  end.

Fixpoint tree_ok (a : attr) : Prop :=
  match a with
  | Leaf t d => 0 <= t < 16384 /\ zlen d <= 65531
  | Room _ => False
  | Nest t kids => 0 <= t < 16384 /\ zlen (enc_all (flat_list kids)) <= 65531 /\
      fold_right (fun a P => tree_ok a /\ P) True kids
  end.

Definition build_result m rest body (attrs : list (Z * bytes)) (need : Z) (o : option (nl_msg * Z)) : Prop :=
  exists m' r, o = Some (m', r) /\ nm_size m' = nm_size m /\
    (r = 0 /\ msg_holds m' rest (body ++ enc_all attrs) \/
     r = - NLE_NOMEM /\ nm_size m < 16 + zlen body + need /\ exists body', msg_holds m' rest body').

Lemma enc_all_app l1 l2 : enc_all (l1 ++ l2) = enc_all l1 ++ enc_all l2.
Proof. unfold enc_all. by rewrite map_app, concat_app. Qed.

Lemma enc_all_one t d : enc_all [(t, d)] = enc_attr t d.
Proof. unfold enc_all. simpl. by rewrite app_nil_r. Qed.

Definition small (td : Z * bytes) : Prop := 0 <= td.1 < 16384 /\ zlen td.2 <= 65531.

Lemma enc_all_mod4 l : Forall small l -> zlen (enc_all l) mod 4 = 0.
Proof.
  induction 1 as [|[t d] l [_ Hd] Hl IH]; [done|]. simpl in Hd. pose proof (zlen_nonneg d).
  change (enc_all ((t, d) :: l)) with (enc_attr t d ++ enc_all l). rewrite zlen_app, enc_attr_length by lia.
  apply mod4_add; [|done]. apply align_bounds. lia.
Qed.

Lemma flat_small a : tree_ok a -> Forall small (flat a).
Proof.
  destruct a as [t d|len|t kids]; cbn [tree_ok flat]; [|done|].
  - intros [? ?]. by apply Forall_singleton.
  - intros (? & ? & _). fold (flat_list kids). destruct (zlen _ =? 0); [done|by apply Forall_singleton].
Qed.

Definition kids_ok (kids : list attr) : Prop := fold_right (fun a P => tree_ok a /\ P) True kids.

Lemma flat_list_small kids : kids_ok kids -> Forall small (flat_list kids).
Proof.
  induction kids as [|a kids IH]; [constructor|]. intros [Ha Hk]. unfold flat_list. cbn [map concat].
  apply Forall_app. split; [by apply flat_small|by apply IH].
Qed.

Definition room_list (kids : list attr) : Z := fold_right (fun a z => room a + z) 0 kids.

Definition room_covers (a : attr) : Prop := tree_ok a -> zlen (enc_all (flat a)) <= room a /\ 0 <= room a.

Lemma room_list_enc kids : Forall room_covers kids -> kids_ok kids ->
  zlen (enc_all (flat_list kids)) <= room_list kids /\ 0 <= room_list kids.
Proof.
  induction 1 as [|a kids Ha Hks IHk]; [done|]. intros [Hka Hk].
  change (flat_list (a :: kids)) with (flat a ++ flat_list kids).
  change (room_list (a :: kids)) with (room a + room_list kids). rewrite enc_all_app, zlen_app.
  specialize (Ha Hka). specialize (IHk Hk). lia.
Qed.

Lemma room_enc a : room_covers a.
Proof.
  induction a as [t d|len|t kids IH] using attr_tree_ind; unfold room_covers; cbn [tree_ok flat room]; [|done|].
  - intros [_ Hd]. pose proof (zlen_nonneg d). destruct (align_bounds (4 + zlen d)) as [Hal _]; [lia|].
    rewrite enc_all_one, enc_attr_length by lia. lia.
  - intros (_ & Hin & Hk). fold (flat_list kids) (room_list kids) (kids_ok kids) in *.
    destruct (room_list_enc kids IH Hk) as [Hle H0].
    pose proof (zlen_nonneg (enc_all (flat_list kids))) as Hz.
    destruct (Z.eqb_spec (zlen (enc_all (flat_list kids))) 0) as [|Hne]; [change (zlen (enc_all [])) with 0; lia|].
    rewrite enc_all_one, enc_attr_length by lia. rewrite align_id; [lia|lia|].
    apply (mod4_add 4); [done|]. by apply enc_all_mod4, flat_list_small.
Qed.

Definition build_ok (a : attr) : Prop := forall m rest body, tree_ok a -> msg_holds m rest body ->
  build_result m rest body (flat a) (room a) (nl_build a m).

Lemma nl_build_list_ok kids m rest body : Forall build_ok kids -> kids_ok kids -> msg_holds m rest body ->
  build_result m rest body (flat_list kids) (room_list kids) (nl_build_list nl_build kids m).
Proof.
  intros Hall. revert m body. induction Hall as [|a kids Ha Hks IH]; intros m body Hk Hm.
  { exists m, 0. split_and!; [done..|]. left. by rewrite app_nil_r. }
  destruct Hk as [Hka Hk]. destruct (Ha m rest body Hka Hm) as (m1 & r & E & Hs & Hr).
  destruct (room_enc a Hka) as [Hra Hra0].
  assert (0 <= room_list kids) by (apply room_list_enc; [apply List.Forall_forall; intros; apply room_enc|done]).
  change (room_list (a :: kids)) with (room a + room_list kids).
  change (flat_list (a :: kids)) with (flat a ++ flat_list kids).
  cbn [nl_build_list]. rewrite E. cbn [mbind option_bind].
  destruct Hr as [[-> Hm1]|(-> & Hfull & Hex)].
  - cbn [Z.eqb]. destruct (IH m1 (body ++ enc_all (flat a)) Hk Hm1) as (m2 & r & E2 & Hs2 & Hr2).
    exists m2, r. split; [done|]. split; [congruence|]. rewrite zlen_app in Hr2.
    rewrite enc_all_app, app_assoc. destruct Hr2 as [?|(? & ? & ?)]; [by left|right]. split_and!; [done|lia|done].
  - exists m1, (- NLE_NOMEM). split_and!; [done..|]. right. split_and!; [done|lia|done].
Qed.

Lemma nl_build_ok a : build_ok a.
Proof.
  induction a as [t d|len|t kids IH] using attr_tree_ind; intros m rest body Hok Hm; [| done |].
  - cbn [nl_build flat room]. destruct Hok as [_ Hd]. unfold build_result. rewrite enc_all_one.
    destruct (Z_le_gt_dec (16 + zlen body + NLMSG_ALIGN (4 + zlen d)) (nm_size m)) as [Hle|Hgt].
    + destruct (libnl_put_fits m rest body t d Hm Hd Hle) as (m' & -> & Hs & Hm'). eauto 8.
    + rewrite (libnl_put_full m rest body t d Hm Hd Hgt). exists m, (- NLE_NOMEM).
      split_and!; [done..|]. right. split_and!; [done|lia|eauto].
  - destruct Hok as (Ht & Hin & Hk). cbn [nl_build flat room].
    fold (flat_list kids) (room_list kids) (kids_ok kids) in *.
    assert (0 <= room_list kids) by (apply room_list_enc; [apply List.Forall_forall; intros; apply room_enc|done]).
    destruct (Z_le_gt_dec (16 + zlen body + 4) (nm_size m)) as [Hle|Hgt].
    2: { rewrite (nla_nest_start_full m rest body t Hm Hgt). exists m, (- NLE_NOMEM).
         split_and!; [done..|]. right. split_and!; [done|lia|eauto]. }
    destruct (nla_nest_start_fits m rest body t Hm Hle) as (m1 & -> & Hs1 & Hm1).
    destruct (nl_build_list_ok kids m1 rest _ IH Hk Hm1) as (m2 & r & -> & Hs2 & Hr). cbn [mbind option_bind].
    destruct Hr as [[-> Hm2]|(-> & Hfull & Hex)].
    2: { exists m2, (- NLE_NOMEM). rewrite !zlen_app, !zlen_le in Hfull.
         split_and!; [done|congruence|]. right. split_and!; [done|lia|done]. }
    cbn [Z.eqb]. assert (zlen body mod 4 = 0) as Hmod by (by destruct Hm as [[] _]).
    pose proof (zlen_nonneg (enc_all (flat_list kids))).
    destruct (Z.eqb_spec (zlen (enc_all (flat_list kids))) 0) as [Hz|Hne].
    + destruct (enc_all (flat_list kids)); [|unfold zlen in Hz; simpl in Hz; lia]. rewrite app_nil_r in Hm2.
      destruct (nla_nest_end_empty m2 rest body t Hm2 Hmod) as (m3 & -> & Hs3 & Hm3).
      exists m3, 0. split_and!; [done|congruence|]. left. by rewrite app_nil_r.
    + rewrite <- !app_assoc in Hm2.
      destruct (nla_nest_end_fits m2 rest body t _ Hm2 Hmod ltac:(lia)) as (m3 & -> & Hs3 & Hm3).
      exists m3, 0. split_and!; [done|congruence|]. left. by rewrite enc_all_one.
Qed.

End Build.

(** ** What the parser finds *)

(** An attribute that a policy entry accepts. *)
Definition passes_entry (pt : nla_policy) (d : bytes) : Prop :=
  0 <= p_type pt <= NLA_TYPE_MAX /\ p_min pt <= zlen d /\ (maxlen pt <> 0 -> zlen d <= maxlen pt) /\
  (p_type pt = NLA_STRING -> exists d', d = d' ++ [0]).

Definition passes (max : Z) (policy : option (list nla_policy)) (td : Z * bytes) : Prop :=
  match policy with
  | None => True
  | Some p => td.1 <= max -> exists pt, p !! Z.to_nat td.1 = Some pt /\ passes_entry pt td.2
  end.

Lemma validate_passes buf a max p t d : 0 <= t < 16384 -> zlen d <= 65531 -> 0 <= a -> a + 4 + zlen d <= zlen buf ->
  get_le a 2 buf = 4 + zlen d -> get_le (a + 2) 2 buf = t -> payload_at buf a = d -> passes max (Some p) (t, d) ->
  validate_nla buf a max p = Some 0.
Proof.
  intros Ht Hd Ha Hin Hlen Hty Hpay Hp. pose proof (zlen_nonneg d). unfold validate_nla, nla_type. rewrite rd_Some by lia.
  cbn [mbind option_bind]. rewrite Hty, type_mask, Z.mod_small by lia. rewrite (proj2 (Z.ltb_ge t 0)) by lia.
  destruct (Z.gtb_spec t max) as [|Hle]; [done|]. cbn [orb]. destruct (Hp Hle) as (pt & E & Hr & Hmin & Hmax & Hstr). cbn [fst snd] in *.
  rewrite E. cbn [mbind option_bind]. rewrite Z.gtb_ltb, (proj2 (Z.ltb_ge _ _)) by lia. rewrite p_min_eq by done.
  cbn [mbind option_bind]. unfold nla_len. rewrite rd_Some by lia. cbn [mbind option_bind]. rewrite Hlen.
  unfold NLA_HDRLEN. replace (4 + zlen d - 4) with (zlen d) by lia. unfold u32. rewrite wrap_id by lia.
  rewrite (proj2 (Z.ltb_ge _ _)) by lia. destruct (Z.eqb_spec (maxlen pt) 0); cbn [negb andb].
  2: rewrite Z.gtb_ltb, (proj2 (Z.ltb_ge _ _)) by (specialize (Hmax ltac:(done)); lia).
  all: destruct (Z.eqb_spec (p_type pt) NLA_STRING) as [Es|]; [|done]; destruct (Hstr Es) as [d' ->];
    unfold nla_data, NLA_HDRLEN; rewrite zlen_app in *; change (zlen [0]) with 1 in *; pose proof (zlen_nonneg d');
    rewrite rd_Some by lia; cbn [mbind option_bind];
    assert (buf !! Z.to_nat (a + 4 + (zlen d' + 1) - 1) = Some 0) as E0
      by (assert (payload_at buf a !! length d' = Some 0) as Hl by (rewrite Hpay; by rewrite lookup_app_r, Nat.sub_diag by lia);
          unfold payload_at, RTA_DATA in Hl; rewrite lookup_take_Some, lookup_drop in Hl; destruct Hl as [Hl _]; rewrite <- Hl; f_equal; unfold zlen; lia);
    rewrite get_le_1 in E0 by lia; injection E0 as ->; done.
Qed.

Lemma parse_built attrs fuel tb max policy P Q acc :
  0 <= max -> Forall small attrs -> Forall (passes max policy) attrs ->
  zlen (P ++ enc_all attrs ++ Q) <= 2147483640 -> zlen (enc_all attrs) < Z.of_nat fuel ->
  stored (P ++ enc_all attrs ++ Q) max tb acc ->
  exists tb', nla_for_each_attr fuel (parse_attr max policy (P ++ enc_all attrs ++ Q)) (P ++ enc_all attrs ++ Q)
      (zlen P) (zlen (enc_all attrs)) tb = Some (inr tb') /\
    stored (P ++ enc_all attrs ++ Q) max tb' (fun t => last_of t (acc t) attrs).
Proof.
  intros Hmax. revert fuel tb P acc. induction attrs as [|[ty d] attrs IH]; intros fuel tb P acc Hok Hpass Hbuf Hf Hst.
  { destruct fuel as [|fuel]; [unfold zlen in Hf; simpl in Hf; lia|]. by exists tb. }
  apply list.Forall_cons in Hok as [[Hty Hd] Hok]. apply list.Forall_cons in Hpass as [Hp Hpass]. simpl in Hty, Hd.
  pose proof (zlen_nonneg d). pose proof (zlen_nonneg P). pose proof (zlen_nonneg Q).
  pose proof (zlen_nonneg (enc_all attrs)). destruct (align_bounds (4 + zlen d)) as [Hal _]; [lia|].
  change (enc_all ((ty, d) :: attrs)) with (enc_attr ty d ++ enc_all attrs) in *.
  assert (zlen (enc_attr ty d) = NLMSG_ALIGN (4 + zlen d)) as Eenc by (apply enc_attr_length; lia).
  destruct (enc_attr_at P ty d (enc_all attrs ++ Q)) as (Hg1 & Hg2 & Hpay); [lia|done|].
  rewrite <- (app_assoc (enc_attr ty d)) in *. set (buf := P ++ _) in *.
  assert (zlen buf = zlen P + (NLMSG_ALIGN (4 + zlen d) + zlen (enc_all attrs)) + zlen Q) as Hzb.
  { unfold buf. rewrite !zlen_app. lia. }
  rewrite zlen_app, Eenc in *. destruct fuel as [|fuel]; [lia|]. cbn [nla_for_each_attr]. unfold nla_ok.
  rewrite (wrap_id 64) by (change (2 ^ 64) with 18446744073709551616; lia).
  destruct (Z.geb_spec (NLMSG_ALIGN (4 + zlen d) + zlen (enc_all attrs)) 4); [|lia].
  rewrite rd_Some by lia. cbn [mbind option_bind]. rewrite Hg1.
  rewrite (proj2 (Z.leb_le 4 (4 + zlen d))), (proj2 (Z.leb_le (4 + zlen d) _)) by lia. cbn [andb].
  set (tb1 := if ty <=? max then <[Z.to_nat ty := Some (zlen P)]> tb else tb).
  assert (parse_attr max policy buf (zlen P) tb = Some (inr tb1)) as ->.
  { unfold parse_attr, nla_type. rewrite rd_Some by lia. cbn [mbind option_bind].
    rewrite Hg2, type_mask, Z.mod_small by lia. unfold tb1.
    destruct (Z.gtb_spec ty max); [by rewrite (proj2 (Z.leb_gt ty max)) by lia|].
    rewrite (proj2 (Z.leb_le ty max)) by lia. destruct policy as [p|]; [|done].
    rewrite (validate_passes buf (zlen P) max p ty d) by (done || lia). done. }
  cbn [mbind option_bind]. unfold nla_next. rewrite rd_Some by lia. cbn [mbind option_bind]. rewrite Hg1.
  rewrite NLA_ALIGN_eq by lia. rewrite s32_id by (unfold INT_MIN, INT_MAX; lia).
  replace (NLMSG_ALIGN (4 + zlen d) + zlen (enc_all attrs) - NLMSG_ALIGN (4 + zlen d))
    with (zlen (enc_all attrs)) by lia.
  replace (zlen P + NLMSG_ALIGN (4 + zlen d)) with (zlen (P ++ enc_attr ty d)) by (rewrite zlen_app; lia).
  assert (buf = (P ++ enc_attr ty d) ++ enc_all attrs ++ Q) as Ebuf by (unfold buf; by rewrite <- app_assoc).
  rewrite Ebuf in *. apply (IH fuel tb1 _ (fun t => if ty =? t then Some d else acc t)); try done; try lia.
  apply stored_insert; try done; [lia|]. rewrite <- Ebuf, Hg1 in *. lia.
Qed.

Lemma passes_none max attrs : Forall (passes max None) attrs.
Proof. apply List.Forall_forall. done. Qed.

Lemma nla_parse_built attrs max policy P Q : 0 <= max -> Forall small attrs -> Forall (passes max policy) attrs ->
  zlen (P ++ enc_all attrs ++ Q) <= 2147483640 ->
  exists tb, nla_parse max (P ++ enc_all attrs ++ Q) (zlen P) (zlen (enc_all attrs)) policy = Some (tb, 0) /\
    stored (P ++ enc_all attrs ++ Q) max tb (fun t => last_of t None attrs).
Proof.
  intros Hmax Hok Hpass Hbuf. pose proof (zlen_nonneg (enc_all attrs)).
  destruct (parse_built attrs (S (Z.to_nat (zlen (enc_all attrs)))) (no_attrs max) max policy P Q (fun _ => None))
    as (tb & E & Hst); try done; [lia|by apply stored_empty|].
  exists tb. unfold nla_parse. by rewrite E.
Qed.

(** Parsing the payload of an attribute whose contents were built. *)
Lemma nla_parse_nested_built buf a max attrs : 0 <= max -> Forall small attrs -> zlen buf <= 2147483640 ->
  0 <= a /\ 4 <= get_le a 2 buf /\ a + get_le a 2 buf <= zlen buf -> payload_at buf a = enc_all attrs ->
  exists tb, nla_parse_nested max buf a None = Some (tb, 0) /\ stored buf max tb (fun t => last_of t None attrs).
Proof.
  intros Hmax Hok Hbuf (Ha & H4 & Hin) Hpay. unfold nla_parse_nested, nla_len. rewrite rd_Some by lia.
  cbn [mbind option_bind]. unfold NLA_HDRLEN, nla_data. unfold payload_at, RTA_DATA in Hpay.
  set (n := get_le a 2 buf - 4) in *.
  assert (buf = take (Z.to_nat (a + 4)) buf ++ enc_all attrs ++ drop (Z.to_nat (a + 4 + n)) buf) as E.
  { rewrite <- Hpay. rewrite <- (take_drop (Z.to_nat (a + 4)) buf) at 1. f_equal.
    rewrite <- (take_drop (Z.to_nat n) (drop (Z.to_nat (a + 4)) buf)) at 1. f_equal.
    rewrite drop_drop. f_equal. lia. }
  assert (zlen (take (Z.to_nat (a + 4)) buf) = a + NLA_HDRLEN) as E1.
  { unfold zlen, NLA_HDRLEN in *. rewrite length_take. lia. }
  assert (zlen (enc_all attrs) = n) as E2.
  { rewrite <- Hpay. unfold zlen in *. rewrite length_take, length_drop. lia. }
  rewrite E in Hbuf. destruct (nla_parse_built attrs max None _ _ Hmax Hok (passes_none _ _) Hbuf) as (tb & Etb & Hst).
  rewrite <- E, E1, E2 in *. unfold NLA_HDRLEN in Etb. eauto.
Qed.

(** The table that [nlmsg_parse] makes of a message with a family header and
    attributes behind it. *)
Lemma nlmsg_parse_holds m rest hdr attrs hdrlen maxtype policy :
  msg_holds m rest (hdr ++ enc_all attrs) -> nm_size m <= 2147483640 -> 0 <= hdrlen < 2 ^ 30 -> zlen hdr = NLMSG_ALIGN hdrlen ->
  0 <= maxtype -> Forall small attrs -> Forall (passes maxtype policy) attrs -> exists tb,
  nlmsg_parse (nm_nlh m) 0 hdrlen maxtype policy = Some (Some tb, 0) /\ stored (nm_nlh m) maxtype tb (fun t => last_of t None attrs) /\
  zlen (nm_nlh m) = nm_size m.
Proof.
  intros [Hh' _] Hsz Hh Hhdr Hmax Hok Hpass. pose proof (holds_len _ _ _ Hh') as Hlen. destruct Hh' as [Hr Ha Hc Hblk].
  rewrite zlen_app in *. pose proof (zlen_nonneg (enc_all attrs)). pose proof (zlen_nonneg hdr).
  set (L := 16 + (zlen hdr + zlen (enc_all attrs))) in *. set (Z0 := replicate _ 0) in Hblk.
  destruct (nla_parse_built attrs maxtype policy (le_bytes 4 L ++ rest ++ hdr) Z0) as (tb & Etb & Hst); [done..| |].
  { rewrite !zlen_app, zlen_le. unfold Z0. rewrite zlen_replicate. unfold nm_size in *. lia. }
  assert (nm_nlh m = (le_bytes 4 L ++ rest ++ hdr) ++ enc_all attrs ++ Z0) as Ebuf.
  { unfold nm_nlh. rewrite Hblk. by rewrite <- !app_assoc. }
  assert (zlen (nm_nlh m) = nm_size m) as Hz.
  { rewrite Ebuf, !zlen_app, zlen_le. unfold Z0. rewrite zlen_replicate. unfold nm_size in *. lia. }
  rewrite <- Ebuf in Etb, Hst. rewrite zlen_P in Etb by done. exists tb. split; [|done].
  unfold nlmsg_parse, nlmsg_valid_hdr, nlmsg_attrlen, nlmsg_datalen, nlmsg_size, nlmsg_attrdata, nlmsg_data.
  unfold NLMSG_HDRLEN in *. destruct (align_bounds hdrlen) as [Hal _]; [lia|].
  rewrite !rd_Some by (unfold nm_size in *; lia). cbn [mbind option_bind].
  change (get_le 0 4 (nm_nlh m)) with (hdr_len (nm_block m)). rewrite Hlen.
  unfold nm_size in *. rewrite !s32_id by (unfold INT_MIN, INT_MAX; rewrite ?s32_id; unfold INT_MIN, INT_MAX; lia).
  rewrite (wrap_id 32) by (change (2 ^ 32) with 4294967296; lia).
  destruct (Z.ltb_spec L (16 + hdrlen)); [lia|]. cbn [negb].
  rewrite <- Hhdr. replace (Z.max (L - 16 - zlen hdr) 0) with (zlen (enc_all attrs)) by lia.
  rewrite Z.add_0_l, Etb. done.
Qed.


(** ** Limits of the builder *)

(** A message of [n] bytes with nothing behind its header. *)
Definition fresh_msg (n : Z) : nl_msg :=
  NlMsg (-1) 0 zero_addr zero_addr zero_addr (poke 0 4 16 (Nlmsg (replicate (Z.to_nat n) 0) n)) 1.

Lemma nlmsg_alloc_size_fresh : @nlmsg_alloc_size sample_alloc 128 = Some (fresh_msg 128).
Proof. reflexivity. Qed.

Lemma fresh_msg_holds n : 16 <= n <= 2147483647 -> msg_holds (fresh_msg n) (replicate 12 0) [].
Proof.
  intros Hn. split; [|unfold nm_size; simpl; lia].
  constructor; [done|done|simpl; change (zlen (@nil Z)) with 0; lia|].
  simpl nm_block. unfold poke, put_le. simpl nlmsghdr. simpl cap. rewrite (zeros_split n 16) by lia.
  change (replicate (Z.to_nat 16) 0) with (replicate 4 0 ++ replicate 12 0). rewrite <- app_assoc.
  etransitivity; [by apply (splice_at 0 [] (replicate 4 0))|]. change (zlen (@nil Z)) with 0.
  rewrite !app_nil_l. by replace (n - 16 - 0) with (n - 16) by lia.
Qed.

(** The length field has 16 bits: a payload of 65532 bytes is accepted and
    its attribute gets the length 0, at which no parser gets past it. *)
Lemma nla_put_cuts_length :
  let '(m, r) := nla_put (fresh_msg 70000) 1 (replicate (Z.to_nat 65532) 7) in
  r = 0 /\ get_le 16 2 (nm_nlh m) = 0 /\ hdr_len (nm_block m) = 65552.
Proof. vm_compute. done. Qed.

(** [nla_nest_end] pads the message although its buffer need not be a
    multiple of four bytes: a message of 21 bytes aborts. *)
Lemma nla_nest_end_aborts :
  let '(m, start) := nla_nest_start (fresh_msg 21) 1 in
  let '(m, r) := nlmsg_append m [7] 0 in
  r = 0 /\ start = Some 16 /\ nla_nest_end m 16 = None.
Proof. vm_compute. done. Qed.

(** [nla_nest_cancel] subtracts the padded length from the length that is not
    padded: cancelling a nest with one byte of data leaves a message that is
    shorter than its header. *)
Lemma nla_nest_cancel_underflows :
  let '(m, start) := nla_nest_start (fresh_msg 64) 1 in
  let '(m, r) := nlmsg_append m [7] 0 in
  r = 0 /\ (hdr_len ∘ nm_block) <$> nla_nest_cancel m 16 = Some 13.
Proof. vm_compute. done. Qed.

(** ** Witnesses *)

Definition link_policy : list nla_policy :=
  [Policy NLA_UNSPEC 0 0; Policy NLA_STRING 0 16; Policy NLA_U32 0 0; Policy NLA_NESTED 0 0].

(** IFLA-like attributes: a name, an index and one of a type that is not in
    the policy. *)
Definition link_attrs : list attr := [Leaf 1 (str "eth0" ++ [0]); Leaf 2 [3; 0; 0; 0]; Leaf 9 [1]].

Definition link_bytes : bytes := enc_all (flat_list link_attrs).

Lemma nla_parse_typed_witness :
  exists tb err, nla_parse 3 link_bytes 0 28 (Some link_policy) = Some (tb, err) /\
    (err = 0 \/ err = - NLE_RANGE \/ err = - NLE_INVAL) /\
    typed_table link_bytes 0 (0 + 28) 3 link_policy tb.
Proof.
  apply (nla_parse_typed link_bytes 0 28 3 link_policy).
  - repeat (constructor; [vm_compute; intuition discriminate|]). constructor.
  - unfold region_ok. split_and!; first [by left|by vm_compute].
  - lia.
  - split; [done|]. repeat (constructor; [vm_compute; intuition (discriminate || auto)|]). constructor.
Defined.

Definition nested_attrs : list attr :=
  [Leaf 3 (str "veth0" ++ [0]); Nest 18 [Leaf 1 (str "veth" ++ [0]); Nest 2 []]; Nest 5 []].


End NlAttr.
