(* ===== verification/NlCache.v ===== *)
(** * Objects, hash tables and caches of libnl ([lib/object.c],
      [lib/hashtable.c], [lib/cache.c], [include/netlink/list.h])

    The memory holds objects and caches at locations, and the two pointers of
    every list head at the address of the head: [Obj l] is [&obj->ce_list],
    [Head c] is [&cache->c_items].  A hash table belongs to one cache; its
    chains are lists of nodes.  A freed location is gone, so that using it
    is undefined behaviour; that, a [BUG ()] and running out of fuel are
    [None].  The functions an object type provides ([nl_object_ops]) are
    parameters: they see and compute the type-specific part of an object, its
    content.

    [nl_object_put], [nl_object_free], [nl_cache_remove] and
    [nl_hash_table_del] call each other; their fuel bounds the depth of these
    calls (the theorems, in the file [NlCacheInv], hold from depth 3 on).
    Callbacks of the user are recorded in [changes]. *)

From S2P Require Import Prelude.
From Stdlib Require Import ZArith Lia.
From stdpp Require Import base list numbers option gmap sets countable.

Open Scope Z_scope.

Module NlCache.

Definition NLE_NOMEM : Z := 5.
Definition NLE_EXIST : Z := 6.
Definition NLE_OPNOTSUPP : Z := 10.
Definition NLE_OBJ_NOTFOUND : Z := 12.
Definition NLE_MSGTYPE_NOSUPPORT : Z := 22.
Definition NLE_OBJ_MISMATCH : Z := 23.
Definition NL_OBJ_MARK : Z := 1.
Definition LOOSE_COMPARISON : Z := 1.
Definition NL_MAX_HASH_ENTRIES : Z := 1024.
Definition NL_ACT_NEW : Z := 1.
Definition NL_ACT_DEL : Z := 2.
Definition NL_ACT_CHANGE : Z := 5.
Definition UINT_MAX : Z := 4294967295.

Abbreviation loc := positive (only parsing).

(** The address of a list head. *)
Inductive node := Obj (l : loc) | Head (c : loc).

#[export] Instance node_eq_dec : EqDecision node.
Proof. solve_decision. Defined.

#[export] Instance node_countable : Countable node.
Proof.
  refine (inj_countable' (fun n => match n with Obj l => inl l | Head c => inr c end)
            (fun s => match s with inl l => Obj l | inr c => Head c end) _).
  by intros [].
Defined.

Section Cache.
(** The type-specific data of objects. *)
Context {D : Type} {al : Allocator}.

(** [ce_mask] and the data behind the common header: what the functions of an
    object type read. *)
Record content := Content { ce_mask : Z; ce_data : D }.

(** The operations of an object type; a null function pointer is [None].
    [oo_clone] gets the copy made so far and the original, [None] is a
    negative result; [oo_update] likewise, [None] is any result but 0. *)
Record nl_object_ops := ObjectOps {
  oo_size : Z;
  oo_id_attrs : Z;
  oo_init : content;
  oo_free_data : bool;
  oo_clone : option (content -> content -> option content);
  oo_compare : option (content -> content -> Z -> Z -> Z);
  oo_update : option (content -> content -> option content);
  oo_keygen : option (content -> Z -> Z);
  oo_id_attrs_get : option (content -> Z)
}.

(** The operations at an address; pointers to them are compared. *)
Variable ops_at : Z -> nl_object_ops.

Record nl_object := Object {
  ce_refcnt : Z;
  ce_ops : Z;
  ce_cache : option loc;
  ce_msgtype : Z;
  ce_flags : Z;
  ce_content : content
}.

Record nl_hash_node := HashNode { key : Z; obj : loc }.

Record nl_hash_table := HashTable { ht_size : Z; nodes : list (list nl_hash_node) }.

(** [co_msgtypes] up to the terminating entry: message type and action. *)
Record nl_cache_ops := CacheOps {
  co_obj_ops : Z;
  co_flags : Z;
  co_hash_size : Z;
  co_msgtypes : list (Z * Z)
}.

Record nl_cache := Cache {
  c_nitems : Z;
  c_iarg1 : Z;
  c_iarg2 : Z;
  c_refcnt : Z;
  c_flags : Z;
  hashtable : option nl_hash_table;
  c_ops : nl_cache_ops
}.

(** [links]: next and previous of every list head; [freed]: the objects whose
    [oo_free_data] was called; [changes]: calls of the change callback. *)
Record mem := Mem {
  objs : gmap loc nl_object;
  caches : gmap loc nl_cache;
  links : gmap node (node * node);
  freed : list loc;
  changes : list (loc * Z)
}.

(** ** A small monad: undefined behaviour and the memory *)

Definition M (A : Type) : Type := mem -> option (A * mem).

#[export] Instance M_ret : MRet M := fun A a m => Some (a, m).
#[export] Instance M_bind : MBind M := fun A B f x m => '(a, m') ← x m; f a m'.

Definition undef {A} : M A := fun _ => None.
Definition modify (f : mem -> mem) : M unit := fun m => Some (tt, f m).

Definition get_obj (l : loc) : M nl_object := fun m => o ← objs m !! l; Some (o, m).
Definition get_cache (c : loc) : M nl_cache := fun m => x ← caches m !! c; Some (x, m).
Definition get_link (n : node) : M (node * node) := fun m => x ← links m !! n; Some (x, m).

Definition put_obj (l : loc) (o : nl_object) : M unit := fun m =>
  Some (tt, Mem (<[l := o]> (objs m)) (caches m) (links m) (freed m) (changes m)).
Definition put_cache (c : loc) (x : nl_cache) : M unit := fun m =>
  Some (tt, Mem (objs m) (<[c := x]> (caches m)) (links m) (freed m) (changes m)).
Definition put_link (n : node) (x : node * node) : M unit := fun m =>
  Some (tt, Mem (objs m) (caches m) (<[n := x]> (links m)) (freed m) (changes m)).

(** Updates of a field. *)
Definition set_refcnt (r : Z) (o : nl_object) : nl_object :=
  Object r (ce_ops o) (ce_cache o) (ce_msgtype o) (ce_flags o) (ce_content o).
Definition set_ce_cache (c : option loc) (o : nl_object) : nl_object :=
  Object (ce_refcnt o) (ce_ops o) c (ce_msgtype o) (ce_flags o) (ce_content o).
Definition set_ce_flags (f : Z) (o : nl_object) : nl_object :=
  Object (ce_refcnt o) (ce_ops o) (ce_cache o) (ce_msgtype o) f (ce_content o).
Definition set_content (x : content) (o : nl_object) : nl_object :=
  Object (ce_refcnt o) (ce_ops o) (ce_cache o) (ce_msgtype o) (ce_flags o) x.
Definition set_nitems (n : Z) (x : nl_cache) : nl_cache :=
  Cache n (c_iarg1 x) (c_iarg2 x) (c_refcnt x) (c_flags x) (hashtable x) (c_ops x).
Definition set_c_refcnt (n : Z) (x : nl_cache) : nl_cache :=
  Cache (c_nitems x) (c_iarg1 x) (c_iarg2 x) n (c_flags x) (hashtable x) (c_ops x).
Definition set_hashtable (h : option nl_hash_table) (x : nl_cache) : nl_cache :=
  Cache (c_nitems x) (c_iarg1 x) (c_iarg2 x) (c_refcnt x) (c_flags x) h (c_ops x).

(** ** Lists *)

(** [prev->next = obj; obj->prev = prev; next->prev = obj; obj->next = next]. *)
Definition __nl_list_add (o prev next : node) : M unit :=
  p ← get_link prev; put_link prev (o, p.2) ;;
  x ← get_link o; put_link o (x.1, prev) ;;
  n ← get_link next; put_link next (n.1, o) ;;
  x ← get_link o; put_link o (next, x.2).

Definition nl_list_add_tail (o head : node) : M unit :=
  h ← get_link head; __nl_list_add o h.2 head.

Definition nl_list_add_head (o head : node) : M unit :=
  h ← get_link head; __nl_list_add o head h.1.

(** The pointers of the removed element stay as they are. *)
Definition nl_list_del (o : node) : M unit :=
  x ← get_link o;
  n ← get_link x.1; put_link x.1 (n.1, x.2) ;;
  x ← get_link o;
  p ← get_link x.2; put_link x.2 (x.1, p.2).

Definition nl_list_empty (n : node) : M bool :=
  x ← get_link n; mret (bool_decide (x.1 = n)).

(** The heads after [n] up to [stop]: at most [fuel] of them. *)
Fixpoint walk (fuel : nat) (n stop : node) : M (list loc) :=
  match fuel with
  | O => undef
  | S fuel' =>
      x ← get_link n;
      if bool_decide (x.1 = stop) then mret [] else
      match x.1 with
      | Obj l => rest ← walk fuel' x.1 stop; mret (l :: rest)
      | Head _ => undef
      end
  end.

(** [nl_list_for_each_entry]: the elements in order, as long as the body does
    not change the list; there are not more than objects. *)
Definition elements (c : loc) : M (list loc) := fun m => walk (S (size (objs m))) (Head c) (Head c) m.

(** ** Objects *)

(** [sizeof (struct nl_object)]; the data starts at offset 52. *)
Definition nl_object_size : Z := 56.
Definition data_offset : Z := 52.

(** A new object, or NULL; [oo_init] is the content [calloc] and the
    constructor leave. *)
Definition nl_object_alloc (ops : Z) : M (option loc) := fun m =>
  if oo_size (ops_at ops) <? nl_object_size then None else
  if malloc_ok (oo_size (ops_at ops)) then
    let l := fresh (dom (objs m) : gset loc) in
    Some (Some l, Mem (<[l := Object 1 ops None 0 0 (oo_init (ops_at ops))]> (objs m)) (caches m)
                    (<[Obj l := (Obj l, Obj l)]> (links m)) (freed m) (changes m))
  else Some (None, m).

Definition nl_object_get (l : loc) : M unit :=
  o ← get_obj l; put_obj l (set_refcnt (s32 (ce_refcnt o + 1)) o).

Definition nl_object_shared (l : loc) : M bool := o ← get_obj l; mret (ce_refcnt o >? 1).

Definition nl_object_mark (l : loc) : M unit :=
  o ← get_obj l; put_obj l (set_ce_flags (Z.lor (ce_flags o) NL_OBJ_MARK) o).
Definition nl_object_unmark (l : loc) : M unit :=
  o ← get_obj l; put_obj l (set_ce_flags (Z.land (ce_flags o) (Z.lnot NL_OBJ_MARK)) o).
Definition nl_object_is_marked (l : loc) : M Z :=
  o ← get_obj l; mret (Z.land (ce_flags o) NL_OBJ_MARK).

(** The result is [-NLE_OPNOTSUPP], 0, or some other value ([oo_update]
    failed; 1 stands for it). *)
Definition nl_object_update (dst src : loc) : M Z :=
  d ← get_obj dst; s ← get_obj src;
  match oo_update (ops_at (ce_ops d)) with
  | Some f =>
      match f (ce_content d) (ce_content s) with
      | Some x => put_obj dst (set_content x d) ;; mret 0
      | None => mret 1
      end
  | None => mret (- NLE_OPNOTSUPP)
  end.

(** The attributes that identify an object. *)
Definition req_attrs (ops : nl_object_ops) (a b : content) : option Z :=
  r ← (match oo_id_attrs_get ops with
       | Some f => if negb (s32 (f a) =? s32 (f b)) then None else Some (u32 (f a))
       | None => Some (if negb (oo_id_attrs ops =? 0) then oo_id_attrs ops else UINT_MAX)
       end);
  Some (if r =? UINT_MAX then Z.land (ce_mask a) (ce_mask b) else r).

Definition identical (a b : nl_object) : bool :=
  let ops := ops_at (ce_ops a) in
  let x := ce_content a in let y := ce_content b in
  if negb (ce_ops a =? ce_ops b) then false else
  match req_attrs ops x y with
  | None => false
  | Some req =>
      if negb (Z.land (ce_mask x) req =? req) || negb (Z.land (ce_mask y) req =? req) then false else
      match oo_compare ops with
      | None => false
      | Some cmp => cmp x y req 0 =? 0
      end
  end.

Definition nl_object_identical (a b : loc) : M bool :=
  x ← get_obj a; y ← get_obj b; mret (identical x y).

Definition nl_object_diff (a b : loc) : M Z :=
  x ← get_obj a; y ← get_obj b;
  mret (if negb (ce_ops x =? ce_ops y) then UINT_MAX else
        match oo_compare (ops_at (ce_ops x)) with
        | None => UINT_MAX
        | Some cmp => u32 (cmp (ce_content x) (ce_content y) UINT_MAX 0)
        end).

Definition nl_object_match_filter (o filter : loc) : M bool :=
  x ← get_obj o; y ← get_obj filter;
  mret (if negb (ce_ops x =? ce_ops y) then false else
        match oo_compare (ops_at (ce_ops x)) with
        | None => false
        | Some cmp => cmp (ce_content x) (ce_content y) (ce_mask (ce_content y)) LOOSE_COMPARISON =? 0
        end).

Definition keygen (o : nl_object) (size : Z) : Z :=
  match oo_keygen (ops_at (ce_ops o)) with
  | Some f => f (ce_content o) size
  | None => 0
  end.

Definition nl_object_keygen (l : loc) (size : Z) : M Z := o ← get_obj l; mret (keygen o size).

Definition nl_object_get_id_attrs (l : loc) : M Z :=
  o ← get_obj l;
  let ops := ops_at (ce_ops o) in
  mret (match oo_id_attrs_get ops with Some f => u32 (f (ce_content o)) | None => oo_id_attrs ops end).

(** ** Hash tables *)

(** [sizeof (nl_hash_table_t)], [sizeof (nl_hash_node_t)]. *)
Definition nl_hash_table_size : Z := 16.
Definition nl_hash_node_size : Z := 24.

Definition nl_hash_table_alloc (size : Z) : option nl_hash_table :=
  if malloc_ok nl_hash_table_size && malloc_ok (8 * size)
  then Some (HashTable size (replicate (Z.to_nat size) [])) else None.

(** [while (node)] with [nl_object_identical (node->obj, obj)]: the first
    identical object of the chain. *)
Fixpoint find_identical (chain : list nl_hash_node) (o : loc) : M (option loc) :=
  match chain with
  | [] => mret None
  | n :: chain' =>
      same ← nl_object_identical (obj n) o;
      if same : bool then mret (Some (obj n)) else find_identical chain' o
  end.

(** [ht->nodes[key_hash]]. *)
Definition get_chain (ht : nl_hash_table) (k : Z) : M (list nl_hash_node) := fun m =>
  if (0 <=? k) && (k <? zlen (nodes ht)) then chain ← nodes ht !! Z.to_nat k; Some (chain, m) else None.

Definition set_chain (ht : nl_hash_table) (k : Z) (chain : list nl_hash_node) : nl_hash_table :=
  HashTable (ht_size ht) (<[Z.to_nat k := chain]> (nodes ht)).

Definition nl_hash_table_lookup (ht : nl_hash_table) (o : loc) : M (option loc) :=
  k ← nl_object_keygen o (ht_size ht); chain ← get_chain ht k; find_identical chain o.

Definition nl_hash_table_add (ht : nl_hash_table) (o : loc) : M (nl_hash_table * Z) :=
  k ← nl_object_keygen o (ht_size ht);
  chain ← get_chain ht k;
  found ← find_identical chain o;
  match found with
  | Some _ => mret (ht, - NLE_EXIST)
  | None =>
      if malloc_ok nl_hash_node_size then
        nl_object_get o ;;
        mret (set_chain ht k (HashNode k o :: chain), 0)
      else mret (ht, - NLE_NOMEM)
  end.

(** The position in the chain of the first identical object. *)
Fixpoint find_index (chain : list nl_hash_node) (o : loc) : M (option nat) :=
  match chain with
  | [] => mret None
  | n :: chain' =>
      same ← nl_object_identical (obj n) o;
      if same : bool then mret (Some O)
      else i ← find_index chain' o; mret (S <$> i)
  end.

Definition get_table (c : loc) : M nl_hash_table :=
  x ← get_cache c; match hashtable x with Some ht => mret ht | None => undef end.

Definition put_table (c : loc) (ht : nl_hash_table) : M unit :=
  x ← get_cache c; put_cache c (set_hashtable (Some ht) x).

(** [ops->oo_free_data (obj); free (obj)]. *)
Definition release (l : loc) : M unit :=
  o ← get_obj l;
  modify (fun m => Mem (delete l (objs m)) (caches m) (delete (Obj l) (links m))
    (if oo_free_data (ops_at (ce_ops o)) then freed m ++ [l] else freed m) (changes m)).

(** ** Reference counts, removal *)

Fixpoint nl_object_put (fuel : nat) (l : loc) : M unit :=
  match fuel with
  | O => undef
  | S fuel' =>
      o ← get_obj l;
      let refcnt := s32 (ce_refcnt o - 1) in
      put_obj l (set_refcnt refcnt o) ;;
      if refcnt <? 0 then undef
      else if refcnt <=? 0 then nl_object_free fuel' l
      else mret tt
  end
with nl_object_free (fuel : nat) (l : loc) : M unit :=
  match fuel with
  | O => undef
  | S fuel' =>
      o ← get_obj l;
      (match ce_cache o with Some _ => nl_cache_remove fuel' l | None => mret tt end) ;;
      release l
  end
with nl_cache_remove (fuel : nat) (l : loc) : M unit :=
  match fuel with
  | O => undef
  | S fuel' =>
      o ← get_obj l;
      match ce_cache o with
      | None => mret tt
      | Some c =>
          x ← get_cache c;
          (match hashtable x with
           | Some _ => _ ← nl_hash_table_del fuel' c l; mret tt
           | None => mret tt
           end) ;;
          nl_list_del (Obj l) ;;
          o ← get_obj l; put_obj l (set_ce_cache None o) ;;
          nl_object_put fuel' l ;;
          x ← get_cache c; put_cache c (set_nitems (s32 (c_nitems x - 1)) x)
      end
  end
with nl_hash_table_del (fuel : nat) (c l : loc) : M Z :=
  match fuel with
  | O => undef
  | S fuel' =>
      ht ← get_table c;
      k ← nl_object_keygen l (ht_size ht);
      chain ← get_chain ht k;
      i ← find_index chain l;
      match i with
      | Some i =>
          nl_object_put fuel' l ;;
          ht ← get_table c;
          chain ← get_chain ht k;
          put_table c (set_chain ht k (delete i chain)) ;;
          mret 0
      | None => mret (- NLE_OBJ_NOTFOUND)
      end
  end.

(** [nl_object_put] of a pointer that may be NULL. *)
Definition nl_object_put_opt (fuel : nat) (p : option loc) : M unit :=
  match p with Some l => nl_object_put fuel l | None => mret tt end.

(** A copy, or NULL. *)
Definition nl_object_clone (fuel : nat) (l : loc) : M (option loc) :=
  o ← get_obj l;
  let ops := ops_at (ce_ops o) in
  p ← nl_object_alloc (ce_ops o);
  match p with
  | None => mret None
  | Some new =>
      n ← get_obj new;
      let sz := s32 (oo_size ops - data_offset) in
      if sz <? 0 then undef else
      let copied := Content (ce_mask (ce_content o))
        (if negb (sz =? 0) then ce_data (ce_content o) else ce_data (ce_content n)) in
      let n := Object (ce_refcnt n) (ce_ops o) (ce_cache n) (ce_msgtype o) (ce_flags n) copied in
      put_obj new n ;;
      match oo_clone ops with
      | Some f =>
          match f copied (ce_content o) with
          | Some x => put_obj new (set_content x n) ;; mret (Some new)
          | None => nl_object_free fuel new ;; mret None
          end
      | None => if negb (sz =? 0) && oo_free_data ops then undef else mret (Some new)
      end
  end.

(** Every node of every chain gives its reference back. *)
Fixpoint put_all (fuel : nat) (l : list nl_hash_node) : M unit :=
  match l with
  | [] => mret tt
  | n :: l' => nl_object_put fuel (obj n) ;; put_all fuel l'
  end.

Definition nl_hash_table_free (fuel : nat) (ht : nl_hash_table) : M unit :=
  put_all fuel (concat (nodes ht)).

(** ** Caches *)

Definition nl_cache_size : Z := 56.

Definition nl_cache_nitems (c : loc) : M Z := x ← get_cache c; mret (c_nitems x).

(** The objects that match a filter; no filter matches all. *)
Fixpoint matching (filter : option loc) (l : list loc) : M (list loc) :=
  match l with
  | [] => mret []
  | o :: l' =>
      keep ← (match filter with Some f => nl_object_match_filter o f | None => mret true end);
      rest ← matching filter l';
      mret (if keep : bool then o :: rest else rest)
  end.

Definition nl_cache_nitems_filter (c : loc) (filter : option loc) : M Z :=
  l ← elements c; r ← matching filter l; mret (zlen r).

Definition nl_cache_is_empty (c : loc) : M bool := nl_list_empty (Head c).

(** [nl_list_entry] of a list head that is not the cache's. *)
Definition entry (n : node) : M (option loc) :=
  match n with Obj l => mret (Some l) | Head _ => undef end.

Definition nl_cache_get_first (c : loc) : M (option loc) :=
  e ← nl_list_empty (Head c);
  if e : bool then mret None else x ← get_link (Head c); entry x.1.

Definition nl_cache_get_last (c : loc) : M (option loc) :=
  e ← nl_list_empty (Head c);
  if e : bool then mret None else x ← get_link (Head c); entry x.2.

(** [obj->ce_cache->c_items] needs a cache. *)
Definition nl_cache_get_next (l : loc) : M (option loc) :=
  o ← get_obj l; x ← get_link (Obj l);
  match ce_cache o with
  | None => undef
  | Some c => if bool_decide (x.1 = Head c) then mret None else entry x.1
  end.

Definition nl_cache_get_prev (l : loc) : M (option loc) :=
  o ← get_obj l; x ← get_link (Obj l);
  match ce_cache o with
  | None => undef
  | Some c => if bool_decide (x.2 = Head c) then mret None else entry x.2
  end.

(** A new cache, or NULL; a hash table that cannot be allocated is left out. *)
Definition nl_cache_alloc (ops : nl_cache_ops) : M (option loc) := fun m =>
  if malloc_ok nl_cache_size then
    let c := fresh (dom (caches m) : gset loc) in
    let ht := match oo_keygen (ops_at (co_obj_ops ops)) with
              | Some _ => nl_hash_table_alloc
                            (if negb (co_hash_size ops =? 0) then co_hash_size ops else NL_MAX_HASH_ENTRIES)
              | None => None
              end in
    Some (Some c, Mem (objs m) (<[c := Cache 0 0 0 1 (Z.lor 0 (co_flags ops)) ht ops]> (caches m))
                    (<[Head c := (Head c, Head c)]> (links m)) (freed m) (changes m))
  else Some (None, m).

Definition nl_cache_get (c : loc) : M unit :=
  x ← get_cache c; put_cache c (set_c_refcnt (s32 (c_refcnt x + 1)) x).

Definition __cache_add (c l : loc) : M Z :=
  o ← get_obj l; put_obj l (set_ce_cache (Some c) o) ;;
  x ← get_cache c;
  ret ← (match hashtable x with
         | Some ht =>
             '(ht, ret) ← nl_hash_table_add ht l;
             put_table c ht ;;
             mret ret
         | None => mret 0
         end);
  if ret <? 0 then
    o ← get_obj l; put_obj l (set_ce_cache None o) ;; mret ret
  else
    nl_list_add_tail (Obj l) (Head c) ;;
    x ← get_cache c; put_cache c (set_nitems (s32 (c_nitems x + 1)) x) ;;
    mret 0.

Definition nl_cache_add (fuel : nat) (c l : loc) : M Z :=
  x ← get_cache c; o ← get_obj l;
  if negb (co_obj_ops (c_ops x) =? ce_ops o) then mret (- NLE_OBJ_MISMATCH) else
  empty ← nl_list_empty (Obj l);
  new ← (if negb empty then nl_object_clone fuel l
         else nl_object_get l ;; mret (Some l));
  match new with
  | None => mret (- NLE_NOMEM)
  | Some new =>
      ret ← __cache_add c new;
      (if ret <? 0 then nl_object_put fuel new else mret tt) ;;
      mret ret
  end.

Definition nl_cache_move (fuel : nat) (c l : loc) : M Z :=
  x ← get_cache c; o ← get_obj l;
  if negb (co_obj_ops (c_ops x) =? ce_ops o) then mret (- NLE_OBJ_MISMATCH) else
  nl_object_get l ;;
  empty ← nl_list_empty (Obj l);
  (if negb empty then nl_cache_remove fuel l else mret tt) ;;
  __cache_add c l.

(** [nl_list_for_each_entry_safe] with [nl_cache_remove]: the next element is
    read before the current one is removed. *)
Fixpoint clear_from (fuel n : nat) (c : loc) (pos next : node) : M unit :=
  match n with
  | O => undef
  | S n' =>
      if bool_decide (pos = Head c) then mret tt else
      match pos with
      | Head _ => undef
      | Obj l =>
          nl_cache_remove fuel l ;;
          x ← get_link next;
          clear_from fuel n' c next x.1
      end
  end.

Definition nl_cache_clear (fuel : nat) (c : loc) : M unit := fun m =>
  (h ← get_link (Head c); x ← get_link h.1;
   clear_from fuel (S (size (objs m))) c h.1 x.1) m.

Definition __nl_cache_free (fuel : nat) (c : loc) : M unit :=
  nl_cache_clear fuel c ;;
  x ← get_cache c;
  (match hashtable x with Some ht => nl_hash_table_free fuel ht | None => mret tt end) ;;
  modify (fun m => Mem (objs m) (delete c (caches m)) (delete (Head c) (links m)) (freed m) (changes m)).

Definition nl_cache_free (fuel : nat) (c : option loc) : M unit :=
  match c with
  | None => mret tt
  | Some c =>
      x ← get_cache c;
      let refcnt := s32 (c_refcnt x - 1) in
      put_cache c (set_c_refcnt refcnt x) ;;
      if refcnt <=? 0 then __nl_cache_free fuel c else mret tt
  end.

(** [for each obj that matches: nl_cache_add (cache, obj)], results ignored. *)
Fixpoint add_all (fuel : nat) (c : loc) (filter : option loc) (l : list loc) : M unit :=
  match l with
  | [] => mret tt
  | o :: l' =>
      keep ← (match filter with Some f => nl_object_match_filter o f | None => mret true end);
      (if keep : bool then _ ← nl_cache_add fuel c o; mret tt else mret tt) ;;
      add_all fuel c filter l'
  end.

(** [filter] is not NULL. *)
Definition nl_cache_subset (fuel : nat) (orig filter : loc) : M (option loc) :=
  x ← get_cache orig;
  p ← nl_cache_alloc (c_ops x);
  match p with
  | None => mret None
  | Some c => l ← elements orig; add_all fuel c (Some filter) l ;; mret (Some c)
  end.

Definition nl_cache_clone (fuel : nat) (orig : loc) : M (option loc) :=
  x ← get_cache orig;
  p ← nl_cache_alloc (c_ops x);
  match p with
  | None => mret None
  | Some c => l ← elements orig; add_all fuel c None l ;; mret (Some c)
  end.

(** ** Searching *)

Definition __cache_fast_lookup (ht : nl_hash_table) (needle : loc) : M (option loc) :=
  p ← nl_hash_table_lookup ht needle;
  match p with
  | Some o => nl_object_get o ;; mret (Some o)
  | None => mret None
  end.

(** The first element for which [test] holds, with a reference. *)
Fixpoint first_match (test : loc -> M bool) (l : list loc) : M (option loc) :=
  match l with
  | [] => mret None
  | o :: l' =>
      hit ← test o;
      if hit : bool then nl_object_get o ;; mret (Some o) else first_match test l'
  end.

Definition nl_cache_search (c needle : loc) : M (option loc) :=
  x ← get_cache c;
  match hashtable x with
  | Some ht => __cache_fast_lookup ht needle
  | None => l ← elements c; first_match (fun o => nl_object_identical o needle) l
  end.

Definition nl_cache_find (c filter : loc) : M (option loc) :=
  x ← get_cache c;
  id ← nl_object_get_id_attrs filter;
  f ← get_obj filter;
  match hashtable x with
  | Some ht =>
      if id =? ce_mask (ce_content f) then __cache_fast_lookup ht filter
      else l ← elements c; first_match (fun o => nl_object_match_filter o filter) l
  | None => l ← elements c; first_match (fun o => nl_object_match_filter o filter) l
  end.

Fixpoint mark_each (l : list loc) : M unit :=
  match l with [] => mret tt | o :: l' => nl_object_mark o ;; mark_each l' end.

Definition nl_cache_mark_all (c : loc) : M unit := l ← elements c; mark_each l.

(** ** Changes from the kernel *)

(** [if (cb) cb (cache, obj, action, data)]. *)
Definition notify (cb : bool) (o : loc) (action : Z) : M unit := fun m =>
  Some (tt, if cb then Mem (objs m) (caches m) (links m) (freed m) (changes m ++ [(o, action)]) else m).

Definition pickup_cb (fuel : nat) (c l : loc) : M Z :=
  old ← nl_cache_search c l;
  match old with
  | Some old =>
      r ← nl_object_update old l;
      if r =? 0 then nl_object_put fuel old ;; mret 0
      else nl_cache_remove fuel old ;; nl_object_put fuel old ;; nl_cache_add fuel c l
  | None => nl_cache_add fuel c l
  end.

Definition cache_include (fuel : nat) (c l : loc) (act : Z) (cb : bool) : M Z :=
  if negb ((act =? NL_ACT_NEW) || (act =? NL_ACT_DEL)) then mret 0 else
  old ← nl_cache_search c l;
  updated ← (match old with
             | None => mret false
             | Some old =>
                 r ← nl_object_update old l;
                 if r =? 0 then notify cb old NL_ACT_CHANGE ;; nl_object_put fuel old ;; mret true
                 else
                   nl_cache_remove fuel old ;;
                   (if act =? NL_ACT_DEL then notify cb old NL_ACT_DEL ;; nl_object_put fuel old
                    else mret tt) ;;
                   mret false
             end);
  if updated : bool then mret 0 else
  if act =? NL_ACT_NEW then
    _ ← nl_cache_move fuel c l;
    match old with
    | None => notify cb l NL_ACT_NEW ;; mret 0
    | Some old =>
        d ← nl_object_diff old l;
        (if negb (d =? 0) then notify cb l NL_ACT_CHANGE else mret tt) ;;
        nl_object_put fuel old ;;
        mret 0
    end
  else mret 0.

(** [for (i = 0; co_msgtypes[i].mt_id >= 0; i++)]. *)
Definition nl_cache_include (fuel : nat) (c l : loc) (cb : bool) : M Z :=
  x ← get_cache c; o ← get_obj l;
  if negb (co_obj_ops (c_ops x) =? ce_ops o) then mret (- NLE_OBJ_MISMATCH) else
  match List.find (fun mt => fst mt =? ce_msgtype o) (co_msgtypes (c_ops x)) with
  | Some (_, act) => cache_include fuel c l act cb
  | None => mret (- NLE_MSGTYPE_NOSUPPORT)
  end.

End Cache.

Arguments mem : clear implicits.
Arguments nl_object : clear implicits.
Arguments content : clear implicits.
Arguments nl_object_ops : clear implicits.

End NlCache.
