(* ===== verification/NlCacheInv.v ===== *)
(** * Caches of libnl: a cache is a list of objects

    [cache_ok m c items] says that the cache at [c] has the objects [items],
    in this order: they form the circular list of the cache, each of them
    knows its cache and holds the references the cache took, and every chain
    of the hash table is the objects of its key, newest first.  The theorems
    show that the operations keep the invariant and act on [items] as a list
    would: adding appends, removing takes out, moving does both, searching
    through the hash table finds what a scan of the list finds, and freeing
    gives every reference back. *)

From S2P Require Import Prelude NlCache.
From Stdlib Require Import ZArith Lia.
From stdpp Require Import base list numbers option gmap sets.

Open Scope Z_scope.

Module NlCacheInv.
Import NlCache.

(** ** Circular lists *)

Section Links.
Implicit Types (lk : gmap node (node * node)) (x y z n p : node).

Definition nxt lk x : option node := fst <$> lk !! x.
Definition prv lk x : option node := snd <$> lk !! x.

Definition set_next x y lk := alter (fun e => (y, e.2)) x lk.
Definition set_prev x y lk := alter (fun e => (e.1, y)) x lk.

(** From [x] through [l] to [z], both ways. *)
Fixpoint seg lk x (l : list node) z : Prop :=
  match l with
  | [] => nxt lk x = Some z /\ prv lk z = Some x
  | y :: l' => nxt lk x = Some y /\ prv lk y = Some x /\ seg lk y l' z
  end.

Lemma nxt_set_next lk x y : is_Some (lk !! x) -> nxt (set_next x y lk) x = Some y.
Proof. intros [e E]. unfold nxt, set_next. by rewrite lookup_alter_eq, E. Qed.

Lemma nxt_set_next_ne lk x y z : x <> z -> nxt (set_next x y lk) z = nxt lk z.
Proof. intros. unfold nxt, set_next. by rewrite lookup_alter_ne. Qed.

Lemma prv_set_next lk x y z : prv (set_next x y lk) z = prv lk z.
Proof.
  unfold prv, set_next. destruct (decide (x = z)) as [->|]; [|by rewrite lookup_alter_ne].
  rewrite lookup_alter_eq. by destruct (lk !! z).
Qed.

Lemma prv_set_prev lk x y : is_Some (lk !! x) -> prv (set_prev x y lk) x = Some y.
Proof. intros [e E]. unfold prv, set_prev. by rewrite lookup_alter_eq, E. Qed.

Lemma prv_set_prev_ne lk x y z : x <> z -> prv (set_prev x y lk) z = prv lk z.
Proof. intros. unfold prv, set_prev. by rewrite lookup_alter_ne. Qed.

Lemma nxt_set_prev lk x y z : nxt (set_prev x y lk) z = nxt lk z.
Proof.
  unfold nxt, set_prev. destruct (decide (x = z)) as [->|]; [|by rewrite lookup_alter_ne].
  rewrite lookup_alter_eq. by destruct (lk !! z).
Qed.

Lemma set_next_is_Some lk x y z : is_Some (set_next x y lk !! z) <-> is_Some (lk !! z).
Proof. unfold set_next. by rewrite lookup_alter_is_Some. Qed.

Lemma set_prev_is_Some lk x y z : is_Some (set_prev x y lk !! z) <-> is_Some (lk !! z).
Proof. unfold set_prev. by rewrite lookup_alter_is_Some. Qed.

Lemma nxt_is_Some lk x y : nxt lk x = Some y -> is_Some (lk !! x).
Proof. unfold nxt. destruct (lk !! x); [eauto|done]. Qed.

Lemma prv_is_Some lk x y : prv lk x = Some y -> is_Some (lk !! x).
Proof. unfold prv. destruct (lk !! x); [eauto|done]. Qed.

Lemma seg_app lk x l1 y l2 z : seg lk x (l1 ++ y :: l2) z <-> seg lk x l1 y /\ seg lk y l2 z.
Proof. revert x. induction l1 as [|w l1 IH]; intros x; simpl; [tauto|]. rewrite IH. tauto. Qed.

(** A segment reads the next pointers of all nodes but the last and the
    previous pointers of all but the first. *)
Lemma seg_ext lk lk' x l z :
  (forall n, n = x \/ n ∈ l -> nxt lk' n = nxt lk n) -> (forall n, n = z \/ n ∈ l -> prv lk' n = prv lk n) ->
  seg lk x l z -> seg lk' x l z.
Proof.
  revert x. induction l as [|y l IH]; intros x Hn Hp; simpl.
  - intros [H1 H2]. rewrite Hn, Hp by auto. done.
  - intros (H1 & H2 & H3). rewrite Hn, Hp by set_solver. split_and!; [done..|].
    apply IH; [intros n H; apply Hn|intros n H; apply Hp|done]; set_solver.
Qed.

Lemma seg_is_Some lk x l z : seg lk x l z -> forall n, n = x \/ n = z \/ n ∈ l -> is_Some (lk !! n).
Proof.
  revert x. induction l as [|y l IH]; intros x; simpl.
  - intros [H1 H2] n [->|[->|H]]; [by eapply nxt_is_Some|by eapply prv_is_Some|set_solver].
  - intros (H1 & H2 & H3) n [->|[->|H]]; [by eapply nxt_is_Some|eauto|].
    apply elem_of_cons in H as [->|H]; [by eapply prv_is_Some|eauto].
Qed.

(** The last node before the end: the start, or the last of the list. *)
Definition before x (l : list node) : node := default x (last l).

Lemma seg_prev lk x l z : seg lk x l z -> prv lk z = Some (before x l) /\ nxt lk (before x l) = Some z.
Proof.
  revert x. induction l as [|y l IH]; intros x; simpl; [by intros [? ?]|].
  intros (_ & _ & H). destruct (IH y H) as [E1 E2]. unfold before in *. rewrite last_cons.
  by destruct (last l).
Qed.

Definition after (l : list node) z : node := default z (head l).

Lemma seg_next lk x l z : seg lk x l z -> nxt lk x = Some (after l z) /\ prv lk (after l z) = Some x.
Proof. destruct l as [|y l]; simpl; [by intros [? ?]|]. by intros (? & ? & _). Qed.

(** Inserting [o] before [z]: what [__nl_list_add] writes. *)
Lemma seg_insert_tail lk x l o : seg lk x l x -> is_Some (lk !! o) -> o <> x -> o ∉ l -> x ∉ l -> NoDup l ->
  seg (set_next o x (set_prev x o (set_prev o (before x l) (set_next (before x l) o lk)))) x (l ++ [o]) x.
Proof.
  intros Hs Ho Hne Hol Hxl Hnd. pose proof (seg_is_Some _ _ _ _ Hs) as Hall.
  set (t := before x l). set (lk' := set_next o x _).
  assert (is_Some (lk !! t) /\ t <> o /\ (t = x \/ t ∈ l)) as (Ht & Hto & Htl).
  { unfold t, before. destruct (last l) as [k|] eqn:E; simpl; [|by auto].
    apply last_Some_elem_of in E. split_and!; [by auto|by intros ->|by right]. }
  assert (nxt lk' t = Some o) as N1.
  { unfold lk'. rewrite nxt_set_next_ne, !nxt_set_prev, nxt_set_next by done. done. }
  assert (prv lk' o = Some t) as P1.
  { unfold lk'. rewrite prv_set_next, prv_set_prev_ne, prv_set_prev by (done || by rewrite set_next_is_Some). done. }
  assert (nxt lk' o = Some x) as N2.
  { unfold lk'. rewrite nxt_set_next; [done|]. by rewrite !set_prev_is_Some, set_next_is_Some. }
  assert (prv lk' x = Some o) as P2.
  { unfold lk'. rewrite prv_set_next, prv_set_prev; [done|]. rewrite set_prev_is_Some, set_next_is_Some. auto. }
  apply seg_app. split; [|by split].
  assert (forall n, n <> t -> n <> o -> nxt lk' n = nxt lk n) as Nn.
  { intros n H1 H2. unfold lk'. by rewrite nxt_set_next_ne, !nxt_set_prev, nxt_set_next_ne by done. }
  assert (forall n, n <> x -> n <> o -> prv lk' n = prv lk n) as Pn.
  { intros n H1 H2. unfold lk'. by rewrite prv_set_next, !prv_set_prev_ne, prv_set_next by done. }
  clearbody lk'. destruct l as [|k l' _] using rev_ind; [by split|].
  assert (t = k) as -> by (unfold t, before; by rewrite last_snoc).
  apply seg_app in Hs as [Hs _]. apply seg_app. split; [|by split].
  apply NoDup_app in Hnd as (_ & Hk & _).
  apply seg_ext with lk; [| |done].
  - intros n [->|Hn]; apply Nn; set_solver.
  - intros n [->|Hn]; apply Pn; set_solver.
Qed.

(** Taking [o] out: what [nl_list_del] writes. *)
Lemma seg_delete lk x l1 o l2 : seg lk x (l1 ++ o :: l2) x -> NoDup (l1 ++ o :: l2) -> x ∉ l1 ++ o :: l2 ->
  seg (set_next (before x l1) (after l2 x) (set_prev (after l2 x) (before x l1) lk)) x (l1 ++ l2) x.
Proof.
  intros Hs Hnd Hx. pose proof (seg_is_Some _ _ _ _ Hs) as Hall. apply seg_app in Hs as [Hs1 Hs2].
  apply NoDup_app in Hnd as (Hnd1 & Hdis & Hnd2%NoDup_cons). destruct Hnd2 as [Ho2 Hnd2].
  set (p := before x l1). set (n := after l2 x). set (lk' := set_next p n _).
  assert (p = x \/ p ∈ l1) as Hp.
  { unfold p, before. destruct (last l1) eqn:E; simpl; [|by left]. right. by apply last_Some_elem_of. }
  assert (n = x \/ n ∈ l2) as Hn by (unfold n, after; destruct l2; simpl; set_solver).
  assert (nxt lk' p = Some n) as N1.
  { unfold lk'. rewrite nxt_set_next; [done|]. rewrite set_prev_is_Some. apply Hall. set_solver. }
  assert (prv lk' n = Some p) as P1.
  { unfold lk'. rewrite prv_set_next, prv_set_prev; [done|]. apply Hall. set_solver. }
  assert (forall w, w <> p -> nxt lk' w = nxt lk w) as Nn.
  { intros w H. unfold lk'. by rewrite nxt_set_next_ne, nxt_set_prev by done. }
  assert (forall w, w <> n -> prv lk' w = prv lk w) as Pn.
  { intros w H. unfold lk'. by rewrite prv_set_next, prv_set_prev_ne by done. }
  assert (forall w, w ∈ l2 -> w <> p) as Dp.
  { clear -Hp Hdis Hx. intros w Hw ->. destruct Hp as [->|Hp]; [set_solver|]. apply (Hdis p Hp). set_solver. }
  assert (forall w, w ∈ l1 -> w <> n) as Dn.
  { clear -Hn Hdis Hx. intros w Hw ->. destruct Hn as [->|Hn]; [set_solver|]. apply (Hdis n Hw). set_solver. }
  clearbody lk'.
  (** The part behind [o], with the pointer back to [p] in place. *)
  assert (forall q, nxt lk' q = Some n -> prv lk' n = Some q -> seg lk' q l2 x) as Htail.
  { intros q Hq1 Hq2. destruct l2 as [|y l2]; [by split|]. unfold n, after in *. simpl in *.
    destruct Hs2 as (_ & _ & Hs2). split_and!; [done..|].
    apply NoDup_cons in Hnd2 as [Hy2 _]. apply seg_ext with lk; [| |done].
    - intros w Hw. apply Nn, Dp. clear -Hw. set_solver.
    - intros w Hw. apply Pn. clear -Hw Hx Hy2. set_solver. }
  destruct l1 as [|k l1 _] using rev_ind; [by apply Htail|].
  assert (p = k) as -> by (unfold p, before; by rewrite last_snoc).
  rewrite <- app_assoc. apply seg_app. split; [|by apply Htail]. apply seg_app in Hs1 as [Hs1 _].
  apply NoDup_app in Hnd1 as (_ & Hk & _).
  apply seg_ext with lk; [| |done].
  - intros w Hw. apply Nn. clear -Hw Hk Hx. set_solver.
  - intros w Hw. apply Pn, Dn. clear -Hw. set_solver.
Qed.

End Links.
(** ** Running the operations *)

Section Inv.
Context {D : Type} {al : Allocator} (ops_at : Z -> nl_object_ops D).
Implicit Types (m : mem D) (l c : positive) (o : nl_object D).

Abbreviation M := (@M D).

Definition with_objs f m : mem D := Mem (f (objs m)) (caches m) (links m) (freed m) (changes m).
Definition with_caches f m : mem D := Mem (objs m) (f (caches m)) (links m) (freed m) (changes m).
Definition with_links f m : mem D := Mem (objs m) (caches m) (f (links m)) (freed m) (changes m).

Lemma run_bind {A B} (x : M A) (f : A -> M B) m a m' : x m = Some (a, m') -> (x ≫= f) m = f a m'.
Proof. intros E. unfold mbind, M_bind. by rewrite E. Qed.

Lemma run_get_obj l o m : objs m !! l = Some o -> get_obj l m = Some (o, m).
Proof. intros E. unfold get_obj. by rewrite E. Qed.

Lemma run_get_cache c x m : caches m !! c = Some x -> get_cache c m = Some (x, m).
Proof. intros E. unfold get_cache. by rewrite E. Qed.

Lemma run_get_link n x m : links m !! n = Some x -> get_link n m = Some (x, m).
Proof. intros E. unfold get_link. by rewrite E. Qed.

Lemma alter_present {K A} `{Countable K} (f : A -> A) (k : K) (g : gmap K A) v :
  g !! k = Some v -> alter f k g = <[k := f v]> g.
Proof.
  intros E. apply map_eq. intros i. destruct (decide (i = k)) as [->|].
  - by rewrite lookup_alter_eq, lookup_insert_eq, E.
  - by rewrite lookup_alter_ne, lookup_insert_ne by done.
Qed.

Lemma run_set_next n y m : is_Some (links m !! n) ->
  (x ← get_link n; put_link n (y, x.2)) m = Some (tt, with_links (set_next n y) m).
Proof.
  intros [x E]. rewrite (run_bind _ _ _ _ _ (run_get_link _ _ _ E)). unfold put_link, with_links, set_next.
  by rewrite (alter_present _ _ _ _ E).
Qed.

Lemma run_set_prev n y m : is_Some (links m !! n) ->
  (x ← get_link n; put_link n (x.1, y)) m = Some (tt, with_links (set_prev n y) m).
Proof.
  intros [x E]. rewrite (run_bind _ _ _ _ _ (run_get_link _ _ _ E)). unfold put_link, with_links, set_prev.
  by rewrite (alter_present _ _ _ _ E).
Qed.

Lemma bind_assoc {A B C} (x : M A) (f : A -> M B) (g : B -> M C) m :
  (x ≫= (fun a => f a ≫= g)) m = ((x ≫= f) ≫= g) m.
Proof. unfold mbind, M_bind. destruct (x m) as [[a m1]|]; [|done]. simpl. by destruct (f a m1) as [[b m2]|]. Qed.

(** A read and a write of a link, then the rest. *)
Lemma then_set_next {B} n y (k : M B) m : is_Some (links m !! n) ->
  (x ← get_link n; put_link n (y, x.2) ;; k) m = k (with_links (set_next n y) m).
Proof. intros E. rewrite bind_assoc. by rewrite (run_bind _ _ _ _ _ (run_set_next _ _ _ E)). Qed.

Lemma then_set_prev {B} n y (k : M B) m : is_Some (links m !! n) ->
  (x ← get_link n; put_link n (x.1, y) ;; k) m = k (with_links (set_prev n y) m).
Proof. intros E. rewrite bind_assoc. by rewrite (run_bind _ _ _ _ _ (run_set_prev _ _ _ E)). Qed.

Lemma run_list_add n prev next m :
  is_Some (links m !! n) -> is_Some (links m !! prev) -> is_Some (links m !! next) ->
  __nl_list_add n prev next m =
  Some (tt, with_links (fun lk => set_next n next (set_prev next n (set_prev n prev (set_next prev n lk)))) m).
Proof.
  intros Hn Hp Hx. unfold __nl_list_add.
  rewrite then_set_next by done.
  rewrite then_set_prev by (simpl; by rewrite set_next_is_Some).
  rewrite then_set_prev by (simpl; by rewrite set_prev_is_Some, set_next_is_Some).
  rewrite run_set_next by (simpl; by rewrite !set_prev_is_Some, set_next_is_Some). done.
Qed.

Lemma run_list_add_tail l c items m :
  seg (links m) (Head c) (map Obj items) (Head c) -> is_Some (links m !! Obj l) ->
  nl_list_add_tail (Obj l) (Head c) m =
  Some (tt, with_links (fun lk => set_next (Obj l) (Head c) (set_prev (Head c) (Obj l)
     (set_prev (Obj l) (before (Head c) (map Obj items)) (set_next (before (Head c) (map Obj items)) (Obj l) lk)))) m).
Proof.
  intros Hs Hl. destruct (seg_prev _ _ _ _ Hs) as [Hp Hn]. unfold nl_list_add_tail.
  pose proof (prv_is_Some _ _ _ Hp) as [x Ex]. rewrite (run_bind _ _ _ _ _ (run_get_link _ _ _ Ex)).
  unfold prv in Hp. rewrite Ex in Hp. injection Hp as ->.
  apply run_list_add; [done|by eapply nxt_is_Some|eauto].
Qed.

Lemma run_list_del l x z m : nxt (links m) (Obj l) = Some z -> prv (links m) (Obj l) = Some x ->
  is_Some (links m !! x) -> is_Some (links m !! z) -> z <> Obj l ->
  nl_list_del (Obj l) m = Some (tt, with_links (fun lk => set_next x z (set_prev z x lk)) m).
Proof.
  intros Hn Hp Hx Hz Hne. unfold nl_list_del. pose proof (nxt_is_Some _ _ _ Hn) as [[n p] E].
  unfold nxt, prv in Hn, Hp. rewrite E in Hn, Hp. injection Hn as ->. injection Hp as ->.
  rewrite (run_bind _ _ _ _ _ (run_get_link _ _ _ E)). cbn [fst snd].
  rewrite then_set_prev by done.
  assert (links (with_links (set_prev z x) m) !! Obj l = Some (z, x)) as E'.
  { simpl. unfold set_prev. by rewrite lookup_alter_ne. }
  rewrite (run_bind _ _ _ _ _ (run_get_link _ _ _ E')). cbn [fst snd].
  rewrite run_set_next; [done|]. simpl. by rewrite set_prev_is_Some.
Qed.

(** ** The invariant *)

(** What the functions of an object type promise: comparing the identifying
    attributes is symmetric and transitive, and the hash key is below the
    table size and computed from those attributes only. *)
Class ObjectLaws : Prop := {
  ident_sym : forall a b, identical ops_at a b = true -> identical ops_at b a = true;
  ident_trans : forall a b d, identical ops_at a b = true -> identical ops_at b d = true -> identical ops_at a d = true;
  keygen_ident : forall a b sz, identical ops_at a b = true -> keygen ops_at a sz = keygen ops_at b sz;
  keygen_range : forall a sz, 0 < sz -> 0 <= keygen ops_at a sz < sz
}.

(** The objects at a location that are identical to [o]. *)
Definition same m o l : bool :=
  match objs m !! l with Some o' => identical ops_at o' o | None => false end.

Definition key_of m (sz : Z) l : option Z := (fun o => keygen ops_at o sz) <$> objs m !! l.

(** The objects of [items] with key [k]. *)
Definition with_key m sz k (items : list positive) : list positive :=
  filter (fun l => key_of m sz l = Some k) items.

(** Every chain is the objects of its key, newest first; objects are
    identical to themselves and to no other object of the cache. *)
Record table_ok m (ht : nl_hash_table) (items : list positive) : Prop := {
  ht_pos : 0 < ht_size ht;
  ht_len : zlen (nodes ht) = ht_size ht;
  ht_chain : forall k, 0 <= k < ht_size ht -> exists chain, nodes ht !! Z.to_nat k = Some chain /\
    map obj chain = reverse (with_key m (ht_size ht) k items) /\ Forall (fun n => key n = k) chain;
  ht_self : forall l o, l ∈ items -> objs m !! l = Some o -> same m o l = true;
  ht_distinct : forall l1 l2 o, l1 ∈ items -> l2 ∈ items -> objs m !! l2 = Some o -> same m o l1 = true -> l1 = l2
}.

(** The references a cache holds on each of its objects. *)
Definition refs (x : nl_cache) : Z := match hashtable x with Some _ => 2 | None => 1 end.

Definition item_ok m c (x : nl_cache) l : Prop :=
  exists o, objs m !! l = Some o /\ ce_cache o = Some c /\ ce_ops o = co_obj_ops (c_ops x) /\
    refs x <= ce_refcnt o <= INT_MAX.

Record cache_ok m c (x : nl_cache) (items : list positive) : Prop := {
  ck_cache : caches m !! c = Some x;
  ck_nodup : NoDup items;
  ck_ring : seg (links m) (Head c) (map Obj items) (Head c);
  ck_items : forall l, l ∈ items -> item_ok m c x l;
  ck_nitems : c_nitems x = zlen items /\ zlen items <= INT_MAX;
  ck_table : match hashtable x with Some ht => table_ok m ht items | None => True end
}.

(** An object that is in no list and belongs to no cache. *)
Definition detached m l o : Prop :=
  objs m !! l = Some o /\ ce_cache o = None /\ links m !! Obj l = Some (Obj l, Obj l).

Lemma detached_not_in m c x items l o : cache_ok m c x items -> detached m l o -> l ∉ items.
Proof.
  intros Hc (E & Ec & _) Hin. destruct (ck_items _ _ _ _ Hc l Hin) as (o' & E' & Ec' & _). congruence.
Qed.

(** [identical] and [keygen] only see the type and the content. *)
Lemma identical_ext a a' b b' : ce_ops a = ce_ops a' -> ce_content a = ce_content a' ->
  ce_ops b = ce_ops b' -> ce_content b = ce_content b' -> identical ops_at a b = identical ops_at a' b'.
Proof. intros E1 E2 E3 E4. unfold identical. by rewrite E1, E2, E3, E4. Qed.

Lemma keygen_ext a a' sz : ce_ops a = ce_ops a' -> ce_content a = ce_content a' ->
  keygen ops_at a sz = keygen ops_at a' sz.
Proof. intros E1 E2. unfold keygen. by rewrite E1, E2. Qed.

(** Two memories whose objects at [items] have the same type and content. *)
Definition same_contents m m' (items : list positive) : Prop := forall l, l ∈ items ->
  exists o o', objs m !! l = Some o /\ objs m' !! l = Some o' /\ ce_ops o = ce_ops o' /\ ce_content o = ce_content o'.

Lemma with_key_ext m m' sz k items : same_contents m m' items -> with_key m sz k items = with_key m' sz k items.
Proof.
  intros H. unfold with_key. induction items as [|l items IH]; [done|]. rewrite !filter_cons.
  rewrite IH by (intros l' Hl'; apply H; by right).
  assert (key_of m sz l = key_of m' sz l) as ->; [|done].
  destruct (H l) as (o & o' & E & E' & E1 & E2); [by left|]. unfold key_of. rewrite E, E'. simpl.
  by rewrite (keygen_ext o o').
Qed.

Lemma table_ok_ext m m' ht items : same_contents m m' items -> table_ok m ht items -> table_ok m' ht items.
Proof.
  intros H [Hpos Hlen Hch Hself Hdist]. constructor; [done|done| | |].
  - intros k Hk. rewrite <- (with_key_ext m m') by done. by apply Hch.
  - intros l o' Hl E'. destruct (H l Hl) as (o & o1 & E & E1 & H1 & H2). rewrite E' in E1. injection E1 as <-.
    specialize (Hself l o Hl E). unfold same in *. rewrite E in Hself. rewrite E'.
    by rewrite (identical_ext o' o o' o).
  - intros l1 l2 o' Hl1 Hl2 E2 Hs. destruct (H l2 Hl2) as (o & o1 & E & E1 & H1 & H2).
    rewrite E2 in E1. injection E1 as <-. apply (Hdist l1 l2 o); try done. unfold same in *.
    destruct (H l1 Hl1) as (p & p' & Ep & Ep' & H3 & H4). rewrite Ep. rewrite Ep' in Hs.
    by rewrite (identical_ext p p' o o').
Qed.

Lemma table_ok_objs m m' ht items : objs m = objs m' -> table_ok m ht items -> table_ok m' ht items.
Proof.
  intros E [Hpos Hlen Hch Hself Hdist].
  constructor; unfold with_key, key_of, same in *; rewrite <- ?E; try done.
Qed.

(** ** Chains *)

Lemma run_identical a b oa ob m : objs m !! a = Some oa -> objs m !! b = Some ob ->
  nl_object_identical ops_at a b m = Some (identical ops_at oa ob, m).
Proof.
  intros Ea Eb. unfold nl_object_identical. rewrite (run_bind _ _ _ _ _ (run_get_obj _ _ _ Ea)).
  by rewrite (run_bind _ _ _ _ _ (run_get_obj _ _ _ Eb)).
Qed.

Definition live m (l : list positive) : Prop := forall x, x ∈ l -> is_Some (objs m !! x).

Lemma run_find_identical chain l o m : live m (map obj chain) -> objs m !! l = Some o ->
  find_identical ops_at chain l m = Some (List.find (same m o) (map obj chain), m).
Proof.
  intros Hl E. induction chain as [|n chain IH]; [done|]. cbn [find_identical map List.find].
  destruct (Hl (obj n)) as [on En]; [by left|].
  rewrite (run_bind _ _ _ _ _ (run_identical _ _ _ _ _ En E)). unfold same at 1. rewrite En.
  destruct (identical ops_at on o); [done|]. apply IH. intros x Hx. apply Hl. by right.
Qed.

Lemma find_none {A} (f : A -> bool) (xs : list A) : List.find f xs = None <-> forall x, x ∈ xs -> f x = false.
Proof.
  split.
  - intros H x Hx. apply (List.find_none f xs H). by apply list_elem_of_In.
  - intros H. destruct (List.find f xs) as [y|] eqn:E; [|done]. apply List.find_some in E as [Hy Hf].
    rewrite H in Hf; [done|]. by apply list_elem_of_In.
Qed.

Lemma find_ext {A} (f g : A -> bool) (xs : list A) : (forall x, f x = g x) -> List.find f xs = List.find g xs.
Proof. intros H. induction xs as [|y xs IH]; [done|]. simpl. by rewrite H, IH. Qed.

Lemma with_key_in m sz k items l : l ∈ with_key m sz k items <-> key_of m sz l = Some k /\ l ∈ items.
Proof. unfold with_key. by rewrite list_elem_of_filter. Qed.

Section Laws.
Context {laws : ObjectLaws}.

(** Objects identical to [o] are in the chain of its key. *)
Lemma same_with_key m sz o items l : l ∈ items -> same m o l = true ->
  l ∈ with_key m sz (keygen ops_at o sz) items.
Proof.
  intros Hl Hs. apply with_key_in. split; [|done]. unfold same, key_of in *.
  destruct (objs m !! l) as [o'|]; [|done]. simpl. f_equal. by apply keygen_ident.
Qed.

Lemma get_chain_ok m ht items k : table_ok m ht items -> 0 <= k < ht_size ht ->
  exists chain, get_chain ht k m = Some (chain, m) /\ nodes ht !! Z.to_nat k = Some chain /\
    map obj chain = reverse (with_key m (ht_size ht) k items) /\ Forall (fun n => key n = k) chain.
Proof.
  intros Ht Hk. destruct (ht_chain _ _ _ Ht k Hk) as (chain & E & Hm & Hf). exists chain. split; [|done].
  unfold get_chain. pose proof (ht_len _ _ _ Ht) as Hlen. rewrite Hlen.
  rewrite (proj2 (Z.leb_le _ _)), (proj2 (Z.ltb_lt _ _)) by lia. simpl. by rewrite E.
Qed.

(** The chain that [o] belongs to, and what a search in it finds. *)
Lemma chain_search m ht items l o : table_ok m ht items -> objs m !! l = Some o -> live m items ->
  exists chain, get_chain ht (keygen ops_at o (ht_size ht)) m = Some (chain, m) /\
    nodes ht !! Z.to_nat (keygen ops_at o (ht_size ht)) = Some chain /\
    map obj chain = reverse (with_key m (ht_size ht) (keygen ops_at o (ht_size ht)) items) /\
    Forall (fun n => key n = keygen ops_at o (ht_size ht)) chain /\
    find_identical ops_at chain l m = Some (List.find (same m o) (map obj chain), m) /\
    (List.find (same m o) (map obj chain) = None <-> List.find (same m o) items = None).
Proof.
  intros Ht E Hlive. pose proof (keygen_range o (ht_size ht) (ht_pos _ _ _ Ht)) as Hk.
  destruct (get_chain_ok m ht items _ Ht Hk) as (chain & Eg & En & Hm & Hf). exists chain. split_and!; try done.
  - apply run_find_identical; [|done]. rewrite Hm. intros x Hx. apply elem_of_reverse, with_key_in in Hx as [_ Hx].
    by apply Hlive.
  - rewrite !find_none, Hm. split; intros H x Hx.
    + destruct (same m o x) eqn:Es; [|done]. rewrite <- Es. apply H, elem_of_reverse. by apply same_with_key.
    + apply H. by apply elem_of_reverse, with_key_in in Hx as [_ Hx].
Qed.

Lemma items_live m c x items : cache_ok m c x items -> live m items.
Proof. intros Hc l Hl. destruct (ck_items _ _ _ _ Hc l Hl) as (o & E & _). eauto. Qed.

(** ** Adding *)

Lemma run_object_get l o m : objs m !! l = Some o -> ce_refcnt o < INT_MAX -> INT_MIN <= ce_refcnt o ->
  nl_object_get l m = Some (tt, with_objs (<[l := set_refcnt (ce_refcnt o + 1) o]>) m).
Proof.
  intros E H1 H2. unfold nl_object_get. rewrite (run_bind _ _ _ _ _ (run_get_obj _ _ _ E)).
  unfold put_obj. rewrite s32_id by (unfold INT_MAX, INT_MIN in *; lia). done.
Qed.

Lemma run_table_add m ht items l o : table_ok m ht items -> live m items -> objs m !! l = Some o ->
  0 <= ce_refcnt o < INT_MAX ->
  nl_hash_table_add ops_at ht l m =
  match List.find (same m o) items with
  | Some _ => Some ((ht, - NLE_EXIST), m)
  | None =>
      if malloc_ok nl_hash_node_size then
        let k := keygen ops_at o (ht_size ht) in
        Some ((set_chain ht k (HashNode k l :: default [] (nodes ht !! Z.to_nat k)), 0),
              with_objs (<[l := set_refcnt (ce_refcnt o + 1) o]>) m)
      else Some ((ht, - NLE_NOMEM), m)
  end.
Proof.
  intros Ht Hlive E Href. destruct (chain_search m ht items l o Ht E Hlive) as (chain & Eg & En & Hm & Hf & Ef & Hiff).
  unfold nl_hash_table_add.
  assert (nl_object_keygen ops_at l (ht_size ht) m = Some (keygen ops_at o (ht_size ht), m)) as Ek.
  { unfold nl_object_keygen. by rewrite (run_bind _ _ _ _ _ (run_get_obj _ _ _ E)). }
  rewrite (run_bind _ _ _ _ _ Ek), (run_bind _ _ _ _ _ Eg), (run_bind _ _ _ _ _ Ef).
  destruct (List.find (same m o) (map obj chain)) as [y|] eqn:E1; destruct (List.find (same m o) items) as [z|] eqn:E2.
  - done.
  - destruct Hiff as [_ H]. by specialize (H eq_refl).
  - destruct Hiff as [H _]. by specialize (H eq_refl).
  - destruct (malloc_ok nl_hash_node_size); [|done]. rewrite (run_bind _ _ _ _ _ (run_object_get l o m E ltac:(lia) ltac:(unfold INT_MIN; lia))).
    by rewrite En.
Qed.

Lemma table_ok_add m m' ht items l o :
  table_ok m ht items -> same_contents m m' items -> l ∉ items -> live m items ->
  objs m' !! l = Some o -> identical ops_at o o = true -> List.find (same m' o) items = None ->
  let k := keygen ops_at o (ht_size ht) in
  table_ok m' (set_chain ht k (HashNode k l :: default [] (nodes ht !! Z.to_nat k))) (items ++ [l]).
Proof.
  intros Ht Hsc Hni Hlive E' Hself Hnone k. apply (table_ok_ext m m' ht items Hsc) in Ht.
  pose proof (keygen_range o (ht_size ht) (ht_pos _ _ _ Ht)) as Hk. fold k in Hk.
  assert (key_of m' (ht_size ht) l = Some k) as Hkey by (unfold key_of; by rewrite E').
  rewrite find_none in Hnone. destruct Ht as [Hpos Hlen Hch Hs Hd]. constructor; cbn [ht_size nodes set_chain].
  - done.
  - unfold zlen in *. by rewrite length_insert.
  - intros k' Hk'. destruct (Hch k' Hk') as (chain & En & Hm & Hf).
    unfold with_key. rewrite filter_app, reverse_app, filter_cons, filter_nil.
    destruct (decide (key_of m' (ht_size ht) l = Some k')) as [Heq|Hne].
    + assert (k' = k) as -> by congruence. exists (HashNode k l :: chain).
      rewrite list_lookup_insert_eq by (apply lookup_lt_Some in En; done). rewrite En. simpl.
      split_and!; [done|by rewrite Hm|by constructor].
    + exists chain. rewrite list_lookup_insert_ne by (intros ?; apply Hne; rewrite Hkey; f_equal; lia).
      by rewrite reverse_nil.
  - intros l1 o1 H1 E1. apply elem_of_app in H1 as [H1|H1]; [by apply Hs|].
    apply list_elem_of_singleton in H1 as ->. rewrite E' in E1. injection E1 as <-. unfold same. by rewrite E'.
  - intros l1 l2 o2 H1 H2 E2 Hsame. apply elem_of_app in H1, H2.
    destruct H1 as [H1|H1%list_elem_of_singleton]; destruct H2 as [H2|H2%list_elem_of_singleton].
    + by apply (Hd l1 l2 o2).
    + subst l2. rewrite E' in E2. injection E2 as <-. rewrite Hnone in Hsame by done. done.
    + subst l1. unfold same in Hsame. rewrite E' in Hsame. apply ident_sym in Hsame.
      specialize (Hnone l2 H2). unfold same in Hnone. rewrite E2 in Hnone. congruence.
    + congruence.
Qed.

(** Changing only objects outside [items]. *)
Lemma same_contents_insert m m' l o items : objs m' = <[l := o]> (objs m) -> l ∉ items -> live m items ->
  same_contents m m' items.
Proof.
  intros E Hni Hl l' Hl'. destruct (Hl l' Hl') as [o' Eo]. exists o', o'. rewrite E, lookup_insert_ne by set_solver.
  done.
Qed.

Lemma same_contents_update m m' l o o' items : objs m' = <[l := o']> (objs m) -> objs m !! l = Some o ->
  ce_ops o = ce_ops o' -> ce_content o = ce_content o' -> live m items -> same_contents m m' items.
Proof.
  intros E El H1 H2 Hl y Hy. rewrite E. destruct (decide (y = l)) as [->|Hne].
  - exists o, o'. by rewrite lookup_insert_eq.
  - destruct (Hl y Hy) as [oy Ey]. exists oy, oy. by rewrite lookup_insert_ne.
Qed.

Lemma same_insert_ne m m' l o0 items o : objs m' = <[l := o0]> (objs m) -> l ∉ items ->
  List.find (same m' o) items = List.find (same m o) items.
Proof.
  intros E Hni. induction items as [|y items IH]; [done|]. cbn [List.find].
  rewrite IH by set_solver. unfold same. by rewrite E, lookup_insert_ne by set_solver.
Qed.

(** The cache with one more object, when the table was updated to [h]. *)
Lemma cache_ok_add m m' c x h items l o :
  cache_ok m c x items -> l ∉ items -> zlen items < INT_MAX -> is_Some (links m !! Obj l) ->
  objs m' = <[l := o]> (objs m) -> ce_cache o = Some c -> ce_ops o = co_obj_ops (c_ops x) ->
  refs x <= ce_refcnt o <= INT_MAX ->
  caches m' = <[c := set_nitems (c_nitems x + 1) (set_hashtable h x)]> (caches m) ->
  links m' = set_next (Obj l) (Head c) (set_prev (Head c) (Obj l)
     (set_prev (Obj l) (before (Head c) (map Obj items)) (set_next (before (Head c) (map Obj items)) (Obj l) (links m)))) ->
  (match hashtable x with Some _ => is_Some h | None => h = None end) ->
  (match h with Some ht => table_ok m' ht (items ++ [l]) | None => True end) ->
  cache_ok m' c (set_nitems (c_nitems x + 1) (set_hashtable h x)) (items ++ [l]).
Proof.
  intros Hc Hni Hlen Hlk Eo Hcc Hops Href Ec El Hh Ht. destruct Hc as [Hcache Hnd Hring Hitems [Hn Hn'] _].
  assert (refs (set_nitems (c_nitems x + 1) (set_hashtable h x)) = refs x) as Hrefs.
  { unfold refs. simpl. by destruct (hashtable x), h. }
  constructor.
  - rewrite Ec. by rewrite lookup_insert_eq.
  - apply NoDup_app. split_and!; [done| |apply NoDup_singleton]. intros y Hy. rewrite list_elem_of_singleton. by intros ->.
  - rewrite map_app, El. apply seg_insert_tail; try done.
    + intros (y & Hy & Hin)%list_elem_of_fmap. by injection Hy as <-.
    + by intros (y & Hy & Hin)%list_elem_of_fmap.
    + apply NoDup_fmap_2; [|done]. by intros ? ? [= ->].
  - intros y Hy. unfold item_ok. rewrite Hrefs. apply elem_of_app in Hy as [Hy|Hy%list_elem_of_singleton].
    + rewrite Eo, lookup_insert_ne by set_solver. by apply Hitems.
    + subst y. exists o. rewrite Eo, lookup_insert_eq. done.
  - simpl. rewrite zlen_app. change (zlen [l]) with 1. lia.
  - simpl. done.
Qed.

Definition added (x : nl_cache) h : nl_cache := set_nitems (c_nitems x + 1) (set_hashtable h x).

(** The end of [__cache_add]. *)
Definition linked_tail l c items (lk : gmap node (node * node)) :=
  set_next (Obj l) (Head c) (set_prev (Head c) (Obj l)
    (set_prev (Obj l) (before (Head c) (map Obj items)) (set_next (before (Head c) (map Obj items)) (Obj l) lk))).

Lemma run_add_tail m c x items l : seg (links m) (Head c) (map Obj items) (Head c) ->
  is_Some (links m !! Obj l) -> caches m !! c = Some x ->
  (nl_list_add_tail (Obj l) (Head c) ;;
   x ← get_cache c; put_cache c (set_nitems (s32 (c_nitems x + 1)) x) ;; mret 0) m =
  Some (0, Mem (objs m) (<[c := set_nitems (s32 (c_nitems x + 1)) x]> (caches m))
             (linked_tail l c items (links m)) (freed m) (changes m)).
Proof.
  intros Hs Hl Hc. rewrite (run_bind _ _ _ _ _ (run_list_add_tail l c items m Hs Hl)).
  set (m1 := with_links _ m). assert (caches m1 !! c = Some x) as Hc1 by done.
  by rewrite (run_bind _ _ _ _ _ (run_get_cache _ _ _ Hc1)).
Qed.

(** The hash table part of [__cache_add]. *)
Definition hash_part c (x : nl_cache) l : M Z :=
  match hashtable x with
  | Some ht => '(ht, ret) ← nl_hash_table_add ops_at ht l; put_table c ht ;; mret ret
  | None => mret 0
  end.

Lemma run_hash_part m c x items l o : cache_ok m c x items -> objs m !! l = Some o ->
  l ∉ items -> 1 <= ce_refcnt o < INT_MAX ->
  (hashtable x <> None -> malloc_ok nl_hash_node_size = true /\ identical ops_at o o = true /\
     List.find (same m o) items = None) ->
  exists m' h, hash_part c x l m = Some (0, m') /\
    objs m' = <[l := set_refcnt (ce_refcnt o + (refs x - 1)) o]> (objs m) /\
    caches m' = <[c := set_hashtable h x]> (caches m) /\ links m' = links m /\
    freed m' = freed m /\ changes m' = changes m /\
    (match hashtable x with Some _ => is_Some h | None => h = None end) /\
    (match h with Some ht => table_ok m' ht (items ++ [l]) | None => True end).
Proof.
  intros Hc E Hni Href Hht. pose proof (items_live _ _ _ _ Hc) as Hlive.
  pose proof (ck_cache _ _ _ _ Hc) as Ecx. unfold hash_part, refs.
  destruct (hashtable x) as [ht|] eqn:Ehx.
  - destruct Hht as (Hmal & Hself & Hnone); [done|].
    assert (table_ok m ht items) as Ht by (pose proof (ck_table _ _ _ _ Hc) as H; by rewrite Ehx in H).
    pose proof (run_table_add m ht items l o Ht Hlive E ltac:(lia)) as Ea. rewrite Hnone, Hmal in Ea.
    rewrite (run_bind _ _ _ _ _ Ea). set (o2 := set_refcnt _ o). set (m2 := with_objs _ m). set (ht' := set_chain _ _ _).
    assert (caches m2 !! c = Some x) as Ec2 by done. unfold put_table.
    rewrite <- bind_assoc, (run_bind _ _ _ _ _ (run_get_cache _ _ _ Ec2)).
    eexists (with_caches (<[c := set_hashtable (Some ht') x]>) m2), (Some ht').
    split_and!; try done.
    assert (objs m2 = <[l := o2]> (objs m)) as Eo2 by done.
    apply (table_ok_add m _ ht items l o2); try done.
    + by apply same_contents_insert with l o2.
    + unfold m2. simpl. by rewrite lookup_insert_eq.
    + rewrite <- Hnone. rewrite (same_insert_ne m _ l o2) by done. apply find_ext.
      intros y. unfold same. destruct (objs m !! y); [|done]. by apply identical_ext.
  - exists m, None. split_and!; try done.
    + replace (ce_refcnt o + (1 - 1)) with (ce_refcnt o) by lia.
      rewrite insert_id; [done|]. rewrite E. by destruct o.
    + rewrite insert_id; [done|]. rewrite Ecx. destruct x. simpl in Ehx. by subst.
Qed.

(** [__cache_add] of an object that is not in the cache, with a reference for
    the cache already taken. *)
Lemma run_cache_add_fresh m c x items l o :
  cache_ok m c x items -> zlen items < INT_MAX -> objs m !! l = Some o -> is_Some (links m !! Obj l) ->
  l ∉ items -> ce_ops o = co_obj_ops (c_ops x) -> 1 <= ce_refcnt o < INT_MAX ->
  (hashtable x <> None -> malloc_ok nl_hash_node_size = true /\ identical ops_at o o = true /\
     List.find (same m o) items = None) ->
  exists m' h, __cache_add ops_at c l m = Some (0, m') /\ cache_ok m' c (added x h) (items ++ [l]) /\
    objs m' = <[l := set_refcnt (ce_refcnt o + (refs x - 1)) (set_ce_cache (Some c) o)]> (objs m) /\
    caches m' = <[c := added x h]> (caches m) /\ links m' = linked_tail l c items (links m) /\
    freed m' = freed m /\ changes m' = changes m /\
    (match hashtable x with Some _ => is_Some h | None => h = None end).
Proof.
  intros Hc Hlen E Hlk Hni Hops Href Hht. pose proof (items_live _ _ _ _ Hc) as Hlive.
  unfold __cache_add. rewrite (run_bind _ _ _ _ _ (run_get_obj _ _ _ E)).
  set (o1 := set_ce_cache (Some c) o). set (m1 := with_objs (<[l := o1]>) m).
  assert (put_obj l o1 m = Some (tt, m1)) as Ep by done. rewrite (run_bind _ _ _ _ _ Ep).
  assert (caches m1 !! c = Some x) as Ecx by (apply (ck_cache _ _ _ _ Hc)).
  rewrite (run_bind _ _ _ _ _ (run_get_cache _ _ _ Ecx)).
  assert (same_contents m m1 items) as Hsc by (by apply same_contents_insert with l o1).
  assert (cache_ok m1 c x items) as Hc1.
  { destruct Hc as [? ? ? Hit ? Htab]. constructor; try done.
    - intros y Hy. destruct (Hit y Hy) as (oy & Ey & Hy'). exists oy. split; [|done]. unfold m1. simpl.
      rewrite lookup_insert_ne by set_solver. done.
    - destruct (hashtable x); [|done]. by apply table_ok_ext with m. }
  destruct (run_hash_part m1 c x items l o1 Hc1) as (m2 & h & E2 & Eo2 & Ec2 & El2 & Ef2 & Eg2 & Hh & Ht);
    [unfold m1; simpl; by rewrite lookup_insert_eq|done|simpl; lia| |].
  { intros Hne. destruct (Hht Hne) as (H1 & H2 & H3). split_and!; [done| |].
    - by rewrite <- H2; apply identical_ext.
    - rewrite <- H3, (same_insert_ne m m1 l o1) by done. apply find_ext.
      intros y. unfold same. destruct (objs m !! y); [|done]. by apply identical_ext. }
  fold (hash_part c x l). rewrite (run_bind _ _ _ _ _ E2). change (0 <? 0) with false. cbv iota.
  rewrite (run_add_tail m2 c (set_hashtable h x) items l).
  2: { rewrite El2. apply (ck_ring _ _ _ _ Hc1). }
  2: { by rewrite El2. }
  2: { rewrite Ec2. by rewrite lookup_insert_eq. }
  pose proof (ck_nitems _ _ _ _ Hc) as [Hn Hn']. pose proof (zlen_nonneg items) as Hz.
  change (c_nitems (set_hashtable h x)) with (c_nitems x).
  rewrite s32_id by (unfold INT_MIN; lia). eexists _, h. split; [reflexivity|].
  assert (objs m2 = <[l := set_refcnt (ce_refcnt o + (refs x - 1)) o1]> (objs m)) as Eo.
  { rewrite Eo2. unfold m1. simpl objs. by rewrite insert_insert_eq. }
  assert (<[c := set_nitems (c_nitems x + 1) (set_hashtable h x)]> (caches m2) = <[c := added x h]> (caches m)) as Ec
    by (rewrite Ec2; by rewrite insert_insert_eq).
  split; [|simpl; rewrite Ec, El2; by rewrite Ef2, Eg2].
  apply cache_ok_add with m (set_refcnt (ce_refcnt o + (refs x - 1)) o1); try done.
  - simpl. unfold refs. destruct (hashtable x); lia.
  - simpl. unfold linked_tail. by rewrite El2.
  - destruct h as [ht|]; [|done]. by apply table_ok_objs with m2.
Qed.

(** ** Other caches *)

(** A memory that keeps the cache [c], its objects and its links. *)
Lemma cache_ok_frame m m' c x items : cache_ok m c x items -> caches m' !! c = Some x ->
  (forall l, l ∈ items -> objs m' !! l = objs m !! l) ->
  (forall n, n = Head c \/ n ∈ map Obj items -> links m' !! n = links m !! n) -> cache_ok m' c x items.
Proof.
  intros [Hc Hnd Hr Hit Hn Ht] Hc' Ho Hl. constructor; try done.
  - apply seg_ext with (links m); [| |done]; intros n H; unfold nxt, prv; by rewrite Hl.
  - intros l Hl'. destruct (Hit l Hl') as (o & E & H). exists o. by rewrite Ho.
  - destruct (hashtable x); [|done]. apply table_ok_ext with m; [|done]. intros l Hl'.
    destruct (Hit l Hl') as (o & E & _). exists o, o. by rewrite Ho.
Qed.

(** Caches have no objects in common. *)
Lemma caches_disjoint m c x items c' x' items' l : cache_ok m c x items -> cache_ok m c' x' items' ->
  c <> c' -> l ∈ items -> l ∉ items'.
Proof.
  intros H1 H2 Hne Hl Hl'. destruct (ck_items _ _ _ _ H1 l Hl) as (o & E & Hc & _).
  destruct (ck_items _ _ _ _ H2 l Hl') as (o' & E' & Hc' & _). congruence.
Qed.

Lemma before_in x (ns : list node) : before x ns = x \/ before x ns ∈ ns.
Proof. unfold before. destruct (last ns) eqn:E; simpl; [right; by apply last_Some_elem_of|by left]. Qed.

Lemma after_in (ns : list node) z : after ns z = z \/ after ns z ∈ ns.
Proof. unfold after. destruct ns; simpl; [by left|right; by left]. Qed.

Lemma set_next_ne lk x y z : x <> z -> set_next x y lk !! z = lk !! z.
Proof. apply lookup_alter_ne. Qed.

Lemma set_prev_ne lk x y z : x <> z -> set_prev x y lk !! z = lk !! z.
Proof. apply lookup_alter_ne. Qed.

Lemma not_link_of c items c' items' n : c <> c' -> (forall l, l ∈ items -> l ∉ items') ->
  n = Head c \/ n ∈ map Obj items -> n = Head c' \/ n ∈ map Obj items' -> False.
Proof.
  intros Hne Hd H1 H2. rewrite !list_elem_of_fmap in *.
  destruct H1 as [->|(l & -> & Hl)]; destruct H2 as [H2|(l' & H2 & Hl')]; try congruence.
  injection H2 as <-. by apply (Hd l).
Qed.

Lemma linked_tail_frame l c items lk n : n <> Obj l -> n <> Head c -> n ∉ map Obj items ->
  linked_tail l c items lk !! n = lk !! n.
Proof.
  intros H1 H2 H3. unfold linked_tail.
  assert (before (Head c) (map Obj items) <> n).
  { intros E. destruct (before_in (Head c) (map Obj items)) as [H|H]; rewrite E in H; [by apply H2|by apply H3]. }
  by rewrite set_next_ne, !set_prev_ne, set_next_ne by done.
Qed.

(** ** Adding to a cache *)

Lemma run_object_put_shared f l o m : objs m !! l = Some o -> 2 <= ce_refcnt o <= INT_MAX ->
  nl_object_put ops_at (S f) l m = Some (tt, with_objs (<[l := set_refcnt (ce_refcnt o - 1) o]>) m).
Proof.
  intros E Hr. cbn [nl_object_put]. rewrite (run_bind _ _ _ _ _ (run_get_obj _ _ _ E)).
  rewrite s32_id by (unfold INT_MIN, INT_MAX in *; lia).
  set (m1 := with_objs _ m). assert (put_obj l (set_refcnt (ce_refcnt o - 1) o) m = Some (tt, m1)) as E1 by done.
  rewrite (run_bind _ _ _ _ _ E1). destruct (Z.ltb_spec (ce_refcnt o - 1) 0); [lia|].
  destruct (Z.leb_spec (ce_refcnt o - 1) 0); [lia|]. done.
Qed.

(** The result of [nl_cache_add]. *)
Definition add_result m (x : nl_cache) o (items : list positive) : Z :=
  match hashtable x with
  | None => 0
  | Some _ =>
      match List.find (same m o) items with
      | Some _ => - NLE_EXIST
      | None => if malloc_ok nl_hash_node_size then 0 else - NLE_NOMEM
      end
  end.

Lemma cache_ok_objs_ne m l o c x items : cache_ok m c x items -> l ∉ items ->
  cache_ok (with_objs (<[l := o]>) m) c x items.
Proof.
  intros Hc Hni. apply cache_ok_frame with m; [done|apply (ck_cache _ _ _ _ Hc)| |done].
  intros y Hy. simpl. rewrite lookup_insert_ne by set_solver. done.
Qed.

Lemma find_same_ne m l o1 o2 o items : l ∉ items -> ce_ops o2 = ce_ops o -> ce_content o2 = ce_content o ->
  List.find (same (with_objs (<[l := o1]>) m) o2) items = List.find (same m o) items.
Proof.
  intros Hni H1 H2. rewrite (same_insert_ne m _ l o1) by done. apply find_ext. intros y. unfold same.
  destruct (objs m !! y); [|done]. by apply identical_ext.
Qed.

Lemma mem_eta m : Mem (objs m) (caches m) (links m) (freed m) (changes m) = m.
Proof. by destruct m. Qed.

(** A failing [nl_cache_add] leaves the memory as it was. *)
Lemma run_cache_add_fails f m c x ht items l o : cache_ok m c x items -> objs m !! l = Some o ->
  ce_cache o = None -> l ∉ items -> hashtable x = Some ht -> 1 <= ce_refcnt o < INT_MAX - 1 ->
  add_result m x o items < 0 ->
  (ret ← __cache_add ops_at c l;
   (if ret <? 0 then nl_object_put ops_at (S f) l else mret tt) ;; mret ret)
    (with_objs (<[l := set_refcnt (ce_refcnt o + 1) o]>) m) = Some (add_result m x o items, m).
Proof.
  intros Hc E Hcc Hni Ehx Href Hneg. set (e := add_result m x o items) in *.
  set (o1 := set_refcnt (ce_refcnt o + 1) o). set (o2 := set_ce_cache (Some c) o1).
  assert (__cache_add ops_at c l (with_objs (<[l := o1]>) m) =
    Some (e, with_objs (<[l := set_ce_cache None o2]>) m)) as Ea.
  { unfold __cache_add.
    assert (objs (with_objs (<[l := o1]>) m) !! l = Some o1) as E1 by (simpl; by rewrite lookup_insert_eq).
    rewrite (run_bind _ _ _ _ _ (run_get_obj _ _ _ E1)). set (m2 := with_objs (<[l := o2]>) m).
    assert (put_obj l o2 (with_objs (<[l := o1]>) m) = Some (tt, m2)) as Ep.
    { unfold put_obj, m2, with_objs. simpl. by rewrite insert_insert_eq. }
    rewrite (run_bind _ _ _ _ _ Ep). pose proof (cache_ok_objs_ne m l o2 c x items Hc Hni) as Hc2. fold m2 in Hc2.
    pose proof (ck_cache _ _ _ _ Hc2) as Ecx. rewrite (run_bind _ _ _ _ _ (run_get_cache _ _ _ Ecx)).
    assert (objs m2 !! l = Some o2) as E2 by (unfold m2; simpl; by rewrite lookup_insert_eq).
    rewrite Ehx. pose proof (ck_table _ _ _ _ Hc2) as Ht. rewrite Ehx in Ht.
    pose proof (run_table_add m2 ht items l o2 Ht (items_live _ _ _ _ Hc2) E2 ltac:(simpl; lia)) as Et.
    unfold m2 in Et at 2. rewrite (find_same_ne m l o2 o2 o) in Et by done.
    assert (nl_hash_table_add ops_at ht l m2 = Some ((ht, e), m2)) as Et'.
    { rewrite Et. unfold e, add_result in *. rewrite Ehx in *. destruct (List.find _ items); [done|].
      destruct (malloc_ok _); [lia|done]. }
    assert (('(ht, ret) ← nl_hash_table_add ops_at ht l; put_table c ht ;; mret ret) m2 = Some (e, m2)) as Eh.
    { rewrite (run_bind _ _ _ _ _ Et'). unfold put_table. rewrite <- bind_assoc.
      rewrite (run_bind _ _ _ _ _ (run_get_cache _ _ _ Ecx)). unfold put_cache, mbind, M_bind. simpl. unfold mret, M_ret.
      rewrite (insert_id (caches m) c); [done|]. etransitivity; [exact Ecx|]. destruct x. simpl in *. by subst. }
    rewrite (run_bind _ _ _ _ _ Eh). rewrite (proj2 (Z.ltb_lt e 0)) by done.
    rewrite (run_bind _ _ _ _ _ (run_get_obj _ _ _ E2)). unfold put_obj, m2, with_objs, mbind, M_bind, mret, M_ret. simpl.
    by rewrite insert_insert_eq. }
  rewrite (run_bind _ _ _ _ _ Ea). rewrite (proj2 (Z.ltb_lt e 0)) by done.
  set (o3 := set_ce_cache None o2). set (m3 := with_objs _ m).
  assert (objs m3 !! l = Some o3) as E3 by (unfold m3; simpl; by rewrite lookup_insert_eq).
  rewrite (run_bind _ _ _ _ _ (run_object_put_shared f l o3 m3 E3 ltac:(simpl; lia))).
  unfold mret, M_ret, m3, with_objs. simpl. rewrite insert_insert_eq, insert_id; [by rewrite mem_eta|].
  rewrite E. f_equal. destruct o. simpl in *. subst. unfold set_refcnt. simpl. f_equal. lia.
Qed.

(** Adding behind the end of one list leaves the other caches alone. *)
Lemma other_cache_add m m' c x items c' x' items' l o h : cache_ok m c x items -> cache_ok m c' x' items' ->
  c <> c' -> l ∉ items' -> objs m' = <[l := o]> (objs m) -> caches m' = <[c := h]> (caches m) ->
  links m' = linked_tail l c items (links m) -> cache_ok m' c' x' items'.
Proof.
  intros Hc Hc' Hne Hni Eo Ec El. apply cache_ok_frame with m; [done| | |].
  - rewrite Ec, lookup_insert_ne by done. apply (ck_cache _ _ _ _ Hc').
  - intros y Hy. rewrite Eo, lookup_insert_ne by set_solver. done.
  - intros n Hn. rewrite El. apply linked_tail_frame.
    + intros ->. destruct Hn as [Hn|Hn]; [done|]. apply list_elem_of_fmap in Hn as (y & [= <-] & Hy). done.
    + intros ->. destruct Hn as [[= ->]|Hn]; [done|]. by apply list_elem_of_fmap in Hn as (y & ? & _).
    + intros Hin. apply (not_link_of c items c' items' n); [done| |by right|done].
      intros y Hy. by apply (caches_disjoint m c x items c' x' items').
Qed.

(** [nl_cache_add] of a detached object, once it is known to end in
    [__cache_add] with one more reference. *)
Lemma nl_cache_add_detached fuel m c x items l o : cache_ok m c x items -> detached m l o -> ce_ops o = co_obj_ops (c_ops x) ->
  1 <= ce_refcnt o < INT_MAX ->
  nl_cache_add ops_at fuel c l m =
  (ret ← __cache_add ops_at c l; (if ret <? 0 then nl_object_put ops_at fuel l else mret tt) ;; mret ret)
    (with_objs (<[l := set_refcnt (ce_refcnt o + 1) o]>) m).
Proof.
  intros Hc (E & Hcc & Hlk) Hops Href. unfold nl_cache_add. rewrite (run_bind _ _ _ _ _ (run_get_cache _ _ _ (ck_cache _ _ _ _ Hc))).
  rewrite (run_bind _ _ _ _ _ (run_get_obj _ _ _ E)). rewrite Hops, Z.eqb_refl. cbn [negb].
  assert (nl_list_empty (Obj l) m = Some (true, m)) as Ee.
  { unfold nl_list_empty. rewrite (run_bind _ _ _ _ _ (run_get_link _ _ _ Hlk)). simpl. by rewrite bool_decide_true. }
  rewrite (run_bind _ _ _ _ _ Ee). cbn [negb]. rewrite <- bind_assoc.
  rewrite (run_bind _ _ _ _ _ (run_object_get l o m E ltac:(lia) ltac:(unfold INT_MIN; lia))).
  set (m1 := with_objs _ m). assert ((mret (Some l) : M (option positive)) m1 = Some (Some l, m1)) as Em by done. by rewrite (run_bind _ _ _ _ _ Em).
Qed.

(** A detached object that finds no identical one is added. *)
Lemma run_cache_add_ok fuel m c x items l o : cache_ok m c x items -> detached m l o -> ce_ops o = co_obj_ops (c_ops x) ->
  1 <= ce_refcnt o < INT_MAX - 1 -> zlen items < INT_MAX -> (hashtable x <> None -> identical ops_at o o = true) ->
  add_result m x o items = 0 ->
  exists m' h, nl_cache_add ops_at fuel c l m = Some (0, m') /\ cache_ok m' c (added x h) (items ++ [l]) /\
    objs m' = <[l := set_refcnt (ce_refcnt o + refs x) (set_ce_cache (Some c) o)]> (objs m) /\
    freed m' = freed m /\ changes m' = changes m /\ (match hashtable x with Some _ => is_Some h | None => h = None end) /\
    (forall c' x' items', c <> c' -> cache_ok m c' x' items' -> cache_ok m' c' x' items').
Proof.
  intros Hc Hdet Hops Href Hlen Hself H0. pose proof (detached_not_in _ _ _ _ _ _ Hc Hdet) as Hni.
  assert (forall c' x' items', cache_ok m c' x' items' -> l ∉ items') as Hni'
    by (intros c' x' items' Hc'; exact (detached_not_in _ _ _ _ _ _ Hc' Hdet)).
  rewrite (nl_cache_add_detached fuel m c x items l o Hc Hdet Hops) by lia. destruct Hdet as (E & Hcc & Hlk).
  set (o1 := set_refcnt (ce_refcnt o + 1) o). set (m1 := with_objs (<[l := o1]>) m).
  destruct (run_cache_add_fresh m1 c x items l o1) as (m2 & h & Ea & Hc2 & Eo2 & Ec2 & El2 & Ef2 & Eg2 & Hh); try done.
  - by apply cache_ok_objs_ne.
  - unfold m1. simpl. by rewrite lookup_insert_eq.
  - simpl. lia.
  - intros Hne. unfold add_result in H0. destruct (hashtable x); [|done].
    destruct (List.find (same m o) items) eqn:Ef; [done|]. destruct (malloc_ok _); [|done].
    split_and!; [done|by apply Hself|]. rewrite <- Ef. by apply find_same_ne.
  - exists m2, h. split_and!; try done.
    + by rewrite (run_bind _ _ _ _ _ Ea).
    + rewrite Eo2. simpl. rewrite insert_insert_eq. unfold set_refcnt, set_ce_cache. simpl. do 2 f_equal. lia.
    + intros c' x' items' Hne Hc'. apply (other_cache_add m1 m2 c x items c' x' items' l _ (added x h)
        (cache_ok_objs_ne _ _ _ _ _ _ Hc Hni) (cache_ok_objs_ne _ _ _ _ _ _ Hc' (Hni' _ _ _ Hc')) Hne
        (Hni' _ _ _ Hc') Eo2 Ec2 El2).
Qed.

(** C15: [nl_cache_add] adds a detached object to a cache as a list would: it
    appends the object, the hash table included, counts it, and takes one
    reference for the list and one for the table.  If the cache is hashed and
    has an identical object it returns -NLE_EXIST, if there is no memory
    -NLE_NOMEM, and then the memory is as before.  Other caches keep their
    objects. *)
Theorem nl_cache_add_refines fuel m c x items l o :
  (1 <= fuel)%nat -> cache_ok m c x items -> detached m l o -> ce_ops o = co_obj_ops (c_ops x) ->
  1 <= ce_refcnt o < INT_MAX - 1 -> zlen items < INT_MAX ->
  (hashtable x <> None -> identical ops_at o o = true) ->
  exists m', nl_cache_add ops_at fuel c l m = Some (add_result m x o items, m') /\
    (if add_result m x o items =? 0
     then (exists h, cache_ok m' c (added x h) (items ++ [l])) /\
          objs m' = <[l := set_refcnt (ce_refcnt o + refs x) (set_ce_cache (Some c) o)]> (objs m)
     else m' = m) /\
    (forall c' x' items', c <> c' -> cache_ok m c' x' items' -> cache_ok m' c' x' items').
Proof.
  intros Hf Hc Hdet Hops Href Hlen Hself. destruct fuel as [|f]; [lia|].
  assert (add_result m x o items = 0 \/ (exists ht, hashtable x = Some ht) /\ add_result m x o items < 0) as [H0|[[ht Ehx] Hneg]].
  { unfold add_result. destruct (hashtable x) as [ht|]; [|by left].
    destruct (List.find _ _); [right; split; [eauto|done]|]. destruct (malloc_ok _); [by left|right; split; [eauto|done]]. }
  - rewrite H0. cbn [Z.eqb]. destruct (run_cache_add_ok (S f) m c x items l o) as (m' & h & Ea & Hc' & Eo & _ & _ & _ & Hoth); try done.
    exists m'. split; [done|]. split; [|done]. split; [by exists h|done].
  - exists m. rewrite (proj2 (Z.eqb_neq _ _)) by lia. split; [|by split].
    rewrite (nl_cache_add_detached (S f) m c x items l o Hc Hdet Hops) by lia.
    pose proof (detached_not_in _ _ _ _ _ _ Hc Hdet) as Hni. destruct Hdet as (E & Hcc & Hlk). by apply (run_cache_add_fails f m c x ht items l o).
Qed.

(** ** Removing *)

Lemma run_find_index chain l o m a b : live m (map obj chain) -> objs m !! l = Some o ->
  map obj chain = a ++ l :: b -> (forall y, y ∈ a -> same m o y = false) -> same m o l = true ->
  find_index ops_at chain l m = Some (Some (length a), m).
Proof.
  intros Hl E. revert a. induction chain as [|n chain IH]; intros a Hm Ha Hs; [by destruct a|].
  cbn [find_index map] in *. destruct (Hl (obj n)) as [on En]; [by left|].
  rewrite (run_bind _ _ _ _ _ (run_identical _ _ _ _ _ En E)).
  assert (same m o (obj n) = identical ops_at on o) as Es by (unfold same; by rewrite En). rewrite <- Es.
  destruct a as [|y a]; injection Hm as H1 H2.
  - rewrite H1, Hs. done.
  - rewrite H1, Ha by (by left).
    rewrite (run_bind _ _ _ _ _ (IH ltac:(intros z Hz; apply Hl; by right) a H2 ltac:(intros z Hz; apply Ha; by right) Hs)).
    done.
Qed.

(** The place of an item in its chain. *)
Lemma chain_split m sz k i1 l i2 : key_of m sz l = Some k ->
  reverse (with_key m sz k (i1 ++ l :: i2)) =
  reverse (with_key m sz k i2) ++ l :: reverse (with_key m sz k i1).
Proof.
  intros Hk. unfold with_key. rewrite filter_app, filter_cons, decide_True by done.
  rewrite reverse_app, reverse_cons, <- app_assoc. done.
Qed.

Lemma chain_skip m sz k i1 l i2 : key_of m sz l <> Some k ->
  with_key m sz k (i1 ++ l :: i2) = with_key m sz k (i1 ++ i2).
Proof. intros Hk. unfold with_key. by rewrite !filter_app, filter_cons, decide_False by done. Qed.

Lemma table_ok_remove m ht i1 l i2 o chain :
  table_ok m ht (i1 ++ l :: i2) -> objs m !! l = Some o -> live m (i1 ++ l :: i2) ->
  let k := keygen ops_at o (ht_size ht) in
  nodes ht !! Z.to_nat k = Some chain ->
  table_ok m (set_chain ht k (delete (length (with_key m (ht_size ht) k i2)) chain)) (i1 ++ i2).
Proof.
  intros [Hpos Hlen Hch Hs Hd] E Hlive k En. pose proof (keygen_range o (ht_size ht) Hpos) as Hk. fold k in Hk.
  assert (key_of m (ht_size ht) l = Some k) as Hkey by (unfold key_of; by rewrite E).
  assert (forall y, y ∈ i1 ++ i2 -> y ∈ i1 ++ l :: i2) as Hsub by (clear; set_solver).
  constructor; cbn [ht_size nodes set_chain].
  - done.
  - unfold zlen in *. by rewrite length_insert.
  - intros k' Hk'. destruct (Hch k' Hk') as (chain' & En' & Hm & Hf). destruct (decide (k' = k)) as [->|Hne].
    + rewrite En in En'. injection En' as <-. eexists.
      rewrite list_lookup_insert_eq by (apply lookup_lt_Some in En; done). split; [done|].
      rewrite (chain_split _ _ _ _ _ _ Hkey) in Hm. split.
      * change (obj <$> delete (length (with_key m (ht_size ht) k i2)) chain = reverse (with_key m (ht_size ht) k (i1 ++ i2))).
        rewrite list_fmap_delete. change (obj <$> chain) with (map obj chain). rewrite Hm.
        rewrite <- (length_reverse (with_key m (ht_size ht) k i2)), delete_middle.
        unfold with_key. by rewrite filter_app, reverse_app.
      * by apply Forall_delete.
    + exists chain'. rewrite list_lookup_insert_ne by lia. split; [done|]. split; [|done].
      rewrite chain_skip in Hm; [done|]. rewrite Hkey. congruence.
  - intros y oy Hy Ey. by apply Hs; [apply Hsub|].
  - intros l1 l2 o2 H1 H2 E2 Hsame. apply (Hd l1 l2 o2); auto.
Qed.

(** [nl_hash_table_del] of an object of the cache: its node goes, with one
    reference. *)
Lemma run_hash_del f m c x ht i1 l i2 o : caches m !! c = Some x -> hashtable x = Some ht ->
  table_ok m ht (i1 ++ l :: i2) -> NoDup (i1 ++ l :: i2) -> live m (i1 ++ l :: i2) ->
  objs m !! l = Some o -> 2 <= ce_refcnt o <= INT_MAX ->
  exists m' ht', nl_hash_table_del ops_at (S (S f)) c l m = Some (0, m') /\
    objs m' = <[l := set_refcnt (ce_refcnt o - 1) o]> (objs m) /\
    caches m' = <[c := set_hashtable (Some ht') x]> (caches m) /\ links m' = links m /\
    freed m' = freed m /\ changes m' = changes m /\ table_ok m' ht' (i1 ++ i2).
Proof.
  intros Ec Ehx Ht Hnd Hlive E Href. set (f1 := S f). cbn [nl_hash_table_del].
  assert (get_table c m = Some (ht, m)) as Eg.
  { unfold get_table. rewrite (run_bind _ _ _ _ _ (run_get_cache _ _ _ Ec)). by rewrite Ehx. }
  rewrite (run_bind _ _ _ _ _ Eg). set (k := keygen ops_at o (ht_size ht)).
  assert (nl_object_keygen ops_at l (ht_size ht) m = Some (k, m)) as Ek.
  { unfold nl_object_keygen. by rewrite (run_bind _ _ _ _ _ (run_get_obj _ _ _ E)). }
  rewrite (run_bind _ _ _ _ _ Ek). pose proof (keygen_range o (ht_size ht) (ht_pos _ _ _ Ht)) as Hk. fold k in Hk.
  destruct (get_chain_ok m ht _ k Ht Hk) as (chain & Egc & En & Hm & Hf). rewrite (run_bind _ _ _ _ _ Egc).
  assert (key_of m (ht_size ht) l = Some k) as Hkey by (unfold key_of; by rewrite E).
  rewrite (chain_split _ _ _ _ _ _ Hkey) in Hm.
  assert (find_index ops_at chain l m = Some (Some (length (with_key m (ht_size ht) k i2)), m)) as Ei.
  { rewrite <- length_reverse. apply run_find_index with o (reverse (with_key m (ht_size ht) k i1)); try done.
    - rewrite Hm. intros y Hy. apply Hlive, elem_of_app. apply elem_of_app in Hy as [Hy|Hy].
      + apply elem_of_reverse, with_key_in in Hy as [_ Hy]. right. by right.
      + apply elem_of_cons in Hy as [->|Hy]; [right; by left|]. apply elem_of_reverse, with_key_in in Hy as [_ Hy]. by left.
    - intros y Hy. apply elem_of_reverse, with_key_in in Hy as [_ Hy]. destruct (same m o y) eqn:Es; [|done].
      assert (y = l) as ->. { apply (ht_distinct _ _ _ Ht y l o); [set_solver..|done|done]. }
      apply NoDup_app in Hnd as (_ & _ & [Hn _]%NoDup_cons). done.
    - apply (ht_self _ _ _ Ht); [set_solver|done]. }
  rewrite (run_bind _ _ _ _ _ Ei). unfold f1. rewrite (run_bind _ _ _ _ _ (run_object_put_shared f l o m E Href)).
  set (o1 := set_refcnt _ o). set (m1 := with_objs _ m).
  assert (get_table c m1 = Some (ht, m1)) as Eg1.
  { unfold get_table. assert (caches m1 !! c = Some x) as Ec1 by done.
    rewrite (run_bind _ _ _ _ _ (run_get_cache _ _ _ Ec1)). by rewrite Ehx. }
  rewrite (run_bind _ _ _ _ _ Eg1).
  assert (get_chain ht k m1 = Some (chain, m1)) as Egc1.
  { unfold get_chain in *. destruct (_ && _); [|done]. by rewrite En. }
  rewrite (run_bind _ _ _ _ _ Egc1). set (ht' := set_chain _ _ _). unfold put_table.
  assert (caches m1 !! c = Some x) as Ec1 by done. rewrite <- bind_assoc.
  rewrite (run_bind _ _ _ _ _ (run_get_cache _ _ _ Ec1)).
  exists (with_caches (<[c := set_hashtable (Some ht') x]>) m1), ht'. split_and!; try done.
  apply table_ok_objs with m1; [done|].
  assert (same_contents m m1 (i1 ++ l :: i2)) as Hsc by (by apply same_contents_update with l o o1).
  unfold ht'. rewrite (with_key_ext m m1) by (intros y Hy; apply Hsc; clear -Hy; set_solver).
  apply (table_ok_remove m1 ht i1 l i2 o1 chain); try done.
  - by apply table_ok_ext with m.
  - unfold m1. simpl. by rewrite lookup_insert_eq.
  - intros y Hy. destruct (Hsc y Hy) as (? & ? & _ & ? & _). eauto.
Qed.

(** The last reference: the object is released. *)
Lemma run_object_put_last f l o m : objs m !! l = Some o -> ce_refcnt o = 1 -> ce_cache o = None ->
  nl_object_put ops_at (S (S f)) l m =
  Some (tt, Mem (delete l (objs m)) (caches m) (delete (Obj l) (links m))
              (if oo_free_data (ops_at (ce_ops o)) then freed m ++ [l] else freed m) (changes m)).
Proof.
  intros E Hr Hc. set (f1 := S f). cbn [nl_object_put]. rewrite (run_bind _ _ _ _ _ (run_get_obj _ _ _ E)).
  rewrite Hr. change (s32 (1 - 1)) with 0. set (o1 := set_refcnt 0 o). set (m1 := with_objs (<[l := o1]>) m).
  assert (put_obj l o1 m = Some (tt, m1)) as E1 by done. rewrite (run_bind _ _ _ _ _ E1).
  change (0 <? 0) with false. change (0 <=? 0) with true. cbv iota. unfold f1. cbn [nl_object_free].
  assert (objs m1 !! l = Some o1) as El by (unfold m1; simpl; by rewrite lookup_insert_eq).
  rewrite (run_bind _ _ _ _ _ (run_get_obj _ _ _ El)). change (ce_cache o1) with (ce_cache o). rewrite Hc.
  assert ((mret tt : M unit) m1 = Some (tt, m1)) as Er by done. rewrite (run_bind _ _ _ _ _ Er).
  unfold release. rewrite (run_bind _ _ _ _ _ (run_get_obj _ _ _ El)). unfold modify, m1. simpl.
  by rewrite delete_insert_eq.
Qed.

(** The links after [nl_list_del]. *)
Definition unlinked c i1 i2 (lk : gmap node (node * node)) :=
  set_next (before (Head c) (map Obj i1)) (after (map Obj i2) (Head c))
    (set_prev (after (map Obj i2) (Head c)) (before (Head c) (map Obj i1)) lk).

Lemma map_obj_split i1 l i2 : map Obj (i1 ++ l :: i2) = map Obj i1 ++ Obj l :: map Obj i2.
Proof. by rewrite map_app. Qed.

Lemma run_unlink m c i1 l i2 : seg (links m) (Head c) (map Obj (i1 ++ l :: i2)) (Head c) ->
  NoDup (i1 ++ l :: i2) -> nl_list_del (Obj l) m = Some (tt, with_links (unlinked c i1 i2) m).
Proof.
  intros Hs Hnd. rewrite map_obj_split in Hs. pose proof (seg_is_Some _ _ _ _ Hs) as Hall.
  apply seg_app in Hs as [Hs1 Hs2]. destruct (seg_prev _ _ _ _ Hs1) as [Hp1 Hp2].
  destruct (seg_next _ _ _ _ Hs2) as [Hn1 Hn2]. apply run_list_del; try done.
  - by eapply nxt_is_Some.
  - by eapply prv_is_Some.
  - destruct (after_in (map Obj i2) (Head c)) as [->|H]; [done|]. intros E. rewrite E in H.
    apply list_elem_of_fmap in H as (y & [= <-] & Hy). apply NoDup_app in Hnd as (_ & _ & [Hn _]%NoDup_cons). done.
Qed.

Definition removed (x : nl_cache) h : nl_cache := set_nitems (c_nitems x - 1) (set_hashtable h x).

Lemma cache_ok_remove m m' c x h i1 l i2 : cache_ok m c x (i1 ++ l :: i2) ->
  (forall y, y ∈ i1 ++ i2 -> objs m' !! y = objs m !! y) ->
  caches m' !! c = Some (removed x h) ->
  (forall n, n = Head c \/ n ∈ map Obj (i1 ++ i2) -> links m' !! n = unlinked c i1 i2 (links m) !! n) ->
  (match hashtable x with Some _ => is_Some h | None => h = None end) ->
  (match h with Some ht => table_ok m' ht (i1 ++ i2) | None => True end) ->
  cache_ok m' c (removed x h) (i1 ++ i2).
Proof.
  intros [Hcache Hnd Hring Hitems [Hn Hn'] _] Ho Ec El Hh Ht.
  assert (refs (removed x h) = refs x) as Hrefs by (unfold refs; simpl; by destruct (hashtable x), h).
  constructor.
  - done.
  - apply NoDup_app in Hnd as (H1 & H2 & [H3 H4]%NoDup_cons). apply NoDup_app. split_and!; [done| |done].
    intros y Hy Hy'. apply (H2 y Hy). by right.
  - rewrite map_obj_split in Hring.
    assert (seg (unlinked c i1 i2 (links m)) (Head c) (map Obj i1 ++ map Obj i2) (Head c)) as Hs.
    { apply seg_delete with (Obj l); [done| |].
      - rewrite <- map_obj_split. apply NoDup_fmap_2; [by intros ? ? [= ->]|done].
      - rewrite <- map_obj_split. by intros (y & ? & _)%list_elem_of_fmap. }
    rewrite map_app. rewrite map_app in El. apply seg_ext with (unlinked c i1 i2 (links m)); [| |done];
      intros n Hn0; unfold nxt, prv; by rewrite El.
  - intros y Hy. unfold item_ok. rewrite Hrefs, Ho by done. apply Hitems. clear -Hy. set_solver.
  - rewrite !zlen_app, zlen_cons in *. simpl. lia.
  - done.
Qed.

(** The hash table part of [nl_cache_remove]. *)
Definition unhash_part fuel c (x : nl_cache) l : M unit :=
  match hashtable x with
  | Some _ => _ ← nl_hash_table_del ops_at fuel c l; mret tt
  | None => mret tt
  end.

Lemma run_unhash_part f m c x i1 l i2 o : cache_ok m c x (i1 ++ l :: i2) -> objs m !! l = Some o ->
  exists m' h, unhash_part (S (S f)) c x l m = Some (tt, m') /\
    objs m' = <[l := set_refcnt (ce_refcnt o - (refs x - 1)) o]> (objs m) /\
    caches m' = <[c := set_hashtable h x]> (caches m) /\ links m' = links m /\
    freed m' = freed m /\ changes m' = changes m /\
    (match hashtable x with Some _ => is_Some h | None => h = None end) /\
    (match h with Some ht => table_ok m' ht (i1 ++ i2) | None => True end).
Proof.
  intros Hc E. pose proof (items_live _ _ _ _ Hc) as Hlive. pose proof Hc as [Ecx Hnd _ Hit _ Ht].
  destruct (Hit l) as (o' & E' & _ & _ & Href); [clear; set_solver|]. rewrite E in E'. injection E' as <-.
  unfold unhash_part, refs in *. destruct (hashtable x) as [ht|] eqn:Ehx.
  - destruct (run_hash_del f m c x ht i1 l i2 o) as (m' & ht' & Ed & Eo & Ec & El & Ef & Eg & Ht'); try done.
    exists m', (Some ht'). split; [by rewrite (run_bind _ _ _ _ _ Ed)|]. split_and!; done.
  - exists m, None. split_and!; try done.
    + replace (ce_refcnt o - (1 - 1)) with (ce_refcnt o) by lia. rewrite insert_id; [done|]. rewrite E. by destruct o.
    + rewrite insert_id; [done|]. rewrite Ecx. destruct x. simpl in Ehx. by subst.
Qed.

Lemma nl_cache_remove_S f l : nl_cache_remove ops_at (S f) l =
  (o ← get_obj l;
   match ce_cache o with
   | None => mret tt
   | Some c =>
       x ← get_cache c;
       unhash_part f c x l ;;
       nl_list_del (Obj l) ;;
       o ← get_obj l; put_obj l (set_ce_cache None o) ;;
       nl_object_put ops_at f l ;;
       x ← get_cache c; put_cache c (set_nitems (s32 (c_nitems x - 1)) x)
   end).
Proof. done. Qed.

(** What is left of the object after its references are taken back. *)
Definition after_remove m (x : nl_cache) l o : gmap positive (nl_object D) :=
  if ce_refcnt o =? refs x then delete l (objs m)
  else <[l := set_refcnt (ce_refcnt o - refs x) (set_ce_cache None o)]> (objs m).

(** Giving back the last reference of the cache, then the count. *)
Lemma run_put_nitems f m c x l o : objs m !! l = Some o -> ce_cache o = None -> 1 <= ce_refcnt o <= INT_MAX ->
  caches m !! c = Some x ->
  (nl_object_put ops_at (S (S f)) l ;; x ← get_cache c; put_cache c (set_nitems (s32 (c_nitems x - 1)) x)) m =
  Some (tt, Mem (if ce_refcnt o =? 1 then delete l (objs m) else <[l := set_refcnt (ce_refcnt o - 1) o]> (objs m))
              (<[c := set_nitems (s32 (c_nitems x - 1)) x]> (caches m))
              (if ce_refcnt o =? 1 then delete (Obj l) (links m) else links m)
              (if (ce_refcnt o =? 1) && oo_free_data (ops_at (ce_ops o)) then freed m ++ [l] else freed m) (changes m)).
Proof.
  intros E Hcc Href Ec. destruct (Z.eqb_spec (ce_refcnt o) 1) as [H1|H1]; cbn [andb].
  - rewrite (run_bind _ _ _ _ _ (run_object_put_last f l o m E H1 Hcc)). set (m1 := Mem _ _ _ _ _).
    assert (caches m1 !! c = Some x) as Ec1 by done. by rewrite (run_bind _ _ _ _ _ (run_get_cache _ _ _ Ec1)).
  - rewrite (run_bind _ _ _ _ _ (run_object_put_shared (S f) l o m E ltac:(lia))). set (m1 := with_objs _ m).
    assert (caches m1 !! c = Some x) as Ec1 by done. by rewrite (run_bind _ _ _ _ _ (run_get_cache _ _ _ Ec1)).
Qed.

Lemma unlinked_frame c i1 i2 lk n : n <> Head c -> n ∉ map Obj i1 -> n ∉ map Obj i2 ->
  unlinked c i1 i2 lk !! n = lk !! n.
Proof.
  intros H1 H2 H3. unfold unlinked. rewrite set_next_ne, set_prev_ne; [done| |].
  - destruct (after_in (map Obj i2) (Head c)) as [->|H]; [done|]. by intros <-.
  - destruct (before_in (Head c) (map Obj i1)) as [->|H]; [done|]. by intros <-.
Qed.

Lemma after_remove_ne m x l o y : y <> l -> after_remove m x l o !! y = objs m !! y.
Proof.
  intros Hy. unfold after_remove. destruct (_ =? _); [by rewrite lookup_delete_ne by done|].
  by rewrite lookup_insert_ne by done.
Qed.

(** The memory after [nl_cache_remove]. *)
Lemma run_cache_remove f m c x i1 l i2 o : cache_ok m c x (i1 ++ l :: i2) -> objs m !! l = Some o ->
  exists m' h, nl_cache_remove ops_at (S (S (S f))) l m = Some (tt, m') /\
    objs m' = after_remove m x l o /\ caches m' = <[c := removed x h]> (caches m) /\
    (forall n, n <> Obj l \/ ce_refcnt o <> refs x -> links m' !! n = unlinked c i1 i2 (links m) !! n) /\
    freed m' = (if (ce_refcnt o =? refs x) && oo_free_data (ops_at (ce_ops o)) then freed m ++ [l] else freed m) /\
    (match hashtable x with Some _ => is_Some h | None => h = None end) /\
    (match h with Some ht => table_ok m' ht (i1 ++ i2) | None => True end) /\ changes m' = changes m.
Proof.
  intros Hc E. rewrite nl_cache_remove_S.
  rewrite (run_bind _ _ _ _ _ (run_get_obj _ _ _ E)). pose proof Hc as [Ecx Hnd Hring Hit [Hn Hn'] _].
  destruct (Hit l) as (o' & E' & Hcc & _ & Href); [clear; set_solver|]. rewrite E in E'. injection E' as <-.
  rewrite Hcc. rewrite (run_bind _ _ _ _ _ (run_get_cache _ _ _ Ecx)).
  destruct (run_unhash_part f m c x i1 l i2 o Hc E) as (m1 & h & E1 & Eo1 & Ec1 & El1 & Ef1 & Eg1 & Hh & Ht).
  rewrite (run_bind _ _ _ _ _ E1).
  rewrite (run_bind _ _ _ _ _ (run_unlink m1 c i1 l i2 ltac:(by rewrite El1) Hnd)). set (m2 := with_links _ m1).
  set (o1 := set_refcnt (ce_refcnt o - (refs x - 1)) o) in *.
  assert (objs m2 !! l = Some o1) as E2 by (unfold m2; simpl; rewrite Eo1; by rewrite lookup_insert_eq).
  rewrite (run_bind _ _ _ _ _ (run_get_obj _ _ _ E2)). set (o2 := set_ce_cache None o1).
  set (m3 := with_objs (<[l := o2]>) m2). assert (put_obj l o2 m2 = Some (tt, m3)) as E3 by done.
  rewrite (run_bind _ _ _ _ _ E3).
  assert (objs m3 = <[l := o2]> (objs m)) as Eo3 by (unfold m3, m2; simpl; rewrite Eo1; by rewrite insert_insert_eq).
  rewrite (run_put_nitems f m3 c (set_hashtable h x) l o2);
    [|rewrite Eo3; by rewrite lookup_insert_eq|done|simpl; unfold refs in *; destruct (hashtable x); lia
     |simpl; rewrite Ec1; by rewrite lookup_insert_eq].
  change (c_nitems (set_hashtable h x)) with (c_nitems x). rewrite zlen_app, zlen_cons in *.
  pose proof (zlen_nonneg i1). pose proof (zlen_nonneg i2). rewrite s32_id by (unfold INT_MIN; lia).
  assert ((ce_refcnt o2 =? 1) = (ce_refcnt o =? refs x)) as ->.
  { simpl. destruct (Z.eqb_spec (ce_refcnt o) (refs x)); [apply Z.eqb_eq|apply Z.eqb_neq]; lia. }
  eexists _, h. split; [reflexivity|]. set (m4 := Mem _ _ _ _ _).
  assert (objs m4 = after_remove m x l o) as Eo4.
  { clearbody m3. unfold m4, after_remove. cbn [objs]. rewrite Eo3. destruct (ce_refcnt o =? refs x).
    - by rewrite delete_insert_eq.
    - rewrite insert_insert_eq. unfold o2, o1, set_refcnt, set_ce_cache. simpl. do 2 f_equal. lia. }
  split_and!; [done|simpl; rewrite Ec1; by rewrite insert_insert_eq| |simpl; by rewrite Ef1|done| |done].
  - intros n Hn0. simpl. rewrite El1. destruct (Z.eqb_spec (ce_refcnt o) (refs x)); [|done].
    destruct Hn0 as [Hn0|]; [|done]. by rewrite lookup_delete_ne by done.
  - destruct h as [ht|]; [|done]. apply table_ok_ext with m1; [|done]. intros y Hy.
    assert (y <> l).
    { intros ->. apply NoDup_app in Hnd as (_ & Hdis & [Hl2 _]%NoDup_cons).
      apply elem_of_app in Hy as [Hy|Hy]; [apply (Hdis l Hy); by left|done]. }
    destruct (items_live _ _ _ _ Hc y) as [oy Ey]; [clear -Hy; set_solver|].
    exists oy, oy. by rewrite Eo4, after_remove_ne, Eo1, lookup_insert_ne by done.
Qed.

Lemma other_cache_remove m m' c x i1 l i2 o c' x' items' z : cache_ok m c x (i1 ++ l :: i2) ->
  cache_ok m c' x' items' -> c <> c' -> objs m' = after_remove m x l o ->
  caches m' = <[c := z]> (caches m) ->
  (forall n, n <> Obj l -> links m' !! n = unlinked c i1 i2 (links m) !! n) -> cache_ok m' c' x' items'.
Proof.
  intros Hc Hc' Hne Eo Ec El.
  assert (forall y, y ∈ i1 ++ l :: i2 -> y ∉ items') as Hd
    by (intros y Hy; by apply (caches_disjoint m c x (i1 ++ l :: i2) c' x' items')).
  apply cache_ok_frame with m; [done| | |].
  - rewrite Ec, lookup_insert_ne by done. apply (ck_cache _ _ _ _ Hc').
  - intros y Hy. rewrite Eo. apply after_remove_ne. intros ->. apply (Hd l); [clear; set_solver|done].
  - intros n Hn0.
    assert (n = Head c \/ n ∈ map Obj (i1 ++ l :: i2) -> False) as Hnot
      by (intros H'; by apply (not_link_of c (i1 ++ l :: i2) c' items' n)).
    rewrite map_obj_split in Hnot. rewrite El by (intros ->; apply Hnot; right; clear; set_solver).
    apply unlinked_frame; intros H'; apply Hnot; [by left|right; clear -H'; set_solver..].
Qed.

(** The cache after [nl_cache_remove], and the other caches. *)
Lemma run_cache_remove_ok f m c x i1 l i2 o : cache_ok m c x (i1 ++ l :: i2) -> objs m !! l = Some o ->
  exists m' h, nl_cache_remove ops_at (S (S (S f))) l m = Some (tt, m') /\
    cache_ok m' c (removed x h) (i1 ++ i2) /\ objs m' = after_remove m x l o /\
    freed m' = (if (ce_refcnt o =? refs x) && oo_free_data (ops_at (ce_ops o)) then freed m ++ [l] else freed m) /\
    caches m' = <[c := removed x h]> (caches m) /\
    (match hashtable x with Some _ => is_Some h | None => h = None end) /\
    (ce_refcnt o <> refs x -> is_Some (links m' !! Obj l)) /\
    (forall c' x' items', c <> c' -> cache_ok m c' x' items' -> cache_ok m' c' x' items').
Proof.
  intros Hc E. destruct (run_cache_remove f m c x i1 l i2 o Hc E) as (m' & h & Er & Eo & Ec & El & Ef & Hh & Ht & _).
  exists m', h. pose proof (ck_nodup _ _ _ _ Hc) as (Hnd1 & Hdis & [Hl2 Hnd2]%NoDup_cons)%NoDup_app.
  assert (l ∉ i1 ++ i2) as Hni.
  { rewrite elem_of_app. intros [H1|H1]; [|done]. apply (Hdis l H1). by left. }
  split_and!; try done.
  - apply (cache_ok_remove m m' c x h i1 l i2); try done.
    + intros y Hy. rewrite Eo. apply after_remove_ne. by intros ->.
    + rewrite Ec. by rewrite lookup_insert_eq.
    + intros n Hn0. apply El. left. intros ->. destruct Hn0 as [Hn0|Hn0]; [done|].
      apply list_elem_of_fmap in Hn0 as (y & [= <-] & Hy). done.
  - intros Hne. rewrite El by (by right). unfold unlinked. rewrite set_next_is_Some, set_prev_is_Some.
    apply (seg_is_Some _ _ _ _ (ck_ring _ _ _ _ Hc)). rewrite map_obj_split. clear. set_solver.
  - intros c' x' items' Hne Hc'. assert (forall n, n <> Obj l -> links m' !! n = unlinked c i1 i2 (links m) !! n)
      by (intros n Hn0; apply El; by left). by apply (other_cache_remove m m' c x i1 l i2 o c' x' items' (removed x h)).
Qed.

(** C16: [nl_cache_remove] takes an object out of its cache as a list would:
    the other objects stay in order, in the list and in the hash table, the
    count goes down by one, and the references of the cache are given back;
    if they were the last ones the object is freed, after its data, and
    otherwise it survives with its cache pointer cleared.  Other objects and
    other caches are left alone. *)
Theorem nl_cache_remove_refines fuel m c x i1 l i2 o :
  (3 <= fuel)%nat -> cache_ok m c x (i1 ++ l :: i2) -> objs m !! l = Some o ->
  exists m' h, nl_cache_remove ops_at fuel l m = Some (tt, m') /\
    cache_ok m' c (removed x h) (i1 ++ i2) /\ objs m' = after_remove m x l o /\
    freed m' = (if (ce_refcnt o =? refs x) && oo_free_data (ops_at (ce_ops o)) then freed m ++ [l] else freed m) /\
    (forall c' x' items', c <> c' -> cache_ok m c' x' items' -> cache_ok m' c' x' items').
Proof.
  intros Hf Hc E. destruct fuel as [|[|[|f]]]; [lia..|].
  destruct (run_cache_remove_ok f m c x i1 l i2 o Hc E) as (m' & h & Er & Hc' & Eo & Ef & _ & _ & _ & Hoth).
  by exists m', h.
Qed.

(** ** Searching *)

Lemma run_walk fuel m c x items : seg (links m) x (map Obj items) (Head c) -> (length items < fuel)%nat ->
  walk fuel x (Head c) m = Some (items, m).
Proof.
  revert x items. induction fuel as [|fuel IH]; intros x items Hs Hf; [lia|]. cbn [walk].
  destruct (seg_next _ _ _ _ Hs) as [Hn _]. pose proof (nxt_is_Some _ _ _ Hn) as [e E].
  rewrite (run_bind _ _ _ _ _ (run_get_link _ _ _ E)). unfold nxt in Hn. rewrite E in Hn. injection Hn as ->.
  destruct items as [|y items]; cbn [map after head default] in *.
  - by rewrite bool_decide_true.
  - rewrite bool_decide_false by done. destruct Hs as (_ & _ & Hs).
    assert (walk fuel (Obj y) (Head c) m = Some (items, m)) as Ew by (apply IH; [done|simpl in Hf; lia]).
    unfold id. by rewrite (run_bind _ _ _ _ _ Ew).
Qed.

Lemma items_size m items : NoDup items -> live m items -> (length items <= size (objs m))%nat.
Proof.
  intros Hnd Hl. rewrite <- size_dom, <- (size_list_to_set (C := gset positive) items Hnd).
  apply subseteq_size. intros y Hy. apply elem_of_dom, Hl. set_solver.
Qed.

Lemma run_elements m c x items : cache_ok m c x items -> elements c m = Some (items, m).
Proof.
  intros Hc. unfold elements. apply run_walk; [apply (ck_ring _ _ _ _ Hc)|].
  pose proof (items_size m items (ck_nodup _ _ _ _ Hc) (items_live _ _ _ _ Hc)). lia.
Qed.

(** The memory with one more reference on the object that was found. *)
Definition found m (p : option positive) : mem D :=
  match p with
  | Some y => with_objs (alter (fun o => set_refcnt (ce_refcnt o + 1) o) y) m
  | None => m
  end.

Lemma run_found l o m : objs m !! l = Some o -> 0 <= ce_refcnt o < INT_MAX ->
  (nl_object_get l ;; mret (Some l)) m = Some (Some l, found m (Some l)).
Proof.
  intros E Hr. rewrite (run_bind _ _ _ _ _ (run_object_get l o m E ltac:(lia) ltac:(unfold INT_MIN; lia))).
  unfold mret, M_ret, found, with_objs. by rewrite (alter_present _ _ _ _ E).
Qed.

Definition countable_refs m (items : list positive) : Prop :=
  forall y o, y ∈ items -> objs m !! y = Some o -> 0 <= ce_refcnt o < INT_MAX.

Lemma run_first_match m items l o : objs m !! l = Some o -> live m items -> countable_refs m items ->
  first_match (fun y => nl_object_identical ops_at y l) items m =
  Some (List.find (same m o) items, found m (List.find (same m o) items)).
Proof.
  intros E. induction items as [|y items IH]; intros Hl Hr; [done|]. cbn [first_match List.find].
  destruct (Hl y) as [oy Ey]; [by left|]. rewrite (run_bind _ _ _ _ _ (run_identical _ _ _ _ _ Ey E)).
  unfold same at 1 3. rewrite Ey. destruct (identical ops_at oy o).
  - apply run_found with oy; [done|]. apply (Hr y); [by left|done].
  - apply IH; [intros z Hz; apply Hl; by right|intros z oz Hz; apply Hr; by right].
Qed.

(** Among the objects of a hashed cache at most one is identical to [o]. *)
Lemma same_unique m ht items o y z : table_ok m ht items -> y ∈ items -> z ∈ items ->
  same m o y = true -> same m o z = true -> y = z.
Proof.
  intros Ht Hy Hz Ey Ez. unfold same in Ez. destruct (objs m !! z) as [oz|] eqn:Eoz; [|done].
  apply (ht_distinct _ _ _ Ht y z oz); try done. unfold same in *. destruct (objs m !! y) as [oy|]; [|done].
  apply ident_trans with o; [done|]. by apply ident_sym.
Qed.

Lemma find_elem {A} (f : A -> bool) (xs : list A) y : List.find f xs = Some y -> y ∈ xs /\ f y = true.
Proof. intros H. apply List.find_some in H as [H1 H2]. by rewrite list_elem_of_In. Qed.

Lemma run_table_lookup m ht items l o : table_ok m ht items -> live m items -> objs m !! l = Some o ->
  nl_hash_table_lookup ops_at ht l m = Some (List.find (same m o) items, m).
Proof.
  intros Ht Hlive E. destruct (chain_search m ht items l o Ht E Hlive) as (chain & Eg & En & Hm & Hf & Ef & Hiff).
  unfold nl_hash_table_lookup.
  assert (nl_object_keygen ops_at l (ht_size ht) m = Some (keygen ops_at o (ht_size ht), m)) as Ek.
  { unfold nl_object_keygen. by rewrite (run_bind _ _ _ _ _ (run_get_obj _ _ _ E)). }
  rewrite (run_bind _ _ _ _ _ Ek), (run_bind _ _ _ _ _ Eg), Ef. do 2 f_equal.
  destruct (List.find (same m o) (map obj chain)) as [y|] eqn:E1; destruct (List.find (same m o) items) as [z|] eqn:E2.
  - apply find_elem in E1 as [Hy Ey], E2 as [Hz Ez]. f_equal. rewrite Hm in Hy.
    apply elem_of_reverse, with_key_in in Hy as [_ Hy]. by apply (same_unique m ht items o).
  - destruct Hiff as [_ H]. by specialize (H eq_refl).
  - destruct Hiff as [H _]. by specialize (H eq_refl).
  - done.
Qed.

Lemma cache_ok_found m c x items p : cache_ok m c x items ->
  (forall y o, p = Some y -> objs m !! y = Some o -> ce_refcnt o < INT_MAX) -> cache_ok (found m p) c x items.
Proof.
  intros [Hc Hnd Hr Hit Hn Ht] Href. destruct p as [y|]; [|by constructor].
  assert (same_contents m (found m (Some y)) items) as Hsc.
  { intros z Hz. destruct (Hit z Hz) as (oz & Ez & _). simpl. destruct (decide (y = z)) as [->|].
    - exists oz, (set_refcnt (ce_refcnt oz + 1) oz). by rewrite lookup_alter_eq, Ez.
    - exists oz, oz. by rewrite lookup_alter_ne. }
  constructor; try done.
  - intros z Hz. destruct (Hit z Hz) as (oz & Ez & H1 & H2 & H3).
    unfold item_ok. simpl. destruct (decide (y = z)) as [->|].
    + specialize (Href z oz eq_refl Ez). exists (set_refcnt (ce_refcnt oz + 1) oz). rewrite lookup_alter_eq, Ez. simpl. split_and!; [done..|lia|lia].
    + exists oz. by rewrite lookup_alter_ne.
  - destruct (hashtable x) as [ht|]; [|done]. by apply table_ok_ext with m.
Qed.

Lemma run_cache_search m c x items l o :
  cache_ok m c x items -> objs m !! l = Some o -> countable_refs m items ->
  nl_cache_search ops_at c l m = Some (List.find (same m o) items, found m (List.find (same m o) items)) /\
  cache_ok (found m (List.find (same m o) items)) c x items.
Proof.
  intros Hc E Href. pose proof (items_live _ _ _ _ Hc) as Hlive.
  split; [|apply cache_ok_found; [done|intros y oy [Hy _]%find_elem Ey; by apply (Href y)]].
  unfold nl_cache_search. rewrite (run_bind _ _ _ _ _ (run_get_cache _ _ _ (ck_cache _ _ _ _ Hc))).
  pose proof (ck_table _ _ _ _ Hc) as Ht. destruct (hashtable x) as [ht|].
  - unfold __cache_fast_lookup. rewrite (run_bind _ _ _ _ _ (run_table_lookup m ht items l o Ht Hlive E)).
    destruct (List.find (same m o) items) as [y|] eqn:Ef; [|done]. apply find_elem in Ef as [Hy _].
    destruct (Hlive y Hy) as [oy Ey]. by apply run_found with oy; [|apply (Href y)].
  - rewrite (run_bind _ _ _ _ _ (run_elements m c x items Hc)). by apply run_first_match.
Qed.

(** C17: [nl_cache_search] through the hash table gives the object that a scan
    of the list gives, the first one identical to the needle, with a reference
    taken for the caller, or NULL if there is none; the cache stays as it is. *)
Theorem nl_cache_search_scans m c x items l o :
  cache_ok m c x items -> objs m !! l = Some o -> countable_refs m items ->
  nl_cache_search ops_at c l m = Some (List.find (same m o) items, found m (List.find (same m o) items)) /\
  cache_ok (found m (List.find (same m o) items)) c x items.
Proof. exact (run_cache_search m c x items l o). Qed.

(** ** Clearing and freeing *)

(** What becomes of an object when [r] references are given back. *)
Definition give_back (r : Z) o : option (nl_object D) :=
  if ce_refcnt o =? r then None else Some (set_refcnt (ce_refcnt o - r) (set_ce_cache None o)).

Lemma after_remove_eq m x l o : objs m !! l = Some o -> after_remove m x l o !! l = give_back (refs x) o.
Proof.
  intros E. unfold after_remove, give_back. destruct (_ =? _); [by rewrite lookup_delete_eq|by rewrite lookup_insert_eq].
Qed.

(** The objects of [items] whose data is freed with the cache. *)
Definition dying m (x : nl_cache) l : bool :=
  match objs m !! l with
  | Some o => (ce_refcnt o =? refs x) && oo_free_data (ops_at (ce_ops o))
  | None => false
  end.

(** The memory [m'] is [m] with the references of a cache on [items] given back. *)
Definition released m m' (x : nl_cache) (items : list positive) : Prop :=
  (forall y, objs m' !! y = if bool_decide (y ∈ items) then objs m !! y ≫= give_back (refs x) else objs m !! y) /\
  freed m' = freed m ++ List.filter (dying m x) items.

Lemma released_nil m m' x : objs m' = objs m -> freed m' = freed m -> released m m' x [].
Proof.
  intros E1 E2. split; [|by rewrite E2; simpl; rewrite app_nil_r].
  intros y. rewrite bool_decide_false by (apply not_elem_of_nil). by rewrite E1.
Qed.

Lemma released_cons m m1 m' x l o items : objs m !! l = Some o -> l ∉ items ->
  objs m1 = after_remove m x l o ->
  freed m1 = (if (ce_refcnt o =? refs x) && oo_free_data (ops_at (ce_ops o)) then freed m ++ [l] else freed m) ->
  released m1 m' x items -> released m m' x (l :: items).
Proof.
  intros E Hni Eo Ef [Ho Hf]. split.
  - intros y. rewrite Ho. destruct (decide (y = l)) as [->|Hne].
    + rewrite bool_decide_false, bool_decide_true by (done || by left). rewrite Eo, (after_remove_eq m x l o E).
      by rewrite E.
    + rewrite Eo, after_remove_ne by done. destruct (decide (y ∈ items)) as [Hy|Hy].
      * by rewrite !bool_decide_true by (done || by right).
      * rewrite !bool_decide_false; [done| |done]. rewrite elem_of_cons. by intros [?|?].
  - rewrite Hf, Ef. simpl. unfold dying at 2. rewrite E.
    assert (List.filter (dying m1 x) items = List.filter (dying m x) items) as ->.
    { clear -Hni Eo. induction items as [|y items IH]; [done|]. simpl. rewrite IH by set_solver.
      unfold dying. by rewrite Eo, after_remove_ne by set_solver. }
    destruct (_ && _); simpl; [by rewrite <- app_assoc|done].
Qed.

Definition cleared (x : nl_cache) h : nl_cache := set_nitems 0 (set_hashtable h x).

Lemma run_clear_from f c : forall items n m x nx, cache_ok m c x items -> (length items < n)%nat ->
  nxt (links m) (after (map Obj items) (Head c)) = Some nx ->
  exists m' h, clear_from ops_at (S (S (S f))) n c (after (map Obj items) (Head c)) nx m = Some (tt, m') /\
    cache_ok m' c (cleared x h) [] /\ released m m' x items /\ caches m' = <[c := cleared x h]> (caches m) /\
    (match hashtable x with Some _ => is_Some h | None => h = None end) /\
    (forall c' x' items', c <> c' -> cache_ok m c' x' items' -> cache_ok m' c' x' items').
Proof.
  induction items as [|l items IH]; intros n m x nx Hc Hn Hnx; destruct n as [|n]; [lia| |lia|].
  - exists m, (hashtable x). assert (cleared x (hashtable x) = x) as Ex.
    { unfold cleared, set_nitems, set_hashtable. pose proof (proj1 (ck_nitems _ _ _ _ Hc)) as E. destruct x.
      simpl in *. by rewrite E. }
    rewrite Ex. split_and!; [cbn; by rewrite bool_decide_true|done|by apply released_nil| |by destruct (hashtable x)|done].
    rewrite insert_id; [done|]. apply (ck_cache _ _ _ _ Hc).
  - destruct (items_live _ _ _ _ Hc l) as [o E]; [by left|].
    assert (nx = after (map Obj items) (Head c)) as ->.
    { pose proof (ck_ring _ _ _ _ Hc) as (_ & _ & Hs). destruct (seg_next _ _ _ _ Hs) as [H _]. change (nxt (links m) (Obj l) = Some nx) in Hnx. congruence. }
    cbn [map after head default clear_from]. rewrite bool_decide_false by done.
    destruct (run_cache_remove_ok f m c x [] l items o Hc E) as (m1 & h1 & E1 & Hc1 & Eo1 & Ef1 & Ec1 & Hh1 & _ & Hoth1).
    unfold id. rewrite (run_bind _ _ _ _ _ E1).
    destruct (seg_is_Some _ _ _ _ (ck_ring _ _ _ _ Hc1) (after (map Obj items) (Head c))) as [e Ee].
    { destruct (after_in (map Obj items) (Head c)) as [H|H]; [by left|by right; right]. }
    rewrite (run_bind _ _ _ _ _ (run_get_link _ _ _ Ee)).
    destruct (IH n m1 (removed x h1) e.1 Hc1) as (m' & h & Er & Hc' & Hrel & Ec' & Hh' & Hoth'); [simpl in Hn; lia|unfold nxt; by rewrite Ee|].
    exists m', h. split_and!; try done.
    + apply released_cons with m1 o; try done.
      * pose proof (ck_nodup _ _ _ _ Hc) as [? _]%NoDup_cons. done.
      * assert (refs (removed x h1) = refs x) as Hrefs by (unfold refs; simpl; by destruct (hashtable x), h1).
        unfold released, dying in *. by rewrite Hrefs in Hrel.
    + rewrite Ec', Ec1. by rewrite insert_insert_eq.
    + cbn in Hh'. destruct (hashtable x); [by destruct Hh1 as [? ->]|by rewrite Hh1 in Hh'].
    + auto.
Qed.

Lemma run_cache_clear f m c x items : cache_ok m c x items ->
  exists m' h, nl_cache_clear ops_at (S (S (S f))) c m = Some (tt, m') /\
    cache_ok m' c (cleared x h) [] /\ released m m' x items /\ caches m' = <[c := cleared x h]> (caches m) /\
    (match hashtable x with Some _ => is_Some h | None => h = None end) /\
    (forall c' x' items', c <> c' -> cache_ok m c' x' items' -> cache_ok m' c' x' items').
Proof.
  intros Hc. unfold nl_cache_clear. pose proof (ck_ring _ _ _ _ Hc) as Hr.
  destruct (seg_next _ _ _ _ Hr) as [Hn _]. destruct (nxt_is_Some _ _ _ Hn) as [e E].
  rewrite (run_bind _ _ _ _ _ (run_get_link _ _ _ E)). unfold nxt in Hn. rewrite E in Hn. injection Hn as ->.
  destruct (seg_is_Some _ _ _ _ Hr (after (map Obj items) (Head c))) as [e' E'].
  { destruct (after_in (map Obj items) (Head c)) as [H|H]; [by left|by right; right]. }
  rewrite (run_bind _ _ _ _ _ (run_get_link _ _ _ E')). apply run_clear_from; [done| |unfold nxt; by rewrite E'].
  pose proof (items_size m items (ck_nodup _ _ _ _ Hc) (items_live _ _ _ _ Hc)). lia.
Qed.

(** The table of an empty cache has no nodes. *)
Lemma table_empty m ht : table_ok m ht [] -> concat (nodes ht) = [].
Proof.
  intros Ht. apply concat_nil_Forall. apply Forall_lookup. intros i chain Hi.
  pose proof (lookup_lt_Some _ _ _ Hi) as Hlt. pose proof (ht_len _ _ _ Ht) as Hlen. unfold zlen in Hlen.
  destruct (ht_chain _ _ _ Ht (Z.of_nat i)) as (chain' & E & Hm & _); [lia|]. rewrite Nat2Z.id, Hi in E. injection E as <-.
  by destruct chain.
Qed.

Lemma cache_ok_refcnt m c x n items : cache_ok m c x items ->
  cache_ok (with_caches (<[c := set_c_refcnt n x]>) m) c (set_c_refcnt n x) items.
Proof.
  intros [Hc Hnd Hr Hit Hn Ht]. constructor; try done.
  - simpl. by rewrite lookup_insert_eq.
  - simpl. destruct (hashtable x); [|done]. by apply table_ok_objs with m.
Qed.

(** C21: [nl_cache_free] of a shared cache only counts; the last reference
    empties the cache and frees it: the list, the hash table and the cache are
    gone, every object gives back the references the cache held, those whose
    last references they were are released, each after its data, in list
    order, the others survive without a cache, and no object outside the cache
    and no other cache is touched. *)
Theorem nl_cache_free_releases fuel m c x items :
  (3 <= fuel)%nat -> cache_ok m c x items -> 1 <= c_refcnt x <= INT_MAX ->
  exists m', nl_cache_free ops_at fuel (Some c) m = Some (tt, m') /\
    (if c_refcnt x =? 1
     then caches m' = delete c (caches m) /\ links m' !! Head c = None /\ released m m' x items
     else m' = with_caches (<[c := set_c_refcnt (c_refcnt x - 1) x]>) m) /\
    (forall c' x' items', c <> c' -> cache_ok m c' x' items' -> cache_ok m' c' x' items').
Proof.
  intros Hf Hc Hr. destruct fuel as [|[|[|f]]]; [lia..|]. unfold nl_cache_free.
  rewrite (run_bind _ _ _ _ _ (run_get_cache _ _ _ (ck_cache _ _ _ _ Hc))).
  rewrite s32_id by (unfold INT_MIN, INT_MAX in *; lia). set (x1 := set_c_refcnt (c_refcnt x - 1) x).
  set (m1 := with_caches (<[c := x1]>) m). assert (put_cache c x1 m = Some (tt, m1)) as E1 by done.
  rewrite (run_bind _ _ _ _ _ E1). pose proof (cache_ok_refcnt m c x (c_refcnt x - 1) items Hc) as Hc1. fold x1 m1 in Hc1.
  assert (forall c' x' items', c <> c' -> cache_ok m c' x' items' -> cache_ok m1 c' x' items') as Hoth.
  { intros c' x' items' Hne Hc'. apply cache_ok_frame with m; try done. simpl. rewrite lookup_insert_ne by done.
    apply (ck_cache _ _ _ _ Hc'). }
  destruct (Z.eqb_spec (c_refcnt x) 1) as [H1|H1].
  2: { rewrite (proj2 (Z.leb_gt _ _)) by lia. by exists m1. }
  rewrite (proj2 (Z.leb_le _ _)) by lia. unfold __nl_cache_free.
  destruct (run_cache_clear f m1 c x1 items Hc1) as (m2 & h & E2 & Hc2 & Hrel & Ec2 & _ & Hoth2).
  rewrite (run_bind _ _ _ _ _ E2). rewrite (run_bind _ _ _ _ _ (run_get_cache _ _ _ (ck_cache _ _ _ _ Hc2))).
  assert ((match hashtable (cleared x1 h) with Some ht => nl_hash_table_free ops_at (S (S (S f))) ht | None => mret tt end)
    m2 = Some (tt, m2)) as Eh.
  { pose proof (ck_table _ _ _ _ Hc2) as Ht. destruct (hashtable (cleared x1 h)) as [ht|]; [|done].
    unfold nl_hash_table_free. by rewrite (table_empty m2 ht Ht). }
  rewrite (run_bind _ _ _ _ _ Eh). eexists. split; [reflexivity|]. set (m3 := Mem _ _ _ _ _).
  split; [|intros c' x' items' Hne Hc'; pose proof (Hoth2 _ _ _ Hne (Hoth _ _ _ Hne Hc')) as Hc3;
           apply cache_ok_frame with m2; [done|simpl; rewrite lookup_delete_ne by done; apply (ck_cache _ _ _ _ Hc3)|done|]].
  - split_and!; [|simpl; by rewrite lookup_delete_eq|exact Hrel].
    simpl. rewrite Ec2, delete_insert_eq. simpl. by rewrite delete_insert_eq.
  - intros n Hn. simpl. rewrite lookup_delete_ne; [done|]. intros <-. destruct Hn as [[= ->]|Hn]; [done|].
    by apply list_elem_of_fmap in Hn as (y & ? & _).
Qed.

(** ** Moving *)

Lemma run_list_nonempty m c items i1 l i2 : seg (links m) (Head c) (map Obj items) (Head c) ->
  items = i1 ++ l :: i2 -> NoDup items -> nl_list_empty (Obj l) m = Some (false, m).
Proof.
  intros Hs -> Hnd. rewrite map_obj_split in Hs. apply seg_app in Hs as [_ Hs].
  destruct (seg_next _ _ _ _ Hs) as [Hn _]. destruct (nxt_is_Some _ _ _ Hn) as [e E].
  unfold nl_list_empty. rewrite (run_bind _ _ _ _ _ (run_get_link _ _ _ E)). unfold nxt in Hn. rewrite E in Hn.
  injection Hn as ->. rewrite bool_decide_false; [done|]. intros H.
  destruct (after_in (map Obj i2) (Head c)) as [H'|H']; rewrite H in H'; [done|].
  apply list_elem_of_fmap in H' as (y & [= <-] & Hy). by apply NoDup_app in Hnd as (_ & _ & [Hn _]%NoDup_cons).
Qed.

(** [nl_cache_move] of an object from one cache to another takes it out of
    the first, list and hash table, and appends it to the second; the
    references of the first cache are given back, those of the second taken,
    and nothing is freed. *)
Theorem nl_cache_move_refines fuel m c1 x1 i1 l i2 c2 x2 items o :
  (3 <= fuel)%nat -> c1 <> c2 -> cache_ok m c1 x1 (i1 ++ l :: i2) -> cache_ok m c2 x2 items ->
  objs m !! l = Some o -> ce_ops o = co_obj_ops (c_ops x2) -> ce_refcnt o < INT_MAX - 1 -> zlen items < INT_MAX ->
  (hashtable x2 <> None -> identical ops_at o o = true) -> add_result m x2 o items = 0 ->
  exists m' h1 h2, nl_cache_move ops_at fuel c2 l m = Some (0, m') /\
    cache_ok m' c1 (removed x1 h1) (i1 ++ i2) /\ cache_ok m' c2 (added x2 h2) (items ++ [l]) /\
    objs m' = <[l := set_refcnt (ce_refcnt o - refs x1 + refs x2) (set_ce_cache (Some c2) o)]> (objs m) /\
    freed m' = freed m.
Proof.
  intros Hf Hne Hc1 Hc2 E Hops Href Hlen Hself Hadd. destruct fuel as [|[|[|f]]]; [lia..|]. unfold nl_cache_move.
  rewrite (run_bind _ _ _ _ _ (run_get_cache _ _ _ (ck_cache _ _ _ _ Hc2))).
  rewrite (run_bind _ _ _ _ _ (run_get_obj _ _ _ E)). rewrite Hops, Z.eqb_refl. cbn [negb].
  destruct (ck_items _ _ _ _ Hc1 l) as (o' & E' & Hcc & _ & Hr); [clear; set_solver|]. rewrite E in E'. injection E' as <-.
  assert (1 <= refs x1 <= 2) as Hr1 by (unfold refs; destruct (hashtable x1); lia).
  rewrite (run_bind _ _ _ _ _ (run_object_get l o m E ltac:(lia) ltac:(unfold INT_MIN; lia))).
  set (o1 := set_refcnt (ce_refcnt o + 1) o). set (m1 := with_objs _ m).
  assert (l ∉ items) as Hni by (apply (caches_disjoint m c1 x1 (i1 ++ l :: i2) c2 x2 items l); try done; clear; set_solver).
  assert (objs m1 !! l = Some o1) as E1 by (unfold m1; simpl; by rewrite lookup_insert_eq).
  assert (cache_ok m1 c1 x1 (i1 ++ l :: i2)) as Hc1'.
  { assert (m1 = found m (Some l)) as -> by (unfold m1, found, with_objs; by rewrite (alter_present _ _ _ _ E)).
    apply cache_ok_found; [done|]. intros y oy [= <-]. rewrite E. intros [= <-]. lia. }
  pose proof (cache_ok_objs_ne m l o1 c2 x2 items Hc2 Hni) as Hc2'. fold m1 in Hc2'.
  rewrite (run_bind _ _ _ _ _ (run_list_nonempty m1 c1 _ i1 l i2 (ck_ring _ _ _ _ Hc1') eq_refl (ck_nodup _ _ _ _ Hc1'))).
  cbn [negb]. destruct (run_cache_remove_ok f m1 c1 x1 i1 l i2 o1 Hc1' E1) as (m2 & h1 & E2 & Hc12 & Eo2 & Ef2 & _ & _ & Hlk & Hoth).
  rewrite (run_bind _ _ _ _ _ E2). unfold after_remove in Eo2.
  rewrite (proj2 (Z.eqb_neq (ce_refcnt o1) (refs x1))) in Eo2, Ef2 by (simpl; lia).
  set (o2 := set_refcnt _ (set_ce_cache None o1)) in Eo2.
  assert (objs m2 !! l = Some o2) as El2 by (rewrite Eo2; by rewrite lookup_insert_eq).
  destruct (run_cache_add_fresh m2 c2 x2 items l o2) as (m3 & h2 & E3 & Hc23 & Eo3 & Ec3 & Elk3 & Ef3 & _); try done.
  - by apply Hoth.
  - apply Hlk. simpl. lia.
  - simpl. lia.
  - intros Hht. unfold add_result in Hadd. destruct (hashtable x2); [|done].
    destruct (List.find (same m o) items) eqn:Ef; [done|]. destruct (malloc_ok _); [|done]. split_and!; [done| |].
    + rewrite <- Hself by done. by apply identical_ext.
    + rewrite <- Ef, (same_insert_ne m1 m2 l o2 items o2 Eo2 Hni). by apply find_same_ne.
  - exists m3, h1, h2. split_and!; try done.
    + eapply (other_cache_add m2 m3 c2 x2 items c1 (removed x1 h1) (i1 ++ i2)); try done; [by apply Hoth|].
      pose proof (ck_nodup _ _ _ _ Hc1) as (_ & Hdis & [Hl2 _]%NoDup_cons)%NoDup_app. rewrite elem_of_app.
      intros [H1|H1]; [|done]. apply (Hdis l H1). by left.
    + rewrite Eo3, Eo2. simpl. rewrite !insert_insert_eq. unfold o2, o1, set_refcnt, set_ce_cache. simpl. do 2 f_equal. lia.
    + by rewrite Ef3, Ef2.
Qed.

End Laws.

End Inv.

(** ** A concrete memory

    Objects of one type, identified by a number; cache 1 is hashed into two
    chains and has the objects 1 and 2, cache 2 is empty and hashed, the object
    3 is detached and the object 4 is a second object with the number of 2. *)

Definition num_ops : nl_object_ops Z :=
  ObjectOps 64 1 (Content 0 0) true (Some (fun n _ => Some n))
    (Some (fun a b _ _ => if ce_data a =? ce_data b then 0 else 1)) None
    (Some (fun a sz => ce_data a mod sz)) None.

Definition num_at (_ : Z) : nl_object_ops Z := num_ops.

Lemma num_identical (a b : nl_object Z) : identical num_at a b = true <->
  ce_ops a = ce_ops b /\ Z.land (ce_mask (ce_content a)) 1 = 1 /\ Z.land (ce_mask (ce_content b)) 1 = 1 /\
  ce_data (ce_content a) = ce_data (ce_content b).
Proof.
  unfold identical, num_at, req_attrs, num_ops. simpl.
  destruct (Z.eqb_spec (ce_ops a) (ce_ops b)); simpl; [|naive_solver].
  destruct (Z.eqb_spec (Z.land (ce_mask (ce_content a)) 1) 1); simpl; [|naive_solver].
  destruct (Z.eqb_spec (Z.land (ce_mask (ce_content b)) 1) 1); simpl; [|naive_solver].
  destruct (Z.eqb_spec (ce_data (ce_content a)) (ce_data (ce_content b))); simpl; naive_solver.
Qed.

#[export] Instance num_laws : ObjectLaws num_at.
Proof.
  constructor.
  - intros a b. rewrite !num_identical. naive_solver.
  - intros a b d. rewrite !num_identical. naive_solver congruence.
  - intros a b sz (_ & _ & _ & E)%num_identical. unfold keygen. simpl. by rewrite E.
  - intros a sz H. unfold keygen. simpl. by apply Z.mod_pos_bound.
Qed.

Definition num_object (r : Z) (c : option positive) (n : Z) : nl_object Z := Object r 7 c 0 0 (Content 1 n).

Definition num_cache (n : Z) (ht : option nl_hash_table) : nl_cache := Cache n 0 0 1 0 ht (CacheOps 7 0 2 [(16, NL_ACT_NEW)]).

Definition sample_table : nl_hash_table := HashTable 2 [[HashNode 0 1%positive]; [HashNode 1 2%positive]].

Definition sample_mem : mem Z := Mem
  (<[1%positive := num_object 2 (Some 1%positive) 10]> (<[2%positive := num_object 3 (Some 1%positive) 11]>
   (<[3%positive := num_object 1 None 12]> (<[4%positive := num_object 2 None 11]> ∅))))
  (<[1%positive := num_cache 2 (Some sample_table)]> (<[2%positive := num_cache 0 (Some (HashTable 2 [[]; []]))]> ∅))
  (<[Head 1 := (Obj 1, Obj 2)]> (<[Obj 1 := (Obj 2, Head 1)]> (<[Obj 2 := (Head 1, Obj 1)]>
   (<[Head 2 := (Head 2, Head 2)]> (<[Obj 3 := (Obj 3, Obj 3)]> (<[Obj 4 := (Obj 4, Obj 4)]> ∅))))))
  [] [].

Lemma sample_table_ok : table_ok num_at sample_mem sample_table [1; 2]%positive.
Proof.
  constructor; [done|done| | |].
  - intros k Hk. assert (k = 0 \/ k = 1) as [-> | ->] by (simpl in Hk; lia);
      (eexists; split; [reflexivity|]; split; [vm_compute; reflexivity|repeat constructor]).
  - intros l o Hl E. apply elem_of_cons in Hl as [->|Hl%list_elem_of_singleton]; [|subst l];
      vm_compute in E; injection E as <-; reflexivity.
  - intros l1 l2 o H1 H2 E Hs.
    apply elem_of_cons in H1 as [->|H1%list_elem_of_singleton]; apply elem_of_cons in H2 as [->|H2%list_elem_of_singleton];
      subst; try done; vm_compute in E; injection E as <-; vm_compute in Hs; discriminate Hs.
Qed.

Lemma sample_cache_ok : cache_ok num_at sample_mem 1 (num_cache 2 (Some sample_table)) [1; 2]%positive.
Proof.
  constructor; [reflexivity|apply (bool_decide_unpack _); vm_compute; done| | |done|exact sample_table_ok].
  - vm_compute. split_and!; reflexivity.
  - intros l Hl. apply elem_of_cons in Hl as [->|Hl%list_elem_of_singleton]; [|subst l];
      (eexists; split; [reflexivity|]; vm_compute; split_and!; congruence).
Qed.

Lemma sample_empty_ok : cache_ok num_at sample_mem 2 (num_cache 0 (Some (HashTable 2 [[]; []]))) [].
Proof.
  constructor; [reflexivity|constructor|vm_compute; split; reflexivity| |done|].
  - intros l Hl. by apply elem_of_nil in Hl.
  - constructor; [done|done| |intros l o Hl; by apply elem_of_nil in Hl|intros l1 l2 o Hl; by apply elem_of_nil in Hl].
    intros k Hk. assert (k = 0 \/ k = 1) as [-> | ->] by (simpl in Hk; lia);
      (eexists; split; [reflexivity|]; split; [reflexivity|constructor]).
Qed.

Lemma nl_cache_add_refines_witness : exists m',
  nl_cache_add (al := sample_alloc) num_at 1 1 3 sample_mem = Some (0, m') /\
  exists h, cache_ok num_at m' 1 (added (num_cache 2 (Some sample_table)) h) [1; 2; 3]%positive.
Proof.
  destruct (nl_cache_add_refines (al := sample_alloc) num_at 1 sample_mem 1 (num_cache 2 (Some sample_table))
    [1; 2]%positive 3 (num_object 1 None 12)) as (m' & E & H & _).
  - lia.
  - exact sample_cache_ok.
  - split; [reflexivity|]. split; reflexivity.
  - reflexivity.
  - vm_compute. split; congruence.
  - reflexivity.
  - reflexivity.
  - exists m'. split; [exact E|]. exact (proj1 H).
Defined.

Lemma nl_cache_remove_refines_witness : exists m' h,
  nl_cache_remove num_at 3 1 sample_mem = Some (tt, m') /\
  cache_ok num_at m' 1 (removed (num_cache 2 (Some sample_table)) h) [2]%positive /\ freed m' = [1%positive].
Proof.
  destruct (nl_cache_remove_refines num_at 3 sample_mem 1 (num_cache 2 (Some sample_table)) [] 1 [2]%positive
    (num_object 2 (Some 1%positive) 10)) as (m' & h & E & H & _ & Hf & _).
  - lia.
  - exact sample_cache_ok.
  - reflexivity.
  - exists m', h. split; [exact E|]. split; [exact H|exact Hf].
Defined.

Lemma nl_cache_search_scans_witness :
  nl_cache_search num_at 1 4 sample_mem = Some (Some 2%positive, found sample_mem (Some 2%positive)) /\
  cache_ok num_at (found sample_mem (Some 2%positive)) 1 (num_cache 2 (Some sample_table)) [1; 2]%positive.
Proof.
  apply (nl_cache_search_scans num_at sample_mem 1 (num_cache 2 (Some sample_table)) [1; 2]%positive 4 (num_object 2 None 11)).
  - exact sample_cache_ok.
  - reflexivity.
  - intros y o Hy E. apply elem_of_cons in Hy as [->|Hy%list_elem_of_singleton]; [|subst y];
      vm_compute in E; injection E as <-; vm_compute; split; congruence.
Defined.

Lemma nl_cache_free_releases_witness : exists m',
  nl_cache_free num_at 3 (Some 1%positive) sample_mem = Some (tt, m') /\
  released num_at sample_mem m' (num_cache 2 (Some sample_table)) [1; 2]%positive.
Proof.
  destruct (nl_cache_free_releases num_at 3 sample_mem 1 (num_cache 2 (Some sample_table)) [1; 2]%positive) as (m' & E & H & _).
  - lia.
  - exact sample_cache_ok.
  - vm_compute. split; congruence.
  - exists m'. split; [exact E|]. exact (proj2 (proj2 H)).
Defined.

Lemma nl_cache_move_refines_witness : exists m' h1 h2,
  nl_cache_move (al := sample_alloc) num_at 3 2 1 sample_mem = Some (0, m') /\
  cache_ok num_at m' 1 (removed (num_cache 2 (Some sample_table)) h1) [2]%positive /\
  cache_ok num_at m' 2 (added (num_cache 0 (Some (HashTable 2 [[]; []]))) h2) [1]%positive.
Proof.
  destruct (nl_cache_move_refines (al := sample_alloc) num_at 3 sample_mem 1 (num_cache 2 (Some sample_table)) [] 1 [2]%positive
    2 (num_cache 0 (Some (HashTable 2 [[]; []]))) [] (num_object 2 (Some 1%positive) 10)) as (m' & h1 & h2 & E & H1 & H2 & _).
  - lia.
  - discriminate.
  - exact sample_cache_ok.
  - exact sample_empty_ok.
  - reflexivity.
  - reflexivity.
  - reflexivity.
  - reflexivity.
  - reflexivity.
  - reflexivity.
  - exists m', h1, h2. split; [exact E|]. split; [exact H1|exact H2].
Defined.

(** What is left of the memory after a run: the reference count of an object. *)
Definition refcnt_after {A} (r : option (A * mem Z)) l : option Z :=
  '(_, m) ← r; o ← objs m !! l; Some (ce_refcnt o).

(** [nl_hash_table_del (ht, obj)] gives back a reference of the object it was
    called with, not of the identical object whose node it frees. *)
Lemma nl_hash_table_del_wrong_object :
  refcnt_after (nl_hash_table_del num_at 2 1 4 sample_mem) 4 = Some 1 /\
  refcnt_after (nl_hash_table_del num_at 2 1 4 sample_mem) 2 = Some 3 /\
  ((fun r => hashtable <$> caches r.2 !! 1%positive) <$> nl_hash_table_del num_at 2 1 4 sample_mem) =
    Some (Some (Some (HashTable 2 [[HashNode 0 1%positive]; []]))).
Proof. vm_compute. auto. Qed.

(** The list pointers of a removed object still point into the list, so that
    [nl_cache_add] takes it for a member of some cache and adds a copy. *)
Lemma nl_cache_add_clones_removed :
  ((_ ← nl_cache_remove num_at 3 2; _ ← nl_cache_add (al := sample_alloc) num_at 3 1 2; elements 1) sample_mem
     ≫= fun r => Some r.1) = Some [1; 5]%positive.
Proof. vm_compute. reflexivity. Qed.

(** When the hash table refuses the object, [nl_cache_move] keeps the reference
    it took: the detached object 4 ends with one more. *)
Lemma nl_cache_move_leaks :
  ((fun r => r.1) <$> nl_cache_move (al := sample_alloc) num_at 3 1 4 sample_mem) = Some (- NLE_EXIST) /\
  refcnt_after (nl_cache_move (al := sample_alloc) num_at 3 1 4 sample_mem) 4 = Some 3.
Proof. vm_compute. auto. Qed.

(** An object without its identifying attributes is identical to no object,
    itself included: [nl_hash_table_del] does not find its node, and
    [nl_cache_remove], which ignores that, leaves the node in the table with a
    reference nobody gives back. *)
Definition anonymous_mem : mem Z := Mem {[1%positive := Object 1 7 None 0 0 (Content 0 11)]}
  {[1%positive := num_cache 0 (Some (HashTable 2 [[]; []]))]} {[Head 1 := (Head 1, Head 1); Obj 1 := (Obj 1, Obj 1)]} [] [].

Lemma nl_cache_remove_leaves_node :
  let run := (_ ← nl_cache_add (al := sample_alloc) num_at 3 1 1; nl_cache_remove num_at 3 1 ;; nl_object_put num_at 3 1) anonymous_mem in
  refcnt_after run 1 = Some 1 /\
  ((fun r => hashtable <$> caches r.2 !! 1%positive) <$> run) = Some (Some (Some (HashTable 2 [[]; [HashNode 1 1%positive]]))).
Proof. vm_compute. auto. Qed.

End NlCacheInv.
