(* ===== verification/NlMngt.v ===== *)
(** * The registry of cache types of libnl ([lib/cache_mngt.c])

    The types of caches of a process are in a linked list; here it is the list
    of their addresses, newest first, next to the structures.  A type counts
    the references to it and has at most one cache that is provided for global
    use, to which the registry holds a reference.  Of a cache only its type and
    its counter matter here; freeing its contents is the subject of
    [NlCacheInv].  The lock has no effect in one thread.  [None] stands for
    [BUG ()] and for the use of a freed cache.

    The theorem: any sequence of calls acts like calls on a map from names to
    types with counted references; no type goes away while somebody uses it. *)

From S2P Require Import Prelude NlCache.
From Stdlib Require Import ZArith Lia.
From stdpp Require Import base list numbers option strings gmap.

Open Scope Z_scope.

Module NlMngt.
Import NlCache (NLE_EXIST).

Definition NLE_INVAL : Z := 7.
Definition NLE_NOCACHE : Z := 24.
Definition NLE_BUSY : Z := 25.

(** ** State *)

(** A message type and its action. *)
Record nl_msgtype := Msgtype { mt_id : Z; mt_act : Z }.

(** [struct nl_cache_ops]; [co_msgtypes] up to the terminating entry. *)
Record nl_cache_ops := Ops {
  co_name : option bytes;
  co_obj_ops : option Z;
  co_protocol : Z;
  co_msgtypes : list nl_msgtype;
  co_flags : Z;
  co_refcnt : Z;
  co_major_cache : option positive
}.

Definition set_co_flags (v : Z) (o : nl_cache_ops) : nl_cache_ops :=
  Ops (co_name o) (co_obj_ops o) (co_protocol o) (co_msgtypes o) v (co_refcnt o) (co_major_cache o).
Definition set_co_refcnt (v : Z) (o : nl_cache_ops) : nl_cache_ops :=
  Ops (co_name o) (co_obj_ops o) (co_protocol o) (co_msgtypes o) (co_flags o) v (co_major_cache o).
Definition set_co_major_cache (v : option positive) (o : nl_cache_ops) : nl_cache_ops :=
  Ops (co_name o) (co_obj_ops o) (co_protocol o) (co_msgtypes o) (co_flags o) (co_refcnt o) v.

Record cache := Cache { c_refcnt : Z; c_ops : positive }.

(** [cache_ops] with the pointers [co_next], the structures and the caches. *)
Record registry := Registry {
  cache_ops : list positive;
  ops_at : gmap positive nl_cache_ops;
  caches : gmap positive cache
}.

Definition set_list (l : list positive) (r : registry) : registry := Registry l (ops_at r) (caches r).
Definition set_ops (p : positive) (o : nl_cache_ops) (r : registry) : registry := Registry (cache_ops r) (<[p := o]> (ops_at r)) (caches r).
Definition set_caches (m : gmap positive cache) (r : registry) : registry := Registry (cache_ops r) (ops_at r) m.

(** The first type of the list for which [f] holds. *)
Fixpoint first_ops (f : nl_cache_ops -> bool) (l : list positive) (m : gmap positive nl_cache_ops) : option positive :=
  match l with
  | [] => None
  | p :: l' => match m !! p with Some o => if f o then Some p else first_ops f l' m | None => None end
  end.

(** ** Lookups and references *)

Definition has_name (name : bytes) (o : nl_cache_ops) : bool :=
  match co_name o with Some n => strcmp_eq n name | None => false end.

Definition __nl_cache_ops_lookup (name : bytes) (r : registry) : option positive := first_ops (has_name name) (cache_ops r) (ops_at r).

Definition nl_cache_ops_get (p : positive) (r : registry) : option registry :=
  o ← ops_at r !! p; Some (set_ops p (set_co_refcnt (u32 (co_refcnt o + 1)) o) r).

Definition nl_cache_ops_put (p : positive) (r : registry) : option registry :=
  o ← ops_at r !! p; Some (set_ops p (set_co_refcnt (u32 (co_refcnt o - 1)) o) r).

Definition nl_cache_ops_lookup (name : bytes) (r : registry) : option positive := __nl_cache_ops_lookup name r.

Definition nl_cache_ops_lookup_safe (name : bytes) (r : registry) : option (option positive * registry) :=
  match __nl_cache_ops_lookup name r with
  | Some p => r ← nl_cache_ops_get p r; Some (Some p, r)
  | None => Some (None, r)
  end.

Definition carries (protocol msgtype : Z) (o : nl_cache_ops) : bool :=
  (co_protocol o =? protocol) && existsb (fun t => mt_id t =? msgtype) (co_msgtypes o).

Definition __cache_ops_associate (protocol msgtype : Z) (r : registry) : option positive :=
  first_ops (carries protocol msgtype) (cache_ops r) (ops_at r).

Definition nl_cache_ops_associate (protocol msgtype : Z) (r : registry) : option positive := __cache_ops_associate protocol msgtype r.

Definition nl_cache_ops_associate_safe (protocol msgtype : Z) (r : registry) : option (option positive * registry) :=
  match __cache_ops_associate protocol msgtype r with
  | Some p => r ← nl_cache_ops_get p r; Some (Some p, r)
  | None => Some (None, r)
  end.

Definition nl_msgtype_lookup (o : nl_cache_ops) (msgtype : Z) : option nl_msgtype := List.find (fun t => mt_id t =? msgtype) (co_msgtypes o).

Definition for_obj (obj_ops : option Z) (o : nl_cache_ops) : bool := bool_decide (co_obj_ops o = obj_ops).

Definition cache_ops_lookup_for_obj (obj_ops : option Z) (r : registry) : option positive := first_ops (for_obj obj_ops) (cache_ops r) (ops_at r).

(** The callback gets every type and changes a state of its own. *)
Definition nl_cache_ops_foreach {S} (cb : nl_cache_ops -> S -> S) (arg : S) (r : registry) : S :=
  fold_left (fun s p => match ops_at r !! p with Some o => cb o s | None => s end) (cache_ops r) arg.

Definition nl_cache_ops_set_flags (p : positive) (flags : Z) (r : registry) : option registry :=
  o ← ops_at r !! p; Some (set_ops p (set_co_flags (Z.lor (co_flags o) (u32 flags)) o) r).

(** ** Registration *)

Definition nl_cache_mngt_register (p : positive) (r : registry) : option (Z * registry) :=
  o ← ops_at r !! p;
  match co_name o, co_obj_ops o with
  | Some name, Some _ =>
      match __nl_cache_ops_lookup name r with
      | Some _ => Some (- NLE_EXIST, r)
      | None => Some (0, set_list (p :: cache_ops r) (set_ops p (set_co_refcnt 0 o) r))
      end
  | _, _ => Some (- NLE_INVAL, r)
  end.

(** The list without the element the loop stops at. *)
Fixpoint unlink (p : positive) (l : list positive) : option (list positive) :=
  match l with
  | [] => None
  | t :: l' => if decide (t = p) then Some l' else l'' ← unlink p l'; Some (t :: l'')
  end.

Definition nl_cache_mngt_unregister (p : positive) (r : registry) : option (Z * registry) :=
  o ← ops_at r !! p;
  if co_refcnt o >? 0 then Some (- NLE_BUSY, r) else
  match unlink p (cache_ops r) with
  | None => Some (- NLE_NOCACHE, r)
  | Some l => Some (0, set_list l r)
  end.

(** ** Global caches *)

Definition nl_cache_get (c : positive) (r : registry) : option registry :=
  x ← caches r !! c; Some (set_caches (<[c := Cache (s32 (c_refcnt x + 1)) (c_ops x)]> (caches r)) r).

Definition nl_cache_free (c : positive) (r : registry) : option registry :=
  x ← caches r !! c;
  let refcnt := s32 (c_refcnt x - 1) in
  Some (set_caches (if refcnt <=? 0 then delete c (caches r) else <[c := Cache refcnt (c_ops x)]> (caches r)) r).

(** [cache->c_ops->co_obj_ops]. *)
Definition obj_ops_of (c : positive) (r : registry) : option (option Z) := x ← caches r !! c; o ← ops_at r !! c_ops x; Some (co_obj_ops o).

Definition nl_cache_mngt_provide (c : positive) (r : registry) : option registry :=
  obj ← obj_ops_of c r;
  p ← cache_ops_lookup_for_obj obj r;
  r ← nl_cache_get c r;
  o ← ops_at r !! p;
  r ← (match co_major_cache o with None => nl_cache_ops_get p r | Some _ => Some r end);
  o ← ops_at r !! p;
  Some (set_ops p (set_co_major_cache (Some c) o) r).

Definition nl_cache_mngt_unprovide (c : positive) (r : registry) : option registry :=
  obj ← obj_ops_of c r;
  p ← cache_ops_lookup_for_obj obj r;
  o ← ops_at r !! p;
  if decide (co_major_cache o = Some c) then
    r ← nl_cache_free c r;
    r ← nl_cache_ops_put p r;
    o ← ops_at r !! p;
    Some (set_ops p (set_co_major_cache None o) r)
  else Some r.

Definition __nl_cache_mngt_require (name : bytes) (r : registry) : option (option positive * registry) :=
  '(ops, r) ← nl_cache_ops_lookup_safe name r;
  match ops with
  | None => Some (None, r)
  | Some p => o ← ops_at r !! p; let cache := co_major_cache o in r ← nl_cache_ops_put p r; Some (cache, r)
  end.

(** What is printed if there is no cache is left out. *)
Definition nl_cache_mngt_require (name : bytes) (r : registry) : option (option positive * registry) := __nl_cache_mngt_require name r.

Definition nl_cache_mngt_require_safe (name : bytes) (r : registry) : option (option positive * registry) :=
  '(cache, r) ← nl_cache_mngt_require name r;
  match cache with
  | None => Some (None, r)
  | Some c => r ← nl_cache_get c r; Some (Some c, r)
  end.

(** ** The registry as a map from names to types *)

Section Spec.

(** What does not change: the names and object types of the types, and the
    type of every cache. *)
Record type_info := TypeInfo { ti_name : option bytes; ti_obj : option Z }.
Context (types : gmap positive type_info) (cache_type : positive -> positive).

(** The registered types by name, the references of users to types, the cache
    that is provided for a type, the references of users to caches. *)
Record spec := Spec {
  s_reg : gmap bytes positive;
  s_refs : positive -> Z;
  s_major : gmap positive positive;
  s_user : positive -> Z
}.

Inductive call :=
  | Register (p : positive) | Unregister (p : positive) | LookupSafe (name : bytes) | PutOps (p : positive)
  | Provide (c : positive) | Unprovide (c : positive) | RequireSafe (name : bytes) | FreeCache (c : positive).

Inductive result := Done | Err (err : Z) | Found (p : option positive).

Definition run1 (k : call) (r : registry) : option (result * registry) :=
  match k with
  | Register p => '(err, r) ← nl_cache_mngt_register p r; Some (Err err, r)
  | Unregister p => '(err, r) ← nl_cache_mngt_unregister p r; Some (Err err, r)
  | LookupSafe name => '(p, r) ← nl_cache_ops_lookup_safe name r; Some (Found p, r)
  | PutOps p => r ← nl_cache_ops_put p r; Some (Done, r)
  | Provide c => r ← nl_cache_mngt_provide c r; Some (Done, r)
  | Unprovide c => r ← nl_cache_mngt_unprovide c r; Some (Done, r)
  | RequireSafe name => '(c, r) ← nl_cache_mngt_require_safe name r; Some (Found c, r)
  | FreeCache c => r ← nl_cache_free c r; Some (Done, r)
  end.

(** The reference a provided cache makes to its type, and the one the registry
    has to the cache. *)
Definition held (s : spec) (p : positive) : Z := match s_major s !! p with Some _ => 1 | None => 0 end.
Definition provided (s : spec) (c : positive) : Z := if decide (s_major s !! cache_type c = Some c) then 1 else 0.

Definition add_at (p : positive) (n : Z) (f : positive -> Z) : positive -> Z := fun q => if decide (q = p) then f p + n else f q.

Definition spec1 (k : call) (s : spec) : result * spec :=
  match k with
  | Register p =>
      match types !! p with
      | Some (TypeInfo (Some name) (Some _)) =>
          match s_reg s !! cstr name with
          | Some _ => (Err (- NLE_EXIST), s)
          | None => (Err 0, Spec (<[cstr name := p]> (s_reg s)) (s_refs s) (s_major s) (s_user s))
          end
      | _ => (Err (- NLE_INVAL), s)
      end
  | Unregister p =>
      if s_refs s p + held s p >? 0 then (Err (- NLE_BUSY), s) else
      match n ← (t ← types !! p; ti_name t); Some (cstr n) with
      | Some n => if decide (s_reg s !! n = Some p) then (Err 0, Spec (delete n (s_reg s)) (s_refs s) (s_major s) (s_user s)) else (Err (- NLE_NOCACHE), s)
      | None => (Err (- NLE_NOCACHE), s)
      end
  | LookupSafe name =>
      match s_reg s !! cstr name with
      | Some p => (Found (Some p), Spec (s_reg s) (add_at p 1 (s_refs s)) (s_major s) (s_user s))
      | None => (Found None, s)
      end
  | PutOps p => (Done, Spec (s_reg s) (add_at p (-1) (s_refs s)) (s_major s) (s_user s))
  | Provide c => (Done, Spec (s_reg s) (s_refs s) (<[cache_type c := c]> (s_major s)) (s_user s))
  | Unprovide c =>
      (Done, if decide (s_major s !! cache_type c = Some c) then Spec (s_reg s) (s_refs s) (delete (cache_type c) (s_major s)) (s_user s) else s)
  | RequireSafe name =>
      match p ← s_reg s !! cstr name; s_major s !! p with
      | Some c => (Found (Some c), Spec (s_reg s) (s_refs s) (s_major s) (add_at c 1 (s_user s)))
      | None => (Found None, s)
      end
  | FreeCache c => (Done, Spec (s_reg s) (s_refs s) (s_major s) (add_at c (-1) (s_user s)))
  end.

(** The type is registered, and the only one with its objects. *)
Definition sole (s : spec) (p : positive) : Prop :=
  (exists n, s_reg s !! n = Some p) /\ forall n q t u, s_reg s !! n = Some q -> types !! q = Some t -> types !! p = Some u -> ti_obj t = ti_obj u -> q = p.

(** What a user may do: give back references he has, provide a cache he has for
    a type that has none. *)
Definition allowed (s : spec) (k : call) : Prop :=
  match k with
  | Register p | Unregister p => is_Some (types !! p)
  | LookupSafe name => forall p, s_reg s !! cstr name = Some p -> s_refs s p + held s p + 1 < 2 ^ 32
  | PutOps p => 0 < s_refs s p
  | Provide c => sole s (cache_type c) /\ s_major s !! cache_type c = None /\ 0 < s_user s c < INT_MAX /\ s_refs s (cache_type c) + 1 < 2 ^ 32
  | Unprovide c => sole s (cache_type c) /\ 0 < s_user s c + provided s c
  | RequireSafe name => forall p c, s_reg s !! cstr name = Some p -> s_major s !! p = Some c -> s_user s c + 1 < INT_MAX
  | FreeCache c => 0 < s_user s c
  end.

(** What ties the state of the code to the map. *)
Record tied (r : registry) (s : spec) : Prop := {
  t_nodup : NoDup (cache_ops r);
  t_types : forall p, match ops_at r !! p, types !! p with
    | Some o, Some t => co_name o = ti_name t /\ co_obj_ops o = ti_obj t /\ co_major_cache o = s_major s !! p /\
        co_refcnt o = s_refs s p + held s p /\ co_refcnt o < 2 ^ 32
    | None, None => True
    | _, _ => False
    end;
  t_refs : forall p, 0 <= s_refs s p;
  t_reg : forall n p, s_reg s !! n = Some p <-> p ∈ cache_ops r /\ exists t name, types !! p = Some t /\ ti_name t = Some name /\ cstr name = n;
  t_listed : forall p, p ∈ cache_ops r -> exists n, s_reg s !! n = Some p;
  t_free : forall p, p ∉ cache_ops r -> s_refs s p = 0 /\ s_major s !! p = None;
  t_major : forall p c, s_major s !! p = Some c -> cache_type c = p;
  t_user : forall c, 0 <= s_user s c;
  t_caches : forall c, match caches r !! c with
    | Some x => c_ops x = cache_type c /\ c_refcnt x = s_user s c + provided s c /\ 0 < c_refcnt x <= INT_MAX
    | None => s_user s c + provided s c = 0
    end
}.

Lemma first_ops_found f l m p : p ∈ l -> (forall q, q ∈ l -> exists o, m !! q = Some o /\ (f o = true <-> q = p)) -> first_ops f l m = Some p.
Proof.
  induction l as [|q l IH]; intros Hp Hall; [by apply elem_of_nil in Hp|]. cbn [first_ops]. destruct (Hall q (list_elem_of_here _ _)) as (o & -> & Hq).
  destruct (f o) eqn:E; [f_equal; by apply Hq|]. apply IH; [|intros x Hx; apply Hall; by apply elem_of_cons; right].
  apply elem_of_cons in Hp as [->|Hp]; [|done]. discriminate (proj2 Hq eq_refl).
Qed.

Lemma first_ops_none f l m : (forall q, q ∈ l -> exists o, m !! q = Some o /\ f o = false) -> first_ops f l m = None.
Proof.
  induction l as [|q l IH]; intros Hall; [done|]. cbn [first_ops]. destruct (Hall q (list_elem_of_here _ _)) as (o & -> & ->).
  apply IH. intros x Hx. apply Hall. by apply elem_of_cons; right.
Qed.

(** A registered type has its name. *)
Lemma tied_listed r s p : tied r s -> p ∈ cache_ops r -> exists o t name, ops_at r !! p = Some o /\ types !! p = Some t /\ ti_name t = Some name /\
  co_name o = Some name /\ co_obj_ops o = ti_obj t /\ s_reg s !! cstr name = Some p.
Proof.
  intros Ht Hp. destruct (t_listed _ _ Ht p Hp) as (n & E). pose proof E as E'. apply (t_reg _ _ Ht) in E as (_ & t & name & Et & En & <-).
  pose proof (t_types _ _ Ht p) as H. rewrite Et in H. destruct (ops_at r !! p) as [o|]; [|done]. destruct H as (H1 & H2 & _). exists o, t, name. split_and!; congruence.
Qed.

Lemma has_name_spec r s p name : tied r s -> p ∈ cache_ops r -> exists o, ops_at r !! p = Some o /\ (has_name name o = true <-> s_reg s !! cstr name = Some p).
Proof.
  intros Ht Hp. destruct (tied_listed r s p Ht Hp) as (o & t & n & E & Et & En & Eo & _ & Er). exists o. split; [done|]. unfold has_name, strcmp_eq. rewrite Eo, bool_decide_eq_true.
  split; [by intros <-|]. intros E'. apply (t_reg _ _ Ht) in E' as (_ & t' & n' & Et' & En' & <-). congruence.
Qed.

Lemma lookup_tied r s name : tied r s -> __nl_cache_ops_lookup name r = s_reg s !! cstr name.
Proof.
  intros Ht. unfold __nl_cache_ops_lookup. destruct (s_reg s !! cstr name) as [p|] eqn:E.
  - apply first_ops_found; [by apply (t_reg _ _ Ht) in E as [? _]|]. intros q Hq. destruct (has_name_spec r s q name Ht Hq) as (o & Eo & Ho). exists o. split; [done|].
    rewrite Ho, E. split; [by intros [= ->]|by intros ->].
  - apply first_ops_none. intros q Hq. destruct (has_name_spec r s q name Ht Hq) as (o & Eo & Ho). exists o. split; [done|]. rewrite E in Ho. destruct (has_name name o); [|done].
    discriminate (proj1 Ho eq_refl).
Qed.

(** The type of a cache that is provided. *)
Lemma for_obj_tied r s p t : tied r s -> sole s p -> types !! p = Some t -> cache_ops_lookup_for_obj (ti_obj t) r = Some p.
Proof.
  intros Ht [(n & En) Hs] Et. apply first_ops_found; [by apply (t_reg _ _ Ht) in En as [? _]|]. intros q Hq.
  destruct (tied_listed r s q Ht Hq) as (o & u & name & E & Eu & _ & _ & Eo & Er). exists o. split; [done|]. unfold for_obj. rewrite bool_decide_eq_true, Eo. split.
  - intros Ei. by apply (Hs _ q u t Er).
  - intros ->. congruence.
Qed.

(** ** Every call does what it means *)

Lemma tied_type r s p t : tied r s -> types !! p = Some t -> exists o, ops_at r !! p = Some o /\ co_name o = ti_name t /\ co_obj_ops o = ti_obj t /\
  co_major_cache o = s_major s !! p /\ co_refcnt o = s_refs s p + held s p /\ 0 <= co_refcnt o < 2 ^ 32.
Proof.
  intros Ht Et. pose proof (t_types _ _ Ht p) as H. rewrite Et in H. destruct (ops_at r !! p) as [o|]; [|done]. destruct H as (H1 & H2 & H3 & H4 & H5).
  exists o. split_and!; try done. pose proof (t_refs _ _ Ht p). unfold held in H4. destruct (s_major s !! p); lia.
Qed.

(** The counter of a registered type goes up or down. *)
Lemma tied_count r s p o n : tied r s -> p ∈ cache_ops r -> ops_at r !! p = Some o -> 0 <= s_refs s p + n -> co_refcnt o + n < 2 ^ 32 ->
  tied (set_ops p (set_co_refcnt (co_refcnt o + n) o) r) (Spec (s_reg s) (add_at p n (s_refs s)) (s_major s) (s_user s)).
Proof.
  intros Ht Hp Eo Hn Hm. constructor; cbn [cache_ops ops_at caches set_ops s_reg s_refs s_major s_user]; try apply Ht.
  - intros q. pose proof (t_types _ _ Ht q) as H. unfold held in *. cbn [s_major]. unfold add_at. destruct (decide (q = p)) as [->|Hq].
    + rewrite lookup_insert_eq. rewrite Eo in H. destruct (types !! p); [|done]. cbn [set_co_refcnt co_name co_obj_ops co_major_cache co_refcnt].
      destruct H as (? & ? & ? & ? & ?). split_and!; try done; lia.
    + by rewrite lookup_insert_ne.
  - intros q. unfold add_at. pose proof (t_refs _ _ Ht q). destruct (decide (q = p)); lia.
  - intros q Hq. unfold add_at. rewrite decide_False by (by intros ->). by apply (t_free _ _ Ht).
Qed.

(** The counter of a cache goes up. *)
Lemma tied_cache_get r s c : tied r s -> 0 < s_user s c + provided s c < INT_MAX -> exists r',
  nl_cache_get c r = Some r' /\ cache_ops r' = cache_ops r /\ ops_at r' = ops_at r /\ tied r' (Spec (s_reg s) (s_refs s) (s_major s) (add_at c 1 (s_user s))).
Proof.
  intros Ht Hc. pose proof (t_caches _ _ Ht c) as Hx. unfold nl_cache_get. destruct (caches r !! c) as [x|] eqn:E; [|lia]. destruct Hx as (H1 & H2 & H3).
  eexists. split; [done|]. split; [done|]. split; [done|]. constructor; cbn [cache_ops ops_at caches set_caches s_reg s_refs s_major s_user]; try apply Ht.
  - intros q. unfold add_at. pose proof (t_user _ _ Ht q). pose proof (t_user _ _ Ht c). destruct (decide (q = c)); lia.
  - intros q. pose proof (t_caches _ _ Ht q) as Hq. unfold provided in *. cbn [s_major]. unfold add_at. destruct (decide (q = c)) as [->|Hne].
    + rewrite lookup_insert_eq. cbn [c_ops c_refcnt]. split; [done|]. rewrite s32_id by (unfold INT_MIN, INT_MAX in *; lia). lia.
    + by rewrite lookup_insert_ne.
Qed.

Lemma cache_alive r s c : tied r s -> 0 < s_user s c + provided s c -> exists x, caches r !! c = Some x /\ c_ops x = cache_type c /\
  c_refcnt x = s_user s c + provided s c /\ 0 < c_refcnt x <= INT_MAX.
Proof. intros Ht Hc. pose proof (t_caches _ _ Ht c) as Hx. destruct (caches r !! c) as [x|]; [|lia]. exists x. split; [done|]. tauto. Qed.

Lemma obj_ops_tied r s c : tied r s -> sole s (cache_type c) -> 0 < s_user s c + provided s c -> exists t,
  types !! cache_type c = Some t /\ obj_ops_of c r = Some (ti_obj t) /\ cache_type c ∈ cache_ops r /\ cache_ops_lookup_for_obj (ti_obj t) r = Some (cache_type c).
Proof.
  intros Ht Hs Hc. destruct (cache_alive r s c Ht Hc) as (x & Ex & Eo & _). pose proof Hs as [(n & En) _].
  apply (t_reg _ _ Ht) in En as (Hl & t & name & Et & _ & _). destruct (tied_type r s _ t Ht Et) as (o & E & _ & Eobj & _).
  exists t. split; [done|]. split; [unfold obj_ops_of; rewrite Ex; cbn [mbind option_bind]; rewrite Eo, E; cbn [mbind option_bind]; by rewrite Eobj|].
  split; [done|]. by apply (for_obj_tied r s).
Qed.

Lemma register_tied r s p : tied r s -> allowed s (Register p) -> exists r',
  run1 (Register p) r = Some (fst (spec1 (Register p) s), r') /\ tied r' (snd (spec1 (Register p) s)).
Proof.
  intros Ht (t & Et). destruct (tied_type r s p t Ht Et) as (o & Eo & En & Eob & Em & Er & Hr). cbn [run1 spec1]. unfold nl_cache_mngt_register. rewrite Eo, Et. cbn [mbind option_bind].
  rewrite En, Eob. destruct t as [[name|] [obj|]]; cbn [ti_name ti_obj] in *; try (by exists r). rewrite (lookup_tied r s) by done.
  destruct (s_reg s !! cstr name) as [q|] eqn:Eq; [by exists r|]. eexists. split; [done|]. cbn [snd].
  assert (p ∉ cache_ops r) as Hp.
  { intros Hp. destruct (tied_listed r s p Ht Hp) as (o' & t' & n' & _ & Et' & En' & _ & _ & Er'). rewrite Et in Et'. injection Et' as <-. injection En' as <-. congruence. }
  destruct (t_free _ _ Ht p Hp) as [Hrf Hmj]. constructor; cbn [cache_ops ops_at caches set_ops set_list s_reg s_refs s_major s_user]; try apply Ht.
  - constructor; [done|apply Ht].
  - intros q. pose proof (t_types _ _ Ht q) as H. unfold held in *. cbn [s_major]. destruct (decide (q = p)) as [->|Hq]; [|by rewrite lookup_insert_ne].
    rewrite lookup_insert_eq, Et. cbn [set_co_refcnt co_name co_obj_ops co_major_cache co_refcnt ti_name ti_obj]. rewrite Hrf, Hmj in *. by split_and!.
  - intros n q. rewrite elem_of_cons. split.
    + rewrite lookup_insert_Some. intros [[<- <-]|[Hn E]]; [split; [by left|]; by exists (TypeInfo (Some name) (Some obj)), name|].
      apply (t_reg _ _ Ht) in E as [Hq He]. split; [by right|done].
    + intros [[->|Hq] (t' & n' & Et' & En' & <-)].
      * rewrite Et in Et'. injection Et' as <-. injection En' as <-. apply lookup_insert_eq.
      * assert (s_reg s !! cstr n' = Some q) as E by (apply (t_reg _ _ Ht); split; [done|]; by exists t', n'). rewrite lookup_insert_ne; [done|congruence].
  - intros q Hq. apply elem_of_cons in Hq as [->|Hq]; [exists (cstr name); apply lookup_insert_eq|]. destruct (t_listed _ _ Ht q Hq) as (n & E). exists n.
    rewrite lookup_insert_ne; [done|congruence].
  - intros q Hq. apply (t_free _ _ Ht). rewrite elem_of_cons in Hq. tauto.
Qed.

Lemma unlink_spec p l : NoDup l -> match unlink p l with
  | Some l' => p ∈ l /\ NoDup l' /\ (p ∉ l') /\ forall q, q ∈ l' <-> q ∈ l /\ q <> p
  | None => p ∉ l
  end.
Proof.
  induction 1 as [|t l Hn Hnd IH]; [cbn; by apply not_elem_of_nil|]. cbn [unlink]. destruct (decide (t = p)) as [->|Hne].
  - split; [by apply list_elem_of_here|]. split; [done|]. split; [done|]. intros q. rewrite elem_of_cons. split; [intros Hq; split; [by right|by intros ->]|]. by intros [[->|Hq] ?].
  - destruct (unlink p l) as [l'|]; cbn [mbind option_bind].
    + destruct IH as (Hp & Hnd' & Hp' & Hl). split; [by apply elem_of_cons; right|]. split; [constructor; [rewrite Hl; tauto|done]|].
      split; [rewrite elem_of_cons; intros [?|?]; [congruence|done]|]. intros q. rewrite !elem_of_cons, Hl. split; [intros [->|[? ?]]; tauto|tauto].
    + rewrite elem_of_cons. intros [?|?]; [congruence|done].
Qed.

Lemma unregister_tied r s p : tied r s -> allowed s (Unregister p) -> exists r',
  run1 (Unregister p) r = Some (fst (spec1 (Unregister p) s), r') /\ tied r' (snd (spec1 (Unregister p) s)).
Proof.
  intros Ht (t & Et). destruct (tied_type r s p t Ht Et) as (o & Eo & En & Eob & Em & Er & Hr). cbn [run1 spec1]. unfold nl_cache_mngt_unregister. rewrite Eo, Et. cbn [mbind option_bind].
  rewrite Er. destruct (s_refs s p + held s p >? 0) eqn:Eb; [by exists r|]. pose proof (unlink_spec p (cache_ops r) (t_nodup _ _ Ht)) as Hu.
  assert (forall n, s_reg s !! n = Some p <-> p ∈ cache_ops r /\ cstr <$> ti_name t = Some n) as Hreg.
  { intros n. rewrite (t_reg _ _ Ht). split; intros [Hl H]; (split; [done|]).
    - destruct H as (t' & name & Et' & En' & <-). rewrite Et in Et'. injection Et' as <-. by rewrite En'.
    - destruct (ti_name t) as [name|] eqn:E; [|done]. injection H as <-. by exists t, name. }
  destruct (unlink p (cache_ops r)) as [l|].
  - destruct Hu as (Hp & Hnd & Hpl & Hl). destruct (tied_listed r s p Ht Hp) as (_ & t' & name & _ & Et' & En' & _ & _ & Ereg). rewrite Et in Et'. injection Et' as <-.
    rewrite En'. cbn [mbind option_bind]. rewrite decide_True by done. eexists. split; [done|]. cbn [snd].
    assert (s_refs s p = 0 /\ s_major s !! p = None) as [Hrf Hmj].
    { pose proof (t_refs _ _ Ht p). unfold held in Eb. destruct (s_major s !! p); split; try done; lia. }
    constructor; cbn [cache_ops ops_at caches set_ops set_list s_reg s_refs s_major s_user]; try apply Ht; try done.
    + intros n q. rewrite lookup_delete_Some, (t_reg _ _ Ht), Hl. split.
      * intros (Hn & Hq & H). split; [|done]. split; [done|]. intros ->. apply Hn. destruct H as (t' & n' & Et' & En'' & <-). congruence.
      * intros ((Hq & Hne) & H). split; [|done]. intros <-. apply Hne. destruct H as (t' & n' & Et' & En'' & E). assert (s_reg s !! cstr name = Some q) by (apply (t_reg _ _ Ht); split; [done|by exists t', n']). congruence.
    + intros q Hq. apply Hl in Hq as [Hq Hne]. destruct (t_listed _ _ Ht q Hq) as (n & E). exists n. rewrite lookup_delete_ne; [done|]. intros <-. congruence.
    + intros q Hq. destruct (decide (q = p)) as [->|Hne]; [done|]. apply (t_free _ _ Ht). intros Hq'. apply Hq, Hl. done.
  - exists r. assert (match n ← ti_name t; Some (cstr n) with Some n => if decide (s_reg s !! n = Some p) then (Err 0, Spec (delete n (s_reg s)) (s_refs s) (s_major s) (s_user s)) else (Err (- NLE_NOCACHE), s)
       | None => (Err (- NLE_NOCACHE), s) end = (Err (- NLE_NOCACHE), s)) as ->; [|done].
    destruct (ti_name t) as [name|]; [|done]. cbn [mbind option_bind]. rewrite decide_False; [done|]. rewrite Hreg. tauto.
Qed.

Lemma lookup_safe_tied r s name : tied r s -> allowed s (LookupSafe name) -> exists r',
  run1 (LookupSafe name) r = Some (fst (spec1 (LookupSafe name) s), r') /\ tied r' (snd (spec1 (LookupSafe name) s)).
Proof.
  intros Ht Ha. cbn [run1 spec1 allowed] in *. unfold nl_cache_ops_lookup_safe. rewrite (lookup_tied r s) by done.
  destruct (s_reg s !! cstr name) as [p|] eqn:E; [|by exists r]. specialize (Ha p eq_refl). pose proof E as E'. apply (t_reg _ _ Ht) in E' as (Hp & t & n & Et & _ & _).
  destruct (tied_type r s p t Ht Et) as (o & Eo & _ & _ & _ & Er & Hr). unfold nl_cache_ops_get. rewrite Eo. cbn [mbind option_bind].
  eexists. split; [done|]. cbn [snd]. unfold u32. rewrite wrap_id by lia. pose proof (t_refs _ _ Ht p). apply tied_count; try done; lia.
Qed.

Lemma put_tied r s p : tied r s -> allowed s (PutOps p) -> exists r', run1 (PutOps p) r = Some (fst (spec1 (PutOps p) s), r') /\ tied r' (snd (spec1 (PutOps p) s)).
Proof.
  intros Ht Ha. cbn [run1 spec1 allowed] in *. assert (p ∈ cache_ops r) as Hp.
  { destruct (decide (p ∈ cache_ops r)) as [|Hn]; [done|]. destruct (t_free _ _ Ht p Hn). lia. }
  destruct (tied_listed r s p Ht Hp) as (_ & t & _ & _ & Et & _). destruct (tied_type r s p t Ht Et) as (o & Eo & _ & _ & _ & Er & Hr).
  unfold nl_cache_ops_put. rewrite Eo. cbn [mbind option_bind]. eexists. split; [done|]. cbn [snd].
  assert (0 <= held s p) by (unfold held; destruct (s_major s !! p); lia). unfold u32. rewrite wrap_id by lia. apply tied_count; try done; lia.
Qed.

Lemma provided_change s p c (m : gmap positive positive) : (forall q d, s_major s !! q = Some d -> cache_type d = q) -> cache_type c = p ->
  (forall q, q <> p -> m !! q = s_major s !! q) -> forall d, d <> c -> s_major s !! p = None \/ s_major s !! p = Some c -> m !! p = None \/ m !! p = Some c ->
  (if decide (m !! cache_type d = Some d) then 1 else 0) = provided s d.
Proof.
  intros Hm Hc Hq d Hd H1 H2. unfold provided. destruct (decide (cache_type d = p)) as [E|E]; [|by rewrite Hq].
  rewrite E, !decide_False; [done|..]; intros E'; [destruct H1 as [?|?]|destruct H2 as [?|?] ]; congruence.
Qed.

Lemma provide_tied r s c : tied r s -> allowed s (Provide c) -> exists r',
  run1 (Provide c) r = Some (fst (spec1 (Provide c) s), r') /\ tied r' (snd (spec1 (Provide c) s)).
Proof.
  intros Ht (Hs & Hmaj & Hu & Hr). cbn [run1 spec1]. assert (provided s c = 0) as Hpc by (unfold provided; by rewrite Hmaj).
  destruct (obj_ops_tied r s c Ht Hs ltac:(lia)) as (t & Et & Eobj & Hl & Efor). unfold nl_cache_mngt_provide. rewrite Eobj. cbn [mbind option_bind]. rewrite Efor. cbn [mbind option_bind].
  destruct (cache_alive r s c Ht ltac:(lia)) as (x & Ex & Ext & Exc & Exr). destruct (tied_type r s _ t Ht Et) as (o & Eo & En & Eob & Em & Er & Hrc).
  unfold nl_cache_get. rewrite Ex. cbn [mbind option_bind set_caches ops_at]. rewrite Eo. cbn [mbind option_bind]. rewrite Em, Hmaj. unfold nl_cache_ops_get. cbn [ops_at set_caches].
  rewrite Eo. cbn [mbind option_bind set_ops ops_at]. rewrite lookup_insert_eq. cbn [mbind option_bind]. eexists. split; [done|]. cbn [snd].
  assert (held s (cache_type c) = 0) as Hh by (unfold held; by rewrite Hmaj).
  unfold u32. rewrite wrap_id by lia. rewrite s32_id by (unfold INT_MIN, INT_MAX in *; lia).
  constructor; cbn [cache_ops ops_at caches set_ops set_list set_caches s_reg s_refs s_major s_user]; try apply Ht.
  - intros q. rewrite insert_insert_eq. pose proof (t_types _ _ Ht q) as H. unfold held in *. cbn [s_major]. destruct (decide (q = cache_type c)) as [->|Hq]; [|by rewrite !lookup_insert_ne].
    rewrite !lookup_insert_eq, Et. cbn [set_co_refcnt set_co_major_cache co_name co_obj_ops co_major_cache co_refcnt]. split_and!; try done; lia.
  - intros q Hq. rewrite lookup_insert_ne by congruence. by apply (t_free _ _ Ht).
  - intros q d. rewrite lookup_insert_Some. intros [[<- <-]|[_ E]]; [done|]. by apply (t_major _ _ Ht).
  - intros d. unfold provided. cbn [s_major s_user]. destruct (decide (d = c)) as [->|Hd].
    + rewrite !lookup_insert_eq, decide_True by done. cbn [c_ops c_refcnt]. split; [done|]. unfold INT_MAX in *. lia.
    + rewrite lookup_insert_ne by done. rewrite (provided_change s (cache_type c) c); [apply (t_caches _ _ Ht d)|apply Ht|done|intros; by rewrite lookup_insert_ne|done|by left|right; apply lookup_insert_eq].
Qed.

Lemma unprovide_tied r s c : tied r s -> allowed s (Unprovide c) -> exists r',
  run1 (Unprovide c) r = Some (fst (spec1 (Unprovide c) s), r') /\ tied r' (snd (spec1 (Unprovide c) s)).
Proof.
  intros Ht (Hs & Hu). cbn [run1 spec1]. destruct (obj_ops_tied r s c Ht Hs Hu) as (t & Et & Eobj & Hl & Efor). unfold nl_cache_mngt_unprovide. rewrite Eobj. cbn [mbind option_bind].
  rewrite Efor. cbn [mbind option_bind]. destruct (tied_type r s _ t Ht Et) as (o & Eo & En & Eob & Em & Er & Hrc). rewrite Eo. cbn [mbind option_bind]. rewrite Em.
  destruct (decide (s_major s !! cache_type c = Some c)) as [Hm|Hm]; [|by exists r]. destruct (cache_alive r s c Ht Hu) as (x & Ex & Ext & Exc & Exr).
  unfold nl_cache_free. rewrite Ex. cbn [mbind option_bind set_caches ops_at]. unfold nl_cache_ops_put. cbn [ops_at set_caches]. rewrite Eo. cbn [mbind option_bind set_ops ops_at].
  rewrite lookup_insert_eq. cbn [mbind option_bind]. eexists. split; [done|]. cbn [snd].
  assert (held s (cache_type c) = 1) as Hh by (unfold held; by rewrite Hm). assert (provided s c = 1) as Hpc by (unfold provided; by rewrite decide_True).
  pose proof (t_refs _ _ Ht (cache_type c)). pose proof (t_user _ _ Ht c). unfold u32. rewrite wrap_id by lia. rewrite s32_id by (unfold INT_MIN, INT_MAX in *; lia).
  constructor; cbn [cache_ops ops_at caches set_ops set_list set_caches s_reg s_refs s_major s_user]; try apply Ht.
  - intros q. rewrite insert_insert_eq. pose proof (t_types _ _ Ht q) as H1. unfold held in *. cbn [s_major]. destruct (decide (q = cache_type c)) as [->|Hq]; [|by rewrite lookup_insert_ne, lookup_delete_ne].
    rewrite lookup_insert_eq, lookup_delete_eq, Et. cbn [set_co_refcnt set_co_major_cache co_name co_obj_ops co_major_cache co_refcnt]. split_and!; try done; lia.
  - intros q Hq. rewrite lookup_delete_ne by congruence. by apply (t_free _ _ Ht).
  - intros q d. rewrite lookup_delete_Some. intros [_ E]. by apply (t_major _ _ Ht).
  - intros d. unfold provided. cbn [s_major s_user]. destruct (decide (d = c)) as [->|Hd].
    + rewrite lookup_delete_eq, decide_False by done. destruct (Z.leb_spec (c_refcnt x - 1) 0); [rewrite lookup_delete_eq; lia|].
      rewrite lookup_insert_eq. cbn [c_ops c_refcnt]. split; [done|]. lia.
    + rewrite (provided_change s (cache_type c) c); [|apply Ht|done|intros; by rewrite lookup_delete_ne|done|by right|left; apply lookup_delete_eq].
      pose proof (t_caches _ _ Ht d) as H1. destruct (c_refcnt x - 1 <=? 0); [by rewrite lookup_delete_ne|by rewrite lookup_insert_ne].
Qed.

Lemma require_tied r s name : tied r s -> allowed s (RequireSafe name) -> exists r',
  run1 (RequireSafe name) r = Some (fst (spec1 (RequireSafe name) s), r') /\ tied r' (snd (spec1 (RequireSafe name) s)).
Proof.
  intros Ht Ha. cbn [run1 spec1 allowed] in *. unfold nl_cache_mngt_require_safe, nl_cache_mngt_require, __nl_cache_mngt_require, nl_cache_ops_lookup_safe.
  rewrite (lookup_tied r s) by done. destruct (s_reg s !! cstr name) as [p|] eqn:E; cbn [mbind option_bind]; [|by exists r].
  pose proof E as E'. apply (t_reg _ _ Ht) in E' as (Hp & t & n & Et & _ & _). destruct (tied_type r s p t Ht Et) as (o & Eo & _ & _ & Em & Er & Hr).
  unfold nl_cache_ops_get. rewrite Eo. cbn [mbind option_bind set_ops ops_at]. rewrite lookup_insert_eq. cbn [mbind option_bind co_major_cache set_co_refcnt].
  unfold nl_cache_ops_put. cbn [ops_at set_ops]. rewrite lookup_insert_eq. cbn [mbind option_bind set_ops set_co_refcnt co_refcnt co_name co_obj_ops co_protocol co_msgtypes co_flags co_major_cache cache_ops ops_at caches].
  rewrite Em. assert (u32 (u32 (co_refcnt o + 1) - 1) = co_refcnt o) as ->.
  { unfold u32, wrap. Z.to_euclidean_division_equations. lia. }
  assert (set_ops p (set_co_refcnt (co_refcnt o) (set_co_refcnt (u32 (co_refcnt o + 1)) o)) (set_ops p (set_co_refcnt (u32 (co_refcnt o + 1)) o) r) = r) as ->.
  { unfold set_ops. cbn [cache_ops ops_at caches]. rewrite insert_insert_eq, insert_id by (rewrite Eo; by destruct o). by destruct r. }
  destruct (s_major s !! p) as [c|] eqn:Ec; cbn [mbind option_bind]; [|by exists r]. specialize (Ha p c eq_refl Ec).
  assert (provided s c = 1) as Hpc by (unfold provided; rewrite (t_major _ _ Ht p c Ec), decide_True by done; done). pose proof (t_user _ _ Ht c).
  destruct (tied_cache_get r s c Ht) as (r' & Eg & _ & _ & Ht'); [lia|]. rewrite Eg. cbn [mbind option_bind]. by exists r'.
Qed.

Lemma free_tied r s c : tied r s -> allowed s (FreeCache c) -> exists r',
  run1 (FreeCache c) r = Some (fst (spec1 (FreeCache c) s), r') /\ tied r' (snd (spec1 (FreeCache c) s)).
Proof.
  intros Ht Ha. cbn [run1 spec1 allowed] in *. assert (0 <= provided s c) as Hp by (unfold provided; destruct (decide _); lia).
  destruct (cache_alive r s c Ht ltac:(lia)) as (x & Ex & Ext & Exc & Exr). unfold nl_cache_free. rewrite Ex. cbn [mbind option_bind]. eexists. split; [done|]. cbn [snd].
  rewrite s32_id by (unfold INT_MIN, INT_MAX in *; lia). constructor; cbn [cache_ops ops_at caches set_caches s_reg s_refs s_major s_user]; try apply Ht.
  - intros q. unfold add_at. pose proof (t_user _ _ Ht q). destruct (decide (q = c)); lia.
  - intros q. pose proof (t_caches _ _ Ht q) as Hq. unfold provided in *. cbn [s_major]. unfold add_at. destruct (decide (q = c)) as [->|Hne].
    + destruct (Z.leb_spec (c_refcnt x - 1) 0); [rewrite lookup_delete_eq; lia|]. rewrite lookup_insert_eq. cbn [c_ops c_refcnt]. split; [done|]. lia.
    + destruct (c_refcnt x - 1 <=? 0); [by rewrite lookup_delete_ne|by rewrite lookup_insert_ne].
Qed.

Lemma run1_tied r s k : tied r s -> allowed s k -> exists r', run1 k r = Some (fst (spec1 k s), r') /\ tied r' (snd (spec1 k s)).
Proof.
  destruct k; [apply register_tied|apply unregister_tied|apply lookup_safe_tied|apply put_tied|apply provide_tied|apply unprovide_tied|apply require_tied|apply free_tied].
Qed.

(** ** Sequences of calls *)

Fixpoint run (ks : list call) (r : registry) : option (list result * registry) :=
  match ks with
  | [] => Some ([], r)
  | k :: ks' => '(x, r) ← run1 k r; '(xs, r) ← run ks' r; Some (x :: xs, r)
  end.

Fixpoint specs (ks : list call) (s : spec) : list result * spec :=
  match ks with
  | [] => ([], s)
  | k :: ks' => let '(x, s) := spec1 k s in let '(xs, s) := specs ks' s in (x :: xs, s)
  end.

Fixpoint all_allowed (s : spec) (ks : list call) : Prop :=
  match ks with [] => True | k :: ks' => allowed s k /\ all_allowed (snd (spec1 k s)) ks' end.

(** C22: the registry is a map from names to types with counted references: for
    every sequence of allowed calls the code returns what the map returns
    (a second type of a name is refused, a type that is used by somebody or by
    a provided cache is busy and stays, a name finds its type), [BUG ()] and a
    freed cache are never reached, and the counters are the references of the
    users plus those of the provided caches. *)
Theorem mngt_refines_map ks : forall r s, tied r s -> all_allowed s ks -> exists r',
  run ks r = Some (fst (specs ks s), r') /\ tied r' (snd (specs ks s)).
Proof.
  induction ks as [|k ks IH]; intros r s Ht Ha; [by exists r|]. destruct Ha as [Hk Ha]. cbn [run specs].
  destruct (run1_tied r s k Ht Hk) as (r1 & -> & Ht1). destruct (spec1 k s) as [x s1]. cbn [fst snd mbind option_bind] in *.
  destruct (IH r1 s1 Ht1 Ha) as (r2 & -> & Ht2). destruct (specs ks s1) as [xs s2]. cbn [fst snd mbind option_bind] in *. by exists r2.
Qed.

End Spec.

(** ** What the lookup of a message type finds *)

(** The newest registered type of the protocol that carries the message. *)
Lemma associate_newest protocol msgtype r p : (forall q, q ∈ cache_ops r -> is_Some (ops_at r !! q)) ->
  nl_cache_ops_associate protocol msgtype r = Some p <->
  exists l1 l2 o, cache_ops r = l1 ++ p :: l2 /\ ops_at r !! p = Some o /\ carries protocol msgtype o = true /\
    forall q o', q ∈ l1 -> ops_at r !! q = Some o' -> carries protocol msgtype o' = false.
Proof.
  unfold nl_cache_ops_associate, __cache_ops_associate. generalize (cache_ops r). intros l Hl. induction l as [|q l IH]; cbn [first_ops].
  - split; [done|]. by intros ([|] & ? & ? & ? & _).
  - destruct (Hl q (list_elem_of_here _ _)) as [o Eo]. rewrite Eo. destruct (carries protocol msgtype o) eqn:Ec.
    + split.
      * intros [= <-]. exists [], l, o. split_and!; try done. intros x o' Hx. by apply elem_of_nil in Hx.
      * intros ([|x l1] & l2 & o' & E & _ & _ & Hb); injection E as -> ->; [done|]. specialize (Hb x o (list_elem_of_here _ _) Eo). congruence.
    + rewrite IH by (intros x Hx; apply Hl; by apply elem_of_cons; right). split.
      * intros (l1 & l2 & o' & -> & Ep & Hc & Hb). exists (q :: l1), l2, o'. split_and!; try done. intros x y Hx Ey. apply elem_of_cons in Hx as [->|Hx]; [congruence|by apply (Hb x)].
      * intros ([|x l1] & l2 & o' & E & Ep & Hc & Hb); injection E as -> E; [congruence|]. exists l1, l2, o'. split_and!; try done.
        intros y o'' Hy. apply Hb. by apply elem_of_cons; right.
Qed.

(** ** Samples *)

Definition link_ops : nl_cache_ops := Ops (Some (str "link")) (Some 1) 0 [Msgtype 16 1; Msgtype 17 2] 0 0 None.
Definition neigh_ops : nl_cache_ops := Ops (Some (str "neigh")) (Some 2) 0 [Msgtype 28 1; Msgtype 29 2] 0 0 None.
Definition other_ops : nl_cache_ops := Ops (Some (str "link")) (Some 3) 0 [] 0 0 None.

(** Nothing is registered; the user has two caches of links. *)
Definition sample_registry : registry :=
  Registry [] (<[1%positive := link_ops]> (<[2%positive := neigh_ops]> {[3%positive := other_ops]}))
    (<[1%positive := Cache 1 1]> {[2%positive := Cache 1 1]}).

Definition sample_types : gmap positive type_info :=
  <[1%positive := TypeInfo (Some (str "link")) (Some 1)]> (<[2%positive := TypeInfo (Some (str "neigh")) (Some 2)]>
    {[3%positive := TypeInfo (Some (str "link")) (Some 3)]}).

Definition sample_spec : spec := Spec ∅ (fun _ => 0) ∅ (fun c => if decide (c = 1 \/ c = 2)%positive then 1 else 0).

Lemma sample_tied : tied sample_types (fun _ => 1%positive) sample_registry sample_spec.
Proof.
  constructor; cbn [cache_ops sample_registry sample_spec s_reg s_refs s_major s_user ops_at caches].
  - constructor.
  - intros p. unfold sample_types. destruct (decide (p = 1%positive)) as [->|H1]; [by vm_compute|]. destruct (decide (p = 2%positive)) as [->|H2]; [by vm_compute|].
    destruct (decide (p = 3%positive)) as [->|H3]; [by vm_compute|]. by rewrite !lookup_insert_ne, !lookup_singleton_ne.
  - done.
  - intros n p. rewrite lookup_empty. split; [done|]. intros [Hp _]. by apply elem_of_nil in Hp.
  - intros p Hp. by apply elem_of_nil in Hp.
  - intros p _. by rewrite lookup_empty.
  - intros p c. by rewrite lookup_empty.
  - intros c. destruct (decide _); lia.
  - intros c. destruct (decide (c = 1%positive)) as [->|H1]; [by vm_compute|]. destruct (decide (c = 2%positive)) as [->|H2]; [by vm_compute|].
    rewrite lookup_insert_ne, lookup_singleton_ne by done. rewrite decide_False by tauto. done.
Qed.

(** A type is registered, a second one of its name is refused, a cache is
    provided and found by name; the type is busy until the cache is taken
    back. *)
Definition sample_calls : list call :=
  [Register 1; Register 3; Register 2; Provide 1; RequireSafe (str "link"); Unregister 1; Unprovide 1; FreeCache 1; Unregister 1;
   LookupSafe (str "link")].

Lemma mngt_refines_map_witness : exists r', run sample_calls sample_registry = Some (fst (specs sample_types (fun _ => 1%positive) sample_calls sample_spec), r') /\
  tied sample_types (fun _ => 1%positive) r' (snd (specs sample_types (fun _ => 1%positive) sample_calls sample_spec)).
Proof.
  apply (mngt_refines_map sample_types (fun _ => 1%positive) sample_calls sample_registry sample_spec sample_tied).
  assert (forall s, map_to_list (s_reg s) = [(str "link", 1%positive); (str "neigh", 2%positive)] -> sole sample_types s 1%positive) as Hsole.
  { intros s Es. split; [exists (str "link"); apply elem_of_map_to_list; rewrite Es; by apply list_elem_of_here|]. intros n q t u. rewrite <- elem_of_map_to_list, Es, !elem_of_cons, elem_of_nil.
    intros [[= _ ->]|[[= _ ->]|[] ] ] Et Eu Eobj; [done|]. vm_compute in Et, Eu. by simplify_eq. }
  refine (conj _ (conj _ (conj _ (conj _ (conj _ (conj _ (conj _ (conj _ (conj _ (conj _ I)))))))))).
  1,2,3,6,9: eexists; vm_compute; reflexivity.
  - split; [apply Hsole; by vm_compute|]. split; [by vm_compute|]. split; by vm_compute.
  - intros p c Ep Ec. vm_compute in Ep. injection Ep as <-. vm_compute in Ec. injection Ec as <-. by vm_compute.
  - split; [apply Hsole; by vm_compute|by vm_compute].
  - by vm_compute.
  - intros p Ep. vm_compute in Ep. discriminate Ep.
Defined.

Example sample_results : fst (specs sample_types (fun _ => 1%positive) sample_calls sample_spec) =
  [Err 0; Err (- NLE_EXIST); Err 0; Done; Found (Some 1%positive); Err (- NLE_BUSY); Done; Done; Err 0; Found None].
Proof. by vm_compute. Qed.

(** ** What the code does not do *)

(** A second cache that is provided for a type takes the place of the first,
    whose reference is not given back: when the user has freed his own, the
    first cache is still there and no call releases it. *)
Theorem provide_leaks : exists r, run [Register 1; Provide 1; Provide 2; Unprovide 1; Unprovide 2; FreeCache 1; FreeCache 2] sample_registry =
  Some ([Err 0; Done; Done; Done; Done; Done; Done], r) /\ caches r = {[1%positive := Cache 1 1]} /\
  run1 (Unprovide 1) r = Some (Done, r) /\ (co_major_cache <$> ops_at r !! 1%positive) = Some None.
Proof. eexists. split; [by vm_compute|]. split_and!; by vm_compute. Qed.

End NlMngt.
