(* ===== verification/NlSocket.v ===== *)
(** * Callback sets, local ports and sockets of libnl ([lib/error.c],
      [lib/handlers.c], [lib/socket.c], [nl_connect] of [lib/nl.c])

    The library keeps a bitmap of the local ports it has given out, the state
    of the walk through it, and the callback sets, which are shared and
    counted.  Functions of the user are values that get their argument, the
    message and a state of the user; what the handlers print is left out.
    [None] is undefined behaviour or a failed assertion ([BUG]).

    The theorems show that the bitmap is a set of 1024 port numbers: a new port
    is one that is not in use, there is none only when all are, and whatever
    the kernel answers [nl_connect] ends and leaves in the set, besides what was
    there, only the port the socket holds. *)

From S2P Require Import Prelude Netlink Syscalls NetRequests NlParse NlAttr.
From Stdlib Require Import ZArith Lia.
From stdpp Require Import base list numbers option gmap sets.

Open Scope Z_scope.

Module NlSocket.
Import Netlink Syscalls.
Import NetRequests (EINTR, AF_NETLINK, SOCK_RAW, SOL_SOCKET, SO_SNDBUF).

(** ** Errors *)

Definition NLE_FAILURE : Z := 1.
Definition NLE_INTR : Z := 2.
Definition NLE_BAD_SOCK : Z := 3.
Definition NLE_AGAIN : Z := 4.
Definition NLE_NOMEM : Z := 5.
Definition NLE_EXIST : Z := 6.
Definition NLE_INVAL : Z := 7.
Definition NLE_RANGE : Z := 8.
Definition NLE_OPNOTSUPP : Z := 10.
Definition NLE_AF_NOSUPPORT : Z := 11.
Definition NLE_OBJ_NOTFOUND : Z := 12.
Definition NLE_NOADDR : Z := 19.
Definition NLE_BUSY : Z := 25.
Definition NLE_PROTO_MISMATCH : Z := 26.
Definition NLE_NOACCESS : Z := 27.
Definition NLE_PERM : Z := 28.
Definition NLE_NODEV : Z := 31.
Definition NLE_MAX : Z := 33.

Definition EADDRINUSE : Z := 98.

(** [abs] of an [int] is undefined for INT_MIN, which no error number is. *)
Definition nl_syserr2nlerr (error : Z) : Z :=
  match Z.abs error with
  | 9 => NLE_BAD_SOCK       (* EBADF *)
  | 98 => NLE_EXIST         (* EADDRINUSE *)
  | 17 => NLE_EXIST         (* EEXIST *)
  | 99 => NLE_NOADDR        (* EADDRNOTAVAIL *)
  | 3 | 2 => NLE_OBJ_NOTFOUND (* ESRCH, ENOENT *)
  | 4 => NLE_INTR           (* EINTR *)
  | 11 => NLE_AGAIN         (* EAGAIN *)
  | 88 => NLE_BAD_SOCK      (* ENOTSOCK *)
  | 92 => NLE_INVAL         (* ENOPROTOOPT *)
  | 14 => NLE_INVAL         (* EFAULT *)
  | 13 => NLE_NOACCESS      (* EACCES *)
  | 22 => NLE_INVAL         (* EINVAL *)
  | 105 => NLE_NOMEM        (* ENOBUFS *)
  | 12 => NLE_NOMEM         (* ENOMEM *)
  | 97 => NLE_AF_NOSUPPORT  (* EAFNOSUPPORT *)
  | 93 => NLE_PROTO_MISMATCH (* EPROTONOSUPPORT *)
  | 95 => NLE_OPNOTSUPP     (* EOPNOTSUPP *)
  | 1 => NLE_PERM           (* EPERM *)
  | 16 => NLE_BUSY          (* EBUSY *)
  | 34 => NLE_RANGE         (* ERANGE *)
  | 19 => NLE_NODEV         (* ENODEV *)
  | _ => NLE_FAILURE
  end.

(** ** Callback sets *)

Definition NL_OK : Z := 0.
Definition NL_SKIP : Z := 1.
Definition NL_STOP : Z := 2.

Definition NL_CB_DEFAULT : Z := 0.
Definition NL_CB_VERBOSE : Z := 1.
Definition NL_CB_DEBUG : Z := 2.
Definition NL_CB_CUSTOM : Z := 3.
Definition NL_CB_KIND_MAX : Z := 3.

Definition NL_CB_VALID : Z := 0.
Definition NL_CB_FINISH : Z := 1.
Definition NL_CB_OVERRUN : Z := 2.
Definition NL_CB_SKIPPED : Z := 3.
Definition NL_CB_ACK : Z := 4.
Definition NL_CB_MSG_IN : Z := 5.
Definition NL_CB_MSG_OUT : Z := 6.
Definition NL_CB_INVALID : Z := 7.
Definition NL_CB_SEQ_CHECK : Z := 8.
Definition NL_CB_SEND_ACK : Z := 9.
Definition NL_CB_DUMP_INTR : Z := 10.
Definition NL_CB_TYPE_MAX : Z := 10.

Record sockaddr_nl := Sockaddr { nl_family : Z; nl_pid : Z; nl_groups : Z }.

Section Handlers.
(** Messages, error messages, [void *] arguments, the state of the user, and
    the types of the functions that replace [nl_recvmsgs], [nl_recv] and
    [nl_send]. *)
Context {msg nlmsgerr A S RM RV SD : Type} {al : Allocator}.
(** The [error] field of an error message. *)
Variable err_code : nlmsgerr -> Z.

Definition msg_cb : Type := msg -> option A -> S -> Z * S.
Definition err_cb : Type := sockaddr_nl -> nlmsgerr -> option A -> S -> Z * S.

Record nl_cb := Cb {
  cb_set : list (option msg_cb);
  cb_args : list (option A);
  cb_err : option err_cb;
  cb_err_arg : option A;
  cb_recvmsgs_ow : option RM;
  cb_recv_ow : option RV;
  cb_send_ow : option SD;
  cb_refcnt : Z;
  cb_active : Z
}.

Definition nl_valid_handler_verbose : msg_cb := fun _ _ s => (NL_OK, s).
Definition nl_invalid_handler_verbose : msg_cb := fun _ _ s => (NL_STOP, s).
Definition nl_overrun_handler_verbose : msg_cb := fun _ _ s => (NL_STOP, s).
Definition nl_error_handler_verbose : err_cb := fun _ e _ s => (- nl_syserr2nlerr (err_code e), s).
Definition nl_valid_handler_debug : msg_cb := fun _ _ s => (NL_OK, s).
Definition nl_finish_handler_debug : msg_cb := fun _ _ s => (NL_STOP, s).
Definition nl_msg_in_handler_debug : msg_cb := fun _ _ s => (NL_OK, s).
Definition nl_msg_out_handler_debug : msg_cb := fun _ _ s => (NL_OK, s).
Definition nl_skipped_handler_debug : msg_cb := fun _ _ s => (NL_SKIP, s).
Definition nl_ack_handler_debug : msg_cb := fun _ _ s => (NL_STOP, s).

(** [cb_def[type][kind]]; an entry that is not given is NULL. *)
Definition cb_def (type kind : Z) : option msg_cb :=
  if type =? NL_CB_VALID then
    (if kind =? NL_CB_VERBOSE then Some nl_valid_handler_verbose
     else if kind =? NL_CB_DEBUG then Some nl_valid_handler_debug else None)
  else if type =? NL_CB_FINISH then (if kind =? NL_CB_DEBUG then Some nl_finish_handler_debug else None)
  else if type =? NL_CB_INVALID then
    (if (kind =? NL_CB_VERBOSE) || (kind =? NL_CB_DEBUG) then Some nl_invalid_handler_verbose else None)
  else if type =? NL_CB_MSG_IN then (if kind =? NL_CB_DEBUG then Some nl_msg_in_handler_debug else None)
  else if type =? NL_CB_MSG_OUT then (if kind =? NL_CB_DEBUG then Some nl_msg_out_handler_debug else None)
  else if type =? NL_CB_OVERRUN then
    (if (kind =? NL_CB_VERBOSE) || (kind =? NL_CB_DEBUG) then Some nl_overrun_handler_verbose else None)
  else if type =? NL_CB_SKIPPED then (if kind =? NL_CB_DEBUG then Some nl_skipped_handler_debug else None)
  else if type =? NL_CB_ACK then (if kind =? NL_CB_DEBUG then Some nl_ack_handler_debug else None)
  else None.

Definition cb_err_def (kind : Z) : option err_cb :=
  if (kind =? NL_CB_VERBOSE) || (kind =? NL_CB_DEBUG) then Some nl_error_handler_verbose else None.

Definition set_callback (cb : nl_cb) (type : Z) (f : option msg_cb) (arg : option A) : nl_cb :=
  Cb (<[Z.to_nat type := f]> (cb_set cb)) (<[Z.to_nat type := arg]> (cb_args cb)) (cb_err cb) (cb_err_arg cb)
    (cb_recvmsgs_ow cb) (cb_recv_ow cb) (cb_send_ow cb) (cb_refcnt cb) (cb_active cb).

Definition nl_cb_set (cb : nl_cb) (type kind : Z) (func : option msg_cb) (arg : option A) : nl_cb * Z :=
  if (type <? 0) || (type >? NL_CB_TYPE_MAX) then (cb, - NLE_RANGE) else
  if (kind <? 0) || (kind >? NL_CB_KIND_MAX) then (cb, - NLE_RANGE) else
  if kind =? NL_CB_CUSTOM then (set_callback cb type func arg, 0)
  else (set_callback cb type (cb_def type kind) arg, 0).

(** [for (i = 0; i <= NL_CB_TYPE_MAX; i++)], from [i] on, [k] types left. *)
Fixpoint set_types (k : nat) (i : Z) (cb : nl_cb) (kind : Z) (func : option msg_cb) (arg : option A) : nl_cb * Z :=
  match k with
  | O => (cb, 0)
  | Datatypes.S k' =>
      let '(cb, err) := nl_cb_set cb i kind func arg in
      if err <? 0 then (cb, err) else set_types k' (i + 1) cb kind func arg
  end.

Definition nl_cb_set_all (cb : nl_cb) (kind : Z) (func : option msg_cb) (arg : option A) : nl_cb * Z :=
  set_types 11 0 cb kind func arg.

Definition nl_cb_err (cb : nl_cb) (kind : Z) (func : option err_cb) (arg : option A) : nl_cb * Z :=
  if (kind <? 0) || (kind >? NL_CB_KIND_MAX) then (cb, - NLE_RANGE) else
  let f := if kind =? NL_CB_CUSTOM then func else cb_err_def kind in
  (Cb (cb_set cb) (cb_args cb) f arg (cb_recvmsgs_ow cb) (cb_recv_ow cb) (cb_send_ow cb) (cb_refcnt cb) (cb_active cb), 0).

(** [sizeof (struct nl_cb)]. *)
Definition nl_cb_size : Z := 224.

(** What [nl_cb_alloc] puts into the block. *)
Definition fresh_cb (kind : Z) : nl_cb :=
  let cb := Cb (replicate 11 None) (replicate 11 None) None None None None None 1 (NL_CB_TYPE_MAX + 1) in
  fst (nl_cb_err (fst (set_types 11 0 cb kind None None)) kind None None).

(** [cb->cb_set[type] (msg, cb->cb_args[type])]; a null pointer is called when
    no function is set.  [cb_active], which is set for the time of the call,
    has the value of an idle set again behind it. *)
Definition nl_cb_call (cb : nl_cb) (type : Z) (m : msg) (s : S) : option (Z * S) :=
  f ← mjoin (cb_set cb !! Z.to_nat type); arg ← cb_args cb !! Z.to_nat type; Some (f m arg s).

Definition nl_cb_active_type (cb : nl_cb) : Z := cb_active cb.

Definition nl_cb_overwrite_recvmsgs (cb : nl_cb) (f : option RM) : nl_cb :=
  Cb (cb_set cb) (cb_args cb) (cb_err cb) (cb_err_arg cb) f (cb_recv_ow cb) (cb_send_ow cb) (cb_refcnt cb) (cb_active cb).
Definition nl_cb_overwrite_recv (cb : nl_cb) (f : option RV) : nl_cb :=
  Cb (cb_set cb) (cb_args cb) (cb_err cb) (cb_err_arg cb) (cb_recvmsgs_ow cb) f (cb_send_ow cb) (cb_refcnt cb) (cb_active cb).
Definition nl_cb_overwrite_send (cb : nl_cb) (f : option SD) : nl_cb :=
  Cb (cb_set cb) (cb_args cb) (cb_err cb) (cb_err_arg cb) (cb_recvmsgs_ow cb) (cb_recv_ow cb) f (cb_refcnt cb) (cb_active cb).

Definition set_cb_refcnt (n : Z) (cb : nl_cb) : nl_cb :=
  Cb (cb_set cb) (cb_args cb) (cb_err cb) (cb_err_arg cb) (cb_recvmsgs_ow cb) (cb_recv_ow cb) (cb_send_ow cb) n (cb_active cb).

(** ** The state of the library *)

Record lib := Lib { used_ports_map : list Z; idx_state : Z; cbs : gmap positive nl_cb }.

Definition N (B : Type) : Type := lib * world -> option (B * (lib * world)).

#[export] Instance N_ret : MRet N := fun B b st => Some (b, st).
#[export] Instance N_bind : MBind N := fun B C f x st => '(b, st') ← x st; f b st'.

Definition lift {B} (x : io B) : N B := fun st => '(b, w) ← x (snd st); Some (b, (fst st, w)).
Definition get_lib : N lib := fun st => Some (fst st, st).
Definition put_lib (l : lib) : N unit := fun st => Some (tt, (l, snd st)).
Definition bug {B} : N B := fun _ => None.

Definition get_cb (c : positive) : N nl_cb := fun st => cb ← cbs (fst st) !! c; Some (cb, st).
Definition put_cb (c : positive) (cb : nl_cb) : N unit := fun st =>
  Some (tt, (Lib (used_ports_map (fst st)) (idx_state (fst st)) (<[c := cb]> (cbs (fst st))), snd st)).
Definition free_cb (c : positive) : N unit := fun st =>
  Some (tt, (Lib (used_ports_map (fst st)) (idx_state (fst st)) (delete c (cbs (fst st))), snd st)).

Definition nl_cb_alloc (kind : Z) : N (option positive) :=
  if (kind <? 0) || (kind >? NL_CB_KIND_MAX) then mret None else
  if negb (malloc_ok nl_cb_size) then mret None else
  l ← get_lib;
  let c := fresh (dom (cbs l) : gset positive) in
  put_cb c (fresh_cb kind) ;; mret (Some c).

Definition nl_cb_clone (orig : positive) : N (option positive) :=
  p ← nl_cb_alloc NL_CB_DEFAULT;
  match p with
  | None => mret None
  | Some c => o ← get_cb orig; put_cb c (set_cb_refcnt 1 o) ;; mret (Some c)
  end.

Definition nl_cb_get (c : positive) : N positive :=
  cb ← get_cb c; put_cb c (set_cb_refcnt (s32 (cb_refcnt cb + 1)) cb) ;; mret c.

Definition nl_cb_put (p : option positive) : N unit :=
  match p with
  | None => mret tt
  | Some c =>
      cb ← get_cb c;
      let n := s32 (cb_refcnt cb - 1) in
      put_cb c (set_cb_refcnt n cb) ;;
      if n <? 0 then bug else if n <=? 0 then free_cb c else mret tt
  end.

End Handlers.

Arguments nl_cb : clear implicits.
Arguments lib : clear implicits.

(** ** Local ports *)

Definition NL_SOCK_BUFSIZE_SET : Z := 1.
Definition NL_SOCK_PASSCRED : Z := 2.
Definition NL_OWN_PORT : Z := 4.
Definition NL_MSG_PEEK : Z := 8.
Definition NL_NO_AUTO_ACK : Z := 16.
Definition UINT32_MAX : Z := 4294967295.
Definition SOCK_CLOEXEC : Z := 524288.
Definition SOL_NETLINK : Z := 270.
Definition NETLINK_ADD_MEMBERSHIP : Z := 1.
Definition NETLINK_DROP_MEMBERSHIP : Z := 2.
Definition NETLINK_PKTINFO : Z := 3.
Definition SO_RCVBUF : Z := 8.
Definition SO_PASSCRED : Z := 16.
Definition F_SETFL : Z := 4.
Definition O_NONBLOCK : Z := 2048.

(** The loop over [m]: the first bit that is free, [k] steps of 13 from [n]
    on; [inr] is [n] after the loop. *)
Fixpoint pick_bit (k : nat) (word n : Z) : Z + Z :=
  match k with
  | O => inr n
  | S k' =>
      let n := (n + 13) mod 32 in
      if negb (Z.land 1 (Z.shiftr word n) =? 0) then pick_bit k' word n else inl n
  end.

(** The loop over [j], [k] rounds left: block and bit. *)
Fixpoint pick_block (k : nat) (map : list Z) (i n : Z) : option (option (Z * Z)) :=
  match k with
  | O => Some None
  | S k' =>
      let i := match k' with O => 0 | S _ => Z.rem (i - 1 + 7) 31 + 1 end in
      word ← map !! Z.to_nat i;
      if word =? 4294967295 then pick_block k' map i n else
      match pick_bit 32 word n with
      | inl n => Some (Some (i, n))
      | inr n => pick_block k' map i n
      end
  end.

(** The number of a port, and the port of a number. *)
Definition port_nr (port : Z) : Z := Z.shiftr port 22.
Definition port_of (pid n : Z) : Z := u32 (pid + u32 (Z.shiftl n 22)).

Definition release_local_port (map : list Z) (port : Z) : option (list Z) :=
  if port =? UINT32_MAX then Some map else
  if port =? 0 then None else
  let nr := port_nr port in
  let mask := Z.shiftl 1 (nr mod 32) in
  word ← map !! Z.to_nat (nr / 32);
  if negb (Z.land word mask =? mask) then None else
  Some (<[Z.to_nat (nr / 32) := Z.land word (u32 (Z.lnot mask))]> map).

(** The inner loop, from the first block with a bit on. *)
Fixpoint release_from (map used_ports : list Z) : option (list Z) :=
  match map, used_ports with
  | w :: map', u :: used' =>
      if negb (Z.land w u =? u) then None else
      rest ← release_from map' used'; Some (Z.land w (u32 (Z.lnot u)) :: rest)
  | _, _ => Some map
  end.

Fixpoint _nl_socket_used_ports_release_all (map used_ports : list Z) : option (list Z) :=
  match map, used_ports with
  | w :: map', u :: used' =>
      if negb (u =? 0) then release_from map used_ports
      else rest ← _nl_socket_used_ports_release_all map' used'; Some (w :: rest)
  | _, _ => Some map
  end.

Definition _nl_socket_used_ports_set (used_ports : list Z) (port : Z) : list Z :=
  let nr := port_nr port in
  alter (fun u => Z.lor u (Z.shiftl 1 (nr mod 32))) (Z.to_nat (nr / 32)) used_ports.

(** ** Sockets *)

Record nl_sock := Sock {
  s_local : sockaddr_nl;
  s_peer : sockaddr_nl;
  s_fd : Z;
  s_proto : Z;
  s_seq_next : Z;
  s_seq_expect : Z;
  s_flags : Z;
  s_cb : positive;
  s_bufsize : Z
}.

Definition set_local (a : sockaddr_nl) (sk : nl_sock) : nl_sock :=
  Sock a (s_peer sk) (s_fd sk) (s_proto sk) (s_seq_next sk) (s_seq_expect sk) (s_flags sk) (s_cb sk) (s_bufsize sk).
Definition set_peer (a : sockaddr_nl) (sk : nl_sock) : nl_sock :=
  Sock (s_local sk) a (s_fd sk) (s_proto sk) (s_seq_next sk) (s_seq_expect sk) (s_flags sk) (s_cb sk) (s_bufsize sk).
Definition set_fd (fd : Z) (sk : nl_sock) : nl_sock :=
  Sock (s_local sk) (s_peer sk) fd (s_proto sk) (s_seq_next sk) (s_seq_expect sk) (s_flags sk) (s_cb sk) (s_bufsize sk).
Definition set_proto (p : Z) (sk : nl_sock) : nl_sock :=
  Sock (s_local sk) (s_peer sk) (s_fd sk) p (s_seq_next sk) (s_seq_expect sk) (s_flags sk) (s_cb sk) (s_bufsize sk).
Definition set_seq_next (n : Z) (sk : nl_sock) : nl_sock :=
  Sock (s_local sk) (s_peer sk) (s_fd sk) (s_proto sk) n (s_seq_expect sk) (s_flags sk) (s_cb sk) (s_bufsize sk).
Definition set_seq_expect (n : Z) (sk : nl_sock) : nl_sock :=
  Sock (s_local sk) (s_peer sk) (s_fd sk) (s_proto sk) (s_seq_next sk) n (s_flags sk) (s_cb sk) (s_bufsize sk).
Definition set_flags (f : Z) (sk : nl_sock) : nl_sock :=
  Sock (s_local sk) (s_peer sk) (s_fd sk) (s_proto sk) (s_seq_next sk) (s_seq_expect sk) f (s_cb sk) (s_bufsize sk).
Definition set_cb (c : positive) (sk : nl_sock) : nl_sock :=
  Sock (s_local sk) (s_peer sk) (s_fd sk) (s_proto sk) (s_seq_next sk) (s_seq_expect sk) (s_flags sk) c (s_bufsize sk).
Definition set_bufsize (n : Z) (sk : nl_sock) : nl_sock :=
  Sock (s_local sk) (s_peer sk) (s_fd sk) (s_proto sk) (s_seq_next sk) (s_seq_expect sk) (s_flags sk) (s_cb sk) n.
Definition with_pid (pid : Z) (a : sockaddr_nl) : sockaddr_nl := Sockaddr (nl_family a) pid (nl_groups a).

(** The flags of a socket: set, clear, test. *)
Definition flag_on (f : Z) (sk : nl_sock) : nl_sock := set_flags (Z.lor (s_flags sk) f) sk.
Definition flag_off (f : Z) (sk : nl_sock) : nl_sock := set_flags (Z.land (s_flags sk) (Z.lnot f)) sk.
Definition has_flag (f : Z) (sk : nl_sock) : bool := negb (Z.land (s_flags sk) f =? 0).

Definition nl_socket_use_seq (sk : nl_sock) : nl_sock * Z := (set_seq_next (u32 (s_seq_next sk + 1)) sk, s_seq_next sk).
Definition nl_socket_disable_auto_ack (sk : nl_sock) : nl_sock := flag_on NL_NO_AUTO_ACK sk.
Definition nl_socket_enable_auto_ack (sk : nl_sock) : nl_sock := flag_off NL_NO_AUTO_ACK sk.
Definition _nl_socket_is_local_port_unspecified (sk : nl_sock) : bool := nl_pid (s_local sk) =? 0.
Definition nl_join_groups (sk : nl_sock) (groups : Z) : nl_sock :=
  set_local (Sockaddr (nl_family (s_local sk)) (nl_pid (s_local sk)) (u32 (Z.lor (nl_groups (s_local sk)) groups))) sk.
Definition nl_socket_get_peer_port (sk : nl_sock) : Z := nl_pid (s_peer sk).
Definition nl_socket_set_peer_port (sk : nl_sock) (port : Z) : nl_sock := set_peer (with_pid port (s_peer sk)) sk.
Definition nl_socket_get_peer_groups (sk : nl_sock) : Z := nl_groups (s_peer sk).
Definition nl_socket_set_peer_groups (sk : nl_sock) (groups : Z) : nl_sock :=
  set_peer (Sockaddr (nl_family (s_peer sk)) (nl_pid (s_peer sk)) groups) sk.
Definition nl_socket_get_fd (sk : nl_sock) : Z := s_fd sk.
Definition nl_socket_enable_msg_peek (sk : nl_sock) : nl_sock := flag_on NL_MSG_PEEK sk.
Definition nl_socket_disable_msg_peek (sk : nl_sock) : nl_sock := flag_off NL_MSG_PEEK sk.
Definition nl_socket_set_msg_buf_size (sk : nl_sock) (bufsize : Z) : nl_sock := set_bufsize bufsize sk.
Definition nl_socket_get_msg_buf_size (sk : nl_sock) : Z := s_bufsize sk.

Section Sockets.
Context {msg nlmsgerr A S RM RV SD : Type} {al : Allocator} {kernel : Kernel}.
Variable err_code : nlmsgerr -> Z.
(** [getpid ()]. *)
Variable getpid : Z.

Abbreviation N := (@N msg nlmsgerr A S RM RV SD).

Definition sys (c : call) : N reply := lift (syscall c).
Definition get_map : N (list Z) := l ← get_lib; mret (used_ports_map l).
Definition put_map (m : list Z) : N unit := l ← get_lib; put_lib (Lib m (idx_state l) (cbs l)).

(** The new value of the static [idx_state], a [uint16_t]. *)
Definition step_idx : N Z :=
  l ← get_lib;
  idx ← (if idx_state l =? 0 then
           r ← sys Time;
           let t := u32 (rc r) in mret (u16 (Z.lxor (Z.lxor t (Z.shiftr t 16)) 12359))
         else mret (u16 (idx_state l + 20011)));
  put_lib (Lib (used_ports_map l) idx (cbs l)) ;; mret idx.

Definition generate_local_port : N Z :=
  let pid := Z.land getpid 4194303 in
  idx ← step_idx;
  map ← get_map;
  match pick_block 32 map (Z.shiftr idx 5) idx with
  | None => bug
  | Some (Some (i, n)) =>
      match map !! Z.to_nat i with
      | Some word =>
          put_map (<[Z.to_nat i := Z.lor word (Z.shiftl 1 n)]> map) ;;
          mret (port_of pid (n + i * 32))
      | None => bug
      end
  | Some None => mret UINT32_MAX
  end.

Definition _nl_socket_generate_local_port_no_release (sk : nl_sock) : N (nl_sock * Z) :=
  port ← generate_local_port;
  mret (set_local (with_pid port (s_local sk)) (flag_off NL_OWN_PORT sk), port).

Definition nl_socket_get_local_port (sk : nl_sock) : N (nl_sock * Z) :=
  if nl_pid (s_local sk) =? 0 then _nl_socket_generate_local_port_no_release sk
  else mret (sk, nl_pid (s_local sk)).

Definition of_option {B} (x : option B) : N B := match x with Some b => mret b | None => bug end.

(** [if (!(sk->s_flags & NL_OWN_PORT)) release_local_port (...)]. *)
Definition give_port_back (sk : nl_sock) : N unit :=
  if negb (has_flag NL_OWN_PORT sk) then
    map ← get_map; map ← of_option (release_local_port map (nl_pid (s_local sk))); put_map map
  else mret tt.

Definition nl_socket_set_local_port (sk : nl_sock) (port : Z) : N nl_sock :=
  give_port_back sk ;;
  mret (set_local (with_pid port (s_local sk)) (flag_on NL_OWN_PORT sk)).

(** [sizeof (struct nl_sock)]. *)
Definition nl_sock_size : Z := 64.

Definition __alloc_socket (c : positive) : N (option nl_sock) :=
  if negb (malloc_ok nl_sock_size) then mret None else
  c ← nl_cb_get c;
  r ← sys Time;
  let t := u32 (rc r) in
  mret (Some (Sock (Sockaddr AF_NETLINK 0 0) (Sockaddr AF_NETLINK 0 0) (-1) 0 t t NL_OWN_PORT c 0)).

(** [default_cb] is set from the environment at the start. *)
Definition nl_socket_alloc (default_cb : Z) : N (option nl_sock) :=
  p ← nl_cb_alloc err_code default_cb;
  match p with
  | None => mret None
  | Some c => sk ← __alloc_socket c; nl_cb_put (Some c) ;; mret sk
  end.

Definition nl_socket_alloc_cb (p : option positive) : N (option nl_sock) :=
  match p with None => bug | Some c => __alloc_socket c end.

Definition nl_socket_free (p : option nl_sock) : N unit :=
  match p with
  | None => mret tt
  | Some sk =>
      (if s_fd sk >=? 0 then _ ← sys (Close (s_fd sk)); mret tt else mret tt) ;;
      give_port_back sk ;;
      nl_cb_put (Some (s_cb sk))
  end.

Definition noop_seq_check : @msg_cb msg A S := fun _ _ s => (NL_OK, s).

Definition nl_socket_modify_cb (sk : nl_sock) (type kind : Z) (func : option msg_cb) (arg : option A) : N Z :=
  cb ← get_cb (s_cb sk);
  let '(cb, err) := nl_cb_set cb type kind func arg in put_cb (s_cb sk) cb ;; mret err.

Definition nl_socket_modify_err_cb (sk : nl_sock) (kind : Z) (func : option err_cb) (arg : option A) : N Z :=
  cb ← get_cb (s_cb sk);
  let '(cb, err) := nl_cb_err err_code cb kind func arg in put_cb (s_cb sk) cb ;; mret err.

Definition nl_socket_disable_seq_check (sk : nl_sock) : N unit :=
  _ ← nl_socket_modify_cb sk NL_CB_SEQ_CHECK NL_CB_CUSTOM (Some noop_seq_check) None; mret tt.

Definition nl_socket_get_cb (sk : nl_sock) : N positive := nl_cb_get (s_cb sk).

Definition nl_socket_set_cb (sk : nl_sock) (p : option positive) : N nl_sock :=
  match p with
  | None => bug
  | Some c => nl_cb_put (Some (s_cb sk)) ;; c ← nl_cb_get c; mret (set_cb c sk)
  end.

(** [setsockopt] with the error code of the library. *)
Definition sockopt (sk : nl_sock) (level name value : Z) : N Z :=
  r ← sys (Setsockopt (s_fd sk) level name value);
  mret (if rc r <? 0 then - nl_syserr2nlerr (errno r) else 0).

(** The groups up to the terminating 0. *)
Fixpoint memberships (sk : nl_sock) (name : Z) (groups : list Z) : N Z :=
  match groups with
  | [] => mret 0
  | g :: groups' =>
      if g =? 0 then mret 0 else if g <? 0 then mret (- NLE_INVAL) else
      err ← sockopt sk SOL_NETLINK name g;
      if err <? 0 then mret err else memberships sk name groups'
  end.

Definition nl_socket_add_memberships (sk : nl_sock) (groups : list Z) : N Z :=
  if s_fd sk =? -1 then mret (- NLE_BAD_SOCK) else memberships sk NETLINK_ADD_MEMBERSHIP groups.
Definition nl_socket_add_membership (sk : nl_sock) (group : Z) : N Z := nl_socket_add_memberships sk [group; 0].
Definition nl_socket_drop_memberships (sk : nl_sock) (groups : list Z) : N Z :=
  if s_fd sk =? -1 then mret (- NLE_BAD_SOCK) else memberships sk NETLINK_DROP_MEMBERSHIP groups.
Definition nl_socket_drop_membership (sk : nl_sock) (group : Z) : N Z := nl_socket_drop_memberships sk [group; 0].

Definition nl_socket_set_nonblocking (sk : nl_sock) : N Z :=
  if s_fd sk =? -1 then mret (- NLE_BAD_SOCK) else
  r ← sys (Fcntl (s_fd sk) F_SETFL O_NONBLOCK);
  mret (if rc r <? 0 then - nl_syserr2nlerr (errno r) else 0).

Definition nl_socket_set_buffer_size (sk : nl_sock) (rxbuf txbuf : Z) : N (nl_sock * Z) :=
  let rxbuf := if rxbuf <=? 0 then 32768 else rxbuf in
  let txbuf := if txbuf <=? 0 then 32768 else txbuf in
  if s_fd sk =? -1 then mret (sk, - NLE_BAD_SOCK) else
  err ← sockopt sk SOL_SOCKET SO_SNDBUF txbuf;
  if err <? 0 then mret (sk, err) else
  err ← sockopt sk SOL_SOCKET SO_RCVBUF rxbuf;
  if err <? 0 then mret (sk, err) else mret (flag_on NL_SOCK_BUFSIZE_SET sk, 0).

Definition nl_socket_set_passcred (sk : nl_sock) (state : Z) : N (nl_sock * Z) :=
  if s_fd sk =? -1 then mret (sk, - NLE_BAD_SOCK) else
  err ← sockopt sk SOL_SOCKET SO_PASSCRED state;
  if err <? 0 then mret (sk, err)
  else mret (if negb (state =? 0) then flag_on NL_SOCK_PASSCRED sk else flag_off NL_SOCK_PASSCRED sk, 0).

Definition nl_socket_recv_pktinfo (sk : nl_sock) (state : Z) : N Z :=
  if s_fd sk =? -1 then mret (- NLE_BAD_SOCK) else sockopt sk SOL_NETLINK NETLINK_PKTINFO state.

(** ** Connecting *)

Definition bind_local (sk : nl_sock) : N reply :=
  sys (BindAddr (s_fd sk) (nl_family (s_local sk)) (nl_pid (s_local sk)) (nl_groups (s_local sk))).

Definition release_all (used_ports : list Z) : N unit :=
  map ← get_map; map ← of_option (_nl_socket_used_ports_release_all map used_ports); put_map map.

(** [while (1)]: 0, or the error; at most [fuel] rounds. *)
Fixpoint bind_retry (fuel : nat) (sk : nl_sock) (used_ports : list Z) : N (nl_sock * Z) :=
  match fuel with
  | O => bug
  | Datatypes.S fuel' =>
      '(sk, port) ← _nl_socket_generate_local_port_no_release sk;
      if port =? UINT32_MAX then release_all used_ports ;; mret (sk, - NLE_EXIST) else
      r ← bind_local sk;
      if rc r =? 0 then release_all used_ports ;; mret (sk, 0) else
      if errno r =? EADDRINUSE then bind_retry fuel' sk (_nl_socket_used_ports_set used_ports port)
      else release_all used_ports ;; mret (sk, - nl_syserr2nlerr (errno r))
  end.

(** [struct sockaddr_nl] as bytes. *)
Definition addr_bytes (a : sockaddr_nl) : bytes :=
  le_bytes 2 (nl_family a) ++ le_bytes 2 0 ++ le_bytes 4 (nl_pid a) ++ le_bytes 4 (nl_groups a).
Definition addr_of (b : bytes) : sockaddr_nl := Sockaddr (get_le 0 2 b) (get_le 4 4 b) (get_le 8 4 b).

Definition errout (sk : nl_sock) (err : Z) : N (nl_sock * Z) :=
  if negb (s_fd sk =? -1) then _ ← sys (Close (s_fd sk)); mret (set_fd (-1) sk, err) else mret (sk, err).

(** After [bind]: read the address back. *)
Definition read_address (sk : nl_sock) (protocol : Z) : N (nl_sock * Z) :=
  r ← sys (Getsockname (s_fd sk));
  if rc r <? 0 then errout sk (- nl_syserr2nlerr (errno r)) else
  let sk := set_local (addr_of (splice 0 (take 12 (payload r)) (addr_bytes (s_local sk)))) sk in
  if negb (aux r =? 12) then errout sk (- NLE_NOADDR) else
  if negb (nl_family (s_local sk) =? AF_NETLINK) then errout sk (- NLE_AF_NOSUPPORT) else
  mret (set_proto protocol sk, 0).

Definition nl_connect (fuel : nat) (sk : nl_sock) (protocol : Z) : N (nl_sock * Z) :=
  if negb (s_fd sk =? -1) then mret (sk, - NLE_BAD_SOCK) else
  r ← sys (Socket AF_NETLINK (Z.lor SOCK_RAW SOCK_CLOEXEC) protocol);
  let sk := set_fd (rc r) sk in
  if s_fd sk <? 0 then errout sk (- nl_syserr2nlerr (errno r)) else
  '(sk, err) ← (if negb (has_flag NL_SOCK_BUFSIZE_SET sk) then nl_socket_set_buffer_size sk 0 0 else mret (sk, 0));
  if err <? 0 then errout sk err else
  '(sk, err) ← (if _nl_socket_is_local_port_unspecified sk then bind_retry fuel sk (replicate 32 0)
                else r ← bind_local sk;
                     mret (sk, if negb (rc r =? 0) then - nl_syserr2nlerr (errno r) else 0));
  if negb (err =? 0) then errout sk err else
  read_address sk protocol.

Definition nl_close (sk : nl_sock) : N nl_sock :=
  sk ← (if s_fd sk >=? 0 then _ ← sys (Close (s_fd sk)); mret (set_fd (-1) sk) else mret sk);
  mret (set_proto 0 sk).

End Sockets.

(** ** The bitmap as a set of numbers *)

Definition in_use (map : list Z) (k : Z) : bool :=
  match map !! Z.to_nat (k / 32) with Some w => Z.testbit w (k mod 32) | None => false end.

Definition word_ok (w : Z) : Prop := 0 <= w < 2 ^ 32.

Definition map_ok (map : list Z) : Prop := length map = 32%nat /\ Forall word_ok map.

Lemma bit_clear w n : (Z.land 1 (Z.shiftr w n) =? 0) = negb (Z.testbit w n).
Proof.
  rewrite Z.land_comm. change 1 with (Z.ones 1). rewrite Z.land_ones by lia.
  rewrite <- Z.bit0_mod, Z.shiftr_spec by lia. rewrite Z.add_0_l. by destruct (Z.testbit w n).
Qed.

Lemma word_full w : word_ok w -> (forall b, 0 <= b < 32 -> Z.testbit w b = true) -> w = 4294967295.
Proof.
  intros Hw Hb. change 4294967295 with (Z.ones 32). apply Z.bits_inj'. intros b Hb0.
  rewrite Z.testbit_ones_nonneg by lia. destruct (Z.ltb_spec b 32); [by apply Hb|].
  rewrite <- (Z.mod_small w (2 ^ 32)) by exact Hw. by apply Z.mod_pow2_bits_high.
Qed.

Lemma full_bits b : 0 <= b < 32 -> Z.testbit 4294967295 b = true.
Proof. intros Hb. change 4294967295 with (Z.ones 32). rewrite Z.testbit_ones_nonneg by lia. apply Z.ltb_lt. lia. Qed.

Lemma pick_bit_inl k w n b : pick_bit k w n = inl b -> 0 <= b < 32 /\ Z.testbit w b = false.
Proof.
  revert n. induction k as [|k IH]; intros n; cbn [pick_bit]; [done|]. rewrite bit_clear, negb_involutive.
  destruct (Z.testbit w ((n + 13) mod 32)) eqn:E; [apply IH|]. intros [= <-]. split; [|done]. apply Z.mod_pos_bound. lia.
Qed.

Lemma pick_bit_inr k w n n' : pick_bit k w n = inr n' ->
  (forall j, 1 <= j <= Z.of_nat k -> Z.testbit w ((n + 13 * j) mod 32) = true) /\ (0 <= n -> 0 <= n').
Proof.
  revert n. induction k as [|k IH]; intros n; cbn [pick_bit]; [intros [= <-]; split; [lia|done]|].
  rewrite bit_clear, negb_involutive. destruct (Z.testbit w ((n + 13) mod 32)) eqn:E; [|done].
  intros [H1 H2]%IH. pose proof (Z.mod_pos_bound (n + 13) 32). split; [|intros; apply H2; lia]. intros j Hj.
  destruct (decide (j = 1)) as [->|]; [by rewrite Z.mul_1_r|]. rewrite <- (H1 (j - 1)) by lia.
  f_equal. rewrite Zplus_mod_idemp_l. f_equal. lia.
Qed.

(** Steps of 13 reach every bit. *)
Lemma pick_bit_all w n n' : word_ok w -> pick_bit 32 w n = inr n' -> w = 4294967295.
Proof.
  intros Hw [H _]%pick_bit_inr. apply word_full; [done|]. intros b Hb.
  rewrite <- (H (((b - n) * 5 - 1) mod 32 + 1)) by (pose proof (Z.mod_pos_bound ((b - n) * 5 - 1) 32); lia).
  f_equal. Z.to_euclidean_division_equations. lia.
Qed.

(** The block after [t] steps. *)
Definition block_at (i t : Z) : Z := (i - 1 + 7 * t) mod 31 + 1.

Lemma block_at_range i t : 1 <= block_at i t <= 31.
Proof. unfold block_at. pose proof (Z.mod_pos_bound (i - 1 + 7 * t) 31). lia. Qed.

Lemma block_step i : 0 <= i -> Z.rem (i - 1 + 7) 31 + 1 = block_at i 1.
Proof. intros Hi. unfold block_at. rewrite Z.rem_mod_nonneg by lia. do 2 f_equal. Qed.

Lemma block_at_next i t : block_at (block_at i 1) t = block_at i (t + 1).
Proof.
  unfold block_at. replace (_ + 1 - 1 + 7 * t) with ((i - 1 + 7 * 1) mod 31 + 7 * t) by lia.
  rewrite Zplus_mod_idemp_l. do 2 f_equal. lia.
Qed.

Definition full (map : list Z) (i : Z) : Prop := map !! Z.to_nat i = Some 4294967295.

Lemma pick_block_spec k map i n : map_ok map -> 0 <= i -> 0 <= n -> exists r, pick_block k map i n = Some r /\
  match r with
  | Some (i', n') => 0 <= i' < 32 /\ 0 <= n' < 32 /\ exists w, map !! Z.to_nat i' = Some w /\ Z.testbit w n' = false
  | None => (forall t, 1 <= t < Z.of_nat k -> full map (block_at i t)) /\ ((0 < k)%nat -> full map 0)
  end.
Proof.
  intros [Hlen Hw]. revert i n. induction k as [|k IH]; intros i n Hi Hn; cbn [pick_block].
  { exists None. split; [done|]. split; lia. }
  set (i1 := match k with O => 0 | S _ => Z.rem (i - 1 + 7) 31 + 1 end).
  assert (i1 = if (k =? 0)%nat then 0 else block_at i 1) as Ei1.
  { unfold i1. destruct k; [done|]. by rewrite block_step. }
  assert (0 <= i1 < 32) as Hi1.
  { rewrite Ei1. destruct (k =? 0)%nat; [lia|]. pose proof (block_at_range i 1). lia. }
  destruct (lookup_lt_is_Some_2 map (Z.to_nat i1)) as [w Ew]; [lia|]. rewrite Ew. cbn [mbind option_bind].
  assert (word_ok w) as Hww by (by apply (Forall_lookup_1 _ _ _ _ Hw Ew)).
  assert (full map i1 -> forall n1, 0 <= n1 -> exists r, pick_block k map i1 n1 = Some r /\
    match r with
    | Some (i', n') => 0 <= i' < 32 /\ 0 <= n' < 32 /\ exists w, map !! Z.to_nat i' = Some w /\ Z.testbit w n' = false
    | None => (forall t, 1 <= t < Z.of_nat (S k) -> full map (block_at i t)) /\ ((0 < S k)%nat -> full map 0)
    end) as Hgo.
  { intros Hfull n1 Hn1. destruct (IH i1 n1 (proj1 Hi1) Hn1) as (r & E & Hr). exists r. split; [done|].
    destruct r as [[i' n']|]; [done|]. destruct Hr as [H1 H2]. rewrite Ei1 in Hfull, H1. destruct k as [|k].
    - split; [lia|]. by intros _.
    - cbn [Nat.eqb] in *. split; [|intros _; apply H2; lia]. intros t Ht.
      destruct (decide (t = 1)) as [->|]; [done|]. rewrite <- (Z.sub_add 1 t), <- block_at_next. apply H1. lia. }
  destruct (Z.eqb_spec w 4294967295) as [->|Hne]; [by apply Hgo|].
  destruct (pick_bit 32 w n) as [b|n'] eqn:Eb.
  - apply pick_bit_inl in Eb as [Hb Ht]. exists (Some (i1, b)). split; [done|]. split_and!; [lia..|]. eauto.
  - by apply pick_bit_all in Eb.
Qed.

(** Steps of 7 reach every block but the first, which comes last. *)
Lemma pick_block_none map i n : map_ok map -> 0 <= i -> 0 <= n -> pick_block 32 map i n = Some None ->
  forall b, 0 <= b < 32 -> full map b.
Proof.
  intros Hm Hi Hn E b Hb. destruct (pick_block_spec 32 map i n Hm Hi Hn) as (r & E' & Hr). rewrite E in E'.
  injection E' as <-. destruct Hr as [H1 H2]. destruct (decide (b = 0)) as [->|]; [by apply H2; lia|].
  assert (b = block_at i (((b - i) * 9 - 1) mod 31 + 1)) as ->.
  { unfold block_at. Z.to_euclidean_division_equations. lia. }
  apply H1. pose proof (Z.mod_pos_bound ((b - i) * 9 - 1) 31). lia.
Qed.

(** The map with a word replaced. *)
Lemma in_use_insert map i w k : 0 <= i < 32 -> map_ok map -> 0 <= k < 1024 ->
  in_use (<[Z.to_nat i := w]> map) k = if k / 32 =? i then Z.testbit w (k mod 32) else in_use map k.
Proof.
  intros Hi [Hlen _] Hk. unfold in_use. assert (0 <= k / 32 < 32) by (Z.to_euclidean_division_equations; lia).
  destruct (Z.eqb_spec (k / 32) i) as [->|Hne].
  - by rewrite list_lookup_insert_eq by lia.
  - by rewrite list_lookup_insert_ne by lia.
Qed.

Lemma map_ok_insert map i w : map_ok map -> word_ok w -> map_ok (<[i := w]> map).
Proof. intros [Hlen Hw] H. split; [by rewrite length_insert|by apply Forall_insert]. Qed.

Lemma lor_bit_ok w n : word_ok w -> 0 <= n < 32 -> word_ok (Z.lor w (Z.shiftl 1 n)).
Proof.
  intros [H0 H1] Hn. assert (0 <= Z.lor w (Z.shiftl 1 n)) as Hp.
  { apply Z.lor_nonneg. split; [done|]. apply Z.shiftl_nonneg. lia. }
  split; [done|]. destruct (decide (Z.lor w (Z.shiftl 1 n) = 0)) as [->|Hne]; [lia|].
  apply Z.log2_lt_pow2; [lia|]. rewrite Z.log2_lor by (try apply Z.shiftl_nonneg; lia).
  rewrite Z.shiftl_1_l, Z.log2_pow2 by lia. apply Z.max_lub_lt; [|lia].
  destruct (decide (w = 0)) as [->|]; [simpl; lia|]. apply Z.log2_lt_pow2; lia.
Qed.

Lemma testbit_bit n b : 0 <= n -> 0 <= b -> Z.testbit (Z.shiftl 1 n) b = (b =? n).
Proof.
  intros Hn Hb. rewrite Z.shiftl_1_l. destruct (Z.eqb_spec b n) as [->|H]; [by apply Z.pow2_bits_true|].
  by apply Z.pow2_bits_false.
Qed.

(** Setting the bit of a free number adds it to the set. *)
Lemma in_use_set map i n w k : map_ok map -> map !! Z.to_nat i = Some w -> 0 <= i < 32 -> 0 <= n < 32 ->
  0 <= k < 1024 -> in_use (<[Z.to_nat i := Z.lor w (Z.shiftl 1 n)]> map) k = in_use map k || (k =? n + i * 32).
Proof.
  intros Hm Ew Hi Hn Hk. rewrite in_use_insert by done. assert (0 <= k mod 32 < 32) by (Z.to_euclidean_division_equations; lia).
  destruct (Z.eqb_spec (k / 32) i) as [He|Hne].
  - rewrite Z.lor_spec, testbit_bit by lia. unfold in_use. rewrite He, Ew. f_equal.
    destruct (Z.eqb_spec (k mod 32) n), (Z.eqb_spec k (n + i * 32)); try done; exfalso; Z.to_euclidean_division_equations; lia.
  - destruct (Z.eqb_spec k (n + i * 32)) as [->|]; [|by rewrite orb_false_r].
    exfalso. apply Hne. Z.to_euclidean_division_equations. lia.
Qed.

Lemma in_use_at map i n w : map !! Z.to_nat i = Some w -> 0 <= n < 32 -> in_use map (n + i * 32) = Z.testbit w n.
Proof.
  intros Ew Hn. unfold in_use. replace ((n + i * 32) / 32) with i by (Z.to_euclidean_division_equations; lia).
  replace ((n + i * 32) mod 32) with n by (Z.to_euclidean_division_equations; lia). by rewrite Ew.
Qed.

Lemma full_in_use map k : (forall b, 0 <= b < 32 -> full map b) -> 0 <= k < 1024 -> in_use map k = true.
Proof.
  intros H Hk. unfold in_use. rewrite (H (k / 32)) by (Z.to_euclidean_division_equations; lia).
  apply full_bits. apply Z.mod_pos_bound. lia.
Qed.

(** Taking a mask out of a word. *)
Lemma land_lnot_ok w m : word_ok w -> word_ok (Z.land w (u32 (Z.lnot m))).
Proof.
  intros Hw. set (x := u32 _). assert (Z.land w x = Z.land w x mod 2 ^ 32) as ->; [|apply Z.mod_pos_bound; lia].
  apply Z.bits_inj'. intros b Hb. destruct (Z.ltb_spec b 32); [by rewrite Z.mod_pow2_bits_low by lia|].
  rewrite Z.mod_pow2_bits_high, Z.land_spec by lia. rewrite <- (Z.mod_small w (2 ^ 32)) by exact Hw.
  by rewrite Z.mod_pow2_bits_high by lia.
Qed.

Lemma land_lnot_bit w m b : word_ok w -> 0 <= b < 32 ->
  Z.testbit (Z.land w (u32 (Z.lnot m))) b = Z.testbit w b && negb (Z.testbit m b).
Proof.
  intros Hw Hb. rewrite Z.land_spec. unfold u32, wrap. rewrite Z.mod_pow2_bits_low by lia. by rewrite Z.lnot_spec by lia.
Qed.

(** ** The port of a number *)

Lemma port_of_eq pid n : 0 <= pid <= 4194303 -> 0 <= n < 1024 -> port_of pid n = pid + n * 4194304.
Proof.
  intros Hp Hn. unfold port_of, u32. rewrite Z.shiftl_mul_pow2 by lia. change (2 ^ 22) with 4194304.
  rewrite (wrap_id 32 (n * 4194304)) by lia. apply wrap_id. lia.
Qed.

Lemma port_nr_of pid n : 0 <= pid <= 4194303 -> 0 <= n < 1024 -> port_nr (port_of pid n) = n.
Proof.
  intros Hp Hn. rewrite port_of_eq by done. unfold port_nr. rewrite Z.shiftr_div_pow2 by lia.
  change (2 ^ 22) with 4194304. Z.to_euclidean_division_equations. lia.
Qed.

Lemma release_local_port_spec map pid n : map_ok map -> 0 < pid < 4194303 -> 0 <= n < 1024 -> in_use map n = true ->
  exists map', release_local_port map (port_of pid n) = Some map' /\ map_ok map' /\
    forall k, 0 <= k < 1024 -> in_use map' k = in_use map k && negb (k =? n).
Proof.
  intros Hm Hp Hn Hu. unfold release_local_port. rewrite port_nr_of, port_of_eq by lia. unfold UINT32_MAX.
  rewrite (proj2 (Z.eqb_neq _ 4294967295)), (proj2 (Z.eqb_neq _ 0)) by lia.
  assert (0 <= n / 32 < 32 /\ 0 <= n mod 32 < 32) as [Hi Hb] by (Z.to_euclidean_division_equations; lia).
  destruct Hm as [Hlen Hw]. destruct (lookup_lt_is_Some_2 map (Z.to_nat (n / 32))) as [w Ew]; [lia|].
  assert (word_ok w) as Hww by (by apply (Forall_lookup_1 _ _ _ _ Hw Ew)). rewrite Ew. cbn [mbind option_bind].
  assert (Z.land w (Z.shiftl 1 (n mod 32)) = Z.shiftl 1 (n mod 32)) as ->.
  { apply Z.bits_inj'. intros b Hb0. rewrite Z.land_spec, testbit_bit by lia.
    destruct (Z.eqb_spec b (n mod 32)) as [->|]; [|by rewrite andb_false_r]. rewrite andb_true_r.
    unfold in_use in Hu. by rewrite Ew in Hu. }
  rewrite Z.eqb_refl. cbn [negb]. eexists. split; [done|]. split.
  - apply map_ok_insert; [done|]. by apply land_lnot_ok.
  - intros k Hk. rewrite in_use_insert by done. assert (0 <= k mod 32 < 32) by (Z.to_euclidean_division_equations; lia).
    destruct (Z.eqb_spec (k / 32) (n / 32)) as [He|Hne].
    + rewrite land_lnot_bit, testbit_bit by (done || lia). unfold in_use. rewrite He, Ew. do 2 f_equal.
      destruct (Z.eqb_spec (k mod 32) (n mod 32)), (Z.eqb_spec k n); try done; exfalso; subst; try lia.
      apply n0. Z.to_euclidean_division_equations. lia.
    + destruct (Z.eqb_spec k n) as [->|]; [done|]. by rewrite andb_true_r.
Qed.

(** ** Releasing the ports that were tried *)

Definition clear (w u : Z) : Z := Z.land w (u32 (Z.lnot u)).

Definition covers (w u : Z) : Prop := word_ok w /\ Z.land w u = u.

Lemma clear_0 w : word_ok w -> clear w 0 = w.
Proof.
  intros Hw. unfold clear. apply Z.bits_inj'. intros b Hb. destruct (Z.ltb_spec b 32).
  - rewrite land_lnot_bit by (done || lia). by rewrite Z.bits_0, andb_true_r.
  - rewrite Z.land_spec. rewrite <- (Z.mod_small w (2 ^ 32)) by exact Hw. by rewrite Z.mod_pow2_bits_high by lia.
Qed.

Lemma release_from_eq map us : Forall2 covers map us -> release_from map us = Some (zip_with clear map us).
Proof.
  induction 1 as [|w u map us [Hw Hc] _ IH]; [done|]. cbn [release_from zip_with]. rewrite Hc, Z.eqb_refl. cbn [negb].
  by rewrite IH.
Qed.

Lemma release_all_eq map us : Forall2 covers map us ->
  _nl_socket_used_ports_release_all map us = Some (zip_with clear map us).
Proof.
  induction 1 as [|w u map us [Hw Hc] Hrest IH]; [done|]. cbn [_nl_socket_used_ports_release_all].
  destruct (Z.eqb_spec u 0) as [->|Hu]; cbn [negb].
  - rewrite IH. cbn [mbind option_bind zip_with]. by rewrite clear_0.
  - apply (release_from_eq (w :: map) (u :: us)). by constructor.
Qed.

Lemma word_covers w u : word_ok w -> word_ok u -> (forall b, 0 <= b < 32 -> Z.testbit u b = true -> Z.testbit w b = true) ->
  covers w u.
Proof.
  intros Hw Hu H. split; [done|]. apply Z.bits_inj'. intros b Hb. rewrite Z.land_spec.
  destruct (Z.testbit u b) eqn:E; [|by rewrite andb_false_r]. rewrite andb_true_r. apply H; [|done].
  split; [done|]. destruct (Z.ltb_spec b 32); [done|]. rewrite <- (Z.mod_small u (2 ^ 32)) in E by exact Hu.
  by rewrite Z.mod_pow2_bits_high in E by lia.
Qed.

Lemma release_all_spec map us : map_ok map -> map_ok us ->
  (forall k, 0 <= k < 1024 -> in_use us k = true -> in_use map k = true) ->
  exists map', _nl_socket_used_ports_release_all map us = Some map' /\ map_ok map' /\
    forall k, 0 <= k < 1024 -> in_use map' k = in_use map k && negb (in_use us k).
Proof.
  intros [Hl1 Hw1] [Hl2 Hw2] Hsub. exists (zip_with clear map us). split_and!.
  - apply release_all_eq. apply Forall2_same_length_lookup. split; [lia|]. intros i w u Ew Eu.
    pose proof (lookup_lt_Some _ _ _ Ew). apply word_covers; [by apply (Forall_lookup_1 _ _ _ _ Hw1 Ew)|by apply (Forall_lookup_1 _ _ _ _ Hw2 Eu)|].
    intros b Hb Ht. specialize (Hsub (b + Z.of_nat i * 32)).
    rewrite !(in_use_at _ (Z.of_nat i)) with (w := u) in Hsub by (rewrite ?Nat2Z.id; done).
    rewrite (in_use_at map (Z.of_nat i) b w) in Hsub by (rewrite ?Nat2Z.id; done). apply Hsub; [lia|done].
  - split; [rewrite length_zip_with; lia|]. apply Forall_lookup. intros i x Hx. apply lookup_zip_with_Some in Hx as (w & u & -> & Ew & _).
    apply land_lnot_ok. by apply (Forall_lookup_1 _ _ _ _ Hw1 Ew).
  - intros k Hk. unfold in_use. assert (0 <= k / 32 < 32 /\ 0 <= k mod 32 < 32) as [Hi Hb] by (Z.to_euclidean_division_equations; lia).
    rewrite lookup_zip_with. destruct (lookup_lt_is_Some_2 map (Z.to_nat (k / 32))) as [w Ew]; [lia|].
    destruct (lookup_lt_is_Some_2 us (Z.to_nat (k / 32))) as [u Eu]; [lia|]. rewrite Ew, Eu. simpl.
    apply land_lnot_bit; [|done]. by apply (Forall_lookup_1 _ _ _ _ Hw1 Ew).
Qed.

(** A port that was tried is noted. *)
Lemma used_ports_set_spec us pid n : map_ok us -> 0 <= pid <= 4194303 -> 0 <= n < 1024 ->
  map_ok (_nl_socket_used_ports_set us (port_of pid n)) /\
  forall k, 0 <= k < 1024 -> in_use (_nl_socket_used_ports_set us (port_of pid n)) k = in_use us k || (k =? n).
Proof.
  intros Hm Hp Hn. unfold _nl_socket_used_ports_set. rewrite port_nr_of by done.
  assert (0 <= n / 32 < 32 /\ 0 <= n mod 32 < 32) as [Hi Hb] by (Z.to_euclidean_division_equations; lia).
  destruct (lookup_lt_is_Some_2 us (Z.to_nat (n / 32))) as [u Eu]; [destruct Hm; lia|].
  assert (alter (fun u => Z.lor u (Z.shiftl 1 (n mod 32))) (Z.to_nat (n / 32)) us =
    <[Z.to_nat (n / 32) := Z.lor u (Z.shiftl 1 (n mod 32))]> us) as ->.
  { apply list_eq. intros j. destruct (decide (j = Z.to_nat (n / 32))) as [->|].
    - by rewrite list_lookup_alter_eq, Eu, list_lookup_insert_eq by (by apply lookup_lt_Some in Eu).
    - by rewrite list_lookup_alter_ne, list_lookup_insert_ne by done. }
  split.
  - apply map_ok_insert; [done|]. apply lor_bit_ok; [|done]. destruct Hm as [_ Hw]. by apply (Forall_lookup_1 _ _ _ _ Hw Eu).
  - intros k Hk. rewrite (in_use_set us (n / 32) (n mod 32) u) by done. do 2 f_equal. Z.to_euclidean_division_equations. lia.
Qed.

(** ** Programs of the library *)

Section Programs.
Context {msg nlmsgerr A S RM RV SD : Type} {al : Allocator} {kernel : Kernel}.
Context (err_code : nlmsgerr -> Z) (getpid : Z).

Abbreviation N := (@N msg nlmsgerr A S RM RV SD).
Abbreviation state := (lib msg nlmsgerr A S RM RV SD * world)%type.

(** The program [x] ends in a result and a state that satisfy [Q]. *)
Definition ends {B} (x : N B) (st : state) (Q : B -> state -> Prop) : Prop :=
  exists b st', x st = Some (b, st') /\ Q b st'.

Lemma ends_ret {B} (b : B) st (Q : B -> state -> Prop) : Q b st -> ends (mret b) st Q.
Proof. intros HQ. by exists b, st. Qed.

Lemma ends_bind {B C} (x : N B) (f : B -> N C) st Q : ends x st (fun b st' => ends (f b) st' Q) -> ends (x ≫= f) st Q.
Proof.
  intros (b & st' & E & c & st'' & E' & HQ). exists c, st''. split; [|done]. unfold mbind, N_bind. by rewrite E.
Qed.

Lemma ends_mono {B} (x : N B) st (Q Q' : B -> state -> Prop) :
  ends x st Q -> (forall b st', Q b st' -> Q' b st') -> ends x st Q'.
Proof. intros (b & st' & E & HQ) H. exists b, st'. auto. Qed.

(** The world after a call. *)
Definition called (c : call) (w : world) : world := World (log w ++ [(c, answer (log w) c)]) (live w) (br_socket_fd w).

Lemma ends_sys c l w (Q : reply -> state -> Prop) :
  Q (answer (log w) c) (l, called c w) -> ends (sys c) (l, w) Q.
Proof. intros HQ. do 2 eexists. split; [reflexivity|done]. Qed.

Definition with_map (m : list Z) (l : lib msg nlmsgerr A S RM RV SD) := Lib m (idx_state l) (cbs l).

Lemma ends_get_map l w (Q : list Z -> state -> Prop) : Q (used_ports_map l) (l, w) -> ends get_map (l, w) Q.
Proof. intros HQ. do 2 eexists. split; [reflexivity|done]. Qed.

Lemma ends_put_map m l w (Q : unit -> state -> Prop) : Q tt (with_map m l, w) -> ends (put_map m) (l, w) Q.
Proof. intros HQ. do 2 eexists. split; [reflexivity|done]. Qed.

Definition lib_ok (l : lib msg nlmsgerr A S RM RV SD) : Prop := map_ok (used_ports_map l) /\ 0 <= idx_state l.

(** Calls that open or close no descriptor. *)
Definition same_fds (w w' : world) : Prop := open_fds (log w') = open_fds (log w).

Lemma same_fds_called c w : (forall fds r, track fds (c, r) = fds) -> same_fds w (called c w).
Proof. intros H. unfold same_fds, called. simpl. rewrite open_fds_snoc. apply H. Qed.

Definition pid : Z := Z.land getpid 4194303.

Lemma ends_step_idx l w (Q : Z -> state -> Prop) :
  (forall idx w', 0 <= idx -> same_fds w w' -> Q idx (Lib (used_ports_map l) idx (cbs l), w')) ->
  ends step_idx (l, w) Q.
Proof.
  intros HQ. unfold step_idx. apply ends_bind. do 2 eexists. split; [reflexivity|]. cbn [fst]. apply ends_bind.
  assert (forall x, 0 <= u16 x) as Hu by (intros x; unfold u16, wrap; apply Z.mod_pos_bound; lia).
  destruct (idx_state l =? 0).
  - apply ends_bind, ends_sys, ends_ret. apply ends_bind. do 2 eexists. split; [reflexivity|]. cbn [snd].
    apply ends_ret, HQ; [apply Hu|by apply same_fds_called].
  - apply ends_ret, ends_bind. do 2 eexists. split; [reflexivity|]. apply ends_ret, HQ; [apply Hu|done].
Qed.

(** A port is given out, or none is left. *)
Lemma ends_generate l w (Q : Z -> state -> Prop) : lib_ok l ->
  (forall l' w', lib_ok l' -> cbs l' = cbs l -> same_fds w w' -> used_ports_map l' = used_ports_map l ->
     (forall k, 0 <= k < 1024 -> in_use (used_ports_map l) k = true) -> Q UINT32_MAX (l', w')) ->
  (forall l' w' nr, lib_ok l' -> cbs l' = cbs l -> same_fds w w' -> 0 <= nr < 1024 ->
     in_use (used_ports_map l) nr = false ->
     (forall k, 0 <= k < 1024 -> in_use (used_ports_map l') k = in_use (used_ports_map l) k || (k =? nr)) ->
     Q (port_of pid nr) (l', w')) ->
  ends (generate_local_port getpid) (l, w) Q.
Proof.
  intros [Hm Hidx] Hnone Hsome. unfold generate_local_port. apply ends_bind, ends_step_idx. intros idx w' Hi Hw.
  apply ends_bind, ends_get_map. cbn [used_ports_map].
  destruct (pick_block_spec 32 (used_ports_map l) (Z.shiftr idx 5) idx Hm) as (r & E & Hr); [by apply Z.shiftr_nonneg|done|].
  rewrite E. destruct r as [[i n]|].
  - destruct Hr as (Hi' & Hn & word & Ew & Hbit). rewrite Ew. apply ends_bind, ends_put_map, ends_ret.
    apply Hsome; try done.
    + split; [|done]. apply map_ok_insert; [done|]. apply lor_bit_ok; [|done]. destruct Hm as [_ Hw']. by apply (Forall_lookup_1 _ _ _ _ Hw' Ew).
    + lia.
    + by rewrite (in_use_at _ i n word).
    + intros k Hk. simpl. by apply in_use_set.
  - apply ends_ret, Hnone; try done. intros k Hk. apply full_in_use; [|done].
    by apply (pick_block_none _ (Z.shiftr idx 5) idx Hm ltac:(by apply Z.shiftr_nonneg)).
Qed.

(** The socket with a generated port. *)
Definition holding (port : Z) (sk : nl_sock) : nl_sock := set_local (with_pid port (s_local sk)) (flag_off NL_OWN_PORT sk).

Lemma holding_holding p q sk : holding p (holding q sk) = holding p sk.
Proof.
  unfold holding, flag_off, set_local, set_flags, with_pid. simpl. f_equal.
  rewrite <- Z.land_assoc. by rewrite Z.land_diag.
Qed.

Lemma holding_not_own p sk : has_flag NL_OWN_PORT (holding p sk) = false.
Proof.
  unfold has_flag, holding, flag_off. simpl. rewrite <- Z.land_assoc.
  assert (Z.land (Z.lnot NL_OWN_PORT) NL_OWN_PORT = 0) as -> by reflexivity. by rewrite Z.land_0_r.
Qed.

(** The free numbers below [n]. *)
Definition free_ports (n : Z) (map : list Z) : gset Z := filter (fun k => in_use map k = false) (list_to_set (seqZ 0 n)).

Lemma free_ports_in n map k : k ∈ free_ports n map <-> in_use map k = false /\ 0 <= k < n.
Proof. unfold free_ports. rewrite elem_of_filter, elem_of_list_to_set, elem_of_seqZ. intuition lia. Qed.

Lemma free_ports_less n map map' nr : 0 <= nr < n -> in_use map nr = false ->
  (forall k, 0 <= k < n -> in_use map' k = in_use map k || (k =? nr)) ->
  (size (free_ports n map') < size (free_ports n map))%nat.
Proof.
  intros Hn Hu H. apply subset_size. split.
  - intros k [Hk Hr]%free_ports_in. rewrite H in Hk by done. apply free_ports_in. split; [|done].
    by apply orb_false_iff in Hk as [Hk _].
  - intros Hsub. assert (nr ∈ free_ports n map') as [Hk _]%free_ports_in by (by apply Hsub, free_ports_in).
    rewrite H, Z.eqb_refl, orb_true_r in Hk by done. done.
Qed.

Lemma free_ports_bound n map : (size (free_ports n map) <= Z.to_nat n)%nat.
Proof.
  transitivity (size (list_to_set (seqZ 0 n) : gset Z)).
  - apply subseteq_size. intros k [_ Hk]%free_ports_in. apply elem_of_list_to_set, elem_of_seqZ. lia.
  - rewrite size_list_to_set by apply NoDup_seqZ. by rewrite length_seqZ.
Qed.

(** ** Binding *)

(** The last call bound [sk] to its address. *)
Definition just_bound (sk : nl_sock) (w : world) : Prop := exists h r, rc r = 0 /\
  log w = h ++ [(BindAddr (s_fd sk) (nl_family (s_local sk)) (nl_pid (s_local sk)) (nl_groups (s_local sk)), r)].

(** [base] with the number [o]. *)
Definition ports_are (l : lib msg nlmsgerr A S RM RV SD) (base : Z -> bool) (o : option Z) : Prop :=
  forall k, 0 <= k < 1024 -> in_use (used_ports_map l) k = base k || bool_decide (o = Some k).

(** What [bind_retry] leaves: a socket that holds one new port, bound or not,
    or none. *)
Definition retried (sk : nl_sock) (base : Z -> bool) (w : world) (res : nl_sock * Z) (st : state) : Prop :=
  lib_ok (fst st) /\ same_fds w (snd st) /\
  ((res = (holding UINT32_MAX sk, - NLE_EXIST) /\ ports_are (fst st) base None) \/
   exists nr, 0 <= nr < 1024 /\ base nr = false /\ fst res = holding (port_of pid nr) sk /\
     ports_are (fst st) base (Some nr) /\ (snd res = 0 -> just_bound (fst res) (snd st))).

Lemma ends_release_all us l w (Q : unit -> state -> Prop) : lib_ok l -> map_ok us ->
  (forall k, 0 <= k < 1024 -> in_use us k = true -> in_use (used_ports_map l) k = true) ->
  (forall l', lib_ok l' -> cbs l' = cbs l ->
     (forall k, 0 <= k < 1024 -> in_use (used_ports_map l') k = in_use (used_ports_map l) k && negb (in_use us k)) ->
     Q tt (l', w)) -> ends (release_all us) (l, w) Q.
Proof.
  intros [Hm Hi] Hus Hsub HQ. unfold release_all. apply ends_bind, ends_get_map.
  destruct (release_all_spec _ _ Hm Hus Hsub) as (m' & E & Hm' & Hk). rewrite E. apply ends_bind, ends_ret, ends_put_map.
  apply HQ; [by split|done|done].
Qed.

Lemma syserr_pos e : 0 < nl_syserr2nlerr e.
Proof.
  unfold nl_syserr2nlerr. destruct (Z.abs e) as [|p|p]; [done| |done].
  repeat (destruct p as [p|p|]; try reflexivity).
Qed.

Lemma bind_retry_spec fuel : forall sk us l w base, 0 < pid < 4194303 -> lib_ok l -> map_ok us ->
  (forall k, 0 <= k < 1024 -> in_use (used_ports_map l) k = base k || in_use us k) ->
  (forall k, 0 <= k < 1024 -> base k = true -> in_use us k = false) ->
  (size (free_ports 1024 (used_ports_map l)) < fuel)%nat ->
  ends (bind_retry getpid fuel sk us) (l, w) (fun res st => retried sk base w res st /\ cbs (fst st) = cbs l).
Proof.
  induction fuel as [|fuel IH]; intros sk us l w base Hp Hl Hus Hbase Hdis Hf; [lia|]. cbn [bind_retry].
  assert (forall l1 w1 (o : option Z) res, lib_ok l1 -> cbs l1 = cbs l -> same_fds w w1 ->
    (forall k, 0 <= k < 1024 -> in_use (used_ports_map l1) k = in_use (used_ports_map l) k || bool_decide (o = Some k)) ->
    (forall nr, o = Some nr -> in_use (used_ports_map l) nr = false /\ 0 <= nr < 1024) ->
    (o = None -> res = (holding UINT32_MAX sk, - NLE_EXIST)) ->
    (forall nr, o = Some nr -> fst res = holding (port_of pid nr) sk /\ (snd res = 0 -> just_bound (fst res) w1)) ->
    ends (release_all us ;; mret res) (l1, w1) (fun res st => retried sk base w res st /\ cbs (fst st) = cbs l)) as Hend.
  { intros l1 w1 o res Hl1 Hc1 Hw1 Hset Ho Hnone Hsome. apply ends_bind, ends_release_all; [done|done| |].
    { intros k Hk Hu. rewrite Hset, Hbase, Hu by done. by rewrite orb_true_r. }
    intros l2 Hl2 Hc2 Hset2. apply ends_ret. split; [|simpl; congruence]. split; [done|]. split; [done|].
    assert (ports_are l2 base o) as Hpo.
    { intros k Hk. rewrite Hset2, Hset, Hbase by done. destruct (base k) eqn:Eb; [by rewrite (Hdis k Hk Eb)|].
      destruct (in_use us k) eqn:Eu; simpl; [|by rewrite andb_true_r]. symmetry. apply bool_decide_eq_false. intros ->.
      destruct (Ho k eq_refl) as [Hf' _]. by rewrite Hbase, Eu, orb_true_r in Hf' by done. }
    destruct o as [nr|]; [right|left; by split; [apply Hnone|]]. destruct (Ho nr eq_refl) as [Hu Hn]. destruct (Hsome nr eq_refl) as [H1 H2].
    exists nr. split_and!; [lia|lia| |done|done|done]. rewrite Hbase in Hu by done. by apply orb_false_iff in Hu as [? _]. }
  unfold _nl_socket_generate_local_port_no_release. apply ends_bind, ends_bind, ends_generate; [done| |].
  - intros l1 w1 Hl1 Hc1 Hw1 Em Hall. apply ends_ret. rewrite Z.eqb_refl.
    apply (Hend l1 w1 None); try done. intros k Hk. rewrite Em. by rewrite orb_false_r.
  - intros l1 w1 nr Hl1 Hc1 Hw1 Hn Hu Hset. apply ends_ret. rewrite port_of_eq by lia. unfold UINT32_MAX.
    rewrite (proj2 (Z.eqb_neq _ _)) by lia. rewrite <- port_of_eq by lia.
    fold (holding (port_of pid nr) sk). set (sk1 := holding _ sk). apply ends_bind, ends_sys.
    set (w2 := called _ w1). set (r := answer _ _).
    assert (same_fds w w2) as Hw2 by (unfold w2, same_fds in *; rewrite same_fds_called; [done|by intros]).
    assert (forall k, 0 <= k < 1024 -> in_use (used_ports_map l1) k = in_use (used_ports_map l) k || bool_decide (Some nr = Some k)) as Hset'.
    { intros k Hk. rewrite Hset by done. f_equal. destruct (Z.eqb_spec k nr) as [->|]; [by rewrite bool_decide_true|].
      rewrite bool_decide_false; [done|]. by intros [= ->]. }
    destruct (Z.eqb_spec (rc r) 0) as [Hr|Hr].
    { apply (Hend l1 w2 (Some nr)); try done; intros nr' [= <-]; [by split|]. split; [done|]. intros _. exists (log w1), r. by split. }
    destruct (Z.eqb_spec (errno r) EADDRINUSE).
    + destruct (used_ports_set_spec us pid nr Hus ltac:(lia) Hn) as [Hus' Hus'']. eapply ends_mono.
      * apply (IH sk1 _ l1 w2 base); try done.
        -- intros k Hk. rewrite Hset, Hbase, Hus'' by done. by rewrite orb_assoc.
        -- intros k Hk Hb. rewrite Hus'' by done. rewrite (Hdis k Hk Hb). simpl. apply Z.eqb_neq. intros ->.
           by rewrite Hbase, Hb in Hu by done.
        -- pose proof (free_ports_less 1024 _ _ nr Hn Hu Hset). lia.
      * intros [sk' err] [l3 w3] [(Hl3 & Hw3 & Hcase) Hc3]. simpl in *. split; [|congruence]. split; [done|].
        split; [unfold same_fds in *; simpl in *; congruence|]. unfold sk1 in Hcase. by rewrite holding_holding in Hcase; setoid_rewrite holding_holding in Hcase.
    + apply (Hend l1 w2 (Some nr)); try done; intros nr' [= <-]; [by split|]. split; [done|]. simpl.
      pose proof (syserr_pos (errno r)). lia.
Qed.

(** ** Connecting and closing *)

(** Documented behaviour of the kernel: [socket] returns -1 or a descriptor
    that is not open yet, and the address of a socket that was just bound is the address it was bound to. *)
Definition fresh_fds : Prop := forall h d t p,
  -1 <= rc (answer h (Socket d t p)) /\ rc (answer h (Socket d t p)) ∉ open_fds h.

Definition honest_name : Prop := forall h fd f p g r, rc r = 0 ->
  let q := answer (h ++ [(BindAddr fd f p g, r)]) (Getsockname fd) in
  rc q < 0 \/ payload q = addr_bytes (Sockaddr f p g).

Definition addr_ok (a : sockaddr_nl) : Prop :=
  0 <= nl_family a < 2 ^ 16 /\ 0 <= nl_pid a < 2 ^ 32 /\ 0 <= nl_groups a < 2 ^ 32.

Lemma addr_bytes_length a : length (addr_bytes a) = 12%nat.
Proof. unfold addr_bytes. by rewrite !length_app, !le_bytes_length. Qed.

Lemma addr_of_bytes a : addr_ok a -> addr_of (addr_bytes a) = a.
Proof.
  intros (Hf & Hp & Hg). destruct a as [f p g]. unfold addr_of, addr_bytes. cbn [nl_family nl_pid nl_groups] in *. f_equal.
  - apply (get_le_at 0 2 []); [done|]. exact Hf.
  - rewrite (app_assoc (le_bytes 2 f)). apply get_le_at; [by rewrite zlen_app, !zlen_le|exact Hp].
  - pose proof (get_le_at 8 4 (le_bytes 2 f ++ le_bytes 2 0 ++ le_bytes 4 p) g []) as E. rewrite app_nil_r, <- !app_assoc in E.
    apply E; [by rewrite !zlen_app, !zlen_le|exact Hg].
Qed.

Lemma addr_of_splice a b : addr_ok a -> addr_of (splice 0 (take 12 (addr_bytes a)) (addr_bytes b)) = a.
Proof.
  intros Ha. unfold splice. change (Z.to_nat 0) with O.
  rewrite take_0, (take_ge (addr_bytes a)) by (by rewrite addr_bytes_length).
  rewrite drop_ge by (rewrite !addr_bytes_length; simpl; lia). rewrite app_nil_r. by apply addr_of_bytes.
Qed.

(** The set is [base] and the port that the socket holds, if it was generated. *)
Definition port_held (l : lib msg nlmsgerr A S RM RV SD) (base : Z -> bool) (sk : nl_sock) : Prop :=
  exists o, ports_are l base o /\
    match o with
    | Some nr => 0 <= nr < 1024 /\ base nr = false /\ has_flag NL_OWN_PORT sk = false /\ nl_pid (s_local sk) = port_of pid nr
    | None => has_flag NL_OWN_PORT sk = true \/ nl_pid (s_local sk) = UINT32_MAX
    end.

(** What [nl_socket_free] has to give back: the port and the descriptor. *)
Definition owes (l : lib msg nlmsgerr A S RM RV SD) (base : Z -> bool) (fds : list Z) (c : positive) (sk : nl_sock) (w : world) : Prop :=
  lib_ok l /\ s_cb sk = c /\
  (if s_fd sk =? (-1) then open_fds (log w) = fds
   else 0 <= s_fd sk /\ (s_fd sk ∉ fds) /\ open_fds (log w) = s_fd sk :: fds) /\
  port_held l base sk.

Lemma owes_errout l base fds c sk w err : owes l base fds c sk w ->
  ends (errout sk err) (l, w) (fun res st => owes (fst st) base fds c (fst res) (snd st) /\ cbs (fst st) = cbs l).
Proof.
  intros (Hl & Hc & Hfd & Ho). unfold errout. destruct (s_fd sk =? -1) eqn:E; cbn [negb].
  - apply ends_ret. split; [|done]. split_and!; [done|done|simpl; by rewrite E|done].
  - apply ends_bind, ends_sys, ends_ret. split; [|done]. destruct Hfd as (_ & Hni & Hop). split_and!; [done|done| |done].
    simpl. rewrite open_fds_snoc, Hop. by apply NetRequests.filter_fresh.
Qed.

Lemma owes_sys l base fds c sk w cl : (forall fds r, track fds (cl, r) = fds) ->
  owes l base fds c sk w -> owes l base fds c sk (called cl w).
Proof.
  intros Ht (Hl & Hc & Hfd & Ho). split_and!; [done|done| |done]. pose proof (same_fds_called cl w Ht) as Hs.
  unfold same_fds in Hs. by rewrite Hs.
Qed.

(** Changing what [owes] does not look at. *)
Lemma owes_same l base fds c sk sk' w : s_cb sk' = s_cb sk -> s_fd sk' = s_fd sk ->
  has_flag NL_OWN_PORT sk' = has_flag NL_OWN_PORT sk -> nl_pid (s_local sk') = nl_pid (s_local sk) ->
  owes l base fds c sk w -> owes l base fds c sk' w.
Proof. intros E1 E2 E3 E4 (Hl & Hc & Hfd & o & Ho). unfold owes, port_held. rewrite E1, E2, E3, E4. split_and!; eauto. Qed.

Lemma buffer_flag sk : has_flag NL_OWN_PORT (flag_on NL_SOCK_BUFSIZE_SET sk) = has_flag NL_OWN_PORT sk.
Proof.
  unfold has_flag, flag_on. simpl. rewrite Z.land_lor_distr_l.
  assert (Z.land NL_SOCK_BUFSIZE_SET NL_OWN_PORT = 0) as -> by reflexivity. by rewrite Z.lor_0_r.
Qed.

Lemma owes_buffers l base fds c sk w : owes l base fds c sk w ->
  ends (nl_socket_set_buffer_size sk 0 0) (l, w) (fun res st =>
    owes l base fds c (fst res) (snd st) /\ fst st = l /\ s_local (fst res) = s_local sk).
Proof.
  intros Ho. unfold nl_socket_set_buffer_size. destruct (s_fd sk =? -1); [by apply ends_ret|].
  assert (forall w name v (Q : Z -> state -> Prop), owes l base fds c sk w ->
    (forall e w', owes l base fds c sk w' -> Q e (l, w')) -> ends (sockopt sk SOL_SOCKET name v) (l, w) Q) as Hopt.
  { intros w1 name v Q Ho1 HQ. unfold sockopt. apply ends_bind, ends_sys, ends_ret, HQ. by apply owes_sys. }
  apply ends_bind, Hopt; [done|]. intros e w1 Ho1. destruct (e <? 0); [by apply ends_ret|].
  apply ends_bind, Hopt; [done|]. intros e2 w2 Ho2. destruct (e2 <? 0); apply ends_ret; split_and!; try done.
  apply owes_same with sk; try done. apply buffer_flag.
Qed.

Lemma owes_read_address l base fds c sk w proto : honest_name -> addr_ok (s_local sk) -> owes l base fds c sk w ->
  just_bound sk w ->
  ends (read_address sk proto) (l, w) (fun res st => owes (fst st) base fds c (fst res) (snd st) /\ cbs (fst st) = cbs l).
Proof.
  intros Hon Ha Ho (h & r & Hr & Hlog). unfold read_address. apply ends_bind, ends_sys.
  specialize (Hon h (s_fd sk) (nl_family (s_local sk)) (nl_pid (s_local sk)) (nl_groups (s_local sk)) r Hr).
  rewrite <- Hlog in Hon. set (q := answer _ _) in *. cbv zeta in Hon.
  assert (owes l base fds c sk (called (Getsockname (s_fd sk)) w)) as Ho1 by (by apply owes_sys).
  destruct (Z.ltb_spec (rc q) 0); [by apply owes_errout|]. destruct Hon as [?|Hpay]; [lia|].
  rewrite Hpay. replace (Sockaddr _ _ _) with (s_local sk) by (by destruct (s_local sk)). rewrite addr_of_splice by done.
  assert (owes l base fds c (set_local (s_local sk) sk) (called (Getsockname (s_fd sk)) w)) as Ho2 by (by apply owes_same with sk).
  destruct (negb (aux q =? 12)); [by apply owes_errout|].
  destruct (negb _); [by apply owes_errout|]. apply ends_ret. split; [|done]. by apply owes_same with sk.
Qed.

Lemma bind_retry_owes fuel sk l w base fds c : 0 < pid < 4194303 -> (1024 < fuel)%nat -> addr_ok (s_local sk) ->
  base = in_use (used_ports_map l) -> owes l base fds c sk w ->
  ends (bind_retry getpid fuel sk (replicate 32 0)) (l, w) (fun res st =>
    owes (fst st) base fds c (fst res) (snd st) /\ cbs (fst st) = cbs l /\ addr_ok (s_local (fst res)) /\
    (snd res = 0 -> just_bound (fst res) (snd st))).
Proof.
  intros Hp Hf (Ha1 & Ha2 & Ha3) -> (Hl & Hc & Hfd & _).
  assert (forall k, in_use (replicate 32 0) k = false) as Hz.
  { intros k. unfold in_use. destruct (_ !! _) as [x|] eqn:E; [|done]. apply lookup_replicate in E as [-> _]. apply Z.bits_0. }
  eapply ends_mono.
  - apply (bind_retry_spec fuel sk (replicate 32 0) l w (in_use (used_ports_map l)) Hp Hl).
    + split; [done|]. by apply Forall_replicate.
    + intros k Hk. by rewrite Hz, orb_false_r.
    + intros k Hk _. apply Hz.
    + pose proof (free_ports_bound 1024 (used_ports_map l)). lia.
  - intros [sk' e] [l' w'] [(Hl' & Hw' & Hcase) Hc']. cbn [fst snd] in *. unfold same_fds in Hw'.
    destruct Hcase as [[[= -> ->] Hpo]|(nr & Hn & Hb & -> & Hpo & Hbound)].
    + split_and!; [|done| |done].
      * split_and!; [done|done|simpl; by rewrite Hw'|]. exists None. split; [done|]. by right.
      * split; [done|]. split; [|done]. simpl. unfold UINT32_MAX. lia.
    + split_and!; [|done| |done].
      * split_and!; [done|done|simpl; by rewrite Hw'|]. exists (Some nr). split; [done|]. split_and!; [lia|lia|done| |done].
        apply holding_not_own.
      * split; [done|]. split; [|done]. simpl. rewrite port_of_eq by lia. lia.
Qed.

(** What is left after [nl_connect]. *)
Lemma nl_connect_owes fuel sk proto l w : 0 < pid < 4194303 -> fresh_fds -> honest_name -> (1024 < fuel)%nat ->
  lib_ok l -> s_fd sk = -1 -> nl_pid (s_local sk) = 0 -> addr_ok (s_local sk) -> has_flag NL_OWN_PORT sk = true ->
  ends (nl_connect getpid fuel sk proto) (l, w) (fun res st =>
    owes (fst st) (in_use (used_ports_map l)) (open_fds (log w)) (s_cb sk) (fst res) (snd st) /\ cbs (fst st) = cbs l).
Proof.
  intros Hp Hfresh Hon Hf Hl Hfd Hpid Ha Hown. unfold nl_connect. rewrite Hfd. cbn [Z.eqb Pos.eqb negb].
  apply ends_bind, ends_sys. set (cl := Socket _ _ _). set (r := answer _ _). set (base := in_use _). set (fds := open_fds (log w)).
  assert (ports_are l base None) as Hbase by (intros k Hk; simpl; by rewrite orb_false_r).
  set (sk1 := set_fd (rc r) sk).
  assert (owes l base fds (s_cb sk) (if rc r <? 0 then set_fd (-1) sk else sk1) (called cl w)) as Ho1.
  { split_and!; [done|by destruct (rc r <? 0)| |exists None; split; [done|left; by destruct (rc r <? 0)]].
    pose proof (open_fds_snoc (log w) (cl, r)) as E. change (log w ++ [(cl, r)]) with (log (called cl w)) in E.
    change (track (open_fds (log w)) (cl, r)) with (if 0 <=? rc r then rc r :: fds else fds) in E.
    destruct (Z.ltb_spec (rc r) 0).
    - cbn [s_fd set_fd]. rewrite E. by rewrite (proj2 (Z.leb_gt 0 (rc r))) by done.
    - unfold sk1. cbn [s_fd set_fd]. rewrite (proj2 (Z.eqb_neq (rc r) (-1))) by lia. rewrite E. rewrite (proj2 (Z.leb_le 0 (rc r))) by done.
      split_and!; [done|apply Hfresh|done]. }
  cbn [s_fd sk1 set_fd]. destruct (Z.ltb_spec (rc r) 0) as [Hneg|Hpos].
  { assert (rc r = -1) as He by (destruct (Hfresh (log w) AF_NETLINK (Z.lor SOCK_RAW SOCK_CLOEXEC) proto) as [? _]; unfold r, cl in *; lia).
    unfold errout. cbn [s_fd sk1 set_fd]. unfold sk1. rewrite He. apply ends_ret. by split. }
  assert (s_local sk1 = s_local sk) as Hlo1 by done. clearbody sk1. apply ends_bind.
  apply (ends_mono _ _ (fun res st => owes l base fds (s_cb sk) (fst res) (snd st) /\ fst st = l /\ s_local (fst res) = s_local sk)).
  { rewrite <- Hlo1. destruct (negb _); [by apply owes_buffers|by apply ends_ret]. }
  intros [sk2 err] [l2 w2] (Ho2 & E2 & Hlo2). cbn [fst snd] in *. subst l2. destruct (err <? 0); [by apply owes_errout|].
  unfold _nl_socket_is_local_port_unspecified. rewrite Hlo2, Hpid, Z.eqb_refl. apply ends_bind.
  eapply ends_mono; [apply (bind_retry_owes fuel sk2 l w2 base fds (s_cb sk)); try done; by rewrite Hlo2|].
  intros [sk3 e3] [l3 w3] (Ho3 & Hc3 & Ha3 & Hb3). cbn [fst snd] in *. rewrite <- Hc3.
  destruct (Z.eqb_spec e3 0) as [->|]; cbn [negb]; [|by apply owes_errout]. by apply owes_read_address; [| | |apply Hb3].
Qed.

Lemma ends_give_port_back l base sk w (Q : unit -> state -> Prop) : 0 < pid < 4194303 -> lib_ok l -> port_held l base sk ->
  (forall l', lib_ok l' -> cbs l' = cbs l -> ports_are l' base None -> Q tt (l', w)) ->
  ends (give_port_back sk) (l, w) Q.
Proof.
  intros Hp Hl (o & Hpo & Ho) HQ. unfold give_port_back. destruct (has_flag NL_OWN_PORT sk) eqn:Eown; cbn [negb].
  { apply ends_ret. destruct o as [nr|]; [by destruct Ho as (_ & _ & ? & _)|]. by apply HQ. }
  apply ends_bind, ends_get_map, ends_bind. destruct o as [nr|].
  - destruct Ho as (Hn & Hb & _ & ->).
    destruct (release_local_port_spec (used_ports_map l) pid nr (proj1 Hl) Hp Hn) as (m' & E & Hm' & Hk).
    { rewrite (Hpo nr Hn), bool_decide_true by done. by rewrite orb_true_r. }
    rewrite E. apply ends_ret, ends_put_map, HQ; [split; [done|apply Hl]|done|].
    intros k Hk'. simpl. rewrite Hk, (Hpo k Hk') by done. rewrite orb_false_r.
    destruct (Z.eqb_spec k nr) as [->|Hne]; [by rewrite Hb, andb_false_r|].
    rewrite bool_decide_false by (by intros [= ->]). by rewrite orb_false_r, andb_true_r.
  - destruct Ho as [?| ->]; [done|]. apply ends_ret, ends_put_map, HQ; [done|by destruct l|done].
Qed.

Lemma ends_get_cb c cb l w (Q : _ -> state -> Prop) : cbs l !! c = Some cb -> Q cb (l, w) -> ends (get_cb c) (l, w) Q.
Proof. intros E HQ. exists cb, (l, w). unfold get_cb. simpl. by rewrite E. Qed.

Abbreviation cb_heap := (gmap positive (nl_cb msg nlmsgerr A S RM RV SD)).
Definition with_cbs (f : cb_heap -> cb_heap) (l : lib msg nlmsgerr A S RM RV SD) : lib msg nlmsgerr A S RM RV SD :=
  Lib (used_ports_map l) (idx_state l) (f (cbs l)).

Lemma ends_put_cb c cb l w (Q : unit -> state -> Prop) : Q tt (with_cbs (<[c := cb]>) l, w) -> ends (put_cb c cb) (l, w) Q.
Proof. intros HQ. do 2 eexists. split; [reflexivity|done]. Qed.

Lemma ends_free_cb c l w (Q : unit -> state -> Prop) : Q tt (with_cbs (delete c) l, w) -> ends (free_cb c) (l, w) Q.
Proof. intros HQ. do 2 eexists. split; [reflexivity|done]. Qed.

(** Giving back a reference on a callback set. *)
Lemma ends_cb_put c cb l w (Q : unit -> state -> Prop) : cbs l !! c = Some cb -> 1 <= cb_refcnt cb <= INT_MAX ->
  Q tt (with_cbs (if cb_refcnt cb =? 1 then delete c else <[c := set_cb_refcnt (cb_refcnt cb - 1) cb]>) l, w) ->
  ends (nl_cb_put (Some c)) (l, w) Q.
Proof.
  intros E Hr HQ. unfold nl_cb_put. eapply ends_bind, ends_get_cb; [done|]. rewrite s32_id by (unfold INT_MIN, INT_MAX in *; lia).
  apply ends_bind, ends_put_cb. rewrite (proj2 (Z.ltb_ge _ 0)) by lia. destruct (Z.eqb_spec (cb_refcnt cb) 1) as [H1|H1].
  - rewrite (proj2 (Z.leb_le _ 0)) by lia. apply ends_free_cb. unfold with_cbs in *. simpl. by rewrite delete_insert_eq.
  - rewrite (proj2 (Z.leb_gt _ 0)) by lia. by apply ends_ret.
Qed.

Lemma set_types_refcnt k i (cb : nl_cb msg nlmsgerr A S RM RV SD) kind f arg :
  cb_refcnt (fst (set_types k i cb kind f arg)) = cb_refcnt cb.
Proof.
  revert i cb. induction k as [|k IH]; intros i cb; [done|]. cbn [set_types].
  assert (cb_refcnt (fst (nl_cb_set cb i kind f arg)) = cb_refcnt cb) as E.
  { unfold nl_cb_set. repeat destruct (_ || _); [done..|]. by destruct (_ =? _). }
  destruct (nl_cb_set cb i kind f arg) as [cb' e]. simpl in E. destruct (e <? 0); [done|]. by rewrite IH.
Qed.

Lemma fresh_cb_refcnt kind : cb_refcnt (fresh_cb err_code kind : nl_cb msg nlmsgerr A S RM RV SD) = 1.
Proof.
  unfold fresh_cb. set (cb := fst (set_types _ _ _ _ _ _)). assert (cb_refcnt cb = 1) as E by apply set_types_refcnt.
  clearbody cb. unfold nl_cb_err. by destruct (_ || _).
Qed.

(** A socket as [nl_socket_alloc] makes it. *)
Definition new_sock (sk : nl_sock) : Prop :=
  s_fd sk = -1 /\ nl_pid (s_local sk) = 0 /\ addr_ok (s_local sk) /\ has_flag NL_OWN_PORT sk = true.

Lemma ends_socket_alloc kind l w (Q : option nl_sock -> state -> Prop) : lib_ok l ->
  (forall w', same_fds w w' -> Q None (l, w')) ->
  (forall w' sk cb, same_fds w w' -> new_sock sk -> cbs l !! s_cb sk = None -> cb_refcnt cb = 1 ->
     Q (Some sk) (with_cbs (<[s_cb sk := cb]>) l, w')) ->
  ends (nl_socket_alloc err_code kind) (l, w) Q.
Proof.
  intros Hl Hnone Hsome. unfold nl_socket_alloc, nl_cb_alloc. apply ends_bind.
  destruct (_ || _); [by apply ends_ret, ends_ret, Hnone|]. destruct (negb (malloc_ok nl_cb_size)); [by apply ends_ret, ends_ret, Hnone|].
  apply ends_bind. do 2 eexists. split; [reflexivity|]. cbn [fst]. set (c := fresh _).
  assert (cbs l !! c = None) as Ec by (apply not_elem_of_dom, is_fresh).
  apply ends_bind, ends_put_cb, ends_ret. set (l1 := with_cbs _ l). pose proof (fresh_cb_refcnt kind) as Hr. set (cb := fresh_cb err_code kind) in *.
  assert (cbs l1 !! c = Some cb) as Ec1 by (unfold l1; simpl; by rewrite lookup_insert_eq).
  unfold __alloc_socket. apply ends_bind. destruct (negb (malloc_ok nl_sock_size)).
  - apply ends_ret, ends_bind. apply (ends_cb_put c cb); [done|rewrite Hr; unfold INT_MAX; lia|]. rewrite Hr. change (1 =? 1) with true. apply ends_ret.
    assert (with_cbs (delete c) l1 = l) as ->; [|by apply Hnone].
    unfold l1, with_cbs. simpl. rewrite delete_insert_id by done. by destruct l.
  - apply ends_bind. unfold nl_cb_get. eapply ends_bind, ends_get_cb; [done|]. rewrite Hr. change (s32 (1 + 1)) with 2.
    apply ends_bind, ends_put_cb, ends_ret. apply ends_bind, ends_sys, ends_ret, ends_bind.
    apply (ends_cb_put c (set_cb_refcnt 2 cb)); [simpl; by rewrite lookup_insert_eq|simpl; unfold INT_MAX; lia|]. cbn [cb_refcnt set_cb_refcnt Z.eqb Pos.eqb].
    apply ends_ret. unfold with_cbs. simpl. rewrite !insert_insert_eq. apply (Hsome _ (Sock _ _ _ _ _ _ _ c _)); try done.
    by apply same_fds_called.
Qed.

(** The life of a socket: create, connect, free. *)
Definition socket_session (kind : Z) (fuel : nat) (protocol : Z) : N Z :=
  p ← nl_socket_alloc err_code kind;
  match p with
  | None => mret (- NLE_NOMEM)
  | Some sk => res ← nl_connect getpid fuel sk protocol; nl_socket_free (Some (fst res)) ;; mret (snd res)
  end.

(** C29: a socket that is created, connected and freed leaves nothing behind:
    [nl_connect] ends after at most 1025 attempts to bind, the ports it tried
    and the one it holds are given back exactly once, the set of used ports,
    the callback sets and the open descriptors are as before, and no assertion
    of the library fails. This is so whatever fails, for a kernel that gives
    out descriptors that are not open and names a bound socket by the address
    it was bound to, and for process numbers below 4194303: with that number
    itself a port can be lost ([generate_local_port_lost]). *)
Theorem nl_connect_balanced kind fuel protocol l w :
  0 < pid < 4194303 -> fresh_fds -> honest_name -> (1024 < fuel)%nat -> lib_ok l ->
  ends (socket_session kind fuel protocol) (l, w) (fun _ st =>
    (forall k, 0 <= k < 1024 -> in_use (used_ports_map (fst st)) k = in_use (used_ports_map l) k) /\
    cbs (fst st) = cbs l /\ open_fds (log (snd st)) = open_fds (log w)).
Proof.
  intros Hp Hfresh Hon Hf Hl. unfold socket_session. apply ends_bind, ends_socket_alloc; [done|by intros; apply ends_ret|].
  intros w1 sk cb Hw1 (Hfd & Hpid & Ha & Hown) Ec Hr. set (l1 := with_cbs _ l). apply ends_bind.
  eapply ends_mono; [by apply (nl_connect_owes fuel sk protocol l1 w1)|].
  intros [sk2 e2] [l2 w2] [Ho Hc2]. cbn [fst snd] in *. pose proof Ho as (Hl2 & Hcb & Hfds & _).
  apply ends_bind. unfold nl_socket_free. apply ends_bind.
  apply (ends_mono _ _ (fun _ st => fst st = l2 /\ open_fds (log (snd st)) = open_fds (log w))).
  - unfold same_fds in Hw1. destruct (Z.eqb_spec (s_fd sk2) (-1)) as [->|Hne]; simpl.
    + apply ends_ret. split; [done|]. simpl. congruence.
    + destruct Hfds as (H0 & Hni & Hop). rewrite Z.geb_leb, (proj2 (Z.leb_le 0 _)) by done. apply ends_bind, ends_sys, ends_ret.
      split; [done|]. simpl. rewrite open_fds_snoc, Hop, <- Hw1. by apply NetRequests.filter_fresh.
  - intros _ [l3 w3] [El3 Hop]. cbn [fst snd] in *. subst l3. apply ends_bind.
    apply (ends_give_port_back l2 (in_use (used_ports_map l)) sk2 w3 _ Hp Hl2); [apply Ho|].
    intros l4 Hl4 Hc4 Hpo. assert (cbs l4 !! s_cb sk2 = Some cb) as E4.
    { rewrite Hc4, Hc2, Hcb. unfold l1. simpl. by rewrite lookup_insert_eq. }
    apply (ends_cb_put (s_cb sk2) cb); [done|rewrite Hr; unfold INT_MAX; lia|]. rewrite Hr. change (1 =? 1) with true. apply ends_ret. split_and!.
    + intros k Hk. simpl. rewrite (Hpo k Hk). simpl. by rewrite orb_false_r.
    + simpl. rewrite Hc4, Hc2, Hcb. unfold l1. simpl. by rewrite delete_insert_id.
    + done.
Qed.

(** [generate_local_port] gives out a port that no socket of the process
    has, and fails only when all 1024 are in use, wherever its walk through
    the bitmap starts; releasing the port brings the set back to what it was. *)
Theorem generate_local_port_unique l w : 0 < pid < 4194303 -> lib_ok l ->
  ends (generate_local_port getpid) (l, w) (fun port st =>
    (port = UINT32_MAX /\ used_ports_map (fst st) = used_ports_map l /\
     forall k, 0 <= k < 1024 -> in_use (used_ports_map l) k = true) \/
    exists nr map, 0 <= nr < 1024 /\ in_use (used_ports_map l) nr = false /\ port = pid + nr * 4194304 /\
      (forall k, 0 <= k < 1024 -> in_use (used_ports_map (fst st)) k = in_use (used_ports_map l) k || (k =? nr)) /\
      release_local_port (used_ports_map (fst st)) port = Some map /\
      (forall k, 0 <= k < 1024 -> in_use map k = in_use (used_ports_map l) k)).
Proof.
  intros Hp Hl. apply ends_generate; [done|by left|]. intros l' w' nr Hl' Hc Hw Hn Hu Hset. right.
  destruct (release_local_port_spec (used_ports_map l') pid nr (proj1 Hl') Hp Hn) as (m & E & Hm & Hk).
  { rewrite Hset, Z.eqb_refl by done. by rewrite orb_true_r. }
  exists nr, m. rewrite <- port_of_eq by lia. split_and!; try done; [lia..|]. intros k Hk'. rewrite Hk, Hset by done.
  destruct (Z.eqb_spec k nr) as [->|]; [by rewrite Hu|]. by rewrite orb_false_r, andb_true_r.
Qed.

End Programs.

(** ** A concrete kernel

    The first attempt to bind finds the port in use. *)

Definition is_bind (e : call * reply) : bool := match fst e with BindAddr _ _ _ _ => true | _ => false end.

Definition bind_kernel : Kernel := fun h c =>
  match c with
  | Socket _ _ _ => Reply (3 + fold_right Z.max 0 (open_fds h)) 0 [] 0 0 0
  | BindAddr _ _ _ _ => if existsb is_bind h then Reply 0 0 [] 0 0 0 else Reply (-1) EADDRINUSE [] 0 0 0
  | Getsockname _ => match last h with Some (BindAddr _ f p g, _) => Reply 0 0 (addr_bytes (Sockaddr f p g)) 12 0 0 | _ => Reply (-1) 9 [] 0 0 0 end
  | Time => Reply 1000 0 [] 0 0 0
  | _ => Reply 0 0 [] 0 0 0
  end.

Lemma bind_kernel_fresh : fresh_fds (kernel := bind_kernel).
Proof.
  intros h d t p. cbn. assert (0 <= fold_right Z.max 0 (open_fds h)) by (induction (open_fds h); simpl; lia). split; [lia|].
  intros Hin. pose proof (NetRequests.sample_fresh h d t p ltac:(cbn; lia) Hin) as []. Qed.

Lemma bind_kernel_honest : honest_name (kernel := bind_kernel).
Proof. intros h fd f p g r Hr. right. cbn. by rewrite last_snoc. Qed.

Definition unit_lib (map : list Z) : lib unit unit unit unit unit unit unit := Lib map 0 ∅.

Lemma unit_lib_ok : lib_ok (unit_lib (replicate 32 0)).
Proof. split; [|done]. split; [done|]. by apply Forall_replicate. Qed.

Lemma nl_connect_balanced_witness :
  ends (socket_session (al := sample_alloc) (kernel := bind_kernel) (fun _ => 0) 4711 0 1025 0)
    (unit_lib (replicate 32 0), NetRequests.w0) (fun _ st =>
    (forall k, 0 <= k < 1024 -> in_use (used_ports_map (fst st)) k = in_use (replicate 32 0) k) /\
    cbs (fst st) = ∅ /\ open_fds (log (snd st)) = []).
Proof.
  apply (nl_connect_balanced (al := sample_alloc) (kernel := bind_kernel) (fun _ => 0) 4711 0 1025 0
    (unit_lib (replicate 32 0)) NetRequests.w0).
  - vm_compute. split; congruence.
  - exact bind_kernel_fresh.
  - exact bind_kernel_honest.
  - lia.
  - exact unit_lib_ok.
Defined.

(** The socket is bound at the second attempt. *)
Example session_connects :
  (fun r => fst r) <$> socket_session (al := sample_alloc) (kernel := bind_kernel) (fun _ => 0) 4711 0 10 0
    (unit_lib (replicate 32 0), NetRequests.w0) = Some 0.
Proof. vm_compute. reflexivity. Qed.

Lemma generate_local_port_unique_witness : exists nr,
  ends (generate_local_port (kernel := bind_kernel) 4711) (unit_lib (replicate 32 0), NetRequests.w0) (fun port st =>
    port = 4711 + nr * 4194304 /\ in_use (used_ports_map (fst st)) nr = true).
Proof.
  destruct (generate_local_port_unique (kernel := bind_kernel) 4711 (unit_lib (replicate 32 0)) NetRequests.w0)
    as (port & st & E & [(_ & _ & H)|(nr & map & Hn & _ & Hp & Hk & _)]).
  - vm_compute. split; congruence.
  - exact unit_lib_ok.
  - specialize (H 0 ltac:(lia)). vm_compute in H. discriminate H.
  - exists nr, port, st. split; [exact E|]. split; [exact Hp|]. rewrite (Hk nr Hn), Z.eqb_refl. apply orb_true_r.
Defined.

(** For the largest process number the last port is the value that stands for
    failure: it is marked as used, the caller takes it for no port at all, and
    releasing it does nothing. *)
Lemma generate_local_port_lost :
  port_of 4194303 1023 = UINT32_MAX /\ release_local_port (replicate 32 4294967295) UINT32_MAX = Some (replicate 32 4294967295).
Proof. vm_compute. auto. Qed.

(** [nl_socket_set_cb] with the set the socket has already: the only reference
    is given back first, and the set that was just freed is used. *)
Lemma nl_socket_set_cb_same {msg nlmsgerr A S RM RV SD : Type} (l : lib msg nlmsgerr A S RM RV SD) w sk cb :
  cbs l !! s_cb sk = Some cb -> cb_refcnt cb = 1 -> nl_socket_set_cb sk (Some (s_cb sk)) (l, w) = None.
Proof.
  intros E Hr. unfold nl_socket_set_cb, nl_cb_put, nl_cb_get, get_cb, put_cb, free_cb, mbind, N_bind. simpl.
  rewrite E. simpl. rewrite Hr. simpl. by rewrite lookup_delete_eq.
Qed.

End NlSocket.
