(* ===== verification/NlRecv.v ===== *)
(** * Sending and receiving in libnl ([lib/nl.c])

    [nl_send_auto] completes a message from the state of the socket and sends
    it, [recvmsgs] reads datagrams until a reply is complete, checks sequence
    numbers and calls the functions of a callback set on every message.  The
    functions of the user get the message and a state of their own; they do
    not keep the message.  The blocks of the heap are counted in the world: a
    message is two, the buffer, the control buffer and the credentials one
    each.  [None] is undefined behaviour or the end of the fuel. *)

From S2P Require Import Prelude Netlink Syscalls NetRequests NlParse NlAttr NlSocket.
From Stdlib Require Import ZArith Lia.
From stdpp Require Import base list numbers option gmap.

Open Scope Z_scope.

Module NlRecv.
Import Netlink Syscalls NlSocket.
Import NetRequests (EINTR, AF_NETLINK).
Import NlParse (rd).
Import NlAttr (nl_msg, NlMsg, nm_protocol, nm_flags, nm_src, nm_dst, nm_creds, nm_block, nm_refcnt, with_block).

Definition NLE_SEQ_MISMATCH : Z := 16.
Definition NLE_MSG_OVERFLOW : Z := 17.
Definition NLE_MSG_TRUNC : Z := 18.
Definition NLE_DUMP_INTR : Z := 33.

Definition NLMSG_NOOP : Z := 1.
Definition NLMSG_ERROR : Z := 2.
Definition NLMSG_DONE : Z := 3.
Definition NLMSG_OVERRUN : Z := 4.
Definition NLM_F_REQUEST : Z := 1.
Definition NLM_F_MULTI : Z := 2.
Definition NLM_F_ACK : Z := 4.
Definition NLM_F_DUMP_INTR : Z := 16.

Definition MSG_PEEK : Z := 2.
Definition MSG_CTRUNC : Z := 8.
Definition MSG_TRUNC : Z := 32.
Definition SOL_SOCKET : Z := 1.
Definition SCM_CREDENTIALS : Z := 2.
Definition NL_MSG_CRED_PRESENT : Z := 1.

(** What [recvmsg] stores besides the data: the address of the sender, the
    control messages (level, type, data) and their total length, after the
    calls so far. *)
Class RecvOutputs := {
  recv_name : history -> sockaddr_nl;
  recv_control : history -> list (Z * Z * bytes);
  recv_controllen : history -> Z
}.

Definition from_option {B} (x : option B) : io B := fun w => b ← x; Some (b, w).
Definition get_log : io history := fun w => Some (log w, w).

(** [free] of a pointer that may be NULL. *)
Definition free_opt {B} (p : option B) : io unit := match p with Some _ => heap (-1) | None => mret tt end.

(** ** Fields of a message *)

Definition nlmsg_set_proto (m : nl_msg) (protocol : Z) : nl_msg :=
  NlMsg protocol (nm_flags m) (nm_src m) (nm_dst m) (nm_creds m) (nm_block m) (nm_refcnt m).
Definition nlmsg_set_src (m : nl_msg) (addr : sockaddr_nl) : nl_msg :=
  NlMsg (nm_protocol m) (nm_flags m) (addr_bytes addr) (nm_dst m) (nm_creds m) (nm_block m) (nm_refcnt m).
Definition nlmsg_set_creds (m : nl_msg) (creds : bytes) : nl_msg :=
  NlMsg (nm_protocol m) (Z.lor (nm_flags m) NL_MSG_CRED_PRESENT) (nm_src m) (nm_dst m) creds (nm_block m) (nm_refcnt m).
Definition nlmsg_get_creds (m : nl_msg) : option bytes :=
  if negb (Z.land (nm_flags m) NL_MSG_CRED_PRESENT =? 0) then Some (nm_creds m) else None.

Definition nlmsg_get_proto (m : nl_msg) : Z := nm_protocol m.
Definition nlmsg_get_max_size (m : nl_msg) : Z := NlAttr.nm_size m.
Definition nlmsg_get_src (m : nl_msg) : sockaddr_nl := addr_of (nm_src m).
Definition nlmsg_set_dst (m : nl_msg) (addr : sockaddr_nl) : nl_msg :=
  NlMsg (nm_protocol m) (nm_flags m) (nm_src m) (addr_bytes addr) (nm_creds m) (nm_block m) (nm_refcnt m).
Definition nlmsg_get_dst (m : nl_msg) : sockaddr_nl := addr_of (nm_dst m).

Definition nlmsg_pid (m : nl_msg) : Z := get_le 12 4 (nlmsghdr (nm_block m)).
Definition nlmsg_seq (m : nl_msg) : Z := get_le 8 4 (nlmsghdr (nm_block m)).
Definition nlmsg_flags (m : nl_msg) : Z := get_le 6 2 (nlmsghdr (nm_block m)).
Definition set_field (off : Z) (n : nat) (z : Z) (m : nl_msg) : nl_msg := with_block (poke off n z (nm_block m)) m.

(** ** Receiving a datagram *)

(** The number of bytes or an error, the buffer, the sender, the credentials. *)
Record recvd := Recvd { rv_n : Z; rv_buf : option bytes; rv_src : sockaddr_nl; rv_creds : option bytes }.

(** [struct nlmsgerr]: the bytes of the error message behind its header. *)
Definition nlmsgerr : Type := bytes.
Definition err_code (e : nlmsgerr) : Z := s32 (get_le 0 4 e).

Section Recv.
Context {A S : Type} {al : Allocator} {kernel : Kernel} {outputs : RecvOutputs}.
(** [getpagesize ()]. *)
Variable getpagesize : Z.

(** The functions that replace parts of the library work on the world. *)
Definition RM : Type := nl_sock -> S -> io (nl_sock * S * Z).
Definition RV : Type := nl_sock -> io recvd.
Definition SD : Type := nl_sock -> nl_msg -> io Z.
Abbreviation cbset := (nl_cb nl_msg nlmsgerr A S RM RV SD).

(** The locals of [nl_recv] that change: [iov], [msg.msg_control] (its block),
    [msg.msg_controllen], [flags]. *)
Record recv_locals := Locals { iov_len : Z; iov_base : bytes; control : option Z; controllen : Z; flags : Z }.

(** [CMSG_SPACE (sizeof (struct ucred))]. *)
Definition creds_space : Z := 32.

(** From [abort:] on. *)
Definition recv_abort (l : recv_locals) (retval : Z) (creds : option bytes) : io recvd :=
  free_opt (control l) ;;
  if retval <=? 0 then
    heap (-1) ;; free_opt creds ;; mret (Recvd retval None (Sockaddr 0 0 0) None)
  else h ← get_log; mret (Recvd retval (Some (iov_base l)) (recv_name h) creds).

(** The first credentials among the control messages. *)
Definition find_creds (cs : list (Z * Z * bytes)) : option bytes :=
  snd <$> List.find (fun c => (fst (fst c) =? SOL_SOCKET) && (snd (fst c) =? SCM_CREDENTIALS)) cs.

(** From [retry:] on. *)
Fixpoint recv_retry (fuel : nat) (sk : nl_sock) (want_creds : bool) (l : recv_locals) : io recvd :=
  match fuel with
  | O => undefined
  | Datatypes.S fuel' =>
      r ← syscall (RecvmsgFlags (s_fd sk) (iov_len l) (controllen l) (flags l));
      h ← get_log;
      let n := rc r in
      if n <? 0 then
        if errno r =? EINTR then recv_retry fuel' sk want_creds l
        else recv_abort l (- nl_syserr2nlerr (errno r)) None
      else
      let base := splice 0 (take (Z.to_nat (iov_len l)) (payload r)) (iov_base l) in
      let l := Locals (iov_len l) base (control l) (recv_controllen h) (flags l) in
      if n =? 0 then recv_abort l 0 None else
      if negb (Z.land (aux r) MSG_CTRUNC =? 0) then
        let size := controllen l * 2 in
        match control l with
        | Some _ =>
            if size =? 0 then undefined else
            if malloc_ok size
            then recv_retry fuel' sk want_creds (Locals (iov_len l) base (Some size) size (flags l))
            else recv_abort (Locals (iov_len l) base (control l) size (flags l)) (- NLE_NOMEM) None
        | None =>
            if malloc_ok size
            then heap 1 ;; recv_retry fuel' sk want_creds (Locals (iov_len l) base (Some size) size (flags l))
            else recv_abort (Locals (iov_len l) base None size (flags l)) (- NLE_NOMEM) None
        end
      else if (iov_len l <? n) || negb (Z.land (aux r) MSG_TRUNC =? 0) then
        if malloc_ok n
        then recv_retry fuel' sk want_creds
               (Locals n (resize (Z.to_nat n) malloc_byte base) (control l) (controllen l) 0)
        else recv_abort (Locals n base (control l) (controllen l) (flags l)) (- NLE_NOMEM) None
      else if negb (flags l =? 0) then
        recv_retry fuel' sk want_creds (Locals (iov_len l) base (control l) (controllen l) 0)
      else if negb (peer_len r =? 12) then recv_abort l (- NLE_NOADDR) None
      else if want_creds && has_flag NL_SOCK_PASSCRED sk then
        match find_creds (recv_control h) with
        | Some c =>
            if malloc_ok 12 then heap 1 ;; recv_abort l (s32 n) (Some (take 12 c))
            else recv_abort l (- NLE_NOMEM) None
        | None => recv_abort l (s32 n) None
        end
      else recv_abort l (s32 n) None
  end.

(** [sk->s_bufsize ? : page_size]. *)
Definition buf_len (sk : nl_sock) : Z := if negb (s_bufsize sk =? 0) then s_bufsize sk else getpagesize * 4.

(** [buf] and [nla] are not NULL. *)
Definition nl_recv (fuel : nat) (want_creds : bool) (sk : nl_sock) : io recvd :=
  let flags := if has_flag NL_MSG_PEEK sk then Z.lor MSG_PEEK MSG_TRUNC else 0 in
  let len := buf_len sk in
  if negb (malloc_ok len) then mret (Recvd (- NLE_NOMEM) None (Sockaddr 0 0 0) None) else
  heap 1 ;;
  let base := replicate (Z.to_nat len) malloc_byte in
  if want_creds && has_flag NL_SOCK_PASSCRED sk then
    if negb (malloc_ok creds_space) then recv_abort (Locals len base None creds_space flags) (- NLE_NOMEM) None
    else heap 1 ;; recv_retry fuel sk want_creds (Locals len base (Some creds_space) creds_space flags)
  else recv_retry fuel sk want_creds (Locals len base None 0 flags).

(** ** Processing messages *)

(** How the body of the loop ends: at [skip:], at [stop:] or at [out:]. *)
Inductive flow := Next | Stop | Out (err : Z).

(** The locals of [recvmsgs], with the socket and the state of the user. *)
Record loop := Loop { l_sk : nl_sock; l_user : S; multipart : bool; interrupted : bool; nrecv : Z }.

Definition set_user (s : S) (st : loop) : loop := Loop (l_sk st) s (multipart st) (interrupted st) (nrecv st).
Definition set_sk (sk : nl_sock) (st : loop) : loop := Loop sk (l_user st) (multipart st) (interrupted st) (nrecv st).
Definition set_multipart (b : bool) (st : loop) : loop := Loop (l_sk st) (l_user st) b (interrupted st) (nrecv st).
Definition set_interrupted (st : loop) : loop := Loop (l_sk st) (l_user st) (multipart st) true (nrecv st).
Definition count_message (st : loop) : loop := Loop (l_sk st) (l_user st) (multipart st) (interrupted st) (s32 (nrecv st + 1)).

Definition step : Type := loop -> option (flow * loop).

(** [cb->cb_set[type]]. *)
Definition is_set (cb : cbset) (type : Z) : bool :=
  match mjoin (cb_set cb !! Z.to_nat type) with Some _ => true | None => false end.

Definition NL_CB_CALL (cb : cbset) (type : Z) (m : nl_msg) (k : step) : step := fun st =>
  '(err, s) ← nl_cb_call cb type m (l_user st);
  let st := set_user s st in
  if err =? NL_OK then k st else
  if err =? NL_SKIP then Some (Next, st) else
  if err =? NL_STOP then Some (Stop, st) else Some (Out err, st).

Definition goto (f : flow) : step := fun st => Some (f, st).

Section Message.
(** The callback set, the message, and the fields of its header. *)
Variable cb : cbset.
Variable m : nl_msg.
Variables len type hflags seq : Z.
(** [nlmsg_data (hdr)]. *)
Variable body : bytes.
Variable nla : sockaddr_nl.

(** A message that carries an error number; 0 is an acknowledgement. *)
Definition on_error : step := fun st =>
  if len <? 36 then
    (if is_set cb NL_CB_INVALID then NL_CB_CALL cb NL_CB_INVALID m (goto Next) else goto (Out (- NLE_MSG_TRUNC))) st
  else if negb (err_code body =? 0) then
    match cb_err cb with
    | Some f =>
        let '(err, s) := f nla body (cb_err_arg cb) (l_user st) in
        let st := set_user s st in
        if err <? 0 then Some (Out err, st) else
        if err =? NL_SKIP then Some (Next, st) else
        if err =? NL_STOP then Some (Out (- nl_syserr2nlerr (err_code body)), st) else Some (Next, st)
    | None => Some (Out (- nl_syserr2nlerr (err_code body)), st)
    end
  else if is_set cb NL_CB_ACK then NL_CB_CALL cb NL_CB_ACK m (goto Next) st
  else Some (Next, st).

(** The dispatch on the type. *)
Definition on_type : step := fun st =>
  if type =? NLMSG_DONE then
    (if is_set cb NL_CB_FINISH then NL_CB_CALL cb NL_CB_FINISH m (goto Next) else goto Next) (set_multipart false st)
  else if type =? NLMSG_NOOP then
    (if is_set cb NL_CB_SKIPPED then NL_CB_CALL cb NL_CB_SKIPPED m (goto Next) else goto Next) st
  else if type =? NLMSG_OVERRUN then
    (if is_set cb NL_CB_OVERRUN then NL_CB_CALL cb NL_CB_OVERRUN m (goto Next) else goto (Out (- NLE_MSG_OVERFLOW))) st
  else if type =? NLMSG_ERROR then on_error st
  else (if is_set cb NL_CB_VALID then NL_CB_CALL cb NL_CB_VALID m (goto Next) else goto Next) st.

Definition on_ack_wanted : step := fun st =>
  if negb (Z.land hflags NLM_F_ACK =? 0) && is_set cb NL_CB_SEND_ACK then NL_CB_CALL cb NL_CB_SEND_ACK m on_type st
  else on_type st.

Definition on_interrupt : step := fun st =>
  if negb (Z.land hflags NLM_F_DUMP_INTR =? 0) then
    if is_set cb NL_CB_DUMP_INTR then NL_CB_CALL cb NL_CB_DUMP_INTR m on_ack_wanted st
    else on_ack_wanted (set_interrupted st)
  else on_ack_wanted st.

(** A control message ends a request; then the multipart flag. *)
Definition on_flags : step := fun st =>
  let ends := (type =? NLMSG_DONE) || (type =? NLMSG_ERROR) || (type =? NLMSG_NOOP) || (type =? NLMSG_OVERRUN) in
  let st := if ends then set_sk (set_seq_expect (u32 (s_seq_expect (l_sk st) + 1)) (l_sk st)) st else st in
  let st := if negb (Z.land hflags NLM_F_MULTI =? 0) then set_multipart true st else st in
  on_interrupt st.

Definition on_sequence : step := fun st =>
  if is_set cb NL_CB_SEQ_CHECK then NL_CB_CALL cb NL_CB_SEQ_CHECK m on_flags st
  else if negb (has_flag NL_NO_AUTO_ACK (l_sk st)) && negb (seq =? s_seq_expect (l_sk st)) then
    (if is_set cb NL_CB_INVALID then NL_CB_CALL cb NL_CB_INVALID m on_flags else goto (Out (- NLE_SEQ_MISMATCH))) st
  else on_flags st.

Definition on_message : step := fun st =>
  let st := count_message st in
  if is_set cb NL_CB_MSG_IN then NL_CB_CALL cb NL_CB_MSG_IN m on_sequence st else on_sequence st.

End Message.

(** The body of the loop for the message at [h], once it is converted. *)
Definition handle (cb : cbset) (r : recvd) (buf : bytes) (h : Z) (m : nl_msg) (st : loop) : option (flow * loop) :=
  let m := nlmsg_set_src (nlmsg_set_proto m (s_proto (l_sk st))) (rv_src r) in
  let m := match rv_creds r with Some c => nlmsg_set_creds m c | None => m end in
  len ← rd h 4 buf; type ← rd (h + 4) 2 buf; hflags ← rd (h + 6) 2 buf; seq ← rd (h + 8) 4 buf;
  on_message cb m len type hflags seq (drop (Z.to_nat (h + 16)) buf) (rv_src r) st.

(** [while (nlmsg_ok (hdr, n))]; [has] tells whether [msg] is allocated. *)
Fixpoint walk (fuel : nat) (cb : cbset) (r : recvd) (buf : bytes) (h n : Z) (st : loop) (has : bool) : io (flow * loop * bool) :=
  match fuel with
  | O => undefined
  | Datatypes.S fuel' =>
      ok ← from_option (NlAttr.nlmsg_ok buf h n);
      if negb ok then mret (Next, st, has) else
      (if has then heap (-2) else mret tt) ;;
      m ← from_option (NlAttr.nlmsg_convert (drop (Z.to_nat h) buf));
      match m with
      | None => mret (Out (- NLE_NOMEM), st, false)
      | Some m =>
          heap 2 ;;
          '(f, st) ← from_option (handle cb r buf h m st);
          match f with
          | Next => '(h, n) ← from_option (NlAttr.nlmsg_next buf h n); walk fuel' cb r buf h n st true
          | _ => mret (f, st, true)
          end
      end
  end.

(** From [stop:] or [out:] on. *)
Definition result (err : Z) (st : loop) : nl_sock * S * Z :=
  let err := if interrupted st then - NLE_DUMP_INTR else err in
  (l_sk st, l_user st, if err =? 0 then nrecv st else err).

(** From [continue_reading:] on. *)
Fixpoint reading (fuel : nat) (cb : cbset) (st : loop) : io (nl_sock * S * Z) :=
  match fuel with
  | O => undefined
  | Datatypes.S fuel' =>
      r ← (match cb_recv_ow cb with Some f => f (l_sk st) | None => nl_recv fuel true (l_sk st) end);
      if rv_n r <=? 0 then mret (l_sk st, l_user st, rv_n r) else
      buf ← from_option (rv_buf r);
      '(f, st, has) ← walk (Datatypes.S (Z.to_nat (rv_n r))) cb r buf 0 (rv_n r) st false;
      (if has : bool then heap (-2) else mret tt) ;; heap (-1) ;; free_opt (rv_creds r) ;;
      match f with
      | Next => if multipart st then reading fuel' cb st else mret (result 0 st)
      | Stop => mret (result 0 st)
      | Out err => mret (result err st)
      end
  end.

Definition recvmsgs (fuel : nat) (sk : nl_sock) (cb : cbset) (s : S) : io (nl_sock * S * Z) :=
  reading fuel cb (Loop sk s false false 0).

Definition nl_recvmsgs_report (fuel : nat) (sk : nl_sock) (cb : cbset) (s : S) : io (nl_sock * S * Z) :=
  match cb_recvmsgs_ow cb with Some f => f sk s | None => recvmsgs fuel sk cb s end.

Definition nl_recvmsgs (fuel : nat) (sk : nl_sock) (cb : cbset) (s : S) : io (nl_sock * S * Z) :=
  '(sk, s, err) ← nl_recvmsgs_report fuel sk cb s; mret (sk, s, if err >? 0 then 0 else err).

(** ** Sending *)

(** [getpid ()] and [default_msg_size]. *)
Variables getpid default_msg_size : Z.

Abbreviation N := (@N nl_msg nlmsgerr A S RM RV SD).

Definition nl_sendto (sk : nl_sock) (buf : option bytes) : N Z :=
  match buf with
  | None => mret (- NLE_INVAL)
  | Some data =>
      if s_fd sk <? 0 then mret (- NLE_BAD_SOCK) else
      r ← sys (SendtoAddr (s_fd sk) (nl_family (s_peer sk)) (nl_pid (s_peer sk)) (nl_groups (s_peer sk)) data);
      let ret := s32 (rc r) in
      mret (if ret <? 0 then - nl_syserr2nlerr (errno r) else ret)
  end.

(** [struct msghdr]: the destination, the data, and the credentials of the
    control message or nothing. *)
Record msghdr := Msghdr { msg_name : sockaddr_nl; msg_iov : bytes; msg_control : bytes }.

Definition nl_sendmsg (sk : nl_sock) (m : nl_msg) (hdr : msghdr) (s : S) : N (nl_msg * S * Z) :=
  if s_fd sk <? 0 then mret (m, s, - NLE_BAD_SOCK) else
  let m := nlmsg_set_src m (s_local sk) in
  cb ← get_cb (s_cb sk);
  '(ret, s) ← (if is_set cb NL_CB_MSG_OUT then of_option (nl_cb_call cb NL_CB_MSG_OUT m s) else mret (NL_OK, s));
  if negb (ret =? NL_OK) then mret (m, s, ret) else
  let dst := msg_name hdr in
  r ← sys (SendmsgAddr (s_fd sk) (nl_family dst) (nl_pid dst) (nl_groups dst) (msg_iov hdr) (msg_control hdr));
  let ret := s32 (rc r) in
  mret (m, s, if ret <? 0 then - nl_syserr2nlerr (errno r) else ret).

Definition nl_send_iovec (sk : nl_sock) (m : nl_msg) (iov : bytes) (s : S) : N (nl_msg * S * Z) :=
  let dst := nlmsg_get_dst m in
  let name := if nl_family dst =? AF_NETLINK then dst else s_peer sk in
  nl_sendmsg sk m (Msghdr name iov (default [] (nlmsg_get_creds m))) s.

(** The length field says how much of the block is sent. *)
Definition nl_send (sk : nl_sock) (m : nl_msg) (s : S) : N (nl_msg * S * Z) :=
  cb ← get_cb (s_cb sk);
  match cb_send_ow cb with
  | Some f => ret ← lift (f sk m); mret (m, s, ret)
  | None =>
      iov ← of_option (NlAttr.rd_bytes 0 (hdr_len (nm_block m)) (nlmsghdr (nm_block m)));
      nl_send_iovec sk m iov s
  end.

Definition nl_complete_msg (sk : nl_sock) (m : nl_msg) : N (nl_sock * nl_msg) :=
  '(sk, m) ← (if nlmsg_pid m =? 0 then
                '(sk, port) ← nl_socket_get_local_port getpid sk; mret (sk, set_field 12 4 port m)
              else mret (sk, m));
  let '(sk, m) := if nlmsg_seq m =? 0
                  then let '(sk, seq) := nl_socket_use_seq sk in (sk, set_field 8 4 seq m) else (sk, m) in
  let m := if nm_protocol m =? -1 then nlmsg_set_proto m (s_proto sk) else m in
  let m := set_field 6 2 (Z.lor (nlmsg_flags m) NLM_F_REQUEST) m in
  let m := if negb (has_flag NL_NO_AUTO_ACK sk) then set_field 6 2 (Z.lor (nlmsg_flags m) NLM_F_ACK) m else m in
  mret (sk, m).

Definition nl_send_auto (sk : nl_sock) (m : nl_msg) (s : S) : N (nl_sock * nl_msg * S * Z) :=
  '(sk, m) ← nl_complete_msg sk m;
  '(m, s, ret) ← nl_send sk m s; mret (sk, m, s, ret).

(** [nlmsg_free], with the blocks of the heap. *)
Definition drop_msg (m : nl_msg) : N unit :=
  o ← of_option (NlAttr.nlmsg_free (Some m)); match o with None => lift (heap (-2)) | Some _ => mret tt end.

Definition nl_recvmsgs_default (fuel : nat) (sk : nl_sock) (s : S) : N (nl_sock * S * Z) :=
  cb ← get_cb (s_cb sk); lift (nl_recvmsgs fuel sk cb s).

Definition ack_wait_handler : @msg_cb nl_msg A S := fun _ _ s => (NL_STOP, s).

Definition nl_wait_for_ack (fuel : nat) (sk : nl_sock) (s : S) : N (nl_sock * S * Z) :=
  p ← nl_cb_clone err_code (s_cb sk);
  match p with
  | None => mret (sk, s, - NLE_NOMEM)
  | Some c =>
      cb ← get_cb c;
      put_cb c (fst (nl_cb_set cb NL_CB_ACK NL_CB_CUSTOM (Some ack_wait_handler) None)) ;;
      cb ← get_cb c;
      r ← lift (nl_recvmsgs fuel sk cb s);
      nl_cb_put (Some c) ;; mret r
  end.

Definition wait_for_ack (fuel : nat) (sk : nl_sock) (s : S) : N (nl_sock * S * Z) :=
  if has_flag NL_NO_AUTO_ACK sk then mret (sk, s, 0) else nl_wait_for_ack fuel sk s.

Definition nl_send_sync (fuel : nat) (sk : nl_sock) (m : nl_msg) (s : S) : N (nl_sock * S * Z) :=
  '(sk, m, s, err) ← nl_send_auto sk m s;
  drop_msg m ;;
  if err <? 0 then mret (sk, s, err) else wait_for_ack fuel sk s.

Definition nl_send_simple (sk : nl_sock) (type flags : Z) (buf : option bytes) (s : S) : N (nl_sock * S * Z) :=
  match NlAttr.nlmsg_alloc_simple default_msg_size type flags with
  | None => mret (sk, s, - NLE_NOMEM)
  | Some m =>
      lift (heap 2) ;;
      let '(m, err) := match buf with
                       | Some data => if negb (zlen data =? 0) then NlAttr.nlmsg_append m data 4 else (m, 0)
                       | None => (m, 0)
                       end in
      if err <? 0 then drop_msg m ;; mret (sk, s, err) else
      '(sk, m, s, err) ← nl_send_auto sk m s;
      drop_msg m ;; mret (sk, s, err)
  end.

Definition nl_auto_complete (sk : nl_sock) (m : nl_msg) : N (nl_sock * nl_msg) := nl_complete_msg sk m.
Definition nl_send_auto_complete (sk : nl_sock) (m : nl_msg) (s : S) : N (nl_sock * nl_msg * S * Z) := nl_send_auto sk m s.

End Recv.

(** ** Every run ends and releases what it allocated *)

Section Balanced.
Context {A S : Type} {al : Allocator} {kernel : Kernel} {outputs : RecvOutputs}.
Variable getpagesize : Z.

Abbreviation cbset := (nl_cb nl_msg nlmsgerr A S (@RM S) RV SD).

Definition cb_ok (cb : cbset) : Prop := length (cb_args cb) = 11%nat /\ length (cb_set cb) = 11%nat.

Lemma nl_cb_call_total (cb : cbset) type m s : cb_ok cb -> is_set cb type = true -> is_Some (nl_cb_call cb type m s).
Proof.
  intros [Ha Hs] H. unfold is_set in H. unfold nl_cb_call. destruct (mjoin (cb_set cb !! Z.to_nat type)) as [f|] eqn:E; [|done].
  assert (Z.to_nat type < 11)%nat as Hlt.
  { rewrite <- Hs. apply lookup_lt_is_Some_1. destruct (cb_set cb !! Z.to_nat type); [done|discriminate E]. }
  rewrite <- Ha in Hlt. destruct (lookup_lt_is_Some_2 _ _ Hlt) as [a Ea]. simpl. rewrite Ea. by eexists.
Qed.

(** Only the expected sequence number of the socket changes. *)
Definition same_sock (sk sk' : nl_sock) : Prop := exists n, sk' = set_seq_expect n sk.

Lemma same_sock_refl sk : same_sock sk sk.
Proof. exists (s_seq_expect sk). by destruct sk. Qed.

Lemma same_sock_trans sk1 sk2 sk3 : same_sock sk1 sk2 -> same_sock sk2 sk3 -> same_sock sk1 sk3.
Proof. intros [n1 ->] [n2 ->]. by exists n2. Qed.

(** The step ends, in a state with the same socket. *)
Definition goes (k : @step S) (st : @loop S) : Prop :=
  exists f st', k st = Some (f, st') /\ same_sock (l_sk st) (l_sk st').

Lemma goes_from k (st st0 : @loop S) : goes k st -> same_sock (l_sk st0) (l_sk st) ->
  exists f st', k st = Some (f, st') /\ same_sock (l_sk st0) (l_sk st').
Proof. intros (f & st' & E & H) H0. exists f, st'. split; [done|]. by eapply same_sock_trans. Qed.

Lemma goes_at k f (st st' : @loop S) : k st = Some (f, st') -> l_sk st' = l_sk st -> goes k st.
Proof. intros E H. exists f, st'. rewrite H. split; [done|]. apply same_sock_refl. Qed.

Lemma NL_CB_CALL_goes (cb : cbset) type m k st : cb_ok cb -> is_set cb type = true -> (forall st, goes k st) ->
  goes (NL_CB_CALL cb type m k) st.
Proof.
  intros Hcb H Hk. unfold goes, NL_CB_CALL. destruct (nl_cb_call_total cb type m (l_user st) Hcb H) as [[err s] ->]. simpl.
  destruct (err =? NL_OK); [apply goes_from; [apply Hk|apply same_sock_refl]|].
  repeat case_match; do 2 eexists; (split; [done|apply same_sock_refl]).
Qed.

Lemma goto_goes f (st : @loop S) : goes (goto f) st.
Proof. by apply (goes_at _ f _ st). Qed.

Lemma call_or_goes (cb : cbset) type m (k k' : step) st : cb_ok cb -> (forall st, goes k st) ->
  goes k' st -> goes (fun st => (if is_set cb type then NL_CB_CALL cb type m k else k') st) st.
Proof. intros Hcb Hk Hk'. destruct (is_set cb type) eqn:E; [by apply NL_CB_CALL_goes|done]. Qed.

Lemma call_else_goes (cb : cbset) type m (k k' : step) st : cb_ok cb -> (forall st, goes k st) ->
  goes k' st -> goes (fun st => if is_set cb type then NL_CB_CALL cb type m k st else k' st) st.
Proof. intros Hcb Hk Hk'. destruct (is_set cb type) eqn:E; [by apply NL_CB_CALL_goes|done]. Qed.

Section Steps.
Context (cb : cbset) (m : nl_msg) (len type hflags seq : Z) (body : bytes) (nla : sockaddr_nl).
Hypothesis Hcb : cb_ok cb.

Lemma on_error_goes st : goes (on_error cb m len body nla) st.
Proof.
  unfold on_error. destruct (len <? 36); [apply call_or_goes; [done|intros; apply goto_goes|apply goto_goes]|].
  destruct (negb (err_code body =? 0)).
  - destruct (cb_err cb) as [f|]; [|by eapply goes_at]. destruct (f nla body (cb_err_arg cb) (l_user st)) as [err s] eqn:E.
    unfold goes. rewrite E. repeat case_match; do 2 eexists; (split; [done|apply same_sock_refl]).
  - apply (call_else_goes cb NL_CB_ACK m (goto Next) (goto Next)); [done|intros; apply goto_goes|apply goto_goes].
Qed.

Lemma on_type_goes st : goes (on_type cb m len type body nla) st.
Proof.
  unfold on_type. destruct (type =? NLMSG_DONE).
  { apply (goes_from _ (set_multipart false st) st); [|apply same_sock_refl].
    apply (call_or_goes cb NL_CB_FINISH m); [done|intros; apply goto_goes|apply goto_goes]. }
  destruct (type =? NLMSG_NOOP); [apply call_or_goes; [done|intros; apply goto_goes|apply goto_goes]|].
  destruct (type =? NLMSG_OVERRUN); [apply call_or_goes; [done|intros; apply goto_goes|apply goto_goes]|].
  destruct (type =? NLMSG_ERROR); [apply on_error_goes|].
  apply call_or_goes; [done|intros; apply goto_goes|apply goto_goes].
Qed.

Lemma on_ack_wanted_goes st : goes (on_ack_wanted cb m len type hflags body nla) st.
Proof.
  unfold on_ack_wanted. destruct (negb (Z.land hflags NLM_F_ACK =? 0)); simpl; [|apply on_type_goes].
  apply (call_else_goes cb NL_CB_SEND_ACK m); [done|apply on_type_goes|apply on_type_goes].
Qed.

Lemma on_flags_goes st : goes (on_flags cb m len type hflags body nla) st.
Proof.
  set (st1 := if (type =? NLMSG_DONE) || (type =? NLMSG_ERROR) || (type =? NLMSG_NOOP) || (type =? NLMSG_OVERRUN)
    then set_sk (set_seq_expect (u32 (s_seq_expect (l_sk st) + 1)) (l_sk st)) st else st).
  apply (goes_from (on_interrupt cb m len type hflags body nla) (if negb (Z.land hflags NLM_F_MULTI =? 0) then set_multipart true st1 else st1) st).
  - unfold on_interrupt. destruct (negb (Z.land hflags NLM_F_DUMP_INTR =? 0)); [|apply on_ack_wanted_goes].
    destruct (is_set cb NL_CB_DUMP_INTR) eqn:E; [by apply NL_CB_CALL_goes, on_ack_wanted_goes|].
    apply (goes_from (on_ack_wanted cb m len type hflags body nla)); [apply on_ack_wanted_goes|apply same_sock_refl].
  - assert (same_sock (l_sk st) (l_sk st1)) as H by (unfold st1; case_match; [by eexists|apply same_sock_refl]).
    by case_match.
Qed.

Lemma on_message_goes st : goes (on_message cb m len type hflags seq body nla) st.
Proof.
  assert (forall st, goes (on_sequence cb m len type hflags seq body nla) st) as Hseq.
  { intros st0. unfold on_sequence. destruct (is_set cb NL_CB_SEQ_CHECK) eqn:E; [by apply NL_CB_CALL_goes, on_flags_goes|].
    unfold goes. destruct (_ && _); [|apply on_flags_goes].
    apply (call_or_goes cb NL_CB_INVALID m); [done|apply on_flags_goes|apply goto_goes]. }
  destruct (call_else_goes cb NL_CB_MSG_IN m _ _ (count_message st) Hcb Hseq (Hseq _)) as (f & st' & E & Hs). by exists f, st'.
Qed.

End Steps.

(** Reading a message inside a buffer. *)
Lemma handle_goes (cb : cbset) r buf h m st : cb_ok cb -> 0 <= h -> h + 16 <= zlen buf -> goes (handle cb r buf h m) st.
Proof.
  intros Hcb H0 H1. unfold goes, handle. rewrite !NlParse.rd_Some by lia. by apply on_message_goes.
Qed.

Lemma convert_total buf l : 16 <= get_le 0 4 buf -> get_le 0 4 buf = l -> l <= zlen buf ->
  is_Some (NlAttr.nlmsg_convert buf).
Proof.
  intros H16 <- Hl. unfold NlAttr.nlmsg_convert. rewrite NlParse.rd_Some by lia. simpl.
  case_match; [|by eexists]. unfold NlAttr.rd_bytes.
  rewrite !(proj2 (Z.leb_le _ _)) by lia. by eexists.
Qed.

Lemma runs_from_option {B} (x : option B) (b : B) w (Q : B -> world -> Prop) : x = Some b -> Q b w -> runs (from_option x) w Q.
Proof. intros -> HQ. by exists b, w. Qed.

Lemma runs_when (b : bool) n w (Q : unit -> world -> Prop) :
  Q tt (World (log w) (live w + (if b then n else 0)) (br_socket_fd w)) -> runs (if b then heap n else mret tt) w Q.
Proof. destruct b; [apply runs_heap|]. rewrite Z.add_0_r. destruct w. apply runs_ret. Qed.

(** The blocks of a message. *)
Definition held (has : bool) : Z := if has then 2 else 0.

Lemma walk_total fuel (cb : cbset) r buf h n st has w : cb_ok cb -> 0 <= h -> h + n <= zlen buf -> n <= 2147483644 ->
  -3 <= n -> (Z.to_nat n < fuel)%nat ->
  runs (walk fuel cb r buf h n st has) w (fun res w' =>
    log w' = log w /\ live w' = live w - held has + held (snd res) /\ br_socket_fd w' = br_socket_fd w /\
    same_sock (l_sk st) (l_sk (snd (fst res)))).
Proof.
  intros Hcb. revert h n st has w. induction fuel as [|fuel IH]; intros h n st has w H0 H1 Hmax Hmin Hf; [lia|].
  cbn [walk]. apply runs_bind. unfold NlAttr.nlmsg_ok. rewrite Z.geb_leb.
  destruct (Z.leb_spec 16 n) as [Hn|Hn];
    [|eapply runs_from_option; [done|]; apply runs_ret; simpl; split_and!; [done|lia|done|apply same_sock_refl]].
  rewrite NlParse.rd_Some by lia. eapply runs_from_option; [done|]. unfold u32. rewrite wrap_id by lia.
  destruct (Z.leb_spec 16 (get_le h 4 buf)) as [Hl|]; [|apply runs_ret; simpl; split_and!; [done|lia|done|apply same_sock_refl]].
  destruct (Z.leb_spec (get_le h 4 buf) n) as [Hln|]; [|apply runs_ret; simpl; split_and!; [done|lia|done|apply same_sock_refl]].
  apply runs_bind, runs_when. cbn [log live br_socket_fd].
  assert (get_le 0 4 (drop (Z.to_nat h) buf) = get_le h 4 buf) as El.
  { unfold get_le. by rewrite drop_drop, Nat.add_0_r. }
  destruct (convert_total (drop (Z.to_nat h) buf) (get_le h 4 buf)) as [o Eo]; [lia|done| |].
  { unfold zlen in *. rewrite length_drop. lia. }
  apply runs_bind. eapply runs_from_option; [exact Eo|]. destruct o as [m|].
  2:{ apply runs_ret. simpl. split_and!; [done|destruct has; simpl; lia|done|apply same_sock_refl]. }
  apply runs_bind, runs_heap, runs_bind. cbn [log live br_socket_fd].
  destruct (handle_goes cb r buf h m st) as (f & st' & E & Hs); [done|lia|lia|]. eapply runs_from_option; [exact E|].
  destruct f; [|apply runs_ret; simpl; split_and!; [done|destruct has; simpl; lia|done|done]..].
  destruct (align_bounds (get_le h 4 buf)) as [Hal _]; [lia|].
  apply runs_bind. unfold NlAttr.nlmsg_next. rewrite NlParse.rd_Some by lia. eapply runs_from_option; [done|].
  rewrite (s32_id (NLMSG_ALIGN _)) by (unfold INT_MIN, INT_MAX; lia).
  rewrite s32_id by (unfold INT_MIN, INT_MAX; lia).
  eapply runs_mono; [apply IH; lia|]. intros [[f' st''] has'] w' (El' & Hlive & Hbr & Hs'). simpl in *.
  split_and!; [done| |done|by eapply same_sock_trans]. destruct has; simpl in *; lia.
Qed.

(** What the kernel answers is not larger than an [int] can tell, it reports
    truncated control data with the length it has stored, and after [K] calls
    there is nothing left to read. *)
Definition sane : Prop := forall h c,
  rc (answer h c) <= 2147483644 /\
  (Z.land (aux (answer h c)) MSG_CTRUNC <> 0 -> 0 < recv_controllen (h ++ [(c, answer h c)])).
Definition drained (K : nat) : Prop := forall h c, (K <= length h)%nat ->
  rc (answer h c) <= 0 /\ errno (answer h c) <> EINTR.

Definition block {B} (p : option B) : Z := match p with Some _ => 1 | None => 0 end.

Definition is_receive (fd : Z) (e : call * reply) : Prop := exists len clen flags, fst e = RecvmsgFlags fd len clen flags.

(** From [w] to [w'] the program only received. *)
Definition only_receives (fd : Z) (w w' : world) : Prop :=
  (exists rs, log w' = log w ++ rs /\ Forall (is_receive fd) rs) /\ br_socket_fd w' = br_socket_fd w.

Lemma only_receives_refl fd w w' : log w' = log w -> br_socket_fd w' = br_socket_fd w -> only_receives fd w w'.
Proof. intros E Eb. split; [|done]. exists []. by rewrite app_nil_r. Qed.

Lemma only_receives_trans fd w1 w2 w3 : only_receives fd w1 w2 -> only_receives fd w2 w3 -> only_receives fd w1 w3.
Proof.
  intros [(r1 & E1 & H1) B1] [(r2 & E2 & H2) B2]. split; [|congruence]. exists (r1 ++ r2). rewrite E2, E1, app_assoc.
  split; [done|]. by apply Forall_app.
Qed.

Lemma only_receives_one fd len clen fl r w n :
  only_receives fd w (World (log w ++ [(RecvmsgFlags fd len clen fl, r)]) n (br_socket_fd w)).
Proof. split; [|done]. exists [(RecvmsgFlags fd len clen fl, r)]. split; [done|]. constructor; [|done]. by exists len, clen, fl. Qed.

(** [nl_recv] started with [blocks] of its own: they are gone when it fails;
    else the data, and the credentials if any, are left to the caller. *)
Definition recv_post (K : nat) (fd blocks : Z) (w : world) (r : recvd) (w' : world) : Prop :=
  only_receives fd w w' /\
  if 0 <? rv_n r then
    live w' = live w - blocks + 1 + block (rv_creds r) /\ (length (log w) < length (log w') <= K)%nat /\ rv_n r <= 2147483644 /\
    exists buf, rv_buf r = Some buf /\ rv_n r <= zlen buf
  else live w' = live w - blocks.

Lemma runs_free_opt {B} (p : option B) w (Q : unit -> world -> Prop) :
  Q tt (World (log w) (live w - block p) (br_socket_fd w)) -> runs (free_opt p) w Q.
Proof. destruct p; simpl; [apply runs_heap|]. rewrite Z.sub_0_r. destruct w. apply runs_ret. Qed.

(** The exit with an error. *)
Lemma recv_abort_error l retval w : retval <= 0 ->
  runs (recv_abort l retval None) w (fun r w' => rv_n r = retval /\ log w' = log w /\
    live w' = live w - block (control l) - 1 /\ br_socket_fd w' = br_socket_fd w).
Proof.
  intros Hr. unfold recv_abort. apply runs_bind, runs_free_opt. rewrite (proj2 (Z.leb_le _ _)) by done.
  apply runs_bind, runs_heap, runs_bind, runs_free_opt, runs_ret. simpl. split_and!; [done|done|lia|done].
Qed.

(** The exit with data. *)
Lemma recv_abort_data l retval creds w : 0 < retval ->
  runs (recv_abort l retval creds) w (fun r w' => rv_n r = retval /\ rv_buf r = Some (iov_base l) /\ rv_creds r = creds /\
    rv_src r = recv_name (log w) /\ log w' = log w /\ live w' = live w - block (control l) /\ br_socket_fd w' = br_socket_fd w).
Proof.
  intros Hr. unfold recv_abort. apply runs_bind, runs_free_opt. rewrite (proj2 (Z.leb_gt _ _)) by done.
  apply runs_bind. do 2 eexists. split; [reflexivity|]. apply runs_ret. done.
Qed.

Lemma abort_error_post K fd l retval w0 w1 blocks : retval <= 0 -> only_receives fd w0 w1 ->
  live w1 - block (control l) - 1 = live w0 - blocks -> runs (recv_abort l retval None) w1 (recv_post K fd blocks w0).
Proof.
  intros Hr Ho Hl. eapply runs_mono; [by apply recv_abort_error|]. intros r w' (E & El & Ev & Eb). split.
  - eapply only_receives_trans; [done|by apply only_receives_refl].
  - rewrite E, (proj2 (Z.ltb_ge _ _)) by done. lia.
Qed.

Lemma abort_data_post K fd l retval creds w0 w1 blocks : 0 < retval <= 2147483644 -> retval <= zlen (iov_base l) ->
  only_receives fd w0 w1 -> (length (log w0) < length (log w1) <= K)%nat ->
  live w1 - block (control l) = live w0 - blocks + 1 + block creds ->
  runs (recv_abort l retval creds) w1 (recv_post K fd blocks w0).
Proof.
  intros Hr Hlen Ho Hlog Hl. eapply runs_mono; [apply recv_abort_data; lia|]. intros r w' (E & Eb & Ec & _ & El & Ev & Ebr).
  split; [eapply only_receives_trans; [done|by apply only_receives_refl]|].
  rewrite E, (proj2 (Z.ltb_lt _ _)) by lia. rewrite Ec, El. split_and!; [lia|lia|lia|lia|]. eauto.
Qed.

Lemma nl_syserr2nlerr_pos e : 0 < nl_syserr2nlerr e.
Proof. unfold nl_syserr2nlerr. repeat case_match; done. Qed.

Lemma recv_post_trans K fd b b' w w1 r w' : only_receives fd w w1 -> (length (log w) <= length (log w1))%nat ->
  live w1 - b' = live w - b -> recv_post K fd b' w1 r w' -> recv_post K fd b w r w'.
Proof.
  intros Ho Hlog Hl [Ho' H]. split; [by eapply only_receives_trans|]. case_match; [|lia].
  destruct H as (Hv & Hl' & Hn & Hbuf). split_and!; [lia|lia|lia|done|done].
Qed.

Lemma recv_fill n (p base : bytes) : zlen base = n -> zlen (splice 0 (take (Z.to_nat n) p) base) = n.
Proof.
  intros H. rewrite <- H. unfold zlen. f_equal. apply splice_length; [lia|]. unfold zlen. rewrite length_take. lia.
Qed.

Lemma recv_retry_post K : sane -> drained K -> forall fuel sk wc l w, zlen (iov_base l) = iov_len l ->
  (K - length (log w) < fuel)%nat ->
  runs (recv_retry fuel sk wc l) w (recv_post K (s_fd sk) (1 + block (control l)) w).
Proof.
  intros Hsane Hdr. induction fuel as [|fuel IH]; intros sk wc l w Hlen Hf; [lia|]. cbn [recv_retry].
  set (c := RecvmsgFlags _ _ _ _). apply runs_bind, runs_syscall, runs_bind. do 2 eexists. split; [reflexivity|].
  destruct (Hsane (log w) c) as [Hrc Hct]. pose proof (Hdr (log w) c) as Hd. set (r := answer (log w) c) in *. clearbody r.
  set (w1 := World (log w ++ [(c, r)]) (live w) (br_socket_fd w)).
  assert (only_receives (s_fd sk) w w1) as Ho by apply only_receives_one.
  assert (length (log w1) = Datatypes.S (length (log w))) as Hlog1 by (unfold w1; simpl; rewrite length_app; simpl; lia).
  assert ((length (log w) < K)%nat -> forall l' n, zlen (iov_base l') = iov_len l' -> n - block (control l') = live w - block (control l) ->
    runs (recv_retry fuel sk wc l') (World (log w1) n (br_socket_fd w)) (recv_post K (s_fd sk) (1 + block (control l)) w)) as Hgo.
  { intros HK l' n Hlen' Hn. set (w2 := World (log w1) n (br_socket_fd w)). eapply runs_mono.
    - apply (IH sk wc l' w2 Hlen'). change (log w2) with (log w1). lia.
    - intros v w'. apply recv_post_trans; [by apply only_receives_one|change (log w2) with (log w1); lia|cbn [live w2]; lia]. }
  assert (forall l' n retval, retval <= 0 -> n - block (control l') = live w - block (control l) ->
    runs (recv_abort l' retval None) (World (log w1) n (br_socket_fd w)) (recv_post K (s_fd sk) (1 + block (control l)) w)) as Hab.
  { intros l' n retval Hr Hn. apply abort_error_post; [done|by apply only_receives_one|simpl; lia]. }
  destruct (Z.ltb_spec (rc r) 0) as [Hneg|Hnn].
  { destruct (Z.eqb_spec (errno r) EINTR) as [He|He].
    - apply Hgo; [|done|done]. destruct (decide (K <= length (log w))%nat) as [Hk|]; [by destruct (Hd Hk)|lia].
    - apply Hab; [|done]. pose proof (nl_syserr2nlerr_pos (errno r)). lia. }
  assert (forall p, zlen (splice 0 (take (Z.to_nat (iov_len l)) p) (iov_base l)) = iov_len l) as Hfill by (intros; by apply recv_fill).
  destruct (Z.eqb_spec (rc r) 0) as [H0|H0]; [by apply Hab|].
  assert (length (log w) < K)%nat as HK by (destruct (decide (K <= length (log w))%nat) as [Hk|]; [destruct (Hd Hk); lia|lia]).
  cbn [iov_len iov_base control controllen flags].
  destruct (Z.eqb_spec (Z.land (aux r) MSG_CTRUNC) 0) as [Hc|Hc]; cbn [negb].
  2:{ specialize (Hct Hc). destruct (control l) as [cl|] eqn:Ec.
      - rewrite (proj2 (Z.eqb_neq _ _)) by (simpl; lia). case_match; [|by apply Hab]. apply Hgo; [done|apply Hfill|done].
      - case_match; [|by apply Hab]. apply runs_bind, runs_heap. apply Hgo; [done|apply Hfill|]. simpl. lia. }
  destruct ((iov_len l <? rc r) || negb (Z.land (aux r) MSG_TRUNC =? 0)) eqn:Et.
  { case_match; [|by apply Hab]. apply Hgo; [done| |done]. simpl. unfold zlen. rewrite length_resize. lia. }
  apply orb_false_iff in Et as [Et _]. apply Z.ltb_ge in Et.
  case_match; [apply Hgo; [done|apply Hfill|done]|]. case_match; [by apply Hab|].
  assert (s32 (rc r) = rc r) as -> by (apply s32_id; unfold INT_MIN, INT_MAX; lia).
  assert (forall n creds, n - block (control l) = live w - block (control l) + block creds ->
    runs (recv_abort (Locals (iov_len l) (splice 0 (take (Z.to_nat (iov_len l)) (payload r)) (iov_base l)) (control l)
        (recv_controllen (log w1)) (flags l)) (rc r) creds)
      (World (log w1) n (br_socket_fd w)) (recv_post K (s_fd sk) (1 + block (control l)) w)) as Hdata.
  { intros n creds Hn. apply abort_data_post; [lia|cbn [iov_base]; rewrite Hfill; lia|by apply only_receives_one|cbn [log]; lia|].
    cbn [control live]. lia. }
  case_match; [|by apply Hdata; simpl; lia]. case_match; [|by apply Hdata; simpl; lia].
  case_match; [|by apply Hab]. apply runs_bind, runs_heap. apply Hdata. simpl. lia.
Qed.

Hypothesis page_size : 0 <= getpagesize.

Lemma nl_recv_post K fuel wc sk w : sane -> drained K -> 0 <= s_bufsize sk -> (K - length (log w) < fuel)%nat ->
  runs (nl_recv getpagesize fuel wc sk) w (recv_post K (s_fd sk) 0 w).
Proof.
  intros Hsane Hdr Hbuf Hf. unfold nl_recv. assert (0 <= buf_len getpagesize sk) as Hlen by (unfold buf_len; case_match; lia).
  set (len := buf_len getpagesize sk) in *. clearbody len.
  case_match; [by apply runs_ret; split; [apply only_receives_refl|simpl; lia]|].
  apply runs_bind, runs_heap.
  assert (forall l n, zlen (iov_base l) = iov_len l -> n - block (control l) = live w + 1 ->
    runs (recv_retry fuel sk wc l) (World (log w) n (br_socket_fd w)) (recv_post K (s_fd sk) 0 w)) as Hgo.
  { intros l n Hl Hn. eapply runs_mono; [by apply (recv_retry_post K)|]. intros r w'.
    apply recv_post_trans; [by apply only_receives_refl|done|simpl; lia]. }
  assert (forall (b : Z), zlen (replicate (Z.to_nat len) b) = len) as Hz by (intros; rewrite zlen_replicate; lia).
  case_match; [|by apply Hgo; [apply Hz|simpl; lia]].
  case_match; [by apply abort_error_post; [done|apply only_receives_refl|simpl; lia]|].
  apply runs_bind, runs_heap, Hgo; [apply Hz|simpl; lia].
Qed.

Lemma reading_balanced K (cb : cbset) : sane -> drained K -> cb_ok cb -> cb_recv_ow cb = None ->
  forall fuel st w, 0 <= s_bufsize (l_sk st) -> (K - length (log w) < fuel)%nat ->
  runs (reading getpagesize fuel cb st) w (fun res w' => same_sock (l_sk st) (fst (fst res)) /\ live w' = live w /\
    only_receives (s_fd (l_sk st)) w w').
Proof.
  intros Hsane Hdr Hcb Hov. induction fuel as [|fuel IH]; intros st w Hbuf Hf; [lia|]. cbn [reading]. rewrite Hov.
  apply runs_bind. eapply runs_mono; [by apply (nl_recv_post K)|]. intros r w1 [Ho Hr].
  destruct (Z.ltb_spec 0 (rv_n r)) as [Hn|Hn].
  2:{ rewrite (proj2 (Z.leb_le _ _)) by done. apply runs_ret. split_and!; [apply same_sock_refl|lia|done]. }
  rewrite (proj2 (Z.leb_gt _ _)) by done. destruct Hr as (Hlive & Hlog & Hmax & buf & Eb & Hlen).
  apply runs_bind. eapply runs_from_option; [exact Eb|]. apply runs_bind.
  eapply runs_mono; [by apply walk_total; [done|lia..]|]. intros [[f st'] has] w2 (El & Hl2 & Hbr & Hs). cbn [fst snd] in *.
  apply runs_bind, runs_when, runs_bind, runs_heap, runs_bind, runs_free_opt. cbn [log live br_socket_fd].
  set (w3 := World _ _ _). assert (live w3 = live w) as Hl3 by (unfold w3, held in *; cbn [live]; destruct has; lia).
  assert (only_receives (s_fd (l_sk st)) w w3) as Ho3 by (eapply only_receives_trans; [exact Ho|by apply only_receives_refl]).
  destruct f; [|by apply runs_ret..]. destruct (multipart st'); [|by apply runs_ret].
  pose proof Hs as [n Es]. assert (s_bufsize (l_sk st') = s_bufsize (l_sk st) /\ s_fd (l_sk st') = s_fd (l_sk st)) as [Eb' Ef'] by (by rewrite Es).
  eapply runs_mono; [apply IH; [lia|unfold w3; simpl; rewrite El; lia]|]. intros v w' (Hss & Hv & Hor).
  split_and!; [by eapply same_sock_trans|lia|]. rewrite Ef' in Hor. by eapply only_receives_trans.
Qed.

(** C20: whatever the allocator refuses and whatever the functions of the user
    answer, when the user has not replaced [nl_recv] or the loop itself,
    [nl_recvmsgs] ends once the kernel has nothing left: it reads no byte
    outside its buffers, frees every buffer, message and credential it
    allocated exactly once, makes no system call but to receive, and changes
    nothing of the socket but the expected sequence number. The kernel sends
    what it likes, in datagrams below 2 GiB, but reports truncated control data
    only when it has stored some: otherwise a buffer is freed twice
    ([nl_recv_frees_twice]). *)
Theorem nl_recvmsgs_balanced K fuel sk (cb : cbset) s w : sane -> drained K -> cb_ok cb -> cb_recv_ow cb = None ->
  cb_recvmsgs_ow cb = None -> 0 <= s_bufsize sk -> (K < fuel)%nat ->
  runs (nl_recvmsgs getpagesize fuel sk cb s) w (fun res w' => snd res <= 0 /\ same_sock sk (fst (fst res)) /\
    live w' = live w /\ only_receives (s_fd sk) w w').
Proof.
  intros Hsane Hdr Hcb Hr Hm Hb Hf. unfold nl_recvmsgs, nl_recvmsgs_report. rewrite Hm. apply runs_bind.
  eapply runs_mono; [apply (reading_balanced K cb Hsane Hdr Hcb Hr fuel (Loop sk s false false 0)); simpl; [done|lia]|].
  intros [[sk' s'] err] w' (Hs & Hl & Ho). apply runs_ret. split_and!; [|done..]. simpl. rewrite Z.gtb_ltb. case_match; lia.
Qed.

End Balanced.

(** ** Replies of the kernel *)

Section Replies.
Import NlParse (message, Msg, m_rest, m_body, m_type, enc_msg, enc_msgs, msg_ok, datagram).
Context {A S : Type} {al : Allocator} {kernel : Kernel} {outputs : RecvOutputs}.
Variable getpagesize : Z.
Hypothesis memory : malloc_total al.

Abbreviation cbset := (nl_cb nl_msg nlmsgerr A S (@RM S) RV SD).

Definition m_flags (x : message) : Z := get_le 2 2 (m_rest x).
Definition m_seq (x : message) : Z := get_le 4 4 (m_rest x).

(** The fields of a header in a buffer. *)
Lemma rest_field off n x P Q : msg_ok x -> 0 <= off -> off + Z.of_nat n <= 12 ->
  rd (zlen P + 4 + off) n (P ++ enc_msg x ++ Q) = Some (get_le off n (m_rest x)).
Proof.
  intros [Hr Hb] H0 H1. pose proof (zlen_nonneg P). pose proof (zlen_nonneg Q). pose proof (zlen_nonneg (m_body x)).
  pose proof (zlen_nonneg (pad (16 + zlen (m_body x)))).
  rewrite NlParse.rd_Some; [|lia|].
  2:{ unfold enc_msg. rewrite !zlen_app, NlParse.wire_length by done. lia. }
  f_equal. unfold enc_msg, NetRequests.wire. rewrite <- !app_assoc. unfold get_le. rewrite (app_assoc P).
  rewrite drop_app_ge by (rewrite length_app, le_bytes_length; unfold zlen; lia).
  unfold zlen in *. rewrite drop_app_le, take_app_le by (rewrite ?length_drop, length_app, le_bytes_length; lia).
  do 2 f_equal. f_equal. rewrite length_app, le_bytes_length. lia.
Qed.

(** The message the functions of the user get. *)
Definition message_of (proto : Z) (nla : sockaddr_nl) (x : message) : nl_msg :=
  NlMsg proto 0 (addr_bytes nla) NlAttr.zero_addr NlAttr.zero_addr
    (Nlmsg (enc_msg x) (NLMSG_ALIGN (16 + zlen (m_body x)))) 1.

Lemma convert_enc x P Q : msg_ok x -> zlen (P ++ enc_msg x ++ Q) < 2 ^ 31 -> exists m,
  NlAttr.nlmsg_convert (drop (Z.to_nat (zlen P)) (P ++ enc_msg x ++ Q)) = Some (Some m) /\
  forall proto nla, nlmsg_set_src (nlmsg_set_proto m proto) nla = message_of proto nla x.
Proof.
  intros Hx Hbuf. pose proof Hx as [Hr Hb]. pose proof (zlen_nonneg (m_body x)). pose proof (NlParse.enc_msg_length x Hx) as El.
  destruct (align_bounds (16 + zlen (m_body x))) as [Hal _]; [lia|]. pose proof (zlen_nonneg P). pose proof (zlen_nonneg Q).
  rewrite !zlen_app in Hbuf. unfold zlen at 1. rewrite Nat2Z.id, drop_app_length. unfold NlAttr.nlmsg_convert.
  destruct (NlParse.msg_fields x [] Q Hx) as (E & _ & _); [rewrite app_nil_l, zlen_app; lia|].
  rewrite app_nil_l in E. change (zlen []) with 0 in E. rewrite E. cbn [mbind option_bind]. unfold NlAttr.__nlmsg_alloc.
  rewrite (proj2 (Z.ltb_ge _ 16)) by lia. rewrite !memory by (unfold NlAttr.nl_msg_size; lia). cbn [andb].
  unfold NlAttr.rd_bytes. rewrite !(proj2 (Z.leb_le _ _)) by (rewrite ?zlen_app; lia). cbn [andb mbind option_bind].
  eexists. split; [done|]. intros proto nla. unfold message_of, nlmsg_set_src, nlmsg_set_proto, NlAttr.with_block.
  cbn [nm_flags nm_dst nm_creds nm_block nm_refcnt]. do 2 f_equal.
  unfold NlAttr.nm_nlh, poke, put_le, enc_msg. cbn [nm_block nlmsghdr]. pose proof (NlParse.wire_length x Hr) as Hw.
  set (wi := NetRequests.wire _ _) in *. change (Z.to_nat 0) with 0%nat. rewrite drop_0, <- app_assoc, take_app_length' by (unfold zlen in *; lia).
  unfold splice at 1. change (Z.to_nat 0) with 0%nat. rewrite take_0, app_nil_l, Nat.add_0_l. f_equal.
  unfold splice. change (Z.to_nat 0) with 0%nat. rewrite take_0, app_nil_l, Nat.add_0_l, le_bytes_length, drop_replicate.
  rewrite drop_app_ge by (rewrite le_bytes_length; unfold zlen in *; lia). rewrite le_bytes_length, drop_replicate.
  unfold pad. f_equal. unfold zlen in *. lia.
Qed.

(** One round of the loop; [n] bytes are left behind the message. *)
Lemma walk_step k (cb : cbset) r x P Q st has lg b br n : msg_ok x -> zlen (P ++ enc_msg x ++ Q) < 2 ^ 31 -> rv_creds r = None ->
  0 <= n <= zlen Q ->
  walk (Datatypes.S k) cb r (P ++ enc_msg x ++ Q) (zlen P) (zlen (enc_msg x) + n) st has (World lg (b + held has) br) =
  match on_message cb (message_of (s_proto (l_sk st)) (rv_src r) x) (16 + zlen (m_body x)) (m_type x) (m_flags x) (m_seq x)
          (drop (Z.to_nat (zlen P + 16)) (P ++ enc_msg x ++ Q)) (rv_src r) st with
  | Some (Next, st') => walk k cb r (P ++ enc_msg x ++ Q) (zlen (P ++ enc_msg x)) n st' true (World lg (b + held true) br)
  | Some (f, st') => Some ((f, st', true), World lg (b + held true) br)
  | None => None
  end.
Proof.
  intros Hx Hbuf Hc Hn. pose proof Hx as [Hr Hb]. pose proof (zlen_nonneg (m_body x)). pose proof (NlParse.enc_msg_length x Hx) as El.
  destruct (align_bounds (16 + zlen (m_body x))) as [Hal _]; [lia|]. pose proof (zlen_nonneg P).
  destruct (NlParse.msg_fields x P Q Hx Hbuf) as (E1 & E2 & _). destruct (convert_enc x P Q Hx Hbuf) as (m & Em & Hm).
  pose proof (rest_field 2 2 x P Q Hx ltac:(lia) ltac:(lia)) as E3. pose proof (rest_field 4 4 x P Q Hx ltac:(lia) ltac:(lia)) as E4.
  replace (zlen P + 4 + 2) with (zlen P + 6) in E3 by lia. replace (zlen P + 4 + 4) with (zlen P + 8) in E4 by lia.
  set (buf := P ++ enc_msg x ++ Q) in *.
  assert (NlAttr.nlmsg_ok buf (zlen P) (zlen (enc_msg x) + n) = Some true) as Eok.
  { unfold NlAttr.nlmsg_ok. rewrite Z.geb_leb, (proj2 (Z.leb_le 16 _)), E1 by lia. cbn [mbind option_bind]. unfold u32.
    rewrite wrap_id by (unfold buf in Hbuf; rewrite !zlen_app in Hbuf; lia). by rewrite !(proj2 (Z.leb_le _ _)) by lia. }
  assert (NlAttr.nlmsg_next buf (zlen P) (zlen (enc_msg x) + n) = Some (zlen (P ++ enc_msg x), n)) as Enext.
  { unfold buf in Hbuf. rewrite !zlen_app in Hbuf. unfold NlAttr.nlmsg_next. rewrite E1. cbn [mbind option_bind].
    rewrite <- El, !s32_id by (unfold INT_MIN, INT_MAX; lia). rewrite zlen_app. do 3 f_equal. lia. }
  cbn [walk]. unfold mbind, io_bind, from_option at 1. rewrite Eok. cbn [mbind option_bind negb].
  assert ((if has then heap (-2) else mret tt) (World lg (b + held has) br) = Some (tt, World lg b br)) as ->.
  { unfold heap, held, mret, io_ret. destruct has; cbn [log live br_socket_fd]; repeat f_equal; lia. }
  unfold from_option at 1. rewrite Em. cbn [mbind option_bind heap log live br_socket_fd].
  unfold from_option at 1. unfold handle. rewrite Hc, Hm, E1, E2, E3, E4. cbn [mbind option_bind].
  destruct (on_message _ _ _ _ _ _ _ _ _) as [[[| |err] st']|]; [|done..]. cbn [mbind option_bind].
  unfold from_option. rewrite Enext. done.
Qed.

(** A function of the user for the data; no function looks at all messages,
    at sequence numbers or at the end of a dump. *)
Record hooked (cb : cbset) (g : @msg_cb nl_msg A S) (arg : option A) : Prop := {
  reads : nl_cb_call cb NL_CB_VALID = fun m s => Some (g m arg s);
  is_reader : is_set cb NL_CB_VALID = true;
  no_msg_in : is_set cb NL_CB_MSG_IN = false;
  no_seq_check : is_set cb NL_CB_SEQ_CHECK = false;
  no_finish : is_set cb NL_CB_FINISH = false;
  own_recv : cb_recv_ow cb = None
}.

(** The function of the user lets the loop go on. *)
Definition goes_on (r : Z * S) : Prop := fst r = NL_OK \/ fst r = NL_SKIP.

Record reader (cb : cbset) (g : @msg_cb nl_msg A S) (arg : option A) : Prop := {
  rd_hooked : hooked cb g arg;
  continues : forall m s, goes_on (g m arg s)
}.

(** A part of a dump, with the expected sequence number [e]. *)
Definition in_dump (e : Z) (x : message) : Prop :=
  msg_ok x /\ m_seq x = e /\ Z.land (m_flags x) NLM_F_MULTI <> 0 /\
  Z.land (m_flags x) NLM_F_ACK = 0 /\ Z.land (m_flags x) NLM_F_DUMP_INTR = 0.
Definition is_data (x : message) : Prop := 4 < m_type x.

Section Dump.
Context (cb : cbset) (g : @msg_cb nl_msg A S) (arg : option A) (Hcb : hooked cb g arg).
Context (nla : sockaddr_nl).

(** What the function of the user makes of a message. *)
Definition read_one (proto : Z) (s : S) (x : message) : S := snd (g (message_of proto nla x) arg s).

(** It goes on at every message of a run. *)
Fixpoint calm (proto : Z) (ms : list message) (s : S) : Prop :=
  match ms with [] => True | x :: ms' => goes_on (g (message_of proto nla x) arg s) /\ calm proto ms' (read_one proto s x) end.

Lemma calm_app proto ms1 ms2 s : calm proto (ms1 ++ ms2) s <-> calm proto ms1 s /\ calm proto ms2 (fold_left (read_one proto) ms1 s).
Proof. revert s. induction ms1 as [|x ms1 IH]; intros s; cbn [app calm fold_left]; [tauto|]. rewrite IH. tauto. Qed.

Definition read_state (st : loop) (x : message) : loop :=
  Loop (l_sk st) (read_one (s_proto (l_sk st)) (l_user st) x) true (interrupted st) (s32 (nrecv st + 1)).

Lemma on_message_flags m len type hflags seq body st :
  seq = s_seq_expect (l_sk st) -> Z.land hflags NLM_F_MULTI <> 0 -> Z.land hflags NLM_F_ACK = 0 -> Z.land hflags NLM_F_DUMP_INTR = 0 ->
  on_message cb m len type hflags seq body nla st =
  on_type cb m len type body nla (set_multipart true
    (if (type =? NLMSG_DONE) || (type =? NLMSG_ERROR) || (type =? NLMSG_NOOP) || (type =? NLMSG_OVERRUN)
     then set_sk (set_seq_expect (u32 (s_seq_expect (l_sk st) + 1)) (l_sk st)) (count_message st) else count_message st)).
Proof.
  intros -> Hm Ha Hi. unfold on_message, on_sequence. rewrite (no_msg_in _ _ _ Hcb), (no_seq_check _ _ _ Hcb).
  change (l_sk (count_message st)) with (l_sk st). rewrite Z.eqb_refl, andb_false_r.
  unfold on_flags, on_interrupt, on_ack_wanted. rewrite Ha, Hi, (proj2 (Z.eqb_neq _ _) Hm). done.
Qed.

Lemma on_message_data x body st : in_dump (s_seq_expect (l_sk st)) x -> is_data x ->
  goes_on (g (message_of (s_proto (l_sk st)) nla x) arg (l_user st)) ->
  on_message cb (message_of (s_proto (l_sk st)) nla x) (16 + zlen (m_body x)) (m_type x) (m_flags x) (m_seq x) body nla st =
  Some (Next, read_state st x).
Proof.
  intros (_ & Hs & Hm & Ha & Hi) Hd Hgo. unfold is_data in Hd. rewrite on_message_flags by done. unfold on_type.
  rewrite !(proj2 (Z.eqb_neq _ _)) by (unfold NLMSG_DONE, NLMSG_ERROR, NLMSG_NOOP, NLMSG_OVERRUN; lia). cbn [orb].
  rewrite (is_reader _ _ _ Hcb). unfold NL_CB_CALL. rewrite (reads _ _ _ Hcb). cbn [mbind option_bind].
  unfold read_state, read_one. cbn [l_user set_multipart count_message].
  destruct Hgo as [E|E];
    destruct (g _ arg (l_user st)) as [err s']; cbn [fst] in E; rewrite E; done.
Qed.

Lemma on_message_done x body st : in_dump (s_seq_expect (l_sk st)) x -> m_type x = NLMSG_DONE ->
  on_message cb (message_of (s_proto (l_sk st)) nla x) (16 + zlen (m_body x)) (m_type x) (m_flags x) (m_seq x) body nla st =
  Some (Next, Loop (set_seq_expect (u32 (s_seq_expect (l_sk st) + 1)) (l_sk st)) (l_user st) false (interrupted st) (s32 (nrecv st + 1))).
Proof.
  intros (_ & Hs & Hm & Ha & Hi) ->. rewrite on_message_flags by done. unfold on_type.
  change (NLMSG_DONE =? NLMSG_DONE) with true. cbn [orb]. by rewrite (no_finish _ _ _ Hcb).
Qed.

Lemma fold_read_sk ms st : l_sk (fold_left read_state ms st) = l_sk st.
Proof. revert st. induction ms as [|x ms IH]; intros st; [done|]. simpl. by rewrite IH. Qed.

(** The loop over the data of one datagram. *)
Lemma walk_data ms k r P Q st has lg b br n : Forall (in_dump (s_seq_expect (l_sk st))) ms -> Forall is_data ms ->
  calm (s_proto (l_sk st)) ms (l_user st) ->
  zlen (P ++ enc_msgs ms ++ Q) < 2 ^ 31 -> rv_creds r = None -> rv_src r = nla -> 0 <= n <= zlen Q ->
  walk (length ms + k) cb r (P ++ enc_msgs ms ++ Q) (zlen P) (zlen (enc_msgs ms) + n) st has (World lg (b + held has) br) =
  let has' := match ms with [] => has | _ => true end in
  walk k cb r (P ++ enc_msgs ms ++ Q) (zlen (P ++ enc_msgs ms)) n (fold_left read_state ms st) has' (World lg (b + held has') br).
Proof.
  revert P st has. induction ms as [|x ms IH]; intros P st has Hd Ht Hcalm Hbuf Hc Hs Hn.
  { cbn [enc_msgs map concat length Nat.add fold_left]. by rewrite app_nil_r. }
  apply list.Forall_cons in Hd as [Hx Hd]. apply list.Forall_cons in Ht as [Hy Ht]. destruct Hcalm as [Hgo Hcalm].
  change (enc_msgs (x :: ms)) with (enc_msg x ++ enc_msgs ms) in *. rewrite <- app_assoc in *.
  rewrite zlen_app, <- Z.add_assoc. cbn [length Nat.add]. pose proof (zlen_nonneg (enc_msgs ms)).
  rewrite walk_step; [|apply Hx|done|done|rewrite zlen_app; lia]. rewrite Hs, on_message_data by done.
  rewrite (app_assoc P (enc_msg x) (enc_msgs ms ++ Q)) in *. rewrite IH by done. cbn [fold_left].
  destruct ms; by rewrite <- !app_assoc.
Qed.

(** A socket that reads with one call, into a buffer of less than [2^31] bytes. *)
Definition simple_sock (sk : nl_sock) : Prop :=
  has_flag NL_MSG_PEEK sk = false /\ has_flag NL_SOCK_PASSCRED sk = false /\ 0 <= buf_len getpagesize sk < 2 ^ 31.

Definition recv_call (sk : nl_sock) : call := RecvmsgFlags (s_fd sk) (buf_len getpagesize sk) 0 0.

Definition received (sk : nl_sock) (d : bytes) (w : world) : world :=
  World (log w ++ [(recv_call sk, datagram d)]) (live w) (br_socket_fd w).

Definition fits (sk : nl_sock) (d : bytes) : Prop := 0 < zlen d <= buf_len getpagesize sk.

Hypothesis from_kernel : forall h, recv_name h = nla.

Lemma nl_recv_datagram fuel sk d w : simple_sock sk -> fits sk d -> answer (log w) (recv_call sk) = datagram d ->
  runs (nl_recv getpagesize (Datatypes.S fuel) true sk) w (fun r w' => exists rest,
    r = Recvd (zlen d) (Some (d ++ rest)) nla None /\ zlen (d ++ rest) = buf_len getpagesize sk /\
    w' = World (log (received sk d w)) (live w + 1) (br_socket_fd w)).
Proof.
  intros (Hp & Hc & Hb) [Hd0 Hd] Ea. unfold nl_recv. rewrite Hp, Hc, memory by done. cbn [negb andb].
  apply runs_bind, runs_heap. cbn [recv_retry]. apply runs_bind, runs_syscall, runs_bind. do 2 eexists. split; [reflexivity|].
  cbn [iov_len controllen flags log live br_socket_fd]. fold (recv_call sk). rewrite Ea. cbn [rc errno payload aux peer_len datagram].
  rewrite (proj2 (Z.ltb_ge _ 0)), (proj2 (Z.eqb_neq _ 0)) by lia. change (negb (Z.land 0 MSG_CTRUNC =? 0)) with false. cbv iota.
  cbn [iov_len iov_base control controllen flags].
  rewrite (proj2 (Z.ltb_ge (buf_len getpagesize sk) _)) by lia. cbn [orb negb Z.eqb Pos.eqb Z.land]. rewrite Hc. cbn [andb].
  eapply runs_mono; [apply recv_abort_data; rewrite s32_id; unfold INT_MIN, INT_MAX; lia|].
  intros [n bu src cr] w' (E1 & E2 & E3 & E4 & E5 & E6 & E7). cbn [rv_n rv_buf rv_src rv_creds iov_base control block log live br_socket_fd] in *.
  rewrite from_kernel in E4. subst. rewrite s32_id by (unfold INT_MIN, INT_MAX; lia).
  rewrite take_ge by (unfold zlen in *; lia). eexists. split; [reflexivity|]. split.
  - rewrite zlen_app. unfold zlen. rewrite length_drop, length_replicate. unfold zlen in *. lia.
  - destruct w' as [lw vw bw]. simpl in *. subst. f_equal. lia.
Qed.

(** How the reading goes on after a datagram. *)
Definition proceed (fuel : nat) (f : flow) (st : loop) : io (nl_sock * S * Z) :=
  match f with
  | Next => if multipart st then reading getpagesize fuel cb st else mret (result 0 st)
  | Stop => mret (result 0 st)
  | Out err => mret (result err st)
  end.

Lemma reading_datagram fuel st d w (Q : _ -> world -> Prop) :
  cb_recv_ow cb = None -> simple_sock (l_sk st) -> fits (l_sk st) d -> answer (log w) (recv_call (l_sk st)) = datagram d ->
  (forall rest, zlen (d ++ rest) < 2 ^ 31 -> exists f st' has,
     walk (Datatypes.S (Z.to_nat (zlen d))) cb (Recvd (zlen d) (Some (d ++ rest)) nla None) (d ++ rest) 0 (zlen d) st false
       (World (log (received (l_sk st) d w)) (live w + 1 + 0) (br_socket_fd w)) =
     Some (f, st', has, World (log (received (l_sk st) d w)) (live w + 1 + held has) (br_socket_fd w)) /\
     runs (proceed fuel f st') (received (l_sk st) d w) Q) ->
  runs (reading getpagesize (Datatypes.S fuel) cb st) w Q.
Proof.
  intros Hown Hs Hd Ea Hk. cbn [reading]. rewrite Hown. apply runs_bind.
  eapply runs_mono; [by apply nl_recv_datagram|]. intros r w1 (rest & -> & Hlen & ->). cbn [rv_n rv_buf rv_creds].
  destruct Hs as (_ & _ & Hb). destruct Hd as [Hd0 Hd]. rewrite (proj2 (Z.leb_gt _ _)) by lia.
  apply runs_bind. eapply runs_from_option; [reflexivity|]. apply runs_bind.
  destruct (Hk rest) as (f & st' & has & Ew & Hrun); [lia|]. rewrite Z.add_0_r in Ew. do 2 eexists. split; [exact Ew|].
  apply runs_bind, runs_when, runs_bind, runs_heap, runs_bind, runs_free_opt. cbn [log live br_socket_fd block].
  assert (World (log (received (l_sk st) d w)) (live w + 1 + held has + (if has then -2 else 0) + -1 - 0) (br_socket_fd w) =
    received (l_sk st) d w) as ->; [|done].
  unfold received. cbn [log live br_socket_fd]. f_equal. unfold held. destruct has; lia.
Qed.

Lemma fold_read_multipart ms st : ms <> [] -> multipart (fold_left read_state ms st) = true.
Proof. destruct ms as [|x ms] using rev_ind; [done|]. intros _. by rewrite fold_left_app. Qed.

(** A datagram of data: go on. *)
Lemma reading_data fuel st ms w (Q : _ -> world -> Prop) :
  simple_sock (l_sk st) -> fits (l_sk st) (enc_msgs ms) -> answer (log w) (recv_call (l_sk st)) = datagram (enc_msgs ms) ->
  Forall (in_dump (s_seq_expect (l_sk st))) ms -> Forall is_data ms -> calm (s_proto (l_sk st)) ms (l_user st) -> ms <> [] ->
  runs (reading getpagesize fuel cb (fold_left read_state ms st)) (received (l_sk st) (enc_msgs ms) w) Q ->
  runs (reading getpagesize (Datatypes.S fuel) cb st) w Q.
Proof.
  intros Hs Hd Ea Hin Hdata Hcalm Hne Hk. eapply reading_datagram; [apply Hcb|done..|]. intros rest Hlen.
  exists Next, (fold_left read_state ms st), true. unfold proceed. rewrite fold_read_multipart by done. split; [|done].
  assert (Forall msg_ok ms) as Hok by (eapply Forall_impl; [exact Hin|]; by intros x []).
  pose proof (NlParse.msg_count ms Hok) as Hcount. pose proof (zlen_nonneg rest).
  replace (Datatypes.S (Z.to_nat (zlen (enc_msgs ms)))) with (length ms + Datatypes.S (Z.to_nat (zlen (enc_msgs ms)) - length ms))%nat by lia.
  pose proof (walk_data ms (Datatypes.S (Z.to_nat (zlen (enc_msgs ms)) - length ms)) (Recvd (zlen (enc_msgs ms)) (Some (enc_msgs ms ++ rest)) nla None)
    [] rest st false (log (received (l_sk st) (enc_msgs ms) w)) (live w + 1) (br_socket_fd w) 0 Hin Hdata Hcalm Hlen eq_refl eq_refl ltac:(lia)) as E.
  rewrite Z.add_0_r in E. etransitivity; [exact E|]. destruct ms as [|x ms]; [done|]. reflexivity.
Qed.

(** The datagram with the end of the dump. *)
Lemma reading_done fuel st ms x w (Q : _ -> world -> Prop) :
  simple_sock (l_sk st) -> fits (l_sk st) (enc_msgs (ms ++ [x])) ->
  answer (log w) (recv_call (l_sk st)) = datagram (enc_msgs (ms ++ [x])) ->
  Forall (in_dump (s_seq_expect (l_sk st))) (ms ++ [x]) -> Forall is_data ms -> calm (s_proto (l_sk st)) ms (l_user st) -> m_type x = NLMSG_DONE ->
  Q (result 0 (Loop (set_seq_expect (u32 (s_seq_expect (l_sk st) + 1)) (l_sk st)) (l_user (fold_left read_state ms st)) false
       (interrupted (fold_left read_state ms st)) (s32 (nrecv (fold_left read_state ms st) + 1)))) (received (l_sk st) (enc_msgs (ms ++ [x])) w) ->
  runs (reading getpagesize (Datatypes.S fuel) cb st) w Q.
Proof.
  intros Hs Hd Ea Hin Hdata Hcalm Hx HQ. eapply reading_datagram; [apply Hcb|done..|]. intros rest Hlen.
  eexists Next, (Loop _ _ false _ _), _. split; [|apply runs_ret; exact HQ]. apply Forall_app in Hin as [Hin Hi]. apply list.Forall_cons in Hi as [Hi _].
  assert (Forall msg_ok ms) as Hok by (eapply Forall_impl; [exact Hin|]; by intros y []).
  pose proof (NlParse.msg_count ms Hok) as Hcount. pose proof (zlen_nonneg rest).
  assert (enc_msgs (ms ++ [x]) = enc_msgs ms ++ enc_msg x) as Ee.
  { unfold enc_msgs. rewrite map_app, concat_app. simpl. by rewrite app_nil_r. }
  pose proof (NlParse.msg_count [x] ltac:(constructor; [apply Hi|done])) as Hcx. cbn [length] in Hcx.
  change (enc_msgs [x]) with (enc_msg x ++ []) in Hcx. rewrite app_nil_r in Hcx.
  pose proof (zlen_nonneg (enc_msgs ms)). pose proof (zlen_nonneg (enc_msg x)).
  set (r := Recvd _ _ _ _). set (k := (Z.to_nat (zlen (enc_msgs (ms ++ [x]))) - length ms - 1)%nat).
  replace (Datatypes.S (Z.to_nat (zlen (enc_msgs (ms ++ [x]))))) with (length ms + Datatypes.S (Datatypes.S k))%nat
    by (unfold k; rewrite Ee, zlen_app; lia).
  rewrite Ee in *. rewrite <- app_assoc in Hlen |- *. rewrite (zlen_app (enc_msgs ms) (enc_msg x)).
  pose proof (walk_data ms (Datatypes.S (Datatypes.S k)) r [] (enc_msg x ++ rest) st false
    (log (received (l_sk st) (enc_msgs ms ++ enc_msg x) w)) (live w + 1) (br_socket_fd w) (zlen (enc_msg x)) Hin Hdata Hcalm Hlen eq_refl eq_refl
    ltac:(rewrite zlen_app; lia)) as E.
  etransitivity; [exact E|]. rewrite !app_nil_l. cbv zeta. rewrite <- (Z.add_0_r (zlen (enc_msg x))).
  rewrite walk_step; [|apply Hi|done|done|lia]. rewrite on_message_done by (rewrite ?fold_read_sk; done). rewrite fold_read_sk. done.
Qed.

Lemma fold_read_user ms st : l_user (fold_left read_state ms st) = fold_left (read_one (s_proto (l_sk st))) ms (l_user st).
Proof. revert st. induction ms as [|x ms IH]; intros st; [done|]. simpl. by rewrite IH. Qed.

Lemma fold_read_interrupted ms st : interrupted (fold_left read_state ms st) = interrupted st.
Proof. revert st. induction ms as [|x ms IH]; intros st; [done|]. simpl. by rewrite IH. Qed.

Lemma fold_read_count ms st : 0 <= nrecv st -> nrecv st + Z.of_nat (length ms) <= INT_MAX ->
  nrecv (fold_left read_state ms st) = nrecv st + Z.of_nat (length ms).
Proof.
  revert st. induction ms as [|x ms IH]; intros st H0 H; cbn [length fold_left] in *; [lia|].
  assert (s32 (nrecv st + 1) = nrecv st + 1) as E by (apply s32_id; unfold INT_MIN, INT_MAX in *; lia).
  rewrite IH; cbn [read_state nrecv]; rewrite ?E; lia.
Qed.

(** From [h] on, the kernel delivers the datagrams [ds]. *)
Fixpoint delivers (c : call) (h : history) (ds : list bytes) : Prop :=
  match ds with
  | [] => True
  | d :: ds' => answer h c = datagram d /\ delivers c (h ++ [(c, datagram d)]) ds'
  end.

Lemma reading_dump dss : forall fuel st ms x w, simple_sock (l_sk st) ->
  let ds := map enc_msgs (dss ++ [ms ++ [x]]) in
  Forall (fits (l_sk st)) ds -> delivers (recv_call (l_sk st)) (log w) ds ->
  Forall (in_dump (s_seq_expect (l_sk st))) (concat dss ++ ms ++ [x]) -> Forall is_data (concat dss ++ ms) ->
  calm (s_proto (l_sk st)) (concat dss ++ ms) (l_user st) -> m_type x = NLMSG_DONE ->
  interrupted st = false -> 0 <= nrecv st -> nrecv st + Z.of_nat (length (concat dss ++ ms ++ [x])) <= INT_MAX -> (length dss < fuel)%nat ->
  runs (reading getpagesize fuel cb st) w (fun res w' =>
    res = (set_seq_expect (u32 (s_seq_expect (l_sk st) + 1)) (l_sk st),
           fold_left (read_one (s_proto (l_sk st))) (concat dss ++ ms) (l_user st),
           nrecv st + Z.of_nat (length (concat dss ++ ms ++ [x]))) /\
    live w' = live w /\ log w' = log w ++ map (fun d => (recv_call (l_sk st), datagram d)) ds).
Proof.
  induction dss as [|ms0 dss IH]; intros [|fuel] st ms x w Hs ds Hfit Hdel Hin Hdata Hcalm Hx Hi H0 Hn Hf; cbn [length] in Hf; try lia.
  - cbn [app concat map] in *. apply list.Forall_cons in Hfit as [Hfit _]. destruct Hdel as [Ea _].
    rewrite length_app in Hn. cbn [length] in Hn.
    eapply reading_done; [done..|]. rewrite fold_read_user, fold_read_interrupted, fold_read_count, Hi by lia.
    rewrite s32_id by (unfold INT_MIN, INT_MAX in *; lia). unfold result. cbn [interrupted l_sk l_user nrecv Z.eqb].
    split_and!; [|done..]. rewrite length_app. cbn [length]. f_equal. lia.
  - cbn [app concat map] in ds, Hdel, Hfit, Hn, Hin, Hdata, Hcalm. apply list.Forall_cons in Hfit as [Hfit Hfits]. destruct Hdel as [Ea Hdel].
    rewrite <- app_assoc in Hin, Hdata, Hcalm. apply calm_app in Hcalm as [Hcalm0 Hcalm]. apply Forall_app in Hin as [Hin0 Hin]. apply Forall_app in Hdata as [Hd0 Hd].
    rewrite <- !app_assoc in Hn. rewrite length_app in Hn.
    assert (ms0 <> []) as Hne by (intros ->; destruct Hfit as [Hz _]; change (zlen (enc_msgs [])) with 0 in Hz; lia).
    eapply reading_data; [done..|]. eapply runs_mono.
    { apply (IH fuel (fold_left read_state ms0 st) ms x (received (l_sk st) (enc_msgs ms0) w)); rewrite ?fold_read_sk, ?fold_read_user; try done;
        rewrite ?fold_read_interrupted; try done; rewrite ?fold_read_count; lia. }
    intros res w' (-> & Hl & El). rewrite fold_read_sk, fold_read_user in *. rewrite fold_read_count by lia.
    split_and!; [|done|].
    + cbn [concat]. rewrite <- !app_assoc. rewrite (fold_left_app _ ms0), (length_app ms0). f_equal. lia.
    + rewrite El. unfold received. cbn [log]. rewrite <- app_assoc. done.
Qed.

End Dump.

(** *** Acknowledgements *)

(** The kernel's answer to the request with number [seq]: 0 or an error number. *)
Record answers (x : message) (seq code : Z) : Prop := {
  an_ok : msg_ok x;
  an_type : m_type x = NLMSG_ERROR;
  an_flags : m_flags x = 0;
  an_seq : m_seq x = seq;
  an_body : 20 <= zlen (m_body x);
  an_code : err_code (m_body x) = code
}.

(** A callback set that stops at an acknowledgement and has nothing else. *)
Record waits (cb : cbset) : Prop := {
  wt_ack : nl_cb_call cb NL_CB_ACK = fun m s => Some (NL_STOP, s);
  wt_set : is_set cb NL_CB_ACK = true;
  wt_msg_in : is_set cb NL_CB_MSG_IN = false;
  wt_seq : is_set cb NL_CB_SEQ_CHECK = false;
  wt_err : cb_err cb = None;
  wt_recv : cb_recv_ow cb = None
}.

Lemma err_code_app body Q : 4 <= zlen body -> err_code (body ++ Q) = err_code body.
Proof. intros H. unfold err_code. by rewrite NlParse.get_le_app_l by (try done; lia). Qed.

Lemma on_message_answer (cb : cbset) m x Q nla st code : waits cb -> answers x (s_seq_expect (l_sk st)) code ->
  on_message cb m (16 + zlen (m_body x)) (m_type x) (m_flags x) (m_seq x) (m_body x ++ Q) nla st =
  Some (if code =? 0 then Stop else Out (- nl_syserr2nlerr code),
        set_sk (set_seq_expect (u32 (s_seq_expect (l_sk st) + 1)) (l_sk st)) (count_message st)).
Proof.
  intros [Hack Hset Hin Hseq Herr _] [Hok -> -> -> Hb Hc]. unfold on_message, on_sequence. rewrite Hin, Hseq.
  change (l_sk (count_message st)) with (l_sk st). rewrite Z.eqb_refl, andb_false_r.
  unfold on_flags, on_interrupt, on_ack_wanted, on_type. cbn [Z.land Z.eqb Pos.eqb NLMSG_DONE NLMSG_ERROR NLMSG_NOOP NLMSG_OVERRUN orb andb negb].
  unfold on_error. rewrite (proj2 (Z.ltb_ge _ 36)) by lia. rewrite err_code_app, Hc by lia.
  destruct (code =? 0); cbn [negb]; [|by rewrite Herr]. rewrite Hset. unfold NL_CB_CALL. by rewrite Hack.
Qed.

Lemma body_behind_header x Q : zlen (m_rest x) = 12 ->
  drop (Z.to_nat (zlen (@nil Z) + 16)) ([] ++ enc_msg x ++ Q) = m_body x ++ pad (16 + zlen (m_body x)) ++ Q.
Proof.
  intros Hr. unfold enc_msg, NetRequests.wire. rewrite app_nil_l, <- !app_assoc, (app_assoc (le_bytes 4 _)). apply drop_app_length'.
  rewrite length_app, le_bytes_length. change (Z.to_nat (zlen (@nil Z) + 16)) with 16%nat. unfold zlen in Hr. lia.
Qed.

Lemma recvmsgs_answer (cb : cbset) nla fuel sk s x code w : (forall h, recv_name h = nla) -> waits cb -> simple_sock sk ->
  answers x (s_seq_expect sk) code -> fits sk (enc_msg x) -> answer (log w) (recv_call sk) = datagram (enc_msg x) ->
  runs (recvmsgs getpagesize (Datatypes.S fuel) sk cb s) w (fun res w' =>
    res = (set_seq_expect (u32 (s_seq_expect sk + 1)) sk, s, if code =? 0 then 1 else - nl_syserr2nlerr code) /\
    w' = received sk (enc_msg x) w).
Proof.
  intros Hk Hw Hs Hx Hfit Ea. unfold recvmsgs. eapply (reading_datagram cb nla Hk); [apply Hw|done..|]. intros rest Hlen.
  set (st1 := set_sk (set_seq_expect (u32 (s_seq_expect sk + 1)) sk) (count_message (Loop sk s false false 0))).
  exists (if code =? 0 then Stop else Out (- nl_syserr2nlerr code)), st1, true. split.
  - pose proof (walk_step (Z.to_nat (zlen (enc_msg x))) cb (Recvd (zlen (enc_msg x)) (Some (enc_msg x ++ rest)) nla None) x [] rest
      (Loop sk s false false 0) false (log (received sk (enc_msg x) w)) (live w + 1) (br_socket_fd w) 0 (an_ok _ _ _ Hx) Hlen eq_refl
      ltac:(pose proof (zlen_nonneg rest); lia)) as E.
    rewrite Z.add_0_r, body_behind_header in E by apply (an_ok _ _ _ Hx). etransitivity; [exact E|].
    rewrite (on_message_answer cb _ x _ _ (Loop sk s false false 0) code Hw Hx). by destruct (code =? 0).
  - pose proof (nl_syserr2nlerr_pos code). destruct (code =? 0); apply runs_ret; split; try done.
    unfold result. cbn. rewrite (proj2 (Z.eqb_neq _ _)) by lia. done.
Qed.

(** With any function that goes on at the messages of the dump. *)
Lemma recvmsgs_dump_run cb g arg nla fuel sk s dss ms x w :
  hooked cb g arg -> (forall h, recv_name h = nla) -> simple_sock sk ->
  let ds := map enc_msgs (dss ++ [ms ++ [x]]) in
  Forall (fits sk) ds -> delivers (recv_call sk) (log w) ds ->
  Forall (in_dump (s_seq_expect sk)) (concat dss ++ ms ++ [x]) -> Forall is_data (concat dss ++ ms) -> calm g arg nla (s_proto sk) (concat dss ++ ms) s -> m_type x = NLMSG_DONE ->
  Z.of_nat (length (concat dss ++ ms ++ [x])) <= INT_MAX -> (length dss < fuel)%nat ->
  runs (recvmsgs getpagesize fuel sk cb s) w (fun res w' =>
    res = (set_seq_expect (u32 (s_seq_expect sk + 1)) sk, fold_left (read_one g arg nla (s_proto sk)) (concat dss ++ ms) s,
           Z.of_nat (length (concat dss ++ ms ++ [x]))) /\
    live w' = live w /\ log w' = log w ++ map (fun d => (recv_call sk, datagram d)) ds).
Proof.
  intros Hcb Hk Hs ds Hfit Hdel Hin Hdata Hcalm Hx Hn Hf.
  by apply (reading_dump cb g arg Hcb nla Hk dss fuel (Loop sk s false false 0) ms x w).
Qed.

Lemma reader_calm (g : @msg_cb nl_msg A S) arg nla proto ms s : (forall m s, goes_on (g m arg s)) -> calm g arg nla proto ms s.
Proof. intros Hgo. revert s. induction ms as [|x ms IH]; intros s; [done|]. split; [apply Hgo|apply IH]. Qed.

(** C18: a dump is delivered whole and in order: from a kernel that sends it in
    any number of datagrams, ended by a message of type DONE, [recvmsgs] calls
    the function of the user once on every message, with the data the kernel
    sent, returns their number, moves on to the next sequence number and
    leaves the heap as it was. *)
Theorem recvmsgs_dump cb g arg nla fuel sk s dss ms x w :
  reader cb g arg -> (forall h, recv_name h = nla) -> simple_sock sk ->
  let ds := map enc_msgs (dss ++ [ms ++ [x]]) in
  Forall (fits sk) ds -> delivers (recv_call sk) (log w) ds ->
  Forall (in_dump (s_seq_expect sk)) (concat dss ++ ms ++ [x]) -> Forall is_data (concat dss ++ ms) -> m_type x = NLMSG_DONE ->
  Z.of_nat (length (concat dss ++ ms ++ [x])) <= INT_MAX -> (length dss < fuel)%nat ->
  runs (recvmsgs getpagesize fuel sk cb s) w (fun res w' =>
    res = (set_seq_expect (u32 (s_seq_expect sk + 1)) sk, fold_left (read_one g arg nla (s_proto sk)) (concat dss ++ ms) s,
           Z.of_nat (length (concat dss ++ ms ++ [x]))) /\
    live w' = live w /\ log w' = log w ++ map (fun d => (recv_call sk, datagram d)) ds).
Proof.
  intros [Hcb Hgo] Hk Hs ds Hfit Hdel Hin Hdata Hx Hn Hf. apply recvmsgs_dump_run; try done. by apply reader_calm.
Qed.

End Replies.

(** ** Fields of a block *)

Lemma put_le_length off n z b : 0 <= off -> off + Z.of_nat n <= zlen b -> zlen (put_le off n z b) = zlen b.
Proof. intros H0 H1. unfold put_le, zlen. f_equal. apply splice_length; [done|]. by rewrite zlen_le. Qed.

Lemma get_put_same off n z b : 0 <= off -> off + Z.of_nat n <= zlen b -> get_le off n (put_le off n z b) = z mod 256 ^ Z.of_nat n.
Proof.
  intros H0 H1. unfold get_le, put_le, splice, zlen in *. rewrite drop_app_length' by (rewrite length_take; lia).
  rewrite take_app_length' by (by rewrite le_bytes_length). apply le_value_bytes.
Qed.

Lemma drop_put off n z b k : 0 <= off -> off + Z.of_nat n <= zlen b -> off + Z.of_nat n <= Z.of_nat k ->
  drop k (put_le off n z b) = drop k b.
Proof.
  intros H0 H1 Hk. unfold put_le, splice, zlen in *. rewrite app_assoc, drop_app_ge by (rewrite length_app, length_take, le_bytes_length; lia).
  rewrite drop_drop, length_app, length_take, le_bytes_length. f_equal. lia.
Qed.

Lemma take_put off n z b k : 0 <= off -> Z.of_nat k <= off -> Z.of_nat k <= zlen b -> take k (put_le off n z b) = take k b.
Proof.
  intros H0 H1 Hk. unfold put_le, splice, zlen in *. rewrite take_app_le by (rewrite length_take; lia). rewrite take_take. f_equal. lia.
Qed.

Lemma get_put_other off n z b o k : 0 <= off -> off + Z.of_nat n <= zlen b -> 0 <= o ->
  o + Z.of_nat k <= off \/ off + Z.of_nat n <= o -> get_le o k (put_le off n z b) = get_le o k b.
Proof.
  intros H0 H1 Ho [Hd|Hd]; unfold get_le; [|by rewrite drop_put by lia].
  assert (forall c : bytes, take k (drop (Z.to_nat o) (take (Z.to_nat off) b ++ c)) = take k (drop (Z.to_nat o) (take (Z.to_nat off) b))) as E.
  { intros c. unfold zlen in *. by rewrite drop_app_le, take_app_le by (rewrite ?length_drop, length_take; lia). }
  unfold put_le, splice. rewrite E. by rewrite <- (take_drop (Z.to_nat off) b) at 2; rewrite E.
Qed.

(** ** Requests *)

Section Request.
Import NlParse (message, Msg, m_rest, m_body, m_type, enc_msg, enc_msgs, msg_ok, datagram).
Context {A S : Type} {al : Allocator} {kernel : Kernel} {outputs : RecvOutputs}.
Variables getpagesize getpid : Z.

(** The bytes of a request that are sent. *)
Definition sent_bytes (m : nl_msg) : bytes := take (Z.to_nat (hdr_len (nm_block m))) (NlAttr.nm_nlh m).

(** A new message: no other reference, no sequence number yet, its length
    inside its block. *)
Record new_request (m : nl_msg) : Prop := {
  rq_ref : nm_refcnt m = 1;
  rq_seq : nlmsg_seq m = 0;
  rq_len : 16 <= hdr_len (nm_block m) <= zlen (NlAttr.nm_nlh m)
}.

Definition bytes_of (m : nl_msg) : bytes := nlmsghdr (nm_block m).

Lemma bytes_of_set off n z m : bytes_of (set_field off n z m) = put_le off n z (bytes_of m).
Proof. done. Qed.

(** What [nl_complete_msg] makes of it. *)
Record completed (sk : nl_sock) (m m' : nl_msg) : Prop := {
  cm_ref : nm_refcnt m' = nm_refcnt m;
  cm_dst : nm_dst m' = nm_dst m;
  cm_creds : nlmsg_get_creds m' = nlmsg_get_creds m;
  cm_size : zlen (NlAttr.nm_nlh m') = zlen (NlAttr.nm_nlh m);
  cm_len : hdr_len (nm_block m') = hdr_len (nm_block m);
  cm_start : take 6 (NlAttr.nm_nlh m') = take 6 (NlAttr.nm_nlh m);
  cm_flags : forall i, 0 <= i < 16 -> Z.testbit (nlmsg_flags m') i = Z.testbit (nlmsg_flags m) i || (i =? 0) || (i =? 2);
  cm_seq : nlmsg_seq m' = s_seq_next sk;
  cm_body : drop 16 (NlAttr.nm_nlh m') = drop 16 (NlAttr.nm_nlh m)
}.

(** The header with a sequence number and two flags. *)
Lemma complete_bytes b seq : 16 <= zlen b -> 0 <= seq < 2 ^ 32 ->
  let b1 := put_le 8 4 seq b in
  let b2 := put_le 6 2 (Z.lor (get_le 6 2 b1) NLM_F_REQUEST) b1 in
  let b3 := put_le 6 2 (Z.lor (get_le 6 2 b2) NLM_F_ACK) b2 in
  zlen b3 = zlen b /\ get_le 0 4 b3 = get_le 0 4 b /\ take 6 b3 = take 6 b /\ get_le 8 4 b3 = seq /\ drop 16 b3 = drop 16 b /\
  forall i, 0 <= i < 16 -> Z.testbit (get_le 6 2 b3) i = Z.testbit (get_le 6 2 b) i || (i =? 0) || (i =? 2).
Proof.
  intros Hb Hs b1 b2 b3. assert (zlen b1 = zlen b) as Z1 by (apply put_le_length; lia).
  assert (zlen b2 = zlen b) as Z2 by (rewrite <- Z1; apply put_le_length; lia).
  assert (zlen b3 = zlen b) as Z3 by (rewrite <- Z2; apply put_le_length; lia). split_and!; [done|..].
  - unfold b3, b2, b1. rewrite !get_put_other by (rewrite ?put_le_length; rewrite ?put_le_length; lia). done.
  - unfold b3. rewrite take_put by lia. unfold b2. rewrite take_put by lia. unfold b1. by rewrite take_put by lia.
  - unfold b3, b2. rewrite !get_put_other by (fold b2; lia). unfold b1. rewrite get_put_same by lia.
    change (256 ^ Z.of_nat 4) with (2 ^ 32). by apply Z.mod_small.
  - unfold b3. rewrite drop_put by lia. unfold b2. rewrite drop_put by lia. unfold b1. by rewrite drop_put by lia.
  - intros i Hi. unfold b3. rewrite get_put_same by lia. unfold b2 at 1. rewrite get_put_same by lia. unfold b1 at 1. rewrite get_put_other by lia.
    change (256 ^ Z.of_nat 2) with (2 ^ 16). rewrite Z.mod_pow2_bits_low, Z.lor_spec, Z.mod_pow2_bits_low, Z.lor_spec by lia.
    change NLM_F_REQUEST with (2 ^ 0). change NLM_F_ACK with (2 ^ 2). by rewrite !Z.pow2_bits_eqb, (Z.eqb_sym 0), (Z.eqb_sym 2) by lia.
Qed.

Lemma nl_complete_msg_spec sk m l w : new_request m -> nl_pid (s_local sk) <> 0 -> 0 <= s_seq_next sk < 2 ^ 32 ->
  has_flag NL_NO_AUTO_ACK sk = false ->
  ends (nl_complete_msg (A := A) (S := S) getpid sk m) (l, w) (fun res st => st = (l, w) /\
    fst res = set_seq_next (u32 (s_seq_next sk + 1)) sk /\ completed sk m (snd res)).
Proof.
  intros [Href Hseq Hlen] Hpid Hnext Hack. unfold nl_complete_msg, nl_socket_get_local_port.
  rewrite (proj2 (Z.eqb_neq _ _) Hpid). apply ends_bind.
  set (m1 := if nlmsg_pid m =? 0 then set_field 12 4 (nl_pid (s_local sk)) m else m).
  assert (ends (if nlmsg_pid m =? 0 then '(sk0, port) ← mret (sk, nl_pid (s_local sk)); mret (sk0, set_field 12 4 port m) else mret (sk, m))
    (l, w) (fun res st => res = (sk, m1) /\ st = (l, w))) as H1 by (unfold m1; by case_match; apply ends_ret).
  eapply ends_mono; [exact H1|]. intros [sk0 m0] st [[= -> ->] ->]. clear H1.
  change (zlen (NlAttr.nm_nlh m)) with (zlen (bytes_of m)) in Hlen.
  assert (zlen (bytes_of m1) = zlen (bytes_of m) /\ (forall o k, o + Z.of_nat k <= 12 -> 0 <= o -> get_le o k (bytes_of m1) = get_le o k (bytes_of m)) /\
    take 6 (bytes_of m1) = take 6 (bytes_of m) /\ drop 16 (bytes_of m1) = drop 16 (bytes_of m)) as (Hz & Hg & Ht1 & Hb1).
  { unfold m1. case_match; [|done]. rewrite !bytes_of_set. rewrite put_le_length, drop_put, take_put by lia. split_and!; [done| |done|done].
    intros o k Ho1 Ho2. apply get_put_other; lia. }
  assert (nm_refcnt m1 = nm_refcnt m /\ nm_dst m1 = nm_dst m /\ nlmsg_get_creds m1 = nlmsg_get_creds m)
    as (Hr1 & Hd1 & Hc1) by (unfold m1; by case_match).
  clearbody m1. unfold nlmsg_seq at 1. fold (bytes_of m1). rewrite Hg by lia. change (get_le 8 4 (bytes_of m)) with (nlmsg_seq m).
  rewrite Hseq. cbn [Z.eqb nl_socket_use_seq]. set (m3 := if nm_protocol _ =? -1 then _ else _).
  assert (bytes_of m3 = put_le 8 4 (s_seq_next sk) (bytes_of m1)) as E3 by (unfold m3; by case_match).
  assert (nm_refcnt m3 = nm_refcnt m1 /\ nm_dst m3 = nm_dst m1 /\ nlmsg_get_creds m3 = nlmsg_get_creds m1) as (Hr3 & Hd3 & Hc3)
    by (unfold m3; by case_match).
  clearbody m3. change (has_flag NL_NO_AUTO_ACK (set_seq_next _ sk)) with (has_flag NL_NO_AUTO_ACK sk). rewrite Hack. cbn [negb].
  apply ends_ret. split; [done|]. split; [done|]. cbn [snd].
  destruct (complete_bytes (bytes_of m1) (s_seq_next sk) ltac:(lia) Hnext) as (Y1 & Y2 & Y3 & Y4 & Y5 & Y6). rewrite <- E3 in *.
  split.
  - exact (eq_trans Hr3 Hr1).
  - exact (eq_trans Hd3 Hd1).
  - exact (eq_trans Hc3 Hc1).
  - exact (eq_trans Y1 Hz).
  - exact (eq_trans Y2 (Hg 0 4%nat ltac:(lia) ltac:(lia))).
  - exact (eq_trans Y3 Ht1).
  - intros i Hi. pose proof (Y6 i Hi) as Y. rewrite (Hg 6 2%nat) in Y by lia. exact Y.
  - exact Y4.
  - exact (eq_trans Y5 Hb1).
Qed.

Hypothesis memory : malloc_total al.
Abbreviation cbset := (nl_cb nl_msg nlmsgerr A S (@RM S) RV SD).

(** A callback set without functions that interfere. *)
Record quiet (cb : cbset) : Prop := {
  qt_set : length (cb_set cb) = 11%nat;
  qt_args : length (cb_args cb) = 11%nat;
  qt_msg_out : is_set cb NL_CB_MSG_OUT = false;
  qt_msg_in : is_set cb NL_CB_MSG_IN = false;
  qt_seq : is_set cb NL_CB_SEQ_CHECK = false;
  qt_err : cb_err cb = None;
  qt_recvmsgs : cb_recvmsgs_ow cb = None;
  qt_recv : cb_recv_ow cb = None;
  qt_send : cb_send_ow cb = None
}.

Definition ack_cb (cb : cbset) : cbset := fst (nl_cb_set (set_cb_refcnt 1 cb) NL_CB_ACK NL_CB_CUSTOM (Some ack_wait_handler) None).

Lemma ack_cb_waits cb : quiet cb -> waits (ack_cb cb).
Proof.
  destruct cb as [set args err earg ow1 ow2 ow3 ref act]. intros [Hs Ha Ho Hi Hq He _ Hr _].
  unfold is_set in *. cbn [cb_set cb_args cb_err cb_recv_ow] in *. split; [..|done|done].
  - assert (forall (o1 : option (@msg_cb nl_msg A S)) o2, o1 = Some ack_wait_handler -> o2 = Some None ->
      (fun m s => f ← o1; arg ← o2; Some (f m arg s)) = (fun (_ : nl_msg) s => Some (NL_STOP, s))) as H by (by intros ? ? -> ->).
    apply (H (mjoin (<[Z.to_nat NL_CB_ACK := Some ack_wait_handler]> set !! Z.to_nat NL_CB_ACK))
      (<[Z.to_nat NL_CB_ACK := None]> args !! Z.to_nat NL_CB_ACK)); by rewrite list_lookup_insert_eq by (unfold NL_CB_ACK; lia).
  - unfold is_set, ack_cb. cbn. by rewrite list_lookup_insert_eq by (unfold NL_CB_ACK; lia).
  - unfold is_set, ack_cb. cbn. by rewrite list_lookup_insert_ne.
  - unfold is_set, ack_cb. cbn. by rewrite list_lookup_insert_ne.
Qed.

(** The clone of a callback set, in a block of its own. *)
Lemma ends_cb_clone c cb (l : lib nl_msg nlmsgerr A S (@RM S) RV SD) w (Q : option positive -> _ -> Prop) : cbs l !! c = Some cb ->
  (forall c', cbs l !! c' = None -> Q (Some c') (with_cbs (<[c' := set_cb_refcnt 1 cb]>) l, w)) ->
  ends (nl_cb_clone err_code c) (l, w) Q.
Proof.
  intros Ec HQ. unfold nl_cb_clone, nl_cb_alloc. apply ends_bind. change (_ || _) with false. cbv iota.
  rewrite memory by (unfold nl_cb_size; lia). cbn [negb]. apply ends_bind. do 2 eexists. split; [reflexivity|]. cbn [fst].
  set (c' := fresh _). assert (cbs l !! c' = None) as Ec' by (apply not_elem_of_dom, is_fresh).
  apply ends_bind, ends_put_cb, ends_ret. assert (c <> c') by congruence. apply ends_bind.
  eapply ends_get_cb; [simpl; by rewrite lookup_insert_ne|]. apply ends_bind, ends_put_cb, ends_ret.
  unfold with_cbs in *. simpl. rewrite insert_insert_eq. by apply HQ.
Qed.

Lemma ends_lift {B} (x : io B) (l : lib nl_msg nlmsgerr A S (@RM S) RV SD) w (Q : B -> _ -> Prop) :
  runs x w (fun b w' => Q b (l, w')) -> ends (lift x) (l, w) Q.
Proof. intros (b & w' & E & HQ). exists b, (l, w'). split; [|done]. unfold lift. simpl. by rewrite E. Qed.

(** Waiting for the answer to the request that is expected. *)
Lemma nl_wait_for_ack_spec nla fuel sk s x code cb l w : (forall h, recv_name h = nla) -> cbs l !! s_cb sk = Some cb -> quiet cb ->
  simple_sock getpagesize sk -> answers x (s_seq_expect sk) code -> fits getpagesize sk (enc_msg x) ->
  answer (log w) (recv_call getpagesize sk) = datagram (enc_msg x) ->
  ends (nl_wait_for_ack getpagesize (Datatypes.S fuel) sk s) (l, w) (fun res st =>
    res = (set_seq_expect (u32 (s_seq_expect sk + 1)) sk, s, if code =? 0 then 0 else - nl_syserr2nlerr code) /\
    st = (l, received getpagesize sk (enc_msg x) w)).
Proof.
  intros Hk Ec Hq Hs Hx Hfit Ea. unfold nl_wait_for_ack. eapply ends_bind, ends_cb_clone; [exact Ec|]. intros c Hc.
  set (l1 := with_cbs _ l). apply ends_bind. eapply ends_get_cb; [unfold l1; simpl; by rewrite lookup_insert_eq|].
  apply ends_bind, ends_put_cb. fold (ack_cb cb). unfold l1, with_cbs. simpl. rewrite insert_insert_eq.
  apply ends_bind. eapply ends_get_cb; [simpl; by rewrite lookup_insert_eq|]. apply ends_bind, ends_lift.
  unfold nl_recvmsgs, nl_recvmsgs_report. assert (cb_recvmsgs_ow (ack_cb cb) = None) as -> by apply Hq. apply runs_bind.
  eapply runs_mono; [exact (recvmsgs_answer getpagesize memory (ack_cb cb) nla fuel sk s x code w Hk (ack_cb_waits cb Hq) Hs Hx Hfit Ea)|]. intros res w' [-> ->]. apply runs_ret.
  apply ends_bind. eapply ends_cb_put; [simpl; by rewrite lookup_insert_eq|done|]. change (cb_refcnt (ack_cb cb) =? 1) with true. cbv iota.
  apply ends_ret. split.
  - pose proof (nl_syserr2nlerr_pos code). destruct (code =? 0); [done|]. rewrite Z.gtb_ltb, (proj2 (Z.ltb_ge 0 _)) by lia. done.
  - f_equal. unfold with_cbs. simpl. rewrite delete_insert_id by done. by destruct l.
Qed.

(** Where a message goes. *)
Definition destination (sk : nl_sock) (m : nl_msg) : sockaddr_nl :=
  if nl_family (nlmsg_get_dst m) =? AF_NETLINK then nlmsg_get_dst m else s_peer sk.

Definition send_call (sk : nl_sock) (m : nl_msg) (data : bytes) : call :=
  let dst := destination sk m in
  SendmsgAddr (s_fd sk) (nl_family dst) (nl_pid dst) (nl_groups dst) data (default [] (nlmsg_get_creds m)).

(** The kernel takes every request and answers it with [code]. *)
Definition acknowledges (sk : nl_sock) (code : Z) : Prop := forall h m data, 16 <= zlen data <= INT_MAX ->
  rc (answer h (send_call sk m data)) = zlen data /\
  exists x, answers x (get_le 8 4 data) code /\ fits getpagesize sk (enc_msg x) /\
    answer (h ++ [(send_call sk m data, answer h (send_call sk m data))]) (recv_call getpagesize sk) = datagram (enc_msg x).

Lemma nl_send_spec sk m s cb l w : cbs l !! s_cb sk = Some cb -> quiet cb -> 0 <= s_fd sk ->
  0 <= hdr_len (nm_block m) <= zlen (NlAttr.nm_nlh m) ->
  ends (nl_send sk m s) (l, w) (fun res st =>
    let r := answer (log w) (send_call sk m (sent_bytes m)) in
    fst (fst res) = nlmsg_set_src m (s_local sk) /\ snd (fst res) = s /\
    snd res = (if s32 (rc r) <? 0 then - nl_syserr2nlerr (errno r) else s32 (rc r)) /\
    st = (l, called (send_call sk m (sent_bytes m)) w)).
Proof.
  intros Ec Hq Hfd Hlen. unfold nl_send. eapply ends_bind, ends_get_cb; [exact Ec|]. 
  assert (@cb_send_ow nl_msg nlmsgerr A S (@RM S) RV (nl_sock -> nl_msg -> io Z) cb = None) as -> by apply Hq.
  apply ends_bind. unfold NlAttr.rd_bytes. rewrite !(proj2 (Z.leb_le _ _)) by (unfold NlAttr.nm_nlh in Hlen; lia).
  cbn [andb of_option]. change (Z.to_nat 0) with 0%nat. rewrite drop_0. apply ends_ret. fold (NlAttr.nm_nlh m). fold (sent_bytes m).
  unfold nl_send_iovec, nl_sendmsg. rewrite (proj2 (Z.ltb_ge _ 0)) by done. eapply ends_bind, ends_get_cb; [exact Ec|].
  rewrite (qt_msg_out _ Hq). apply ends_bind, ends_ret. change (negb (NL_OK =? NL_OK)) with false. cbv iota.
  cbn [msg_name msg_iov msg_control]. fold (destination sk m). fold (send_call sk m (sent_bytes m)).
  apply ends_bind, ends_sys, ends_ret. done.
Qed.

(** What is sent of a completed message. *)
Lemma sent_completed sk m m' : new_request m -> completed sk m m' ->
  zlen (sent_bytes m') = hdr_len (nm_block m) /\ take 6 (sent_bytes m') = take 6 (sent_bytes m) /\
  drop 16 (sent_bytes m') = drop 16 (sent_bytes m) /\
  (forall o k, 0 <= o -> o + Z.of_nat k <= 16 -> get_le o k (sent_bytes m') = get_le o k (bytes_of m')) /\
  forall sk' data, send_call (set_seq_next (s_seq_next sk') sk) m' data = send_call sk m data.
Proof.
  intros [_ _ Hlen] Hc. unfold sent_bytes. rewrite (cm_len _ _ _ Hc). set (n := hdr_len (nm_block m)) in *.
  pose proof (cm_size _ _ _ Hc) as Hz. split_and!.
  - unfold zlen in *. rewrite length_take. lia.
  - rewrite !take_take, !Nat.min_l by lia. apply (cm_start _ _ _ Hc).
  - rewrite !skipn_firstn_comm. by rewrite (cm_body _ _ _ Hc).
  - intros o k Ho Hk. unfold get_le. fold (NlAttr.nm_nlh m'). rewrite skipn_firstn_comm, take_take. f_equal. f_equal. lia.
  - intros sk' data. unfold send_call, destination, nlmsg_get_dst. rewrite (cm_dst _ _ _ Hc), (cm_creds _ _ _ Hc). done.
Qed.

(** A new message is completed and sent, where the kernel takes all of it. *)
Lemma nl_send_auto_spec sk m s cb l w : cbs l !! s_cb sk = Some cb -> quiet cb -> new_request m -> hdr_len (nm_block m) <= INT_MAX ->
  0 <= s_fd sk -> nl_pid (s_local sk) <> 0 -> has_flag NL_NO_AUTO_ACK sk = false -> 0 <= s_seq_next sk < 2 ^ 32 ->
  (forall data, zlen data = hdr_len (nm_block m) -> rc (answer (log w) (send_call sk m data)) = zlen data) ->
  ends (nl_send_auto getpid sk m s) (l, w) (fun res st => exists data m',
    res = (set_seq_next (u32 (s_seq_next sk + 1)) sk, m', s, zlen data) /\ nm_refcnt m' = 1 /\ st = (l, called (send_call sk m data) w) /\
    zlen data = hdr_len (nm_block m) /\ take 6 data = take 6 (sent_bytes m) /\ drop 16 data = drop 16 (sent_bytes m) /\ get_le 8 4 data = s_seq_next sk /\
    forall i, 0 <= i < 16 -> Z.testbit (get_le 6 2 data) i = Z.testbit (nlmsg_flags m) i || (i =? 0) || (i =? 2)).
Proof.
  intros Ec Hq Hm Hmax Hfd Hpid Hack Hnext Hkern. unfold nl_send_auto. apply ends_bind.
  eapply ends_mono; [by apply nl_complete_msg_spec|]. intros [sk1 m1] st (-> & E1 & Hc). cbn [fst snd] in *. subst sk1.
  set (next := u32 (s_seq_next sk + 1)) in *. pose proof (rq_len _ Hm) as Hlen.
  apply ends_bind. eapply ends_mono.
  { apply (nl_send_spec (set_seq_next next sk) m1 s cb l w Ec Hq Hfd). rewrite (cm_len _ _ _ Hc), (cm_size _ _ _ Hc). lia. }
  intros [[m2 s2] err] st (Em & Es & Er & Est). cbn [fst snd] in *. subst s2 st m2. apply ends_ret.
  destruct (sent_completed sk m m1 Hm Hc) as (Hz & Ht & Hd & Hg & Hsc). rewrite (Hsc (set_seq_next next sk)) in *. set (data := sent_bytes m1) in *.
  rewrite (Hkern data Hz), s32_id in Er by (unfold INT_MIN, INT_MAX in *; lia). rewrite (proj2 (Z.ltb_ge _ 0)) in Er by lia. subst err.
  exists data, (nlmsg_set_src m1 (s_local (set_seq_next next sk))). split_and!; try done.
  - cbn [nm_refcnt nlmsg_set_src]. by rewrite (cm_ref _ _ _ Hc), (rq_ref _ Hm).
  - rewrite (Hg 8 4%nat) by lia. apply (cm_seq _ _ _ Hc).
  - intros i Hi. rewrite (Hg 6 2%nat) by lia. by apply (cm_flags _ _ _ Hc).
Qed.

Lemma ends_drop_msg m l w (Q : unit -> _ -> Prop) : nm_refcnt m = 1 ->
  Q tt (l, World (log w) (live w - 2) (br_socket_fd w)) -> ends (drop_msg (A := A) (S := S) m) (l, w) Q.
Proof. intros Hr HQ. unfold drop_msg, NlAttr.nlmsg_free. apply ends_bind. rewrite Hr. by apply ends_ret, ends_lift, runs_heap. Qed.

(** The request is sent once and its answer is awaited. *)
Lemma request_answered nla fuel sk m s code cb l w :
  (forall h, recv_name h = nla) -> cbs l !! s_cb sk = Some cb -> quiet cb -> simple_sock getpagesize sk ->
  new_request m -> hdr_len (nm_block m) <= INT_MAX -> 0 <= s_fd sk -> nl_pid (s_local sk) <> 0 -> has_flag NL_NO_AUTO_ACK sk = false ->
  0 <= s_seq_next sk < 2 ^ 32 -> s_seq_expect sk = s_seq_next sk -> acknowledges sk code -> (0 < fuel)%nat ->
  ends (nl_send_sync getpagesize getpid fuel sk m s) (l, w) (fun res st => exists data,
    let next := u32 (s_seq_next sk + 1) in
    res = (set_seq_expect next (set_seq_next next sk), s, if code =? 0 then 0 else - nl_syserr2nlerr code) /\
    fst st = l /\ live (snd st) = live w - 2 /\
    map fst (log (snd st)) = map fst (log w) ++ [send_call sk m data; recv_call getpagesize sk] /\
    zlen data = hdr_len (nm_block m) /\ take 6 data = take 6 (sent_bytes m) /\ drop 16 data = drop 16 (sent_bytes m) /\ get_le 8 4 data = s_seq_next sk /\
    forall i, 0 <= i < 16 -> Z.testbit (get_le 6 2 data) i = Z.testbit (nlmsg_flags m) i || (i =? 0) || (i =? 2)).
Proof.
  intros Hk Ec Hq Hs Hm Hmax Hfd Hpid Hack Hnext Heq Hkern Hf. unfold nl_send_sync. apply ends_bind. pose proof (rq_len _ Hm) as Hlen.
  eapply ends_mono; [apply (nl_send_auto_spec sk m s cb l w); try done; intros data Hz; apply Hkern; lia|].
  intros [[[sk1 m1] s1] err] st (data & m' & [= -> -> -> ->] & Hr & -> & Hz & Ht & Hd & H8 & H6).
  set (next := u32 (s_seq_next sk + 1)) in *. apply ends_bind, ends_drop_msg; [done|].
  destruct (Hkern (log w) m data) as (_ & x & Hx & Hfit & Ea); [lia|].
  rewrite (proj2 (Z.ltb_ge _ 0)) by lia. unfold wait_for_ack. change (has_flag NL_NO_AUTO_ACK (set_seq_next next sk)) with (has_flag NL_NO_AUTO_ACK sk).
  rewrite Hack. destruct fuel as [|fuel]; [lia|]. rewrite H8, <- Heq in Hx.
  eapply ends_mono; [by apply (nl_wait_for_ack_spec nla fuel (set_seq_next next sk) s x code cb)|].
  intros res st [-> ->]. exists data. change (s_seq_expect (set_seq_next next sk)) with (s_seq_expect sk). rewrite Heq.
  split_and!; [done|done|reflexivity| |done|done|done|done|done]. cbn [snd received log called]. by rewrite !map_app, <- app_assoc.
Qed.

(** C19: a request is answered: [nl_send_sync] completes the message with the
    next sequence number of the socket and the flags REQUEST and ACK, sends it
    once, to the address of the message or else to the peer, and waits for the
    one message of the kernel that carries the same number.  It returns 0 for
    an acknowledgement and the error of the kernel otherwise; the message and
    the copy of the callback set are freed, and the next number is the
    expected one again. *)
Theorem nl_send_sync_answered nla fuel sk m s code cb l w :
  (forall h, recv_name h = nla) -> cbs l !! s_cb sk = Some cb -> quiet cb -> simple_sock getpagesize sk ->
  new_request m -> hdr_len (nm_block m) <= INT_MAX -> 0 <= s_fd sk -> nl_pid (s_local sk) <> 0 -> has_flag NL_NO_AUTO_ACK sk = false ->
  0 <= s_seq_next sk < 2 ^ 32 -> s_seq_expect sk = s_seq_next sk -> acknowledges sk code -> (0 < fuel)%nat ->
  ends (nl_send_sync getpagesize getpid fuel sk m s) (l, w) (fun res st => exists data,
    let next := u32 (s_seq_next sk + 1) in
    res = (set_seq_expect next (set_seq_next next sk), s, if code =? 0 then 0 else - nl_syserr2nlerr code) /\
    fst st = l /\ live (snd st) = live w - 2 /\
    map fst (log (snd st)) = map fst (log w) ++ [send_call sk m data; recv_call getpagesize sk] /\
    zlen data = hdr_len (nm_block m) /\ drop 16 data = drop 16 (sent_bytes m) /\ get_le 8 4 data = s_seq_next sk /\
    Z.testbit (get_le 6 2 data) 0 = true /\ Z.testbit (get_le 6 2 data) 2 = true).
Proof.
  intros Hk Ec Hq Hs Hm Hmax Hfd Hpid Hack Hnext Heq Hkern Hf.
  eapply ends_mono; [by eapply (request_answered nla fuel sk m s code cb)|]. intros res st (data & ? & ? & ? & ? & ? & _ & ? & ? & Hflags).
  exists data. split_and!; try done; rewrite Hflags by lia; by rewrite orb_true_r.
Qed.

End Request.

(** ** Concrete kernels *)

Definition sk0 : nl_sock := Sock (Sockaddr AF_NETLINK 4711 0) (Sockaddr AF_NETLINK 0 0) 3 0 7 7 NL_OWN_PORT 1 0.
Definition w0 : world := World [] 0 (-1).

Definition outputs0 : RecvOutputs := Build_RecvOutputs (fun _ => Sockaddr AF_NETLINK 0 0) (fun _ => []) (fun _ => 0).

(** *** A dump in two datagrams *)

Definition dump_msg (type : Z) (body : bytes) : NlParse.message :=
  NlParse.Msg (le_bytes 2 type ++ le_bytes 2 NLM_F_MULTI ++ le_bytes 4 7 ++ le_bytes 4 4711) body.
Definition part1 : list NlParse.message := [dump_msg 16 [1; 2; 3]; dump_msg 16 []].
Definition part2 : list NlParse.message := [dump_msg 16 [4]].
Definition last_part : NlParse.message := dump_msg NLMSG_DONE [0; 0; 0; 0].

Definition dump_kernel : Kernel := fun h c =>
  match length h with
  | O => NlParse.datagram (NlParse.enc_msgs part1)
  | 1%nat => NlParse.datagram (NlParse.enc_msgs (part2 ++ [last_part]))
  | _ => Reply (-1) 11 [] 0 0 0
  end.

(** The function of the user adds up the lengths. *)
Definition add_len : @msg_cb nl_msg unit Z := fun m _ s => (NL_OK, s + hdr_len (nm_block m)).
Definition sum_cb : nl_cb nl_msg nlmsgerr unit Z (@RM Z) RV SD :=
  Cb (Some add_len :: replicate 10 None) (replicate 11 None) None None None None None 1 11.

Lemma sum_cb_reader : reader sum_cb add_len None.
Proof. split; [done|]. intros m s. by left. Qed.

Lemma dump_parts_ok : Forall (in_dump 7) (part1 ++ part2 ++ [last_part]) /\ Forall is_data (part1 ++ part2).
Proof. split; repeat constructor; vm_compute; congruence. Qed.

Lemma recvmsgs_dump_witness : exists w',
  recvmsgs (al := sample_alloc) (kernel := dump_kernel) (outputs := outputs0) 4096 2 sk0 sum_cb 0 w0 =
    Some ((set_seq_expect 8 sk0, 52, 4), w') /\ live w' = 0.
Proof.
  destruct dump_parts_ok as [Hin Hdata].
  destruct (recvmsgs_dump (al := sample_alloc) (kernel := dump_kernel) (outputs := outputs0) 4096 sample_alloc_total
    sum_cb add_len None (Sockaddr AF_NETLINK 0 0) 2 sk0 0 [part1] part2 last_part w0) as (res & w' & E & -> & Hl & _).
  - exact sum_cb_reader.
  - reflexivity.
  - vm_compute. intuition congruence.
  - repeat constructor; vm_compute; intuition congruence.
  - vm_compute. auto.
  - exact Hin.
  - exact Hdata.
  - reflexivity.
  - vm_compute. congruence.
  - simpl. lia.
  - exists w'. split; [exact E|exact Hl].
Defined.

(** *** Bytes that are no messages, a truncated datagram, then nothing *)

Definition noise_kernel : Kernel := fun h c =>
  match length h with
  | O => Reply 40 0 (replicate 40 16) 0 0 12
  | 1%nat => Reply 20 0 (le_bytes 4 20 ++ replicate 16 2) MSG_TRUNC 0 12
  | _ => Reply (-1) 11 [] 0 0 0
  end.

Lemma nl_recvmsgs_balanced_witness :
  runs (nl_recvmsgs (al := sample_alloc) (kernel := noise_kernel) (outputs := outputs0) 4096 3 sk0 sum_cb 0) w0 (fun res w' =>
    snd res <= 0 /\ same_sock sk0 (fst (fst res)) /\ live w' = 0 /\ only_receives 3 w0 w').
Proof.
  apply (nl_recvmsgs_balanced (al := sample_alloc) (kernel := noise_kernel) (outputs := outputs0) 4096 ltac:(lia) 2 3 sk0 sum_cb 0 w0).
  - intros h c. unfold answer, noise_kernel. destruct (length h) as [|[|n]]; vm_compute; intuition congruence.
  - intros h c Hh. unfold answer, noise_kernel. destruct (length h) as [|[|n]]; [lia|lia|]. vm_compute. intuition congruence.
  - by split.
  - reflexivity.
  - reflexivity.
  - simpl. lia.
  - lia.
Defined.

(** *** A kernel that refuses every request *)

Definition refusal (data : bytes) : NlParse.message :=
  NlParse.Msg (le_bytes 2 NLMSG_ERROR ++ le_bytes 2 0 ++ take 4 (drop 8 data) ++ le_bytes 4 4711) (le_bytes 4 (u32 (-1)) ++ replicate 16 0).

Definition refusing_kernel : Kernel := fun h c =>
  match c with
  | SendmsgAddr _ _ _ _ data _ => Reply (zlen data) 0 [] 0 0 0
  | RecvmsgFlags _ _ _ _ =>
      match last h with
      | Some (SendmsgAddr _ _ _ _ data _, _) => NlParse.datagram (NlParse.enc_msg (refusal data))
      | _ => Reply (-1) 11 [] 0 0 0
      end
  | _ => Reply 0 0 [] 0 0 0
  end.

Lemma refusal_answers data : 16 <= zlen data -> answers (refusal data) (get_le 8 4 data) (-1).
Proof.
  intros Hd. unfold zlen in Hd. assert (length (take 4 (drop 8 data)) = 4%nat) as Hl by (rewrite length_take, length_drop; lia).
  split; try done.
  - split; [|vm_compute; congruence]. unfold refusal, zlen. cbn [NlParse.m_rest]. rewrite !length_app, !le_bytes_length, Hl. done.
  - unfold m_seq, get_le, refusal. cbn [NlParse.m_rest]. rewrite (app_assoc (le_bytes 2 _)). rewrite drop_app_length' by done.
    rewrite take_app_length' by (by rewrite Hl). done.
Qed.

Lemma refusing_acknowledges : acknowledges (kernel := refusing_kernel) 4096 sk0 (-1).
Proof.
  intros h m data Hd. split; [done|]. exists (refusal data). pose proof (refusal_answers data ltac:(lia)) as Ha. split_and!; [done| |].
  - pose proof (NlParse.enc_msg_length _ (an_ok _ _ _ Ha)) as E. unfold fits. rewrite E. vm_compute. intuition congruence.
  - unfold answer at 1, refusing_kernel at 1, recv_call. by rewrite last_snoc.
Qed.

Definition request0 : nl_msg :=
  NlMsg (-1) 0 NlAttr.zero_addr NlAttr.zero_addr NlAttr.zero_addr (Nlmsg (le_bytes 4 20 ++ le_bytes 2 18 ++ replicate 26 0) 32) 1.
Definition lib0 : lib nl_msg nlmsgerr unit Z (@RM Z) RV SD := Lib (replicate 32 0) 0 {[1%positive := sum_cb]}.

Lemma nl_send_sync_answered_witness : exists st,
  nl_send_sync (al := sample_alloc) (kernel := refusing_kernel) (outputs := outputs0) 4096 4711 1 sk0 request0 0 (lib0, World [] 2 (-1)) =
    Some ((set_seq_expect 8 (set_seq_next 8 sk0), 0, - NLE_PERM), st) /\ live (snd st) = 0.
Proof.
  destruct (nl_send_sync_answered (al := sample_alloc) (kernel := refusing_kernel) (outputs := outputs0) 4096 4711 sample_alloc_total
    (Sockaddr AF_NETLINK 0 0) 1 sk0 request0 0 (-1) sum_cb lib0 (World [] 2 (-1))) as (res & st & E & data & -> & _ & Hl & _).
  - reflexivity.
  - reflexivity.
  - by split.
  - vm_compute. intuition congruence.
  - split; [reflexivity|reflexivity|vm_compute; intuition congruence].
  - vm_compute. congruence.
  - simpl. lia.
  - simpl. lia.
  - reflexivity.
  - simpl. lia.
  - reflexivity.
  - exact refusing_acknowledges.
  - lia.
  - exists st. split; [exact E|exact Hl].
Defined.

(** ** What the code does not do *)

(** Control data where no control buffer was given (the kernel sends packet
    information): the buffer of 0 bytes is doubled to 0 bytes, [realloc] frees
    it the second time, and [free] is called on it again. *)
Definition pktinfo_kernel : Kernel := fun h c => Reply 20 0 (replicate 20 0) MSG_CTRUNC 0 12.

Lemma nl_recv_frees_twice fuel :
  nl_recv (al := sample_alloc) (kernel := pktinfo_kernel) (outputs := outputs0) 4096 fuel true sk0 w0 = None.
Proof. destruct fuel as [|[|fuel]]; reflexivity. Qed.

(** A datagram that does not fit the buffer is thrown away: without MSG_PEEK
    the result of [recvmsg] is the length of the buffer, so the buffer does not
    grow, and the datagram has left the queue when it is read again. *)
Definition cut_kernel : Kernel := fun h c =>
  match c, length h with
  | RecvmsgFlags _ len _ _, O => Reply len 0 (replicate (Z.to_nat len) 0) MSG_TRUNC 0 12
  | _, _ => Reply (-1) 11 [] 0 0 0
  end.

Lemma nl_recv_loses_truncated : exists w',
  nl_recv (al := sample_alloc) (kernel := cut_kernel) (outputs := outputs0) 4096 2 true (set_bufsize 32 sk0) w0 =
    Some (Recvd (- NLE_AGAIN) None (Sockaddr 0 0 0) None, w') /\ length (log w') = 2%nat.
Proof. eexists. split; [vm_compute; reflexivity|reflexivity]. Qed.

End NlRecv.
