(* ===== verification/NlAddr.v ===== *)
(** * Abstract addresses of libnl ([lib/addr.c], name tables of [lib/utils.c])

    An address has a family, a number of bytes and a prefix length.  Texts are
    C strings; what [inet_pton], [inet_ntop], [sscanf] and [strtol] of the C
    library do is written out for the formats used here, except for the text
    form of IPv6 addresses, which is a parameter.  [None] is undefined
    behaviour: reading or writing outside a block.

    The theorems: printing an address and parsing the text gives it back;
    whatever the text, the parser stays inside its buffer and yields a
    well-formed address of the family that was asked for; comparing prefixes
    compares the leading bits. *)

From S2P Require Import Prelude JsonUtil Netlink Syscalls NetRequests NlParse NlAttr NlSocket.
From Stdlib Require Import ZArith Lia.
From stdpp Require Import base list numbers option strings.

Open Scope Z_scope.

Module NlAddr.
Import NlSocket (NLE_NOMEM, NLE_INVAL, NLE_RANGE, NLE_AF_NOSUPPORT, NLE_NOADDR, NLE_OBJ_NOTFOUND).
Import JsonUtil (print_nat, take_while, drop_while, clamp64).
Import NlAttr (rd_bytes, memcmp).
Import Netlink (le_bytes, get_le).

Definition AF_UNSPEC : Z := 0.
Definition AF_INET : Z := 2.
Definition AF_INET6 : Z := 10.
Definition AF_DECnet : Z := 12.
Definition AF_LLC : Z := 26.
Definition EINVAL : Z := 22.

(** ** Text of numbers *)

Definition isxdigit (c : Z) : bool :=
  isdigit c || ((65 <=? c) && (c <=? 70)) || ((97 <=? c) && (c <=? 102)).

(** The value of a digit, or of a letter as a digit. *)
Definition digit_val (c : Z) : Z := if isdigit c then c - 48 else tolower c - 87.

Definition value_of (base : Z) (ds : bytes) : Z := fold_left (fun a c => a * base + digit_val c) ds 0.

(** Lower-case hexadecimal digits: ["%02x"] of a byte and ["%x"]. *)
Definition hex_digit (d : Z) : Z := if d <? 10 then 48 + d else 87 + d.
Definition hex2 (b : Z) : bytes := [hex_digit (b / 16); hex_digit (b mod 16)].
Fixpoint hex_aux (fuel : nat) (n : Z) (acc : bytes) : bytes :=
  match fuel with
  | O => acc
  | S fuel' => let acc := hex_digit (n mod 16) :: acc in if n <? 16 then acc else hex_aux fuel' (n / 16) acc
  end.
Definition print_hex (n : Z) : bytes := hex_aux 8 n [].

(** An optional sign: its length, whether it is a minus, and the rest. *)
Definition scan_sign (s : bytes) : nat * bool * bytes :=
  match s with
  | c :: s' => if c =? 45 then (1%nat, true, s') else if c =? 43 then (1%nat, false, s') else (0%nat, false, s)
  | [] => (0%nat, false, [])
  end.

(** The digits of a base that a text starts with. *)
Definition is_base_digit (base c : Z) : bool := if base =? 16 then isxdigit c else isdigit c && (c - 48 <? base).

(** A prefix ["0x"] that digits follow. *)
Definition has_0x (s : bytes) : bool :=
  match s with z :: x :: c :: _ => (z =? 48) && (tolower x =? 120) && isxdigit c | _ => false end.

(** Sign, base and digits as [strtol] and [strtoul] read them, and what is
    behind them; without digits that is the whole text. *)
Definition scan_number (base : Z) (s : bytes) : option (bool * Z) * bytes :=
  let '(_, neg, t) := scan_sign (drop_while isspace s) in
  let '(base, t) :=
    if has_0x t && ((base =? 16) || (base =? 0)) then (16, drop 2 t)
    else if base =? 0 then (match t with c :: _ => if c =? 48 then 8 else 10 | [] => 10 end, t) else (base, t) in
  match take_while (is_base_digit base) t with
  | [] => (None, s)
  | ds => (Some (neg, value_of base ds), drop_while (is_base_digit base) t)
  end.

(** The value, whether there were digits, the rest. *)
Definition strtol (base : Z) (s : bytes) : Z * bool * bytes :=
  match scan_number base s with
  | (Some (neg, v), rest) => (clamp64 (if neg : bool then - v else v), true, rest)
  | (None, rest) => (0, false, rest)
  end.

Definition ULONG_MAX : Z := 2 ^ 64 - 1.

Definition strtoul (base : Z) (s : bytes) : Z * bytes :=
  match scan_number base s with
  | (Some (neg, v), rest) => (if v >? ULONG_MAX then ULONG_MAX else u64 (if neg : bool then - v else v), rest)
  | (None, rest) => (0, rest)
  end.

(** The conversion ["%02x"] of [sscanf]: white space, then at most two
    characters of sign, prefix and digits; a prefix alone does not match. *)
Definition scan_x2 (s : bytes) : option (Z * bytes) :=
  let '(k, neg, t) := scan_sign (drop_while isspace s) in
  let w := (2 - k)%nat in
  if (w =? 2)%nat && match t with z :: x :: _ => (z =? 48) && (tolower x =? 120) | _ => false end then None else
  match take_while isxdigit (take w t) with
  | [] => None
  | ds => Some (u32 (if neg : bool then - value_of 16 ds else value_of 16 ds), drop (length ds) t)
  end.

(** ["%02x:%02x:..."], [n] conversions. *)
Fixpoint scan_mac (n : nat) (s : bytes) : option bytes :=
  match n with
  | O => Some []
  | S n' =>
      '(v, s) ← scan_x2 s;
      match n', s with
      | O, _ => Some [u8 v]
      | _, c :: s' => if c =? 58 then cons (u8 v) <$> scan_mac n' s' else None
      | _, [] => None
      end
  end.

(** [inet_pton (AF_INET, ...)]: [octets] are the numbers that are complete,
    [cur] is the one being read. *)
Fixpoint pton4 (s octets : bytes) (cur : Z) (saw_digit : bool) : option bytes :=
  match s with
  | [] => if (length octets =? 3)%nat && saw_digit then Some (octets ++ [cur]) else None
  | ch :: s' =>
      if isdigit ch then
        let new := cur * 10 + (ch - 48) in
        if saw_digit && (cur =? 0) then None else
        if new >? 255 then None else pton4 s' octets new true
      else if (ch =? 46) && saw_digit then
        if (length octets =? 3)%nat then None else pton4 s' (octets ++ [cur]) 0 false
      else None
  end.

Definition inet_pton4 (s : bytes) : option bytes := pton4 (cstr s) [] 0 false.

Fixpoint dotted (octets : bytes) : bytes :=
  match octets with
  | [] => []
  | [x] => print_nat x
  | x :: octets' => print_nat x ++ [46] ++ dotted octets'
  end.

(** The text form of IPv6 addresses. *)
Class Inet6 := { inet_ntop6 : bytes -> bytes; inet_pton6 : bytes -> option bytes }.

(** ** Writing into a buffer *)

(** [snprintf (buf, size, ...)] of the text [t]; the block has [size] bytes. *)
Definition snprintf (t buf : bytes) : bytes :=
  if zlen buf =? 0 then buf else splice 0 (take (length buf - 1) t ++ [0]) buf.

(** [strncat (buf, t, size - strlen (buf) - 1)]: there must be a NUL in the
    block. *)
Definition strncat (t buf : bytes) : option bytes :=
  if strlen buf <? zlen buf then Some (splice (strlen buf) (take (length buf - 1 - length (cstr buf)) t ++ [0]) buf) else None.

(** [inet_ntop]: nothing is written when the text does not fit. *)
Definition ntop (t buf : bytes) : bytes := if zlen t <? zlen buf then splice 0 (t ++ [0]) buf else buf.

(** ** DECnet *)

(** Bytes of the machine are in little-endian order, as on the wire. *)
Definition dn_ntohs (addr : Z) : Z := Z.lor (Z.land addr 255) (Z.shiftl (Z.shiftr addr 8) 8).

(** The buffer, [*addr], [*pos] and [*started]. *)
Record dnet := Dnet { d_str : bytes; d_addr : Z; d_pos : Z; d_started : bool }.

(** The result is whether the buffer is full. *)
Definition do_digit (d : dnet) (scale len : Z) : bool * dnet :=
  let tmp := d_addr d / scale in
  if d_pos d =? len then (true, d) else
  if (tmp >? 0) || d_started d || (scale =? 1) then
    (false, Dnet (splice (d_pos d) [tmp + 48] (d_str d)) (u16 (d_addr d - tmp * scale)) (d_pos d + 1) true)
  else (false, d).

(** Digits until the buffer is full. *)
Fixpoint do_digits (scales : list Z) (len : Z) (d : dnet) : bool * dnet :=
  match scales with
  | [] => (false, d)
  | scale :: scales' => let '(stop, d) := do_digit d scale len in if stop then (true, d) else do_digits scales' len d
  end.

(** [None] is NULL; else the buffer. *)
Definition dnet_ntop (addrbuf : bytes) (addrlen : Z) (buf : bytes) : option bytes :=
  let addr := dn_ntohs (get_le 0 2 addrbuf) in
  let area := Z.shiftr addr 10 in
  if negb (addrlen =? 2) then None else
  let addr := Z.land addr 1023 in
  let len := zlen buf in
  if len =? 0 then Some buf else
  let '(stop, d) := do_digits [10; 1] len (Dnet buf area 0 false) in
  if stop then Some (d_str d) else
  if d_pos d =? len then Some (d_str d) else
  let '(stop, d) := do_digits [1000; 100; 10; 1] len (Dnet (splice (d_pos d) [46] (d_str d)) addr (d_pos d + 1) false) in
  if stop then Some (d_str d) else
  if d_pos d =? len then Some (d_str d) else Some (splice (d_pos d) [0] (d_str d)).

(** The number of digits and [*dst]. *)
Fixpoint dnet_num_loop (src : bytes) (rv dst : Z) : Z * Z :=
  match src with
  | [] => (rv, dst)
  | c :: src' => if isdigit c then dnet_num_loop src' (rv + 1) (u16 (u16 (dst * 10) + (c - 48))) else (rv, dst)
  end.

Definition dnet_num (src : bytes) : Z * Z := dnet_num_loop (cstr src) 0 0.

Definition dnet_pton (src : bytes) : option bytes :=
  let src := cstr src in
  let '(pos, area) := dnet_num src in
  let sep := default 0 (src !! Z.to_nat pos) in
  if (pos =? 0) || (area >? 63) || (negb (sep =? 46) && negb (sep =? 44)) then None else
  let '(pos', node) := dnet_num (drop (Z.to_nat (pos + 1)) src) in
  if (pos' =? 0) || (node >? 1023) then None
  else Some (le_bytes 2 (dn_ntohs (u16 (Z.lor (Z.shiftl area 10) node)))).

(** ** Addresses *)

Record nl_addr := Addr {
  a_family : Z;
  a_maxsize : Z;
  a_len : Z;
  a_prefixlen : Z;
  a_refcnt : Z;
  a_addr : bytes
}.

Definition nl_addr_set_family (addr : nl_addr) (family : Z) : nl_addr :=
  Addr family (a_maxsize addr) (a_len addr) (a_prefixlen addr) (a_refcnt addr) (a_addr addr).
Definition nl_addr_get_family (addr : nl_addr) : Z := a_family addr.
Definition nl_addr_set_prefixlen (addr : nl_addr) (prefixlen : Z) : nl_addr :=
  Addr (a_family addr) (a_maxsize addr) (a_len addr) prefixlen (a_refcnt addr) (a_addr addr).
Definition nl_addr_get_prefixlen (addr : nl_addr) : Z := u32 (a_prefixlen addr).
Definition nl_addr_get_binary_addr (addr : nl_addr) : bytes := a_addr addr.
Definition nl_addr_get_len (addr : nl_addr) : Z := a_len addr.

(** [buf] has the [len] bytes that are copied. *)
Definition nl_addr_set_binary_addr (addr : nl_addr) (buf : bytes) : nl_addr * Z :=
  if zlen buf >? a_maxsize addr then (addr, - NLE_RANGE) else
  (Addr (a_family addr) (a_maxsize addr) (u32 (zlen buf)) (a_prefixlen addr) (a_refcnt addr)
     (splice 0 buf (replicate (Z.to_nat (a_maxsize addr)) 0)), 0).

(** [None] is [BUG ()]. *)
Definition addr_destroy (addr : nl_addr) : option unit := if negb (a_refcnt addr =? 1) then None else Some tt.

Definition set_addr_refcnt (n : Z) (addr : nl_addr) : nl_addr :=
  Addr (a_family addr) (a_maxsize addr) (a_len addr) (a_prefixlen addr) n (a_addr addr).

Definition nl_addr_get (addr : nl_addr) : nl_addr := set_addr_refcnt (s32 (a_refcnt addr + 1)) addr.

(** [Some None] is a freed address. *)
Definition nl_addr_put (addr : option nl_addr) : option (option nl_addr) :=
  match addr with
  | None => Some None
  | Some addr =>
      if a_refcnt addr =? 1 then _ ← addr_destroy addr; Some None
      else Some (Some (set_addr_refcnt (s32 (a_refcnt addr - 1)) addr))
  end.

Definition nl_addr_shared (addr : nl_addr) : bool := a_refcnt addr >? 1.

Definition nl_addr_cmp (a b : nl_addr) : option Z :=
  let d := s32 (a_family a - a_family b) in
  if d =? 0 then
    let d := s32 (u32 (a_len a - a_len b)) in
    if negb (a_len a =? 0) && (d =? 0) then
      x ← rd_bytes 0 (a_len a) (a_addr a); y ← rd_bytes 0 (a_len a) (a_addr b);
      let d := memcmp x y in
      Some (if d =? 0 then s32 (a_prefixlen a - a_prefixlen b) else d)
    else Some d
  else Some d.

(** A negative length is undefined. *)
Definition nl_addr_cmp_prefix (a b : nl_addr) : option Z :=
  let d := s32 (a_family a - a_family b) in
  if d =? 0 then
    let len := Z.min (a_prefixlen a) (a_prefixlen b) in
    if len <? 0 then None else
    let bytes := len / 8 in
    x ← rd_bytes 0 bytes (a_addr a); y ← rd_bytes 0 bytes (a_addr b);
    let d := memcmp x y in
    if (d =? 0) && negb (len mod 8 =? 0) then
      let mask := Z.land (Z.shiftr 65280 (len mod 8)) 255 in
      p ← a_addr a !! Z.to_nat bytes; q ← a_addr b !! Z.to_nat bytes;
      Some (Z.land p mask - Z.land q mask)
    else Some d
  else Some d.

Definition nl_addr_iszero (addr : nl_addr) : option bool :=
  x ← rd_bytes 0 (a_len addr) (a_addr addr); Some (forallb (fun c => c =? 0) x).

Definition nl_addr_guess_family (addr : nl_addr) : Z :=
  if a_len addr =? 4 then AF_INET else if a_len addr =? 6 then AF_LLC else
  if a_len addr =? 16 then AF_INET6 else AF_UNSPEC.

(** The socket address, its new length, and the result. *)
Definition nl_addr_fill_sockaddr (addr : nl_addr) (sa : bytes) (salen : Z) : option (bytes * Z * Z) :=
  if a_family addr =? AF_INET then
    if salen <? 16 then Some (sa, salen, - NLE_INVAL) else
    d ← rd_bytes 0 4 (a_addr addr);
    Some (splice 4 d (splice 0 (le_bytes 2 (a_family addr)) sa), 16, 0)
  else if a_family addr =? AF_INET6 then
    if salen <? 28 then Some (sa, salen, - NLE_INVAL) else
    d ← rd_bytes 0 16 (a_addr addr);
    Some (splice 8 d (splice 0 (le_bytes 2 (a_family addr)) sa), 28, 0)
  else Some (sa, salen, - NLE_INVAL).

Section Alloc.
Context {al : Allocator} {inet6 : Inet6}.

(** [sizeof (struct nl_addr)] is 20. *)
Definition nl_addr_alloc (maxsize : Z) : option nl_addr :=
  if malloc_ok (u64 (20 + maxsize)) then Some (Addr 0 (u32 maxsize) 0 0 1 (replicate (Z.to_nat maxsize) 0)) else None.

(** [buf] has [size] bytes. *)
Definition nl_addr_build (family : Z) (buf : bytes) : option nl_addr :=
  addr ← nl_addr_alloc (zlen buf);
  Some (Addr family (a_maxsize addr) (u32 (zlen buf)) (s32 (zlen buf * 8)) (a_refcnt addr) (splice 0 buf (a_addr addr))).

(** The outer option is for reads outside the attribute. *)
Definition nl_addr_alloc_attr (buf : bytes) (nla family : Z) : option (option nl_addr) :=
  len ← NlAttr.nla_len buf nla;
  if malloc_ok (u64 (20 + len)) then d ← rd_bytes (NlAttr.nla_data nla) len buf; Some (nl_addr_build family d)
  else Some None.

Definition nl_addr_clone (addr : nl_addr) : option (option nl_addr) :=
  d ← rd_bytes 0 (a_len addr) (a_addr addr);
  Some (new ← nl_addr_build (a_family addr) d; Some (nl_addr_set_prefixlen new (a_prefixlen addr))).

(** ** Parsing *)

(** [!strcasecmp (a, b)]. *)
Definition strcase_eq (a b : bytes) : bool := bool_decide (map tolower (cstr a) = map tolower (cstr b)).

(** The last form: any number of hexadecimal bytes, up to [sizeof (buf)]. *)
Fixpoint hex_bytes (fuel : nat) (s : bytes) (buf : bytes) : option bytes :=
  match fuel with
  | O => None
  | S fuel' =>
      let '(l, digits, p) := strtol 16 s in
      if negb digits || (l >? 255) || (32 <=? length buf)%nat then None else
      let buf := buf ++ [u8 l] in
      match p with [] => Some buf | _ :: s' => hex_bytes fuel' s' buf end
  end.

(** Up to [prefix:]: an error, or the family and the bytes if there are any. *)
Definition parse_address (str : bytes) (hint : Z) : Z + Z * option bytes :=
  if strcase_eq str (Prelude.str "none") then inr (hint, None) else
  if strcase_eq str (Prelude.str "default") || strcase_eq str (Prelude.str "all") || strcase_eq str (Prelude.str "any") then
    if (hint =? AF_INET) || (hint =? AF_UNSPEC) then inr (AF_INET, None) else
    if hint =? AF_INET6 then inr (AF_INET6, None) else
    if hint =? AF_LLC then inr (AF_LLC, None) else inl (- NLE_AF_NOSUPPORT)
  else
  let try (family : Z) (cond : bool) (parsed : option bytes) (next : Z + Z * option bytes) :=
    if ((hint =? family) || (hint =? AF_UNSPEC)) && cond then
      match parsed with
      | Some b => inr (family, Some b)
      | None => if hint =? family then inl (- NLE_NOADDR) else next
      end
    else next in
  try AF_INET true (inet_pton4 str)
  (try AF_INET6 true (inet_pton6 str)
  (try AF_LLC (strchr str 58) (scan_mac 6 (cstr str))
  (try AF_DECnet (strchr str 46 || strchr str 44) (dnet_pton str)
  (if (hint =? AF_UNSPEC) && strchr str 58 then
     match hex_bytes (S (length str)) (cstr str) [] with Some b => inr (AF_UNSPEC, Some b) | None => inl (- NLE_INVAL) end
   else inl (- NLE_NOADDR))))).

(** The text before the first slash, and the text behind it. *)
Fixpoint split_slash (s : bytes) : bytes * option bytes :=
  match s with
  | [] => ([], None)
  | c :: s' => if c =? 47 then ([], Some s') else let '(a, p) := split_slash s' in (c :: a, p)
  end.

Definition nl_addr_parse (addrstr : bytes) (hint : Z) : Z + nl_addr :=
  if negb (malloc_ok (strlen addrstr + 1)) then inl (- NLE_NOMEM) else
  let '(str, prefix) := split_slash (cstr addrstr) in
  match parse_address str hint with
  | inl err => inl err
  | inr (family, data) =>
      let len := zlen (default [] data) in
      match nl_addr_alloc len with
      | None => inl (- NLE_NOMEM)
      | Some addr =>
          let addr := nl_addr_set_family addr family in
          let addr := match data with Some buf => fst (nl_addr_set_binary_addr addr buf) | None => addr end in
          match prefix with
          | Some p =>
              let '(pl, digits, _) := strtol 0 p in
              if negb digits then inl (- NLE_INVAL) else inr (nl_addr_set_prefixlen addr (s32 pl))
          | None => inr (nl_addr_set_prefixlen addr (s32 (len * 8)))
          end
      end
  end.

(** ** Validation and printing *)

(** The number of conversions that store something, all of which are
    suppressed here, or EOF. *)
Definition sscanf_suppressed (s : bytes) : Z := match drop_while isspace (cstr s) with [] => -1 | _ => 0 end.

Definition nl_addr_valid (addr : bytes) (family : Z) : bool :=
  if family =? AF_INET then match inet_pton4 addr with Some _ => true | None => false end else
  if family =? AF_INET6 then match inet_pton6 addr with Some _ => true | None => false end else
  if family =? AF_DECnet then match dnet_pton addr with Some _ => true | None => false end else
  if family =? AF_LLC then sscanf_suppressed addr =? 6 else true.

(** The loop over the bytes behind the first. *)
Fixpoint cat_bytes (bs : bytes) (buf : bytes) : option bytes :=
  match bs with
  | [] => Some buf
  | b :: bs' => buf ← strncat (58 :: hex2 b) buf; cat_bytes bs' buf
  end.

(** From [prefix:] on. *)
Definition cat_prefix (addr : nl_addr) (buf : bytes) : option bytes :=
  if negb (u32 (a_prefixlen addr) =? u32 (8 * a_len addr)) then strncat (47 :: print_nat (u32 (a_prefixlen addr))) buf else Some buf.

Definition nl_addr2str (addr : option nl_addr) (buf : bytes) : option bytes :=
  match addr with
  | None => Some (snprintf (Prelude.str "none") buf)
  | Some addr =>
      if a_len addr =? 0 then cat_prefix addr (snprintf (Prelude.str "none") buf) else
      buf ← (if a_family addr =? AF_INET then d ← rd_bytes 0 4 (a_addr addr); Some (ntop (dotted d) buf)
             else if a_family addr =? AF_INET6 then d ← rd_bytes 0 16 (a_addr addr); Some (ntop (inet_ntop6 d) buf)
             else if a_family addr =? AF_DECnet then
               d ← rd_bytes 0 2 (a_addr addr); Some (default buf (dnet_ntop d (a_len addr) buf))
             else
               d ← rd_bytes 0 (a_len addr) (a_addr addr);
               match d with
               | b :: bs => cat_bytes bs (snprintf (hex2 b) buf)
               | [] => Some buf
               end);
      cat_prefix addr buf
  end.

End Alloc.

(** ** Names of address families *)

Definition trans_tbl : Type := list (Z * string).

Definition __type2str (type : Z) (buf : bytes) (tbl : trans_tbl) : bytes :=
  match List.find (fun e => fst e =? type) tbl with
  | Some e => snprintf (str (snd e)) buf
  | None => snprintf (str "0x" ++ print_hex (u32 type)) buf
  end.

Definition __str2type (buf : bytes) (tbl : trans_tbl) : Z :=
  match cstr buf with
  | [] => - NLE_INVAL
  | _ =>
      match List.find (fun e => strcase_eq (str (snd e)) buf) tbl with
      | Some e => fst e
      | None =>
          let '(l, rest) := strtoul 0 (cstr buf) in
          if (l =? ULONG_MAX) || negb (zlen rest =? 0) then - NLE_OBJ_NOTFOUND else s32 l
      end
  end.

Definition afs : trans_tbl :=
  [(0, "unspec"); (1, "unix"); (2, "inet"); (3, "ax25"); (4, "ipx"); (5, "appletalk"); (6, "netrom"); (7, "bridge");
   (8, "atmpvc"); (9, "x25"); (10, "inet6"); (11, "rose"); (12, "decnet"); (13, "netbeui"); (14, "security"); (15, "key");
   (16, "netlink"); (17, "packet"); (18, "ash"); (19, "econet"); (20, "atmsvc"); (21, "rds"); (22, "sna"); (23, "irda");
   (24, "pppox"); (25, "wanpipe"); (26, "llc"); (29, "can"); (30, "tipc"); (31, "bluetooth"); (32, "iucv"); (33, "rxrpc");
   (34, "isdn"); (35, "phonet"); (36, "ieee802154"); (37, "caif"); (38, "alg"); (39, "nfc")]%string.

Definition nl_af2str (family : Z) (buf : bytes) : bytes := __type2str family buf afs.
Definition nl_str2af (name : bytes) : Z := let fam := __str2type name afs in if fam >=? 0 then fam else - EINVAL.

(** ** Texts in buffers *)

Definition text_ok (t : bytes) : Prop := Forall (fun c => c <> 0) t.

(** The buffer of [n] bytes holds the text [t]. *)
Definition holds (buf t : bytes) (n : Z) : Prop := cstr buf = t /\ zlen buf = n.

Lemma take_cstr l : take (length (cstr l)) l = cstr l.
Proof. induction l as [|c l IH]; [done|]. simpl. destruct (c =? 0); [done|]. simpl. by rewrite IH. Qed.

Lemma cstr_terminated t rest : text_ok t -> cstr (t ++ 0 :: rest) = t.
Proof. intros Ht. rewrite JsonUtil.cstr_app_nonzero by done. simpl. by rewrite app_nil_r. Qed.

(** Text and NUL written at the start of a block. *)
Lemma splice_text t buf : text_ok t -> zlen t < zlen buf -> holds (splice 0 (t ++ [0]) buf) t (zlen buf).
Proof.
  intros Ht Hl. split.
  - unfold splice. change (Z.to_nat 0) with 0%nat. rewrite take_0, app_nil_l, <- app_assoc. by apply cstr_terminated.
  - unfold zlen in *. f_equal. apply splice_length; [lia|]. unfold zlen. rewrite length_app. simpl. lia.
Qed.

Lemma snprintf_holds t buf : text_ok t -> zlen t < zlen buf -> holds (snprintf t buf) t (zlen buf).
Proof.
  intros Ht Hl. pose proof (zlen_nonneg t). unfold snprintf. rewrite (proj2 (Z.eqb_neq _ _)) by lia.
  rewrite take_ge by (unfold zlen in *; lia). by apply splice_text.
Qed.

Lemma ntop_holds t buf : text_ok t -> zlen t < zlen buf -> holds (ntop t buf) t (zlen buf).
Proof. intros Ht Hl. unfold ntop. rewrite (proj2 (Z.ltb_lt _ _)) by done. by apply splice_text. Qed.

Lemma cstr_text_ok l : text_ok (cstr l).
Proof. induction l as [|c l IH]; [constructor|]. simpl. destruct (Z.eqb_spec c 0); by constructor. Qed.

Lemma strncat_holds t u buf n : holds buf t n -> text_ok u -> zlen t + zlen u < n ->
  exists buf', strncat u buf = Some buf' /\ holds buf' (t ++ u) n.
Proof.
  intros [Ht Hn] Hu Hl. pose proof (zlen_nonneg t). pose proof (zlen_nonneg u). unfold strncat, strlen. rewrite Ht, Hn.
  rewrite (proj2 (Z.ltb_lt _ _)) by lia. eexists. split; [done|]. rewrite take_ge by (unfold zlen in *; lia). split.
  - unfold splice, zlen. rewrite Nat2Z.id, <- Ht, take_cstr, (app_assoc (cstr buf)), (app_assoc (cstr buf)), <- app_assoc.
    apply cstr_terminated, Forall_app. split; [apply cstr_text_ok|done].
  - rewrite <- Hn. unfold zlen at 1. rewrite splice_length; [done|lia|]. rewrite zlen_app. change (zlen [0]) with 1. lia.
Qed.

(** ** Numbers *)

Lemma digits_ok ds : JsonUtil.all_digits ds -> text_ok ds.
Proof. intros H. eapply Forall_impl; [exact H|]. intros c Hc. by apply JsonUtil.isdigit_nonzero. Qed.

Lemma value_of_dec ds : JsonUtil.all_digits ds -> value_of 10 ds = JsonUtil.dec_value ds.
Proof.
  unfold value_of, JsonUtil.dec_value. set (a := 0). clearbody a. revert a. induction ds as [|c ds IH]; intros a H; [done|].
  apply list.Forall_cons in H as [Hc H]. simpl. rewrite IH by done. do 2 f_equal. unfold digit_val. by rewrite Hc.
Qed.

Lemma dec_aux_short k : forall fuel n acc, (1 <= k)%nat -> 0 <= n < 10 ^ Z.of_nat k ->
  (length (JsonUtil.dec_aux fuel n acc) <= k + length acc)%nat.
Proof.
  induction k as [|k IH]; intros [|fuel] n acc Hk Hn; [lia|lia|cbn; lia|]. cbn [JsonUtil.dec_aux]. destruct (Z.ltb_spec n 10); [simpl; lia|].
  destruct k as [|k]; [change (10 ^ Z.of_nat 1) with 10 in Hn; lia|]. etransitivity; [apply IH; [lia|]|simpl; lia].
  rewrite (Nat2Z.inj_succ (S k)), Z.pow_succ_r in Hn by lia. split; [apply Z.div_pos; lia|apply Z.div_lt_upper_bound; lia].
Qed.

Lemma print_nat_short n : 0 <= n < 10 ^ 10 -> zlen (print_nat n) <= 10.
Proof. intros Hn. pose proof (dec_aux_short 10 (S (Z.to_nat (Z.log2 n))) n [] ltac:(lia) Hn) as H. unfold zlen, print_nat. cbn [length] in H. lia. Qed.

(** What [strtol] reads of a decimal number. *)
Lemma strtol_print n : 0 <= n <= INT_MAX -> strtol 0 (print_nat n) = (n, true, []).
Proof.
  intros Hn. destruct (JsonUtil.print_nat_spec n) as (Hd & Hv & Hc); [lia|]. unfold strtol, scan_number.
  destruct (print_nat n) as [|c ds] eqn:E; [destruct Hc as [[=]|(? & ? & [=] & _)]|].
  apply list.Forall_cons in Hd as [H1 Hd]. pose proof H1 as Hr. apply JsonUtil.isdigit_range in Hr.
  cbn [drop_while]. rewrite JsonUtil.isdigit_not_space by done. cbn [scan_sign].
  rewrite (proj2 (Z.eqb_neq c 45)), (proj2 (Z.eqb_neq c 43)) by lia.
  assert (has_0x (c :: ds) = false) as ->.
  { destruct ds as [|x [|y ds]]; [done|done|]. apply list.Forall_cons in Hd as [Hx _]. apply JsonUtil.isdigit_range in Hx.
    unfold has_0x, tolower. destruct ((65 <=? x) && (x <=? 90)) eqn:Ex; [lia|]. rewrite (proj2 (Z.eqb_neq x 120)) by lia. by rewrite andb_false_r. }
  cbn [andb]. change (0 =? 0) with true. cbv iota. destruct Hc as [Hc|(d & ds' & [= <- <-] & Hne)].
  - injection Hc as -> ->. cbn. by rewrite <- Hv.
  - rewrite (proj2 (Z.eqb_neq c 48)) by done.
    assert (forall x, is_base_digit 10 x = isdigit x) as Eb.
    { intros x. unfold is_base_digit. cbn. destruct (isdigit x) eqn:Ex; [|done]. apply JsonUtil.isdigit_range in Ex. apply Z.ltb_lt. lia. }
    assert (Forall (fun x => is_base_digit 10 x = true) (c :: ds)) as Hall.
    { constructor; [by rewrite Eb|]. eapply Forall_impl; [exact Hd|]. intros x Hx. by rewrite Eb. }
    rewrite <- (app_nil_r (c :: ds)). rewrite JsonUtil.take_while_app, JsonUtil.drop_while_app by done.
    rewrite value_of_dec by (by constructor). rewrite Hv. rewrite JsonUtil.clamp64_id; [done|].
    unfold JsonUtil.in_int64, INT64_MIN, INT64_MAX, INT_MAX in *. lia.
Qed.

(** ** Parsing what was printed *)

(** Case analysis over a small range. *)
Lemma below_cases (n : nat) (P : Z -> Prop) : Forall P (seqZ 0 (Z.of_nat n)) -> forall x, 0 <= x < Z.of_nat n -> P x.
Proof. intros H x Hx. eapply Forall_forall; [exact H|]. apply elem_of_seqZ. lia. Qed.

Lemma below_check (n : nat) (P : Z -> bool) : forallb P (seqZ 0 (Z.of_nat n)) = true -> forall x, 0 <= x < Z.of_nat n -> P x = true.
Proof. intros H. apply below_cases. apply Forall_forall. intros x Hx. apply list_elem_of_In in Hx. exact (proj1 (forallb_forall _ _) H x Hx). Qed.

Ltac each_value := repeat (constructor; [intros; reflexivity|]); constructor.

Lemma pton4_number x : 0 <= x < 256 -> forall s octets, pton4 (print_nat x ++ s) octets 0 false = pton4 s octets x true.
Proof.
  revert x. refine (below_cases 256 (fun x => forall s octets, pton4 (print_nat x ++ s) octets 0 false = pton4 s octets x true) _). each_value.
Qed.

Lemma pton4_dot s octets x : (length octets < 3)%nat ->
  pton4 ([46] ++ s) octets x true = pton4 s (octets ++ [x]) 0 false.
Proof. intros H. cbn. destruct (Nat.eqb_spec (length octets) 3); [lia|done]. Qed.

Lemma pton4_dotted a b c d : byte_ok a -> byte_ok b -> byte_ok c -> byte_ok d ->
  pton4 (dotted [a; b; c; d]) [] 0 false = Some [a; b; c; d].
Proof.
  intros Ha Hb Hc Hd. unfold byte_ok in *. cbn [dotted].
  rewrite pton4_number, pton4_dot, pton4_number, pton4_dot, pton4_number, pton4_dot by (try done; simpl; lia).
  rewrite <- (app_nil_r (print_nat d)), pton4_number by done. done.
Qed.

Lemma scan_x2_hex2 x : 0 <= x < 256 -> forall s, scan_x2 (hex2 x ++ s) = Some (x, s).
Proof. revert x. refine (below_cases 256 (fun x => forall s, scan_x2 (hex2 x ++ s) = Some (x, s)) _). each_value. Qed.

(** ["%02x:%02x..."]. *)
Fixpoint mac_text (bs : bytes) : bytes :=
  match bs with
  | [] => []
  | [b] => hex2 b
  | b :: bs' => hex2 b ++ 58 :: mac_text bs'
  end.

Lemma u8_byte b : byte_ok b -> u8 b = b.
Proof. intros Hb. unfold u8, wrap. apply Z.mod_small. exact Hb. Qed.

Lemma scan_mac_text bs : bs <> [] -> Forall byte_ok bs -> scan_mac (length bs) (mac_text bs) = Some bs.
Proof.
  induction bs as [|b bs IH]; [done|]. intros _ H. apply list.Forall_cons in H as [Hb H]. destruct bs as [|b' bs].
  - cbn [length scan_mac mac_text]. rewrite <- (app_nil_r (hex2 b)), scan_x2_hex2 by done. cbn. by rewrite u8_byte.
  - change (mac_text (b :: b' :: bs)) with (hex2 b ++ 58 :: mac_text (b' :: bs)). cbn [length]. cbn [scan_mac].
    rewrite scan_x2_hex2 by done. cbn [mbind option_bind]. change (58 =? 58) with true. cbv iota.
    cbn [length scan_mac] in IH. rewrite IH by done. cbn. by rewrite u8_byte.
Qed.

(** *** DECnet *)

Lemma splice_splice {A} off (x y buf : list A) : 0 <= off -> off + zlen x + zlen y <= zlen buf ->
  splice (off + zlen x) y (splice off x buf) = splice off (x ++ y) buf.
Proof.
  intros H0 H. unfold splice, zlen in *. replace (Z.to_nat (off + Z.of_nat (length x))) with (Z.to_nat off + length x)%nat by lia.
  assert (length (take (Z.to_nat off) buf ++ x) = Z.to_nat off + length x)%nat as Hl by (rewrite length_app, length_take; lia).
  set (P := take (Z.to_nat off) buf) in *. rewrite (app_assoc P x (drop _ buf)).
  rewrite take_app_length', drop_app_ge by lia. rewrite drop_drop, Hl, !length_app, <- !app_assoc. do 4 f_equal. lia.
Qed.

(** The digits that are written. *)
Fixpoint digits_text (scales : list Z) (n : Z) (started : bool) : bytes :=
  match scales with
  | [] => []
  | scale :: scales' =>
      let tmp := n / scale in
      if (tmp >? 0) || started || (scale =? 1) then (tmp + 48) :: digits_text scales' (u16 (n - tmp * scale)) true
      else digits_text scales' n started
  end.

Lemma do_digits_text scales : forall d len, 0 <= d_pos d -> d_pos d + zlen scales <= len -> zlen (d_str d) = len -> exists n started,
  do_digits scales len d = (false, Dnet (splice (d_pos d) (digits_text scales (d_addr d) (d_started d)) (d_str d)) n
    (d_pos d + zlen (digits_text scales (d_addr d) (d_started d))) started) /\
  zlen (digits_text scales (d_addr d) (d_started d)) <= zlen scales.
Proof.
  induction scales as [|scale scales IH]; intros [s n pos st] len H0 Hl Hz; cbn [d_str d_addr d_pos d_started] in *.
  - exists n, st. cbn [do_digits digits_text]. split; [|done]. rewrite NlAttr.splice_nil. change (zlen (@nil Z)) with 0. by rewrite Z.add_0_r.
  - rewrite zlen_cons in Hl. pose proof (zlen_nonneg scales). cbn [do_digits digits_text]. unfold do_digit. cbn [d_str d_addr d_pos d_started].
    rewrite (proj2 (Z.eqb_neq pos len)) by lia. destruct ((n / scale >? 0) || st || (scale =? 1)).
    + set (s1 := splice pos [n / scale + 48] s). set (n1 := u16 (n - n / scale * scale)).
      assert (zlen s1 = len) as Hz1 by (unfold s1, zlen in *; rewrite splice_length; [lia|lia|unfold zlen; simpl; lia]).
      destruct (IH (Dnet s1 n1 (pos + 1) true) len) as (n' & st' & E & Hle); cbn [d_str d_pos]; [lia..|].
      cbn [d_str d_addr d_pos d_started] in *. exists n', st'. cbv iota beta. rewrite E, !zlen_cons. split; [|lia]. f_equal. f_equal; [|lia].
      unfold s1. change (pos + 1) with (pos + zlen [n / scale + 48]). rewrite splice_splice; [done|lia|].
      change (zlen [n / scale + 48]) with 1. lia.
    + destruct (IH (Dnet s n pos st) len) as (n' & st' & E & Hle); cbn [d_str d_pos]; [lia..|].
      exists n', st'. cbn [d_str d_addr d_pos d_started] in *. cbv iota beta. rewrite E, zlen_cons. split; [done|lia].
Qed.

Lemma digits_area x : 0 <= x < 64 -> digits_text [10; 1] x false = print_nat x.
Proof.
  intros Hx. apply (bool_decide_unpack (digits_text [10; 1] x false = print_nat x)), Is_true_true. revert x Hx.
  refine (below_check 64 (fun x => bool_decide (digits_text [10; 1] x false = print_nat x)) _). vm_compute. reflexivity.
Qed.

Lemma digits_node x : 0 <= x < 1024 -> digits_text [1000; 100; 10; 1] x false = print_nat x.
Proof.
  intros Hx. apply (bool_decide_unpack (digits_text [1000; 100; 10; 1] x false = print_nat x)), Is_true_true. revert x Hx.
  refine (below_check 1024 (fun x => bool_decide (digits_text [1000; 100; 10; 1] x false = print_nat x)) _). vm_compute. reflexivity.
Qed.

Definition dnet_text (v : Z) : bytes := print_nat (Z.shiftr v 10) ++ [46] ++ print_nat (Z.land v 1023).

Lemma dn_ntohs_id v : dn_ntohs v = v.
Proof.
  unfold dn_ntohs. change 255 with (Z.ones 8). rewrite <- Z.ldiff_ones_r by lia. rewrite Z.lor_comm. apply Z.lor_ldiff_and.
Qed.

Lemma print_nat_ok n : 0 <= n -> text_ok (print_nat n).
Proof. intros Hn. apply digits_ok. by apply JsonUtil.print_nat_spec. Qed.

Lemma dnet_split v : 0 <= v < 65536 -> 0 <= Z.shiftr v 10 < 64 /\ 0 <= Z.land v 1023 < 1024.
Proof.
  intros Hv. change 1023 with (Z.ones 10). rewrite Z.shiftr_div_pow2, Z.land_ones by lia. change (2 ^ 10) with 1024.
  Z.to_euclidean_division_equations. lia.
Qed.

Lemma dnet_ntop_holds d buf : length d = 2%nat -> Forall byte_ok d -> 16 <= zlen buf -> exists buf',
  dnet_ntop d 2 buf = Some buf' /\ holds buf' (dnet_text (get_le 0 2 d)) (zlen buf) /\ zlen (dnet_text (get_le 0 2 d)) <= 7.
Proof.
  intros Hd Hb Hbuf. pose proof (NlParse.get_le_range 0 2 d Hb) as Hv. change (256 ^ Z.of_nat 2) with 65536 in Hv.
  unfold dnet_ntop. rewrite dn_ntohs_id. set (v := get_le 0 2 d) in *. clearbody v. destruct (dnet_split v Hv) as [Ha Hn].
  change (negb (2 =? 2)) with false. cbv iota. rewrite (proj2 (Z.eqb_neq (zlen buf) 0)) by lia.
  destruct (do_digits_text [10; 1] (Dnet buf (Z.shiftr v 10) 0 false) (zlen buf)) as (n1 & s1 & E1 & L1); cbn [d_pos d_str]; [done|change (zlen [10; 1]) with 2; lia|done|].
  cbn [d_str d_addr d_pos d_started] in *. rewrite E1, digits_area in * by done. cbn [d_str d_pos]. set (ta := print_nat (Z.shiftr v 10)) in *.
  change (zlen [10; 1]) with 2 in L1. pose proof (zlen_nonneg ta). rewrite (proj2 (Z.eqb_neq _ (zlen buf))) by lia. rewrite splice_splice by (try done; change (zlen [46]) with 1; lia).
  set (buf1 := splice 0 (ta ++ [46]) buf). assert (zlen (ta ++ [46]) = zlen ta + 1) as La by (rewrite zlen_app; done).
  assert (zlen buf1 = zlen buf) as Hz1 by (unfold buf1, zlen at 1; rewrite splice_length; [done|lia|lia]).
  destruct (do_digits_text [1000; 100; 10; 1] (Dnet buf1 (Z.land v 1023) (0 + zlen ta + 1) false) (zlen buf)) as (n2 & s2 & E2 & L2);
    cbn [d_pos d_str]; [lia|change (zlen [1000; 100; 10; 1]) with 4; lia|done|].
  cbn [d_str d_addr d_pos d_started] in *. rewrite E2, digits_node in * by done. cbn [d_str d_pos]. set (tn := print_nat (Z.land v 1023)) in *.
  change (zlen [1000; 100; 10; 1]) with 4 in L2. pose proof (zlen_nonneg tn). rewrite (proj2 (Z.eqb_neq _ (zlen buf))) by lia.
  eexists. split; [done|]. assert (dnet_text v = ta ++ [46] ++ tn) as -> by done.
  unfold buf1. replace (0 + zlen ta + 1) with (0 + zlen (ta ++ [46])) by lia. rewrite (splice_splice 0 (ta ++ [46]) tn buf) by lia.
  replace (0 + zlen (ta ++ [46]) + zlen tn) with (0 + zlen ((ta ++ [46]) ++ tn)) by (rewrite zlen_app; lia).
  rewrite splice_splice by (rewrite ?zlen_app; change (zlen [0]) with 1; rewrite ?zlen_app; change (zlen [46]) with 1; lia).
  rewrite <- !app_assoc. rewrite (app_assoc ta), (app_assoc (ta ++ [46])), <- (app_assoc ta). split.
  - apply splice_text; [|rewrite !zlen_app; change (zlen [46]) with 1; lia].
    unfold text_ok. rewrite !Forall_app. split_and!; [apply print_nat_ok; lia|by constructor|apply print_nat_ok; lia].
  - rewrite !zlen_app. change (zlen [46]) with 1. lia.
Qed.

(** *** Parsing *)

Lemma dnet_num_digits ds : forall rest rv v, JsonUtil.all_digits ds -> JsonUtil.starts_with isdigit rest = false ->
  0 <= v -> fold_left (fun a c => a * 10 + (c - 48)) ds v < 6553 ->
  dnet_num_loop (ds ++ rest) rv v = (rv + zlen ds, fold_left (fun a c => a * 10 + (c - 48)) ds v).
Proof.
  assert (forall ds v, JsonUtil.all_digits ds -> 0 <= v -> v <= fold_left (fun a c => a * 10 + (c - 48)) ds v) as Hmono.
  { clear. induction ds as [|c ds IH]; intros v Hd Hv; [done|]. apply list.Forall_cons in Hd as [Hc Hd]. apply JsonUtil.isdigit_range in Hc.
    simpl. specialize (IH (v * 10 + (c - 48)) Hd ltac:(lia)). lia. }
  induction ds as [|c ds IH]; intros rest rv v Hd Hr Hv Hb.
  - cbn [app fold_left]. change (zlen (@nil Z)) with 0. rewrite Z.add_0_r. destruct rest as [|c rest]; [done|]. simpl in *. by rewrite Hr.
  - apply list.Forall_cons in Hd as [Hc Hd]. cbn [app dnet_num_loop fold_left] in *. rewrite Hc. apply JsonUtil.isdigit_range in Hc.
    pose proof (Hmono ds (v * 10 + (c - 48)) Hd ltac:(lia)). unfold u16. rewrite (wrap_id 16 (v * 10)), wrap_id by lia.
    rewrite IH, zlen_cons by (try done; lia). f_equal. lia.
Qed.

Lemma dnet_num_print n rest : 0 <= n < 1024 -> text_ok rest -> JsonUtil.starts_with isdigit rest = false ->
  dnet_num (print_nat n ++ rest) = (zlen (print_nat n), n).
Proof.
  intros Hn Ht Hr. destruct (JsonUtil.print_nat_spec n) as (Hd & Hv & _); [lia|]. unfold dnet_num.
  rewrite JsonUtil.cstr_nonzero by (apply Forall_app; split; [by apply digits_ok|done]).
  unfold JsonUtil.dec_value in Hv. rewrite dnet_num_digits by (rewrite ?Hv; try done; lia). by rewrite Hv.
Qed.

Lemma print_nat_nonempty n : 0 <= n -> 0 < zlen (print_nat n).
Proof.
  intros Hn. destruct (JsonUtil.print_nat_spec n) as (_ & _ & Hc); [done|]. apply JsonUtil.canonical_nonempty in Hc.
  destruct (print_nat n) as [|c l]; [done|]. rewrite zlen_cons. pose proof (zlen_nonneg l). lia.
Qed.

Lemma le_bytes_value d : Forall byte_ok d -> le_bytes (length d) (Netlink.le_value d) = d.
Proof.
  induction 1 as [|c d Hc _ IH]; [done|]. cbn [length le_bytes Netlink.le_value]. unfold byte_ok in Hc.
  rewrite (Z.mul_comm 256), Z_mod_plus_full, Z.mod_small, Z.div_add, Z.div_small, Z.add_0_l, IH by lia. done.
Qed.

Lemma dnet_pton_text d : length d = 2%nat -> Forall byte_ok d -> dnet_pton (dnet_text (get_le 0 2 d)) = Some d.
Proof.
  intros Hd Hb. pose proof (NlParse.get_le_range 0 2 d Hb) as Hv. change (256 ^ Z.of_nat 2) with 65536 in Hv.
  assert (le_bytes 2 (get_le 0 2 d) = d) as Hle.
  { unfold get_le. change (Z.to_nat 0) with 0%nat. rewrite drop_0, take_ge by lia. rewrite <- Hd. by apply le_bytes_value. }
  set (v := get_le 0 2 d) in *. destruct (dnet_split v Hv) as [Ha Hn]. unfold dnet_pton, dnet_text.
  set (ta := print_nat (Z.shiftr v 10)). set (tn := print_nat (Z.land v 1023)).
  assert (text_ok ta) as Hta by (apply print_nat_ok; lia). assert (text_ok tn) as Htn by (apply print_nat_ok; lia).
  rewrite JsonUtil.cstr_nonzero by (apply Forall_app; split; [done|]; by constructor).
  unfold ta at 1. rewrite dnet_num_print; [|lia|by constructor|done]. fold ta. pose proof (print_nat_nonempty (Z.shiftr v 10) ltac:(lia)) as Hpa. fold ta in Hpa.
  assert ((ta ++ [46] ++ tn) !! Z.to_nat (zlen ta) = Some 46) as -> by (unfold zlen; rewrite Nat2Z.id, lookup_app_r, Nat.sub_diag by done; done).
  rewrite (proj2 (Z.eqb_neq (zlen ta) 0)) by lia. rewrite Z.gtb_ltb, (proj2 (Z.ltb_ge 63 _)) by lia. cbn [orb default andb negb Z.eqb Pos.eqb].
  assert (drop (Z.to_nat (zlen ta + 1)) (ta ++ [46] ++ tn) = tn ++ []) as ->.
  { rewrite app_nil_r, app_assoc. apply drop_app_length'. rewrite length_app. unfold zlen. simpl. lia. }
  unfold tn. rewrite dnet_num_print; [|lia|constructor|done]. pose proof (print_nat_nonempty (Z.land v 1023) ltac:(lia)).
  rewrite (proj2 (Z.eqb_neq _ 0)) by lia. rewrite Z.gtb_ltb, (proj2 (Z.ltb_ge 1023 _)) by lia. cbn [orb]. rewrite dn_ntohs_id.
  change 1023 with (Z.ones 10). rewrite <- Z.ldiff_ones_r by lia. rewrite Z.lor_ldiff_and. unfold u16. rewrite wrap_id by lia. by rewrite Hle.
Qed.

(** A text that is an address and not a name: no NUL, no slash, a dot or a
    colon. *)
Definition addr_like (t : bytes) : Prop := Forall (fun c => c <> 0 /\ c <> 47) t /\ (46 ∈ t \/ 58 ∈ t).

Lemma addr_like_ok t : addr_like t -> text_ok t.
Proof. intros [H _]. eapply Forall_impl; [exact H|]. by intros c []. Qed.

Lemma not_a_name t name : addr_like t -> Forall (fun c => 97 <= tolower c) (cstr name) -> strcase_eq t name = false.
Proof.
  intros Ht Hn. unfold strcase_eq. rewrite JsonUtil.cstr_nonzero by (by apply addr_like_ok). apply bool_decide_eq_false. intros E.
  assert (forall c, c ∈ t -> 97 <= tolower c) as H.
  { intros c Hc. assert (tolower c ∈ map tolower t) as Hm by (by apply list_elem_of_fmap_2). rewrite E in Hm.
    apply list_elem_of_fmap in Hm as (d & -> & Hd). by apply (proj1 (Forall_forall _ _) Hn). }
  destruct Ht as [_ [Hc|Hc]]; specialize (H _ Hc); cbn in H; lia.
Qed.

Lemma split_slash_none t : Forall (fun c => c <> 0 /\ c <> 47) t -> split_slash t = (t, None).
Proof. induction 1 as [|c t [_ Hc] _ IH]; [done|]. simpl. rewrite (proj2 (Z.eqb_neq _ _) Hc). by rewrite IH. Qed.

Lemma split_slash_some t q : Forall (fun c => c <> 0 /\ c <> 47) t -> split_slash (t ++ 47 :: q) = (t, Some q).
Proof. induction 1 as [|c t [_ Hc] _ IH]; [done|]. simpl. rewrite (proj2 (Z.eqb_neq _ _) Hc). by rewrite IH. Qed.

(** ** Printing and parsing *)

(** What is known of the text form of IPv6 addresses: it is read back, has at
    most 45 characters (INET6_ADDRSTRLEN is 46) and colons. *)
Class Inet6Laws (inet6 : Inet6) : Prop := {
  ntop6_pton6 d : length d = 16%nat -> Forall byte_ok d -> inet_pton6 (inet_ntop6 d) = Some d;
  ntop6_length d : length d = 16%nat -> Forall byte_ok d -> zlen (inet_ntop6 d) <= 45;
  ntop6_chars d : length d = 16%nat -> Forall byte_ok d -> addr_like (inet_ntop6 d)
}.

Definition clean (t : bytes) : Prop := Forall (fun c => c <> 0 /\ c <> 47) t.

Lemma clean_print n : 0 <= n -> clean (print_nat n).
Proof.
  intros Hn. destruct (JsonUtil.print_nat_spec n) as (Hd & _ & _); [done|]. eapply Forall_impl; [exact Hd|].
  intros c Hc. apply JsonUtil.isdigit_range in Hc. lia.
Qed.

Lemma print_byte_length x : 0 <= x < 256 -> zlen (print_nat x) <= 3.
Proof.
  intros Hx. apply Z.leb_le. revert x Hx. refine (below_check 256 (fun x => zlen (print_nat x) <=? 3) _). vm_compute. reflexivity.
Qed.

Lemma clean_hex2 b : byte_ok b -> clean (hex2 b).
Proof.
  intros Hb. unfold byte_ok in Hb. assert (forall d, 0 <= d < 16 -> hex_digit d <> 0 /\ hex_digit d <> 47) as H.
  { intros d Hd. unfold hex_digit. destruct (d <? 10); lia. }
  repeat constructor; apply H; Z.to_euclidean_division_equations; lia.
Qed.

Lemma dotted_like a b c d : byte_ok a -> byte_ok b -> byte_ok c -> byte_ok d ->
  addr_like (dotted [a; b; c; d]) /\ zlen (dotted [a; b; c; d]) <= 15.
Proof.
  unfold byte_ok. intros Ha Hb Hc Hd. cbn [dotted]. split; [split|].
  - repeat (apply Forall_app; split); try (apply clean_print; lia); repeat constructor; done.
  - left. apply elem_of_app. right. apply elem_of_app. left. apply list_elem_of_singleton. done.
  - rewrite !zlen_app. change (zlen [46]) with 1. pose proof (print_byte_length a Ha). pose proof (print_byte_length b Hb).
    pose proof (print_byte_length c Hc). pose proof (print_byte_length d Hd). lia.
Qed.

Definition tail_text (bs : bytes) : bytes := concat (map (fun b => 58 :: hex2 b) bs).

Lemma mac_text_tail b bs : mac_text (b :: bs) = hex2 b ++ tail_text bs.
Proof. revert b. induction bs as [|b' bs IH]; intros b; [done|]. change (mac_text (b :: b' :: bs)) with (hex2 b ++ 58 :: mac_text (b' :: bs)). by rewrite IH. Qed.

Lemma zlen_tail_text bs : zlen (tail_text bs) = 3 * zlen bs.
Proof.
  induction bs as [|b bs IH]; [done|]. change (tail_text (b :: bs)) with ((58 :: hex2 b) ++ tail_text bs).
  rewrite zlen_app, IH, (zlen_cons b). change (zlen (58 :: hex2 b)) with 3. lia.
Qed.

Lemma clean_tail bs : Forall byte_ok bs -> clean (tail_text bs).
Proof.
  induction 1 as [|b bs Hb _ IH]; [constructor|]. cbn [tail_text map concat]. apply Forall_app. split; [|done].
  constructor; [done|]. by apply clean_hex2.
Qed.

Lemma clean_ok t : clean t -> text_ok t.
Proof. intros H. eapply Forall_impl; [exact H|]. by intros c []. Qed.

Lemma cat_bytes_holds bs : forall buf t n, holds buf t n -> Forall byte_ok bs -> zlen t + 3 * zlen bs < n ->
  exists buf', cat_bytes bs buf = Some buf' /\ holds buf' (t ++ tail_text bs) n.
Proof.
  induction bs as [|b bs IH]; intros buf t n Hh Hb Hl.
  - exists buf. split; [done|]. cbn. by rewrite app_nil_r.
  - apply list.Forall_cons in Hb as [Hb Hbs]. rewrite zlen_cons in Hl. pose proof (zlen_nonneg bs).
    destruct (strncat_holds t (58 :: hex2 b) buf n Hh) as (buf1 & E1 & H1).
    { apply clean_ok. constructor; [done|]. by apply clean_hex2. } { change (zlen (58 :: hex2 b)) with 3. lia. }
    destruct (IH buf1 (t ++ 58 :: hex2 b) n H1 Hbs) as (buf2 & E2 & H2).
    { rewrite zlen_app. change (zlen (58 :: hex2 b)) with 3. lia. }
    exists buf2. cbn [cat_bytes]. rewrite E1. cbn [mbind option_bind]. split; [done|]. cbn [tail_text map concat]. rewrite app_assoc. done.
Qed.

Section RoundTrip.
Context {al : Allocator} {inet6 : Inet6} {laws : Inet6Laws inet6}.
Hypothesis memory : malloc_total al.

(** An address with a text form of its own. *)
Record printable (a : nl_addr) : Prop := {
  pr_bytes : Forall byte_ok (a_addr a);
  pr_len : 0 <= a_len a <= zlen (a_addr a);
  pr_prefix : 0 <= a_prefixlen a <= INT_MAX;
  pr_family : a_len a = 0 \/ (a_family a = AF_INET /\ a_len a = 4) \/ (a_family a = AF_INET6 /\ a_len a = 16) \/
              (a_family a = AF_LLC /\ a_len a = 6) \/ (a_family a = AF_DECnet /\ a_len a = 2)
}.

Definition data (a : nl_addr) : bytes := take (Z.to_nat (a_len a)) (a_addr a).

Definition addr_text (a : nl_addr) : bytes :=
  if a_len a =? 0 then str "none" else
  if a_family a =? AF_INET then dotted (data a) else
  if a_family a =? AF_INET6 then inet_ntop6 (data a) else
  if a_family a =? AF_DECnet then dnet_text (get_le 0 2 (data a)) else mac_text (data a).

Definition prefix_text (a : nl_addr) : bytes :=
  if a_prefixlen a =? 8 * a_len a then [] else 47 :: print_nat (a_prefixlen a).

Lemma data_ok a : printable a -> zlen (data a) = a_len a /\ Forall byte_ok (data a) /\
  rd_bytes 0 (a_len a) (a_addr a) = Some (data a).
Proof.
  intros [Hb Hl _ _]. unfold data, rd_bytes. split_and!.
  - unfold zlen in *. rewrite length_take. lia.
  - by apply Forall_take.
  - rewrite !(proj2 (Z.leb_le _ _)) by lia. done.
Qed.

(** The text form [t] of an address: it fits, is no name, is read back under
    the family of the address, and is what is printed. *)
Definition has_form (a : nl_addr) (t : bytes) : Prop :=
  addr_like t /\ zlen t <= 45 /\ parse_address t (a_family a) = inr (a_family a, Some (data a)) /\
  forall buf, 52 <= zlen buf -> exists buf', nl_addr2str (Some a) buf = cat_prefix a buf' /\ holds buf' t (zlen buf).

(** None of the names of the parser. *)
Lemma no_name t : addr_like t -> strcase_eq t (str "none") = false /\ strcase_eq t (str "default") = false /\
  strcase_eq t (str "all") = false /\ strcase_eq t (str "any") = false.
Proof. intros Ht. split_and!; apply not_a_name; try done; repeat constructor; vm_compute; congruence. Qed.

Lemma strchr_in t c : text_ok t -> c ∈ t -> strchr t c = true.
Proof.
  intros Ht Hc. unfold strchr. rewrite JsonUtil.cstr_nonzero by done. apply orb_true_iff. right. apply existsb_exists.
  exists c. split; [by apply list_elem_of_In|apply Z.eqb_refl].
Qed.

Ltac families := cbn [orb andb negb Z.eqb Pos.eqb AF_INET AF_INET6 AF_LLC AF_DECnet AF_UNSPEC].

Lemma form_inet a : printable a -> a_family a = AF_INET -> a_len a = 4 -> has_form a (dotted (data a)).
Proof.
  intros Ha E L. destruct (data_ok a Ha) as (Hl & Hb & Hrd). rewrite L in *. unfold has_form, nl_addr2str. rewrite E, L, Hrd. families. clear Hrd.
  destruct (data a) as [|x [|y [|z [|u [|]]]]]; try (exfalso; unfold zlen in Hl; simpl in Hl; lia).
  rewrite !list.Forall_cons in Hb. destruct Hb as (Hx & Hy & Hz & Hu & _). destruct (dotted_like x y z u Hx Hy Hz Hu) as [Hlike Hlen].
  split_and!; [done|lia| |].
  - unfold parse_address. destruct (no_name _ Hlike) as (-> & -> & -> & ->). families.
    unfold inet_pton4. rewrite JsonUtil.cstr_nonzero by (by apply addr_like_ok). by rewrite pton4_dotted.
  - intros buf Hbuf. eexists. split; [done|]. apply ntop_holds; [by apply addr_like_ok|lia].
Qed.

Lemma form_inet6 a : printable a -> a_family a = AF_INET6 -> a_len a = 16 -> has_form a (inet_ntop6 (data a)).
Proof.
  intros Ha E L. destruct (data_ok a Ha) as (Hl & Hb & Hrd). rewrite L in *. assert (length (data a) = 16%nat) as Hl' by (unfold zlen in Hl; lia).
  pose proof (ntop6_chars (data a) Hl' Hb) as Hlike. pose proof (ntop6_length (data a) Hl' Hb) as Hlen.
  unfold has_form, nl_addr2str. rewrite E, L, Hrd. families. split_and!; [done|lia| |].
  - unfold parse_address. destruct (no_name _ Hlike) as (-> & -> & -> & ->). families. by rewrite ntop6_pton6.
  - intros buf Hbuf. eexists. split; [done|]. apply ntop_holds; [by apply addr_like_ok|lia].
Qed.

Lemma form_llc a : printable a -> a_family a = AF_LLC -> a_len a = 6 -> has_form a (mac_text (data a)).
Proof.
  intros Ha E L. destruct (data_ok a Ha) as (Hl & Hb & Hrd). rewrite L in *. assert (length (data a) = 6%nat) as Hl' by (unfold zlen in Hl; lia).
  assert (scan_mac 6 (mac_text (data a)) = Some (data a)) as Hscan.
  { rewrite <- Hl'. apply scan_mac_text; [|done]. intros He. by rewrite He in Hl'. }
  destruct (data a) as [|b bs] eqn:Ed; [done|]. rewrite zlen_cons in Hl. apply list.Forall_cons in Hb as [Hb Hbs].
  assert (mac_text (b :: bs) = hex2 b ++ tail_text bs) as Et by apply mac_text_tail. rewrite Et in *.
  assert (58 ∈ hex2 b ++ tail_text bs) as Hcolon.
  { apply elem_of_app. right. destruct bs; [simpl in Hl'; lia|]. by left. }
  assert (addr_like (hex2 b ++ tail_text bs)) as Hlike.
  { split; [|by right]. apply Forall_app. split; [by apply clean_hex2|by apply clean_tail]. }
  unfold has_form, nl_addr2str. rewrite E, L, Hrd, Ed. families. split_and!; [done| | |].
  - rewrite zlen_app, zlen_tail_text. change (zlen (hex2 b)) with 2. lia.
  - unfold parse_address. destruct (no_name _ Hlike) as (-> & -> & -> & ->). families. pose proof (addr_like_ok _ Hlike) as Hok.
    rewrite strchr_in by done. rewrite JsonUtil.cstr_nonzero by done. by rewrite Hscan.
  - intros buf Hbuf. destruct (cat_bytes_holds bs (snprintf (hex2 b) buf) (hex2 b) (zlen buf)) as (buf' & E1 & H1).
    { apply snprintf_holds; [by apply clean_ok, clean_hex2|]. change (zlen (hex2 b)) with 2. lia. } { done. }
    { change (zlen (hex2 b)) with 2. lia. }
    exists buf'. cbn [mbind option_bind]. by rewrite E1.
Qed.

Lemma form_decnet a : printable a -> a_family a = AF_DECnet -> a_len a = 2 -> has_form a (dnet_text (get_le 0 2 (data a))).
Proof.
  intros Ha E L. destruct (data_ok a Ha) as (Hl & Hb & Hrd). rewrite L in *. assert (length (data a) = 2%nat) as Hl' by (unfold zlen in Hl; lia).
  pose proof (NlParse.get_le_range 0 2 (data a) Hb) as Hv. change (256 ^ Z.of_nat 2) with 65536 in Hv. destruct (dnet_split _ Hv) as [Hr Hn].
  assert (addr_like (dnet_text (get_le 0 2 (data a)))) as Hlike.
  { split; [|left; apply elem_of_app; right; by left]. apply Forall_app. split; [apply clean_print; lia|]. constructor; [done|]. apply clean_print. lia. }
  unfold has_form, nl_addr2str. rewrite E, L, Hrd. families. split_and!; [done| | |].
  - destruct (dnet_ntop_holds (data a) (replicate 16 0) Hl' Hb) as (_ & _ & _ & Hlen); [done|]. lia.
  - unfold parse_address. destruct (no_name _ Hlike) as (-> & -> & -> & ->). families. rewrite strchr_in; [|by apply addr_like_ok|].
    + families. by rewrite dnet_pton_text.
    + apply elem_of_app. right. by left.
  - intros buf Hbuf. destruct (dnet_ntop_holds (data a) buf Hl' Hb) as (buf' & E1 & H1 & _); [lia|]. exists buf'. cbn [mbind option_bind].
    by rewrite E1.
Qed.

Lemma splice_whole (d z : bytes) : length z = length d -> splice 0 d z = d.
Proof. intros H. unfold splice. change (Z.to_nat 0) with 0%nat. rewrite take_0, app_nil_l, drop_ge by lia. by rewrite app_nil_r. Qed.

(** From the two parts of a text to the address. *)
Lemma nl_addr_parse_parts text t prefix hint family o : strlen text + 1 < 2 ^ 31 -> split_slash (cstr text) = (t, prefix) ->
  parse_address t hint = inr (family, o) -> zlen (default [] o) <= 32 ->
  let d := default [] o in
  nl_addr_parse text hint =
  match prefix with
  | None => inr (Addr family (zlen d) (zlen d) (s32 (zlen d * 8)) 1 d)
  | Some p => let '(pl, digits, _) := strtol 0 p in
              if negb digits then inl (- NLE_INVAL) else inr (Addr family (zlen d) (zlen d) (s32 pl) 1 d)
  end.
Proof.
  intros Hs Hsplit Hp Hl d. change (zlen d <= 32) in Hl. pose proof (zlen_nonneg (cstr text)) as H0. unfold nl_addr_parse. unfold strlen in *. rewrite memory by lia. cbn [negb].
  rewrite Hsplit, Hp. fold d. pose proof (zlen_nonneg d). unfold nl_addr_alloc. unfold u64. rewrite wrap_id by lia. rewrite memory by lia.
  assert (zlen d = Z.of_nat (length d)) as Ez by done. unfold u32. rewrite wrap_id by lia.
  set (a0 := Addr _ _ _ _ _ _). set (a1 := match o with Some _ => _ | None => _ end).
  assert (a1 = Addr family (zlen d) (zlen d) 0 1 d) as ->; [|done]. unfold a1, a0, d in *. destruct o as [buf|]; [|done].
  cbn [default id] in *. unfold nl_addr_set_binary_addr. cbn [a_maxsize nl_addr_set_family a_family a_prefixlen a_refcnt].
  rewrite Z.gtb_ltb, (proj2 (Z.ltb_ge _ _)) by lia. cbn [fst]. unfold u32. rewrite wrap_id by lia.
  rewrite splice_whole by (rewrite length_replicate; lia). done.
Qed.

(** C26: a printed address is read back: for an IPv4, IPv6, link-layer or DECnet
    address with any prefix length (and for an address without bytes of any
    family), [nl_addr2str] into a buffer of 64 bytes or more gives a text from
    which [nl_addr_parse], told the family, makes an equal address. *)
Theorem nl_addr_print_parse a buf : printable a -> 64 <= zlen buf < 2 ^ 31 -> exists buf',
  nl_addr2str (Some a) buf = Some buf' /\ zlen buf' = zlen buf /\
  nl_addr_parse buf' (a_family a) = inr (Addr (a_family a) (a_len a) (a_len a) (a_prefixlen a) 1 (take (Z.to_nat (a_len a)) (a_addr a))).
Proof.
  intros Ha Hbuf. destruct (data_ok a Ha) as (Hl & Hb & _). pose proof (pr_prefix a Ha) as Hp. fold (data a).
  assert (a_len a <= 16) as Hmax by (destruct (pr_family a Ha) as [?|[[_ ?]|[[_ ?]|[[_ ?]|[_ ?]]]]]; lia). pose proof (pr_len a Ha) as Hlen.
  assert (exists t o buf1, clean t /\ zlen t <= 45 /\ parse_address t (a_family a) = inr (a_family a, o) /\ default [] o = data a /\
    nl_addr2str (Some a) buf = cat_prefix a buf1 /\ holds buf1 t (zlen buf)) as (t & o & buf1 & Ht & Htl & Hparse & Ho & Hprint & Hh).
  { destruct (decide (a_len a = 0)) as [H0|H0].
    - exists (str "none"), None, (snprintf (str "none") buf). split_and!.
      + repeat constructor; vm_compute; congruence.
      + vm_compute. congruence.
      + done.
      + cbn. unfold data. by rewrite H0.
      + unfold nl_addr2str. by rewrite H0.
      + apply snprintf_holds; [repeat constructor; vm_compute; congruence|]. change (zlen (str "none")) with 4. lia.
    - assert (exists t, has_form a t) as (t & [Hc _] & Ht & Hparse & Hprint).
      { destruct (pr_family a Ha) as [?|[[E L]|[[E L]|[[E L]|[E L]]]]]; [done|eexists..];
          [by apply form_inet|by apply form_inet6|by apply form_llc|by apply form_decnet]. }
      destruct (Hprint buf) as (buf1 & E & H); [lia|]. by exists t, (Some (data a)), buf1. }
  rewrite Hprint. unfold cat_prefix, u32. rewrite !wrap_id by (unfold INT_MAX in *; lia). rewrite <- Ho in Hl.
  destruct (Z.eqb_spec (a_prefixlen a) (8 * a_len a)) as [Ep|Ep]; cbn [negb].
  - destruct Hh as [Hc Hz]. exists buf1. split_and!; [done|done|].
    rewrite (nl_addr_parse_parts buf1 t None (a_family a) (a_family a) o); unfold strlen; rewrite ?Hc; [|lia|by apply split_slash_none|done|lia].
    rewrite Ho in *. rewrite Hl, s32_id by (unfold INT_MIN, INT_MAX in *; lia). do 2 f_equal. lia.
  - assert (zlen (print_nat (a_prefixlen a)) <= 10) as Hpl by (apply print_nat_short; unfold INT_MAX in *; lia).
    destruct (strncat_holds t (47 :: print_nat (a_prefixlen a)) buf1 (zlen buf) Hh) as (buf2 & E2 & Hc & Hz).
    { constructor; [done|]. apply print_nat_ok. lia. } { rewrite zlen_cons. lia. }
    exists buf2. split_and!; [done|done|].
    rewrite (nl_addr_parse_parts buf2 t (Some (print_nat (a_prefixlen a))) (a_family a) (a_family a) o);
      unfold strlen; rewrite ?Hc; [|rewrite zlen_app, zlen_cons; lia|by apply split_slash_some|done|lia].
    rewrite strtol_print by done. cbn [negb]. rewrite Ho in *. rewrite Hl, s32_id by (unfold INT_MIN, INT_MAX in *; lia). done.
Qed.

End RoundTrip.

(** ** Every text gives a well-formed address or an error *)

Lemma pton4_shape s : forall octets cur saw d, (length octets <= 3)%nat -> Forall byte_ok octets -> byte_ok cur ->
  pton4 s octets cur saw = Some d -> length d = 4%nat /\ Forall byte_ok d.
Proof.
  unfold byte_ok. induction s as [|c s IH]; intros octets cur saw d Hl Ho Hc; cbn [pton4].
  - destruct (Nat.eqb_spec (length octets) 3) as [E|]; [|done]. destruct saw; [|done]. intros [= <-].
    rewrite length_app, E. split; [done|]. apply Forall_app. split; [done|by apply Forall_singleton].
  - destruct (isdigit c) eqn:Ec.
    + apply JsonUtil.isdigit_range in Ec. destruct (saw && (cur =? 0)); [done|]. destruct (Z.gtb_spec (cur * 10 + (c - 48)) 255); [done|].
      apply IH; [done|done|lia].
    + destruct ((c =? 46) && saw); [|done]. destruct (Nat.eqb_spec (length octets) 3); [done|].
      apply IH; [rewrite length_app; simpl; lia|apply Forall_app; split; [done|by apply Forall_singleton]|lia].
Qed.

Lemma u8_ok v : byte_ok (u8 v).
Proof. apply (wrap_range 8). lia. Qed.

Lemma scan_mac_shape n : forall s d, scan_mac n s = Some d -> length d = n /\ Forall byte_ok d.
Proof.
  induction n as [|n IH]; intros s d; cbn [scan_mac]; [by intros [= <-]|]. destruct (scan_x2 s) as [[v s1]|]; [|done]. cbn [mbind option_bind].
  destruct n as [|n]; [intros [= <-]; split; [done|]; apply Forall_singleton, u8_ok|].
  destruct s1 as [|c s1]; [done|]. destruct (c =? 58); [|done]. destruct (scan_mac (S n) s1) as [d1|] eqn:E; [|done]. intros [= <-].
  apply IH in E as [El Eb]. split; [simpl; by rewrite El|]. constructor; [apply u8_ok|done].
Qed.

Lemma le_bytes_ok n v : Forall byte_ok (le_bytes n v).
Proof. revert v. induction n as [|n IH]; intros v; constructor; [|apply IH]. apply Z.mod_pos_bound. lia. Qed.

Lemma dnet_pton_shape s d : dnet_pton s = Some d -> length d = 2%nat /\ Forall byte_ok d.
Proof.
  unfold dnet_pton. destruct (dnet_num (cstr s)) as [pos area]. case_match; [done|]. destruct (dnet_num (drop _ _)) as [pos' node].
  case_match; [done|]. intros [= <-]. split; [done|apply (le_bytes_ok 2)].
Qed.

(** The loop writes at most 32 bytes. *)
Lemma hex_bytes_shape fuel : forall s buf d, Forall byte_ok buf -> (length buf <= 32)%nat -> hex_bytes fuel s buf = Some d ->
  (length d <= 32)%nat /\ Forall byte_ok d.
Proof.
  induction fuel as [|fuel IH]; intros s buf d Hb Hl; [done|]. cbn [hex_bytes]. destruct (strtol 16 s) as [[l digits] p].
  destruct (negb digits || (l >? 255)); [done|]. destruct (Nat.leb_spec 32 (length buf)); [done|]. cbn [orb].
  assert (Forall byte_ok (buf ++ [u8 l])) as Hb' by (apply Forall_app; split; [done|apply Forall_singleton, u8_ok]).
  assert (length (buf ++ [u8 l]) <= 32)%nat as Hl' by (rewrite length_app; simpl; lia).
  destruct p as [|c p]; [by intros [= <-]|]. by apply IH.
Qed.

Section WellFormed.
Context {al : Allocator} {inet6 : Inet6}.
Hypothesis pton6_shape : forall s d, inet_pton6 s = Some d -> length d = 16%nat /\ Forall byte_ok d.

(** The lengths of addresses of a family. *)
Definition family_len (family len : Z) : Prop :=
  if family =? AF_INET then len = 4 else if family =? AF_INET6 then len = 16 else
  if family =? AF_LLC then len = 6 else if family =? AF_DECnet then len = 2 else family = AF_UNSPEC /\ len <= 32.

(** The words that stand for no address. *)
Definition special (t : bytes) : bool :=
  strcase_eq t (str "none") || (strcase_eq t (str "default") || strcase_eq t (str "all") || strcase_eq t (str "any")).
Definition text_len (t : bytes) (family len : Z) : Prop := if special t then len = 0 else family_len family len.

Lemma parse_address_shape t hint family o : parse_address t hint = inr (family, o) ->
  (hint <> AF_UNSPEC -> family = hint) /\ Forall byte_ok (default [] o) /\ text_len t family (zlen (default [] o)).
Proof.
  unfold parse_address, text_len, special. case_match; [intros [= <- <-]; split_and!; [done|constructor|done]|]. cbn [orb]. case_match.
  { destruct (Z.eqb_spec hint AF_INET) as [->|]; [intros [= <- <-]; split_and!; [done|constructor|done]|].
    destruct (Z.eqb_spec hint AF_UNSPEC) as [->|]; [intros [= <- <-]; split_and!; [done|constructor|done]|].
    destruct (Z.eqb_spec hint AF_INET6) as [->|]; [intros [= <- <-]; split_and!; [done|constructor|done]|].
    destruct (Z.eqb_spec hint AF_LLC) as [->|]; [intros [= <- <-]; split_and!; [done|constructor|done]|done]. }
  assert (forall fam cond parsed next n, (forall d, parsed = Some d -> length d = n /\ Forall byte_ok d) -> family_len fam (Z.of_nat n) ->
    (next = inr (family, o) -> (hint <> AF_UNSPEC -> family = hint) /\ Forall byte_ok (default [] o) /\ family_len family (zlen (default [] o))) ->
    (if ((hint =? fam) || (hint =? AF_UNSPEC)) && cond then
       match parsed with Some b => inr (fam, Some b) | None => if hint =? fam then inl (- NLE_NOADDR) else next end
     else next) = inr (family, o) ->
    (hint <> AF_UNSPEC -> family = hint) /\ Forall byte_ok (default [] o) /\ family_len family (zlen (default [] o))) as Htry.
  { intros fam cond parsed next n Hp Hf Hn. destruct (Z.eqb_spec hint fam), (Z.eqb_spec hint AF_UNSPEC), cond; cbn [orb andb]; try exact Hn;
      (destruct parsed as [b|]; [|try done; exact Hn]); intros [= <- <-]; destruct (Hp b eq_refl) as [<- Hb]; split_and!; try done; congruence. }
  apply Htry with 4%nat; [intros d; apply pton4_shape; [simpl; lia|constructor|done]|done|].
  apply Htry with 16%nat; [apply pton6_shape|done|].
  apply Htry with 6%nat; [apply scan_mac_shape|done|].
  apply Htry with 2%nat; [apply dnet_pton_shape|done|].
  destruct (Z.eqb_spec hint AF_UNSPEC) as [->|]; cbn [andb]; [|done]. case_match; [|done].
  destruct (hex_bytes _ _ _) as [b|] eqn:E; [|done]. intros [= <- <-]. apply hex_bytes_shape in E as [El Eb]; [|constructor|simpl; lia].
  split_and!; [done|done|]. split; [done|]. unfold zlen. simpl. lia.
Qed.

Lemma parse_address_error t hint err : parse_address t hint = inl err -> err < 0.
Proof. unfold parse_address. intros H. repeat case_match; simplify_eq; reflexivity. Qed.

(** C27: whatever the text, the family asked for and the memory, [nl_addr_parse]
    writes no byte outside its buffer of 32 and returns a negative error or an
    address with one reference whose block is exactly its bytes; the address
    has the family that was asked for and the length of its family (up to 32
    bytes without a family), except that the words none, default, all and any
    give an address of length 0; the prefix length is an [int]. *)
Theorem nl_addr_parse_well_formed text hint :
  match nl_addr_parse text hint with
  | inl err => err < 0
  | inr a => (hint <> AF_UNSPEC -> a_family a = hint) /\ text_len (fst (split_slash (cstr text))) (a_family a) (a_len a) /\ a_maxsize a = a_len a /\
             zlen (a_addr a) = a_len a /\ Forall byte_ok (a_addr a) /\ a_refcnt a = 1 /\ INT_MIN <= a_prefixlen a <= INT_MAX
  end.
Proof.
  unfold nl_addr_parse. destruct (malloc_ok (strlen text + 1)); cbn [negb]; [|reflexivity]. destruct (split_slash (cstr text)) as [t prefix].
  destruct (parse_address t hint) as [err|[family o]] eqn:E; [by eapply parse_address_error|].
  apply parse_address_shape in E as (Hf & Hb & Hl). set (d := default [] o) in *. unfold nl_addr_alloc.
  destruct (malloc_ok (u64 (20 + zlen d))); [|reflexivity].
  assert (0 <= zlen d <= 32) as Hd.
  { pose proof (zlen_nonneg d). split; [done|]. unfold text_len, family_len in Hl. repeat case_match; lia. }
  set (a1 := match o with Some _ => _ | None => _ end).
  assert (exists p, a1 = Addr family (zlen d) (zlen d) p 1 d) as [p ->].
  { exists 0. unfold a1, d in *. unfold u32. destruct o as [buf|]; [|done]. cbn [default id] in *. unfold nl_addr_set_binary_addr.
    cbn [a_maxsize nl_addr_set_family a_family a_prefixlen a_refcnt]. rewrite wrap_id by lia.
    rewrite Z.gtb_ltb, (proj2 (Z.ltb_ge _ _)) by lia. cbn [fst]. unfold u32. rewrite wrap_id by lia.
    rewrite splice_whole by (rewrite length_replicate; unfold zlen; lia). done. }
  destruct prefix as [q|]; [destruct (strtol 0 q) as [[pl digits] rest]; destruct digits; [|reflexivity]|]; cbn; split_and!; try done; apply s32_range.
Qed.

End WellFormed.

(** ** Comparing *)

Lemma memcmp_zero x : forall y, length x = length y -> memcmp x y = 0 <-> x = y.
Proof.
  induction x as [|c x IH]; intros [|d y] Hl; try done. cbn [memcmp]. destruct (Z.eqb_spec c d) as [->|Hne].
  - rewrite IH by (simpl in Hl; lia). split; [congruence|by intros [= ->]].
  - split; [lia|]. intros [= -> _]. lia.
Qed.

(** The bit [i] of an address, from the most significant one on. *)
Definition bit (l : bytes) (i : Z) : bool := Z.testbit (default 0 (l !! Z.to_nat (i / 8))) (7 - i mod 8).

Lemma byte_high p n : byte_ok p -> 8 <= n -> Z.testbit p n = false.
Proof. intros Hp Hn. rewrite <- (Z.mod_small p (2 ^ 8)) by exact Hp. by apply Z.mod_pow2_bits_high. Qed.

Lemma byte_eq p q : byte_ok p -> byte_ok q -> p = q <-> forall j, 0 <= j < 8 -> Z.testbit p (7 - j) = Z.testbit q (7 - j).
Proof.
  intros Hp Hq. split; [by intros ->|]. intros H. apply Z.bits_inj'. intros n Hn.
  destruct (decide (n < 8)); [|by rewrite !byte_high by (try done; lia)]. replace n with (7 - (7 - n)) by lia. apply H. lia.
Qed.

Lemma mask_bit r n : 0 < r < 8 -> 0 <= n -> Z.testbit (Z.land (Z.shiftr 65280 r) 255) n = (8 - r <=? n) && (n <? 8).
Proof.
  intros Hr Hn. rewrite Z.land_spec, Z.shiftr_spec by done. change 255 with (Z.ones 8). change 65280 with (Z.shiftl (Z.ones 8) 8).
  rewrite Z.shiftl_spec, (Z.testbit_ones_nonneg 8 n) by lia. destruct (Z.leb_spec (8 - r) n), (Z.ltb_spec n 8); cbn [andb].
  - rewrite Z.testbit_ones_nonneg by lia. apply andb_true_iff. split; [apply Z.ltb_lt; lia|done].
  - by rewrite andb_false_r.
  - by rewrite Z.testbit_neg_r by lia.
  - by rewrite andb_false_r.
Qed.

Lemma mask_eq p q r : byte_ok p -> byte_ok q -> 0 < r < 8 ->
  Z.land p (Z.land (Z.shiftr 65280 r) 255) - Z.land q (Z.land (Z.shiftr 65280 r) 255) = 0 <->
  forall j, 0 <= j < r -> Z.testbit p (7 - j) = Z.testbit q (7 - j).
Proof.
  intros Hp Hq Hr. split.
  - intros E j Hj. assert (Z.land p (Z.land (Z.shiftr 65280 r) 255) = Z.land q (Z.land (Z.shiftr 65280 r) 255)) as E' by lia.
    apply (f_equal (fun z => Z.testbit z (7 - j))) in E'. rewrite !(Z.land_spec _ (Z.land _ _)), mask_bit in E' by lia.
    rewrite (proj2 (Z.leb_le _ _)), (proj2 (Z.ltb_lt _ _)) in E' by lia. by rewrite !andb_true_r in E'.
  - intros H. apply Z.sub_move_0_r. apply Z.bits_inj'. intros n Hn. rewrite !(Z.land_spec _ (Z.land _ _)), mask_bit by lia.
    destruct (Z.leb_spec (8 - r) n), (Z.ltb_spec n 8); cbn [andb]; rewrite ?andb_false_r, ?andb_true_r; try done.
    replace n with (7 - (7 - n)) by lia. apply H. lia.
Qed.

(** The leading bytes are equal iff their bits are. *)
Lemma bytes_eq_bits (k : nat) x y : Forall byte_ok x -> Forall byte_ok y -> (k <= length x)%nat -> (k <= length y)%nat ->
  take k x = take k y <-> forall i, 0 <= i < 8 * Z.of_nat k -> bit x i = bit y i.
Proof.
  intros Hx Hy Hkx Hky. split.
  - intros E i Hi. unfold bit. assert (Z.to_nat (i / 8) < k)%nat as Hlt by (Z.to_euclidean_division_equations; lia).
    rewrite <- (lookup_take_lt x k), <- (lookup_take_lt y k) by done. by rewrite E.
  - intros H. apply list_eq. intros i. destruct (decide (i < k)%nat) as [Hi|]; [|by rewrite !lookup_take_ge by lia].
    rewrite !lookup_take_lt by done. destruct (lookup_lt_is_Some_2 x i) as [p Ep]; [lia|]. destruct (lookup_lt_is_Some_2 y i) as [q Eq]; [lia|].
    rewrite Ep, Eq. f_equal. apply byte_eq; [by apply (Forall_lookup_1 _ _ _ _ Hx Ep)|by apply (Forall_lookup_1 _ _ _ _ Hy Eq)|]. intros j Hj.
    specialize (H (8 * Z.of_nat i + j) ltac:(lia)). unfold bit in H.
    replace ((8 * Z.of_nat i + j) / 8) with (Z.of_nat i) in H by (Z.to_euclidean_division_equations; lia).
    replace ((8 * Z.of_nat i + j) mod 8) with j in H by (Z.to_euclidean_division_equations; lia). rewrite Nat2Z.id, Ep, Eq in H. exact H.
Qed.

Definition int_ok (n : Z) : Prop := INT_MIN <= n <= INT_MAX.

Lemma family_diff f g : int_ok f -> int_ok g -> s32 (f - g) = 0 <-> f = g.
Proof.
  unfold int_ok, INT_MIN, INT_MAX, s32, swrap. intros Hf Hg. change (32 - 1) with 31. split; [|intros ->; by rewrite Z.sub_diag].
  intros H. Z.to_euclidean_division_equations. lia.
Qed.

(** [nl_addr_cmp_prefix] compares leading bits: for addresses whose prefix
    lengths do not exceed their bytes it reads only their bytes and returns 0
    exactly when the families are equal and all bits up to the shorter prefix
    length are. *)
Theorem nl_addr_cmp_prefix_bits a b : int_ok (a_family a) -> int_ok (a_family b) -> Forall byte_ok (a_addr a) -> Forall byte_ok (a_addr b) ->
  0 <= a_prefixlen a <= 8 * zlen (a_addr a) -> 0 <= a_prefixlen b <= 8 * zlen (a_addr b) -> exists d,
  nl_addr_cmp_prefix a b = Some d /\
  (d = 0 <-> a_family a = a_family b /\ forall i, 0 <= i < Z.min (a_prefixlen a) (a_prefixlen b) -> bit (a_addr a) i = bit (a_addr b) i).
Proof.
  intros Hfa Hfb Ha Hb Hpa Hpb. unfold nl_addr_cmp_prefix. pose proof (family_diff _ _ Hfa Hfb) as Hd.
  destruct (Z.eqb_spec (s32 (a_family a - a_family b)) 0) as [E|E]; [|exists (s32 (a_family a - a_family b)); split; [done|]; tauto].
  apply Hd in E. clear Hd. set (len := Z.min (a_prefixlen a) (a_prefixlen b)) in *. rewrite (proj2 (Z.ltb_ge len 0)) by lia.
  set (k := len / 8). set (r := len mod 8).
  assert (0 <= k /\ 0 <= r < 8 /\ len = 8 * k + r /\ 8 * k <= 8 * zlen (a_addr a) /\ 8 * k <= 8 * zlen (a_addr b)) as (Hk & Hr & Hlen & Hka & Hkb).
  { unfold k, r. pose proof (Z.div_mod len 8). pose proof (Z.mod_pos_bound len 8). pose proof (Z.div_pos len 8). lia. }
  unfold rd_bytes. rewrite !(proj2 (Z.leb_le _ _)) by lia. cbn [andb mbind option_bind]. change (Z.to_nat 0) with 0%nat. rewrite !drop_0.
  assert (memcmp (take (Z.to_nat k) (a_addr a)) (take (Z.to_nat k) (a_addr b)) = 0 <->
    forall i, 0 <= i < 8 * k -> bit (a_addr a) i = bit (a_addr b) i) as Hmem.
  { unfold zlen in *. rewrite memcmp_zero by (rewrite !length_take; lia). rewrite bytes_eq_bits by (try done; lia).
    by rewrite Z2Nat.id. }
  destruct (Z.eqb_spec (memcmp (take (Z.to_nat k) (a_addr a)) (take (Z.to_nat k) (a_addr b))) 0) as [Em|Em]; cbn [andb].
  2:{ eexists. split; [done|]. split; [done|]. intros [_ H]. apply Hmem. intros i Hi. apply H. lia. }
  destruct (Z.eqb_spec r 0) as [Er|Er]; cbn [negb].
  { eexists. split; [done|]. split; [|by intros _]. intros _. split; [done|]. intros i Hi. apply Hmem; [done|lia]. }
  destruct (lookup_lt_is_Some_2 (a_addr a) (Z.to_nat k)) as [p Ep]; [unfold zlen in *; lia|].
  destruct (lookup_lt_is_Some_2 (a_addr b) (Z.to_nat k)) as [q Eq]; [unfold zlen in *; lia|]. rewrite Ep, Eq. cbn [mbind option_bind].
  eexists. split; [done|]. rewrite mask_eq; [|by apply (Forall_lookup_1 _ _ _ _ Ha Ep)|by apply (Forall_lookup_1 _ _ _ _ Hb Eq)|lia].
  assert (forall j, 0 <= j < r -> bit (a_addr a) (8 * k + j) = Z.testbit p (7 - j) /\ bit (a_addr b) (8 * k + j) = Z.testbit q (7 - j)) as Hbit.
  { intros j Hj. unfold bit. replace ((8 * k + j) / 8) with k by (Z.to_euclidean_division_equations; lia).
    replace ((8 * k + j) mod 8) with j by (Z.to_euclidean_division_equations; lia). by rewrite Ep, Eq. }
  split.
  - intros H. split; [done|]. intros i Hi. destruct (decide (i < 8 * k)); [apply Hmem; [done|lia]|].
    replace i with (8 * k + (i - 8 * k)) by lia. destruct (Hbit (i - 8 * k)) as [-> ->]; [lia|]. apply H. lia.
  - intros [_ H] j Hj. destruct (Hbit j Hj) as [<- <-]. apply H. lia.
Qed.

(** ** Names of families *)

Lemma hex_digit_ok d : 0 <= d < 16 -> isxdigit (hex_digit d) = true /\ digit_val (hex_digit d) = d /\ hex_digit d <> 0.
Proof.
  intros Hd. assert (isxdigit (hex_digit d) && (digit_val (hex_digit d) =? d) && negb (hex_digit d =? 0) = true) as H.
  { revert d Hd. refine (below_check 16 (fun d => isxdigit (hex_digit d) && (digit_val (hex_digit d) =? d) && negb (hex_digit d =? 0)) _). by vm_compute. }
  rewrite !andb_true_iff, negb_true_iff, Z.eqb_eq, Z.eqb_neq in H. tauto.
Qed.

Lemma hex_aux_spec fuel : forall n acc, 0 <= n < 16 ^ Z.of_nat (S fuel) -> exists ds, hex_aux (S fuel) n acc = ds ++ acc /\
  ds <> [] /\ Forall (fun c => isxdigit c = true /\ c <> 0) ds /\ value_of 16 ds = n.
Proof.
  induction fuel as [|fuel IH]; intros n acc Hn; pose proof (Z.mod_pos_bound n 16 ltac:(lia)) as Hm;
    destruct (hex_digit_ok (n mod 16) Hm) as (Hx & Hv & Hz); set (h := hex_digit (n mod 16)) in *; cbn [hex_aux]; fold h.
  - change (16 ^ Z.of_nat 1) with 16 in Hn. rewrite (proj2 (Z.ltb_lt n 16)) by lia. exists [h].
    split_and!; [done|done|by apply Forall_singleton|]. unfold value_of. simpl. rewrite Hv, Z.mod_small by lia. done.
  - rewrite Nat2Z.inj_succ, Z.pow_succ_r in Hn by lia. destruct (Z.ltb_spec n 16).
    + exists [h]. split_and!; [done|done|by apply Forall_singleton|]. unfold value_of. simpl. rewrite Hv, Z.mod_small by lia. done.
    + destruct (IH (n / 16) (h :: acc)) as (ds & E & Hne & Hd & Hval); [split; [apply Z.div_pos; lia|apply Z.div_lt_upper_bound; lia]|].
      exists (ds ++ [h]). split_and!.
      * rewrite <- app_assoc. exact E.
      * intros He. by apply app_eq_nil in He as [].
      * apply Forall_app. split; [done|by apply Forall_singleton].
      * unfold value_of in *. rewrite fold_left_app, Hval. simpl. rewrite Hv. pose proof (Z.div_mod n 16). lia.
Qed.

Lemma print_hex_spec n : 0 <= n < 2 ^ 32 -> print_hex n <> [] /\ Forall (fun c => isxdigit c = true /\ c <> 0) (print_hex n) /\ value_of 16 (print_hex n) = n.
Proof. intros Hn. destruct (hex_aux_spec 7 n []) as (ds & E & H); [exact Hn|]. unfold print_hex. by rewrite E, app_nil_r. Qed.

Lemma print_hex_len n : 0 <= n -> zlen (print_hex n) <= 8.
Proof.
  assert (forall fuel n acc, zlen (hex_aux fuel n acc) <= Z.of_nat fuel + zlen acc) as H.
  { induction fuel as [|fuel IH]; intros k acc; cbn [hex_aux]; [lia|].
    destruct (k <? 16); [|etrans; [apply IH|]]; unfold zlen; simpl length; lia. }
  intros _. apply (H 8%nat n []).
Qed.

Lemma strtoul_hex n : 0 <= n < 2 ^ 32 -> strtoul 0 (str "0x" ++ print_hex n) = (n, []).
Proof.
  intros Hn. destruct (print_hex_spec n Hn) as (Hne & Hd & Hv). destruct (print_hex n) as [|c ds]; [done|].
  unfold strtoul, scan_number. change (str "0x") with [48; 120]. cbn [app].
  change (drop_while isspace (48 :: 120 :: c :: ds)) with (48 :: 120 :: c :: ds).
  change (scan_sign (48 :: 120 :: c :: ds)) with (0%nat, false, 48 :: 120 :: c :: ds). cbv beta iota.
  assert (has_0x (48 :: 120 :: c :: ds) = true) as -> by (cbn; apply list.Forall_cons in Hd as [[Hc _] _]; exact Hc).
  cbn [andb orb drop]. change ((0 =? 16) || (0 =? 0)) with true. cbn iota.
  assert (Forall (fun x => is_base_digit 16 x = true) (c :: ds)) as Hall by (eapply Forall_impl; [exact Hd|]; by intros x []).
  rewrite <- (app_nil_r (c :: ds)), JsonUtil.take_while_app, JsonUtil.drop_while_app by done. rewrite Hv.
  rewrite Z.gtb_ltb, (proj2 (Z.ltb_ge ULONG_MAX n)) by (unfold ULONG_MAX; lia). unfold u64. by rewrite wrap_id by lia.
Qed.

(** The text of a number of a table. *)
Definition tbl_text (tbl : trans_tbl) (type : Z) : bytes :=
  match List.find (fun e => fst e =? type) tbl with Some e => str (snd e) | None => str "0x" ++ print_hex (u32 type) end.

(** The entries of a table: numbers of type [int], names that are not empty,
    do not start as a number does, fit into [n] bytes and lead back to the
    number. *)
Definition entry_ok (n : Z) (tbl : trans_tbl) (e : Z * string) : bool :=
  match str (snd e) with
  | c :: _ => negb (c =? 48)
  | [] => false
  end && forallb (fun c => negb (c =? 0)) (str (snd e)) && (zlen (str (snd e)) <? n) && (__str2type (str (snd e)) tbl =? fst e).

Definition tbl_ok (n : Z) (tbl : trans_tbl) : bool := (10 <? n) && forallb (entry_ok n tbl) tbl.

Lemma tbl_find_ext {A} (f g : A -> bool) l : (forall x, f x = g x) -> List.find f l = List.find g l.
Proof. intros H. induction l as [|x l IH]; [done|]. simpl. by rewrite H, IH. Qed.

Lemma str2type_text tbl name t : cstr name = t -> __str2type name tbl = __str2type t tbl.
Proof.
  intros E. assert (cstr t = t) as Et by (rewrite <- E; apply JsonUtil.cstr_nonzero, cstr_text_ok).
  unfold __str2type. rewrite E, Et. rewrite (tbl_find_ext _ (fun e => strcase_eq (str (snd e)) t)); [done|].
  intros e. unfold strcase_eq. by rewrite E, Et.
Qed.

Lemma tbl_find_none {A} (f : A -> bool) l : (forall x, In x l -> f x = false) -> List.find f l = None.
Proof. induction l as [|x l IH]; intros H; [done|]. simpl. rewrite H by (by left). apply IH. intros y Hy. apply H. by right. Qed.

Lemma type2str_text tbl n type buf : tbl_ok n tbl = true -> 0 <= type <= INT_MAX -> n <= zlen buf ->
  cstr (__type2str type buf tbl) = tbl_text tbl type.
Proof.
  unfold tbl_ok, INT_MAX. rewrite andb_true_iff, Z.ltb_lt, forallb_forall. intros [Hn Hall] Ht Hb. unfold __type2str, tbl_text.
  destruct (List.find _ tbl) as [e|] eqn:E.
  - apply find_some in E as [Hin _]. specialize (Hall e Hin). unfold entry_ok in Hall.
    rewrite !andb_true_iff, Z.ltb_lt in Hall. destruct Hall as [[[_ Hz] Hl] _]. apply snprintf_holds; [|lia].
    apply Forall_forall. intros c Hc. apply list_elem_of_In in Hc. apply (proj1 (forallb_forall _ _) Hz) in Hc. lia.
  - unfold u32. rewrite wrap_id by lia. destruct (print_hex_spec type) as (_ & Hd & _); [lia|].
    apply snprintf_holds.
    + apply Forall_app. split; [by repeat constructor|]. eapply Forall_impl; [exact Hd|]. by intros x [].
    + rewrite zlen_app. change (zlen (str "0x")) with 2. pose proof (print_hex_len type). lia.
Qed.

Lemma str2type_tbl tbl n type : tbl_ok n tbl = true -> 0 <= type <= INT_MAX -> __str2type (tbl_text tbl type) tbl = type.
Proof.
  unfold tbl_ok, INT_MAX. rewrite andb_true_iff, Z.ltb_lt, forallb_forall. intros [Hn Hall] Ht. unfold tbl_text.
  destruct (List.find (fun e => fst e =? type) tbl) as [e|] eqn:E.
  - apply find_some in E as [Hin Ee]. specialize (Hall e Hin). unfold entry_ok in Hall. rewrite !andb_true_iff in Hall. lia.
  - unfold u32. rewrite wrap_id by lia. destruct (print_hex_spec type) as (_ & Hd & _); [lia|]. unfold __str2type.
    rewrite JsonUtil.cstr_nonzero.
    2:{ apply Forall_app. split; [by repeat constructor|]. eapply Forall_impl; [exact Hd|]. by intros x []. }
    rewrite tbl_find_none.
    + rewrite strtoul_hex by lia. change (str "0x") with [48; 120]. cbn [app]. rewrite (proj2 (Z.eqb_neq type ULONG_MAX)) by (unfold ULONG_MAX; lia). cbn [orb].
      change (negb (zlen (@nil Z) =? 0)) with false. rewrite s32_id by (unfold INT_MIN, INT_MAX; lia). done.
    + intros x Hx. specialize (Hall x Hx). unfold entry_ok in Hall. rewrite !andb_true_iff in Hall. destruct Hall as [[[Hc Hz] _] _].
      unfold strcase_eq. apply bool_decide_eq_false. destruct (str (snd x)) as [|c l]; [done|]. change (str "0x") with [48; 120].
      simpl in Hz. simpl. destruct (c =? 0); [done|]. simpl. injection 1 as H _. unfold tolower in H.
      change (if (65 <=? 48) && (48 <=? 90) then 48 + 32 else 48) with 48 in H. destruct ((65 <=? c) && (c <=? 90)) eqn:Ec; lia.
Qed.

(** A number that is printed with a table of names and read back with the
    same table is the number again: a number of the table by its name,
    whatever the case, any other number of an [int] that is not negative in
    hexadecimal.  The buffer holds the longest name and ["0x7fffffff"]. *)
Theorem type2str_str2type tbl n type buf : tbl_ok n tbl = true -> 0 <= type <= INT_MAX -> n <= zlen buf ->
  __str2type (__type2str type buf tbl) tbl = type.
Proof. intros Htbl Ht Hb. rewrite (str2type_text tbl _ _ (type2str_text tbl n type buf Htbl Ht Hb)). by apply (str2type_tbl tbl n). Qed.

Lemma afs_ok : tbl_ok 11 afs = true.
Proof. by vm_compute. Qed.

Lemma type2str_str2type_witness : nl_str2af (nl_af2str 10 (replicate 32 0)) = 10 /\ nl_str2af (nl_af2str 300 (replicate 32 0)) = 300.
Proof.
  unfold nl_str2af, nl_af2str. split.
  - rewrite (type2str_str2type afs 11 10 (replicate 32 0)); [reflexivity|exact afs_ok|by vm_compute|by vm_compute].
  - rewrite (type2str_str2type afs 11 300 (replicate 32 0)); [reflexivity|exact afs_ok|by vm_compute|by vm_compute].
Defined.

(** ** A text form of IPv6 addresses without abbreviations *)

Fixpoint groups (d : bytes) : bytes :=
  match d with
  | a :: b :: d' => hex2 a ++ hex2 b ++ match d' with [] => [] | _ => 58 :: groups d' end
  | [a] => hex2 a
  | [] => []
  end.

Fixpoint read_groups (s : bytes) : option bytes :=
  match s with
  | [] => Some []
  | c :: s' =>
      if c =? 58 then read_groups s' else
      match s' with
      | c' :: s'' => if isxdigit c && isxdigit c' then cons (16 * digit_val c + digit_val c') <$> read_groups s'' else None
      | [] => None
      end
  end.

Definition plain_inet6 : Inet6 :=
  {| inet_ntop6 := groups; inet_pton6 s := d ← read_groups s; if (length d =? 16)%nat then Some d else None |}.

Lemma read_groups_hex2 b : byte_ok b -> forall s, read_groups (hex2 b ++ s) = cons b <$> read_groups s.
Proof. revert b. refine (below_cases 256 (fun b => forall s, read_groups (hex2 b ++ s) = cons b <$> read_groups s) _). each_value. Qed.

Lemma read_groups_colon s : read_groups (58 :: s) = read_groups s.
Proof. done. Qed.

Lemma xdigit_val c : isxdigit c = true -> 0 <= digit_val c < 16.
Proof.
  unfold isxdigit, digit_val, tolower. destruct (isdigit c) eqn:E; [intros _; apply JsonUtil.isdigit_range in E; lia|].
  cbn [orb]. intros H. destruct ((65 <=? c) && (c <=? 90)) eqn:E2; lia.
Qed.

Lemma read_groups_bytes n : forall s d, (length s <= n)%nat -> read_groups s = Some d -> Forall byte_ok d.
Proof.
  induction n as [|n IH]; intros [|c s] d Hl; cbn [length read_groups] in *; [by intros [= <-]|lia|by intros [= <-]|].
  destruct (c =? 58); [apply IH; lia|]. destruct s as [|c' s]; [done|]. cbn [length] in Hl.
  destruct (isxdigit c) eqn:Ec, (isxdigit c') eqn:Ec'; try done. cbn [andb]. destruct (read_groups s) as [d'|] eqn:E; [|done].
  cbn. intros [= <-]. apply xdigit_val in Ec, Ec'. apply list.Forall_cons. split; [unfold byte_ok; lia|]. apply (IH s); [lia|done].
Qed.

Lemma plain_pton6_shape s d : @inet_pton6 plain_inet6 s = Some d -> length d = 16%nat /\ Forall byte_ok d.
Proof.
  cbn. destruct (read_groups s) as [d'|] eqn:E; [|done]. cbn. destruct (Nat.eqb_spec (length d') 16); [|done]. intros [= <-].
  split; [done|]. by eapply read_groups_bytes.
Qed.

Lemma plain_laws : Inet6Laws plain_inet6.
Proof.
  assert (forall d, length d = 16%nat -> Forall byte_ok d -> zlen (groups d) <= 45 /\ addr_like (groups d) /\ read_groups (groups d) = Some d) as H.
  { intros d Hl Hd. do 16 (destruct d as [|? d]; [done|]). destruct d; [|done]. repeat (apply list.Forall_cons in Hd as [? Hd]).
    cbn [groups]. rewrite ?app_nil_r. split_and!.
    - by vm_compute.
    - split; [|right].
      + repeat (apply Forall_app; split; [by apply clean_hex2|]; try (apply list.Forall_cons; split; [done|])). by apply clean_hex2.
      + rewrite app_assoc. apply elem_of_app. right. apply list_elem_of_here.
    - repeat (rewrite read_groups_hex2 by done; try (rewrite read_groups_colon)). rewrite <- (app_nil_r (hex2 _)).
      rewrite read_groups_hex2 by done. done. }
  split; intros d Hl Hd; destruct (H d Hl Hd) as (H1 & H2 & H3); [|done|done]. cbn. rewrite H3. cbn. by rewrite Hl.
Qed.

(** ** Examples *)

#[local] Existing Instance sample_alloc.
#[local] Existing Instance plain_inet6.

Definition sample_addr : nl_addr := Addr AF_INET 4 4 24 1 [10; 0; 255; 1].
Definition sample_addr6 : nl_addr := Addr AF_INET6 16 16 64 3 [32; 1; 13; 184; 0; 0; 0; 0; 0; 0; 0; 0; 0; 0; 0; 1].

Example sample_addr_text : nl_addr2str (Some sample_addr) (replicate 64 0) = Some (str "10.0.255.1/24" ++ replicate 51 0).
Proof. by vm_compute. Qed.

Example sample_addr6_text : cstr <$> nl_addr2str (Some sample_addr6) (replicate 64 0) = Some (str "2001:0db8:0000:0000:0000:0000:0000:0001/64").
Proof. by vm_compute. Qed.

Lemma bytes_check l : forallb (fun c => (0 <=? c) && (c <? 256)) l = true -> Forall byte_ok l.
Proof.
  intros H. apply Forall_forall. intros x Hx. apply list_elem_of_In in Hx.
  pose proof (proj1 (forallb_forall _ _) H x Hx) as E. cbv beta in E. unfold byte_ok. lia.
Qed.

Lemma sample_addr6_printable : printable sample_addr6.
Proof.
  split; [|by vm_compute|by vm_compute|right; right; left; by vm_compute].
  by apply bytes_check.
Qed.

Lemma nl_addr_print_parse_witness : printable sample_addr6 /\ exists buf',
  nl_addr2str (Some sample_addr6) (replicate 64 0) = Some buf' /\ zlen buf' = 64 /\
  nl_addr_parse buf' AF_INET6 = inr (Addr AF_INET6 16 16 64 1 (a_addr sample_addr6)).
Proof.
  split; [exact sample_addr6_printable|].
  apply (@nl_addr_print_parse sample_alloc plain_inet6 plain_laws sample_alloc_total sample_addr6 (replicate 64 0)); [exact sample_addr6_printable|].
  by vm_compute.
Defined.

Lemma nl_addr_parse_well_formed_witness :
  match nl_addr_parse (str "00:1b:21:3a:4f:5c") AF_LLC with
  | inl err => err < 0
  | inr a => (AF_LLC <> AF_UNSPEC -> a_family a = AF_LLC) /\ text_len (str "00:1b:21:3a:4f:5c") (a_family a) (a_len a) /\ a_maxsize a = a_len a /\
             zlen (a_addr a) = a_len a /\ Forall byte_ok (a_addr a) /\ a_refcnt a = 1 /\ INT_MIN <= a_prefixlen a <= INT_MAX
  end.
Proof. exact (@nl_addr_parse_well_formed sample_alloc plain_inet6 plain_pton6_shape (str "00:1b:21:3a:4f:5c") AF_LLC). Defined.

(** The words for any address give an address without bytes, also for a family
    with a length. *)
Theorem nl_addr_parse_any_empty : a_len <$> match nl_addr_parse (str "any") AF_INET6 with inr a => Some a | inl _ => None end = Some 0.
Proof. vm_compute. reflexivity. Qed.

Definition sample_prefix : nl_addr := Addr AF_INET 4 4 20 1 [10; 0; 240; 0].

Lemma nl_addr_cmp_prefix_bits_witness : exists d, nl_addr_cmp_prefix sample_addr sample_prefix = Some d /\
  (d = 0 <-> AF_INET = AF_INET /\ forall i, 0 <= i < 20 -> bit (a_addr sample_addr) i = bit (a_addr sample_prefix) i).
Proof.
  apply (nl_addr_cmp_prefix_bits sample_addr sample_prefix); try (by vm_compute); by apply bytes_check.
Defined.

(** ** What the code does not do *)

(** No text is a valid link-layer address: [sscanf] with suppressed
    conversions never counts six of them. *)
Theorem nl_addr_valid_llc addr : nl_addr_valid addr AF_LLC = false.
Proof. unfold nl_addr_valid, sscanf_suppressed. cbn. by destruct (drop_while isspace (cstr addr)). Qed.

Example llc_parsed_not_valid : nl_addr_valid (str "00:1b:21:3a:4f:5c") AF_LLC = false /\
  nl_addr_parse (str "00:1b:21:3a:4f:5c") AF_LLC = inr (Addr AF_LLC 6 6 48 1 [0; 27; 33; 58; 79; 92]).
Proof. by vm_compute. Qed.

(** Text behind a DECnet address is ignored, so a wrong IPv4 address is taken
    for a DECnet one when no family is asked for. *)
Theorem nl_addr_parse_takes_decnet : nl_addr_parse (str "10.0.255.01") AF_UNSPEC = inr (Addr AF_DECnet 2 2 16 1 [0; 40]).
Proof. by vm_compute. Qed.

(** The prefix length is not compared with the length of the address, and
    [nl_addr_cmp_prefix] then reads behind the bytes. *)
Theorem nl_addr_prefix_unchecked : exists a, nl_addr_parse (str "1.2.3.4/64") AF_INET = inr a /\ nl_addr_cmp_prefix a a = None.
Proof. exists (Addr AF_INET 4 4 64 1 [1; 2; 3; 4]). by vm_compute. Qed.

(** Bytes that are not there: a DECnet text that fills its buffer has no NUL,
    and the prefix length is appended with [strlen] of it. *)
Theorem dnet_ntop_unterminated : dnet_ntop [1; 40] 2 (replicate 4 255) = Some (str "10.1") /\
  nl_addr2str (Some (Addr AF_DECnet 2 2 8 1 [1; 40])) (replicate 4 255) = None.
Proof. by vm_compute. Qed.

End NlAddr.
