(* ===== verification/NlRtnl.v ===== *)
(** * What the routing objects of libnl share ([lib/route/rtnl.c], the flag
      tables of [lib/utils.c], the attribute macros of [attr.h] and
      [object-api.h])

    Routing rules, neighbours and interface addresses ([NlRule], [NlNeigh],
    [NlIfaddr]) have a common header and hold references to abstract addresses
    and links.  The heap has the addresses and links that are
    alive; a freed one is gone, so that using it is undefined behaviour,
    [None].  [heap_ok] counts references: those of the user and those that
    objects hold.

    The lemmas say what a sequence of [NLA_PUT]s leaves in a message and what
    the parser then finds in it, and what the operations on addresses do to
    the counts.  The theorems: flags printed with a table are read back. *)

From S2P Require Import Prelude JsonUtil Netlink Syscalls NetRequests NlParse NlAttr NlSocket NlAddr.
From Stdlib Require Import ZArith Lia.
From stdpp Require Import base list numbers option strings gmap.

Open Scope Z_scope.

Module NlRtnl.
Import Netlink NlParse NlAttr.
Import NlAddr (nl_addr, Addr, a_family, a_maxsize, a_len, a_prefixlen, a_refcnt, a_addr, trans_tbl, strcase_eq, holds, int_ok).

Definition NLE_MSGSIZE : Z := 9.
Definition NLE_AF_MISMATCH : Z := 15.
Definition NLE_MISSING_ATTR : Z := 14.

(** ** The heap *)

(** Of a link only the reference counter, the index and the master matter
    here. *)
Record rtnl_link := Link { l_refcnt : Z; l_index : Z; l_master : Z }.

Record heap := Heap { h_addrs : gmap positive nl_addr; h_links : gmap positive rtnl_link }.

Definition H (A : Type) : Type := heap -> option (A * heap).

#[export] Instance H_ret : MRet H := fun A a h => Some (a, h).
#[export] Instance H_bind : MBind H := fun A B f x h => '(a, h') ← x h; f a h'.

Definition undef {A} : H A := fun _ => None.
Definition of_option {A} (o : option A) : H A := fun h => a ← o; Some (a, h).
(** A computation that only reads. *)
Definition reading {A} (f : heap -> option A) : H A := fun h => a ← f h; Some (a, h).

Definition load (p : positive) : H nl_addr := fun h => a ← h_addrs h !! p; Some (a, h).
Definition store (p : positive) (a : nl_addr) : H unit := fun h => Some (tt, Heap (<[p := a]> (h_addrs h)) (h_links h)).
Definition free (p : positive) : H unit := fun h => Some (tt, Heap (delete p (h_addrs h)) (h_links h)).
Definition new (a : nl_addr) : H positive := fun h =>
  let p := fresh (dom (h_addrs h) : gset positive) in Some (p, Heap (<[p := a]> (h_addrs h)) (h_links h)).

(** A new address, or NULL. *)
Definition new_opt (o : option nl_addr) : H (option positive) :=
  match o with Some a => p ← new a; mret (Some p) | None => mret None end.

(** [nl_addr_get], [nl_addr_put] and the setters, on an address of the heap. *)
Definition addr_get (p : positive) : H unit := a ← load p; store p (NlAddr.nl_addr_get a).

Definition addr_put (p : option positive) : H unit :=
  match p with
  | None => mret tt
  | Some p =>
      a ← load p;
      o ← of_option (NlAddr.nl_addr_put (Some a));
      match o with Some a => store p a | None => free p end
  end.

Definition addr_set_family (p : positive) (family : Z) : H unit := a ← load p; store p (NlAddr.nl_addr_set_family a family).
Definition addr_set_prefixlen (p : positive) (prefixlen : Z) : H unit :=
  a ← load p; store p (NlAddr.nl_addr_set_prefixlen a prefixlen).

(** A pointer that is followed. *)
Definition deref (h : heap) (p : option positive) : option nl_addr := p ← p; h_addrs h !! p.

Definition addr_cmp (h : heap) (a b : option positive) : option Z :=
  x ← deref h a; y ← deref h b; NlAddr.nl_addr_cmp x y.

Definition load_link (p : positive) : H rtnl_link := fun h => l ← h_links h !! p; Some (l, h).

(** [nl_object_get], [nl_object_put] on a link. *)
Definition link_get (p : positive) : H unit := fun h =>
  l ← h_links h !! p; Some (tt, Heap (h_addrs h) (<[p := Link (s32 (l_refcnt l + 1)) (l_index l) (l_master l)]> (h_links h))).

Definition link_put (p : option positive) : H unit :=
  match p with
  | None => mret tt
  | Some p => fun h =>
      l ← h_links h !! p;
      let refcnt := s32 (l_refcnt l - 1) in
      if refcnt <? 0 then None
      else if refcnt <=? 0 then Some (tt, Heap (h_addrs h) (delete p (h_links h)))
      else Some (tt, Heap (h_addrs h) (<[p := Link refcnt (l_index l) (l_master l)]> (h_links h)))
  end.

Section Alloc.
Context {al : Allocator}.

Definition addr_clone (p : positive) : H (option positive) :=
  a ← load p; o ← of_option (NlAddr.nl_addr_clone a); new_opt o.

Definition addr_alloc_attr (buf : bytes) (nla family : Z) : H (option positive) :=
  o ← of_option (NlAddr.nl_addr_alloc_attr buf nla family); new_opt o.

(** ** Objects *)

(** The common header, as far as it matters here, and the data of the type. *)
Record object (X : Type) := Object { ce_refcnt : Z; ce_msgtype : Z; ce_mask : Z; ce_data : X }.
Arguments Object {X}.
Arguments ce_refcnt {X}.
Arguments ce_msgtype {X}.
Arguments ce_mask {X}.
Arguments ce_data {X}.

(** [nl_object_alloc] of a type of [size] bytes. *)
Definition obj_alloc {X} (size : Z) (x : X) : option (object X) :=
  if malloc_ok size then Some (Object 1 0 0 x) else None.

(** [nl_object_put] of an object that is in no cache: what is left of it. *)
Definition obj_put {X} (free_data : X -> H unit) (o : object X) : H (option (object X)) :=
  let refcnt := s32 (ce_refcnt o - 1) in
  if refcnt <? 0 then undef
  else if refcnt <=? 0 then free_data (ce_data o) ;; mret None
  else mret (Some (Object refcnt (ce_msgtype o) (ce_mask o) (ce_data o))).

(** [nl_object_clone]: the data is copied byte by byte, pointers included; then
    the type makes copies of what they point to.  When it fails, the new
    object is freed with the data it has. *)
Definition obj_clone {X} (size : Z) (clone : X -> X -> H (X * Z)) (free_data : X -> H unit) (o : object X) : H (option (object X)) :=
  match obj_alloc size (ce_data o) with
  | None => mret None
  | Some new =>
      '(x, err) ← clone (ce_data new) (ce_data o);
      if err <? 0 then free_data x ;; mret None
      else mret (Some (Object (ce_refcnt new) (ce_msgtype o) (ce_mask o) x))
  end.

(** A field is set and its attribute is in the mask. *)
Definition assign {X} (attr : Z) (f : X -> X) (o : object X) : object X :=
  Object (ce_refcnt o) (ce_msgtype o) (Z.lor (ce_mask o) attr) (f (ce_data o)).

(** [if (src->p) if (!(dst->p = nl_addr_clone (src->p))) return -NLE_NOMEM]:
    the new pointer, and whether to go on. *)
Definition clone_ptr (dst src : option positive) : H (option positive * bool) :=
  match src with
  | None => mret (dst, true)
  | Some p => o ← addr_clone p; mret (o, match o with Some _ => true | None => false end)
  end.

(** ** Reading attributes *)

(** [if (tb[t]) { field = nla_get_u32 (tb[t]); ce_mask |= ... }]. *)
Definition opt_u32 {X} (buf : bytes) (tb : table) (t attr : Z) (f : Z -> X -> X) (o : object X) : H (object X) :=
  match attr_of tb t with
  | Some a => v ← of_option (nla_get_u32 buf a); mret (assign attr (f v) o)
  | None => mret o
  end.

(** [if (tb[t]) { nla_strlcpy (field, tb[t], n); ce_mask |= ... }]. *)
Definition opt_string {X} (buf : bytes) (tb : table) (t n attr : Z) (f : bytes -> X -> X) (o : object X) : H (object X) :=
  match attr_of tb t with
  | Some a => s ← of_option (nla_strlcpy buf a n); mret (assign attr (f s.1) o)
  | None => mret o
  end.

(** [if (tb[t]) { if (!(field = nl_addr_alloc_attr (tb[t], family))) goto
    errout_nomem; then; ce_mask |= ... }]: the object, and whether to go on. *)
Definition opt_addr {X} (buf : bytes) (tb : table) (t family attr : Z) (f : option positive -> X -> X) (then_ : positive -> H unit)
    (o : object X) : H (object X * bool) :=
  match attr_of tb t with
  | Some a =>
      p ← addr_alloc_attr buf a family;
      match p with
      | None => mret (Object (ce_refcnt o) (ce_msgtype o) (ce_mask o) (f None (ce_data o)), false)
      | Some p => then_ p ;; mret (assign attr (f (Some p)) o, true)
      end
  | None => mret (o, true)
  end.

(** [ce_mask & attr]. *)
Definition has (mask attr : Z) : bool := negb (Z.land mask attr =? 0).

(** [ATTR_DIFF (attrs, attr, a, b, expr)]: [expr] is evaluated if both objects
    have the attribute. *)
Definition ATTR_DIFF (attrs attr mask_a mask_b : Z) (expr : option bool) : option Z :=
  if negb (has attrs attr) then Some 0 else
  if has (Z.lxor mask_a mask_b) attr then Some attr else
  if has (Z.land mask_a mask_b) attr then e ← expr; Some (if e : bool then attr else 0) else Some 0.

(** [diff |= ATTR_DIFF (...)], one after the other. *)
Fixpoint diffs (l : list (option Z)) : option Z :=
  match l with
  | [] => Some 0
  | d :: l' => x ← d; y ← diffs l'; Some (Z.lor x y)
  end.

(** ** Building a message *)

(** [NLA_PUT]: [None] is the jump to [nla_put_failure], and nothing is done
    behind it. *)
Definition NLA_PUT (attrtype : Z) (data : bytes) (msg : option nl_msg) : option nl_msg :=
  m ← msg; let '(m, r) := nla_put m attrtype data in if r <? 0 then None else Some m.

Definition NLA_PUT_U32 (attrtype value : Z) (msg : option nl_msg) : option nl_msg := NLA_PUT attrtype (le_bytes 4 value) msg.
Definition NLA_PUT_STRING (attrtype : Z) (s : bytes) (msg : option nl_msg) : option nl_msg := NLA_PUT attrtype (cstr s ++ [0]) msg.

(** The outer option is for an address that cannot be read. *)
Definition NLA_PUT_ADDR (h : heap) (attrtype : Z) (addr : option positive) (msg : option nl_msg) : option (option nl_msg) :=
  match msg with
  | None => Some None
  | Some _ =>
      a ← deref h addr;
      d ← rd_bytes 0 (NlAddr.nl_addr_get_len a) (NlAddr.nl_addr_get_binary_addr a);
      Some (NLA_PUT attrtype d msg)
  end.

(** [if (mask & attr) NLA_PUT_...]. *)
Definition put_if (c : bool) (put : option nl_msg -> option nl_msg) (msg : option nl_msg) : option nl_msg :=
  if c then put msg else msg.
Definition put_addr_if (c : bool) (h : heap) (attrtype : Z) (addr : option positive) (msg : option nl_msg) : option (option nl_msg) :=
  if c then NLA_PUT_ADDR h attrtype addr msg else Some msg.

(** [nlmsg_append (msg, &hdr, sizeof (hdr), NLMSG_ALIGNTO)]. *)
Definition append_hdr (hdr : bytes) (msg : nl_msg) : option nl_msg :=
  let '(m, r) := nlmsg_append msg hdr 4 in if r <? 0 then None else Some m.

(** A message, or the error behind [nla_put_failure], where it is freed. *)
Definition built_msg (msg : option nl_msg) : Z + nl_msg := match msg with Some m => inr m | None => inl (- NLE_MSGSIZE) end.

End Alloc.

Arguments Object {X}.
Arguments ce_refcnt {X}.
Arguments ce_msgtype {X}.
Arguments ce_mask {X}.
Arguments ce_data {X}.

(** ** rtnl.c *)

Definition rtntypes : trans_tbl :=
  [(0, "unspec"); (1, "unicast"); (2, "local"); (3, "broadcast"); (4, "anycast"); (5, "multicast"); (6, "blackhole");
   (7, "unreachable"); (8, "prohibit"); (9, "throw"); (10, "nat"); (11, "xresolve")]%string.
Definition nl_rtntype2str (type : Z) (buf : bytes) : bytes := NlAddr.__type2str type buf rtntypes.
Definition nl_str2rtntype (name : bytes) : Z := NlAddr.__str2type name rtntypes.

Definition scopes : trans_tbl := [(255, "nowhere"); (254, "host"); (253, "link"); (200, "site"); (0, "global")]%string.
Definition rtnl_scope2str (scope : Z) (buf : bytes) : bytes := NlAddr.__type2str scope buf scopes.
Definition rtnl_str2scope (name : bytes) : Z := NlAddr.__str2type name scopes.

Definition rtnl_realms2str (realms : Z) (buf : bytes) : bytes :=
  NlAddr.snprintf (JsonUtil.print_nat (Z.shiftr realms 16) ++ [47] ++ JsonUtil.print_nat (Z.land realms 65535)) buf.

(** ** Flags *)

(** The loop of [__flags2str]: [tmp] has the flags that are left. *)
Fixpoint flags_loop (tbl : trans_tbl) (flags tmp : Z) (buf : bytes) : option bytes :=
  match tbl with
  | [] => Some buf
  | (i, a) :: tbl' =>
      if negb (Z.land i tmp =? 0) then
        let tmp := Z.land tmp (Z.lnot i) in
        buf ← NlAddr.strncat (str a) buf;
        buf ← (if negb (Z.land tmp flags =? 0) then NlAddr.strncat (str ",") buf else Some buf);
        flags_loop tbl' flags tmp buf
      else flags_loop tbl' flags tmp buf
  end.

(** [None]: an empty buffer, of which [strlen] is read. *)
Definition __flags2str (flags : Z) (buf : bytes) (tbl : trans_tbl) : option bytes :=
  flags_loop tbl flags flags (replicate (length buf) 0).

(** The text before the first comma, and the text behind it. *)
Fixpoint split_comma (s : bytes) : bytes * option bytes :=
  match s with
  | [] => ([], None)
  | c :: s' => if c =? 44 then ([], Some s') else let '(a, p) := split_comma s' in (c :: a, p)
  end.

(** The flags whose name is [name]. *)
Definition named (name : bytes) (tbl : trans_tbl) (flags : Z) : Z :=
  fold_left (fun flags e => if (zlen name =? zlen (str (snd e))) && bool_decide (map tolower (str (snd e)) = map tolower name)
                            then Z.lor flags (fst e) else flags) tbl flags.

Fixpoint str2flags_loop (fuel : nat) (p : bytes) (tbl : trans_tbl) (flags : Z) : Z :=
  match fuel with
  | O => 0
  | S fuel' =>
      let p := match p with c :: p' => if c =? 32 then p' else p | [] => p end in
      let '(name, t) := split_comma p in
      let flags := named name tbl flags in
      match t with None => flags | Some p => str2flags_loop fuel' p tbl flags end
  end.

(** Every round takes a comma, so the length of the text is enough fuel. *)
Definition __str2flags (buf : bytes) (tbl : trans_tbl) : Z := str2flags_loop (S (length (cstr buf))) (cstr buf) tbl 0.

(** ** What is in a message *)

(** [m] is [m0] with other bytes. *)
Definition rebuilt (m0 m : nl_msg) : Prop := m = with_block (nm_block m) m0 /\ nm_size m = nm_size m0.

Lemma rebuilt_refl m : rebuilt m m.
Proof. split; [by destruct m|done]. Qed.

Lemma rebuilt_trans m0 m1 m2 : rebuilt m0 m1 -> rebuilt m1 m2 -> rebuilt m0 m2.
Proof. intros [E1 S1] [E2 S2]. split; [rewrite E2, E1; by destruct m2|congruence]. Qed.

Lemma nla_put_rebuilt m t d m' r : nla_put m t d = (m', r) -> nm_size m' = nm_size m -> rebuilt m m'.
Proof.
  unfold nla_put. destruct (nla_reserve m t (zlen d)) as [m1 o] eqn:E. intros Hp Hs. split; [|done].
  assert (m1 = with_block (nm_block m1) m) as E1.
  { unfold nla_reserve in E. destruct (u64 _ >? _); injection E as <- <-; [by destruct m|done]. }
  destruct o as [nla|]; [|injection Hp as <- _; exact E1].
  destruct (zlen d >? 0); injection Hp as <- _; rewrite E1; done.
Qed.

(** The state of a message that is being built from [m0]: it has the
    attributes, or there was no room for them. *)
Definition builds (m0 : nl_msg) (rest hdr : bytes) (o : option nl_msg) (attrs : list (Z * bytes)) : Prop :=
  match o with
  | Some m => rebuilt m0 m /\ msg_holds m rest (hdr ++ enc_all attrs)
  | None => nm_size m0 < 16 + zlen hdr + zlen (enc_all attrs)
  end.

(** An attribute that is there on a condition. *)
Definition on (c : bool) (td : Z * bytes) : list (Z * bytes) := if c then [td] else [].

Lemma enc_all_snoc attrs t d : enc_all (attrs ++ [(t, d)]) = enc_all attrs ++ enc_attr t d.
Proof. by rewrite enc_all_app, enc_all_one. Qed.

Lemma NLA_PUT_builds m0 rest hdr o attrs t d : builds m0 rest hdr o attrs -> zlen d <= 65531 ->
  builds m0 rest hdr (NLA_PUT t d o) (attrs ++ [(t, d)]).
Proof.
  intros Hb Hd. pose proof (zlen_nonneg d). unfold builds in *. rewrite enc_all_snoc, zlen_app, enc_attr_length by lia.
  destruct (align_bounds (4 + zlen d)) as [Hal _]; [lia|]. unfold NLA_PUT. destruct o as [m|]; cbn [mbind option_bind]; [|cbn; lia].
  destruct Hb as [Hr Hm]. destruct (Z_le_gt_dec (16 + zlen (hdr ++ enc_all attrs) + NLMSG_ALIGN (4 + zlen d)) (nm_size m)) as [Hle|Hgt].
  - destruct (libnl_put_fits m rest _ t d Hm Hd Hle) as (m' & E & Hs & Hm'). rewrite E. cbn. split.
    + eapply rebuilt_trans; [exact Hr|]. by eapply nla_put_rebuilt.
    + by rewrite app_assoc.
  - rewrite (libnl_put_full m rest _ t d Hm Hd Hgt). change (- NLE_NOMEM <? 0) with true. cbv beta iota. destruct Hr as [_ Hr]. rewrite zlen_app in Hgt. lia.
Qed.

Lemma put_if_builds m0 rest hdr o attrs (c : bool) t d : builds m0 rest hdr o attrs -> zlen d <= 65531 ->
  builds m0 rest hdr (put_if c (NLA_PUT t d) o) (attrs ++ on c (t, d)).
Proof. intros Hb Hd. destruct c; [by apply NLA_PUT_builds|]. by rewrite app_nil_r. Qed.

(** The bytes of an address. *)
Definition addr_bytes (a : nl_addr) : bytes := take (Z.to_nat (a_len a)) (a_addr a).

Definition addr_ok (a : nl_addr) : Prop := 0 <= a_len a <= 65531 /\ a_len a <= zlen (a_addr a) /\ Forall byte_ok (a_addr a).

Lemma addr_bytes_len a : addr_ok a -> zlen (addr_bytes a) = a_len a.
Proof. intros (H1 & H2 & _). unfold addr_bytes, zlen in *. rewrite length_take. lia. Qed.

Lemma rd_addr a : addr_ok a -> rd_bytes 0 (NlAddr.nl_addr_get_len a) (NlAddr.nl_addr_get_binary_addr a) = Some (addr_bytes a).
Proof.
  intros (H1 & H2 & _). unfold rd_bytes, NlAddr.nl_addr_get_len, NlAddr.nl_addr_get_binary_addr.
  rewrite (proj2 (Z.leb_le 0 (a_len a))), (proj2 (Z.leb_le (0 + a_len a) _)) by lia. done.
Qed.

Lemma put_addr_builds m0 rest hdr o attrs h (c : bool) t p : builds m0 rest hdr o attrs ->
  (c = true -> exists a, deref h p = Some a /\ addr_ok a) -> exists o',
  put_addr_if c h t p o = Some o' /\ builds m0 rest hdr o' (attrs ++ on c (t, default [] (addr_bytes <$> deref h p))).
Proof.
  intros Hb Hc. destruct c; cbn [put_addr_if on]; [|exists o; by rewrite app_nil_r].
  destruct (Hc eq_refl) as (a & E & Ha). rewrite E. cbn [fmap option_fmap option_map from_option id].
  destruct o as [m|]; cbn [NLA_PUT_ADDR].
  - rewrite E. cbn [mbind option_bind]. rewrite rd_addr by done. eexists. split; [done|].
    apply NLA_PUT_builds; [done|]. rewrite addr_bytes_len by done. destruct Ha. lia.
  - eexists. split; [done|]. unfold builds in *. rewrite enc_all_snoc, zlen_app. pose proof (zlen_nonneg (enc_attr t (addr_bytes a))). lia.
Qed.

(** A new message with a family header. *)
Definition hdr_rest (type flags : Z) : bytes := le_bytes 2 type ++ le_bytes 2 flags ++ le_bytes 4 0 ++ le_bytes 4 0.

(** Held once, without protocol, destination and credentials. *)
Record blank (m : nl_msg) : Prop := {
  fr_ref : nm_refcnt m = 1;
  fr_proto : nm_protocol m = -1;
  fr_flags : nm_flags m = 0;
  fr_dst : nm_dst m = zero_addr
}.

Lemma blank_rebuilt m m' : rebuilt m m' -> blank m -> blank m'.
Proof. intros [E _] [? ? ? ?]. rewrite E. by split. Qed.

Section NewMessage.
Context {al : Allocator}.

Lemma alloc_simple_holds size type flags m : 16 <= size <= 2147483647 -> nlmsg_alloc_simple size type flags = Some m ->
  msg_holds m (hdr_rest type flags) [] /\ nm_size m = size /\ blank m.
Proof.
  intros Hs. unfold nlmsg_alloc_simple, nlmsg_inherit, nlmsg_alloc, __nlmsg_alloc. rewrite (proj2 (Z.ltb_ge size 16)) by lia.
  destruct (malloc_ok nl_msg_size && malloc_ok size); [|done]. cbn [mbind option_bind]. intros [= <-].
  destruct (fresh_msg_holds size Hs) as [H0 _]. unfold fresh_msg in H0. cbn [nm_block] in H0. change (nlmsg_total_size 0) with 16.
  set (b0 := poke 0 4 16 (Nlmsg (replicate (Z.to_nat size) 0) size)) in *.
  change (replicate 12 0) with ([] ++ replicate 2 0 ++ replicate 10 0) in H0.
  destruct (poke_rest _ _ _ _ _ 2 type 4 H0) as [H1 C1]; [done|done|].
  rewrite app_nil_l in H1. change (replicate 10 0) with (replicate 2 0 ++ replicate 8 0) in H1.
  destruct (poke_rest _ _ _ _ _ 2 flags 6 H1) as [H2 C2]; [done|by rewrite zlen_le|].
  change (replicate 8 0) with (replicate 4 0 ++ replicate 4 0) in H2. rewrite (app_assoc (le_bytes 2 type)) in H2.
  destruct (poke_rest _ _ _ _ _ 4 0 8 H2) as [H3 C3]; [done|by rewrite zlen_app, !zlen_le|].
  rewrite <- (app_nil_r (replicate 4 0)), (app_assoc (_ ++ _) (le_bytes 4 0)) in H3.
  destruct (poke_rest _ _ _ _ _ 4 0 12 H3) as [H4 C4]; [done|by rewrite !zlen_app, !zlen_le|].
  rewrite app_nil_r, <- !app_assoc in H4. split; [|split; [done|by split]]. split; [exact H4|]. change (size <= 2147483647). lia.
Qed.

Lemma alloc_simple_some size type flags : malloc_total al -> 16 <= size < 2 ^ 31 -> exists m, nlmsg_alloc_simple size type flags = Some m.
Proof.
  intros Hmem Hs. unfold nlmsg_alloc_simple, nlmsg_inherit, nlmsg_alloc, __nlmsg_alloc. rewrite (proj2 (Z.ltb_ge size 16)) by lia.
  rewrite (Hmem nl_msg_size) by (by vm_compute). rewrite (Hmem size) by lia. cbn. eauto.
Qed.

Lemma round_up_4 n : 0 <= n <= 2147483647 -> round_up n 4 = NLMSG_ALIGN n.
Proof.
  intros Hn. rewrite align_spec by lia. unfold round_up. cbn [Z.eqb]. change (4 - 1) with 3. change (u64 (Z.lnot 3)) with (Z.lnot 3 mod 2 ^ 64).
  unfold u64, wrap. rewrite <- Z.land_ones by lia. rewrite (Z.land_comm _ (Z.ones 64)), <- (Z.land_ones (Z.lnot 3)) by lia.
  rewrite (Z.land_comm (Z.lnot 3)), Z.land_assoc, (Z.land_comm (Z.land _ _) (Z.ones 64)), Z.land_assoc, Z.land_diag, (Z.land_comm (Z.ones 64)).
  rewrite Z.land_ones by lia. rewrite Z.mod_small by lia. change 3 with (Z.ones 2). rewrite <- Z.ldiff_land, Z.ldiff_ones_r by lia.
  rewrite Z.shiftl_mul_pow2, Z.shiftr_div_pow2 by lia. done.
Qed.

(** Data behind the header, padded to a multiple of 4 bytes. *)
Lemma nlmsg_append_fits m rest data : msg_holds m rest [] -> 16 + NLMSG_ALIGN (zlen data) <= nm_size m -> zlen data <= 2147483647 -> exists m',
  nlmsg_append m data 4 = (m', 0) /\ rebuilt m m' /\ msg_holds m' rest (data ++ pad (zlen data)).
Proof.
  intros [Hh Hsz] Hfit Hmax. pose proof (zlen_nonneg data). pose proof (holds_len _ _ _ Hh) as Hl. change (zlen (@nil Z)) with 0 in Hl.
  destruct (align_bounds (zlen data)) as [Hal Hmod]; [lia|]. unfold nlmsg_append, nlmsg_reserve. rewrite Hl, round_up_4 by lia. unfold nm_size in *.
  unfold pad. set (n := zlen data) in *. set (t := NLMSG_ALIGN n) in *. unfold u64. rewrite wrap_id by lia.
  rewrite !Z.gtb_ltb, (proj2 (Z.ltb_ge (cap _) _)) by lia. cbv beta iota zeta. eexists. split; [done|].
  destruct Hh as [Hr Ha Hc Hblk]. change (zlen (@nil Z)) with 0 in *. rewrite app_nil_l, Z.sub_0_r in Hblk.
  rewrite (zeros_split (cap (nm_block m) - 16) n), (zeros_split (cap (nm_block m) - 16 - n) (t - n)) in Hblk by lia.
  set (L := le_bytes 4 (16 + t)). set (Q := replicate (Z.to_nat (cap (nm_block m) - 16 - n - (t - n))) 0) in *.
  pose proof (poke_len (nm_block m) _ _ (16 + 0 + t) Hblk) as E. rewrite Z.add_0_r in *. fold L in E.
  set (b := if n <? t then _ else _). assert (nlmsghdr b = L ++ rest ++ replicate (Z.to_nat n) 0 ++ replicate (Z.to_nat (t - n)) 0 ++ Q) as Eb.
  { unfold b. destruct (n <? t); [|exact E]. cbn [nlmsghdr]. rewrite E, !(app_assoc L), (app_assoc (L ++ rest)). apply splice_at; [|done].
    rewrite !zlen_app. unfold L at 1. rewrite zlen_le. rewrite zlen_replicate. lia. }
  assert (cap b = cap (nm_block m)) as Ec by (unfold b; by destruct (n <? t)). clearbody b.
  assert (zlen (data ++ replicate (Z.to_nat (t - n)) 0) = t) as Ep by (rewrite zlen_app, zlen_replicate; fold n; lia).
  split; [by split|]. split; [|cbn; lia]. constructor; cbn [nm_block with_block cap nlmsghdr].
  - exact Hr.
  - by rewrite Ep.
  - unfold nm_size. cbn. lia.
  - unfold nm_nlh, nm_size. cbn [nm_block with_block cap nlmsghdr]. rewrite Ec. rewrite Eb, (app_assoc L), splice_at.
    + rewrite Ep, <- !app_assoc. unfold Q, L. by replace (cap (nm_block m) - 16 - n - (t - n)) with (cap (nm_block m) - 16 - t) by lia.
    + rewrite zlen_app. unfold L. rewrite zlen_le. lia.
    + rewrite length_replicate. unfold n, zlen. lia.
Qed.

Lemma append_hdr_fits m rest hdr : msg_holds m rest [] -> zlen hdr mod 4 = 0 -> 16 + zlen hdr <= nm_size m -> exists m',
  append_hdr hdr m = Some m' /\ rebuilt m m' /\ msg_holds m' rest hdr.
Proof.
  intros Hm Hmod Hfit. pose proof (proj2 Hm). pose proof (zlen_nonneg hdr). destruct (nlmsg_append_fits m rest hdr Hm) as (m' & E & Hr & Hm'); [by rewrite align_id by lia|lia|].
  unfold append_hdr. rewrite E. exists m'. split; [done|]. split; [done|]. unfold pad in Hm'. rewrite align_id, Z.sub_diag in Hm' by lia. by rewrite app_nil_r in Hm'.
Qed.

End NewMessage.

(** ** What is found in a message *)

(** At [a] there is an attribute with the payload [d]. *)
Definition found (buf : bytes) (a : Z) (d : bytes) : Prop :=
  payload_at buf a = d /\ 0 <= a /\ 4 <= get_le a 2 buf /\ a + get_le a 2 buf <= zlen buf.

Lemma stored_lookup buf max tb f t : stored buf max tb f -> 0 <= t <= max ->
  match f t with
  | None => attr_of tb t = None
  | Some d => exists a, attr_of tb t = Some a /\ found buf a d
  end.
Proof.
  intros (_ & Hf & Hpos) Ht. specialize (Hf t Ht). destruct (attr_of tb t) as [a|] eqn:E; cbn in Hf; rewrite <- Hf; [|done].
  exists a. split; [done|]. split; [done|by apply (Hpos t)].
Qed.

Lemma last_of_app t acc l1 l2 : last_of t acc (l1 ++ l2) = last_of t (last_of t acc l1) l2.
Proof. apply fold_left_app. Qed.

Lemma last_of_on t acc (c : bool) k d : last_of t acc (on c (k, d)) = if c && (k =? t) then Some d else acc.
Proof. by destruct c. Qed.

Lemma found_length buf a d : found buf a d -> get_le a 2 buf = 4 + zlen d.
Proof.
  intros (Hp & Ha & H4 & Hin). rewrite <- Hp. unfold payload_at, RTA_DATA, zlen in *. rewrite length_take, length_drop. lia.
Qed.

Lemma found_len buf a d : found buf a d -> nla_len buf a = Some (zlen d).
Proof.
  intros Hf. pose proof (found_length _ _ _ Hf) as Hl. destruct Hf as (Hp & Ha & H4 & Hin). unfold nla_len.
  rewrite rd_Some by lia. cbn. rewrite Hl. unfold NLA_HDRLEN. f_equal. lia.
Qed.

(** A field of the payload. *)
Lemma found_rd buf a d off n : found buf a d -> 0 <= off -> off + Z.of_nat n <= zlen d -> rd (nla_data a + off) n buf = Some (get_le off n d).
Proof.
  intros Hf Ho Hn. pose proof (found_length _ _ _ Hf) as Hl. destruct Hf as (Hp & Ha & H4 & Hin). unfold nla_data, NLA_HDRLEN.
  rewrite rd_Some by lia. f_equal. rewrite <- Hp. unfold payload_at, RTA_DATA. rewrite Hl. unfold get_le.
  rewrite skipn_firstn_comm, drop_drop, take_take. f_equal. rewrite Nat.min_l by lia. f_equal. f_equal. lia.
Qed.

Lemma get_le_bytes n v : 0 <= v < 256 ^ Z.of_nat n -> get_le 0 n (le_bytes n v) = v.
Proof. intros Hv. rewrite <- (app_nil_r (le_bytes n v)). by apply (get_le_at 0 n []). Qed.

Lemma found_u32 buf a v : found buf a (le_bytes 4 v) -> 0 <= v < 2 ^ 32 -> nla_get_u32 buf a = Some v.
Proof.
  intros Hf Hv. unfold nla_get_u32. rewrite <- (Z.add_0_r (nla_data a)). rewrite (found_rd _ _ _ 0 4 Hf); [|lia|by rewrite zlen_le].
  f_equal. by apply get_le_bytes.
Qed.

Lemma found_bytes buf a d : found buf a d -> rd_bytes (nla_data a) (zlen d) buf = Some d.
Proof.
  intros Hf. pose proof (found_length _ _ _ Hf) as Hl. destruct Hf as (Hp & Ha & H4 & Hin). pose proof (zlen_nonneg d).
  unfold rd_bytes, nla_data, NLA_HDRLEN. rewrite (proj2 (Z.leb_le _ _)), (proj2 (Z.leb_le 0 (zlen d))), (proj2 (Z.leb_le _ (zlen buf))) by lia.
  cbn [andb]. f_equal. rewrite <- Hp at 2. unfold payload_at, RTA_DATA. f_equal. lia.
Qed.

Lemma found_strlcpy buf a s n : found buf a (s ++ [0]) -> zlen s < n -> zlen s < 65536 ->
  nla_strlcpy buf a n = Some (s ++ replicate (Z.to_nat (n - zlen s)) 0, zlen s).
Proof.
  intros Hf Hn Hs. pose proof (zlen_nonneg s). unfold nla_strlcpy. rewrite (found_len _ _ _ Hf). cbn [mbind option_bind].
  rewrite zlen_app. change (zlen [0]) with 1. unfold u64. rewrite wrap_id by lia. rewrite !Z.gtb_ltb, (proj2 (Z.ltb_lt 0 (zlen s + 1))), (proj2 (Z.ltb_lt 0 n)) by lia.
  replace (nla_data a + (zlen s + 1) - 1) with (nla_data a + zlen s) by lia.
  rewrite (found_rd _ _ _ (zlen s) 1 Hf); [|lia|rewrite zlen_app; change (zlen [0]) with 1; lia]. cbn [mbind option_bind].
  assert (get_le (zlen s) 1 (s ++ [0]) = 0) as ->.
  { unfold get_le, zlen. rewrite Nat2Z.id, drop_app_length. done. }
  change (0 =? 0) with true. cbn [mbind option_bind]. replace (zlen s + 1 - 1) with (zlen s) by lia.
  rewrite Z.geb_leb, (proj2 (Z.leb_gt n (zlen s))) by lia.
  assert (rd_bytes (nla_data a) (zlen s) buf = Some s) as ->; [|done].
  pose proof (found_bytes _ _ _ Hf) as Hb. pose proof (found_length _ _ _ Hf) as Hl. destruct Hf as (Hp & Ha & H4 & Hin).
  rewrite zlen_app in *. change (zlen [0]) with 1 in *. unfold rd_bytes, nla_data, NLA_HDRLEN in *.
  rewrite (proj2 (Z.leb_le 0 (a + 4))), (proj2 (Z.leb_le 0 (zlen s))), (proj2 (Z.leb_le _ (zlen buf))) by lia. cbn [andb]. f_equal.
  rewrite (proj2 (Z.leb_le 0 (a + 4))), (proj2 (Z.leb_le 0 _)), (proj2 (Z.leb_le _ (zlen buf))) in Hb by lia. cbn [andb] in Hb.
  injection Hb as Hb. assert (take (length s) (take (Z.to_nat (zlen s + 1)) (drop (Z.to_nat (a + 4)) buf)) = s) as E.
  { rewrite Hb. apply take_app_length. }
  rewrite take_take in E. rewrite Nat.min_l in E by (unfold zlen; lia). unfold zlen. by rewrite Nat2Z.id.
Qed.

(** ** Running *)

Lemma hbind_run {A B} (x : H A) (f : A -> H B) h a h' : x h = Some (a, h') -> (x ≫= f) h = f a h'.
Proof. intros E. unfold mbind, H_bind. by rewrite E. Qed.

Lemma hseq_run {A} (x y : H unit) (k : H A) h h' : (x ;; y) h = Some (tt, h') -> (x ;; y ;; k) h = k h'.
Proof.
  unfold mbind, H_bind. destruct (x h) as [[[] h1]|]; [|done]. cbn. intros E. by rewrite E.
Qed.

Lemma load_run h p a : h_addrs h !! p = Some a -> load p h = Some (a, h).
Proof. intros E. unfold load. by rewrite E. Qed.

Lemma of_option_run {A} (o : option A) a h : o = Some a -> of_option o h = Some (a, h).
Proof. by intros ->. Qed.

(** ** References *)

(** How often [p] is among the pointers. *)
Definition refs (l : list (option positive)) (p : positive) : Z := zlen (filter (fun o => o = Some p) l).

Lemma refs_nonneg l p : 0 <= refs l p.
Proof. apply zlen_nonneg. Qed.

Lemma refs_cons o l p : refs (o :: l) p = (if decide (o = Some p) then 1 else 0) + refs l p.
Proof. unfold refs. rewrite filter_cons. destruct (decide (o = Some p)); [apply zlen_cons|lia]. Qed.

Lemma refs_nil p : refs [] p = 0.
Proof. done. Qed.

#[export] Instance refs_proper : Proper ((≡ₚ) ==> eq ==> eq) refs.
Proof. intros l1 l2 Hl p ? <-. unfold refs, zlen. by rewrite Hl. Qed.

(** The counters are the references of the user plus those of the pointers
    [l]; an address is alive as long as there is one. *)
Definition heap_ok (user : positive -> Z) (l : list (option positive)) (h : heap) : Prop :=
  (forall p, 0 <= user p) /\
  forall p, match h_addrs h !! p with
            | Some a => a_refcnt a = user p + refs l p /\ 0 < a_refcnt a <= INT_MAX
            | None => user p + refs l p = 0
            end.

Lemma heap_ok_ext user l1 l2 h : (forall p, refs l1 p = refs l2 p) -> heap_ok user l1 h -> heap_ok user l2 h.
Proof. intros E [Hu H]. split; [done|]. intros p. rewrite <- E. apply H. Qed.

#[export] Instance heap_ok_proper user : Proper ((≡ₚ) ==> eq ==> iff) (heap_ok user).
Proof. intros l1 l2 Hl h ? <-. split; apply heap_ok_ext; intros p; by rewrite Hl. Qed.

Lemma heap_ok_null user l h : heap_ok user (None :: l) h <-> heap_ok user l h.
Proof. split; apply heap_ok_ext; intros p; rewrite refs_cons; by destruct (decide (None = Some p)). Qed.

(** Who holds a pointer can follow it. *)
Lemma heap_ok_alive user l h p : heap_ok user l h -> 0 < user p + refs l p -> exists a, h_addrs h !! p = Some a /\
  a_refcnt a = user p + refs l p /\ a_refcnt a <= INT_MAX.
Proof. intros [_ H] Hp. specialize (H p). destruct (h_addrs h !! p) as [a|]; [|lia]. exists a. split; [done|]. lia. Qed.

Lemma refs_in l p : Some p ∈ l -> 0 < refs l p.
Proof.
  intros Hl. induction l as [|o l IH]; [by apply not_elem_of_nil in Hl|]. rewrite refs_cons. pose proof (refs_nonneg l p).
  apply elem_of_cons in Hl as [<-|Hl]; [rewrite decide_True by done; lia|]. specialize (IH Hl). destruct (decide _); lia.
Qed.

(** The addresses without their counters. *)
Definition value (a : nl_addr) : nl_addr := NlAddr.set_addr_refcnt 0 a.

(** What is alive in [h'] was in [h], with the same value. *)
Definition keeps (h h' : heap) : Prop :=
  h_links h' = h_links h /\ forall p a', h_addrs h' !! p = Some a' -> exists a, h_addrs h !! p = Some a /\ value a = value a'.

Lemma keeps_refl h : keeps h h.
Proof. split; [done|]. eauto. Qed.

Lemma keeps_trans h1 h2 h3 : keeps h1 h2 -> keeps h2 h3 -> keeps h1 h3.
Proof.
  intros [L1 H1] [L2 H2]. split; [congruence|]. intros p a3 E3. destruct (H2 p a3 E3) as (a2 & E2 & V2).
  destruct (H1 p a2 E2) as (a1 & E1 & V1). exists a1. split; [done|congruence].
Qed.

Lemma addr_put_ok user l h o : heap_ok user (o :: l) h -> exists h', addr_put o h = Some (tt, h') /\ heap_ok user l h' /\ keeps h h'.
Proof.
  intros Hh. destruct o as [p|]; [|exists h; rewrite heap_ok_null in Hh; split; [done|]; split; [done|apply keeps_refl]].
  pose proof (refs_nonneg l p) as Hn. pose proof Hh as [Hu Hall]. pose proof (Hu p).
  assert (forall q, refs (Some p :: l) q = (if decide (p = q) then 1 else 0) + refs l q) as Er.
  { intros q. rewrite refs_cons. destruct (decide (p = q)) as [->|Hne]; [by rewrite decide_True|rewrite decide_False; [done|congruence]]. }
  destruct (heap_ok_alive _ _ _ p Hh) as (a & Ea & Ha & Hmax); [rewrite Er, decide_True by done; lia|].
  rewrite Er, decide_True in Ha by done. unfold addr_put. rewrite (hbind_run _ _ _ _ _ (load_run _ _ _ Ea)). unfold NlAddr.nl_addr_put.
  assert (forall q, q <> p -> refs (Some p :: l) q = refs l q) as Ene by (intros q Hq; rewrite Er, decide_False by done; lia).
  destruct (Z.eqb_spec (a_refcnt a) 1) as [E1|E1].
  - unfold NlAddr.addr_destroy. rewrite E1. cbn [negb Z.eqb Pos.eqb mbind option_bind]. rewrite (hbind_run _ _ _ None h) by done. eexists. split; [done|]. split.
    + split; [done|]. intros q. cbn. destruct (decide (q = p)) as [->|Hq]; [rewrite lookup_delete_eq; lia|].
      rewrite lookup_delete_ne by done. specialize (Hall q). by rewrite Ene in Hall.
    + split; [done|]. intros q b Hq. cbn in Hq. apply lookup_delete_Some in Hq as [_ Hq]. eauto.
  - rewrite (hbind_run _ _ _ (Some (NlAddr.set_addr_refcnt (s32 (a_refcnt a - 1)) a)) h) by done. eexists. split; [done|]. split.
    + split; [done|]. intros q. cbn. destruct (decide (q = p)) as [->|Hq].
      * rewrite lookup_insert_eq. cbn. rewrite s32_id by (unfold INT_MIN, INT_MAX in *; lia). lia.
      * rewrite lookup_insert_ne by done. specialize (Hall q). by rewrite Ene in Hall.
    + split; [done|]. intros q b Hq. cbn in Hq. apply lookup_insert_Some in Hq as [[<- <-]|[_ Hq]]; [|eauto]. eexists. split; [done|]. done.
Qed.

Lemma addr_get_ok user l h p : heap_ok user l h -> 0 < user p + refs l p < INT_MAX -> exists h',
  addr_get p h = Some (tt, h') /\ heap_ok user (Some p :: l) h' /\ keeps h h' /\ forall q, is_Some (h_addrs h' !! q) <-> is_Some (h_addrs h !! q).
Proof.
  intros Hh Hp. pose proof Hh as [Hu Hall]. destruct (heap_ok_alive _ _ _ p Hh) as (a & Ea & Ha & _); [lia|].
  unfold addr_get. rewrite (hbind_run _ _ _ _ _ (load_run _ _ _ Ea)). eexists. split; [done|]. split_and!.
  - split; [done|]. intros q. cbn. rewrite refs_cons. destruct (decide (q = p)) as [->|Hq].
    + rewrite lookup_insert_eq, decide_True by done. cbn. rewrite s32_id by (unfold INT_MIN, INT_MAX in *; lia). lia.
    + rewrite lookup_insert_ne by done. rewrite decide_False by congruence. apply Hall.
  - split; [done|]. intros q b Hq. cbn in Hq. apply lookup_insert_Some in Hq as [[<- <-]|[_ Hq]]; [|eauto]. eexists. by split.
  - intros q. cbn. destruct (decide (q = p)) as [->|Hq]; [rewrite lookup_insert_eq; split; [eauto|done]|by rewrite lookup_insert_ne].
Qed.

Lemma new_ok user l h a : heap_ok user l h -> a_refcnt a = 1 -> exists p,
  new a h = Some (p, Heap (<[p := a]> (h_addrs h)) (h_links h)) /\ h_addrs h !! p = None /\
  heap_ok user (Some p :: l) (Heap (<[p := a]> (h_addrs h)) (h_links h)).
Proof.
  intros [Hu Hall] Ha. unfold new. set (p := fresh (dom (h_addrs h) : gset positive)). exists p. split; [done|].
  assert (h_addrs h !! p = None) as Ep.
  { apply not_elem_of_dom. apply is_fresh. }
  split; [done|]. split; [done|]. intros q. cbn. rewrite refs_cons. specialize (Hall q). destruct (decide (q = p)) as [->|Hq].
  - rewrite lookup_insert_eq, decide_True by done. rewrite Ep in Hall. unfold INT_MAX. lia.
  - rewrite lookup_insert_ne by done. rewrite decide_False by congruence. apply Hall.
Qed.

(** ** Addresses of attributes *)

(** What [nl_addr_alloc_attr] makes of a payload. *)
Definition attr_addr (family : Z) (d : bytes) : nl_addr := Addr family (zlen d) (zlen d) (8 * zlen d) 1 d.

Section AttrAddr.
Context {al : Allocator}.

Lemma nl_addr_build_attr family d : zlen d <= 65535 -> NlAddr.nl_addr_build family d = Some (attr_addr family d) \/ NlAddr.nl_addr_build family d = None.
Proof.
  intros Hd. pose proof (zlen_nonneg d). unfold NlAddr.nl_addr_build, NlAddr.nl_addr_alloc. destruct (malloc_ok _); [left|by right].
  cbn [mbind option_bind a_maxsize a_refcnt a_addr]. unfold u32. rewrite wrap_id by lia. rewrite s32_id by (unfold INT_MIN, INT_MAX; lia).
  rewrite NlAddr.splice_whole by (rewrite length_replicate; unfold zlen; lia). unfold attr_addr. do 2 f_equal. lia.
Qed.

(** The address is new on the heap, or there is no memory. *)
Lemma addr_alloc_attr_ok user l h buf a d family : heap_ok user l h -> found buf a d ->
  zlen d <= 65535 -> exists o h', addr_alloc_attr buf a family h = Some (o, h') /\ heap_ok user (o :: l) h' /\
  match o with
  | Some p => h_addrs h !! p = None /\ h' = Heap (<[p := attr_addr family d]> (h_addrs h)) (h_links h)
  | None => h' = h /\ ~ malloc_total al
  end.
Proof.
  intros Hh Hf Hd. pose proof (zlen_nonneg d). unfold addr_alloc_attr, NlAddr.nl_addr_alloc_attr. rewrite (found_len _ _ _ Hf). cbn [mbind option_bind].
  destruct (malloc_ok (u64 (20 + zlen d))) eqn:Em.
  - rewrite (found_bytes _ _ _ Hf). cbn [mbind option_bind]. rewrite (hbind_run _ _ _ _ _ (of_option_run _ _ h eq_refl)).
    unfold NlAddr.nl_addr_build, NlAddr.nl_addr_alloc. rewrite Em. cbn [mbind option_bind a_maxsize a_refcnt a_addr].
    destruct (nl_addr_build_attr family d Hd) as [E|E]; unfold NlAddr.nl_addr_build, NlAddr.nl_addr_alloc in E; rewrite Em in E;
      cbn [mbind option_bind a_maxsize a_refcnt a_addr] in E; [|done]. rewrite E. cbn [new_opt].
    destruct (new_ok user l h (attr_addr family d) Hh eq_refl) as (p & En & Hp & Hh'). rewrite (hbind_run _ _ _ _ _ En).
    eexists _, _. split; [done|]. split; [done|]. done.
  - rewrite (hbind_run _ _ _ _ _ (of_option_run _ _ h eq_refl)). exists None, h. split; [done|]. rewrite heap_ok_null.
    split; [done|]. split; [done|]. intros Ht. unfold u64 in Em. rewrite wrap_id in Em by lia. rewrite Ht in Em by lia. done.
Qed.

End AttrAddr.

(** ** Arbitrary messages *)

(** A buffer that starts with a message: its length field is inside, and
    there are two more bytes if it is not a multiple of four. *)
Definition msg_in (buf : bytes) : Prop :=
  Forall byte_ok buf /\ 16 <= zlen buf <= 2147483640 /\ get_le 0 4 buf <= zlen buf /\
  (get_le 0 4 buf mod 4 = 0 \/ NLMSG_ALIGN (get_le 0 4 buf) + 2 <= zlen buf).

(** Attributes inside a buffer, as the policy wants them. *)
Definition typed (buf : bytes) (policy : list nla_policy) (tb : table) : Prop :=
  forall i a, 0 <= i -> attr_of tb i = Some a -> (exists d, found buf a d /\ zlen d <= 65531) /\
    forall pt, policy !! Z.to_nat i = Some pt -> has_type buf a pt.

Lemma nlmsg_parse_any buf hdrlen maxtype policy : msg_in buf -> 0 <= hdrlen < 2 ^ 30 -> hdrlen mod 4 = 0 -> 0 <= maxtype ->
  policy_ok maxtype policy -> exists otb err, nlmsg_parse buf 0 hdrlen maxtype (Some policy) = Some (otb, err) /\
  (err < 0 \/ err = 0 /\ exists tb, otb = Some tb /\ 16 + hdrlen <= zlen buf /\ typed buf policy tb).
Proof.
  intros (Hb & Hz & Hl & Hslack) Hh Hmod Hmax Hpol. unfold nlmsg_parse, nlmsg_valid_hdr. rewrite rd_Some by lia. cbn [mbind option_bind].
  pose proof (get_le_range 0 4 buf Hb) as Hr. change (256 ^ Z.of_nat 4) with (2 ^ 32) in Hr.
  unfold nlmsg_size, NLMSG_HDRLEN. rewrite s32_id by (unfold INT_MIN, INT_MAX; lia). unfold u32. rewrite wrap_id by lia.
  destruct (Z.ltb_spec (get_le 0 4 buf) (16 + hdrlen)) as [|Hge]; cbn [negb]; [eexists _, _; split; [done|by left]|].
  unfold nlmsg_attrlen, nlmsg_datalen. rewrite rd_Some by lia. cbn [mbind option_bind]. unfold NLMSG_HDRLEN.
  rewrite (align_id hdrlen) by lia. rewrite !s32_id by (unfold INT_MIN, INT_MAX; rewrite ?s32_id; unfold INT_MIN, INT_MAX; lia).
  rewrite Z.max_l by lia. set (len := get_le 0 4 buf - 16 - hdrlen). unfold nlmsg_attrdata, nlmsg_data, NLMSG_HDRLEN. rewrite (align_id hdrlen) by lia.
  destruct (nla_parse_types buf (0 + 16 + hdrlen) len maxtype policy Hb) as (tb & err & E & He & Htb); [|done|done|].
  { unfold region_ok, len. split_and!; [lia|lia|lia|lia|]. destruct Hslack as [H0|Hs]; [left; Z.to_euclidean_division_equations; lia|right].
    destruct (align_bounds (get_le 0 4 buf)) as [Hal Hm]; [lia|]. destruct (align_bounds (get_le 0 4 buf - 16 - hdrlen)) as [Hal' Hm']; [lia|].
    assert (NLMSG_ALIGN (get_le 0 4 buf - 16 - hdrlen) = NLMSG_ALIGN (get_le 0 4 buf) - 16 - hdrlen) by (Z.to_euclidean_division_equations; lia). lia. }
  rewrite E. cbn [mbind option_bind]. eexists _, _. split; [done|]. destruct He as [He|[He|He] ]; subst err; [right|by left|by left].
  split; [done|]. exists tb. split; [done|]. split; [lia|]. intros i a Hi Ha. destruct Htb as [_ Htb]. destruct (Htb i a Hi Ha) as ((H1 & H2 & H3) & _ & Hpt).
  split; [|done]. exists (payload_at buf a). unfold len in H3. split; [split_and!; [done|lia|done|lia]|].
  pose proof (get_le_range a 2 buf Hb) as Hr2. change (256 ^ Z.of_nat 2) with 65536 in Hr2. unfold payload_at, zlen. rewrite length_take. lia.
Qed.

(** A string attribute is copied. *)
Lemma typed_strlcpy buf a d n : Forall byte_ok buf -> found buf a d -> zlen d <= 65531 -> 0 < n -> exists s k,
  nla_strlcpy buf a n = Some (s, k) /\ zlen s = n /\ strlen s < n /\ Forall byte_ok s.
Proof.
  intros Hb Hf Hd Hn. pose proof (zlen_nonneg d). unfold nla_strlcpy. rewrite (found_len _ _ _ Hf). cbn [mbind option_bind]. unfold u64. rewrite wrap_id by lia.
  pose proof (found_length _ _ _ Hf) as Hl. pose proof Hf as (Hp & Ha & H4 & Hin). rewrite !Z.gtb_ltb, (proj2 (Z.ltb_lt 0 n)) by lia.
  assert (exists k, (if 0 <? zlen d then c ← rd (nla_data a + zlen d - 1) 1 buf; Some (if c =? 0 then zlen d - 1 else zlen d) else Some (zlen d)) = Some k
    /\ 0 <= k <= zlen d) as (k & -> & Hk).
  { destruct (Z.ltb_spec 0 (zlen d)); [|exists (zlen d); split; [done|lia]]. replace (nla_data a + zlen d - 1) with (nla_data a + (zlen d - 1)) by lia.
    rewrite (found_rd _ _ _ (zlen d - 1) 1 Hf) by lia. cbn [mbind option_bind]. eexists. split; [done|]. destruct (_ =? 0); lia. }
  cbn [mbind option_bind]. set (len := if k >=? n then n - 1 else k). assert (0 <= len <= k /\ len < n) as Hlen.
  { unfold len. destruct (Z.geb_spec k n); lia. }
  unfold rd_bytes, nla_data, NLA_HDRLEN. rewrite (proj2 (Z.leb_le 0 (a + 4))), (proj2 (Z.leb_le 0 len)), (proj2 (Z.leb_le _ (zlen buf))) by lia.
  cbn [andb mbind option_bind]. eexists _, _. split; [done|].
  set (c := take (Z.to_nat len) (drop (Z.to_nat (a + 4)) buf)). assert (zlen c = len) as Hc by (unfold c, zlen in *; rewrite length_take, length_drop; lia).
  split; [rewrite zlen_app, zlen_replicate; lia|]. split.
  - eapply Z.le_lt_trans; [apply (cstr_lookup_zero _ (length c))|unfold zlen in Hc; lia]. rewrite lookup_app_r, Nat.sub_diag by lia.
    apply lookup_replicate. split; [done|lia].
  - apply Forall_app. split; [by apply Forall_take, Forall_drop|]. apply Forall_replicate. by vm_compute.
Qed.

(** ** What the readers of attributes do *)

(** An attribute that is taken over on a condition. *)
Definition step {X} (c : bool) (attr : Z) (f : X -> X) (o : object X) : object X := if c then assign attr f o else o.

Lemma has_lor x y b : has (Z.lor x y) b = has x b || has y b.
Proof.
  unfold has. rewrite Z.land_lor_distr_l. destruct (Z.eqb_spec (Z.land x b) 0) as [->|Hx]; [by rewrite Z.lor_0_l|].
  cbn [negb orb]. apply negb_true_iff, Z.eqb_neq. intros E. by apply Z.lor_eq_0_iff in E as [? _].
Qed.

Lemma step_mask {X} c attr (f : X -> X) o b : has (ce_mask (step c attr f o)) b = has (ce_mask o) b || (c && has attr b).
Proof. destruct c; cbn [step assign ce_mask andb]; [apply has_lor|by rewrite orb_false_r]. Qed.

Lemma step_same {X A} (g : X -> A) c attr (f : X -> X) o : (forall x, g (f x) = g x) -> g (ce_data (step c attr f o)) = g (ce_data o).
Proof. intros E. destruct c; [apply E|done]. Qed.

Lemma step_set {X A} (g : X -> A) c attr (f : X -> X) v o : (forall x, g (f x) = v) -> g (ce_data (step c attr f o)) = if c then v else g (ce_data o).
Proof. intros E. destruct c; [apply E|done]. Qed.

Lemma step_refcnt {X} c attr (f : X -> X) o : ce_refcnt (step c attr f o) = ce_refcnt o.
Proof. by destruct c. Qed.

Lemma step_msgtype {X} c attr (f : X -> X) o : ce_msgtype (step c attr f o) = ce_msgtype o.
Proof. by destruct c. Qed.

(** The value of an attribute, if it is there. *)
Definition att {A} (mask attr : Z) (x : A) : option A := if has mask attr then Some x else None.

Section Readers.
Context {al : Allocator} {X : Type}.
Context (buf : bytes) (max : Z) (tb : table) (found_attrs : Z -> option bytes).
Hypothesis Hst : stored buf max tb found_attrs.
Implicit Types (o : object X).

Lemma opt_u32_run t attr f (c : bool) v o h : 0 <= t <= max -> found_attrs t = (if c then Some (le_bytes 4 v) else None) -> 0 <= v < 2 ^ 32 ->
  opt_u32 buf tb t attr f o h = Some (step c attr (f v) o, h).
Proof.
  intros Ht Hf Hv. pose proof (stored_lookup _ _ _ _ t Hst Ht) as Hl. rewrite Hf in Hl. unfold opt_u32. destruct c.
  - destruct Hl as (a & -> & Ha). by rewrite (hbind_run _ _ _ _ _ (of_option_run _ _ h (found_u32 _ _ _ Ha Hv))).
  - by rewrite Hl.
Qed.

Lemma opt_string_run t n attr f (c : bool) s o h : 0 <= t <= max -> found_attrs t = (if c then Some (s ++ [0]) else None) -> zlen s < n <= 65536 ->
  opt_string buf tb t n attr f o h = Some (step c attr (f (s ++ replicate (Z.to_nat (n - zlen s)) 0)) o, h).
Proof.
  intros Ht Hf Hs. pose proof (stored_lookup _ _ _ _ t Hst Ht) as Hl. rewrite Hf in Hl. unfold opt_string. destruct c.
  - destruct Hl as (a & -> & Ha). assert (zlen s < n) as H1 by lia. assert (zlen s < 65536) as H2 by lia.
    by rewrite (hbind_run _ _ _ _ _ (of_option_run _ _ h (found_strlcpy _ _ _ n Ha H1 H2))).
  - by rewrite Hl.
Qed.

(** The address is new; [upd] is what [then_] does to it. *)
Lemma opt_addr_run user l t family attr f then_ upd (c : bool) d o h : malloc_total al -> heap_ok user l h -> 0 <= t <= max ->
  found_attrs t = (if c then Some d else None) -> zlen d <= 65535 ->
  (forall p h a, h_addrs h !! p = Some a -> then_ p h = Some (tt, Heap (<[p := upd a]> (h_addrs h)) (h_links h))) ->
  (forall a, a_refcnt (upd a) = a_refcnt a) -> exists p h',
  opt_addr buf tb t family attr f then_ o h = Some (step c attr (f (Some p)) o, true, h') /\
  heap_ok user ((if c then Some p else None) :: l) h' /\ h_links h' = h_links h /\
  h_addrs h' = (if c then <[p := upd (attr_addr family d)]> (h_addrs h) else h_addrs h) /\ (c = true -> h_addrs h !! p = None).
Proof.
  intros Hmem Hh Ht Hf Hd Hthen Hupd. pose proof (stored_lookup _ _ _ _ t Hst Ht) as Hl. rewrite Hf in Hl. unfold opt_addr. destruct c.
  - destruct Hl as (a & -> & Ha). destruct (addr_alloc_attr_ok user l h buf a d family Hh Ha Hd) as (o' & h1 & E & Hh1 & Ho').
    rewrite (hbind_run _ _ _ _ _ E). destruct o' as [p|]; [|by destruct Ho' as [_ ?]]. destruct Ho' as [Hp ->].
    exists p, (Heap (<[p := upd (attr_addr family d)]> (h_addrs h)) (h_links h)). split_and!; [| |done|done|done].
    + assert (then_ p (Heap (<[p := attr_addr family d]> (h_addrs h)) (h_links h)) =
        Some (tt, Heap (<[p := upd (attr_addr family d)]> (h_addrs h)) (h_links h))) as E'.
      { rewrite (Hthen _ _ (attr_addr family d)) by (cbn; apply lookup_insert_eq). cbn. by rewrite insert_insert_eq. }
      by rewrite (hbind_run _ _ _ _ _ E').
    + destruct Hh1 as [Hu Hall]. split; [done|]. intros q. specialize (Hall q). cbn [h_addrs] in *. destruct (decide (q = p)) as [->|Hq].
      * rewrite lookup_insert_eq in *. by rewrite Hupd.
      * by rewrite lookup_insert_ne in *.
  - rewrite Hl. exists 1%positive, h. split_and!; [done|by rewrite heap_ok_null|done|done|done].
Qed.

End Readers.

Lemma addr_set_prefixlen_run n p h a : h_addrs h !! p = Some a ->
  addr_set_prefixlen p n h = Some (tt, Heap (<[p := NlAddr.nl_addr_set_prefixlen a n]> (h_addrs h)) (h_links h)).
Proof. intros E. unfold addr_set_prefixlen. by rewrite (hbind_run _ _ _ _ _ (load_run _ _ _ E)). Qed.

(** The size of attributes. *)
Lemma zlen_enc_on c t d : zlen d <= 65531 -> zlen (enc_all (on c (t, d))) <= zlen d + 7.
Proof.
  intros Hd. pose proof (zlen_nonneg d). destruct c; [|change (zlen (enc_all (on false (t, d)))) with 0; lia].
  cbn [on]. rewrite enc_all_one, enc_attr_length by lia. destruct (align_bounds (4 + zlen d)); lia.
Qed.

Lemma zlen_enc_app l1 l2 : zlen (enc_all (l1 ++ l2)) = zlen (enc_all l1) + zlen (enc_all l2).
Proof. by rewrite enc_all_app, zlen_app. Qed.

(** ** Fields of the headers *)

Lemma hdr_field m rest hdr x k n : msg_holds m rest (hdr ++ x) -> 0 <= k -> k + Z.of_nat n <= zlen hdr ->
  rd (nlmsg_data 0 + k) n (nm_nlh m) = Some (get_le k n hdr).
Proof.
  intros [[Hr Ha Hc Hblk] _] Hk Hn. unfold nlmsg_data, NLMSG_HDRLEN, nm_nlh. rewrite Hblk. set (L := le_bytes 4 _).
  set (Q := x ++ replicate (Z.to_nat (cap (nm_block m) - 16 - zlen (hdr ++ x))) 0).
  assert (L ++ rest ++ (hdr ++ x) ++ replicate (Z.to_nat (cap (nm_block m) - 16 - zlen (hdr ++ x))) 0 = (L ++ rest) ++ hdr ++ Q) as ->
    by (unfold Q; by rewrite <- !app_assoc).
  assert (zlen (L ++ rest) = 16) as H16 by (unfold L; rewrite zlen_app, zlen_le; lia). pose proof (zlen_nonneg Q).
  rewrite rd_Some; [|lia|rewrite (zlen_app (L ++ rest)), H16, zlen_app; lia]. f_equal. unfold get_le. rewrite Z.add_0_l.
  assert (drop (Z.to_nat (16 + k)) ((L ++ rest) ++ hdr ++ Q) = drop (Z.to_nat k) hdr ++ Q) as ->.
  { rewrite drop_app_ge by (unfold zlen in *; lia). rewrite drop_app_le by (unfold zlen in *; lia). f_equal. f_equal. unfold zlen in *. lia. }
  f_equal. rewrite take_app_le by (rewrite length_drop; unfold zlen in *; lia). done.
Qed.

Lemma type_field m type flags body : msg_holds m (hdr_rest type flags) body -> 0 <= type < 65536 -> rd 4 2 (nm_nlh m) = Some type.
Proof.
  intros [[Hr Ha Hc Hblk] _] Ht. pose proof (zlen_nonneg body). unfold nm_nlh. rewrite Hblk. unfold hdr_rest. rewrite <- !app_assoc.
  rewrite rd_Some.
  - f_equal. apply get_le_at; [by rewrite zlen_le|]. exact Ht.
  - lia.
  - rewrite !zlen_app, !zlen_le. pose proof (zlen_nonneg (body ++ replicate (Z.to_nat (cap (nm_block m) - 16 - zlen body)) 0)) as Hn. rewrite zlen_app in Hn. lia.
Qed.

Lemma le_bytes_1 v : 0 <= v < 256 -> le_bytes 1 v = [v].
Proof. intros Hv. cbn. by rewrite Z.mod_small. Qed.

Lemma get_byte (l : bytes) k (n : nat) x : k = Z.of_nat n -> l !! n = Some x -> get_le k 1 l = x.
Proof. intros -> E. unfold get_le. rewrite Nat2Z.id, (drop_S _ x) by done. change (x + 256 * 0 = x). lia. Qed.

Lemma get_le_mid k n (a : bytes) v b : zlen a = k -> get_le k n (a ++ le_bytes n v ++ b) = v mod 256 ^ Z.of_nat n.
Proof.
  intros Hk. unfold get_le. rewrite <- le_value_bytes. f_equal. rewrite drop_app_length' by (unfold zlen in Hk; lia).
  apply take_app_length'. by rewrite le_bytes_length.
Qed.

(** ** Attributes that pass a policy *)

Lemma passes_on max policy (c : bool) t d : (c = true -> passes max policy (t, d)) -> Forall (passes max policy) (on c (t, d)).
Proof. destruct c; [|constructor]. intros H. apply Forall_singleton. by apply H. Qed.

Lemma passes_u32 max p t v : p !! Z.to_nat t = Some (Policy NLA_U32 0 0) -> passes max (Some p) (t, le_bytes 4 v).
Proof. intros E _. exists (Policy NLA_U32 0 0). split; [done|]. split; [by vm_compute|]. cbn [snd]. split; [by rewrite zlen_le|]. by split. Qed.

Lemma passes_any max p t d : p !! Z.to_nat t = Some (Policy 0 0 0) -> passes max (Some p) (t, d).
Proof.
  intros E _. exists (Policy 0 0 0). split; [done|]. split; [by vm_compute|]. split; [change (0 <= zlen d); apply zlen_nonneg|]. by split.
Qed.

Lemma passes_string max p t s n : p !! Z.to_nat t = Some (Policy NLA_STRING 0 n) -> zlen s < n -> passes max (Some p) (t, s ++ [0]).
Proof.
  intros E Hn _. exists (Policy NLA_STRING 0 n). split; [done|]. pose proof (zlen_nonneg s).
  split; [by vm_compute|]. cbn [snd maxlen]. rewrite zlen_app. change (zlen [0]) with 1. split; [change (1 <= zlen s + 1); lia|]. split; [lia|eauto].
Qed.

Lemma cstr_padded s k : cstr (cstr s ++ replicate k 0) = cstr s.
Proof.
  rewrite JsonUtil.cstr_app_nonzero by apply NlAddr.cstr_text_ok. destruct k; cbn; apply app_nil_r.
Qed.

(** ** Pointers of objects *)

(** A pointer is there with its attribute. *)
Definition ptr_ok (h : heap) (mask attr : Z) (p : option positive) : Prop :=
  if has mask attr then exists a, deref h p = Some a /\ addr_ok a else p = None.

(** What an address says. *)
Record addr_value := AddrValue { av_family : Z; av_prefixlen : Z; av_bytes : bytes }.

Definition addr_view (a : nl_addr) : addr_value := AddrValue (a_family a) (a_prefixlen a) (addr_bytes a).

Lemma value_view a b : value a = value b -> addr_view a = addr_view b /\ (addr_ok a -> addr_ok b).
Proof. destruct a, b. unfold value, NlAddr.set_addr_refcnt. cbn. intros [= <- <- <- <- <-]. by split. Qed.

(** The values of the addresses on the heap. *)
Definition values_ok (addrs : positive -> addr_value) (h : heap) : Prop :=
  forall p a, h_addrs h !! p = Some a -> addrs p = addr_view a /\ addr_ok a /\ 0 <= a_family a < 256.

Lemma values_keep addrs h h' : values_ok addrs h -> keeps h h' -> values_ok addrs h'.
Proof.
  intros Hv [_ Hk] p a' E. destruct (Hk p a' E) as (a & Ea & V). destruct (Hv p a Ea) as (E1 & E2 & E3).
  destruct (value_view a a' V) as [V1 V2]. split; [congruence|]. split; [auto|]. by injection V1 as <- _ _.
Qed.

(** A pointer that is held is still good after counters changed. *)
Lemma ptr_keep user l h h' mask attr p : ptr_ok h mask attr p -> keeps h h' -> heap_ok user (p :: l) h' ->
  ptr_ok h' mask attr p /\ addr_view <$> deref h' p = addr_view <$> deref h p.
Proof.
  intros Hp [_ Hk] Hh. unfold ptr_ok in *. destruct (has mask attr); [|subst p; done]. destruct Hp as (a & E & Ha).
  destruct p as [p|]; [|done]. cbn [deref mbind option_bind] in E. destruct Hh as [Hu Hall]. specialize (Hall p). cbn [deref mbind option_bind].
  destruct (h_addrs h' !! p) as [a'|] eqn:E'.
  - destruct (Hk p a' E') as (b & Eb & V). assert (b = a) as -> by (unfold deref in E; cbn in E; congruence). destruct (value_view a a' V) as [V1 V2].
    rewrite Eb. split; [exists a'; auto|]. cbn. by rewrite V1.
  - rewrite refs_cons, decide_True in Hall by done. pose proof (refs_nonneg l p). specialize (Hu p). lia.
Qed.

(** Replacing a pointer: the old reference is put, the new one is got. *)
Lemma replace_ptr user l h old p : heap_ok user (old :: l) h -> 1 <= user p -> user p + refs l p < INT_MAX -> exists h',
  (addr_put old ;; addr_get p) h = Some (tt, h') /\ heap_ok user (Some p :: l) h' /\ keeps h h'.
Proof.
  intros Hh Hu Hm. destruct (addr_put_ok user l h old Hh) as (h1 & E1 & Hh1 & K1). pose proof (refs_nonneg l p).
  destruct (addr_get_ok user l h1 p Hh1) as (h2 & E2 & Hh2 & K2 & _); [lia|]. exists h2.
  rewrite (hbind_run _ _ _ _ _ E1). split; [done|]. split; [done|]. by eapply keeps_trans.
Qed.

(** ** The readers on arbitrary messages *)

Section SafeReaders.
Context {al : Allocator} {X : Type}.
Context (buf : bytes) (policy : list nla_policy) (tb : table).
Hypothesis Hbuf : Forall byte_ok buf.
Hypothesis Htb : typed buf policy tb.
Implicit Types (o : object X).

Lemma opt_u32_safe t attr f o h : 0 <= t -> policy !! Z.to_nat t = Some (Policy NLA_U32 0 0) -> exists c v,
  opt_u32 buf tb t attr f o h = Some (step c attr (f v) o, h) /\ 0 <= v < 2 ^ 32.
Proof.
  intros Ht Hp. unfold opt_u32. destruct (attr_of tb t) as [a|] eqn:E; [|by exists false, 0].
  destruct (Htb t a Ht E) as [_ Hty]. destruct (Hty _ Hp) as (n & _ & _ & _ & _ & _ & H32 & _).
  destruct (H32 eq_refl) as (_ & v & Ev & Hv). exists true, v. split; [|done]. by rewrite (hbind_run _ _ _ _ _ (of_option_run _ _ h Ev)).
Qed.

Lemma opt_string_safe t n attr f o h : 0 <= t -> 0 < n -> exists c s,
  opt_string buf tb t n attr f o h = Some (step c attr (f s) o, h) /\ (c = true -> zlen s = n /\ strlen s < n /\ Forall byte_ok s).
Proof.
  intros Ht Hn. unfold opt_string. destruct (attr_of tb t) as [a|] eqn:E; [|by exists false, []].
  destruct (Htb t a Ht E) as [(d & Hf & Hd) _]. destruct (typed_strlcpy buf a d n Hbuf Hf Hd Hn) as (s & k & Es & Hs).
  exists true, s. split; [|done]. by rewrite (hbind_run _ _ _ _ _ (of_option_run _ _ h Es)).
Qed.

(** The attribute is not there, or there is no memory, or the address is new. *)
Lemma opt_addr_safe user l t family attr f then_ upd o h : heap_ok user l h -> 0 <= t ->
  (forall p h a, h_addrs h !! p = Some a -> then_ p h = Some (tt, Heap (<[p := upd a]> (h_addrs h)) (h_links h))) ->
  (forall a, a_refcnt (upd a) = a_refcnt a) -> (forall a, addr_ok a -> addr_ok (upd a)) ->
  opt_addr buf tb t family attr f then_ o h = Some (o, true, h) \/
  opt_addr buf tb t family attr f then_ o h = Some (Object (ce_refcnt o) (ce_msgtype o) (ce_mask o) (f None (ce_data o)), false, h) \/
  exists p h' a, opt_addr buf tb t family attr f then_ o h = Some (assign attr (f (Some p)) o, true, h') /\
    heap_ok user (Some p :: l) h' /\ h_addrs h !! p = None /\ h_addrs h' = <[p := a]> (h_addrs h) /\ h_links h' = h_links h /\ addr_ok a.
Proof.
  intros Hh Ht Hthen Hupd Hok. unfold opt_addr. destruct (attr_of tb t) as [a|] eqn:E; [right|by left].
  destruct (Htb t a Ht E) as [(d & Hf & Hd) _].
  destruct (addr_alloc_attr_ok user l h buf a d family Hh Hf ltac:(lia)) as (o' & h1 & E1 & Hh1 & Ho'). rewrite (hbind_run _ _ _ _ _ E1).
  destruct o' as [p|]; [right|left; by destruct Ho' as [-> _]]. destruct Ho' as [Hp ->].
  exists p, (Heap (<[p := upd (attr_addr family d)]> (h_addrs h)) (h_links h)), (upd (attr_addr family d)). split_and!; [| |done|done|done|].
  - assert (then_ p (Heap (<[p := attr_addr family d]> (h_addrs h)) (h_links h)) =
      Some (tt, Heap (<[p := upd (attr_addr family d)]> (h_addrs h)) (h_links h))) as E'.
    { rewrite (Hthen _ _ (attr_addr family d)) by (cbn; apply lookup_insert_eq). cbn. by rewrite insert_insert_eq. }
    by rewrite (hbind_run _ _ _ _ _ E').
  - destruct Hh1 as [Hu Hall]. split; [done|]. intros q. specialize (Hall q). cbn [h_addrs] in *. destruct (decide (q = p)) as [->|Hq].
    + rewrite lookup_insert_eq in *. by rewrite Hupd.
    + by rewrite lookup_insert_ne in *.
  - apply Hok. unfold addr_ok, attr_addr. cbn. pose proof (zlen_nonneg d). split; [lia|]. split; [lia|]. destruct Hf as (<- & _). unfold payload_at. by apply Forall_take, Forall_drop.
Qed.

End SafeReaders.

(** A pointer is still good when an address is added. *)
Lemma ptr_more h h' mask attr p q a : ptr_ok h mask attr p -> h_addrs h !! q = None -> h_addrs h' = <[q := a]> (h_addrs h) -> ptr_ok h' mask attr p.
Proof.
  intros Hp Hq E. unfold ptr_ok in *. destruct (has mask attr); [|done]. destruct Hp as (b & Eb & Hb). exists b. split; [|done].
  destruct p as [p|]; [|done]. unfold deref in *. cbn in *. rewrite E, lookup_insert_ne; [done|congruence].
Qed.

(** ** Comparing objects *)

(** A mask of one bit. *)
Definition one_bit (attr : Z) : Prop := exists k, 0 <= k /\ attr = 2 ^ k.

Ltac bit k := exists k; split; [lia|reflexivity].
Ltac a_bit := first [bit 0|bit 1|bit 2|bit 3|bit 4|bit 5|bit 6|bit 7|bit 8|bit 9|bit 10|bit 11|bit 12|bit 13].

Lemma has_bit mask k : 0 <= k -> has mask (2 ^ k) = Z.testbit mask k.
Proof.
  intros Hk. unfold has. assert (Z.land mask (2 ^ k) = if Z.testbit mask k then 2 ^ k else 0) as ->.
  { apply Z.bits_inj'. intros n Hn. rewrite Z.land_spec. destruct (Z.eq_dec n k) as [->|Hne].
    - rewrite Z.pow2_bits_true by done. rewrite andb_true_r. destruct (Z.testbit mask k) eqn:E; [by rewrite Z.pow2_bits_true|by rewrite Z.bits_0].
    - rewrite Z.pow2_bits_false by lia. rewrite andb_false_r. destruct (Z.testbit mask k); [by rewrite Z.pow2_bits_false by lia|by rewrite Z.bits_0]. }
  destruct (Z.testbit mask k); [|done]. apply negb_true_iff, Z.eqb_neq. pose proof (Z.pow_pos_nonneg 2 k). lia.
Qed.

(** The mask of what differs: [same] says of each attribute whether the objects
    agree on it. *)
Definition difference (attrs : Z) (l : list (Z * bool)) : Z :=
  foldr (fun e d => Z.lor (if has attrs (fst e) && negb (snd e) then fst e else 0) d) 0 l.

Definition told (attrs : Z) (d : option Z) (e : Z * bool) : Prop := d = Some (if has attrs (fst e) && negb (snd e) then fst e else 0).

Lemma diffs_difference attrs ds l : Forall2 (told attrs) ds l -> diffs ds = Some (difference attrs l).
Proof. induction 1 as [|d e ds l E _ IH]; [done|]. cbn [diffs]. by rewrite E, IH. Qed.

(** An attribute that both objects have is compared; one that only one of them
    has differs. *)
Lemma ATTR_DIFF_told attrs attr ma mb expr same : one_bit attr ->
  (has ma attr = true -> has mb attr = true -> expr = Some (negb same)) ->
  (has ma attr <> has mb attr -> same = false) -> (has ma attr = false -> has mb attr = false -> same = true) ->
  told attrs (ATTR_DIFF attrs attr ma mb expr) (attr, same).
Proof.
  intros (k & Hk & ->) Hboth Hone Hnone. unfold told, ATTR_DIFF. cbn [fst snd]. rewrite !(has_bit (Z.lxor _ _)), !(has_bit (Z.land _ _)) by done.
  rewrite Z.lxor_spec, Z.land_spec, <- !has_bit by done. destruct (has attrs (2 ^ k)); [|done].
  destruct (has ma (2 ^ k)) eqn:Ea, (has mb (2 ^ k)) eqn:Eb; cbn [xorb andb negb].
  - rewrite Hboth by done. done.
  - by rewrite Hone by done.
  - by rewrite Hone by done.
  - by rewrite Hnone by done.
Qed.

Lemma differ_told {A} `{EqDecision A} attrs attr ma mb (x y : A) expr : one_bit attr -> expr = Some (negb (bool_decide (x = y))) ->
  told attrs (ATTR_DIFF attrs attr ma mb expr) (attr, bool_decide (att ma attr x = att mb attr y)).
Proof.
  intros Hk ->. apply ATTR_DIFF_told; [done|..]; unfold att; intros; repeat case_match; try done.
  f_equal. f_equal. apply bool_decide_ext. split; congruence.
Qed.

Lemma field_told attrs attr ma mb (x y : Z) : one_bit attr ->
  told attrs (ATTR_DIFF attrs attr ma mb (Some (negb (x =? y)))) (attr, bool_decide (att ma attr x = att mb attr y)).
Proof.
  intros Hb. apply differ_told; [done|]. f_equal. f_equal. destruct (Z.eqb_spec x y); symmetry; [by apply bool_decide_eq_true|by apply bool_decide_eq_false].
Qed.

(** Two addresses are the same to [nl_addr_cmp]: the prefix lengths of empty
    addresses are not compared. *)
Definition same_addr (x y : option addr_value) : bool :=
  match x, y with
  | Some x, Some y => (av_family x =? av_family y) && bool_decide (av_bytes x = av_bytes y) &&
                      (bool_decide (av_bytes x = []) || (av_prefixlen x =? av_prefixlen y))
  | None, None => true
  | _, _ => false
  end.

Definition ints_ok (h : heap) : Prop := forall p a, h_addrs h !! p = Some a -> int_ok (a_family a) /\ int_ok (a_prefixlen a).

Lemma nl_addr_cmp_view a b : addr_ok a -> addr_ok b -> int_ok (a_family a) -> int_ok (a_family b) -> int_ok (a_prefixlen a) ->
  int_ok (a_prefixlen b) -> exists d, NlAddr.nl_addr_cmp a b = Some d /\ (d =? 0) = same_addr (Some (addr_view a)) (Some (addr_view b)).
Proof.
  intros Ha Hb Hfa Hfb Hpa Hpb. pose proof (addr_bytes_len a Ha) as Za. pose proof (addr_bytes_len b Hb) as Zb. unfold NlAddr.nl_addr_cmp, same_addr.
  cbn [addr_view av_family av_bytes av_prefixlen]. pose proof (NlAddr.family_diff _ _ Hfa Hfb) as Hd.
  destruct (Z.eqb_spec (a_family a) (a_family b)) as [Ef|Ef]; cbn [andb].
  2: { exists (s32 (a_family a - a_family b)). assert (s32 (a_family a - a_family b) <> 0) by tauto. by rewrite (proj2 (Z.eqb_neq _ _)). }
  rewrite (proj2 (Z.eqb_eq _ _)) by tauto. destruct Ha as (Hla & Hlen & _), Hb as (Hlb & Hlenb & _).
  assert (s32 (u32 (a_len a - a_len b)) = 0 <-> a_len a = a_len b) as Hl.
  { split; [|intros ->; by rewrite Z.sub_diag]. unfold s32, u32, wrap, swrap. intros E. change (32 - 1) with 31 in E. Z.to_euclidean_division_equations; lia. }
  destruct (Z.eqb_spec (a_len a) 0) as [E0|E0]; cbn [negb andb].
  - eexists. split; [done|]. assert (addr_bytes a = []) as -> by (apply length_zero_iff_nil; unfold zlen in *; lia). rewrite (bool_decide_eq_true_2 (@eq bytes [] [])) by done.
    cbn [orb]. rewrite andb_true_r. apply eq_true_iff_eq. rewrite Z.eqb_eq, Hl, bool_decide_eq_true. split; intros E.
    + symmetry. apply length_zero_iff_nil. unfold zlen in *. lia.
    + rewrite <- E in Zb. change (zlen []) with 0 in Zb. lia.
  - rewrite (bool_decide_eq_false_2 (addr_bytes a = [])) by (intros E; rewrite E in Za; change (zlen []) with 0 in Za; lia). cbn [orb].
    destruct (Z.eqb_spec (s32 (u32 (a_len a - a_len b))) 0) as [El|El].
    + apply Hl in El. unfold rd_bytes. rewrite !(proj2 (Z.leb_le _ _)) by lia. cbn [andb mbind option_bind]. eexists. split; [done|]. rewrite !drop_0. fold (addr_bytes a). rewrite El. fold (addr_bytes b).
      pose proof (NlAddr.memcmp_zero (addr_bytes a) (addr_bytes b) ltac:(unfold zlen in *; lia)) as Hm. pose proof (NlAddr.family_diff _ _ Hpa Hpb) as Hp.
      destruct (Z.eqb_spec (memcmp (addr_bytes a) (addr_bytes b)) 0) as [Em|Em].
      * rewrite (bool_decide_eq_true_2 (addr_bytes a = addr_bytes b)) by tauto. cbn [andb]. apply eq_true_iff_eq. by rewrite !Z.eqb_eq.
      * rewrite (bool_decide_eq_false_2 (addr_bytes a = addr_bytes b)) by tauto. by apply Z.eqb_neq.
    + eexists. split; [done|]. rewrite (proj2 (Z.eqb_neq _ _)) by done. rewrite (bool_decide_eq_false_2 (addr_bytes a = addr_bytes b)); [done|].
      intros E. apply El, Hl. rewrite <- Za, <- Zb. by rewrite E.
Qed.

Definition view_ptr (h : heap) (mask attr : Z) (p : option positive) : option addr_value :=
  if has mask attr then addr_view <$> deref h p else None.

Lemma addr_told attrs attr h ma mb p q : one_bit attr -> ints_ok h -> ptr_ok h ma attr p -> ptr_ok h mb attr q ->
  told attrs (ATTR_DIFF attrs attr ma mb (d ← addr_cmp h p q; Some (negb (d =? 0)))) (attr, same_addr (view_ptr h ma attr p) (view_ptr h mb attr q)).
Proof.
  intros Hk Hi Hp Hq. unfold ptr_ok, view_ptr in *. apply ATTR_DIFF_told; [done|..].
  - intros Ea Eb. rewrite Ea, Eb in *. destruct Hp as (a & Da & Ha), Hq as (b & Db & Hb). unfold addr_cmp. rewrite Da, Db. cbn [mbind option_bind].
    assert (forall p a, deref h p = Some a -> int_ok (a_family a) /\ int_ok (a_prefixlen a)) as Hint by (intros [x|] c; [apply Hi|done]).
    destruct (Hint _ _ Da), (Hint _ _ Db). destruct (nl_addr_cmp_view a b) as (d & -> & E); try done. cbn [mbind option_bind fmap option_fmap option_map]. by rewrite E.
  - destruct (has ma attr), (has mb attr); try done; intros _; [destruct Hp as (a & -> & _)|destruct Hq as (a & -> & _)]; done.
  - by intros -> ->.
Qed.

Lemma difference_zero attrs l : Forall (fun e => one_bit (fst e)) l -> difference attrs l = 0 <-> Forall (fun e => has attrs (fst e) = true -> snd e = true) l.
Proof.
  induction 1 as [|[attr same] l (k & Hk & Ek) _ IH]; [done|]. rewrite list.Forall_cons, <- IH. cbn [difference foldr fst snd] in *. fold (difference attrs l).
  rewrite Z.lor_eq_0_iff. pose proof (Z.pow_pos_nonneg 2 k). destruct (has attrs attr), same; cbn [andb negb]; intuition (try lia; try done).
Qed.

Lemma same_addr_spec x y : same_addr (Some x) (Some y) = true <->
  av_family x = av_family y /\ av_bytes x = av_bytes y /\ (av_bytes x = [] \/ av_prefixlen x = av_prefixlen y).
Proof. cbn [same_addr]. rewrite !andb_true_iff, orb_true_iff, !bool_decide_eq_true, !Z.eqb_eq. tauto. Qed.

Lemma same_addr_sym x y : same_addr x y = true -> same_addr y x = true.
Proof. destruct x as [x|], y as [y|]; try done. rewrite !same_addr_spec. intros (-> & -> & [?|?]); auto. Qed.

Lemma same_addr_trans x y z : same_addr x y = true -> same_addr y z = true -> same_addr x z = true.
Proof.
  destruct x as [x|], y as [y|], z as [z|]; try done. rewrite !same_addr_spec. intros (-> & Exy & Hxy) (-> & Eyz & Hyz). split_and!; [done|congruence|].
  destruct Hxy as [?|Hxy]; [by left|]. destruct Hyz as [?|?]; [left; congruence|right; congruence].
Qed.

Lemma same_addr_bytes x y : same_addr x y = true -> av_bytes <$> x = av_bytes <$> y.
Proof. destruct x as [x|], y as [y|]; try done. rewrite same_addr_spec. cbn. by intros (_ & -> & _). Qed.

(** A pointer when addresses are added. *)
Lemma ptr_kept h h' mask attr p : ptr_ok h mask attr p -> (forall k a, h_addrs h !! k = Some a -> h_addrs h' !! k = Some a) ->
  ptr_ok h' mask attr p /\ view_ptr h' mask attr p = view_ptr h mask attr p.
Proof.
  intros Hp Hk. unfold ptr_ok, view_ptr in *. destruct (has mask attr); [|done]. destruct Hp as (a & E & Ha). destruct p as [p|]; [|done].
  assert (deref h' (Some p) = Some a) as E' by (unfold deref in *; cbn [mbind option_bind] in *; by apply Hk). rewrite E'. split; [by exists a|]. by rewrite E.
Qed.

(** ** Objects with two addresses *)

(** The pointers of an object somebody has. *)
Definition held {X} (ptrs : X -> list (option positive)) (o : option (object X)) : list (option positive) :=
  match o with Some o => ptrs (ce_data o) | None => [] end.

Section Put.
Context {X : Type} (free_data : X -> H unit) (p q : X -> option positive).
Hypothesis free_puts : forall x, free_data x = (addr_put (p x) ;; addr_put (q x)).

(** The last reference: the addresses are put. *)
Lemma obj_put_last user l h o : heap_ok user (p (ce_data o) :: q (ce_data o) :: l) h -> ce_refcnt o = 1 -> exists h',
  obj_put free_data o h = Some (None, h') /\ heap_ok user l h' /\ keeps h h'.
Proof.
  intros Hh Hr. unfold obj_put. rewrite Hr. change (s32 (1 - 1)) with 0. change (0 <? 0) with false. change (0 <=? 0) with true. cbv iota.
  destruct (addr_put_ok _ _ _ _ Hh) as (h1 & E1 & Hh1 & K1). destruct (addr_put_ok _ _ _ _ Hh1) as (h2 & E2 & Hh2 & K2).
  exists h2. split; [|split; [done|by eapply keeps_trans]].
  assert (free_data (ce_data o) h = Some (tt, h2)) as E by (rewrite free_puts; by rewrite (hbind_run _ _ _ _ _ E1)).
  by rewrite (hbind_run _ _ _ _ _ E).
Qed.

Lemma obj_put_any user l h o : heap_ok user (p (ce_data o) :: q (ce_data o) :: l) h -> 1 <= ce_refcnt o <= INT_MAX -> exists r h',
  obj_put free_data o h = Some (r, h') /\ heap_ok user (held (fun x => [p x; q x]) r ++ l) h'.
Proof.
  intros Hh Hr. destruct (decide (ce_refcnt o = 1)) as [E|E].
  - destruct (obj_put_last user l h o Hh E) as (h' & Ep & Hh' & _). by exists None, h'.
  - unfold obj_put. rewrite s32_id by (unfold INT_MIN, INT_MAX in *; lia). rewrite (proj2 (Z.ltb_ge _ _)), (proj2 (Z.leb_gt _ _)) by lia.
    by eexists _, h.
Qed.

End Put.

(** ** Copies *)

Section Clone.
Context {al : Allocator}.
Hypothesis memory : malloc_total al.

Lemma addr_clone_ok user l h p a : heap_ok user l h -> h_addrs h !! p = Some a -> addr_ok a -> exists q b,
  addr_clone p h = Some (Some q, Heap (<[q := b]> (h_addrs h)) (h_links h)) /\ h_addrs h !! q = None /\
  heap_ok user (Some q :: l) (Heap (<[q := b]> (h_addrs h)) (h_links h)) /\ addr_view b = addr_view a /\ addr_ok b.
Proof.
  intros Hh Ep Ha. pose proof (rd_addr a Ha) as Hd. pose proof (addr_bytes_len a Ha) as Hz. unfold addr_clone. rewrite (hbind_run _ _ _ _ _ (load_run _ _ _ Ep)).
  set (d := addr_bytes a) in *. pose proof Ha as (Hl & _ & Hby).
  assert (NlAddr.nl_addr_build (a_family a) d = Some (attr_addr (a_family a) d)) as Eb.
  { destruct (nl_addr_build_attr (a_family a) d) as [E|E]; [lia|done|]. exfalso. unfold NlAddr.nl_addr_build, NlAddr.nl_addr_alloc in E.
    rewrite memory in E; [done|]. unfold u64. rewrite wrap_id; lia. }
  set (b := NlAddr.nl_addr_set_prefixlen (attr_addr (a_family a) d) (a_prefixlen a)).
  assert (NlAddr.nl_addr_clone a = Some (Some b)) as Ec.
  { unfold NlAddr.nl_addr_clone. unfold NlAddr.nl_addr_get_len, NlAddr.nl_addr_get_binary_addr in Hd. rewrite Hd. cbn [mbind option_bind]. by rewrite Eb. }
  rewrite (hbind_run _ _ _ _ _ (of_option_run _ _ h Ec)). destruct (new_ok user l h b Hh) as (q & En & Hq & Hh'); [done|]. exists q, b.
  cbn [new_opt]. rewrite (hbind_run _ _ _ _ _ En). split_and!; [done|done|done|..].
  - unfold addr_view, b. cbn [a_family a_prefixlen NlAddr.nl_addr_set_prefixlen attr_addr]. f_equal. change (take (Z.to_nat (zlen d)) d = d). apply take_ge. unfold zlen. lia.
  - assert (Forall byte_ok d) by (by apply Forall_take). unfold addr_ok, b. cbn [a_len a_addr NlAddr.nl_addr_set_prefixlen attr_addr]. split; [lia|]. split; [lia|done].
Qed.

(** A pointer of the copy: the bytes [memcpy] left are replaced. *)
Lemma clone_ptr_ok user l h mask attr p : heap_ok user l h -> ptr_ok h mask attr p -> exists q h', clone_ptr p p h = Some (q, true, h') /\
  heap_ok user (q :: l) h' /\ ptr_ok h' mask attr q /\ view_ptr h' mask attr q = view_ptr h mask attr p /\ h_links h' = h_links h /\
  (forall k a, h_addrs h !! k = Some a -> h_addrs h' !! k = Some a).
Proof.
  intros Hh Hp. unfold ptr_ok, view_ptr in *. destruct (has mask attr); [|subst p; exists None, h; by rewrite heap_ok_null].
  destruct Hp as (a & Ea & Ha). destruct p as [p|]; [|done]. destruct (addr_clone_ok user l h p a Hh Ea Ha) as (q & b & Ec & Hq & Hh' & Hv & Hb).
  exists (Some q), (Heap (<[q := b]> (h_addrs h)) (h_links h)). unfold clone_ptr. rewrite (hbind_run _ _ _ _ _ Ec).
  assert (deref (Heap (<[q := b]> (h_addrs h)) (h_links h)) (Some q) = Some b) as Eq by (unfold deref; cbn [mbind option_bind h_addrs]; apply lookup_insert_eq).
  split_and!; [done|done|by exists b|by rewrite Eq, Ea; cbn; rewrite Hv|done|]. intros k c Ek. cbn [h_addrs]. rewrite lookup_insert_ne; [done|congruence].
Qed.

End Clone.

(** ** Printing and reading flags *)

(** What [__flags2str] prints for the flags [tmp]. *)
Fixpoint flags_text (tbl : trans_tbl) (tmp : Z) : bytes :=
  match tbl with
  | [] => []
  | (i, a) :: tbl' =>
      if has tmp i then str a ++ (if Z.ldiff tmp i =? 0 then [] else [44]) ++ flags_text tbl' (Z.ldiff tmp i)
      else flags_text tbl' tmp
  end.

Definition all_flags (tbl : trans_tbl) : Z := foldr (fun e => Z.lor (fst e)) 0 tbl.

(** A flag is one bit; its name is not empty, has no comma and no NUL, does not
    start with a space, and no other flag has it. *)
Definition flag_ok (tbl : trans_tbl) (e : Z * string) : bool :=
  (0 <? fst e) && (fst e =? 2 ^ Z.log2 (fst e)) && (zlen (str (snd e)) >? 0) &&
  forallb (fun c => negb (c =? 0) && negb (c =? 44)) (str (snd e)) && negb (bool_decide (head (str (snd e)) = Some 32)) &&
  forallb (fun e' => negb (bool_decide (map tolower (str (snd e')) = map tolower (str (snd e)))) || (fst e' =? fst e)) tbl.

Definition flags_ok (tbl : trans_tbl) : bool := forallb (flag_ok tbl) tbl.

Lemma flag_ok_elim tbl e : flag_ok tbl e = true -> one_bit (fst e) /\ NlAddr.text_ok (str (snd e)) /\ Forall (fun c => c <> 44) (str (snd e)) /\
  (exists c s, str (snd e) = c :: s /\ c <> 32) /\
  (forall e', e' ∈ tbl -> map tolower (str (snd e')) = map tolower (str (snd e)) -> fst e' = fst e).
Proof.
  unfold flag_ok. rewrite !andb_true_iff. intros [[[[[H1 H2] H3] H4] H5] H6]. split_and!.
  - exists (Z.log2 (fst e)). split; [apply Z.log2_nonneg|lia].
  - apply Forall_forall. intros c Hc. rewrite forallb_forall in H4. apply list_elem_of_In in Hc. specialize (H4 c Hc). lia.
  - apply Forall_forall. intros c Hc. rewrite forallb_forall in H4. apply list_elem_of_In in Hc. specialize (H4 c Hc). lia.
  - destruct (str (snd e)) as [|c s]; [done|]. exists c, s. split; [done|]. intros ->. by rewrite bool_decide_eq_true_2 in H5.
  - intros e' He E. rewrite forallb_forall in H6. apply list_elem_of_In in He. specialize (H6 e' He). rewrite bool_decide_eq_true_2 in H6 by done. cbn in H6. lia.
Qed.

Lemma flags_loop_text tbl0 tbl flags n : forall tmp buf t, Forall (fun e => flag_ok tbl0 e = true) tbl -> Z.land tmp flags = tmp ->
  holds buf t n -> zlen t + zlen (flags_text tbl tmp) < n -> exists buf', flags_loop tbl flags tmp buf = Some buf' /\ holds buf' (t ++ flags_text tbl tmp) n.
Proof.
  induction tbl as [|[i a] tbl IH]; intros tmp buf t Hall Hsub Hh Hl; cbn [flags_loop flags_text] in *.
  { exists buf. by rewrite app_nil_r. }
  apply list.Forall_cons in Hall as [He Hall]. destruct (flag_ok_elim _ _ He) as (_ & Ht & _). cbn [fst snd] in Ht.
  rewrite (Z.land_comm i tmp). change (negb (Z.land tmp i =? 0)) with (has tmp i). destruct (has tmp i); [|by apply IH].
  rewrite <- Z.ldiff_land. rewrite !zlen_app in Hl. pose proof (zlen_nonneg (flags_text tbl (Z.ldiff tmp i))).
  assert (0 <= zlen (if Z.ldiff tmp i =? 0 then [] else [44])) by apply zlen_nonneg.
  destruct (NlAddr.strncat_holds t (str a) buf n Hh Ht) as (buf1 & E1 & Hb1); [lia|]. rewrite E1. cbn [mbind option_bind].
  assert (Z.land (Z.ldiff tmp i) flags = Z.ldiff tmp i) as Hsub'.
  { rewrite <- Hsub at 2. apply Z.bits_inj'. intros k Hk. rewrite !Z.land_spec, !Z.ldiff_spec, Z.land_spec. destruct (Z.testbit tmp k), (Z.testbit i k), (Z.testbit flags k); done. }
  rewrite Hsub'. destruct (Z.eqb_spec (Z.ldiff tmp i) 0) as [E|E]; cbn [negb mbind option_bind app].
  - destruct (IH (Z.ldiff tmp i) buf1 (t ++ str a)) as (buf' & E' & H'); [done|done|done|rewrite zlen_app; change (zlen []) with 0 in Hl; lia|].
    exists buf'. split; [done|]. by rewrite app_assoc.
  - change (zlen [44]) with 1 in Hl. destruct (NlAddr.strncat_holds (t ++ str a) [44] buf1 n Hb1) as (buf2 & E2 & Hb2); [by apply Forall_singleton|rewrite zlen_app; change (zlen [44]) with 1; lia|].
    change (str ",") with [44]. rewrite E2. cbn [mbind option_bind].
    destruct (IH (Z.ldiff tmp i) buf2 ((t ++ str a) ++ [44])) as (buf' & E' & H'); [done|done|done|rewrite !zlen_app; change (zlen [44]) with 1; lia|].
    exists buf'. split; [done|]. by rewrite <- !app_assoc in H'.
Qed.

Lemma named_unique name i tbl : forall flags, (forall e, e ∈ tbl -> map tolower (str (snd e)) = map tolower name -> fst e = i) ->
  named name tbl flags = if existsb (fun e => bool_decide (map tolower (str (snd e)) = map tolower name)) tbl then Z.lor flags i else flags.
Proof.
  unfold named. induction tbl as [|e tbl IH]; intros flags Hu; [done|]. cbn [fold_left existsb].
  assert (forall e', e' ∈ tbl -> map tolower (str (snd e')) = map tolower name -> fst e' = i) as Hu' by (intros; apply Hu; [by apply elem_of_cons; right|done]).
  case_bool_decide as E; cbn [orb].
  - assert ((zlen name =? zlen (str (snd e))) = true) as ->.
    { apply Z.eqb_eq. unfold zlen. f_equal. rewrite <- (length_map tolower name), <- E. apply length_map. }
    cbn [andb]. rewrite IH, (Hu e) by (done || by apply list_elem_of_here). destruct (existsb _ tbl); [|done]. by rewrite <- Z.lor_assoc, Z.lor_diag.
  - rewrite andb_false_r. by apply IH.
Qed.

Lemma split_comma_name s t : Forall (fun c => c <> 44) s -> split_comma (s ++ t) = (let '(a, p) := split_comma t in (s ++ a, p)).
Proof.
  induction 1 as [|c s Hc _ IH]; cbn [app split_comma]; [by destruct (split_comma t)|].
  rewrite (proj2 (Z.eqb_neq c 44)) by done. rewrite IH. by destruct (split_comma t).
Qed.

Lemma str2flags_text tbl0 tbl : forall tmp acc fuel, flags_ok tbl0 = true -> Forall (fun e => e ∈ tbl0) tbl -> (length (flags_text tbl tmp) < fuel)%nat ->
  str2flags_loop fuel (flags_text tbl tmp) tbl0 acc = Z.lor acc (Z.land tmp (all_flags tbl)).
Proof.
  intros tmp acc fuel Hok. revert tmp acc fuel.
  assert (forall e, e ∈ tbl0 -> flag_ok tbl0 e = true) as Hall by (intros e He; unfold flags_ok in Hok; rewrite forallb_forall in Hok; by apply Hok, list_elem_of_In).
  assert (forall acc fuel, (0 < fuel)%nat -> str2flags_loop fuel [] tbl0 acc = acc) as Hempty.
  { intros acc [|fuel] Hf; [lia|]. cbn [str2flags_loop split_comma]. rewrite (named_unique [] 0).
    - destruct (existsb _ tbl0); [apply Z.lor_0_r|done].
    - intros e He E. destruct (flag_ok_elim _ _ (Hall e He)) as (_ & _ & _ & (c & s & Es & _) & _). by rewrite Es in E. }
  induction tbl as [|[i a] tbl IH]; intros tmp acc fuel Hsub Hf; cbn [flags_text all_flags foldr] in *.
  { rewrite Z.land_0_r, Z.lor_0_r. by apply Hempty. }
  apply list.Forall_cons in Hsub as [Hin Hsub]. destruct (flag_ok_elim _ _ (Hall _ Hin)) as ((k & Hk & Ei) & _ & Hcomma & (c & s & Es & Hc) & Huniq). cbn [fst snd] in *.
  fold (all_flags tbl) in *. destruct (has tmp i) eqn:Eh.
  - assert (Z.testbit tmp k = true) as Hbit by (rewrite <- has_bit, <- Ei; done).
    assert (named (str a) tbl0 acc = Z.lor acc i) as Hn.
    { rewrite (named_unique (str a) i) by (intros e He E; by apply (Huniq e)). rewrite (proj2 (existsb_exists _ _)); [done|].
      exists (i, a). split; [by apply list_elem_of_In|by apply bool_decide_eq_true]. }
    assert (Z.lor (Z.lor acc i) (Z.land (Z.ldiff tmp i) (all_flags tbl)) = Z.lor acc (Z.land tmp (Z.lor i (all_flags tbl)))) as Hbits.
    { apply Z.bits_inj'. intros n Hn'. rewrite !Z.lor_spec, !Z.land_spec, Z.ldiff_spec, Z.lor_spec.
      assert (Z.testbit i n = true -> Z.testbit tmp n = true) as Hi.
      { subst i. rewrite Z.pow2_bits_eqb by done. rewrite Z.eqb_eq. by intros <-. }
      destruct (Z.testbit acc n), (Z.testbit i n), (Z.testbit tmp n), (Z.testbit (all_flags tbl) n); try done; by specialize (Hi eq_refl). }
    destruct fuel as [|fuel]; [lia|]. cbn [str2flags_loop].
    assert (forall x, match str a ++ x with c :: p' => if c =? 32 then p' else str a ++ x | [] => str a ++ x end = str a ++ x) as Hsp.
    { intros x. rewrite Es. cbn [app]. by rewrite (proj2 (Z.eqb_neq c 32)). }
    rewrite Hsp, split_comma_name by done. destruct (Z.eqb_spec (Z.ldiff tmp i) 0) as [E|E]; cbn [app] in *.
    + assert (flags_text tbl (Z.ldiff tmp i) = []) as ->.
      { rewrite E. clear. induction tbl as [|[j b] tbl IH]; [done|]. cbn [flags_text]. change (has 0 j) with (negb (0 =? 0)). exact IH. }
      cbn [split_comma]. rewrite app_nil_r, Hn. rewrite <- Hbits, E. by rewrite Z.land_0_l, Z.lor_0_r.
    + cbn [split_comma]. change (44 =? 44) with true. cbv iota. rewrite app_nil_r, Hn, IH, Hbits; [done|done|].
      rewrite length_app in Hf. cbn [length] in Hf. lia.
  - rewrite IH by done. f_equal. apply Z.bits_inj'. intros n Hn. rewrite !Z.land_spec, Z.lor_spec. subst i. rewrite has_bit in Eh by done.
    rewrite Z.pow2_bits_eqb by done. destruct (Z.eqb_spec k n) as [->|]; [by rewrite Eh|done].
Qed.

(** Flags survive printing: what [__flags2str] prints with a table of
    one-bit flags with distinct names is read back by [__str2flags] as the
    flags of the table; flags without a name are lost.  The buffer is as large
    as the names need. *)
Theorem flags2str_str2flags tbl flags buf : flags_ok tbl = true -> zlen (flags_text tbl flags) < zlen buf ->
  exists buf', __flags2str flags buf tbl = Some buf' /\ cstr buf' = flags_text tbl flags /\ __str2flags buf' tbl = Z.land flags (all_flags tbl).
Proof.
  intros Hok Hl. unfold __flags2str. assert (Forall (fun e => e ∈ tbl) tbl) as Hin by (by apply Forall_forall).
  assert (0 < length buf)%nat by (pose proof (zlen_nonneg (flags_text tbl flags)); unfold zlen in *; lia).
  destruct (flags_loop_text tbl tbl flags (zlen buf) flags (replicate (length buf) 0) []) as (buf' & E & Hc & Hz).
  - apply Forall_forall. intros e He. unfold flags_ok in Hok. rewrite forallb_forall in Hok. by apply Hok, list_elem_of_In.
  - apply Z.land_diag.
  - split; [by destruct (length buf); [lia|]|]. unfold zlen. by rewrite length_replicate.
  - exact Hl.
  - cbn [app] in Hc. exists buf'. split; [done|]. split; [done|]. unfold __str2flags. rewrite Hc. by apply str2flags_text; [|  |lia].
Qed.

(** ** Sample heaps *)

Lemma heap_ok_empty links : heap_ok (fun _ => 0) [] (Heap ∅ links).
Proof. split; [done|]. intros p. cbn [h_addrs]. by rewrite lookup_empty. Qed.

Lemma heap_ok_single p a links : 0 < a_refcnt a <= INT_MAX -> heap_ok (fun q => if decide (q = p) then a_refcnt a else 0) [] (Heap {[p := a]} links).
Proof.
  intros Ha. split; [intros q; destruct (decide _); lia|]. intros q. cbn [h_addrs]. rewrite refs_nil. destruct (decide (q = p)) as [->|Hq].
  - rewrite lookup_singleton_eq. lia.
  - by rewrite lookup_singleton_ne.
Qed.

End NlRtnl.
