(* ===== verification/NlRule.v ===== *)
(** * Routing rules of libnl ([lib/route/rule.c])

    A rule is an object with a mask of the attributes it has and two pointers
    to addresses on the heap of [NlRtnl].  Dumping a rule as text is left out.

    The theorems: a rule that is sent and received again has the attributes it
    had; a sequence of setters does what it says, refuses addresses of another
    family and keeps the counts of references; the parser accepts any message
    without reading outside it and frees what it allocates; comparing two
    rules finds exactly the attributes that differ. *)

From S2P Require Import Prelude JsonUtil Netlink Syscalls NetRequests NlParse NlAttr NlSocket NlAddr NlRtnl.
From Stdlib Require Import ZArith Lia.
From stdpp Require Import base list numbers option strings gmap.

Open Scope Z_scope.

Module NlRule.
Import Netlink NlParse NlAttr NlRtnl.
Import NlAddr (nl_addr, Addr, a_family, a_maxsize, a_len, a_prefixlen, a_refcnt, a_addr, trans_tbl).

Definition RULE_ATTR_FAMILY : Z := 1.
Definition RULE_ATTR_TABLE : Z := 2.
Definition RULE_ATTR_ACTION : Z := 4.
Definition RULE_ATTR_FLAGS : Z := 8.
Definition RULE_ATTR_IIFNAME : Z := 16.
Definition RULE_ATTR_OIFNAME : Z := 32.
Definition RULE_ATTR_PRIO : Z := 64.
Definition RULE_ATTR_MARK : Z := 128.
Definition RULE_ATTR_MASK : Z := 256.
Definition RULE_ATTR_GOTO : Z := 512.
Definition RULE_ATTR_SRC : Z := 1024.
Definition RULE_ATTR_DST : Z := 2048.
Definition RULE_ATTR_DSFIELD : Z := 4096.
Definition RULE_ATTR_FLOW : Z := 8192.

Definition FRA_DST : Z := 1.
Definition FRA_SRC : Z := 2.
Definition FRA_IIFNAME : Z := 3.
Definition FRA_GOTO : Z := 4.
Definition FRA_PRIORITY : Z := 6.
Definition FRA_FWMARK : Z := 10.
Definition FRA_FLOW : Z := 11.
Definition FRA_TABLE : Z := 15.
Definition FRA_FWMASK : Z := 16.
Definition FRA_OIFNAME : Z := 17.
Definition FRA_MAX : Z := 17.

Definition IFNAMSIZ : Z := 16.
Definition RTM_NEWRULE : Z := 32.
Definition RTM_DELRULE : Z := 33.
Definition RTM_GETRULE : Z := 34.
Definition NLM_F_CREATE : Z := 1024.

(** ** Rules *)

Record rtnl_rule := Rule {
  r_family : Z;
  r_action : Z;
  r_dsfield : Z;
  r_table : Z;
  r_flags : Z;
  r_prio : Z;
  r_mark : Z;
  r_mask : Z;
  r_goto : Z;
  r_flow : Z;
  r_src : option positive;
  r_dst : option positive;
  r_iifname : bytes;
  r_oifname : bytes
}.

(** Updates of a field. *)
Definition set_r_family (v : Z) (x : rtnl_rule) : rtnl_rule := Rule v (r_action x) (r_dsfield x) (r_table x) (r_flags x) (r_prio x) (r_mark x) (r_mask x) (r_goto x) (r_flow x) (r_src x) (r_dst x) (r_iifname x) (r_oifname x).
Definition set_r_action (v : Z) (x : rtnl_rule) : rtnl_rule := Rule (r_family x) v (r_dsfield x) (r_table x) (r_flags x) (r_prio x) (r_mark x) (r_mask x) (r_goto x) (r_flow x) (r_src x) (r_dst x) (r_iifname x) (r_oifname x).
Definition set_r_dsfield (v : Z) (x : rtnl_rule) : rtnl_rule := Rule (r_family x) (r_action x) v (r_table x) (r_flags x) (r_prio x) (r_mark x) (r_mask x) (r_goto x) (r_flow x) (r_src x) (r_dst x) (r_iifname x) (r_oifname x).
Definition set_r_table (v : Z) (x : rtnl_rule) : rtnl_rule := Rule (r_family x) (r_action x) (r_dsfield x) v (r_flags x) (r_prio x) (r_mark x) (r_mask x) (r_goto x) (r_flow x) (r_src x) (r_dst x) (r_iifname x) (r_oifname x).
Definition set_r_flags (v : Z) (x : rtnl_rule) : rtnl_rule := Rule (r_family x) (r_action x) (r_dsfield x) (r_table x) v (r_prio x) (r_mark x) (r_mask x) (r_goto x) (r_flow x) (r_src x) (r_dst x) (r_iifname x) (r_oifname x).
Definition set_r_prio (v : Z) (x : rtnl_rule) : rtnl_rule := Rule (r_family x) (r_action x) (r_dsfield x) (r_table x) (r_flags x) v (r_mark x) (r_mask x) (r_goto x) (r_flow x) (r_src x) (r_dst x) (r_iifname x) (r_oifname x).
Definition set_r_mark (v : Z) (x : rtnl_rule) : rtnl_rule := Rule (r_family x) (r_action x) (r_dsfield x) (r_table x) (r_flags x) (r_prio x) v (r_mask x) (r_goto x) (r_flow x) (r_src x) (r_dst x) (r_iifname x) (r_oifname x).
Definition set_r_mask (v : Z) (x : rtnl_rule) : rtnl_rule := Rule (r_family x) (r_action x) (r_dsfield x) (r_table x) (r_flags x) (r_prio x) (r_mark x) v (r_goto x) (r_flow x) (r_src x) (r_dst x) (r_iifname x) (r_oifname x).
Definition set_r_goto (v : Z) (x : rtnl_rule) : rtnl_rule := Rule (r_family x) (r_action x) (r_dsfield x) (r_table x) (r_flags x) (r_prio x) (r_mark x) (r_mask x) v (r_flow x) (r_src x) (r_dst x) (r_iifname x) (r_oifname x).
Definition set_r_flow (v : Z) (x : rtnl_rule) : rtnl_rule := Rule (r_family x) (r_action x) (r_dsfield x) (r_table x) (r_flags x) (r_prio x) (r_mark x) (r_mask x) (r_goto x) v (r_src x) (r_dst x) (r_iifname x) (r_oifname x).
Definition set_r_src (v : option positive) (x : rtnl_rule) : rtnl_rule := Rule (r_family x) (r_action x) (r_dsfield x) (r_table x) (r_flags x) (r_prio x) (r_mark x) (r_mask x) (r_goto x) (r_flow x) v (r_dst x) (r_iifname x) (r_oifname x).
Definition set_r_dst (v : option positive) (x : rtnl_rule) : rtnl_rule := Rule (r_family x) (r_action x) (r_dsfield x) (r_table x) (r_flags x) (r_prio x) (r_mark x) (r_mask x) (r_goto x) (r_flow x) (r_src x) v (r_iifname x) (r_oifname x).
Definition set_r_iifname (v : bytes) (x : rtnl_rule) : rtnl_rule := Rule (r_family x) (r_action x) (r_dsfield x) (r_table x) (r_flags x) (r_prio x) (r_mark x) (r_mask x) (r_goto x) (r_flow x) (r_src x) (r_dst x) v (r_oifname x).
Definition set_r_oifname (v : bytes) (x : rtnl_rule) : rtnl_rule := Rule (r_family x) (r_action x) (r_dsfield x) (r_table x) (r_flags x) (r_prio x) (r_mark x) (r_mask x) (r_goto x) (r_flow x) (r_src x) (r_dst x) (r_iifname x) v.

Abbreviation rule := (object rtnl_rule).

(** What [calloc] leaves. *)
Definition no_rule : rtnl_rule := Rule 0 0 0 0 0 0 0 0 0 0 None None (replicate 16 0) (replicate 16 0).

Definition rule_free_data (r : rtnl_rule) : H unit := addr_put (r_src r) ;; addr_put (r_dst r).

(** [sizeof (struct rtnl_rule)]. *)
Definition rule_size : Z := 136.

Definition rtnl_rule_put (o : option rule) : H (option rule) :=
  match o with Some o => obj_put rule_free_data o | None => mret None end.

(** ** Comparing *)

Definition rule_compare (h : heap) (a b : rule) (attrs flags : Z) : option Z :=
  let diff (attr : Z) (expr : option bool) := ATTR_DIFF attrs attr (ce_mask a) (ce_mask b) expr in
  let x := ce_data a in let y := ce_data b in
  let differ (f : rtnl_rule -> Z) := Some (negb (f x =? f y)) in
  let strcmp (f : rtnl_rule -> bytes) := Some (negb (bool_decide (cstr (f x) = cstr (f y)))) in
  let cmp (f : rtnl_rule -> option positive) := d ← addr_cmp h (f x) (f y); Some (negb (d =? 0)) in
  diffs [diff RULE_ATTR_FAMILY (differ r_family); diff RULE_ATTR_TABLE (differ r_table); diff RULE_ATTR_ACTION (differ r_action);
         diff RULE_ATTR_IIFNAME (strcmp r_iifname); diff RULE_ATTR_OIFNAME (strcmp r_oifname); diff RULE_ATTR_PRIO (differ r_prio);
         diff RULE_ATTR_MARK (differ r_mark); diff RULE_ATTR_MASK (differ r_mask); diff RULE_ATTR_GOTO (differ r_goto);
         diff RULE_ATTR_SRC (cmp r_src); diff RULE_ATTR_DST (cmp r_dst); diff RULE_ATTR_DSFIELD (differ r_dsfield);
         diff RULE_ATTR_FLOW (differ r_flow)].

Definition rule_attrs : trans_tbl :=
  [(RULE_ATTR_FAMILY, "family"); (RULE_ATTR_TABLE, "table"); (RULE_ATTR_ACTION, "action"); (RULE_ATTR_IIFNAME, "iifname");
   (RULE_ATTR_OIFNAME, "oifname"); (RULE_ATTR_PRIO, "prio"); (RULE_ATTR_MARK, "mark"); (RULE_ATTR_MASK, "mask");
   (RULE_ATTR_GOTO, "goto"); (RULE_ATTR_SRC, "src"); (RULE_ATTR_DST, "dst"); (RULE_ATTR_DSFIELD, "dsfield");
   (RULE_ATTR_FLOW, "flow")]%string.

Definition rule_attrs2str (attrs : Z) (buf : bytes) : option bytes := __flags2str attrs buf rule_attrs.

(** ** Setters and getters *)

Definition rtnl_rule_set_family (o : rule) (family : Z) : rule := assign RULE_ATTR_FAMILY (set_r_family (u8 family)) o.
Definition rtnl_rule_get_family (o : rule) : Z := if has (ce_mask o) RULE_ATTR_FAMILY then r_family (ce_data o) else NlAddr.AF_UNSPEC.
Definition rtnl_rule_set_prio (o : rule) (prio : Z) : rule := assign RULE_ATTR_PRIO (set_r_prio (u32 prio)) o.
Definition rtnl_rule_get_prio (o : rule) : Z := r_prio (ce_data o).
Definition rtnl_rule_set_mark (o : rule) (mark : Z) : rule := assign RULE_ATTR_MARK (set_r_mark (u32 mark)) o.
Definition rtnl_rule_get_mark (o : rule) : Z := r_mark (ce_data o).
Definition rtnl_rule_set_mask (o : rule) (mask : Z) : rule := assign RULE_ATTR_MASK (set_r_mask (u32 mask)) o.
Definition rtnl_rule_get_mask (o : rule) : Z := r_mask (ce_data o).
Definition rtnl_rule_set_table (o : rule) (table : Z) : rule := assign RULE_ATTR_TABLE (set_r_table (u32 table)) o.
Definition rtnl_rule_get_table (o : rule) : Z := r_table (ce_data o).
Definition rtnl_rule_set_dsfield (o : rule) (dsfield : Z) : rule := assign RULE_ATTR_DSFIELD (set_r_dsfield (u8 dsfield)) o.
Definition rtnl_rule_get_dsfield (o : rule) : Z := r_dsfield (ce_data o).
Definition rtnl_rule_set_action (o : rule) (action : Z) : rule := assign RULE_ATTR_ACTION (set_r_action (u8 action)) o.
Definition rtnl_rule_get_action (o : rule) : Z := r_action (ce_data o).
Definition rtnl_rule_set_realms (o : rule) (realms : Z) : rule := assign RULE_ATTR_FLOW (set_r_flow (u32 realms)) o.
Definition rtnl_rule_get_realms (o : rule) : Z := r_flow (ce_data o).
Definition rtnl_rule_set_goto (o : rule) (ref : Z) : rule := assign RULE_ATTR_GOTO (set_r_goto (u32 ref)) o.
Definition rtnl_rule_get_goto (o : rule) : Z := r_goto (ce_data o).

(** [pos] is the field; the result is the rule and the error. *)
Definition __assign_addr (o : rule) (pos : rtnl_rule -> option positive) (set_pos : option positive -> rtnl_rule -> rtnl_rule)
    (new : positive) (flag : Z) : H (rule * Z) :=
  a ← load new;
  if has (ce_mask o) RULE_ATTR_FAMILY && negb (a_family a =? r_family (ce_data o)) then mret (o, - NLE_AF_MISMATCH) else
  let r := if has (ce_mask o) RULE_ATTR_FAMILY then ce_data o else set_r_family (u8 (a_family a)) (ce_data o) in
  addr_put (pos r) ;;
  addr_get new ;;
  mret (assign (Z.lor flag RULE_ATTR_FAMILY) (fun _ => set_pos (Some new) r) o, 0).

Definition rtnl_rule_set_src (o : rule) (src : positive) : H (rule * Z) := __assign_addr o r_src set_r_src src RULE_ATTR_SRC.
Definition rtnl_rule_get_src (o : rule) : option positive := r_src (ce_data o).
Definition rtnl_rule_set_dst (o : rule) (dst : positive) : H (rule * Z) := __assign_addr o r_dst set_r_dst dst RULE_ATTR_DST.
Definition rtnl_rule_get_dst (o : rule) : option positive := r_dst (ce_data o).

(** [strcpy] leaves the bytes behind the copied string. *)
Definition set_name (name dev : bytes) : bytes := splice 0 (cstr dev ++ [0]) name.

Definition rtnl_rule_set_iif (o : rule) (dev : bytes) : rule * Z :=
  if strlen dev >? IFNAMSIZ - 1 then (o, - NLE_RANGE) else
  (assign RULE_ATTR_IIFNAME (fun r => set_r_iifname (set_name (r_iifname r) dev) r) o, 0).
Definition rtnl_rule_get_iif (o : rule) : option bytes := if has (ce_mask o) RULE_ATTR_IIFNAME then Some (r_iifname (ce_data o)) else None.
Definition rtnl_rule_set_oif (o : rule) (dev : bytes) : rule * Z :=
  if strlen dev >? IFNAMSIZ - 1 then (o, - NLE_RANGE) else
  (assign RULE_ATTR_OIFNAME (fun r => set_r_oifname (set_name (r_oifname r) dev) r) o, 0).
Definition rtnl_rule_get_oif (o : rule) : option bytes := if has (ce_mask o) RULE_ATTR_OIFNAME then Some (r_oifname (ce_data o)) else None.

Section Alloc.
Context {al : Allocator}.

Definition rtnl_rule_alloc : option rule := obj_alloc rule_size no_rule.

Definition rule_clone (dst src : rtnl_rule) : H (rtnl_rule * Z) :=
  '(p, ok) ← clone_ptr (r_src dst) (r_src src);
  let dst := set_r_src p dst in
  if negb ok then mret (dst, - NLE_NOMEM) else
  '(p, ok) ← clone_ptr (r_dst dst) (r_dst src);
  let dst := set_r_dst p dst in
  if negb ok then mret (dst, - NLE_NOMEM) else mret (dst, 0).

Definition rtnl_rule_clone (o : rule) : H (option rule) := obj_clone rule_size rule_clone rule_free_data o.

(** ** Parsing *)

Definition rule_policy : list nla_policy :=
  [Policy 0 0 0; Policy 0 0 0; Policy 0 0 0; Policy NLA_STRING 0 IFNAMSIZ; Policy NLA_U32 0 0; Policy 0 0 0; Policy NLA_U32 0 0;
   Policy 0 0 0; Policy 0 0 0; Policy 0 0 0; Policy NLA_U32 0 0; Policy NLA_U32 0 0; Policy 0 0 0; Policy 0 0 0; Policy 0 0 0;
   Policy NLA_U32 0 0; Policy NLA_U32 0 0; Policy NLA_STRING 0 IFNAMSIZ].

(** [struct fib_rule_hdr]. *)
Record fib_rule_hdr := Frh { family : Z; dst_len : Z; src_len : Z; tos : Z; table : Z; action : Z; flags : Z }.

Definition frh_bytes (f : fib_rule_hdr) : bytes :=
  le_bytes 1 (family f) ++ le_bytes 1 (dst_len f) ++ le_bytes 1 (src_len f) ++ le_bytes 1 (tos f) ++
  le_bytes 1 (table f) ++ le_bytes 1 0 ++ le_bytes 1 0 ++ le_bytes 1 (action f) ++ le_bytes 4 (flags f).

Definition read_frh (buf : bytes) (off : Z) : option fib_rule_hdr :=
  f ← rd off 1 buf; dl ← rd (off + 1) 1 buf; sl ← rd (off + 2) 1 buf; t ← rd (off + 3) 1 buf;
  tbl ← rd (off + 4) 1 buf; a ← rd (off + 7) 1 buf; fl ← rd (off + 8) 4 buf;
  Some (Frh f dl sl t tbl a fl).

(** From the header on: the rule, and whether there was enough memory. *)
Definition parse_rule (buf : bytes) (tb : list (option Z)) (frh : fib_rule_hdr) (o : rule) : H (rule * bool) :=
  let o := Object (ce_refcnt o) (ce_msgtype o) (Z.lor (Z.lor (Z.lor RULE_ATTR_FAMILY RULE_ATTR_TABLE) RULE_ATTR_ACTION) RULE_ATTR_FLAGS)
             (set_r_flags (flags frh) (set_r_action (action frh) (set_r_table (table frh) (set_r_family (family frh) (ce_data o))))) in
  let o := if negb (tos frh =? 0) then assign RULE_ATTR_DSFIELD (set_r_dsfield (tos frh)) o else o in
  o ← opt_u32 buf tb FRA_TABLE RULE_ATTR_TABLE set_r_table o;
  o ← opt_string buf tb FRA_IIFNAME IFNAMSIZ RULE_ATTR_IIFNAME set_r_iifname o;
  o ← opt_string buf tb FRA_OIFNAME IFNAMSIZ RULE_ATTR_OIFNAME set_r_oifname o;
  o ← opt_u32 buf tb FRA_PRIORITY RULE_ATTR_PRIO set_r_prio o;
  o ← opt_u32 buf tb FRA_FWMARK RULE_ATTR_MARK set_r_mark o;
  o ← opt_u32 buf tb FRA_FWMASK RULE_ATTR_MASK set_r_mask o;
  o ← opt_u32 buf tb FRA_GOTO RULE_ATTR_GOTO set_r_goto o;
  '(o, ok) ← opt_addr buf tb FRA_SRC (family frh) RULE_ATTR_SRC set_r_src (fun p => addr_set_prefixlen p (src_len frh)) o;
  if negb ok then mret (o, false) else
  '(o, ok) ← opt_addr buf tb FRA_DST (family frh) RULE_ATTR_DST set_r_dst (fun p => addr_set_prefixlen p (dst_len frh)) o;
  if negb ok then mret (o, false) else
  o ← opt_u32 buf tb FRA_FLOW RULE_ATTR_FLOW set_r_flow o;
  mret (o, true).

(** [pp_cb] gets the rule and may take references to it.  The result, and the
    rule if somebody has one. *)
Definition rule_msg_parser (pp_cb : rule -> H (rule * Z)) (buf : bytes) : H (Z * option rule) :=
  match rtnl_rule_alloc with
  | None => o ← rtnl_rule_put None; mret (- NLE_NOMEM, o)
  | Some o =>
      type ← of_option (rd 4 2 buf);
      let o := Object (ce_refcnt o) type (ce_mask o) (ce_data o) in
      '(otb, err) ← of_option (nlmsg_parse buf 0 12 FRA_MAX (Some rule_policy));
      if err <? 0 then r ← rtnl_rule_put (Some o); mret (err, r) else
      tb ← of_option otb;
      frh ← of_option (read_frh buf (nlmsg_data 0));
      '(o, ok) ← parse_rule buf tb frh o;
      if negb ok then r ← rtnl_rule_put (Some o); mret (- NLE_NOMEM, r) else
      '(o, err) ← pp_cb o;
      r ← rtnl_rule_put (Some o); mret (err, r)
  end.

(** ** Requests *)

(** The default size of messages is an argument. *)
Definition build_rule_msg (default_msg_size : Z) (h : heap) (tmpl : rule) (cmd flags : Z) : option (Z + nl_msg) :=
  let mask := ce_mask tmpl in
  let t := ce_data tmpl in
  if negb (has mask RULE_ATTR_FAMILY) then Some (inl (- NLE_MISSING_ATTR)) else
  match nlmsg_alloc_simple default_msg_size cmd flags with
  | None => Some (inl (- NLE_NOMEM))
  | Some msg =>
      src_len ← (if has mask RULE_ATTR_SRC then a ← deref h (r_src t); Some (u8 (NlAddr.nl_addr_get_prefixlen a)) else Some 0);
      dst_len ← (if has mask RULE_ATTR_DST then a ← deref h (r_dst t); Some (u8 (NlAddr.nl_addr_get_prefixlen a)) else Some 0);
      let msg := append_hdr (frh_bytes (Frh (r_family t) dst_len src_len (r_dsfield t) (u8 (r_table t)) (r_action t) (r_flags t))) msg in
      let msg := NLA_PUT_U32 FRA_TABLE (r_table t) msg in
      msg ← put_addr_if (has mask RULE_ATTR_SRC) h FRA_SRC (r_src t) msg;
      msg ← put_addr_if (has mask RULE_ATTR_DST) h FRA_DST (r_dst t) msg;
      let msg := put_if (has mask RULE_ATTR_IIFNAME) (NLA_PUT_STRING FRA_IIFNAME (r_iifname t)) msg in
      let msg := put_if (has mask RULE_ATTR_OIFNAME) (NLA_PUT_STRING FRA_OIFNAME (r_oifname t)) msg in
      let msg := put_if (has mask RULE_ATTR_PRIO) (NLA_PUT_U32 FRA_PRIORITY (r_prio t)) msg in
      let msg := put_if (has mask RULE_ATTR_MARK) (NLA_PUT_U32 FRA_FWMARK (r_mark t)) msg in
      let msg := put_if (has mask RULE_ATTR_MASK) (NLA_PUT_U32 FRA_FWMASK (r_mask t)) msg in
      let msg := put_if (has mask RULE_ATTR_GOTO) (NLA_PUT_U32 FRA_GOTO (r_goto t)) msg in
      let msg := put_if (has mask RULE_ATTR_FLOW) (NLA_PUT_U32 FRA_FLOW (r_flow t)) msg in
      Some (built_msg msg)
  end.

Definition rtnl_rule_build_add_request (default_msg_size : Z) (h : heap) (tmpl : rule) (flags : Z) : option (Z + nl_msg) :=
  build_rule_msg default_msg_size h tmpl RTM_NEWRULE (Z.lor NLM_F_CREATE flags).
Definition rtnl_rule_build_delete_request (default_msg_size : Z) (h : heap) (o : rule) (flags : Z) : option (Z + nl_msg) :=
  build_rule_msg default_msg_size h o RTM_DELRULE flags.

End Alloc.

(** ** What a rule says *)

Record rule_value := RuleValue {
  v_family : option Z;
  v_table : option Z;
  v_action : option Z;
  v_flags : option Z;
  v_iif : option bytes;
  v_oif : option bytes;
  v_prio : option Z;
  v_mark : option Z;
  v_mask : option Z;
  v_goto : option Z;
  v_src : option addr_value;
  v_dst : option addr_value;
  v_dsfield : option Z;
  v_flow : option Z
}.

Definition rule_view (h : heap) (o : rule) : rule_value :=
  let m := ce_mask o in
  let r := ce_data o in
  RuleValue (att m RULE_ATTR_FAMILY (r_family r)) (att m RULE_ATTR_TABLE (r_table r)) (att m RULE_ATTR_ACTION (r_action r))
    (att m RULE_ATTR_FLAGS (r_flags r)) (att m RULE_ATTR_IIFNAME (cstr (r_iifname r))) (att m RULE_ATTR_OIFNAME (cstr (r_oifname r)))
    (att m RULE_ATTR_PRIO (r_prio r)) (att m RULE_ATTR_MARK (r_mark r)) (att m RULE_ATTR_MASK (r_mask r)) (att m RULE_ATTR_GOTO (r_goto r))
    (if has m RULE_ATTR_SRC then addr_view <$> deref h (r_src r) else None)
    (if has m RULE_ATTR_DST then addr_view <$> deref h (r_dst r) else None)
    (att m RULE_ATTR_DSFIELD (r_dsfield r)) (att m RULE_ATTR_FLOW (r_flow r)).

Definition name_ok (s : bytes) : Prop := zlen s = 16 /\ strlen s < 16 /\ Forall byte_ok s.

Record rule_ok (h : heap) (o : rule) : Prop := {
  ok_family : 0 <= r_family (ce_data o) < 256;
  ok_action : 0 <= r_action (ce_data o) < 256;
  ok_dsfield : 0 <= r_dsfield (ce_data o) < 256;
  ok_table : 0 <= r_table (ce_data o) < 2 ^ 32;
  ok_flags : 0 <= r_flags (ce_data o) < 2 ^ 32;
  ok_prio : 0 <= r_prio (ce_data o) < 2 ^ 32;
  ok_mark : 0 <= r_mark (ce_data o) < 2 ^ 32;
  ok_mask : 0 <= r_mask (ce_data o) < 2 ^ 32;
  ok_goto : 0 <= r_goto (ce_data o) < 2 ^ 32;
  ok_flow : 0 <= r_flow (ce_data o) < 2 ^ 32;
  ok_iif : name_ok (r_iifname (ce_data o));
  ok_oif : name_ok (r_oifname (ce_data o));
  ok_src : ptr_ok h (ce_mask o) RULE_ATTR_SRC (r_src (ce_data o));
  ok_dst : ptr_ok h (ce_mask o) RULE_ATTR_DST (r_dst (ce_data o));
  ok_no_table : has (ce_mask o) RULE_ATTR_TABLE = false -> r_table (ce_data o) = 0;
  ok_no_action : has (ce_mask o) RULE_ATTR_ACTION = false -> r_action (ce_data o) = 0;
  ok_no_flags : has (ce_mask o) RULE_ATTR_FLAGS = false -> r_flags (ce_data o) = 0;
  ok_no_dsfield : has (ce_mask o) RULE_ATTR_DSFIELD = false -> r_dsfield (ce_data o) = 0
}.

(** An address that fits a message of the family. *)
Definition fits_hdr (h : heap) (family : Z) (p : option positive) : Prop :=
  forall a, deref h p = Some a -> a_family a = family /\ 0 <= a_prefixlen a < 256 /\ a_len a <= 255.

(** ** A rule and its message *)

(** The attributes of the message. *)
Definition rule_msg_attrs (h : heap) (o : rule) : list (Z * bytes) :=
  let m := ce_mask o in
  let r := ce_data o in
  [(FRA_TABLE, le_bytes 4 (r_table r))] ++
  on (has m RULE_ATTR_SRC) (FRA_SRC, default [] (addr_bytes <$> deref h (r_src r))) ++
  on (has m RULE_ATTR_DST) (FRA_DST, default [] (addr_bytes <$> deref h (r_dst r))) ++
  on (has m RULE_ATTR_IIFNAME) (FRA_IIFNAME, cstr (r_iifname r) ++ [0]) ++
  on (has m RULE_ATTR_OIFNAME) (FRA_OIFNAME, cstr (r_oifname r) ++ [0]) ++
  on (has m RULE_ATTR_PRIO) (FRA_PRIORITY, le_bytes 4 (r_prio r)) ++
  on (has m RULE_ATTR_MARK) (FRA_FWMARK, le_bytes 4 (r_mark r)) ++
  on (has m RULE_ATTR_MASK) (FRA_FWMASK, le_bytes 4 (r_mask r)) ++
  on (has m RULE_ATTR_GOTO) (FRA_GOTO, le_bytes 4 (r_goto r)) ++
  on (has m RULE_ATTR_FLOW) (FRA_FLOW, le_bytes 4 (r_flow r)).

(** The prefix length of an address of the rule. *)
Definition plen (h : heap) (p : option positive) : Z := default 0 (a_prefixlen <$> deref h p).

Definition rule_hdr (h : heap) (o : rule) : fib_rule_hdr :=
  let r := ce_data o in
  Frh (r_family r) (plen h (r_dst r)) (plen h (r_src r)) (r_dsfield r) (u8 (r_table r)) (r_action r) (r_flags r).

Lemma ptr_bytes h mask attr family p : ptr_ok h mask attr p -> fits_hdr h family p -> zlen (default [] (addr_bytes <$> deref h p)) <= 255.
Proof.
  unfold ptr_ok. destruct (has mask attr); [|by intros ->]. intros (a & E & Ha) Hf. rewrite E. cbn. rewrite addr_bytes_len by done. by apply Hf.
Qed.

Lemma name_bytes s : name_ok s -> zlen (cstr s ++ [0]) <= 16 /\ zlen (cstr s) < 16.
Proof. intros (_ & H & _). unfold strlen in H. rewrite zlen_app. change (zlen [0]) with 1. lia. Qed.

Lemma ptr_plen h mask attr family p : ptr_ok h mask attr p -> fits_hdr h family p ->
  (if has mask attr then a ← deref h p; Some (u8 (NlAddr.nl_addr_get_prefixlen a)) else Some 0) = Some (plen h p).
Proof.
  intros Hp Hf. unfold ptr_ok in Hp. unfold plen. destruct (has mask attr); [|by rewrite Hp].
  destruct Hp as (a & E & _). rewrite E. cbn. destruct (Hf a E) as (_ & Hl & _). unfold u8, NlAddr.nl_addr_get_prefixlen, u32.
  by rewrite (wrap_id 32), wrap_id by lia.
Qed.

Definition sendable (h : heap) (o : rule) : Prop :=
  fits_hdr h (r_family (ce_data o)) (r_src (ce_data o)) /\ fits_hdr h (r_family (ce_data o)) (r_dst (ce_data o)).

Lemma rule_attrs_small h o : rule_ok h o -> sendable h o -> Forall small (rule_msg_attrs h o) /\ zlen (enc_all (rule_msg_attrs h o)) <= 700.
Proof.
  intros Ho [Hs Hd]. pose proof (ptr_bytes _ _ _ _ _ (ok_src _ _ Ho) Hs). pose proof (ptr_bytes _ _ _ _ _ (ok_dst _ _ Ho) Hd).
  destruct (name_bytes _ (ok_iif _ _ Ho)) as [? _]. destruct (name_bytes _ (ok_oif _ _ Ho)) as [? _].
  assert (forall c t d, 0 <= t < 16384 -> zlen d <= 255 -> Forall small (on c (t, d))) as Hon.
  { intros [] t d Ht Hz; [|constructor]. apply Forall_singleton. split; cbn [fst snd]; lia. }
  assert (forall v, zlen (le_bytes 4 v) = 4) as H4 by (intros; apply zlen_le).
  unfold rule_msg_attrs. split.
  - repeat (apply Forall_app; split); try (apply Hon; [by vm_compute|rewrite ?H4; lia]). apply Forall_singleton. split; cbn [fst snd]; [by vm_compute|rewrite ?H4; lia].
  - rewrite !zlen_enc_app. change [(FRA_TABLE, le_bytes 4 (r_table (ce_data o)))] with (on true (FRA_TABLE, le_bytes 4 (r_table (ce_data o)))).
    repeat match goal with |- context [zlen (enc_all (on ?c (?t, ?d)))] =>
      let Hn := fresh in pose proof (zlen_enc_on c t d) as Hn; rewrite ?H4 in Hn; generalize dependent (zlen (enc_all (on c (t, d)))); intros end.
    lia.
Qed.

Section RoundTrip.
Context {al : Allocator}.
Hypothesis memory : malloc_total al.
(** The default size of messages. *)
Variable size : Z.
Hypothesis size_ok : 1024 <= size <= 2147483640.

Lemma build_rule_msg_ok h o cmd flags : rule_ok h o -> has (ce_mask o) RULE_ATTR_FAMILY = true ->
  sendable h o -> exists m,
  build_rule_msg size h o cmd flags = Some (inr m) /\ nm_size m = size /\ blank m /\
  msg_holds m (hdr_rest cmd flags) (frh_bytes (rule_hdr h o) ++ enc_all (rule_msg_attrs h o)).
Proof.
  intros Ho Hfam Hsend. pose proof Hsend as [Hsrc Hdst]. unfold build_rule_msg. rewrite Hfam. cbn [negb].
  destruct (alloc_simple_some size cmd flags memory) as [m0 E0]; [lia|]. rewrite E0.
  destruct (alloc_simple_holds size cmd flags m0) as (Hm0 & Hs0 & Hr0); [lia|done|].
  rewrite (ptr_plen _ _ _ _ _ (ok_src _ _ Ho) Hsrc), (ptr_plen _ _ _ _ _ (ok_dst _ _ Ho) Hdst). cbn [mbind option_bind].
  fold (rule_hdr h o). set (hdr := frh_bytes (rule_hdr h o)). assert (zlen hdr = 12) as Hz by done.
  destruct (append_hdr_fits m0 (hdr_rest cmd flags) hdr Hm0) as (m1 & E1 & Hr1 & Hm1); [by rewrite Hz|lia|]. rewrite E1.
  destruct (rule_attrs_small h o Ho Hsend) as [_ Hroom]. destruct (name_bytes _ (ok_iif _ _ Ho)) as [? _]. destruct (name_bytes _ (ok_oif _ _ Ho)) as [? _].
  assert (builds m1 (hdr_rest cmd flags) hdr (Some m1) []) as B0 by (split; [apply rebuilt_refl|by rewrite app_nil_r]).
  assert (forall v, zlen (le_bytes 4 v) <= 65531) as H4 by (intros; rewrite zlen_le; lia).
  apply (NLA_PUT_builds _ _ _ _ _ FRA_TABLE (le_bytes 4 (r_table (ce_data o)))) in B0; [|apply H4].
  unfold NLA_PUT_U32, NLA_PUT_STRING.
  edestruct (put_addr_builds _ _ _ _ _ h (has (ce_mask o) RULE_ATTR_SRC) FRA_SRC (r_src (ce_data o)) B0) as (o1 & -> & B1).
  { intros Hc. pose proof (ok_src _ _ Ho) as Hp. unfold ptr_ok in Hp. by rewrite Hc in Hp. }
  cbn [mbind option_bind].
  edestruct (put_addr_builds _ _ _ _ _ h (has (ce_mask o) RULE_ATTR_DST) FRA_DST (r_dst (ce_data o)) B1) as (o2 & -> & B2).
  { intros Hc. pose proof (ok_dst _ _ Ho) as Hp. unfold ptr_ok in Hp. by rewrite Hc in Hp. }
  cbn [mbind option_bind]. match goal with |- context [built_msg ?x] => set (final := x) end.
  assert (builds m1 (hdr_rest cmd flags) hdr final (rule_msg_attrs h o)) as B.
  { unfold final, rule_msg_attrs. rewrite !app_assoc. repeat (apply put_if_builds; [|first [apply H4|lia]]). exact B2. }
  destruct final as [m|]; cbn [builds built_msg] in *; [|destruct Hr1; lia]. destruct B as [Hr Hm]. exists m. split; [done|].
  pose proof (rebuilt_trans _ _ _ Hr1 Hr) as Hall. split; [destruct Hall; congruence|]. split; [by apply (blank_rebuilt _ _ Hall)|done].
Qed.

Lemma rule_attrs_pass h o : rule_ok h o -> Forall (passes FRA_MAX (Some rule_policy)) (rule_msg_attrs h o).
Proof.
  intros Ho. destruct (name_bytes _ (ok_iif _ _ Ho)) as [_ ?]. destruct (name_bytes _ (ok_oif _ _ Ho)) as [_ ?]. unfold rule_msg_attrs.
  repeat (apply Forall_app; split); try (apply passes_on; intros _); try (by apply passes_any); try (by apply passes_u32);
    try (by apply (passes_string _ _ _ _ 16)). apply Forall_singleton. by apply passes_u32.
Qed.

Lemma read_frh_bytes m rest f x : msg_holds m rest (frh_bytes f ++ x) -> 0 <= family f < 256 -> 0 <= dst_len f < 256 -> 0 <= src_len f < 256 ->
  0 <= tos f < 256 -> 0 <= table f < 256 -> 0 <= action f < 256 -> 0 <= flags f < 2 ^ 32 -> read_frh (nm_nlh m) (nlmsg_data 0) = Some f.
Proof.
  intros Hm H1 H2 H3 H4 H5 H6 H7. unfold read_frh. rewrite <- (Z.add_0_r (nlmsg_data 0)) at 1.
  rewrite !(hdr_field m rest (frh_bytes f) x) by (done || (change (zlen (frh_bytes f)) with 12; lia)). cbn [mbind option_bind].
  assert (frh_bytes f = [family f; dst_len f; src_len f; tos f; table f; 0; 0; action f] ++ le_bytes 4 (flags f)) as ->.
  { unfold frh_bytes. by rewrite !le_bytes_1. }
  set (l := _ ++ _). rewrite (get_byte l 0 0 (family f)), (get_byte l 1 1 (dst_len f)), (get_byte l 2 2 (src_len f)), (get_byte l 3 3 (tos f)),
    (get_byte l 4 4 (table f)), (get_byte l 7 7 (action f)) by done. unfold l. rewrite <- (app_nil_r (le_bytes 4 (flags f))).
  rewrite (get_le_at 8 4 [_; _; _; _; _; _; _; _] (flags f) []) by done. by destruct f.
Qed.

(** The rule that is read from a message: [p] and [q] are the new addresses. *)
Definition parsed_rule (h : heap) (t : rule) (type : Z) (p q : positive) : rule :=
  let m := ce_mask t in
  let r := ce_data t in
  step (has m RULE_ATTR_FLOW) RULE_ATTR_FLOW (set_r_flow (r_flow r))
  (step (has m RULE_ATTR_DST) RULE_ATTR_DST (set_r_dst (Some q))
  (step (has m RULE_ATTR_SRC) RULE_ATTR_SRC (set_r_src (Some p))
  (step (has m RULE_ATTR_GOTO) RULE_ATTR_GOTO (set_r_goto (r_goto r))
  (step (has m RULE_ATTR_MASK) RULE_ATTR_MASK (set_r_mask (r_mask r))
  (step (has m RULE_ATTR_MARK) RULE_ATTR_MARK (set_r_mark (r_mark r))
  (step (has m RULE_ATTR_PRIO) RULE_ATTR_PRIO (set_r_prio (r_prio r))
  (step (has m RULE_ATTR_OIFNAME) RULE_ATTR_OIFNAME (set_r_oifname (cstr (r_oifname r) ++ replicate (Z.to_nat (IFNAMSIZ - zlen (cstr (r_oifname r)))) 0))
  (step (has m RULE_ATTR_IIFNAME) RULE_ATTR_IIFNAME (set_r_iifname (cstr (r_iifname r) ++ replicate (Z.to_nat (IFNAMSIZ - zlen (cstr (r_iifname r)))) 0))
  (step true RULE_ATTR_TABLE (set_r_table (r_table r))
  (step (negb (r_dsfield r =? 0)) RULE_ATTR_DSFIELD (set_r_dsfield (r_dsfield r))
  (Object 1 type 15 (set_r_flags (r_flags r) (set_r_action (r_action r) (set_r_table (u8 (r_table r)) (set_r_family (r_family r) no_rule))))))))))))))).

(** The address read from an attribute, with the prefix length of the header. *)
Definition read_addr (h : heap) (family : Z) (p : option positive) : nl_addr :=
  NlAddr.nl_addr_set_prefixlen (attr_addr family (default [] (addr_bytes <$> deref h p))) (plen h p).

Ltac lookup_attr := cbv beta; unfold rule_msg_attrs; rewrite !last_of_app, !last_of_on;
  repeat match goal with |- context [?a =? ?b] => let v := eval vm_compute in (a =? b) in change (a =? b) with v end;
  rewrite ?andb_false_r, ?andb_true_r; reflexivity.

Lemma parse_rule_run user l h t type buf tb hp : rule_ok h t -> heap_ok user l hp ->
  sendable h t -> stored buf FRA_MAX tb (fun k => last_of k None (rule_msg_attrs h t)) -> exists p q h',
  parse_rule buf tb (rule_hdr h t) (Object 1 type 0 no_rule) hp = Some (parsed_rule h t type p q, true, h') /\
  heap_ok user ((if has (ce_mask t) RULE_ATTR_DST then Some q else None) :: (if has (ce_mask t) RULE_ATTR_SRC then Some p else None) :: l) h' /\
  (has (ce_mask t) RULE_ATTR_SRC = true -> h_addrs h' !! p = Some (read_addr h (r_family (ce_data t)) (r_src (ce_data t)))) /\
  (has (ce_mask t) RULE_ATTR_DST = true -> h_addrs h' !! q = Some (read_addr h (r_family (ce_data t)) (r_dst (ce_data t)))) /\
  (forall k a, h_addrs hp !! k = Some a -> h_addrs h' !! k = Some a) /\ h_links h' = h_links hp.
Proof.
  intros Ho Hh [Hs' Hd'] Hst. destruct (name_bytes _ (ok_iif _ _ Ho)) as [_ Hi]. destruct (name_bytes _ (ok_oif _ _ Ho)) as [_ Hoi].
  pose proof (ptr_bytes _ _ _ _ _ (ok_src _ _ Ho) Hs') as Hs. pose proof (ptr_bytes _ _ _ _ _ (ok_dst _ _ Ho) Hd') as Hd.
  unfold parse_rule. cbn [family dst_len src_len tos table action flags rule_hdr ce_refcnt ce_msgtype ce_data].
  rewrite (hbind_run _ _ _ _ _ (opt_u32_run buf FRA_MAX tb _ Hst FRA_TABLE _ _ true (r_table (ce_data t)) _ _ ltac:(done) ltac:(lookup_attr) (ok_table _ _ Ho))).
  assert (forall (s : bytes), zlen s < 16 -> zlen s < IFNAMSIZ <= 65536) as Hn by (intros; unfold IFNAMSIZ; lia).
  rewrite (hbind_run _ _ _ _ _ (opt_string_run buf FRA_MAX tb _ Hst FRA_IIFNAME _ _ _ (has (ce_mask t) RULE_ATTR_IIFNAME) (cstr (r_iifname (ce_data t))) _ _
    ltac:(done) ltac:(lookup_attr) (Hn _ Hi))).
  rewrite (hbind_run _ _ _ _ _ (opt_string_run buf FRA_MAX tb _ Hst FRA_OIFNAME _ _ _ (has (ce_mask t) RULE_ATTR_OIFNAME) (cstr (r_oifname (ce_data t))) _ _
    ltac:(done) ltac:(lookup_attr) (Hn _ Hoi))).
  rewrite (hbind_run _ _ _ _ _ (opt_u32_run buf FRA_MAX tb _ Hst FRA_PRIORITY _ _ (has (ce_mask t) RULE_ATTR_PRIO) (r_prio (ce_data t)) _ _ ltac:(done) ltac:(lookup_attr) (ok_prio _ _ Ho))).
  rewrite (hbind_run _ _ _ _ _ (opt_u32_run buf FRA_MAX tb _ Hst FRA_FWMARK _ _ (has (ce_mask t) RULE_ATTR_MARK) (r_mark (ce_data t)) _ _ ltac:(done) ltac:(lookup_attr) (ok_mark _ _ Ho))).
  rewrite (hbind_run _ _ _ _ _ (opt_u32_run buf FRA_MAX tb _ Hst FRA_FWMASK _ _ (has (ce_mask t) RULE_ATTR_MASK) (r_mask (ce_data t)) _ _ ltac:(done) ltac:(lookup_attr) (ok_mask _ _ Ho))).
  rewrite (hbind_run _ _ _ _ _ (opt_u32_run buf FRA_MAX tb _ Hst FRA_GOTO _ _ (has (ce_mask t) RULE_ATTR_GOTO) (r_goto (ce_data t)) _ _ ltac:(done) ltac:(lookup_attr) (ok_goto _ _ Ho))).
  match goal with |- context [opt_addr buf tb FRA_SRC ?f ?a ?g ?k ?o] =>
    destruct (opt_addr_run buf FRA_MAX tb _ Hst user l FRA_SRC f a g k (fun x => NlAddr.nl_addr_set_prefixlen x (plen h (r_src (ce_data t))))
      (has (ce_mask t) RULE_ATTR_SRC) (default [] (addr_bytes <$> deref h (r_src (ce_data t)))) o hp memory Hh) as (p & h1 & E1 & Hh1 & L1 & A1 & F1) end;
    [done|lookup_attr|lia|intros; by apply addr_set_prefixlen_run|done|].
  rewrite (hbind_run _ _ _ _ _ E1). cbn [negb].
  match goal with |- context [opt_addr buf tb FRA_DST ?f ?a ?g ?k ?o] =>
    destruct (opt_addr_run buf FRA_MAX tb _ Hst user _ FRA_DST f a g k (fun x => NlAddr.nl_addr_set_prefixlen x (plen h (r_dst (ce_data t))))
      (has (ce_mask t) RULE_ATTR_DST) (default [] (addr_bytes <$> deref h (r_dst (ce_data t)))) o h1 memory Hh1) as (q & h2 & E2 & Hh2 & L2 & A2 & F2) end;
    [done|lookup_attr|lia|intros; by apply addr_set_prefixlen_run|done|].
  rewrite (hbind_run _ _ _ _ _ E2). cbn [negb].
  rewrite (hbind_run _ _ _ _ _ (opt_u32_run buf FRA_MAX tb _ Hst FRA_FLOW _ _ (has (ce_mask t) RULE_ATTR_FLOW) (r_flow (ce_data t)) _ _ ltac:(done) ltac:(lookup_attr) (ok_flow _ _ Ho))).
  exists p, q, h2. split; [reflexivity|]. split; [done|]. rewrite A2, L2, L1. fold (read_addr h (r_family (ce_data t)) (r_dst (ce_data t))).
  fold (read_addr h (r_family (ce_data t)) (r_src (ce_data t))) in A1.
  assert (has (ce_mask t) RULE_ATTR_SRC = true -> has (ce_mask t) RULE_ATTR_DST = true -> p <> q) as Hne.
  { intros C1 C2 ->. specialize (F2 C2). rewrite A1, C1, lookup_insert_eq in F2. done. }
  split_and!; [| |intros k a Hk|done].
  - intros C1. rewrite A1, C1. destruct (has (ce_mask t) RULE_ATTR_DST); [rewrite lookup_insert_ne by (symmetry; auto)|]; by rewrite lookup_insert_eq.
  - intros ->. by rewrite lookup_insert_eq.
  - assert (h_addrs h1 !! k = Some a) as Hk1.
    { rewrite A1. destruct (has (ce_mask t) RULE_ATTR_SRC); [|done]. rewrite lookup_insert_ne; [done|]. intros ->. specialize (F1 eq_refl). congruence. }
    destruct (has (ce_mask t) RULE_ATTR_DST); [|done]. rewrite lookup_insert_ne; [done|]. intros ->. specialize (F2 eq_refl). congruence.
Qed.

Lemma plen_range h family p : fits_hdr h family p -> 0 <= plen h p < 256.
Proof. intros Hf. unfold plen. destruct (deref h p) as [a|] eqn:E; [|done]. by destruct (Hf a E) as (_ & ? & _). Qed.

(** What a message says of a rule: the table, the action and the flags are
    always there, a field DS of 0 is not. *)
Definition complete (v : rule_value) : rule_value :=
  RuleValue (v_family v) (Some (default 0 (v_table v))) (Some (default 0 (v_action v))) (Some (default 0 (v_flags v)))
    (v_iif v) (v_oif v) (v_prio v) (v_mark v) (v_mask v) (v_goto v) (v_src v) (v_dst v)
    (d ← v_dsfield v; if d =? 0 then None else Some d) (v_flow v).

Lemma read_addr_view h mask attr family p : ptr_ok h mask attr p -> has mask attr = true -> fits_hdr h family p ->
  Some (addr_view (read_addr h family p)) = addr_view <$> deref h p.
Proof.
  unfold ptr_ok. intros Hp Hm Hf. rewrite Hm in Hp. destruct Hp as (a & E & Ha). destruct (Hf a E) as [<- _].
  unfold read_addr, plen. rewrite E. cbn [fmap option_fmap option_map from_option id]. unfold addr_view. f_equal. f_equal.
  unfold addr_bytes at 1. cbn [a_len a_addr NlAddr.nl_addr_set_prefixlen attr_addr]. rewrite take_ge; [done|]. unfold zlen. lia.
Qed.

Lemma no_att h o : rule_ok h o -> forall attr x, (has (ce_mask o) attr = false -> x = 0) -> default 0 (att (ce_mask o) attr x) = x.
Proof. intros _ attr x Hx. unfold att. destruct (has (ce_mask o) attr); [done|]. symmetry. by apply Hx. Qed.

Ltac steps_mask := rewrite ?step_mask; cbn [ce_mask];
  repeat match goal with |- context [has ?a ?b] =>
    lazymatch a with ce_mask _ => fail | _ => let v := eval vm_compute in (has a b) in change (has a b) with v end end;
  rewrite ?andb_false_r, ?andb_true_r, ?orb_false_r, ?orb_true_r; cbn [orb].

Ltac field_of g v := rewrite ?(step_same g) by done; rewrite (step_set g _ _ _ v) by done; rewrite ?(step_same g) by done.

Lemma parsed_rule_view h h' t type p q : rule_ok h t -> has (ce_mask t) RULE_ATTR_FAMILY = true ->
  sendable h t ->
  (has (ce_mask t) RULE_ATTR_SRC = true -> h_addrs h' !! p = Some (read_addr h (r_family (ce_data t)) (r_src (ce_data t)))) ->
  (has (ce_mask t) RULE_ATTR_DST = true -> h_addrs h' !! q = Some (read_addr h (r_family (ce_data t)) (r_dst (ce_data t)))) ->
  rule_view h' (parsed_rule h t type p q) = complete (rule_view h t).
Proof.
  intros Ho Hfam [Hfs Hfd] Hp Hq. unfold rule_view, complete. cbn [v_family v_table v_action v_flags v_iif v_oif v_prio v_mark v_mask v_goto v_src v_dst v_dsfield v_flow].
  unfold parsed_rule. f_equal.
  all: rewrite ?(no_att h t Ho) by (first [apply (ok_no_table _ _ Ho)|apply (ok_no_action _ _ Ho)|apply (ok_no_flags _ _ Ho)]).
  - unfold att. steps_mask. by rewrite Hfam, !step_same.
  - unfold att. steps_mask. field_of r_table (r_table (ce_data t)). done.
  - unfold att. steps_mask. by rewrite !(step_same r_action).
  - unfold att. steps_mask. by rewrite !(step_same r_flags).
  - unfold att. steps_mask. field_of r_iifname (cstr (r_iifname (ce_data t)) ++ replicate (Z.to_nat (IFNAMSIZ - zlen (cstr (r_iifname (ce_data t))))) 0).
    destruct (has (ce_mask t) RULE_ATTR_IIFNAME); [|done]. by rewrite cstr_padded.
  - unfold att. steps_mask. field_of r_oifname (cstr (r_oifname (ce_data t)) ++ replicate (Z.to_nat (IFNAMSIZ - zlen (cstr (r_oifname (ce_data t))))) 0).
    destruct (has (ce_mask t) RULE_ATTR_OIFNAME); [|done]. by rewrite cstr_padded.
  - unfold att. steps_mask. field_of r_prio (r_prio (ce_data t)). by destruct (has (ce_mask t) RULE_ATTR_PRIO).
  - unfold att. steps_mask. field_of r_mark (r_mark (ce_data t)). by destruct (has (ce_mask t) RULE_ATTR_MARK).
  - unfold att. steps_mask. field_of r_mask (r_mask (ce_data t)). by destruct (has (ce_mask t) RULE_ATTR_MASK).
  - unfold att. steps_mask. field_of r_goto (r_goto (ce_data t)). by destruct (has (ce_mask t) RULE_ATTR_GOTO).
  - steps_mask. field_of r_src (Some p). destruct (has (ce_mask t) RULE_ATTR_SRC) eqn:C; [|done]. unfold deref at 1. cbn [mbind option_bind].
    rewrite (Hp eq_refl). cbn [fmap option_fmap option_map]. by apply (read_addr_view _ _ _ _ _ (ok_src _ _ Ho)).
  - steps_mask. field_of r_dst (Some q). destruct (has (ce_mask t) RULE_ATTR_DST) eqn:C; [|done]. unfold deref at 1. cbn [mbind option_bind].
    rewrite (Hq eq_refl). cbn [fmap option_fmap option_map]. by apply (read_addr_view _ _ _ _ _ (ok_dst _ _ Ho)).
  - unfold att. steps_mask. field_of r_dsfield (r_dsfield (ce_data t)). pose proof (ok_no_dsfield _ _ Ho) as Hds.
    destruct (has (ce_mask t) RULE_ATTR_DSFIELD); cbn; [|rewrite Hds by done; done]. by destruct (_ =? 0).
  - unfold att. steps_mask. field_of r_flow (r_flow (ce_data t)). by destruct (has (ce_mask t) RULE_ATTR_FLOW).
Qed.

(** A message that holds a rule is read back, whatever else its header says. *)
Lemma rule_parse_holds user l h t hp cmd m rest : rule_ok h t -> has (ce_mask t) RULE_ATTR_FAMILY = true -> sendable h t ->
  heap_ok user l hp -> nm_size m <= 2147483640 -> rd 4 2 (nm_nlh m) = Some cmd ->
  msg_holds m rest (frh_bytes (rule_hdr h t) ++ enc_all (rule_msg_attrs h t)) -> exists o h',
  (forall pp_cb, rule_msg_parser pp_cb (nm_nlh m) hp = ('(o, err) ← pp_cb o; r ← rtnl_rule_put (Some o); mret (err, r)) h') /\
  ce_refcnt o = 1 /\ ce_msgtype o = cmd /\ rule_view h' o = complete (rule_view h t) /\
  heap_ok user (r_dst (ce_data o) :: r_src (ce_data o) :: l) h' /\
  (forall k a, h_addrs hp !! k = Some a -> h_addrs h' !! k = Some a).
Proof.
  intros Ho Hfam Hsend Hh Hsz Hcmd Hm. pose proof Hsend as [Hfs Hfd].
  destruct (rule_attrs_small h t Ho Hsend) as [Hsmall _].
  destruct (nlmsg_parse_holds m _ _ _ 12 FRA_MAX (Some rule_policy) Hm) as (tb & Etb & Hst & _); [lia|done|done|done|done|by apply rule_attrs_pass|].
  destruct (parse_rule_run user l h t cmd (nm_nlh m) tb hp Ho Hh Hsend Hst) as (p & q & h' & E & Hh' & Hp & Hq & Hkeep & _).
  exists (parsed_rule h t cmd p q), h'. split_and!; [|by unfold parsed_rule; rewrite !step_refcnt|by unfold parsed_rule; rewrite !step_msgtype| | |done].
  - intros pp_cb. unfold rule_msg_parser, rtnl_rule_alloc, obj_alloc. rewrite memory by (unfold rule_size; lia).
    rewrite (hbind_run _ _ _ _ _ (of_option_run _ _ hp Hcmd)). cbn [ce_refcnt ce_mask ce_data].
    rewrite (hbind_run _ _ _ _ _ (of_option_run _ _ hp Etb)). change (0 <? 0) with false. cbv iota.
    rewrite (hbind_run _ _ _ _ _ (of_option_run _ tb hp eq_refl)).
    rewrite (hbind_run _ _ _ (rule_hdr h t) hp); [|apply of_option_run; eapply read_frh_bytes; [exact Hm|..]].
    { by rewrite (hbind_run _ _ _ _ _ E). }
    all: cbn [rule_hdr family dst_len src_len tos table action NlRule.flags]; try apply Ho.
    + by eapply plen_range.
    + by eapply plen_range.
    + unfold u8, wrap. by apply Z.mod_pos_bound.
  - by apply parsed_rule_view.
  - unfold parsed_rule. rewrite ?(step_same r_dst) by done. rewrite (step_set r_dst _ _ _ (Some q)) by done. rewrite ?(step_same r_dst) by done.
    rewrite ?(step_same r_src) by done. rewrite (step_set r_src _ _ _ (Some p)) by done. rewrite ?(step_same r_src) by done. exact Hh'.
Qed.

(** A rule survives the wire: the message [build_rule_msg] makes of a
    well-formed rule with a family, whose addresses have that family and a
    prefix length of a byte, is accepted by [rule_msg_parser], and the callback
    gets a new rule, held once, with the type of the message and the same
    attributes and values; only the table, the action and the flags are filled
    in with 0 if they were not there, and a DS field of 0 is dropped.  Both
    rules may live on different heaps. *)
Theorem rule_build_parse user l h t hp cmd flags : rule_ok h t -> has (ce_mask t) RULE_ATTR_FAMILY = true ->
  sendable h t ->
  0 <= cmd < 65536 -> heap_ok user l hp -> exists m o h',
  build_rule_msg size h t cmd flags = Some (inr m) /\
  (forall pp_cb, rule_msg_parser pp_cb (nm_nlh m) hp = ('(o, err) ← pp_cb o; r ← rtnl_rule_put (Some o); mret (err, r)) h') /\
  ce_refcnt o = 1 /\ ce_msgtype o = cmd /\ rule_view h' o = complete (rule_view h t) /\
  heap_ok user (r_dst (ce_data o) :: r_src (ce_data o) :: l) h' /\
  (forall k a, h_addrs hp !! k = Some a -> h_addrs h' !! k = Some a).
Proof.
  intros Ho Hfam Hsend Hcmd Hh. destruct (build_rule_msg_ok h t cmd flags Ho Hfam Hsend) as (m & Em & Hsz & _ & Hm).
  destruct (rule_parse_holds user l h t hp cmd m _ Ho Hfam Hsend Hh ltac:(lia) (type_field _ _ _ _ Hm Hcmd) Hm) as (o & h' & H). by exists m, o, h'.
Qed.

End RoundTrip.

(** ** Setters *)

(** The calls of a user. *)
Inductive rule_op :=
  | SetFamily (v : Z) | SetPrio (v : Z) | SetMark (v : Z) | SetMask (v : Z) | SetTable (v : Z) | SetDsfield (v : Z)
  | SetAction (v : Z) | SetRealms (v : Z) | SetGoto (v : Z)
  | SetSrc (p : positive) | SetDst (p : positive) | SetIif (dev : bytes) | SetOif (dev : bytes).

Definition run_op (op : rule_op) (o : rule) : H (rule * Z) :=
  match op with
  | SetFamily v => mret (rtnl_rule_set_family o v, 0)
  | SetPrio v => mret (rtnl_rule_set_prio o v, 0)
  | SetMark v => mret (rtnl_rule_set_mark o v, 0)
  | SetMask v => mret (rtnl_rule_set_mask o v, 0)
  | SetTable v => mret (rtnl_rule_set_table o v, 0)
  | SetDsfield v => mret (rtnl_rule_set_dsfield o v, 0)
  | SetAction v => mret (rtnl_rule_set_action o v, 0)
  | SetRealms v => mret (rtnl_rule_set_realms o v, 0)
  | SetGoto v => mret (rtnl_rule_set_goto o v, 0)
  | SetSrc p => rtnl_rule_set_src o p
  | SetDst p => rtnl_rule_set_dst o p
  | SetIif dev => mret (rtnl_rule_set_iif o dev)
  | SetOif dev => mret (rtnl_rule_set_oif o dev)
  end.

(** The results are collected. *)
Fixpoint run_ops (ops : list rule_op) (o : rule) : H (rule * list Z) :=
  match ops with
  | [] => mret (o, [])
  | op :: ops' => '(o, err) ← run_op op o; '(o, errs) ← run_ops ops' o; mret (o, err :: errs)
  end.

(** What the calls mean; [addrs] has the values of the addresses. *)
Definition value_op (addrs : positive -> addr_value) (op : rule_op) (v : rule_value) : rule_value * Z :=
  let '(RuleValue fam tbl act fl iif oif prio mark mask goto src dst ds flow) := v in
  let fits p := match fam with Some f => av_family (addrs p) =? f | None => true end in
  match op with
  | SetFamily x => (RuleValue (Some (u8 x)) tbl act fl iif oif prio mark mask goto src dst ds flow, 0)
  | SetPrio x => (RuleValue fam tbl act fl iif oif (Some (u32 x)) mark mask goto src dst ds flow, 0)
  | SetMark x => (RuleValue fam tbl act fl iif oif prio (Some (u32 x)) mask goto src dst ds flow, 0)
  | SetMask x => (RuleValue fam tbl act fl iif oif prio mark (Some (u32 x)) goto src dst ds flow, 0)
  | SetTable x => (RuleValue fam (Some (u32 x)) act fl iif oif prio mark mask goto src dst ds flow, 0)
  | SetDsfield x => (RuleValue fam tbl act fl iif oif prio mark mask goto src dst (Some (u8 x)) flow, 0)
  | SetAction x => (RuleValue fam tbl (Some (u8 x)) fl iif oif prio mark mask goto src dst ds flow, 0)
  | SetRealms x => (RuleValue fam tbl act fl iif oif prio mark mask goto src dst ds (Some (u32 x)), 0)
  | SetGoto x => (RuleValue fam tbl act fl iif oif prio mark mask (Some (u32 x)) src dst ds flow, 0)
  | SetSrc p =>
      if fits p then (RuleValue (Some (av_family (addrs p))) tbl act fl iif oif prio mark mask goto (Some (addrs p)) dst ds flow, 0)
      else (v, - NLE_AF_MISMATCH)
  | SetDst p =>
      if fits p then (RuleValue (Some (av_family (addrs p))) tbl act fl iif oif prio mark mask goto src (Some (addrs p)) ds flow, 0)
      else (v, - NLE_AF_MISMATCH)
  | SetIif dev =>
      if strlen dev <=? 15 then (RuleValue fam tbl act fl (Some (cstr dev)) oif prio mark mask goto src dst ds flow, 0) else (v, - NLE_RANGE)
  | SetOif dev =>
      if strlen dev <=? 15 then (RuleValue fam tbl act fl iif (Some (cstr dev)) prio mark mask goto src dst ds flow, 0) else (v, - NLE_RANGE)
  end.

Fixpoint value_ops (addrs : positive -> addr_value) (ops : list rule_op) (v : rule_value) : rule_value * list Z :=
  match ops with
  | [] => (v, [])
  | op :: ops' => let '(v, err) := value_op addrs op v in let '(v, errs) := value_ops addrs ops' v in (v, err :: errs)
  end.

Ltac known_bits := rewrite ?has_lor;
  repeat match goal with |- context [has ?a ?b] =>
    lazymatch a with ce_mask _ => fail | _ => let v := eval vm_compute in (has a b) in change (has a b) with v end end;
  rewrite ?orb_false_r, ?orb_true_r.

(** A well-formed rule stays so when a field other than the addresses is set. *)
Ltac keep_ok := let Ho := fresh in intros Ho; destruct Ho; constructor;
  cbn [assign ce_data ce_mask set_r_family set_r_action set_r_dsfield set_r_table set_r_flags set_r_prio set_r_mark set_r_mask set_r_goto set_r_flow
       set_r_iifname set_r_oifname r_family r_action r_dsfield r_table r_flags r_prio r_mark r_mask r_goto r_flow r_src r_dst r_iifname r_oifname];
  unfold ptr_ok in *; known_bits; try assumption; try (intros; discriminate); auto.

(** The rule, its references and the values of the addresses. *)
Record good (user : positive -> Z) (l : list (option positive)) (addrs : positive -> addr_value) (h : heap) (o : rule) : Prop := {
  g_ok : rule_ok h o;
  g_heap : heap_ok user (r_src (ce_data o) :: r_dst (ce_data o) :: l) h;
  g_values : values_ok addrs h
}.

(** The user holds the addresses that are passed. *)
Definition op_ok (user : positive -> Z) (l : list (option positive)) (op : rule_op) : Prop :=
  match op with
  | SetSrc p | SetDst p => 1 <= user p /\ user p + refs l p < INT_MAX - 1
  | SetIif dev | SetOif dev => Forall byte_ok dev
  | _ => True
  end.

(** A field other than an address is set. *)
Lemma field_good user l addrs h o attr f : good user l addrs h o -> (rule_ok h o -> rule_ok h (assign attr f o)) ->
  r_src (f (ce_data o)) = r_src (ce_data o) -> r_dst (f (ce_data o)) = r_dst (ce_data o) -> good user l addrs h (assign attr f o).
Proof. intros [Ho Hh Hv] Hok Es Ed. split; [by apply Hok| |done]. cbn [ce_data assign]. by rewrite Es, Ed. Qed.

Lemma set_name_ok name dev : name_ok name -> Forall byte_ok dev -> strlen dev <= 15 -> name_ok (set_name name dev) /\ cstr (set_name name dev) = cstr dev.
Proof.
  intros (Hz & _ & Hb) Hd Hl. assert (NlAddr.holds (set_name name dev) (cstr dev) 16) as [E1 E2].
  { unfold set_name. rewrite <- Hz. apply NlAddr.splice_text; [apply NlAddr.cstr_text_ok|]. unfold strlen in Hl. lia. }
  split; [|done]. split; [done|]. split; [unfold strlen; rewrite E1; unfold strlen in Hl; lia|]. unfold set_name, splice.
  assert (Forall byte_ok (cstr dev)) by (rewrite <- NlAddr.take_cstr; by apply Forall_take).
  repeat (apply Forall_app; split); [by apply Forall_take|done|by apply Forall_singleton|by apply Forall_drop].
Qed.

Ltac field_op := match goal with Hg : good _ _ _ ?h ?o |- _ => eexists _, _, h; split; [reflexivity|]; split;
  [unfold rule_view; cbn [assign ce_data ce_mask]; unfold att; known_bits; reflexivity
  |split; [apply field_good; [exact Hg|keep_ok|reflexivity|reflexivity]|split; [apply keeps_refl|reflexivity]]] end.

(** The calls of [__assign_addr] behind its check. *)
Lemma assign_addr_run user addrs h o pos set_pos p flag l' : heap_ok user (pos (ce_data o) :: l') h -> values_ok addrs h ->
  (forall r v, pos (set_r_family v r) = pos r) -> 1 <= user p -> user p + refs l' p < INT_MAX -> 
  let fits := negb (has (ce_mask o) RULE_ATTR_FAMILY) || (av_family (addrs p) =? r_family (ce_data o)) in
  let r := if has (ce_mask o) RULE_ATTR_FAMILY then ce_data o else set_r_family (av_family (addrs p)) (ce_data o) in
  if fits then exists h', __assign_addr o pos set_pos p flag h = Some (assign (Z.lor flag RULE_ATTR_FAMILY) (fun _ => set_pos (Some p) r) o, 0, h') /\
    heap_ok user (Some p :: l') h' /\ keeps h h'
  else __assign_addr o pos set_pos p flag h = Some (o, - NLE_AF_MISMATCH, h).
Proof.
  intros Hh Hv Hpos Hu Hm. cbv zeta. destruct (heap_ok_alive _ _ _ p Hh) as (a & Ea & _).
  { pose proof (refs_nonneg (pos (ce_data o) :: l') p). lia. }
  destruct (Hv p a Ea) as (-> & _ & Hf). unfold __assign_addr. rewrite (hbind_run _ _ _ _ _ (load_run _ _ _ Ea)). cbn [av_family addr_view].
  destruct (replace_ptr user l' h (pos (ce_data o)) p Hh Hu Hm) as (h' & E & Hh' & Hk). unfold u8. rewrite wrap_id by exact Hf.
  destruct (has (ce_mask o) RULE_ATTR_FAMILY); cbn [negb orb andb].
  - destruct (a_family a =? r_family (ce_data o)); cbn [negb]; [|done]. exists h'. split; [|done]. by rewrite (hseq_run _ _ _ _ _ E).
  - exists h'. split; [|done]. rewrite Hpos. by rewrite (hseq_run _ _ _ _ _ E).
Qed.

(** An address that is held has its value. *)
Lemma held_value user l addrs h p : heap_ok user (Some p :: l) h -> values_ok addrs h -> exists a, deref h (Some p) = Some a /\ addr_ok a /\
  addrs p = addr_view a.
Proof.
  intros Hh Hv. destruct (heap_ok_alive _ _ _ p Hh) as (a & E & _).
  { destruct Hh as [Hu _]. specialize (Hu p). pose proof (refs_in (Some p :: l) p (list_elem_of_here _ _)). lia. }
  destruct (Hv p a E) as (E1 & E2 & _). exists a. split; [exact E|]. done.
Qed.

Ltac assigned_ok := match goal with Ho : rule_ok _ _ |- _ => destruct Ho end; constructor;
  cbn [assign ce_data ce_mask set_r_family set_r_src set_r_dst r_family r_action r_dsfield r_table r_flags r_prio r_mark r_mask r_goto r_flow r_src r_dst r_iifname r_oifname];
  unfold ptr_ok in *; known_bits; try assumption; eauto.

Lemma set_src_refines user l addrs h o p : good user l addrs h o -> op_ok user l (SetSrc p) -> exists o' err h',
  rtnl_rule_set_src o p h = Some (o', err, h') /\ (rule_view h' o', err) = value_op addrs (SetSrc p) (rule_view h o) /\ good user l addrs h' o' /\
  keeps h h' /\ ce_refcnt o' = ce_refcnt o.
Proof.
  intros Hg [Hu Hm]. pose proof (g_heap _ _ _ _ _ Hg) as Hh. pose proof (g_values _ _ _ _ _ Hg) as Hv. pose proof (g_ok _ _ _ _ _ Hg) as Ho.
  pose proof (assign_addr_run user addrs h o r_src set_r_src p RULE_ATTR_SRC (r_dst (ce_data o) :: l) Hh Hv ltac:(done) Hu) as Hrun.
  rewrite refs_cons in Hrun. specialize (Hrun ltac:(destruct (decide _); lia)). cbv zeta in Hrun. unfold rtnl_rule_set_src.
  unfold rule_view at 2. cbn [value_op]. unfold att at 1.
  assert (forall h', heap_ok user (Some p :: r_dst (ce_data o) :: l) h' -> keeps h h' ->
    ptr_ok h' (ce_mask o) RULE_ATTR_DST (r_dst (ce_data o)) /\ addr_view <$> deref h' (r_dst (ce_data o)) = addr_view <$> deref h (r_dst (ce_data o))) as Hdst.
  { intros h' Hh' Hk. apply (ptr_keep user (Some p :: l)); [apply (ok_dst _ _ Ho)|done|]. by rewrite Permutation_swap. }
  destruct (has (ce_mask o) RULE_ATTR_FAMILY) eqn:Cf; cbn [negb orb] in Hrun.
  - destruct (Z.eqb_spec (av_family (addrs p)) (r_family (ce_data o))) as [Ef|_].
    + destruct Hrun as (h' & E & Hh' & Hk). pose proof (values_keep _ _ _ Hv Hk) as Hv'. destruct (held_value _ _ _ _ _ Hh' Hv') as (a & Ea & Ha & Va).
      destruct (Hdst h' Hh' Hk) as [Pd Vd]. eexists _, _, h'. split; [exact E|]. split_and!; [|split|exact Hk|reflexivity].
      * unfold rule_view. cbn [assign ce_data ce_mask set_r_src r_family r_action r_dsfield r_table r_flags r_prio r_mark r_mask r_goto r_flow r_src r_dst r_iifname r_oifname].
        unfold att. known_bits. rewrite Ea, Vd, Ef. cbn [fmap option_fmap option_map]. by rewrite Va.
      * assigned_ok.
      * exact Hh'.
      * exact Hv'.
    + eexists _, _, h. split; [exact Hrun|]. split_and!; [unfold rule_view, att; by rewrite Cf|done|apply keeps_refl|reflexivity].
  - destruct Hrun as (h' & E & Hh' & Hk). pose proof (values_keep _ _ _ Hv Hk) as Hv'. destruct (held_value _ _ _ _ _ Hh' Hv') as (a & Ea & Ha & Va).
    destruct (Hdst h' Hh' Hk) as [Pd Vd]. eexists _, _, h'. split; [exact E|]. split_and!; [|split|exact Hk|reflexivity].
    + unfold rule_view. cbn [assign ce_data ce_mask set_r_src set_r_family r_family r_action r_dsfield r_table r_flags r_prio r_mark r_mask r_goto r_flow r_src r_dst r_iifname r_oifname].
      unfold att. known_bits. rewrite Ea, Vd. cbn [fmap option_fmap option_map]. by rewrite Va.
    + assert (0 <= av_family (addrs p) < 256) by (destruct (Hv' p a Ea) as (-> & _ & ?); done). assigned_ok.
    + exact Hh'.
    + exact Hv'.
Qed.

Lemma set_dst_refines user l addrs h o p : good user l addrs h o -> op_ok user l (SetDst p) -> exists o' err h',
  rtnl_rule_set_dst o p h = Some (o', err, h') /\ (rule_view h' o', err) = value_op addrs (SetDst p) (rule_view h o) /\ good user l addrs h' o' /\
  keeps h h' /\ ce_refcnt o' = ce_refcnt o.
Proof.
  intros Hg [Hu Hm]. pose proof (g_heap _ _ _ _ _ Hg) as Hh. pose proof (g_values _ _ _ _ _ Hg) as Hv. pose proof (g_ok _ _ _ _ _ Hg) as Ho.
  pose proof (assign_addr_run user addrs h o r_dst set_r_dst p RULE_ATTR_DST (r_src (ce_data o) :: l) ltac:(by rewrite Permutation_swap) Hv ltac:(done) Hu) as Hrun.
  rewrite refs_cons in Hrun. specialize (Hrun ltac:(destruct (decide _); lia)). cbv zeta in Hrun. unfold rtnl_rule_set_dst.
  unfold rule_view at 2. cbn [value_op]. unfold att at 1.
  assert (forall h', heap_ok user (Some p :: r_src (ce_data o) :: l) h' -> keeps h h' ->
    ptr_ok h' (ce_mask o) RULE_ATTR_SRC (r_src (ce_data o)) /\ addr_view <$> deref h' (r_src (ce_data o)) = addr_view <$> deref h (r_src (ce_data o))) as Hsrc.
  { intros h' Hh' Hk. apply (ptr_keep user (Some p :: l)); [apply (ok_src _ _ Ho)|done|]. by rewrite Permutation_swap. }
  destruct (has (ce_mask o) RULE_ATTR_FAMILY) eqn:Cf; cbn [negb orb] in Hrun.
  - destruct (Z.eqb_spec (av_family (addrs p)) (r_family (ce_data o))) as [Ef|_].
    + destruct Hrun as (h' & E & Hh' & Hk). pose proof (values_keep _ _ _ Hv Hk) as Hv'. destruct (held_value _ _ _ _ _ Hh' Hv') as (a & Ea & Ha & Va).
      destruct (Hsrc h' Hh' Hk) as [Pd Vd]. eexists _, _, h'. split; [exact E|]. split_and!; [|split|exact Hk|reflexivity].
      * unfold rule_view. cbn [assign ce_data ce_mask set_r_dst r_family r_action r_dsfield r_table r_flags r_prio r_mark r_mask r_goto r_flow r_src r_dst r_iifname r_oifname].
        unfold att. known_bits. rewrite Ea, Vd, Ef. cbn [fmap option_fmap option_map]. by rewrite Va.
      * assigned_ok.
      * cbn [assign ce_data set_r_dst set_r_family r_src r_dst]. by rewrite Permutation_swap.
      * exact Hv'.
    + eexists _, _, h. split; [exact Hrun|]. split_and!; [unfold rule_view, att; by rewrite Cf|done|apply keeps_refl|reflexivity].
  - destruct Hrun as (h' & E & Hh' & Hk). pose proof (values_keep _ _ _ Hv Hk) as Hv'. destruct (held_value _ _ _ _ _ Hh' Hv') as (a & Ea & Ha & Va).
    destruct (Hsrc h' Hh' Hk) as [Pd Vd]. eexists _, _, h'. split; [exact E|]. split_and!; [|split|exact Hk|reflexivity].
    + unfold rule_view. cbn [assign ce_data ce_mask set_r_dst set_r_family r_family r_action r_dsfield r_table r_flags r_prio r_mark r_mask r_goto r_flow r_src r_dst r_iifname r_oifname].
      unfold att. known_bits. rewrite Ea, Vd. cbn [fmap option_fmap option_map]. by rewrite Va.
    + assert (0 <= av_family (addrs p) < 256) by (destruct (Hv' p a Ea) as (-> & _ & ?); done). assigned_ok.
    + cbn [assign ce_data set_r_dst set_r_family r_src r_dst]. by rewrite Permutation_swap.
    + exact Hv'.
Qed.

Lemma run_op_refines user l addrs h o op : good user l addrs h o -> op_ok user l op -> exists o' err h',
  run_op op o h = Some (o', err, h') /\ (rule_view h' o', err) = value_op addrs op (rule_view h o) /\ good user l addrs h' o' /\
  keeps h h' /\ ce_refcnt o' = ce_refcnt o.
Proof.
  intros Hg Hop. assert (forall v, 0 <= u32 v < 2 ^ 32) as H32 by (intros; by apply wrap_range). assert (forall v, 0 <= u8 v < 256) as H8 by (intros; by apply wrap_range).
  destruct op as [v|v|v|v|v|v|v|v|v|p|p|dev|dev]; cbn [run_op value_op].
  all: unfold rtnl_rule_set_family, rtnl_rule_set_prio, rtnl_rule_set_mark, rtnl_rule_set_mask, rtnl_rule_set_table, rtnl_rule_set_dsfield,
    rtnl_rule_set_action, rtnl_rule_set_realms, rtnl_rule_set_goto.
  1-9: by field_op.
  - by apply set_src_refines.
  - by apply set_dst_refines.
  - unfold rtnl_rule_set_iif. change (IFNAMSIZ - 1) with 15. unfold rule_view at 2. cbn [value_op]. rewrite Z.gtb_ltb.
    destruct (Z.leb_spec (strlen dev) 15) as [Hl|Hl].
    + rewrite (proj2 (Z.ltb_ge 15 _)) by lia. destruct (set_name_ok _ _ (ok_iif _ _ (g_ok _ _ _ _ _ Hg)) Hop Hl) as [Hn En].
      eexists _, _, h. split; [reflexivity|]. split; [|split; [apply field_good; [exact Hg|keep_ok|reflexivity|reflexivity]|split; [apply keeps_refl|reflexivity]]].
      unfold rule_view. cbn [assign ce_data ce_mask set_r_iifname r_family r_action r_dsfield r_table r_flags r_prio r_mark r_mask r_goto r_flow r_src r_dst r_iifname r_oifname].
      unfold att. known_bits. by rewrite En.
    + rewrite (proj2 (Z.ltb_lt 15 _)) by lia. eexists _, _, h. split; [reflexivity|]. split; [done|]. split; [done|]. split; [apply keeps_refl|done].
  - unfold rtnl_rule_set_oif. change (IFNAMSIZ - 1) with 15. unfold rule_view at 2. cbn [value_op]. rewrite Z.gtb_ltb.
    destruct (Z.leb_spec (strlen dev) 15) as [Hl|Hl].
    + rewrite (proj2 (Z.ltb_ge 15 _)) by lia. destruct (set_name_ok _ _ (ok_oif _ _ (g_ok _ _ _ _ _ Hg)) Hop Hl) as [Hn En].
      eexists _, _, h. split; [reflexivity|]. split; [|split; [apply field_good; [exact Hg|keep_ok|reflexivity|reflexivity]|split; [apply keeps_refl|reflexivity]]].
      unfold rule_view. cbn [assign ce_data ce_mask set_r_oifname r_family r_action r_dsfield r_table r_flags r_prio r_mark r_mask r_goto r_flow r_src r_dst r_iifname r_oifname].
      unfold att. known_bits. by rewrite En.
    + rewrite (proj2 (Z.ltb_lt 15 _)) by lia. eexists _, _, h. split; [reflexivity|]. split; [done|]. split; [done|]. split; [apply keeps_refl|done].
Qed.

Lemma run_ops_refines user l addrs ops : forall h o, good user l addrs h o -> Forall (op_ok user l) ops -> exists o' errs h',
  run_ops ops o h = Some (o', errs, h') /\ (rule_view h' o', errs) = value_ops addrs ops (rule_view h o) /\ good user l addrs h' o' /\
  keeps h h' /\ ce_refcnt o' = ce_refcnt o.
Proof.
  induction ops as [|op ops IH]; intros h o Hg Hops; cbn [run_ops value_ops].
  { exists o, [], h. split; [done|]. split; [done|]. split; [done|]. split; [apply keeps_refl|done]. }
  apply list.Forall_cons in Hops as [Hop Hops]. destruct (run_op_refines user l addrs h o op Hg Hop) as (o1 & err & h1 & E1 & V1 & G1 & K1 & R1).
  destruct (IH h1 o1 G1 Hops) as (o2 & errs & h2 & E2 & V2 & G2 & K2 & R2). exists o2, (err :: errs), h2.
  rewrite (hbind_run _ _ _ _ _ E1), (hbind_run _ _ _ _ _ E2). split; [done|]. rewrite <- V1, <- V2.
  split; [done|]. split; [done|]. split; [by eapply keeps_trans|congruence].
Qed.

Lemma rule_put_ok user l h o : heap_ok user (r_src (ce_data o) :: r_dst (ce_data o) :: l) h -> ce_refcnt o = 1 -> exists h',
  rtnl_rule_put (Some o) h = Some (None, h') /\ heap_ok user l h' /\ keeps h h'.
Proof. by apply obj_put_last. Qed.

Definition no_value : rule_value := RuleValue None None None None None None None None None None None None None None.

Lemma no_rule_ok h type : rule_ok h (Object 1 type 0 no_rule).
Proof.
  assert (Forall byte_ok (replicate 16 0)) by (apply Forall_replicate; by vm_compute).
  constructor; cbn [ce_data no_rule r_family r_action r_dsfield r_table r_flags r_prio r_mark r_mask r_goto r_flow r_iifname r_oifname]; try lia; try done.
Qed.

(** Setters: after any sequence of setter calls on a new rule the rule has
    the attributes the calls gave it, a call with an address of another
    family or a name that is too long returns the error and changes nothing,
    the rule is well-formed, and when it is put the references of the user
    to its addresses are what they were.  The user holds the addresses while
    they are passed. *)
Theorem rule_setters_refine {al : Allocator} user l addrs h ops : malloc_ok rule_size = true -> heap_ok user l h -> values_ok addrs h ->
  Forall (op_ok user l) ops -> exists o0 o errs h' h'',
  rtnl_rule_alloc = Some o0 /\ run_ops ops o0 h = Some (o, errs, h') /\ (rule_view h' o, errs) = value_ops addrs ops no_value /\
  rule_ok h' o /\ rtnl_rule_put (Some o) h' = Some (None, h'') /\ heap_ok user l h'' /\ keeps h h''.
Proof.
  intros Hmem Hh Hv Hops. unfold rtnl_rule_alloc, obj_alloc. rewrite Hmem. set (o0 := Object 1 0 0 no_rule).
  assert (good user l addrs h o0) as Hg by (split; [apply no_rule_ok|change (heap_ok user (None :: None :: l) h); by rewrite !heap_ok_null|done]).
  destruct (run_ops_refines user l addrs ops h o0 Hg Hops) as (o & errs & h' & E & V & [Ho Hh' _] & K & R).
  destruct (rule_put_ok _ _ _ _ Hh' R) as (h'' & Ep & Hh'' & K'). exists o0, o, errs, h', h''. split_and!; try done. by eapply keeps_trans.
Qed.

(** ** Arbitrary messages *)

Definition ptrs : option rule -> list (option positive) := held (fun r => [r_src r; r_dst r]).

(** A rule that is being parsed: the attributes [missing] were not read yet. *)
Definition parsing (user : positive -> Z) (l : list (option positive)) (missing : list Z) (h : heap) (o : rule) : Prop :=
  rule_ok h o /\ heap_ok user (r_src (ce_data o) :: r_dst (ce_data o) :: l) h /\ ce_refcnt o = 1 /\
  Forall (fun attr => has (ce_mask o) attr = false) missing.

Lemma missing_step c attr f (o : rule) missing : forallb (fun x => negb (has attr x)) missing = true ->
  Forall (fun x => has (ce_mask o) x = false) missing -> Forall (fun x => has (ce_mask (step c attr f o)) x = false) missing.
Proof.
  rewrite forallb_forall. intros Hm Ho. apply Forall_forall. intros x Hx. rewrite step_mask, (proj1 (Forall_forall _ _) Ho x Hx).
  apply list_elem_of_In in Hx. specialize (Hm x Hx). destruct (has attr x); [done|]. apply andb_false_r.
Qed.

Ltac step_ok := lazymatch goal with
  | P : parsing ?user ?l ?missing ?h ?o |- parsing ?user ?l ?missing ?h (step ?c _ _ ?o) =>
    let Ho := fresh in let Hh := fresh in let Hr := fresh in let Hm := fresh in destruct P as (Ho & Hh & Hr & Hm);
    split; [destruct c; [cbn [step]; revert Ho; keep_ok|exact Ho]
           |split; [destruct c; exact Hh|split; [destruct c; exact Hr|apply missing_step; [reflexivity|exact Hm]]]] end.

(** The next attribute of 32 bits, or a name, is read into the rule. *)
Ltac rule_u32 t := lazymatch goal with
  | Ht : typed ?buf ?pol ?tb, P : parsing ?user ?l ?m ?h ?o |- context [opt_u32 ?buf ?tb t ?a ?f ?o] =>
      let c := fresh "c" in let v := fresh "v" in let E := fresh "E" in let Hv := fresh "Hv" in
      destruct (opt_u32_safe buf pol tb Ht t a f o h ltac:(done) ltac:(done)) as (c & v & E & Hv);
      rewrite (hbind_run _ _ _ _ _ E); clear E;
      assert (parsing user l m h (step c a (f v) o)) by step_ok; clear P; generalize dependent (step c a (f v) o); clear o c v Hv; intros o P
  end.

Ltac rule_string t := lazymatch goal with
  | Hb : Forall byte_ok ?buf, Ht : typed ?buf ?pol ?tb, P : parsing ?user ?l ?m ?h ?o |- context [opt_string ?buf ?tb t ?n ?a ?f ?o] =>
      let c := fresh "c" in let v := fresh "v" in let E := fresh "E" in let Hv := fresh "Hv" in
      destruct (opt_string_safe buf pol tb Hb Ht t n a f o h ltac:(done) ltac:(done)) as (c & v & E & Hv);
      rewrite (hbind_run _ _ _ _ _ E); clear E;
      assert (parsing user l m h (step c a (f v) o)) by (step_ok; exact (Hv eq_refl));
      clear P; generalize dependent (step c a (f v) o); clear o c v Hv; intros o P
  end.

Section Safe.
Context {al : Allocator}.

Ltac address_ok := lazymatch goal with Ho : rule_ok _ _ |- rule_ok _ _ => destruct Ho end; constructor;
  cbn [assign ce_data ce_mask set_r_src set_r_dst r_family r_action r_dsfield r_table r_flags r_prio r_mark r_mask r_goto r_flow r_src r_dst r_iifname r_oifname];
  unfold ptr_ok in *; known_bits; try assumption; eauto.

(** Reading an address. *)
Lemma src_parsing user l buf tb family n h o : Forall byte_ok buf -> typed buf rule_policy tb -> parsing user l [RULE_ATTR_SRC; RULE_ATTR_DST] h o ->
  exists o' ok h', opt_addr buf tb FRA_SRC family RULE_ATTR_SRC set_r_src (fun p => addr_set_prefixlen p n) o h = Some (o', ok, h') /\
  parsing user l [RULE_ATTR_DST] h' o'.
Proof.
  intros Hb Ht (Ho & Hh & Hr & Hm). apply list.Forall_cons in Hm as [Hs Hm].
  assert (r_src (ce_data o) = None) as Es by (pose proof (ok_src _ _ Ho) as Hp; unfold ptr_ok in Hp; by rewrite Hs in Hp).
  rewrite Es, heap_ok_null in Hh.
  destruct (opt_addr_safe buf rule_policy tb Hb Ht user _ FRA_SRC family RULE_ATTR_SRC set_r_src (fun p => addr_set_prefixlen p n)
    (fun a => NlAddr.nl_addr_set_prefixlen a n) o h Hh) as [E|[E|(p & h1 & a & E & Hh1 & Hn & Ea & _ & Ha)] ];
    [done|intros; by apply addr_set_prefixlen_run|done|done|..].
  - eexists _, _, _. split; [exact E|]. split; [done|]. rewrite Es, heap_ok_null. done.
  - eexists _, _, _. split; [exact E|]. split; [|split; [cbn; by rewrite heap_ok_null|done]]. address_ok. by rewrite Hs.
  - eexists _, _, _. split; [exact E|]. pose proof (ptr_more _ _ _ _ _ _ _ (ok_dst _ _ Ho) Hn Ea) as Hd.
    split; [|split; [exact Hh1|split; [exact Hr|apply (missing_step true); done]]].
    assert (deref h1 (Some p) = Some a) by (unfold deref; cbn; by rewrite Ea, lookup_insert_eq). address_ok.
Qed.

Lemma dst_parsing user l buf tb family n h o : Forall byte_ok buf -> typed buf rule_policy tb -> parsing user l [RULE_ATTR_DST] h o ->
  exists o' ok h', opt_addr buf tb FRA_DST family RULE_ATTR_DST set_r_dst (fun p => addr_set_prefixlen p n) o h = Some (o', ok, h') /\
  parsing user l [] h' o'.
Proof.
  intros Hb Ht (Ho & Hh & Hr & Hm). apply list.Forall_cons in Hm as [Hs Hm].
  assert (r_dst (ce_data o) = None) as Es by (pose proof (ok_dst _ _ Ho) as Hp; unfold ptr_ok in Hp; by rewrite Hs in Hp).
  rewrite Permutation_swap, Es, heap_ok_null in Hh.
  destruct (opt_addr_safe buf rule_policy tb Hb Ht user _ FRA_DST family RULE_ATTR_DST set_r_dst (fun p => addr_set_prefixlen p n)
    (fun a => NlAddr.nl_addr_set_prefixlen a n) o h Hh) as [E|[E|(p & h1 & a & E & Hh1 & Hn & Ea & _ & Ha)] ];
    [done|intros; by apply addr_set_prefixlen_run|done|done|..].
  - eexists _, _, _. split; [exact E|]. split; [done|]. rewrite Permutation_swap, Es, heap_ok_null. done.
  - eexists _, _, _. split; [exact E|]. split; [|split; [cbn; by rewrite Permutation_swap, heap_ok_null|done]]. address_ok. by rewrite Hs.
  - eexists _, _, _. split; [exact E|]. pose proof (ptr_more _ _ _ _ _ _ _ (ok_src _ _ Ho) Hn Ea) as Hd.
    split; [|split; [cbn; rewrite Permutation_swap; exact Hh1|split; [exact Hr|constructor]]].
    assert (deref h1 (Some p) = Some a) by (unfold deref; cbn; by rewrite Ea, lookup_insert_eq). address_ok.
Qed.

Lemma parse_rule_safe user l buf tb frh h type : Forall byte_ok buf -> typed buf rule_policy tb -> heap_ok user l h ->
  0 <= family frh < 256 -> 0 <= tos frh < 256 -> 0 <= table frh < 256 -> 0 <= action frh < 256 -> 0 <= flags frh < 2 ^ 32 ->
  exists o' ok h', parse_rule buf tb frh (Object 1 type 0 no_rule) h = Some (o', ok, h') /\ exists missing, parsing user l missing h' o'.
Proof.
  intros Hb Ht Hh Hf Hto Hta Hac Hfl. unfold parse_rule. cbn [ce_refcnt ce_msgtype ce_data].
  match goal with |- context [assign RULE_ATTR_DSFIELD (set_r_dsfield (tos frh)) ?x] => set (o0 := x) end.
  assert (parsing user l [RULE_ATTR_SRC; RULE_ATTR_DST] h o0) as P0.
  { split; [|split; [change (heap_ok user (None :: None :: l) h); by rewrite !heap_ok_null|split; [done|by repeat constructor]]].
    destruct (no_rule_ok h 0). constructor; unfold o0, ptr_ok;
      cbn [ce_data ce_mask set_r_family set_r_action set_r_table set_r_flags no_rule r_family r_action r_dsfield r_table r_flags r_prio r_mark r_mask r_goto r_flow r_iifname r_oifname r_src r_dst];
      try lia; try assumption; try (intros; discriminate); done. }
  assert (parsing user l [RULE_ATTR_SRC; RULE_ATTR_DST] h (step (negb (tos frh =? 0)) RULE_ATTR_DSFIELD (set_r_dsfield (tos frh)) o0)) as P by step_ok.
  change (if negb (tos frh =? 0) then assign RULE_ATTR_DSFIELD (set_r_dsfield (tos frh)) o0 else o0) with
    (step (negb (tos frh =? 0)) RULE_ATTR_DSFIELD (set_r_dsfield (tos frh)) o0).
  clear P0. generalize dependent (step (negb (tos frh =? 0)) RULE_ATTR_DSFIELD (set_r_dsfield (tos frh)) o0). clear o0. intros o P.
  rule_u32 FRA_TABLE. rule_string FRA_IIFNAME. rule_string FRA_OIFNAME. rule_u32 FRA_PRIORITY. rule_u32 FRA_FWMARK. rule_u32 FRA_FWMASK. rule_u32 FRA_GOTO.
  destruct (src_parsing user l buf tb (family frh) (src_len frh) h o Hb Ht P) as (o1 & ok & h1 & E1 & P1). rewrite (hbind_run _ _ _ _ _ E1).
  destruct ok; cbn [negb]; [|by eexists _, _, _; eauto].
  destruct (dst_parsing user l buf tb (family frh) (dst_len frh) h1 o1 Hb Ht P1) as (o2 & ok & h2 & E2 & P2). rewrite (hbind_run _ _ _ _ _ E2).
  destruct ok; cbn [negb]; [|by eexists _, _, _; eauto]. clear E2. rule_u32 FRA_FLOW. by eexists _, _, _; eauto.
Qed.

Lemma rule_policy_ok : policy_ok FRA_MAX rule_policy.
Proof.
  split; [by vm_compute|]. unfold rule_policy. repeat (apply list.Forall_cons; split; [by vm_compute; intuition|]). constructor.
Qed.

Lemma read_frh_any buf : Forall byte_ok buf -> 28 <= zlen buf -> exists f, read_frh buf (nlmsg_data 0) = Some f /\
  0 <= family f < 256 /\ 0 <= tos f < 256 /\ 0 <= table f < 256 /\ 0 <= action f < 256 /\ 0 <= flags f < 2 ^ 32.
Proof.
  intros Hb Hz. change (nlmsg_data 0) with 16. unfold read_frh. rewrite !rd_Some by lia. cbn [mbind option_bind]. eexists. split; [done|].
  cbn [family tos table action flags]. split_and!; apply (get_le_range _ 1 _ Hb) || apply (get_le_range _ 4 _ Hb).
Qed.

(** What the callback of the parser does: it takes or drops references to the
    rule, and leaves the counts in order. *)
Definition callback_ok (user : positive -> Z) (l : list (option positive)) (pp_cb : rule -> H (rule * Z)) : Prop :=
  forall o h, rule_ok h o -> ce_refcnt o = 1 -> heap_ok user (r_src (ce_data o) :: r_dst (ce_data o) :: l) h -> exists o' err h',
    pp_cb o h = Some (o', err, h') /\ 1 <= ce_refcnt o' <= INT_MAX /\ heap_ok user (r_src (ce_data o') :: r_dst (ce_data o') :: l) h'.

Lemma put_any user l h o : heap_ok user (r_src (ce_data o) :: r_dst (ce_data o) :: l) h -> 1 <= ce_refcnt o <= INT_MAX -> exists r h',
  rtnl_rule_put (Some o) h = Some (r, h') /\ heap_ok user (ptrs r ++ l) h'.
Proof. by apply obj_put_any. Qed.

(** The parser of rules is safe on every message: whatever the bytes and
    the memory, it reads inside the message only, calls back with a
    well-formed rule that holds its addresses, and afterwards the references
    are those of the user and of the rule, if the callback kept it; every
    error path frees what was allocated. *)
Theorem rule_msg_parser_safe user l h buf pp_cb : msg_in buf -> heap_ok user l h -> callback_ok user l pp_cb -> exists err r h',
  rule_msg_parser pp_cb buf h = Some (err, r, h') /\ heap_ok user (ptrs r ++ l) h'.
Proof.
  intros Hm Hh Hcb. pose proof Hm as (Hb & Hz & _). unfold rule_msg_parser, rtnl_rule_alloc, obj_alloc. destruct (malloc_ok rule_size); [|by exists (- NLE_NOMEM), None, h].
  rewrite (hbind_run _ _ _ (get_le 4 2 buf) h) by (apply of_option_run, rd_Some; lia). cbn [ce_refcnt ce_mask ce_data].
  assert (forall type, heap_ok user (r_src (ce_data (Object 1 type 0 no_rule)) :: r_dst (ce_data (Object 1 type 0 no_rule)) :: l) h) as Hh0.
  { intros type. change (heap_ok user (None :: None :: l) h). by rewrite !heap_ok_null. }
  destruct (nlmsg_parse_any buf 12 FRA_MAX rule_policy Hm) as (otb & err & E & Herr); [lia|done|done|by apply rule_policy_ok|].
  rewrite (hbind_run _ _ _ _ _ (of_option_run _ _ h E)). destruct Herr as [Hneg|(-> & tb & -> & Hlen & Htb)].
  - rewrite (proj2 (Z.ltb_lt _ _) Hneg). destruct (put_any user l h _ (Hh0 (get_le 4 2 buf)) ltac:(done)) as (r & h' & Ep & Hh'). rewrite (hbind_run _ _ _ _ _ Ep). by eexists _, _, _.
  - change (0 <? 0) with false. cbv iota. rewrite (hbind_run _ _ _ tb h) by done.
    destruct (read_frh_any buf Hb ltac:(lia)) as (f & Ef & H1 & H2 & H3 & H4 & H5). rewrite (hbind_run _ _ _ _ _ (of_option_run _ _ h Ef)).
    destruct (parse_rule_safe user l buf tb f h (get_le 4 2 buf) Hb Htb Hh H1 H2 H3 H4 H5) as (o & ok & h1 & Ep & missing & Ho & Hh1 & Hr & _).
    rewrite (hbind_run _ _ _ _ _ Ep). destruct ok; cbn [negb].
    + destruct (Hcb o h1 Ho Hr Hh1) as (o' & err & h2 & Ec & Hr' & Hh2). rewrite (hbind_run _ _ _ _ _ Ec).
      destruct (put_any user l h2 o' Hh2 Hr') as (r & h3 & Eq & Hh3). rewrite (hbind_run _ _ _ _ _ Eq). by eexists _, _, _.
    + destruct (put_any user l h1 o Hh1 ltac:(by rewrite Hr)) as (r & h3 & Eq & Hh3). rewrite (hbind_run _ _ _ _ _ Eq). by eexists _, _, _.
Qed.

End Safe.

(** ** Comparing *)

(** What two rules agree on; the flags are not compared. *)
Definition compared (x y : rule_value) : list (Z * bool) :=
  [(RULE_ATTR_FAMILY, bool_decide (v_family x = v_family y)); (RULE_ATTR_TABLE, bool_decide (v_table x = v_table y));
   (RULE_ATTR_ACTION, bool_decide (v_action x = v_action y)); (RULE_ATTR_IIFNAME, bool_decide (v_iif x = v_iif y));
   (RULE_ATTR_OIFNAME, bool_decide (v_oif x = v_oif y)); (RULE_ATTR_PRIO, bool_decide (v_prio x = v_prio y));
   (RULE_ATTR_MARK, bool_decide (v_mark x = v_mark y)); (RULE_ATTR_MASK, bool_decide (v_mask x = v_mask y));
   (RULE_ATTR_GOTO, bool_decide (v_goto x = v_goto y)); (RULE_ATTR_SRC, same_addr (v_src x) (v_src y));
   (RULE_ATTR_DST, same_addr (v_dst x) (v_dst y)); (RULE_ATTR_DSFIELD, bool_decide (v_dsfield x = v_dsfield y));
   (RULE_ATTR_FLOW, bool_decide (v_flow x = v_flow y))].

(** Comparing two well-formed rules returns exactly the mask of the
    attributes asked for on which the rules differ: one rule has the attribute
    and the other not, or the values are different, where addresses are
    compared by family, bytes and prefix length.  Without a difference the
    result is 0. *)
Theorem rule_compare_exact h a b attrs flags : rule_ok h a -> rule_ok h b -> ints_ok h ->
  rule_compare h a b attrs flags = Some (difference attrs (compared (rule_view h a) (rule_view h b))).
Proof.
  intros Ha Hb Hi. unfold rule_compare. apply diffs_difference.
  repeat (apply Forall2_cons; split); try (by apply Forall2_nil).
  1,2,3,6,7,8,9,12,13: apply field_told.
  10,11: apply differ_told; [|reflexivity].
  12,13: apply addr_told; [|done|first [apply Ha|apply Hb]..].
  all: a_bit.
Qed.

(** ** Copies *)

Section Clone.
Context {al : Allocator}.
Hypothesis memory : malloc_total al.

(** With memory, a copy has the values of the rule and addresses of its own. *)
Theorem rule_clone_copies user l h o : rule_ok h o -> heap_ok user l h -> exists o' h',
  rtnl_rule_clone o h = Some (Some o', h') /\ rule_view h' o' = rule_view h o /\ ce_refcnt o' = 1 /\
  heap_ok user (r_src (ce_data o') :: r_dst (ce_data o') :: l) h' /\ (forall k a, h_addrs h !! k = Some a -> h_addrs h' !! k = Some a).
Proof.
  intros Ho Hh. unfold rtnl_rule_clone, obj_clone, obj_alloc. rewrite memory by (unfold rule_size; lia). cbn [ce_data ce_refcnt].
  destruct (clone_ptr_ok memory user l h _ _ _ Hh (ok_src _ _ Ho)) as (p & h1 & E1 & Hh1 & P1 & V1 & _ & K1).
  assert (ptr_ok h1 (ce_mask o) RULE_ATTR_DST (r_dst (ce_data o)) /\ view_ptr h1 (ce_mask o) RULE_ATTR_DST (r_dst (ce_data o)) = view_ptr h (ce_mask o) RULE_ATTR_DST (r_dst (ce_data o))) as [Pd Vd]
    by (apply ptr_kept; [apply (ok_dst _ _ Ho)|done]).
  destruct (clone_ptr_ok memory user (p :: l) h1 _ _ _ Hh1 Pd) as (q & h2 & E2 & Hh2 & P2 & V2 & _ & K2).
  destruct (ptr_kept h1 h2 _ _ _ P1 K2) as [_ V3].
  assert (rule_clone (ce_data o) (ce_data o) h = Some (set_r_dst q (set_r_src p (ce_data o)), 0, h2)) as E.
  { unfold rule_clone. rewrite (hbind_run _ _ _ _ _ E1). cbn [negb r_dst set_r_src]. by rewrite (hbind_run _ _ _ _ _ E2). }
  rewrite (hbind_run _ _ _ _ _ E). change (0 <? 0) with false. cbv iota. eexists _, h2. split; [done|]. split_and!; [|done|..].
  - unfold rule_view. cbn [ce_mask ce_data set_r_src set_r_dst r_family r_action r_dsfield r_table r_flags r_prio r_mark r_mask r_goto r_flow r_src r_dst r_iifname r_oifname].
    f_equal; [change (view_ptr h2 (ce_mask o) RULE_ATTR_SRC p = view_ptr h (ce_mask o) RULE_ATTR_SRC (r_src (ce_data o)))|
              change (view_ptr h2 (ce_mask o) RULE_ATTR_DST q = view_ptr h (ce_mask o) RULE_ATTR_DST (r_dst (ce_data o)))]; congruence.
  - cbn [ce_data set_r_src set_r_dst r_src r_dst]. by rewrite Permutation_swap.
  - auto.
Qed.

End Clone.

(** ** Samples *)

#[local] Existing Instance sample_alloc.

(** A rule for packets from 10.0.255.0/24 that come in on eth0. *)
Definition sample_heap : heap := Heap {[1%positive := NlAddr.sample_addr]} ∅.

Definition sample_rule : rule :=
  Object 1 0 (RULE_ATTR_FAMILY + RULE_ATTR_TABLE + RULE_ATTR_IIFNAME + RULE_ATTR_PRIO + RULE_ATTR_SRC)
    (Rule 2 0 0 254 0 100 0 0 0 0 (Some 1%positive) None (str "eth0" ++ replicate 12 0) (replicate 16 0)).

Lemma sample_rule_ok : rule_ok sample_heap sample_rule.
Proof.
  assert (Forall byte_ok (str "eth0" ++ replicate 12 0)) by by apply NlAddr.bytes_check.
  assert (Forall byte_ok (replicate 16 0)) by by apply NlAddr.bytes_check.
  constructor; try (by vm_compute); try (split_and!; by vm_compute).
  exists NlAddr.sample_addr. split; [done|]. split_and!; try (by vm_compute). by apply NlAddr.bytes_check.
Qed.

Lemma sample_ints : ints_ok sample_heap.
Proof. intros p a. cbn [sample_heap h_addrs]. rewrite lookup_singleton_Some. intros [_ <-]. by vm_compute. Qed.

Lemma rule_build_parse_witness : exists m o h',
  build_rule_msg 4096 sample_heap sample_rule RTM_NEWRULE 1024 = Some (inr m) /\
  (forall pp_cb, rule_msg_parser pp_cb (nm_nlh m) (Heap ∅ ∅) = ('(o, err) ← pp_cb o; r ← rtnl_rule_put (Some o); mret (err, r)) h') /\
  ce_refcnt o = 1 /\ ce_msgtype o = RTM_NEWRULE /\ rule_view h' o = complete (rule_view sample_heap sample_rule) /\
  heap_ok (fun _ => 0) (r_dst (ce_data o) :: r_src (ce_data o) :: []) h' /\
  (forall k a, h_addrs (Heap ∅ ∅) !! k = Some a -> h_addrs h' !! k = Some a).
Proof.
  apply (rule_build_parse sample_alloc_total 4096 ltac:(lia) (fun _ => 0) [] sample_heap sample_rule (Heap ∅ ∅) RTM_NEWRULE 1024).
  - exact sample_rule_ok.
  - by vm_compute.
  - split; intros a [= <-]; by vm_compute.
  - by vm_compute.
  - apply heap_ok_empty.
Defined.

Example sample_view : rule_view sample_heap sample_rule =
  RuleValue (Some 2) (Some 254) None None (Some (str "eth0")) None (Some 100) None None None (Some (AddrValue 2 24 [10; 0; 255; 1])) None None None.
Proof. by vm_compute. Qed.

(** The user has one reference to the address. *)
Definition sample_user (p : positive) : Z := if decide (p = 1%positive) then 1 else 0.
Definition sample_values (p : positive) : addr_value := AddrValue 2 24 [10; 0; 255; 1].

Lemma sample_values_ok : values_ok sample_values sample_heap.
Proof.
  intros p a. cbn [sample_heap h_addrs]. rewrite lookup_singleton_Some. intros [_ <-]. split; [done|]. split; [|by vm_compute].
  split_and!; try (by vm_compute). by apply NlAddr.bytes_check.
Qed.

(** The second address is of another family than the rule. *)
Definition sample_ops : list rule_op := [SetTable 254; SetSrc 1; SetIif (str "eth0"); SetFamily 10; SetDst 1; SetPrio (-1)].

Lemma rule_setters_refine_witness : exists o0 o errs h' h'',
  rtnl_rule_alloc = Some o0 /\ run_ops sample_ops o0 sample_heap = Some (o, errs, h') /\
  (rule_view h' o, errs) = value_ops sample_values sample_ops no_value /\
  rule_ok h' o /\ rtnl_rule_put (Some o) h' = Some (None, h'') /\ heap_ok sample_user [] h'' /\ keeps sample_heap h''.
Proof.
  apply (rule_setters_refine sample_user [] sample_values sample_heap sample_ops).
  - by vm_compute.
  - by apply (heap_ok_single 1 NlAddr.sample_addr).
  - exact sample_values_ok.
  - repeat (apply list.Forall_cons; split); done.
Defined.

Example sample_ops_value : value_ops sample_values sample_ops no_value =
  (RuleValue (Some 10) (Some 254) None None (Some (str "eth0")) None (Some 4294967295) None None None (Some (AddrValue 2 24 [10; 0; 255; 1])) None None None,
   [0; 0; 0; 0; - NLE_AF_MISMATCH; 0]).
Proof. by vm_compute. Qed.

(** A message with an attribute of an address and one of a name. *)
Definition sample_msg : bytes :=
  le_bytes 4 48 ++ le_bytes 2 RTM_NEWRULE ++ replicate 10 0 ++ frh_bytes (Frh 2 32 0 0 254 1 0) ++
  [8; 0; 1; 0; 10; 0; 0; 1] ++ [9; 0; 3; 0; 101; 116; 104; 48; 0; 0; 0; 0].

Lemma rule_msg_parser_safe_witness : exists err r h',
  rule_msg_parser (fun o => mret (o, 0)) sample_msg sample_heap = Some (err, r, h') /\ heap_ok sample_user (ptrs r ++ []) h'.
Proof.
  apply (rule_msg_parser_safe sample_user [] sample_heap sample_msg (fun o => mret (o, 0))).
  - split; [by apply NlAddr.bytes_check|]. split_and!; try (by vm_compute). by left.
  - by apply (heap_ok_single 1 NlAddr.sample_addr).
  - intros o h Ho Hr Hh. exists o, 0, h. split; [done|]. split; [rewrite Hr; by vm_compute|done].
Defined.

(** The callback keeps the rule, so that it can be looked at. *)
Example sample_msg_rule : exists r h', rule_msg_parser (fun o => mret (Object 2 (ce_msgtype o) (ce_mask o) (ce_data o), 0)) sample_msg (Heap ∅ ∅) = Some (0, Some r, h') /\
  rule_view h' r = RuleValue (Some 2) (Some 254) (Some 1) (Some 0) (Some (str "eth0")) None None None None None None (Some (AddrValue 2 32 [10; 0; 0; 1])) None None.
Proof. eexists _, _. split; by vm_compute. Qed.

Lemma rule_compare_exact_witness : rule_compare sample_heap sample_rule (rtnl_rule_set_prio sample_rule 7) (-1) 0 =
  Some (difference (-1) (compared (rule_view sample_heap sample_rule) (rule_view sample_heap (rtnl_rule_set_prio sample_rule 7)))).
Proof.
  apply (rule_compare_exact sample_heap sample_rule (rtnl_rule_set_prio sample_rule 7) (-1) 0).
  - exact sample_rule_ok.
  - generalize sample_rule_ok. unfold rtnl_rule_set_prio. by keep_ok.
  - exact sample_ints.
Defined.

Example sample_compare : rule_compare sample_heap sample_rule (rtnl_rule_set_prio sample_rule 7) (-1) 0 = Some RULE_ATTR_PRIO.
Proof. by vm_compute. Qed.

Lemma flags2str_str2flags_witness : exists buf', rule_attrs2str (RULE_ATTR_SRC + RULE_ATTR_PRIO + RULE_ATTR_FLAGS) (replicate 32 7) = Some buf' /\
  cstr buf' = str "prio,src," /\ __str2flags buf' rule_attrs = RULE_ATTR_SRC + RULE_ATTR_PRIO.
Proof.
  apply (flags2str_str2flags rule_attrs (RULE_ATTR_SRC + RULE_ATTR_PRIO + RULE_ATTR_FLAGS) (replicate 32 7)); by vm_compute.
Defined.

(** ** What the code does not do *)

(** Memory for objects of the size of a rule, but not for addresses. *)
Definition short_alloc : Allocator.
Proof.
  refine {| malloc_ok := fun n => n =? rule_size; malloc_byte := 165 |}.
  intros n E. apply Z.eqb_eq in E. by subst.
Defined.

(** A rule with the address of [sample_heap] as its destination, held by the
    rule and by the user. *)
Definition shared_heap : heap := Heap {[1%positive := NlAddr.set_addr_refcnt 2 NlAddr.sample_addr]} ∅.
Definition two_rule : rule :=
  Object 1 0 (RULE_ATTR_FAMILY + RULE_ATTR_SRC + RULE_ATTR_DST)
    (Rule 2 0 0 0 0 0 0 0 0 0 (Some 2%positive) (Some 1%positive) (replicate 16 0) (replicate 16 0)).

(** When the copy of the source address fails, the object that is freed still
    has the pointer to the destination address of the original, and the
    reference of the original is put: after that the original rule and the
    user share a single reference, and freeing both uses freed memory. *)
Theorem rule_clone_failure : exists h', 
  @rtnl_rule_clone short_alloc two_rule (Heap (<[2%positive := NlAddr.sample_addr]> (h_addrs shared_heap)) ∅) = Some (None, h') /\
  (a_refcnt <$> h_addrs h' !! 1%positive) = Some 1 /\
  (rtnl_rule_put (Some two_rule) ;; addr_put (Some 1%positive)) h' = None.
Proof. eexists. split; [by vm_compute|]. split; by vm_compute. Qed.

(** Setting the source of a rule to the address it has, when the rule holds the
    only reference, frees the address before it takes the new reference. *)
Theorem rule_set_same_src : exists p, rtnl_rule_get_src sample_rule = Some p /\ rtnl_rule_set_src sample_rule p sample_heap = None.
Proof. exists 1%positive. by vm_compute. Qed.

(** The family of a rule can be changed when it has addresses, which are then
    sent under the other family. *)
Theorem rule_set_family_unchecked : rtnl_rule_get_family (rtnl_rule_set_family sample_rule 10) = 10 /\
  (a_family <$> deref sample_heap (rtnl_rule_get_src (rtnl_rule_set_family sample_rule 10))) = Some 2 /\
  exists m, build_rule_msg 4096 sample_heap (rtnl_rule_set_family sample_rule 10) RTM_NEWRULE 0 = Some (inr m).
Proof. split; [done|]. split; [done|]. eexists. by vm_compute. Qed.

(** The flags of a rule are parsed and sent but not compared. *)
Theorem rule_flags_not_compared : rule_compare sample_heap (assign RULE_ATTR_FLAGS (set_r_flags 1) sample_rule) sample_rule (-1) 0 = Some 0.
Proof. by vm_compute. Qed.

End NlRule.
