(* ===== verification/NlNeigh.v ===== *)
(** * Neighbours of libnl ([lib/route/neigh.c])

    A neighbour is an object with a mask of the attributes it has and pointers
    to its link-layer and its destination address on the heap of [NlRtnl].  The
    cache of links, in which the master of a bridge port is looked up, is a
    list of pointers to links.  Dumping a neighbour as text is left out;
    the requests to the kernel are in [NlRequest].

    The theorems: a neighbour that is sent and received again; setters;
    the parser on any message; comparison; and the neighbour as the object of
    a cache: what [NlCacheInv] asks of an object type holds for it. *)

From S2P Require Import Prelude JsonUtil Netlink Syscalls NetRequests NlParse NlHash NlAttr NlCache NlCacheInv NlSocket NlAddr NlRtnl.
From Stdlib Require Import ZArith Lia.
From stdpp Require Import base list numbers option strings gmap.

Open Scope Z_scope.

Module NlNeigh.
Import Netlink NlParse NlAttr NlRtnl.
Import NlAddr (nl_addr, Addr, a_family, a_maxsize, a_len, a_prefixlen, a_refcnt, a_addr, trans_tbl).

Definition NEIGH_ATTR_FLAGS : Z := 1.
Definition NEIGH_ATTR_STATE : Z := 2.
Definition NEIGH_ATTR_LLADDR : Z := 4.
Definition NEIGH_ATTR_DST : Z := 8.
Definition NEIGH_ATTR_CACHEINFO : Z := 16.
Definition NEIGH_ATTR_IFINDEX : Z := 32.
Definition NEIGH_ATTR_FAMILY : Z := 64.
Definition NEIGH_ATTR_TYPE : Z := 128.
Definition NEIGH_ATTR_PROBES : Z := 256.
Definition NEIGH_ATTR_MASTER : Z := 512.

Definition NDA_DST : Z := 1.
Definition NDA_LLADDR : Z := 2.
Definition NDA_CACHEINFO : Z := 3.
Definition NDA_PROBES : Z := 4.
Definition NDA_MAX : Z := 4.

Definition NUD_PERMANENT : Z := 128.
Definition AF_BRIDGE : Z := 7.
Definition RTM_NEWNEIGH : Z := 28.
Definition RTM_DELNEIGH : Z := 29.
Definition LOOSE_COMPARISON : Z := 1.

(** ** Neighbours *)

Record rtnl_ncacheinfo := NCacheInfo { nci_confirmed : Z; nci_used : Z; nci_updated : Z; nci_refcnt : Z }.

Record rtnl_neigh := Neigh {
  n_family : Z;
  n_ifindex : Z;
  n_state : Z;
  n_flags : Z;
  n_type : Z;
  n_lladdr : option positive;
  n_dst : option positive;
  n_probes : Z;
  n_cacheinfo : rtnl_ncacheinfo;
  n_state_mask : Z;
  n_flag_mask : Z;
  n_master : Z
}.

(** Updates of a field. *)
Definition set_n_family (v : Z) (x : rtnl_neigh) : rtnl_neigh := Neigh v (n_ifindex x) (n_state x) (n_flags x) (n_type x) (n_lladdr x) (n_dst x) (n_probes x) (n_cacheinfo x) (n_state_mask x) (n_flag_mask x) (n_master x).
Definition set_n_ifindex (v : Z) (x : rtnl_neigh) : rtnl_neigh := Neigh (n_family x) v (n_state x) (n_flags x) (n_type x) (n_lladdr x) (n_dst x) (n_probes x) (n_cacheinfo x) (n_state_mask x) (n_flag_mask x) (n_master x).
Definition set_n_state (v : Z) (x : rtnl_neigh) : rtnl_neigh := Neigh (n_family x) (n_ifindex x) v (n_flags x) (n_type x) (n_lladdr x) (n_dst x) (n_probes x) (n_cacheinfo x) (n_state_mask x) (n_flag_mask x) (n_master x).
Definition set_n_flags (v : Z) (x : rtnl_neigh) : rtnl_neigh := Neigh (n_family x) (n_ifindex x) (n_state x) v (n_type x) (n_lladdr x) (n_dst x) (n_probes x) (n_cacheinfo x) (n_state_mask x) (n_flag_mask x) (n_master x).
Definition set_n_type (v : Z) (x : rtnl_neigh) : rtnl_neigh := Neigh (n_family x) (n_ifindex x) (n_state x) (n_flags x) v (n_lladdr x) (n_dst x) (n_probes x) (n_cacheinfo x) (n_state_mask x) (n_flag_mask x) (n_master x).
Definition set_n_lladdr (v : option positive) (x : rtnl_neigh) : rtnl_neigh := Neigh (n_family x) (n_ifindex x) (n_state x) (n_flags x) (n_type x) v (n_dst x) (n_probes x) (n_cacheinfo x) (n_state_mask x) (n_flag_mask x) (n_master x).
Definition set_n_dst (v : option positive) (x : rtnl_neigh) : rtnl_neigh := Neigh (n_family x) (n_ifindex x) (n_state x) (n_flags x) (n_type x) (n_lladdr x) v (n_probes x) (n_cacheinfo x) (n_state_mask x) (n_flag_mask x) (n_master x).
Definition set_n_probes (v : Z) (x : rtnl_neigh) : rtnl_neigh := Neigh (n_family x) (n_ifindex x) (n_state x) (n_flags x) (n_type x) (n_lladdr x) (n_dst x) v (n_cacheinfo x) (n_state_mask x) (n_flag_mask x) (n_master x).
Definition set_n_cacheinfo (v : rtnl_ncacheinfo) (x : rtnl_neigh) : rtnl_neigh := Neigh (n_family x) (n_ifindex x) (n_state x) (n_flags x) (n_type x) (n_lladdr x) (n_dst x) (n_probes x) v (n_state_mask x) (n_flag_mask x) (n_master x).
Definition set_n_state_mask (v : Z) (x : rtnl_neigh) : rtnl_neigh := Neigh (n_family x) (n_ifindex x) (n_state x) (n_flags x) (n_type x) (n_lladdr x) (n_dst x) (n_probes x) (n_cacheinfo x) v (n_flag_mask x) (n_master x).
Definition set_n_flag_mask (v : Z) (x : rtnl_neigh) : rtnl_neigh := Neigh (n_family x) (n_ifindex x) (n_state x) (n_flags x) (n_type x) (n_lladdr x) (n_dst x) (n_probes x) (n_cacheinfo x) (n_state_mask x) v (n_master x).
Definition set_n_master (v : Z) (x : rtnl_neigh) : rtnl_neigh := Neigh (n_family x) (n_ifindex x) (n_state x) (n_flags x) (n_type x) (n_lladdr x) (n_dst x) (n_probes x) (n_cacheinfo x) (n_state_mask x) (n_flag_mask x) v.

Abbreviation neigh := (object rtnl_neigh).

(** What [calloc] leaves. *)
Definition no_neigh : rtnl_neigh := Neigh 0 0 0 0 0 None None 0 (NCacheInfo 0 0 0 0) 0 0 0.

Definition neigh_free_data (n : rtnl_neigh) : H unit := addr_put (n_lladdr n) ;; addr_put (n_dst n).

(** [sizeof (struct rtnl_neigh)]. *)
Definition neigh_size : Z := 112.

Definition rtnl_neigh_put (o : option neigh) : H (option neigh) :=
  match o with Some o => obj_put neigh_free_data o | None => mret None end.

(** ** Identity *)

Definition neigh_compare (h : heap) (a b : neigh) (attrs flags : Z) : option Z :=
  let diff (attr : Z) (expr : option bool) := ATTR_DIFF attrs attr (ce_mask a) (ce_mask b) expr in
  let x := ce_data a in let y := ce_data b in
  let differ (f : rtnl_neigh -> Z) := Some (negb (f x =? f y)) in
  let cmp (f : rtnl_neigh -> option positive) := d ← addr_cmp h (f x) (f y); Some (negb (d =? 0)) in
  let loose (f mask : rtnl_neigh -> Z) := Some (negb (Z.land (Z.lxor (f x) (f y)) (mask y) =? 0)) in
  diffs ([diff NEIGH_ATTR_IFINDEX (differ n_ifindex); diff NEIGH_ATTR_FAMILY (differ n_family); diff NEIGH_ATTR_TYPE (differ n_type);
          diff NEIGH_ATTR_LLADDR (cmp n_lladdr); diff NEIGH_ATTR_DST (cmp n_dst); diff NEIGH_ATTR_MASTER (differ n_master)] ++
         if negb (Z.land flags LOOSE_COMPARISON =? 0)
         then [diff NEIGH_ATTR_STATE (loose n_state n_state_mask); diff NEIGH_ATTR_FLAGS (loose n_flags n_flag_mask)]
         else [diff NEIGH_ATTR_STATE (differ n_state); diff NEIGH_ATTR_FLAGS (differ n_flags)]).

Definition neigh_attrs : trans_tbl :=
  [(NEIGH_ATTR_FLAGS, "flags"); (NEIGH_ATTR_STATE, "state"); (NEIGH_ATTR_LLADDR, "lladdr"); (NEIGH_ATTR_DST, "dst");
   (NEIGH_ATTR_CACHEINFO, "cacheinfo"); (NEIGH_ATTR_IFINDEX, "ifindex"); (NEIGH_ATTR_FAMILY, "family"); (NEIGH_ATTR_TYPE, "type");
   (NEIGH_ATTR_PROBES, "probes")]%string.

Definition neigh_attrs2str (attrs : Z) (buf : bytes) : option bytes := __flags2str attrs buf neigh_attrs.

Definition neigh_id_attrs_get (n : rtnl_neigh) : Z :=
  if n_family n =? AF_BRIDGE then Z.lor (Z.lor NEIGH_ATTR_LLADDR NEIGH_ATTR_FAMILY) NEIGH_ATTR_MASTER
  else Z.lor (Z.lor NEIGH_ATTR_IFINDEX NEIGH_ATTR_DST) NEIGH_ATTR_FAMILY.

(** ** Names *)

Definition neigh_states : trans_tbl :=
  [(1, "incomplete"); (2, "reachable"); (4, "stale"); (8, "delay"); (16, "probe"); (32, "failed"); (64, "norarp"); (128, "permanent")]%string.
Definition rtnl_neigh_state2str (state : Z) (buf : bytes) : option bytes := __flags2str state buf neigh_states.
Definition rtnl_neigh_str2state (name : bytes) : Z := NlAddr.__str2type name neigh_states.

Definition neigh_flags : trans_tbl := [(1, "use"); (8, "proxy"); (128, "router")]%string.
Definition rtnl_neigh_flags2str (flags : Z) (buf : bytes) : option bytes := __flags2str flags buf neigh_flags.
Definition rtnl_neigh_str2flag (name : bytes) : Z := NlAddr.__str2type name neigh_flags.

(** ** Setters and getters *)

Definition rtnl_neigh_set_state (o : neigh) (state : Z) : neigh :=
  assign NEIGH_ATTR_STATE (fun n => set_n_state (u16 (Z.lor (n_state n) state)) (set_n_state_mask (u32 (Z.lor (n_state_mask n) state)) n)) o.
Definition rtnl_neigh_get_state (o : neigh) : Z := if has (ce_mask o) NEIGH_ATTR_STATE then n_state (ce_data o) else -1.
Definition rtnl_neigh_unset_state (o : neigh) (state : Z) : neigh :=
  assign NEIGH_ATTR_STATE (fun n => set_n_state (u16 (Z.land (n_state n) (Z.lnot state))) (set_n_state_mask (u32 (Z.lor (n_state_mask n) state)) n)) o.
Definition rtnl_neigh_set_flags (o : neigh) (flags : Z) : neigh :=
  assign NEIGH_ATTR_FLAGS (fun n => set_n_flags (u8 (Z.lor (n_flags n) flags)) (set_n_flag_mask (u32 (Z.lor (n_flag_mask n) flags)) n)) o.
Definition rtnl_neigh_get_flags (o : neigh) : Z := n_flags (ce_data o).
Definition rtnl_neigh_unset_flags (o : neigh) (flags : Z) : neigh :=
  assign NEIGH_ATTR_FLAGS (fun n => set_n_flags (u8 (Z.land (n_flags n) (Z.lnot flags))) (set_n_flag_mask (u32 (Z.lor (n_flag_mask n) flags)) n)) o.
Definition rtnl_neigh_set_ifindex (o : neigh) (ifindex : Z) : neigh := assign NEIGH_ATTR_IFINDEX (set_n_ifindex (u32 ifindex)) o.
Definition rtnl_neigh_get_ifindex (o : neigh) : Z := s32 (n_ifindex (ce_data o)).

Definition __assign_addr (o : neigh) (pos : rtnl_neigh -> option positive) (set_pos : option positive -> rtnl_neigh -> rtnl_neigh)
    (new : positive) (flag : Z) (nocheck : bool) : H (neigh * Z) :=
  '(o, ok) ← (if nocheck then mret (o, true) else
     a ← load new;
     if has (ce_mask o) NEIGH_ATTR_FAMILY then mret (o, u32 (a_family a) =? n_family (ce_data o))
     else mret (assign NEIGH_ATTR_FAMILY (set_n_family (u32 (a_family a))) o, true));
  if negb ok then mret (o, - NLE_AF_MISMATCH) else
  addr_put (pos (ce_data o)) ;;
  addr_get new ;;
  mret (assign flag (set_pos (Some new)) o, 0).

Definition rtnl_neigh_set_lladdr (o : neigh) (addr : positive) : H neigh :=
  '(o, _) ← __assign_addr o n_lladdr set_n_lladdr addr NEIGH_ATTR_LLADDR true; mret o.
Definition rtnl_neigh_get_lladdr (o : neigh) : option positive := if has (ce_mask o) NEIGH_ATTR_LLADDR then n_lladdr (ce_data o) else None.
Definition rtnl_neigh_set_dst (o : neigh) (addr : positive) : H (neigh * Z) := __assign_addr o n_dst set_n_dst addr NEIGH_ATTR_DST false.
Definition rtnl_neigh_get_dst (o : neigh) : option positive := if has (ce_mask o) NEIGH_ATTR_DST then n_dst (ce_data o) else None.
Definition rtnl_neigh_set_family (o : neigh) (family : Z) : neigh := assign NEIGH_ATTR_FAMILY (set_n_family (u32 family)) o.
Definition rtnl_neigh_get_family (o : neigh) : Z := s32 (n_family (ce_data o)).

(** The mask is not added to but replaced. *)
Definition rtnl_neigh_set_type (o : neigh) (type : Z) : neigh :=
  Object (ce_refcnt o) (ce_msgtype o) NEIGH_ATTR_TYPE (set_n_type (u8 type) (ce_data o)).
Definition rtnl_neigh_get_type (o : neigh) : Z := if has (ce_mask o) NEIGH_ATTR_TYPE then n_type (ce_data o) else -1.

(** ** Searching *)

(** Over the neighbours of a cache: the place of the one that is found, whose
    counter goes up, and the neighbours. *)
Fixpoint rtnl_neigh_get (h : heap) (items : list neigh) (ifindex : Z) (dst : option positive) : option (option nat * list neigh) :=
  match items with
  | [] => Some (None, [])
  | o :: items' =>
      found ← (if n_ifindex (ce_data o) =? u32 ifindex then d ← addr_cmp h (n_dst (ce_data o)) dst; Some (d =? 0) else Some false);
      if found : bool then Some (Some O, Object (s32 (ce_refcnt o + 1)) (ce_msgtype o) (ce_mask o) (ce_data o) :: items') else
      '(i, items') ← rtnl_neigh_get h items' ifindex dst; Some (option_map S i, o :: items')
  end.

Section Alloc.
Context {al : Allocator}.

Definition rtnl_neigh_alloc : option neigh := obj_alloc neigh_size no_neigh.

Definition neigh_clone (dst src : rtnl_neigh) : H (rtnl_neigh * Z) :=
  '(p, ok) ← clone_ptr (n_lladdr dst) (n_lladdr src);
  let dst := set_n_lladdr p dst in
  if negb ok then mret (dst, - NLE_NOMEM) else
  '(p, ok) ← clone_ptr (n_dst dst) (n_dst src);
  let dst := set_n_dst p dst in
  if negb ok then mret (dst, - NLE_NOMEM) else mret (dst, 0).

Definition rtnl_neigh_clone (o : neigh) : H (option neigh) := obj_clone neigh_size neigh_clone neigh_free_data o.

(** [addr] is where the key is; on a little-endian machine. *)
Definition neigh_keygen (addr : Z) (h : heap) (o : neigh) (table_sz : Z) : option Z :=
  let n := ce_data o in
  let p := if n_family n =? AF_BRIDGE then n_lladdr n else n_dst n in
  a ← (match p with
       | None => Some []
       | Some p => a ← h_addrs h !! p; rd_bytes 0 (NlAddr.nl_addr_get_len a) (NlAddr.nl_addr_get_binary_addr a)
       end);
  let nkey_sz := u32 (8 + zlen a) in
  if malloc_ok nkey_sz then
    let nkey := le_bytes 4 (n_family n) ++ le_bytes 4 (if n_family n =? AF_BRIDGE then n_master n else n_ifindex n) ++ a in
    k ← NlHash.nl_hash false addr nkey nkey_sz 0;
    if table_sz =? 0 then None else Some (k mod table_sz)
  else Some 0.

(** ** Parsing *)

Definition neigh_policy : list nla_policy := [Policy 0 0 0; Policy 0 0 0; Policy 0 0 0; Policy 0 16 0; Policy NLA_U32 0 0].

(** [struct ndmsg]. *)
Record ndmsg := Ndm { ndm_family : Z; ndm_ifindex : Z; ndm_state : Z; ndm_flags : Z; ndm_type : Z }.

Definition ndm_bytes (m : ndmsg) : bytes :=
  le_bytes 1 (ndm_family m) ++ le_bytes 1 0 ++ le_bytes 2 0 ++ le_bytes 4 (ndm_ifindex m) ++ le_bytes 2 (ndm_state m) ++
  le_bytes 1 (ndm_flags m) ++ le_bytes 1 (ndm_type m).

Definition read_ndm (buf : bytes) (off : Z) : option ndmsg :=
  f ← rd off 1 buf; i ← rd (off + 4) 4 buf; s ← rd (off + 8) 2 buf; fl ← rd (off + 10) 1 buf; t ← rd (off + 11) 1 buf;
  Some (Ndm f (s32 i) s fl t).

(** [if (tb[NDA_CACHEINFO])]. *)
Definition read_cacheinfo (buf : bytes) (tb : list (option Z)) (o : neigh) : H neigh :=
  match attr_of tb NDA_CACHEINFO with
  | None => mret o
  | Some ci =>
      c ← of_option (rd (nla_data ci) 4 buf); u ← of_option (rd (nla_data ci + 4) 4 buf);
      up ← of_option (rd (nla_data ci + 8) 4 buf); r ← of_option (rd (nla_data ci + 12) 4 buf);
      mret (assign NEIGH_ATTR_CACHEINFO (set_n_cacheinfo (NCacheInfo c u up r)) o)
  end.

(** [rtnl_link_get]: the link of the cache with an index; the counter goes up. *)
Fixpoint rtnl_link_get (links : list positive) (ifindex : Z) : H (option positive) :=
  match links with
  | [] => mret None
  | p :: links' =>
      l ← load_link p;
      if l_index l =? u32 ifindex then link_get p ;; mret (Some p) else rtnl_link_get links' ifindex
  end.

(** The master of a bridge port; [lcache] is the cache of links, if there is
    one. *)
Definition read_master (lcache : option (list positive)) (o : neigh) : H neigh :=
  if n_family (ce_data o) =? AF_BRIDGE then
    match lcache with
    | None => mret o
    | Some links =>
        link ← rtnl_link_get links (s32 (n_ifindex (ce_data o)));
        match link with
        | None => mret o
        | Some p => l ← load_link p; link_put (Some p) ;; mret (assign NEIGH_ATTR_MASTER (set_n_master (l_master l)) o)
        end
    end
  else mret o.

(** From the header on: the neighbour, and whether there was enough memory. *)
Definition parse_neigh (lcache : option (list positive)) (buf : bytes) (tb : list (option Z)) (nm : ndmsg) (o : neigh) : H (neigh * bool) :=
  let n := set_n_type (ndm_type nm) (set_n_flags (ndm_flags nm) (set_n_state (ndm_state nm)
             (set_n_ifindex (u32 (ndm_ifindex nm)) (set_n_family (ndm_family nm) (ce_data o))))) in
  let o := Object (ce_refcnt o) (ce_msgtype o) (Z.lor (ce_mask o) (Z.lor (Z.lor (Z.lor (Z.lor NEIGH_ATTR_FAMILY NEIGH_ATTR_IFINDEX)
             NEIGH_ATTR_STATE) NEIGH_ATTR_FLAGS) NEIGH_ATTR_TYPE)) n in
  '(o, ok) ← opt_addr buf tb NDA_LLADDR NlAddr.AF_UNSPEC NEIGH_ATTR_LLADDR set_n_lladdr
    (fun p => a ← load p; addr_set_family p (NlAddr.nl_addr_guess_family a)) o;
  if negb ok then mret (o, false) else
  '(o, ok) ← opt_addr buf tb NDA_DST (n_family (ce_data o)) NEIGH_ATTR_DST set_n_dst (fun _ => mret tt) o;
  if negb ok then mret (o, false) else
  o ← read_cacheinfo buf tb o;
  o ← opt_u32 buf tb NDA_PROBES NEIGH_ATTR_PROBES set_n_probes o;
  o ← read_master lcache o;
  mret (o, true).

(** The error, and the neighbour on success. *)
Definition rtnl_neigh_parse (lcache : option (list positive)) (buf : bytes) : H (Z * option neigh) :=
  match rtnl_neigh_alloc with
  | None => rtnl_neigh_put None ;; mret (- NLE_NOMEM, None)
  | Some o =>
      type ← of_option (rd 4 2 buf);
      let o := Object (ce_refcnt o) type (ce_mask o) (ce_data o) in
      '(otb, err) ← of_option (nlmsg_parse buf 0 12 NDA_MAX (Some neigh_policy));
      if err <? 0 then rtnl_neigh_put (Some o) ;; mret (err, None) else
      tb ← of_option otb;
      nm ← of_option (read_ndm buf (nlmsg_data 0));
      '(o, ok) ← parse_neigh lcache buf tb nm o;
      if negb ok then rtnl_neigh_put (Some o) ;; mret (- NLE_NOMEM, None) else
      mret (0, Some o)
  end.

(** [pp_cb] gets the neighbour and may take references to it.  The result, and
    the neighbour if somebody has one. *)
Definition neigh_msg_parser (pp_cb : neigh -> H (neigh * Z)) (lcache : option (list positive)) (buf : bytes) : H (Z * option neigh) :=
  '(err, r) ← rtnl_neigh_parse lcache buf;
  if err <? 0 then mret (err, None) else
  o ← of_option r;
  '(o, err) ← pp_cb o;
  r ← rtnl_neigh_put (Some o); mret (err, r).

(** ** Requests *)

(** The default size of messages is an argument. *)
Definition build_neigh_msg (default_msg_size : Z) (h : heap) (tmpl : neigh) (cmd flags : Z) : option (Z + nl_msg) :=
  let mask := ce_mask tmpl in
  let t := ce_data tmpl in
  let bridge := n_family t =? AF_BRIDGE in
  if negb bridge && negb (has mask NEIGH_ATTR_DST) then Some (inl (- NLE_MISSING_ATTR)) else
  family ← (if bridge then Some AF_BRIDGE else a ← deref h (n_dst t); Some (u8 (NlAddr.nl_addr_get_family a)));
  match nlmsg_alloc_simple default_msg_size cmd flags with
  | None => Some (inl (- NLE_NOMEM))
  | Some msg =>
      let msg := append_hdr (ndm_bytes (Ndm family (s32 (n_ifindex t)) (if has mask NEIGH_ATTR_STATE then n_state t else NUD_PERMANENT)
                                            (if has mask NEIGH_ATTR_FLAGS then n_flags t else 0) 0)) msg in
      msg ← put_addr_if (negb bridge) h NDA_DST (n_dst t) msg;
      msg ← put_addr_if (has mask NEIGH_ATTR_LLADDR) h NDA_LLADDR (n_lladdr t) msg;
      Some (built_msg msg)
  end.

Definition rtnl_neigh_build_add_request (default_msg_size : Z) (h : heap) (tmpl : neigh) (flags : Z) : option (Z + nl_msg) :=
  build_neigh_msg default_msg_size h tmpl RTM_NEWNEIGH flags.
Definition rtnl_neigh_build_delete_request (default_msg_size : Z) (h : heap) (o : neigh) (flags : Z) : option (Z + nl_msg) :=
  build_neigh_msg default_msg_size h o RTM_DELNEIGH flags.

End Alloc.

(** ** What a neighbour says *)

Record neigh_value := NeighValue {
  w_family : option Z;
  w_ifindex : option Z;
  w_state : option Z;
  w_flags : option Z;
  w_type : option Z;
  w_lladdr : option addr_value;
  w_dst : option addr_value;
  w_probes : option Z;
  w_cacheinfo : option rtnl_ncacheinfo;
  w_master : option Z;
  w_state_mask : Z;
  w_flag_mask : Z
}.

Definition neigh_view (h : heap) (o : neigh) : neigh_value :=
  let m := ce_mask o in
  let n := ce_data o in
  NeighValue (att m NEIGH_ATTR_FAMILY (n_family n)) (att m NEIGH_ATTR_IFINDEX (n_ifindex n)) (att m NEIGH_ATTR_STATE (n_state n))
    (att m NEIGH_ATTR_FLAGS (n_flags n)) (att m NEIGH_ATTR_TYPE (n_type n)) (view_ptr h m NEIGH_ATTR_LLADDR (n_lladdr n))
    (view_ptr h m NEIGH_ATTR_DST (n_dst n)) (att m NEIGH_ATTR_PROBES (n_probes n)) (att m NEIGH_ATTR_CACHEINFO (n_cacheinfo n))
    (att m NEIGH_ATTR_MASTER (n_master n)) (n_state_mask n) (n_flag_mask n).

(** Fields have their widths; a field whose attribute is not there is 0. *)
Record neigh_ok (h : heap) (o : neigh) : Prop := {
  ok_family : 0 <= n_family (ce_data o) < 2 ^ 32;
  ok_ifindex : 0 <= n_ifindex (ce_data o) < 2 ^ 32;
  ok_state : 0 <= n_state (ce_data o) < 2 ^ 16;
  ok_flags : 0 <= n_flags (ce_data o) < 256;
  ok_lladdr : ptr_ok h (ce_mask o) NEIGH_ATTR_LLADDR (n_lladdr (ce_data o));
  ok_dst : ptr_ok h (ce_mask o) NEIGH_ATTR_DST (n_dst (ce_data o));
  ok_no_family : has (ce_mask o) NEIGH_ATTR_FAMILY = false -> n_family (ce_data o) = 0;
  ok_no_ifindex : has (ce_mask o) NEIGH_ATTR_IFINDEX = false -> n_ifindex (ce_data o) = 0;
  ok_no_state : has (ce_mask o) NEIGH_ATTR_STATE = false -> n_state (ce_data o) = 0;
  ok_no_flags : has (ce_mask o) NEIGH_ATTR_FLAGS = false -> n_flags (ce_data o) = 0;
  ok_no_master : has (ce_mask o) NEIGH_ATTR_MASTER = false -> n_master (ce_data o) = 0
}.

(** A field that is 0 without its attribute. *)
Lemma att_default mask attr (x : Z) : (has mask attr = false -> x = 0) -> default 0 (att mask attr x) = x.
Proof. unfold att. destruct (has mask attr); [done|]. intros E. symmetry. by apply E. Qed.

(** ** Neighbours as objects of a cache *)

(** Flags agree where the mask has bits. *)
Definition agree (mask : Z) (x y : option Z) : bool :=
  match x, y with Some x, Some y => Z.land (Z.lxor x y) mask =? 0 | None, None => true | _, _ => false end.

Definition neigh_compared (flags : Z) (x y : neigh_value) : list (Z * bool) :=
  [(NEIGH_ATTR_IFINDEX, bool_decide (w_ifindex x = w_ifindex y)); (NEIGH_ATTR_FAMILY, bool_decide (w_family x = w_family y));
   (NEIGH_ATTR_TYPE, bool_decide (w_type x = w_type y)); (NEIGH_ATTR_LLADDR, same_addr (w_lladdr x) (w_lladdr y));
   (NEIGH_ATTR_DST, same_addr (w_dst x) (w_dst y)); (NEIGH_ATTR_MASTER, bool_decide (w_master x = w_master y))] ++
  if negb (Z.land flags LOOSE_COMPARISON =? 0)
  then [(NEIGH_ATTR_STATE, agree (w_state_mask y) (w_state x) (w_state y)); (NEIGH_ATTR_FLAGS, agree (w_flag_mask y) (w_flags x) (w_flags y))]
  else [(NEIGH_ATTR_STATE, bool_decide (w_state x = w_state y)); (NEIGH_ATTR_FLAGS, bool_decide (w_flags x = w_flags y))].

Lemma agree_told attrs attr ma mb (x y mask : Z) : one_bit attr ->
  told attrs (ATTR_DIFF attrs attr ma mb (Some (negb (Z.land (Z.lxor x y) mask =? 0)))) (attr, agree mask (att ma attr x) (att mb attr y)).
Proof. intros Hb. apply ATTR_DIFF_told; [done|..]; unfold att, agree; intros; repeat case_match; congruence. Qed.

Lemma neigh_compare_value h a b attrs flags : neigh_ok h a -> neigh_ok h b -> ints_ok h ->
  neigh_compare h a b attrs flags = Some (difference attrs (neigh_compared flags (neigh_view h a) (neigh_view h b))).
Proof.
  intros Ha Hb Hi. unfold neigh_compare. apply diffs_difference. unfold neigh_compared. apply Forall2_app.
  - repeat (apply Forall2_cons; split); try (by apply Forall2_nil); try (apply field_told; by a_bit).
    + apply addr_told; [by a_bit|done|apply Ha|apply Hb].
    + apply addr_told; [by a_bit|done|apply Ha|apply Hb].
  - destruct (negb _); repeat (apply Forall2_cons; split); try (by apply Forall2_nil); first [apply field_told|apply agree_told]; by a_bit.
Qed.

Definition id_attrs_of (v : neigh_value) : Z :=
  if default 0 (w_family v) =? AF_BRIDGE then 580 else 104.

(** The bytes of the key. *)
Definition key_bytes (v : neigh_value) : bytes :=
  let family := default 0 (w_family v) in
  let bridge := family =? AF_BRIDGE in
  le_bytes 4 family ++ le_bytes 4 (default 0 (if bridge then w_master v else w_ifindex v)) ++
  default [] (av_bytes <$> if bridge then w_lladdr v else w_dst v).

Definition key_of (v : neigh_value) (table_sz : Z) : Z := fst (NlHash.lookup3 false (key_bytes v) 0) mod table_sz.

Definition no_neigh_value : neigh_value := NeighValue None None None None None None None None None None 0 0.

(** The object type of neighbours with values in place of pointers. *)
Definition neigh_object_ops : NlCache.nl_object_ops neigh_value :=
  NlCache.ObjectOps neigh_size 104 (NlCache.Content 0 no_neigh_value) true (Some (fun _ src => Some src))
    (Some (fun a b attrs flags => difference attrs (neigh_compared flags (NlCache.ce_data a) (NlCache.ce_data b)))) None
    (Some (fun a sz => key_of (NlCache.ce_data a) sz)) (Some (fun a => id_attrs_of (NlCache.ce_data a))).

Definition content_of (h : heap) (o : neigh) : NlCache.content neigh_value := NlCache.Content (ce_mask o) (neigh_view h o).

(** ** The laws of an object type *)

Lemma compared_bits flags x y : Forall (fun e => one_bit (fst e)) (neigh_compared flags x y).
Proof. unfold neigh_compared. destruct (negb _); cbn [app]; repeat (apply list.Forall_cons; split); try done; by a_bit. Qed.

(** Two neighbours of one identity. *)
Definition same_identity (v w : neigh_value) : Prop :=
  w_family v = w_family w /\
  if default 0 (w_family v) =? AF_BRIDGE then w_master v = w_master w /\ same_addr (w_lladdr v) (w_lladdr w) = true
  else w_ifindex v = w_ifindex w /\ same_addr (w_dst v) (w_dst w) = true.

Lemma id_attrs_cases v : id_attrs_of v = 580 \/ id_attrs_of v = 104.
Proof. unfold id_attrs_of. destruct (_ =? _); auto. Qed.

Lemma neigh_identical (a b : NlCache.nl_object neigh_value) : NlCache.identical (fun _ => neigh_object_ops) a b = true <->
  let x := NlCache.ce_content a in let y := NlCache.ce_content b in
  NlCache.ce_ops a = NlCache.ce_ops b /\ id_attrs_of (NlCache.ce_data x) = id_attrs_of (NlCache.ce_data y) /\
  Z.land (NlCache.ce_mask x) (id_attrs_of (NlCache.ce_data x)) = id_attrs_of (NlCache.ce_data x) /\
  Z.land (NlCache.ce_mask y) (id_attrs_of (NlCache.ce_data x)) = id_attrs_of (NlCache.ce_data x) /\
  same_identity (NlCache.ce_data x) (NlCache.ce_data y).
Proof.
  cbv zeta. unfold NlCache.identical, NlCache.req_attrs. cbn [NlCache.oo_id_attrs_get NlCache.oo_compare neigh_object_ops].
  set (v := NlCache.ce_data (NlCache.ce_content a)). set (w := NlCache.ce_data (NlCache.ce_content b)).
  destruct (Z.eqb_spec (NlCache.ce_ops a) (NlCache.ce_ops b)) as [->|]; cbn [negb]; [|naive_solver].
  assert (forall u, s32 (id_attrs_of u) = id_attrs_of u) as Hs by (intros u; by destruct (id_attrs_cases u) as [-> | ->]).
  rewrite !Hs. destruct (Z.eqb_spec (id_attrs_of v) (id_attrs_of w)) as [Ei|]; cbn [negb mbind option_bind]; [|naive_solver].
  assert ((u32 (id_attrs_of v) =? NlCache.UINT_MAX) = false /\ u32 (id_attrs_of v) = id_attrs_of v) as [-> ->] by (by destruct (id_attrs_cases v) as [-> | ->]).
  destruct (Z.eqb_spec (Z.land (NlCache.ce_mask (NlCache.ce_content a)) (id_attrs_of v)) (id_attrs_of v)) as [->|]; cbn [negb orb]; [|naive_solver].
  destruct (Z.eqb_spec (Z.land (NlCache.ce_mask (NlCache.ce_content b)) (id_attrs_of v)) (id_attrs_of v)) as [->|]; cbn [negb]; [|naive_solver].
  rewrite Z.eqb_eq, difference_zero by apply compared_bits. unfold neigh_compared, same_identity. change (negb (Z.land 0 LOOSE_COMPARISON =? 0)) with false. cbn [app].
  rewrite !list.Forall_cons, list.Forall_nil. cbn [fst snd]. rewrite !bool_decide_eq_true. unfold id_attrs_of in *.
  destruct (default 0 (w_family v) =? AF_BRIDGE), (default 0 (w_family w) =? AF_BRIDGE); try done;
    repeat match goal with |- context [has ?x ?y] => let c := eval vm_compute in (has x y) in change (has x y) with c end;
    intuition (try done; try discriminate).
Qed.

Lemma same_identity_sym v w : same_identity v w -> same_identity w v.
Proof. unfold same_identity. intros [E Hi]. split; [done|]. rewrite <- E. revert Hi. destruct (_ =? _); intros [-> Hs]; split; auto using same_addr_sym. Qed.

Lemma same_identity_trans u v w : same_identity u v -> same_identity v w -> same_identity u w.
Proof.
  unfold same_identity. intros [E Hi] [E' Hj]. split; [congruence|]. rewrite <- E in Hj. revert Hi Hj. destruct (_ =? _); intros [-> Hs] [-> Ht]; split; eauto using same_addr_trans.
Qed.

Lemma same_identity_key v w : same_identity v w -> key_bytes v = key_bytes w.
Proof.
  unfold same_identity, key_bytes. intros [E Hi]. rewrite <- E. revert Hi. destruct (_ =? _); intros [-> Hs]; by rewrite (same_addr_bytes _ _ Hs).
Qed.

#[export] Instance neigh_laws : NlCacheInv.ObjectLaws (fun _ => neigh_object_ops).
Proof.
  constructor.
  - intros a b. rewrite !neigh_identical. cbv zeta. intros (-> & E & H1 & H2 & Hi). rewrite <- E. split_and!; auto using same_identity_sym.
  - intros a b d. rewrite !neigh_identical. cbv zeta. intros (-> & E & H1 & H2 & Hi) (-> & E' & H1' & H2' & Hi'). rewrite <- E in *. split_and!; eauto using same_identity_trans.
  - intros a b sz. rewrite neigh_identical. cbv zeta. intros (_ & _ & _ & _ & Hi). unfold NlCache.keygen, key_of. cbn [NlCache.oo_keygen neigh_object_ops]. unfold key_of.
    by rewrite (same_identity_key _ _ Hi).
  - intros a sz Hsz. unfold NlCache.keygen. cbn [NlCache.oo_keygen neigh_object_ops]. by apply Z.mod_pos_bound.
Qed.

Section Identity.
Context {al : Allocator}.
Hypothesis memory : malloc_total al.

(** The address a key is made of. *)
Lemma key_addr h mask attr p : ptr_ok h mask attr p -> exists d,
  (match p with
   | None => Some []
   | Some p => a ← h_addrs h !! p; rd_bytes 0 (NlAddr.nl_addr_get_len a) (NlAddr.nl_addr_get_binary_addr a)
   end) = Some d /\ zlen d <= 65531 /\ d = default [] (av_bytes <$> view_ptr h mask attr p).
Proof.
  unfold ptr_ok, view_ptr. destruct (has mask attr); [|intros ->; by exists []]. intros (a & E & Ha). destruct p as [p|]; [|done]. cbn [deref mbind option_bind] in E.
  exists (addr_bytes a). assert (h_addrs h !! p = Some a) as Ep by exact E. rewrite Ep. cbn [mbind option_bind]. rewrite rd_addr by done. split; [done|].
  rewrite addr_bytes_len by done. split; [apply Ha|]. unfold deref. cbn [mbind option_bind]. by rewrite Ep.
Qed.

Lemma neigh_keygen_value addr h o sz : neigh_ok h o -> 0 < sz -> neigh_keygen addr h o sz = Some (key_of (neigh_view h o) sz).
Proof.
  intros Ho Hsz. unfold neigh_keygen, key_of, key_bytes. cbn [neigh_view w_family w_master w_ifindex w_lladdr w_dst].
  rewrite (att_default _ _ (n_family (ce_data o))) by apply (ok_no_family _ _ Ho).
  destruct (n_family (ce_data o) =? AF_BRIDGE).
  1: destruct (key_addr _ _ _ _ (ok_lladdr _ _ Ho)) as (d & -> & Hd & <-); rewrite att_default by apply (ok_no_master _ _ Ho).
  2: destruct (key_addr _ _ _ _ (ok_dst _ _ Ho)) as (d & -> & Hd & <-); rewrite att_default by apply (ok_no_ifindex _ _ Ho).
  all: cbn [mbind option_bind]; pose proof (zlen_nonneg d); unfold u32; rewrite wrap_id by lia; rewrite memory by lia; rewrite (proj2 (Z.eqb_neq sz 0)) by lia.
  all: set (k := le_bytes 4 _ ++ le_bytes 4 _ ++ d); assert (zlen k = 8 + zlen d) as Hk by (unfold k; rewrite !zlen_app, !zlen_le; lia).
  all: unfold NlHash.nl_hash; rewrite (NlHash.nl_hash_any_value false) by lia; cbn [mbind option_bind].
  all: rewrite take_ge by (unfold zlen in *; lia); done.
Qed.

(** A neighbour as an object of a cache. *)
Definition cache_object (h : heap) (o : neigh) : NlCache.nl_object neigh_value :=
  NlCache.Object (ce_refcnt o) 0 None (ce_msgtype o) 0 (content_of h o).

(** C28: neighbours can be kept in a hashed cache: the functions of the object
    type keep the promises the cache is proved against (identity is symmetric
    and transitive, and neighbours of one identity have one key), where the
    comparison, the key and the identifying attributes computed from the
    objects on the heap are those of the values they stand for.  The key does
    not depend on where it is stored. *)
Theorem neigh_is_cache_object : NlCacheInv.ObjectLaws (fun _ => neigh_object_ops) /\
  forall h a b attrs flags addr sz, neigh_ok h a -> neigh_ok h b -> ints_ok h -> 0 < sz ->
  neigh_compare h a b attrs flags = Some (difference attrs (neigh_compared flags (neigh_view h a) (neigh_view h b))) /\
  neigh_keygen addr h a sz = Some (NlCache.keygen (fun _ => neigh_object_ops) (cache_object h a) sz) /\
  neigh_id_attrs_get (ce_data a) = id_attrs_of (neigh_view h a).
Proof.
  split; [apply neigh_laws|]. intros h a b attrs flags addr sz Ha Hb Hi Hsz. split; [by apply neigh_compare_value|]. split; [by apply neigh_keygen_value|].
  unfold neigh_id_attrs_get, id_attrs_of. cbn [neigh_view w_family]. by rewrite att_default by apply (ok_no_family _ _ Ha).
Qed.

End Identity.

(** ** The master of a bridge port *)

(** The links of the cache are alive and their counters can go up. *)
Definition links_ok (h : heap) (lcache : option (list positive)) : Prop :=
  Forall (fun p => exists l, h_links h !! p = Some l /\ 0 < l_refcnt l < INT_MAX) (default [] lcache).

(** The master of the first link with the index. *)
Fixpoint master_of (h : heap) (links : list positive) (ifindex : Z) : option Z :=
  match links with
  | [] => None
  | p :: links' =>
      match h_links h !! p with
      | Some l => if l_index l =? u32 ifindex then Some (l_master l) else master_of h links' ifindex
      | None => None
      end
  end.

Lemma load_link_run h p l : h_links h !! p = Some l -> load_link p h = Some (l, h).
Proof. unfold load_link. by intros ->. Qed.

Lemma rtnl_link_get_run h links ifindex : links_ok h (Some links) -> exists r h', rtnl_link_get links ifindex h = Some (r, h') /\
  match r with
  | Some p => exists l, h_links h !! p = Some l /\ 0 < l_refcnt l < INT_MAX /\ master_of h links ifindex = Some (l_master l) /\
      h' = Heap (h_addrs h) (<[p := Link (l_refcnt l + 1) (l_index l) (l_master l)]> (h_links h))
  | None => h' = h /\ master_of h links ifindex = None
  end.
Proof.
  unfold links_ok. cbn [default]. induction links as [|p links IH]; intros Hl; [by exists None, h|]. apply list.Forall_cons in Hl as [(l & El & Hr) Hl].
  cbn [rtnl_link_get master_of]. rewrite (hbind_run _ _ _ _ _ (load_link_run _ _ _ El)), El. destruct (l_index l =? u32 ifindex); [|by apply IH].
  assert (link_get p h = Some (tt, Heap (h_addrs h) (<[p := Link (l_refcnt l + 1) (l_index l) (l_master l)]> (h_links h)))) as Eg.
  { unfold link_get. rewrite El. cbn [mbind option_bind]. by rewrite s32_id by (unfold INT_MIN, INT_MAX in *; lia). }
  rewrite (hbind_run _ _ _ _ _ Eg). eexists (Some p), _. split; [done|]. exists l. done.
Qed.

(** The link is got and put: the heap is as before. *)
Lemma read_master_run lcache o h : links_ok h lcache ->
  let m := if n_family (ce_data o) =? AF_BRIDGE then links ← lcache; master_of h links (s32 (n_ifindex (ce_data o))) else None in
  read_master lcache o h = Some (match m with Some v => assign NEIGH_ATTR_MASTER (set_n_master v) o | None => o end, h).
Proof.
  intros Hl. cbv zeta. unfold read_master. destruct (n_family (ce_data o) =? AF_BRIDGE); [|done]. destruct lcache as [links|]; [|done].
  cbn [mbind option_bind]. destruct (rtnl_link_get_run h links (s32 (n_ifindex (ce_data o))) Hl) as (r & h' & E & Hr). rewrite (hbind_run _ _ _ _ _ E).
  destruct r as [p|]; [|by destruct Hr as [-> ->]]. destruct Hr as (l & El & Hc & -> & ->).
  set (h1 := Heap _ _). assert (h_links h1 !! p = Some (Link (l_refcnt l + 1) (l_index l) (l_master l))) as E1 by (unfold h1; cbn; apply lookup_insert_eq).
  rewrite (hbind_run _ _ _ _ _ (load_link_run _ _ _ E1)). cbn [l_master].
  assert (link_put (Some p) h1 = Some (tt, h)) as E2; [|by rewrite (hbind_run _ _ _ _ _ E2)].
  unfold link_put. rewrite E1. cbn [mbind option_bind l_refcnt l_index l_master]. replace (l_refcnt l + 1 - 1) with (l_refcnt l) by lia.
  rewrite s32_id by (unfold INT_MIN, INT_MAX in *; lia). rewrite (proj2 (Z.ltb_ge _ _)), (proj2 (Z.leb_gt _ _)) by lia. unfold h1. cbn [h_addrs h_links].
  rewrite insert_insert_eq, insert_id by (rewrite El; by destruct l). by destruct h.
Qed.

(** ** Arbitrary messages *)

Definition ptrs : option neigh -> list (option positive) := held (fun n => [n_lladdr n; n_dst n]).

Lemma neigh_put_last user l h o : heap_ok user (n_lladdr (ce_data o) :: n_dst (ce_data o) :: l) h -> ce_refcnt o = 1 -> exists h',
  rtnl_neigh_put (Some o) h = Some (None, h') /\ heap_ok user l h' /\ keeps h h'.
Proof. by apply obj_put_last. Qed.

Lemma neigh_put_any user l h o : heap_ok user (n_lladdr (ce_data o) :: n_dst (ce_data o) :: l) h -> 1 <= ce_refcnt o <= INT_MAX -> exists r h',
  rtnl_neigh_put (Some o) h = Some (r, h') /\ heap_ok user (ptrs r ++ l) h'.
Proof. by apply obj_put_any. Qed.

Lemma no_neigh_ok h type : neigh_ok h (Object 1 type 0 no_neigh).
Proof. constructor; done. Qed.

Ltac known_bits := rewrite ?has_lor;
  repeat match goal with |- context [has ?a ?b] =>
    lazymatch a with ce_mask _ => fail | _ => let v := eval vm_compute in (has a b) in change (has a b) with v end end;
  rewrite ?orb_false_r, ?orb_true_r.

Ltac neigh_fields := cbn [assign ce_data ce_mask set_n_family set_n_ifindex set_n_state set_n_flags set_n_type set_n_lladdr set_n_dst set_n_probes
  set_n_cacheinfo set_n_state_mask set_n_flag_mask set_n_master n_family n_ifindex n_state n_flags n_type n_lladdr n_dst n_probes n_cacheinfo
  n_state_mask n_flag_mask n_master].

(** A well-formed neighbour stays so when fields are set. *)
Ltac keep_ok := lazymatch goal with Ho : neigh_ok _ _ |- neigh_ok _ _ => destruct Ho end; constructor; neigh_fields;
  unfold ptr_ok in *; known_bits; try assumption; try (intros; discriminate); eauto.

(** A neighbour that is being parsed: the attributes [missing] were not read
    yet. *)
Definition parsing (user : positive -> Z) (l : list (option positive)) (missing : list Z) (h : heap) (o : neigh) : Prop :=
  neigh_ok h o /\ heap_ok user (n_lladdr (ce_data o) :: n_dst (ce_data o) :: l) h /\ ce_refcnt o = 1 /\
  Forall (fun attr => has (ce_mask o) attr = false) missing.

Section Safe.
Context {al : Allocator}.

Lemma guess_run p h a : h_addrs h !! p = Some a -> (a ← load p; addr_set_family p (NlAddr.nl_addr_guess_family a)) h =
  Some (tt, Heap (<[p := NlAddr.nl_addr_set_family a (NlAddr.nl_addr_guess_family a)]> (h_addrs h)) (h_links h)).
Proof.
  intros E. rewrite (hbind_run _ _ _ _ _ (load_run _ _ _ E)). unfold addr_set_family. by rewrite (hbind_run _ _ _ _ _ (load_run _ _ _ E)).
Qed.

Lemma nothing_run p h (a : nl_addr) : h_addrs h !! p = Some a -> (mret tt : H unit) h = Some (tt, Heap (<[p := a]> (h_addrs h)) (h_links h)).
Proof. intros E. rewrite insert_id by done. by destruct h. Qed.

Lemma lladdr_parsing user l buf tb h o : Forall byte_ok buf -> typed buf neigh_policy tb -> parsing user l [NEIGH_ATTR_LLADDR; NEIGH_ATTR_DST] h o ->
  exists o' ok h', opt_addr buf tb NDA_LLADDR NlAddr.AF_UNSPEC NEIGH_ATTR_LLADDR set_n_lladdr
    (fun p => a ← load p; addr_set_family p (NlAddr.nl_addr_guess_family a)) o h = Some (o', ok, h') /\
  parsing user l [NEIGH_ATTR_DST] h' o' /\ h_links h' = h_links h.
Proof.
  intros Hb Ht (Ho & Hh & Hr & Hm). apply list.Forall_cons in Hm as [Hs Hm].
  assert (n_lladdr (ce_data o) = None) as Es by (pose proof (ok_lladdr _ _ Ho) as Hp; unfold ptr_ok in Hp; by rewrite Hs in Hp).
  rewrite Es, heap_ok_null in Hh.
  destruct (opt_addr_safe buf neigh_policy tb Hb Ht user _ NDA_LLADDR NlAddr.AF_UNSPEC NEIGH_ATTR_LLADDR set_n_lladdr
    (fun p => a ← load p; addr_set_family p (NlAddr.nl_addr_guess_family a)) (fun a => NlAddr.nl_addr_set_family a (NlAddr.nl_addr_guess_family a)) o h Hh)
    as [E|[E|(p & h1 & a & E & Hh1 & Hn & Ea & El & Ha)] ]; [done|intros; by apply guess_run|done|done|..].
  - eexists _, _, _. split; [exact E|]. split; [|done]. split; [done|]. rewrite Es, heap_ok_null. done.
  - eexists _, _, _. split; [exact E|]. split; [|done]. split; [|split; [cbn; by rewrite heap_ok_null|done]]. keep_ok. by rewrite Hs.
  - eexists _, _, _. split; [exact E|]. split; [|done]. pose proof (ptr_more _ _ _ _ _ _ _ (ok_dst _ _ Ho) Hn Ea) as Hd.
    assert (deref h1 (Some p) = Some a) by (unfold deref; cbn; by rewrite Ea, lookup_insert_eq).
    split; [keep_ok|split; [exact Hh1|split; [exact Hr|]]]. apply list.Forall_cons in Hm as [Hm _]. apply Forall_singleton. cbn [assign ce_mask]. rewrite has_lor, Hm. done.
Qed.

Lemma neigh_dst_parsing user l buf tb family h o : Forall byte_ok buf -> typed buf neigh_policy tb -> parsing user l [NEIGH_ATTR_DST] h o ->
  exists o' ok h', opt_addr buf tb NDA_DST family NEIGH_ATTR_DST set_n_dst (fun _ => mret tt) o h = Some (o', ok, h') /\
  parsing user l [] h' o' /\ h_links h' = h_links h.
Proof.
  intros Hb Ht (Ho & Hh & Hr & Hm). apply list.Forall_cons in Hm as [Hs Hm].
  assert (n_dst (ce_data o) = None) as Es by (pose proof (ok_dst _ _ Ho) as Hp; unfold ptr_ok in Hp; by rewrite Hs in Hp).
  rewrite Permutation_swap, Es, heap_ok_null in Hh.
  destruct (opt_addr_safe buf neigh_policy tb Hb Ht user _ NDA_DST family NEIGH_ATTR_DST set_n_dst (fun _ => (mret tt : H unit)) (fun a => a) o h Hh)
    as [E|[E|(p & h1 & a & E & Hh1 & Hn & Ea & El & Ha)] ]; [done|intros; by apply nothing_run|done|done|..].
  - eexists _, _, _. split; [exact E|]. split; [|done]. split; [done|]. rewrite Permutation_swap, Es, heap_ok_null. done.
  - eexists _, _, _. split; [exact E|]. split; [|done]. split; [|split; [cbn; by rewrite Permutation_swap, heap_ok_null|done]]. keep_ok. by rewrite Hs.
  - eexists _, _, _. split; [exact E|]. split; [|done]. pose proof (ptr_more _ _ _ _ _ _ _ (ok_lladdr _ _ Ho) Hn Ea) as Hd.
    assert (deref h1 (Some p) = Some a) by (unfold deref; cbn; by rewrite Ea, lookup_insert_eq).
    split; [keep_ok|split; [cbn; rewrite Permutation_swap; exact Hh1|split; [exact Hr|constructor]]].
Qed.

Lemma cacheinfo_parsing user l buf tb h o : typed buf neigh_policy tb -> parsing user l [] h o -> exists o',
  read_cacheinfo buf tb o h = Some (o', h) /\ parsing user l [] h o'.
Proof.
  intros Ht (Ho & Hh & Hr & Hm). unfold read_cacheinfo. destruct (attr_of tb NDA_CACHEINFO) as [ci|] eqn:E; [|by exists o].
  destruct (Ht NDA_CACHEINFO ci ltac:(done) E) as [(d & Hf & Hd) Hty]. destruct (Hty (Policy 0 16 0) eq_refl) as (n & En & Hn & _).
  rewrite (found_len _ _ _ Hf) in En. injection En as <-. change (p_min (Policy 0 16 0)) with 16 in Hn.
  pose proof (found_rd _ _ _ 0 4 Hf ltac:(lia) ltac:(lia)) as E0. rewrite Z.add_0_r in E0. rewrite (hbind_run _ _ _ _ _ (of_option_run _ _ h E0)).
  pose proof (fun k Hk Hk' => of_option_run _ _ h (found_rd _ _ _ k 4 Hf Hk Hk')) as Erd.
  rewrite (hbind_run _ _ _ _ _ (Erd 4 ltac:(lia) ltac:(lia))), (hbind_run _ _ _ _ _ (Erd 8 ltac:(lia) ltac:(lia))), (hbind_run _ _ _ _ _ (Erd 12 ltac:(lia) ltac:(lia))).
  eexists. split; [done|]. split; [keep_ok|]. done.
Qed.

Lemma parsing_more user l missing h o attr f : parsing user l [] h o -> neigh_ok h (assign attr f o) -> n_lladdr (f (ce_data o)) = n_lladdr (ce_data o) ->
  n_dst (f (ce_data o)) = n_dst (ce_data o) -> missing = [] -> parsing user l missing h (assign attr f o).
Proof. intros (Ho & Hh & Hr & _) Hok El Ed ->. split; [done|]. split; [|split; [done|constructor]]. cbn [assign ce_data]. by rewrite El, Ed. Qed.

Lemma parse_neigh_safe user l lcache buf tb nm h type : Forall byte_ok buf -> typed buf neigh_policy tb -> heap_ok user l h -> links_ok h lcache ->
  0 <= ndm_family nm < 256 -> 0 <= ndm_state nm < 2 ^ 16 -> 0 <= ndm_flags nm < 256 -> exists o' ok h',
  parse_neigh lcache buf tb nm (Object 1 type 0 no_neigh) h = Some (o', ok, h') /\ (exists missing, parsing user l missing h' o') /\ h_links h' = h_links h.
Proof.
  intros Hb Ht Hh Hlc Hf Hs Hfl. unfold parse_neigh. cbn [ce_refcnt ce_msgtype ce_data].
  match goal with |- context [opt_addr _ _ NDA_LLADDR _ _ _ _ ?x] => set (o0 := x) end.
  assert (parsing user l [NEIGH_ATTR_LLADDR; NEIGH_ATTR_DST] h o0) as P0.
  { split; [|split; [change (heap_ok user (None :: None :: l) h); by rewrite !heap_ok_null|split; [done|by repeat constructor]]].
    assert (0 <= u32 (ndm_ifindex nm) < 2 ^ 32) by (by apply wrap_range).
    constructor; unfold o0, ptr_ok; neigh_fields; try lia; try (intros; discriminate); done. }
  destruct (lladdr_parsing user l buf tb h o0 Hb Ht P0) as (o1 & ok & h1 & E1 & P1 & L1). rewrite (hbind_run _ _ _ _ _ E1).
  destruct ok; cbn [negb]; [|by eexists _, _, _; eauto].
  destruct (neigh_dst_parsing user l buf tb (n_family (ce_data o1)) h1 o1 Hb Ht P1) as (o2 & ok & h2 & E2 & P2 & L2). rewrite (hbind_run _ _ _ _ _ E2).
  destruct ok; cbn [negb]; [|eexists _, _, _; split; [done|]; split; [by eauto|congruence]].
  destruct (cacheinfo_parsing user l buf tb h2 o2 Ht P2) as (o3 & E3 & P3). rewrite (hbind_run _ _ _ _ _ E3).
  destruct (opt_u32_safe buf neigh_policy tb Ht NDA_PROBES NEIGH_ATTR_PROBES set_n_probes o3 h2 ltac:(done) ltac:(done)) as (c & v & E4 & _). rewrite (hbind_run _ _ _ _ _ E4).
  assert (parsing user l [] h2 (step c NEIGH_ATTR_PROBES (set_n_probes v) o3)) as P4.
  { destruct c; [|done]. apply parsing_more; [done| |done|done|done]. destruct P3 as [Ho _]. keep_ok. }
  set (o4 := step _ _ _ _) in *. assert (links_ok h2 lcache) as Hlc2 by (unfold links_ok; by rewrite L2, L1).
  rewrite (hbind_run _ _ _ _ _ (read_master_run lcache o4 h2 Hlc2)). eexists _, _, h2. split; [done|]. split; [|congruence]. exists [].
  destruct (if _ =? _ then _ else _) as [m|]; [|done]. apply parsing_more; [done| |done|done|done]. destruct P4 as [Ho _]. keep_ok.
Qed.

Lemma neigh_policy_ok : policy_ok NDA_MAX neigh_policy.
Proof.
  split; [by vm_compute|]. unfold neigh_policy. repeat (apply list.Forall_cons; split; [split_and!; try (by vm_compute); first [by left|by right]|]). constructor.
Qed.

Lemma read_ndm_any buf : Forall byte_ok buf -> 28 <= zlen buf -> exists m, read_ndm buf (nlmsg_data 0) = Some m /\
  0 <= ndm_family m < 256 /\ 0 <= ndm_state m < 2 ^ 16 /\ 0 <= ndm_flags m < 256.
Proof.
  intros Hb Hz. change (nlmsg_data 0) with 16. unfold read_ndm. rewrite !rd_Some by lia. cbn [mbind option_bind]. eexists. split; [done|].
  cbn [ndm_family ndm_state ndm_flags]. split_and!; apply (get_le_range _ 1 _ Hb) || apply (get_le_range _ 2 _ Hb).
Qed.

(** The result of [rtnl_neigh_parse]: an error, or a well-formed neighbour. *)
Lemma neigh_parse_safe user l h lcache buf : msg_in buf -> heap_ok user l h -> links_ok h lcache -> exists err r h',
  rtnl_neigh_parse lcache buf h = Some (err, r, h') /\
  match r with
  | Some o => err = 0 /\ neigh_ok h' o /\ ce_refcnt o = 1 /\ heap_ok user (n_lladdr (ce_data o) :: n_dst (ce_data o) :: l) h'
  | None => err < 0 /\ heap_ok user l h'
  end.
Proof.
  intros Hm Hh Hlc. pose proof Hm as (Hb & Hz & _). unfold rtnl_neigh_parse, rtnl_neigh_alloc, obj_alloc.
  destruct (malloc_ok neigh_size); [|eexists (- NLE_NOMEM), None, h; done].
  rewrite (hbind_run _ _ _ (get_le 4 2 buf) h) by (apply of_option_run, rd_Some; lia). cbn [ce_refcnt ce_mask ce_data].
  assert (forall type, heap_ok user (n_lladdr (ce_data (Object 1 type 0 no_neigh)) :: n_dst (ce_data (Object 1 type 0 no_neigh)) :: l) h) as Hh0.
  { intros type. change (heap_ok user (None :: None :: l) h). by rewrite !heap_ok_null. }
  destruct (nlmsg_parse_any buf 12 NDA_MAX neigh_policy Hm) as (otb & err & E & Herr); [lia|done|done|by apply neigh_policy_ok|].
  rewrite (hbind_run _ _ _ _ _ (of_option_run _ _ h E)). destruct Herr as [Hneg|(-> & tb & -> & Hlen & Htb)].
  - rewrite (proj2 (Z.ltb_lt _ _) Hneg). destruct (neigh_put_last user l h _ (Hh0 (get_le 4 2 buf)) eq_refl) as (h' & Ep & Hh' & _).
    rewrite (hbind_run _ _ _ _ _ Ep). by eexists _, None, _.
  - change (0 <? 0) with false. cbv iota. rewrite (hbind_run _ _ _ tb h) by done.
    destruct (read_ndm_any buf Hb ltac:(lia)) as (nm & En & H1 & H2 & H3). rewrite (hbind_run _ _ _ _ _ (of_option_run _ _ h En)).
    destruct (parse_neigh_safe user l lcache buf tb nm h (get_le 4 2 buf) Hb Htb Hh Hlc H1 H2 H3) as (o & ok & h1 & Ep & (missing & Ho & Hh1 & Hr & _) & _).
    rewrite (hbind_run _ _ _ _ _ Ep). destruct ok; cbn [negb]; [by eexists 0, (Some o), h1|].
    destruct (neigh_put_last user l h1 o Hh1 Hr) as (h' & Eq & Hh' & _). rewrite (hbind_run _ _ _ _ _ Eq). by eexists (- NLE_NOMEM), None, h'.
Qed.

(** What the callback of the parser does. *)
Definition callback_ok (user : positive -> Z) (l : list (option positive)) (pp_cb : neigh -> H (neigh * Z)) : Prop :=
  forall o h, neigh_ok h o -> ce_refcnt o = 1 -> heap_ok user (n_lladdr (ce_data o) :: n_dst (ce_data o) :: l) h -> exists o' err h',
    pp_cb o h = Some (o', err, h') /\ 1 <= ce_refcnt o' <= INT_MAX /\ heap_ok user (n_lladdr (ce_data o') :: n_dst (ce_data o') :: l) h'.

(** The parser of neighbours is safe on every message: it reads inside the
    message, also the cache information that is read as a structure, takes and
    gives back a reference to the link of a bridge port, calls back with a
    well-formed neighbour, and afterwards the references to addresses are
    those of the user and of the neighbour, if the callback kept it. *)
Theorem neigh_msg_parser_safe user l h lcache buf pp_cb : msg_in buf -> heap_ok user l h -> links_ok h lcache -> callback_ok user l pp_cb ->
  exists err r h', neigh_msg_parser pp_cb lcache buf h = Some (err, r, h') /\ heap_ok user (ptrs r ++ l) h'.
Proof.
  intros Hm Hh Hlc Hcb. unfold neigh_msg_parser. destruct (neigh_parse_safe user l h lcache buf Hm Hh Hlc) as (err & r & h1 & E & Hr).
  rewrite (hbind_run _ _ _ _ _ E). destruct r as [o|].
  - destruct Hr as (-> & Ho & Hc & Hh1). change (0 <? 0) with false. cbv iota. rewrite (hbind_run _ _ _ _ _ (of_option_run _ _ h1 eq_refl)).
    destruct (Hcb o h1 Ho Hc Hh1) as (o' & err & h2 & Ec & Hc' & Hh2). rewrite (hbind_run _ _ _ _ _ Ec).
    destruct (neigh_put_any user l h2 o' Hh2 Hc') as (r & h3 & Ep & Hh3). rewrite (hbind_run _ _ _ _ _ Ep). by eexists _, _, _.
  - destruct Hr as [Hneg Hh1]. rewrite (proj2 (Z.ltb_lt _ _) Hneg). by eexists _, None, h1.
Qed.

End Safe.

(** ** A neighbour and its message *)

Definition neigh_msg_attrs (h : heap) (o : neigh) : list (Z * bytes) :=
  let n := ce_data o in
  on (negb (n_family n =? AF_BRIDGE)) (NDA_DST, default [] (addr_bytes <$> deref h (n_dst n))) ++
  on (has (ce_mask o) NEIGH_ATTR_LLADDR) (NDA_LLADDR, default [] (addr_bytes <$> deref h (n_lladdr n))).

(** The family of the header is that of the destination. *)
Definition hdr_family (h : heap) (n : rtnl_neigh) : Z :=
  if n_family n =? AF_BRIDGE then AF_BRIDGE else default 0 (a_family <$> deref h (n_dst n)).

Definition neigh_hdr (h : heap) (o : neigh) : ndmsg :=
  let m := ce_mask o in
  let n := ce_data o in
  Ndm (hdr_family h n) (s32 (n_ifindex n)) (if has m NEIGH_ATTR_STATE then n_state n else NUD_PERMANENT) (if has m NEIGH_ATTR_FLAGS then n_flags n else 0) 0.

Definition sendable (h : heap) (o : neigh) : Prop :=
  (n_family (ce_data o) <> AF_BRIDGE -> has (ce_mask o) NEIGH_ATTR_DST = true) /\
  (forall a, deref h (n_lladdr (ce_data o)) = Some a -> a_len a <= 255) /\
  (forall a, deref h (n_dst (ce_data o)) = Some a -> a_len a <= 255 /\ 0 <= a_family a < 256).

Lemma short_bytes h mask attr p : ptr_ok h mask attr p -> (forall a, deref h p = Some a -> a_len a <= 255) ->
  zlen (default [] (addr_bytes <$> deref h p)) <= 255.
Proof.
  unfold ptr_ok. intros Hp Hl. destruct (has mask attr); [|by rewrite Hp]. destruct Hp as (a & E & Ha). rewrite E. cbn. rewrite addr_bytes_len by done. by apply Hl.
Qed.

Lemma neigh_attrs_small h o : neigh_ok h o -> sendable h o ->
  zlen (default [] (addr_bytes <$> deref h (n_lladdr (ce_data o)))) <= 255 /\ zlen (default [] (addr_bytes <$> deref h (n_dst (ce_data o)))) <= 255 /\
  Forall small (neigh_msg_attrs h o) /\ zlen (enc_all (neigh_msg_attrs h o)) <= 600.
Proof.
  intros Ho (_ & Hl & Hd). pose proof (short_bytes _ _ _ _ (ok_lladdr _ _ Ho) Hl) as H1.
  pose proof (short_bytes _ _ _ _ (ok_dst _ _ Ho) (fun a E => proj1 (Hd a E))) as H2. split; [done|]. split; [done|]. unfold neigh_msg_attrs. split.
  - apply Forall_app. split.
    + destruct (negb _); [|constructor]. apply Forall_singleton. split; cbn [fst snd]; [by vm_compute|lia].
    + destruct (has _ _); [|constructor]. apply Forall_singleton. split; cbn [fst snd]; [by vm_compute|lia].
  - rewrite zlen_enc_app. eapply Z.le_trans; [apply Z.add_le_mono; apply zlen_enc_on; lia|]. lia.
Qed.

Lemma hdr_family_range h o : sendable h o -> 0 <= hdr_family h (ce_data o) < 256.
Proof.
  intros (_ & _ & Hd). unfold hdr_family. destruct (_ =? _); [done|]. destruct (deref h (n_dst (ce_data o))) as [a|]; [|done]. by apply (Hd a).
Qed.

Section RoundTrip.
Context {al : Allocator}.
Hypothesis memory : malloc_total al.
(** The default size of messages. *)
Variable size : Z.
Hypothesis size_ok : 1024 <= size <= 2147483640.

Lemma build_neigh_msg_ok h o cmd flags : neigh_ok h o -> sendable h o -> exists m,
  build_neigh_msg size h o cmd flags = Some (inr m) /\ nm_size m = size /\ blank m /\
  msg_holds m (hdr_rest cmd flags) (ndm_bytes (neigh_hdr h o) ++ enc_all (neigh_msg_attrs h o)).
Proof.
  intros Ho Hsend. pose proof Hsend as (Hdst & _ & Hd). unfold build_neigh_msg.
  assert (negb (n_family (ce_data o) =? AF_BRIDGE) = true -> exists a, deref h (n_dst (ce_data o)) = Some a /\ addr_ok a) as Hptr.
  { rewrite negb_true_iff, Z.eqb_neq. intros Hb. pose proof (ok_dst _ _ Ho) as Hp. unfold ptr_ok in Hp. by rewrite (Hdst Hb) in Hp. }
  assert (negb (n_family (ce_data o) =? AF_BRIDGE) && negb (has (ce_mask o) NEIGH_ATTR_DST) = false) as ->.
  { destruct (Z.eqb_spec (n_family (ce_data o)) AF_BRIDGE) as [|Hb]; [done|]. by rewrite (Hdst Hb). }
  assert ((if n_family (ce_data o) =? AF_BRIDGE then Some AF_BRIDGE else a ← deref h (n_dst (ce_data o)); Some (u8 (NlAddr.nl_addr_get_family a))) =
    Some (hdr_family h (ce_data o))) as ->.
  { unfold hdr_family. destruct (n_family (ce_data o) =? AF_BRIDGE); [done|]. destruct (Hptr eq_refl) as (a & E & _). rewrite E. cbn. unfold NlAddr.nl_addr_get_family, u8.
    rewrite wrap_id; [done|]. by apply (Hd a). }
  cbn [mbind option_bind]. destruct (alloc_simple_some size cmd flags memory) as [m0 E0]; [lia|]. rewrite E0.
  destruct (alloc_simple_holds size cmd flags m0) as (Hm0 & Hs0 & Hr0); [lia|done|].
  fold (neigh_hdr h o). set (hdr := ndm_bytes (neigh_hdr h o)). assert (zlen hdr = 12) as Hz by done.
  destruct (append_hdr_fits m0 (hdr_rest cmd flags) hdr Hm0) as (m1 & E1 & Hr1 & Hm1); [by rewrite Hz|lia|]. rewrite E1.
  destruct (neigh_attrs_small h o Ho Hsend) as (_ & _ & _ & Hroom).
  assert (builds m1 (hdr_rest cmd flags) hdr (Some m1) []) as B0 by (split; [apply rebuilt_refl|by rewrite app_nil_r]).
  edestruct (put_addr_builds _ _ _ _ _ h (negb (n_family (ce_data o) =? AF_BRIDGE)) NDA_DST (n_dst (ce_data o)) B0) as (o1 & -> & B1); [exact Hptr|].
  cbn [mbind option_bind].
  edestruct (put_addr_builds _ _ _ _ _ h (has (ce_mask o) NEIGH_ATTR_LLADDR) NDA_LLADDR (n_lladdr (ce_data o)) B1) as (o2 & -> & B2).
  { intros Hc. pose proof (ok_lladdr _ _ Ho) as Hp. unfold ptr_ok in Hp. by rewrite Hc in Hp. }
  cbn [mbind option_bind]. change ([] ++ on (negb (n_family (ce_data o) =? AF_BRIDGE)) (NDA_DST, default [] (addr_bytes <$> deref h (n_dst (ce_data o))))) with
    (on (negb (n_family (ce_data o) =? AF_BRIDGE)) (NDA_DST, default [] (addr_bytes <$> deref h (n_dst (ce_data o))))) in B2.
  change (builds m1 (hdr_rest cmd flags) hdr o2 (neigh_msg_attrs h o)) in B2.
  destruct o2 as [m|]; cbn [builds built_msg] in *; [|destruct Hr1; lia]. destruct B2 as [Hr Hm]. exists m. split; [done|].
  pose proof (rebuilt_trans _ _ _ Hr1 Hr) as Hall. split; [destruct Hall; congruence|]. split; [by apply (blank_rebuilt _ _ Hall)|done].
Qed.

Lemma read_ndm_bytes m rest n x : msg_holds m rest (ndm_bytes n ++ x) -> 0 <= ndm_family n < 256 -> ndm_ifindex n = s32 (ndm_ifindex n) ->
  0 <= ndm_state n < 2 ^ 16 -> 0 <= ndm_flags n < 256 -> 0 <= ndm_type n < 256 -> read_ndm (nm_nlh m) (nlmsg_data 0) = Some n.
Proof.
  intros Hm H1 H2 H3 H4 H5. unfold read_ndm. rewrite <- (Z.add_0_r (nlmsg_data 0)) at 1.
  rewrite !(hdr_field m rest (ndm_bytes n) x) by (done || (change (zlen (ndm_bytes n)) with 12; lia)). cbn [mbind option_bind].
  assert (ndm_bytes n = [] ++ le_bytes 1 (ndm_family n) ++ (le_bytes 1 0 ++ le_bytes 2 0 ++ le_bytes 4 (ndm_ifindex n) ++ le_bytes 2 (ndm_state n) ++
    le_bytes 1 (ndm_flags n) ++ le_bytes 1 (ndm_type n))) as E1 by done.
  assert (ndm_bytes n = (le_bytes 1 (ndm_family n) ++ le_bytes 1 0 ++ le_bytes 2 0) ++ le_bytes 4 (ndm_ifindex n) ++ (le_bytes 2 (ndm_state n) ++
    le_bytes 1 (ndm_flags n) ++ le_bytes 1 (ndm_type n))) as E2 by done.
  assert (ndm_bytes n = (le_bytes 1 (ndm_family n) ++ le_bytes 1 0 ++ le_bytes 2 0 ++ le_bytes 4 (ndm_ifindex n)) ++ le_bytes 2 (ndm_state n) ++
    (le_bytes 1 (ndm_flags n) ++ le_bytes 1 (ndm_type n))) as E3 by done.
  assert (ndm_bytes n = (le_bytes 1 (ndm_family n) ++ le_bytes 1 0 ++ le_bytes 2 0 ++ le_bytes 4 (ndm_ifindex n) ++ le_bytes 2 (ndm_state n)) ++
    le_bytes 1 (ndm_flags n) ++ le_bytes 1 (ndm_type n)) as E4 by done.
  assert (ndm_bytes n = (le_bytes 1 (ndm_family n) ++ le_bytes 1 0 ++ le_bytes 2 0 ++ le_bytes 4 (ndm_ifindex n) ++ le_bytes 2 (ndm_state n) ++
    le_bytes 1 (ndm_flags n)) ++ le_bytes 1 (ndm_type n) ++ []) as E5 by done.
  rewrite E1 at 1. rewrite (get_le_mid 0 1 []) by done. rewrite E2 at 1. rewrite (get_le_mid 4 4) by done. rewrite E3 at 1. rewrite (get_le_mid 8 2) by done.
  rewrite E4 at 1. rewrite (get_le_mid 10 1) by done. rewrite E5. rewrite (get_le_mid 11 1) by done.
  change (256 ^ Z.of_nat 1) with 256. change (256 ^ Z.of_nat 2) with (2 ^ 16). change (256 ^ Z.of_nat 4) with (2 ^ 32).
  rewrite (Z.mod_small (ndm_family n)), (Z.mod_small (ndm_state n)), (Z.mod_small (ndm_flags n)), (Z.mod_small (ndm_type n)) by done. destruct n. cbn [ndm_family ndm_ifindex ndm_state ndm_flags ndm_type] in *. do 2 f_equal. rewrite H2 at 2.
  unfold s32, swrap. change (32 - 1) with 31. f_equal. rewrite Zplus_mod_idemp_l. done.
Qed.

(** An optional value that is assigned. *)
Lemma match_step attr (f : Z -> rtnl_neigh -> rtnl_neigh) (m : option Z) (o : neigh) :
  match m with Some v => assign attr (f v) o | None => o end = step (bool_decide (is_Some m)) attr (f (default 0 m)) o.
Proof. by destruct m. Qed.

(** The neighbour that is read from a message: [p] and [q] are the new
    addresses, [m] is the master. *)
Definition parsed_neigh (h : heap) (t : neigh) (type : Z) (p q : positive) (m : option Z) : neigh :=
  let hdr := neigh_hdr h t in
  step (bool_decide (is_Some m)) NEIGH_ATTR_MASTER (set_n_master (default 0 m))
  (step (negb (n_family (ce_data t) =? AF_BRIDGE)) NEIGH_ATTR_DST (set_n_dst (Some q))
  (step (has (ce_mask t) NEIGH_ATTR_LLADDR) NEIGH_ATTR_LLADDR (set_n_lladdr (Some p))
  (Object 1 type 227 (set_n_type 0 (set_n_flags (ndm_flags hdr) (set_n_state (ndm_state hdr)
    (set_n_ifindex (u32 (ndm_ifindex hdr)) (set_n_family (ndm_family hdr) no_neigh)))))))).

(** The addresses that are read. *)
Definition read_lladdr (h : heap) (p : option positive) : nl_addr :=
  let a := attr_addr NlAddr.AF_UNSPEC (default [] (addr_bytes <$> deref h p)) in NlAddr.nl_addr_set_family a (NlAddr.nl_addr_guess_family a).
Definition read_dst (h : heap) (family : Z) (p : option positive) : nl_addr := attr_addr family (default [] (addr_bytes <$> deref h p)).

Lemma master_of_links h h' links i : h_links h = h_links h' -> master_of h links i = master_of h' links i.
Proof. intros E. induction links as [|p links IH]; [done|]. cbn [master_of]. by rewrite E, IH. Qed.

(** The master of the port, if the message is of a bridge. *)
Definition port_master (h : heap) (lcache : option (list positive)) (family ifindex : Z) : option Z :=
  if family =? AF_BRIDGE then links ← lcache; master_of h links ifindex else None.

Ltac lookup_attr := cbv beta; unfold neigh_msg_attrs; rewrite !last_of_app, !last_of_on;
  repeat match goal with |- context [?a =? ?b] => lazymatch a with n_family _ => fail | _ => let v := eval vm_compute in (a =? b) in change (a =? b) with v end end;
  rewrite ?andb_false_r, ?andb_true_r; reflexivity.

Lemma parse_neigh_run user l lcache h t type buf tb hp : neigh_ok h t -> heap_ok user l hp -> links_ok hp lcache ->
  sendable h t -> stored buf NDA_MAX tb (fun k => last_of k None (neigh_msg_attrs h t)) -> exists p q h',
  parse_neigh lcache buf tb (neigh_hdr h t) (Object 1 type 0 no_neigh) hp =
    Some (parsed_neigh h t type p q (port_master hp lcache (hdr_family h (ce_data t)) (s32 (u32 (s32 (n_ifindex (ce_data t)))))), true, h') /\
  heap_ok user ((if negb (n_family (ce_data t) =? AF_BRIDGE) then Some q else None) :: (if has (ce_mask t) NEIGH_ATTR_LLADDR then Some p else None) :: l) h' /\
  (has (ce_mask t) NEIGH_ATTR_LLADDR = true -> h_addrs h' !! p = Some (read_lladdr h (n_lladdr (ce_data t)))) /\
  (negb (n_family (ce_data t) =? AF_BRIDGE) = true -> h_addrs h' !! q = Some (read_dst h (hdr_family h (ce_data t)) (n_dst (ce_data t)))) /\
  (forall k a, h_addrs hp !! k = Some a -> h_addrs h' !! k = Some a) /\ h_links h' = h_links hp.
Proof.
  intros Ho Hh Hlc Hsend Hst. destruct (neigh_attrs_small h t Ho Hsend) as (Hl & Hd & _).
  unfold parse_neigh. cbn [ndm_family ndm_ifindex ndm_state ndm_flags ndm_type neigh_hdr ce_refcnt ce_msgtype ce_data ce_mask].
  match goal with |- context [opt_addr buf tb NDA_LLADDR ?f ?a ?g ?k ?o] =>
    destruct (opt_addr_run buf NDA_MAX tb _ Hst user l NDA_LLADDR f a g k (fun y => NlAddr.nl_addr_set_family y (NlAddr.nl_addr_guess_family y))
      (has (ce_mask t) NEIGH_ATTR_LLADDR) (default [] (addr_bytes <$> deref h (n_lladdr (ce_data t)))) o hp memory Hh) as (p & h1 & E1 & Hh1 & L1 & A1 & F1) end;
    [done|lookup_attr|lia|intros; by apply guess_run|done|].
  rewrite (hbind_run _ _ _ _ _ E1). cbn [negb].
  match goal with |- context [opt_addr buf tb NDA_DST (n_family (ce_data (step ?c ?b ?e ?x))) ?a ?g ?k ?o] =>
    change (n_family (ce_data (step c b e x))) with (n_family (ce_data o)); rewrite (step_same n_family c b e x) by done;
    destruct (opt_addr_run buf NDA_MAX tb _ Hst user _ NDA_DST (n_family (ce_data x)) a g k (fun y => y)
      (negb (n_family (ce_data t) =? AF_BRIDGE)) (default [] (addr_bytes <$> deref h (n_dst (ce_data t)))) o h1 memory Hh1) as (q & h2 & E2 & Hh2 & L2 & A2 & F2) end;
    [done|lookup_attr|lia|intros; by apply nothing_run|done|].
  rewrite (hbind_run _ _ _ _ _ E2). cbn [negb].
  assert (attr_of tb NDA_CACHEINFO = None) as Eci.
  { pose proof (stored_lookup _ _ _ _ NDA_CACHEINFO Hst ltac:(done)) as Hc. assert (last_of NDA_CACHEINFO None (neigh_msg_attrs h t) = None) as E by lookup_attr.
    cbv beta in Hc. by rewrite E in Hc. }
  match goal with |- context [read_cacheinfo buf tb ?o] => assert (read_cacheinfo buf tb o h2 = Some (o, h2)) as E3 by (unfold read_cacheinfo; by rewrite Eci) end.
  rewrite (hbind_run _ _ _ _ _ E3).
  rewrite (hbind_run _ _ _ _ _ (opt_u32_run buf NDA_MAX tb _ Hst NDA_PROBES _ _ false 0 _ _ ltac:(done) ltac:(lookup_attr) ltac:(done))). cbn [step].
  assert (links_ok h2 lcache) as Hlc2 by (unfold links_ok; by rewrite L2, L1).
  rewrite (hbind_run _ _ _ _ _ (read_master_run lcache _ h2 Hlc2)), match_step. rewrite !(step_same n_family), !(step_same n_ifindex) by done.
  cbn [ce_data set_n_family set_n_ifindex set_n_state set_n_flags set_n_type n_family n_ifindex].
  exists p, q, h2. fold (port_master h2 lcache (hdr_family h (ce_data t)) (s32 (u32 (s32 (n_ifindex (ce_data t)))))).
  assert (port_master h2 lcache (hdr_family h (ce_data t)) (s32 (u32 (s32 (n_ifindex (ce_data t))))) =
    port_master hp lcache (hdr_family h (ce_data t)) (s32 (u32 (s32 (n_ifindex (ce_data t)))))) as Em.
  { unfold port_master. destruct (hdr_family h (ce_data t) =? AF_BRIDGE); [|reflexivity]. destruct lcache as [links|]; [|reflexivity]. cbn [mbind option_bind]. apply master_of_links. by rewrite L2, L1. }
  split; [by rewrite Em|]. split; [done|]. rewrite A2, L2, L1. 
  fold (read_dst h (hdr_family h (ce_data t)) (n_dst (ce_data t))). fold (read_lladdr h (n_lladdr (ce_data t))) in A1.
  assert (has (ce_mask t) NEIGH_ATTR_LLADDR = true -> negb (n_family (ce_data t) =? AF_BRIDGE) = true -> p <> q) as Hne.
  { intros C1 C2 ->. specialize (F2 C2). rewrite A1, C1, lookup_insert_eq in F2. done. }
  split_and!; [| |intros k a Hk|done].
  - intros C1. rewrite A1, C1. destruct (negb _); [rewrite lookup_insert_ne by (symmetry; auto)|]; by rewrite lookup_insert_eq.
  - intros ->. by rewrite lookup_insert_eq.
  - assert (h_addrs h1 !! k = Some a) as Hk1.
    { rewrite A1. destruct (has (ce_mask t) NEIGH_ATTR_LLADDR); [|done]. rewrite lookup_insert_ne; [done|]. intros ->. specialize (F1 eq_refl). congruence. }
    destruct (negb _); [|done]. rewrite lookup_insert_ne; [done|]. intros ->. specialize (F2 eq_refl). congruence.
Qed.

(** What a message says of an address: all its bits. *)
Definition whole (family : Z) (a : addr_value) : addr_value := AddrValue family (8 * zlen (av_bytes a)) (av_bytes a).

(** The family of an address by its length. *)
Definition guess (a : addr_value) : Z :=
  let n := zlen (av_bytes a) in
  if n =? 4 then NlAddr.AF_INET else if n =? 6 then NlAddr.AF_LLC else if n =? 16 then NlAddr.AF_INET6 else NlAddr.AF_UNSPEC.

(** The neighbour that is received when [v] is sent: a state that is not set is
    permanent, and only the addresses, the index, the state and the flags are
    sent. *)
Definition received (master : Z -> Z -> option Z) (v : neigh_value) : neigh_value :=
  let bridge := default 0 (w_family v) =? AF_BRIDGE in
  let family := if bridge then AF_BRIDGE else default 0 (av_family <$> w_dst v) in
  let ifindex := default 0 (w_ifindex v) in
  NeighValue (Some family) (Some ifindex) (Some (default NUD_PERMANENT (w_state v))) (Some (default 0 (w_flags v))) (Some 0)
    ((fun a => whole (guess a) a) <$> w_lladdr v) (if bridge then None else whole family <$> w_dst v) None None
    (master family (s32 ifindex)) 0 0.

Lemma attr_addr_view family d : addr_view (attr_addr family d) = AddrValue family (8 * zlen d) d.
Proof. unfold addr_view. cbn [a_family a_prefixlen attr_addr]. f_equal. change (take (Z.to_nat (zlen d)) d = d). apply take_ge. unfold zlen. lia. Qed.

Ltac steps_mask := rewrite ?step_mask; cbn [ce_mask];
  repeat match goal with |- context [has ?a ?b] =>
    lazymatch a with ce_mask _ => fail | _ => let v := eval vm_compute in (has a b) in change (has a b) with v end end;
  rewrite ?andb_false_r, ?andb_true_r, ?orb_false_r, ?orb_true_r; cbn [orb].

Lemma parsed_neigh_view h h' t type p q (master : Z -> Z -> option Z) : neigh_ok h t -> sendable h t ->
  (has (ce_mask t) NEIGH_ATTR_LLADDR = true -> h_addrs h' !! p = Some (read_lladdr h (n_lladdr (ce_data t)))) ->
  (negb (n_family (ce_data t) =? AF_BRIDGE) = true -> h_addrs h' !! q = Some (read_dst h (hdr_family h (ce_data t)) (n_dst (ce_data t)))) ->
  neigh_view h' (parsed_neigh h t type p q (master (hdr_family h (ce_data t)) (s32 (n_ifindex (ce_data t))))) = received master (neigh_view h t).
Proof.
  intros Ho (Hdst & _ & _) Hp Hq. unfold received. cbn [neigh_view w_family w_ifindex w_state w_flags w_lladdr w_dst].
  rewrite (att_default _ _ (n_family (ce_data t))), (att_default _ _ (n_ifindex (ce_data t))), (att_default _ _ (n_flags (ce_data t)))
    by first [apply (ok_no_family _ _ Ho)|apply (ok_no_ifindex _ _ Ho)|apply (ok_no_flags _ _ Ho)].
  assert ((if n_family (ce_data t) =? AF_BRIDGE then AF_BRIDGE else default 0 (av_family <$> view_ptr h (ce_mask t) NEIGH_ATTR_DST (n_dst (ce_data t)))) = hdr_family h (ce_data t)) as ->.
  { unfold hdr_family, view_ptr. destruct (Z.eqb_spec (n_family (ce_data t)) AF_BRIDGE) as [|Hb]; [done|]. rewrite (Hdst Hb). by destruct (deref h (n_dst (ce_data t))). }
  unfold neigh_view, parsed_neigh, view_ptr, att. f_equal; steps_mask; try reflexivity.
  - by rewrite !(step_same n_family).
  - rewrite !(step_same n_ifindex) by done. cbn [ce_data set_n_type set_n_flags set_n_state set_n_ifindex n_ifindex neigh_hdr ndm_ifindex]. f_equal.
    pose proof (ok_ifindex _ _ Ho). unfold u32, wrap, s32, swrap. change (32 - 1) with 31. Z.to_euclidean_division_equations. lia.
  - rewrite !(step_same n_state) by done. cbn [ce_data set_n_type set_n_flags set_n_state n_state neigh_hdr ndm_state]. by destruct (has (ce_mask t) NEIGH_ATTR_STATE).
  - rewrite !(step_same n_flags) by done. cbn [ce_data set_n_type set_n_flags n_flags neigh_hdr ndm_flags]. f_equal.
    destruct (has (ce_mask t) NEIGH_ATTR_FLAGS) eqn:E; [done|]. symmetry. by apply (ok_no_flags _ _ Ho).
  - by rewrite !(step_same n_type).
  - rewrite (step_same n_lladdr _ _ (set_n_master _)), (step_same n_lladdr _ _ (set_n_dst _)) by done.
    rewrite (step_set n_lladdr _ _ _ (Some p)) by done. destruct (has (ce_mask t) NEIGH_ATTR_LLADDR) eqn:C; [|done].
    unfold deref at 1. cbn [mbind option_bind]. rewrite (Hp eq_refl). cbn [fmap option_fmap option_map].
    pose proof (ok_lladdr _ _ Ho) as Ha. unfold ptr_ok in Ha. rewrite C in Ha. destruct Ha as (a & E & _). unfold read_lladdr. rewrite E. cbn [fmap option_fmap option_map from_option id].
    set (d := addr_bytes a). assert (forall f, addr_view (NlAddr.nl_addr_set_family (attr_addr NlAddr.AF_UNSPEC d) f) = AddrValue f (8 * zlen d) d) as Hv.
    { intros f. change (NlAddr.nl_addr_set_family (attr_addr NlAddr.AF_UNSPEC d) f) with (attr_addr f d). apply attr_addr_view. }
    rewrite Hv. done.
  - rewrite (step_same n_dst _ _ (set_n_master _)) by done. rewrite (step_set n_dst _ _ _ (Some q)) by done.
    destruct (Z.eqb_spec (n_family (ce_data t)) AF_BRIDGE) as [|Hb]; cbn [negb]; [done|]. rewrite (Hdst Hb).
    unfold deref at 1. cbn [mbind option_bind]. rewrite Hq by reflexivity. cbn [fmap option_fmap option_map].
    pose proof (ok_dst _ _ Ho) as Ha. unfold ptr_ok in Ha. rewrite (Hdst Hb) in Ha. destruct Ha as (a & E & _). unfold read_dst. rewrite E. cbn [fmap option_fmap option_map from_option id].
    by rewrite attr_addr_view.
  - rewrite (step_set n_master _ _ _ (default 0 (master (hdr_family h (ce_data t)) (s32 (n_ifindex (ce_data t)))))) by done.
    by destruct (master _ _).
  - by rewrite !(step_same n_state_mask).
  - by rewrite !(step_same n_flag_mask).
Qed.

(** The mask of a neighbour that was received, from what it says. *)
Definition mask_of (v : neigh_value) : Z :=
  let bit {A} (attr : Z) (x : option A) := match x with Some _ => attr | None => 0 end in
  Z.lor (Z.lor (Z.lor (Z.lor (bit NEIGH_ATTR_FLAGS (w_flags v)) (bit NEIGH_ATTR_STATE (w_state v))) (bit NEIGH_ATTR_IFINDEX (w_ifindex v)))
    (Z.lor (bit NEIGH_ATTR_FAMILY (w_family v)) (bit NEIGH_ATTR_TYPE (w_type v))))
    (Z.lor (Z.lor (bit NEIGH_ATTR_LLADDR (w_lladdr v)) (bit NEIGH_ATTR_DST (w_dst v))) (bit NEIGH_ATTR_MASTER (w_master v))).

Lemma parsed_neigh_mask h t type p q (master : Z -> Z -> option Z) : neigh_ok h t -> sendable h t ->
  ce_mask (parsed_neigh h t type p q (master (hdr_family h (ce_data t)) (s32 (n_ifindex (ce_data t))))) = mask_of (received master (neigh_view h t)).
Proof.
  intros Ho (Hdst & _ & _). unfold received. cbn [neigh_view w_family w_ifindex w_state w_flags w_lladdr w_dst].
  rewrite (att_default _ _ (n_family (ce_data t))), (att_default _ _ (n_ifindex (ce_data t)))
    by first [apply (ok_no_family _ _ Ho)|apply (ok_no_ifindex _ _ Ho)].
  assert ((if n_family (ce_data t) =? AF_BRIDGE then AF_BRIDGE else default 0 (av_family <$> view_ptr h (ce_mask t) NEIGH_ATTR_DST (n_dst (ce_data t)))) = hdr_family h (ce_data t)) as ->.
  { unfold hdr_family, view_ptr. destruct (Z.eqb_spec (n_family (ce_data t)) AF_BRIDGE) as [|Hb]; [done|]. rewrite (Hdst Hb). by destruct (deref h (n_dst (ce_data t))). }
  unfold parsed_neigh, mask_of. cbn [w_flags w_state w_ifindex w_family w_type w_lladdr w_dst w_master]. destruct (master _ _); cbn [step assign ce_mask].
  all: pose proof (ok_lladdr _ _ Ho) as Hl; unfold ptr_ok, view_ptr in *; destruct (has (ce_mask t) NEIGH_ATTR_LLADDR); [destruct Hl as (a & -> & _)|].
  all: destruct (Z.eqb_spec (n_family (ce_data t)) AF_BRIDGE) as [|Hb]; [done|]; pose proof (ok_dst _ _ Ho) as Hd; unfold ptr_ok in Hd; rewrite (Hdst Hb) in *.
  all: destruct Hd as (b & -> & _); reflexivity.
Qed.

(** A message that holds a neighbour is read back, whatever else its header
    says. *)
Lemma neigh_parse_holds user l lcache h t hp cmd m rest : neigh_ok h t -> sendable h t -> heap_ok user l hp -> links_ok hp lcache ->
  nm_size m <= 2147483640 -> rd 4 2 (nm_nlh m) = Some cmd -> msg_holds m rest (ndm_bytes (neigh_hdr h t) ++ enc_all (neigh_msg_attrs h t)) ->
  exists o h', rtnl_neigh_parse lcache (nm_nlh m) hp = Some (0, Some o, h') /\
  ce_refcnt o = 1 /\ ce_msgtype o = cmd /\ neigh_view h' o = received (port_master hp lcache) (neigh_view h t) /\
  heap_ok user (n_dst (ce_data o) :: n_lladdr (ce_data o) :: l) h' /\ h_links h' = h_links hp /\
  (forall k a, h_addrs hp !! k = Some a -> h_addrs h' !! k = Some a) /\
  ce_mask o = mask_of (neigh_view h' o).
Proof.
  intros Ho Hsend Hh Hlc Hsz Hcmd Hm.
  destruct (neigh_attrs_small h t Ho Hsend) as (_ & _ & Hsmall & _).
  destruct (nlmsg_parse_holds m _ _ _ 12 NDA_MAX (Some neigh_policy) Hm) as (tb & Etb & Hst & _); [lia|done|done|done|done| |].
  { unfold neigh_msg_attrs. apply Forall_app. split; apply passes_on; intros _; by apply passes_any. }
  destruct (parse_neigh_run user l lcache h t cmd (nm_nlh m) tb hp Ho Hh Hlc Hsend Hst) as (p & q & h' & E & Hh' & Hp & Hq & Hkeep & Hlinks).
  assert (s32 (u32 (s32 (n_ifindex (ce_data t)))) = s32 (n_ifindex (ce_data t))) as Ei.
  { unfold u32, wrap, s32, swrap. change (32 - 1) with 31. Z.to_euclidean_division_equations. lia. }
  rewrite Ei in E. set (o := parsed_neigh _ _ _ _ _ _) in E. exists o, h'.
  assert (neigh_view h' o = received (port_master hp lcache) (neigh_view h t)) as Ev by (by apply (parsed_neigh_view h h' t cmd p q (port_master hp lcache))).
  split_and!; [|by unfold o, parsed_neigh; rewrite !step_refcnt|by unfold o, parsed_neigh; rewrite !step_msgtype|done| |done|done|rewrite Ev; by apply (parsed_neigh_mask h t cmd p q (port_master hp lcache))].
  - unfold rtnl_neigh_parse, rtnl_neigh_alloc, obj_alloc. rewrite memory by (unfold neigh_size; lia).
    rewrite (hbind_run _ _ _ _ _ (of_option_run _ _ hp Hcmd)). cbn [ce_refcnt ce_mask ce_data].
    rewrite (hbind_run _ _ _ _ _ (of_option_run _ _ hp Etb)). change (0 <? 0) with false. cbv iota.
    rewrite (hbind_run _ _ _ _ _ (of_option_run _ tb hp eq_refl)).
    rewrite (hbind_run _ _ _ (neigh_hdr h t) hp); [by rewrite (hbind_run _ _ _ _ _ E)|]. apply of_option_run. eapply read_ndm_bytes; [exact Hm|..];
      cbn [neigh_hdr ndm_family ndm_ifindex ndm_state ndm_flags ndm_type]; [by apply hdr_family_range|..|done].
    + unfold s32, swrap. change (32 - 1) with 31. Z.to_euclidean_division_equations. lia.
    + destruct (has (ce_mask t) NEIGH_ATTR_STATE); [apply Ho|by vm_compute].
    + destruct (has (ce_mask t) NEIGH_ATTR_FLAGS); [apply Ho|by vm_compute].
  - unfold o, parsed_neigh. rewrite !(step_same n_dst _ _ (set_n_master _)), !(step_same n_lladdr _ _ (set_n_master _)) by done.
    rewrite (step_set n_dst _ _ _ (Some q)), (step_same n_lladdr _ _ (set_n_dst _)), (step_set n_lladdr _ _ _ (Some p)), (step_same n_dst) by done. exact Hh'.
Qed.

(** A neighbour survives the wire: the message [build_neigh_msg] makes of a
    well-formed neighbour (of a bridge, or with a destination) is accepted by
    [rtnl_neigh_parse], which returns a new neighbour, held once, with the type
    of the message, the index, state, flags and addresses of the old one; the
    link-layer address gets the family its length suggests, addresses have all
    their bits as prefix, and a bridge port gets the master of its link. *)
Theorem neigh_build_parse user l lcache h t hp cmd flags : neigh_ok h t -> sendable h t -> 0 <= cmd < 65536 -> heap_ok user l hp -> links_ok hp lcache ->
  exists m o h', build_neigh_msg size h t cmd flags = Some (inr m) /\ rtnl_neigh_parse lcache (nm_nlh m) hp = Some (0, Some o, h') /\
  ce_refcnt o = 1 /\ ce_msgtype o = cmd /\ neigh_view h' o = received (port_master hp lcache) (neigh_view h t) /\
  heap_ok user (n_dst (ce_data o) :: n_lladdr (ce_data o) :: l) h' /\ h_links h' = h_links hp /\
  (forall k a, h_addrs hp !! k = Some a -> h_addrs h' !! k = Some a).
Proof.
  intros Ho Hsend Hcmd Hh Hlc. destruct (build_neigh_msg_ok h t cmd flags Ho Hsend) as (m & Em & Hsz & _ & Hm).
  destruct (neigh_parse_holds user l lcache h t hp cmd m _ Ho Hsend Hh Hlc ltac:(lia) (type_field _ _ _ _ Hm Hcmd) Hm)
    as (o & h' & H1 & H2 & H3 & H4 & H5 & H6 & H7 & _). by exists m, o, h'.
Qed.

End RoundTrip.

(** ** Setters *)

(** The calls of a user; [rtnl_neigh_set_type] is looked at below. *)
Inductive neigh_op :=
  | SetState (v : Z) | UnsetState (v : Z) | SetFlags (v : Z) | UnsetFlags (v : Z) | SetIfindex (v : Z) | SetFamily (v : Z)
  | SetLladdr (p : positive) | SetDst (p : positive).

Definition run_op (op : neigh_op) (o : neigh) : H (neigh * Z) :=
  match op with
  | SetState v => mret (rtnl_neigh_set_state o v, 0)
  | UnsetState v => mret (rtnl_neigh_unset_state o v, 0)
  | SetFlags v => mret (rtnl_neigh_set_flags o v, 0)
  | UnsetFlags v => mret (rtnl_neigh_unset_flags o v, 0)
  | SetIfindex v => mret (rtnl_neigh_set_ifindex o v, 0)
  | SetFamily v => mret (rtnl_neigh_set_family o v, 0)
  | SetLladdr p => o ← rtnl_neigh_set_lladdr o p; mret (o, 0)
  | SetDst p => rtnl_neigh_set_dst o p
  end.

(** The results are collected. *)
Fixpoint run_ops (ops : list neigh_op) (o : neigh) : H (neigh * list Z) :=
  match ops with
  | [] => mret (o, [])
  | op :: ops' => '(o, err) ← run_op op o; '(o, errs) ← run_ops ops' o; mret (o, err :: errs)
  end.

(** What the calls mean; [addrs] has the values of the addresses. *)
Definition value_op (addrs : positive -> addr_value) (op : neigh_op) (v : neigh_value) : neigh_value * Z :=
  let '(NeighValue fam idx st fl ty ll dst pr ci ma stm flm) := v in
  match op with
  | SetState x => (NeighValue fam idx (Some (u16 (Z.lor (default 0 st) x))) fl ty ll dst pr ci ma (u32 (Z.lor stm x)) flm, 0)
  | UnsetState x => (NeighValue fam idx (Some (u16 (Z.land (default 0 st) (Z.lnot x)))) fl ty ll dst pr ci ma (u32 (Z.lor stm x)) flm, 0)
  | SetFlags x => (NeighValue fam idx st (Some (u8 (Z.lor (default 0 fl) x))) ty ll dst pr ci ma stm (u32 (Z.lor flm x)), 0)
  | UnsetFlags x => (NeighValue fam idx st (Some (u8 (Z.land (default 0 fl) (Z.lnot x)))) ty ll dst pr ci ma stm (u32 (Z.lor flm x)), 0)
  | SetIfindex x => (NeighValue fam (Some (u32 x)) st fl ty ll dst pr ci ma stm flm, 0)
  | SetFamily x => (NeighValue (Some (u32 x)) idx st fl ty ll dst pr ci ma stm flm, 0)
  | SetLladdr p => (NeighValue fam idx st fl ty (Some (addrs p)) dst pr ci ma stm flm, 0)
  | SetDst p =>
      if match fam with Some f => av_family (addrs p) =? f | None => true end
      then (NeighValue (Some (av_family (addrs p))) idx st fl ty ll (Some (addrs p)) pr ci ma stm flm, 0)
      else (v, - NLE_AF_MISMATCH)
  end.

Fixpoint value_ops (addrs : positive -> addr_value) (ops : list neigh_op) (v : neigh_value) : neigh_value * list Z :=
  match ops with
  | [] => (v, [])
  | op :: ops' => let '(v, err) := value_op addrs op v in let '(v, errs) := value_ops addrs ops' v in (v, err :: errs)
  end.

(** The neighbour, its references and the values of the addresses. *)
Record good (user : positive -> Z) (l : list (option positive)) (addrs : positive -> addr_value) (h : heap) (o : neigh) : Prop := {
  g_ok : neigh_ok h o;
  g_heap : heap_ok user (n_lladdr (ce_data o) :: n_dst (ce_data o) :: l) h;
  g_values : values_ok addrs h
}.

(** The user holds the addresses that are passed. *)
Definition op_ok (user : positive -> Z) (l : list (option positive)) (op : neigh_op) : Prop :=
  match op with SetLladdr p | SetDst p => 1 <= user p /\ user p + refs l p < INT_MAX - 1 | _ => True end.

(** An address that is held has its value. *)
Lemma held_view user l addrs h p mask attr : heap_ok user (Some p :: l) h -> values_ok addrs h -> has mask attr = true ->
  ptr_ok h mask attr (Some p) /\ view_ptr h mask attr (Some p) = Some (addrs p) /\ 0 <= av_family (addrs p) < 256.
Proof.
  intros Hh Hv Hm. destruct (heap_ok_alive _ _ _ p Hh) as (a & E & _).
  { destruct Hh as [Hu _]. specialize (Hu p). pose proof (refs_in (Some p :: l) p (list_elem_of_here _ _)). lia. }
  destruct (Hv p a E) as (-> & Ha & Hf). unfold ptr_ok, view_ptr. rewrite Hm. assert (deref h (Some p) = Some a) as -> by exact E. split; [by exists a|done].
Qed.

(** The pointer is replaced behind the check of the family. *)
Lemma neigh_assign_run user h (o : neigh) pos (set_pos : option positive -> rtnl_neigh -> rtnl_neigh) p flag l' : heap_ok user (pos (ce_data o) :: l') h -> 1 <= user p -> user p + refs l' p < INT_MAX -> exists h',
  (addr_put (pos (ce_data o)) ;; addr_get p ;; mret (assign flag (set_pos (Some p)) o, 0)) h = Some (assign flag (set_pos (Some p)) o, 0, h') /\
  heap_ok user (Some p :: l') h' /\ keeps h h'.
Proof.
  intros Hh Hu Hm. destruct (replace_ptr user l' h (pos (ce_data o)) p Hh Hu Hm) as (h' & E & Hh' & Hk). exists h'. split; [|done].
  by rewrite (hseq_run _ _ _ _ _ E).
Qed.

Lemma ptr_view_keep user l h h' mask attr p : ptr_ok h mask attr p -> keeps h h' -> heap_ok user (p :: l) h' ->
  ptr_ok h' mask attr p /\ view_ptr h' mask attr p = view_ptr h mask attr p.
Proof.
  intros Hp Hk Hh. destruct (ptr_keep user l h h' mask attr p Hp Hk Hh) as [Hp' Hv]. split; [done|]. unfold view_ptr. by destruct (has mask attr).
Qed.

Lemma view_bits h m m' attr p : has m attr = has m' attr -> view_ptr h m attr p = view_ptr h m' attr p.
Proof. unfold view_ptr. by intros ->. Qed.

Lemma set_lladdr_refines user l addrs h o p : good user l addrs h o -> op_ok user l (SetLladdr p) -> exists o' err h',
  run_op (SetLladdr p) o h = Some (o', err, h') /\ (neigh_view h' o', err) = value_op addrs (SetLladdr p) (neigh_view h o) /\
  good user l addrs h' o' /\ keeps h h' /\ ce_refcnt o' = ce_refcnt o.
Proof.
  intros [Ho Hh Hv] [Hu Hm]. destruct (neigh_assign_run user h o n_lladdr set_n_lladdr p NEIGH_ATTR_LLADDR (n_dst (ce_data o) :: l) Hh Hu) as (h' & E & Hh' & Hk).
  { rewrite refs_cons. destruct (decide _); lia. }
  pose proof (values_keep _ _ _ Hv Hk) as Hv'. destruct (held_view _ _ _ _ _ (Z.lor (ce_mask o) NEIGH_ATTR_LLADDR) NEIGH_ATTR_LLADDR Hh' Hv') as (Hp & Vp & _).
  { rewrite has_lor. apply orb_true_r. }
  destruct (ptr_view_keep user (Some p :: l) h h' (ce_mask o) NEIGH_ATTR_DST (n_dst (ce_data o)) (ok_dst _ _ Ho) Hk) as [Hd Vd]; [by rewrite Permutation_swap|].
  eexists _, _, h'. split.
  { cbn [run_op]. unfold rtnl_neigh_set_lladdr, __assign_addr. rewrite (hbind_run _ _ _ (assign NEIGH_ATTR_LLADDR (set_n_lladdr (Some p)) o) h'); [reflexivity|].
    by rewrite (hbind_run _ _ _ _ _ E). }
  split_and!; [|split|exact Hk|done].
  - unfold neigh_view at 1. neigh_fields. rewrite Vp. rewrite (view_bits _ _ (ce_mask o)) by (by rewrite has_lor, orb_false_r). rewrite Vd. unfold att. known_bits. reflexivity.
  - unfold ptr_ok in Hp, Hd. rewrite has_lor, orb_true_r in Hp. destruct Hp as (a & Ea & Ha). keep_ok.
  - exact Hh'.
  - exact Hv'.
Qed.

Lemma neigh_dst_refines user l addrs h o p : good user l addrs h o -> op_ok user l (SetDst p) -> exists o' err h',
  run_op (SetDst p) o h = Some (o', err, h') /\ (neigh_view h' o', err) = value_op addrs (SetDst p) (neigh_view h o) /\
  good user l addrs h' o' /\ keeps h h' /\ ce_refcnt o' = ce_refcnt o.
Proof.
  intros [Ho Hh Hv] [Hu Hm]. destruct (heap_ok_alive _ _ _ p Hh) as (a & Ea & _).
  { pose proof (refs_nonneg (n_lladdr (ce_data o) :: n_dst (ce_data o) :: l) p). lia. }
  destruct (Hv p a Ea) as (Vp & _ & Hf). assert (u32 (a_family a) = av_family (addrs p)) as Ef by (rewrite Vp; cbn; apply wrap_id; lia).
  cbn [run_op]. unfold rtnl_neigh_set_dst, __assign_addr. set (fits := if has (ce_mask o) NEIGH_ATTR_FAMILY then av_family (addrs p) =? n_family (ce_data o) else true).
  set (o1 := if has (ce_mask o) NEIGH_ATTR_FAMILY then o else assign NEIGH_ATTR_FAMILY (set_n_family (av_family (addrs p))) o).
  rewrite (hbind_run _ _ _ (o1, fits) h).
  2: { rewrite (hbind_run _ _ _ _ _ (load_run _ _ _ Ea)), Ef. unfold o1, fits. by destruct (has (ce_mask o) NEIGH_ATTR_FAMILY). }
  assert ((if match w_family (neigh_view h o) with Some f => av_family (addrs p) =? f | None => true end then true else false) = fits) as Hfits.
  { cbn [neigh_view w_family]. unfold att, fits. destruct (has (ce_mask o) NEIGH_ATTR_FAMILY); [by destruct (_ =? _)|done]. }
  cbn [neigh_view w_family] in Hfits. unfold neigh_view at 2. cbn [value_op].
  destruct (match att (ce_mask o) NEIGH_ATTR_FAMILY (n_family (ce_data o)) with Some f => av_family (addrs p) =? f | None => true end); rewrite <- Hfits; cbn [negb].
  2: { exists o1, (- NLE_AF_MISMATCH), h. unfold fits in Hfits. unfold o1. destruct (has (ce_mask o) NEIGH_ATTR_FAMILY); [|done].
       split_and!; [done|done|by split|apply keeps_refl|done]. }
  assert (n_lladdr (ce_data o1) = n_lladdr (ce_data o) /\ n_dst (ce_data o1) = n_dst (ce_data o) /\ ce_refcnt o1 = ce_refcnt o) as (El & Ed & Er) by (unfold o1; by destruct (has _ _)).
  destruct (neigh_assign_run user h o1 n_dst set_n_dst p NEIGH_ATTR_DST (n_lladdr (ce_data o) :: l)) as (h' & E & Hh' & Hk); [by rewrite Ed, Permutation_swap|done|rewrite refs_cons; destruct (decide _); lia|].
  pose proof (values_keep _ _ _ Hv Hk) as Hv'.
  destruct (held_view _ _ _ _ _ (Z.lor (ce_mask o1) NEIGH_ATTR_DST) NEIGH_ATTR_DST Hh' Hv') as (Hp & Vd & _); [rewrite has_lor; apply orb_true_r|].
  destruct (ptr_view_keep user (Some p :: l) h h' (ce_mask o) NEIGH_ATTR_LLADDR (n_lladdr (ce_data o)) (ok_lladdr _ _ Ho) Hk) as [Hl Vl]; [by rewrite Permutation_swap|].
  eexists _, _, h'. split; [exact E|]. split_and!; [|split|exact Hk|done].
  - assert (att (ce_mask o1) NEIGH_ATTR_FAMILY (n_family (ce_data o1)) = Some (av_family (addrs p))) as Efam.
    { unfold o1, att, fits in *. destruct (has (ce_mask o) NEIGH_ATTR_FAMILY) eqn:C; [rewrite C; f_equal; symmetry in Hfits; lia|].
      cbn [assign ce_mask ce_data set_n_family n_family]. by rewrite has_lor, orb_true_r. }
    assert (forall attr, has NEIGH_ATTR_FAMILY attr = false -> has (ce_mask o1) attr = has (ce_mask o) attr) as Hbits.
    { intros attr Ha. unfold o1. destruct (has (ce_mask o) NEIGH_ATTR_FAMILY); [done|]. cbn [assign ce_mask]. by rewrite has_lor, Ha, orb_false_r. }
    assert (forall (A : Type) (g : rtnl_neigh -> A), (forall v n, g (set_n_family v n) = g n) -> g (ce_data o1) = g (ce_data o)) as Hsame.
    { intros A g Hg. unfold o1. destruct (has (ce_mask o) NEIGH_ATTR_FAMILY); [done|]. apply Hg. }
    unfold neigh_view. neigh_fields. rewrite Vd, El. rewrite (view_bits _ _ (ce_mask o)) by (by rewrite has_lor, orb_false_r, Hbits). rewrite Vl.
    unfold att in *. known_bits. rewrite Efam, !Hbits by done. rewrite (Hsame _ n_ifindex), (Hsame _ n_state), (Hsame _ n_flags), (Hsame _ n_type), (Hsame _ n_probes),
      (Hsame _ n_cacheinfo), (Hsame _ n_master), (Hsame _ n_state_mask), (Hsame _ n_flag_mask) by done. done.
  - unfold ptr_ok in Hp, Hl. rewrite has_lor, orb_true_r in Hp. destruct Hp as (b & Eb & Hb). assert (0 <= av_family (addrs p) < 2 ^ 32) by (rewrite Vp; cbn; lia).
    unfold o1 in *. destruct (has (ce_mask o) NEIGH_ATTR_FAMILY); keep_ok.
  - cbn [assign ce_data set_n_dst n_lladdr n_dst]. rewrite El, Permutation_swap. exact Hh'.
  - exact Hv'.
Qed.

Ltac field_op := lazymatch goal with Hg : good _ _ _ ?h ?o |- _ => let Ho := fresh "Ho" in let Hh := fresh "Hh" in let Hv := fresh "Hv" in destruct Hg as [Ho Hh Hv];
  eexists _, _, h; split; [reflexivity|]; split;
  [unfold neigh_view; cbn [value_op]; rewrite ?(att_default _ _ _ (ok_no_state _ _ Ho)), ?(att_default _ _ _ (ok_no_flags _ _ Ho));
   neigh_fields; unfold view_ptr, att; known_bits; reflexivity
  |split; [split; [keep_ok|exact Hh|exact Hv]|split; [apply keeps_refl|reflexivity]]] end.

Lemma neigh_op_refines user l addrs h o op : good user l addrs h o -> op_ok user l op -> exists o' err h',
  run_op op o h = Some (o', err, h') /\ (neigh_view h' o', err) = value_op addrs op (neigh_view h o) /\ good user l addrs h' o' /\
  keeps h h' /\ ce_refcnt o' = ce_refcnt o.
Proof.
  intros Hg Hop. assert (forall v, 0 <= u32 v < 2 ^ 32) as H32 by (intros; by apply wrap_range). assert (forall v, 0 <= u8 v < 256) as H8 by (intros; by apply wrap_range).
  assert (forall v, 0 <= u16 v < 2 ^ 16) as H16 by (intros; by apply wrap_range).
  destruct op as [v|v|v|v|v|v|p|p]; [..|by apply set_lladdr_refines|by apply neigh_dst_refines]; cbn [run_op];
    unfold rtnl_neigh_set_state, rtnl_neigh_unset_state, rtnl_neigh_set_flags, rtnl_neigh_unset_flags, rtnl_neigh_set_ifindex, rtnl_neigh_set_family; by field_op.
Qed.

Lemma neigh_ops_refines user l addrs ops : forall h o, good user l addrs h o -> Forall (op_ok user l) ops -> exists o' errs h',
  run_ops ops o h = Some (o', errs, h') /\ (neigh_view h' o', errs) = value_ops addrs ops (neigh_view h o) /\ good user l addrs h' o' /\
  keeps h h' /\ ce_refcnt o' = ce_refcnt o.
Proof.
  induction ops as [|op ops IH]; intros h o Hg Hops; cbn [run_ops value_ops]; [by exists o, [], h; split_and!; [..|apply keeps_refl|]|].
  apply list.Forall_cons in Hops as [Hop Hops]. destruct (neigh_op_refines user l addrs h o op Hg Hop) as (o1 & err & h1 & E1 & V1 & G1 & K1 & R1).
  destruct (IH h1 o1 G1 Hops) as (o2 & errs & h2 & E2 & V2 & G2 & K2 & R2). exists o2, (err :: errs), h2.
  rewrite (hbind_run _ _ _ _ _ E1), (hbind_run _ _ _ _ _ E2). split; [done|]. rewrite <- V1, <- V2.
  split; [done|]. split; [done|]. split; [by eapply keeps_trans|congruence].
Qed.

(** Setters: after any sequence of calls on a new neighbour it has the
    attributes the calls gave it (states and flags are added and removed bit
    by bit, and the bits that were touched are remembered), a destination of
    another family is refused and changes nothing, the neighbour is
    well-formed, and when it is put the user's references to its addresses
    are what they were. *)
Theorem neigh_setters_refine {al : Allocator} user l addrs h ops : malloc_ok neigh_size = true -> heap_ok user l h -> values_ok addrs h ->
  Forall (op_ok user l) ops -> exists o0 o errs h' h'',
  rtnl_neigh_alloc = Some o0 /\ run_ops ops o0 h = Some (o, errs, h') /\ (neigh_view h' o, errs) = value_ops addrs ops no_neigh_value /\
  neigh_ok h' o /\ rtnl_neigh_put (Some o) h' = Some (None, h'') /\ heap_ok user l h'' /\ keeps h h''.
Proof.
  intros Hmem Hh Hv Hops. unfold rtnl_neigh_alloc, obj_alloc. rewrite Hmem. set (o0 := Object 1 0 0 no_neigh).
  assert (good user l addrs h o0) as Hg by (split; [apply no_neigh_ok|change (heap_ok user (None :: None :: l) h); by rewrite !heap_ok_null|done]).
  destruct (neigh_ops_refines user l addrs ops h o0 Hg Hops) as (o & errs & h' & E & V & [Ho Hh' _] & K & R).
  destruct (neigh_put_last _ _ _ _ Hh' R) as (h'' & Ep & Hh'' & K'). exists o0, o, errs, h', h''. split_and!; try done. by eapply keeps_trans.
Qed.

(** ** Searching *)

(** [rtnl_neigh_get] finds the first neighbour with the index whose destination
    compares equal, if all neighbours of that index have a destination. *)
Lemma neigh_get_first h dst b ifindex items : ints_ok h -> deref h dst = Some b -> addr_ok b ->
  Forall (fun o => neigh_ok h o /\ (n_ifindex (ce_data o) = u32 ifindex -> has (ce_mask o) NEIGH_ATTR_DST = true)) items ->
  let hit (o : neigh) := (n_ifindex (ce_data o) =? u32 ifindex) && same_addr (w_dst (neigh_view h o)) (Some (addr_view b)) in
  exists items', rtnl_neigh_get h items ifindex dst = Some (option_map fst (list_find (fun o => hit o = true) items), items') /\
  map ce_data items' = map ce_data items.
Proof.
  intros Hi Eb Hb Hall hit. assert (forall p c, deref h p = Some c -> NlAddr.int_ok (a_family c) /\ NlAddr.int_ok (a_prefixlen c)) as Hint by (intros [x|] c; [apply Hi|done]).
  induction items as [|o items IH]; [by exists []|]. apply list.Forall_cons in Hall as [[Ho Hd] Hall]. specialize (IH Hall) as (items' & E & M).
  cbn [rtnl_neigh_get list_find].
  assert ((if n_ifindex (ce_data o) =? u32 ifindex then d ← addr_cmp h (n_dst (ce_data o)) dst; Some (d =? 0) else Some false) = Some (hit o)) as ->.
  { unfold hit. destruct (Z.eqb_spec (n_ifindex (ce_data o)) (u32 ifindex)) as [Ei|_]; [|done]. specialize (Hd Ei).
    pose proof (ok_dst _ _ Ho) as Hp. unfold ptr_ok in Hp. rewrite Hd in Hp. destruct Hp as (a & Ea & Ha). unfold addr_cmp. rewrite Ea, Eb. cbn [mbind option_bind].
    destruct (Hint _ _ Ea), (Hint _ _ Eb). destruct (nl_addr_cmp_view a b) as (d & -> & Ed); try done. cbn [mbind option_bind]. rewrite Ed.
    cbn [neigh_view w_dst]. unfold view_ptr. by rewrite Hd, Ea. }
  cbn [mbind option_bind]. destruct (hit o) eqn:Eh.
  - rewrite decide_True by done. by eexists.
  - rewrite decide_False by done. rewrite E. cbn [mbind option_bind]. exists (o :: items'). split; [|by cbn; rewrite M].
    by destruct (list_find _ items) as [[k x]|].
Qed.

(** ** Copies *)

Section Clone.
Context {al : Allocator}.
Hypothesis memory : malloc_total al.

(** With memory, a copy has the values of the neighbour and addresses of its
    own; in a cache of objects it is the same content. *)
Theorem neigh_clone_copies user l h o : neigh_ok h o -> heap_ok user l h -> exists o' h',
  rtnl_neigh_clone o h = Some (Some o', h') /\ content_of h' o' = content_of h o /\ ce_refcnt o' = 1 /\ neigh_ok h' o' /\
  heap_ok user (n_lladdr (ce_data o') :: n_dst (ce_data o') :: l) h' /\ (forall k a, h_addrs h !! k = Some a -> h_addrs h' !! k = Some a).
Proof.
  intros Ho Hh. unfold rtnl_neigh_clone, obj_clone, obj_alloc. rewrite memory by (unfold neigh_size; lia). cbn [ce_data ce_refcnt].
  destruct (clone_ptr_ok memory user l h _ _ _ Hh (ok_lladdr _ _ Ho)) as (p & h1 & E1 & Hh1 & P1 & V1 & _ & K1).
  destruct (ptr_kept h h1 _ _ _ (ok_dst _ _ Ho) K1) as [Pd Vd].
  destruct (clone_ptr_ok memory user (p :: l) h1 _ _ _ Hh1 Pd) as (q & h2 & E2 & Hh2 & P2 & V2 & _ & K2).
  destruct (ptr_kept h1 h2 _ _ _ P1 K2) as [P3 V3].
  assert (neigh_clone (ce_data o) (ce_data o) h = Some (set_n_dst q (set_n_lladdr p (ce_data o)), 0, h2)) as E.
  { unfold neigh_clone. rewrite (hbind_run _ _ _ _ _ E1). cbn [negb n_dst set_n_lladdr]. by rewrite (hbind_run _ _ _ _ _ E2). }
  rewrite (hbind_run _ _ _ _ _ E). change (0 <? 0) with false. cbv iota. eexists _, h2. split; [done|]. split_and!; [|done|..].
  - unfold content_of, neigh_view. neigh_fields. rewrite V3, V1, V2, Vd. done.
  - keep_ok.
  - cbn [ce_data set_n_lladdr set_n_dst n_lladdr n_dst]. by rewrite Permutation_swap.
  - auto.
Qed.

End Clone.

(** ** Samples *)

#[local] Existing Instance sample_alloc.

Definition lladdr6 : nl_addr := Addr NlAddr.AF_LLC 6 6 48 1 [0; 17; 34; 51; 68; 85].

(** A neighbour 10.0.255.1 on interface 3 with a link-layer address. *)
Definition sample_heap : heap :=
  Heap (<[1%positive := NlAddr.sample_addr]> {[2%positive := lladdr6]}) {[7%positive := Link 1 3 9]}.

Definition sample_neigh : neigh :=
  Object 1 0 (NEIGH_ATTR_IFINDEX + NEIGH_ATTR_FAMILY + NEIGH_ATTR_DST + NEIGH_ATTR_LLADDR)
    (Neigh 2 3 0 0 0 (Some 2%positive) (Some 1%positive) 0 (NCacheInfo 0 0 0 0) 0 0 0).

(** The same interface as a port of a bridge. *)
Definition bridge_neigh : neigh :=
  Object 1 0 (NEIGH_ATTR_IFINDEX + NEIGH_ATTR_FAMILY + NEIGH_ATTR_LLADDR)
    (Neigh 7 3 0 0 0 (Some 2%positive) None 0 (NCacheInfo 0 0 0 0) 0 0 0).

Lemma sample_addrs_ok : addr_ok NlAddr.sample_addr /\ addr_ok lladdr6.
Proof. split; split_and!; try (by vm_compute); by apply NlAddr.bytes_check. Qed.

Lemma sample_neigh_ok : neigh_ok sample_heap sample_neigh.
Proof.
  destruct sample_addrs_ok as [H1 H2]. constructor; try (by vm_compute); [by exists lladdr6|by exists NlAddr.sample_addr].
Qed.

Lemma bridge_neigh_ok : neigh_ok sample_heap bridge_neigh.
Proof. destruct sample_addrs_ok as [H1 H2]. constructor; try (by vm_compute). by exists lladdr6. Qed.

Lemma neigh_ints : ints_ok sample_heap.
Proof.
  intros p a. cbn [sample_heap h_addrs]. rewrite lookup_insert_Some, lookup_singleton_Some. intros [[_ <-]|(_ & _ & <-)]; by vm_compute.
Qed.

Definition link_heap : heap := Heap ∅ {[7%positive := Link 1 3 9]}.

Lemma sample_links_ok : links_ok link_heap (Some [7%positive]).
Proof. apply Forall_singleton. exists (Link 1 3 9). split; [apply lookup_singleton_eq|by vm_compute]. Qed.

Lemma neigh_is_cache_object_witness : NlCacheInv.ObjectLaws (fun _ => neigh_object_ops) /\
  neigh_compare sample_heap sample_neigh bridge_neigh (-1) 0 =
    Some (difference (-1) (neigh_compared 0 (neigh_view sample_heap sample_neigh) (neigh_view sample_heap bridge_neigh))) /\
  neigh_keygen 8 sample_heap sample_neigh 1024 = Some (NlCache.keygen (fun _ => neigh_object_ops) (cache_object sample_heap sample_neigh) 1024).
Proof.
  destruct (neigh_is_cache_object sample_alloc_total) as [Hlaws Hops]. split; [exact Hlaws|].
  destruct (Hops sample_heap sample_neigh bridge_neigh (-1) 0 8 1024 sample_neigh_ok bridge_neigh_ok neigh_ints ltac:(lia)) as (H1 & H2 & _). by split.
Defined.

Example sample_difference : neigh_compare sample_heap sample_neigh bridge_neigh (-1) 0 = Some (NEIGH_ATTR_FAMILY + NEIGH_ATTR_DST).
Proof. by vm_compute. Qed.

Lemma neigh_build_parse_witness : exists m o h', build_neigh_msg 4096 sample_heap bridge_neigh RTM_NEWNEIGH 0 = Some (inr m) /\
  rtnl_neigh_parse (Some [7%positive]) (nm_nlh m) link_heap = Some (0, Some o, h') /\
  ce_refcnt o = 1 /\ ce_msgtype o = RTM_NEWNEIGH /\
  neigh_view h' o = received (port_master link_heap (Some [7%positive])) (neigh_view sample_heap bridge_neigh) /\
  heap_ok (fun _ => 0) (n_dst (ce_data o) :: n_lladdr (ce_data o) :: []) h' /\ h_links h' = h_links link_heap /\
  (forall k a, h_addrs link_heap !! k = Some a -> h_addrs h' !! k = Some a).
Proof.
  apply (neigh_build_parse sample_alloc_total 4096 ltac:(lia) (fun _ => 0) [] (Some [7%positive]) sample_heap bridge_neigh link_heap RTM_NEWNEIGH 0).
  - exact bridge_neigh_ok.
  - split; [done|]. split; [intros a [= <-]; by vm_compute|done].
  - by vm_compute.
  - apply heap_ok_empty.
  - exact sample_links_ok.
Defined.

Example sample_received : received (port_master link_heap (Some [7%positive])) (neigh_view sample_heap bridge_neigh) =
  NeighValue (Some 7) (Some 3) (Some 128) (Some 0) (Some 0) (Some (AddrValue NlAddr.AF_LLC 48 [0; 17; 34; 51; 68; 85])) None None None (Some 9) 0 0.
Proof. by vm_compute. Qed.

(** A message with a destination and cache information. *)
Definition sample_msg : bytes :=
  le_bytes 4 56 ++ le_bytes 2 RTM_NEWNEIGH ++ replicate 10 0 ++ ndm_bytes (Ndm 2 3 4 0 1) ++ [8; 0; 1; 0; 10; 0; 0; 1] ++ [20; 0; 3; 0] ++ replicate 16 1.

Lemma neigh_msg_parser_safe_witness : exists err r h',
  neigh_msg_parser (fun o => mret (o, 0)) (Some [7%positive]) sample_msg link_heap = Some (err, r, h') /\
  heap_ok (fun _ => 0) (ptrs r ++ []) h'.
Proof.
  apply (neigh_msg_parser_safe (fun _ => 0) [] link_heap (Some [7%positive]) sample_msg (fun o => mret (o, 0))).
  - split; [by apply NlAddr.bytes_check|]. split_and!; try (by vm_compute). by left.
  - apply heap_ok_empty.
  - exact sample_links_ok.
  - intros o h Ho Hr Hh. exists o, 0, h. split; [done|]. split; [rewrite Hr; by vm_compute|done].
Defined.

Definition one_heap : heap := Heap {[1%positive := NlAddr.sample_addr]} ∅.
Definition one_user (p : positive) : Z := if decide (p = 1%positive) then 1 else 0.
Definition one_value (p : positive) : addr_value := AddrValue 2 24 [10; 0; 255; 1].

(** The second destination is of another family than the neighbour. *)
Definition sample_ops : list neigh_op := [SetIfindex 3; SetDst 1; SetState 3; UnsetState 1; SetFamily 10; SetDst 1; SetFlags 136].

Lemma neigh_setters_refine_witness : exists o0 o errs h' h'',
  rtnl_neigh_alloc = Some o0 /\ run_ops sample_ops o0 one_heap = Some (o, errs, h') /\
  (neigh_view h' o, errs) = value_ops one_value sample_ops no_neigh_value /\
  neigh_ok h' o /\ rtnl_neigh_put (Some o) h' = Some (None, h'') /\ heap_ok one_user [] h'' /\ keeps one_heap h''.
Proof.
  apply (neigh_setters_refine one_user [] one_value one_heap sample_ops).
  - by vm_compute.
  - by apply (heap_ok_single 1 NlAddr.sample_addr).
  - intros p a. cbn [one_heap h_addrs]. rewrite lookup_singleton_Some. intros [_ <-]. split; [done|]. split; [apply sample_addrs_ok|by vm_compute].
  - repeat (apply list.Forall_cons; split); done.
Defined.

Example neigh_ops_value : value_ops one_value sample_ops no_neigh_value =
  (NeighValue (Some 10) (Some 3) (Some 2) (Some 136) None None (Some (AddrValue 2 24 [10; 0; 255; 1])) None None None 3 136,
   [0; 0; 0; 0; 0; - NLE_AF_MISMATCH; 0]).
Proof. by vm_compute. Qed.

(** ** What the code does not do *)

(** [rtnl_neigh_set_type] replaces the mask: the other attributes are gone, and
    a request with the destination is refused. *)
Theorem neigh_set_type_forgets : rtnl_neigh_get_dst (rtnl_neigh_set_type sample_neigh 1) = None /\
  build_neigh_msg 4096 sample_heap (rtnl_neigh_set_type sample_neigh 1) RTM_NEWNEIGH 0 = Some (inl (- NLE_MISSING_ATTR)).
Proof. split; by vm_compute. Qed.

(** [rtnl_neigh_get] compares the destination of every neighbour of the
    interface: one without a destination is dereferenced as NULL. *)
Theorem neigh_get_null : rtnl_neigh_get sample_heap [bridge_neigh; sample_neigh] 3 (Some 1%positive) = None.
Proof. by vm_compute. Qed.

(** The text of two states is not read back: [rtnl_neigh_str2state] looks up a
    single name. *)
Theorem neigh_states_not_read : exists buf, rtnl_neigh_state2str 6 (replicate 64 0) = Some buf /\ cstr buf = str "reachable,stale" /\
  rtnl_neigh_str2state buf = - NlCache.NLE_OBJ_NOTFOUND /\ __str2flags buf neigh_states = 6.
Proof. eexists. split; [by vm_compute|]. split_and!; by vm_compute. Qed.

(** The state NUD_NOARP has a misspelt name. *)
Theorem neigh_noarp_misspelt : rtnl_neigh_str2state (str "noarp") = - NlCache.NLE_OBJ_NOTFOUND /\ rtnl_neigh_str2state (str "norarp") = 64.
Proof. split; by vm_compute. Qed.

(** The master has no name: a difference in it is printed as nothing. *)
Theorem neigh_master_unnamed : exists buf, neigh_attrs2str NEIGH_ATTR_MASTER (replicate 64 0) = Some buf /\ cstr buf = [].
Proof. eexists. split; by vm_compute. Qed.

(** Memory for objects of the size of a neighbour only. *)
Definition short_alloc : Allocator.
Proof.
  refine {| malloc_ok := fun n => n =? neigh_size; malloc_byte := 165 |}.
  intros n E. apply Z.eqb_eq in E. by subst.
Defined.

(** Without memory the key is 0: a neighbour that is looked up then is searched
    in another chain than the one it was put into. *)
Theorem neigh_key_no_memory : @neigh_keygen short_alloc 8 sample_heap sample_neigh 1024 = Some 0 /\
  @neigh_keygen sample_alloc 8 sample_heap sample_neigh 1024 <> Some 0.
Proof. split; [by vm_compute|]. by vm_compute. Qed.

End NlNeigh.
