(* ===== verification/NlIfaddr.v ===== *)
(** * Interface addresses of libnl ([lib/route/addr.c])

    An interface address is an object with a mask of the attributes it has,
    pointers to five addresses and a pointer to a link, on the heap of
    [NlRtnl].  The prefix length is kept in the object and in one of the
    addresses, which others may hold too.  Dumping an address as text is left
    out; the requests and the cache of addresses are in [NlIfaddrSync].

    The five pointers are treated as one by [slot].  The theorems: the parser
    on any message; an address that is sent and received again; setters, with
    the prefix length shared between the object and its addresses; comparison;
    copies; and the address as the object of a cache. *)

From S2P Require Import Prelude JsonUtil Netlink Syscalls NetRequests NlParse NlAttr NlCache NlCacheInv NlSocket NlAddr NlRtnl NlNeigh.
From Stdlib Require Import ZArith Lia.
From stdpp Require Import base list numbers option strings gmap.

Open Scope Z_scope.

Module NlIfaddr.
Import Netlink NlParse NlAttr NlRtnl.
Import NlAddr (nl_addr, Addr, a_refcnt, a_len, a_addr, trans_tbl).
Import NlSocket (NLE_INVAL, NLE_RANGE, NLE_AF_NOSUPPORT).
Import NlNeigh (rtnl_link_get, LOOSE_COMPARISON).

Definition ADDR_ATTR_FAMILY : Z := 1.
Definition ADDR_ATTR_PREFIXLEN : Z := 2.
Definition ADDR_ATTR_FLAGS : Z := 4.
Definition ADDR_ATTR_SCOPE : Z := 8.
Definition ADDR_ATTR_IFINDEX : Z := 16.
Definition ADDR_ATTR_LABEL : Z := 32.
Definition ADDR_ATTR_CACHEINFO : Z := 64.
Definition ADDR_ATTR_PEER : Z := 128.
Definition ADDR_ATTR_LOCAL : Z := 256.
Definition ADDR_ATTR_BROADCAST : Z := 512.
Definition ADDR_ATTR_MULTICAST : Z := 1024.
Definition ADDR_ATTR_ANYCAST : Z := 2048.

Definition IFA_ADDRESS : Z := 1.
Definition IFA_LOCAL : Z := 2.
Definition IFA_LABEL : Z := 3.
Definition IFA_BROADCAST : Z := 4.
Definition IFA_ANYCAST : Z := 5.
Definition IFA_CACHEINFO : Z := 6.
Definition IFA_MULTICAST : Z := 7.
Definition IFA_FLAGS : Z := 8.
Definition IFA_MAX : Z := 8.

Definition RT_SCOPE_UNIVERSE : Z := 0.
Definition RT_SCOPE_HOST : Z := 254.
Definition RT_SCOPE_NOWHERE : Z := 255.
Definition IFNAMSIZ : Z := 16.
Definition RTM_NEWADDR : Z := 20.
Definition RTM_DELADDR : Z := 21.
Definition NLM_F_CREATE : Z := 1024.

(** ** Addresses of interfaces *)

Record rtnl_addr_cacheinfo := CacheInfo { aci_prefered : Z; aci_valid : Z; aci_cstamp : Z; aci_tstamp : Z }.

Record rtnl_addr := IfAddr {
  a_family : Z;
  a_prefixlen : Z;
  a_scope : Z;
  a_flags : Z;
  a_ifindex : Z;
  a_peer : option positive;
  a_local : option positive;
  a_bcast : option positive;
  a_anycast : option positive;
  a_multicast : option positive;
  a_cacheinfo : rtnl_addr_cacheinfo;
  a_label : bytes;
  a_flag_mask : Z;
  a_link : option positive
}.

(** Updates of a field. *)
Definition set_a_family (v : Z) (x : rtnl_addr) : rtnl_addr := IfAddr v (a_prefixlen x) (a_scope x) (a_flags x) (a_ifindex x) (a_peer x) (a_local x) (a_bcast x) (a_anycast x) (a_multicast x) (a_cacheinfo x) (a_label x) (a_flag_mask x) (a_link x).
Definition set_a_prefixlen (v : Z) (x : rtnl_addr) : rtnl_addr := IfAddr (a_family x) v (a_scope x) (a_flags x) (a_ifindex x) (a_peer x) (a_local x) (a_bcast x) (a_anycast x) (a_multicast x) (a_cacheinfo x) (a_label x) (a_flag_mask x) (a_link x).
Definition set_a_scope (v : Z) (x : rtnl_addr) : rtnl_addr := IfAddr (a_family x) (a_prefixlen x) v (a_flags x) (a_ifindex x) (a_peer x) (a_local x) (a_bcast x) (a_anycast x) (a_multicast x) (a_cacheinfo x) (a_label x) (a_flag_mask x) (a_link x).
Definition set_a_flags (v : Z) (x : rtnl_addr) : rtnl_addr := IfAddr (a_family x) (a_prefixlen x) (a_scope x) v (a_ifindex x) (a_peer x) (a_local x) (a_bcast x) (a_anycast x) (a_multicast x) (a_cacheinfo x) (a_label x) (a_flag_mask x) (a_link x).
Definition set_a_ifindex (v : Z) (x : rtnl_addr) : rtnl_addr := IfAddr (a_family x) (a_prefixlen x) (a_scope x) (a_flags x) v (a_peer x) (a_local x) (a_bcast x) (a_anycast x) (a_multicast x) (a_cacheinfo x) (a_label x) (a_flag_mask x) (a_link x).
Definition set_a_peer (v : option positive) (x : rtnl_addr) : rtnl_addr := IfAddr (a_family x) (a_prefixlen x) (a_scope x) (a_flags x) (a_ifindex x) v (a_local x) (a_bcast x) (a_anycast x) (a_multicast x) (a_cacheinfo x) (a_label x) (a_flag_mask x) (a_link x).
Definition set_a_local (v : option positive) (x : rtnl_addr) : rtnl_addr := IfAddr (a_family x) (a_prefixlen x) (a_scope x) (a_flags x) (a_ifindex x) (a_peer x) v (a_bcast x) (a_anycast x) (a_multicast x) (a_cacheinfo x) (a_label x) (a_flag_mask x) (a_link x).
Definition set_a_bcast (v : option positive) (x : rtnl_addr) : rtnl_addr := IfAddr (a_family x) (a_prefixlen x) (a_scope x) (a_flags x) (a_ifindex x) (a_peer x) (a_local x) v (a_anycast x) (a_multicast x) (a_cacheinfo x) (a_label x) (a_flag_mask x) (a_link x).
Definition set_a_anycast (v : option positive) (x : rtnl_addr) : rtnl_addr := IfAddr (a_family x) (a_prefixlen x) (a_scope x) (a_flags x) (a_ifindex x) (a_peer x) (a_local x) (a_bcast x) v (a_multicast x) (a_cacheinfo x) (a_label x) (a_flag_mask x) (a_link x).
Definition set_a_multicast (v : option positive) (x : rtnl_addr) : rtnl_addr := IfAddr (a_family x) (a_prefixlen x) (a_scope x) (a_flags x) (a_ifindex x) (a_peer x) (a_local x) (a_bcast x) (a_anycast x) v (a_cacheinfo x) (a_label x) (a_flag_mask x) (a_link x).
Definition set_a_cacheinfo (v : rtnl_addr_cacheinfo) (x : rtnl_addr) : rtnl_addr := IfAddr (a_family x) (a_prefixlen x) (a_scope x) (a_flags x) (a_ifindex x) (a_peer x) (a_local x) (a_bcast x) (a_anycast x) (a_multicast x) v (a_label x) (a_flag_mask x) (a_link x).
Definition set_a_label (v : bytes) (x : rtnl_addr) : rtnl_addr := IfAddr (a_family x) (a_prefixlen x) (a_scope x) (a_flags x) (a_ifindex x) (a_peer x) (a_local x) (a_bcast x) (a_anycast x) (a_multicast x) (a_cacheinfo x) v (a_flag_mask x) (a_link x).
Definition set_a_flag_mask (v : Z) (x : rtnl_addr) : rtnl_addr := IfAddr (a_family x) (a_prefixlen x) (a_scope x) (a_flags x) (a_ifindex x) (a_peer x) (a_local x) (a_bcast x) (a_anycast x) (a_multicast x) (a_cacheinfo x) (a_label x) v (a_link x).
Definition set_a_link (v : option positive) (x : rtnl_addr) : rtnl_addr := IfAddr (a_family x) (a_prefixlen x) (a_scope x) (a_flags x) (a_ifindex x) (a_peer x) (a_local x) (a_bcast x) (a_anycast x) (a_multicast x) (a_cacheinfo x) (a_label x) (a_flag_mask x) v.

Abbreviation ifaddr := (object rtnl_addr).

(** What [calloc] leaves, with the scope of [addr_constructor]. *)
Definition calloc_addr : rtnl_addr := IfAddr 0 0 0 0 0 None None None None None (CacheInfo 0 0 0 0) (replicate 16 0) 0 None.
Definition addr_constructor (x : rtnl_addr) : rtnl_addr := set_a_scope RT_SCOPE_NOWHERE x.
Definition no_addr : rtnl_addr := addr_constructor calloc_addr.

Definition addr_free_data (x : rtnl_addr) : H unit :=
  addr_put (a_peer x) ;; addr_put (a_local x) ;; addr_put (a_bcast x) ;; addr_put (a_multicast x) ;; addr_put (a_anycast x) ;;
  link_put (a_link x).

(** [sizeof (struct rtnl_addr)]. *)
Definition addr_size : Z := 152.

Definition rtnl_addr_put (o : option ifaddr) : H (option ifaddr) :=
  match o with Some o => obj_put addr_free_data o | None => mret None end.

(** ** Identity *)

Definition addr_compare (h : heap) (a b : ifaddr) (attrs flags : Z) : option Z :=
  let diff (attr : Z) (expr : option bool) := ATTR_DIFF attrs attr (ce_mask a) (ce_mask b) expr in
  let x := ce_data a in let y := ce_data b in
  let differ (f : rtnl_addr -> Z) := Some (negb (f x =? f y)) in
  let cmp (f : rtnl_addr -> option positive) := d ← addr_cmp h (f x) (f y); Some (negb (d =? 0)) in
  diffs [diff ADDR_ATTR_IFINDEX (differ a_ifindex); diff ADDR_ATTR_FAMILY (differ a_family); diff ADDR_ATTR_SCOPE (differ a_scope);
         diff ADDR_ATTR_LABEL (Some (negb (strcmp_eq (a_label x) (a_label y))));
         diff ADDR_ATTR_PEER (cmp a_peer); diff ADDR_ATTR_LOCAL (cmp a_local); diff ADDR_ATTR_MULTICAST (cmp a_multicast);
         diff ADDR_ATTR_BROADCAST (cmp a_bcast); diff ADDR_ATTR_ANYCAST (cmp a_anycast);
         if negb (Z.land flags LOOSE_COMPARISON =? 0)
         then diff ADDR_ATTR_FLAGS (Some (negb (Z.land (Z.lxor (a_flags x) (a_flags y)) (a_flag_mask y) =? 0)))
         else diff ADDR_ATTR_FLAGS (differ a_flags)].

Definition addr_attrs : trans_tbl :=
  [(ADDR_ATTR_FAMILY, "family"); (ADDR_ATTR_PREFIXLEN, "prefixlen"); (ADDR_ATTR_FLAGS, "flags"); (ADDR_ATTR_SCOPE, "scope");
   (ADDR_ATTR_IFINDEX, "ifindex"); (ADDR_ATTR_LABEL, "label"); (ADDR_ATTR_CACHEINFO, "cacheinfo"); (ADDR_ATTR_PEER, "peer");
   (ADDR_ATTR_LOCAL, "local"); (ADDR_ATTR_BROADCAST, "broadcast"); (ADDR_ATTR_MULTICAST, "multicast")]%string.

Definition addr_attrs2str (attrs : Z) (buf : bytes) : option bytes := __flags2str attrs buf addr_attrs.

Definition addr_flags : trans_tbl :=
  [(1, "secondary"); (2, "nodad"); (4, "optimistic"); (16, "homeaddress"); (32, "deprecated"); (64, "tentative"); (128, "permanent");
   (256, "mngtmpaddr"); (512, "noprefixroute")]%string.
Definition rtnl_addr_flags2str (flags : Z) (buf : bytes) : option bytes := __flags2str flags buf addr_flags.
Definition rtnl_addr_str2flags (name : bytes) : Z := __str2flags name addr_flags.

(** ** Searching *)

(** Over the addresses of a cache: the place of the one that is found, whose
    counter goes up, and the addresses. *)
Fixpoint rtnl_addr_get (h : heap) (items : list ifaddr) (ifindex : Z) (addr : option positive) : option (option nat * list ifaddr) :=
  match items with
  | [] => Some (None, [])
  | o :: items' =>
      found ← (if negb (ifindex =? 0) && negb (a_ifindex (ce_data o) =? u32 ifindex) then Some false
               else if has (ce_mask o) ADDR_ATTR_LOCAL then d ← addr_cmp h (a_local (ce_data o)) addr; Some (d =? 0) else Some false);
      if found : bool then Some (Some O, Object (s32 (ce_refcnt o + 1)) (ce_msgtype o) (ce_mask o) (ce_data o) :: items') else
      '(i, items') ← rtnl_addr_get h items' ifindex addr; Some (option_map S i, o :: items')
  end.

(** ** Setters and getters *)

(** [strcpy] into the array of 16 bytes, of which the rest stays. *)
Definition rtnl_addr_set_label (o : ifaddr) (label : bytes) : ifaddr * Z :=
  if strlen label >? IFNAMSIZ - 1 then (o, - NLE_RANGE) else
  (assign ADDR_ATTR_LABEL (fun x => set_a_label (cstr label ++ [0] ++ drop (S (length (cstr label))) (a_label x)) x) o, 0).
Definition rtnl_addr_get_label (o : ifaddr) : option bytes := if has (ce_mask o) ADDR_ATTR_LABEL then Some (a_label (ce_data o)) else None.

Definition rtnl_addr_set_ifindex (o : ifaddr) (ifindex : Z) : ifaddr := assign ADDR_ATTR_IFINDEX (set_a_ifindex (u32 ifindex)) o.
Definition rtnl_addr_get_ifindex (o : ifaddr) : Z := s32 (a_ifindex (ce_data o)).

(** With NULL the old link is put, and the pointer to it stays. *)
Definition rtnl_addr_set_link (o : ifaddr) (link : option positive) : H ifaddr :=
  link_put (a_link (ce_data o)) ;;
  match link with
  | None => mret o
  | Some p => link_get p ;; l ← load_link p; mret (assign ADDR_ATTR_IFINDEX (fun x => set_a_ifindex (l_index l) (set_a_link (Some p) x)) o)
  end.

Definition rtnl_addr_get_link (o : ifaddr) : H (option positive) :=
  match a_link (ce_data o) with Some p => link_get p ;; mret (Some p) | None => mret None end.

Definition rtnl_addr_set_family (o : ifaddr) (family : Z) : ifaddr := assign ADDR_ATTR_FAMILY (set_a_family (u8 family)) o.
Definition rtnl_addr_get_family (o : ifaddr) : Z := a_family (ce_data o).

(** The address the prefix length applies to gets it too. *)
Definition rtnl_addr_set_prefixlen (o : ifaddr) (prefixlen : Z) : H ifaddr :=
  let mask := if prefixlen =? 0 then Z.ldiff (ce_mask o) ADDR_ATTR_PREFIXLEN else Z.lor (ce_mask o) ADDR_ATTR_PREFIXLEN in
  let o := Object (ce_refcnt o) (ce_msgtype o) mask (set_a_prefixlen (u8 prefixlen) (ce_data o)) in
  match a_peer (ce_data o), a_local (ce_data o) with
  | Some p, _ | None, Some p => addr_set_prefixlen p prefixlen ;; mret o
  | None, None => mret o
  end.
Definition rtnl_addr_get_prefixlen (o : ifaddr) : Z := a_prefixlen (ce_data o).

Definition rtnl_addr_set_scope (o : ifaddr) (scope : Z) : ifaddr := assign ADDR_ATTR_SCOPE (set_a_scope (u8 scope)) o.
Definition rtnl_addr_get_scope (o : ifaddr) : Z := a_scope (ce_data o).

Definition rtnl_addr_set_flags (o : ifaddr) (flags : Z) : ifaddr :=
  assign ADDR_ATTR_FLAGS (fun x => set_a_flags (Z.lor (a_flags x) (u32 flags)) (set_a_flag_mask (Z.lor (a_flag_mask x) (u32 flags)) x)) o.
Definition rtnl_addr_unset_flags (o : ifaddr) (flags : Z) : ifaddr :=
  assign ADDR_ATTR_FLAGS (fun x => set_a_flags (Z.ldiff (a_flags x) (u32 flags)) (set_a_flag_mask (Z.lor (a_flag_mask x) (u32 flags)) x)) o.
Definition rtnl_addr_get_flags (o : ifaddr) : Z := a_flags (ce_data o).

Definition __assign_addr (o : ifaddr) (pos : rtnl_addr -> option positive) (set_pos : option positive -> rtnl_addr -> rtnl_addr)
    (new : option positive) (flag : Z) : H (ifaddr * Z) :=
  match new with
  | Some p =>
      a ← load p;
      let known := has (ce_mask o) ADDR_ATTR_FAMILY in
      if known && negb (NlAddr.a_family a =? a_family (ce_data o)) then mret (o, - NLE_AF_MISMATCH) else
      let o := if known then o else Object (ce_refcnt o) (ce_msgtype o) (ce_mask o) (set_a_family (u8 (NlAddr.a_family a)) (ce_data o)) in
      addr_put (pos (ce_data o)) ;;
      addr_get p ;;
      mret (assign (Z.lor flag ADDR_ATTR_FAMILY) (set_pos (Some p)) o, 0)
  | None =>
      addr_put (pos (ce_data o)) ;;
      mret (Object (ce_refcnt o) (ce_msgtype o) (Z.ldiff (ce_mask o) flag) (set_pos None (ce_data o)), 0)
  end.

(** [p ? nl_addr_get_prefixlen (p) : 0]. *)
Definition prefix_of (p : option positive) : H Z :=
  match p with Some p => a ← load p; mret (NlAddr.nl_addr_get_prefixlen a) | None => mret 0 end.

Definition rtnl_addr_set_local (o : ifaddr) (local : option positive) : H (ifaddr * Z) :=
  n ← (if has (ce_mask o) ADDR_ATTR_PEER then prefix_of local else mret 0);
  if negb (n =? 0) then mret (o, - NLE_INVAL) else
  '(o, err) ← __assign_addr o a_local set_a_local local ADDR_ATTR_LOCAL;
  if err <? 0 then mret (o, err) else
  if has (ce_mask o) ADDR_ATTR_PEER then mret (o, 0) else
  n ← prefix_of local;
  o ← rtnl_addr_set_prefixlen o (s32 n);
  mret (o, 0).
Definition rtnl_addr_get_local (o : ifaddr) : option positive := a_local (ce_data o).

(** An address of another family than [family] is refused. *)
Definition family_is (family : Z) (p : option positive) : H bool :=
  match p with Some p => a ← load p; mret (NlAddr.a_family a =? family) | None => mret true end.

Definition rtnl_addr_set_peer (o : ifaddr) (peer : option positive) : H (ifaddr * Z) :=
  ok ← family_is NlAddr.AF_INET peer;
  if negb ok then mret (o, - NLE_AF_NOSUPPORT) else
  '(o, err) ← __assign_addr o a_peer set_a_peer peer ADDR_ATTR_PEER;
  if err <? 0 then mret (o, err) else
  n ← prefix_of peer;
  o ← rtnl_addr_set_prefixlen o (s32 n);
  mret (o, 0).
Definition rtnl_addr_get_peer (o : ifaddr) : option positive := a_peer (ce_data o).

Definition rtnl_addr_set_broadcast (o : ifaddr) (bcast : option positive) : H (ifaddr * Z) :=
  ok ← family_is NlAddr.AF_INET bcast;
  if negb ok then mret (o, - NLE_AF_NOSUPPORT) else __assign_addr o a_bcast set_a_bcast bcast ADDR_ATTR_BROADCAST.
Definition rtnl_addr_get_broadcast (o : ifaddr) : option positive := a_bcast (ce_data o).

Definition rtnl_addr_set_multicast (o : ifaddr) (multicast : option positive) : H (ifaddr * Z) :=
  ok ← family_is NlAddr.AF_INET6 multicast;
  if negb ok then mret (o, - NLE_AF_NOSUPPORT) else __assign_addr o a_multicast set_a_multicast multicast ADDR_ATTR_MULTICAST.
Definition rtnl_addr_get_multicast (o : ifaddr) : option positive := a_multicast (ce_data o).

Definition rtnl_addr_set_anycast (o : ifaddr) (anycast : option positive) : H (ifaddr * Z) :=
  ok ← family_is NlAddr.AF_INET6 anycast;
  if negb ok then mret (o, - NLE_AF_NOSUPPORT) else __assign_addr o a_anycast set_a_anycast anycast ADDR_ATTR_ANYCAST.
Definition rtnl_addr_get_anycast (o : ifaddr) : option positive := a_anycast (ce_data o).

Definition set_aci_valid (v : Z) (x : rtnl_addr) : rtnl_addr :=
  let c := a_cacheinfo x in set_a_cacheinfo (CacheInfo (aci_prefered c) v (aci_cstamp c) (aci_tstamp c)) x.
Definition set_aci_prefered (v : Z) (x : rtnl_addr) : rtnl_addr :=
  let c := a_cacheinfo x in set_a_cacheinfo (CacheInfo v (aci_valid c) (aci_cstamp c) (aci_tstamp c)) x.

Definition rtnl_addr_get_valid_lifetime (o : ifaddr) : Z :=
  if has (ce_mask o) ADDR_ATTR_CACHEINFO then aci_valid (a_cacheinfo (ce_data o)) else 4294967295.
Definition rtnl_addr_set_valid_lifetime (o : ifaddr) (lifetime : Z) : ifaddr := assign ADDR_ATTR_CACHEINFO (set_aci_valid (u32 lifetime)) o.
Definition rtnl_addr_get_preferred_lifetime (o : ifaddr) : Z :=
  if has (ce_mask o) ADDR_ATTR_CACHEINFO then aci_prefered (a_cacheinfo (ce_data o)) else 4294967295.
Definition rtnl_addr_set_preferred_lifetime (o : ifaddr) (lifetime : Z) : ifaddr := assign ADDR_ATTR_CACHEINFO (set_aci_prefered (u32 lifetime)) o.
Definition rtnl_addr_get_create_time (o : ifaddr) : Z := aci_cstamp (a_cacheinfo (ce_data o)).
Definition rtnl_addr_get_last_update_time (o : ifaddr) : Z := aci_tstamp (a_cacheinfo (ce_data o)).

Section Alloc.
Context {al : Allocator}.

Definition rtnl_addr_alloc : option ifaddr := obj_alloc addr_size no_addr.

(** The copies of the addresses one after the other; the first that fails ends
    it. *)
Fixpoint clone_slots (slots : list ((rtnl_addr -> option positive) * (option positive -> rtnl_addr -> rtnl_addr))) (dst src : rtnl_addr) : H (rtnl_addr * Z) :=
  match slots with
  | [] => mret (dst, 0)
  | (get, set) :: slots' =>
      '(p, ok) ← clone_ptr (get dst) (get src);
      let dst := set p dst in
      if negb ok then mret (dst, - NLE_NOMEM) else clone_slots slots' dst src
  end.

Definition addr_clone (dst src : rtnl_addr) : H (rtnl_addr * Z) :=
  dst ← (match a_link src with Some p => link_get p ;; mret (set_a_link (Some p) dst) | None => mret dst end);
  clone_slots [(a_peer, set_a_peer); (a_local, set_a_local); (a_bcast, set_a_bcast); (a_multicast, set_a_multicast); (a_anycast, set_a_anycast)] dst src.

Definition rtnl_addr_clone (o : ifaddr) : H (option ifaddr) := obj_clone addr_size addr_clone addr_free_data o.

(** ** Parsing *)

Definition addr_policy : list nla_policy :=
  [Policy 0 0 0; Policy 0 0 0; Policy 0 0 0; Policy NLA_STRING 0 IFNAMSIZ; Policy 0 0 0; Policy 0 0 0; Policy 0 16 0; Policy 0 0 0; Policy 0 0 0].

(** [struct ifaddrmsg]. *)
Record ifaddrmsg := Ifa { ifa_family : Z; ifa_prefixlen : Z; ifa_flags : Z; ifa_scope : Z; ifa_index : Z }.

Definition ifa_bytes (m : ifaddrmsg) : bytes :=
  le_bytes 1 (ifa_family m) ++ le_bytes 1 (ifa_prefixlen m) ++ le_bytes 1 (ifa_flags m) ++ le_bytes 1 (ifa_scope m) ++ le_bytes 4 (ifa_index m).

Definition read_ifa (buf : bytes) (off : Z) : option ifaddrmsg :=
  f ← rd off 1 buf; p ← rd (off + 1) 1 buf; fl ← rd (off + 2) 1 buf; s ← rd (off + 3) 1 buf; i ← rd (off + 4) 4 buf; Some (Ifa f p fl s i).

(** [struct ifa_cacheinfo]. *)
Definition ci_bytes (c : rtnl_addr_cacheinfo) : bytes :=
  le_bytes 4 (aci_prefered c) ++ le_bytes 4 (aci_valid c) ++ le_bytes 4 (aci_cstamp c) ++ le_bytes 4 (aci_tstamp c).

(** [if (tb[IFA_CACHEINFO])]. *)
Definition read_cacheinfo (buf : bytes) (tb : list (option Z)) (o : ifaddr) : H ifaddr :=
  match attr_of tb IFA_CACHEINFO with
  | None => mret o
  | Some ca =>
      p ← of_option (rd (nla_data ca) 4 buf); v ← of_option (rd (nla_data ca + 4) 4 buf);
      c ← of_option (rd (nla_data ca + 8) 4 buf); t ← of_option (rd (nla_data ca + 12) 4 buf);
      mret (assign ADDR_ATTR_CACHEINFO (set_a_cacheinfo (CacheInfo p v c t)) o)
  end.

(** [if (tb[IFA_ADDRESS])]: the address is the local one, if there is none or
    they are equal, or else the peer; [plen_addr] is the address the prefix
    length is for. *)
Definition read_address (buf : bytes) (tb : list (option Z)) (family : Z) (o : ifaddr) (plen_addr : option positive) : H (ifaddr * option positive * bool) :=
  match attr_of tb IFA_ADDRESS with
  | None => mret (o, plen_addr, true)
  | Some at_ =>
      r ← addr_alloc_attr buf at_ family;
      match r with
      | None => mret (o, plen_addr, false)
      | Some a =>
          local ← (match attr_of tb IFA_LOCAL with
                   | None => mret true
                   | Some _ => reading (fun h => d ← addr_cmp h (Some a) (a_local (ce_data o)); Some (d =? 0))
                   end);
          o ← (if local : bool then addr_put (a_local (ce_data o)) ;; mret (assign ADDR_ATTR_LOCAL (set_a_local (Some a)) o)
               else mret (assign ADDR_ATTR_PEER (set_a_peer (Some a)) o));
          mret (o, Some a, true)
      end
  end.

(** The link with the index of the address; [lcache] is the cache of links, if
    there is one. *)
Definition read_link (lcache : option (list positive)) (o : ifaddr) : H ifaddr :=
  match lcache with
  | None => mret o
  | Some links =>
      link ← rtnl_link_get links (s32 (a_ifindex (ce_data o)));
      match link with
      | None => mret o
      | Some p => o ← rtnl_addr_set_link o (Some p); link_put (Some p) ;; mret o
      end
  end.

(** The local address, the peer and the prefix length. *)
Definition read_addresses (buf : bytes) (tb : list (option Z)) (family : Z) (o : ifaddr) : H (ifaddr * bool) :=
  '(o, ok) ← opt_addr buf tb IFA_LOCAL family ADDR_ATTR_LOCAL set_a_local (fun _ => mret tt) o;
  if negb ok then mret (o, false) else
  '(o, plen_addr, ok) ← read_address buf tb family o (match attr_of tb IFA_LOCAL with Some _ => a_local (ce_data o) | None => None end);
  if negb ok then mret (o, false) else
  (match plen_addr with Some p => addr_set_prefixlen p (a_prefixlen (ce_data o)) | None => mret tt end) ;;
  mret (o, true).

(** From the header on: the address, and whether there was enough memory. *)
Definition parse_addr (lcache : option (list positive)) (buf : bytes) (tb : list (option Z)) (ifa : ifaddrmsg) (o : ifaddr) : H (ifaddr * bool) :=
  let family := ifa_family ifa in
  flags ← (match attr_of tb IFA_FLAGS with Some a => of_option (nla_get_u32 buf a) | None => mret (ifa_flags ifa) end);
  let x := set_a_ifindex (ifa_index ifa) (set_a_flags flags (set_a_scope (ifa_scope ifa)
             (set_a_prefixlen (ifa_prefixlen ifa) (set_a_family family (ce_data o))))) in
  let o := Object (ce_refcnt o) (ce_msgtype o) (Z.lor (Z.lor (Z.lor (Z.lor ADDR_ATTR_FAMILY ADDR_ATTR_PREFIXLEN) ADDR_ATTR_FLAGS)
             ADDR_ATTR_SCOPE) ADDR_ATTR_IFINDEX) x in
  o ← opt_string buf tb IFA_LABEL IFNAMSIZ ADDR_ATTR_LABEL set_a_label o;
  o ← read_cacheinfo buf tb o;
  '(o, ok) ← read_addresses buf tb family o;
  if negb ok then mret (o, false) else
  '(o, ok) ← opt_addr buf tb IFA_BROADCAST family ADDR_ATTR_BROADCAST set_a_bcast (fun _ => mret tt) o;
  if negb ok then mret (o, false) else
  '(o, ok) ← opt_addr buf tb IFA_MULTICAST family ADDR_ATTR_MULTICAST set_a_multicast (fun _ => mret tt) o;
  if negb ok then mret (o, false) else
  '(o, ok) ← opt_addr buf tb IFA_ANYCAST family ADDR_ATTR_ANYCAST set_a_anycast (fun _ => mret tt) o;
  if negb ok then mret (o, false) else
  o ← read_link lcache o;
  mret (o, true).

(** [pp_cb] gets the address and may take references to it.  The result, and
    the address if somebody has one. *)
Definition addr_msg_parser (pp_cb : ifaddr -> H (ifaddr * Z)) (lcache : option (list positive)) (buf : bytes) : H (Z * option ifaddr) :=
  match rtnl_addr_alloc with
  | None => mret (- NLE_NOMEM, None)
  | Some o =>
      type ← of_option (rd 4 2 buf);
      let o := Object (ce_refcnt o) type (ce_mask o) (ce_data o) in
      '(otb, err) ← of_option (nlmsg_parse buf 0 8 IFA_MAX (Some addr_policy));
      if err <? 0 then r ← rtnl_addr_put (Some o); mret (err, r) else
      tb ← of_option otb;
      ifa ← of_option (read_ifa buf (nlmsg_data 0));
      '(o, ok) ← parse_addr lcache buf tb ifa o;
      if negb ok then r ← rtnl_addr_put (Some o); mret (- NLE_NOMEM, r) else
      '(o, err) ← pp_cb o;
      r ← rtnl_addr_put (Some o); mret (err, r)
  end.

(** ** Requests *)

(** The scope; without one, an IPv4 address 127.x.x.x is of the host. *)
Definition msg_scope (h : heap) (tmpl : ifaddr) : option Z :=
  let t := ce_data tmpl in
  if has (ce_mask tmpl) ADDR_ATTR_SCOPE then Some (a_scope t) else
  if (a_family t =? NlAddr.AF_INET) && has (ce_mask tmpl) ADDR_ATTR_LOCAL then
    a ← deref h (a_local t);
    c ← rd 0 1 (NlAddr.nl_addr_get_binary_addr a);
    Some (if c =? 127 then RT_SCOPE_HOST else RT_SCOPE_UNIVERSE)
  else Some RT_SCOPE_UNIVERSE.

(** The default size of messages is an argument. *)
Definition build_addr_msg (default_msg_size : Z) (h : heap) (tmpl : ifaddr) (cmd flags : Z) : option (Z + nl_msg) :=
  let mask := ce_mask tmpl in
  let t := ce_data tmpl in
  scope ← msg_scope h tmpl;
  match nlmsg_alloc_simple default_msg_size cmd flags with
  | None => Some (inl (- NLE_NOMEM))
  | Some msg =>
      let msg := append_hdr (ifa_bytes (Ifa (a_family t) (a_prefixlen t) (u8 (a_flags t)) scope (a_ifindex t))) msg in
      msg ← put_addr_if (has mask ADDR_ATTR_LOCAL) h IFA_LOCAL (a_local t) msg;
      msg ← put_addr_if (has mask ADDR_ATTR_PEER || has mask ADDR_ATTR_LOCAL) h IFA_ADDRESS
              (if has mask ADDR_ATTR_PEER then a_peer t else a_local t) msg;
      let msg := put_if (has mask ADDR_ATTR_LABEL) (NLA_PUT_STRING IFA_LABEL (a_label t)) msg in
      msg ← put_addr_if (has mask ADDR_ATTR_BROADCAST) h IFA_BROADCAST (a_bcast t) msg;
      let msg := put_if (has mask ADDR_ATTR_CACHEINFO)
                   (NLA_PUT IFA_CACHEINFO (ci_bytes (CacheInfo (aci_prefered (a_cacheinfo t)) (aci_valid (a_cacheinfo t)) 0 0))) msg in
      let msg := put_if (negb (Z.ldiff (a_flags t) 255 =? 0)) (NLA_PUT_U32 IFA_FLAGS (a_flags t)) msg in
      Some (built_msg msg)
  end.

(** [(ce_mask & required) != required]. *)
Definition lacks (o : ifaddr) (required : Z) : bool := negb (Z.land (ce_mask o) required =? required).

Definition rtnl_addr_build_add_request (default_msg_size : Z) (h : heap) (o : ifaddr) (flags : Z) : option (Z + nl_msg) :=
  if lacks o (Z.lor (Z.lor (Z.lor ADDR_ATTR_IFINDEX ADDR_ATTR_FAMILY) ADDR_ATTR_PREFIXLEN) ADDR_ATTR_LOCAL) then Some (inl (- NLE_MISSING_ATTR))
  else build_addr_msg default_msg_size h o RTM_NEWADDR (Z.lor NLM_F_CREATE flags).

Definition rtnl_addr_build_delete_request (default_msg_size : Z) (h : heap) (o : ifaddr) (flags : Z) : option (Z + nl_msg) :=
  if lacks o (Z.lor ADDR_ATTR_IFINDEX ADDR_ATTR_FAMILY) then Some (inl (- NLE_MISSING_ATTR))
  else build_addr_msg default_msg_size h o RTM_DELADDR flags.

End Alloc.

(** ** The five addresses *)

Inductive slot := Peer | Local | Bcast | Multicast | Anycast.

#[export] Instance slot_eq_dec : EqDecision slot.
Proof. solve_decision. Defined.

Definition get (s : slot) : rtnl_addr -> option positive :=
  match s with Peer => a_peer | Local => a_local | Bcast => a_bcast | Multicast => a_multicast | Anycast => a_anycast end.

Definition set (s : slot) : option positive -> rtnl_addr -> rtnl_addr :=
  match s with
  | Peer => set_a_peer | Local => set_a_local | Bcast => set_a_bcast | Multicast => set_a_multicast | Anycast => set_a_anycast
  end.

Definition slot_attr (s : slot) : Z :=
  match s with
  | Peer => ADDR_ATTR_PEER | Local => ADDR_ATTR_LOCAL | Bcast => ADDR_ATTR_BROADCAST | Multicast => ADDR_ATTR_MULTICAST
  | Anycast => ADDR_ATTR_ANYCAST
  end.

Definition slots : list slot := [Peer; Local; Bcast; Multicast; Anycast].
Definition addr_ptrs (x : rtnl_addr) : list (option positive) := map (fun s => get s x) slots.
Definition others (s : slot) (x : rtnl_addr) : list (option positive) := map (fun s => get s x) (filter (fun s' => s' <> s) slots).

Lemma addr_ptrs_split s x : addr_ptrs x ≡ₚ get s x :: others s x.
Proof.
  assert (slots ≡ₚ s :: filter (fun s' => s' <> s) slots) as E; [|unfold addr_ptrs; by rewrite E].
  destruct s; symmetry; [done|exact (Permutation_middle [Peer] _ _)|exact (Permutation_middle [Peer; Local] _ _)|exact (Permutation_middle [Peer; Local; Bcast] _ _)|
    exact (Permutation_middle [Peer; Local; Bcast; Multicast] _ _)].
Qed.

Lemma others_set s v x : others s (set s v x) = others s x.
Proof. by destruct s. Qed.

Lemma get_set s s' v x : get s' (set s v x) = if decide (s' = s) then v else get s' x.
Proof. by destruct s, s'. Qed.

Lemma slot_has s s' : has (slot_attr s) (slot_attr s') = bool_decide (s = s').
Proof. by destruct s, s'. Qed.

(** The references of the addresses, one of them apart. *)
Lemma heap_ok_slot s user l x h : heap_ok user (addr_ptrs x ++ l) h <-> heap_ok user (get s x :: others s x ++ l) h.
Proof. by rewrite (addr_ptrs_split s). Qed.

(** ** References to links *)

Definition link_refs (user : positive -> Z) (l : list (option positive)) (h : heap) : Prop :=
  (forall p, 0 <= user p) /\
  forall p, match h_links h !! p with
            | Some k => l_refcnt k = user p + refs l p /\ 0 < l_refcnt k <= INT_MAX
            | None => user p + refs l p = 0
            end.

Lemma link_refs_null user l h : link_refs user (None :: l) h <-> link_refs user l h.
Proof. split; intros [Hu H]; (split; [done|]); intros p; specialize (H p); by rewrite refs_cons in *. Qed.

Lemma link_refs_heap user l h h' : h_links h' = h_links h -> link_refs user l h -> link_refs user l h'.
Proof. intros E [Hu H]. split; [done|]. intros p. rewrite E. apply H. Qed.

Lemma link_get_run user l h p : link_refs user l h -> 0 < user p + refs l p < INT_MAX -> exists k h', h_links h !! p = Some k /\
  link_get p h = Some (tt, h') /\ link_refs user (Some p :: l) h' /\ h_addrs h' = h_addrs h /\
  h_links h' !! p = Some (Link (l_refcnt k + 1) (l_index k) (l_master k)).
Proof.
  intros [Hu H] Hp. pose proof (H p) as Hk. destruct (h_links h !! p) as [k|] eqn:E; [|lia]. exists k. unfold link_get. rewrite E. cbn [mbind option_bind].
  rewrite s32_id by (unfold INT_MIN, INT_MAX in *; lia). eexists. split; [done|]. split; [done|]. cbn [h_links h_addrs]. rewrite lookup_insert_eq. split; [|done].
  split; [done|]. intros q. cbn [h_links]. rewrite refs_cons. destruct (decide (q = p)) as [->|Hq].
  - rewrite lookup_insert_eq, decide_True by done. cbn [l_refcnt]. lia.
  - rewrite lookup_insert_ne by done. rewrite decide_False by congruence. apply H.
Qed.

Lemma link_put_run user l h o : link_refs user (o :: l) h -> exists h', link_put o h = Some (tt, h') /\ link_refs user l h' /\ h_addrs h' = h_addrs h.
Proof.
  intros Hh. destruct o as [p|]; [|exists h; rewrite link_refs_null in Hh; done]. destruct Hh as [Hu H]. pose proof (H p) as Hp. rewrite refs_cons, decide_True in Hp by done.
  pose proof (refs_nonneg l p). pose proof (Hu p). destruct (h_links h !! p) as [k|] eqn:E; [|lia]. unfold link_put. rewrite E. cbn [mbind option_bind].
  rewrite s32_id by (unfold INT_MIN, INT_MAX in *; lia). rewrite (proj2 (Z.ltb_ge _ _)) by lia.
  assert (forall q, q <> p -> match h_links h !! q with Some k => l_refcnt k = user q + refs l q /\ 0 < l_refcnt k <= INT_MAX | None => user q + refs l q = 0 end) as Hne.
  { intros q Hq. specialize (H q). rewrite refs_cons, decide_False in H by congruence. exact H. }
  destruct (Z.leb_spec (l_refcnt k - 1) 0); eexists; (split; [done|]); (split; [|done]); (split; [done|]); intros q; cbn [h_links]; (destruct (decide (q = p)) as [->|Hq]).
  - rewrite lookup_delete_eq. lia.
  - rewrite lookup_delete_ne by done. by apply Hne.
  - rewrite lookup_insert_eq. cbn [l_refcnt]. lia.
  - rewrite lookup_insert_ne by done. by apply Hne.
Qed.

(** ** What an address says *)

Record ifaddr_value := IfAddrValue {
  v_family : option Z;
  v_prefixlen : option Z;
  v_scope : option Z;
  v_flags : option Z;
  v_ifindex : option Z;
  v_label : option bytes;
  v_cacheinfo : option rtnl_addr_cacheinfo;
  v_peer : option addr_value;
  v_local : option addr_value;
  v_bcast : option addr_value;
  v_multicast : option addr_value;
  v_anycast : option addr_value;
  v_flag_mask : Z
}.

Definition view_slot (h : heap) (o : ifaddr) (s : slot) : option addr_value := view_ptr h (ce_mask o) (slot_attr s) (get s (ce_data o)).

Definition ifaddr_view (h : heap) (o : ifaddr) : ifaddr_value :=
  let m := ce_mask o in
  let x := ce_data o in
  IfAddrValue (att m ADDR_ATTR_FAMILY (a_family x)) (att m ADDR_ATTR_PREFIXLEN (a_prefixlen x)) (att m ADDR_ATTR_SCOPE (a_scope x))
    (att m ADDR_ATTR_FLAGS (a_flags x)) (att m ADDR_ATTR_IFINDEX (a_ifindex x)) (att m ADDR_ATTR_LABEL (cstr (a_label x)))
    (att m ADDR_ATTR_CACHEINFO (a_cacheinfo x)) (view_slot h o Peer) (view_slot h o Local) (view_slot h o Bcast) (view_slot h o Multicast)
    (view_slot h o Anycast) (a_flag_mask x).

Definition cacheinfo_ok (c : rtnl_addr_cacheinfo) : Prop :=
  0 <= aci_prefered c < 2 ^ 32 /\ 0 <= aci_valid c < 2 ^ 32 /\ 0 <= aci_cstamp c < 2 ^ 32 /\ 0 <= aci_tstamp c < 2 ^ 32.

Definition label_ok (s : bytes) : Prop := zlen s = IFNAMSIZ /\ strlen s < IFNAMSIZ /\ Forall byte_ok s.

(** Attributes are those of above; fields have their widths; a field that is
    sent without its attribute is 0; a pointer is there with its attribute. *)
Record ifaddr_ok (h : heap) (o : ifaddr) : Prop := {
  ok_mask : 0 <= ce_mask o < 4096;
  ok_family : 0 <= a_family (ce_data o) < 256;
  ok_prefixlen : 0 <= a_prefixlen (ce_data o) < 256;
  ok_scope : 0 <= a_scope (ce_data o) < 256;
  ok_flags : 0 <= a_flags (ce_data o) < 2 ^ 32;
  ok_ifindex : 0 <= a_ifindex (ce_data o) < 2 ^ 32;
  ok_cacheinfo : cacheinfo_ok (a_cacheinfo (ce_data o));
  ok_label : label_ok (a_label (ce_data o));
  ok_no_family : has (ce_mask o) ADDR_ATTR_FAMILY = false -> a_family (ce_data o) = 0;
  ok_no_prefixlen : has (ce_mask o) ADDR_ATTR_PREFIXLEN = false -> a_prefixlen (ce_data o) = 0;
  ok_no_flags : has (ce_mask o) ADDR_ATTR_FLAGS = false -> a_flags (ce_data o) = 0;
  ok_no_ifindex : has (ce_mask o) ADDR_ATTR_IFINDEX = false -> a_ifindex (ce_data o) = 0;
  ok_ptrs : forall s, ptr_ok h (ce_mask o) (slot_attr s) (get s (ce_data o))
}.

(** Attributes are added. *)
Lemma lor_range x y : 0 <= x < 4096 -> 0 <= y < 4096 -> 0 <= Z.lor x y < 4096.
Proof.
  intros Hx Hy. split; [apply Z.lor_nonneg; lia|]. destruct (Z.eq_dec (Z.lor x y) 0) as [->|Hne]; [lia|]. pose proof (proj2 (Z.lor_nonneg x y) ltac:(lia)).
  change 4096 with (2 ^ 12). apply Z.log2_lt_pow2; [lia|]. rewrite Z.log2_lor by lia. apply Z.max_lub_lt.
  - destruct (Z.eq_dec x 0) as [->|]; [done|]. apply Z.log2_lt_pow2; lia.
  - destruct (Z.eq_dec y 0) as [->|]; [done|]. apply Z.log2_lt_pow2; lia.
Qed.

Lemma slot_range s : 0 <= slot_attr s < 4096.
Proof. by destruct s. Qed.

Lemma no_addr_ok h type : ifaddr_ok h (Object 1 type 0 no_addr).
Proof.
  constructor; try done; [|by intros []]. split; [done|]. split; [by vm_compute|]. by apply Forall_replicate.
Qed.

Ltac addr_fields := cbn [assign ce_data ce_mask ce_refcnt set_a_family set_a_prefixlen set_a_scope set_a_flags set_a_ifindex set_a_peer set_a_local set_a_bcast
  set_a_anycast set_a_multicast set_a_cacheinfo set_a_label set_a_flag_mask set_a_link a_family a_prefixlen a_scope a_flags a_ifindex a_peer a_local a_bcast
  a_anycast a_multicast a_cacheinfo a_label a_flag_mask a_link].

Ltac known_bits := rewrite ?has_lor;
  repeat match goal with |- context [has ?a ?b] =>
    lazymatch a with ce_mask _ => fail | _ => lazymatch b with slot_attr _ => fail | _ => let v := eval vm_compute in (has a b) in change (has a b) with v end end end;
  rewrite ?orb_false_r, ?orb_true_r.

(** The pointers on another heap. *)
Lemma ifaddr_ok_heap h h' o : ifaddr_ok h o -> (forall s, ptr_ok h' (ce_mask o) (slot_attr s) (get s (ce_data o))) -> ifaddr_ok h' o.
Proof. intros [] Hp. by constructor. Qed.

Lemma ifaddr_ok_more h h' o p a : ifaddr_ok h o -> h_addrs h !! p = None -> h_addrs h' = <[p := a]> (h_addrs h) -> ifaddr_ok h' o.
Proof. intros Ho Hn E. apply (ifaddr_ok_heap h); [done|]. intros s. by eapply ptr_more; [apply (ok_ptrs _ _ Ho)|..]. Qed.

(** A pointer is set with its attribute. *)
Lemma ifaddr_ok_slot h o s p a : ifaddr_ok h o -> deref h (Some p) = Some a -> addr_ok a -> ifaddr_ok h (assign (slot_attr s) (set s (Some p)) o).
Proof.
  intros Ho E Ha. destruct Ho. constructor; cbn [assign ce_data ce_mask]; [apply lor_range; [done|apply slot_range]|try (destruct s; known_bits; assumption)..].
  intros s'. rewrite get_set. unfold ptr_ok in *. rewrite has_lor, slot_has. specialize (ok_ptrs0 s').
  destruct (decide (s' = s)) as [->|Hne]; [rewrite bool_decide_eq_true_2, orb_true_r by done; by exists a|]. by rewrite bool_decide_eq_false_2, orb_false_r by congruence.
Qed.

(** A field is set that is not a pointer. *)
Lemma ptrs_field h o attr f : ifaddr_ok h o -> (forall s x, get s (f x) = get s x) -> (forall s, has attr (slot_attr s) = false) ->
  forall s, ptr_ok h (ce_mask (assign attr f o)) (slot_attr s) (get s (ce_data (assign attr f o))).
Proof.
  intros Ho Hf Ha s. cbn [assign ce_mask ce_data]. rewrite Hf. pose proof (ok_ptrs _ _ Ho s) as Hp. unfold ptr_ok in *. by rewrite has_lor, Ha, orb_false_r.
Qed.

(** [ifaddr_ok] when a field is set. *)
Ltac keep_fields := lazymatch goal with Ho : ifaddr_ok ?h ?o |- ifaddr_ok ?h (assign ?attr ?f ?o) =>
  let Hp := fresh "Hp" in assert (forall s, ptr_ok h (ce_mask (assign attr f o)) (slot_attr s) (get s (ce_data (assign attr f o)))) as Hp
    by (apply ptrs_field; [exact Ho|by intros []|by intros []]);
  destruct Ho; constructor; [..|exact Hp]; addr_fields; known_bits; try assumption; try (intros; discriminate); try (apply lor_range; [assumption|by vm_compute]); eauto end.

(** What is the same when pointers are set: the other fields and attributes. *)
Definition scalars (x : rtnl_addr) : rtnl_addr := IfAddr (a_family x) (a_prefixlen x) (a_scope x) (a_flags x) (a_ifindex x) None None None None None
  (a_cacheinfo x) (a_label x) (a_flag_mask x) None.

Record same_rest (o o' : ifaddr) : Prop := {
  sr_data : scalars (ce_data o') = scalars (ce_data o);
  sr_type : ce_msgtype o' = ce_msgtype o;
  sr_mask : forall attr, (forall s, has (slot_attr s) attr = false) -> has (ce_mask o') attr = has (ce_mask o) attr
}.

Lemma same_rest_refl o : same_rest o o.
Proof. by constructor. Qed.

Lemma same_rest_trans o1 o2 o3 : same_rest o1 o2 -> same_rest o2 o3 -> same_rest o1 o3.
Proof. intros [D1 T1 M1] [D2 T2 M2]. constructor; [congruence|congruence|]. intros attr Ha. by rewrite M2, M1. Qed.

Lemma same_rest_slot o s p : same_rest o (assign (slot_attr s) (set s p) o).
Proof. constructor; [by destruct s|done|]. intros attr Ha. cbn [assign ce_mask]. by rewrite has_lor, Ha, orb_false_r. Qed.

Lemma same_rest_get {A} (f : rtnl_addr -> A) o o' : same_rest o o' -> (forall x, f (scalars x) = f x) -> f (ce_data o') = f (ce_data o).
Proof. intros [E _ _] Hf. by rewrite <- (Hf (ce_data o')), E, Hf. Qed.

(** ** Releasing *)

Definition ptrs : option ifaddr -> list (option positive) := held addr_ptrs.
Definition link_of (o : option ifaddr) : option positive := o ← o; a_link (ce_data o).

Lemma addr_free_run user luser l ls h x : heap_ok user (addr_ptrs x ++ l) h -> link_refs luser (a_link x :: ls) h -> exists h',
  addr_free_data x h = Some (tt, h') /\ heap_ok user l h' /\ link_refs luser ls h'.
Proof.
  intros Hh Hl. change (heap_ok user (a_peer x :: a_local x :: a_bcast x :: a_multicast x :: a_anycast x :: l) h) in Hh. unfold addr_free_data.
  do 5 (lazymatch goal with Hx : heap_ok _ (_ :: _) ?h0 |- context [?f ?h0] =>
    let h1 := fresh "h" in let E := fresh "E" in let K := fresh "K" in
    destruct (addr_put_ok _ _ _ _ Hx) as (h1 & E & Hh' & K & _); rewrite (hbind_run _ _ _ _ _ E); clear Hx; rename Hh' into Hh;
    apply (link_refs_heap _ _ _ h1 K) in Hl end).
  destruct (link_put_run _ _ _ _ Hl) as (h' & E' & Hl' & Ea). exists h'. split; [done|]. split; [|done].
  destruct Hh as [Hu Hall]. split; [done|]. by rewrite Ea.
Qed.

Lemma ifaddr_put_last user luser l ls h o : heap_ok user (addr_ptrs (ce_data o) ++ l) h -> link_refs luser (a_link (ce_data o) :: ls) h -> ce_refcnt o = 1 ->
  exists h', rtnl_addr_put (Some o) h = Some (None, h') /\ heap_ok user l h' /\ link_refs luser ls h'.
Proof.
  intros Hh Hl Hr. destruct (addr_free_run _ _ _ _ _ _ Hh Hl) as (h' & E & H1 & H2). exists h'. split; [|done]. cbn [rtnl_addr_put]. unfold obj_put. rewrite Hr.
  change (s32 (1 - 1)) with 0. change (0 <? 0) with false. change (0 <=? 0) with true. cbv iota. by rewrite (hbind_run _ _ _ _ _ E).
Qed.

Lemma ifaddr_put_any user luser l ls h o : heap_ok user (addr_ptrs (ce_data o) ++ l) h -> link_refs luser (a_link (ce_data o) :: ls) h ->
  1 <= ce_refcnt o <= INT_MAX -> exists r h', rtnl_addr_put (Some o) h = Some (r, h') /\ heap_ok user (ptrs r ++ l) h' /\ link_refs luser (link_of r :: ls) h'.
Proof.
  intros Hh Hl Hr. destruct (decide (ce_refcnt o = 1)) as [E|E].
  - destruct (ifaddr_put_last _ _ _ _ _ _ Hh Hl E) as (h' & Ep & H1 & H2). exists None, h'. rewrite link_refs_null. done.
  - cbn [rtnl_addr_put]. unfold obj_put. rewrite s32_id by (unfold INT_MIN, INT_MAX in *; lia). rewrite (proj2 (Z.ltb_ge _ _)), (proj2 (Z.leb_gt _ _)) by lia.
    by eexists _, h.
Qed.

(** ** Arbitrary messages *)

(** An address that is being parsed: the addresses [missing] were not read
    yet. *)
Record parsing (user luser : positive -> Z) (l ls : list (option positive)) (missing : list slot) (h : heap) (o : ifaddr) : Prop := {
  pa_ok : ifaddr_ok h o;
  pa_heap : heap_ok user (addr_ptrs (ce_data o) ++ l) h;
  pa_link : a_link (ce_data o) = None;
  pa_links : link_refs luser ls h;
  pa_ref : ce_refcnt o = 1;
  pa_missing : Forall (fun s => has (ce_mask o) (slot_attr s) = false) missing
}.

Lemma parsing_none user luser l ls missing h o s : parsing user luser l ls missing h o -> s ∈ missing -> get s (ce_data o) = None.
Proof.
  intros P Hs. pose proof (pa_missing _ _ _ _ _ _ _ P) as Hm. rewrite Forall_forall in Hm. specialize (Hm s Hs).
  pose proof (ok_ptrs _ _ (pa_ok _ _ _ _ _ _ _ P) s) as Hp. unfold ptr_ok in Hp. by rewrite Hm in Hp.
Qed.

(** A new address takes its place. *)
Lemma parsing_slot user luser l ls missing h h' o s p a : parsing user luser l ls (s :: missing) h o -> s ∉ missing ->
  heap_ok user (Some p :: others s (ce_data o) ++ l) h' -> h_addrs h !! p = None -> h_addrs h' = <[p := a]> (h_addrs h) -> h_links h' = h_links h -> addr_ok a ->
  parsing user luser l ls missing h' (assign (slot_attr s) (set s (Some p)) o).
Proof.
  intros [Ho _ Hk Hl Hr Hm] Hs Hh Hn Ea El Ha. assert (deref h' (Some p) = Some a) as E by (unfold deref; cbn; by rewrite Ea, lookup_insert_eq).
  constructor; cbn [assign ce_data ce_mask ce_refcnt].
  - eapply ifaddr_ok_slot; [|exact E|done]. by eapply ifaddr_ok_more.
  - rewrite (heap_ok_slot s), others_set, get_set, decide_True by done. exact Hh.
  - by destruct s.
  - by apply (link_refs_heap _ _ h).
  - done.
  - apply list.Forall_cons in Hm as [_ Hm]. apply Forall_forall. intros s' Hs'. rewrite has_lor, slot_has. rewrite Forall_forall in Hm. rewrite (Hm s' Hs').
    apply bool_decide_eq_false_2. by intros ->.
Qed.

Section Safe.
Context {al : Allocator}.

Lemma slot_parsing user luser l ls missing buf tb t family h o s : Forall byte_ok buf -> typed buf addr_policy tb -> 0 <= t -> s ∉ missing ->
  parsing user luser l ls (s :: missing) h o -> exists o' ok h',
  opt_addr buf tb t family (slot_attr s) (set s) (fun _ => mret tt) o h = Some (o', ok, h') /\ parsing user luser l ls missing h' o' /\ h_links h' = h_links h /\
  (ok = true -> attr_of tb t <> None -> get s (ce_data o') <> None) /\ a_prefixlen (ce_data o') = a_prefixlen (ce_data o).
Proof.
  intros Hb Ht H0 Hs P. pose proof (parsing_none _ _ _ _ _ _ _ s P ltac:(by apply elem_of_cons; left)) as En.
  pose proof (pa_heap _ _ _ _ _ _ _ P) as Hh. rewrite (heap_ok_slot s), En, heap_ok_null in Hh.
  assert (parsing user luser l ls missing h o) as P' by (destruct P as [? ? ? ? ? Hm]; apply list.Forall_cons in Hm as [_ ?]; by constructor).
  destruct (opt_addr_safe buf addr_policy tb Hb Ht user _ t family (slot_attr s) (set s) (fun _ => (mret tt : H unit)) (fun a => a) o h Hh)
    as [E|[E|(p & h1 & a & E & Hh1 & Hn & Ea & El & Ha)] ]; [done|intros; by apply NlNeigh.nothing_run|done|done|..].
  - eexists _, _, _. split; [exact E|]. split_and!; [done|done| |done]. unfold opt_addr in E. destruct (attr_of tb t); [|done].
    unfold mbind, H_bind in E. destruct (addr_alloc_attr buf z family h) as [[[p|] h1]|]; cbn in E; [|done|done]. injection E as E _.
    intros _ _. rewrite <- E. cbn [assign ce_data]. by rewrite get_set, decide_True.
  - eexists _, _, _. split; [exact E|]. assert (set s None (ce_data o) = ce_data o) as -> by (rewrite <- En; by destruct s, o as [? ? ? []]).
    split; [by destruct o|]. done.
  - eexists _, _, _. split; [exact E|]. split; [by eapply parsing_slot|]. split; [done|]. split; [|by destruct s].
    intros _ _. cbn [assign ce_data]. by rewrite get_set, decide_True.
Qed.

Lemma nl_addr_cmp_total a b : addr_ok a -> addr_ok b -> exists d, NlAddr.nl_addr_cmp a b = Some d.
Proof.
  intros (H1 & H2 & _) (H3 & H4 & _). unfold NlAddr.nl_addr_cmp. destruct (_ =? 0); [|eauto]. destruct (negb _ && _) eqn:E; [|eauto].
  apply andb_true_iff in E as [_ E]. apply Z.eqb_eq in E.
  assert (a_len a = a_len b) as El by (unfold s32, u32, wrap, swrap in E; change (32 - 1) with 31 in E; Z.to_euclidean_division_equations; lia).
  unfold rd_bytes. rewrite !(proj2 (Z.leb_le _ _)) by lia. cbn [andb mbind option_bind]. eauto.
Qed.

(** The value of an address changes. *)
Lemma heap_ok_update user l h p a b : heap_ok user l h -> h_addrs h !! p = Some a -> a_refcnt b = a_refcnt a ->
  heap_ok user l (Heap (<[p := b]> (h_addrs h)) (h_links h)).
Proof.
  intros [Hu Hall] E Hr. split; [done|]. intros q. specialize (Hall q). cbn [h_addrs]. destruct (decide (q = p)) as [->|Hq].
  - rewrite lookup_insert_eq, Hr. by rewrite E in Hall.
  - by rewrite lookup_insert_ne.
Qed.

Lemma ptr_update h mask attr q p b : ptr_ok h mask attr q -> addr_ok b -> ptr_ok (Heap (<[p := b]> (h_addrs h)) (h_links h)) mask attr q.
Proof.
  intros Hp Hb. unfold ptr_ok in *. destruct (has mask attr); [|done]. destruct Hp as (c & Ec & Hc). destruct q as [q|]; [|done]. unfold deref in *. cbn [mbind option_bind h_addrs] in *.
  destruct (decide (q = p)) as [->|Hq]; [exists b; by rewrite lookup_insert_eq|exists c; by rewrite lookup_insert_ne].
Qed.

Lemma slot_alive h o s p : ifaddr_ok h o -> get s (ce_data o) = Some p -> exists a, h_addrs h !! p = Some a /\ addr_ok a.
Proof.
  intros Ho E. pose proof (ok_ptrs _ _ Ho s) as Hp. unfold ptr_ok in Hp. rewrite E in Hp. destruct (has _ _); [|done]. destruct Hp as (a & Ea & Ha). by exists a.
Qed.

Lemma set_prefixlen_parsing user luser l ls missing h o p a n : parsing user luser l ls missing h o -> h_addrs h !! p = Some a -> addr_ok a -> exists h',
  addr_set_prefixlen p n h = Some (tt, h') /\ parsing user luser l ls missing h' o /\ h_links h' = h_links h.
Proof.
  intros [Ho Hh Hk Hl Hr Hm] E Ha. eexists. split; [by apply addr_set_prefixlen_run|]. split; [|done]. constructor; try done.
  - apply (ifaddr_ok_heap h); [done|]. intros s. apply ptr_update; [apply (ok_ptrs _ _ Ho)|done].
  - by apply (heap_ok_update _ _ _ _ a).
Qed.

Lemma others_in s s' x : s' <> s -> get s' x ∈ others s x.
Proof. intros Hne. apply list_elem_of_fmap. exists s'. split; [done|]. apply list_elem_of_filter. split; [done|]. destruct s'; set_solver. Qed.

Lemma ptrs_keep user l h h' mask attr p : ptr_ok h mask attr p -> keeps h h' -> heap_ok user l h' -> p ∈ l ->
  ptr_ok h' mask attr p /\ addr_view <$> deref h' p = addr_view <$> deref h p.
Proof. intros Hp Hk Hh Hin. apply elem_of_Permutation in Hin as [l' El]. rewrite El in Hh. by eapply ptr_keep. Qed.

(** An address replaces the one in a slot, which is put. *)
Lemma parsing_replace user luser l ls missing h o s p a : parsing user luser (Some p :: l) ls missing h o -> s ∉ missing ->
  h_addrs h !! p = Some a -> addr_ok a -> exists h', addr_put (get s (ce_data o)) h = Some (tt, h') /\
  parsing user luser l ls missing h' (assign (slot_attr s) (set s (Some p)) o) /\ h_links h' = h_links h /\
  exists a', h_addrs h' !! p = Some a' /\ addr_ok a'.
Proof.
  intros [Ho Hh Hk Hl Hr Hm] Hs Ea Ha. rewrite (heap_ok_slot s) in Hh. destruct (addr_put_ok _ _ _ _ Hh) as (h' & E & Hh' & K). exists h'. split; [done|].
  pose proof K as [Kl _]. destruct (heap_ok_alive _ _ _ p Hh') as (a' & Ea' & _).
  { destruct Hh' as [Hu _]. specialize (Hu p). assert (Some p ∈ others s (ce_data o) ++ Some p :: l) as Hin by set_solver. apply refs_in in Hin. lia. }
  destruct K as [K0 K]. destruct (K p a' Ea') as (b & Eb & V). assert (b = a) as -> by congruence. apply value_view in V as [_ V]. specialize (V Ha).
  split; [|by eauto]. constructor; cbn [assign ce_data ce_mask ce_refcnt].
  - constructor; cbn [assign ce_data ce_mask]; [apply lor_range; [apply Ho|apply slot_range]|try (destruct Ho, s; known_bits; assumption)..]. intros s'. rewrite get_set. unfold ptr_ok. rewrite has_lor, slot_has.
    destruct (decide (s' = s)) as [->|Hne].
    + rewrite bool_decide_eq_true_2, orb_true_r by done. by exists a'.
    + rewrite bool_decide_eq_false_2, orb_false_r by congruence.
      destruct (ptrs_keep _ _ _ h' _ _ _ (ok_ptrs _ _ Ho s') (conj K0 K) Hh') as [Hp _]; [|exact Hp]. apply elem_of_app. left. by apply others_in.
  - rewrite (heap_ok_slot s), others_set, get_set, decide_True by done. by rewrite Permutation_middle.
  - by destruct s.
  - by apply (link_refs_heap _ _ h).
  - done.
  - apply Forall_forall. intros s' Hs'. rewrite has_lor, slot_has. rewrite Forall_forall in Hm. rewrite (Hm s' Hs'). apply bool_decide_eq_false_2. by intros ->.
Qed.

Lemma parsing_weaken user luser l ls s missing h o : parsing user luser l ls (s :: missing) h o -> parsing user luser l ls missing h o.
Proof. intros [? ? ? ? ? Hm]. apply list.Forall_cons in Hm as [_ ?]. by constructor. Qed.

(** A pointer that can be followed. *)
Definition alive (h : heap) (p : option positive) : Prop := match p with Some p => exists a, h_addrs h !! p = Some a /\ addr_ok a | None => True end.

Lemma attr_addr_ok family d : zlen d <= 65531 /\ Forall byte_ok d -> addr_ok (attr_addr family d).
Proof. intros [Hd Hb]. unfold addr_ok, attr_addr. cbn. pose proof (zlen_nonneg d). split; [lia|]. by split; [lia|]. Qed.

(** The address of an attribute is new, next to those of the object. *)
Lemma alloc_parsing user luser l ls missing buf at_ d family h o : parsing user luser l ls missing h o -> found buf at_ d -> zlen d <= 65531 -> Forall byte_ok d ->
  exists r h1, addr_alloc_attr buf at_ family h = Some (r, h1) /\
  match r with
  | None => h1 = h /\ ~ malloc_total al
  | Some a => parsing user luser (Some a :: l) ls missing h1 o /\ h_addrs h !! a = None /\ h_addrs h1 = <[a := attr_addr family d]> (h_addrs h) /\
      h_addrs h1 !! a = Some (attr_addr family d) /\ h_links h1 = h_links h
  end.
Proof.
  intros [Ho Hh Hk Hl Hr Hm] Hf Hd Hb. destruct (addr_alloc_attr_ok user _ h buf at_ d family Hh Hf ltac:(lia)) as (r & h1 & E1 & Hh1 & Hr1). exists r, h1. split; [done|].
  destruct r as [a|]; [|done]. destruct Hr1 as [Hn ->]. cbn [h_addrs h_links]. rewrite lookup_insert_eq. split; [|done].
  constructor; [by eapply ifaddr_ok_more|by rewrite <- Permutation_middle|done|by apply (link_refs_heap _ _ h)|done|done].
Qed.

Lemma read_address_safe user luser l ls missing buf tb family h o plen : Forall byte_ok buf -> typed buf addr_policy tb -> 
  parsing user luser l ls (Peer :: missing) h o -> Peer ∉ missing -> Local ∉ missing -> alive h plen -> (attr_of tb IFA_LOCAL <> None -> a_local (ce_data o) <> None) ->
  exists o' plen' ok h', read_address buf tb family o plen h = Some (o', plen', ok, h') /\ parsing user luser l ls missing h' o' /\ h_links h' = h_links h /\
  alive h' plen' /\ a_prefixlen (ce_data o') = a_prefixlen (ce_data o).
Proof.
  intros Hb Ht P Hpm Hlm Hpl Hloc. pose proof (parsing_weaken _ _ _ _ _ _ _ _ P) as P0. unfold read_address. destruct (attr_of tb IFA_ADDRESS) as [at_|] eqn:E; [|by eexists _, _, _, _].
  destruct (Ht IFA_ADDRESS at_ ltac:(done) E) as [(d & Hf & Hd) _].
  assert (Forall byte_ok d) as Hbd by (destruct Hf as (<- & _); unfold payload_at; by apply Forall_take, Forall_drop).
  destruct (alloc_parsing _ _ _ _ _ buf at_ d family h o P0 Hf Hd Hbd) as (r & h1 & E1 & Hr1). rewrite (hbind_run _ _ _ _ _ E1).
  destruct r as [a|]; [|destruct Hr1 as [-> _]; by eexists _, _, _, _]. destruct Hr1 as (P1 & Hn & Ea1 & Ea & El1). pose proof (attr_addr_ok family d (conj Hd Hbd)) as Ha.
  assert (exists c, (match attr_of tb IFA_LOCAL with None => mret true
    | Some _ => reading (fun h => d ← addr_cmp h (Some a) (a_local (ce_data o)); Some (d =? 0)) end) h1 = Some (c, h1)) as (c & Ec).
  { destruct (attr_of tb IFA_LOCAL); [|by exists true]. destruct (a_local (ce_data o)) as [q|] eqn:Eq; [|by destruct Hloc].
    destruct (slot_alive h1 o Local q (pa_ok _ _ _ _ _ _ _ P1) Eq) as (b & Eb & Hb'). destruct (nl_addr_cmp_total (attr_addr family d) b Ha Hb') as (x & Ex).
    exists (x =? 0). unfold reading, addr_cmp, deref. cbn [mbind option_bind]. rewrite Ea, Eb. cbn [mbind option_bind]. by rewrite Ex. }
  rewrite (hbind_run _ _ _ _ _ Ec). destruct c.
  - destruct (parsing_replace _ _ _ _ _ _ _ Local a _ P1 Hlm Ea Ha) as (h2 & E2 & P2 & L2 & A2). change (get Local) with a_local in E2.
    rewrite (hbind_run _ _ _ (assign ADDR_ATTR_LOCAL (set_a_local (Some a)) o) h2) by (by rewrite (hbind_run _ _ _ _ _ E2)).
    eexists _, _, _, _. split; [done|]. split; [exact P2|]. split; [congruence|]. split; [exact A2|done].
  - rewrite (hbind_run _ _ _ (assign ADDR_ATTR_PEER (set_a_peer (Some a)) o) h1) by done. eexists _, _, _, _. split; [done|]. split_and!; [|done|by exists (attr_addr family d)|done].
    apply (parsing_slot _ _ _ _ _ h h1 o Peer a (attr_addr family d) P Hpm); try done.
    pose proof (pa_heap _ _ _ _ _ _ _ P1) as Hh. rewrite (heap_ok_slot Peer), (parsing_none _ _ _ _ _ _ _ Peer P ltac:(by apply elem_of_cons; left)), heap_ok_null in Hh.
    by rewrite Permutation_middle.
Qed.

(** A field that is no pointer is set. *)
Lemma parsing_field user luser l ls missing h o attr f : parsing user luser l ls missing h o -> (forall s x, get s (f x) = get s x) ->
  (forall s, has attr (slot_attr s) = false) -> (forall x, a_link (f x) = a_link x) -> ifaddr_ok h (assign attr f o) -> parsing user luser l ls missing h (assign attr f o).
Proof.
  intros [Ho Hh Hk Hl Hr Hm] Hf Ha Hlk Hok. constructor; [done|..]; cbn [assign ce_data ce_mask ce_refcnt]; [|by rewrite Hlk|done|done|].
  - unfold addr_ptrs. erewrite map_ext by (intros s; apply Hf). exact Hh.
  - eapply Forall_impl; [exact Hm|]. cbv beta. intros s Hs. by rewrite has_lor, Hs, Ha.
Qed.

Lemma cacheinfo_safe user luser l ls missing buf tb h o : Forall byte_ok buf -> typed buf addr_policy tb -> parsing user luser l ls missing h o -> exists o',
  read_cacheinfo buf tb o h = Some (o', h) /\ parsing user luser l ls missing h o' /\ a_prefixlen (ce_data o') = a_prefixlen (ce_data o).
Proof.
  intros Hb Ht P. unfold read_cacheinfo. destruct (attr_of tb IFA_CACHEINFO) as [ci|] eqn:E; [|by exists o].
  destruct (Ht IFA_CACHEINFO ci ltac:(done) E) as [(d & Hf & Hd) Hty]. destruct (Hty (Policy 0 16 0) eq_refl) as (n & En & Hn & _).
  rewrite (found_len _ _ _ Hf) in En. injection En as <-. change (p_min (Policy 0 16 0)) with 16 in Hn.
  pose proof (found_rd _ _ _ 0 4 Hf ltac:(lia) ltac:(lia)) as E0. rewrite Z.add_0_r in E0. rewrite (hbind_run _ _ _ _ _ (of_option_run _ _ h E0)).
  pose proof (fun k Hk Hk' => of_option_run _ _ h (found_rd _ _ _ k 4 Hf Hk Hk')) as Erd.
  rewrite (hbind_run _ _ _ _ _ (Erd 4 ltac:(lia) ltac:(lia))), (hbind_run _ _ _ _ _ (Erd 8 ltac:(lia) ltac:(lia))), (hbind_run _ _ _ _ _ (Erd 12 ltac:(lia) ltac:(lia))).
  eexists. split; [done|]. split; [|done]. assert (forall k, 0 <= get_le k 4 d < 2 ^ 32) as Hr.
  { intros k. apply (get_le_range k 4). destruct Hf as (<- & _). unfold payload_at. by apply Forall_take, Forall_drop. }
  apply parsing_field; [done|by intros []|by intros []|done|]. pose proof (pa_ok _ _ _ _ _ _ _ P) as Ho. assert (cacheinfo_ok (CacheInfo (get_le 0 4 d) (get_le 4 4 d) (get_le 8 4 d) (get_le 12 4 d))) as Hc by (split_and!; apply Hr).
  keep_fields.
Qed.

Lemma label_safe user luser l ls missing buf tb h o : Forall byte_ok buf -> typed buf addr_policy tb -> parsing user luser l ls missing h o -> exists o',
  opt_string buf tb IFA_LABEL IFNAMSIZ ADDR_ATTR_LABEL set_a_label o h = Some (o', h) /\ parsing user luser l ls missing h o' /\ a_prefixlen (ce_data o') = a_prefixlen (ce_data o).
Proof.
  intros Hb Ht P. destruct (opt_string_safe buf addr_policy tb Hb Ht IFA_LABEL IFNAMSIZ ADDR_ATTR_LABEL set_a_label o h ltac:(done) ltac:(done)) as (c & s & E & Hs).
  eexists. split; [exact E|]. destruct c; [|done]. split; [|done]. apply parsing_field; [done|by intros []|by intros []|done|].
  pose proof (pa_ok _ _ _ _ _ _ _ P) as Ho. assert (label_ok s) by (by apply Hs). keep_fields.
Qed.

Lemma read_addresses_safe user luser l ls missing buf tb family h o : Forall byte_ok buf -> typed buf addr_policy tb ->
  parsing user luser l ls (Local :: Peer :: missing) h o -> Peer ∉ missing -> Local ∉ missing -> exists o' ok h',
  read_addresses buf tb family o h = Some (o', ok, h') /\ parsing user luser l ls missing h' o' /\ h_links h' = h_links h.
Proof.
  intros Hb Ht P Hp Hl. unfold read_addresses.
  destruct (slot_parsing user luser l ls (Peer :: missing) buf tb IFA_LOCAL family h o Local Hb Ht ltac:(done) ltac:(set_solver) P) as (o1 & ok & h1 & E1 & P1 & L1 & Hloc & _).
  change (slot_attr Local) with ADDR_ATTR_LOCAL in E1. change (set Local) with set_a_local in E1. rewrite (hbind_run _ _ _ _ _ E1).
  destruct ok; cbn [negb]; [|eexists _, _, _; split; [done|]; split; [by eapply parsing_weaken|done]].
  set (plen := match attr_of tb IFA_LOCAL with Some _ => a_local (ce_data o1) | None => None end).
  assert (alive h1 plen) as Hpl.
  { unfold plen. destruct (attr_of tb IFA_LOCAL); [|done]. destruct (a_local (ce_data o1)) as [q|] eqn:Eq; [|done]. by apply (slot_alive h1 o1 Local q (pa_ok _ _ _ _ _ _ _ P1)). }
  destruct (read_address_safe user luser l ls missing buf tb family h1 o1 plen Hb Ht P1 Hp Hl Hpl (Hloc eq_refl)) as (o2 & plen2 & ok & h2 & E2 & P2 & L2 & A2 & _).
  rewrite (hbind_run _ _ _ _ _ E2). destruct ok; cbn [negb]; [|eexists _, _, _; split; [done|]; split; [done|congruence]].
  destruct plen2 as [q|]; [|eexists _, _, h2; split; [done|]; split; [done|congruence]]. destruct A2 as (a & Ea & Ha).
  destruct (set_prefixlen_parsing _ _ _ _ _ _ _ q a (a_prefixlen (ce_data o2)) P2 Ea Ha) as (h3 & E3 & P3 & L3). rewrite (hbind_run _ _ _ _ _ E3).
  eexists _, _, h3. split; [done|]. split; [done|congruence].
Qed.

(** An attribute that is there already. *)
Lemma lor_has mask attr : one_bit attr -> has mask attr = true -> Z.lor mask attr = mask.
Proof.
  intros (k & Hk & ->). rewrite has_bit by done. intros E. apply Z.bits_inj'. intros n Hn. rewrite Z.lor_spec, Z.pow2_bits_eqb by done.
  destruct (Z.eqb_spec k n) as [<-|]; [by rewrite E|apply orb_false_r].
Qed.

(** The links of a cache, to each of which the cache has a reference. *)
Definition cached (luser : positive -> Z) (ls : list (option positive)) (lcache : option (list positive)) : Prop :=
  Forall (fun p => 1 <= luser p /\ luser p + refs ls p < INT_MAX - 1) (default [] lcache).

Lemma link_lookup_run luser ls h links i : link_refs luser ls h -> cached luser ls (Some links) -> exists r h', rtnl_link_get links i h = Some (r, h') /\
  link_refs luser (r :: ls) h' /\ h_addrs h' = h_addrs h /\
  match r with Some p => 1 <= luser p /\ luser p + refs ls p < INT_MAX - 1 /\ exists k, h_links h' !! p = Some k /\ l_index k = u32 i | None => True end.
Proof.
  intros Hl Hc. unfold cached in Hc. cbn [default] in Hc. induction links as [|p links IH]; [exists None, h; by rewrite link_refs_null|].
  apply list.Forall_cons in Hc as [ [Hu Hm] Hc]. specialize (IH Hc). cbn [rtnl_link_get].
  pose proof (refs_nonneg ls p). destruct (link_get_run luser ls h p Hl ltac:(lia)) as (k & h' & Ek & Eg & Hl' & Ea & Ek'). rewrite (hbind_run _ _ _ _ _ (NlNeigh.load_link_run _ _ _ Ek)).
  destruct (Z.eqb_spec (l_index k) (u32 i)) as [Ei|_]; [|exact IH]. rewrite (hbind_run _ _ _ _ _ Eg). exists (Some p), h'. split_and!; [done|done|done|done|done|]. by eexists.
Qed.

(** What an address is at the end. *)
Record parsed (user luser : positive -> Z) (l ls : list (option positive)) (h : heap) (o : ifaddr) : Prop := {
  pd_ok : ifaddr_ok h o;
  pd_heap : heap_ok user (addr_ptrs (ce_data o) ++ l) h;
  pd_links : link_refs luser (a_link (ce_data o) :: ls) h;
  pd_ref : ce_refcnt o = 1
}.

Lemma parsing_parsed user luser l ls missing h o : parsing user luser l ls missing h o -> parsed user luser l ls h o.
Proof. intros [Ho Hh Hk Hl Hr Hm]. constructor; try done. by rewrite Hk, link_refs_null. Qed.

Lemma read_link_safe user luser l ls missing lcache h o : parsing user luser l ls missing h o -> cached luser ls lcache -> exists o' h',
  read_link lcache o h = Some (o', h') /\ parsed user luser l ls h' o' /\
  (has (ce_mask o) ADDR_ATTR_IFINDEX = true -> same_rest o o' /\ forall s, view_slot h' o' s = view_slot h o s).
Proof.
  intros P Hc. unfold read_link. destruct lcache as [links|]; [|exists o, h; eauto using parsing_parsed, same_rest_refl].
  destruct (link_lookup_run luser ls h links (s32 (a_ifindex (ce_data o))) (pa_links _ _ _ _ _ _ _ P) Hc) as (r & h1 & E1 & Hl1 & A1 & Hr). rewrite (hbind_run _ _ _ _ _ E1).
  assert (forall h', h_addrs h' = h_addrs h -> ifaddr_ok h' o /\ heap_ok user (addr_ptrs (ce_data o) ++ l) h' /\ forall s, view_slot h' o s = view_slot h o s) as Hsame.
  { intros h' E. destruct P as [Ho [Hu Hall] _ _ _ _]. split; [|split; [split; [done|by rewrite E]|intros s; unfold view_slot, view_ptr, deref; by rewrite E]].
    apply (ifaddr_ok_heap h); [done|]. intros s. pose proof (ok_ptrs _ _ Ho s) as Hp. unfold ptr_ok, deref in *. by rewrite E. }
  destruct r as [p|].
  2: { exists o, h1. split; [done|]. destruct (Hsame h1 A1) as (? & ? & ?). split; [|by split; [apply same_rest_refl|]]. rewrite link_refs_null in Hl1. constructor; [done|done| |apply P]. by rewrite (pa_link _ _ _ _ _ _ _ P), link_refs_null. }
  destruct Hr as (Hu & Hm & k & Ek & Ei). unfold rtnl_addr_set_link. rewrite (pa_link _ _ _ _ _ _ _ P).
  assert (refs (Some p :: ls) p = 1 + refs ls p) as Er by (rewrite refs_cons, decide_True by done; lia). pose proof (refs_nonneg ls p).
  destruct (link_get_run luser (Some p :: ls) h1 p Hl1 ltac:(lia)) as (k' & h2 & Ek1 & E2 & Hl2 & A2 & Ek2). assert (k' = k) as -> by congruence.
  destruct (link_put_run _ _ _ _ Hl2) as (h3 & E3 & Hl3 & A3).
  set (o' := assign ADDR_ATTR_IFINDEX (fun x => set_a_ifindex (l_index k) (set_a_link (Some p) x)) o).
  exists o', h3. split.
  { rewrite (hbind_run _ _ _ o' h2); [by rewrite (hbind_run _ _ _ _ _ E3)|]. rewrite (hbind_run _ _ _ tt h1) by done. rewrite (hbind_run _ _ _ _ _ E2).
    by rewrite (hbind_run _ _ _ _ _ (NlNeigh.load_link_run _ _ _ Ek2)). }
  destruct (Hsame h3 ltac:(congruence)) as (Ho3 & Hh3 & V3). assert (0 <= l_index k < 2 ^ 32) by (rewrite Ei; by apply wrap_range). unfold o'. split.
  - constructor; [keep_fields|exact Hh3|exact Hl3|apply P].
  - intros Hi. assert (Z.lor (ce_mask o) ADDR_ATTR_IFINDEX = ce_mask o) as Em by (apply lor_has; [by a_bit|done]).
    assert (l_index k = a_ifindex (ce_data o)) as Ek0.
    { rewrite Ei. pose proof (ok_ifindex _ _ Ho3). unfold u32, wrap, s32, swrap. change (32 - 1) with 31. Z.to_euclidean_division_equations. lia. }
    split; [constructor; cbn [assign ce_data ce_msgtype ce_mask]; [|done|by rewrite Em]|].
    + rewrite Ek0. by destruct (ce_data o).
    + intros s. rewrite <- V3. unfold view_slot. cbn [assign ce_mask ce_data]. rewrite Em. by destruct s.
Qed.

Lemma parse_addr_safe user luser l ls lcache buf tb ifa h type : Forall byte_ok buf -> typed buf addr_policy tb ->
  (forall a, attr_of tb IFA_FLAGS = Some a -> exists n, nla_len buf a = Some n /\ 4 <= n) ->
  heap_ok user l h -> link_refs luser ls h -> cached luser ls lcache ->
  0 <= ifa_family ifa < 256 -> 0 <= ifa_prefixlen ifa < 256 -> 0 <= ifa_flags ifa < 256 -> 0 <= ifa_scope ifa < 256 -> 0 <= ifa_index ifa < 2 ^ 32 ->
  exists o ok h', parse_addr lcache buf tb ifa (Object 1 type 0 no_addr) h = Some (o, ok, h') /\ parsed user luser l ls h' o.
Proof.
  intros Hb Ht Hfl Hh Hl Hc H1 H2 H3 H4 H5. unfold parse_addr.
  assert (exists v, (match attr_of tb IFA_FLAGS with Some a => of_option (nla_get_u32 buf a) | None => mret (ifa_flags ifa) end) h = Some (v, h) /\ 0 <= v < 2 ^ 32) as (v & Ev & Hv).
  { destruct (attr_of tb IFA_FLAGS) as [a|] eqn:E; [|exists (ifa_flags ifa); split; [done|lia]]. destruct (Ht IFA_FLAGS a ltac:(done) E) as [(d & Hf & _) _].
    destruct (Hfl a eq_refl) as (n & En & Hn). rewrite (found_len _ _ _ Hf) in En. injection En as <-.
    pose proof (found_rd _ _ _ 0 4 Hf ltac:(lia) ltac:(lia)) as E0. rewrite Z.add_0_r in E0. exists (get_le 0 4 d). split; [by apply of_option_run|].
    apply (get_le_range 0 4). destruct Hf as (<- & _). unfold payload_at. by apply Forall_take, Forall_drop. }
  rewrite (hbind_run _ _ _ _ _ Ev). cbn [ce_refcnt ce_msgtype ce_data].
  match goal with |- context [opt_string _ _ _ _ _ _ ?x] => set (o0 := x) end.
  assert (parsing user luser l ls [Local; Peer; Bcast; Multicast; Anycast] h o0) as P0.
  { constructor; [|change (heap_ok user (None :: None :: None :: None :: None :: l) h); by rewrite !heap_ok_null|done|done|done|by repeat constructor].
    destruct (no_addr_ok h type). constructor; unfold o0; addr_fields; try assumption; try (intros; discriminate); try (by vm_compute); by intros []. }
  destruct (label_safe _ _ _ _ _ buf tb h o0 Hb Ht P0) as (o1 & E1 & P1 & _). rewrite (hbind_run _ _ _ _ _ E1).
  destruct (cacheinfo_safe _ _ _ _ _ buf tb h o1 Hb Ht P1) as (o2 & E2 & P2 & _). rewrite (hbind_run _ _ _ _ _ E2).
  destruct (read_addresses_safe _ _ _ _ [Bcast; Multicast; Anycast] buf tb (ifa_family ifa) h o2 Hb Ht P2 ltac:(set_solver) ltac:(set_solver)) as (o3 & ok & h3 & E3 & P3 & _).
  rewrite (hbind_run _ _ _ _ _ E3). destruct ok; cbn [negb]; [|by eexists _, _, _; eauto using parsing_parsed].
  destruct (slot_parsing _ _ _ _ [Multicast; Anycast] buf tb IFA_BROADCAST (ifa_family ifa) h3 o3 Bcast Hb Ht ltac:(done) ltac:(set_solver) P3) as (o4 & ok & h4 & E4 & P4 & _).
  cbn [slot_attr set] in E4. rewrite (hbind_run _ _ _ _ _ E4). destruct ok; cbn [negb]; [|by eexists _, _, _; eauto using parsing_parsed].
  destruct (slot_parsing _ _ _ _ [Anycast] buf tb IFA_MULTICAST (ifa_family ifa) h4 o4 Multicast Hb Ht ltac:(done) ltac:(set_solver) P4) as (o5 & ok & h5 & E5 & P5 & _).
  cbn [slot_attr set] in E5. rewrite (hbind_run _ _ _ _ _ E5). destruct ok; cbn [negb]; [|by eexists _, _, _; eauto using parsing_parsed].
  destruct (slot_parsing _ _ _ _ [] buf tb IFA_ANYCAST (ifa_family ifa) h5 o5 Anycast Hb Ht ltac:(done) ltac:(set_solver) P5) as (o6 & ok & h6 & E6 & P6 & _).
  cbn [slot_attr set] in E6. rewrite (hbind_run _ _ _ _ _ E6). destruct ok; cbn [negb]; [|by eexists _, _, _; eauto using parsing_parsed].
  destruct (read_link_safe _ _ _ _ _ lcache h6 o6 P6 Hc) as (o7 & h7 & E7 & P7 & _). rewrite (hbind_run _ _ _ _ _ E7). by eexists _, _, _.
Qed.

Lemma addr_policy_ok : policy_ok IFA_MAX addr_policy.
Proof.
  split; [by vm_compute|]. unfold addr_policy. repeat (apply list.Forall_cons; split; [split_and!; try (by vm_compute); first [by left|by right]|]). constructor.
Qed.

Lemma read_ifa_any buf : Forall byte_ok buf -> 24 <= zlen buf -> exists m, read_ifa buf (nlmsg_data 0) = Some m /\
  0 <= ifa_family m < 256 /\ 0 <= ifa_prefixlen m < 256 /\ 0 <= ifa_flags m < 256 /\ 0 <= ifa_scope m < 256 /\ 0 <= ifa_index m < 2 ^ 32.
Proof.
  intros Hb Hz. change (nlmsg_data 0) with 16. unfold read_ifa. rewrite !rd_Some by lia. cbn [mbind option_bind]. eexists. split; [done|].
  cbn [ifa_family ifa_prefixlen ifa_flags ifa_scope ifa_index]. split_and!; apply (get_le_range _ 1 _ Hb) || apply (get_le_range _ 4 _ Hb).
Qed.

(** An attribute IFA_FLAGS, where it is, has four bytes: the policy does not ask
    for them. *)
Definition flags_whole (buf : bytes) : Prop := forall tb a, nlmsg_parse buf 0 8 IFA_MAX (Some addr_policy) = Some (Some tb, 0) ->
  attr_of tb IFA_FLAGS = Some a -> exists n, nla_len buf a = Some n /\ 4 <= n.

(** What the callback of the parser does. *)
Definition callback_ok (user luser : positive -> Z) (l ls : list (option positive)) (pp_cb : ifaddr -> H (ifaddr * Z)) : Prop :=
  forall o h, parsed user luser l ls h o -> exists o' err h', pp_cb o h = Some (o', err, h') /\ 1 <= ce_refcnt o' <= INT_MAX /\
    heap_ok user (addr_ptrs (ce_data o') ++ l) h' /\ link_refs luser (a_link (ce_data o') :: ls) h'.

(** C24: the parser of interface addresses is safe, with or without memory, on
    every message inside its buffer whose attribute IFA_FLAGS, if it has one,
    has four bytes, and whose length is a multiple of four or leaves two bytes
    of the buffer behind its padding: it reads inside the buffer, frees or
    hands over every address it makes (also the one that is replaced by an
    equal IFA_ADDRESS), calls back with a well-formed address, takes one
    reference to the link of the cache, and afterwards the references to
    addresses and links are those of the user and of the address, if the
    callback kept it. Other messages can be read past their end
    ([nla_parse_reads_past_end]). *)
Theorem addr_msg_parser_safe user luser l ls h lcache buf pp_cb : msg_in buf -> flags_whole buf -> heap_ok user l h -> link_refs luser ls h ->
  cached luser ls lcache -> callback_ok user luser l ls pp_cb ->
  exists err r h', addr_msg_parser pp_cb lcache buf h = Some (err, r, h') /\ heap_ok user (ptrs r ++ l) h' /\ link_refs luser (link_of r :: ls) h'.
Proof.
  intros Hm Hfl Hh Hl Hc Hcb. pose proof Hm as (Hb & Hz & _). unfold addr_msg_parser, rtnl_addr_alloc, obj_alloc.
  destruct (malloc_ok addr_size); [|eexists _, None, h; by rewrite link_refs_null].
  rewrite (hbind_run _ _ _ (get_le 4 2 buf) h) by (apply of_option_run, rd_Some; lia). cbn [ce_refcnt ce_mask ce_data].
  destruct (nlmsg_parse_any buf 8 IFA_MAX addr_policy Hm) as (otb & err & E & Herr); [lia|done|done|by apply addr_policy_ok|].
  rewrite (hbind_run _ _ _ _ _ (of_option_run _ _ h E)). destruct Herr as [Hneg|(-> & tb & -> & Hlen & Htb)].
  - rewrite (proj2 (Z.ltb_lt _ _) Hneg). destruct (ifaddr_put_last user luser l ls h (Object 1 (get_le 4 2 buf) 0 no_addr)) as (h' & Ep & H1 & H2); [|by rewrite link_refs_null|done|].
    { change (heap_ok user (None :: None :: None :: None :: None :: l) h). by rewrite !heap_ok_null. }
    rewrite (hbind_run _ _ _ _ _ Ep). eexists _, None, _. by rewrite link_refs_null.
  - change (0 <? 0) with false. cbv iota. rewrite (hbind_run _ _ _ tb h) by done.
    destruct (read_ifa_any buf Hb ltac:(lia)) as (ifa & En & H1 & H2 & H3 & H4 & H5). rewrite (hbind_run _ _ _ _ _ (of_option_run _ _ h En)).
    destruct (parse_addr_safe user luser l ls lcache buf tb ifa h (get_le 4 2 buf) Hb Htb (fun a => Hfl tb a E) Hh Hl Hc H1 H2 H3 H4 H5) as (o & ok & h1 & Ep & P).
    rewrite (hbind_run _ _ _ _ _ Ep). destruct ok; cbn [negb].
    + destruct (Hcb o h1 P) as (o' & err & h2 & Ec & Hr & Hh2 & Hl2). rewrite (hbind_run _ _ _ _ _ Ec).
      destruct (ifaddr_put_any _ _ _ _ _ _ Hh2 Hl2 Hr) as (r & h3 & Eq & Hh3 & Hl3). rewrite (hbind_run _ _ _ _ _ Eq). by eexists _, _, _.
    + destruct P as [Ho Hh1 Hl1 Hr]. destruct (ifaddr_put_last _ _ _ _ _ _ Hh1 Hl1 Hr) as (h' & Eq & Hh' & Hl'). rewrite (hbind_run _ _ _ _ _ Eq).
      eexists _, None, h'. by rewrite link_refs_null.
Qed.

End Safe.

(** ** An address and its message *)

(** A slot that was set, and the others. *)
Lemma view_slot_set h o s p a : h_addrs h !! p = Some a -> view_slot h (assign (slot_attr s) (set s (Some p)) o) s = Some (addr_view a).
Proof.
  intros E. unfold view_slot, view_ptr. cbn [assign ce_mask ce_data]. rewrite has_lor, slot_has, bool_decide_eq_true_2, orb_true_r, get_set, decide_True by done.
  unfold deref. cbn [mbind option_bind]. by rewrite E.
Qed.

Lemma view_slot_other h o s s' p : s' <> s -> view_slot h (assign (slot_attr s) (set s p) o) s' = view_slot h o s'.
Proof.
  intros Hne. unfold view_slot, view_ptr. cbn [assign ce_mask ce_data]. by rewrite has_lor, slot_has, bool_decide_eq_false_2, orb_false_r, get_set, decide_False by congruence.
Qed.

Lemma view_slot_more h h' o s : ifaddr_ok h o -> (forall k a, h_addrs h !! k = Some a -> h_addrs h' !! k = Some a) -> view_slot h' o s = view_slot h o s.
Proof. intros Ho Hk. unfold view_slot. by apply (ptr_kept h h' _ _ _ (ok_ptrs _ _ Ho s)). Qed.


(** The local address and the peer of a message with IFA_LOCAL and IFA_ADDRESS:
    IFA_ADDRESS alone is the local address, and so it is if the two are equal. *)
Definition local_peer (local address : option bytes) : option bytes * option bytes :=
  match local, address with
  | Some l, Some a => if bool_decide (l = a) then (Some a, None) else (Some l, Some a)
  | Some l, None => (Some l, None)
  | None, a => (a, None)
  end.

(** An address with all its bits as prefix. *)
Definition whole (family : Z) (d : bytes) : addr_value := AddrValue family (8 * zlen d) d.

(** The prefix length is that of the peer, if there is one. *)
Definition wire (family prefixlen : Z) (local address : option bytes) : option addr_value * option addr_value :=
  let '(l, p) := local_peer local address in
  match p with
  | Some p => (whole family <$> l, Some (AddrValue family prefixlen p))
  | None => (AddrValue family prefixlen <$> l, None)
  end.

(** What a message says: the header and the attributes, the label without
    the NUL behind it. *)
Record ifa_content := Content {
  m_hdr : ifaddrmsg;
  m_local : option bytes;
  m_address : option bytes;
  m_label : option bytes;
  m_bcast : option bytes;
  m_cacheinfo : option rtnl_addr_cacheinfo;
  m_flags : option Z;
  m_multicast : option bytes;
  m_anycast : option bytes
}.

Definition attr_data (c : ifa_content) (t : Z) : option bytes :=
  if t =? IFA_LOCAL then m_local c else if t =? IFA_ADDRESS then m_address c else if t =? IFA_LABEL then (fun s => s ++ [0]) <$> m_label c else
  if t =? IFA_BROADCAST then m_bcast c else if t =? IFA_CACHEINFO then ci_bytes <$> m_cacheinfo c else if t =? IFA_FLAGS then le_bytes 4 <$> m_flags c else
  if t =? IFA_MULTICAST then m_multicast c else if t =? IFA_ANYCAST then m_anycast c else None.

Definition ifa_ok (m : ifaddrmsg) : Prop :=
  0 <= ifa_family m < 256 /\ 0 <= ifa_prefixlen m < 256 /\ 0 <= ifa_flags m < 256 /\ 0 <= ifa_scope m < 256 /\ 0 <= ifa_index m < 2 ^ 32.

Record content_ok (c : ifa_content) : Prop := {
  co_hdr : ifa_ok (m_hdr c);
  co_short : forall t d, attr_data c t = Some d -> zlen d <= 65531 /\ Forall byte_ok d;
  co_label : forall s, m_label c = Some s -> zlen s < IFNAMSIZ /\ Forall (fun x => x <> 0) s;
  co_cacheinfo : forall ci, m_cacheinfo c = Some ci -> cacheinfo_ok ci;
  co_flags : forall v, m_flags c = Some v -> 0 <= v < 2 ^ 32
}.

(** The address that is received. *)
Definition received (c : ifa_content) : ifaddr_value :=
  let m := m_hdr c in
  let '(local, peer) := wire (ifa_family m) (ifa_prefixlen m) (m_local c) (m_address c) in
  IfAddrValue (Some (ifa_family m)) (Some (ifa_prefixlen m)) (Some (ifa_scope m)) (Some (default (ifa_flags m) (m_flags c))) (Some (ifa_index m))
    (m_label c) (m_cacheinfo c) peer local (whole (ifa_family m) <$> m_bcast c) (whole (ifa_family m) <$> m_multicast c)
    (whole (ifa_family m) <$> m_anycast c) 0.

Section Reading.
Context {al : Allocator}.
Hypothesis memory : malloc_total al.
Context (buf : bytes) (tb : table) (f : Z -> option bytes).
Hypothesis Hst : stored buf IFA_MAX tb f.
Hypothesis bytes_short : forall t d, f t = Some d -> zlen d <= 65531 /\ Forall byte_ok d.

Lemma slot_reading user luser l ls missing t family h o s : 0 <= t <= IFA_MAX -> s ∉ missing -> parsing user luser l ls (s :: missing) h o ->
  exists o' h', opt_addr buf tb t family (slot_attr s) (set s) (fun _ => mret tt) o h = Some (o', true, h') /\ parsing user luser l ls missing h' o' /\
  h_links h' = h_links h /\ same_rest o o' /\ view_slot h' o' s = whole family <$> f t /\
  forall s', s' <> s -> view_slot h' o' s' = view_slot h o s'.
Proof.
  intros Ht Hs P. pose proof (parsing_none _ _ _ _ _ _ _ s P ltac:(by apply elem_of_cons; left)) as En.
  pose proof (pa_heap _ _ _ _ _ _ _ P) as Hh. rewrite (heap_ok_slot s), En, heap_ok_null in Hh. pose proof (stored_lookup _ _ _ _ t Hst Ht) as Hl.
  destruct (f t) as [d|] eqn:Ef; cbn [fmap option_fmap option_map].
  - destruct (bytes_short t d Ef) as [Hd Hb].
    destruct (opt_addr_run buf IFA_MAX tb f Hst user _ t family (slot_attr s) (set s) (fun _ => (mret tt : H unit)) (fun a => a) true d o h memory Hh Ht)
      as (p & h' & E & Hh' & L & A & F); [done|lia|intros; by apply NlNeigh.nothing_run|done|]. cbn [step] in E.
    assert (parsing user luser l ls missing h' (assign (slot_attr s) (set s (Some p)) o)) as P'.
    { eapply parsing_slot; [exact P|done|exact Hh'|by apply F|exact A|exact L|by apply attr_addr_ok]. }
    eexists _, h'. split; [exact E|]. split; [done|]. split; [done|]. split; [apply same_rest_slot|]. split.
    + rewrite (view_slot_set _ _ _ _ (attr_addr family d)) by (rewrite A; apply lookup_insert_eq). by rewrite NlNeigh.attr_addr_view.
    + intros s' Hne. rewrite view_slot_other by done. apply view_slot_more; [apply P|]. intros k a Hk. rewrite A, lookup_insert_ne; [done|]. intros ->. specialize (F eq_refl). congruence.
  - exists o, h. unfold opt_addr. rewrite Hl. split; [done|]. split; [by eapply parsing_weaken|]. split; [done|]. split; [apply same_rest_refl|]. split; [|done].
    unfold view_slot, view_ptr. rewrite En. by destruct (has _ _).
Qed.

(** A slot whose address is put keeps the others as they are. *)
Lemma view_slot_keep user l h h' o s : ifaddr_ok h o -> keeps h h' -> heap_ok user l h' -> get s (ce_data o) ∈ l -> view_slot h' o s = view_slot h o s.
Proof.
  intros Ho K Hh Hin. unfold view_slot, view_ptr. destruct (has _ _) eqn:E; [|done]. by destruct (ptrs_keep _ _ _ _ _ _ _ (ok_ptrs _ _ Ho s) K Hh Hin).
Qed.

Lemma attr_addr_cmp family d e b : 0 <= family < 256 -> zlen e <= 65531 /\ Forall byte_ok e -> addr_ok b -> addr_view b = whole family d -> zlen d <= 65531 -> exists x,
  NlAddr.nl_addr_cmp (attr_addr family e) b = Some x /\ (x =? 0) = bool_decide (d = e).
Proof.
  intros Hf He Hb Vb Hd. pose proof (zlen_nonneg d). pose proof (zlen_nonneg e). assert (NlAddr.int_ok family) by (unfold NlAddr.int_ok, INT_MIN, INT_MAX; lia).
  pose proof Vb as [= Ef Ep Ed].
  destruct (nl_addr_cmp_view (attr_addr family e) b) as (x & E & Hx); try (by apply attr_addr_ok); try done;
    [by rewrite Ef|cbn; unfold NlAddr.int_ok, INT_MIN, INT_MAX; lia|rewrite Ep; unfold NlAddr.int_ok, INT_MIN, INT_MAX; lia|].
  exists x. split; [done|]. rewrite Hx, NlNeigh.attr_addr_view, Vb. unfold same_addr, whole. cbn [av_family av_bytes av_prefixlen].
  rewrite Z.eqb_refl. cbn [andb]. destruct (decide (d = e)) as [->|Hne].
  - rewrite !(bool_decide_eq_true_2 (e = e)), Z.eqb_refl by done. by rewrite orb_true_r.
  - by rewrite (bool_decide_eq_false_2 (d = e)), (bool_decide_eq_false_2 (e = d)) by congruence.
Qed.

Lemma view_slot_Some h o s v : ifaddr_ok h o -> view_slot h o s = Some v -> exists p a, get s (ce_data o) = Some p /\ h_addrs h !! p = Some a /\ addr_ok a /\ addr_view a = v.
Proof.
  intros Ho E. pose proof (ok_ptrs _ _ Ho s) as Hp. unfold view_slot, view_ptr, ptr_ok in *. destruct (has _ _); [|done]. destruct Hp as (a & Ea & Ha). rewrite Ea in E. injection E as <-.
  destruct (get s (ce_data o)) as [p|]; [|done]. by exists p, a.
Qed.

Lemma view_slot_None h o s : ifaddr_ok h o -> view_slot h o s = None <-> get s (ce_data o) = None.
Proof.
  intros Ho. pose proof (ok_ptrs _ _ Ho s) as Hp. unfold view_slot, view_ptr, ptr_ok in *. destruct (has _ _); [|done]. destruct Hp as (a & Ea & Ha). rewrite Ea.
  split; [done|]. intros E. by rewrite E in Ea.
Qed.

(** The slot whose address gets the prefix length. *)
Definition prefix_slot (peer : option bytes) : slot := match peer with Some _ => Peer | None => Local end.

Lemma read_address_run user luser l ls missing family h o : 0 <= family < 256 -> parsing user luser l ls (Peer :: missing) h o -> Peer ∉ missing -> Local ∉ missing ->
  view_slot h o Local = whole family <$> f IFA_LOCAL ->
  let '(lo, pe) := local_peer (f IFA_LOCAL) (f IFA_ADDRESS) in exists o' h',
  read_address buf tb family o (match attr_of tb IFA_LOCAL with Some _ => a_local (ce_data o) | None => None end) h =
    Some (o', get (prefix_slot pe) (ce_data o'), true, h') /\
  parsing user luser l ls missing h' o' /\ h_links h' = h_links h /\ same_rest o o' /\ view_slot h' o' Local = whole family <$> lo /\
  view_slot h' o' Peer = whole family <$> pe /\ (a_local (ce_data o') = a_peer (ce_data o') -> a_peer (ce_data o') = None).
Proof.
  intros Hf P Hpm Hlm V. pose proof (parsing_weaken _ _ _ _ _ _ _ _ P) as P0. pose proof (pa_ok _ _ _ _ _ _ _ P) as Ho.
  pose proof (parsing_none _ _ _ _ _ _ _ Peer P ltac:(by apply elem_of_cons; left)) as En. assert (view_slot h o Peer = None) as Vp by (by apply view_slot_None).
  assert ((match attr_of tb IFA_LOCAL with Some _ => a_local (ce_data o) | None => None end) = a_local (ce_data o)) as ->.
  { pose proof (stored_lookup _ _ _ _ IFA_LOCAL Hst ltac:(done)) as Hl. destruct (f IFA_LOCAL); [by destruct Hl as (la & -> & _)|]. rewrite Hl. symmetry. by apply (view_slot_None h o Local). }
  pose proof (stored_lookup _ _ _ _ IFA_ADDRESS Hst ltac:(done)) as Hat. unfold read_address. destruct (f IFA_ADDRESS) as [e|] eqn:Ee.
  2: { rewrite Hat. destruct (f IFA_LOCAL) as [d|]; cbn [local_peer]; exists o, h; by split_and!; [..|apply same_rest_refl| | |intros _]. }
  destruct Hat as (at_ & -> & Hfd). destruct (bytes_short IFA_ADDRESS e Ee) as [Hle Hbe].
  destruct (alloc_parsing _ _ _ _ _ buf at_ e family h o P0 Hfd Hle Hbe) as (r & h1 & E1 & Hr1). rewrite (hbind_run _ _ _ _ _ E1).
  destruct r as [a|]; [|by destruct Hr1]. destruct Hr1 as (P1 & Hn & Ea1 & Ea & El1). pose proof (attr_addr_ok family e (conj Hle Hbe)) as Ha.
  assert (forall s, view_slot h1 o s = view_slot h o s) as V1.
  { intros s. apply view_slot_more; [done|]. intros k c Hk. rewrite Ea1, lookup_insert_ne; [done|congruence]. }
  set (same := match f IFA_LOCAL with Some d => bool_decide (d = e) | None => true end).
  assert ((match attr_of tb IFA_LOCAL with None => mret true
    | Some _ => reading (fun h => d ← addr_cmp h (Some a) (a_local (ce_data o)); Some (d =? 0)) end) h1 = Some (same, h1)) as Ec.
  { pose proof (stored_lookup _ _ _ _ IFA_LOCAL Hst ltac:(done)) as Hl. unfold same. destruct (f IFA_LOCAL) as [d|] eqn:Ed; [|by rewrite Hl]. destruct Hl as (la & -> & _).
    cbn [fmap option_fmap option_map] in V. rewrite <- V1 in V. destruct (view_slot_Some _ _ _ _ (pa_ok _ _ _ _ _ _ _ P1) V) as (q & b & Eq & Eb & Hb & Vb). cbn [get] in Eq.
    destruct (attr_addr_cmp family d e b Hf (conj Hle Hbe) Hb Vb) as (x & Ex & Hx); [by apply (bytes_short IFA_LOCAL)|].
    unfold reading, addr_cmp, deref. rewrite Eq. cbn [mbind option_bind]. rewrite Ea, Eb. cbn [mbind option_bind]. rewrite Ex. cbn [mbind option_bind]. by rewrite Hx. }
  rewrite (hbind_run _ _ _ _ _ Ec). assert (addr_view (attr_addr family e) = whole family e) as Va by apply NlNeigh.attr_addr_view. destruct same eqn:Es.
  - assert (local_peer (f IFA_LOCAL) (Some e) = (Some e, None)) as ->.
    { unfold same in Es. destruct (f IFA_LOCAL) as [d|]; [|done]. cbn [local_peer]. by rewrite Es. }
    pose proof (pa_heap _ _ _ _ _ _ _ P1) as Hh. rewrite (heap_ok_slot Local) in Hh. destruct (addr_put_ok _ _ _ _ Hh) as (h2 & E2 & Hh2 & K2). cbn [get] in E2.
    destruct (parsing_replace _ _ _ _ _ _ _ Local a _ P1 Hlm Ea Ha) as (h2' & E2' & P2 & L2 & A2). cbn [get] in E2'. assert (h2' = h2) as -> by congruence. cbn [slot_attr set] in P2.
    rewrite (hbind_run _ _ _ (assign ADDR_ATTR_LOCAL (set_a_local (Some a)) o) h2) by (by rewrite (hbind_run _ _ _ _ _ E2)).
    exists (assign ADDR_ATTR_LOCAL (set_a_local (Some a)) o), h2. split; [done|]. split; [done|]. split; [congruence|]. split; [apply (same_rest_slot o Local)|].
    destruct A2 as (a' & Ea' & _). destruct K2 as [K2l K2]. destruct (K2 a a' Ea') as (b & Eb & Vb). assert (b = attr_addr family e) as -> by congruence.
    apply value_view in Vb as [Vb _]. split_and!.
    + transitivity (Some (addr_view a')); [exact (view_slot_set h2 o Local a a' Ea')|]. cbn. by rewrite <- Vb, Va.
    + apply (view_slot_None _ _ Peer (pa_ok _ _ _ _ _ _ _ P2)). exact En.
    + intros _. exact En.
  - unfold same in Es. destruct (f IFA_LOCAL) as [d|] eqn:Ed; [|done]. cbn [local_peer]. rewrite Es.
    rewrite (hbind_run _ _ _ (assign ADDR_ATTR_PEER (set_a_peer (Some a)) o) h1) by done.
    assert (parsing user luser l ls missing h1 (assign (slot_attr Peer) (set Peer (Some a)) o)) as P2.
    { apply (parsing_slot _ _ _ _ _ h h1 o Peer a (attr_addr family e) P Hpm); try done. pose proof (pa_heap _ _ _ _ _ _ _ P1) as Hh.
      rewrite (heap_ok_slot Peer), En, heap_ok_null in Hh. by rewrite Permutation_middle. }
    exists (assign ADDR_ATTR_PEER (set_a_peer (Some a)) o), h1. split; [done|]. split; [exact P2|]. split; [done|]. split; [apply (same_rest_slot o Peer)|]. split_and!.
    + transitivity (view_slot h1 o Local); [by apply (view_slot_other h1 o Peer Local)|]. by rewrite V1.
    + transitivity (Some (addr_view (attr_addr family e))); [exact (view_slot_set h1 o Peer a _ Ea)|]. by rewrite Va.
    + cbn [assign ce_data set_a_peer a_local a_peer]. intros E. destruct (view_slot_Some h o Local _ Ho V) as (q & b & Eq & Eb & _). cbn [get] in Eq. congruence.
Qed.

(** The value of an address changes: the slots that point to it see it. *)
Lemma view_slot_update h o s p b : view_slot (Heap (<[p := b]> (h_addrs h)) (h_links h)) o s =
  if decide (get s (ce_data o) = Some p) then (if has (ce_mask o) (slot_attr s) then Some (addr_view b) else None) else view_slot h o s.
Proof.
  unfold view_slot, view_ptr, deref. destruct (has _ _); [|by destruct (decide _)]. destruct (get s (ce_data o)) as [q|]; [|done]. cbn [mbind option_bind h_addrs].
  destruct (decide (q = p)) as [->|Hne]; [by rewrite lookup_insert_eq, decide_True|]. by rewrite lookup_insert_ne, decide_False by congruence.
Qed.

Lemma prefix_reading user luser l ls missing h o s v n : parsing user luser l ls missing h o -> view_slot h o s = Some v -> exists h',
  (match get s (ce_data o) with Some p => addr_set_prefixlen p n | None => mret tt end) h = Some (tt, h') /\ parsing user luser l ls missing h' o /\
  h_links h' = h_links h /\ view_slot h' o s = Some (AddrValue (av_family v) n (av_bytes v)) /\
  forall s', (get s' (ce_data o) = get s (ce_data o) -> get s' (ce_data o) = None) -> view_slot h' o s' = view_slot h o s'.
Proof.
  intros P V. pose proof (pa_ok _ _ _ _ _ _ _ P) as Ho. destruct (view_slot_Some _ _ _ _ Ho V) as (p & a & Ep & Ea & Ha & <-). rewrite Ep.
  destruct (set_prefixlen_parsing _ _ _ _ _ _ _ p a n P Ea Ha) as (h' & E & P' & L). exists h'. split; [done|]. split; [done|]. split; [done|].
  rewrite (addr_set_prefixlen_run n p h a Ea) in E. injection E as <-. split.
  - rewrite view_slot_update, decide_True by done. unfold view_slot, view_ptr in V. by destruct (has _ _).
  - intros s' Hs. rewrite view_slot_update, decide_False; [done|]. intros E. specialize (Hs E). congruence.
Qed.

Lemma read_addresses_run user luser l ls missing family h o : 0 <= family < 256 -> parsing user luser l ls (Local :: Peer :: missing) h o ->
  Peer ∉ missing -> Local ∉ missing -> exists o' h', read_addresses buf tb family o h = Some (o', true, h') /\ parsing user luser l ls missing h' o' /\
  h_links h' = h_links h /\ same_rest o o' /\
  (view_slot h' o' Local, view_slot h' o' Peer) = wire family (a_prefixlen (ce_data o)) (f IFA_LOCAL) (f IFA_ADDRESS).
Proof.
  intros Hf P Hpm Hlm. unfold read_addresses.
  destruct (slot_reading user luser l ls (Peer :: missing) IFA_LOCAL family h o Local ltac:(done) ltac:(set_solver) P) as (o1 & h1 & E1 & P1 & L1 & R1 & V1 & _).
  cbn [slot_attr set] in E1. rewrite (hbind_run _ _ _ _ _ E1). cbn [negb].
  pose proof (read_address_run user luser l ls missing family h1 o1 Hf P1 Hpm Hlm V1) as Hrun. unfold wire.
  destruct (local_peer (f IFA_LOCAL) (f IFA_ADDRESS)) as [lo pe] eqn:Elp. destruct Hrun as (o2 & h2 & E2 & P2 & L2 & R2 & Vl & Vp & Hne).
  rewrite (hbind_run _ _ _ _ _ E2). cbn [negb].
  assert (a_prefixlen (ce_data o2) = a_prefixlen (ce_data o)) as Epl by (rewrite (same_rest_get a_prefixlen o1 o2), (same_rest_get a_prefixlen o o1); done).
  pose proof (same_rest_trans _ _ _ R1 R2) as R. destruct pe as [e|]; [|destruct lo as [d|]]; cbn [prefix_slot fmap option_fmap option_map] in *.
  - destruct (prefix_reading _ _ _ _ _ _ _ Peer _ (a_prefixlen (ce_data o2)) P2 Vp) as (h3 & E3 & P3 & L3 & V3 & O3). rewrite (hbind_run _ _ _ _ _ E3).
    exists o2, h3. split; [done|]. split; [done|]. split; [congruence|]. split; [done|]. rewrite V3, Epl, (O3 Local), Vl; [done|]. cbn [get]. intros E. specialize (Hne E). congruence.
  - destruct (prefix_reading _ _ _ _ _ _ _ Local _ (a_prefixlen (ce_data o2)) P2 Vl) as (h3 & E3 & P3 & L3 & V3 & O3). rewrite (hbind_run _ _ _ _ _ E3).
    exists o2, h3. split; [done|]. split; [done|]. split; [congruence|]. split; [done|]. rewrite V3, Epl, (O3 Peer), Vp; [done|]. intros _. by apply (view_slot_None h2 o2 Peer), Vp; apply P2.
  - assert (a_local (ce_data o2) = None) as En by (by apply (view_slot_None h2 o2 Local); [apply P2|]). cbn [get]. rewrite En. rewrite (hbind_run _ _ _ tt h2) by done.
    exists o2, h2. split; [done|]. split; [done|]. split; [congruence|]. split; [done|]. by rewrite Vl, Vp.
Qed.

End Reading.

Section Received.
Context {al : Allocator}.
Hypothesis memory : malloc_total al.
Context (buf : bytes) (tb : table) (c : ifa_content).
Hypothesis Hst : stored buf IFA_MAX tb (attr_data c).
Hypothesis Hc : content_ok c.

Lemma flags_run h : (match attr_of tb IFA_FLAGS with Some a => of_option (nla_get_u32 buf a) | None => mret (ifa_flags (m_hdr c)) end) h =
  Some (default (ifa_flags (m_hdr c)) (m_flags c), h).
Proof.
  pose proof (stored_lookup _ _ _ _ IFA_FLAGS Hst ltac:(done)) as Hl. change (attr_data c IFA_FLAGS) with (le_bytes 4 <$> m_flags c) in Hl.
  destruct (m_flags c) as [v|] eqn:E; cbn [fmap option_fmap option_map] in Hl; [|by rewrite Hl]. destruct Hl as (a & -> & Hf).
  apply of_option_run. by apply found_u32; [|apply (co_flags _ Hc)].
Qed.

Lemma label_run o h : exists s, opt_string buf tb IFA_LABEL IFNAMSIZ ADDR_ATTR_LABEL set_a_label o h =
  Some (step (bool_decide (is_Some (m_label c))) ADDR_ATTR_LABEL (set_a_label s) o, h) /\ (forall t, m_label c = Some t -> cstr s = t /\ label_ok s).
Proof.
  pose proof (co_label _ Hc) as Hlab. pose proof (co_short _ Hc IFA_LABEL) as Hs. change (attr_data c IFA_LABEL) with ((fun s => s ++ [0]) <$> m_label c) in Hs.
  destruct (m_label c) as [t|] eqn:E.
  - destruct (Hlab t eq_refl) as [Hz Ht]. destruct (Hs _ eq_refl) as [_ Hb]. apply Forall_app in Hb as [Hb _].
    exists (t ++ replicate (Z.to_nat (IFNAMSIZ - zlen t)) 0). split.
    + apply (opt_string_run buf IFA_MAX tb (attr_data c) Hst IFA_LABEL IFNAMSIZ ADDR_ATTR_LABEL set_a_label true t o h ltac:(done)).
      * change (attr_data c IFA_LABEL) with ((fun s => s ++ [0]) <$> m_label c). by rewrite E.
      * unfold IFNAMSIZ in *. lia.
    + assert (cstr (t ++ replicate (Z.to_nat (IFNAMSIZ - zlen t)) 0) = t) as Ec.
      { rewrite JsonUtil.cstr_app_nonzero by done. destruct (Z.to_nat (IFNAMSIZ - zlen t)); apply app_nil_r. }
      intros ? [= <-]. split; [done|]. pose proof (zlen_nonneg t). split_and!.
      * rewrite zlen_app, zlen_replicate. unfold IFNAMSIZ in *. lia.
      * unfold strlen. by rewrite Ec.
      * apply Forall_app. split; [done|]. apply Forall_replicate. by vm_compute.
  - exists []. split; [|done]. apply (opt_string_run buf IFA_MAX tb (attr_data c) Hst IFA_LABEL IFNAMSIZ ADDR_ATTR_LABEL set_a_label false [] o h ltac:(done)); [|done].
    change (attr_data c IFA_LABEL) with ((fun s => s ++ [0]) <$> m_label c). by rewrite E.
Qed.

Lemma ci_fields ci : cacheinfo_ok ci -> get_le 0 4 (ci_bytes ci) = aci_prefered ci /\ get_le 4 4 (ci_bytes ci) = aci_valid ci /\
  get_le 8 4 (ci_bytes ci) = aci_cstamp ci /\ get_le 12 4 (ci_bytes ci) = aci_tstamp ci.
Proof.
  intros (H1 & H2 & H3 & H4). destruct ci as [p v r t]. cbn [aci_prefered aci_valid aci_cstamp aci_tstamp] in *. unfold ci_bytes. cbn [aci_prefered aci_valid aci_cstamp aci_tstamp].
  rewrite <- (Z.mod_small p (256 ^ Z.of_nat 4)) at 2 by done. rewrite <- (Z.mod_small v (256 ^ Z.of_nat 4)) at 3 by done.
  rewrite <- (Z.mod_small r (256 ^ Z.of_nat 4)) at 4 by done. rewrite <- (Z.mod_small t (256 ^ Z.of_nat 4)) at 5 by done. split_and!.
  - exact (get_le_mid 0 4 [] p (le_bytes 4 v ++ le_bytes 4 r ++ le_bytes 4 t) eq_refl).
  - exact (get_le_mid 4 4 (le_bytes 4 p) v (le_bytes 4 r ++ le_bytes 4 t) eq_refl).
  - exact (get_le_mid 8 4 (le_bytes 4 p ++ le_bytes 4 v) r (le_bytes 4 t) eq_refl).
  - exact (get_le_mid 12 4 (le_bytes 4 p ++ le_bytes 4 v ++ le_bytes 4 r) t [] eq_refl).
Qed.

Lemma cacheinfo_run o h : read_cacheinfo buf tb o h =
  Some (step (bool_decide (is_Some (m_cacheinfo c))) ADDR_ATTR_CACHEINFO (set_a_cacheinfo (default (CacheInfo 0 0 0 0) (m_cacheinfo c))) o, h).
Proof.
  pose proof (stored_lookup _ _ _ _ IFA_CACHEINFO Hst ltac:(done)) as Hl. change (attr_data c IFA_CACHEINFO) with (ci_bytes <$> m_cacheinfo c) in Hl. unfold read_cacheinfo.
  destruct (m_cacheinfo c) as [ci|] eqn:E; cbn [fmap option_fmap option_map] in Hl; [|by rewrite Hl]. destruct Hl as (a & -> & Hf).
  assert (zlen (ci_bytes ci) = 16) as Hz by done. destruct (ci_fields ci (co_cacheinfo _ Hc ci E)) as (F0 & F1 & F2 & F3).
  pose proof (found_rd _ _ _ 0 4 Hf ltac:(lia) ltac:(lia)) as E0. rewrite Z.add_0_r, F0 in E0. rewrite (hbind_run _ _ _ _ _ (of_option_run _ _ h E0)).
  pose proof (fun k Hk Hk' => of_option_run _ _ h (found_rd _ _ _ k 4 Hf Hk Hk')) as Erd.
  rewrite (hbind_run _ _ _ _ _ (Erd 4 ltac:(lia) ltac:(lia))), (hbind_run _ _ _ _ _ (Erd 8 ltac:(lia) ltac:(lia))), (hbind_run _ _ _ _ _ (Erd 12 ltac:(lia) ltac:(lia))).
  rewrite F1, F2, F3. by destruct ci.
Qed.

Lemma view_same_rest h o o' : same_rest o o' -> ifaddr_view h o' =
  let v := ifaddr_view h o in
  IfAddrValue (v_family v) (v_prefixlen v) (v_scope v) (v_flags v) (v_ifindex v) (v_label v) (v_cacheinfo v) (view_slot h o' Peer) (view_slot h o' Local)
    (view_slot h o' Bcast) (view_slot h o' Multicast) (view_slot h o' Anycast) (v_flag_mask v).
Proof.
  intros R. unfold ifaddr_view, att. cbv zeta. cbn [v_family v_prefixlen v_scope v_flags v_ifindex v_label v_cacheinfo v_flag_mask].
  rewrite !(sr_mask _ _ R) by (by intros []). rewrite (same_rest_get a_family o o' R), (same_rest_get a_prefixlen o o' R), (same_rest_get a_scope o o' R), (same_rest_get a_flags o o' R),
    (same_rest_get a_ifindex o o' R), (same_rest_get a_label o o' R), (same_rest_get a_cacheinfo o o' R), (same_rest_get a_flag_mask o o' R); done.
Qed.

(** The header, the label and the cache information. *)
Definition head_addr (type : Z) (label : bytes) : ifaddr :=
  let m := m_hdr c in
  step (bool_decide (is_Some (m_cacheinfo c))) ADDR_ATTR_CACHEINFO (set_a_cacheinfo (default (CacheInfo 0 0 0 0) (m_cacheinfo c)))
  (step (bool_decide (is_Some (m_label c))) ADDR_ATTR_LABEL (set_a_label label)
  (Object 1 type 31 (set_a_ifindex (ifa_index m) (set_a_flags (default (ifa_flags m) (m_flags c)) (set_a_scope (ifa_scope m)
     (set_a_prefixlen (ifa_prefixlen m) (set_a_family (ifa_family m) no_addr))))))).

Lemma head_parsing user luser l ls h type label : heap_ok user l h -> link_refs luser ls h -> (forall t, m_label c = Some t -> cstr label = t /\ label_ok label) ->
  parsing user luser l ls [Local; Peer; Bcast; Multicast; Anycast] h (head_addr type label).
Proof.
  intros Hh Hl Hlab. pose proof (co_hdr _ Hc) as (H1 & H2 & H3 & H4 & H5). pose proof (co_flags _ Hc) as Hfl. pose proof (co_cacheinfo _ Hc) as Hci.
  assert (0 <= default (ifa_flags (m_hdr c)) (m_flags c) < 2 ^ 32) as Hv by (destruct (m_flags c) as [v|]; [by apply Hfl|cbn; lia]).
  assert (forall s, get s (ce_data (head_addr type label)) = None /\ has (ce_mask (head_addr type label)) (slot_attr s) = false) as Hnone.
  { intros s. unfold head_addr. by destruct (bool_decide _), (bool_decide _), s. }
  constructor; [|change (heap_ok user (map (fun s => get s (ce_data (head_addr type label))) slots ++ l) h)|..].
  - destruct (no_addr_ok h type) as [? ? ? ? ? ? Hci0 Hlab0 ? ? ? ? ?]. unfold head_addr in *. destruct (m_cacheinfo c) as [ci|], (m_label c) as [t|];
      (constructor; [..|intros s; unfold ptr_ok; destruct (Hnone s) as [E1 E2]; by rewrite E1, E2]); unfold step; rewrite ?bool_decide_eq_true_2, ?bool_decide_eq_false_2 by (done || by eexists || by intros []);
      addr_fields; try assumption; try (intros; discriminate); try (by apply Hci); try (by apply (Hlab t)); by vm_compute.
  - erewrite map_ext by (intros s; apply Hnone). cbn. by rewrite !heap_ok_null.
  - unfold head_addr. by destruct (bool_decide _), (bool_decide _).
  - done.
  - unfold head_addr. by destruct (bool_decide _), (bool_decide _).
  - apply Forall_forall. intros s _. apply Hnone.
Qed.

Lemma head_view h type label : (forall t, m_label c = Some t -> cstr label = t /\ label_ok label) ->
  let v := ifaddr_view h (head_addr type label) in let m := m_hdr c in
  (v_family v, v_prefixlen v, v_scope v, v_flags v, v_ifindex v, v_label v, v_cacheinfo v, v_flag_mask v) =
  (Some (ifa_family m), Some (ifa_prefixlen m), Some (ifa_scope m), Some (default (ifa_flags m) (m_flags c)), Some (ifa_index m), m_label c, m_cacheinfo c, 0).
Proof.
  intros Hlab. cbv zeta. unfold head_addr. destruct (m_cacheinfo c) as [ci|], (m_label c) as [t|];
    rewrite ?bool_decide_eq_true_2, ?bool_decide_eq_false_2 by (done || by eexists || by intros []); try (by destruct (Hlab t eq_refl) as [<- _]); done.
Qed.

Lemma parse_addr_run user luser l ls lcache h type : heap_ok user l h -> link_refs luser ls h -> cached luser ls lcache -> exists o h',
  parse_addr lcache buf tb (m_hdr c) (Object 1 type 0 no_addr) h = Some (o, true, h') /\ parsed user luser l ls h' o /\ ce_msgtype o = type /\
  ifaddr_view h' o = received c.
Proof.
  intros Hh Hl Hlc. pose proof (co_hdr _ Hc) as (Hfam & _). unfold parse_addr. rewrite (hbind_run _ _ _ _ _ (flags_run h)). cbn [ce_refcnt ce_msgtype ce_data].
  match goal with |- context [opt_string _ _ _ _ _ _ ?x] => set (o0 := x) end. destruct (label_run o0 h) as (s & E1 & Hs). rewrite (hbind_run _ _ _ _ _ E1).
  rewrite (hbind_run _ _ _ _ _ (cacheinfo_run _ h)). change (step _ ADDR_ATTR_CACHEINFO _ _) with (head_addr type s).
  pose proof (head_parsing user luser l ls h type s Hh Hl Hs) as P2. set (o2 := head_addr type s) in *.
  assert (a_prefixlen (ce_data o2) = ifa_prefixlen (m_hdr c)) as Epl by (unfold o2, head_addr; by destruct (bool_decide _), (bool_decide _)).
  destruct (read_addresses_run memory buf tb (attr_data c) Hst (co_short _ Hc) user luser l ls [Bcast; Multicast; Anycast] (ifa_family (m_hdr c)) h o2 Hfam P2 ltac:(set_solver) ltac:(set_solver))
    as (o3 & h3 & E3 & P3 & _ & R3 & V3). rewrite (hbind_run _ _ _ _ _ E3). cbn [negb].
  destruct (slot_reading memory buf tb (attr_data c) Hst (co_short _ Hc) user luser l ls [Multicast; Anycast] IFA_BROADCAST (ifa_family (m_hdr c)) h3 o3 Bcast ltac:(done) ltac:(set_solver) P3)
    as (o4 & h4 & E4 & P4 & _ & R4 & V4 & O4). cbn [slot_attr set] in E4. rewrite (hbind_run _ _ _ _ _ E4). cbn [negb].
  destruct (slot_reading memory buf tb (attr_data c) Hst (co_short _ Hc) user luser l ls [Anycast] IFA_MULTICAST (ifa_family (m_hdr c)) h4 o4 Multicast ltac:(done) ltac:(set_solver) P4)
    as (o5 & h5 & E5 & P5 & _ & R5 & V5 & O5). cbn [slot_attr set] in E5. rewrite (hbind_run _ _ _ _ _ E5). cbn [negb].
  destruct (slot_reading memory buf tb (attr_data c) Hst (co_short _ Hc) user luser l ls [] IFA_ANYCAST (ifa_family (m_hdr c)) h5 o5 Anycast ltac:(done) ltac:(set_solver) P5)
    as (o6 & h6 & E6 & P6 & _ & R6 & V6 & O6). cbn [slot_attr set] in E6. rewrite (hbind_run _ _ _ _ _ E6). cbn [negb].
  pose proof (same_rest_trans _ _ _ (same_rest_trans _ _ _ R3 R4) (same_rest_trans _ _ _ R5 R6)) as R.
  destruct (read_link_safe _ _ _ _ _ lcache h6 o6 P6 Hlc) as (o7 & h7 & E7 & P7 & H7). rewrite (hbind_run _ _ _ _ _ E7).
  assert (has (ce_mask o6) ADDR_ATTR_IFINDEX = true) as Hi.
  { rewrite (sr_mask _ _ R) by (by intros []). unfold o2, head_addr. by destruct (bool_decide _), (bool_decide _). }
  destruct (H7 Hi) as [R7 V7]. pose proof (same_rest_trans _ _ _ R R7) as R'. exists o7, h7. split; [done|]. split; [done|]. split.
  { rewrite (sr_type _ _ R'). unfold o2, head_addr. by destruct (bool_decide _), (bool_decide _). }
  rewrite (view_same_rest h7 o2 o7 R'), !V7. pose proof (head_view h7 type s Hs) as Hv. cbv zeta in Hv |- *. fold o2 in Hv. set (v := ifaddr_view h7 o2) in *. clearbody v. injection Hv as -> -> -> -> -> -> -> ->.
  rewrite V6, !O6 by done. rewrite V5, !O5 by done. rewrite V4, !O4 by done. unfold received. rewrite Epl in V3.
  change (attr_data c IFA_LOCAL) with (m_local c) in V3. change (attr_data c IFA_ADDRESS) with (m_address c) in V3. rewrite <- V3. done.
Qed.

End Received.

Lemma read_ifa_bytes m rest n x : msg_holds m rest (ifa_bytes n ++ x) -> ifa_ok n -> read_ifa (nm_nlh m) (nlmsg_data 0) = Some n.
Proof.
  intros Hm (H1 & H2 & H3 & H4 & H5). unfold read_ifa. rewrite <- (Z.add_0_r (nlmsg_data 0)) at 1.
  rewrite !(hdr_field m rest (ifa_bytes n) x) by (done || (change (zlen (ifa_bytes n)) with 8; lia)). cbn [mbind option_bind].
  destruct n as [f p fl s i]. cbn [ifa_family ifa_prefixlen ifa_flags ifa_scope ifa_index] in *. unfold ifa_bytes. cbn [ifa_family ifa_prefixlen ifa_flags ifa_scope ifa_index].
  rewrite !le_bytes_1 by done. do 2 f_equal.
  - by apply (get_byte _ 0 0).
  - by apply (get_byte _ 1 1).
  - by apply (get_byte _ 2 2).
  - by apply (get_byte _ 3 3).
  - rewrite <- (Z.mod_small i (256 ^ Z.of_nat 4)) at 2 by done. exact (get_le_mid 4 4 [f; p; fl; s] i [] eq_refl).
Qed.

(** The attributes of a message. *)
Definition opt_attr (t : Z) (d : option bytes) : list (Z * bytes) := match d with Some d => [(t, d)] | None => [] end.

Definition content_attrs (c : ifa_content) : list (Z * bytes) :=
  opt_attr IFA_LOCAL (attr_data c IFA_LOCAL) ++ opt_attr IFA_ADDRESS (attr_data c IFA_ADDRESS) ++ opt_attr IFA_LABEL (attr_data c IFA_LABEL) ++
  opt_attr IFA_BROADCAST (attr_data c IFA_BROADCAST) ++ opt_attr IFA_CACHEINFO (attr_data c IFA_CACHEINFO) ++ opt_attr IFA_FLAGS (attr_data c IFA_FLAGS) ++
  opt_attr IFA_MULTICAST (attr_data c IFA_MULTICAST) ++ opt_attr IFA_ANYCAST (attr_data c IFA_ANYCAST).

Lemma last_of_opt t acc k d : last_of t acc (opt_attr k d) = if k =? t then match d with Some _ => d | None => acc end else acc.
Proof. destruct d; cbn; by destruct (k =? t). Qed.

Lemma content_lookup c t : 0 <= t <= IFA_MAX -> last_of t None (content_attrs c) = attr_data c t.
Proof.
  intros Ht. unfold content_attrs. rewrite !last_of_app, !last_of_opt. unfold IFA_MAX in Ht.
  assert (t = 0 \/ t = 1 \/ t = 2 \/ t = 3 \/ t = 4 \/ t = 5 \/ t = 6 \/ t = 7 \/ t = 8) as Hcases by lia.
  destruct Hcases as [->|[->|[->|[->|[->|[->|[->|[->| ->] ] ] ] ] ] ] ]; cbn; by repeat case_match.
Qed.

Lemma opt_attr_Forall (P : Z * bytes -> Prop) t d : (forall x, d = Some x -> P (t, x)) -> Forall P (opt_attr t d).
Proof. intros H. destruct d as [x|]; [|constructor]. apply Forall_singleton. by apply H. Qed.

Lemma content_passes c : content_ok c -> Forall (passes IFA_MAX (Some addr_policy)) (content_attrs c) /\ Forall small (content_attrs c).
Proof.
  intros Hc. split; unfold content_attrs; repeat (apply Forall_app; split); apply opt_attr_Forall; intros d E;
    try (by apply passes_any); try (split; cbn [fst snd]; [by vm_compute|by apply (co_short _ Hc _ _ E)]).
  - change (attr_data c IFA_LABEL) with ((fun s => s ++ [0]) <$> m_label c) in E. destruct (m_label c) as [s|] eqn:El; [|done]. injection E as <-.
    apply (passes_string _ _ _ _ IFNAMSIZ); [done|]. by apply (co_label _ Hc).
  - change (attr_data c IFA_CACHEINFO) with (ci_bytes <$> m_cacheinfo c) in E. destruct (m_cacheinfo c) as [ci|]; [|done]. injection E as <-.
    intros _. exists (Policy 0 16 0). split; [done|]. split; [by vm_compute|]. by split_and!.
Qed.

Section Holds.
Context {al : Allocator}.
Hypothesis memory : malloc_total al.

(** A message with this content makes the parser call back with the address it
    describes, whatever else is in its header. *)
Lemma addr_parse_holds user luser l ls lcache c hp cmd m rest : content_ok c -> heap_ok user l hp -> link_refs luser ls hp -> cached luser ls lcache ->
  nm_size m <= 2147483640 -> rd 4 2 (nm_nlh m) = Some cmd -> msg_holds m rest (ifa_bytes (m_hdr c) ++ enc_all (content_attrs c)) ->
  exists o h', (forall pp_cb, addr_msg_parser pp_cb lcache (nm_nlh m) hp = ('(o, err) ← pp_cb o; r ← rtnl_addr_put (Some o); mret (err, r)) h') /\
  parsed user luser l ls h' o /\ ce_msgtype o = cmd /\ ifaddr_view h' o = received c.
Proof.
  intros Hc Hh Hl Hlc Hsz Hcmd Hm. destruct (content_passes c Hc) as [Hpass Hsmall].
  destruct (nlmsg_parse_holds m _ _ _ 8 IFA_MAX (Some addr_policy) Hm) as (tb & Etb & Hst & _); [lia|done|done|done|done|done|].
  assert (stored (nm_nlh m) IFA_MAX tb (attr_data c)) as Hst' by (destruct Hst as (S1 & S2 & S3); split; [done|]; split; [|done]; intros t Ht; rewrite (S2 t Ht); by apply content_lookup).
  destruct (parse_addr_run memory (nm_nlh m) tb c Hst' Hc user luser l ls lcache hp cmd Hh Hl Hlc) as (o & h' & E & P & Et & Ev). exists o, h'. split; [|done].
  intros pp_cb. unfold addr_msg_parser, rtnl_addr_alloc, obj_alloc. rewrite memory by (unfold addr_size; lia).
  rewrite (hbind_run _ _ _ _ _ (of_option_run _ _ hp Hcmd)). cbn [ce_refcnt ce_mask ce_data]. rewrite (hbind_run _ _ _ _ _ (of_option_run _ _ hp Etb)).
  change (0 <? 0) with false. cbv iota. rewrite (hbind_run _ _ _ _ _ (of_option_run _ tb hp eq_refl)).
  rewrite (hbind_run _ _ _ _ _ (of_option_run _ _ hp (read_ifa_bytes _ _ _ _ Hm (co_hdr _ Hc)))). by rewrite (hbind_run _ _ _ _ _ E).
Qed.

End Holds.

(** ** Sending an address *)

(** The scope that is sent: without one, an IPv4 address 127.x.x.x is of the
    host. *)
Definition sent_scope (v : ifaddr_value) : Z :=
  match v_scope v with
  | Some s => s
  | None => if (default 0 (v_family v) =? NlAddr.AF_INET) && bool_decide ((a ← v_local v; head (av_bytes a)) = Some 127) then RT_SCOPE_HOST else RT_SCOPE_UNIVERSE
  end.

(** The message of an address. *)
Definition sent (v : ifaddr_value) : ifa_content :=
  let flags := default 0 (v_flags v) in
  Content (Ifa (default 0 (v_family v)) (default 0 (v_prefixlen v)) (u8 flags) (sent_scope v) (default 0 (v_ifindex v)))
    (av_bytes <$> v_local v) (av_bytes <$> match v_peer v with Some p => Some p | None => v_local v end) (v_label v) (av_bytes <$> v_bcast v)
    ((fun c => CacheInfo (aci_prefered c) (aci_valid c) 0 0) <$> v_cacheinfo v) (if Z.ldiff flags 255 =? 0 then None else Some flags) None None.

(** Addresses are short, and the local one is not empty. *)
Definition sendable (h : heap) (o : ifaddr) : Prop :=
  (forall s a, deref h (get s (ce_data o)) = Some a -> a_len a <= 255) /\ forall a, deref h (a_local (ce_data o)) = Some a -> 1 <= a_len a.

Lemma view_slot_bytes h o s d : ifaddr_ok h o -> sendable h o -> av_bytes <$> view_slot h o s = Some d -> zlen d <= 255 /\ Forall byte_ok d.
Proof.
  intros Ho [Hs _] E. pose proof (ok_ptrs _ _ Ho s) as Hp. unfold view_slot, view_ptr, ptr_ok in *. destruct (has _ _); [|done]. destruct Hp as (a & Ea & Ha).
  rewrite Ea in E. injection E as <-. rewrite addr_bytes_len by done. split; [by apply (Hs s)|]. apply Forall_take, Ha.
Qed.

Lemma cstr_Forall (P : Z -> Prop) s : Forall P s -> Forall P (cstr s).
Proof. induction 1 as [|x s Hx _ IH]; cbn; [constructor|]. destruct (x =? 0); by constructor. Qed.

Lemma sent_data h o t d : ifaddr_ok h o -> sendable h o -> attr_data (sent (ifaddr_view h o)) t = Some d -> zlen d <= 255 /\ Forall byte_ok d.
Proof.
  intros Ho Hs E. pose proof (fun s x => view_slot_bytes h o s x Ho Hs) as Hb. unfold attr_data, sent in E.
  cbn [m_local m_address m_label m_bcast m_cacheinfo m_flags m_multicast m_anycast ifaddr_view v_local v_peer v_label v_bcast v_cacheinfo] in E.
  destruct (t =? IFA_LOCAL); [by apply (Hb Local)|]. destruct (t =? IFA_ADDRESS).
  { destruct (view_slot h o Peer) as [v|] eqn:Ep; [apply (Hb Peer); by rewrite Ep|by apply (Hb Local)]. }
  destruct (t =? IFA_LABEL).
  { unfold att in E. destruct (has _ _); [|done]. injection E as <-. destruct (ok_label _ _ Ho) as (_ & Hz & Hby). rewrite zlen_app. change (zlen [0]) with 1. unfold strlen, IFNAMSIZ in Hz. split; [lia|].
    apply Forall_app. split; [|by apply Forall_singleton]. by apply cstr_Forall. }
  destruct (t =? IFA_BROADCAST); [by apply (Hb Bcast)|]. destruct (t =? IFA_CACHEINFO).
  { unfold att in E. destruct (has _ _); [|done]. injection E as <-. split; [done|]. unfold ci_bytes. repeat (apply Forall_app; split); apply NlAddr.le_bytes_ok. }
  destruct (t =? IFA_FLAGS).
  { destruct (_ =? 0); [done|]. injection E as <-. split; [done|apply (NlAddr.le_bytes_ok 4)]. }
  destruct (t =? IFA_MULTICAST); [done|]. by destruct (t =? IFA_ANYCAST).
Qed.

Lemma sent_scope_range h o : ifaddr_ok h o -> 0 <= sent_scope (ifaddr_view h o) < 256.
Proof. intros Ho. unfold sent_scope. cbn [ifaddr_view v_scope]. unfold att. destruct (has _ _); [apply Ho|]. by destruct (_ && _). Qed.

Lemma sent_ok h o : ifaddr_ok h o -> sendable h o -> content_ok (sent (ifaddr_view h o)).
Proof.
  intros Ho Hs. constructor.
  - cbn [sent m_hdr ifaddr_view v_family v_prefixlen v_flags v_ifindex]. rewrite !NlNeigh.att_default by apply Ho. unfold ifa_ok. cbn [ifa_family ifa_prefixlen ifa_flags ifa_scope ifa_index].
    split_and!; try apply Ho; try (by apply wrap_range); apply (sent_scope_range h o Ho).
  - intros t d E. destruct (sent_data h o t d Ho Hs E). split; [lia|done].
  - cbn [sent m_label ifaddr_view v_label]. unfold att. intros s. destruct (has _ _); [|done]. intros [= <-]. split; [apply Ho|]. apply NlAddr.cstr_text_ok.
  - cbn [sent m_cacheinfo ifaddr_view v_cacheinfo]. unfold att. intros ci. destruct (has _ _); [|done]. intros [= <-]. destruct (ok_cacheinfo _ _ Ho) as (H1 & H2 & _).
    split; [exact H1|]. split; [exact H2|]. by split; vm_compute.
  - cbn [sent m_flags ifaddr_view v_flags]. intros v. rewrite NlNeigh.att_default by apply Ho. destruct (_ =? 0); [done|]. intros [= <-]. apply Ho.
Qed.

Lemma msg_scope_sent h o : ifaddr_ok h o -> sendable h o -> msg_scope h o = Some (sent_scope (ifaddr_view h o)).
Proof.
  intros Ho [_ Hl]. unfold msg_scope, sent_scope. cbn [ifaddr_view v_scope v_family v_local]. rewrite NlNeigh.att_default by apply Ho. unfold att. destruct (has _ ADDR_ATTR_SCOPE); [done|].
  destruct (_ =? _); [|done]. cbn [andb]. pose proof (ok_ptrs _ _ Ho Local) as Hp. unfold ptr_ok, view_slot, view_ptr in *. cbn [slot_attr get] in *.
  destruct (has _ ADDR_ATTR_LOCAL); [|done]. destruct Hp as (a & Ea & Ha). specialize (Hl a Ea). rewrite Ea. cbn [mbind option_bind fmap option_fmap option_map addr_view av_bytes].
  destruct Ha as (H1 & H2 & _). unfold NlAddr.nl_addr_get_binary_addr, addr_bytes. destruct (a_addr a) as [|x d] eqn:E; [change (zlen []) with 0 in H2; lia|].
  rewrite rd_Some by (rewrite ?zlen_cons in *; pose proof (zlen_nonneg d); lia). cbn [mbind option_bind]. destruct (Z.to_nat (a_len a)) as [|n] eqn:En; [lia|]. cbn [take firstn head].
  rewrite (get_byte _ 0 0 x) by done. destruct (Z.eqb_spec x 127) as [->|Hne]; [by rewrite bool_decide_eq_true_2|]. by rewrite bool_decide_eq_false_2 by congruence.
Qed.

Lemma on_slot h o s t : ifaddr_ok h o ->
  on (has (ce_mask o) (slot_attr s)) (t, default [] (addr_bytes <$> deref h (get s (ce_data o)))) = opt_attr t (av_bytes <$> view_slot h o s).
Proof.
  intros Ho. pose proof (ok_ptrs _ _ Ho s) as Hp. unfold ptr_ok, view_slot, view_ptr in *. destruct (has _ _); [|done]. by destruct Hp as (a & -> & _).
Qed.

Lemma on_address h o : ifaddr_ok h o -> let m := ce_mask o in
  on (has m ADDR_ATTR_PEER || has m ADDR_ATTR_LOCAL)
    (IFA_ADDRESS, default [] (addr_bytes <$> deref h (if has m ADDR_ATTR_PEER then a_peer (ce_data o) else a_local (ce_data o)))) =
  opt_attr IFA_ADDRESS (attr_data (sent (ifaddr_view h o)) IFA_ADDRESS).
Proof.
  intros Ho m. change (attr_data (sent (ifaddr_view h o)) IFA_ADDRESS) with (av_bytes <$> match view_slot h o Peer with Some p => Some p | None => view_slot h o Local end).
  pose proof (on_slot h o Local IFA_ADDRESS Ho) as El. pose proof (on_slot h o Peer IFA_ADDRESS Ho) as Ep. cbn [slot_attr get] in *. unfold m.
  destruct (view_slot h o Peer) as [v|] eqn:E; cbn [fmap option_fmap option_map] in Ep; destruct (has (ce_mask o) ADDR_ATTR_PEER); by cbn [on opt_attr orb] in *.
Qed.

Lemma zlen_opt_attr t d n : (forall x, d = Some x -> zlen x <= n) -> 0 <= n <= 65531 -> zlen (enc_all (opt_attr t d)) <= n + 7.
Proof.
  intros Hd Hn. destruct d as [x|]; [|change (zlen (enc_all (opt_attr t None))) with 0; lia]. specialize (Hd x eq_refl). pose proof (zlen_nonneg x).
  cbn [opt_attr]. rewrite enc_all_one, enc_attr_length by lia. destruct (align_bounds (4 + zlen x)); lia.
Qed.

Lemma sent_room h o : ifaddr_ok h o -> sendable h o -> zlen (enc_all (content_attrs (sent (ifaddr_view h o)))) <= 900.
Proof.
  intros Ho Hs. pose proof (fun t n Hn => zlen_opt_attr t (attr_data (sent (ifaddr_view h o)) t) n (fun x E => Hn x E)) as Hb. unfold content_attrs. rewrite !zlen_enc_app.
  assert (forall x t, attr_data (sent (ifaddr_view h o)) t = Some x -> zlen x <= 255) as H255 by (intros x t E; by apply (sent_data h o t x Ho Hs)).
  assert (zlen (enc_all (opt_attr IFA_LABEL (attr_data (sent (ifaddr_view h o)) IFA_LABEL))) <= 16 + 7) as H1.
  { apply zlen_opt_attr; [|lia]. cbn. unfold att. intros x. destruct (has _ _); [|done]. intros [= <-]. rewrite zlen_app. change (zlen [0]) with 1.
    destruct (ok_label _ _ Ho) as (_ & Hz & _). unfold strlen, IFNAMSIZ in Hz. lia. }
  assert (zlen (enc_all (opt_attr IFA_CACHEINFO (attr_data (sent (ifaddr_view h o)) IFA_CACHEINFO))) <= 16 + 7) as H2.
  { apply zlen_opt_attr; [|lia]. cbn. unfold att. intros x. destruct (has _ _); [|done]. by intros [= <-]. }
  assert (zlen (enc_all (opt_attr IFA_FLAGS (attr_data (sent (ifaddr_view h o)) IFA_FLAGS))) <= 4 + 7) as H3.
  { apply zlen_opt_attr; [|lia]. cbn. intros x. destruct (_ =? 0); [done|]. by intros [= <-]. }
  pose proof (Hb IFA_LOCAL 255 (fun x => H255 x _) ltac:(lia)). pose proof (Hb IFA_ADDRESS 255 (fun x => H255 x _) ltac:(lia)). pose proof (Hb IFA_BROADCAST 255 (fun x => H255 x _) ltac:(lia)).
  change (enc_all (opt_attr IFA_MULTICAST (attr_data (sent (ifaddr_view h o)) IFA_MULTICAST))) with (@nil Z).
  change (enc_all (opt_attr IFA_ANYCAST (attr_data (sent (ifaddr_view h o)) IFA_ANYCAST))) with (@nil Z). change (zlen (@nil Z)) with 0. lia.
Qed.

(** The address that arrives is the one that was sent, up to the scope and the
    time stamps: it has its family, prefix length and index, the addresses are
    of the family, the prefix length is that of the peer (with a local address
    of another value, and all its bits) or else of the local address. *)
Definition consistent (v : ifaddr_value) : Prop :=
  exists family prefixlen, v_family v = Some family /\ v_prefixlen v = Some prefixlen /\ is_Some (v_ifindex v) /\ (is_Some (v_flags v)) /\
  match v_peer v with
  | Some p => exists d e, v_local v = Some (whole family d) /\ p = AddrValue family prefixlen e /\ d <> e
  | None => forall a, v_local v = Some a -> exists d, a = AddrValue family prefixlen d
  end /\ (forall a, v_bcast v = Some a -> exists d, a = whole family d) /\ v_multicast v = None /\ v_anycast v = None /\ v_flag_mask v = 0.

Definition normal (v : ifaddr_value) : ifaddr_value :=
  IfAddrValue (v_family v) (v_prefixlen v) (Some (sent_scope v)) (v_flags v) (v_ifindex v) (v_label v)
    ((fun c => CacheInfo (aci_prefered c) (aci_valid c) 0 0) <$> v_cacheinfo v) (v_peer v) (v_local v) (v_bcast v) None None 0.

Lemma received_sent v : consistent v -> (forall f, v_flags v = Some f -> 0 <= f) -> received (sent v) = normal v.
Proof.
  intros (family & prefixlen & Ef & Ep & (i & Ei) & (fl & Efl) & Hp & Hb & Em & Ea & _) Hfl. unfold received, sent, normal. rewrite Ef, Ep, Ei, Efl.
  change (default 0 (Some fl)) with fl. change (default 0 (Some family)) with family. change (default 0 (Some prefixlen)) with prefixlen. change (default 0 (Some i)) with i.
  cbn [m_hdr m_local m_address m_label m_bcast m_cacheinfo m_flags m_multicast m_anycast ifa_family ifa_prefixlen ifa_flags ifa_scope ifa_index].
  assert (default (u8 fl) (if Z.ldiff fl 255 =? 0 then None else Some fl) = fl) as Efl'.
  { destruct (Z.eqb_spec (Z.ldiff fl 255) 0) as [E|]; [|done]. cbn. specialize (Hfl fl Efl). change 255 with (Z.ones 8) in E. rewrite Z.ldiff_ones_r in E by lia.
    rewrite Z.shiftl_mul_pow2, Z.shiftr_div_pow2 in E by lia. unfold u8, wrap. Z.to_euclidean_division_equations. lia. }
  rewrite Efl'.
  assert (whole family <$> (av_bytes <$> v_bcast v) = v_bcast v) as Ebc by (destruct (v_bcast v) as [a|]; [|done]; by destruct (Hb a eq_refl) as (d & ->)).
  rewrite Ebc. destruct (v_peer v) as [p|].
  - destruct Hp as (d & e & -> & -> & Hne). cbn [fmap option_fmap option_map whole av_bytes wire local_peer]. unfold wire. cbn [local_peer]. by rewrite bool_decide_eq_false_2.
  - destruct (v_local v) as [a|]; [|done]. destruct (Hp a eq_refl) as (d & ->). cbn [fmap option_fmap option_map av_bytes]. unfold wire. cbn [local_peer]. by rewrite bool_decide_eq_true_2.
Qed.

(** What [build_addr_msg] puts into the message. *)
Lemma attrs_sent h o : ifaddr_ok h o -> let m := ce_mask o in let x := ce_data o in
  on (has m ADDR_ATTR_LOCAL) (IFA_LOCAL, default [] (addr_bytes <$> deref h (a_local x))) ++
  on (has m ADDR_ATTR_PEER || has m ADDR_ATTR_LOCAL)
    (IFA_ADDRESS, default [] (addr_bytes <$> deref h (if has m ADDR_ATTR_PEER then a_peer x else a_local x))) ++
  on (has m ADDR_ATTR_LABEL) (IFA_LABEL, cstr (a_label x) ++ [0]) ++
  on (has m ADDR_ATTR_BROADCAST) (IFA_BROADCAST, default [] (addr_bytes <$> deref h (a_bcast x))) ++
  on (has m ADDR_ATTR_CACHEINFO) (IFA_CACHEINFO, ci_bytes (CacheInfo (aci_prefered (a_cacheinfo x)) (aci_valid (a_cacheinfo x)) 0 0)) ++
  on (negb (Z.ldiff (a_flags x) 255 =? 0)) (IFA_FLAGS, le_bytes 4 (a_flags x)) = content_attrs (sent (ifaddr_view h o)).
Proof.
  intros Ho m x. pose proof (on_slot h o Local IFA_LOCAL Ho) as El. pose proof (on_slot h o Bcast IFA_BROADCAST Ho) as Eb. cbn [slot_attr get] in *. unfold m, x.
  rewrite El, Eb, (on_address h o Ho). unfold content_attrs. do 2 f_equal. cbn. rewrite !NlNeigh.att_default by apply Ho. unfold att.
  destruct (has _ ADDR_ATTR_LABEL), (has _ ADDR_ATTR_CACHEINFO), (_ =? 0); cbn; by rewrite ?app_nil_r.
Qed.

Section RoundTrip.
Context {al : Allocator}.
Hypothesis memory : malloc_total al.
(** The default size of messages. *)
Variable size : Z.
Hypothesis size_ok : 1024 <= size <= 2147483640.

Lemma build_addr_msg_ok h o cmd flags : ifaddr_ok h o -> sendable h o -> let c := sent (ifaddr_view h o) in exists m,
  build_addr_msg size h o cmd flags = Some (inr m) /\ nm_size m = size /\ blank m /\
  msg_holds m (hdr_rest cmd flags) (ifa_bytes (m_hdr c) ++ enc_all (content_attrs c)).
Proof.
  intros Ho Hs c. unfold build_addr_msg. rewrite (msg_scope_sent h o Ho Hs). cbn [mbind option_bind].
  destruct (alloc_simple_some size cmd flags memory) as [m0 E0]; [lia|]. rewrite E0. destruct (alloc_simple_holds size cmd flags m0) as (Hm0 & Hs0 & Hr0); [lia|done|].
  assert (Ifa (a_family (ce_data o)) (a_prefixlen (ce_data o)) (u8 (a_flags (ce_data o))) (sent_scope (ifaddr_view h o)) (a_ifindex (ce_data o)) = m_hdr c) as ->.
  { unfold c. cbn [sent m_hdr ifaddr_view v_family v_prefixlen v_flags v_ifindex]. by rewrite !NlNeigh.att_default by apply Ho. }
  set (hdr := ifa_bytes (m_hdr c)). assert (zlen hdr = 8) as Hz by done.
  destruct (append_hdr_fits m0 (hdr_rest cmd flags) hdr Hm0) as (m1 & E1 & Hr1 & Hm1); [by rewrite Hz|lia|]. rewrite E1.
  assert (builds m1 (hdr_rest cmd flags) hdr (Some m1) []) as B0 by (split; [apply rebuilt_refl|by rewrite app_nil_r]).
  assert (forall s, has (ce_mask o) (slot_attr s) = true -> exists a, deref h (get s (ce_data o)) = Some a /\ addr_ok a) as Hptr.
  { intros s C. pose proof (ok_ptrs _ _ Ho s) as Hp. unfold ptr_ok in Hp. by rewrite C in Hp. }
  edestruct (put_addr_builds _ _ _ _ _ h (has (ce_mask o) ADDR_ATTR_LOCAL) IFA_LOCAL (a_local (ce_data o)) B0) as (o1 & -> & B1); [exact (Hptr Local)|].
  cbn [mbind option_bind].
  edestruct (put_addr_builds _ _ _ _ _ h (has (ce_mask o) ADDR_ATTR_PEER || has (ce_mask o) ADDR_ATTR_LOCAL) IFA_ADDRESS
    (if has (ce_mask o) ADDR_ATTR_PEER then a_peer (ce_data o) else a_local (ce_data o)) B1) as (o2 & -> & B2).
  { destruct (has (ce_mask o) ADDR_ATTR_PEER) eqn:C; [intros _; by apply (Hptr Peer)|exact (Hptr Local)]. }
  cbn [mbind option_bind].
  pose proof (put_if_builds _ _ _ _ _ (has (ce_mask o) ADDR_ATTR_LABEL) IFA_LABEL (cstr (a_label (ce_data o)) ++ [0]) B2) as B3.
  destruct (ok_label _ _ Ho) as (_ & Hlab & _). unfold strlen, IFNAMSIZ in Hlab. specialize (B3 ltac:(rewrite zlen_app; change (zlen [0]) with 1; lia)).
  edestruct (put_addr_builds _ _ _ _ _ h (has (ce_mask o) ADDR_ATTR_BROADCAST) IFA_BROADCAST (a_bcast (ce_data o)) B3) as (o4 & E4 & B4); [exact (Hptr Bcast)|].
  change (NLA_PUT_STRING IFA_LABEL (a_label (ce_data o))) with (NLA_PUT IFA_LABEL (cstr (a_label (ce_data o)) ++ [0])). rewrite E4. cbn [mbind option_bind].
  pose proof (put_if_builds _ _ _ _ _ (has (ce_mask o) ADDR_ATTR_CACHEINFO) IFA_CACHEINFO (ci_bytes (CacheInfo (aci_prefered (a_cacheinfo (ce_data o))) (aci_valid (a_cacheinfo (ce_data o))) 0 0))
    B4 ltac:(done)) as B5.
  pose proof (put_if_builds _ _ _ _ _ (negb (Z.ldiff (a_flags (ce_data o)) 255 =? 0)) IFA_FLAGS (le_bytes 4 (a_flags (ce_data o))) B5 ltac:(done)) as B6.
  change (NLA_PUT_U32 IFA_FLAGS (a_flags (ce_data o))) with (NLA_PUT IFA_FLAGS (le_bytes 4 (a_flags (ce_data o)))).
  rewrite <- !app_assoc, app_nil_l, (attrs_sent h o Ho) in B6. fold c in B6. match type of B6 with builds _ _ _ ?x _ => set (o6 := x) in * end. clearbody o6.
  pose proof (sent_room h o Ho Hs) as Hroom. fold c in Hroom. pose proof (proj2 Hr1) as Hsz1.
  destruct o6 as [m|]; cbn [builds built_msg] in *; [|lia]. destruct B6 as [Hr Hm]. exists m. split; [done|].
  pose proof (rebuilt_trans _ _ _ Hr1 Hr) as Hall. split; [destruct Hall; congruence|]. split; [by apply (blank_rebuilt _ _ Hall)|done].
Qed.

(** C25: an interface address on the wire: the message [build_addr_msg] makes
    of a well-formed address is accepted by [addr_msg_parser], which calls back
    with a new address, held once, that says what was sent: [received] of
    [sent]. The local address and the peer are told apart as they were (unless
    they are equal), the prefix length goes to the peer or else to the local
    address, flags above 255 are sent in an attribute of their own, and the
    link of the cache is referenced. The address arrives as it was, up to a
    default scope and the time stamps, if it is [consistent]: family, prefix
    length, interface and flags are set, the local address, the peer and the
    broadcast address are of the family and have the prefix lengths a message
    implies, the peer differs from the local address, and there is no multicast
    or anycast address, which are not sent ([addr_multicast_not_sent]), and no
    mask of flags. The allocator grants requests below 2 GiB, messages have at
    least 1024 bytes, addresses at most 255. *)
Theorem addr_build_parse user luser l ls lcache h t hp cmd flags : ifaddr_ok h t -> sendable h t -> 0 <= cmd < 65536 -> heap_ok user l hp ->
  link_refs luser ls hp -> cached luser ls lcache -> exists m o h', build_addr_msg size h t cmd flags = Some (inr m) /\
  (forall pp_cb, addr_msg_parser pp_cb lcache (nm_nlh m) hp = ('(o, err) ← pp_cb o; r ← rtnl_addr_put (Some o); mret (err, r)) h') /\
  parsed user luser l ls h' o /\ ce_msgtype o = cmd /\ ifaddr_view h' o = received (sent (ifaddr_view h t)) /\
  (consistent (ifaddr_view h t) -> ifaddr_view h' o = normal (ifaddr_view h t)).
Proof.
  intros Ho Hs Hcmd Hh Hl Hlc. destruct (build_addr_msg_ok h t cmd flags Ho Hs) as (m & Em & Hsz & _ & Hm). exists m.
  destruct (addr_parse_holds memory user luser l ls lcache _ hp cmd m _ (sent_ok h t Ho Hs) Hh Hl Hlc ltac:(lia) (type_field _ _ _ _ Hm Hcmd) Hm) as (o & h' & H1 & H2 & H3 & H4).
  exists o, h'. split_and!; [done..|]. intros Hv. rewrite H4. apply received_sent; [done|]. cbn [ifaddr_view v_flags]. unfold att. intros f. destruct (has _ _); [|done]. intros [= <-]. apply Ho.
Qed.

End RoundTrip.



(** ** Addresses as objects of a cache *)

Definition addr_compared (flags : Z) (x y : ifaddr_value) : list (Z * bool) :=
  [(ADDR_ATTR_IFINDEX, bool_decide (v_ifindex x = v_ifindex y)); (ADDR_ATTR_FAMILY, bool_decide (v_family x = v_family y));
   (ADDR_ATTR_SCOPE, bool_decide (v_scope x = v_scope y)); (ADDR_ATTR_LABEL, bool_decide (v_label x = v_label y));
   (ADDR_ATTR_PEER, same_addr (v_peer x) (v_peer y)); (ADDR_ATTR_LOCAL, same_addr (v_local x) (v_local y));
   (ADDR_ATTR_MULTICAST, same_addr (v_multicast x) (v_multicast y)); (ADDR_ATTR_BROADCAST, same_addr (v_bcast x) (v_bcast y));
   (ADDR_ATTR_ANYCAST, same_addr (v_anycast x) (v_anycast y));
   (ADDR_ATTR_FLAGS, if negb (Z.land flags LOOSE_COMPARISON =? 0) then NlNeigh.agree (v_flag_mask y) (v_flags x) (v_flags y)
                     else bool_decide (v_flags x = v_flags y))].

Lemma addr_compare_value h a b attrs flags : ifaddr_ok h a -> ifaddr_ok h b -> ints_ok h ->
  addr_compare h a b attrs flags = Some (difference attrs (addr_compared flags (ifaddr_view h a) (ifaddr_view h b))).
Proof.
  intros Ha Hb Hi. unfold addr_compare. apply diffs_difference. unfold addr_compared.
  repeat (apply Forall2_cons; split); try (by apply Forall2_nil); try (apply field_told; by a_bit).
  - apply differ_told; [by a_bit|done].
  - apply addr_told; [by a_bit|done|apply (ok_ptrs _ _ Ha Peer)|apply (ok_ptrs _ _ Hb Peer)].
  - apply addr_told; [by a_bit|done|apply (ok_ptrs _ _ Ha Local)|apply (ok_ptrs _ _ Hb Local)].
  - apply addr_told; [by a_bit|done|apply (ok_ptrs _ _ Ha Multicast)|apply (ok_ptrs _ _ Hb Multicast)].
  - apply addr_told; [by a_bit|done|apply (ok_ptrs _ _ Ha Bcast)|apply (ok_ptrs _ _ Hb Bcast)].
  - apply addr_told; [by a_bit|done|apply (ok_ptrs _ _ Ha Anycast)|apply (ok_ptrs _ _ Hb Anycast)].
  - destruct (negb _); [apply NlNeigh.agree_told|apply field_told]; by a_bit.
Qed.

(** [oo_id_attrs] of [addr_obj_ops]. *)
Definition addr_id_attrs : Z := Z.lor (Z.lor (Z.lor ADDR_ATTR_FAMILY ADDR_ATTR_IFINDEX) ADDR_ATTR_LOCAL) ADDR_ATTR_PREFIXLEN.

Definition no_ifaddr_value : ifaddr_value := IfAddrValue None None None None None None None None None None None None 0.

(** The object type of addresses with values in place of pointers; there is no
    [oo_keygen]. *)
Definition addr_obj_ops : NlCache.nl_object_ops ifaddr_value :=
  NlCache.ObjectOps addr_size addr_id_attrs (NlCache.Content 0 no_ifaddr_value) true (Some (fun _ src => Some src))
    (Some (fun a b attrs flags => difference attrs (addr_compared flags (NlCache.ce_data a) (NlCache.ce_data b)))) None None None.

(** Two addresses of one identity: the prefix length is not compared. *)
Definition same_identity (v w : ifaddr_value) : Prop :=
  v_family v = v_family w /\ v_ifindex v = v_ifindex w /\ same_addr (v_local v) (v_local w) = true.

Lemma addr_compared_bits flags x y : Forall (fun e => one_bit (fst e)) (addr_compared flags x y).
Proof. unfold addr_compared. repeat (apply list.Forall_cons; split); try done; by a_bit. Qed.

Lemma addr_identical (a b : NlCache.nl_object ifaddr_value) : NlCache.identical (fun _ => addr_obj_ops) a b = true <->
  let x := NlCache.ce_content a in let y := NlCache.ce_content b in
  NlCache.ce_ops a = NlCache.ce_ops b /\ Z.land (NlCache.ce_mask x) addr_id_attrs = addr_id_attrs /\ Z.land (NlCache.ce_mask y) addr_id_attrs = addr_id_attrs /\
  same_identity (NlCache.ce_data x) (NlCache.ce_data y).
Proof.
  cbv zeta. unfold NlCache.identical, NlCache.req_attrs. cbn [NlCache.oo_id_attrs_get NlCache.oo_compare NlCache.oo_id_attrs addr_obj_ops].
  set (v := NlCache.ce_data (NlCache.ce_content a)). set (w := NlCache.ce_data (NlCache.ce_content b)).
  destruct (Z.eqb_spec (NlCache.ce_ops a) (NlCache.ce_ops b)) as [->|]; cbn [negb]; [|naive_solver].
  change (negb (addr_id_attrs =? 0)) with true. cbn [mbind option_bind]. change (addr_id_attrs =? NlCache.UINT_MAX) with false. cbv iota.
  destruct (Z.eqb_spec (Z.land (NlCache.ce_mask (NlCache.ce_content a)) addr_id_attrs) addr_id_attrs) as [->|]; cbn [negb orb]; [|naive_solver].
  destruct (Z.eqb_spec (Z.land (NlCache.ce_mask (NlCache.ce_content b)) addr_id_attrs) addr_id_attrs) as [->|]; cbn [negb]; [|naive_solver].
  rewrite Z.eqb_eq, difference_zero by apply addr_compared_bits. unfold addr_compared, same_identity. change (negb (Z.land 0 LOOSE_COMPARISON =? 0)) with false. cbn [app].
  rewrite !list.Forall_cons, list.Forall_nil. cbn [fst snd]. rewrite !bool_decide_eq_true.
  repeat match goal with |- context [has ?x ?y] => let c := eval vm_compute in (has x y) in change (has x y) with c end. intuition (try done; try discriminate).
Qed.

#[export] Instance addr_laws : NlCacheInv.ObjectLaws (fun _ => addr_obj_ops).
Proof.
  constructor.
  - intros a b. rewrite !addr_identical. cbv zeta. intros (E & H1 & H2 & E1 & E2 & Hs). split; [done|]. split; [done|]. split; [done|]. split; [done|]. split; [done|].
    by apply same_addr_sym.
  - intros a b d. rewrite !addr_identical. cbv zeta. intros (E & H1 & H2 & E1 & E2 & Hs) (E' & H1' & H2' & E1' & E2' & Hs').
    split; [congruence|]. split; [done|]. split; [done|]. split; [congruence|]. split; [congruence|]. by eapply same_addr_trans.
  - done.
  - intros a sz Hsz. cbn. lia.
Qed.

(** An attribute that is in the mask, from what an address says. *)
Definition bit {A} (attr : Z) (x : option A) : Z := match x with Some _ => attr | None => 0 end.

Definition mask_of (v : ifaddr_value) : Z :=
  foldr Z.lor 0 [bit ADDR_ATTR_FAMILY (v_family v); bit ADDR_ATTR_PREFIXLEN (v_prefixlen v); bit ADDR_ATTR_FLAGS (v_flags v); bit ADDR_ATTR_SCOPE (v_scope v);
    bit ADDR_ATTR_IFINDEX (v_ifindex v); bit ADDR_ATTR_LABEL (v_label v); bit ADDR_ATTR_CACHEINFO (v_cacheinfo v); bit ADDR_ATTR_PEER (v_peer v);
    bit ADDR_ATTR_LOCAL (v_local v); bit ADDR_ATTR_BROADCAST (v_bcast v); bit ADDR_ATTR_MULTICAST (v_multicast v); bit ADDR_ATTR_ANYCAST (v_anycast v)].

Lemma bit_att {A} mask attr (x : A) : bit attr (att mask attr x) = if has mask attr then attr else 0.
Proof. unfold bit, att. by destruct (has _ _). Qed.

Lemma bit_slot h o s : ifaddr_ok h o -> bit (slot_attr s) (view_slot h o s) = if has (ce_mask o) (slot_attr s) then slot_attr s else 0.
Proof. intros Ho. pose proof (ok_ptrs _ _ Ho s) as Hp. unfold bit, view_slot, view_ptr, ptr_ok in *. destruct (has _ _); [|done]. by destruct Hp as (a & -> & _). Qed.

Lemma mask_bits m : 0 <= m < 4096 -> m = foldr Z.lor 0 (map (fun k => if has m (2 ^ k) then 2 ^ k else 0) [0; 1; 2; 3; 4; 5; 6; 7; 8; 9; 10; 11]).
Proof.
  intros Hm. assert (forall k n, 0 <= k -> Z.testbit (if has m (2 ^ k) then 2 ^ k else 0) n = (k =? n) && Z.testbit m n) as Hk.
  { intros k n Hk. rewrite has_bit by done. destruct (Z.eqb_spec k n) as [<-|Hne]; cbn [andb].
    - destruct (Z.testbit m k) eqn:E; [by rewrite Z.pow2_bits_true|by rewrite Z.bits_0].
    - destruct (Z.testbit m k); [by rewrite Z.pow2_bits_false|by rewrite Z.bits_0]. }
  apply Z.bits_inj'. intros n Hn. cbn [map foldr]. rewrite !Z.lor_spec, Z.bits_0, !Hk by lia. destruct (Z.testbit m n) eqn:E; [|by rewrite !andb_false_r].
  rewrite !andb_true_r. assert (n < 12) as H12; [|repeat (destruct (Z.eqb_spec _ n); [done|]; cbn [orb]); lia].
  destruct (Z.lt_ge_cases n 12) as [|Hge]; [done|]. destruct (Z.eq_dec m 0) as [->|]; [by rewrite Z.bits_0 in E|].
  rewrite Z.bits_above_log2 in E; [done|lia|]. apply (Z.lt_le_trans _ 12); [|done]. apply Z.log2_lt_pow2; lia.
Qed.

Lemma ifaddr_mask h o : ifaddr_ok h o -> ce_mask o = mask_of (ifaddr_view h o).
Proof.
  intros Ho. rewrite (mask_bits (ce_mask o)) at 1 by apply Ho. unfold mask_of.
  cbn [ifaddr_view v_family v_prefixlen v_scope v_flags v_ifindex v_label v_cacheinfo v_peer v_local v_bcast v_multicast v_anycast].
  pose proof (bit_slot h o Peer Ho) as E1. pose proof (bit_slot h o Local Ho) as E2. pose proof (bit_slot h o Bcast Ho) as E3. pose proof (bit_slot h o Multicast Ho) as E4.
  pose proof (bit_slot h o Anycast Ho) as E5. cbn [slot_attr] in *. rewrite !bit_att, E1, E2, E3, E4, E5. cbn [map foldr].
  change (2 ^ 0) with ADDR_ATTR_FAMILY. change (2 ^ 1) with ADDR_ATTR_PREFIXLEN. change (2 ^ 2) with ADDR_ATTR_FLAGS. change (2 ^ 3) with ADDR_ATTR_SCOPE.
  change (2 ^ 4) with ADDR_ATTR_IFINDEX. change (2 ^ 5) with ADDR_ATTR_LABEL. change (2 ^ 6) with ADDR_ATTR_CACHEINFO. change (2 ^ 7) with ADDR_ATTR_PEER.
  change (2 ^ 8) with ADDR_ATTR_LOCAL. change (2 ^ 9) with ADDR_ATTR_BROADCAST. change (2 ^ 10) with ADDR_ATTR_MULTICAST. change (2 ^ 11) with ADDR_ATTR_ANYCAST. reflexivity.
Qed.

(** Addresses can be kept in a cache: the object type keeps the promises the
    cache is proved against, and the comparison computed from the objects on
    the heap is that of the values they stand for, attribute by attribute; a
    loose comparison looks at the flags that were touched. *)
Theorem addr_is_cache_object : NlCacheInv.ObjectLaws (fun _ => addr_obj_ops) /\
  forall h a b attrs flags, ifaddr_ok h a -> ifaddr_ok h b -> ints_ok h ->
  addr_compare h a b attrs flags = Some (difference attrs (addr_compared flags (ifaddr_view h a) (ifaddr_view h b))) /\
  ce_mask a = mask_of (ifaddr_view h a).
Proof. split; [apply addr_laws|]. intros h a b attrs flags Ha Hb Hi. split; [by apply addr_compare_value|by apply ifaddr_mask]. Qed.

(** ** Setters *)

(** What the fields of an address say; addresses are pointers, because other
    objects may have them. *)
Record shape := Shape {
  s_family : option Z;
  s_prefixlen : option Z;
  s_scope : option Z;
  s_flags : option Z;
  s_ifindex : option Z;
  s_label : option bytes;
  s_cacheinfo : option rtnl_addr_cacheinfo;
  s_peer : option positive;
  s_local : option positive;
  s_bcast : option positive;
  s_multicast : option positive;
  s_anycast : option positive;
  s_flag_mask : Z;
  s_link : option positive
}.

Definition shape_of (o : ifaddr) : shape :=
  let m := ce_mask o in
  let x := ce_data o in
  Shape (att m ADDR_ATTR_FAMILY (a_family x)) (att m ADDR_ATTR_PREFIXLEN (a_prefixlen x)) (att m ADDR_ATTR_SCOPE (a_scope x))
    (att m ADDR_ATTR_FLAGS (a_flags x)) (att m ADDR_ATTR_IFINDEX (a_ifindex x)) (att m ADDR_ATTR_LABEL (cstr (a_label x)))
    (att m ADDR_ATTR_CACHEINFO (a_cacheinfo x)) (a_peer x) (a_local x) (a_bcast x) (a_multicast x) (a_anycast x) (a_flag_mask x) (a_link x).

(** The calls of a user. *)
Inductive addr_op :=
  | SetLabel (s : bytes) | SetIfindex (v : Z) | SetLink (p : positive) | SetFamily (v : Z) | SetPrefixlen (v : Z) | SetScope (v : Z)
  | SetFlags (v : Z) | UnsetFlags (v : Z) | SetAddr (s : slot) (p : option positive) | SetValid (v : Z) | SetPreferred (v : Z).

Definition set_addr (s : slot) : ifaddr -> option positive -> H (ifaddr * Z) :=
  match s with
  | Peer => rtnl_addr_set_peer | Local => rtnl_addr_set_local | Bcast => rtnl_addr_set_broadcast | Multicast => rtnl_addr_set_multicast
  | Anycast => rtnl_addr_set_anycast
  end.

Definition run_op (op : addr_op) (o : ifaddr) : H (ifaddr * Z) :=
  match op with
  | SetLabel s => mret (rtnl_addr_set_label o s)
  | SetIfindex v => mret (rtnl_addr_set_ifindex o v, 0)
  | SetLink p => o ← rtnl_addr_set_link o (Some p); mret (o, 0)
  | SetFamily v => mret (rtnl_addr_set_family o v, 0)
  | SetPrefixlen v => o ← rtnl_addr_set_prefixlen o v; mret (o, 0)
  | SetScope v => mret (rtnl_addr_set_scope o v, 0)
  | SetFlags v => mret (rtnl_addr_set_flags o v, 0)
  | UnsetFlags v => mret (rtnl_addr_unset_flags o v, 0)
  | SetAddr s p => set_addr s o p
  | SetValid v => mret (rtnl_addr_set_valid_lifetime o v, 0)
  | SetPreferred v => mret (rtnl_addr_set_preferred_lifetime o v, 0)
  end.

(** The results are collected. *)
Fixpoint run_ops (ops : list addr_op) (o : ifaddr) : H (ifaddr * list Z) :=
  match ops with
  | [] => mret (o, [])
  | op :: ops' => '(o, err) ← run_op op o; '(o, errs) ← run_ops ops' o; mret (o, err :: errs)
  end.

(** What the calls mean.  The values of the addresses are a table, which the
    prefix length is written to. *)
Definition table_of : Type := positive -> addr_value.

Definition with_prefix (p : positive) (n : Z) (ad : table_of) : table_of :=
  fun q => if decide (q = p) then AddrValue (av_family (ad q)) n (av_bytes (ad q)) else ad q.

Definition shape_prefix (n : Z) (x : shape * table_of) : shape * table_of :=
  let '(Shape fam _ sc fl idx lab ci pe lo bc mc ac fm lk, ad) := x in
  (Shape fam (if n =? 0 then None else Some (u8 n)) sc fl idx lab ci pe lo bc mc ac fm lk,
   match pe, lo with Some p, _ | None, Some p => with_prefix p n ad | None, None => ad end).

Definition shape_get (s : slot) : shape -> option positive :=
  match s with Peer => s_peer | Local => s_local | Bcast => s_bcast | Multicast => s_multicast | Anycast => s_anycast end.

Definition shape_set (s : slot) (p : option positive) (x : shape) : shape :=
  let '(Shape fam pl sc fl idx lab ci pe lo bc mc ac fm lk) := x in
  match s with
  | Peer => Shape fam pl sc fl idx lab ci p lo bc mc ac fm lk
  | Local => Shape fam pl sc fl idx lab ci pe p bc mc ac fm lk
  | Bcast => Shape fam pl sc fl idx lab ci pe lo p mc ac fm lk
  | Multicast => Shape fam pl sc fl idx lab ci pe lo bc p ac fm lk
  | Anycast => Shape fam pl sc fl idx lab ci pe lo bc mc p fm lk
  end.

Definition shape_family (v : Z) (x : shape) : shape :=
  let '(Shape _ pl sc fl idx lab ci pe lo bc mc ac fm lk) := x in Shape (Some v) pl sc fl idx lab ci pe lo bc mc ac fm lk.

(** An address of another family than the one that is known is refused. *)
Definition shape_assign (ad : table_of) (s : slot) (p : option positive) (x : shape) : shape * Z :=
  match p with
  | None => (shape_set s None x, 0)
  | Some q =>
      if match s_family x with Some f => av_family (ad q) =? f | None => true end
      then (shape_set s (Some q) (shape_family (av_family (ad q)) x), 0) else (x, - NLE_AF_MISMATCH)
  end.

(** The family an address of this kind must have. *)
Definition slot_family (s : slot) : option Z :=
  match s with Local => None | Peer | Bcast => Some NlAddr.AF_INET | Multicast | Anycast => Some NlAddr.AF_INET6 end.

Definition ptr_prefix (ad : table_of) (p : option positive) : Z := match p with Some p => av_prefixlen (ad p) | None => 0 end.

Definition shape_addr (s : slot) (p : option positive) (x : shape * table_of) : (shape * table_of) * Z :=
  let '(sh, ad) := x in
  if match slot_family s, p with Some f, Some q => negb (av_family (ad q) =? f) | _, _ => false end then (x, - NLE_AF_NOSUPPORT) else
  if match s, s_peer sh with Local, Some _ => negb (ptr_prefix ad p =? 0) | _, _ => false end then (x, - NLE_INVAL) else
  let '(sh', err) := shape_assign ad s p sh in
  if negb (err =? 0) then (x, err) else
  match s with
  | Peer => (shape_prefix (ptr_prefix ad p) (sh', ad), 0)
  | Local => (match s_peer sh with Some _ => (sh', ad) | None => shape_prefix (ptr_prefix ad p) (sh', ad) end, 0)
  | _ => ((sh', ad), 0)
  end.

Definition shape_op (lidx : positive -> Z) (op : addr_op) (x : shape * table_of) : (shape * table_of) * Z :=
  let '(sh, ad) := x in
  let '(Shape fam pl sc fl idx lab ci pe lo bc mc ac fm lk) := sh in
  let old := default (CacheInfo 0 0 0 0) ci in
  match op with
  | SetLabel s => if strlen s >? IFNAMSIZ - 1 then (x, - NLE_RANGE) else ((Shape fam pl sc fl idx (Some (cstr s)) ci pe lo bc mc ac fm lk, ad), 0)
  | SetIfindex v => ((Shape fam pl sc fl (Some (u32 v)) lab ci pe lo bc mc ac fm lk, ad), 0)
  | SetLink p => ((Shape fam pl sc fl (Some (lidx p)) lab ci pe lo bc mc ac fm (Some p), ad), 0)
  | SetFamily v => ((Shape (Some (u8 v)) pl sc fl idx lab ci pe lo bc mc ac fm lk, ad), 0)
  | SetPrefixlen v => (shape_prefix v x, 0)
  | SetScope v => ((Shape fam pl (Some (u8 v)) fl idx lab ci pe lo bc mc ac fm lk, ad), 0)
  | SetFlags v => ((Shape fam pl sc (Some (Z.lor (default 0 fl) (u32 v))) idx lab ci pe lo bc mc ac (Z.lor fm (u32 v)) lk, ad), 0)
  | UnsetFlags v => ((Shape fam pl sc (Some (Z.ldiff (default 0 fl) (u32 v))) idx lab ci pe lo bc mc ac (Z.lor fm (u32 v)) lk, ad), 0)
  | SetAddr s p => shape_addr s p x
  | SetValid v => ((Shape fam pl sc fl idx lab (Some (CacheInfo (aci_prefered old) (u32 v) (aci_cstamp old) (aci_tstamp old))) pe lo bc mc ac fm lk, ad), 0)
  | SetPreferred v => ((Shape fam pl sc fl idx lab (Some (CacheInfo (u32 v) (aci_valid old) (aci_cstamp old) (aci_tstamp old))) pe lo bc mc ac fm lk, ad), 0)
  end.

Fixpoint shape_ops (lidx : positive -> Z) (ops : list addr_op) (x : shape * table_of) : (shape * table_of) * list Z :=
  match ops with
  | [] => (x, [])
  | op :: ops' => let '(x, err) := shape_op lidx op x in let '(x, errs) := shape_ops lidx ops' x in (x, err :: errs)
  end.

Lemma has_ldiff m a b : one_bit b -> has (Z.ldiff m a) b = has m b && negb (has a b).
Proof. intros (k & Hk & ->). by rewrite !has_bit, Z.ldiff_spec. Qed.

Lemma slot_bit s : one_bit (slot_attr s).
Proof. destruct s; by a_bit. Qed.

Lemma ldiff_range x y : 0 <= x < 4096 -> 0 <= y -> 0 <= Z.ldiff x y < 4096.
Proof.
  intros Hx Hy. split; [apply Z.ldiff_nonneg; lia|]. pose proof (proj2 (Z.ldiff_nonneg x y) ltac:(lia)). destruct (Z.eq_dec (Z.ldiff x y) 0) as [->|]; [lia|].
  destruct (Z.eq_dec x 0) as [->|]; [by rewrite Z.ldiff_0_l in *|]. change 4096 with (2 ^ 12). apply Z.log2_lt_pow2; [lia|].
  pose proof (Z.log2_lt_pow2 x 12 ltac:(lia)) as Hlx. assert (Z.log2 x < 12) by (apply Hlx; lia).
  destruct (Z.lt_ge_cases (Z.log2 (Z.ldiff x y)) 12) as [|Hge]; [done|]. pose proof (Z.bit_log2 (Z.ldiff x y) ltac:(lia)) as Hb. rewrite Z.ldiff_spec in Hb.
  rewrite (Z.bits_above_log2 x) in Hb by lia. done.
Qed.

(** The object, its references, the values of the addresses and the indices of
    the links. *)
Record good (user luser : positive -> Z) (l ls : list (option positive)) (lidx : positive -> Z) (ad : table_of) (h : heap) (o : ifaddr) : Prop := {
  g_ok : ifaddr_ok h o;
  g_heap : heap_ok user (addr_ptrs (ce_data o) ++ l) h;
  g_links : link_refs luser (a_link (ce_data o) :: ls) h;
  g_values : values_ok ad h;
  g_ints : forall p, NlAddr.int_ok (av_prefixlen (ad p));
  g_index : forall p k, h_links h !! p = Some k -> l_index k = lidx p /\ 0 <= lidx p < 2 ^ 32;
  g_no_ci : has (ce_mask o) ADDR_ATTR_CACHEINFO = false -> a_cacheinfo (ce_data o) = CacheInfo 0 0 0 0
}.

(** The user holds what is passed. *)
Definition op_ok (user luser : positive -> Z) (l ls : list (option positive)) (op : addr_op) : Prop :=
  match op with
  | SetAddr _ (Some p) => 1 <= user p /\ user p + refs l p < INT_MAX - 5
  | SetLink p => 1 <= luser p /\ luser p + refs ls p < INT_MAX - 2
  | SetPrefixlen v => NlAddr.int_ok v
  | SetLabel s => Forall byte_ok s
  | _ => True
  end.

Lemma refs_app l1 l2 p : refs (l1 ++ l2) p = refs l1 p + refs l2 p.
Proof. unfold refs, zlen. rewrite filter_app, length_app. lia. Qed.

Lemma others_refs s x p : refs (others s x) p <= 4.
Proof.
  unfold refs, zlen. etransitivity; [apply inj_le, length_filter|]. by destruct s.
Qed.

(** Well-formedness when pointers, the family and the mask change. *)
Lemma ifaddr_ok_change h h' o o' : ifaddr_ok h o -> 0 <= ce_mask o' < 4096 -> scalars (ce_data o') = set_a_family (a_family (ce_data o')) (scalars (ce_data o)) ->
  0 <= a_family (ce_data o') < 256 -> (has (ce_mask o') ADDR_ATTR_FAMILY = false -> a_family (ce_data o') = 0) ->
  (forall attr, attr = ADDR_ATTR_PREFIXLEN \/ attr = ADDR_ATTR_FLAGS \/ attr = ADDR_ATTR_IFINDEX -> has (ce_mask o') attr = has (ce_mask o) attr) ->
  (forall s, ptr_ok h' (ce_mask o') (slot_attr s) (get s (ce_data o'))) -> ifaddr_ok h' o'.
Proof.
  intros [] Hm E Hf Hn Hsame Hp. unfold scalars, set_a_family in E.
  cbn [a_family a_prefixlen a_scope a_flags a_ifindex a_peer a_local a_bcast a_anycast a_multicast a_cacheinfo a_label a_flag_mask a_link] in E.
  injection E as E1 E2 E3 E4 E5 E6 _. constructor; try done; rewrite ?E1, ?E2, ?E3, ?E4, ?E5, ?E6; rewrite ?Hsame by auto; done.
Qed.

(** An address that is held by the user gets into a slot. *)
Lemma hold_slot user l h h' o s q ad : ifaddr_ok h o -> keeps h h' -> heap_ok user (Some q :: others s (ce_data o) ++ l) h' -> values_ok ad h' ->
  (exists a, h_addrs h' !! q = Some a /\ addr_ok a) /\ forall s', s' <> s -> ptr_ok h' (ce_mask o) (slot_attr s') (get s' (ce_data o)).
Proof.
  intros Ho K Hh Hv. split.
  - destruct (heap_ok_alive _ _ _ q Hh) as (a & Ea & _); [destruct Hh as [Hu _]; specialize (Hu q); pose proof (refs_in _ q (list_elem_of_here (Some q) (others s (ce_data o) ++ l))); lia|].
    exists a. split; [done|]. by apply (Hv q a).
  - intros s' Hne. destruct (ptrs_keep _ _ _ h' _ _ _ (ok_ptrs _ _ Ho s') K Hh) as [Hp _]; [|exact Hp]. apply elem_of_cons. right. apply elem_of_app. left. by apply others_in.
Qed.

Lemma keeps_links h h' : keeps h h' -> h_links h' = h_links h.
Proof. by intros [E _]. Qed.

Lemma set_scalars s p x : scalars (set s p x) = scalars x.
Proof. by destruct s. Qed.

Lemma set_link s p x : a_link (set s p x) = a_link x.
Proof. by destruct s. Qed.

Lemma set_cacheinfo s p x : a_cacheinfo (set s p x) = a_cacheinfo x.
Proof. by destruct s. Qed.

(** The shape of an object with another mask and a pointer. *)
Lemma shape_of_set s p o o' : ce_data o' = set s p (ce_data o) ->
  (forall attr, one_bit attr -> (forall s, has (slot_attr s) attr = false) -> has (ce_mask o') attr = has (ce_mask o) attr) -> shape_of o' = shape_set s p (shape_of o).
Proof.
  intros E Hm. unfold shape_of, att. rewrite E, !(Hm ADDR_ATTR_FAMILY), !(Hm ADDR_ATTR_PREFIXLEN), !(Hm ADDR_ATTR_SCOPE), !(Hm ADDR_ATTR_FLAGS), !(Hm ADDR_ATTR_IFINDEX), !(Hm ADDR_ATTR_LABEL),
    !(Hm ADDR_ATTR_CACHEINFO) by (by a_bit || by intros []). by destruct s.
Qed.

Section Setters.
Context (user luser : positive -> Z) (l ls : list (option positive)) (lidx : positive -> Z).
Abbreviation good := (good user luser l ls lidx).

Lemma assign_none ad h o s : good ad h o -> exists h', __assign_addr o (get s) (set s) None (slot_attr s) h =
    Some (Object (ce_refcnt o) (ce_msgtype o) (Z.ldiff (ce_mask o) (slot_attr s)) (set s None (ce_data o)), 0, h') /\
  good ad h' (Object (ce_refcnt o) (ce_msgtype o) (Z.ldiff (ce_mask o) (slot_attr s)) (set s None (ce_data o))).
Proof.
  intros [Ho Hh Hl Hv Hi Hx Hc]. rewrite (heap_ok_slot s) in Hh. destruct (addr_put_ok _ _ _ _ Hh) as (h' & E & Hh' & K). exists h'. unfold __assign_addr.
  rewrite (hbind_run _ _ _ _ _ E). split; [done|]. pose proof (keeps_links _ _ K) as Kl. constructor; cbn [ce_data ce_mask].
  - apply (ifaddr_ok_change h h' o); cbn [ce_data ce_mask]; [done|apply ldiff_range; [apply Ho|apply slot_range]|..].
    + by destruct s.
    + destruct s; apply Ho.
    + rewrite has_ldiff by a_bit. replace (has (slot_attr s) ADDR_ATTR_FAMILY) with false by (by destruct s). cbn [negb]. rewrite andb_true_r. destruct s; apply Ho.
    + intros attr Ha. rewrite has_ldiff by (destruct Ha as [->|[->| ->] ]; a_bit). replace (has (slot_attr s) attr) with false by (destruct s; by destruct Ha as [->|[->| ->] ]). apply andb_true_r.
    + intros s'. rewrite get_set. unfold ptr_ok. rewrite has_ldiff, slot_has by apply slot_bit. destruct (decide (s' = s)) as [->|Hne].
      * rewrite bool_decide_eq_true_2 by done. cbn [negb]. by rewrite andb_false_r.
      * rewrite bool_decide_eq_false_2 by congruence. cbn [negb]. rewrite andb_true_r. destruct (ptrs_keep _ _ _ h' _ _ _ (ok_ptrs _ _ Ho s') K Hh') as [Hp _]; [|exact Hp].
        apply elem_of_app. left. by apply others_in.
  - by rewrite (heap_ok_slot s), others_set, get_set, decide_True, heap_ok_null by done.
  - rewrite set_link. by apply (link_refs_heap _ _ h).
  - by eapply values_keep.
  - done.
  - by rewrite Kl.
  - rewrite set_cacheinfo, has_ldiff by a_bit. replace (has (slot_attr s) ADDR_ATTR_CACHEINFO) with false by (by destruct s). by rewrite andb_true_r.
Qed.

(** The object with the family of the address that is assigned. *)
Definition family_set (ad : table_of) (q : positive) (o : ifaddr) : ifaddr :=
  if has (ce_mask o) ADDR_ATTR_FAMILY then o
  else Object (ce_refcnt o) (ce_msgtype o) (ce_mask o) (set_a_family (av_family (ad q)) (ce_data o)).

Lemma get_family_set ad q o s : get s (ce_data (family_set ad q o)) = get s (ce_data o).
Proof. unfold family_set. destruct (has (ce_mask o) ADDR_ATTR_FAMILY); [done|]. by destruct s. Qed.

Lemma assign_some ad h o s q : good ad h o -> 1 <= user q /\ user q + refs l q < INT_MAX - 5 ->
  let fits := match s_family (shape_of o) with Some f => av_family (ad q) =? f | None => true end in
  let o' := assign (Z.lor (slot_attr s) ADDR_ATTR_FAMILY) (set s (Some q)) (family_set ad q o) in exists h',
  __assign_addr o (get s) (set s) (Some q) (slot_attr s) h = Some (if fits then (o', 0) else (o, - NLE_AF_MISMATCH), h') /\
  good ad h' (if fits then o' else o).
Proof.
  intros [Ho Hh Hl Hv Hi Hx Hc] [Hu Hm] fits o'. destruct (heap_ok_alive _ _ _ q Hh) as (a & Ea & _); [pose proof (refs_nonneg (addr_ptrs (ce_data o) ++ l) q); lia|].
  destruct (Hv q a Ea) as (Vq & _ & Hf). assert (NlAddr.a_family a = av_family (ad q)) as Ef by (by rewrite Vq). unfold __assign_addr. rewrite (hbind_run _ _ _ _ _ (load_run _ _ _ Ea)), Ef.
  assert ((has (ce_mask o) ADDR_ATTR_FAMILY && negb (av_family (ad q) =? a_family (ce_data o))) = negb fits) as ->.
  { unfold fits. cbn [shape_of s_family]. unfold att. by destruct (has (ce_mask o) ADDR_ATTR_FAMILY). }
  destruct fits eqn:Efits; cbn [negb]; [|exists h; split; [done|by constructor]].
  assert ((if has (ce_mask o) ADDR_ATTR_FAMILY then o else Object (ce_refcnt o) (ce_msgtype o) (ce_mask o) (set_a_family (u8 (av_family (ad q))) (ce_data o))) = family_set ad q o) as ->.
  { unfold family_set. rewrite Ef in Hf. unfold u8. by rewrite wrap_id by lia. }
  rewrite (heap_ok_slot s) in Hh. destruct (replace_ptr user (others s (ce_data o) ++ l) h (get s (ce_data o)) q Hh Hu) as (h' & E & Hh' & K).
  { rewrite refs_app. pose proof (others_refs s (ce_data o) q). lia. }
  rewrite <- (get_family_set ad q o s) in E. rewrite (hseq_run _ _ _ _ _ E). exists h'. split; [done|]. pose proof (keeps_links _ _ K) as Kl. pose proof (values_keep _ _ _ Hv K) as Hv'.
  destruct (hold_slot user l h h' o s q ad Ho K Hh' Hv') as [(b & Eb & Hb) Hothers].
  assert (forall attr, has ADDR_ATTR_FAMILY attr = false -> has (ce_mask o') attr = has (ce_mask o) attr || has (slot_attr s) attr) as Hbits.
  { intros attr Ha. unfold o', family_set. destruct (has (ce_mask o) ADDR_ATTR_FAMILY); cbn [assign ce_mask]; by rewrite !has_lor, Ha, orb_false_r. }
  assert (forall s', get s' (ce_data o') = if decide (s' = s) then Some q else get s' (ce_data o)) as Hget.
  { intros s'. unfold o'. cbn [assign ce_data]. by rewrite get_set, get_family_set. }
  constructor.
  - apply (ifaddr_ok_change h h' o); [done|..].
    + unfold o'. cbn [assign ce_mask]. apply lor_range; [unfold family_set; destruct (has (ce_mask o) ADDR_ATTR_FAMILY); apply Ho|apply lor_range; [apply slot_range|done]].
    + unfold o'. cbn [assign ce_data]. rewrite set_scalars. unfold family_set. destruct (has (ce_mask o) ADDR_ATTR_FAMILY); by destruct s.
    + unfold o'. cbn [assign ce_data]. destruct s; unfold family_set; destruct (has (ce_mask o) ADDR_ATTR_FAMILY); cbn; first [apply Ho|lia].
    + intros C. exfalso. unfold o' in C. cbn [assign ce_mask] in C. rewrite !has_lor in C. change (has ADDR_ATTR_FAMILY ADDR_ATTR_FAMILY) with true in C. by rewrite !orb_true_r in C.
    + intros attr Ha. rewrite Hbits by (by destruct Ha as [->|[->| ->] ]). replace (has (slot_attr s) attr) with false by (destruct s; by destruct Ha as [->|[->| ->] ]). apply orb_false_r.
    + intros s'. rewrite Hget. unfold ptr_ok. rewrite Hbits, slot_has by (by destruct s'). destruct (decide (s' = s)) as [->|Hne].
      * rewrite bool_decide_eq_true_2, orb_true_r by done. by exists b.
      * rewrite bool_decide_eq_false_2, orb_false_r by congruence. by apply Hothers.
  - rewrite (heap_ok_slot s), Hget, decide_True by done. unfold o'. cbn [assign ce_data]. rewrite others_set.
    replace (others s (ce_data (family_set ad q o))) with (others s (ce_data o)); [done|]. unfold others. apply map_ext. intros s'. symmetry. apply get_family_set.
  - unfold o'. cbn [assign ce_data]. rewrite set_link. unfold family_set. destruct (has (ce_mask o) ADDR_ATTR_FAMILY); by apply (link_refs_heap _ _ h).
  - done.
  - done.
  - by rewrite Kl.
  - rewrite Hbits by done. replace (has (slot_attr s) ADDR_ATTR_CACHEINFO) with false by (by destruct s). rewrite orb_false_r. intros C. unfold o'. cbn [assign ce_data].
    rewrite set_cacheinfo. unfold family_set. destruct (has (ce_mask o) ADDR_ATTR_FAMILY); by apply Hc.
Qed.

(** The prefix length in the object. *)
Definition prefix_set (n : Z) (o : ifaddr) : ifaddr :=
  Object (ce_refcnt o) (ce_msgtype o) (if n =? 0 then Z.ldiff (ce_mask o) ADDR_ATTR_PREFIXLEN else Z.lor (ce_mask o) ADDR_ATTR_PREFIXLEN)
    (set_a_prefixlen (u8 n) (ce_data o)).

Lemma prefix_set_bits n o attr : one_bit attr -> has ADDR_ATTR_PREFIXLEN attr = false -> has (ce_mask (prefix_set n o)) attr = has (ce_mask o) attr.
Proof. intros Hb Ha. cbn [prefix_set ce_mask]. destruct (n =? 0); [by rewrite has_ldiff, Ha, andb_true_r|by rewrite has_lor, Ha, orb_false_r]. Qed.

Lemma prefix_set_good ad h o n : good ad h o -> good ad h (prefix_set n o).
Proof.
  intros [Ho Hh Hl Hv Hi Hx Hc]. assert (forall attr, one_bit attr -> has ADDR_ATTR_PREFIXLEN attr = false -> has (ce_mask (prefix_set n o)) attr = has (ce_mask o) attr) as Hbits
    by (intros; by apply prefix_set_bits).
  assert (0 <= u8 n < 256) by (by apply wrap_range). constructor; [|exact Hh|exact Hl|exact Hv|exact Hi|exact Hx|].
  - assert (forall s, ptr_ok h (ce_mask (prefix_set n o)) (slot_attr s) (get s (ce_data (prefix_set n o)))) as Hp.
    { intros s. pose proof (ok_ptrs _ _ Ho s) as Hp. unfold ptr_ok in *. rewrite Hbits by (apply slot_bit || by destruct s). by destruct s. }
    destruct Ho. constructor; [..|exact Hp]; cbn [prefix_set ce_data]; addr_fields; try assumption; rewrite ?Hbits by (by a_bit || done); try assumption.
    + cbn [prefix_set ce_mask]. destruct (n =? 0); [by apply ldiff_range|by apply lor_range].
    + cbn [prefix_set ce_mask]. destruct (Z.eqb_spec n 0) as [->|]; [done|]. rewrite has_lor. change (has ADDR_ATTR_PREFIXLEN ADDR_ATTR_PREFIXLEN) with true. by rewrite orb_true_r.
  - rewrite Hbits by (by a_bit || done). done.
Qed.

Lemma prefix_set_shape n o : shape_of (prefix_set n o) = fst (shape_prefix n (shape_of o, fun _ => AddrValue 0 0 [])).
Proof.
  unfold shape_of, att. rewrite (prefix_set_bits n o ADDR_ATTR_FAMILY), (prefix_set_bits n o ADDR_ATTR_SCOPE), (prefix_set_bits n o ADDR_ATTR_FLAGS),
    (prefix_set_bits n o ADDR_ATTR_IFINDEX), (prefix_set_bits n o ADDR_ATTR_LABEL), (prefix_set_bits n o ADDR_ATTR_CACHEINFO) by (by a_bit || done). cbn [prefix_set ce_mask ce_data shape_prefix fst]. f_equal.
  destruct (n =? 0); [by rewrite has_ldiff, andb_false_r by a_bit|by rewrite has_lor, orb_true_r].
Qed.

(** The prefix length of an address on the heap. *)
Lemma prefix_heap_good ad h o p n : good ad h o -> NlAddr.int_ok n -> Some p ∈ addr_ptrs (ce_data o) -> exists h', addr_set_prefixlen p n h = Some (tt, h') /\
  good (with_prefix p n ad) h' o.
Proof.
  intros [Ho Hh Hl Hv Hi Hx Hc] Hn Hp. destruct (heap_ok_alive _ _ _ p Hh) as (a & Ea & _).
  { destruct Hh as [Hu _]. specialize (Hu p). assert (Some p ∈ addr_ptrs (ce_data o) ++ l) as Hin by (apply elem_of_app; by left). apply refs_in in Hin. lia. }
  destruct (Hv p a Ea) as (Vp & Ha & Hf). eexists. split; [by apply addr_set_prefixlen_run|]. constructor; [| |exact Hl| | |exact Hx|exact Hc].
  - apply (ifaddr_ok_heap h); [done|]. intros s. apply ptr_update; [apply (ok_ptrs _ _ Ho)|done].
  - by apply (heap_ok_update _ _ _ _ a).
  - intros q b. cbn [h_addrs]. unfold with_prefix. destruct (decide (q = p)) as [->|Hq]; [|rewrite lookup_insert_ne by done; apply Hv].
    rewrite lookup_insert_eq. intros [= <-]. rewrite Vp. split; [done|]. split; [exact Ha|exact Hf].
  - intros q. unfold with_prefix. destruct (decide _); [done|apply Hi].
Qed.

Lemma prefix_refines ad h o n : good ad h o -> NlAddr.int_ok n -> exists h', rtnl_addr_set_prefixlen o n h = Some (prefix_set n o, h') /\
  let '(sh, ad') := shape_prefix n (shape_of o, ad) in shape_of (prefix_set n o) = sh /\ good ad' h' (prefix_set n o).
Proof.
  intros Hg Hn. pose proof (prefix_set_good ad h o n Hg) as Hg'. pose proof (prefix_set_shape n o) as Hs. unfold rtnl_addr_set_prefixlen. fold (prefix_set n o).
  cbn [shape_prefix shape_of fst] in Hs. cbn [shape_prefix shape_of]. cbn [prefix_set ce_data set_a_prefixlen a_peer a_local].
  assert (forall s p, get s (ce_data o) = Some p -> Some p ∈ addr_ptrs (ce_data (prefix_set n o))) as Hin.
  { intros s p E. rewrite <- E. unfold addr_ptrs. apply list_elem_of_fmap. exists s. split; [by destruct s|by destruct s; set_solver]. }
  destruct (a_peer (ce_data o)) as [p|] eqn:Ep; [|destruct (a_local (ce_data o)) as [p|] eqn:El; [|by exists h] ].
  - destruct (prefix_heap_good ad h (prefix_set n o) p n Hg' Hn (Hin Peer p Ep)) as (h' & E & G). exists h'. by rewrite (hbind_run _ _ _ _ _ E).
  - destruct (prefix_heap_good ad h (prefix_set n o) p n Hg' Hn (Hin Local p El)) as (h' & E & G). exists h'. by rewrite (hbind_run _ _ _ _ _ E).
Qed.

(** The user holds an address that is passed. *)
Definition held_ptr (p : option positive) : Prop := match p with Some q => 1 <= user q /\ user q + refs l q < INT_MAX - 5 | None => True end.

Lemma held_load ad h o q : good ad h o -> held_ptr (Some q) -> exists a, load q h = Some (a, h) /\ addr_view a = ad q /\ 0 <= NlAddr.a_family a < 256.
Proof.
  intros [Ho Hh Hl Hv Hi Hx Hc] [Hu Hm]. destruct (heap_ok_alive _ _ _ q Hh) as (a & Ea & _); [pose proof (refs_nonneg (addr_ptrs (ce_data o) ++ l) q); lia|].
  destruct (Hv q a Ea) as (Vq & _ & Hf). exists a. split; [by apply load_run|done].
Qed.

Lemma assign_refines ad h o s p : good ad h o -> held_ptr p -> exists o' err h', __assign_addr o (get s) (set s) p (slot_attr s) h = Some (o', err, h') /\
  (shape_of o', err) = shape_assign ad s p (shape_of o) /\ good ad h' o' /\ ce_refcnt o' = ce_refcnt o /\ err <= 0.
Proof.
  intros Hg Hp. destruct p as [q|].
  - destruct (assign_some ad h o s q Hg Hp) as (h' & E & G). cbv zeta in E, G. cbn [shape_assign].
    destruct (match s_family (shape_of o) with Some f => av_family (ad q) =? f | None => true end) eqn:Ef.
    + eexists _, _, h'. split; [exact E|]. split_and!; [|done|by unfold family_set; destruct (has (ce_mask o) ADDR_ATTR_FAMILY)|done].
      f_equal. rewrite (shape_of_set s (Some q) (assign ADDR_ATTR_FAMILY (fun x => x) (family_set ad q o))); cbn [assign ce_data ce_mask]; [|done|].
      * f_equal. unfold shape_of, att in *. cbn [s_family] in Ef. unfold family_set. destruct (has (ce_mask o) ADDR_ATTR_FAMILY) eqn:C; cbn [assign ce_mask ce_data set_a_family]; addr_fields; known_bits; rewrite ?C;
          cbn [shape_family]; f_equal. f_equal. lia.
      * intros attr _ Ha. by rewrite !has_lor, Ha, orb_false_l.
    + eexists _, _, h'. split; [exact E|]. by split_and!.
  - destruct (assign_none ad h o s Hg) as (h' & E & G). eexists _, _, h'. split; [exact E|]. split_and!; [|done|done|done]. cbn [shape_assign]. f_equal.
    apply shape_of_set; [done|]. intros attr Hb Ha. cbn [ce_mask]. by rewrite has_ldiff, Ha, andb_true_r.
Qed.

Lemma family_is_run ad h o f p : good ad h o -> held_ptr p -> family_is f p h = Some (match p with Some q => av_family (ad q) =? f | None => true end, h).
Proof.
  intros Hg Hp. destruct p as [q|]; [|done]. destruct (held_load ad h o q Hg Hp) as (a & E & V & _). cbn [family_is]. rewrite (hbind_run _ _ _ _ _ E), <- V. done.
Qed.

Lemma prefix_of_run ad h o p : good ad h o -> held_ptr p -> prefix_of p h = Some (u32 (ptr_prefix ad p), h).
Proof.
  intros Hg Hp. destruct p as [q|]; [|done]. destruct (held_load ad h o q Hg Hp) as (a & E & V & _). cbn [prefix_of]. rewrite (hbind_run _ _ _ _ _ E). cbn [ptr_prefix]. by rewrite <- V.
Qed.

Lemma int_prefix ad h o p : good ad h o -> NlAddr.int_ok (ptr_prefix ad p) /\ s32 (u32 (ptr_prefix ad p)) = ptr_prefix ad p /\ (u32 (ptr_prefix ad p) =? 0) = (ptr_prefix ad p =? 0).
Proof.
  intros Hg. assert (NlAddr.int_ok (ptr_prefix ad p)) as Hi by (destruct p as [q|]; [apply (g_ints _ _ _ _ _ _ _ _ Hg)|done]). split; [done|]. unfold NlAddr.int_ok, INT_MIN, INT_MAX in Hi.
  split; [unfold u32, wrap, s32, swrap; change (32 - 1) with 31; Z.to_euclidean_division_equations; lia|].
  apply eq_true_iff_eq. rewrite !Z.eqb_eq. unfold u32, wrap. Z.to_euclidean_division_equations. lia.
Qed.

Lemma has_peer h o : ifaddr_ok h o -> has (ce_mask o) ADDR_ATTR_PEER = match a_peer (ce_data o) with Some _ => true | None => false end.
Proof. intros Ho. pose proof (ok_ptrs _ _ Ho Peer) as Hp. unfold ptr_ok in Hp. cbn [slot_attr get] in Hp. destruct (has _ _); [|by rewrite Hp]. destruct Hp as (a & Ea & _). by destruct (a_peer (ce_data o)). Qed.

(** An address that is refused changes nothing. *)
Lemma shape_assign_err ad s p x y err : (y, err) = shape_assign ad s p x -> err <> 0 -> y = x.
Proof. destruct p as [q|]; cbn [shape_assign]; [|intros [= _ ->]; done]. destruct (match s_family x with Some f => _ | None => true end); by intros [= -> ->]. Qed.

(** What a call does, and what it means. *)
Definition refined (ad : table_of) (h : heap) (o : ifaddr) (run : H (ifaddr * Z)) (means : (shape * table_of) * Z) : Prop :=
  exists o' err h', run h = Some (o', err, h') /\ shape_of o' = means.1.1 /\ err = means.2 /\ good means.1.2 h' o' /\ ce_refcnt o' = ce_refcnt o.

(** The prefix length is taken over behind an assignment. *)
Lemma then_prefix ad h o p : good ad h o -> held_ptr p ->
  refined ad h o (n ← prefix_of p; o ← rtnl_addr_set_prefixlen o (s32 n); mret (o, 0)) (shape_prefix (ptr_prefix ad p) (shape_of o, ad), 0).
Proof.
  intros Hg Hp. destruct (int_prefix ad h o p Hg) as (Hi & Es & _). unfold refined. rewrite (hbind_run _ _ _ _ _ (prefix_of_run ad h o p Hg Hp)), Es.
  destruct (prefix_refines ad h o (ptr_prefix ad p) Hg Hi) as (h' & E & G). rewrite (hbind_run _ _ _ _ _ E). destruct (shape_prefix _ _) as [sh ad'] eqn:Esp. destruct G as [G1 G2].
  eexists _, _, h'. split; [done|]. cbn [fst snd]. by split_and!.
Qed.

Lemma assign_slot_refines ad h o s p : good ad h o -> held_ptr p -> s = Bcast \/ s = Multicast \/ s = Anycast -> forall f, slot_family s = Some f ->
  refined ad h o (ok ← family_is f p; if negb ok then mret (o, - NLE_AF_NOSUPPORT) else __assign_addr o (get s) (set s) p (slot_attr s)) (shape_addr s p (shape_of o, ad)).
Proof.
  intros Hg Hp Hs f Ef. unfold refined, shape_addr. rewrite (hbind_run _ _ _ _ _ (family_is_run ad h o f p Hg Hp)), Ef.
  assert ((match p with Some q => negb (av_family (ad q) =? f) | None => false end) = negb (match p with Some q => av_family (ad q) =? f | None => true end)) as -> by (by destruct p).
  destruct (negb _); [by eexists _, _, h|]. replace (match s, s_peer (shape_of o) with Local, Some _ => negb (ptr_prefix ad p =? 0) | _, _ => false end) with false by (by destruct Hs as [->|[->| ->] ]).
  destruct (assign_refines ad h o s p Hg Hp) as (o' & err & h' & E & Es & G & Hr & He). rewrite <- Es. exists o', err, h'. split; [done|].
  destruct (Z.eqb_spec err 0) as [->|Hne]; cbn [negb].
  - destruct Hs as [->|[->| ->] ]; by split_and!.
  - cbn [fst snd]. pose proof (shape_assign_err _ _ _ _ _ _ Es Hne). by split_and!.
Qed.

Lemma set_peer_refines ad h o p : good ad h o -> held_ptr p -> refined ad h o (rtnl_addr_set_peer o p) (shape_addr Peer p (shape_of o, ad)).
Proof.
  intros Hg Hp. unfold refined, shape_addr, rtnl_addr_set_peer. rewrite (hbind_run _ _ _ _ _ (family_is_run ad h o NlAddr.AF_INET p Hg Hp)). cbn [slot_family].
  assert ((match p with Some q => negb (av_family (ad q) =? NlAddr.AF_INET) | None => false end) = negb (match p with Some q => av_family (ad q) =? NlAddr.AF_INET | None => true end)) as -> by (by destruct p).
  destruct (negb _); [by eexists _, _, h|].
  destruct (assign_refines ad h o Peer p Hg Hp) as (o' & err & h' & E & Es & G & Hr & He). cbn [get set slot_attr] in E. rewrite <- Es, (hbind_run _ _ _ _ _ E).
  destruct (Z.eqb_spec err 0) as [->|Hne]; cbn [negb].
  - change (0 <? 0) with false. cbv iota. destruct (then_prefix ad h' o' p G Hp) as (o2 & err & h2 & E2 & H1 & H2 & H3 & H4). exists o2, err, h2. split_and!; [done..|congruence].
  - rewrite (proj2 (Z.ltb_lt _ _)) by lia. pose proof (shape_assign_err _ _ _ _ _ _ Es Hne). exists o', err, h'. by split_and!.
Qed.

Lemma set_local_refines ad h o p : good ad h o -> held_ptr p -> refined ad h o (rtnl_addr_set_local o p) (shape_addr Local p (shape_of o, ad)).
Proof.
  intros Hg Hp. unfold refined, shape_addr, rtnl_addr_set_local. cbn [slot_family shape_of s_peer]. pose proof (has_peer h o (g_ok _ _ _ _ _ _ _ _ Hg)) as Hpe.
  destruct (int_prefix ad h o p Hg) as (_ & _ & Ez).
  assert ((if has (ce_mask o) ADDR_ATTR_PEER then prefix_of p else mret 0) h = Some (if has (ce_mask o) ADDR_ATTR_PEER then u32 (ptr_prefix ad p) else 0, h)) as E0.
  { destruct (has _ _); [by apply (prefix_of_run ad h o)|done]. }
  rewrite (hbind_run _ _ _ _ _ E0).
  assert (negb ((if has (ce_mask o) ADDR_ATTR_PEER then u32 (ptr_prefix ad p) else 0) =? 0) = match a_peer (ce_data o) with Some _ => negb (ptr_prefix ad p =? 0) | None => false end) as ->.
  { rewrite Hpe. destruct (a_peer (ce_data o)); [by rewrite Ez|done]. }
  destruct (match a_peer (ce_data o) with Some _ => negb (ptr_prefix ad p =? 0) | None => false end); [by eexists _, _, h|].
  destruct (assign_refines ad h o Local p Hg Hp) as (o' & err & h' & E & Es & G & Hr & He). cbn [get set slot_attr] in E. fold (shape_of o). rewrite <- Es, (hbind_run _ _ _ _ _ E).
  destruct (Z.eqb_spec err 0) as [->|Hne]; cbn [negb].
  - change (0 <? 0) with false. cbv iota. pose proof (has_peer h' o' (g_ok _ _ _ _ _ _ _ _ G)) as Hpe'.
    assert (a_peer (ce_data o') = a_peer (ce_data o)) as Ep.
    { change (s_peer (shape_of o') = s_peer (shape_of o)). destruct p as [q|]; cbn [shape_assign] in Es; [|apply (f_equal (fun x => s_peer (fst x))) in Es; exact Es].
      destruct (match s_family (shape_of o) with Some f => _ | None => true end); apply (f_equal (fun x => s_peer (fst x))) in Es; exact Es. }
    rewrite Hpe', Ep. destruct (a_peer (ce_data o)); [exists o', 0, h'; by split_and!|].
    destruct (then_prefix ad h' o' p G Hp) as (o2 & err & h2 & E2 & H1 & H2 & H3 & H4). exists o2, err, h2. split_and!; [done..|congruence].
  - rewrite (proj2 (Z.ltb_lt _ _)) by lia. pose proof (shape_assign_err _ _ _ _ _ _ Es Hne). exists o', err, h'. by split_and!.
Qed.

Lemma set_addr_refines ad h o s p : good ad h o -> held_ptr p -> refined ad h o (set_addr s o p) (shape_addr s p (shape_of o, ad)).
Proof.
  intros Hg Hp. destruct s; [by apply set_peer_refines|by apply set_local_refines|..].
  - by apply (assign_slot_refines ad h o Bcast p Hg Hp ltac:(auto)).
  - by apply (assign_slot_refines ad h o Multicast p Hg Hp ltac:(auto)).
  - by apply (assign_slot_refines ad h o Anycast p Hg Hp ltac:(auto)).
Qed.

(** A field is set, and nothing on the heap. *)
Lemma addr_field_good ad h o attr f : good ad h o -> (forall s x, get s (f x) = get s x) -> (forall s, has attr (slot_attr s) = false) -> (forall x, a_link (f x) = a_link x) ->
  ifaddr_ok h (assign attr f o) -> (has attr ADDR_ATTR_CACHEINFO = false -> a_cacheinfo (f (ce_data o)) = a_cacheinfo (ce_data o)) -> good ad h (assign attr f o).
Proof.
  intros [Ho Hh Hl Hv Hi Hx Hc] Hf Ha Hlk Hok Hci. constructor; [done|..]; cbn [assign ce_data ce_mask]; [|by rewrite Hlk|done|done|done|].
  - unfold addr_ptrs. erewrite map_ext by (intros s; apply Hf). exact Hh.
  - rewrite has_lor, orb_false_iff. intros [C1 C2]. rewrite Hci by done. by apply Hc.
Qed.

(** Counters change, indices do not. *)
Definition same_index (h h' : heap) : Prop := forall q k, h_links h' !! q = Some k -> exists k0, h_links h !! q = Some k0 /\ l_index k0 = l_index k.

Lemma link_put_index o h h' : link_put o h = Some (tt, h') -> same_index h h'.
Proof.
  intros E q k Hq. destruct o as [p|]; cbn [link_put] in E; [|injection E as <-; eauto]. destruct (h_links h !! p) as [k0|] eqn:Ek; [|done]. cbn [mbind option_bind] in E.
  destruct (_ <? 0); [done|]. destruct (_ <=? 0); injection E as <-; cbn [h_links] in Hq.
  - apply lookup_delete_Some in Hq as [_ Hq]. eauto.
  - apply lookup_insert_Some in Hq as [ [<- <-]|[_ Hq] ]; eauto.
Qed.

Lemma link_get_index p h h' : link_get p h = Some (tt, h') -> same_index h h'.
Proof.
  intros E q k Hq. unfold link_get in E. destruct (h_links h !! p) as [k0|] eqn:Ek; [|done]. injection E as <-. cbn [h_links] in Hq.
  apply lookup_insert_Some in Hq as [ [<- <-]|[_ Hq] ]; eauto.
Qed.

Lemma set_link_refines ad h o p : good ad h o -> op_ok user luser l ls (SetLink p) -> refined ad h o (run_op (SetLink p) o) (shape_op lidx (SetLink p) (shape_of o, ad)).
Proof.
  intros Hg [Hu Hm]. pose proof Hg as [Ho Hh Hl Hv Hi Hx Hc]. unfold refined. cbn [run_op]. unfold rtnl_addr_set_link.
  destruct (link_put_run _ _ _ _ Hl) as (h1 & E1 & Hl1 & A1). pose proof (refs_nonneg ls p). destruct (link_get_run luser ls h1 p Hl1 ltac:(lia)) as (k & h2 & Ek & E2 & Hl2 & A2 & Ek2).
  assert (forall q k, h_links h2 !! q = Some k -> l_index k = lidx q /\ 0 <= lidx q < 2 ^ 32) as Hx2.
  { intros q k2 Hq. destruct (link_get_index _ _ _ E2 q k2 Hq) as (k1 & Hq1 & <-). destruct (link_put_index _ _ _ E1 q k1 Hq1) as (k0 & Hq0 & <-). by apply Hx. }
  destruct (Hx2 p _ Ek2) as [Ei Hr]. cbn [l_index] in Ei.
  assert (h_addrs h2 = h_addrs h) as EA by congruence. assert (ifaddr_ok h2 o) as Ho2.
  { apply (ifaddr_ok_heap h); [done|]. intros s. pose proof (ok_ptrs _ _ Ho s) as Hp. unfold ptr_ok, deref in *. by rewrite EA. }
  set (o' := assign ADDR_ATTR_IFINDEX (fun x => set_a_ifindex (lidx p) (set_a_link (Some p) x)) o). exists o', 0, h2. split.
  { rewrite (hbind_run _ _ _ o' h2); [done|]. rewrite (hbind_run _ _ _ _ _ E1), (hbind_run _ _ _ _ _ E2), (hbind_run _ _ _ _ _ (NlNeigh.load_link_run _ _ _ Ek2)). cbn [l_index]. by rewrite Ei. }
  unfold o'. split_and!; [|done| |done].
  - cbn [shape_op shape_of fst]. unfold shape_of. addr_fields. unfold att. known_bits. done.
  - cbn [shape_op shape_of fst snd]. constructor; [keep_fields|..]; addr_fields; known_bits; [|exact Hl2| |done|done|done].
    + destruct Hh as [Hus Hall]. split; [done|]. by rewrite EA.
    + intros q a. rewrite EA. apply Hv.
Qed.

(** A field is set. *)
Ltac field_op := lazymatch goal with Hg : NlIfaddr.good _ _ _ _ _ _ ?h ?o |- _ => let Ho := fresh "Ho" in pose proof (g_ok _ _ _ _ _ _ _ _ Hg) as Ho;
  eexists _, _, h; split; [reflexivity|]; split;
  [unfold shape_of; cbn [shape_op fst snd]; rewrite ?(NlNeigh.att_default _ _ _ (ok_no_flags _ _ Ho)); addr_fields; unfold att; known_bits; reflexivity
  |split; [reflexivity|split; [apply addr_field_good; [exact Hg|by intros []|by intros []|done|keep_fields|done]|reflexivity]]] end.

Lemma set_label_refines ad h o s : good ad h o -> Forall byte_ok s -> refined ad h o (run_op (SetLabel s) o) (shape_op lidx (SetLabel s) (shape_of o, ad)).
Proof.
  intros Hg Hs. pose proof (g_ok _ _ _ _ _ _ _ _ Hg) as Ho. unfold refined. cbn [run_op]. unfold rtnl_addr_set_label. cbn [shape_op shape_of].
  destruct (strlen s >? IFNAMSIZ - 1) eqn:E; [by exists o, (- NLE_RANGE), h|]. rewrite Z.gtb_ltb, Z.ltb_ge in E. unfold strlen in E.
  set (t := cstr s ++ [0] ++ drop (S (length (cstr s))) (a_label (ce_data o))). destruct (ok_label _ _ Ho) as (Hz & _ & Hb).
  assert (cstr t = cstr s) as Ec.
  { unfold t. rewrite JsonUtil.cstr_app_nonzero by apply NlAddr.cstr_text_ok. apply app_nil_r. }
  assert (label_ok t) as Ht.
  { split_and!; [|unfold strlen; rewrite Ec; lia|].
    - unfold t. unfold zlen, IFNAMSIZ in *. rewrite !length_app, length_drop. cbn [length]. lia.
    - unfold t. apply Forall_app. split; [by apply cstr_Forall|]. apply Forall_app. split; [by apply Forall_singleton|by apply Forall_drop]. }
  eexists _, _, h. split; [reflexivity|]. split_and!; [|reflexivity| |reflexivity].
  - cbn [fst snd]. unfold shape_of. addr_fields. unfold att. known_bits. fold t. by rewrite Ec.
  - cbn [fst snd]. apply addr_field_good; [exact Hg|by intros []|by intros []|done| |done]. cbv beta. fold t. keep_fields.
Qed.

Lemma lor_32 x y : 0 <= x < 2 ^ 32 -> 0 <= y < 2 ^ 32 -> 0 <= Z.lor x y < 2 ^ 32.
Proof.
  intros Hx Hy. pose proof (proj2 (Z.lor_nonneg x y) ltac:(lia)). split; [done|]. destruct (Z.eq_dec (Z.lor x y) 0) as [->|]; [lia|]. apply Z.log2_lt_pow2; [lia|]. rewrite Z.log2_lor by lia.
  apply Z.max_lub_lt; [destruct (Z.eq_dec x 0) as [->|]; [done|]|destruct (Z.eq_dec y 0) as [->|]; [done|] ]; apply Z.log2_lt_pow2; lia.
Qed.

Lemma ldiff_le x y : 0 <= x -> 0 <= y -> 0 <= Z.ldiff x y <= x.
Proof.
  intros Hx Hy. split; [apply Z.ldiff_nonneg; lia|]. assert (Z.ldiff x y = x - Z.land x y) as ->; [|pose proof (proj2 (Z.land_nonneg x y) ltac:(lia)); lia].
  rewrite Z.sub_nocarry_ldiff; [|apply Z.bits_inj'; intros n Hn; rewrite Z.ldiff_spec, Z.land_spec, Z.bits_0; by destruct (Z.testbit x n), (Z.testbit y n)].
  apply Z.bits_inj'. intros n Hn. rewrite !Z.ldiff_spec, Z.land_spec. by destruct (Z.testbit x n), (Z.testbit y n).
Qed.

(** The cache information is 0 without its attribute. *)
Lemma cacheinfo_default ad h o : good ad h o -> default (CacheInfo 0 0 0 0) (att (ce_mask o) ADDR_ATTR_CACHEINFO (a_cacheinfo (ce_data o))) = a_cacheinfo (ce_data o).
Proof. intros Hg. unfold att. destruct (has _ _) eqn:E; [done|]. symmetry. by apply (g_no_ci _ _ _ _ _ _ _ _ Hg). Qed.

Lemma addr_op_refines ad h o op : good ad h o -> op_ok user luser l ls op -> refined ad h o (run_op op o) (shape_op lidx op (shape_of o, ad)).
Proof.
  intros Hg Hop. assert (forall v, 0 <= u32 v < 2 ^ 32) as H32 by (intros; by apply wrap_range). assert (forall v, 0 <= u8 v < 256) as H8 by (intros; by apply wrap_range).
  pose proof (ok_flags _ _ (g_ok _ _ _ _ _ _ _ _ Hg)) as Hfl. pose proof (ok_cacheinfo _ _ (g_ok _ _ _ _ _ _ _ _ Hg)) as (C1 & C2 & C3 & C4). pose proof (cacheinfo_default ad h o Hg) as Hd.
  destruct op as [s|v|p|v|v|v|v|v|s p|v|v]; [by apply set_label_refines| |by apply set_link_refines|..].
  - unfold refined. cbn [run_op]. unfold rtnl_addr_set_ifindex. field_op.
  - unfold refined. cbn [run_op]. unfold rtnl_addr_set_family. field_op.
  - destruct (prefix_refines ad h o v Hg Hop) as (h' & E & G). unfold refined. cbn [run_op]. rewrite (hbind_run _ _ _ _ _ E). cbn [shape_op]. fold (shape_of o).
    change (shape_op lidx (SetPrefixlen v) (shape_of o, ad)) with (shape_prefix v (shape_of o, ad), 0). destruct (shape_prefix v (shape_of o, ad)) as [sh ad']. destruct G. eexists _, _, h'. by split_and!.
  - unfold refined. cbn [run_op]. unfold rtnl_addr_set_scope. field_op.
  - unfold refined. cbn [run_op]. unfold rtnl_addr_set_flags. pose proof (lor_32 _ _ Hfl (H32 v)). field_op.
  - unfold refined. cbn [run_op]. unfold rtnl_addr_unset_flags. pose proof (ldiff_le (a_flags (ce_data o)) (u32 v) ltac:(lia) ltac:(apply H32)).
    assert (0 <= Z.ldiff (a_flags (ce_data o)) (u32 v) < 2 ^ 32) by lia. field_op.
  - change (shape_op lidx (SetAddr s p) (shape_of o, ad)) with (shape_addr s p (shape_of o, ad)). by apply set_addr_refines.
  - assert (cacheinfo_ok (CacheInfo (aci_prefered (a_cacheinfo (ce_data o))) (u32 v) (aci_cstamp (a_cacheinfo (ce_data o))) (aci_tstamp (a_cacheinfo (ce_data o)))))
      by (split; [exact C1|split; [apply H32|split; [exact C3|exact C4] ] ]).
    unfold refined. cbn [run_op]. unfold rtnl_addr_set_valid_lifetime, set_aci_valid. cbn [shape_op shape_of]. rewrite Hd. field_op.
  - assert (cacheinfo_ok (CacheInfo (u32 v) (aci_valid (a_cacheinfo (ce_data o))) (aci_cstamp (a_cacheinfo (ce_data o))) (aci_tstamp (a_cacheinfo (ce_data o)))))
      by (split; [apply H32|split; [exact C2|split; [exact C3|exact C4] ] ]).
    unfold refined. cbn [run_op]. unfold rtnl_addr_set_preferred_lifetime, set_aci_prefered. cbn [shape_op shape_of]. rewrite Hd. field_op.
Qed.

Lemma addr_ops_refines ops : forall ad h o, good ad h o -> Forall (op_ok user luser l ls) ops -> exists o' errs h', run_ops ops o h = Some (o', errs, h') /\
  let r := shape_ops lidx ops (shape_of o, ad) in shape_of o' = r.1.1 /\ errs = r.2 /\ good r.1.2 h' o' /\ ce_refcnt o' = ce_refcnt o.
Proof.
  induction ops as [|op ops IH]; intros ad h o Hg Hops; cbn [run_ops shape_ops]; [by exists o, [], h|]. apply list.Forall_cons in Hops as [Hop Hops].
  destruct (addr_op_refines ad h o op Hg Hop) as (o1 & err & h1 & E1 & S1 & -> & G1 & R1). destruct (shape_op lidx op (shape_of o, ad)) as [ [sh1 ad1] err1]. cbn [fst snd] in *. subst sh1.
  destruct (IH ad1 h1 o1 G1 Hops) as (o2 & errs & h2 & E2 & S2 & -> & G2 & R2). cbv zeta in *. destruct (shape_ops lidx ops (shape_of o1, ad1)) as [ [sh2 ad2] errs2]. cbn [fst snd] in *.
  exists o2, (err1 :: errs2), h2. rewrite (hbind_run _ _ _ _ _ E1), (hbind_run _ _ _ _ _ E2). split_and!; [done..|congruence].
Qed.

End Setters.

(** The prefix length of the object is that of the peer, or else of the local
    address. *)
Definition agrees (x : shape * table_of) : Prop :=
  match s_peer x.1, s_local x.1 with
  | Some p, _ | None, Some p => default 0 (s_prefixlen x.1) = u8 (av_prefixlen (x.2 p))
  | None, None => True
  end.

Lemma shape_prefix_agrees n x : agrees (shape_prefix n x).
Proof.
  destruct x as [ [fam pl sc fl idx lab ci pe lo bc mc ac fm lk] ad]. unfold agrees. cbn [shape_prefix fst snd s_peer s_local s_prefixlen].
  assert (default 0 (if n =? 0 then None else Some (u8 n)) = u8 n) as -> by (by destruct (Z.eqb_spec n 0) as [->|]).
  destruct pe as [p|]; [|destruct lo as [p|]; [|done] ]; unfold with_prefix; by rewrite decide_True.
Qed.

Lemma shape_addr_agrees s p x : agrees x -> agrees (shape_addr s p x).1.
Proof.
  intros Hx. destruct x as [sh ad]. unfold shape_addr. destruct (match slot_family s, p with Some f, Some q => _ | _, _ => false end); [done|].
  destruct (match s, s_peer sh with Local, Some _ => _ | _, _ => false end); [done|]. destruct (shape_assign ad s p sh) as [sh' err] eqn:E. destruct (negb (err =? 0)); [done|].
  assert (s_prefixlen sh' = s_prefixlen sh /\ forall s', s' <> s -> shape_get s' sh' = shape_get s' sh) as [Ep Eo].
  { destruct sh as [fam pl sc fl idx lab ci pe lo bc mc ac fm lk]. destruct p as [q|]; cbn [shape_assign s_family] in E.
    - destruct (match fam with Some f => _ | None => true end); injection E as <- <-; cbn [shape_family shape_set]; [|done]. split; [by destruct s|]. intros s' Hne. by destruct s, s'.
    - injection E as <- <-. cbn [shape_set]. split; [by destruct s|]. intros s' Hne. by destruct s, s'. }
  assert (s <> Peer -> s <> Local -> agrees (sh', ad)) as Hother.
  { intros H1 H2. unfold agrees in *. cbn [fst snd] in *. pose proof (Eo Peer ltac:(congruence)) as E1. pose proof (Eo Local ltac:(congruence)) as E2. cbn [shape_get] in E1, E2. by rewrite E1, E2, Ep. }
  destruct s; [apply shape_prefix_agrees| |by apply Hother..].
  destruct (s_peer sh) as [q|] eqn:Eq; [|apply shape_prefix_agrees]. unfold agrees in *. cbn [fst snd] in *. pose proof (Eo Peer ltac:(done)) as E1. cbn [shape_get] in E1. by rewrite E1, Eq, Ep in *.
Qed.

Lemma shape_op_agrees lidx op x : agrees x -> agrees (shape_op lidx op x).1.
Proof.
  intros Hx. destruct op as [s|v|p|v|v|v|v|v|s p|v|v]; destruct x as [sh ad].
  9: { pose proof (shape_addr_agrees s p (sh, ad) Hx). by destruct sh. }
  5: { pose proof (shape_prefix_agrees v (sh, ad)). by destruct sh. }
  all: destruct sh as [fam pl sc fl idx lab ci pe lo bc mc ac fm lk]; cbn [shape_op]; first [exact Hx|by destruct (strlen s >? IFNAMSIZ - 1)].
Qed.

Lemma shape_ops_agrees lidx ops : forall x, agrees x -> agrees (shape_ops lidx ops x).1.
Proof.
  induction ops as [|op ops IH]; intros x Hx; cbn [shape_ops]; [done|]. pose proof (shape_op_agrees lidx op x Hx) as H1. destruct (shape_op lidx op x) as [x1 err].
  specialize (IH x1 H1). by destruct (shape_ops lidx ops x1).
Qed.

Definition no_shape : shape := Shape None None None None None None None None None None None None 0 None.

(** C23: setters: any sequence of calls on a new interface address, but for
    [rtnl_addr_set_link] with NULL ([addr_unset_link_dangles]), does what it
    says on the fields and on the addresses it shares with the user: addresses
    of a wrong family and long labels are refused and change nothing, a local
    address with a prefix is refused next to a peer, and the prefix length,
    which is kept in a byte, is modulo 256 that of the peer or else of the
    local address, in which it is changed too. The address is well-formed, and
    when it is put the user's references to addresses and links are what they
    were. The user holds what is passed, with counts away from [INT_MAX], and
    the object itself can be allocated. *)
Theorem addr_setters_refine {al : Allocator} user luser l ls lidx ad h ops : malloc_ok addr_size = true -> heap_ok user l h -> link_refs luser ls h ->
  values_ok ad h -> (forall p, NlAddr.int_ok (av_prefixlen (ad p))) -> (forall p k, h_links h !! p = Some k -> l_index k = lidx p /\ 0 <= lidx p < 2 ^ 32) ->
  Forall (op_ok user luser l ls) ops -> exists o0 o h' h'', let r := shape_ops lidx ops (no_shape, ad) in
  rtnl_addr_alloc = Some o0 /\ run_ops ops o0 h = Some (o, r.2, h') /\ shape_of o = r.1.1 /\ values_ok r.1.2 h' /\ agrees r.1 /\ ifaddr_ok h' o /\
  rtnl_addr_put (Some o) h' = Some (None, h'') /\ heap_ok user l h'' /\ link_refs luser ls h''.
Proof.
  intros Hmem Hh Hl Hv Hi Hx Hops. unfold rtnl_addr_alloc, obj_alloc. rewrite Hmem. set (o0 := Object 1 0 0 no_addr).
  assert (good user luser l ls lidx ad h o0) as Hg.
  { constructor; [apply no_addr_ok|change (heap_ok user (None :: None :: None :: None :: None :: l) h); by rewrite !heap_ok_null|
      change (link_refs luser (None :: ls) h); by rewrite link_refs_null|done..]. }
  destruct (addr_ops_refines user luser l ls lidx ops ad h o0 Hg Hops) as (o & errs & h' & E & Hr). change (shape_of o0) with no_shape in Hr. cbv zeta in Hr.
  destruct Hr as (S & -> & [Ho Hh' Hl' Hv' _ _ _] & R). destruct (ifaddr_put_last _ _ _ _ _ _ Hh' Hl' R) as (h'' & Ep & H1 & H2).
  exists o0, o, h', h''. split_and!; try done. by apply shape_ops_agrees.
Qed.

(** ** Copies *)

Section Clone.
Context {al : Allocator}.
Hypothesis memory : malloc_total al.

Lemma clone_slots_run user mask src sl : forall dst l h, NoDup sl -> (forall s, s ∈ sl -> get s dst = get s src) -> (forall s, ptr_ok h mask (slot_attr s) (get s src)) ->
  heap_ok user l h -> exists dst' h', clone_slots (map (fun s => (get s, set s)) sl) dst src h = Some (dst', 0, h') /\
  (forall s, s ∉ sl -> get s dst' = get s dst) /\ scalars dst' = scalars dst /\ a_link dst' = a_link dst /\ heap_ok user (map (fun s => get s dst') sl ++ l) h' /\
  (forall s, s ∈ sl -> ptr_ok h' mask (slot_attr s) (get s dst') /\ view_ptr h' mask (slot_attr s) (get s dst') = view_ptr h mask (slot_attr s) (get s src)) /\
  h_links h' = h_links h /\ forall k a, h_addrs h !! k = Some a -> h_addrs h' !! k = Some a.
Proof.
  induction sl as [|s sl IH]; intros dst l h Hnd Heq Hp Hh; cbn [map clone_slots]; [by exists dst, h; split_and!; [..|intros s Hs; by apply not_elem_of_nil in Hs| |]|].
  apply NoDup_cons in Hnd as [Hs Hnd]. rewrite (Heq s) by (by apply elem_of_cons; left).
  destruct (clone_ptr_ok memory user l h mask (slot_attr s) (get s src) Hh (Hp s)) as (q & h1 & E1 & Hh1 & P1 & V1 & L1 & K1). rewrite (hbind_run _ _ _ _ _ E1). cbn [negb].
  destruct (IH (set s q dst) (q :: l) h1 Hnd) as (dst' & h' & E & Hout & Hsc & Hlk & Hh' & Hin & L' & K').
  { intros s' Hs'. rewrite get_set, decide_False by (by intros ->). apply Heq. apply elem_of_cons. by right. }
  { intros s'. by apply (ptr_kept h h1 _ _ _ (Hp s') K1). }
  { done. }
  assert (get s dst' = q) as Eq by (by rewrite (Hout s Hs), get_set, decide_True).
  exists dst', h'. split; [done|]. split_and!; [| | | | |congruence|auto].
  - intros s' Hs'. rewrite not_elem_of_cons in Hs'. destruct Hs' as [Hne Hs']. by rewrite (Hout s' Hs'), get_set, decide_False.
  - by rewrite Hsc, set_scalars.
  - by rewrite Hlk, set_link.
  - cbn [map]. rewrite Eq. rewrite <- app_comm_cons. by rewrite Permutation_middle.
  - intros s' Hs'. apply elem_of_cons in Hs' as [->|Hs'].
    + rewrite Eq. destruct (ptr_kept h1 h' _ _ _ P1 K') as [? ->]. by rewrite V1.
    + destruct (Hin s' Hs') as [H1 H2]. split; [done|]. rewrite H2. by apply (ptr_kept h h1 _ _ _ (Hp s') K1).
Qed.

(** With memory, a copy has the values of the address, addresses of its own and
    a reference of its own to the link. *)
Theorem addr_clone_copies user luser l ls h o : ifaddr_ok h o -> heap_ok user l h -> link_refs luser ls h ->
  (forall p, a_link (ce_data o) = Some p -> 0 < luser p + refs ls p < INT_MAX) -> exists o' h',
  rtnl_addr_clone o h = Some (Some o', h') /\ ifaddr_view h' o' = ifaddr_view h o /\ parsed user luser l ls h' o' /\ a_link (ce_data o') = a_link (ce_data o) /\
  forall k a, h_addrs h !! k = Some a -> h_addrs h' !! k = Some a.
Proof.
  intros Ho Hh Hl Hlink. unfold rtnl_addr_clone, obj_clone, obj_alloc. rewrite memory by (unfold addr_size; lia). cbn [ce_data ce_refcnt]. unfold addr_clone.
  assert (exists h0, (match a_link (ce_data o) with Some p => link_get p ;; mret (set_a_link (Some p) (ce_data o)) | None => mret (ce_data o) end) h = Some (ce_data o, h0) /\
    h_addrs h0 = h_addrs h /\ link_refs luser (a_link (ce_data o) :: ls) h0) as (h0 & E0 & A0 & Hl0).
  { destruct (a_link (ce_data o)) as [p|] eqn:Ep; [|exists h; by rewrite link_refs_null]. destruct (link_get_run luser ls h p Hl (Hlink p eq_refl)) as (k & h0 & _ & E & Hl0 & A0 & _).
    exists h0. rewrite (hbind_run _ _ _ _ _ E). split; [|done]. rewrite <- Ep. by destruct (ce_data o). }
  assert (heap_ok user l h0) as Hh0 by (destruct Hh as [Hu Hall]; split; [done|by rewrite A0]).
  assert (forall s, ptr_ok h0 (ce_mask o) (slot_attr s) (get s (ce_data o))) as Hp0 by (intros s; pose proof (ok_ptrs _ _ Ho s) as Hp; unfold ptr_ok, deref in *; by rewrite A0).
  destruct (clone_slots_run user (ce_mask o) (ce_data o) slots (ce_data o) l h0) as (x & h' & E & _ & Hsc & Hlk & Hh' & Hin & L' & K'); [|done|done|done|].
  { unfold slots. repeat (apply NoDup_cons; split; [set_solver|]). apply NoDup_nil_2. }
  change (map (fun s => (get s, set s)) slots) with [(a_peer, set_a_peer); (a_local, set_a_local); (a_bcast, set_a_bcast); (a_multicast, set_a_multicast); (a_anycast, set_a_anycast)] in E.
  rewrite (hbind_run _ _ _ (x, 0) h') by (by rewrite (hbind_run _ _ _ _ _ E0)). change (0 <? 0) with false. cbv iota. eexists _, h'. split; [done|].
  assert (forall s, s ∈ slots) as Hall by (intros []; set_solver).
  split_and!; [| |exact Hlk|intros k a Hk; apply K'; by rewrite A0].
  - match goal with |- ifaddr_view h' ?y = _ => assert (forall s, view_slot h' y s = view_slot h o s) as Hview; [|rewrite (view_same_rest h' o y) by (by constructor)] end.
    { intros s. unfold view_slot. cbn [ce_mask ce_data]. destruct (Hin s (Hall s)) as [_ E']. rewrite E'. unfold view_ptr, deref. by rewrite A0. }
    cbv zeta. by rewrite !Hview.
  - constructor; [|exact Hh'|cbn [ce_data]; rewrite Hlk; by apply (link_refs_heap _ _ h0)|done]. apply (ifaddr_ok_change h h' o); cbn [ce_mask ce_data]; [done|apply Ho|..].
    + rewrite Hsc. replace (a_family x) with (a_family (scalars (ce_data o))) by (by rewrite <- Hsc). done.
    + replace (a_family x) with (a_family (scalars x)) by done. rewrite Hsc. apply Ho.
    + replace (a_family x) with (a_family (scalars x)) by done. rewrite Hsc. apply Ho.
    + done.
    + intros s. by apply (Hin s).
Qed.

End Clone.

(** ** Samples *)

#[local] Existing Instance sample_alloc.

(** 10.0.0.1 with the peer 10.0.0.2/24 on interface 3. *)
Definition addr1 : nl_addr := Addr 2 4 4 32 2 [10; 0; 0; 1].
Definition addr2 : nl_addr := Addr 2 4 4 24 2 [10; 0; 0; 2].

Definition sample_heap : heap := Heap (<[1%positive := addr1]> {[2%positive := addr2]}) {[7%positive := Link 1 3 0]}.

Definition sample_ifaddr : ifaddr :=
  Object 1 0 (ADDR_ATTR_FAMILY + ADDR_ATTR_PREFIXLEN + ADDR_ATTR_FLAGS + ADDR_ATTR_IFINDEX + ADDR_ATTR_LABEL + ADDR_ATTR_PEER + ADDR_ATTR_LOCAL)
    (IfAddr 2 24 255 640 3 (Some 2%positive) (Some 1%positive) None None None (CacheInfo 0 0 0 0) ([101; 116; 104; 48] ++ replicate 12 0) 0 None).

Lemma addr1_ok : addr_ok addr1 /\ addr_ok addr2.
Proof. split; split_and!; try (by vm_compute); by apply NlAddr.bytes_check. Qed.

Lemma sample_ifaddr_ok : ifaddr_ok sample_heap sample_ifaddr.
Proof.
  destruct addr1_ok as [H1 H2]. constructor; try (by vm_compute).
  - split; [done|]. split; [by vm_compute|]. by apply NlAddr.bytes_check.
  - intros []; try done; [by exists addr2|by exists addr1].
Qed.

Lemma sample_ifaddr_sendable : sendable sample_heap sample_ifaddr.
Proof. split; [intros [] a; first [done|intros [= <-]; by vm_compute]|]. intros a [= <-]. by vm_compute. Qed.

Definition link_heap : heap := Heap ∅ {[7%positive := Link 1 3 0]}.
Definition one_link (p : positive) : Z := if decide (p = 7%positive) then 1 else 0.

Lemma one_link_refs h : h_links h = {[7%positive := Link 1 3 0]} -> link_refs one_link [] h.
Proof.
  intros E. split; [intros p; unfold one_link; by destruct (decide _)|]. intros p. rewrite E, refs_nil. unfold one_link. destruct (decide (p = 7%positive)) as [->|Hp].
  - rewrite lookup_singleton_eq. by vm_compute.
  - by rewrite lookup_singleton_ne.
Qed.

Lemma one_link_cached : cached one_link [] (Some [7%positive]).
Proof. apply Forall_singleton. by vm_compute. Qed.

Lemma addr_build_parse_witness : exists m o h', build_addr_msg 4096 sample_heap sample_ifaddr RTM_NEWADDR 0 = Some (inr m) /\
  (forall pp_cb, addr_msg_parser pp_cb (Some [7%positive]) (nm_nlh m) link_heap = ('(o, err) ← pp_cb o; r ← rtnl_addr_put (Some o); mret (err, r)) h') /\
  parsed (fun _ => 0) one_link [] [] h' o /\ ce_msgtype o = RTM_NEWADDR /\ ifaddr_view h' o = received (sent (ifaddr_view sample_heap sample_ifaddr)) /\
  (consistent (ifaddr_view sample_heap sample_ifaddr) -> ifaddr_view h' o = normal (ifaddr_view sample_heap sample_ifaddr)).
Proof.
  apply (addr_build_parse sample_alloc_total 4096 ltac:(lia) (fun _ => 0) one_link [] [] (Some [7%positive]) sample_heap sample_ifaddr link_heap RTM_NEWADDR 0).
  - exact sample_ifaddr_ok.
  - exact sample_ifaddr_sendable.
  - by vm_compute.
  - apply heap_ok_empty.
  - by apply one_link_refs.
  - exact one_link_cached.
Defined.

Lemma sample_consistent : consistent (ifaddr_view sample_heap sample_ifaddr).
Proof.
  exists 2, 24. split; [done|]. split; [done|]. split; [by eexists|]. split; [by eexists|]. split; [by exists [10; 0; 0; 1], [10; 0; 0; 2]|]. by split_and!.
Qed.

Example sample_ifaddr_received : received (sent (ifaddr_view sample_heap sample_ifaddr)) =
  IfAddrValue (Some 2) (Some 24) (Some 0) (Some 640) (Some 3) (Some (str "eth0")) None (Some (AddrValue 2 24 [10; 0; 0; 2]))
    (Some (AddrValue 2 32 [10; 0; 0; 1])) None None None 0.
Proof. by vm_compute. Qed.

(** A message as the kernel sends it: 127.0.0.1/8 twice, with a label and
    lifetimes. *)
Definition sample_msg : bytes :=
  le_bytes 4 68 ++ le_bytes 2 RTM_NEWADDR ++ replicate 10 0 ++ ifa_bytes (Ifa 2 8 128 254 3) ++ [8; 0; 1; 0; 127; 0; 0; 1] ++ [8; 0; 2; 0; 127; 0; 0; 1] ++
  [7; 0; 3; 0; 108; 111; 0; 0] ++ [20; 0; 6; 0] ++ replicate 16 255.

Lemma addr_msg_parser_safe_witness : exists err r h',
  addr_msg_parser (fun o => mret (o, 0)) (Some [7%positive]) sample_msg link_heap = Some (err, r, h') /\ heap_ok (fun _ => 0) (ptrs r ++ []) h' /\
  link_refs one_link (link_of r :: []) h'.
Proof.
  apply (addr_msg_parser_safe (fun _ => 0) one_link [] [] link_heap (Some [7%positive]) sample_msg (fun o => mret (o, 0))).
  - split; [by apply NlAddr.bytes_check|]. split_and!; try (by vm_compute). by left.
  - intros tb a E. revert E. vm_compute. intros [= <-]. done.
  - apply heap_ok_empty.
  - by apply one_link_refs.
  - exact one_link_cached.
  - intros o h [Ho Hh Hl Hr]. exists o, 0, h. split; [done|]. split; [rewrite Hr; by vm_compute|done].
Defined.

Lemma ifaddr_ints : ints_ok sample_heap.
Proof. intros p a. cbn [sample_heap h_addrs]. rewrite lookup_insert_Some, lookup_singleton_Some. intros [ [_ <-]|(_ & _ & <-)]; by vm_compute. Qed.

(** The same address with another prefix length of the peer. *)
Definition other_ifaddr : ifaddr := Object 1 0 (ce_mask sample_ifaddr) (set_a_prefixlen 16 (ce_data sample_ifaddr)).

Lemma other_ifaddr_ok : ifaddr_ok sample_heap other_ifaddr.
Proof. destruct sample_ifaddr_ok. constructor; try assumption; [by vm_compute..|]. intros s. specialize (ok_ptrs0 s). by destruct s. Qed.

Lemma addr_is_cache_object_witness : NlCacheInv.ObjectLaws (fun _ => addr_obj_ops) /\
  addr_compare sample_heap sample_ifaddr other_ifaddr (-1) 0 =
    Some (difference (-1) (addr_compared 0 (ifaddr_view sample_heap sample_ifaddr) (ifaddr_view sample_heap other_ifaddr))).
Proof.
  destruct addr_is_cache_object as [Hlaws Hops]. split; [exact Hlaws|].
  exact (proj1 (Hops sample_heap sample_ifaddr other_ifaddr (-1) 0 sample_ifaddr_ok other_ifaddr_ok ifaddr_ints)).
Defined.

Definition two_users (p : positive) : Z := if decide (p = 1%positive) then 2 else if decide (p = 2%positive) then 2 else 0.
Definition two_values (p : positive) : addr_value := if decide (p = 1%positive) then addr_view addr1 else addr_view addr2.

(** The local address has a prefix, so it is refused once there is a peer; then
    the prefix length is that of the peer, whose address is changed. *)
Definition sample_ops : list addr_op :=
  [SetLabel (str "eth0"); SetLink 7; SetAddr Local (Some 1%positive); SetAddr Peer (Some 2%positive); SetAddr Local (Some 1%positive); SetPrefixlen 16;
   SetAddr Multicast (Some 1%positive); SetFlags 640].

Lemma sample_users : heap_ok two_users [] sample_heap.
Proof.
  split; [intros p; unfold two_users; by repeat case_decide|]. intros p. rewrite refs_nil. cbn [sample_heap h_addrs]. unfold two_users.
  destruct (decide (p = 1%positive)) as [->|H1]; [by rewrite lookup_insert_eq|]. rewrite lookup_insert_ne by done.
  destruct (decide (p = 2%positive)) as [->|H2]; [by rewrite lookup_singleton_eq|by rewrite lookup_singleton_ne].
Qed.

Lemma sample_values : values_ok two_values sample_heap.
Proof.
  destruct addr1_ok as [H1 H2]. intros p a. cbn [sample_heap h_addrs]. rewrite lookup_insert_Some, lookup_singleton_Some. unfold two_values.
  intros [ [<- <-]|(Hne & <- & <-)]; [rewrite decide_True by done|rewrite decide_False by done]; by split_and!.
Qed.

Lemma addr_setters_refine_witness : exists o0 o h' h'', let r := shape_ops (fun _ => 3) sample_ops (no_shape, two_values) in
  rtnl_addr_alloc = Some o0 /\ run_ops sample_ops o0 sample_heap = Some (o, r.2, h') /\ shape_of o = r.1.1 /\ values_ok r.1.2 h' /\ agrees r.1 /\ ifaddr_ok h' o /\
  rtnl_addr_put (Some o) h' = Some (None, h'') /\ heap_ok two_users [] h'' /\ link_refs one_link [] h''.
Proof.
  apply (addr_setters_refine two_users one_link [] [] (fun _ => 3) two_values sample_heap sample_ops).
  - by vm_compute.
  - exact sample_users.
  - by apply one_link_refs.
  - exact sample_values.
  - intros p. unfold two_values. by destruct (decide _).
  - intros p k. cbn [sample_heap h_links]. rewrite lookup_singleton_Some. intros [_ <-]. by vm_compute.
  - repeat (apply list.Forall_cons; split); try done; by apply NlAddr.bytes_check.
Defined.

Example ifaddr_results : (shape_ops (fun _ => 3) sample_ops (no_shape, two_values)).2 = [0; 0; 0; 0; - NLE_INVAL; 0; - NLE_AF_NOSUPPORT; 0] /\
  av_prefixlen ((shape_ops (fun _ => 3) sample_ops (no_shape, two_values)).1.2 2%positive) = 16.
Proof. split; by vm_compute. Qed.

(** ** What the code does not do *)

(** The policy has no length for IFA_FLAGS: an attribute without data, the last
    of a message, is read behind its end. *)
Definition short_flags : bytes := le_bytes 4 28 ++ le_bytes 2 RTM_NEWADDR ++ replicate 10 0 ++ ifa_bytes (Ifa 2 8 128 254 3) ++ [4; 0; 8; 0].

Theorem addr_flags_unchecked : msg_in short_flags /\ (exists tb a, nlmsg_parse short_flags 0 8 IFA_MAX (Some addr_policy) = Some (Some tb, 0) /\
  attr_of tb IFA_FLAGS = Some a /\ nla_len short_flags a = Some 0) /\ addr_msg_parser (fun o => mret (o, 0)) None short_flags link_heap = None.
Proof.
  split; [|split; [|by vm_compute]].
  - split; [by apply NlAddr.bytes_check|]. split_and!; try (by vm_compute). by left.
  - eexists _, 24. split; [by vm_compute|]. by split; vm_compute.
Qed.

(** An address with the link 7, whose only reference it has. *)
Definition linked : ifaddr := Object 1 0 ADDR_ATTR_IFINDEX (set_a_link (Some 7%positive) (set_a_ifindex 3 no_addr)).

(** [rtnl_addr_set_link] with NULL puts the link and keeps the pointer: when the
    address is put, the link is used that was freed. *)
Theorem addr_unset_link_dangles : exists h', rtnl_addr_set_link linked None link_heap = Some (linked, h') /\ h_links h' = ∅ /\
  a_link (ce_data linked) = Some 7%positive /\ rtnl_addr_put (Some linked) h' = None.
Proof. eexists. split; [by vm_compute|]. split_and!; by vm_compute. Qed.

(** The prefix length is one of the attributes that identify an address, but
    [addr_compare] does not look at it: two addresses that differ in the prefix
    length of the peer are one object to a cache. *)
Theorem addr_prefixlen_not_compared : v_prefixlen (ifaddr_view sample_heap sample_ifaddr) <> v_prefixlen (ifaddr_view sample_heap other_ifaddr) /\
  has addr_id_attrs ADDR_ATTR_PREFIXLEN = true /\ addr_compare sample_heap sample_ifaddr other_ifaddr NlCache.UINT_MAX 0 = Some 0.
Proof. split_and!; by vm_compute. Qed.

(** Multicast and anycast addresses can be set, are parsed and compared, but
    [build_addr_msg] does not send them: the message of an address that has both
    is that of the address without, and they never arrive. *)
Definition multicast_ifaddr (mask : Z) (p : option positive) : ifaddr :=
  Object 1 0 (ADDR_ATTR_FAMILY + ADDR_ATTR_PREFIXLEN + ADDR_ATTR_IFINDEX + ADDR_ATTR_LOCAL + mask)
    (IfAddr 2 32 0 0 3 None (Some 1%positive) None p p (CacheInfo 0 0 0 0) (replicate 16 0) 0 None).

Theorem addr_multicast_not_sent :
  (forall v, v_multicast (received (sent v)) = None /\ v_anycast (received (sent v)) = None) /\
  v_multicast (ifaddr_view sample_heap (multicast_ifaddr (ADDR_ATTR_MULTICAST + ADDR_ATTR_ANYCAST) (Some 2%positive))) <> None /\
  build_addr_msg 4096 sample_heap (multicast_ifaddr (ADDR_ATTR_MULTICAST + ADDR_ATTR_ANYCAST) (Some 2%positive)) RTM_NEWADDR 0 =
  build_addr_msg 4096 sample_heap (multicast_ifaddr 0 None) RTM_NEWADDR 0.
Proof. split; [intros v; unfold received; by destruct (wire _ _ _ _)|]. split; by vm_compute. Qed.

(** The anycast address has no name: a difference in it is printed as nothing. *)
Theorem addr_anycast_unnamed : exists buf, addr_attrs2str ADDR_ATTR_ANYCAST (replicate 64 0) = Some buf /\ cstr buf = [].
Proof. eexists. split; by vm_compute. Qed.

(** An address of 256 bits of prefix has none in the message: the length is
    kept in a byte, but in full in the local address. *)
Theorem addr_prefixlen_truncated : exists o h', run_ops [SetAddr Local (Some 1%positive); SetPrefixlen 256] (Object 1 0 0 no_addr) sample_heap = Some (o, [0; 0], h') /\
  rtnl_addr_get_prefixlen o = 0 /\ NlAddr.a_prefixlen <$> deref h' (a_local (ce_data o)) = Some 256.
Proof. eexists _, _. split; [by vm_compute|]. split_and!; by vm_compute. Qed.

End NlIfaddr.
