(* ===== verification/NlRequest.v ===== *)
(** * Requests of libnl ([lib/route/rule.c], [lib/route/neigh.c],
    [lib/route/rtnl.c])

    The functions that change the rules and neighbours of the kernel: a
    message is built ([NlRule], [NlNeigh]), completed, sent, and its answer is
    awaited ([NlRecv]); and the requests for a dump behind an update of a cache.

    The theorems compose those of the parts: what the kernel is sent is, read
    by the parser of the library, the object that was passed; the result is
    the one of the kernel; nothing stays allocated. *)

From S2P Require Import Prelude Netlink Syscalls NetRequests NlParse NlAttr NlSocket NlRecv NlAddr NlRtnl NlRule NlNeigh.
From Stdlib Require Import ZArith Lia.
From stdpp Require Import base list numbers option gmap.

Open Scope Z_scope.

Module NlRequest.
Import Netlink Syscalls NlSocket NlRecv.
Import NlParse (rd).
Import NlAttr (nl_msg, NlMsg, nm_block, nm_refcnt, nm_flags, nm_dst, nm_nlh, nm_size, with_block, msg_holds).

#[local] Existing Instances NlRtnl.H_ret NlRtnl.H_bind.

Definition RTM_GETNEIGH : Z := 30.
Definition RTM_GETRULE : Z := 34.
Definition NLM_F_DUMP : Z := 768.
Definition AF_UNSPEC : Z := 0.

(** ** Functions *)

Section Requests.
Context {A S : Type} {al : Allocator} {kernel : Kernel} {outputs : RecvOutputs}.
Variables getpagesize getpid default_msg_size : Z.

Abbreviation N := (@N nl_msg nlmsgerr A S (@RM S) RV SD).

(** What the four functions below have in common: the message or the error of
    the builder; the two blocks of the message are freed once it is sent. *)
Definition send_request (fuel : nat) (sk : nl_sock) (built : option (Z + nl_msg)) (s : S) : N (nl_sock * S * Z) :=
  r ← of_option built;
  match r with
  | inl err => mret (sk, s, err)
  | inr m =>
      lift (heap 2) ;;
      '(sk, m, s, err) ← nl_send_auto_complete getpid sk m s;
      drop_msg m ;;
      if err <? 0 then mret (sk, s, err) else wait_for_ack getpagesize fuel sk s
  end.

Definition rtnl_rule_add (fuel : nat) (sk : nl_sock) (h : NlRtnl.heap) (tmpl : NlRule.rule) (flags : Z) (s : S) : N (nl_sock * S * Z) :=
  send_request fuel sk (NlRule.rtnl_rule_build_add_request default_msg_size h tmpl flags) s.
Definition rtnl_rule_delete (fuel : nat) (sk : nl_sock) (h : NlRtnl.heap) (rule : NlRule.rule) (flags : Z) (s : S) : N (nl_sock * S * Z) :=
  send_request fuel sk (NlRule.rtnl_rule_build_delete_request default_msg_size h rule flags) s.
Definition rtnl_neigh_add (fuel : nat) (sk : nl_sock) (h : NlRtnl.heap) (tmpl : NlNeigh.neigh) (flags : Z) (s : S) : N (nl_sock * S * Z) :=
  send_request fuel sk (NlNeigh.rtnl_neigh_build_add_request default_msg_size h tmpl flags) s.
Definition rtnl_neigh_delete (fuel : nat) (sk : nl_sock) (h : NlRtnl.heap) (neigh : NlNeigh.neigh) (flags : Z) (s : S) : N (nl_sock * S * Z) :=
  send_request fuel sk (NlNeigh.rtnl_neigh_build_delete_request default_msg_size h neigh flags) s.

(** [struct rtgenmsg] is one byte. *)
Definition nl_rtgen_request (sk : nl_sock) (type family flags : Z) (s : S) : N (nl_sock * S * Z) :=
  '(sk, s, err) ← nl_send_simple getpid default_msg_size sk type flags (Some (le_bytes 1 family)) s;
  mret (sk, s, if err >=? 0 then 0 else err).

Definition rule_request_update (sk : nl_sock) (s : S) : N (nl_sock * S * Z) :=
  nl_rtgen_request sk RTM_GETRULE AF_UNSPEC NLM_F_DUMP s.
(** [c_iarg1] of the cache is the family. *)
Definition neigh_request_update (c_iarg1 : Z) (sk : nl_sock) (s : S) : N (nl_sock * S * Z) :=
  nl_rtgen_request sk RTM_GETNEIGH c_iarg1 NLM_F_DUMP s.

End Requests.

(** ** A built message as a request *)

(** Its header is complete but for the sequence number and the port. *)
Lemma built_request m type flags body : NlRtnl.blank m -> msg_holds m (NlRtnl.hdr_rest type flags) body ->
  new_request m /\ hdr_len (nm_block m) = 16 + zlen body /\ nlmsg_flags m = flags mod 65536 /\
  sent_bytes m = le_bytes 4 (16 + zlen body) ++ NlRtnl.hdr_rest type flags ++ body.
Proof.
  intros Hb [Hh Hsz]. pose proof (holds_len _ _ _ Hh) as Hl. destruct Hh as [Hr Ha Hc Hblk]. pose proof (zlen_nonneg body).
  assert (zlen (nm_nlh m) = cap (nm_block m)) as Hz.
  { unfold nm_nlh. rewrite Hblk, !zlen_app, zlen_le, zlen_replicate, Hr. lia. }
  split_and!; [split; [apply Hb| |rewrite Hl, Hz; lia]|done| |].
  - unfold nlmsg_seq. rewrite Hblk. unfold NlRtnl.hdr_rest. rewrite <- !app_assoc, (app_assoc (le_bytes 2 type)), (app_assoc (le_bytes 4 _)).
    rewrite NlRtnl.get_le_mid by (by rewrite !zlen_app, !zlen_le). done.
  - unfold nlmsg_flags. rewrite Hblk. unfold NlRtnl.hdr_rest. rewrite <- !app_assoc, (app_assoc (le_bytes 4 _)).
    rewrite NlRtnl.get_le_mid by (by rewrite !zlen_app, !zlen_le). done.
  - unfold sent_bytes, nm_nlh. rewrite Hl, Hblk, (app_assoc _ body), (app_assoc (le_bytes 4 _)), <- (app_assoc (le_bytes 4 _)).
    rewrite (app_assoc _ _ body), (app_assoc (le_bytes 4 _)). apply take_app_length'.
    assert (zlen (le_bytes 4 (16 + zlen body) ++ NlRtnl.hdr_rest type flags ++ body) = 16 + zlen body) as E by (rewrite !zlen_app, zlen_le, Hr; lia).
    unfold zlen in *. rewrite <- app_assoc. lia.
Qed.

(** The datagram with the completed header, as a message of its own. *)
Definition as_msg (data : bytes) : nl_msg :=
  NlMsg (-1) 0 NlAttr.zero_addr NlAttr.zero_addr NlAttr.zero_addr (Nlmsg data (zlen data)) 1.

Lemma sent_holds m type flags body data : NlRtnl.blank m -> msg_holds m (NlRtnl.hdr_rest type flags) body -> 0 <= type < 65536 ->
  zlen data = hdr_len (nm_block m) -> take 6 data = take 6 (sent_bytes m) -> drop 16 data = drop 16 (sent_bytes m) ->
  exists rest, msg_holds (as_msg data) rest body /\ rd 4 2 data = Some type.
Proof.
  intros Hb Hm Htype Hz Ht Hd. destruct (built_request m type flags body Hb Hm) as (_ & Hl & _ & Es). destruct Hm as [[Hr Ha Hc Hblk] Hsz].
  pose proof (zlen_nonneg body). set (L := le_bytes 4 (16 + zlen body)) in *. assert (length L = 4%nat) as HL by apply le_bytes_length.
  assert (drop 16 data = body) as Ed.
  { rewrite Hd, Es, app_assoc. apply drop_app_length'. rewrite length_app. unfold zlen in Hr. lia. }
  assert (take 6 data = L ++ le_bytes 2 type) as Et.
  { rewrite Ht, Es. unfold NlRtnl.hdr_rest. rewrite <- !app_assoc, (app_assoc L). apply take_app_length'. by rewrite length_app, HL, le_bytes_length. }
  exists (take 12 (drop 4 data)). assert (length data = Z.to_nat (16 + zlen body)) as Hlen by (unfold zlen in *; lia). split.
  - split; [|cbn; unfold nm_size in Hsz; lia]. constructor; cbn [as_msg nm_block cap nlmsghdr]; rewrite ?Hz, ?Hl.
    + unfold zlen in *. rewrite length_take, length_drop. lia.
    + done.
    + lia.
    + replace (16 + zlen body - 16 - zlen body) with 0 by lia. change (replicate (Z.to_nat 0) 0) with (@nil Z). rewrite app_nil_r. fold L. rewrite <- Ed.
      assert (L = take 4 data) as ->.
      { apply (f_equal (take 4)) in Et. rewrite take_take in Et. change (4 `min` 6)%nat with 4%nat in Et. by rewrite Et, take_app_length'. }
      rewrite <- (take_drop 4 data) at 1. f_equal. rewrite <- (take_drop 12 (drop 4 data)) at 1. by rewrite drop_drop.
  - rewrite NlParse.rd_Some by lia. f_equal. assert (get_le 4 2 data = get_le 4 2 (take 6 data)) as ->.
    { unfold get_le. rewrite skipn_firstn_comm, take_take. done. }
    rewrite Et, <- (app_nil_r (le_bytes 2 type)). rewrite NlRtnl.get_le_mid by (unfold zlen; by rewrite HL). by apply Z.mod_small.
Qed.

(** ** Requests are delivered and answered *)

Section Delivered.
Import NlParse (message, Msg, m_rest, m_body, m_type, enc_msg, enc_msgs, msg_ok, datagram).
Context {A S : Type} {al : Allocator} {kernel : Kernel} {outputs : RecvOutputs}.
Variables getpagesize getpid size : Z.
Hypothesis memory : malloc_total al.
Hypothesis size_ok : 1024 <= size <= 2147483640.

Abbreviation state := (lib nl_msg nlmsgerr A S (@RM S) RV SD * world)%type.

(** A connected socket with a local port and no function that interferes;
    the kernel answers its requests with [code]. *)
Record ready (sk : nl_sock) (code : Z) (l : lib nl_msg nlmsgerr A S (@RM S) RV SD) : Prop := {
  rd_cb : exists cb, cbs l !! s_cb sk = Some cb /\ quiet cb;
  rd_from : exists nla, forall h, recv_name h = nla;
  rd_simple : simple_sock getpagesize sk;
  rd_fd : 0 <= s_fd sk;
  rd_port : nl_pid (s_local sk) <> 0;
  rd_ack : has_flag NL_NO_AUTO_ACK sk = false;
  rd_seq : 0 <= s_seq_next sk < 2 ^ 32;
  rd_expect : s_seq_expect sk = s_seq_next sk;
  rd_kernel : acknowledges getpagesize sk code
}.

(** One datagram is sent to the peer of the socket, one answer is read, and
    its code is the result; nothing stays allocated, and the socket expects
    the number it uses next. *)
Record exchanged (sk : nl_sock) (code flags : Z) (s : S) (st st' : state) (res : nl_sock * S * Z) (data : bytes) : Prop := {
  ex_res : let next := u32 (s_seq_next sk + 1) in
    res = (set_seq_expect next (set_seq_next next sk), s, if code =? 0 then 0 else - nl_syserr2nlerr code);
  ex_lib : fst st' = fst st;
  ex_live : live (snd st') = live (snd st);
  ex_log : map fst (log (snd st')) = map fst (log (snd st)) ++
    [SendmsgAddr (s_fd sk) (nl_family (s_peer sk)) (nl_pid (s_peer sk)) (nl_groups (s_peer sk)) data []; recv_call getpagesize sk];
  ex_seq : get_le 8 4 data = s_seq_next sk;
  ex_flags : forall i, 0 <= i < 16 -> Z.testbit (get_le 6 2 data) i = Z.testbit flags i || (i =? 0) || (i =? 2)
}.

Lemma blank_send_call sk m data : NlRtnl.blank m ->
  send_call sk m data = SendmsgAddr (s_fd sk) (nl_family (s_peer sk)) (nl_pid (s_peer sk)) (nl_groups (s_peer sk)) data [].
Proof.
  intros [_ _ Hf Hd]. unfold send_call, destination, nlmsg_get_dst, nlmsg_get_creds. by rewrite Hf, Hd.
Qed.

(** Any built message. *)
Lemma send_request_exchanged fuel sk code l w s m type flags body : ready sk code l -> NlRtnl.blank m ->
  msg_holds m (NlRtnl.hdr_rest type flags) body -> 0 <= type < 65536 -> (0 < fuel)%nat ->
  ends (send_request getpagesize getpid fuel sk (Some (inr m)) s) (l, w) (fun res st => exists data rest,
    exchanged sk code flags s (l, w) st res data /\ msg_holds (as_msg data) rest body /\ rd 4 2 data = Some type /\ zlen data <= nm_size m).
Proof.
  intros [(cb & Ecb & Hq) [nla Hnla] Hs Hfd Hport Hack Hseq Hexp Hkern] Hb Hm Htype Hfuel.
  destruct (built_request m type flags body Hb Hm) as (Hreq & Hl & Hfl & _).
  unfold send_request. apply ends_bind, ends_ret, ends_bind, ends_lift, runs_heap.
  change (ends (nl_send_sync getpagesize getpid fuel sk m s) (l, World (log w) (live w + 2) (br_socket_fd w)) (fun res st => exists data rest,
    exchanged sk code flags s (l, w) st res data /\ msg_holds (as_msg data) rest body /\ rd 4 2 data = Some type /\ zlen data <= nm_size m)).
  eapply ends_mono.
  { apply (request_answered getpagesize getpid memory nla fuel sk m s code cb); try done. destruct Hm as [[_ _ Hc _] Hsz].
    rewrite Hl. unfold nm_size, INT_MAX in *. lia. }
  intros res st (data & E1 & E2 & E3 & E4 & Hz & Ht & Hd & H8 & H6). destruct (sent_holds m type flags body data) as (rest & Hrest & Hrd); try done.
  exists data, rest. split; [|split_and!; try done; destruct Hm as [[_ _ Hc _] _]; unfold nm_size; lia]. split; try done.
  - rewrite E3. cbn [live snd]. lia.
  - rewrite E4. by rewrite blank_send_call.
  - intros i Hi. rewrite H6, Hfl by done. change 65536 with (2 ^ 16). by rewrite Z.mod_pow2_bits_low by lia.
Qed.

(** Adding or deleting. *)
Definition rule_request (add : bool) :=
  if add then rtnl_rule_add (A := A) (S := S) getpagesize getpid size else rtnl_rule_delete getpagesize getpid size.
Definition neigh_request (add : bool) :=
  if add then rtnl_neigh_add (A := A) (S := S) getpagesize getpid size else rtnl_neigh_delete getpagesize getpid size.


(** Adding or deleting a neighbour reaches the kernel and is answered,
    likewise: what is sent, read by [rtnl_neigh_parse], is the neighbour that
    was passed, of the type NEWNEIGH or DELNEIGH. *)
Theorem neigh_request_delivered add fuel sk code l w s h t flags user refs lcache hp : ready sk code l ->
  NlNeigh.neigh_ok h t -> NlNeigh.sendable h t -> NlRtnl.heap_ok user refs hp -> NlNeigh.links_ok hp lcache -> (0 < fuel)%nat ->
  ends (neigh_request add fuel sk h t flags s) (l, w) (fun res st => exists data o h',
    exchanged sk code flags s (l, w) st res data /\ NlNeigh.rtnl_neigh_parse lcache data hp = Some (0, Some o, h') /\
    NlRtnl.ce_msgtype o = (if add then NlNeigh.RTM_NEWNEIGH else NlNeigh.RTM_DELNEIGH) /\
    NlNeigh.neigh_view h' o = NlNeigh.received (NlNeigh.port_master hp lcache) (NlNeigh.neigh_view h t)).
Proof.
  intros Hr Ho Hsend Hh Hlc Hf. set (type := if add then NlNeigh.RTM_NEWNEIGH else NlNeigh.RTM_DELNEIGH).
  destruct (NlNeigh.build_neigh_msg_ok memory size size_ok h t type flags Ho Hsend) as (m & Em & Hsz & Hb & Hm).
  assert (neigh_request add fuel sk h t flags s = send_request getpagesize getpid fuel sk (Some (inr m)) s) as ->.
  { rewrite <- Em. by destruct add. }
  eapply ends_mono; [apply (send_request_exchanged fuel sk code l w s m type flags _ Hr Hb Hm); [by destruct add|done]|].
  intros res st (data & rest & Hex & Hd & Htype & Hlen).
  destruct (NlNeigh.neigh_parse_holds memory user refs lcache h t hp type (as_msg data) rest) as (o & h' & Hp & _ & Hty & Hv & _); try done; [cbn; lia|].
  by exists data, o, h'.
Qed.

(** A request without waiting: the kernel takes what it is sent. *)
Definition takes_all (sk : nl_sock) : Prop := forall h m data, rc (answer h (send_call sk m data)) = zlen data.

(** What is sent to the peer of a socket. *)
Definition to_peer (sk : nl_sock) (data : bytes) : call :=
  SendmsgAddr (s_fd sk) (nl_family (s_peer sk)) (nl_pid (s_peer sk)) (nl_groups (s_peer sk)) data [].

Lemma run_rtgen_request sk type family flags (s : S) (cb : nl_cb nl_msg nlmsgerr A S (@RM S) RV SD) l w : cbs l !! s_cb sk = Some cb -> quiet cb -> 0 <= s_fd sk -> nl_pid (s_local sk) <> 0 ->
  has_flag NL_NO_AUTO_ACK sk = false -> 0 <= s_seq_next sk < 2 ^ 32 -> takes_all sk -> 0 <= type < 65536 -> 0 <= family < 256 ->
  ends (nl_rtgen_request getpid size sk type family flags s) (l, w) (fun res st => exists data,
    res = (set_seq_next (u32 (s_seq_next sk + 1)) sk, s, 0) /\ fst st = l /\ live (snd st) = live w /\
    log (snd st) = log w ++ [(to_peer sk data, answer (log w) (to_peer sk data))] /\
    take 6 data = le_bytes 4 20 ++ le_bytes 2 type /\ get_le 8 4 data = s_seq_next sk /\ drop 16 data = [family; 0; 0; 0] /\
    forall i, 0 <= i < 16 -> Z.testbit (get_le 6 2 data) i = Z.testbit flags i || (i =? 0) || (i =? 2)).
Proof.
  intros Ecb Hq Hfd Hport Hack Hseq Hk Htype Hfam. unfold nl_rtgen_request, nl_send_simple.
  destruct (NlRtnl.alloc_simple_some size type flags memory) as [m0 E0]; [lia|]. rewrite E0.
  destruct (NlRtnl.alloc_simple_holds size type flags m0) as (Hm0 & Hs0 & Hb0); [lia|done|].
  apply ends_bind, ends_bind, ends_lift, runs_heap. rewrite (NlRtnl.le_bytes_1 family) by done. change (negb (zlen [family] =? 0)) with true. cbv iota.
  destruct (NlRtnl.nlmsg_append_fits m0 _ [family] Hm0) as (m & E & Hr & Hm); [rewrite Hs0; change (zlen [family]) with 1; change (NLMSG_ALIGN 1) with 4; lia|done|]. rewrite E.
  pose proof (NlRtnl.blank_rebuilt _ _ Hr Hb0) as Hb. change ([family] ++ pad (zlen [family])) with [family; 0; 0; 0] in Hm.
  destruct (built_request m type flags _ Hb Hm) as (Hreq & Hl & Hfl & Es). change (0 <? 0) with false. cbv iota.
  change (16 + zlen [family; 0; 0; 0]) with 20 in *.
  apply ends_bind. eapply ends_mono; [apply (nl_send_auto_spec getpid sk m s cb l); try done; by rewrite Hl|].
  intros [[[sk1 m1] s1] err] st (data & m' & [= -> -> -> ->] & Hr' & -> & Hz & Ht & Hd & H8 & H6).
  apply ends_bind, ends_drop_msg; [done|]. apply ends_ret, ends_ret. exists data. rewrite Hz, Hl. split_and!; try done.
  - cbn. lia.
  - cbn [snd log called]. by rewrite blank_send_call.
  - rewrite Ht, Es. unfold NlRtnl.hdr_rest. rewrite <- !app_assoc, (app_assoc (le_bytes 4 20)). apply take_app_length'. by rewrite length_app, !le_bytes_length.
  - rewrite Hd, Es, app_assoc. by apply drop_app_length'.
  - intros i Hi. rewrite H6, Hfl by done. change 65536 with (2 ^ 16). by rewrite Z.mod_pow2_bits_low by lia.
Qed.

(** [nl_rtgen_request] sends one message of 20 bytes: the type, the
    flags with REQUEST and ACK, the next sequence number, and the family in
    one byte, padded; it returns 0, does not wait, and frees the message. *)
Theorem nl_rtgen_request_sent sk type family flags (s : S) (cb : nl_cb nl_msg nlmsgerr A S (@RM S) RV SD) l w : cbs l !! s_cb sk = Some cb -> quiet cb -> 0 <= s_fd sk -> nl_pid (s_local sk) <> 0 ->
  has_flag NL_NO_AUTO_ACK sk = false -> 0 <= s_seq_next sk < 2 ^ 32 -> takes_all sk -> 0 <= type < 65536 -> 0 <= family < 256 ->
  ends (nl_rtgen_request getpid size sk type family flags s) (l, w) (fun res st => exists data,
    res = (set_seq_next (u32 (s_seq_next sk + 1)) sk, s, 0) /\ fst st = l /\ live (snd st) = live w /\
    map fst (log (snd st)) = map fst (log w) ++
      [SendmsgAddr (s_fd sk) (nl_family (s_peer sk)) (nl_pid (s_peer sk)) (nl_groups (s_peer sk)) data []] /\
    take 6 data = le_bytes 4 20 ++ le_bytes 2 type /\ get_le 8 4 data = s_seq_next sk /\ drop 16 data = [family; 0; 0; 0] /\
    forall i, 0 <= i < 16 -> Z.testbit (get_le 6 2 data) i = Z.testbit flags i || (i =? 0) || (i =? 2)).
Proof.
  intros. eapply ends_mono; [by apply (run_rtgen_request sk type family flags s cb l w)|].
  intros res st (data & -> & ? & ? & Hlog & ? & ? & ? & ?). exists data. split_and!; try done. by rewrite Hlog, map_app.
Qed.

End Delivered.

(** ** A kernel that refuses every request *)

Lemma ready0 : ready (kernel := refusing_kernel) (outputs := outputs0) 4096 sk0 (-1) lib0.
Proof.
  split; [|exists (Sockaddr 16 0 0)|split| | | | | |exact refusing_acknowledges]; try (by vm_compute).
  exists sum_cb. split; [done|]. by split.
Qed.


Lemma neigh_request_delivered_witness : exists res st data o h',
  rtnl_neigh_delete (al := sample_alloc) (kernel := refusing_kernel) (outputs := outputs0) 4096 4711 4096 1 sk0 NlNeigh.sample_heap NlNeigh.bridge_neigh 0 0
    (lib0, w0) = Some (res, st) /\ snd res = - NLE_PERM /\ live (snd st) = 0 /\
  NlNeigh.rtnl_neigh_parse (al := sample_alloc) (Some [7%positive]) data NlNeigh.link_heap = Some (0, Some o, h') /\ NlRtnl.ce_msgtype o = NlNeigh.RTM_DELNEIGH /\
  NlNeigh.neigh_view h' o = NlNeigh.received (NlNeigh.port_master NlNeigh.link_heap (Some [7%positive])) (NlNeigh.neigh_view NlNeigh.sample_heap NlNeigh.bridge_neigh).
Proof.
  destruct (neigh_request_delivered (al := sample_alloc) (kernel := refusing_kernel) (outputs := outputs0) 4096 4711 4096 sample_alloc_total ltac:(lia)
    false 1 sk0 (-1) lib0 w0 0 NlNeigh.sample_heap NlNeigh.bridge_neigh 0 (fun _ => 0) [] (Some [7%positive]) NlNeigh.link_heap)
    as (res & st & E & data & o & h' & [-> _ Hl _ _ _] & Hp & Hty & Hv).
  - exact ready0.
  - exact NlNeigh.bridge_neigh_ok.
  - split; [done|]. split; [intros a [= <-]; by vm_compute|done].
  - apply NlRtnl.heap_ok_empty.
  - exact NlNeigh.sample_links_ok.
  - lia.
  - eexists _, st, data, o, h'. split; [exact E|]. split; [reflexivity|]. split; [exact Hl|]. split; [exact Hp|]. split; [exact Hty|exact Hv].
Defined.

Lemma refusing_takes_all : takes_all (kernel := refusing_kernel) sk0.
Proof. done. Qed.

Lemma nl_rtgen_request_sent_witness : exists st data,
  neigh_request_update (al := sample_alloc) (kernel := refusing_kernel) 4711 4096 10 sk0 0 (lib0, w0) =
    Some ((set_seq_next 8 sk0, 0, 0), st) /\ map fst (log (snd st)) = [SendmsgAddr 3 16 0 0 data []] /\ drop 16 data = [10; 0; 0; 0].
Proof.
  destruct (nl_rtgen_request_sent (al := sample_alloc) (kernel := refusing_kernel) 4711 4096 sample_alloc_total ltac:(lia)
    sk0 RTM_GETNEIGH 10 NLM_F_DUMP 0 sum_cb lib0 w0) as (res & st & E & data & -> & _ & _ & Hlog & _ & _ & Hd & _).
  - reflexivity.
  - by split.
  - simpl. lia.
  - simpl. lia.
  - reflexivity.
  - simpl. lia.
  - exact refusing_takes_all.
  - unfold RTM_GETNEIGH. lia.
  - lia.
  - exists st, data. split; [exact E|]. split; [exact Hlog|exact Hd].
Defined.

End NlRequest.
