(* ===== verification/NlSync.v ===== *)
(** * Filling caches of libnl from the kernel ([lib/cache.c])

    [nl_cache_refill] empties a cache, asks the kernel for a dump and picks the
    answer up: every message is handed to the parser of the object type, which
    makes an object of it and passes it to [pickup_cb]; this replaces the
    object of the cache that is identical to the new one.  The objects and the
    caches are those of [NlCache], the socket and the loop over the datagrams
    those of [NlRecv], the request is one of [NlRequest].

    A parser works on values: what an object type makes of the bytes of a
    message is a function [decode]; [NlNeigh] proves it of the pointers.

    The theorems: one message changes the cache as a list of values without
    two identical ones; a whole dump makes the cache that list of the dump;
    for neighbours, the list of what was encoded. *)

From S2P Require Import Prelude Netlink Syscalls NetRequests NlParse NlAttr NlCache NlCacheInv NlSocket NlRecv NlAddr NlRtnl NlRule NlNeigh NlRequest.
From Stdlib Require Import ZArith Lia.
From stdpp Require Import base list numbers option gmap sets.

Open Scope Z_scope.

Module NlSync.
Import NlCache NlCacheInv.
Import NlAttr (NLE_MSG_TOOSHORT).
Import NlSocket (NLE_PROTO_MISMATCH).

Definition NL_CACHE_AF_ITER : Z := 1.

(** ** Parsing *)

Section Parse.
Context {D : Type} {al : Allocator} (ops_at : Z -> nl_object_ops D).

Abbreviation M := (@M D).

(** What a message says of an object: its type and its content. *)
Definition value : Type := Z * content D.

Definition set_value (v : value) (o : nl_object D) : nl_object D :=
  Object (ce_refcnt o) (ce_ops o) (ce_cache o) (fst v) (ce_flags o) (snd v).

Definition of_opt {B} (x : option B) : M B := fun m => b ← x; Some (b, m).

(** [co_msg_parser] of an object type: a new object gets what the message
    says or is freed; the callback may keep a reference.  [None] of [decode] is
    undefined behaviour. *)
Definition msg_parser (fuel : nat) (ops : Z) (decode : bytes -> option (Z + value)) (pp_cb : positive -> M Z) (nlh : bytes) : M Z :=
  p ← nl_object_alloc ops_at ops;
  match p with
  | None => mret (- NLE_NOMEM)
  | Some l =>
      r ← of_opt (decode nlh);
      match r with
      | inl err => nl_object_put ops_at fuel l ;; mret err
      | inr v =>
          o ← get_obj l; put_obj l (set_value v o) ;;
          err ← pp_cb l;
          nl_object_put ops_at fuel l ;; mret err
      end
  end.

(** [for (i = 0; ops->co_msgtypes[i].mt_id >= 0; i++)]. *)
Fixpoint parse_types (types : list (Z * Z)) (type : Z) (parser : bytes -> M Z) (nlh : bytes) : M Z :=
  match types with
  | [] => mret (- NLE_MSGTYPE_NOSUPPORT)
  | (mt_id, _) :: types' =>
      if mt_id =? type then
        err ← parser nlh;
        if negb (err =? - NLE_OPNOTSUPP) then mret err else parse_types types' type parser nlh
      else parse_types types' type parser nlh
  end.

Definition nl_cache_parse (fuel : nat) (co_hdrsize : Z) (decode : bytes -> option (Z + value)) (ops : nl_cache_ops)
    (nlh : bytes) (pp_cb : positive -> M Z) : M Z :=
  valid ← of_opt (NlAttr.nlmsg_valid_hdr nlh 0 co_hdrsize);
  if negb valid then mret (- NLE_MSG_TOOSHORT) else
  type ← of_opt (NlParse.rd 4 2 nlh);
  parse_types (co_msgtypes ops) type (msg_parser fuel (co_obj_ops ops) decode pp_cb) nlh.

Definition nl_cache_parse_and_add (fuel : nat) (co_hdrsize : Z) (decode : bytes -> option (Z + value)) (c : positive) (msg : NlAttr.nl_msg) : M Z :=
  x ← get_cache c; nl_cache_parse fuel co_hdrsize decode (c_ops x) (NlAttr.nm_nlh msg) (pickup_cb ops_at fuel c).

Definition nl_cache_set_arg1 (c : positive) (arg : Z) : M unit :=
  x ← get_cache c; put_cache c (Cache (c_nitems x) arg (c_iarg2 x) (c_refcnt x) (c_flags x) (hashtable x) (c_ops x)).
Definition nl_cache_set_arg2 (c : positive) (arg : Z) : M unit :=
  x ← get_cache c; put_cache c (Cache (c_nitems x) (c_iarg1 x) arg (c_refcnt x) (c_flags x) (hashtable x) (c_ops x)).
Definition nl_cache_set_flags (c : positive) (flags : Z) : M unit :=
  x ← get_cache c; put_cache c (Cache (c_nitems x) (c_iarg1 x) (c_iarg2 x) (c_refcnt x) (Z.lor (c_flags x) flags) (hashtable x) (c_ops x)).

End Parse.

(** ** One message *)

Section Mirror.
Context {D : Type} {al : Allocator} (ops_at : Z -> nl_object_ops D) {laws : ObjectLaws ops_at}.
Hypothesis memory : malloc_total al.
Implicit Types (m : mem D) (l c y : positive) (o : nl_object D) (u v : value (D := D)).

Abbreviation M := (@M D).

(** *** The specification: a list of values without two identical ones *)

Definition as_object (ops : Z) v : nl_object D := Object 1 ops None (fst v) 0 (snd v).
Definition ident (ops : Z) u v : bool := identical ops_at (as_object ops u) (as_object ops v).

(** The list without the first element for which [f] holds. *)
Fixpoint without {A} (f : A -> bool) (xs : list A) : list A :=
  match xs with [] => [] | x :: xs' => if f x then xs' else x :: without f xs' end.

Definition absorb (ops : Z) (vs : list (value (D := D))) v : list (value (D := D)) := without (fun u => ident ops u v) vs ++ [v].

(** The object at [l] has the value [v], and [r] references are held on it. *)
Definition owned m (r : Z) l v : Prop :=
  exists o, objs m !! l = Some o /\ ce_msgtype o = fst v /\ ce_content o = snd v /\ ce_refcnt o = r.

(** The cache at [c] has exactly the values [vs] and nobody else holds them. *)
Definition mirrors m c (x : nl_cache) (vs : list (value (D := D))) : Prop :=
  exists items, cache_ok ops_at m c x items /\ Forall2 (owned m (refs x)) items vs.

(** [x'] is [x] with other objects in it. *)
Definition same_cache (x x' : nl_cache) : Prop :=
  exists n h, x' = set_nitems n (set_hashtable h x) /\ match hashtable x with Some _ => is_Some h | None => h = None end.

(** Everything outside the cache [c] is as before. *)
Definition outside m m' c : Prop :=
  (forall y o, objs m !! y = Some o -> ce_cache o <> Some c -> objs m' !! y = Some o) /\
  (forall c' x' items', c <> c' -> cache_ok ops_at m c' x' items' -> cache_ok ops_at m' c' x' items').

Lemma outside_refl m c : outside m m c.
Proof. by split. Qed.

Lemma outside_trans m1 m2 m3 c : outside m1 m2 c -> outside m2 m3 c -> outside m1 m3 c.
Proof. intros [H1 H2] [H3 H4]. split; eauto. Qed.

Lemma same_cache_refs x x' : same_cache x x' -> refs x' = refs x.
Proof. intros (n & h & -> & Hh). unfold refs. cbn. destruct (hashtable x); [by destruct Hh as [? ->]|by rewrite Hh]. Qed.

Lemma same_cache_trans x1 x2 x3 : same_cache x1 x2 -> same_cache x2 x3 -> same_cache x1 x3.
Proof.
  intros (n1 & h1 & -> & H1) (n2 & h2 & -> & H2). exists n2, h2. split; [done|]. cbn in H2.
  destruct (hashtable x1); [by destruct H1 as [? ->]|by rewrite H1 in H2].
Qed.

(** *** Steps *)

(** A cache does not see how many references are held on its objects, as long
    as its own are counted. *)
Lemma cache_ok_set_refs m c x items l o r : cache_ok ops_at m c x items -> l ∈ items -> objs m !! l = Some o -> refs x <= r <= INT_MAX ->
  cache_ok ops_at (with_objs (<[l := set_refcnt r o]>) m) c x items.
Proof.
  intros Hc Hl E Hr. pose proof (items_live _ _ _ _ _ Hc) as Hlive. destruct Hc as [Hcc Hnd Hring Hit Hn Ht]. constructor; try done.
  - intros y Hy. destruct (Hit y Hy) as (oy & Ey & H1 & H2 & H3). unfold item_ok. cbn [with_objs objs]. destruct (decide (l = y)) as [->|Hne].
    + exists (set_refcnt r o). rewrite lookup_insert_eq. rewrite E in Ey. injection Ey as <-. done.
    + exists oy. by rewrite lookup_insert_ne.
  - destruct (hashtable x) as [ht|]; [|done]. apply table_ok_ext with m; [|done].
    by apply (same_contents_update m (with_objs (<[l := set_refcnt r o]>) m) l o (set_refcnt r o) items).
Qed.

(** A new object with a value. *)
Lemma run_new_object ops v m : nl_object_size <= oo_size (ops_at ops) < 2 ^ 31 -> exists l m1 m2,
  nl_object_alloc ops_at ops m = Some (Some l, m1) /\ (o ← get_obj l; put_obj l (set_value v o)) m1 = Some (tt, m2) /\
  objs m !! l = None /\ detached m2 l (as_object ops v) /\ objs m2 = <[l := as_object ops v]> (objs m) /\ changes m2 = changes m /\
  (forall c x items, cache_ok ops_at m c x items -> cache_ok ops_at m2 c x items).
Proof.
  intros Hsz. unfold nl_object_alloc. rewrite (proj2 (Z.ltb_ge _ _)) by lia. rewrite memory by (unfold nl_object_size in Hsz; lia).
  set (l := fresh (dom (objs m))). assert (objs m !! l = None) as Hfresh by (apply not_elem_of_dom, is_fresh).
  eexists l, _, _. split; [reflexivity|]. unfold get_obj, put_obj, mbind, M_bind. cbn [objs caches links freed changes].
  rewrite lookup_insert_eq. cbn [mbind option_bind]. split; [reflexivity|]. cbn [objs]. rewrite insert_insert_eq. split; [done|]. split; [|split; [done|split; [done|]]].
  - split; [apply lookup_insert_eq|]. split; [done|]. apply lookup_insert_eq.
  - intros c x items Hc. assert (l ∉ items) as Hni.
    { intros Hl. destruct (items_live _ _ _ _ _ Hc l Hl) as [o E]. congruence. }
    apply cache_ok_frame with m; [done|apply (ck_cache _ _ _ _ _ Hc)| |]; cbn [objs links].
    + intros y Hy. apply lookup_insert_ne. by intros <-.
    + intros n Hn. apply lookup_insert_ne. intros <-. destruct Hn as [Hn|Hn]; [done|]. apply list_elem_of_fmap in Hn as (y & [= <-] & Hy). done.
Qed.

(** Searching the objects and searching their values. *)
Lemma find_values {A B : Type} (f : A -> bool) (g : B -> bool) (R : A -> B -> Prop) xs us : Forall2 R xs us -> (forall (x : A) (b : B), R x b -> f x = g b) ->
  match List.find f xs with
  | None => List.find g us = None /\ without g us = us
  | Some y => exists xs1 xs2 us1 (b : B) us2, xs = xs1 ++ y :: xs2 /\ us = us1 ++ b :: us2 /\ R y b /\ Forall2 R (xs1 ++ xs2) (us1 ++ us2) /\
      List.find g us = Some b /\ without g us = us1 ++ us2
  end.
Proof.
  intros H Hfg. induction H as [|x u xs us Hxu H IH]; [done|]. cbn [List.find without]. rewrite (Hfg x u Hxu). destruct (g u).
  - by exists [], xs, [], u, us.
  - destruct (List.find f xs) as [y|]; [|by destruct IH as [-> ->]]. destruct IH as (xs1 & xs2 & us1 & v & us2 & -> & -> & Hy & H12 & -> & ->).
    exists (x :: xs1), xs2, (u :: us1), v, us2. split_and!; try done. by constructor.
Qed.

Lemma owned_frame m m' r l v : objs m' !! l = objs m !! l -> owned m r l v -> owned m' r l v.
Proof. intros E (o & Eo & H). exists o. by rewrite E. Qed.

Lemma owned_frames m m' r items vs : (forall l, l ∈ items -> objs m' !! l = objs m !! l) ->
  Forall2 (owned m r) items vs -> Forall2 (owned m' r) items vs.
Proof.
  intros E H. induction H as [|l v items vs Hl H IH]; [done|]. constructor; [apply (owned_frame m); [apply E; by left|done]|].
  apply IH. intros y Hy. apply E. by right.
Qed.

(** Everything outside the cache [c] is as before, but for the object at [l]. *)
Definition outside_but m m' c l : Prop :=
  (forall y o, y <> l -> objs m !! y = Some o -> ce_cache o <> Some c -> objs m' !! y = Some o) /\
  (forall c' x' items', c <> c' -> cache_ok ops_at m c' x' items' -> cache_ok ops_at m' c' x' items').

(** The object a search found is taken out of the cache and freed. *)
Lemma run_drop_old f m c x i1 y i2 o l ol : cache_ok ops_at m c x (i1 ++ y :: i2) -> objs m !! y = Some o -> ce_refcnt o = refs x ->
  detached m l ol ->
  exists m' h, (nl_cache_remove ops_at (S (S (S f))) y ;; nl_object_put ops_at (S (S (S f))) y) (found m (Some y)) = Some (tt, m') /\
    cache_ok ops_at m' c (removed x h) (i1 ++ i2) /\ match hashtable x with Some _ => is_Some h | None => h = None end /\
    objs m' = delete y (objs m) /\ detached m' l ol /\ outside_but m m' c l.
Proof.
  intros Hc Ey Hr Hdet. set (m1 := found m (Some y)). pose proof (detached_not_in _ _ _ _ _ _ _ Hc Hdet) as Hni.
  assert (y <> l) as Hyl by (intros ->; apply Hni; clear; set_solver). assert (1 <= refs x <= 2) as Hr12 by (unfold refs; destruct (hashtable x); lia).
  set (o1 := set_refcnt (ce_refcnt o + 1) o).
  assert (m1 = with_objs (<[y := o1]>) m) as Em1 by (unfold m1, found, with_objs; by rewrite (alter_present _ _ _ _ Ey)).
  assert (objs m1 !! y = Some o1) as E1 by (rewrite Em1; apply lookup_insert_eq).
  assert (cache_ok ops_at m1 c x (i1 ++ y :: i2)) as Hc1.
  { apply cache_ok_found; [done|]. intros z oz [= <-]. rewrite Ey. intros [= <-]. unfold INT_MAX. lia. }
  destruct (run_cache_remove_ok ops_at f m1 c x i1 y i2 o1 Hc1 E1) as (m2 & h & E2 & Hc2 & Eo2 & _ & _ & Hh & _ & Hoth2).
  destruct (run_cache_remove ops_at f m1 c x i1 y i2 o1 Hc1 E1) as (m2' & h' & E2' & _ & _ & El2 & _). rewrite E2 in E2'. injection E2' as <-.
  unfold after_remove in Eo2. rewrite (proj2 (Z.eqb_neq (ce_refcnt o1) _)) in Eo2 by (simpl; lia). rewrite (run_bind _ _ _ _ _ E2).
  set (o2 := set_refcnt _ (set_ce_cache None o1)) in Eo2. assert (objs m2 !! y = Some o2) as E3 by (rewrite Eo2; apply lookup_insert_eq).
  rewrite (run_object_put_last ops_at (S f) y o2 m2 E3) by (done || (simpl; lia)). eexists _, h. split; [reflexivity|]. set (m3 := Mem _ _ _ _ _).
  assert (objs m3 = delete y (objs m)) as Eo3.
  { unfold m3. cbn [objs]. rewrite Eo2, Em1. cbn [with_objs objs]. by rewrite !delete_insert_eq. }
  assert (forall c' x' items', cache_ok ops_at m2 c' x' items' -> y ∉ items' -> cache_ok ops_at m3 c' x' items') as Hframe.
  { intros c' x' items' Hc' Hy. apply cache_ok_frame with m2; [done|apply (ck_cache _ _ _ _ _ Hc')| |]; unfold m3; cbn [objs links].
    - intros z Hz. apply lookup_delete_ne. by intros <-.
    - intros n Hn. apply lookup_delete_ne. intros <-. destruct Hn as [Hn|Hn]; [done|]. apply list_elem_of_fmap in Hn as (z & [= <-] & Hz). done. }
  pose proof (ck_nodup _ _ _ _ _ Hc) as Hnd.
  assert (y ∉ i1 ++ i2) as Hy12.
  { apply NoDup_app in Hnd as (_ & Hdis & [Hy2 _]%NoDup_cons). rewrite elem_of_app. intros [Hy|Hy]; [|done]. apply (Hdis y Hy). by left. }
  split_and!; [by apply Hframe|done|done| |].
  - destruct Hdet as (El & Hcc & Hlk). split; [by rewrite Eo3, lookup_delete_ne|]. split; [done|]. unfold m3. cbn [links].
    rewrite lookup_delete_ne by congruence. rewrite El2 by (left; congruence). rewrite unlinked_frame; [by rewrite Em1|done|..];
      intros (z & [= <-] & Hz)%list_elem_of_fmap; apply Hni; clear -Hz; set_solver.
  - split.
    + intros z oz Hz Ez Hcz. rewrite Eo3, lookup_delete_ne; [done|]. intros <-. rewrite Ey in Ez. injection Ez as <-.
      destruct (ck_items _ _ _ _ _ Hc y) as (o' & E' & Hcc & _); [clear; set_solver|]. congruence.
    + intros c' x' items' Hne Hc'. assert (y ∉ items') as Hy by (apply (caches_disjoint ops_at m c x (i1 ++ y :: i2) c' x' items' y); try done; clear; set_solver).
      apply Hframe; [|done]. apply Hoth2; [done|]. rewrite Em1. by apply cache_ok_objs_ne.
Qed.

Lemma mirrors_refs m c x vs : mirrors m c x vs -> 1 <= refs x <= 2.
Proof. intros _. unfold refs. destruct (hashtable x); lia. Qed.

Lemma same_as_ident m c x items v l u : cache_ok ops_at m c x items -> l ∈ items -> owned m (refs x) l u ->
  same ops_at m (as_object (co_obj_ops (c_ops x)) v) l = ident (co_obj_ops (c_ops x)) u v.
Proof.
  intros Hc Hl (o & E & _ & Ec & _). destruct (ck_items _ _ _ _ _ Hc l Hl) as (o' & E' & _ & Ho & _). rewrite E in E'. injection E' as <-.
  unfold same, ident. rewrite E. by apply identical_ext.
Qed.

Lemma run_pickup_add fuel m c x items vs l v : cache_ok ops_at m c x items -> Forall2 (owned m (refs x)) items vs ->
  detached m l (as_object (co_obj_ops (c_ops x)) v) -> (hashtable x <> None -> ident (co_obj_ops (c_ops x)) v v = true) -> zlen items < INT_MAX ->
  (hashtable x <> None -> List.find (same ops_at m (as_object (co_obj_ops (c_ops x)) v)) items = None) ->
  exists m' x', nl_cache_add ops_at fuel c l m = Some (0, m') /\ same_cache x x' /\ cache_ok ops_at m' c x' (items ++ [l]) /\
    Forall2 (owned m' (refs x)) items vs /\
    objs m' !! l = Some (set_refcnt (1 + refs x) (set_ce_cache (Some c) (as_object (co_obj_ops (c_ops x)) v))) /\ outside_but m m' c l.
Proof.
  intros Hc Hown Hdet Hself Hlen Hnone. pose proof (detached_not_in _ _ _ _ _ _ _ Hc Hdet) as Hni.
  destruct (run_cache_add_ok ops_at fuel m c x items l (as_object (co_obj_ops (c_ops x)) v) Hc Hdet) as (m' & h & E & Hc' & Eo & _ & _ & Hh & Hoth);
    [done|cbn; unfold INT_MAX; lia|done|done| |].
  { unfold add_result. destruct (hashtable x); [|done]. rewrite Hnone by done. by rewrite memory. }
  exists m', (added x h). split_and!; [done|by exists (c_nitems x + 1), h|done| |rewrite Eo; apply lookup_insert_eq|split; [|done]].
  - apply (owned_frames m); [|done]. intros y Hy. rewrite Eo. apply lookup_insert_ne. by intros <-.
  - intros y oy Hy Ey _. rewrite Eo. by rewrite lookup_insert_ne.
Qed.

Lemma outside_but_trans m1 m2 m3 c l : outside_but m1 m2 c l -> outside_but m2 m3 c l -> outside_but m1 m3 c l.
Proof. intros [H1 H2] [H3 H4]. split; eauto. Qed.

(** Searching the cache is searching the list of values. *)
Lemma run_search_values m c x items vs l v : cache_ok ops_at m c x items -> Forall2 (owned m (refs x)) items vs ->
  detached m l (as_object (co_obj_ops (c_ops x)) v) -> let ops := co_obj_ops (c_ops x) in let r := List.find (same ops_at m (as_object ops v)) items in
  nl_cache_search ops_at c l m = Some (r, found m r) /\
  match r with
  | None => List.find (fun u => ident ops u v) vs = None /\ without (fun u => ident ops u v) vs = vs
  | Some y => exists i1 i2 vs1 u vs2, items = i1 ++ y :: i2 /\ vs = vs1 ++ u :: vs2 /\ owned m (refs x) y u /\ Forall2 (owned m (refs x)) (i1 ++ i2) (vs1 ++ vs2) /\
      List.find (fun u => ident ops u v) vs = Some u /\ without (fun u => ident ops u v) vs = vs1 ++ vs2
  end.
Proof.
  intros Hc Hown Hdet ops r. assert (1 <= refs x <= 2) as Hr12 by (unfold refs; destruct (hashtable x); lia). pose proof (Forall2_length _ _ _ Hown) as Hlen2. split.
  - apply (run_cache_search ops_at m c x items l (as_object ops v) Hc (proj1 Hdet)). intros y oy Hy Ey. apply list_elem_of_lookup_1 in Hy as [k Hk].
    destruct (Forall2_lookup_l _ _ _ _ _ Hown Hk) as (u & _ & oy' & Ey' & _ & _ & Hr). rewrite Ey in Ey'. injection Ey' as <-. unfold INT_MAX. lia.
  - assert (Forall2 (fun y u => y ∈ items /\ owned m (refs x) y u) items vs) as Hown'.
    { apply Forall2_same_length_lookup_2; [done|]. intros k y u Hy Hu. split; [by eapply list_elem_of_lookup_2|]. by eapply Forall2_lookup_lr. }
    pose proof (find_values (same ops_at m (as_object ops v)) (fun u => ident ops u v) _ items vs Hown' ltac:(intros y u [Hy Hu]; by apply (same_as_ident m c x items))) as Hfind.
    fold r in Hfind. destruct r as [y|]; [|done]. destruct Hfind as (i1 & i2 & vs1 & u & vs2 & -> & -> & [_ Hy] & H12 & Ef & ->).
    exists i1, i2, vs1, u, vs2. split_and!; try done. eapply Forall2_impl; [exact H12|]. by intros ? ? [].
Qed.

(** The function that updates an object is not there. *)
Lemma run_no_update m c x items y l o : cache_ok ops_at m c x items -> y ∈ items -> detached m l o -> oo_update (ops_at (co_obj_ops (c_ops x))) = None ->
  nl_object_update ops_at y l (found m (Some y)) = Some (- NLE_OPNOTSUPP, found m (Some y)).
Proof.
  intros Hc Hy Hdet Hup. destruct (ck_items _ _ _ _ _ Hc y Hy) as (oy & Ey & _ & Hoy & _).
  assert (y <> l) as Hyl by (intros ->; by apply (detached_not_in _ _ _ _ _ _ _ Hc Hdet)).
  unfold nl_object_update. erewrite run_bind by (apply run_get_obj; cbn; by rewrite lookup_alter_eq, Ey).
  erewrite run_bind by (apply run_get_obj; cbn; rewrite lookup_alter_ne by done; apply Hdet). cbn [ce_ops set_refcnt]. rewrite Hoy. by rewrite Hup.
Qed.

(** Without the object that was found, a hash table finds none. *)
Lemma find_others m m1 x ht i1 y i2 o : hashtable x = Some ht -> table_ok ops_at m ht (i1 ++ y :: i2) -> List.find (same ops_at m o) (i1 ++ y :: i2) = Some y ->
  y ∉ i1 ++ i2 -> (forall z, z ∈ i1 ++ i2 -> objs m1 !! z = objs m !! z) -> List.find (same ops_at m1 o) (i1 ++ i2) = None.
Proof.
  intros Ehx Ht Ef Hy Ho. apply find_none. intros z Hz. destruct (same ops_at m1 o z) eqn:Es; [|done]. exfalso. assert (z <> y) as Hzy by (by intros ->).
  apply Hzy, (same_unique ops_at m ht _ o z y Ht); [clear -Hz; set_solver|clear; set_solver| |by apply find_elem in Ef as [_ ?]].
  unfold same in *. by rewrite Ho in Es.
Qed.

(** The callback of a dump puts the object where a list of values would. *)
Lemma run_pickup f m c x vs l v : mirrors m c x vs -> detached m l (as_object (co_obj_ops (c_ops x)) v) ->
  oo_update (ops_at (co_obj_ops (c_ops x))) = None -> (hashtable x <> None -> ident (co_obj_ops (c_ops x)) v v = true) -> zlen vs < INT_MAX ->
  exists m' x' items, pickup_cb ops_at (S (S (S f))) c l m = Some (0, m') /\ same_cache x x' /\
    cache_ok ops_at m' c x' (items ++ [l]) /\ Forall2 (owned m' (refs x)) items (without (fun u => ident (co_obj_ops (c_ops x)) u v) vs) /\
    objs m' !! l = Some (set_refcnt (1 + refs x) (set_ce_cache (Some c) (as_object (co_obj_ops (c_ops x)) v))) /\ outside_but m m' c l.
Proof.
  intros [items [Hc Hown]] Hdet Hup Hself Hlen. set (ops := co_obj_ops (c_ops x)) in *. set (o := as_object ops v) in *.
  pose proof (Forall2_length _ _ _ Hown) as Hlen2. assert (zlen items = zlen vs) as Hz by (unfold zlen; lia).
  destruct (run_search_values m c x items vs l v Hc Hown Hdet) as [Es Hfind]. fold ops o in Es, Hfind. unfold pickup_cb. rewrite (run_bind _ _ _ _ _ Es). clear Es.
  destruct (List.find (same ops_at m o) items) as [y|] eqn:Ef.
  - destruct Hfind as (i1 & i2 & vs1 & u & vs2 & -> & -> & (oy & Ey & _ & _ & Hry) & H12 & _ & ->).
    destruct (run_drop_old f m c x i1 y i2 oy l o Hc Ey Hry Hdet) as (m1 & h & E1 & Hc1 & Hh & Eo1 & Hdet1 & Hout1).
    rewrite (run_bind _ _ _ _ _ (run_no_update m c x (i1 ++ y :: i2) y l o Hc ltac:(clear; set_solver) Hdet Hup)).
    change (- NLE_OPNOTSUPP =? 0) with false. cbv iota. rewrite bind_assoc, (run_bind _ _ _ _ _ E1).
    assert (y ∉ i1 ++ i2) as Hy12.
    { pose proof (ck_nodup _ _ _ _ _ Hc) as (_ & Hdis & [Hy2 _]%NoDup_cons)%NoDup_app. rewrite elem_of_app. intros [Hy|Hy]; [|done]. apply (Hdis y Hy). by left. }
    assert (forall z, z ∈ i1 ++ i2 -> objs m1 !! z = objs m !! z) as Ho1 by (intros z Hz1; rewrite Eo1; apply lookup_delete_ne; by intros <-).
    assert (refs (removed x h) = refs x) as Hrefs.
    { apply same_cache_refs. by exists (c_nitems x - 1), h. }
    destruct (run_pickup_add (S (S (S f))) m1 c (removed x h) (i1 ++ i2) (vs1 ++ vs2) l v) as (m2 & x' & E2 & Hx' & Hc2 & Hown2 & El2 & Hout2); try done.
    + rewrite Hrefs. by apply (owned_frames m).
    + intros Hne. apply Hself. intros Hn. rewrite Hn in Hh. by rewrite Hh in Hne.
    + rewrite zlen_app, zlen_cons in Hz. rewrite !zlen_app, zlen_cons in Hlen. rewrite zlen_app. unfold zlen in *. rewrite length_app in Hlen2. cbn [length] in Hlen2. rewrite length_app in Hlen2. cbn [length] in Hlen2. lia.
    + intros Hne. pose proof (ck_table _ _ _ _ _ Hc) as Ht. destruct (hashtable x) as [ht|] eqn:Ehx; [|by rewrite Hh in Hne].
      by apply (find_others m m1 x ht i1 y i2 o).
    + exists m2, x', (i1 ++ i2). rewrite Hrefs in *. split_and!; try done; [|by apply (outside_but_trans m m1 m2)].
      apply (same_cache_trans x (removed x h)); [|done]. by exists (c_nitems x - 1), h.
  - destruct Hfind as [_ ->]. destruct (run_pickup_add (S (S (S f))) m c x items vs l v) as (m2 & x' & E2 & Hx' & Hc2 & Hown2 & El2 & Hout2); try done; [lia|].
    by exists m2, x', items.
Qed.

Lemma mirrors_snoc m c x items l vs v o : cache_ok ops_at m c x (items ++ [l]) -> Forall2 (owned m (refs x)) items vs ->
  objs m !! l = Some o -> ce_msgtype o = fst v -> ce_content o = snd v -> refs x <= ce_refcnt o ->
  mirrors (with_objs (<[l := set_refcnt (refs x) o]>) m) c x (vs ++ [v]).
Proof.
  intros Hc Hown E H1 H2 Hr. assert (1 <= refs x <= 2) as Hr12 by (unfold refs; destruct (hashtable x); lia).
  pose proof (ck_nodup _ _ _ _ _ Hc) as (_ & Hdis & _)%NoDup_app. exists (items ++ [l]). split.
  - apply cache_ok_set_refs; [done|clear; set_solver|done|unfold INT_MAX; lia].
  - apply Forall2_app; [|constructor; [|done]].
    + apply (owned_frames m); [|done]. intros y Hy. cbn [with_objs objs]. apply lookup_insert_ne. intros <-. apply (Hdis l Hy). by left.
    + exists (set_refcnt (refs x) o). cbn [with_objs objs]. by rewrite lookup_insert_eq.
Qed.

(** What is asked of a cache and a value for the steps below. *)
Record fillable (x : nl_cache) : Prop := {
  fl_size : nl_object_size <= oo_size (ops_at (co_obj_ops (c_ops x))) < 2 ^ 31;
  fl_update : oo_update (ops_at (co_obj_ops (c_ops x))) = None
}.
Definition identifies (x : nl_cache) v : Prop := hashtable x <> None -> ident (co_obj_ops (c_ops x)) v v = true.

Lemma run_msg_parser f m c x vs decode nlh v : mirrors m c x vs -> fillable x -> identifies x v -> zlen vs < INT_MAX -> decode nlh = Some (inr v) ->
  exists m' x', msg_parser ops_at (S (S (S f))) (co_obj_ops (c_ops x)) decode (pickup_cb ops_at (S (S (S f))) c) nlh m = Some (0, m') /\
    same_cache x x' /\ mirrors m' c x' (absorb (co_obj_ops (c_ops x)) vs v) /\ outside m m' c.
Proof.
  intros [items [Hc Hown]] [Hsz Hup] Hself Hlen Ed. set (ops := co_obj_ops (c_ops x)) in *.
  destruct (run_new_object ops v m Hsz) as (l & m1 & m2 & E1 & E2 & Hfresh & Hdet & Eo2 & _ & Hframe).
  assert (mirrors m2 c x vs) as Hm2.
  { exists items. split; [by apply Hframe|]. apply (owned_frames m); [|done]. intros y Hy. rewrite Eo2. apply lookup_insert_ne. intros <-.
    destruct (items_live _ _ _ _ _ Hc l Hy). congruence. }
  destruct (run_pickup f m2 c x vs l v Hm2 Hdet Hup Hself Hlen) as (m3 & x' & items3 & E3 & Hx' & Hc3 & Hown3 & El3 & Hout3).
  unfold msg_parser. rewrite (run_bind _ _ _ _ _ E1), Ed. assert (of_opt (Some (inr v : Z + value)) m1 = Some (inr v, m1)) as Eo by done.
  rewrite (run_bind _ _ _ _ _ Eo), bind_assoc, (run_bind _ _ _ _ _ E2), (run_bind _ _ _ _ _ E3).
  pose proof (same_cache_refs _ _ Hx') as Hrefs. assert (1 <= refs x <= 2) as Hr12 by (unfold refs; destruct (hashtable x); lia).
  set (o3 := set_refcnt (1 + refs x) _) in El3. rewrite (run_bind _ _ _ _ _ (run_object_put_shared ops_at _ l o3 m3 El3 ltac:(cbn; unfold INT_MAX; lia))).
  assert (ce_refcnt o3 - 1 = refs x') as -> by (cbn; lia). eexists _, x'. split; [reflexivity|]. split; [done|]. split.
  - apply (mirrors_snoc m3 c x' items3 l _ v o3); try done; [by rewrite Hrefs|cbn; lia].
  - destruct Hout3 as [Ho3 Hoc3]. split.
    + intros y o Ey Hy. assert (y <> l) as Hyl by congruence. cbn [with_objs objs]. rewrite lookup_insert_ne by done. apply Ho3; [done| |done].
      rewrite Eo2. by rewrite lookup_insert_ne.
    + intros c' x1 items' Hne Hc'. pose proof (Hoc3 c' x1 items' Hne (Hframe _ _ _ Hc')) as Hc3'.
      apply cache_ok_objs_ne; try done. apply (caches_disjoint ops_at m3 c x' (items3 ++ [l]) c' x1 items'); try done. clear. set_solver.
Qed.

(** A message of a type of the cache that says [v]. *)
Record says (hdrsize : Z) (decode : bytes -> option (Z + value (D := D))) (ops : nl_cache_ops) (nlh : bytes) v : Prop := {
  sy_valid : NlAttr.nlmsg_valid_hdr nlh 0 hdrsize = Some true;
  sy_type : exists type, NlParse.rd 4 2 nlh = Some type /\ type ∈ map fst (co_msgtypes ops);
  sy_value : decode nlh = Some (inr v)
}.

Lemma run_parse_types types type (parser : bytes -> M Z) nlh m m' err : type ∈ map fst types -> parser nlh m = Some (err, m') -> err <> - NLE_OPNOTSUPP ->
  parse_types types type parser nlh m = Some (err, m').
Proof.
  intros Hin Ep Hne. induction types as [|[id act] types IH]; [by apply not_elem_of_nil in Hin|]. cbn [parse_types].
  destruct (Z.eqb_spec id type) as [->|Hid].
  - rewrite (run_bind _ _ _ _ _ Ep). by rewrite (proj2 (Z.eqb_neq _ _) Hne).
  - apply IH. cbn in Hin. apply elem_of_cons in Hin as [Hin|Hin]; [congruence|done].
Qed.

Lemma run_cache_parse f m c x vs hdrsize decode nlh v : mirrors m c x vs -> fillable x -> identifies x v -> zlen vs < INT_MAX ->
  says hdrsize decode (c_ops x) nlh v ->
  exists m' x', nl_cache_parse ops_at (S (S (S f))) hdrsize decode (c_ops x) nlh (pickup_cb ops_at (S (S (S f))) c) m = Some (0, m') /\
    same_cache x x' /\ mirrors m' c x' (absorb (co_obj_ops (c_ops x)) vs v) /\ outside m m' c.
Proof.
  intros Hm Hf Hid Hlen [Hv (type & Ht & Hin) Hd]. destruct (run_msg_parser f m c x vs decode nlh v Hm Hf Hid Hlen Hd) as (m' & x' & E & H).
  exists m', x'. split; [|done]. unfold nl_cache_parse.
  assert (forall B (b : B), of_opt (Some b) m = Some (b, m)) as Eo by done.
  rewrite Hv, (run_bind _ _ _ _ _ (Eo _ true)), Ht. cbn [negb]. rewrite (run_bind _ _ _ _ _ (Eo _ type)). by apply run_parse_types.
Qed.

(** One message of a dump: [nl_cache_parse_and_add] makes an object of a
    message of a type of the cache and puts it behind the others; the object
    of the cache that is identical to it, found through the hash table or the
    list, is taken out and freed.  The cache holds each object alone, and the
    objects and caches outside are as before. *)
Theorem nl_cache_parse_and_add_absorbs fuel m c x vs hdrsize decode msg v :
  mirrors m c x vs -> fillable x -> identifies x v -> zlen vs < INT_MAX -> says hdrsize decode (c_ops x) (NlAttr.nm_nlh msg) v -> (3 <= fuel)%nat ->
  exists m' x', nl_cache_parse_and_add ops_at fuel hdrsize decode c msg m = Some (0, m') /\
    same_cache x x' /\ mirrors m' c x' (absorb (co_obj_ops (c_ops x)) vs v) /\ outside m m' c.
Proof.
  intros Hm Hf Hid Hlen Hs Hfuel. destruct fuel as [|[|[|f]]]; [lia..|].
  destruct (run_cache_parse f m c x vs hdrsize decode (NlAttr.nm_nlh msg) v Hm Hf Hid Hlen Hs) as (m' & x' & E & H). exists m', x'. split; [|done].
  unfold nl_cache_parse_and_add. destruct Hm as (items & Hc & _). by rewrite (run_bind _ _ _ _ _ (run_get_cache _ _ _ (ck_cache _ _ _ _ _ Hc))).
Qed.

End Mirror.

(** ** Sockets and caches together *)

Section Sync.
Import Syscalls NlSocket NlRecv.
Import NlAttr (nl_msg).
Context {D : Type} {al : Allocator} {kernel : Kernel} {outputs : RecvOutputs} (ops_at : Z -> nl_object_ops D).
Variable getpagesize : Z.

(** The memory of the caches is what the callbacks work on; [None] is
    undefined behaviour in one of them. *)
Abbreviation memory := (option (mem D)).

(** [struct nl_parser_param]: [pickup_cb] with a cache, or [resync_cb] with a
    cache and whether a change callback was given. *)
Inductive parser_param := Pickup (c : positive) | Resync (c : positive) (cb : bool).
Record update_xdata := Xdata { x_ops : nl_cache_ops; x_params : parser_param }.

Abbreviation N := (@NlSocket.N nl_msg nlmsgerr update_xdata memory (@RM memory) RV SD).
Abbreviation result := (nl_sock * memory * Z)%type.

(** The fields of [struct nl_cache_ops] that [NlCache] does not need:
    [co_groups] is the family and the group of every entry up to the
    terminating one, [co_decode] stands for [co_msg_parser]. *)
Record cache_type := CacheType {
  co_protocol : Z;
  co_hdrsize : Z;
  co_groups : option (list (Z * Z));
  co_decode : bytes -> option (Z + value (D := D));
  co_request_update : option (nl_cache -> nl_sock -> memory -> N result)
}.

Definition on_memory {B} (x : @M D B) (s : memory) : N (B * memory) :=
  of_option ('(b, m) ← (m ← s; x m); Some (b, Some m)).

Definition param_cb (fuel : nat) (p : parser_param) (l : positive) : @M D Z :=
  match p with Pickup c => pickup_cb ops_at fuel c l | Resync c cb => nl_cache_include ops_at fuel c l cb end.

Definition update_msg_parser (fuel : nat) (t : cache_type) : @msg_cb nl_msg update_xdata memory := fun msg arg s =>
  match (x ← arg; m ← s; nl_cache_parse ops_at fuel (co_hdrsize t) (co_decode t) (x_ops x) (NlAttr.nm_nlh msg) (param_cb fuel (x_params x)) m) with
  | None => (NL_STOP, None)
  | Some (ret, m) => (if ret =? - NLE_EXIST then NL_SKIP else ret, Some m)
  end.

Definition __cache_pickup (fuel : nat) (t : cache_type) (sk : nl_sock) (c : positive) (p : parser_param) (s : memory) : N result :=
  '(x, s) ← on_memory (get_cache c) s;
  q ← nl_cb_clone err_code (s_cb sk);
  match q with
  | None => mret (sk, s, - NlSocket.NLE_NOMEM)
  | Some k =>
      cb ← get_cb k;
      put_cb k (fst (nl_cb_set cb NL_CB_VALID NL_CB_CUSTOM (Some (update_msg_parser fuel t)) (Some (Xdata (c_ops x) p)))) ;;
      cb ← get_cb k;
      '(sk, s, err) ← lift (nl_recvmsgs getpagesize fuel sk cb s);
      m ← of_option s;
      nl_cb_put (Some k) ;; mret (sk, Some m, err)
  end.

Definition nl_cache_pickup (fuel : nat) (t : cache_type) (sk : nl_sock) (c : positive) (s : memory) : N result :=
  if negb (s_proto sk =? co_protocol t) then mret (sk, s, - NLE_PROTO_MISMATCH) else
  __cache_pickup fuel t sk c (Pickup c) s.

Definition nl_cache_request_full_dump (t : cache_type) (sk : nl_sock) (c : positive) (s : memory) : N result :=
  if negb (s_proto sk =? co_protocol t) then mret (sk, s, - NLE_PROTO_MISMATCH) else
  match co_request_update t with
  | None => mret (sk, s, - NLE_OPNOTSUPP)
  | Some request => '(x, s) ← on_memory (get_cache c) s; request x sk s
  end.

(** From [restart:] on: a dump that was interrupted is asked for again. *)
Fixpoint full_dump (fuel n : nat) (t : cache_type) (sk : nl_sock) (c : positive) (pickup : nl_sock -> memory -> N result) (s : memory) : N result :=
  match n with
  | O => bug
  | Datatypes.S n' =>
      '(sk, s, err) ← nl_cache_request_full_dump t sk c s;
      if err <? 0 then mret (sk, s, err) else
      '(sk, s, err) ← pickup sk s;
      if err =? - NLE_DUMP_INTR then full_dump fuel n' t sk c pickup s else mret (sk, s, err)
  end.

(** [cache->c_flags & NL_CACHE_AF_ITER]. *)
Definition af_iter (x : nl_cache) : bool := negb (Z.land (c_flags x) NL_CACHE_AF_ITER =? 0).

(** The loop over the groups; [[]] is the terminating entry, whose group is 0
    and behind which the array ends. *)
Fixpoint each_group (fuel : nat) (t : cache_type) (sk : nl_sock) (c : positive) (pickup : nl_sock -> memory -> N result)
    (grp : list (Z * Z)) (s : memory) : N result :=
  match grp with
  | [] => bug
  | (ag_family, ag_group) :: grp' =>
      '(x, s) ← on_memory (get_cache c) s;
      '(_, s) ← (if negb (ag_group =? 0) && af_iter x then on_memory (nl_cache_set_arg1 c ag_family) s else mret (tt, s));
      '(sk, s, err) ← full_dump fuel fuel t sk c pickup s;
      if err <? 0 then mret (sk, s, err) else
      '(x, s) ← on_memory (get_cache c) s;
      match grp' with
      | (_, g) :: _ => if negb (g =? 0) && af_iter x then each_group fuel t sk c pickup grp' s else mret (sk, s, err)
      | [] => mret (sk, s, err)
      end
  end.

Definition all_groups (fuel : nat) (t : cache_type) (sk : nl_sock) (c : positive) (pickup : nl_sock -> memory -> N result) (s : memory) : N result :=
  match co_groups t with
  | None => full_dump fuel fuel t sk c pickup s
  | Some grp => each_group fuel t sk c pickup grp s
  end.

Definition nl_cache_refill (fuel : nat) (t : cache_type) (sk : nl_sock) (c : positive) (s : memory) : N result :=
  if negb (s_proto sk =? co_protocol t) then mret (sk, s, - NLE_PROTO_MISMATCH) else
  '(_, s) ← on_memory (nl_cache_clear ops_at fuel c) s;
  all_groups fuel t sk c (fun sk s => nl_cache_pickup fuel t sk c s) s.

(** [nl_list_for_each_entry_safe]: the objects that are still marked go. *)
Fixpoint sweep_from (fuel n : nat) (c : positive) (cb : bool) (pos next : node) : @M D unit :=
  match n with
  | O => undef
  | Datatypes.S n' =>
      if bool_decide (pos = Head c) then mret tt else
      match pos with
      | Head _ => undef
      | Obj l =>
          marked ← nl_object_is_marked l;
          (if negb (marked =? 0) then
             nl_object_get l ;; nl_cache_remove ops_at fuel l ;; notify cb l NL_ACT_DEL ;; nl_object_put ops_at fuel l
           else mret tt) ;;
          y ← get_link next;
          sweep_from fuel n' c cb next y.1
      end
  end.

Definition sweep (fuel : nat) (c : positive) (cb : bool) : @M D unit := fun m =>
  (h ← get_link (Head c); y ← get_link h.1; sweep_from fuel (Datatypes.S (size (objs m))) c cb h.1 y.1) m.

Definition nl_cache_resync (fuel : nat) (t : cache_type) (sk : nl_sock) (c : positive) (cb : bool) (s : memory) : N result :=
  if negb (s_proto sk =? co_protocol t) then mret (sk, s, - NLE_PROTO_MISMATCH) else
  '(_, s) ← on_memory (nl_cache_mark_all c) s;
  '(sk, s, err) ← all_groups fuel t sk c (fun sk s => __cache_pickup fuel t sk c (Resync c cb) s) s;
  if err <? 0 then mret (sk, s, err) else
  '(_, s) ← on_memory (sweep fuel c cb) s; mret (sk, s, 0).

(** The cache, or the error. *)
Definition nl_cache_alloc_and_fill (fuel : nat) (t : cache_type) (ops : nl_cache_ops) (sk : option nl_sock) (s : memory) :
    N (option nl_sock * memory * (Z + positive)) :=
  '(p, s) ← on_memory (nl_cache_alloc ops_at ops) s;
  match p with
  | None => mret (sk, s, inl (- NlCache.NLE_NOMEM))
  | Some c =>
      match sk with
      | None => mret (sk, s, inr c)
      | Some sk =>
          '(sk, s, err) ← nl_cache_refill fuel t sk c s;
          if err <? 0 then '(_, s) ← on_memory (nl_cache_free ops_at fuel (Some c)) s; mret (Some sk, s, inl err)
          else mret (Some sk, s, inr c)
      end
  end.

End Sync.

(** ** A dump fills a cache *)

Section Filled.
Import Syscalls NlSocket NlRecv.
Import NlAttr (nl_msg).
Import Netlink (le_bytes, get_le).
Import NlParse (message, m_rest, m_body, m_type, enc_msg, enc_msgs, msg_ok, datagram).
Context {D : Type} {al : Allocator} {kernel : Kernel} {outputs : RecvOutputs} (ops_at : Z -> nl_object_ops D) {laws : ObjectLaws ops_at}.
Variables getpagesize getpid size : Z.
Abbreviation memory := (option (mem D)).
Hypothesis total : malloc_total al.
Hypothesis size_ok : 1024 <= size <= 2147483640.

Lemma without_length {A} (f : A -> bool) (xs : list A) : zlen (without f xs) <= zlen xs.
Proof. induction xs as [|x xs IH]; [done|]. cbn [without]. destruct (f x); rewrite ?zlen_cons; lia. Qed.

Lemma absorb_length ops (vs : list (value (D := D))) v : zlen (absorb ops_at ops vs v) <= zlen vs + 1.
Proof. unfold absorb. rewrite zlen_app, zlen_cons. change (zlen (@nil (value (D := D)))) with 0. pose proof (without_length (fun u => ident ops_at ops u v) vs). lia. Qed.

Lemma same_cache_ops x x' : same_cache x x' -> c_ops x' = c_ops x.
Proof. by intros (n & h & -> & _). Qed.

Lemma same_cache_hashed x x' : same_cache x x' -> hashtable x' <> None -> hashtable x <> None.
Proof. intros (n & h & -> & Hh) Hne Hx. rewrite Hx in Hh. cbn in Hne. by subst h. Qed.

(** The values of a dump, one for each message. *)
Definition dump_of (t : cache_type) (x : nl_cache) (ms : list message) (vs : list (value (D := D))) : Prop :=
  Forall2 (fun msg v => says (co_hdrsize t) (co_decode t) (c_ops x) (enc_msg msg) v /\ identifies ops_at x v) ms vs.

Lemma read_dump f t c x0 nla proto ms vs : dump_of t x0 ms vs -> fillable ops_at x0 -> forall m x us, same_cache x0 x -> mirrors ops_at m c x us ->
  zlen us + zlen ms <= INT_MAX ->
  let g := update_msg_parser ops_at (Datatypes.S (Datatypes.S (Datatypes.S f))) t in
  let arg := Some (Xdata (c_ops x0) (Pickup c)) in
  calm g arg nla proto ms (Some m) /\ exists m' x', fold_left (read_one g arg nla proto) ms (Some m) = Some m' /\ same_cache x0 x' /\
    mirrors ops_at m' c x' (fold_left (absorb ops_at (co_obj_ops (c_ops x0))) vs us) /\ outside ops_at m m' c.
Proof.
  intros Hdump Hfill. induction Hdump as [|msg v ms vs [Hsays Hid] Hdump IH]; intros m x us Hx Hm Hlen g arg.
  { split; [done|]. exists m, x. split_and!; try done. }
  rewrite zlen_cons in Hlen. pose proof (zlen_nonneg ms). pose proof (same_cache_ops _ _ Hx) as Eops.
  destruct (run_cache_parse ops_at total f m c x us (co_hdrsize t) (co_decode t) (enc_msg msg) v Hm) as (m1 & x1 & E1 & Hx1 & Hm1 & Hout1).
  { destruct Hfill as [H1 H2]. by split; rewrite Eops. }
  { intros Hne. rewrite Eops. apply Hid. by apply (same_cache_hashed x0 x). }
  { lia. }
  { by rewrite Eops. }
  rewrite Eops in *. assert (g (message_of proto nla msg) arg (Some m) = (NL_OK, Some m1)) as Eg.
  { unfold g, update_msg_parser, arg. cbn [mbind option_bind x_ops x_params]. change (param_cb ops_at (Datatypes.S (Datatypes.S (Datatypes.S f))) (Pickup c)) with (pickup_cb ops_at (Datatypes.S (Datatypes.S (Datatypes.S f))) c).
    change (NlAttr.nm_nlh (message_of proto nla msg)) with (enc_msg msg). by rewrite E1. }
  destruct (IH m1 x1 (absorb ops_at (co_obj_ops (c_ops x0)) us v)) as (Hcalm & m' & x' & Ef & Hx' & Hm' & Hout').
  { by apply (same_cache_trans x0 x x1). }
  { done. }
  { pose proof (absorb_length (co_obj_ops (c_ops x0)) us v). lia. }
  assert (read_one g arg nla proto (Some m) msg = Some m1) as Er by (unfold read_one; by rewrite Eg).
  cbn [calm fold_left]. rewrite Er, Eg. split; [split; [by left|done]|]. exists m', x'. split_and!; try done.
  by apply (outside_trans ops_at m m1 m').
Qed.

(** A clone of a quiet callback set, with a function for the data. *)
Abbreviation cbset := (nl_cb nl_msg nlmsgerr update_xdata memory (@RM memory) RV SD).
Definition data_cb (cb : cbset) g a : cbset := fst (nl_cb_set (set_cb_refcnt 1 cb) NL_CB_VALID NL_CB_CUSTOM (Some g) (Some a)).

Lemma data_cb_hooked cb g a : quiet cb -> is_set cb NL_CB_FINISH = false -> hooked (data_cb cb g a) g (Some a).
Proof.
  destruct cb as [set args err earg ow1 ow2 ow3 ref act]. intros [Hs Ha Ho Hi Hq He _ Hr _] Hfin.
  unfold is_set in *. cbn [cb_set cb_args cb_err cb_recv_ow] in *. split; [..|done].
  - assert (forall (o1 : option (@msg_cb nl_msg update_xdata memory)) o2, o1 = Some g -> o2 = Some (Some a) ->
      (fun m s => f ← o1; arg ← o2; Some (f m arg s)) = (fun (m : nl_msg) s => Some (g m (Some a) s))) as H by (by intros ? ? -> ->).
    apply (H (mjoin (<[Z.to_nat NL_CB_VALID := Some g]> set !! Z.to_nat NL_CB_VALID))
      (<[Z.to_nat NL_CB_VALID := Some a]> args !! Z.to_nat NL_CB_VALID)); by rewrite list_lookup_insert_eq by (unfold NL_CB_VALID; lia).
  - unfold is_set, data_cb. cbn. by rewrite list_lookup_insert_eq by (unfold NL_CB_VALID; lia).
  - unfold is_set, data_cb. cbn. by rewrite list_lookup_insert_ne.
  - unfold is_set, data_cb. cbn. by rewrite list_lookup_insert_ne.
  - unfold is_set, data_cb. cbn. by rewrite list_lookup_insert_ne.
Qed.

(** The kernel delivers a dump to the socket: [dss] and then [ms] with the
    message that ends it, each list in a datagram. *)
Record dumped (sk : nl_sock) (h : history) (dss : list (list message)) (ms : list message) (last : message) : Prop := {
  dm_fits : Forall (fits getpagesize sk) (map enc_msgs (dss ++ [ms ++ [last]]));
  dm_delivers : delivers (recv_call getpagesize sk) h (map enc_msgs (dss ++ [ms ++ [last]]));
  dm_in : Forall (in_dump (s_seq_expect sk)) (concat dss ++ ms ++ [last]);
  dm_data : Forall is_data (concat dss ++ ms);
  dm_done : m_type last = NLMSG_DONE;
  dm_count : Z.of_nat (length (concat dss ++ ms ++ [last])) <= INT_MAX
}.

(** A socket with a quiet callback set; all datagrams are from one address. *)
Record listening (sk : nl_sock) (l : lib nl_msg nlmsgerr update_xdata memory (@RM memory) RV SD) : Prop := {
  ls_cb : exists cb, cbs l !! s_cb sk = Some cb /\ quiet cb /\ is_set cb NL_CB_FINISH = false;
  ls_from : exists nla, forall h, recv_name h = nla;
  ls_simple : simple_sock getpagesize sk
}.

Lemma ends_on_memory {B} (x : @M D B) m b m' l w (Q : B * memory -> _ -> Prop) : x m = Some (b, m') -> Q (b, Some m') (l, w) ->
  ends (on_memory x (Some m)) (l, w) Q.
Proof. intros E HQ. unfold on_memory. cbn [mbind option_bind]. rewrite E. by apply ends_ret. Qed.

Lemma pickup_dump fuel t sk c x m us l w dss ms last vs : listening sk l -> dumped sk (log w) dss ms last -> (length dss < fuel)%nat -> (3 <= fuel)%nat ->
  mirrors ops_at m c x us -> fillable ops_at x -> dump_of t x (concat dss ++ ms) vs -> zlen us + zlen (concat dss ++ ms) <= INT_MAX ->
  ends (__cache_pickup ops_at getpagesize fuel t sk c (Pickup c) (Some m)) (l, w) (fun res st => exists m' x',
    res = (set_seq_expect (u32 (s_seq_expect sk + 1)) sk, Some m', 0) /\ fst st = l /\ live (snd st) = live w /\
    log (snd st) = log w ++ map (fun d => (recv_call getpagesize sk, datagram d)) (map enc_msgs (dss ++ [ms ++ [last]])) /\
    same_cache x x' /\ mirrors ops_at m' c x' (fold_left (absorb ops_at (co_obj_ops (c_ops x))) vs us) /\ outside ops_at m m' c).
Proof.
  intros [(cb & Ec & Hq & Hfin) [nla Hnla] Hs] [Hfits Hdel Hin Hdata Hlast Hcount] Hf Hf3 Hm Hfill Hdump Hlen.
  pose proof Hm as (items & Hc & _). unfold __cache_pickup. apply ends_bind. eapply ends_on_memory; [apply run_get_cache, (ck_cache _ _ _ _ _ Hc)|].
  apply ends_bind. eapply ends_cb_clone; [exact total|exact Ec|]. intros k Hk. apply ends_bind. eapply ends_get_cb; [cbn; by rewrite lookup_insert_eq|].
  apply ends_bind, ends_put_cb. destruct fuel as [|[|[|f]]]; [lia..|]. set (g := update_msg_parser _ _ _). set (a := Xdata _ _). fold (data_cb cb g a).
  unfold with_cbs. cbn [cbs]. rewrite insert_insert_eq. apply ends_bind. eapply ends_get_cb; [cbn; by rewrite lookup_insert_eq|].
  apply ends_bind, ends_lift. unfold nl_recvmsgs, nl_recvmsgs_report.
  change (set_callback (set_cb_refcnt 1 cb) NL_CB_VALID (Some g) (Some a)) with (data_cb cb g a). change (nl_cb_set (set_cb_refcnt 1 cb) NL_CB_VALID NL_CB_CUSTOM (Some g) (Some a)).1 with (data_cb cb g a).
  assert (cb_recvmsgs_ow (data_cb cb g a) = None) as -> by apply Hq. apply runs_bind.
  assert (same_cache x x) as Hxx by (exists (c_nitems x), (hashtable x); split; [by destruct x|by destruct (hashtable x)]).
  destruct (read_dump f t c x nla (s_proto sk) _ vs Hdump Hfill m x us Hxx Hm Hlen) as (Hcalm & m' & x' & Efold & Hx' & Hm' & Hout).
  change (fold_left (read_one g (Some a) nla (s_proto sk)) (concat dss ++ ms) (Some m) = Some m') in Efold. eapply runs_mono.
  { apply (recvmsgs_dump_run getpagesize total (data_cb cb g a) g (Some a) nla _ sk (Some m) dss ms last w); try done. by apply data_cb_hooked. }
  intros res w' (-> & Hlive & Hlog). apply runs_ret. rewrite Efold. apply ends_bind, ends_ret. apply ends_bind.
  eapply ends_cb_put; [cbn; by rewrite lookup_insert_eq|done|]. change (cb_refcnt (data_cb cb g a) =? 1) with true. cbv iota. apply ends_ret.
  exists m', x'. split_and!; try done.
  - rewrite Z.gtb_ltb, (proj2 (Z.ltb_lt 0 _)); [done|]. rewrite !length_app. cbn [length]. lia.
  - unfold with_cbs. simpl. rewrite delete_insert_id by done. by destruct l.
Qed.

(** *** What a list of values keeps *)

(** The value is said, and none identical to it is said later. *)
Definition last_word (ops : Z) (vs : list (value (D := D))) (u : value) : Prop :=
  exists vs1 vs2, vs = vs1 ++ u :: vs2 /\ Forall (fun v => ident ops_at ops u v = false) vs2.

Definition apart (ops : Z) : list (value (D := D)) -> Prop := ForallOrdPairs (fun u v => ident ops_at ops u v = false).

Lemma without_apart ops vs v u : apart ops vs -> u ∈ without (fun u => ident ops_at ops u v) vs <-> u ∈ vs /\ ident ops_at ops u v = false.
Proof.
  unfold ident. induction 1 as [|w vs Hw H IH]; cbn [without]; [set_solver|]. destruct (identical ops_at (as_object ops w) (as_object ops v)) eqn:E.
  - split; [|rewrite elem_of_cons; intros [[->|Hu] Hn]; [congruence|done]]. intros Hu. split; [by right|].
    apply not_true_is_false. intros Hn. rewrite Forall_forall in Hw. specialize (Hw u Hu). unfold ident in Hw.
    rewrite ident_trans with (b := as_object ops v) in Hw; [done|exact laws|done|by apply ident_sym].
  - rewrite !elem_of_cons, IH. split; [|tauto]. intros [->|[? ?]]; tauto.
Qed.

Lemma without_keeps_apart ops (f : value -> bool) vs : apart ops vs -> apart ops (without f vs).
Proof.
  induction 1 as [|w vs Hw H IH]; cbn [without]; [constructor|]. destruct (f w); [done|]. constructor; [|done].
  clear -Hw. induction vs as [|u vs IH]; cbn [without]; [constructor|]. apply list.Forall_cons in Hw as [H1 H2].
  destruct (f u); [done|]. constructor; [done|]. by apply IH.
Qed.

Lemma absorb_apart ops vs v : apart ops vs -> apart ops (absorb ops_at ops vs v).
Proof.
  intros H. assert (Forall (fun u => ident ops_at ops u v = false) (without (fun u => ident ops_at ops u v) vs)) as Hv.
  { apply Forall_forall. intros u Hu. by apply without_apart in Hu as [_ ?]. }
  pose proof (without_keeps_apart ops (fun u => ident ops_at ops u v) vs H) as Hw. unfold absorb.
  induction Hw as [|w us Hw' Hw IH]; [repeat constructor|]. apply list.Forall_cons in Hv as [H1 H2]. cbn [app]. constructor; [|by apply IH].
  apply Forall_app. split; [done|]. by constructor.
Qed.

(** Folding a dump keeps exactly the last words. *)
Lemma absorbed_last_words ops vs : apart ops (fold_left (absorb ops_at ops) vs []) /\
  forall u, u ∈ fold_left (absorb ops_at ops) vs [] <-> last_word ops vs u.
Proof.
  induction vs as [|v vs [Ha IH]] using rev_ind.
  { split; [constructor|]. intros u. split; [set_solver|]. intros ([|] & ? & ? & _); done. }
  rewrite fold_left_app. cbn [fold_left]. split; [by apply absorb_apart|]. intros u. unfold absorb at 1.
  rewrite elem_of_app, without_apart, list_elem_of_singleton, IH by done. split.
  - intros [[(vs1 & vs2 & -> & H2) Hv]| ->].
    + exists vs1, (vs2 ++ [v]). rewrite <- app_assoc. split; [done|]. apply Forall_app. split; [done|]. by constructor.
    + exists vs, []. by split.
  - intros (vs1 & vs2 & E & H2). destruct vs2 as [|w vs2 _] using rev_ind.
    + apply app_inj_tail in E as [_ ->]. by right.
    + rewrite app_comm_cons, app_assoc in E. apply app_inj_tail in E as [-> ->]. apply Forall_app in H2 as [H2 [Hv _]%list.Forall_cons].
      left. split; [|done]. by exists vs1, vs2.
Qed.

(** *** Refilling *)

(** A type of cache that asks for one dump, of the messages [type] and the
    family [family]. *)
Record one_dump (t : cache_type (D := D)) (x : nl_cache) (type : Z) (family : nl_cache -> Z) : Prop := {
  od_request : co_request_update t = Some (fun x sk s => NlRequest.nl_rtgen_request getpid size sk type (family x) NlRequest.NLM_F_DUMP s);
  od_groups : match co_groups t with None => True | Some grp => grp <> [] /\ af_iter x = false end;
  od_family : forall n h, family (set_nitems n (set_hashtable h x)) = family x;
  od_type : 0 <= type < 65536;
  od_range : 0 <= family x < 256
}.

(** The socket can send, and the kernel takes what it is sent. *)
Record sending (sk : nl_sock) : Prop := {
  sd_fd : 0 <= s_fd sk;
  sd_port : nl_pid (s_local sk) <> 0;
  sd_ack : has_flag NL_NO_AUTO_ACK sk = false;
  sd_seq : 0 <= s_seq_next sk < 2 ^ 32;
  sd_expect : s_seq_expect sk = s_seq_next sk;
  sd_takes : NlRequest.takes_all sk
}.

(** The kernel answers the request for this dump with these datagrams. *)
Definition answers_dump (sk : nl_sock) (h : history) (type family : Z) dss ms last : Prop := forall data,
  take 6 data = le_bytes 4 20 ++ le_bytes 2 type -> drop 16 data = [family; 0; 0; 0] -> get_le 8 4 data = s_seq_next sk ->
  let sent := NlRequest.to_peer sk data in dumped sk (h ++ [(sent, answer h sent)]) dss ms last.

(** One request and its dump, into a cache with the values [us]. *)
Lemma full_dump_once fuel t sk c x m us l w type family dss ms last vs : listening sk l -> sending sk -> s_proto sk = co_protocol t ->
  one_dump t x type family -> answers_dump sk (log w) type (family x) dss ms last -> (length dss < fuel)%nat -> (3 <= fuel)%nat ->
  mirrors ops_at m c x us -> fillable ops_at x -> dump_of t x (concat dss ++ ms) vs -> zlen us + zlen (concat dss ++ ms) <= INT_MAX ->
  ends (full_dump fuel fuel t sk c (fun sk s => nl_cache_pickup ops_at getpagesize fuel t sk c s) (Some m)) (l, w) (fun res st => exists m' x',
    let next := u32 (s_seq_next sk + 1) in
    res = (set_seq_expect next (set_seq_next next sk), Some m', 0) /\ fst st = l /\ live (snd st) = live w /\
    same_cache x x' /\ mirrors ops_at m' c x' (fold_left (absorb ops_at (co_obj_ops (c_ops x))) vs us) /\ outside ops_at m m' c).
Proof.
  intros Hls Hsd Hproto Hod Hans Hf Hf3 Hm Hfill Hdump Hlen. pose proof Hls as [(cb & Ec & Hq & _) _ _]. destruct Hsd as [Hfd Hport Hack Hseq Hexp Htakes].
  pose proof Hm as (items & Hc & _). destruct fuel as [|fuel]; [lia|]. cbn [full_dump]. unfold nl_cache_request_full_dump. rewrite Hproto, Z.eqb_refl. cbn [negb].
  rewrite (od_request _ _ _ _ Hod). apply ends_bind, ends_bind. eapply ends_on_memory; [apply run_get_cache, (ck_cache _ _ _ _ _ Hc)|].
  eapply ends_mono; [apply (NlRequest.run_rtgen_request getpid size total size_ok sk type (family x) NlRequest.NLM_F_DUMP (Some m) cb l w); try done; apply Hod|].
  intros [[sk1 s1] err] [l1 w1] (data & [= -> -> ->] & E1 & E2 & E3 & H6 & H8 & H16 & _). cbn [fst snd] in *. subst l1. change (0 <? 0) with false. cbv iota.
  apply ends_bind. unfold nl_cache_pickup. change (s_proto (set_seq_next (u32 (s_seq_next sk + 1)) sk)) with (s_proto sk). rewrite Hproto, Z.eqb_refl. cbn [negb].
  eapply ends_mono.
  { apply (pickup_dump (Datatypes.S fuel) t (set_seq_next (u32 (s_seq_next sk + 1)) sk) c x m us l w1 dss ms last vs); try done.
    - destruct Hls as [H1 H2 H3]. split; [exact H1|exact H2|exact H3].
    - rewrite E3. destruct (Hans data H6 H16 H8) as [H1 H2 H3 H4 H5 H7]. split; [exact H1|exact H2|exact H3|exact H4|exact H5|exact H7]. }
  intros res st (m' & x' & -> & E4 & E5 & _ & Hx & Hmir & Hout). change (0 =? - NLE_DUMP_INTR) with false. cbv iota. apply ends_ret.
  exists m', x'. change (s_seq_expect (set_seq_next _ sk)) with (s_seq_expect sk). rewrite Hexp. split_and!; try done. lia.
Qed.

Lemma same_cache_iter x x' : same_cache x x' -> af_iter x' = af_iter x.
Proof. by intros (n & h & -> & _). Qed.

(** With one group or without the flag the loop over the groups runs once. *)
Lemma all_groups_once fuel t sk c x m l w type family pickup (Q : _ -> _ -> Prop) : one_dump t x type family -> caches m !! c = Some x ->
  ends (full_dump fuel fuel t sk c pickup (Some m)) (l, w) (fun res st => exists sk' m' x' err, res = (sk', Some m', err) /\ caches m' !! c = Some x' /\
    same_cache x x' /\ Q res st) ->
  ends (all_groups fuel t sk c pickup (Some m)) (l, w) Q.
Proof.
  intros Hod Hc Hrun. unfold all_groups. pose proof (od_groups _ _ _ _ Hod) as Hg. destruct (co_groups t) as [grp|].
  2: { eapply ends_mono; [exact Hrun|]. by intros res st (_ & _ & _ & _ & _ & _ & _ & ?). }
  destruct Hg as [Hne Hit]. destruct grp as [|[fam g] grp]; [done|]. cbn [each_group]. apply ends_bind. eapply ends_on_memory; [by apply run_get_cache|].
  rewrite Hit, andb_false_r. apply ends_bind, ends_ret, ends_bind. eapply ends_mono; [exact Hrun|].
  intros res [l' w'] (sk' & m' & x' & err & -> & Hc' & Hx & HQ). destruct (err <? 0); [by apply ends_ret|]. apply ends_bind.
  eapply ends_on_memory; [by apply run_get_cache|]. rewrite (same_cache_iter _ _ Hx), Hit. destruct grp as [|[fam' g'] grp]; [by apply ends_ret|].
  rewrite andb_false_r. by apply ends_ret.
Qed.

Lemma refill_run fuel t sk c x items m l w type family dss ms last vs : listening sk l -> sending sk -> s_proto sk = co_protocol t ->
  cache_ok ops_at m c x items -> fillable ops_at x -> one_dump t x type family -> answers_dump sk (log w) type (family x) dss ms last ->
  dump_of t x (concat dss ++ ms) vs -> zlen vs <= INT_MAX -> (length dss < fuel)%nat -> (3 <= fuel)%nat ->
  ends (nl_cache_refill ops_at getpagesize fuel t sk c (Some m)) (l, w) (fun res st => exists m' x' us,
    let next := u32 (s_seq_next sk + 1) in
    res = (set_seq_expect next (set_seq_next next sk), Some m', 0) /\ fst st = l /\ live (snd st) = live w /\ same_cache x x' /\
    mirrors ops_at m' c x' us /\ (forall u, u ∈ us <-> last_word (co_obj_ops (c_ops x)) vs u) /\ apart (co_obj_ops (c_ops x)) us /\
    outside ops_at m m' c /\
    (forall y o, y ∈ items -> objs m !! y = Some o -> ce_refcnt o <> refs x -> objs m' !! y = Some (set_refcnt (ce_refcnt o - refs x) (set_ce_cache None o)))).
Proof.
  intros Hls Hsd Hproto Hc Hfill Hod Hans Hdump Hlen Hf Hf3. unfold nl_cache_refill. rewrite Hproto, Z.eqb_refl. cbn [negb].
  destruct fuel as [|[|[|f]]]; [lia..|]. destruct (run_cache_clear ops_at f m c x items Hc) as (m1 & h & E1 & Hc1 & [Ho1 _] & _ & Hh & Hoth1).
  apply ends_bind. eapply ends_on_memory; [exact E1|]. set (x1 := cleared x h) in *.
  assert (same_cache x x1) as Hx1 by (by exists 0, h).
  assert (forall y o, objs m !! y = Some o -> ce_cache o <> Some c -> objs m1 !! y = Some o) as Hout1.
  { intros y o Ey Hy. rewrite Ho1, bool_decide_false; [done|]. intros Hin. destruct (ck_items _ _ _ _ _ Hc y Hin) as (o' & E' & Hcc & _). congruence. }
  assert (one_dump t x1 type family) as Hod1.
  { destruct Hod as [H1 H2 H3 H4 H5]. unfold x1, cleared. split; [exact H1|exact H2| |exact H4|by rewrite H3]. intros n h'. rewrite H3. apply (H3 n h'). }
  apply (all_groups_once _ t sk c x1 m1 l w type family); [done|apply (ck_cache _ _ _ _ _ Hc1)|].
  eapply ends_mono.
  { apply (full_dump_once _ t sk c x1 m1 [] l w type family dss ms last vs); try done.
    - unfold x1, cleared. by rewrite (od_family _ _ _ _ Hod).
    - exists []. by split.
    - destruct Hfill as [H1 H2]. by split.
    - eapply Forall2_impl; [exact Hdump|]. intros msg v [H1 H2]. split; [done|]. intros Hne. apply H2. by apply (same_cache_hashed x x1).
    - pose proof (Forall2_length _ _ _ Hdump) as E. unfold zlen in *. cbn [length]. lia. }
  intros res st (m' & x' & -> & E2 & E3 & Hx' & Hm' & Hout'). destruct Hm' as (items' & Hc' & Hown').
  exists (set_seq_expect (u32 (s_seq_next sk + 1)) (set_seq_next (u32 (s_seq_next sk + 1)) sk)), m', x', 0. split; [done|]. split; [apply (ck_cache _ _ _ _ _ Hc')|].
  split; [done|]. change (c_ops x1) with (c_ops x) in *. eexists m', x', _. split_and!; [done|done|done|by apply (same_cache_trans x x1)|by exists items'|apply absorbed_last_words..| |].
  - destruct Hout' as [Ho' Hc'']. split; [|auto]. intros y o Ey Hy. by apply Ho'; [apply Hout1|].
  - intros y o Hy Ey Hr. apply Hout'; [|done]. rewrite Ho1, bool_decide_true, Ey by done. cbn. unfold give_back. by rewrite (proj2 (Z.eqb_neq _ _) Hr).
Qed.

(** C10: after [nl_cache_refill] a cache mirrors the kernel, for the types that
    ask for a dump with one [nl_rtgen_request] and have no [oo_update]
    (neighbours, rules and interface addresses are such), a cache that does not
    iterate over families, and a kernel that answers the request with one dump
    that is not interrupted, of messages the parser understands: the cache is
    emptied, the dump is asked for with one request and read from any number of
    datagrams; the result is 0 and the cache, list and hash table, has exactly
    one object for each value the kernel said last of objects that are
    identical, with the types and contents the parser gives, each held by the
    cache alone. Objects that somebody else held before survive without a
    cache; nothing outside the cache changes, and nothing stays allocated for
    the messages. An interrupted dump can leave stale objects
    ([nl_cache_refill_keeps_stale]). *)
Theorem nl_cache_refill_mirrors fuel t sk c x items m l w type family dss ms last vs : listening sk l -> sending sk -> s_proto sk = co_protocol t ->
  cache_ok ops_at m c x items -> fillable ops_at x -> one_dump t x type family -> answers_dump sk (log w) type (family x) dss ms last ->
  dump_of t x (concat dss ++ ms) vs -> zlen vs <= INT_MAX -> (length dss < fuel)%nat -> (3 <= fuel)%nat ->
  ends (nl_cache_refill ops_at getpagesize fuel t sk c (Some m)) (l, w) (fun res st => exists m' x' us,
    let next := u32 (s_seq_next sk + 1) in
    res = (set_seq_expect next (set_seq_next next sk), Some m', 0) /\ fst st = l /\ live (snd st) = live w /\ same_cache x x' /\
    mirrors ops_at m' c x' us /\ (forall u, u ∈ us <-> last_word (co_obj_ops (c_ops x)) vs u) /\ apart (co_obj_ops (c_ops x)) us /\
    outside ops_at m m' c /\
    (forall y o, y ∈ items -> objs m !! y = Some o -> ce_refcnt o <> refs x -> objs m' !! y = Some (set_refcnt (ce_refcnt o - refs x) (set_ce_cache None o)))).
Proof. exact (refill_run fuel t sk c x items m l w type family dss ms last vs). Qed.

End Filled.

(** ** The cache of neighbours *)

Section Neighbours.
Import Netlink Syscalls NlSocket NlRecv.
Import NlAttr (nl_msg, msg_holds).
Import NlParse (message, Msg, m_rest, m_body, m_type, enc_msg, enc_msgs, msg_ok, datagram, rd, enc_all).
Import NlNeigh (neigh, neigh_value, neigh_object_ops, neigh_view, neigh_ok, sendable, links_ok, port_master, RTM_NEWNEIGH, RTM_DELNEIGH, AF_BRIDGE).
#[local] Existing Instance NlNeigh.neigh_laws.
Context {al : Allocator} {kernel : Kernel} {outputs : RecvOutputs}.
Variables getpagesize getpid size : Z.
Hypothesis total : malloc_total al.
Hypothesis size_ok : 1024 <= size <= 2147483640.

(** The heap the parser works on, with the links of the link cache. *)
Variables (lcache : option (list positive)) (hp : NlRtnl.heap) (user : positive -> Z) (held : list (option positive)).
Hypothesis heap_fine : NlRtnl.heap_ok user held hp.
Hypothesis links_fine : links_ok hp lcache.

Abbreviation memory := (option (mem neigh_value)).
Abbreviation ops_at := (fun _ : Z => neigh_object_ops).

Definition NL_ACT_GET : Z := 3.
Definition RTNLGRP_NEIGH : Z := 3.
Definition NETLINK_ROUTE : Z := 0.

(** [neigh_msg_parser], as far as the message is read. *)
Definition neigh_decode (nlh : bytes) : option (Z + value (D := neigh_value)) :=
  '(err, r, h) ← NlNeigh.rtnl_neigh_parse lcache nlh hp;
  if err <? 0 then Some (inl err) else
  o ← r; Some (inr (NlRtnl.ce_msgtype o, NlNeigh.content_of h o)).

(** [rtnl_neigh_ops]; [neigh_obj_ops] is at the address 1. *)
Definition rtnl_neigh_ops : nl_cache_ops :=
  CacheOps 1 0 0 [(RTM_NEWNEIGH, NL_ACT_NEW); (RTM_DELNEIGH, NL_ACT_DEL); (NlRequest.RTM_GETNEIGH, NL_ACT_GET)].
Definition neigh_type : cache_type (D := neigh_value) :=
  CacheType NETLINK_ROUTE 12 (Some [(NlRequest.AF_UNSPEC, RTNLGRP_NEIGH); (AF_BRIDGE, RTNLGRP_NEIGH)]) neigh_decode
    (Some (fun x sk s => NlRequest.neigh_request_update getpid size (c_iarg1 x) sk s)).

Definition rtnl_neigh_alloc_cache (fuel : nat) (sk : option nl_sock) (s : memory) :=
  nl_cache_alloc_and_fill ops_at getpagesize fuel neigh_type rtnl_neigh_ops sk s.

(** *** What the kernel says of a neighbour *)

Definition neigh_msg (seq pid : Z) (h : NlRtnl.heap) (t : neigh) : message :=
  Msg (le_bytes 2 RTM_NEWNEIGH ++ le_bytes 2 NLM_F_MULTI ++ le_bytes 4 seq ++ le_bytes 4 pid)
    (NlNeigh.ndm_bytes (NlNeigh.neigh_hdr h t) ++ enc_all (NlNeigh.neigh_msg_attrs h t)).

Definition heard (h : NlRtnl.heap) (t : neigh) : value (D := neigh_value) :=
  let v := NlNeigh.received (port_master hp lcache) (neigh_view h t) in (RTM_NEWNEIGH, Content (NlNeigh.mask_of v) v).

Lemma enc_holds x : zlen (m_rest x) = 12 -> zlen (m_body x) mod 4 = 0 -> zlen (m_body x) <= 2147483624 ->
  msg_holds (NlRequest.as_msg (enc_msg x)) (m_rest x) (m_body x) /\ zlen (enc_msg x) = 16 + zlen (m_body x).
Proof.
  intros Hr Hm Hmax. pose proof (zlen_nonneg (m_body x)). assert (zlen (enc_msg x) = 16 + zlen (m_body x)) as El.
  { unfold enc_msg, NetRequests.wire, pad. rewrite align_id by (try lia; by rewrite <- Z.add_mod_idemp_r, Hm). rewrite Z.sub_diag, !zlen_app, zlen_le, zlen_replicate. lia. }
  split; [|done]. split; [|change (zlen (enc_msg x) <= 2147483647); lia]. constructor; cbn [NlRequest.as_msg NlAttr.nm_block cap nlmsghdr]; [done|done|lia|].
  rewrite El. replace (16 + zlen (m_body x) - 16 - zlen (m_body x)) with 0 by lia. unfold enc_msg, NetRequests.wire, pad.
  rewrite align_id by (try lia; by rewrite <- Z.add_mod_idemp_r, Hm). rewrite Z.sub_diag. change (replicate (Z.to_nat 0) 0) with (@nil Z). by rewrite !app_nil_r.
Qed.

Lemma neigh_says seq pid h t : neigh_ok h t -> sendable h t ->
  says (co_hdrsize neigh_type) (co_decode neigh_type) rtnl_neigh_ops (enc_msg (neigh_msg seq pid h t)) (heard h t).
Proof.
  intros Ho Hs. destruct (NlNeigh.build_neigh_msg_ok total size size_ok h t RTM_NEWNEIGH 0 Ho Hs) as (m0 & _ & Hsz & _ & [[_ Hmod Hcap _] _]).
  set (x := neigh_msg seq pid h t). change (zlen (m_body x) mod 4 = 0) in Hmod. change (16 + zlen (m_body x) <= cap (NlAttr.nm_block m0) <= 4294967292) in Hcap.
  change (cap (NlAttr.nm_block m0) = size) in Hsz. assert (zlen (m_rest x) = 12) as Hr by done. destruct (enc_holds x Hr Hmod ltac:(lia)) as [Hx El].
  assert (12 <= zlen (m_body x)) as H12.
  { change (m_body x) with (NlNeigh.ndm_bytes (NlNeigh.neigh_hdr h t) ++ enc_all (NlNeigh.neigh_msg_attrs h t)). rewrite zlen_app.
    change (zlen (NlNeigh.ndm_bytes (NlNeigh.neigh_hdr h t))) with 12. pose proof (zlen_nonneg (enc_all (NlNeigh.neigh_msg_attrs h t))). lia. }
  assert (rd 4 2 (enc_msg x) = Some RTM_NEWNEIGH) as Htype.
  { rewrite NlParse.rd_Some by lia. reflexivity. }
  split.
  - unfold NlAttr.nlmsg_valid_hdr. rewrite NlParse.rd_Some by lia. cbn [mbind option_bind].
    pose proof (holds_len _ _ _ (proj1 Hx)) as Hl. change (hdr_len _) with (get_le 0 4 (enc_msg x)) in Hl. rewrite Hl.
    change (u32 (NlAttr.nlmsg_size (co_hdrsize neigh_type))) with 28. by rewrite (proj2 (Z.ltb_ge _ _)) by lia.
  - exists RTM_NEWNEIGH. split; [done|]. by left.
  - cbn [co_decode neigh_type]. unfold neigh_decode.
    destruct (NlNeigh.neigh_parse_holds total user held lcache h t hp RTM_NEWNEIGH (NlRequest.as_msg (enc_msg x)) (m_rest x)) as (o & h' & Ep & _ & Hty & Hv & _ & _ & _ & Hmask); try done.
    { change (zlen (enc_msg x) <= 2147483640). lia. }
    change (NlAttr.nm_nlh (NlRequest.as_msg (enc_msg x))) with (enc_msg x) in Ep. rewrite Ep. cbn [mbind option_bind]. change (0 <? 0) with false. cbv iota.
    unfold heard, NlNeigh.content_of. by rewrite Hty, Hmask, Hv.
Qed.

Lemma same_addr_refl a : NlRtnl.same_addr a a = true.
Proof. destruct a as [a|]; [|done]. cbn. rewrite Z.eqb_refl, bool_decide_true, Z.eqb_refl, orb_true_r by done. done. Qed.

(** A neighbour that is not of a bridge has an identity. *)
Lemma heard_identifies x h t : neigh_ok h t -> sendable h t -> NlNeigh.n_family (NlRtnl.ce_data t) <> AF_BRIDGE -> NlNeigh.hdr_family h (NlRtnl.ce_data t) <> AF_BRIDGE ->
  identifies ops_at x (heard h t).
Proof.
  intros Ho (Hdst & _ & Hd) Hb Hfam _. unfold ident. apply NlNeigh.neigh_identical. cbn [as_object ce_content ce_ops heard fst snd ce_data ce_mask].
  specialize (Hdst Hb). pose proof (NlNeigh.ok_dst _ _ Ho) as Hp. unfold NlRtnl.ptr_ok in Hp. rewrite Hdst in Hp. destruct Hp as (a & Ea & _).
  set (v := NlNeigh.received _ _). assert (NlNeigh.w_family v = Some (NlNeigh.hdr_family h (NlRtnl.ce_data t)) /\ is_Some (NlNeigh.w_dst v)) as [Hf [d Hdv]].
  { unfold v, NlNeigh.received. cbn [NlNeigh.w_family NlNeigh.w_dst neigh_view].
    rewrite (NlNeigh.att_default _ _ (NlNeigh.n_family (NlRtnl.ce_data t))) by apply (NlNeigh.ok_no_family _ _ Ho).
    unfold NlRtnl.view_ptr, NlNeigh.hdr_family. rewrite (proj2 (Z.eqb_neq _ _) Hb), Hdst, Ea. by split; [|eexists]. }
  assert (NlNeigh.id_attrs_of v = 104) as Hid by (unfold NlNeigh.id_attrs_of; rewrite Hf; cbn [default]; unfold id; by rewrite (proj2 (Z.eqb_neq _ _) Hfam)).
  assert (Z.land (NlNeigh.mask_of v) 104 = 104) as Hmask.
  { unfold NlNeigh.mask_of. rewrite Hf, Hdv. cbn [v NlNeigh.received NlNeigh.w_flags NlNeigh.w_state NlNeigh.w_ifindex NlNeigh.w_type].
    destruct (NlNeigh.w_lladdr _), (NlNeigh.w_master _); reflexivity. }
  rewrite Hid. split_and!; [done..|]. unfold NlNeigh.same_identity. rewrite Hf. cbn [default]. unfold id. rewrite (proj2 (Z.eqb_neq _ _) Hfam).
  split; [done|]. split; [done|]. apply same_addr_refl.
Qed.

(** C9: after [nl_cache_refill] the cache of neighbours is the neighbour table
    of the kernel: for a kernel that sends the neighbours [tss] and [ts], none
    of them of the family AF_BRIDGE, each encoded with its header and
    attributes, in any number of datagrams, a cache that does not iterate over
    families has for each identity (family, interface, destination) exactly one
    neighbour, with the state, flags and addresses the kernel said last, and it
    can be found through the hash table; the socket has sent one request, for
    the family of the cache, and is ready for the next. (The entries of a
    bridge have another identity, and may lack it.) *)
Theorem neigh_refill_mirrors fuel sk c x items m l w h seq pid tss ts last : listening getpagesize sk l -> sending sk -> s_proto sk = NETLINK_ROUTE ->
  cache_ok ops_at m c x items -> c_ops x = rtnl_neigh_ops -> af_iter x = false -> 0 <= c_iarg1 x < 256 ->
  Forall (fun t => neigh_ok h t /\ sendable h t /\ NlNeigh.n_family (NlRtnl.ce_data t) <> AF_BRIDGE /\ NlNeigh.hdr_family h (NlRtnl.ce_data t) <> AF_BRIDGE)
    (concat tss ++ ts) -> zlen (concat tss ++ ts) <= INT_MAX ->
  answers_dump getpagesize sk (log w) NlRequest.RTM_GETNEIGH (c_iarg1 x) (map (map (neigh_msg seq pid h)) tss) (map (neigh_msg seq pid h) ts) last ->
  (length tss < fuel)%nat -> (3 <= fuel)%nat ->
  ends (nl_cache_refill ops_at getpagesize fuel neigh_type sk c (Some m)) (l, w) (fun res st => exists m' x' us,
    let next := u32 (s_seq_next sk + 1) in
    res = (set_seq_expect next (set_seq_next next sk), Some m', 0) /\ fst st = l /\ live (snd st) = live w /\ same_cache x x' /\
    mirrors ops_at m' c x' us /\ (forall u, u ∈ us <-> last_word ops_at 1 (map (heard h) (concat tss ++ ts)) u) /\ apart ops_at 1 us /\
    outside ops_at m m' c).
Proof.
  intros Hls Hsd Hproto Hc Hops Hit Hfam Hall Hlen Hans Hf Hf3.
  assert (concat (map (map (neigh_msg seq pid h)) tss) ++ map (neigh_msg seq pid h) ts = map (neigh_msg seq pid h) (concat tss ++ ts)) as Ems
    by (by rewrite map_app, concat_map).
  eapply ends_mono.
  { eapply (refill_run ops_at getpagesize getpid size total size_ok fuel neigh_type sk c x items m l w NlRequest.RTM_GETNEIGH (fun y => c_iarg1 y)
      _ _ last (map (heard h) (concat tss ++ ts))); [exact Hls|exact Hsd|exact Hproto|exact Hc| | |exact Hans| | |by rewrite length_map|exact Hf3].
    - split; by vm_compute.
    - by split.
    - rewrite Ems. unfold dump_of. rewrite Hops. apply Forall2_fmap_2. apply Forall_Forall2_diag. eapply Forall_impl; [exact Hall|].
      intros t (Ho & Hs & Hb & Hhb). split; [by apply neigh_says|by apply heard_identifies].
    - unfold zlen in *. by rewrite length_map. }
  intros res st (m' & x' & us & H1 & H2 & H3 & H4 & H5 & H6 & H7 & H8 & _). rewrite Hops in H6, H7. by exists m', x', us.
Qed.

End Neighbours.

(** ** A kernel with one neighbour *)

Section Samples.
Import Netlink Syscalls NlSocket NlRecv.
Import NlParse (enc_msgs, datagram).
Import NlNeigh (neigh_value, neigh_object_ops, sample_neigh, link_heap).

#[local] Existing Instances sample_alloc outputs0 NlNeigh.neigh_laws.

Definition dump_answer (d : bytes) : Kernel := fun h c =>
  match c with
  | SendmsgAddr _ _ _ _ data _ => Reply (zlen data) 0 [] 0 0 0
  | RecvmsgFlags _ _ _ _ => match last h with Some (SendmsgAddr _ _ _ _ _ _, _) => datagram d | _ => Reply (-1) 11 [] 0 0 0 end
  | _ => Reply 0 0 [] 0 0 0
  end.

Definition neigh_dump : list NlParse.message := [neigh_msg 7 0 NlNeigh.sample_heap sample_neigh].
#[local] Instance one_neigh : Kernel := dump_answer (enc_msgs (neigh_dump ++ [last_part])).

Definition empty_table : nl_hash_table := HashTable 2 [[]; []].
Definition neigh_cache : nl_cache := Cache 0 0 0 1 0 (Some empty_table) rtnl_neigh_ops.
Definition neigh_mem : mem neigh_value := Mem ∅ {[1%positive := neigh_cache]} {[Head 1 := (Head 1, Head 1)]} [] [].

Lemma empty_table_ok (D : Type) (ops : Z -> nl_object_ops D) m : table_ok ops m empty_table [].
Proof.
  split; [done|done| |by intros l o Hl%not_elem_of_nil|by intros l1 l2 o Hl%not_elem_of_nil].
  intros k Hk. exists []. cbn in Hk. assert (k = 0 \/ k = 1) as [-> | ->] by lia; done.
Qed.

Lemma neigh_cache_ok : cache_ok (fun _ => neigh_object_ops) neigh_mem 1 neigh_cache [].
Proof.
  split; [done|constructor|by split|by intros l Hl%not_elem_of_nil|done|]. apply empty_table_ok.
Qed.

Definition quiet_cb {A S} : nl_cb NlAttr.nl_msg nlmsgerr A S (@RM S) RV SD := Cb (replicate 11 None) (replicate 11 None) None None None None None 1 11.
Definition sync_lib {D} : lib NlAttr.nl_msg nlmsgerr update_xdata (option (mem D)) (@RM (option (mem D))) RV SD := Lib (replicate 32 0) 0 {[1%positive := quiet_cb]}.

Lemma sync_listening (D : Type) : listening (D := D) (outputs := outputs0) 4096 sk0 sync_lib.
Proof.
  split; [|by exists (Sockaddr 16 0 0)|by split_and!]. exists quiet_cb. split; [done|]. split; [by split|done].
Qed.

Lemma sync_sending d : sending (kernel := dump_answer d) sk0.
Proof. by split. Qed.

Lemma one_neigh_dumped data : dumped 4096 sk0 ([] ++ [(NlRequest.to_peer sk0 data, answer [] (NlRequest.to_peer sk0 data))]) [] neigh_dump last_part.
Proof.
  split; [|split; [reflexivity|done]| | |reflexivity|by vm_compute].
  - constructor; [|constructor]. vm_compute. split; congruence.
  - repeat (apply list.Forall_cons; split); [vm_compute; intuition congruence..|constructor].
  - repeat (apply list.Forall_cons; split); [by vm_compute|constructor].
Qed.

Lemma neigh_refill_mirrors_witness : exists st m' x' us,
  nl_cache_refill (fun _ => neigh_object_ops) 4096 3 (neigh_type 4711 4096 None (NlRtnl.Heap ∅ ∅)) sk0 1 (Some neigh_mem) (sync_lib, w0) =
    Some ((set_seq_expect 8 (set_seq_next 8 sk0), Some m', 0), st) /\
  mirrors (fun _ => neigh_object_ops) m' 1 x' us /\ heard None (NlRtnl.Heap ∅ ∅) NlNeigh.sample_heap sample_neigh ∈ us.
Proof.
  destruct (neigh_refill_mirrors 4096 4711 4096 sample_alloc_total ltac:(lia) None (NlRtnl.Heap ∅ ∅) (fun _ => 0) [] (NlRtnl.heap_ok_empty _) ltac:(constructor)
    3 sk0 1 neigh_cache [] neigh_mem sync_lib w0 NlNeigh.sample_heap 7 0 [] [sample_neigh] last_part)
    as (res & st & E & m' & x' & us & -> & _ & _ & _ & Hm & Hlast & _).
  - apply sync_listening.
  - apply sync_sending.
  - reflexivity.
  - exact neigh_cache_ok.
  - reflexivity.
  - reflexivity.
  - simpl. lia.
  - apply list.Forall_cons. split; [|constructor]. split; [exact NlNeigh.sample_neigh_ok|]. split; [|by vm_compute].
    split; [done|]. split; intros a [= <-]; by vm_compute.
  - by vm_compute.
  - intros data _ _ _. apply one_neigh_dumped.
  - simpl. lia.
  - lia.
  - exists st, m', x', us. split; [exact E|]. split; [exact Hm|]. apply Hlast. exists [], []. split; [reflexivity|constructor].
Defined.

Abbreviation type0 := (neigh_type 4711 4096 None (NlRtnl.Heap ∅ ∅)).
Abbreviation heard0 := (heard None (NlRtnl.Heap ∅ ∅) NlNeigh.sample_heap sample_neigh).

Lemma sample_sendable : NlNeigh.sendable NlNeigh.sample_heap sample_neigh.
Proof. split; [done|]. split; intros a [= <-]; by vm_compute. Qed.

Lemma sample_says : says (co_hdrsize type0) (co_decode type0) rtnl_neigh_ops (NlParse.enc_msg (neigh_msg 7 0 NlNeigh.sample_heap sample_neigh)) heard0.
Proof.
  apply (neigh_says 4711 4096 sample_alloc_total ltac:(lia) None (NlRtnl.Heap ∅ ∅) (fun _ => 0) [] (NlRtnl.heap_ok_empty _) ltac:(constructor));
    [exact NlNeigh.sample_neigh_ok|exact sample_sendable].
Qed.

Lemma sample_identifies : identifies (fun _ => neigh_object_ops) neigh_cache heard0.
Proof. apply heard_identifies; [exact NlNeigh.sample_neigh_ok|exact sample_sendable|by vm_compute|by vm_compute]. Qed.

Lemma neigh_fillable : fillable (fun _ => neigh_object_ops) neigh_cache.
Proof. split; by vm_compute. Qed.

Lemma nl_cache_refill_mirrors_witness : exists st m' x' us,
  nl_cache_refill (fun _ => neigh_object_ops) 4096 3 type0 sk0 1 (Some neigh_mem) (sync_lib, w0) =
    Some ((set_seq_expect 8 (set_seq_next 8 sk0), Some m', 0), st) /\
  mirrors (fun _ => neigh_object_ops) m' 1 x' us /\ forall u, u ∈ us <-> last_word (fun _ => neigh_object_ops) 1 [heard0] u.
Proof.
  destruct (nl_cache_refill_mirrors (fun _ => neigh_object_ops) 4096 4711 4096 sample_alloc_total ltac:(lia)
    3 type0 sk0 1 neigh_cache [] neigh_mem sync_lib w0 NlRequest.RTM_GETNEIGH (fun y => c_iarg1 y) [] neigh_dump last_part [heard0])
    as (res & st & E & m' & x' & us & -> & _ & _ & _ & Hm & Hlast & _).
  - apply sync_listening.
  - apply sync_sending.
  - reflexivity.
  - exact neigh_cache_ok.
  - exact neigh_fillable.
  - by split.
  - intros data _ _ _. apply one_neigh_dumped.
  - constructor; [|constructor]. split; [exact sample_says|exact sample_identifies].
  - by vm_compute.
  - simpl. lia.
  - lia.
  - exists st, m', x', us. split; [exact E|]. split; [exact Hm|exact Hlast].
Defined.

Lemma nl_cache_parse_and_add_absorbs_witness : exists m' x',
  nl_cache_parse_and_add (fun _ => neigh_object_ops) 3 12 (co_decode type0) 1 (NlRequest.as_msg (NlParse.enc_msg (neigh_msg 7 0 NlNeigh.sample_heap sample_neigh))) neigh_mem =
    Some (0, m') /\ mirrors (fun _ => neigh_object_ops) m' 1 x' [heard0].
Proof.
  destruct (nl_cache_parse_and_add_absorbs (fun _ => neigh_object_ops) sample_alloc_total 3 neigh_mem 1 neigh_cache [] 12 (co_decode type0)
    (NlRequest.as_msg (NlParse.enc_msg (neigh_msg 7 0 NlNeigh.sample_heap sample_neigh))) heard0) as (m' & x' & E & _ & Hm & _).
  - exists []. split; [exact neigh_cache_ok|constructor].
  - exact neigh_fillable.
  - exact sample_identifies.
  - by vm_compute.
  - exact sample_says.
  - lia.
  - exists m', x'. split; [exact E|exact Hm].
Defined.

(** ** What the code does not do *)

(** The first dump is interrupted, the second one is empty. *)
Definition msg_with (seq type flags : Z) (body : bytes) : NlParse.message :=
  NlParse.Msg (le_bytes 2 type ++ le_bytes 2 flags ++ le_bytes 4 seq ++ le_bytes 4 0) body.
Definition interrupted_part : list NlParse.message :=
  [msg_with 7 NlNeigh.RTM_NEWNEIGH 18 (NlParse.m_body (neigh_msg 7 0 NlNeigh.sample_heap sample_neigh)); msg_with 7 NLMSG_DONE 18 [0; 0; 0; 0]].
Definition empty_part : list NlParse.message := [msg_with 8 NLMSG_DONE 2 [0; 0; 0; 0]].
Definition changing_kernel : Kernel := fun h c =>
  match c, length h with
  | SendmsgAddr _ _ _ _ data _, _ => Reply (zlen data) 0 [] 0 0 0
  | RecvmsgFlags _ _ _ _, 1%nat => datagram (enc_msgs interrupted_part)
  | RecvmsgFlags _ _ _ _, 3%nat => datagram (enc_msgs empty_part)
  | _, _ => Reply (-1) 11 [] 0 0 0
  end.

(** [nl_cache_refill] asks again when a dump was interrupted, but it does not
    empty the cache again: a neighbour of the first dump that is not in the
    second one stays in the cache, and the result is 0. *)
Theorem nl_cache_refill_keeps_stale : exists sk' m' st,
  nl_cache_refill (kernel := changing_kernel) (fun _ => neigh_object_ops) 4096 5 type0 sk0 1 (Some neigh_mem) (sync_lib, w0) = Some ((sk', Some m', 0), st) /\
  c_nitems <$> caches m' !! 1%positive = Some 1.
Proof. eexists _, _, _. split; [vm_compute; reflexivity|reflexivity]. Qed.

End Samples.

End NlSync.
