(* ===== verification/NlIfaddrSync.v ===== *)
(** * Requests and the cache of interface addresses ([lib/route/addr.c])

    Adding and deleting an address is a request of [NlRequest]; the cache of
    addresses is filled as in [NlSync], through the parser of [NlIfaddr].  The
    cache has no hash table: addresses are found by comparing.

    The theorems: a request that lacks attributes is refused and nothing is
    sent, any other one reaches the kernel and is answered; after a refill the
    cache has what the kernel said last of each address. *)

From S2P Require Import Prelude Netlink Syscalls NetRequests NlParse NlAttr NlCache NlCacheInv NlSocket NlRecv NlAddr NlRtnl NlNeigh NlIfaddr NlRequest NlSync.
From Stdlib Require Import ZArith Lia.
From stdpp Require Import base list numbers option gmap.

Open Scope Z_scope.

Module NlIfaddrSync.
Import Netlink Syscalls NlSocket NlRecv.
Import NlParse (rd, message, Msg, m_rest, m_body, enc_msg, enc_msgs, datagram, enc_all).
Import NlAttr (nl_msg, msg_holds).
Import NlIfaddr.

#[local] Existing Instances NlRtnl.H_ret NlRtnl.H_bind.

Definition RTM_GETADDR : Z := 22.
Definition RTNLGRP_IPV4_IFADDR : Z := 5.
Definition RTNLGRP_IPV6_IFADDR : Z := 9.
Definition AF_INET : Z := 2.
Definition AF_INET6 : Z := 10.

(** ** Functions *)

Section Requests.
Context {A S : Type} {al : Allocator} {kernel : Kernel} {outputs : RecvOutputs}.
Variables getpagesize getpid default_msg_size : Z.

Abbreviation N := (@N nl_msg nlmsgerr A S (@RM S) RV SD).

Definition rtnl_addr_add (fuel : nat) (sk : nl_sock) (h : NlRtnl.heap) (addr : ifaddr) (flags : Z) (s : S) : N (nl_sock * S * Z) :=
  NlRequest.send_request getpagesize getpid fuel sk (rtnl_addr_build_add_request default_msg_size h addr flags) s.
Definition rtnl_addr_delete (fuel : nat) (sk : nl_sock) (h : NlRtnl.heap) (addr : ifaddr) (flags : Z) (s : S) : N (nl_sock * S * Z) :=
  NlRequest.send_request getpagesize getpid fuel sk (rtnl_addr_build_delete_request default_msg_size h addr flags) s.

Definition addr_request_update (sk : nl_sock) (s : S) : N (nl_sock * S * Z) :=
  NlRequest.nl_rtgen_request getpid default_msg_size sk RTM_GETADDR NlRequest.AF_UNSPEC NlRequest.NLM_F_DUMP s.

End Requests.

Section Cache.
Context {al : Allocator} {kernel : Kernel} {outputs : RecvOutputs}.
Variables getpagesize getpid default_msg_size : Z.

(** The heap the parser works on, with the links of the link cache. *)
Variables (lcache : option (list positive)) (hp : NlRtnl.heap).

Definition content_of (h : NlRtnl.heap) (o : ifaddr) : NlCache.content ifaddr_value := NlCache.Content (NlRtnl.ce_mask o) (ifaddr_view h o).

(** A callback that keeps the object. *)
Definition keep (o : ifaddr) : NlRtnl.H (ifaddr * Z) :=
  mret (NlRtnl.Object (NlRtnl.ce_refcnt o + 1) (NlRtnl.ce_msgtype o) (NlRtnl.ce_mask o) (NlRtnl.ce_data o), 0).

(** What [addr_msg_parser] hands to a callback, or its error. *)
Definition addr_decode (nlh : bytes) : option (Z + NlSync.value (D := ifaddr_value)) :=
  '(err, r, h) ← addr_msg_parser keep lcache nlh hp;
  if err <? 0 then Some (inl err) else
  o ← r; Some (inr (NlRtnl.ce_msgtype o, content_of h o)).

(** [addr_obj_ops] is at the address 1; there is no [oo_keygen]. *)
Definition rtnl_addr_ops : NlCache.nl_cache_ops :=
  NlCache.CacheOps 1 0 0 [(RTM_NEWADDR, NlCache.NL_ACT_NEW); (RTM_DELADDR, NlCache.NL_ACT_DEL); (RTM_GETADDR, NlSync.NL_ACT_GET)].

Definition addr_type : NlSync.cache_type (D := ifaddr_value) :=
  NlSync.CacheType NlSync.NETLINK_ROUTE 8 (Some [(AF_INET, RTNLGRP_IPV4_IFADDR); (AF_INET6, RTNLGRP_IPV6_IFADDR)]) addr_decode
    (Some (fun _ sk s => addr_request_update getpid default_msg_size sk s)).

Definition rtnl_addr_alloc_cache (fuel : nat) (sk : option nl_sock) (s : option (NlCache.mem ifaddr_value)) :=
  NlSync.nl_cache_alloc_and_fill (fun _ => addr_obj_ops) getpagesize fuel addr_type rtnl_addr_ops sk s.

End Cache.

(** ** Requests *)

Section Delivered.
Context {A S : Type} {al : Allocator} {kernel : Kernel} {outputs : RecvOutputs}.
Variables getpagesize getpid size : Z.
Hypothesis memory : malloc_total al.
Hypothesis size_ok : 1024 <= size <= 2147483640.

(** Adding or deleting, and the attributes it needs: the interface and the
    family, and to add an address also the address and its prefix length. *)
Definition addr_request (add : bool) :=
  if add then rtnl_addr_add (A := A) (S := S) getpagesize getpid size else rtnl_addr_delete getpagesize getpid size.
Definition given {B} (x : option B) : bool := match x with Some _ => true | None => false end.
Definition addr_complete (add : bool) (v : ifaddr_value) : bool :=
  given (v_ifindex v) && given (v_family v) && (negb add || given (v_prefixlen v) && given (v_local v)).

Lemma given_att {B} m attr (x : B) : given (NlRtnl.att m attr x) = NlRtnl.has m attr.
Proof. unfold NlRtnl.att. by destruct (NlRtnl.has m attr). Qed.

Lemma given_slot h o s : ifaddr_ok h o -> given (view_slot h o s) = NlRtnl.has (NlRtnl.ce_mask o) (slot_attr s).
Proof.
  intros Ho. pose proof (ok_ptrs _ _ Ho s) as Hp. unfold view_slot, NlRtnl.view_ptr. unfold NlRtnl.ptr_ok in Hp.
  destruct (NlRtnl.has _ _); [|done]. destruct Hp as (a & -> & _). done.
Qed.

Lemma land_covers m r : Z.land m r = r <-> forall i, Z.testbit r i = true -> Z.testbit m i = true.
Proof.
  split; [intros E i Hi; rewrite <- E, Z.land_spec in Hi; apply andb_true_iff in Hi; apply Hi|]. intros H. apply Z.bits_inj'. intros i _. rewrite Z.land_spec.
  specialize (H i). destruct (Z.testbit r i); [by rewrite H|by rewrite andb_false_r].
Qed.

Lemma lacks_lor o a b : lacks o (Z.lor a b) = lacks o a || lacks o b.
Proof.
  unfold lacks. rewrite <- negb_andb. f_equal. apply eq_true_iff_eq. rewrite andb_true_iff, !Z.eqb_eq, !land_covers. split.
  - intros H. split; intros i Hi; apply H; rewrite Z.lor_spec, Hi; [done|by rewrite orb_true_r].
  - intros [H1 H2] i Hi. rewrite Z.lor_spec in Hi. apply orb_true_iff in Hi as []; auto.
Qed.

Lemma lacks_bit o attr : NlRtnl.one_bit attr -> lacks o attr = negb (NlRtnl.has (NlRtnl.ce_mask o) attr).
Proof.
  intros (k & Hk & ->). unfold lacks. f_equal. rewrite NlRtnl.has_bit by done. apply eq_true_iff_eq. rewrite Z.eqb_eq, land_covers. split.
  - intros H. apply H. by apply Z.pow2_bits_true.
  - intros H i Hi. destruct (Z.eq_dec k i) as [<-|Hne]; [done|]. by rewrite Z.pow2_bits_false in Hi.
Qed.

(** The builder in one equation. *)
Lemma addr_build_cases add h t flags s fuel sk : ifaddr_ok h t -> addr_request add fuel sk h t flags s =
  NlRequest.send_request getpagesize getpid fuel sk (if addr_complete add (ifaddr_view h t)
    then build_addr_msg size h t (if add then RTM_NEWADDR else RTM_DELADDR) (if add then Z.lor NLM_F_CREATE flags else flags)
    else Some (inl (- NlRtnl.NLE_MISSING_ATTR))) s.
Proof.
  intros Ho. pose proof (given_slot h t Local Ho) as El. cbn [slot_attr] in El. unfold addr_complete. cbn [ifaddr_view v_ifindex v_family v_prefixlen v_local].
  rewrite !given_att, El. assert (NlRtnl.one_bit ADDR_ATTR_IFINDEX /\ NlRtnl.one_bit ADDR_ATTR_FAMILY /\ NlRtnl.one_bit ADDR_ATTR_PREFIXLEN /\ NlRtnl.one_bit ADDR_ATTR_LOCAL) as (B1 & B2 & B3 & B4).
  { split_and!; [by exists 4|by exists 0|by exists 1|by exists 8]. }
  destruct add; unfold addr_request, rtnl_addr_add, rtnl_addr_delete, rtnl_addr_build_add_request, rtnl_addr_build_delete_request; f_equal; rewrite !lacks_lor, !lacks_bit by done;
    repeat match goal with |- context [NlRtnl.has ?m ?x] => destruct (NlRtnl.has m x) end; done.
Qed.


End Delivered.

(** ** The cache of addresses *)

Section Addresses.
Import NlCache NlCacheInv NlSync Netlink Syscalls NlSocket NlRecv NlIfaddr.
#[local] Existing Instance addr_laws.
Context {al : Allocator} {kernel : Kernel} {outputs : RecvOutputs}.
Variables getpagesize getpid size : Z.
Hypothesis total : malloc_total al.
Hypothesis size_ok : 1024 <= size <= 2147483640.

Variables (lcache : option (list positive)) (hp : NlRtnl.heap) (user luser : positive -> Z) (held ls : list (option positive)).
Hypothesis heap_fine : NlRtnl.heap_ok user held hp.
Hypothesis links_fine : link_refs luser ls hp.
Hypothesis links_cached : cached luser ls lcache.

Abbreviation ops_at := (fun _ : Z => addr_obj_ops).
Abbreviation addr_type := (addr_type getpid size lcache hp).

(** A message about an address, and what it is understood as. *)
Definition addr_msg (seq pid : Z) (c : ifa_content) : message :=
  Msg (le_bytes 2 RTM_NEWADDR ++ le_bytes 2 NLM_F_MULTI ++ le_bytes 4 seq ++ le_bytes 4 pid) (ifa_bytes (m_hdr c) ++ enc_all (content_attrs c)).

Definition addr_heard (c : ifa_content) : value (D := ifaddr_value) := (RTM_NEWADDR, NlCache.Content (mask_of (received c)) (received c)).

Lemma opt_attr_room t d : (forall x, d = Some x -> zlen x <= 65531) -> zlen (enc_all (opt_attr t d)) <= 65538.
Proof. intros H. pose proof (zlen_opt_attr t d 65531 H). lia. Qed.

Lemma content_room c : content_ok c -> zlen (enc_all (content_attrs c)) mod 4 = 0 /\ 0 <= zlen (enc_all (content_attrs c)) <= 8 * 65538.
Proof.
  intros Hc. split; [by apply NlAttr.enc_all_mod4, content_passes|]. split; [apply zlen_nonneg|].
  pose proof (fun t => opt_attr_room t (attr_data c t) (fun x E => proj1 (co_short c Hc t x E))) as Hr. unfold content_attrs. rewrite !NlRtnl.zlen_enc_app.
  pose proof (Hr IFA_LOCAL). pose proof (Hr IFA_ADDRESS). pose proof (Hr IFA_LABEL). pose proof (Hr IFA_BROADCAST).
  pose proof (Hr IFA_CACHEINFO). pose proof (Hr IFA_FLAGS). pose proof (Hr IFA_MULTICAST). pose proof (Hr IFA_ANYCAST). lia.
Qed.

(** A callback that keeps the object has the parsed object. *)
Lemma keep_run h o : NlRtnl.ce_refcnt o = 1 ->
  ('(o, err) ← keep o; r ← rtnl_addr_put (Some o); mret (err, r)) h = Some (0, Some o, h).
Proof. intros E. destruct o as [rf ty mk d]. cbn in E. by subst rf. Qed.

Lemma addr_says seq pid c : content_ok c -> says (co_hdrsize addr_type) (co_decode addr_type) rtnl_addr_ops (enc_msg (addr_msg seq pid c)) (addr_heard c).
Proof.
  intros Hc. destruct (content_room c Hc) as [Hmod Hlen]. set (x := addr_msg seq pid c).
  assert (zlen (m_body x) = 8 + zlen (enc_all (content_attrs c))) as Hb by (by cbn [x addr_msg m_body]; rewrite zlen_app).
  assert (zlen (m_rest x) = 12) as Hr by done. assert (zlen (m_body x) mod 4 = 0) as Hm4 by (by rewrite Hb, <- Z.add_mod_idemp_r, Hmod).
  destruct (enc_holds x Hr Hm4 ltac:(lia)) as [Hx El].
  assert (rd 4 2 (enc_msg x) = Some RTM_NEWADDR) as Htype by (rewrite NlParse.rd_Some by lia; reflexivity).
  split.
  - unfold NlAttr.nlmsg_valid_hdr. rewrite NlParse.rd_Some by lia. cbn [mbind option_bind].
    pose proof (holds_len _ _ _ (proj1 Hx)) as Hl. change (hdr_len _) with (get_le 0 4 (enc_msg x)) in Hl. rewrite Hl.
    change (u32 (NlAttr.nlmsg_size (co_hdrsize addr_type))) with 24. by rewrite (proj2 (Z.ltb_ge _ _)) by lia.
  - exists RTM_NEWADDR. split; [done|]. by left.
  - cbn [co_decode NlIfaddrSync.addr_type]. unfold addr_decode.
    destruct (addr_parse_holds total user luser held ls lcache c hp RTM_NEWADDR (NlRequest.as_msg (enc_msg x)) (m_rest x) Hc heap_fine links_fine links_cached)
      as (o & h' & Ep & [Ho _ _ Href] & Hty & Hv); [change (zlen (enc_msg x) <= 2147483640); lia|done|done|].
    change (NlAttr.nm_nlh (NlRequest.as_msg (enc_msg x))) with (enc_msg x) in Ep. rewrite Ep, (keep_run h' o Href). cbn [mbind option_bind]. change (0 <? 0) with false. cbv iota.
    unfold addr_heard, content_of. by rewrite Hty, (ifaddr_mask h' o Ho), Hv.
Qed.

(** C12: after [nl_cache_refill] the cache of interface addresses is what the
    kernel said: for a kernel that sends any addresses, each encoded with its
    header and attributes, in any number of datagrams, the cache has exactly
    one address for each value said last among identical ones, with the local
    and peer address, the prefix length, label, flags and lifetimes of the
    message; the socket has sent one request, for all families, and is ready
    for the next. *)
Theorem addr_refill_mirrors fuel sk c x items m l w seq pid css cs last : listening getpagesize sk l -> sending sk -> s_proto sk = NETLINK_ROUTE ->
  cache_ok ops_at m c x items -> c_ops x = rtnl_addr_ops -> hashtable x = None -> af_iter x = false ->
  Forall content_ok (concat css ++ cs) -> zlen (concat css ++ cs) <= INT_MAX ->
  answers_dump getpagesize sk (log w) RTM_GETADDR NlRequest.AF_UNSPEC (map (map (addr_msg seq pid)) css) (map (addr_msg seq pid) cs) last ->
  (length css < fuel)%nat -> (3 <= fuel)%nat ->
  ends (nl_cache_refill ops_at getpagesize fuel addr_type sk c (Some m)) (l, w) (fun res st => exists m' x' us,
    let next := u32 (s_seq_next sk + 1) in
    res = (set_seq_expect next (set_seq_next next sk), Some m', 0) /\ fst st = l /\ live (snd st) = live w /\ same_cache x x' /\
    mirrors ops_at m' c x' us /\ (forall u, u ∈ us <-> last_word ops_at 1 (map addr_heard (concat css ++ cs)) u) /\ apart ops_at 1 us /\
    outside ops_at m m' c).
Proof.
  intros Hls Hsd Hproto Hc Hops Hht Hit Hall Hlen Hans Hf Hf3.
  assert (concat (map (map (addr_msg seq pid)) css) ++ map (addr_msg seq pid) cs = map (addr_msg seq pid) (concat css ++ cs)) as Ems
    by (by rewrite map_app, concat_map).
  eapply ends_mono.
  { eapply (refill_run ops_at getpagesize getpid size total size_ok fuel addr_type sk c x items m l w RTM_GETADDR (fun _ => NlRequest.AF_UNSPEC)
      _ _ last (map addr_heard (concat css ++ cs))); [exact Hls|exact Hsd|exact Hproto|exact Hc| | |exact Hans| | |by rewrite length_map|exact Hf3].
    - split; by vm_compute.
    - by split.
    - rewrite Ems. unfold dump_of. rewrite Hops. apply Forall2_fmap_2. apply Forall_Forall2_diag. eapply Forall_impl; [exact Hall|].
      intros d Hd. split; [by apply addr_says|]. intros Hne. by destruct Hne.
    - unfold zlen in *. by rewrite length_map. }
  intros res st (m' & x' & us & H1 & H2 & H3 & H4 & H5 & H6 & H7 & H8 & _). rewrite Hops in H6, H7. by exists m', x', us.
Qed.

End Addresses.

(** ** Samples *)

Section Samples.
Import NlCache NlCacheInv NlSync Netlink Syscalls NlSocket NlRecv NlIfaddr.
#[local] Existing Instances sample_alloc outputs0 addr_laws.


(** A kernel with the addresses 10.0.0.1/24 and 10.0.0.9/16 of interface 3. *)
Definition address_of (d : bytes) (plen : Z) : ifa_content := NlIfaddr.Content (Ifa AF_INET plen 128 0 3) (Some d) (Some d) None None None None None None.
Definition two_addrs : list ifa_content := [address_of [10; 0; 0; 1] 24; address_of [10; 0; 0; 9] 16].

Lemma address_of_ok d plen : zlen d = 4 -> Forall byte_ok d -> 0 <= plen < 256 -> content_ok (address_of d plen).
Proof.
  intros Hd Hb Hp. constructor; [|intros t x|done..].
  - split_and!; cbn; unfold AF_INET; lia.
  - unfold attr_data. cbn [address_of m_local m_address m_label m_bcast m_cacheinfo m_flags m_multicast m_anycast].
    repeat match goal with |- context [t =? ?k] => destruct (t =? k) end; intros [=]; subst; (split; [lia|done]).
Qed.

Definition addr_dump (cs : list ifa_content) : list message := map (addr_msg 7 0) cs.
Definition addr_cache : nl_cache := Cache 0 0 0 0 0 None rtnl_addr_ops.
Definition addr_mem : mem ifaddr_value := Mem ∅ {[1%positive := addr_cache]} {[Head 1 := (Head 1, Head 1)]} [] [].

Lemma addr_cache_ok : cache_ok (fun _ => addr_obj_ops) addr_mem 1 addr_cache [].
Proof. split; [done|constructor|by split|by intros l Hl%not_elem_of_nil|done|done]. Qed.

#[local] Instance two_addr_kernel : Kernel := dump_answer (enc_msgs (addr_dump two_addrs ++ [last_part])).

Lemma two_addrs_dumped data : dumped 4096 sk0 ([] ++ [(NlRequest.to_peer sk0 data, answer [] (NlRequest.to_peer sk0 data))]) [] (addr_dump two_addrs) last_part.
Proof.
  split; [|split; [reflexivity|done]| | |reflexivity|by vm_compute].
  - repeat (constructor; [vm_compute; split; congruence|]). constructor.
  - repeat (apply list.Forall_cons; split); [vm_compute; intuition congruence..|constructor].
  - repeat (apply list.Forall_cons; split); [by vm_compute..|constructor].
Qed.

Lemma no_link_refs : link_refs (fun _ => 0) [] (NlRtnl.Heap ∅ ∅).
Proof. split; [done|]. intros p. cbn [NlRtnl.h_links]. by rewrite lookup_empty. Qed.

Lemma addr_refill_mirrors_witness : exists st m' x' us,
  nl_cache_refill (fun _ => addr_obj_ops) 4096 3 (addr_type 4711 4096 None (NlRtnl.Heap ∅ ∅)) sk0 1 (Some addr_mem) (sync_lib, w0) =
    Some ((set_seq_expect 8 (set_seq_next 8 sk0), Some m', 0), st) /\
  mirrors (fun _ => addr_obj_ops) m' 1 x' us /\ forall u, u ∈ us <-> last_word (fun _ => addr_obj_ops) 1 (map addr_heard two_addrs) u.
Proof.
  destruct (addr_refill_mirrors 4096 4711 4096 sample_alloc_total ltac:(lia) None (NlRtnl.Heap ∅ ∅) (fun _ => 0) (fun _ => 0) [] []
    (NlRtnl.heap_ok_empty _) no_link_refs ltac:(constructor)
    3 sk0 1 addr_cache [] addr_mem sync_lib w0 7 0 [] two_addrs last_part)
    as (res & st & E & m' & x' & us & -> & _ & _ & _ & Hm & Hlast & _).
  - apply sync_listening.
  - apply sync_sending.
  - reflexivity.
  - exact addr_cache_ok.
  - reflexivity.
  - reflexivity.
  - reflexivity.
  - repeat (apply list.Forall_cons; split); [apply address_of_ok; [done|by apply NlAddr.bytes_check|lia]..|constructor].
  - by vm_compute.
  - intros data _ _ _. apply two_addrs_dumped.
  - simpl. lia.
  - lia.
  - exists st, m', x', us. split; [exact E|]. split; [exact Hm|exact Hlast].
Defined.

(** ** What the code does not do *)

(** The prefix length is among the attributes that identify an address but it
    is not compared, and with a peer it is the peer that has it: the kernel has
    10.0.0.1 with the peers 10.0.0.2/24 and 10.0.0.2/16 on one interface, the
    cache has one address. *)
Definition with_peer (d peer : bytes) (plen : Z) : ifa_content := NlIfaddr.Content (Ifa AF_INET plen 128 0 3) (Some d) (Some peer) None None None None None None.
Definition same_local : list ifa_content := [with_peer [10; 0; 0; 1] [10; 0; 0; 2] 24; with_peer [10; 0; 0; 1] [10; 0; 0; 2] 16].

Theorem addr_refill_merges_prefixes : exists sk' m' st,
  nl_cache_refill (kernel := dump_answer (enc_msgs (addr_dump same_local ++ [last_part]))) (fun _ => addr_obj_ops) 4096 3
    (addr_type 4711 4096 None (NlRtnl.Heap ∅ ∅)) sk0 1 (Some addr_mem) (sync_lib, w0) = Some ((sk', Some m', 0), st) /\
  c_nitems <$> caches m' !! 1%positive = Some 1.
Proof. eexists _, _, _. split; [vm_compute; reflexivity|reflexivity]. Qed.

End Samples.

End NlIfaddrSync.
