(* ===== verification/NlMngr.v ===== *)
(** * The cache manager of libnl ([lib/cache_mngr.c])

    A manager has two sockets and a table of caches: through one socket caches
    are filled when they are added, on the other one notifications arrive,
    which are parsed and included into the cache of their type.  The caches are
    those of [NlCache], the sockets those of [NlSocket]; filling is
    [nl_cache_refill] of [NlSync].

    A cache type is identified with its record, and what [NlCache] does not need
    of it is given by [type_of] and [events_of].  The registry of cache types
    ([NlMngt]) is a parameter: the search for a name, and what providing a cache
    does to the memory.  The argument of [event_input], the manager, is bound in
    the function.

    The theorems: a notification changes the cache as it would change a list of
    values, and the user is told of exactly the changes; the manager follows
    any sequence of notifications in all its caches; a cache that is added is
    filled and followed from then on.  At the end what goes wrong when a
    manager cannot be made or a cache cannot be added. *)

From S2P Require Import Prelude Netlink Syscalls NetRequests NlParse NlAttr NlCache NlCacheInv NlSocket NlRecv NlAddr NlRtnl NlNeigh NlIfaddr NlRequest NlSync NlIfaddrSync.
From Stdlib Require Import ZArith Lia.
From stdpp Require Import base list numbers option gmap.

Open Scope Z_scope.

Module NlMngr.
Import NlCache NlCacheInv NlSync.
Import Netlink Syscalls NlSocket NlRecv.
Import NlAttr (nl_msg).
Import NlParse (message, m_type, m_body, m_rest, enc_msg, enc_msgs, msg_ok, datagram).

Definition NASSOC_INIT : Z := 16.
Definition NASSOC_EXPAND : Z := 8.
Definition NL_AUTO_PROVIDE : Z := 1.
Definition NL_ALLOCATED_SOCK : Z := 2.
Definition NLE_NOCACHE : Z := 24.
Definition POLLIN : Z := 1.

(** [ca_change] tells whether there is a function to call. *)
Record nl_cache_assoc := Assoc { ca_cache : option positive; ca_change : bool }.

Record nl_cache_mngr := Mngr {
  cm_protocol : Z;
  cm_flags : Z;
  cm_nassocs : Z;
  cm_sock : option nl_sock;
  cm_sync_sock : option nl_sock;
  cm_assocs : option (list nl_cache_assoc)
}.

Definition set_cm_sock (v : option nl_sock) (g : nl_cache_mngr) : nl_cache_mngr := Mngr (cm_protocol g) (cm_flags g) (cm_nassocs g) v (cm_sync_sock g) (cm_assocs g).
Definition set_cm_sync_sock (v : option nl_sock) (g : nl_cache_mngr) : nl_cache_mngr := Mngr (cm_protocol g) (cm_flags g) (cm_nassocs g) (cm_sock g) v (cm_assocs g).
Definition set_cm_assocs (n : Z) (v : option (list nl_cache_assoc)) (g : nl_cache_mngr) : nl_cache_mngr :=
  Mngr (cm_protocol g) (cm_flags g) n (cm_sock g) (cm_sync_sock g) v.

(** [sizeof (struct nl_cache_mngr)] and [sizeof (struct nl_cache_assoc)]. *)
Definition mngr_size : Z := 40.
Definition assoc_size : Z := 24.

(** [cm_assocs[0]] to [cm_assocs[cm_nassocs - 1]]. *)
Definition assocs (g : nl_cache_mngr) : option (list nl_cache_assoc) :=
  if cm_nassocs g <=? 0 then Some [] else l ← cm_assocs g; if cm_nassocs g =? zlen l then Some l else None.

(** [a == b] of two cache types. *)
Definition same_ops (a b : nl_cache_ops) : bool :=
  (co_obj_ops a =? co_obj_ops b) && (NlCache.co_flags a =? NlCache.co_flags b) && (co_hash_size a =? co_hash_size b) && bool_decide (co_msgtypes a = co_msgtypes b).

Section Manager.
Context {D : Type} {al : Allocator} {kernel : Kernel} {outputs : RecvOutputs} (ops_at : Z -> nl_object_ops D).
Variables getpagesize getpid default_cb : Z.

Abbreviation memory := (option (mem D)).
Abbreviation M := (@M D).
Abbreviation N := (@NlSocket.N nl_msg nlmsgerr update_xdata memory (@RM memory) RV SD).

(** The functions a cache type may have for notifications. *)
Record event_ops := EventOps {
  co_event_filter : option (positive -> positive -> M Z);
  co_include_event : option (positive -> positive -> bool -> M Z)
}.

Variable type_of : nl_cache_ops -> cache_type (D := D).
Variable events_of : nl_cache_ops -> event_ops.

(** The registry: [nl_cache_ops_lookup_safe] with the put that follows it,
    [nl_cache_mngt_provide] and [nl_cache_mngt_unprovide]. *)
Variable lookup_ops : bytes -> option nl_cache_ops.
Variables mngt_provide mngt_unprovide : positive -> M unit.

(** ** Notifications *)

Definition include_cb (fuel : nat) (c : positive) (cb : bool) (obj : positive) : M Z :=
  x ← get_cache c;
  let ev := events_of (c_ops x) in
  wanted ← (match co_event_filter ev with
            | Some filter => r ← filter c obj; mret (r =? NL_OK)
            | None => mret true
            end);
  if negb wanted then mret 0 else
  match co_include_event ev with
  | Some include => include c obj cb
  | None => nl_cache_include ops_at fuel c obj cb
  end.

(** The first association whose type lists the type of the message. *)
Fixpoint find_assoc (l : list nl_cache_assoc) (type : Z) : M (option (positive * bool * nl_cache_ops)) :=
  match l with
  | [] => mret None
  | a :: l' =>
      match ca_cache a with
      | None => find_assoc l' type
      | Some c =>
          x ← get_cache c;
          if existsb (fun mt => fst mt =? type) (co_msgtypes (c_ops x)) then mret (Some (c, ca_change a, c_ops x)) else find_assoc l' type
      end
  end.

Definition handle_event (fuel : nat) (g : nl_cache_mngr) (msg : nl_msg) : M Z :=
  if negb (cm_protocol g =? nlmsg_get_proto msg) then undef else
  type ← of_opt (NlParse.rd 4 2 (NlAttr.nm_nlh msg));
  l ← of_opt (assocs g);
  r ← find_assoc l type;
  match r with
  | None => mret NL_SKIP
  | Some (c, cb, ops) =>
      let t := type_of ops in
      nl_cache_parse ops_at fuel (co_hdrsize t) (co_decode t) ops (NlAttr.nm_nlh msg) (include_cb fuel c cb)
  end.

Definition event_input (fuel : nat) (g : nl_cache_mngr) : @msg_cb nl_msg update_xdata memory := fun msg _ s =>
  match (m ← s; handle_event fuel g msg m) with
  | None => (NL_STOP, None)
  | Some (ret, m) => (ret, Some m)
  end.

(** [while ((err = nl_recvmsgs_report (...)) > 0)], at most [n] rounds. *)
Fixpoint read_events (fuel n : nat) (sk : nl_sock) (cb : nl_cb nl_msg nlmsgerr update_xdata memory (@RM memory) RV SD) (nread : Z) (s : memory) : N (nl_sock * memory * Z * Z) :=
  match n with
  | O => bug
  | Datatypes.S n' =>
      '(sk, s, err) ← lift (nl_recvmsgs_report getpagesize fuel sk cb s);
      if err >? 0 then read_events fuel n' sk cb (s32 (nread + err)) s else mret (sk, s, err, nread)
  end.

Definition nl_cache_mngr_data_ready (fuel : nat) (g : nl_cache_mngr) (s : memory) : N (nl_cache_mngr * memory * Z) :=
  sk ← of_option (cm_sock g);
  q ← nl_cb_clone err_code (s_cb sk);
  match q with
  | None => mret (g, s, - NLE_NOMEM)
  | Some k =>
      cb ← get_cb k;
      put_cb k (fst (nl_cb_set cb NL_CB_VALID NL_CB_CUSTOM (Some (event_input fuel g)) None)) ;;
      cb ← get_cb k;
      '(sk, s, err, nread) ← read_events fuel fuel sk cb 0 s;
      m ← of_option s;
      nl_cb_put (Some k) ;;
      mret (set_cm_sock (Some sk) g, Some m, if (err <? 0) && negb (err =? - NLE_AGAIN) then err else nread)
  end.

Definition nl_cache_mngr_get_fd (g : nl_cache_mngr) : option Z := nl_socket_get_fd <$> cm_sock g.

Definition nl_cache_mngr_poll (fuel : nat) (g : nl_cache_mngr) (timeout : Z) (s : memory) : N (nl_cache_mngr * memory * Z) :=
  fd ← of_option (nl_cache_mngr_get_fd g);
  r ← sys (Poll fd POLLIN timeout);
  if rc r <? 0 then mret (g, s, - nl_syserr2nlerr (errno r)) else
  if rc r =? 0 then mret (g, s, 0) else nl_cache_mngr_data_ready fuel g s.

(** ** The table of caches *)

(** Whether a cache of the table has the type [ops]. *)
Fixpoint managed (l : list nl_cache_assoc) (ops : nl_cache_ops) : M bool :=
  match l with
  | [] => mret false
  | a :: l' =>
      match ca_cache a with
      | None => managed l' ops
      | Some c => x ← get_cache c; if same_ops (c_ops x) ops then mret true else managed l' ops
      end
  end.

(** The first free place. *)
Fixpoint free_assoc (l : list nl_cache_assoc) : option nat :=
  match l with
  | [] => None
  | a :: l' => match ca_cache a with None => Some O | Some _ => Datatypes.S <$> free_assoc l' end
  end.

(** From [retry:] on: the place, or [None] if the table cannot grow. *)
Definition make_room (g : nl_cache_mngr) : N (nl_cache_mngr * option nat) :=
  l ← of_option (assocs g);
  match free_assoc l with
  | Some i => mret (g, Some i)
  | None =>
      let n := s32 (cm_nassocs g + NASSOC_EXPAND) in
      if malloc_ok (n * assoc_size) then
        l ← of_option (cm_assocs g);
        let l := l ++ replicate (Z.to_nat NASSOC_EXPAND) (Assoc None false) in
        i ← of_option (free_assoc l);
        mret (set_cm_assocs n (Some l) g, Some i)
      else mret (set_cm_assocs n None g, None)
  end.

(** [for (grp = ops->co_groups; grp->ag_group; grp++)]. *)
Fixpoint join_groups (sk : nl_sock) (grp : list (Z * Z)) : N Z :=
  match grp with
  | [] => mret 0
  | (_, ag_group) :: grp' =>
      if ag_group =? 0 then mret 0 else
      err ← nl_socket_add_membership sk ag_group;
      if err <? 0 then mret err else join_groups sk grp'
  end.

Fixpoint leave_groups (sk : nl_sock) (grp : list (Z * Z)) : N unit :=
  match grp with
  | [] => mret tt
  | (_, ag_group) :: grp' =>
      if ag_group =? 0 then mret tt else
      _ ← nl_socket_drop_membership sk ag_group; leave_groups sk grp'
  end.

Definition nl_cache_mngr_add_cache (fuel : nat) (g : nl_cache_mngr) (c : positive) (cb : bool) (s : memory) : N (nl_cache_mngr * memory * Z) :=
  '(x, s) ← on_memory (get_cache c) s;
  let t := type_of (c_ops x) in
  if negb (co_protocol t =? cm_protocol g) then mret (g, s, - NLE_PROTO_MISMATCH) else
  match co_groups t with
  | None => mret (g, s, - NLE_OPNOTSUPP)
  | Some grp =>
      l ← of_option (assocs g);
      '(known, s) ← on_memory (managed l (c_ops x)) s;
      if known : bool then mret (g, s, - NLE_EXIST) else
      '(g, room) ← make_room g;
      match room with
      | None => mret (g, s, - NLE_NOMEM)
      | Some i =>
          sk ← of_option (cm_sock g);
          err ← join_groups sk grp;
          if err <? 0 then mret (g, s, err) else
          sync ← of_option (cm_sync_sock g);
          '(sync, s, err) ← nl_cache_refill ops_at getpagesize fuel t sync c s;
          let g := set_cm_sync_sock (Some sync) g in
          if err <? 0 then leave_groups sk grp ;; mret (g, s, err) else
          l ← of_option (cm_assocs g);
          let g := set_cm_assocs (cm_nassocs g) (Some (<[i := Assoc (Some c) cb]> l)) g in
          '(_, s) ← (if negb (Z.land (cm_flags g) NL_AUTO_PROVIDE =? 0) then on_memory (mngt_provide c) s else mret (tt, s));
          mret (g, s, 0)
      end
  end.

(** The new cache, or the error. *)
Definition nl_cache_mngr_add (fuel : nat) (g : nl_cache_mngr) (name : bytes) (cb : bool) (s : memory) : N (nl_cache_mngr * memory * (Z + positive)) :=
  match lookup_ops name with
  | None => mret (g, s, inl (- NLE_NOCACHE))
  | Some ops =>
      '(p, s) ← on_memory (nl_cache_alloc ops_at ops) s;
      match p with
      | None => mret (g, s, inl (- NLE_NOMEM))
      | Some c =>
          '(g, s, err) ← nl_cache_mngr_add_cache fuel g c cb s;
          if err <? 0 then '(_, s) ← on_memory (nl_cache_free ops_at fuel (Some c)) s; mret (g, s, inl err)
          else mret (g, s, inr c)
      end
  end.

(** ** Managers *)

Fixpoint free_assocs (fuel : nat) (l : list nl_cache_assoc) : M unit :=
  match l with
  | [] => mret tt
  | a :: l' =>
      match ca_cache a with
      | None => free_assocs fuel l'
      | Some c => mngt_unprovide c ;; nl_cache_free ops_at fuel (Some c) ;; free_assocs fuel l'
      end
  end.

(** [free (p)]. *)
Definition free_block {B} (p : option B) : N unit := lift (free_opt p).

(** What is left of the socket of the user. *)
Definition nl_cache_mngr_free (fuel : nat) (g : nl_cache_mngr) (s : memory) : N (option nl_sock * memory) :=
  sock ← (match cm_sock g with Some sk => sk ← nl_close sk; mret (Some sk) | None => mret None end);
  (match cm_sync_sock g with Some sk => sk ← nl_close sk; nl_socket_free (Some sk) | None => mret tt end) ;;
  sock ← (if negb (Z.land (cm_flags g) NL_ALLOCATED_SOCK =? 0) then nl_socket_free sock ;; mret None else mret sock);
  l ← of_option (assocs g);
  '(_, s) ← on_memory (free_assocs fuel l) s;
  free_block (cm_assocs g) ;; lift (heap (-1)) ;;
  mret (sock, s).

(** A new manager, or the error with what is left of the socket of the user;
    [errout:] frees the manager. *)
Definition nl_cache_mngr_alloc (fuel : nat) (sk : option nl_sock) (protocol flags : Z) (s : memory) :
    N (memory * (Z * option nl_sock + nl_cache_mngr)) :=
  let errout g s err := '(sock, s) ← nl_cache_mngr_free fuel g s; mret (s, inl (err, sock)) in
  if negb (Z.land flags NL_ALLOCATED_SOCK =? 0) then bug else
  if negb (malloc_ok mngr_size) then mret (s, inl (- NLE_NOMEM, sk)) else
  lift (heap 1) ;;
  let g := Mngr 0 0 0 None None None in
  '(sk, flags) ← (match sk with
                  | Some sk => mret (Some sk, flags)
                  | None => sk ← nl_socket_alloc err_code default_cb; mret (sk, Z.lor flags NL_ALLOCATED_SOCK)
                  end);
  match sk with
  | None => errout g s (- NLE_NOMEM)
  | Some sk =>
      let g := Mngr protocol flags NASSOC_INIT (Some sk) None None in
      if negb (malloc_ok (NASSOC_INIT * assoc_size)) then errout g s (- NLE_NOMEM) else
      lift (heap 1) ;;
      let g := set_cm_assocs NASSOC_INIT (Some (replicate (Z.to_nat NASSOC_INIT) (Assoc None false))) g in
      nl_socket_disable_seq_check sk ;;
      '(sk, err) ← nl_connect getpid fuel sk protocol;
      let g := set_cm_sock (Some sk) g in
      if err <? 0 then errout g s err else
      err ← nl_socket_set_nonblocking sk;
      if err <? 0 then errout g s err else
      q ← nl_socket_alloc err_code default_cb;
      let g := set_cm_sync_sock q g in
      match q with
      | None => errout g s (- NLE_NOMEM)
      | Some sync =>
          '(sync, err) ← nl_connect getpid fuel sync protocol;
          let g := set_cm_sync_sock (Some sync) g in
          if err <? 0 then nl_socket_free (Some sync) ;; errout g s err else
          mret (s, inr g)
      end
  end.

End Manager.

(** ** One notification *)

Section Include.
Context {D : Type} {al : Allocator} (ops_at : Z -> nl_object_ops D) {laws : ObjectLaws ops_at}.
Hypothesis memory : malloc_total al.
Implicit Types (m : mem D) (l c y : positive) (o : nl_object D) (u v : value (D := D)).

(** *** The specification *)

(** What [nl_object_diff] says of two values. *)
Definition value_diff (ops : Z) u v : Z :=
  match oo_compare (ops_at ops) with None => UINT_MAX | Some cmp => u32 (cmp (snd u) (snd v) UINT_MAX 0) end.

(** The list of values after a notification. *)
Definition event_values (ops act : Z) (vs : list (value (D := D))) v : list (value (D := D)) :=
  if act =? NL_ACT_NEW then absorb ops_at ops vs v
  else if act =? NL_ACT_DEL then without (fun u => ident ops_at ops u v) vs else vs.

(** The changes the user is told of: a new value, a value that replaces another
    one, a value that is gone. *)
Definition event_told (ops act : Z) (vs : list (value (D := D))) v : list Z :=
  match List.find (fun u => ident ops_at ops u v) vs with
  | None => if act =? NL_ACT_NEW then [NL_ACT_NEW] else []
  | Some u =>
      if act =? NL_ACT_NEW then (if value_diff ops u v =? 0 then [] else [NL_ACT_CHANGE])
      else if act =? NL_ACT_DEL then [NL_ACT_DEL] else []
  end.

(** *** Steps *)

Lemma cache_ok_notes m m' c x items : objs m' = objs m -> caches m' = caches m -> links m' = links m ->
  cache_ok ops_at m c x items -> cache_ok ops_at m' c x items.
Proof.
  intros Eo Ec El Hc. apply cache_ok_frame with m; [done|by rewrite Ec; apply (ck_cache _ _ _ _ _ Hc)| |]; intros; by rewrite ?Eo, ?El.
Qed.

(** Calling the function of the user. *)
Definition noted (cb : bool) (ns : list (positive * Z)) m : mem D :=
  if cb then Mem (objs m) (caches m) (links m) (freed m) (changes m ++ ns) else m.

Lemma run_notify cb l act m : notify cb l act m = Some (tt, noted cb [(l, act)] m).
Proof. by destruct cb. Qed.

Lemma cache_ok_noted cb ns m c x items : cache_ok ops_at m c x items -> cache_ok ops_at (noted cb ns m) c x items.
Proof. apply cache_ok_notes; by destruct cb. Qed.

Lemma noted_objs cb ns m : objs (noted cb ns m) = objs m.
Proof. by destruct cb. Qed.
Lemma noted_changes cb ns m : changes (noted cb ns m) = changes m ++ if cb then ns else [].
Proof. destruct cb; [done|]. by rewrite app_nil_r. Qed.

(** A detached object that is put for the last time. *)
Lemma run_put_detached f m l o : objs m !! l = Some o -> ce_refcnt o = 1 -> ce_cache o = None -> exists m',
  nl_object_put ops_at (S (S f)) l m = Some (tt, m') /\ objs m' = delete l (objs m) /\ changes m' = changes m /\
  (forall n, n <> Obj l -> links m' !! n = links m !! n) /\
  (forall c x items, l ∉ items -> cache_ok ops_at m c x items -> cache_ok ops_at m' c x items).
Proof.
  intros E Hr Hc. rewrite (run_object_put_last ops_at f l o m E Hr Hc). eexists. split; [reflexivity|]. split; [done|]. split; [done|]. split.
  - intros n Hn. cbn [links]. by rewrite lookup_delete_ne by congruence.
  - intros c x items Hl Hok. apply cache_ok_frame with m; [done|apply (ck_cache _ _ _ _ _ Hok)| |]; cbn [objs links].
    + intros y Hy. apply lookup_delete_ne. by intros <-.
    + intros n Hn. apply lookup_delete_ne. intros <-. destruct Hn as [Hn|Hn]; [done|]. apply list_elem_of_fmap in Hn as (y & [= <-] & Hy). done.
Qed.

(** [nl_cache_move] of an object that is in no cache. *)
Lemma run_move_detached fuel m c x items l o m' : cache_ok ops_at m c x items -> detached m l o -> ce_ops o = co_obj_ops (c_ops x) ->
  1 <= ce_refcnt o < INT_MAX -> nl_cache_add ops_at fuel c l m = Some (0, m') -> nl_cache_move ops_at fuel c l m = Some (0, m').
Proof.
  intros Hc Hdet Hops Hr Ea. rewrite (nl_cache_add_detached ops_at fuel m c x items l o Hc Hdet Hops Hr) in Ea. destruct Hdet as (E & Hcc & Hlk).
  unfold nl_cache_move. rewrite (run_bind _ _ _ _ _ (run_get_cache _ _ _ (ck_cache _ _ _ _ _ Hc))), (run_bind _ _ _ _ _ (run_get_obj _ _ _ E)).
  rewrite Hops, Z.eqb_refl. cbn [negb]. rewrite (run_bind _ _ _ _ _ (run_object_get l o m E ltac:(lia) ltac:(unfold INT_MIN; lia))). set (m1 := with_objs _ m) in *.
  assert (links m1 !! Obj l = Some (Obj l, Obj l)) as Hlk1 by done. assert (nl_list_empty (Obj l) m1 = Some (true, m1)) as Ee.
  { unfold nl_list_empty. rewrite (run_bind _ _ _ _ _ (run_get_link _ _ _ Hlk1)). simpl. by rewrite bool_decide_true. }
  rewrite (run_bind _ _ _ _ _ Ee). cbn [negb]. assert ((mret tt : @M D unit) m1 = Some (tt, m1)) as Er by done. rewrite (run_bind _ _ _ _ _ Er).
  destruct (__cache_add ops_at c l m1) as [[ret m2]|] eqn:E2; [|by unfold mbind, M_bind in Ea; rewrite E2 in Ea].
  rewrite (run_bind _ _ _ _ _ E2) in Ea. destruct (Z.ltb_spec ret 0) as [Hneg|Hpos].
  - unfold mbind, M_bind in Ea. destruct (nl_object_put ops_at fuel l m2) as [[[] m3]|]; [|done]. injection Ea as -> _. lia.
  - injection Ea as -> ->. done.
Qed.

(** The object a search found is taken out of the cache; the reference of the
    search is left. *)
Lemma run_take_old f m c x i1 y i2 o l ol : cache_ok ops_at m c x (i1 ++ y :: i2) -> objs m !! y = Some o -> ce_refcnt o = refs x -> detached m l ol ->
  exists m' h, nl_cache_remove ops_at (S (S (S f))) y (found m (Some y)) = Some (tt, m') /\
    cache_ok ops_at m' c (removed x h) (i1 ++ i2) /\ match hashtable x with Some _ => is_Some h | None => h = None end /\
    objs m' = <[y := set_refcnt 1 (set_ce_cache None o)]> (objs m) /\ detached m' l ol /\ changes m' = changes m /\ y <> l /\ y ∉ i1 ++ i2 /\
    (forall c' x' items', c <> c' -> cache_ok ops_at m c' x' items' -> cache_ok ops_at m' c' x' items' /\ y ∉ items').
Proof.
  intros Hc Ey Hr Hdet. set (m1 := found m (Some y)). pose proof (detached_not_in _ _ _ _ _ _ _ Hc Hdet) as Hni.
  assert (y <> l) as Hyl by (intros ->; apply Hni; clear; set_solver). assert (1 <= refs x <= 2) as Hr12 by (unfold refs; destruct (hashtable x); lia).
  set (o1 := set_refcnt (ce_refcnt o + 1) o).
  assert (m1 = with_objs (<[y := o1]>) m) as Em1 by (unfold m1, found, with_objs; by rewrite (alter_present _ _ _ _ Ey)).
  assert (objs m1 !! y = Some o1) as E1 by (rewrite Em1; apply lookup_insert_eq).
  assert (cache_ok ops_at m1 c x (i1 ++ y :: i2)) as Hc1.
  { apply cache_ok_found; [done|]. intros z oz [= <-]. rewrite Ey. intros [= <-]. unfold INT_MAX. lia. }
  destruct (run_cache_remove_ok ops_at f m1 c x i1 y i2 o1 Hc1 E1) as (m2 & h & E2 & Hc2 & Eo2 & _ & _ & Hh & _ & Hoth2).
  destruct (run_cache_remove ops_at f m1 c x i1 y i2 o1 Hc1 E1) as (m2' & h' & E2' & _ & _ & El2 & _ & _ & _ & Eg2). rewrite E2 in E2'. injection E2' as <-.
  unfold after_remove in Eo2. rewrite (proj2 (Z.eqb_neq (ce_refcnt o1) _)) in Eo2 by (simpl; lia).
  assert (set_refcnt (ce_refcnt o1 - refs x) (set_ce_cache None o1) = set_refcnt 1 (set_ce_cache None o)) as Eo
    by (unfold set_refcnt, set_ce_cache, o1; simpl; f_equal; lia). rewrite Eo in Eo2.
  exists m2, h. split_and!; [done|done|done| | |by rewrite Eg2, Em1|done| |].
  - rewrite Eo2, Em1. cbn [with_objs objs]. by rewrite insert_insert_eq.
  - destruct Hdet as (El & Hcc & Hlk). split; [|split; [done|]].
    + rewrite Eo2, lookup_insert_ne, Em1 by done. cbn [with_objs objs]. by rewrite lookup_insert_ne.
    + rewrite El2 by (left; congruence). rewrite unlinked_frame; [by rewrite Em1|done|..];
        intros (z & [= <-] & Hz)%list_elem_of_fmap; apply Hni; clear -Hz; set_solver.
  - pose proof (ck_nodup _ _ _ _ _ Hc) as (_ & Hdis & [Hy2 _]%NoDup_cons)%NoDup_app. rewrite elem_of_app. intros [Hy|Hy]; [|done]. apply (Hdis y Hy). by left.
  - intros c' x' items' Hne Hc'. assert (y ∉ items') as Hy by (apply (caches_disjoint ops_at m c x (i1 ++ y :: i2) c' x' items' y); try done; clear; set_solver).
    split; [|done]. apply Hoth2; [done|]. rewrite Em1. by apply cache_ok_objs_ne.
Qed.

(** An object that is in no cache goes to the end of one without an identical
    object. *)
Definition in_cache c (x : nl_cache) v : nl_object D := set_refcnt (1 + refs x) (set_ce_cache (Some c) (as_object (co_obj_ops (c_ops x)) v)).

Lemma run_move_add fuel m c x items l v : cache_ok ops_at m c x items -> detached m l (as_object (co_obj_ops (c_ops x)) v) ->
  identifies ops_at x v -> zlen items < INT_MAX ->
  (hashtable x <> None -> List.find (same ops_at m (as_object (co_obj_ops (c_ops x)) v)) items = None) ->
  exists m' x', nl_cache_move ops_at fuel c l m = Some (0, m') /\ same_cache x x' /\ cache_ok ops_at m' c x' (items ++ [l]) /\
    objs m' = <[l := in_cache c x v]> (objs m) /\ changes m' = changes m /\
    (forall c' x' items', c <> c' -> cache_ok ops_at m c' x' items' -> cache_ok ops_at m' c' x' items').
Proof.
  intros Hc Hdet Hself Hlen Hnone.
  destruct (run_cache_add_ok ops_at fuel m c x items l (as_object (co_obj_ops (c_ops x)) v) Hc Hdet) as (m' & h & E & Hc' & Eo & _ & Eg & Hh & Hoth);
    [done|cbn; unfold INT_MAX; lia|done|done| |].
  { unfold add_result. destruct (hashtable x); [|done]. rewrite Hnone by done. by rewrite memory. }
  exists m', (added x h). split_and!; [|by exists (c_nitems x + 1), h|done..].
  apply (run_move_detached fuel m c x items l (as_object (co_obj_ops (c_ops x)) v)); try done; cbn; unfold INT_MAX; lia.
Qed.

(** The parser gives its reference back. *)
Lemma run_put_added f m c x items us l v : cache_ok ops_at m c x (items ++ [l]) -> Forall2 (owned m (refs x)) items us -> objs m !! l = Some (in_cache c x v) ->
  exists m', nl_object_put ops_at (S (S (S f))) l m = Some (tt, m') /\ mirrors ops_at m' c x (us ++ [v]) /\ changes m' = changes m /\
    (forall y, y <> l -> objs m' !! y = objs m !! y) /\
    (forall c' x' items', c <> c' -> cache_ok ops_at m c' x' items' -> cache_ok ops_at m' c' x' items').
Proof.
  intros Hc Hown El. assert (1 <= refs x <= 2) as Hr12 by (unfold refs; destruct (hashtable x); lia).
  rewrite (run_object_put_shared ops_at _ l (in_cache c x v) m El) by (cbn; unfold INT_MAX; lia).
  replace (ce_refcnt (in_cache c x v) - 1) with (refs x) by (cbn; lia). eexists. split; [reflexivity|]. split_and!; [|done| |].
  - apply (mirrors_snoc ops_at m c x items l us v (in_cache c x v)); try done. cbn. lia.
  - intros y Hy. cbn [with_objs objs]. by rewrite lookup_insert_ne.
  - intros c' x' items' Hne Hc'. apply cache_ok_objs_ne; try done. apply (caches_disjoint ops_at m c x (items ++ [l]) c' x' items'); try done. clear. set_solver.
Qed.

(** The references of a cache do not depend on its objects. *)
Lemma removed_refs x h : match hashtable x with Some _ => is_Some h | None => h = None end -> same_cache x (removed x h) /\ refs (removed x h) = refs x.
Proof. intros Hh. assert (same_cache x (removed x h)) as Hs by (by exists (c_nitems x - 1), h). split; [done|]. by apply same_cache_refs. Qed.

(** A notification that leaves no object of its own. *)
Lemma run_put_unused f m c x vs l v : mirrors ops_at m c x vs -> detached m l (as_object (co_obj_ops (c_ops x)) v) -> exists m',
  nl_object_put ops_at (S (S (S f))) l m = Some (tt, m') /\ mirrors ops_at m' c x vs /\ outside_but ops_at m m' c l /\ changes m' = changes m.
Proof.
  intros [items [Hc Hown]] Hdet. pose proof (detached_not_in _ _ _ _ _ _ _ Hc Hdet) as Hni.
  destruct (run_put_detached (S f) m l _ (proj1 Hdet) eq_refl eq_refl) as (m' & E & Eo & Eg & _ & Hok). exists m'. split; [done|]. split; [|split; [|done]].
  - exists items. split; [by apply Hok|]. apply (owned_frames m); [|done]. intros y Hy. rewrite Eo. apply lookup_delete_ne. by intros <-.
  - split.
    + intros y o Hy Ey _. by rewrite Eo, lookup_delete_ne.
    + intros c' x' items' Hne Hc'. apply Hok; [|done]. exact (detached_not_in _ _ _ _ _ _ _ Hc' Hdet).
Qed.

(** What a notification does to the memory, with the reference of the parser
    given back. *)
Definition included m m' c x l v act (cb : bool) (vs : list (value (D := D))) : Prop := let ops := co_obj_ops (c_ops x) in
  exists x', same_cache x x' /\ mirrors ops_at m' c x' (event_values ops act vs v) /\ outside_but ops_at m m' c l /\
  map snd (changes m') = map snd (changes m) ++ (if cb then event_told ops act vs v else []).

(** An object of a new value is added; [y] is the object it replaces, with one
    reference left. *)
Lemma run_include_added f m c x items vs l v cb ns (old : option positive) : cache_ok ops_at m c x items -> Forall2 (owned m (refs x)) items vs ->
  detached m l (as_object (co_obj_ops (c_ops x)) v) -> identifies ops_at x v -> zlen items < INT_MAX ->
  (hashtable x <> None -> List.find (same ops_at m (as_object (co_obj_ops (c_ops x)) v)) items = None) ->
  (forall y, old = Some y -> exists o, objs m !! y = Some o /\ ce_refcnt o = 1 /\ ce_cache o = None /\ y <> l) -> exists m1 m2 m' x',
  nl_cache_move ops_at (S (S (S f))) c l m = Some (0, m1) /\ objs m1 = <[l := in_cache c x v]> (objs m) /\
  (match old with Some y => nl_object_put ops_at (S (S (S f))) y | None => mret tt end) (noted cb ns m1) = Some (tt, m2) /\
  nl_object_put ops_at (S (S (S f))) l m2 = Some (tt, m') /\ same_cache x x' /\ mirrors ops_at m' c x' (vs ++ [v]) /\
  changes m' = changes m ++ (if cb then ns else []) /\
  (forall z o, z <> l -> old <> Some z -> objs m !! z = Some o -> objs m' !! z = Some o) /\
  (forall c' x' items', c <> c' -> cache_ok ops_at m c' x' items' -> cache_ok ops_at m' c' x' items').
Proof.
  intros Hc Hown Hdet Hself Hlen Hnone Hold. pose proof (detached_not_in _ _ _ _ _ _ _ Hc Hdet) as Hni.
  destruct (run_move_add (S (S (S f))) m c x items l v Hc Hdet Hself Hlen Hnone) as (m1 & x' & E1 & Hx & Hc1 & Eo1 & Eg1 & Hoth1).
  pose proof (same_cache_refs _ _ Hx) as Hrefs. pose proof (same_cache_ops _ _ Hx) as Hops.
  assert (exists m2, (match old with Some y => nl_object_put ops_at (S (S (S f))) y | None => mret tt end) (noted cb ns m1) = Some (tt, m2) /\
    changes m2 = changes m ++ (if cb then ns else []) /\ (forall z, old <> Some z -> objs m2 !! z = objs m1 !! z) /\
    (forall c' x' items', cache_ok ops_at m1 c' x' items' -> (forall y, old = Some y -> y ∉ items') -> cache_ok ops_at m2 c' x' items')) as (m2 & E2 & Eg2 & Eo2 & Hok2).
  { destruct old as [y|].
    - destruct (Hold y eq_refl) as (o & Ey & Hr & Hcc & Hyl). destruct (run_put_detached (S f) (noted cb ns m1) y o) as (m2 & E2 & Eo2 & Eg2 & _ & Hok); [|done|done|].
      { rewrite noted_objs, Eo1. by rewrite lookup_insert_ne. }
      exists m2. split_and!; [done|by rewrite Eg2, noted_changes, Eg1| |].
      + intros z Hz. rewrite Eo2, noted_objs. apply lookup_delete_ne. congruence.
      + intros c' x0 items' Hc' Hy. apply Hok; [by apply Hy|]. by apply cache_ok_noted.
    - exists (noted cb ns m1). split_and!; [done|by rewrite noted_changes, Eg1|intros z _; by rewrite noted_objs|]. intros c' x0 items' Hc' _. by apply cache_ok_noted. }
  assert (forall c' x' items', cache_ok ops_at m c' x' items' -> forall y, old = Some y -> y ∉ items') as Hnot.
  { intros c' x0 items' Hc' y -> Hy. destruct (Hold y eq_refl) as (o & Ey & _ & Hcc & _). destruct (ck_items _ _ _ _ _ Hc' y Hy) as (o' & E' & Hcc' & _). congruence. }
  assert (old <> Some l) as Hol by (intros ->; by destruct (Hold l eq_refl) as (o & _ & _ & _ & Hne)).
  destruct (run_put_added f m2 c x' items vs l v) as (m' & E3 & Hm & Eg3 & Eo3 & Hoth3).
  { apply Hok2; [done|]. intros y Hy. rewrite elem_of_app, list_elem_of_singleton. intros [Hin| ->]; [|done]. by apply (Hnot c x items Hc y). }
  { rewrite Hrefs. apply (owned_frames m); [|done]. intros y Hy. rewrite Eo2, Eo1; [apply lookup_insert_ne; by intros <-|]. intros Ho. by apply (Hnot c x items Hc y Ho). }
  { rewrite Eo2, Eo1, lookup_insert_eq by done. unfold in_cache. by rewrite Hrefs, Hops. }
  exists m1, m2, m', x'. split_and!; try done.
  - by rewrite Eg3, Eg2.
  - intros z o Hz Hoz Ez. rewrite Eo3, Eo2, Eo1 by done. by rewrite lookup_insert_ne.
  - intros c' x0 items' Hne Hc'. apply Hoth3; [done|]. apply Hok2; [by apply Hoth1|]. by apply (Hnot c' x0).
Qed.

Lemma same_cache_refl x : same_cache x x.
Proof. exists (c_nitems x), (hashtable x). split; [by destruct x|by destruct (hashtable x)]. Qed.

Lemma run_include_new f m c x vs l v cb : mirrors ops_at m c x vs -> detached m l (as_object (co_obj_ops (c_ops x)) v) ->
  oo_update (ops_at (co_obj_ops (c_ops x))) = None -> identifies ops_at x v -> zlen vs < INT_MAX -> exists m1 m',
  cache_include ops_at (S (S (S f))) c l NL_ACT_NEW cb m = Some (0, m1) /\ nl_object_put ops_at (S (S (S f))) l m1 = Some (tt, m') /\ included m m' c x l v NL_ACT_NEW cb vs.
Proof.
  intros Hm Hdet Hup Hself Hlen. set (ops := co_obj_ops (c_ops x)) in *. set (o := as_object ops v) in *. unfold cache_include, included, event_values, event_told. fold ops.
  pose proof Hm as [items [Hc Hown]]. destruct (run_search_values ops_at m c x items vs l v Hc Hown Hdet) as [Es Hfind]. fold ops o in Es, Hfind.
  pose proof (Forall2_length _ _ _ Hown) as Hl2. assert (forall B (b : B) (m0 : mem D), (mret b : @M D B) m0 = Some (b, m0)) as Er by done.
  change (NL_ACT_NEW =? NL_ACT_DEL) with false. change (NL_ACT_NEW =? NL_ACT_NEW) with true. cbn [orb negb].
  rewrite (run_bind _ _ _ _ _ Es). destruct (List.find (same ops_at m o) items) as [y|] eqn:Ef.
  - destruct Hfind as (i1 & i2 & vs1 & u & vs2 & -> & -> & (oy & Ey & _ & Hcy & Hry) & H12 & -> & Ew).
    destruct (run_take_old f m c x i1 y i2 oy l o Hc Ey Hry Hdet) as (m1 & h & E1 & Hc1 & Hh & Eo1 & Hdet1 & Eg1 & Hyl & Hy12 & Hoth1).
    destruct (removed_refs x h Hh) as [Hxr Hrefs]. destruct (ck_items _ _ _ _ _ Hc y) as (oy' & Ey' & Hccy & Hoy & _); [clear; set_solver|]. rewrite Ey in Ey'. injection Ey' as <-.
    assert (forall z, z ∈ i1 ++ i2 -> objs m1 !! z = objs m !! z) as Ho1 by (intros z Hz; rewrite Eo1; apply lookup_insert_ne; by intros <-).
    destruct (run_include_added f m1 c (removed x h) (i1 ++ i2) (vs1 ++ vs2) l v cb (if value_diff ops u v =? 0 then [] else [(l, NL_ACT_CHANGE)]) (Some y))
      as (m2 & m3 & m' & x' & E2 & Eo2 & E3 & E4 & Hx' & Hm' & Eg' & Ho' & Hoth'); try done.
    { rewrite Hrefs. by apply (owned_frames m). }
    { intros Hne. apply Hself. intros Hn. rewrite Hn in Hh. by rewrite Hh in Hne. }
    { rewrite length_app in Hl2. cbn [length] in Hl2. unfold zlen in *. rewrite length_app in *. cbn [length] in *. lia. }
    { intros Hne. pose proof (ck_table _ _ _ _ _ Hc) as Ht. destruct (hashtable x) as [ht|] eqn:Ehx; [|by rewrite Hh in Hne]. by apply (find_others ops_at m m1 x ht i1 y i2 o). }
    { intros z [= <-]. exists (set_refcnt 1 (set_ce_cache None oy)). rewrite Eo1, lookup_insert_eq. done. }
    exists m3, m'. split; [|split; [done|]].
    + assert ((r ← nl_object_update ops_at y l;
        if r =? 0 then notify cb y NL_ACT_CHANGE ;; nl_object_put ops_at (S (S (S f))) y ;; mret true
        else nl_cache_remove ops_at (S (S (S f))) y ;; (if false then notify cb y NL_ACT_DEL ;; nl_object_put ops_at (S (S (S f))) y else mret tt) ;; mret false)
        (found m (Some y)) = Some (false, m1)) as Eu.
      { rewrite (run_bind _ _ _ _ _ (run_no_update ops_at m c x (i1 ++ y :: i2) y l o Hc ltac:(clear; set_solver) Hdet Hup)).
        change (- NlCache.NLE_OPNOTSUPP =? 0) with false. cbv iota. by rewrite (run_bind _ _ _ _ _ E1). }
      rewrite (run_bind _ _ _ _ _ Eu). rewrite (run_bind _ _ _ _ _ E2).
      assert (nl_object_diff ops_at y l m2 = Some (value_diff ops u v, m2)) as Ed.
      { unfold nl_object_diff. erewrite run_bind by (apply run_get_obj; by rewrite Eo2, lookup_insert_ne, Eo1, lookup_insert_eq by done).
        erewrite run_bind by (apply run_get_obj; by rewrite Eo2, lookup_insert_eq). cbn [ce_ops ce_content set_refcnt set_ce_cache in_cache as_object removed set_nitems set_hashtable c_ops].
        rewrite Hoy, Hcy. fold ops. by rewrite Z.eqb_refl. }
      rewrite (run_bind _ _ _ _ _ Ed). destruct (value_diff ops u v =? 0); cbn [negb].
      * rewrite (run_bind _ _ _ _ _ (Er _ tt m2)). assert (noted cb [] m2 = m2) as En by (destruct cb; [|done]; unfold noted; rewrite app_nil_r; by destruct m2).
        rewrite En in E3. by rewrite (run_bind _ _ _ _ _ E3).
      * rewrite (run_bind _ _ _ _ _ (run_notify cb l NL_ACT_CHANGE m2)). by rewrite (run_bind _ _ _ _ _ E3).
    + exists x'. split_and!.
      * by apply (same_cache_trans x (removed x h)).
      * unfold absorb. by rewrite Ew.
      * split.
        -- intros z oz Hz Ez Hcz. apply Ho'; [done|intros [= <-]; congruence|]. rewrite Eo1, lookup_insert_ne; [done|]. intros <-. congruence.
        -- intros c' x0 items' Hne Hc'. apply Hoth'; [done|]. by apply Hoth1.
      * rewrite Eg', Eg1, map_app. destruct cb; [by destruct (value_diff ops u v =? 0)|done].
  - destruct Hfind as [-> Ew]. destruct (run_include_added f m c x items vs l v cb [(l, NL_ACT_NEW)] None)
      as (m2 & m3 & m' & x' & E2 & _ & E3 & E4 & Hx' & Hm' & Eg' & Ho' & Hoth'); try done; [unfold zlen in *; lia|].
    exists m3, m'. split; [|split; [done|]].
    + rewrite (run_bind _ _ _ _ _ (Er _ false m)). rewrite (run_bind _ _ _ _ _ E2), (run_bind _ _ _ _ _ (run_notify cb l NL_ACT_NEW m2)). injection E3 as <-. done.
    + exists x'. split_and!; [done|unfold absorb; by rewrite Ew| |].
      * split; [|done]. intros z oz Hz Ez _. by apply Ho'.
      * rewrite Eg', map_app. by destruct cb.
Qed.

Lemma run_include_del f m c x vs l v cb : mirrors ops_at m c x vs -> detached m l (as_object (co_obj_ops (c_ops x)) v) ->
  oo_update (ops_at (co_obj_ops (c_ops x))) = None -> identifies ops_at x v -> zlen vs < INT_MAX -> exists m1 m',
  cache_include ops_at (S (S (S f))) c l NL_ACT_DEL cb m = Some (0, m1) /\ nl_object_put ops_at (S (S (S f))) l m1 = Some (tt, m') /\ included m m' c x l v NL_ACT_DEL cb vs.
Proof.
  intros Hm Hdet Hup Hself Hlen. set (ops := co_obj_ops (c_ops x)) in *. set (o := as_object ops v) in *. unfold cache_include, included, event_values, event_told. fold ops.
  pose proof Hm as [items [Hc Hown]]. destruct (run_search_values ops_at m c x items vs l v Hc Hown Hdet) as [Es Hfind]. fold ops o in Es, Hfind.
  change (NL_ACT_DEL =? NL_ACT_NEW) with false. change (NL_ACT_DEL =? NL_ACT_DEL) with true. cbn [orb negb].
  assert (same_cache x x) as Hxx by apply same_cache_refl.
  rewrite (run_bind _ _ _ _ _ Es). destruct (List.find (same ops_at m o) items) as [y|] eqn:Ef.
  - destruct Hfind as (i1 & i2 & vs1 & u & vs2 & -> & -> & (oy & Ey & _ & Hcy & Hry) & H12 & -> & Ew).
    destruct (run_take_old f m c x i1 y i2 oy l o Hc Ey Hry Hdet) as (m1 & h & E1 & Hc1 & Hh & Eo1 & Hdet1 & Eg1 & Hyl & Hy12 & Hoth1).
    destruct (removed_refs x h Hh) as [Hxr Hrefs]. destruct (ck_items _ _ _ _ _ Hc y) as (oy' & Ey' & Hccy & Hoy & _); [clear; set_solver|]. rewrite Ey in Ey'. injection Ey' as <-.
    destruct (run_put_detached (S f) (noted cb [(y, NL_ACT_DEL)] m1) y (set_refcnt 1 (set_ce_cache None oy))) as (m2 & E2 & Eo2 & Eg2 & El2 & Hok2); [by rewrite noted_objs, Eo1, lookup_insert_eq|done|done|].
    rewrite noted_objs, Eo1, delete_insert_eq in Eo2. assert (mirrors ops_at m2 c (removed x h) (vs1 ++ vs2)) as Hm2.
    { exists (i1 ++ i2). split; [apply Hok2; [done|by apply cache_ok_noted]|]. rewrite Hrefs. apply (owned_frames m); [|done]. intros z Hz. rewrite Eo2. apply lookup_delete_ne. by intros <-. }
    assert (detached m2 l o) as Hdet2.
    { destruct Hdet1 as (D1 & D2 & D3). split; [|split; [done|]].
      - rewrite Eo2, lookup_delete_ne by done. apply Hdet.
      - rewrite El2 by congruence. rewrite <- D3. by destruct cb. }
    destruct (run_put_unused f m2 c (removed x h) (vs1 ++ vs2) l v Hm2 Hdet2) as (m' & E & Hm' & [Ho' Hoth'] & Eg). exists m2, m'. split; [|split; [done|]].
    + rewrite (run_bind _ _ _ false m2); [done|]. rewrite (run_bind _ _ _ _ _ (run_no_update ops_at m c x (i1 ++ y :: i2) y l o Hc ltac:(clear; set_solver) Hdet Hup)).
      change (- NlCache.NLE_OPNOTSUPP =? 0) with false. cbv iota. rewrite (run_bind _ _ _ _ _ E1). rewrite (run_bind _ _ _ tt m2); [done|].
      rewrite (run_bind _ _ _ _ _ (run_notify cb y NL_ACT_DEL m1)). done.
    + exists (removed x h). split_and!; [done|by rewrite Ew| |].
      * split.
        -- intros z oz Hz Ez Hcz. apply Ho'; [done| |done]. rewrite Eo2, lookup_delete_ne; [done|]. intros <-. congruence.
        -- intros c' x0 items' Hne Hc'. apply Hoth'; [done|]. destruct (Hoth1 c' x0 items' Hne Hc') as [H1 H2]. apply Hok2; [done|]. by apply cache_ok_noted.
      * rewrite Eg, Eg2, noted_changes, Eg1, map_app. by destruct cb.
  - destruct Hfind as [-> Ew]. destruct (run_put_unused f m c x vs l v Hm Hdet) as (m' & E & Hm' & Hout & Eg). exists m, m'. split_and!; [done|done|].
    exists x. split_and!; [done|by rewrite Ew|done|]. rewrite Eg. destruct cb; by rewrite app_nil_r.
Qed.

Lemma run_include_event f m c x vs l v act cb : mirrors ops_at m c x vs -> detached m l (as_object (co_obj_ops (c_ops x)) v) ->
  oo_update (ops_at (co_obj_ops (c_ops x))) = None -> identifies ops_at x v -> zlen vs < INT_MAX -> exists m1 m',
  cache_include ops_at (S (S (S f))) c l act cb m = Some (0, m1) /\ nl_object_put ops_at (S (S (S f))) l m1 = Some (tt, m') /\ included m m' c x l v act cb vs.
Proof.
  destruct (Z.eq_dec act NL_ACT_NEW) as [->|Hnew]; [by apply run_include_new|]. destruct (Z.eq_dec act NL_ACT_DEL) as [->|Hdel]; [by apply run_include_del|].
  intros Hm Hdet _ _ _. unfold cache_include, included, event_values, event_told. rewrite (proj2 (Z.eqb_neq _ _) Hnew), (proj2 (Z.eqb_neq _ _) Hdel). cbn [orb negb].
  destruct (run_put_unused f m c x vs l v Hm Hdet) as (m' & E & Hm' & Hout & Eg). exists m, m'. split_and!; [done|done|]. exists x.
  split_and!; [apply same_cache_refl|done..|]. rewrite Eg. destruct cb; [|by rewrite app_nil_r]. destruct (List.find _ vs); by rewrite app_nil_r.
Qed.

(** *** A message *)

(** What the cache type does with messages of a type. *)
Definition action_of (ops : nl_cache_ops) (type : Z) : option Z := snd <$> List.find (fun mt => fst mt =? type) (co_msgtypes ops).

Lemma run_cache_include f m c x l v act cb : caches m !! c = Some x -> objs m !! l = Some (as_object (co_obj_ops (c_ops x)) v) -> action_of (c_ops x) (fst v) = Some act ->
  nl_cache_include ops_at f c l cb m = cache_include ops_at f c l act cb m.
Proof.
  intros Ec El Ha. unfold nl_cache_include. rewrite (run_bind _ _ _ _ _ (run_get_cache _ _ _ Ec)), (run_bind _ _ _ _ _ (run_get_obj _ _ _ El)).
  cbn [as_object ce_ops ce_msgtype]. rewrite Z.eqb_refl. cbn [negb]. unfold action_of in Ha. destruct (List.find _ _) as [[id a]|]; [|done]. by injection Ha as ->.
Qed.

(** What a message does to the memory. *)
Definition followed m m' c x v act (cb : bool) (vs : list (value (D := D))) : Prop := let ops := co_obj_ops (c_ops x) in
  exists x', same_cache x x' /\ mirrors ops_at m' c x' (event_values ops act vs v) /\ outside ops_at m m' c /\
  map snd (changes m') = map snd (changes m) ++ (if cb then event_told ops act vs v else []).

(** The callback includes the object. *)
Definition includes (pp_cb : positive -> @M D Z) (f : nat) c (ops : nl_cache_ops) (cb : bool) : Prop :=
  forall m x l, caches m !! c = Some x -> c_ops x = ops -> pp_cb l m = nl_cache_include ops_at f c l cb m.

Lemma run_event_parser f m c x vs decode nlh v act cb pp_cb : mirrors ops_at m c x vs -> fillable ops_at x -> identifies ops_at x v -> zlen vs < INT_MAX ->
  decode nlh = Some (inr v) -> action_of (c_ops x) (fst v) = Some act -> includes pp_cb (S (S (S f))) c (c_ops x) cb -> exists m',
  msg_parser ops_at (S (S (S f))) (co_obj_ops (c_ops x)) decode pp_cb nlh m = Some (0, m') /\ followed m m' c x v act cb vs.
Proof.
  intros [items [Hc Hown]] [Hsz Hup] Hself Hlen Ed Ha Hpp. set (ops := co_obj_ops (c_ops x)) in *.
  destruct (run_new_object ops_at memory ops v m Hsz) as (l & m1 & m2 & E1 & E2 & Hfresh & Hdet & Eo2 & Eg2 & Hframe). pose proof (Hframe c x items Hc) as Hc2.
  assert (mirrors ops_at m2 c x vs) as Hm2.
  { exists items. split; [done|]. apply (owned_frames m); [|done]. intros y Hy. rewrite Eo2. apply lookup_insert_ne. intros <-.
    destruct (items_live _ _ _ _ _ Hc l Hy). congruence. }
  destruct (run_include_event f m2 c x vs l v act cb Hm2 Hdet Hup Hself Hlen) as (m3 & m' & E3 & E4 & x' & Hx' & Hm' & [Ho' Hoth'] & Eg'). exists m'. split.
  - unfold msg_parser. rewrite (run_bind _ _ _ _ _ E1), Ed. assert (of_opt (Some (inr v : Z + value)) m1 = Some (inr v, m1)) as Eo by done.
    rewrite (run_bind _ _ _ _ _ Eo), bind_assoc, (run_bind _ _ _ _ _ E2). rewrite (run_bind _ _ _ 0 m3).
    + by rewrite (run_bind _ _ _ _ _ E4).
    + rewrite (Hpp m2 x l (ck_cache _ _ _ _ _ Hc2) eq_refl). rewrite <- E3. apply (run_cache_include _ m2 c x l v act); [apply (ck_cache _ _ _ _ _ Hc2)|apply Hdet|done].
  - exists x'. split_and!; [done|done| |by rewrite Eg', Eg2]. split.
    + intros y o Ey Hy. apply Ho'; [congruence| |done]. rewrite Eo2, lookup_insert_ne; [done|congruence].
    + intros c' x0 items' Hne Hc'. apply Hoth'; [done|]. by apply Hframe.
Qed.

Lemma run_event_parse f m c x vs hdrsize decode nlh v act cb pp_cb : mirrors ops_at m c x vs -> fillable ops_at x -> identifies ops_at x v -> zlen vs < INT_MAX ->
  says hdrsize decode (c_ops x) nlh v -> action_of (c_ops x) (fst v) = Some act -> includes pp_cb (S (S (S f))) c (c_ops x) cb -> exists m',
  nl_cache_parse ops_at (S (S (S f))) hdrsize decode (c_ops x) nlh pp_cb m = Some (0, m') /\ followed m m' c x v act cb vs.
Proof.
  intros Hm Hf Hid Hlen [Hv (type & Ht & Hin) Hd] Ha Hpp. destruct (run_event_parser f m c x vs decode nlh v act cb pp_cb Hm Hf Hid Hlen Hd Ha Hpp) as (m' & E & H).
  exists m'. split; [|done]. unfold nl_cache_parse. assert (forall B (b : B), of_opt (Some b) m = Some (b, m)) as Eo by done.
  rewrite Hv, (run_bind _ _ _ _ _ (Eo _ true)), Ht. cbn [negb]. rewrite (run_bind _ _ _ _ _ (Eo _ type)). by apply run_parse_types.
Qed.

End Include.

(** ** Datagrams of notifications *)

Section Notifications.
Context {A S : Type} {al : Allocator} {kernel : Kernel} {outputs : RecvOutputs}.
Variable getpagesize : Z.
Hypothesis memory : malloc_total al.

Abbreviation cbset := (nl_cb nl_msg nlmsgerr A S (@RM S) RV SD).

(** A function of the user for the data, and one that accepts all sequence
    numbers. *)
Record listener (cb : cbset) (g : @msg_cb nl_msg A S) (arg : option A) : Prop := {
  li_reads : nl_cb_call cb NL_CB_VALID = fun m s => Some (g m arg s);
  li_set : is_set cb NL_CB_VALID = true;
  li_msg_in : is_set cb NL_CB_MSG_IN = false;
  li_seq_set : is_set cb NL_CB_SEQ_CHECK = true;
  li_seq : nl_cb_call cb NL_CB_SEQ_CHECK = fun m s => Some (NL_OK, s);
  li_recv : cb_recv_ow cb = None;
  li_recvmsgs : cb_recvmsgs_ow cb = None
}.

(** A message that is not part of an answer. *)
Record notification (x : message) : Prop := {
  nf_ok : msg_ok x;
  nf_data : is_data x;
  nf_multi : Z.land (m_flags x) NLM_F_MULTI = 0;
  nf_ack : Z.land (m_flags x) NLM_F_ACK = 0;
  nf_intr : Z.land (m_flags x) NLM_F_DUMP_INTR = 0
}.

Section Listening.
Context (cb : cbset) (g : @msg_cb nl_msg A S) (arg : option A) (Hcb : listener cb g arg) (nla : sockaddr_nl).

Definition event_state (st : loop) (x : message) : loop :=
  Loop (l_sk st) (read_one g arg nla (s_proto (l_sk st)) (l_user st) x) (multipart st) (interrupted st) (s32 (nrecv st + 1)).

Lemma on_message_event x body st : notification x -> goes_on (g (message_of (s_proto (l_sk st)) nla x) arg (l_user st)) ->
  on_message cb (message_of (s_proto (l_sk st)) nla x) (16 + zlen (m_body x)) (m_type x) (m_flags x) (m_seq x) body nla st = Some (Next, event_state st x).
Proof.
  intros [_ Hd Hm Ha Hi] Hgo. unfold is_data in Hd. unfold on_message, on_sequence. rewrite (li_msg_in _ _ _ Hcb), (li_seq_set _ _ _ Hcb). unfold NL_CB_CALL at 1.
  rewrite (li_seq _ _ _ Hcb). cbn [mbind option_bind]. change (NL_OK =? NL_OK) with true. cbv iota. unfold on_flags, on_interrupt, on_ack_wanted, on_type. rewrite Hm, Ha, Hi.
  rewrite !(proj2 (Z.eqb_neq (m_type x) _)) by (unfold NLMSG_DONE, NLMSG_ERROR, NLMSG_NOOP, NLMSG_OVERRUN; lia). cbn [orb andb negb Z.eqb]. rewrite (li_set _ _ _ Hcb). unfold NL_CB_CALL.
  rewrite (li_reads _ _ _ Hcb). cbn [mbind option_bind]. unfold event_state, read_one. cbn [l_user set_user count_message]. destruct st as [sk s mp it nr]. cbn [l_sk l_user] in *.
  destruct Hgo as [E|E]; destruct (g _ arg s) as [err s']; cbn [fst] in E; rewrite E; done.
Qed.

Lemma fold_event ms st : 0 <= nrecv st -> nrecv st + Z.of_nat (length ms) <= INT_MAX -> fold_left event_state ms st =
  Loop (l_sk st) (fold_left (read_one g arg nla (s_proto (l_sk st))) ms (l_user st)) (multipart st) (interrupted st) (nrecv st + Z.of_nat (length ms)).
Proof.
  revert st. induction ms as [|x ms IH]; intros st H0 H; cbn [length fold_left] in *; [destruct st as [sk s mp it nr]; cbn [l_sk l_user multipart interrupted nrecv length]; by rewrite Z.add_0_r|].
  assert (s32 (nrecv st + 1) = nrecv st + 1) as E by (apply s32_id; unfold INT_MIN, INT_MAX in *; lia).
  rewrite IH; cbn [event_state nrecv l_sk l_user multipart interrupted]; rewrite ?E; [|lia..]. f_equal. lia.
Qed.

Lemma walk_events ms k r P Q st has lg b br n : Forall notification ms -> calm g arg nla (s_proto (l_sk st)) ms (l_user st) ->
  zlen (P ++ enc_msgs ms ++ Q) < 2 ^ 31 -> rv_creds r = None -> rv_src r = nla -> 0 <= n <= zlen Q ->
  walk (length ms + k) cb r (P ++ enc_msgs ms ++ Q) (zlen P) (zlen (enc_msgs ms) + n) st has (World lg (b + held has) br) =
  let has' := match ms with [] => has | _ => true end in
  walk k cb r (P ++ enc_msgs ms ++ Q) (zlen (P ++ enc_msgs ms)) n (fold_left event_state ms st) has' (World lg (b + held has') br).
Proof.
  revert P st has. induction ms as [|x ms IH]; intros P st has Hd Hcalm Hbuf Hc Hs Hn.
  { cbn [enc_msgs map concat length Nat.add fold_left]. by rewrite app_nil_r. }
  apply list.Forall_cons in Hd as [Hx Hd]. destruct Hcalm as [Hgo Hcalm].
  change (enc_msgs (x :: ms)) with (enc_msg x ++ enc_msgs ms) in *. rewrite <- app_assoc in *.
  rewrite zlen_app, <- Z.add_assoc. cbn [length Nat.add]. pose proof (zlen_nonneg (enc_msgs ms)).
  rewrite walk_step; [|done|apply Hx|done|done|rewrite zlen_app; lia]. rewrite Hs, on_message_event by done.
  rewrite (app_assoc P (enc_msg x) (enc_msgs ms ++ Q)) in *. rewrite IH by done. cbn [fold_left].
  destruct ms; by rewrite <- !app_assoc.
Qed.

Hypothesis from_kernel : forall h, recv_name h = nla.

(** A datagram: its messages are counted. *)
Lemma recvmsgs_events fuel sk s ms w (Q : _ -> world -> Prop) : simple_sock getpagesize sk -> fits getpagesize sk (enc_msgs ms) ->
  answer (log w) (recv_call getpagesize sk) = datagram (enc_msgs ms) -> Forall notification ms -> calm g arg nla (s_proto sk) ms s -> Z.of_nat (length ms) <= INT_MAX ->
  Q (sk, fold_left (read_one g arg nla (s_proto sk)) ms s, Z.of_nat (length ms)) (received getpagesize sk (enc_msgs ms) w) ->
  runs (nl_recvmsgs_report getpagesize (Datatypes.S fuel) sk cb s) w Q.
Proof.
  intros Hs Hd Ea Hin Hcalm Hlen HQ. unfold nl_recvmsgs_report, recvmsgs. rewrite (li_recvmsgs _ _ _ Hcb). set (st := Loop sk s false false 0).
  assert (Forall msg_ok ms) as Hok by (eapply Forall_impl; [exact Hin|]; by intros x []). pose proof (NlParse.msg_count ms Hok) as Hcount.
  eapply (reading_datagram getpagesize memory cb nla from_kernel); [apply Hcb|done..|]. intros rest Hrest. pose proof (zlen_nonneg rest).
  assert (ms <> []) as Hne by (intros ->; destruct Hd as [Hz _]; change (zlen (enc_msgs [])) with 0 in Hz; lia).
  exists Next, (fold_left event_state ms st), true. split.
  - replace (Datatypes.S (Z.to_nat (zlen (enc_msgs ms)))) with (length ms + Datatypes.S (Z.to_nat (zlen (enc_msgs ms)) - length ms))%nat by lia.
    pose proof (walk_events ms (Datatypes.S (Z.to_nat (zlen (enc_msgs ms)) - length ms)) (Recvd (zlen (enc_msgs ms)) (Some (enc_msgs ms ++ rest)) nla None)
      [] rest st false (log (received getpagesize sk (enc_msgs ms) w)) (live w + 1) (br_socket_fd w) 0 Hin Hcalm Hrest eq_refl eq_refl ltac:(lia)) as E.
    rewrite Z.add_0_r in E. etransitivity; [exact E|]. destruct ms as [|x ms]; [done|]. reflexivity.
  - unfold proceed. rewrite fold_event by (cbn [st nrecv]; lia). cbn [st multipart l_sk l_user interrupted nrecv]. apply runs_ret. unfold result. cbn [interrupted l_sk l_user nrecv Z.eqb].
    by rewrite Z.add_0_l.
Qed.

(** The kernel has nothing more. *)
Definition again (r : reply) : Prop := rc r = -1 /\ errno r = 11.

Lemma recvmsgs_again fuel sk s w (Q : _ -> world -> Prop) : simple_sock getpagesize sk -> again (answer (log w) (recv_call getpagesize sk)) ->
  (forall w', log w' = log w ++ [(recv_call getpagesize sk, answer (log w) (recv_call getpagesize sk))] -> live w' = live w -> Q (sk, s, - NLE_AGAIN) w') ->
  runs (nl_recvmsgs_report getpagesize (Datatypes.S fuel) sk cb s) w Q.
Proof.
  intros (Hp & Hc & Hb) [Hrc Herr] HQ. unfold nl_recvmsgs_report, recvmsgs. rewrite (li_recvmsgs _ _ _ Hcb). cbn [reading]. rewrite (li_recv _ _ _ Hcb). cbn [l_sk l_user].
  unfold nl_recv. rewrite Hp, Hc, memory by done. cbn [negb andb]. apply runs_bind, runs_bind, runs_heap. cbn [recv_retry].
  apply runs_bind, runs_syscall, runs_bind. do 2 eexists. split; [reflexivity|]. cbn [iov_len controllen flags log live br_socket_fd]. fold (recv_call getpagesize sk).
  rewrite Hrc, Herr. change (-1 <? 0) with true. change (11 =? NetRequests.EINTR) with false. cbv iota. change (- nl_syserr2nlerr 11) with (- NLE_AGAIN).
  eapply runs_mono; [by apply recv_abort_error|]. intros r w' (-> & El & Ev & _). change (- NLE_AGAIN <=? 0) with true. cbv iota. apply runs_ret. apply HQ; [done|].
  rewrite Ev. cbn [live control block]. lia.
Qed.

End Listening.

End Notifications.

(** ** The manager follows the kernel *)

Section Follow.
Context {D : Type} {al : Allocator} {kernel : Kernel} {outputs : RecvOutputs} (ops_at : Z -> nl_object_ops D) {laws : ObjectLaws ops_at}.
Variable getpagesize : Z.
Variables (type_of : nl_cache_ops -> cache_type (D := D)) (events_of : nl_cache_ops -> event_ops (D := D)).
Hypothesis total : malloc_total al.

Abbreviation memory := (option (mem D)).

(** The caches of a table, with what they were when they were added. *)
Variables (table : list nl_cache_assoc) (origin : positive -> nl_cache).
Abbreviation ops_of := (fun c => co_obj_ops (c_ops (origin c))).

Definition listed (c : positive) : Prop := c ∈ omap ca_cache table.

(** Types without functions of their own for notifications. *)
Record managing (g : nl_cache_mngr) : Prop := {
  mg_assocs : assocs g = Some table;
  mg_types : forall c, listed c -> fillable ops_at (origin c) /\ events_of (c_ops (origin c)) = EventOps None None
}.

(** What the caches hold. *)
Definition contents : Type := positive -> list (value (D := D)).
Definition holds (m : mem D) (F : contents) : Prop := forall c, listed c -> exists x, same_cache (origin c) x /\ mirrors ops_at m c x (F c).

(** Everything outside the table is as before. *)
Definition outside_table (m m' : mem D) : Prop :=
  (forall y o, objs m !! y = Some o -> (forall c, ce_cache o = Some c -> ~ listed c) -> objs m' !! y = Some o) /\
  (forall c x items, ~ listed c -> cache_ok ops_at m c x items -> cache_ok ops_at m' c x items).

(** The cache a message belongs to. *)
Fixpoint target (l : list nl_cache_assoc) (type : Z) : option (positive * bool) :=
  match l with
  | [] => None
  | a :: l' =>
      match ca_cache a with
      | None => target l' type
      | Some c => if existsb (fun mt => fst mt =? type) (co_msgtypes (c_ops (origin c))) then Some (c, ca_change a) else target l' type
      end
  end.

(** A notification: the cache, whether the user wants to know, the action and
    the value. *)
Definition event : Type := positive * bool * Z * value (D := D).

Definition understood (msg : message) (e : option event) : Prop :=
  match target table (m_type msg), e with
  | None, None => True
  | Some (c, cb), Some (c', cb', act, v) => c' = c /\ cb' = cb /\ let ops := c_ops (origin c) in
      says (co_hdrsize (type_of ops)) (co_decode (type_of ops)) ops (enc_msg msg) v /\ action_of ops (fst v) = Some act /\ identifies ops_at (origin c) v
  | _, _ => False
  end.

Definition apply_event (F : contents) (e : option event) : contents :=
  match e with
  | Some (c, _, act, v) => fun c' => if decide (c' = c) then event_values ops_at (ops_of c) act (F c) v else F c'
  | None => F
  end.
Definition tell_event (F : contents) (e : option event) : list Z :=
  match e with Some (c, true, act, v) => event_told ops_at (ops_of c) act (F c) v | _ => [] end.
Fixpoint replay (F : contents) (es : list (option event)) : contents * list Z :=
  match es with [] => (F, []) | e :: es' => let '(F', ns) := replay (apply_event F e) es' in (F', tell_event F e ++ ns) end.

Lemma target_listed l type c cb : target l type = Some (c, cb) -> c ∈ omap ca_cache l.
Proof.
  induction l as [|a l IH]; cbn [target omap list_omap]; [done|]. destruct (ca_cache a) as [c0|]; [|done]. destruct (existsb _ _).
  - intros [= <- _]. by left.
  - intros H. right. by apply IH.
Qed.

Lemma run_find_assoc m F type l : (forall c, c ∈ omap ca_cache l -> listed c) -> holds m F ->
  find_assoc l type m = Some ((fun e => (fst e, snd e, c_ops (origin (fst e)))) <$> target l type, m).
Proof.
  intros Hl Hh. induction l as [|a l IH]; [done|]. cbn [find_assoc target]. cbn [omap list_omap] in Hl. destruct (ca_cache a) as [c|]; [|by apply IH].
  destruct (Hh c) as (x & Hx & items & Hc & _); [apply Hl; by left|]. rewrite (run_bind _ _ _ _ _ (run_get_cache _ _ _ (ck_cache _ _ _ _ _ Hc))), (same_cache_ops _ _ Hx).
  destruct (existsb _ _); [done|]. apply IH. intros c' Hc'. apply Hl. by right.
Qed.

Lemma include_cb_includes f c cb : events_of (c_ops (origin c)) = EventOps None None ->
  includes ops_at (include_cb ops_at events_of f c cb) f c (c_ops (origin c)) cb.
Proof.
  intros He m x l Ec Eo. unfold include_cb. rewrite (run_bind _ _ _ _ _ (run_get_cache _ _ _ Ec)), Eo, He. cbn [co_event_filter co_include_event].
  assert ((mret true : @M D bool) m = Some (true, m)) as Er by done. by rewrite (run_bind _ _ _ _ _ Er).
Qed.

(** Other caches keep their values. *)
Lemma mirrors_outside m m' c c' x vs : c <> c' -> outside ops_at m m' c -> mirrors ops_at m c' x vs -> mirrors ops_at m' c' x vs.
Proof.
  intros Hne [Ho Hok] (items & Hc & Hown). exists items. split; [by apply Hok|]. apply (owned_frames m); [|done].
  intros y Hy. destruct (ck_items _ _ _ _ _ Hc y Hy) as (o & E & Hcc & _). rewrite E. apply Ho; [done|]. congruence.
Qed.

Lemma event_values_length ops act (vs : list (value (D := D))) v : zlen (event_values ops_at ops act vs v) <= zlen vs + 1.
Proof.
  unfold event_values. destruct (act =? NL_ACT_NEW); [apply absorb_length|]. destruct (act =? NL_ACT_DEL); [|lia].
  pose proof (without_length (fun u => ident ops_at ops u v) vs). lia.
Qed.

Lemma apply_event_length F e c : zlen (apply_event F e c) <= zlen (F c) + 1.
Proof. destruct e as [[[[c0 cb] act] v]|]; cbn; [|lia]. destruct (decide (c = c0)) as [->|]; [apply event_values_length|lia]. Qed.

Lemma enc_type x : msg_ok x -> zlen (enc_msg x) < 2 ^ 31 -> NlParse.rd 4 2 (enc_msg x) = Some (m_type x).
Proof.
  intros Hx Hlen. destruct (NlParse.msg_fields x [] [] Hx) as (_ & E & _); [by rewrite app_nil_l, app_nil_r|]. by rewrite app_nil_l, app_nil_r in E.
Qed.

Lemma handle_event_step f g proto nla m F msg e : managing g -> cm_protocol g = proto -> holds m F -> msg_ok msg -> zlen (enc_msg msg) < 2 ^ 31 ->
  understood msg e -> (forall c, zlen (F c) < INT_MAX) -> exists ret m',
  handle_event ops_at type_of events_of (S (S (S f))) g (message_of proto nla msg) m = Some (ret, m') /\ (ret = NL_OK \/ ret = NL_SKIP) /\
  holds m' (apply_event F e) /\ outside_table m m' /\ map snd (changes m') = map snd (changes m) ++ tell_event F e.
Proof.
  intros [Ha Ht] Hp Hh Hok Hlen Hu HF. unfold handle_event. change (nlmsg_get_proto (message_of proto nla msg)) with proto. rewrite Hp, Z.eqb_refl. cbn [negb].
  change (NlAttr.nm_nlh (message_of proto nla msg)) with (enc_msg msg). assert (forall B (b : B), of_opt (Some b) m = Some (b, m)) as Eo by done.
  rewrite (enc_type msg Hok Hlen), Ha, (run_bind _ _ _ _ _ (Eo _ (m_type msg))), (run_bind _ _ _ _ _ (Eo _ table)).
  rewrite (run_bind _ _ _ _ _ (run_find_assoc m F (m_type msg) table (fun c Hc => Hc) Hh)). unfold understood in Hu.
  destruct (target table (m_type msg)) as [[c cb]|] eqn:Et; destruct e as [[[[c' cb'] act] v]|]; try done.
  - destruct Hu as (-> & -> & Hsays & Hact & Hid). cbn [fmap option_fmap option_map fst snd]. pose proof (target_listed _ _ _ _ Et) as Hc. destruct (Ht c Hc) as [Hfill Hev].
    destruct (Hh c Hc) as (x & Hx & Hm). pose proof (same_cache_ops _ _ Hx) as Hops.
    destruct (run_event_parse ops_at total f m c x (F c) (co_hdrsize (type_of (c_ops (origin c)))) (co_decode (type_of (c_ops (origin c)))) (enc_msg msg) v act cb
      (include_cb ops_at events_of (S (S (S f))) c cb) Hm) as (m' & E & x' & Hx' & Hm' & Hout & Eg).
    { destruct Hfill as [H1 H2]. by split; rewrite Hops. }
    { intros Hne. rewrite Hops. apply Hid. by apply (same_cache_hashed (origin c) x). }
    { apply HF. }
    { by rewrite Hops. }
    { by rewrite Hops. }
    { rewrite Hops. by apply include_cb_includes. }
    rewrite Hops in E, Hm', Eg. exists NL_OK, m'. split; [exact E|]. split; [by left|]. split_and!.
    + intros c' Hc'. cbn [apply_event]. destruct (decide (c' = c)) as [->|Hne].
      * exists x'. split; [by apply (same_cache_trans _ x)|done].
      * destruct (Hh c' Hc') as (y & Hy & Hmy). exists y. split; [done|]. by apply (mirrors_outside m m' c c').
    + destruct Hout as [Ho Hoc]. split.
      * intros y o Ey Hy. apply Ho; [done|]. intros E'. by apply (Hy c).
      * intros c' y items Hc' Hok'. apply Hoc; [|done]. by intros ->.
    + rewrite Eg. cbn [tell_event]. by destruct cb.
  - exists NL_SKIP, m. cbn [fmap option_fmap option_map apply_event tell_event]. rewrite app_nil_r. split; [done|]. split; [by right|]. split_and!; try done.
Qed.

(** A run of notifications. *)
Lemma events_follow f g proto nla arg ms es : managing g -> cm_protocol g = proto -> Forall notification ms -> Forall (fun x => zlen (enc_msg x) < 2 ^ 31) ms ->
  Forall2 understood ms es -> forall m F, holds m F -> (forall c, zlen (F c) + zlen ms <= INT_MAX) ->
  let h := event_input ops_at type_of events_of (S (S (S f))) g in calm h arg nla proto ms (Some m) /\ exists m',
  fold_left (read_one h arg nla proto) ms (Some m) = Some m' /\ holds m' (replay F es).1 /\ outside_table m m' /\
  map snd (changes m') = map snd (changes m) ++ (replay F es).2.
Proof.
  intros Hg Hp Hn Hz Hu. induction Hu as [|x e ms es Hx Hu IH]; intros m F Hh HF h.
  { split; [done|]. exists m. cbn. rewrite app_nil_r. split_and!; try done. }
  apply list.Forall_cons in Hn as [Hnx Hn]. apply list.Forall_cons in Hz as [Hzx Hz]. pose proof (zlen_nonneg ms).
  destruct (handle_event_step f g proto nla m F x e Hg Hp Hh (nf_ok _ Hnx) Hzx Hx) as (ret & m1 & E1 & Hret & Hh1 & Ho1 & Eg1).
  { intros c. specialize (HF c). rewrite zlen_cons in HF. lia. }
  destruct (IH Hn Hz m1 (apply_event F e) Hh1) as (Hcalm & m' & Ef & Hh' & Ho' & Eg').
  { intros c. specialize (HF c). rewrite zlen_cons in HF. pose proof (apply_event_length F e c). lia. }
  assert (h (message_of proto nla x) arg (Some m) = (ret, Some m1)) as Eh by (unfold h, event_input; cbn [mbind option_bind]; by rewrite E1).
  assert (read_one h arg nla proto (Some m) x = Some m1) as Er by (unfold read_one; by rewrite Eh).
  cbn [calm fold_left replay]. rewrite Er, Eh. destruct (replay (apply_event F e) es) as [F' ns]. cbn [fst snd] in *. split; [by split|]. exists m'. split_and!; [done|done| |].
  - destruct Ho1 as [A1 B1], Ho' as [A2 B2]. split; auto.
  - by rewrite Eg', Eg1, app_assoc.
Qed.

Lemma replay_length es : forall F c, zlen ((replay F es).1 c) <= zlen (F c) + Z.of_nat (length es).
Proof.
  induction es as [|e es IH]; intros F c; cbn [replay length]; [cbn [fst]; lia|]. pose proof (IH (apply_event F e) c) as H. destruct (replay (apply_event F e) es) as [F' ns]. cbn [fst] in *.
  pose proof (apply_event_length F e c). lia.
Qed.

Lemma replay_app es1 es2 : forall F, replay F (es1 ++ es2) = ((replay (replay F es1).1 es2).1, (replay F es1).2 ++ (replay (replay F es1).1 es2).2).
Proof.
  induction es1 as [|e es1 IH]; intros F; cbn [app replay]; [cbn [fst snd]; by destruct (replay F es2)|]. rewrite IH. destruct (replay (apply_event F e) es1) as [F1 ns1]. cbn [fst snd].
  by rewrite app_assoc.
Qed.

Abbreviation cbset := (nl_cb nl_msg nlmsgerr update_xdata memory (@RM memory) RV SD).

(** A callback set after [nl_socket_disable_seq_check]. *)
Record unsequenced (cb : cbset) : Prop := {
  uq_set : length (cb_set cb) = 11%nat;
  uq_args : length (cb_args cb) = 11%nat;
  uq_msg_in : is_set cb NL_CB_MSG_IN = false;
  uq_seq : cb_set cb !! Z.to_nat NL_CB_SEQ_CHECK = Some (Some noop_seq_check);
  uq_recv : cb_recv_ow cb = None;
  uq_recvmsgs : cb_recvmsgs_ow cb = None
}.

Lemma disabled_unsequenced (cb : cbset) : quiet cb -> unsequenced (fst (nl_cb_set cb NL_CB_SEQ_CHECK NL_CB_CUSTOM (Some noop_seq_check) None)).
Proof.
  intros [Hs Ha Ho Hi Hq He Hrm Hr _]. constructor; try done.
  - cbn. by rewrite length_insert.
  - cbn. by rewrite length_insert.
  - unfold is_set in *. cbn. by rewrite list_lookup_insert_ne.
  - cbn [nl_cb_set NL_CB_SEQ_CHECK fst]. change (fst _) with (set_callback cb NL_CB_SEQ_CHECK (Some noop_seq_check) None). cbn [set_callback cb_set].
    apply list_lookup_insert_eq. rewrite Hs. unfold NL_CB_SEQ_CHECK. lia.
Qed.

Definition event_cb (cb : cbset) h : cbset := fst (nl_cb_set (set_cb_refcnt 1 cb) NL_CB_VALID NL_CB_CUSTOM (Some h) None).

Lemma event_cb_listener cb h : unsequenced cb -> listener (event_cb cb h) h None.
Proof.
  destruct cb as [set args err earg ow1 ow2 ow3 ref act]. intros [Hs Ha Hi Hq Hr Hrm]. unfold is_set in *. cbn [cb_set cb_args cb_recv_ow cb_recvmsgs_ow] in *.
  assert (exists a, args !! 8%nat = Some a) as [a Ea] by (apply lookup_lt_is_Some; lia).
  assert (forall (o1 : option (@msg_cb nl_msg update_xdata memory)) o2 k r, o1 = Some k -> o2 = Some r ->
    (fun m s => f ← o1; arg ← o2; Some (f m arg s)) = (fun (m : nl_msg) s => Some (k m r s))) as H by (by intros ? ? ? ? -> ->).
  split; [| | | | |done|done].
  - apply (H (mjoin (<[Z.to_nat NL_CB_VALID := Some h]> set !! Z.to_nat NL_CB_VALID)) (<[Z.to_nat NL_CB_VALID := None]> args !! Z.to_nat NL_CB_VALID));
      by rewrite list_lookup_insert_eq by (unfold NL_CB_VALID; lia).
  - unfold is_set, event_cb. cbn. by rewrite list_lookup_insert_eq by (unfold NL_CB_VALID; lia).
  - unfold is_set, event_cb. cbn. by rewrite list_lookup_insert_ne.
  - unfold is_set, event_cb. cbn. rewrite list_lookup_insert_ne by done. change (set !! 8%nat) with (set !! Z.to_nat NL_CB_SEQ_CHECK). by rewrite Hq.
  - apply (H (mjoin (<[Z.to_nat NL_CB_VALID := Some h]> set !! Z.to_nat NL_CB_SEQ_CHECK)) (<[Z.to_nat NL_CB_VALID := None]> args !! Z.to_nat NL_CB_SEQ_CHECK) noop_seq_check a).
    + rewrite list_lookup_insert_ne by done. by rewrite Hq.
    + by rewrite list_lookup_insert_ne.
Qed.

(** The kernel has the notifications [mss], a list in each datagram, and then
    nothing more. *)
Record notifies (sk : nl_sock) (h : history) (mss : list (list message)) : Prop := {
  no_fits : Forall (fits getpagesize sk) (map enc_msgs mss);
  no_delivers : delivers (recv_call getpagesize sk) h (map enc_msgs mss);
  no_end : again (answer (h ++ map (fun d => (recv_call getpagesize sk, datagram d)) (map enc_msgs mss)) (recv_call getpagesize sk));
  no_msgs : Forall notification (concat mss)
}.

Lemma enc_msg_le x ms : x ∈ ms -> zlen (enc_msg x) <= zlen (enc_msgs ms).
Proof.
  induction ms as [|y ms IH]; [by intros ?%not_elem_of_nil|]. change (enc_msgs (y :: ms)) with (enc_msg y ++ enc_msgs ms). rewrite zlen_app.
  pose proof (zlen_nonneg (enc_msg y)). pose proof (zlen_nonneg (enc_msgs ms)). intros [->|Hx]%elem_of_cons; [lia|]. specialize (IH Hx). lia.
Qed.

Lemma read_events_run f g cb nla sk : listener cb (event_input ops_at type_of events_of (S (S (S f))) g) None -> (forall h, recv_name h = nla) -> simple_sock getpagesize sk ->
  managing g -> cm_protocol g = s_proto sk -> forall mss n es m F nread l w, notifies sk (log w) mss -> Forall2 understood (concat mss) es -> holds m F -> (length mss < n)%nat ->
  (forall c, zlen (F c) + zlen (concat mss) <= INT_MAX) -> 0 <= nread -> nread + zlen (concat mss) <= INT_MAX ->
  ends (read_events getpagesize (S (S (S f))) n sk cb nread (Some m)) (l, w) (fun res st => exists m',
    res = (sk, Some m', - NLE_AGAIN, nread + zlen (concat mss)) /\ fst st = l /\ live (snd st) = live w /\
    holds m' (replay F es).1 /\ outside_table m m' /\ map snd (changes m') = map snd (changes m) ++ (replay F es).2).
Proof.
  intros Hcb Hnla Hs Hg Hp. induction mss as [|ms mss IH]; intros n es m F nread l w [Hfit Hdel Hend Hno] Hu Hh Hn HF H0 Hr; (destruct n as [|n]; [cbn in Hn; lia|]); cbn [read_events].
  - cbn [concat map] in *. rewrite app_nil_r in Hend. inversion Hu; subst es. apply ends_bind, ends_lift. eapply recvmsgs_again; [exact total|exact Hcb|exact Hs|exact Hend|].
    intros w' El Ev. change (- NLE_AGAIN >? 0) with false. cbv iota. apply ends_ret. exists m. cbn. rewrite app_nil_r, Z.add_0_r. split_and!; try done.
  - cbn [concat map] in *. apply list.Forall_cons in Hfit as [Hfit Hfits]. destruct Hdel as [Ea Hdel]. apply Forall_app in Hno as [Hno1 Hno2].
    apply Forall2_app_inv_l in Hu as (es1 & es2 & Hu1 & Hu2 & ->). rewrite zlen_app in *. pose proof (zlen_nonneg (concat mss)). pose proof (zlen_nonneg ms).
    destruct (events_follow f g (s_proto sk) nla None ms es1 Hg Hp Hno1) with (m := m) (F := F) as (Hcalm & m1 & Ef & Hh1 & Ho1 & Eg1); [|done|done| |].
    { apply Forall_forall. intros x Hx. pose proof (enc_msg_le x ms Hx). destruct Hfit as [_ Hb], Hs as (_ & _ & Hs). lia. }
    { intros c. specialize (HF c). lia. }
    assert (ms <> []) as Hne by (intros ->; destruct Hfit as [Hz _]; change (zlen (enc_msgs [])) with 0 in Hz; lia).
    apply ends_bind, ends_lift. eapply recvmsgs_events; [exact total|exact Hcb|exact Hnla|exact Hs|exact Hfit|exact Ea|exact Hno1|exact Hcalm|unfold zlen in *; lia|].
    rewrite Ef. fold (zlen ms). assert (0 < zlen ms) as Hpos by (destruct ms; [done|]; rewrite zlen_cons; pose proof (zlen_nonneg ms); lia).
    rewrite Z.gtb_ltb, (proj2 (Z.ltb_lt _ _) Hpos), s32_id by (unfold INT_MIN, INT_MAX in *; lia). eapply ends_mono.
    { apply (IH n es2 m1 (replay F es1).1 (nread + zlen ms) l (received getpagesize sk (enc_msgs ms) w)); try done; [|cbn in Hn; lia| |lia|lia].
      - split; try done. unfold received. cbn [log]. rewrite <- app_assoc. exact Hend.
      - intros c. specialize (HF c). pose proof (replay_length es1 F c). apply Forall2_length in Hu1. unfold zlen in *. lia. }
    intros res st (m' & -> & E1 & E2 & Hh' & Ho' & Eg'). rewrite (replay_app es1 es2). exists m'. split_and!; try done; [f_equal; lia| |].
    + destruct Ho1 as [A1 B1], Ho' as [A2 B2]. split; auto.
    + rewrite Eg', Eg1. cbn [snd]. by rewrite app_assoc.
Qed.

(** C5: the manager follows the kernel: for a kernel that has any
    notifications, in any number of datagrams, [nl_cache_mngr_data_ready]
    reads them all, returns their number, and every cache of the table holds
    what replaying the notifications on its list of values gives: a new or
    changed object replaces the one identical to it, a deleted one is gone;
    messages of other types change nothing.  The function of the user is called
    with exactly the actions of the changes, in order; nothing outside the
    table changes and nothing stays allocated. *)
Theorem nl_cache_mngr_follows fuel g sk cb m F mss es l w : managing g -> cm_sock g = Some sk -> cm_protocol g = s_proto sk ->
  cbs l !! s_cb sk = Some cb -> unsequenced cb -> (exists nla, forall h, recv_name h = nla) -> simple_sock getpagesize sk ->
  notifies sk (log w) mss -> Forall2 understood (concat mss) es -> holds m F -> (forall c, zlen (F c) + zlen (concat mss) <= INT_MAX) ->
  (length mss < fuel)%nat -> (3 <= fuel)%nat ->
  ends (nl_cache_mngr_data_ready ops_at getpagesize type_of events_of fuel g (Some m)) (l, w) (fun res st => exists m',
    res = (g, Some m', zlen (concat mss)) /\ fst st = l /\ live (snd st) = live w /\
    holds m' (replay F es).1 /\ map snd (changes m') = map snd (changes m) ++ (replay F es).2 /\ outside_table m m').
Proof.
  intros Hg Esk Hp Ecb Huq [nla Hnla] Hs Hno Hu Hh HF Hf Hf3. unfold nl_cache_mngr_data_ready. rewrite Esk. apply ends_bind, ends_ret, ends_bind.
  eapply ends_cb_clone; [exact total|exact Ecb|]. intros k Hk. apply ends_bind. eapply ends_get_cb; [cbn; by rewrite lookup_insert_eq|].
  apply ends_bind, ends_put_cb. destruct fuel as [|[|[|f]]]; [lia..|]. set (h := event_input _ _ _ _ _). fold (event_cb cb h).
  unfold with_cbs. cbn [cbs]. rewrite insert_insert_eq. apply ends_bind. eapply ends_get_cb; [cbn; by rewrite lookup_insert_eq|]. apply ends_bind.
  change (set_callback (set_cb_refcnt 1 cb) NL_CB_VALID (Some h) None) with (event_cb cb h). change (nl_cb_set (set_cb_refcnt 1 cb) NL_CB_VALID NL_CB_CUSTOM (Some h) None).1 with (event_cb cb h).
  pose proof (zlen_nonneg (concat mss)). eapply ends_mono.
  { apply (read_events_run f g (event_cb cb h) nla sk (event_cb_listener cb h Huq) Hnla Hs Hg Hp mss _ es m F 0 _ w Hno Hu Hh Hf HF); [lia|]. specialize (HF 1%positive).
    pose proof (zlen_nonneg (F 1%positive)). lia. }
  intros [[[sk' s'] err] nread] [l' w'] (m' & [= -> -> -> ->] & El & Ev & Hh' & Ho' & Eg'). cbn [fst snd] in El, Ev. subst l'. apply ends_bind, ends_ret, ends_bind.
  eapply ends_cb_put; [cbn; by rewrite lookup_insert_eq|done|]. change (cb_refcnt (event_cb cb h) =? 1) with true. cbv iota. apply ends_ret.
  exists m'. split_and!; try done.
  - change (- NLE_AGAIN <? 0) with true. change (- NLE_AGAIN =? - NLE_AGAIN) with true. cbn [negb andb]. rewrite Z.add_0_l. do 2 f_equal. destruct g. cbn in *. by subst.
  - unfold with_cbs. simpl. rewrite delete_insert_id by done. by destruct l.
Qed.

End Follow.


(** ** Adding a cache *)

Section Adding.
Context {D : Type} {al : Allocator} {kernel : Kernel} {outputs : RecvOutputs} (ops_at : Z -> nl_object_ops D) {laws : ObjectLaws ops_at}.
Variables getpagesize getpid size : Z.
Variables (type_of : nl_cache_ops -> cache_type (D := D)) (events_of : nl_cache_ops -> event_ops (D := D)) (mngt_provide : positive -> @NlCache.M D unit).
Hypothesis total : malloc_total al.
Hypothesis size_ok : 1024 <= size <= 2147483640.
Variables (table : list nl_cache_assoc) (origin : positive -> nl_cache).
Abbreviation memory := (option (mem D)).

(** The table with one more cache: at the first free place, or at the end of a
    table that has grown. *)
Definition enlisted (c : positive) (cb : bool) : list nl_cache_assoc :=
  match free_assoc table with
  | Some i => <[i := Assoc (Some c) cb]> table
  | None => table ++ Assoc (Some c) cb :: replicate 7 (Assoc None false)
  end.
Definition origin_with (c : positive) (x : nl_cache) : positive -> nl_cache := fun c' => if decide (c' = c) then x else origin c'.
Definition contents_with (c : positive) (us : list (value (D := D))) (F : contents) : contents := fun c' => if decide (c' = c) then us else F c'.

Lemma free_assoc_Some l i : free_assoc l = Some i -> exists l1 a l2, l = l1 ++ a :: l2 /\ length l1 = i /\ ca_cache a = None.
Proof.
  revert i. induction l as [|a l IH]; intros i; cbn [free_assoc]; [done|]. destruct (ca_cache a) eqn:Ea.
  - intros (j & Hj & ->)%fmap_Some. destruct (IH j Hj) as (l1 & b & l2 & -> & <- & Hb). by exists (a :: l1), b, l2.
  - intros [= <-]. by exists [], a, l.
Qed.

Lemma free_assoc_app l a l2 : free_assoc l = None -> ca_cache a = None -> free_assoc (l ++ a :: l2) = Some (length l).
Proof.
  intros Hl Ha. induction l as [|b l IH]; cbn [app free_assoc length] in *; [by rewrite Ha|]. destruct (ca_cache b); [|done]. destruct (free_assoc l); [done|]. by rewrite IH.
Qed.

Lemma omap_app_cache (l1 l2 : list nl_cache_assoc) : omap ca_cache (l1 ++ l2) = omap ca_cache l1 ++ omap ca_cache l2.
Proof. induction l1 as [|a l1 IH]; [done|]. cbn [app omap list_omap]. destruct (ca_cache a); [|exact IH]. cbn [app]. f_equal. exact IH. Qed.

Lemma listed_enlisted c cb c' : listed (enlisted c cb) c' <-> c' = c \/ listed table c'.
Proof.
  unfold listed, enlisted. destruct (free_assoc table) as [i|] eqn:Ef.
  - apply free_assoc_Some in Ef as (l1 & a & l2 & -> & <- & Ha). replace (length l1) with (length l1 + 0)%nat by lia. rewrite insert_app_r. cbn [insert list_insert].
    rewrite !omap_app_cache. cbn [omap list_omap ca_cache]. rewrite Ha, !elem_of_app, elem_of_cons. tauto.
  - rewrite omap_app_cache. cbn [omap list_omap ca_cache replicate]. rewrite elem_of_app, elem_of_cons, elem_of_nil. tauto.
Qed.

(** A manager with this table. *)
Definition has_table (g : nl_cache_mngr) (l : list nl_cache_assoc) : Prop := cm_assocs g = Some l /\ cm_nassocs g = zlen l.

Lemma has_table_assocs g l : has_table g l -> assocs g = Some l.
Proof.
  intros [Ea En]. unfold assocs. rewrite Ea, En. cbn [mbind option_bind]. rewrite Z.eqb_refl. destruct (Z.leb_spec (zlen l) 0) as [H|H]; [|done].
  destruct l; [done|]. rewrite zlen_cons in H. pose proof (zlen_nonneg l). lia.
Qed.

Lemma ends_make_room {C} g c cb l w (f : nl_cache_mngr * option nat -> @NlSocket.N nl_msg nlmsgerr update_xdata memory (@RM memory) RV SD C) Q : has_table g table -> zlen table <= 2 ^ 20 ->
  (forall i t, has_table (set_cm_assocs (zlen t) (Some t) g) t -> <[i := Assoc (Some c) cb]> t = enlisted c cb ->
    ends (f (set_cm_assocs (zlen t) (Some t) g, Some i)) (l, w) Q) ->
  ends (make_room (D := D) g ≫= f) (l, w) Q.
Proof.
  intros Hg Hlen HQ. apply ends_bind. unfold make_room. rewrite (has_table_assocs g table Hg). apply ends_bind, ends_ret. destruct Hg as [Ea En]. pose proof (zlen_nonneg table).
  unfold enlisted in HQ. destruct (free_assoc table) as [i|] eqn:Ef.
  - apply ends_ret. replace g with (set_cm_assocs (zlen table) (Some table) g) by (destruct g; cbn in *; by subst). by apply HQ.
  - rewrite En, s32_id by (unfold INT_MIN, INT_MAX, NASSOC_EXPAND; lia). rewrite total by (unfold NASSOC_EXPAND, assoc_size; lia). rewrite Ea.
    apply ends_bind, ends_ret. set (t := table ++ _). assert (free_assoc t = Some (length table)) as Et by (by apply free_assoc_app). rewrite Et. apply ends_bind, ends_ret, ends_ret.
    assert (zlen table + NASSOC_EXPAND = zlen t) as -> by (unfold t, zlen; rewrite length_app, length_replicate; unfold NASSOC_EXPAND; lia).
    apply HQ; [done|]. unfold t. replace (length table) with (length table + 0)%nat by lia. by rewrite insert_app_r.
Qed.

(** Joining all groups. *)
Definition join_call (sk : nl_sock) (grp : Z * Z) : call := Setsockopt (s_fd sk) SOL_NETLINK NETLINK_ADD_MEMBERSHIP (snd grp).
Definition joined (sk : nl_sock) (grp : list (Z * Z)) (w : world) : world := fold_left (fun w p => called (join_call sk p) w) grp w.

Lemma joined_live sk grp : forall w, live (joined sk grp w) = live w.
Proof. induction grp as [|p grp IH]; intros w; [done|]. cbn [joined fold_left]. fold (joined sk grp (called (join_call sk p) w)). by rewrite IH. Qed.

Lemma ends_join_groups sk grp (l : lib nl_msg nlmsgerr update_xdata memory (@RM memory) RV SD) : 0 <= s_fd sk -> Forall (fun p => 0 < snd p) grp ->
  (forall h p, rc (answer h (join_call sk p)) = 0) -> forall w (Q : Z -> _ -> Prop), Q 0 (l, joined sk grp w) -> ends (join_groups sk grp) (l, w) Q.
Proof.
  intros Hfd Hg Hk. induction Hg as [|[fam n] grp Hn Hg IH]; intros w Q HQ; cbn [join_groups]; [by apply ends_ret|]. cbn [snd] in Hn.
  rewrite (proj2 (Z.eqb_neq n 0)) by lia. apply ends_bind. unfold nl_socket_add_membership, nl_socket_add_memberships. rewrite (proj2 (Z.eqb_neq (s_fd sk) (-1))) by lia.
  cbn [memberships]. rewrite (proj2 (Z.eqb_neq n 0)), (proj2 (Z.ltb_ge n 0)) by lia. apply ends_bind. unfold sockopt. apply ends_bind, ends_sys, ends_ret.
  change (Setsockopt (s_fd sk) SOL_NETLINK NETLINK_ADD_MEMBERSHIP n) with (join_call sk (fam, n)). rewrite Hk. change (0 <? 0) with false. cbv iota. change (0 <? 0) with false. cbv iota.
  cbn [memberships]. change (0 =? 0) with true. cbv iota. apply ends_ret. change (0 <? 0) with false. cbv iota. by apply IH.
Qed.

Lemma run_managed m F ops l : (forall c, c ∈ omap ca_cache l -> listed table c) -> holds ops_at table origin m F ->
  (forall c, listed table c -> same_ops (c_ops (origin c)) ops = false) -> managed l ops m = Some (false, m).
Proof.
  intros Hl Hh Hne. induction l as [|a l IH]; [done|]. cbn [managed]. cbn [omap list_omap] in Hl. destruct (ca_cache a) as [c|]; [|by apply IH].
  destruct (Hh c) as (x & Hx & items & Hc & _); [apply Hl; by left|]. rewrite (run_bind _ _ _ _ _ (run_get_cache _ _ _ (ck_cache _ _ _ _ _ Hc))), (same_cache_ops _ _ Hx).
  rewrite Hne by (apply Hl; by left). apply IH. intros c' Hc'. apply Hl. by right.
Qed.

(** A manager whose sockets work: notifications come on [sk], [sync] can send
    and listens. *)
Record operating (g : nl_cache_mngr) (sk sync : nl_sock) (l : lib nl_msg nlmsgerr update_xdata memory (@RM memory) RV SD) : Prop := {
  op_table : has_table g table;
  op_small : zlen table <= 2 ^ 20;
  op_manages : managing ops_at events_of table origin g;
  op_sock : cm_sock g = Some sk;
  op_open : 0 <= s_fd sk;
  op_sync : cm_sync_sock g = Some sync;
  op_listening : listening getpagesize sync l;
  op_sending : sending sync;
  op_proto : s_proto sync = cm_protocol g
}.

(** A cache the manager can take: of a type with groups that is not in the
    table yet. *)
Record addable (g : nl_cache_mngr) (m : mem D) (c : positive) (x : nl_cache) (grp : list (Z * Z)) (type : Z) (family : nl_cache -> Z) : Prop := {
  ad_cache : exists items, cache_ok ops_at m c x items;
  ad_other : ~ listed table c;
  ad_new : forall c', listed table c' -> same_ops (c_ops (origin c')) (c_ops x) = false;
  ad_proto : co_protocol (type_of (c_ops x)) = cm_protocol g;
  ad_groups : co_groups (type_of (c_ops x)) = Some grp;
  ad_positive : Forall (fun p => 0 < snd p) grp;
  ad_fillable : fillable ops_at x;
  ad_events : events_of (c_ops x) = EventOps None None;
  ad_dump : one_dump getpid size (type_of (c_ops x)) x type family
}.

(** C6: [nl_cache_mngr_add_cache] makes a cache a managed one: for a kernel
    that lets the socket of notifications join the groups of the type and then
    answers the dump on the other socket, the cache is at the first free place
    of the table, which grows when it is full, and has exactly one object for
    each value the kernel said last among identical ones; the caches that were
    there keep their values, and the manager is one that
    follows notifications for all of them. *)
Theorem nl_cache_mngr_add_cache_fills fuel g sk sync c x cb m F l w grp type family dss ms last vs :
  operating g sk sync l -> Z.land (cm_flags g) NL_AUTO_PROVIDE = 0 -> addable g m c x grp type family -> holds ops_at table origin m F ->
  (forall h p, rc (answer h (join_call sk p)) = 0) ->
  answers_dump getpagesize sync (log (joined sk grp w)) type (family x) dss ms last -> dump_of ops_at (type_of (c_ops x)) x (concat dss ++ ms) vs -> zlen vs <= INT_MAX ->
  (length dss < fuel)%nat -> (3 <= fuel)%nat ->
  ends (nl_cache_mngr_add_cache ops_at getpagesize type_of mngt_provide fuel g c cb (Some m)) (l, w) (fun res st => exists g' m' us,
    res = (g', Some m', 0) /\ fst st = l /\ live (snd st) = live w /\ has_table g' (enlisted c cb) /\ cm_sock g' = Some sk /\ cm_protocol g' = cm_protocol g /\
    managing ops_at events_of (enlisted c cb) (origin_with c x) g' /\ holds ops_at (enlisted c cb) (origin_with c x) m' (contents_with c us F) /\
    (forall u, u ∈ us <-> last_word ops_at (co_obj_ops (c_ops x)) vs u) /\ apart ops_at (co_obj_ops (c_ops x)) us).
Proof.
  intros [Ht Hsmall [_ Hmg] Esk Hfd Esync Hls Hsd Hsp] Hflags [[items Hc] Hnl Hnew Hp Hgrp Hpos Hfill Hev Hod] Hh Hk Hans Hdump Hlen Hf Hf3.
  unfold nl_cache_mngr_add_cache. apply ends_bind. eapply ends_on_memory; [by apply run_get_cache, (ck_cache _ _ _ _ _ Hc)|]. rewrite Hp, Z.eqb_refl. cbn [negb].
  rewrite Hgrp, (has_table_assocs g table Ht). apply ends_bind, ends_ret, ends_bind.
  eapply ends_on_memory; [apply (run_managed m F (c_ops x) table (fun c Hc => Hc) Hh Hnew)|]. cbv iota. apply (ends_make_room g c cb); [done|done|]. intros i t Htab Eins.
  set (g1 := set_cm_assocs (zlen t) (Some t) g) in *. change (cm_sock g1) with (cm_sock g). rewrite Esk. apply ends_bind, ends_ret, ends_bind. apply ends_join_groups; [done..|].
  change (0 <? 0) with false. cbv iota. change (cm_sync_sock g1) with (cm_sync_sock g). rewrite Esync. apply ends_bind, ends_ret, ends_bind. eapply ends_mono.
  { eapply (refill_run ops_at getpagesize getpid size total size_ok fuel _ sync c x items m l (joined sk grp w) type family dss ms last vs); try done. by rewrite Hp. }
  intros res [l' w'] (m' & x' & us & -> & El & Ev & Hx & Hm & Hlast & Hap & Hout & _). cbn [fst snd] in El, Ev. subst l'. change (0 <? 0) with false. cbv iota.
  set (sync' := set_seq_expect _ _). change (cm_assocs (set_cm_sync_sock (Some sync') g1)) with (Some t). apply ends_bind, ends_ret.
  set (g2 := set_cm_assocs _ _ _). change (cm_flags g2) with (cm_flags g). rewrite Hflags. cbn [Z.eqb negb]. apply ends_bind, ends_ret, ends_ret.
  assert (has_table g2 (enlisted c cb)) as Ht2 by (rewrite <- Eins; split; [done|]; unfold zlen; rewrite length_insert; apply Htab).
  exists g2, m', us. split_and!; try done.
  - cbn [snd]. by rewrite Ev, joined_live.
  - split; [by apply has_table_assocs|]. intros c' [-> |Hc']%listed_enlisted; unfold origin_with.
    + by rewrite decide_True.
    + rewrite decide_False by congruence. by apply Hmg.
  - intros c' [-> |Hc']%listed_enlisted; unfold origin_with, contents_with.
    + rewrite !decide_True by done. by exists x'.
    + rewrite !decide_False by congruence. destruct (Hh c' Hc') as (y & Hy & Hmy). exists y. split; [done|]. apply (mirrors_outside ops_at m m' c c'); try done. congruence.
Qed.

End Adding.

(** ** Samples *)

Section Samples.
Import NlIfaddr (ifaddr_value, addr_obj_ops, addr_laws, ifa_content, ifa_bytes, content_attrs, m_hdr, RTM_NEWADDR, RTM_DELADDR, content_ok).
Import NlIfaddrSync (rtnl_addr_ops, address_of, addr_mem, addr_cache, addr_cache_ok, addr_heard).
Import NlParse (Msg, enc_all).
#[local] Existing Instances sample_alloc outputs0 addr_laws.

Abbreviation ops0 := (fun _ : Z => addr_obj_ops).
Abbreviation type0 := (NlIfaddrSync.addr_type 4711 4096 None (NlRtnl.Heap ∅ ∅)).
Abbreviation types0 := (fun _ : nl_cache_ops => type0).
Abbreviation events0 := (fun _ : nl_cache_ops => EventOps (D := ifaddr_value) None None).

(** Notifications: 10.0.0.1/24 is there, something of another type, 10.0.0.1/24
    is gone, 10.0.0.9/16 is there. *)
Definition news (type : Z) (c : ifa_content) : message :=
  Msg (le_bytes 2 type ++ le_bytes 2 0 ++ le_bytes 4 0 ++ le_bytes 4 0) (ifa_bytes (m_hdr c) ++ enc_all (content_attrs c)).
Definition first_addr : ifa_content := address_of [10; 0; 0; 1] 24.
Definition second_addr : ifa_content := address_of [10; 0; 0; 9] 16.
Definition sample_news : list (list message) :=
  [[news RTM_NEWADDR first_addr; news 16 first_addr]; [news RTM_DELADDR first_addr; news RTM_NEWADDR second_addr]].

Definition heard_as (type : Z) (c : ifa_content) : option (event (D := ifaddr_value)) :=
  Some (1%positive, true, if type =? RTM_NEWADDR then NL_ACT_NEW else NL_ACT_DEL, (type, snd (addr_heard c))).
Definition sample_events : list (option event) :=
  [heard_as RTM_NEWADDR first_addr; None; heard_as RTM_DELADDR first_addr; heard_as RTM_NEWADDR second_addr].

(** A kernel with these notifications. *)
Definition news_kernel (mss : list (list message)) : Kernel := fun h c =>
  match c with
  | RecvmsgFlags _ _ _ _ => match mss !! length h with Some ms => datagram (enc_msgs ms) | None => Reply (-1) 11 [] 0 0 0 end
  | _ => Reply 0 0 [] 0 0 0
  end.
#[local] Instance sample_kernel : Kernel := news_kernel sample_news.

Definition sample_table : list nl_cache_assoc := Assoc (Some 1%positive) true :: replicate 15 (Assoc None false).
Definition sample_mngr : nl_cache_mngr := Mngr NETLINK_ROUTE 0 NASSOC_INIT (Some sk0) None (Some sample_table).
Definition mngr_cb : nl_cb nl_msg nlmsgerr update_xdata (option (mem ifaddr_value)) (@RM (option (mem ifaddr_value))) RV SD :=
  fst (nl_cb_set quiet_cb NL_CB_SEQ_CHECK NL_CB_CUSTOM (Some noop_seq_check) None).
Definition mngr_lib : lib nl_msg nlmsgerr update_xdata (option (mem ifaddr_value)) (@RM (option (mem ifaddr_value))) RV SD :=
  Lib (replicate 32 0) 0 {[1%positive := mngr_cb]}.

Lemma sample_understood : Forall2 (understood ops0 types0 sample_table (fun _ => addr_cache)) (concat sample_news) sample_events.
Proof.
  unfold sample_news, sample_events. cbn [concat app].
  repeat lazymatch goal with |- Forall2 _ (_ :: _) _ => apply List.Forall2_cons | |- Forall2 _ [] _ => apply List.Forall2_nil end; [|done|..];
    unfold understood; change (target _ _ _) with (Some (1%positive, true)); (split; [done|]; split; [done|]; split; [|split; [by vm_compute|by intros []]]);
    (split; [by vm_compute|eexists; split; [by vm_compute|by repeat constructor]|by vm_compute]).
Qed.

Lemma sample_notifies : notifies 4096 sk0 [] sample_news.
Proof.
  split.
  - repeat (constructor; [vm_compute; split; congruence|]). constructor.
  - split; [reflexivity|]. split; [reflexivity|]. done.
  - by split.
  - repeat (apply list.Forall_cons; split); [split; [vm_compute; intuition congruence|by vm_compute..]..|constructor].
Qed.

Lemma nl_cache_mngr_follows_witness : exists st m' x',
  nl_cache_mngr_data_ready ops0 4096 types0 events0 3 sample_mngr (Some addr_mem) (mngr_lib, w0) = Some ((sample_mngr, Some m', 4), st) /\
  mirrors ops0 m' 1 x' [addr_heard second_addr] /\ map snd (changes m') = [NL_ACT_NEW; NL_ACT_DEL; NL_ACT_NEW].
Proof.
  destruct (nl_cache_mngr_follows ops0 4096 types0 events0 sample_alloc_total sample_table (fun _ => addr_cache)
    3 sample_mngr sk0 mngr_cb addr_mem (fun _ => []) sample_news sample_events mngr_lib w0) as (res & st & E & m' & -> & _ & _ & Hh & Hch & _).
  - split; [done|]. intros c _. split; [|done]. split; by vm_compute.
  - reflexivity.
  - reflexivity.
  - reflexivity.
  - apply disabled_unsequenced. by split.
  - by exists (Sockaddr 16 0 0).
  - by split_and!.
  - exact sample_notifies.
  - exact sample_understood.
  - intros c Hc. exists addr_cache. split; [apply same_cache_refl|]. apply list_elem_of_singleton in Hc as ->. exists []. split; [exact addr_cache_ok|constructor].
  - intros c. vm_compute. congruence.
  - simpl. lia.
  - lia.
  - destruct (Hh 1%positive) as (x' & _ & Hm); [by left|]. exists st, m', x'. split; [exact E|]. split.
    + replace [addr_heard second_addr] with (fst (replay ops0 (fun _ => addr_cache) (fun _ => []) sample_events) 1%positive) by (vm_compute; reflexivity). exact Hm.
    + rewrite Hch. vm_compute. reflexivity.
Defined.

(** A new cache of addresses for an empty table; the kernel has the two
    addresses. *)
Definition empty_assocs : list nl_cache_assoc := replicate 16 (Assoc None false).
Definition empty_mngr : nl_cache_mngr := Mngr NETLINK_ROUTE 0 NASSOC_INIT (Some sk0) (Some sk0) (Some empty_assocs).
#[local] Instance dump_kernel2 : Kernel := dump_answer (enc_msgs (NlIfaddrSync.addr_dump [first_addr; second_addr] ++ [last_part])).

Lemma nobody_listed c : ~ listed empty_assocs c.
Proof. unfold listed. cbn. by apply not_elem_of_nil. Qed.

Lemma empty_operating : operating ops0 4096 events0 empty_assocs (fun _ => addr_cache) empty_mngr sk0 sk0 sync_lib.
Proof.
  split; [done|by vm_compute| |done|by vm_compute|done|apply sync_listening|apply sync_sending|done]. split; [done|]. intros c Hc. by apply nobody_listed in Hc.
Qed.

Lemma sample_addable : addable ops0 4711 4096 types0 events0 empty_assocs (fun _ => addr_cache) empty_mngr addr_mem 1 addr_cache
  [(2, 5); (10, 9)] NlIfaddrSync.RTM_GETADDR (fun _ => NlRequest.AF_UNSPEC).
Proof.
  split; [exists []; exact addr_cache_ok|apply nobody_listed|by intros c' []%nobody_listed|done|done|by repeat constructor|by split; vm_compute|done|by split].
Qed.

Lemma nl_cache_mngr_add_cache_fills_witness : exists st g' m' (us : list value),
  nl_cache_mngr_add_cache ops0 4096 types0 (fun _ => mret tt) 3 empty_mngr 1 true (Some addr_mem) (sync_lib, w0) = Some ((g', Some m', 0), st) /\
  cm_assocs g' = Some sample_table /\ forall u, u ∈ us <-> last_word ops0 1 [addr_heard first_addr; addr_heard second_addr] u.
Proof.
  destruct (nl_cache_mngr_add_cache_fills ops0 4096 4711 4096 types0 events0 (fun _ => mret tt) sample_alloc_total ltac:(lia) empty_assocs (fun _ => addr_cache)
    3 empty_mngr sk0 sk0 1 addr_cache true addr_mem (fun _ => []) sync_lib w0 [(2, 5); (10, 9)] NlIfaddrSync.RTM_GETADDR (fun _ => NlRequest.AF_UNSPEC) []
    (NlIfaddrSync.addr_dump [first_addr; second_addr]) last_part [addr_heard first_addr; addr_heard second_addr])
    as (res & st & E & g' & m' & us & -> & _ & _ & [Ht _] & _ & _ & _ & _ & Hlast & _).
  - exact empty_operating.
  - reflexivity.
  - exact sample_addable.
  - by intros c []%nobody_listed.
  - reflexivity.
  - intros data _ _ _. split; [|split; [reflexivity|done]| | |reflexivity|by vm_compute].
    + repeat (constructor; [vm_compute; split; congruence|]). constructor.
    + repeat (apply list.Forall_cons; split); [vm_compute; intuition congruence..|constructor].
    + repeat (apply list.Forall_cons; split); [by vm_compute..|constructor].
  - repeat (apply List.Forall2_cons; [split; [|by intros []]|]); [..|apply List.Forall2_nil];
      (split; [by vm_compute|eexists; split; [by vm_compute|by repeat constructor]|by vm_compute]).
  - by vm_compute.
  - simpl. lia.
  - lia.
  - exists st, g', m', us. split; [exact E|]. split; [exact Ht|exact Hlast].
Defined.

(** *** What goes wrong *)

(** A new manager with its own socket. *)
Definition no_cbs : lib nl_msg nlmsgerr update_xdata (option (mem ifaddr_value)) (@RM (option (mem ifaddr_value))) RV SD := Lib (replicate 32 0) 0 ∅.
Definition alloc_session (al : Allocator) (kernel : Kernel) :=
  nl_cache_mngr_alloc ops0 4711 0 (fun _ => mret tt) 10 None NETLINK_ROUTE 0 (Some addr_mem) (no_cbs, w0).

Definition opens_socket (p : call * reply) : bool := match fst p with Socket _ _ _ => true | _ => false end.
Definition one_socket_kernel : Kernel := fun h c =>
  match c with Socket _ _ _ => if existsb opens_socket h then Reply (-1) 24 [] 0 0 0 else bind_kernel h c | _ => bind_kernel h c end.
Definition no_table_alloc : Allocator.
Proof.
  refine {| malloc_ok n := (n <=? 2 ^ 40) && negb (n =? NASSOC_INIT * assoc_size); malloc_byte := 165 |}. intros n [H%Z.leb_le _]%andb_true_iff. lia.
Defined.

(** It is made when all calls work; it is not when the second socket cannot be
    opened, as [errout_free_sync_sock:] frees that socket and
    [nl_cache_mngr_free] frees it again; nor when there is no memory for the
    table, as [nl_cache_mngr_free] looks for [cm_nassocs] caches in it. *)
Theorem mngr_alloc_fails_badly : is_Some (alloc_session sample_alloc bind_kernel) /\
  alloc_session sample_alloc one_socket_kernel = None /\ alloc_session no_table_alloc bind_kernel = None.
Proof. split; [eexists; vm_compute; reflexivity|]. split; vm_compute; reflexivity. Qed.

(** A full table is lost when it cannot grow: the manager has no table but
    still counts its places, and the next notification or
    [nl_cache_mngr_free] reads it. *)
Theorem mngr_loses_table (al : Allocator) g l st : has_table g l -> free_assoc l = None -> zlen l <= 2 ^ 20 ->
  malloc_ok (s32 (cm_nassocs g + NASSOC_EXPAND) * assoc_size) = false ->
  exists g', make_room (D := ifaddr_value) g st = Some ((g', None), st) /\ assocs g' = None.
Proof.
  intros Ht Hf Hlen Hm. pose proof (has_table_assocs g l Ht) as Ha. unfold make_room. rewrite Ha. cbn [of_option]. unfold mbind, N_bind, mret, N_ret. cbn [mbind option_bind]. rewrite Hf, Hm. eexists. split; [reflexivity|].
  destruct Ht as [_ En]. pose proof (zlen_nonneg l). unfold assocs. cbn [set_cm_assocs cm_nassocs cm_assocs]. rewrite En, s32_id by (unfold INT_MIN, INT_MAX, NASSOC_EXPAND; lia).
  by rewrite (proj2 (Z.leb_gt _ _)) by (unfold NASSOC_EXPAND; lia).
Qed.

(** When a group cannot be joined the groups joined before are kept. *)
Definition one_group_kernel : Kernel := fun h c => match c with Setsockopt _ _ _ 9 => Reply (-1) 1 [] 0 0 0 | _ => Reply 0 0 [] 0 0 0 end.

Theorem mngr_keeps_groups : exists g' s' st,
  nl_cache_mngr_add_cache (kernel := one_group_kernel) ops0 4096 (fun _ => NlIfaddrSync.addr_type (kernel := one_group_kernel) 4711 4096 None (NlRtnl.Heap ∅ ∅)) (fun _ => mret tt)
    3 empty_mngr 1 true (Some addr_mem) (sync_lib, w0) = Some ((g', s', - NLE_PERM), st) /\
  map fst (log (snd st)) = [join_call sk0 (2, 5); join_call sk0 (10, 9)].
Proof. eexists _, _, _. split; [vm_compute; reflexivity|reflexivity]. Qed.

End Samples.

End NlMngr.
