(* ===== verification/NetInterface.v ===== *)
(** * Commands for the network of a container ([network/net_interface])

    [interface.c] makes commands of [ip] and [iptables] in buffers of 128 bytes
    and gives them to the shell; [main.c] starts a process in new namespaces,
    makes a pair of interfaces for it and waits for it.  The two processes
    share a pipe: the child reads from it until the parent has set everything
    up and closes its end.

    A string that may be [NULL] is an [option]; an address is the four octets
    of [struct in_addr].  Writing behind a buffer is undefined.  The result of
    [dnat_rule_set] has what is stored through its pointers.

    The theorems: a function that sets up an interface runs one command, which the shell splits into the
    words it should have; a rule that was set is deleted by the words it was set
    with; when the pipe could be made, in every interleaving of the two processes
    the same commands run in the same order, and nobody waits for ever.  At the
    end what goes wrong, also without the pipe. *)

From S2P Require Import Prelude JsonUtil Syscalls NlAddr.
From Stdlib Require Import ZArith Lia String.
From stdpp Require Import base list numbers option relations.

Open Scope Z_scope.

Module NetInterface.
Import Syscalls.
Import JsonUtil (print_int64, print_nat).

Definition DEFAULT_CMD_SIZE : Z := 128.

Abbreviation in_addr := bytes.
Definition inet_ntoa (addr : in_addr) : bytes := NlAddr.dotted addr.

(** [sprintf] into a buffer of [size] bytes; what [%s] and [%d] print. *)
Definition sprintf (size : Z) (text : bytes) : io bytes := if zlen text + 1 <=? size then mret text else undefined.
Definition fmt_s (p : option bytes) : io bytes := match p with Some s => mret (cstr s) | None => undefined end.
Definition fmt_d (n : Z) : bytes := print_int64 n.

Record dnat_rule := Dnat { dev_name : option bytes; dport : Z; dnat_addr : in_addr; cport : Z }.
Record snat_rule := Snat { interface : option bytes; snat_addr : in_addr; snat_mask : in_addr }.

(** ** [interface.c] *)

Section Functions.
Context {al : Allocator} {kernel : Kernel}.

Definition system (cmd : bytes) : io Z := r ← syscall (System cmd); mret (rc r).

(** The text in the buffer of a function, and the shell. *)
Definition shell (text : bytes) : io Z := cmd ← sprintf DEFAULT_CMD_SIZE text; system cmd.

Definition netspace_create (name : option bytes) : io Z :=
  match name with None => mret (-1) | Some name => shell (str "ip netns add " ++ cstr name) end.
Definition netspace_del (name : option bytes) : io Z :=
  match name with None => mret (-1) | Some name => shell (str "ip netns delete " ++ cstr name) end.

Definition virtual_interface_create (if_e if_v : option bytes) : io Z :=
  match if_e, if_v with
  | Some if_e, Some if_v => shell (str "ip link add " ++ cstr if_e ++ str " type veth peer name " ++ cstr if_v)
  | _, _ => mret (-1)
  end.
Definition virtual_interface_del (if_e : option bytes) : io Z :=
  match if_e with None => mret (-1) | Some if_e => shell (str "ip link delete " ++ cstr if_e) end.

Definition interface_set_addr (interface : option bytes) (addr : in_addr) : io Z :=
  name ← fmt_s interface;
  _ ← shell (str "ip address add " ++ inet_ntoa addr ++ str "/24 dev " ++ name); mret 0.
Definition interface_del_addr (interface : option bytes) : io Z :=
  match interface with None => mret (-1) | Some interface => shell (str "ip address flush  dev " ++ cstr interface) end.

Definition interface_to_namespace (name_space interface : option bytes) : io Z :=
  match name_space, interface with
  | Some name_space, Some interface => shell (str "ip link set dev " ++ cstr interface ++ str " netns " ++ cstr name_space)
  | _, _ => mret (-1)
  end.
Definition interface_set_up (interface : option bytes) : io Z :=
  match interface with None => mret (-1) | Some interface => shell (str "ip link set " ++ cstr interface ++ str " up") end.

Definition def_router_set (addr : in_addr) : io Z :=
  _ ← shell (str "ip route add default via " ++ inet_ntoa addr); mret 0.

Definition dnat_make_cmd (rule : dnat_rule) : io (option bytes) :=
  if malloc_ok DEFAULT_CMD_SIZE then
    heap 1 ;; dev ← fmt_s (dev_name rule);
    cmd ← sprintf DEFAULT_CMD_SIZE (str " PREROUTING -p tcp --dport " ++ fmt_d (dport rule) ++ str " -i " ++ dev ++ str "  -j DNAT --to "
      ++ inet_ntoa (dnat_addr rule) ++ str ":" ++ fmt_d (cport rule));
    mret (Some cmd)
  else mret None.

Definition snat_make_cmd (rule : snat_rule) : io (option bytes) :=
  if malloc_ok DEFAULT_CMD_SIZE then
    heap 1 ;; dev ← fmt_s (interface rule);
    cmd ← sprintf DEFAULT_CMD_SIZE (str " POSTROUTING -s " ++ inet_ntoa (snat_addr rule) ++ str " -o " ++ dev ++ str " -j MASQUERADE");
    mret (Some cmd)
  else mret None.

(** The common end of [dnat_rule_set] and [snat_rule_set]; [has_len] tells
    whether [len] is a pointer. *)
Definition rule_set (make_cmd : io (option bytes)) (has_len : bool) : io (Z * option (bytes * Z)) :=
  data ← make_cmd;
  match data with
  | None => mret (-1, None)
  | Some data =>
      ret ← shell (str "iptables -t nat -A " ++ data);
      if ret >? 0 then (if has_len then mret (0, Some (data, zlen data)) else undefined) else mret (-1, None)
  end.

Definition dnat_rule_set (rule : option dnat_rule) (has_data has_len : bool) : io (Z * option (bytes * Z)) :=
  match rule with
  | Some rule => if has_data then rule_set (dnat_make_cmd rule) has_len else mret (-1, None)
  | None => mret (-1, None)
  end.
Definition snat_rule_set (rule : option snat_rule) (has_data has_len : bool) : io (Z * option (bytes * Z)) :=
  match rule with
  | Some rule => if has_data then rule_set (snat_make_cmd rule) has_len else mret (-1, None)
  | None => mret (-1, None)
  end.

Definition nat_rule_del (cmd_data : option bytes) : io Z :=
  match cmd_data with None => mret (-1) | Some cmd_data => shell (str "iptables -t nat -D " ++ cstr cmd_data) end.

End Functions.

(** ** [main.c] *)

(** What a process does next: a call, reading from the pipe until it is closed,
    closing its writing end, waiting for the child. *)
Inductive instr (S : Type) :=
| Do (f : S -> io S)
| ReadPipe
| ClosePipe
| WaitChild.
Arguments Do {S}.
Arguments ReadPipe {S}.
Arguments ClosePipe {S}.
Arguments WaitChild {S}.

(** The variables of [main] that are set on the way. *)
Record parent_vars := Vars { space_name : bytes; dnat_str : option bytes; snat_str : option bytes }.

Section Main.
Context {al : Allocator} {kernel : Kernel}.

Definition ve_name : bytes := str "veth0".
Definition vv_name : bytes := str "vveth0".
Definition vve_ip : in_addr := [192; 168; 8; 2].
Definition ve_ip : in_addr := [192; 168; 8; 1].
Definition d_rule : dnat_rule := Dnat (Some (str "eth0")) 9999 vve_ip 9999.
(** [mask] is not set. *)
Definition s_rule : snat_rule := Snat (Some (str "eth0")) vve_ip [].

(** A call whose result is not used. *)
Definition ignore {S B} (x : io B) : instr S := Do (fun s => _ ← x; mret s).

(** What is stored through [&dnat_str] and [&dnat_len]. *)
Definition stored (old : option bytes) (r : Z * option (bytes * Z)) : option bytes :=
  match snd r with Some (data, _) => Some data | None => old end.

(** [main] after [clone], which returned [child_pid]. *)
Definition parent_setup (child_pid : Z) : list (instr parent_vars) :=
  [Do (fun s => name ← sprintf 10 (fmt_d child_pid); mret (Vars name (dnat_str s) (snat_str s)));
   ignore (virtual_interface_create (Some ve_name) (Some vv_name));
   Do (fun s => _ ← interface_to_namespace (Some (space_name s)) (Some vv_name); mret s);
   ignore (interface_set_addr (Some ve_name) ve_ip);
   ignore (interface_set_up (Some ve_name));
   Do (fun s => r ← dnat_rule_set (Some d_rule) true true; mret (Vars (space_name s) (stored (dnat_str s) r) (snat_str s)));
   Do (fun s => r ← snat_rule_set (Some s_rule) true true; mret (Vars (space_name s) (dnat_str s) (stored (snat_str s) r)))].
Definition parent_cleanup : list (instr parent_vars) :=
  [Do (fun s => match dnat_str s with None => _ ← nat_rule_del (dnat_str s); mret s | Some _ => mret s end);
   Do (fun s => match snat_str s with None => _ ← nat_rule_del (snat_str s); mret s | Some _ => mret s end);
   ignore (virtual_interface_del (Some ve_name))].
Definition parent_main (child_pid : Z) : list (instr parent_vars) := parent_setup child_pid ++ [ClosePipe; WaitChild] ++ parent_cleanup.

(** The interface of the child and its addresses are in [c_argv]. *)
Definition child_network : list (instr unit) :=
  [ignore (interface_set_up (Some (str "lo")));
   ignore (interface_set_addr (Some vv_name) vve_ip);
   ignore (interface_set_up (Some vv_name));
   ignore (def_router_set ve_ip);
   ignore (syscall (Execv (str "/bin/bash")))].
Definition child_main : list (instr unit) :=
  [ClosePipe; ignore (syscall (Sethostname (str "In Namespace"))); ignore (syscall (Mount (str "proc") (str "/proc") (str "proc"))); ReadPipe] ++ child_network.

(** The two processes: the calls so far, what each has still to do, and whether
    it has the writing end of the pipe open. *)
Record processes := Processes {
  p_world : world;
  p_parent : list (instr parent_vars);
  p_vars : parent_vars;
  p_child : list (instr unit);
  parent_end : bool;
  child_end : bool
}.

(** A process that has nothing left to do has ended; reading an empty pipe
    returns when no writing end is open. *)
Inductive step : processes -> processes -> Prop :=
| parent_does f s s' w w' pp cp pe ce : f s w = Some (s', w') ->
    step (Processes w (Do f :: pp) s cp pe ce) (Processes w' pp s' cp pe ce)
| parent_closes s w pp cp pe ce :
    step (Processes w (ClosePipe :: pp) s cp pe ce) (Processes w pp s cp false ce)
| parent_waited s w pp pe ce :
    step (Processes w (WaitChild :: pp) s [] pe ce) (Processes w pp s [] pe ce)
| child_does f s w w' pp cp pe ce : f tt w = Some (tt, w') ->
    step (Processes w pp s (Do f :: cp) pe ce) (Processes w' pp s cp pe ce)
| child_closes s w pp cp pe ce :
    step (Processes w pp s (ClosePipe :: cp) pe ce) (Processes w pp s cp pe false)
| child_reads s w pp cp :
    step (Processes w pp s (ReadPipe :: cp) false false) (Processes w pp s cp false false).

(** After [pipe] and [clone].  Neither is checked.  When [pipe] has failed,
    [checkpoint] is still two zeros: nobody has a writing end, and the child,
    which closes descriptor 0 itself, does not wait in [read].  Without a child
    [waitpid] returns at once. *)
Definition after_clone (pipe_ok : bool) (child_pid : Z) (w : world) : processes :=
  Processes w (parent_main child_pid) (Vars [] None None) (if child_pid <? 0 then [] else child_main) pipe_ok pipe_ok.

End Main.

(** ** The words of a command *)

(** Splitting at spaces; a text without special characters is split this way by
    the shell. *)
Fixpoint split (cur s : bytes) : list bytes :=
  match s with
  | [] => [cur]
  | c :: s' => if c =? 32 then cur :: split [] s' else split (cur ++ [c]) s'
  end.
Definition safe_char (c : Z) : bool :=
  isdigit c || ((65 <=? c) && (c <=? 90)) || ((97 <=? c) && (c <=? 122)) || existsb (Z.eqb c) (str "-_.:/@+").
Definition nonempty (w : bytes) : bool := match w with [] => false | _ => true end.
Definition sh_words (cmd : bytes) : option (list bytes) :=
  if forallb (fun c => (c =? 32) || safe_char c) cmd then Some (List.filter nonempty (split [] cmd)) else None.

Definition word (w : bytes) : Prop := Forall (fun c => safe_char c = true) w.

Fixpoint unwords (ws : list bytes) : bytes :=
  match ws with
  | [] => []
  | [w] => w
  | w :: ws' => w ++ 32 :: unwords ws'
  end.

Lemma safe_not_space c : safe_char c = true -> c =? 32 = false.
Proof. intros H. apply Z.eqb_neq. intros ->. discriminate H. Qed.

Lemma split_word cur w s : word w -> split cur (w ++ s) = split (cur ++ w) s.
Proof.
  intros Hw. revert cur. induction Hw as [|c w Hc Hw IH]; intros cur; cbn [app split]; [by rewrite app_nil_r|]. rewrite (safe_not_space c Hc), IH. by rewrite <- app_assoc.
Qed.

Lemma split_unwords ws : Forall word ws -> ws <> [] -> split [] (unwords ws) = ws.
Proof.
  intros Hws. induction Hws as [|w ws Hw Hws IH]; [done|]. intros _. destruct ws as [|w' ws].
  - cbn [unwords]. rewrite <- (app_nil_r w) at 1. by rewrite split_word.
  - change (unwords (w :: w' :: ws)) with (w ++ 32 :: unwords (w' :: ws)). rewrite split_word by done. cbn [split app]. f_equal. by apply IH.
Qed.

Lemma unwords_safe ws : Forall word ws -> forallb (fun c => (c =? 32) || safe_char c) (unwords ws) = true.
Proof.
  intros Hws. apply forallb_forall. intros c Hc. apply orb_true_iff. induction Hws as [|w ws Hw Hws IH]; [done|]. destruct ws as [|w' ws].
  - right. cbn [unwords] in Hc. by apply list_elem_of_In, (proj1 (Forall_forall _ _) Hw) in Hc.
  - change (unwords (w :: w' :: ws)) with (w ++ 32 :: unwords (w' :: ws)) in Hc. apply in_app_iff in Hc as [Hc|[<-|Hc]]; [|by left|by apply IH].
    right. by apply list_elem_of_In, (proj1 (Forall_forall _ _) Hw) in Hc.
Qed.

Lemma sh_words_unwords ws : Forall word ws -> ws <> [] -> sh_words (unwords ws) = Some (List.filter nonempty ws).
Proof. intros Hws Hne. unfold sh_words. by rewrite unwords_safe, split_unwords. Qed.

Lemma word_app u v : word u -> word v -> word (u ++ v).
Proof. intros. by apply Forall_app. Qed.

Lemma word_literal s : forallb safe_char (str s) = true -> word (str s).
Proof. intros H. apply Forall_forall. intros c Hc. apply (proj1 (forallb_forall _ _) H). by apply list_elem_of_In. Qed.

Lemma word_print_nat n : 0 <= n -> word (print_nat n).
Proof.
  intros Hn. destruct (JsonUtil.print_nat_spec n Hn) as (Hd & _). eapply Forall_impl; [exact Hd|]. intros c Hc. unfold safe_char. by rewrite Hc.
Qed.

Lemma fmt_d_word n : word (fmt_d n).
Proof. unfold fmt_d, print_int64. destruct (Z.ltb_spec n 0); [apply list.Forall_cons; split; [done|]|]; apply word_print_nat; lia. Qed.

Lemma fmt_d_short n : INT_MIN <= n <= INT_MAX -> zlen (fmt_d n) <= 11.
Proof.
  unfold fmt_d, print_int64, INT_MIN, INT_MAX. intros Hn. destruct (Z.ltb_spec n 0); rewrite ?zlen_cons.
  - pose proof (NlAddr.print_nat_short (- n) ltac:(lia)). lia.
  - pose proof (NlAddr.print_nat_short n ltac:(lia)). lia.
Qed.

(** A name that is one word, and an address. *)
Record name_ok (n : bytes) : Prop := {
  nm_word : word n;
  nm_nonempty : n <> [];
  nm_short : zlen n <= 40
}.
Definition addr_ok (a : in_addr) : Prop := length a = 4%nat /\ Forall byte_ok a.

Lemma inet_ntoa_ok a : addr_ok a -> word (inet_ntoa a) /\ 0 < zlen (inet_ntoa a) <= 15.
Proof.
  intros [Hl Hb]. destruct a as [|a [|b [|c [|d [|]]]]]; try done. repeat (apply list.Forall_cons in Hb as [? Hb]). unfold inet_ntoa. split.
  - unfold byte_ok in *. cbn [NlAddr.dotted]. repeat apply word_app; try (apply word_print_nat; lia); by repeat constructor.
  - split; [|by apply NlAddr.dotted_like]. cbn [NlAddr.dotted]. rewrite zlen_app. pose proof (NlAddr.print_nat_nonempty a ltac:(unfold byte_ok in *; lia)).
    rewrite zlen_app. pose proof (zlen_nonneg (print_nat b ++ [46] ++ print_nat c ++ [46] ++ print_nat d)). change (zlen [46]) with 1. lia.
Qed.

Lemma safe_nonzero c : safe_char c = true -> c <> 0.
Proof. by intros H ->. Qed.

Lemma cstr_word n : word n -> cstr n = n.
Proof.
  induction 1 as [|c n Hc Hn IH]; [done|]. cbn [cstr]. rewrite (proj2 (Z.eqb_neq c 0)) by (by apply safe_nonzero). by rewrite IH.
Qed.

(** ** Requests and their commands *)

Section Commands.
Context {al : Allocator} {kernel : Kernel}.

Inductive request :=
| NetnsAdd (name : bytes)
| NetnsDelete (name : bytes)
| VethAdd (if_e if_v : bytes)
| LinkDelete (if_e : bytes)
| AddrAdd (dev : bytes) (addr : in_addr)
| AddrFlush (dev : bytes)
| LinkNetns (name_space dev : bytes)
| LinkUp (dev : bytes)
| RouteDefault (addr : in_addr).

Definition perform (q : request) : io Z :=
  match q with
  | NetnsAdd n => netspace_create (Some n)
  | NetnsDelete n => netspace_del (Some n)
  | VethAdd e v => virtual_interface_create (Some e) (Some v)
  | LinkDelete e => virtual_interface_del (Some e)
  | AddrAdd i a => interface_set_addr (Some i) a
  | AddrFlush i => interface_del_addr (Some i)
  | LinkNetns ns i => interface_to_namespace (Some ns) (Some i)
  | LinkUp i => interface_set_up (Some i)
  | RouteDefault a => def_router_set a
  end.

(** The arguments of the program that is run. *)
Definition argv (q : request) : list bytes :=
  match q with
  | NetnsAdd n => [str "ip"; str "netns"; str "add"; n]
  | NetnsDelete n => [str "ip"; str "netns"; str "delete"; n]
  | VethAdd e v => [str "ip"; str "link"; str "add"; e; str "type"; str "veth"; str "peer"; str "name"; v]
  | LinkDelete e => [str "ip"; str "link"; str "delete"; e]
  | AddrAdd i a => [str "ip"; str "address"; str "add"; inet_ntoa a ++ str "/24"; str "dev"; i]
  | AddrFlush i => [str "ip"; str "address"; str "flush"; str "dev"; i]
  | LinkNetns ns i => [str "ip"; str "link"; str "set"; str "dev"; i; str "netns"; ns]
  | LinkUp i => [str "ip"; str "link"; str "set"; i; str "up"]
  | RouteDefault a => [str "ip"; str "route"; str "add"; str "default"; str "via"; inet_ntoa a]
  end.

(** The functions that give no address return the status of the command. *)
Definition returns (q : request) (status : Z) : Z := match q with AddrAdd _ _ | RouteDefault _ => 0 | _ => status end.

Definition request_ok (q : request) : Prop :=
  match q with
  | NetnsAdd n | NetnsDelete n | LinkDelete n | AddrFlush n | LinkUp n => name_ok n
  | VethAdd n n' | LinkNetns n n' => name_ok n /\ name_ok n'
  | AddrAdd n a => name_ok n /\ addr_ok a
  | RouteDefault a => addr_ok a
  end.

(** A call of the shell. *)
Definition ran (cmd : bytes) (w : world) : world := World (log w ++ [(System cmd, answer (log w) (System cmd))]) (live w) (br_socket_fd w).

Lemma runs_shell text ws w (Q : Z -> world -> Prop) : text = unwords ws -> ws <> [] -> Forall word ws -> zlen text < DEFAULT_CMD_SIZE ->
  (sh_words text = Some (List.filter nonempty ws) -> Q (rc (answer (log w) (System text))) (ran text w)) -> runs (shell text) w Q.
Proof.
  intros E Hne Hws Hlen HQ. unfold shell, sprintf. rewrite (proj2 (Z.leb_le _ _)) by lia. apply runs_bind, runs_ret. unfold system. apply runs_bind, runs_syscall, runs_ret.
  apply HQ. rewrite E. by apply sh_words_unwords.
Qed.

Lemma name_cstr n : name_ok n -> cstr n = n.
Proof. intros [H _ _]. by apply cstr_word. Qed.

Lemma filter_word w ws : w <> [] -> List.filter nonempty (w :: ws) = w :: List.filter nonempty ws.
Proof. by destruct w. Qed.

Lemma ntoa_nonempty a : addr_ok a -> inet_ntoa a <> [].
Proof. intros Ha E. destruct (inet_ntoa_ok a Ha) as [_ [H _]]. by rewrite E in H. Qed.

Lemma ntoa_app_nonempty a s : addr_ok a -> inet_ntoa a ++ s <> [].
Proof. intros Ha [E _]%app_eq_nil. by apply (ntoa_nonempty a). Qed.

End Commands.

(** Length and words of a command from those of its parts. *)
Ltac command_bounds := repeat match goal with
  | H : name_ok ?n |- _ => lazymatch goal with L : zlen n <= 40 |- _ => fail | _ => pose proof (nm_short n H) end
  | H : addr_ok ?a |- _ => lazymatch goal with L : 0 < zlen (inet_ntoa a) <= 15 |- _ => fail | _ => pose proof (proj2 (inet_ntoa_ok a H)) end
  end; repeat first [rewrite zlen_app | rewrite zlen_cons]; repeat match goal with |- context [zlen (str ?s)] => let n := eval vm_compute in (zlen (str s)) in change (zlen (str s)) with n end;
  try change (zlen (@nil Z)) with 0; unfold DEFAULT_CMD_SIZE; lia.
Ltac command_words := repeat (apply list.Forall_cons; split); try (by apply Forall_nil);
  first [apply word_literal; vm_compute; reflexivity | by apply nm_word | by apply inet_ntoa_ok
        | apply word_app; [by apply inet_ntoa_ok|apply word_literal; vm_compute; reflexivity] | by constructor].

Section Requests.
Context {al : Allocator} {kernel : Kernel}.

(** The words with the empty one between two spaces. *)
Definition spaced (q : request) : list bytes :=
  match q with AddrFlush i => [str "ip"; str "address"; str "flush"; []; str "dev"; i] | _ => argv q end.

Definition command (q : request) : bytes := unwords (spaced q).

Lemma spaced_words q : request_ok q -> Forall word (spaced q).
Proof. destruct q; cbn [request_ok spaced argv]; intros H; try (lazymatch type of H with _ /\ _ => destruct H end); command_words. Qed.

Lemma spaced_argv q : request_ok q -> List.filter nonempty (spaced q) = argv q.
Proof.
  destruct q; cbn [request_ok spaced argv]; intros H; try (lazymatch type of H with _ /\ _ => destruct H end);
    repeat first [reflexivity | rewrite filter_word; [f_equal|first [done | by apply nm_nonempty | by apply ntoa_nonempty | by apply ntoa_app_nonempty]]
      | progress change (List.filter nonempty ([] :: ?l)) with (List.filter nonempty l)].
Qed.

Lemma command_length q : request_ok q -> zlen (command q) < DEFAULT_CMD_SIZE.
Proof.
  unfold command. destruct q; cbn [request_ok spaced argv unwords]; intros H; try (lazymatch type of H with _ /\ _ => destruct H end); command_bounds.
Qed.


End Requests.

(** ** Rules for the translation of addresses *)

Section Rules.
Context {al : Allocator} {kernel : Kernel}.

Inductive nat_rule := NatD (dev : bytes) (dport : Z) (addr : in_addr) (cport : Z) | NatS (dev : bytes) (addr mask : in_addr).

Definition nat_rule_set (r : nat_rule) : io (Z * option (bytes * Z)) :=
  match r with
  | NatD dev dp a cp => dnat_rule_set (Some (Dnat (Some dev) dp a cp)) true true
  | NatS dev a m => snat_rule_set (Some (Snat (Some dev) a m)) true true
  end.

Definition nat_argv (r : nat_rule) : list bytes :=
  match r with
  | NatD dev dp a cp => [str "PREROUTING"; str "-p"; str "tcp"; str "--dport"; fmt_d dp; str "-i"; dev; str "-j"; str "DNAT"; str "--to"; inet_ntoa a ++ str ":" ++ fmt_d cp]
  | NatS dev a m => [str "POSTROUTING"; str "-s"; inet_ntoa a; str "-o"; dev; str "-j"; str "MASQUERADE"]
  end.
Definition nat_spaced (r : nat_rule) : list bytes :=
  match r with
  | NatD dev dp a cp => [[]; str "PREROUTING"; str "-p"; str "tcp"; str "--dport"; fmt_d dp; str "-i"; dev; []; str "-j"; str "DNAT"; str "--to"; inet_ntoa a ++ str ":" ++ fmt_d cp]
  | NatS dev a m => [] :: nat_argv r
  end.

(** A device has at most 15 bytes. *)
Definition nat_ok (r : nat_rule) : Prop :=
  match r with
  | NatD dev dp a cp => name_ok dev /\ zlen dev <= 15 /\ addr_ok a /\ INT_MIN <= dp <= INT_MAX /\ INT_MIN <= cp <= INT_MAX
  | NatS dev a m => name_ok dev /\ zlen dev <= 15 /\ addr_ok a
  end.

Definition iptables (action : bytes) : list bytes := [str "iptables"; str "-t"; str "nat"; action].

Lemma cstr_unwords ws : Forall word ws -> cstr (unwords ws) = unwords ws.
Proof.
  intros H%unwords_safe. induction (unwords ws) as [|c s IH]; [done|]. cbn [forallb] in H. apply andb_true_iff in H as [Hc H]. cbn [cstr].
  rewrite (proj2 (Z.eqb_neq c 0)), IH; [done|done|]. by intros ->.
Qed.

Lemma fmt_d_nonempty n : fmt_d n <> [].
Proof.
  unfold fmt_d, print_int64. destruct (Z.ltb_spec n 0); [done|]. intros E. pose proof (NlAddr.print_nat_nonempty n ltac:(lia)) as H0. by rewrite E in H0.
Qed.

Lemma nat_spaced_words r : nat_ok r -> Forall word (nat_spaced r).
Proof.
  destruct r; cbn [nat_ok nat_spaced nat_argv].
  - intros (? & _ & ? & _). repeat (apply list.Forall_cons; split); try apply fmt_d_word; try command_words.
    repeat apply word_app; [by apply inet_ntoa_ok|by apply word_literal|apply fmt_d_word].
  - intros (? & _ & ?). command_words.
Qed.

Lemma nat_spaced_argv r : nat_ok r -> List.filter nonempty (nat_spaced r) = nat_argv r.
Proof.
  destruct r; cbn [nat_ok nat_spaced nat_argv].
  - intros (? & _ & ? & _). repeat first [reflexivity
      | rewrite filter_word; [f_equal|first [done | by apply nm_nonempty | apply fmt_d_nonempty | by apply ntoa_app_nonempty]]
      | progress change (List.filter nonempty ([] :: ?l)) with (List.filter nonempty l)].
  - intros (? & _ & ?). repeat first [reflexivity | rewrite filter_word; [f_equal|first [done | by apply nm_nonempty | by apply ntoa_nonempty]]
      | progress change (List.filter nonempty ([] :: ?l)) with (List.filter nonempty l)].
Qed.

Lemma nat_length r : nat_ok r -> zlen (unwords (nat_spaced r)) < 107.
Proof.
  destruct r; cbn [nat_ok nat_spaced nat_argv unwords].
  - intros (? & ? & ? & ? & ?). pose proof (fmt_d_short dport0 ltac:(lia)). pose proof (fmt_d_short cport0 ltac:(lia)). command_bounds.
  - intros (? & ? & ?). command_bounds.
Qed.

(** Running [iptables] with the words of a rule. *)
Lemma runs_iptables action ws w (Q : Z -> world -> Prop) : word (str action) -> zlen (str action) = 2 -> nonempty (str action) = true ->
  Forall word ws -> ws <> [] -> zlen (unwords ws) < 107 -> let text := str "iptables -t nat " ++ str action ++ 32 :: unwords ws in
  (sh_words text = Some (iptables (str action) ++ List.filter nonempty ws) -> Q (rc (answer (log w) (System text))) (ran text w)) -> runs (shell text) w Q.
Proof.
  intros Ha Hz Hn Hw Hne Hlen text HQ. apply (runs_shell text (iptables (str action) ++ ws)).
  - unfold text. destruct ws as [|v ws]; [done|reflexivity].
  - done.
  - apply Forall_app. split; [|done]. repeat (apply list.Forall_cons; split); try done; by apply word_literal.
  - unfold text. rewrite !zlen_app, zlen_cons, Hz. change (zlen (str "iptables -t nat ")) with 16. unfold DEFAULT_CMD_SIZE. lia.
  - intros E. apply HQ. rewrite E, List.filter_app. cbn [iptables List.filter]. by rewrite Hn.
Qed.

(** What setting a rule with the words [ws] does. *)
Definition rule_was_set (ws : list bytes) (w : world) (res : Z * option (bytes * Z)) (w' : world) : Prop := exists cmd data,
  sh_words cmd = Some (iptables (str "-A") ++ List.filter nonempty ws) /\ log w' = log (ran cmd w) /\ live w' = live w + 1 /\
  res = (if rc (answer (log w) (System cmd)) >? 0 then (0, Some (data, zlen data)) else (-1, None)) /\
  forall w2, runs (nat_rule_del (Some data)) w2 (fun ret w2' => exists cmd2, sh_words cmd2 = Some (iptables (str "-D") ++ List.filter nonempty ws) /\
    w2' = ran cmd2 w2 /\ ret = rc (answer (log w2) (System cmd2))).

Lemma rule_set_words make ws w : Forall word ws -> ws <> [] -> zlen (unwords ws) < 107 ->
  make w = Some (Some (unwords ws), World (log w) (live w + 1) (br_socket_fd w)) -> runs (rule_set make true) w (rule_was_set ws w).
Proof.
  intros Hw Hne Hlen E. set (data := unwords ws) in *. unfold rule_set. apply runs_bind. do 2 eexists. split; [exact E|]. apply runs_bind.
  apply (runs_iptables "-A"%string ws); [by apply word_literal|done|done|done|done|done|]. intros Ew. cbn [log]. fold data in Ew |- *. set (cmd := str "iptables -t nat " ++ str "-A" ++ 32 :: data) in *.
  assert (rule_was_set ws w (if rc (answer (log w) (System cmd)) >? 0 then (0, Some (data, zlen data)) else (-1, None)) (ran cmd (World (log w) (live w + 1) (br_socket_fd w)))) as H.
  { exists cmd, data. split_and!; try done. intros w2. unfold nat_rule_del. rewrite (cstr_unwords ws Hw : cstr data = data).
    apply (runs_iptables "-D"%string ws); [by apply word_literal|done|done|done|done|done|]. intros Ed. by eexists. }
  destruct (rc (answer (log w) (System cmd)) >? 0); apply runs_ret; exact H.
Qed.

(** Setting and deleting a rule: both run [iptables] with the words of the
    rule.  The status of a command that worked is 0: then the function returns
    -1, and the text, which is needed to delete the rule, is neither given out
    nor freed; a rule that could not be set is reported as set. *)
Theorem nat_rule_set_inverted r w : nat_ok r -> malloc_ok DEFAULT_CMD_SIZE = true -> List.filter nonempty (nat_spaced r) = nat_argv r /\
  runs (nat_rule_set r) w (rule_was_set (nat_spaced r) w).
Proof.
  intros Hr Hm. split; [by apply nat_spaced_argv|]. pose proof (nat_length r Hr) as Hlen. set (data := unwords (nat_spaced r)) in *.
  assert (forall w0, (cmd ← sprintf DEFAULT_CMD_SIZE data; mret (Some cmd) : io (option bytes)) w0 = Some (Some data, w0)) as Hs.
  { intros w0. unfold sprintf. by rewrite (proj2 (Z.leb_le _ _)) by (unfold DEFAULT_CMD_SIZE; lia). }
  destruct r; cbn [nat_rule_set]; unfold dnat_rule_set, snat_rule_set; apply rule_set_words; try (by apply nat_spaced_words); try done;
    unfold dnat_make_cmd, snat_make_cmd; rewrite Hm; cbn [dev_name interface fmt_s]; rewrite name_cstr by apply Hr; apply Hs.
Qed.

End Rules.

(** ** The two processes *)

Section Container.
Context {al : Allocator} {kernel : Kernel}.

(** The commands of a history. *)
Definition commands (h : history) : list bytes := omap (fun e => match fst e with System cmd => Some cmd | _ => None end) h.

Lemma commands_snoc h c r : commands (h ++ [(c, r)]) = commands h ++ match c with System cmd => [cmd] | _ => [] end.
Proof. unfold commands. rewrite omap_app. f_equal. by destruct c. Qed.

(** A sequence of calls that can be made from the variables in [P], and the
    commands they run. *)
Inductive emits {S} : (S -> Prop) -> list (instr S) -> list bytes -> Prop :=
| emits_nil P : emits P [] []
| emits_do (P P' : S -> Prop) f l cs out :
    (forall s w, P s -> exists s' w', f s w = Some (s', w') /\ P' s' /\ commands (log w') = commands (log w) ++ cs) ->
    emits P' l out -> emits P (Do f :: l) (cs ++ out).

Definition child_commands : list bytes :=
  [str "ip link set lo up"; str "ip address add 192.168.8.2/24 dev vveth0"; str "ip link set vveth0 up"; str "ip route add default via 192.168.8.1"].
Definition setup_commands (child_pid : Z) : list bytes :=
  [str "ip link add veth0 type veth peer name vveth0"; str "ip link set dev vveth0 netns " ++ fmt_d child_pid;
   str "ip address add 192.168.8.1/24 dev veth0"; str "ip link set veth0 up";
   str "iptables -t nat -A  PREROUTING -p tcp --dport 9999 -i eth0  -j DNAT --to 192.168.8.2:9999";
   str "iptables -t nat -A  POSTROUTING -s 192.168.8.2 -o eth0 -j MASQUERADE"].
(** The commands of both; without a child only those of the parent. *)
Definition container_commands (child_pid : Z) : list bytes :=
  setup_commands child_pid ++ (if child_pid <? 0 then [] else child_commands) ++ [str "ip link delete veth0"].
Definition container_steps (child_pid : Z) : nat := if child_pid <? 0 then 12 else 21.

(** What [clone] returns; the limit of process numbers is below [10 ^ 9]. *)
Definition clone_result (child_pid : Z) : Prop := child_pid = -1 \/ 0 < child_pid < 10 ^ 9.

(** What the child does until it waits. *)
Definition child_waits (cp : list (instr unit)) (ce : bool) : Prop := exists l (P : unit -> Prop),
  cp = (if ce then [ClosePipe] else []) ++ l ++ ReadPipe :: child_network /\ emits P l [] /\ P tt.

Inductive phase (total : list bytes) : processes -> Prop :=
| setting_up w l s (P : parent_vars -> Prop) out cp ce : emits P l out -> P s -> child_waits cp ce ->
    commands (log w) ++ out ++ child_commands ++ [str "ip link delete veth0"] = total ->
    phase total (Processes w (l ++ ClosePipe :: WaitChild :: parent_cleanup) s cp true ce)
| released w s cp ce : child_waits cp ce -> commands (log w) ++ child_commands ++ [str "ip link delete veth0"] = total ->
    phase total (Processes w (WaitChild :: parent_cleanup) s cp false ce)
| child_works w s l (P : unit -> Prop) out ce : emits P l out -> P tt -> commands (log w) ++ out ++ [str "ip link delete veth0"] = total ->
    phase total (Processes w (WaitChild :: parent_cleanup) s l false ce)
| finishing w l s (P : parent_vars -> Prop) out ce : emits P l out -> P s -> commands (log w) ++ out = total ->
    phase total (Processes w l s [] false ce)
| alone w l s (P : parent_vars -> Prop) out ce : emits P l out -> P s -> commands (log w) ++ out ++ [str "ip link delete veth0"] = total ->
    phase total (Processes w (l ++ ClosePipe :: WaitChild :: parent_cleanup) s [] true ce).

(** A literal command. *)
Lemma emits_shell {S} (P : S -> Prop) (x : io Z) l cmd out : (forall w, exists r, x w = Some (r, ran cmd w)) -> emits P l out -> emits P (ignore x :: l) (cmd :: out).
Proof.
  intros Hx Hl. apply (emits_do P P _ l [cmd]); [|done]. intros s w Hs. destruct (Hx w) as [r E]. exists s, (ran cmd w). split; [|split; [done|]].
  - unfold mbind, io_bind. by rewrite E.
  - unfold ran. cbn [log]. by rewrite commands_snoc.
Qed.

Lemma emits_quiet {S} (P : S -> Prop) c l out : (forall cmd, c <> System cmd) -> emits P l out -> emits P (ignore (syscall c) :: l) out.
Proof.
  intros Hc Hl. apply (emits_do P P _ l []); [|done]. intros s w Hs. do 2 eexists. split; [reflexivity|]. split; [done|]. cbn [log]. rewrite commands_snoc. destruct c; try done. by destruct (Hc cmd).
Qed.

Lemma child_emits : emits (fun _ : unit => True) child_network child_commands.
Proof.
  unfold child_network, child_commands. repeat apply emits_shell; [by intros; eexists..|]. apply emits_quiet; [done|apply emits_nil].
Qed.

Lemma cleanup_emits : emits (fun _ => True) parent_cleanup [str "ip link delete veth0"].
Proof.
  apply (emits_do _ (fun _ => True) _ _ []). { intros s w _. destruct (dnat_str s) eqn:E; rewrite ?E; do 2 eexists; (split; [reflexivity|]); by rewrite app_nil_r. }
  apply (emits_do _ (fun _ => True) _ _ []). { intros s w _. destruct (snat_str s) eqn:E; rewrite ?E; do 2 eexists; (split; [reflexivity|]); by rewrite app_nil_r. }
  apply emits_shell; [by intros; eexists|apply emits_nil].
Qed.

Lemma child_waits_start : child_waits child_main true.
Proof. eexists [_; _], (fun _ => True). split; [reflexivity|]. split; [|done]. repeat (apply emits_quiet; [done|]). apply emits_nil. Qed.

Lemma nat_emits : malloc_ok DEFAULT_CMD_SIZE = true ->
  (forall w, exists r w', dnat_rule_set (Some d_rule) true true w = Some (r, w') /\
    commands (log w') = commands (log w) ++ [str "iptables -t nat -A  PREROUTING -p tcp --dport 9999 -i eth0  -j DNAT --to 192.168.8.2:9999"]) /\
  (forall w, exists r w', snat_rule_set (Some s_rule) true true w = Some (r, w') /\
    commands (log w') = commands (log w) ++ [str "iptables -t nat -A  POSTROUTING -s 192.168.8.2 -o eth0 -j MASQUERADE"]).
Proof.
  intros Hm. assert (forall make data (w : world), make w = Some (Some data, World (log w) (live w + 1) (br_socket_fd w)) -> zlen data <= 100 -> exists r w',
    rule_set make true w = Some (r, w') /\ commands (log w') = commands (log w) ++ [str "iptables -t nat -A " ++ data]) as H.
  { intros make data w E Hlen. change (runs (rule_set make true) w (fun _ w' => commands (log w') = commands (log w) ++ [str "iptables -t nat -A " ++ data])).
    unfold rule_set. apply runs_bind. do 2 eexists. split; [exact E|]. unfold shell, sprintf. rewrite (proj2 (Z.leb_le _ _)).
    2: { rewrite zlen_app. unfold DEFAULT_CMD_SIZE. change (zlen (str "iptables -t nat -A ")) with 19. lia. }
    apply runs_bind, runs_bind, runs_ret. unfold system. apply runs_bind, runs_syscall, runs_ret. case_match; apply runs_ret; cbn [log]; by rewrite commands_snoc. }
  split; intros w; (eapply H; [unfold dnat_make_cmd, snat_make_cmd; rewrite Hm; reflexivity|by vm_compute]).
Qed.

Lemma setup_emits pid : malloc_ok DEFAULT_CMD_SIZE = true -> clone_result pid -> emits (fun _ => True) (parent_setup pid) (setup_commands pid).
Proof.
  intros Hm Hp. assert (word (fmt_d pid)) as Hw by apply fmt_d_word. assert (zlen (fmt_d pid) <= 9) as Hlen.
  { destruct Hp as [->|Hp]; [by vm_compute|]. unfold fmt_d, print_int64. rewrite (proj2 (Z.ltb_ge _ _)) by lia. pose proof (NlAddr.dec_aux_short 9 (Datatypes.S (Z.to_nat (Z.log2 pid))) pid [] ltac:(lia) ltac:(cbn; lia)) as H.
    unfold zlen, print_nat. cbn [length] in H. lia. }
  apply (emits_do _ (fun s => space_name s = fmt_d pid) _ _ []).
  { intros s w _. unfold sprintf. rewrite (proj2 (Z.leb_le _ _)) by lia. do 2 eexists. split; [reflexivity|]. by rewrite app_nil_r. }
  apply emits_shell; [by intros; eexists|]. apply (emits_do _ (fun _ => True) _ _ [str "ip link set dev vveth0 netns " ++ fmt_d pid]).
  { intros s w ->. set (cmd := str "ip link set dev vveth0 netns " ++ fmt_d pid). assert (interface_to_namespace (Some (fmt_d pid)) (Some vv_name) w = Some (rc (answer (log w) (System cmd)), ran cmd w)) as E.
    { unfold interface_to_namespace. rewrite (cstr_word (fmt_d pid) Hw). change (str "ip link set dev " ++ _) with cmd. unfold shell, sprintf.
      rewrite (proj2 (Z.leb_le _ _)); [done|]. unfold cmd. rewrite zlen_app. change (zlen (str "ip link set dev vveth0 netns ")) with 29. unfold DEFAULT_CMD_SIZE. lia. }
    exists s, (ran cmd w). split; [|split; [done|]].
    - unfold mbind, io_bind. by rewrite E.
    - unfold ran. cbn [log]. by rewrite commands_snoc. }
  do 2 (apply emits_shell; [by intros; eexists|]). destruct (nat_emits Hm) as [Hd Hs].
  apply (emits_do _ (fun _ => True) _ _ [_]). { intros s w _. destruct (Hd w) as (r & w' & E & Ec). do 2 eexists. split; [unfold mbind, io_bind; rewrite E; reflexivity|done]. }
  apply (emits_do _ (fun _ => True) _ _ [_]); [|apply emits_nil]. intros s w _. destruct (Hs w) as (r & w' & E & Ec). do 2 eexists. split; [unfold mbind, io_bind; rewrite E; reflexivity|done].
Qed.

(** One call of a sequence. *)
Lemma emits_call {S} (P : S -> Prop) f l out s w s' w' : emits P (Do f :: l) out -> P s -> f s w = Some (s', w') -> exists (P' : S -> Prop) cs out',
  out = cs ++ out' /\ emits P' l out' /\ P' s' /\ commands (log w') = commands (log w) ++ cs.
Proof.
  intros He Hs E. inversion He as [|P0 P' f0 l0 cs out' Hf Hl]; subst. destruct (Hf s w Hs) as (s1 & w1 & E1 & Hs1 & Ec). rewrite E in E1. injection E1 as <- <-. by exists P', cs, out'.
Qed.

Lemma emits_calls {S} (P : S -> Prop) i l out : emits P (i :: l) out -> exists f, i = Do f.
Proof. inversion 1. by eexists. Qed.

Lemma child_call f cp ce w w' : child_waits (Do f :: cp) ce -> f tt w = Some (tt, w') -> child_waits cp ce /\ commands (log w') = commands (log w).
Proof.
  intros (l & P & E & He & HP) Ef. destruct ce; [done|]. destruct l as [|i l]; [done|]. cbn [app] in E. injection E as <- ->.
  destruct (emits_call P f l [] tt w tt w' He HP Ef) as (P' & cs & out' & Eo & He' & HP' & Ec). symmetry in Eo. apply app_eq_nil in Eo as [-> ->]. rewrite app_nil_r in Ec.
  split; [|done]. by exists l, P'.
Qed.

Lemma child_close cp ce : child_waits (ClosePipe :: cp) ce -> child_waits cp false.
Proof.
  intros (l & P & E & He & HP). destruct ce; cbn [app] in E; [injection E as ->; by exists l, P|]. destruct l as [|i l]; [done|]. destruct (emits_calls _ _ _ _ He) as [f ->]. done.
Qed.

Lemma child_read cp ce : child_waits (ReadPipe :: cp) ce -> cp = child_network.
Proof.
  intros (l & P & E & He & HP). destruct ce; [done|]. destruct l as [|i l]; [by injection E as ->|]. destruct (emits_calls _ _ _ _ He) as [f ->]. done.
Qed.

Lemma child_waiting ce : ~ child_waits [] ce.
Proof. intros (l & P & E & _). destruct ce; [done|]. by destruct l. Qed.

(** Every step of a phase leads to a phase. *)
Lemma phase_step total p p' : phase total p -> step p p' -> phase total p'.
Proof.
  intros Hph Hst. destruct Hph as [w l s P out cp ce He Hs Hc Ht|w s cp ce Hc Ht|w s l P out ce He HP Ht|w l s P out ce He Hs Ht|w l s P out ce He Hs Ht].
  - inversion Hst as [f s0 s' w0 w' pp cp0 pe ce0 Ef| | |f s0 w0 w' pp cp0 pe ce0 Ef| |]; subst; clear Hst.
    + destruct l as [|i l]; [done|]. cbn [app] in *. simplify_eq. destruct (emits_call P f l out s w s' w' He Hs Ef) as (P' & cs & out' & -> & He' & Hs' & Ec).
      apply (setting_up _ w' l s' P' out'); try done. by rewrite Ec, <- !app_assoc.
    + destruct l as [|i l]; [|destruct (emits_calls _ _ _ _ He) as [f ->]; done]. cbn [app] in *. simplify_eq. inversion He; subst. by apply released.
    + destruct l as [|i l]; [done|]. destruct (emits_calls _ _ _ _ He) as [f ->]. done.
    + destruct (child_call _ _ _ _ _ Hc Ef) as [Hc' Ec]. apply (setting_up _ w' l s P out); try done. by rewrite Ec.
    + apply (setting_up _ w l s P out); try done. by apply child_close in Hc.
  - inversion Hst as [| | |f s0 w0 w' pp cp0 pe ce0 Ef| |]; subst; clear Hst.
    + by apply child_waiting in Hc.
    + destruct (child_call _ _ _ _ _ Hc Ef) as [Hc' Ec]. apply released; [done|]. by rewrite Ec.
    + apply released; [by apply child_close in Hc|done].
    + apply child_read in Hc as ->. apply (child_works _ w s child_network (fun _ => True) child_commands); [apply child_emits|done|done].
  - inversion Hst as [| | |f s0 w0 w' pp cp0 pe ce0 Ef| |]; subst; clear Hst.
    + inversion He; subst. apply (finishing _ w parent_cleanup s (fun _ => True) [str "ip link delete veth0"]); [apply cleanup_emits|done|done].
    + destruct (emits_call P f cp0 out tt w tt w' He HP Ef) as (P' & cs & out' & -> & He' & HP' & Ec). apply (child_works _ w' s cp0 P' out'); try done.
      by rewrite Ec, <- !app_assoc.
    + by destruct (emits_calls _ _ _ _ He).
    + by destruct (emits_calls _ _ _ _ He).
  - inversion Hst as [f s0 s' w0 w' pp cp0 pe ce0 Ef| | | | |]; subst; clear Hst.
    + destruct (emits_call P f pp out s w s' w' He Hs Ef) as (P' & cs & out' & -> & He' & Hs' & Ec). apply (finishing _ w' pp s' P' out'); try done. by rewrite Ec, <- app_assoc.
    + by destruct (emits_calls _ _ _ _ He).
    + by destruct (emits_calls _ _ _ _ He).
  - inversion Hst as [f s0 s' w0 w' pp cp0 pe ce0 Ef| | | | |]; subst; clear Hst.
    + destruct l as [|i l]; [done|]. cbn [app] in *. simplify_eq. destruct (emits_call P f l out s w s' w' He Hs Ef) as (P' & cs & out' & -> & He' & Hs' & Ec).
      apply (alone _ w' l s' P' out'); try done. by rewrite Ec, <- !app_assoc.
    + destruct l as [|i l]; [|destruct (emits_calls _ _ _ _ He) as [f ->]; done]. cbn [app] in *. simplify_eq. inversion He; subst.
      apply (child_works _ w s [] (fun _ => True) []); [apply emits_nil|done|done].
    + destruct l as [|i l]; [done|]. destruct (emits_calls _ _ _ _ He) as [f ->]. done.
Qed.

Lemma emits_runs {S} (P : S -> Prop) i l out s w : emits P (i :: l) out -> P s -> exists f s' w', i = Do f /\ f s w = Some (s', w').
Proof. inversion 1 as [|P0 P' f l0 cs out' Hf Hl]; subst. intros Hs. destruct (Hf s w Hs) as (s' & w' & E & _). by exists f, s', w'. Qed.

Lemma phase_goes_on total p : phase total p -> (exists p', step p p') \/ (p_parent p = [] /\ p_child p = [] /\ commands (log (p_world p)) = total).
Proof.
  intros [w l s P out cp ce He Hs Hc Ht|w s cp ce Hc Ht|w s l P out ce He HP Ht|w l s P out ce He Hs Ht|w l s P out ce He Hs Ht].
  - left. destruct l as [|i l]; [eexists; apply parent_closes|]. destruct (emits_runs P i l out s w He Hs) as (f & s' & w' & -> & E). eexists. by apply parent_does.
  - left. destruct Hc as (l & P & -> & He & HP). destruct ce; [eexists; apply child_closes|]. destruct l as [|i l]; [eexists; apply child_reads|].
    destruct (emits_runs P i l [] tt w He HP) as (f & [] & w' & -> & E). eexists. by apply child_does.
  - left. destruct l as [|i l]; [eexists; apply parent_waited|]. destruct (emits_runs P i l out tt w He HP) as (f & [] & w' & -> & E). eexists. by apply child_does.
  - destruct l as [|i l]; [right; inversion He; subst; by rewrite app_nil_r|]. left. destruct (emits_runs P i l out s w He Hs) as (f & s' & w' & -> & E). eexists. by apply parent_does.
  - left. destruct l as [|i l]; [eexists; apply parent_closes|]. destruct (emits_runs P i l out s w He Hs) as (f & s' & w' & -> & E). eexists. by apply parent_does.
Qed.

Lemma step_size p p' : step p p' -> (length (p_parent p) + length (p_child p) = Datatypes.S (length (p_parent p') + length (p_child p')))%nat.
Proof. destruct 1; cbn [p_parent p_child length]; lia. Qed.

Lemma phase_reaches total k : forall p, phase total p -> (length (p_parent p) + length (p_child p) = k)%nat -> exists p', nsteps step k p p'.
Proof.
  induction k as [|k IH]; intros p Hp Hk; [exists p; apply nsteps_O|]. destruct (phase_goes_on total p Hp) as [(p1 & Hst)|(E1 & E2 & _)]; [|rewrite E1, E2 in Hk; done].
  pose proof (step_size _ _ Hst). destruct (IH p1 (phase_step _ _ _ Hp Hst) ltac:(lia)) as [p' Hn]. exists p'. by apply nsteps_l with p1.
Qed.

Lemma phase_prefix total p : phase total p -> commands (log (p_world p)) `prefix_of` total.
Proof. by intros [? ? ? ? ? ? ? ? ? ? <-|? ? ? ? ? <-|? ? ? ? ? ? ? ? <-|? ? ? ? ? ? ? ? <-|? ? ? ? ? ? ? ? <-]; apply prefix_app_r. Qed.

Lemma phase_start pid w : malloc_ok DEFAULT_CMD_SIZE = true -> clone_result pid -> phase (commands (log w) ++ container_commands pid) (after_clone true pid w).
Proof.
  intros Hm Hp. pose proof (setup_emits pid Hm Hp) as He. unfold after_clone, container_commands. destruct Hp as [->|Hp].
  - by apply (alone _ w (parent_setup (-1)) _ (fun _ => True) (setup_commands (-1))).
  - rewrite (proj2 (Z.ltb_ge _ _)) by lia. apply (setting_up _ w (parent_setup pid) _ (fun _ => True) (setup_commands pid)); [done|done|apply child_waits_start|done].
Qed.

Lemma after_clone_size pipe_ok pid w : (length (p_parent (after_clone pipe_ok pid w)) + length (p_child (after_clone pipe_ok pid w)) = container_steps pid)%nat.
Proof. unfold after_clone, container_steps. by destruct (pid <? 0). Qed.

(** C7: the parent and the child in every interleaving, from a [pipe] that
    worked and a [clone] that made a process with a number below [10 ^ 9] or
    failed with -1, when the texts of the rules can be allocated: whatever the
    later calls of the kernel answer, each state the two processes reach is one
    with commands run so far that are the first ones of a fixed list (the parent
    sets the interface pair and the rules up, then the child, if there is one,
    its side, then the parent removes the pair); it can go on, or both processes
    have ended and all commands of the list have been run; this is so after 21
    steps, or after 12 without a child.  Without the pipe there is no such order
    ([container_pipe_unchecked]). *)
Theorem container_commands_ordered pid w n p : malloc_ok DEFAULT_CMD_SIZE = true -> clone_result pid -> nsteps step n (after_clone true pid w) p ->
  (n + length (p_parent p) + length (p_child p) = container_steps pid)%nat /\ commands (log (p_world p)) `prefix_of` commands (log w) ++ container_commands pid /\
  ((exists p', step p p') \/ (p_parent p = [] /\ p_child p = [] /\ commands (log (p_world p)) = commands (log w) ++ container_commands pid)).
Proof.
  intros Hm Hp Hn. pose proof (phase_start pid w Hm Hp) as Hph. set (total := _ ++ _) in *. rewrite <- (after_clone_size true pid w).
  assert (n + length (p_parent p) + length (p_child p) = length (p_parent (after_clone true pid w)) + length (p_child (after_clone true pid w)) /\ phase total p)%nat as [H1 H2].
  { induction Hn as [q|n q1 q2 q3 Hst Hn IH]; [split; [lia|done]|]. destruct (IH (phase_step _ _ _ Hph Hst)) as [H1 H2]. pose proof (step_size _ _ Hst). split; [lia|done]. }
  split; [done|]. split; [by apply phase_prefix|by apply phase_goes_on].
Qed.

End Container.

(** ** Samples *)

Section Samples.
#[local] Existing Instance sample_alloc.
#[local] Instance agreeable : Kernel := fun _ _ => Reply 0 0 [] 0 0 0.

Definition idle : world := World [] 0 (-1).


Lemma container_commands_ordered_witness : exists p, nsteps step 21 (after_clone true 4711 idle) p /\ commands (log (p_world p)) = container_commands 4711.
Proof.
  assert (clone_result 4711) as Hp by (right; lia).
  destruct (phase_reaches _ 21 _ (phase_start (al := sample_alloc) (kernel := agreeable) 4711 idle eq_refl Hp) eq_refl) as [p Hn]. destruct (container_commands_ordered 4711 idle 21 p) as (Hk & _ & [(p' & Hs)|(_ & _ & Hc)]).
  - reflexivity.
  - exact Hp.
  - exact Hn.
  - pose proof (step_size _ _ Hs) as Hs'. change (container_steps 4711) with 21%nat in Hk. lia.
  - exists p. split; [exact Hn|exact Hc].
Defined.

(** *** What goes wrong *)

(** The result of [pipe] is not looked at: when it failed, the child does not
    wait and may give addresses to an interface that the parent has not made
    yet. *)
Theorem container_pipe_unchecked : exists p, nsteps step 6 (after_clone false 4711 idle) p /\ p_parent p = parent_main 4711 /\ commands (log (p_world p)) = take 2 child_commands.
Proof.
  eexists. split; [|split].
  - eapply nsteps_l; [apply child_closes|]. do 2 (eapply nsteps_l; [by apply child_does|]). eapply nsteps_l; [apply child_reads|].
    do 2 (eapply nsteps_l; [by apply child_does|]). apply nsteps_O.
  - reflexivity.
  - by vm_compute.
Qed.

(** The rules are never deleted: [main] looks at the texts the wrong way
    round. *)
Theorem container_keeps_rules pid : Forall (fun cmd => take 18 cmd <> str "iptables -t nat -D") (container_commands pid).
Proof. unfold container_commands, setup_commands, child_commands. destruct (pid <? 0); cbn [app]; repeat (apply list.Forall_cons; split); [done..|apply Forall_nil; done]. Qed.

(** A name of 115 bytes does not fit, and a name with a semicolon is a second
    command. *)
Theorem interface_names_unchecked : netspace_create (Some (replicate 115 97)) idle = None /\
  exists w', netspace_create (Some (str "a;reboot")) idle = Some (0, w') /\ commands (log w') = [str "ip netns add a;reboot"].
Proof. split; [by vm_compute|]. eexists. split; [reflexivity|by vm_compute]. Qed.

End Samples.

End NetInterface.
