(* ===== verification/NetIptable.v ===== *)
(** * Rules of the bridge program ([network/code/iptable.c], [main.c])

    The rules of [iptable.c] have a protocol or a prefix length, and keep the
    text that deletes them; the commands are made as in [NetInterface].  What
    of [main.c] is compiled makes a bridge and deletes it again: the rest is
    between [#if 0] and [#endif].

    The theorem: the words of the commands of a rule, with the status taken
    the wrong way round as in [NetInterface].  At the end a protocol that is
    neither TCP nor UDP. *)

From S2P Require Import Prelude JsonUtil Netlink Syscalls NetRequests NlAddr NetInterface.
From Stdlib Require Import ZArith Lia String.
From stdpp Require Import base list numbers option.

Open Scope Z_scope.

Module NetIptable.
Import Syscalls.
Import NetInterface (in_addr, inet_ntoa, sprintf, fmt_d, fmt_s, shell, DEFAULT_CMD_SIZE, nonempty, word, name_ok, addr_ok, unwords, ran, sh_words, iptables, rule_was_set).

(** [enum net_proto]. *)
Definition PROTO_TCP : Z := 0.
Definition PROTO_UDP : Z := 1.

Record dnat_rule := Dnat { proto : Z; dport : Z; dnat_addr : in_addr; cport : Z; dnat_cmd : option bytes; dnat_cmd_len : Z }.
Record snat_rule := Snat { interface : option bytes; prefix : Z; snat_addr : in_addr; snat_cmd : option bytes; snat_cmd_len : Z }.

Section Functions.
Context {al : Allocator} {kernel : Kernel}.

(** [calloc] makes an empty text. *)
Definition dnat_make_cmd (rule : dnat_rule) : io (option bytes) :=
  if malloc_ok DEFAULT_CMD_SIZE then
    heap 1 ;;
    cmd ← (if proto rule =? PROTO_TCP then
             sprintf DEFAULT_CMD_SIZE (str " PREROUTING -p tcp --dport " ++ fmt_d (dport rule) ++ str " -j DNAT --to-destination " ++ inet_ntoa (dnat_addr rule) ++ str ":" ++ fmt_d (cport rule))
           else if proto rule =? PROTO_UDP then
             sprintf DEFAULT_CMD_SIZE (str " PREROUTING -p udp --dport " ++ fmt_d (dport rule) ++ str "  -j DNAT --to-destination " ++ inet_ntoa (dnat_addr rule) ++ str ":" ++ fmt_d (cport rule))
           else mret []);
    mret (Some cmd)
  else mret None.

Definition snat_make_cmd (rule : snat_rule) : io (option bytes) :=
  match interface rule with
  | None => mret None
  | Some interface =>
      if (prefix rule <? 0) || (prefix rule >? 32) then mret None else
      if malloc_ok DEFAULT_CMD_SIZE then
        heap 1 ;;
        cmd ← sprintf DEFAULT_CMD_SIZE (str " POSTROUTING -s " ++ inet_ntoa (snat_addr rule) ++ str "/" ++ fmt_d (prefix rule) ++ str " -o " ++ cstr interface ++ str " -j MASQUERADE");
        mret (Some cmd)
      else mret None
  end.

(** The result, and the rule with the text that was stored in it. *)
Definition dnat_rule_set (rule : option dnat_rule) : io (Z * option dnat_rule) :=
  match rule with
  | None => mret (-1, None)
  | Some rule =>
      data ← dnat_make_cmd rule;
      match data with
      | None => mret (-1, Some rule)
      | Some data =>
          ret ← shell (str "iptables -t nat -A " ++ data);
          if ret >? 0 then mret (0, Some (Dnat (proto rule) (dport rule) (dnat_addr rule) (cport rule) (Some data) (zlen data))) else mret (-1, Some rule)
      end
  end.
Definition snat_rule_set (rule : option snat_rule) : io (Z * option snat_rule) :=
  match rule with
  | None => mret (-1, None)
  | Some rule =>
      data ← snat_make_cmd rule;
      match data with
      | None => mret (-1, Some rule)
      | Some data =>
          ret ← shell (str "iptables -t nat -A " ++ data);
          if ret >? 0 then mret (0, Some (Snat (interface rule) (prefix rule) (snat_addr rule) (Some data) (zlen data))) else mret (-1, Some rule)
      end
  end.

Definition nat_rule_del (cmd_data : option bytes) : io Z :=
  match cmd_data with None => mret (-1) | Some cmd_data => shell (str "iptables -t nat -D " ++ cstr cmd_data) end.

(** [main]. *)
Definition main : io Z :=
  _ ← NetRequests.br_init; _ ← NetRequests.br_add_bridge (str "test"); _ ← NetRequests.br_del_bridge (str "test"); mret 0.

End Functions.

(** ** The words of a rule *)

Section Rules.
Context {al : Allocator} {kernel : Kernel}.

Inductive nat_rule := NatD (r : dnat_rule) | NatS (r : snat_rule) (dev : bytes).

(** Setting a rule, with the text it keeps afterwards. *)
Definition nat_rule_set (r : nat_rule) : io (Z * option (bytes * Z)) :=
  match r with
  | NatD r => '(ret, r') ← dnat_rule_set (Some r); mret (ret, if ret <? 0 then None else r' ← r'; cmd ← dnat_cmd r'; Some (cmd, dnat_cmd_len r'))
  | NatS r _ => '(ret, r') ← snat_rule_set (Some r); mret (ret, if ret <? 0 then None else r' ← r'; cmd ← snat_cmd r'; Some (cmd, snat_cmd_len r'))
  end.

Definition nat_argv (r : nat_rule) : list bytes :=
  match r with
  | NatD r => [str "PREROUTING"; str "-p"; if proto r =? PROTO_TCP then str "tcp" else str "udp"; str "--dport"; fmt_d (dport r); str "-j"; str "DNAT"; str "--to-destination";
               inet_ntoa (dnat_addr r) ++ str ":" ++ fmt_d (cport r)]
  | NatS r dev => [str "POSTROUTING"; str "-s"; inet_ntoa (snat_addr r) ++ str "/" ++ fmt_d (prefix r); str "-o"; dev; str "-j"; str "MASQUERADE"]
  end.
Definition nat_spaced (r : nat_rule) : list bytes :=
  match r with
  | NatD r => if proto r =? PROTO_TCP then [] :: nat_argv (NatD r)
      else [[]; str "PREROUTING"; str "-p"; str "udp"; str "--dport"; fmt_d (dport r); []; str "-j"; str "DNAT"; str "--to-destination"; inet_ntoa (dnat_addr r) ++ str ":" ++ fmt_d (cport r)]
  | NatS r dev => [] :: nat_argv (NatS r dev)
  end.

Definition nat_ok (r : nat_rule) : Prop :=
  match r with
  | NatD r => (proto r = PROTO_TCP \/ proto r = PROTO_UDP) /\ addr_ok (dnat_addr r) /\ INT_MIN <= dport r <= INT_MAX /\ INT_MIN <= cport r <= INT_MAX
  | NatS r dev => interface r = Some dev /\ name_ok dev /\ zlen dev <= 15 /\ addr_ok (snat_addr r) /\ 0 <= prefix r <= 32
  end.

Definition make_cmd (r : nat_rule) : io (option bytes) := match r with NatD r => dnat_make_cmd r | NatS r _ => snat_make_cmd r end.

(** The functions differ from those of [interface.c] only in where they store
    the text. *)
Lemma nat_rule_set_same r w : nat_rule_set r w = NetInterface.rule_set (make_cmd r) true w.
Proof.
  destruct r as [r|r dev]; unfold nat_rule_set, dnat_rule_set, snat_rule_set, NetInterface.rule_set, make_cmd, mbind, io_bind.
  - destruct (dnat_make_cmd r w) as [[[data|] w1]|]; [|done..]. destruct (shell _ w1) as [[ret w2]|]; [|done]. by destruct (ret >? 0).
  - destruct (snat_make_cmd r w) as [[[data|] w1]|]; [|done..]. destruct (shell _ w1) as [[ret w2]|]; [|done]. by destruct (ret >? 0).
Qed.

Lemma addr_port_word a s n : addr_ok a -> word (str s) -> word (inet_ntoa a ++ str s ++ fmt_d n).
Proof. intros Ha Hs. apply NetInterface.word_app; [by apply NetInterface.inet_ntoa_ok|]. apply NetInterface.word_app; [done|apply NetInterface.fmt_d_word]. Qed.

Lemma nat_words r : nat_ok r -> Forall word (nat_spaced r).
Proof.
  destruct r as [r|r dev]; cbn [nat_ok nat_spaced nat_argv].
  - intros ([Hp|Hp] & Ha & _ & _); rewrite Hp; cbn [Z.eqb PROTO_TCP PROTO_UDP]; repeat (apply list.Forall_cons; split); try apply NetInterface.fmt_d_word;
      try (apply addr_port_word; [done|by apply NetInterface.word_literal]); NetInterface.command_words.
  - intros (_ & Hd & _ & Ha & _). repeat (apply list.Forall_cons; split); try (apply addr_port_word; [done|by apply NetInterface.word_literal]); NetInterface.command_words.
Qed.

Lemma nat_words_argv r : nat_ok r -> List.filter nonempty (nat_spaced r) = nat_argv r.
Proof.
  destruct r as [r|r dev]; cbn [nat_ok nat_spaced nat_argv].
  - intros ([Hp|Hp] & Ha & _ & _); rewrite Hp; cbn [Z.eqb PROTO_TCP PROTO_UDP]; repeat first [reflexivity
      | rewrite NetInterface.filter_word; [f_equal|first [done | apply NetInterface.fmt_d_nonempty | by apply NetInterface.ntoa_app_nonempty]]
      | progress change (List.filter nonempty ([] :: ?l)) with (List.filter nonempty l)].
  - intros (_ & Hd & _ & Ha & _). repeat first [reflexivity
      | rewrite NetInterface.filter_word; [f_equal|first [done | by apply NetInterface.nm_nonempty | by apply NetInterface.ntoa_app_nonempty]]
      | progress change (List.filter nonempty ([] :: ?l)) with (List.filter nonempty l)].
Qed.

Lemma nat_fits r : nat_ok r -> zlen (unwords (nat_spaced r)) < 107.
Proof.
  destruct r as [r|r dev]; cbn [nat_ok nat_spaced nat_argv].
  - intros ([Hp|Hp] & Ha & Hd & Hc); rewrite Hp; pose proof (NetInterface.fmt_d_short _ Hd); pose proof (NetInterface.fmt_d_short _ Hc);
      cbn [Z.eqb PROTO_TCP PROTO_UDP unwords]; NetInterface.command_bounds.
  - intros (_ & Hn & Hl & Ha & Hp). pose proof (NetInterface.fmt_d_short (prefix r) ltac:(unfold INT_MIN, INT_MAX; lia)). cbn [unwords]. NetInterface.command_bounds.
Qed.

(** A rule of [iptable.c]: setting and deleting it runs [iptables] once, with
    the words of the rule; the result is the wrong way round, as in
    [nat_rule_set_inverted]. *)
Theorem iptable_rule_set_inverted r w : nat_ok r -> malloc_ok DEFAULT_CMD_SIZE = true -> List.filter nonempty (nat_spaced r) = nat_argv r /\
  runs (nat_rule_set r) w (rule_was_set (nat_spaced r) w).
Proof.
  intros Hr Hm. split; [by apply nat_words_argv|]. pose proof (nat_fits r Hr) as Hlen. set (data := unwords (nat_spaced r)) in *.
  assert (forall w0, (cmd ← sprintf DEFAULT_CMD_SIZE data; mret (Some cmd) : io (option bytes)) w0 = Some (Some data, w0)) as Hs.
  { intros w0. unfold sprintf. by rewrite (proj2 (Z.leb_le _ _)) by (unfold DEFAULT_CMD_SIZE; lia). }
  unfold runs. rewrite nat_rule_set_same. apply NetInterface.rule_set_words; [by apply nat_words| |done|].
  - destruct r as [r|r dev]; cbn [nat_spaced]; [by destruct (proto r =? PROTO_TCP)|done].
  - destruct r as [r|r dev]; cbn [make_cmd nat_ok] in *; unfold dnat_make_cmd, snat_make_cmd.
    + rewrite Hm. destruct Hr as [[Hp|Hp] _]; cbn [data nat_spaced nat_argv] in Hs |- *; unfold data in Hs |- *; cbn [nat_spaced nat_argv] in Hs |- *; rewrite Hp in Hs |- *; apply Hs.
    + destruct Hr as (-> & Hn & _ & _ & Hp). rewrite (proj2 (Z.ltb_ge _ _)), Z.gtb_ltb, (proj2 (Z.ltb_ge _ _)), Hm, NetInterface.name_cstr by (done || lia). cbn [orb].
      pose proof (Hs (World (log w) (live w + 1) (br_socket_fd w))) as H. unfold data in H |- *. cbn [nat_spaced nat_argv unwords] in H |- *. rewrite <- app_assoc in H |- *. exact H.
Qed.

End Rules.

(** ** What goes wrong *)

Section Samples.
#[local] Existing Instance sample_alloc.

(** A rule for another protocol is a command without a rule. *)
Theorem other_protocol_runs (kernel : Kernel) : runs (dnat_rule_set (Some (Dnat 2 80 [10; 0; 0; 1] 80 None 0))) (World [] 0 (-1))
  (fun _ w' => map fst (log w') = [System (str "iptables -t nat -A ")]).
Proof.
  unfold dnat_rule_set. apply runs_bind. do 2 eexists. split; [reflexivity|]. apply runs_bind. unfold shell. apply runs_bind. do 2 eexists. split; [reflexivity|].
  unfold NetInterface.system. apply runs_bind, runs_syscall, runs_ret. case_match; by apply runs_ret.
Qed.

End Samples.

End NetIptable.
